(* ===== verification/_CoqProject ===== *)
-Q . S2P
Prelude.v
GoStd.v
Slices.v
Utf8.v
NetIP.v
HumanID.v
AgdProtobuf.v
Levenshtein.v
ConnLimiter.v
Schedule.v
FilterConfig.v
HashPrefix.v
DnsMsg.v
Filter.v
RuleList.v
Composite.v
Access.v
AgdCache.v
ConnPool.v
Refreshable.v
MsgConfig.v
RuleListStorage.v
DomainFilters.v
FilterStorage.v
RateLimit.v
Agd.v
ProfileDB.v
DeviceFinder.v
MainMW.v
RatelimitMW.v
InitialMW.v
PreMW.v
GeoIP.v
Http.v
DnsCheck.v
WebSvc.v
EcsCache.v
DnsCache.v
Forward.v
DnsServer.v
Transports.v
BindToDevice.v
Recorders.v
Pipeline.v
FileCachePB.v
BackendPB.v
TLSManager.v
Tickets.v
CustomDomains.v
BackendClients.v
Heap.v
Cloner.v
Config.v
ConfigBuild.v
CmdEnv.v
DebugSvc.v
ErrColl.v
RedisKV.v
