(* ===== verification/Prelude.v ===== *)
(** * AdGuard DNS: a verification of its core

    AdGuard DNS is a DNS server with user profiles.  A request comes in over
    plain DNS, DNS-over-TLS, -HTTPS, -QUIC or DNSCrypt; the connection limiter
    bounds the open stream connections; the device finder decides to which
    device and profile the request belongs, using the profile database, the
    custom domains and the human-readable device identifiers; the access settings
    and the rate limiters decide whether it is served; then it passes through the
    middlewares: special domains, hash queries and DNS checks, filtering by the
    lists and filters of the profile, the cache that respects client subnets,
    and the forwarder to the upstreams.  Statistics and logs are recorded on the
    way.  The profiles come from a backend and are cached in a file; they, the
    filters, the certificates and the location databases are kept up to date by
    periodic refreshes.

    ** Files

    Go and the shared base:
    - [Prelude] (this file): outcomes and error results of Go calls with their
      notation, shared tactics and hints, lemmas on lists and integers.
    - [GoStd], [Utf8], [NetIP], [Http]: what the code uses of Go's standard
      library: errors and [errors.Is], strings, binary search, 64-bit wrap-around
      and time; UTF-8 decoding and byte buffers; addresses and prefixes; HTTP
      requests, recorded responses and the headers that a proxy removes.
    - [Slices], [Heap]: a memory of arrays with the slices that share them, and a
      memory of objects with references and pools, for the code whose behaviour
      depends on aliasing.
    - [Agd], [HumanID], [Schedule], [Levenshtein], [AgdCache]: the data of
      internal/agd, its human-readable identifiers (the normaliser is the state
      machine of the code, one Definition per method), internal/agdtime and the
      schedules of internal/filter, internal/agdalg on pooled slices, and
      internal/agdcache.

    Data from outside:
    - [AgdProtobuf], [FileCachePB], [BackendPB]: internal/agdprotobuf, the
      encodings of internal/profiledb/filecacheopb in both directions with its
      storage, and the conversions and the profile storage of
      internal/backendgrpc.
    - [BackendClients], [RedisKV]: the other clients of the backend, those of
      Consul (internal/consul, internal/remotekv/consulkv), and that of Redis
      (internal/remotekv/rediskv).
    - [ProfileDB]: internal/profiledb.  The maps of [Default] are a record of
      finite maps; refreshes, lookups and the removals that lookups start as
      goroutines are events of a step system ([exec]).
    - [GeoIP]: internal/geoip, the choice of subnets, the lookups with their
      caches, and the refresh.
    - [TLSManager], [CustomDomains]: internal/tlsconfig, the sorted map, the
      certificate index and the manager; the custom-domain index and database.
      [Tickets] has the session tickets, their database and their rotation.
      [customdb_ops] implements the interface that [ProfileDB] uses, and
      [Match_contract] the one that [DeviceFinder] uses.

    Filtering:
    - [DnsMsg], [MsgConfig]: the messages of internal/dnsmsg as values, the
      constructor of responses and its configuration.
    - [Cloner]: the pooled cloner of internal/dnsmsg, over messages as objects in
      the memory of [Heap].
    - [Filter], [FilterConfig]: the data of internal/filter and the domain names
      of internal/agdnet.
    - [HashPrefix], [DomainFilters]: the hash-prefix storage and matcher, and the
      filters by domain name (hashprefix, domain, typosquatting).
    - [RuleList], [Composite]: the rule lists with their result caches and DNS
      rewrites; the filtering of requests and responses by all filters of a
      profile, and safe search.
    - [Refreshable], [RuleListStorage], [FilterStorage]: files that are refreshed
      from a URL, the storage of rule lists, and the storage that makes the
      filter of a configuration.
    - [Access]: internal/access, global and per profile.

    Serving:
    - [RateLimit], [ConnLimiter]: internal/dnsserver/ratelimit and
      internal/connlimiter.  The listeners and connections of the latter are a
      step system in which each critical section is one event.
    - [DeviceFinder]: internal/dnssvc/internal/devicefinder, from the device
      data of a request to [Find].  It uses the profile database through
      [ProfileDBInterface] and its promises ([ProfileDBPromises]); the instance
      [profiledb_promises] shows that [ProfileDB] keeps them.
    - [InitialMW], [RatelimitMW], [PreMW], [MainMW]: the middlewares of
      internal/dnssvc/internal.
    - [EcsCache], [DnsCache]: internal/ecscache and internal/dnsserver/cache.
    - [ConnPool], [Forward]: internal/dnsserver/pool and
      internal/dnsserver/forward.
    - [DnsServer], [Transports]: internal/dnsserver, what is served and how
      responses are normalised; the framings and limits of the transports.
    - [BindToDevice]: internal/bindtodevice, the index of subnets, the channels and
      the manager, with the pooled buffers of datagrams, as a step system.
    - [Recorders]: internal/billstat, dnsdb, querylog and rulestat.
    - [Pipeline]: the chain of handlers of internal/dnssvc/handler.go, over all of
      the above.
    - [DnsCheck], [WebSvc]: internal/dnscheck with internal/remotekv, and the
      handlers of internal/websvc.

    Start-up and operation (internal/cmd and around it):
    - [Config], [ConfigBuild]: the sections of the configuration file with their
      validation, and what the start-up code makes of them.
    - [CmdEnv]: the environment, its validation, and the URLs and storages that the
      start-up code takes from it.
    - [DebugSvc]: internal/debugsvc and the manager of caches.
    - [ErrColl]: internal/errcoll, over errors with their dynamic types.

    ** What the theorems show

    - End to end: a request of a profile is answered by the filters that its
      configuration enables, with the response that the blocking mode asks for,
      or with that of the upstream; a request that nothing filters gets the
      response of the upstream unchanged.  Both are about the requests that no
      other part of the chain answers, which the statements describe.
    - Identifiers: exactly which strings the normaliser accepts; the extended form
      is parsed back from its parts.
    - Profiles: after a full synchronisation each of the four lookups finds
      exactly the devices of the response; whatever the events and their order,
      a lookup returns a device with its own profile and the attribute that was
      asked for.  The profiles of the backend are well formed when they are read,
      and survive being stored and loaded, which is shown over both encodings, but
      for the flag of the streamed query log and the state of the limiters.
    - Device finding: [Find] never panics, never returns a device with
      credentials without checking them, returns only devices that belong to the
      profile, and respects the profiles of a custom domain.
    - Access and limits: exactly which requests are let in; the decisions on one
      client are those of an abstract limiter; the number of active connections
      never exceeds the limit.
    - Filtering: a result cache never gives a result of rules that have been
      replaced, and changes no result unless the rules look at the client; the
      order of priority of rewrite rules, of rule lists and of
      the other filters; every verdict names a list that has matched and a rule of
      it; the filter that is made for a configuration has exactly what the
      configuration enables; refreshes keep the storages consistent; hash
      prefixes and edit distances are computed correctly.
    - Caches and upstreams: an answer from a cache is one that was received for
      the same question and subnet and has not expired; only the subnet of the
      location is sent upstream; a response that is forwarded belongs to the
      request; every pooled connection is in the pool, in use by one user, or
      closed.
    - Servers: a UDP response fits the announced size; streams are read back
      message by message, and reading ends; a client is sent what the handler
      writes, or else one error with the code of the protocol.
    - Recording: what is recorded is what the settings of the profile allow;
      billing counts are conserved by uploads that fail.
    - Certificates: a handshake gets the certificate that was bound first among
      those that support it;
      custom domains match exactly the valid and present certificates; the
      session tickets of a response become the keys, also after a restart.
    - Memory: messages in use keep their contents while others are cloned,
      written to and disposed of, whatever the pools return, if messages are
      received with an array for each slice; a datagram of a device-bound socket is
      read once, on the connection of the narrowest subnet, with its own bytes.
    - Start-up: a configuration that passes validation and has a web section is
      built without a panic, with the settings of its servers; a valid environment has what the chosen
      storages need.
    - Operation: clearing caches clears those that the patterns name; which
      errors are reported; a value that is set in Redis is read back, and no
      connection is kept.
    - Locations: the subnet of a country is one of its networks with the length
      closest to the desired one; lookups return the data of the current files,
      but for the numbers that lookups of subnets write to cached locations.
    - Checks and the web: a check is reported to the client that made it; the
      backend of linked addresses gets no address that the client chose.
    Some theorems state what the code does where it departs from its comments or
    its purpose, on concrete runs of the model.

    ** Modelling

    A Go function that can panic returns an [outcome]; an [error] result is a
    [result] or an option of [error], a tree of constants, wrappers and joins,
    in which only the identity of constants and the format string of wrappers
    are kept.  Machine integers are [Z] with the wrap-around written out where it
    can occur.  Instants are nanoseconds since the zero time of Go, and the clock
    is an argument.  Locks are modelled by the granularity of events: one
    critical section is one step.  Third-party functions are class parameters
    with their documented laws, and each class has a concrete instance for the
    witnesses.  Go maps are finite maps, and where the code ranges over a map,
    the order is that of [map_to_list] or an arbitrary one, as the definition
    says.  Loops are structural recursions over the data that the code ranges
    over; the binary search of [GoStd] takes fuel, the length of the slice, the
    decoding of runes in [Utf8] the length of the string, and the reading of a
    stream in [Transports] more than its length, which their specifications show
    to be enough.

    Logging, metrics and tracing are left out throughout; errors that the code
    gives to its error collector are kept as a list in the state.

    ** Not modelled

    Network and file input and output, with the socket options and the listeners of
    the servers; generated code and tables (the list of blocked client subnets, the
    top networks of countries, the messages of protocol buffers), which are
    parameters; the decoding of YAML, of JSON and of the environment, which is done
    by libraries; the order in which builder.go creates the services from the parts
    of [ConfigBuild], which are calls of constructors; metrics, logs and test
    helpers. *)

From stdpp Require Export base tactics list gmap strings sorting.
From Stdlib Require Export ZArith Lia Bool Ascii.

#[global] Set Default Goal Selector "!".

(** ** Outcomes of Go calls

    A Go call either returns or panics.  A function with an [error] result
    returns [Ok] with its other results or [Err] with the error. *)

Inductive outcome (A : Type) :=
  | Ret (a : A)
  | Panic (msg : string).
Arguments Ret {A} _.
Arguments Panic {A} _.

Inductive result (E A : Type) :=
  | Ok (a : A)
  | Err (e : E).
Arguments Ok {E A} _.
Arguments Err {E A} _.

Definition outcome_bind {A B} (c : outcome A) (k : A -> outcome B) : outcome B :=
  match c with Ret a => k a | Panic m => Panic m end.

Definition result_bind {E A B} (c : result E A) (k : A -> result E B) : result E B :=
  match c with Ok a => k a | Err e => Err e end.

Definition is_ok {E A} (r : result E A) : bool :=
  match r with Ok _ => true | Err _ => false end.

Declare Scope go_scope.
Delimit Scope go_scope with go.

Notation "'let!' x ':=' c 'in' k" := (outcome_bind c (fun x => k))
  (at level 10, x name, c at level 100, k at level 200) : go_scope.
Notation "'let?' x ':=' c 'in' k" := (result_bind c (fun x => k))
  (at level 10, x name, c at level 100, k at level 200) : go_scope.
Open Scope go_scope.

(** ** Tactics *)

Create HintDb agdns.
Create Rewrite HintDb agdns.

(** [bool_simp] turns boolean tests in the context and the goal into
    propositions. *)
Ltac bool_simp :=
  repeat match goal with
  | H : (_ && _) = true |- _ => apply andb_prop in H; destruct H
  | H : (_ || _) = false |- _ => apply orb_false_elim in H; destruct H
  | H : negb _ = true |- _ => apply negb_true_iff in H
  | H : negb _ = false |- _ => apply negb_false_iff in H
  | H : bool_decide _ = true |- _ => apply bool_decide_eq_true in H
  | H : bool_decide _ = false |- _ => apply bool_decide_eq_false in H
  | H : (_ <=? _)%Z = true |- _ => apply Z.leb_le in H
  | H : (_ <=? _)%Z = false |- _ => apply Z.leb_gt in H
  | H : (_ <? _)%Z = true |- _ => apply Z.ltb_lt in H
  | H : (_ <? _)%Z = false |- _ => apply Z.ltb_ge in H
  | H : (_ =? _)%Z = true |- _ => apply Z.eqb_eq in H
  | H : (_ =? _)%Z = false |- _ => apply Z.eqb_neq in H
  | H : (_ <=? _)%nat = true |- _ => apply Nat.leb_le in H
  | H : (_ <=? _)%nat = false |- _ => apply Nat.leb_gt in H
  | H : (_ <? _)%nat = true |- _ => apply Nat.ltb_lt in H
  | H : (_ <? _)%nat = false |- _ => apply Nat.ltb_ge in H
  | H : (_ =? _)%nat = true |- _ => apply Nat.eqb_eq in H
  | H : (_ =? _)%nat = false |- _ => apply Nat.eqb_neq in H
  end.

(** [case_if] splits on the first boolean test of a goal. *)
Ltac case_if :=
  match goal with
  | |- context [if ?b then _ else _] => let E := fresh "E" in destruct b eqn:E; bool_simp
  end.

(** ** Lists *)

Section lists.
Context {A B : Type}.
Implicit Types (l : list A) (p : A -> bool).

(** First element satisfying a test: the loop [for _, x := range l { if p x
    { return x } }]. *)
Fixpoint first_such p l : option A :=
  match l with
  | [] => None
  | x :: l => if p x then Some x else first_such p l
  end.

Lemma first_such_Some p l x :
  first_such p l = Some x -> x ∈ l /\ p x = true.
Proof.
  induction l as [|y l IH]; simpl; [done|].
  destruct (p y) eqn:E; intros H; simplify_eq.
  - split; [constructor|done].
  - destruct (IH H). split; [by constructor|done].
Qed.

Lemma first_such_None p l :
  first_such p l = None <-> forall x, x ∈ l -> p x = false.
Proof.
  induction l as [|y l IH]; simpl.
  - split; [intros _ x Hx; by apply elem_of_nil in Hx | done].
  - destruct (p y) eqn:E.
    + split; [done|]. intros H. specialize (H y). rewrite H in E; [done|constructor].
    + rewrite IH. setoid_rewrite elem_of_cons.
      split; [intros H x [->|Hx]; auto | intros H x Hx; auto].
Qed.

Lemma existsb_elem p l : existsb p l = true <-> exists x, x ∈ l /\ p x = true.
Proof. rewrite existsb_exists. by setoid_rewrite list_elem_of_In. Qed.

Lemma existsb_elem_false p l :
  existsb p l = false <-> forall x, x ∈ l -> p x = false.
Proof.
  split.
  - intros H x Hx. destruct (p x) eqn:E; [|done].
    assert (existsb p l = true) as H' by (apply existsb_elem; eauto). congruence.
  - intros H. destruct (existsb p l) eqn:E; [|done].
    apply existsb_elem in E as (x & Hx & Hp). rewrite (H x Hx) in Hp. done.
Qed.

(** Fold lemma for loops that keep an invariant. *)
Lemma foldl_inv (f : B -> A -> B) (I : B -> Prop) l b :
  I b -> (forall b x, x ∈ l -> I b -> I (f b x)) -> I (foldl f b l).
Proof.
  revert b. induction l as [|x l IH]; intros b Hb Hstep; simpl; [done|].
  apply IH.
  - apply Hstep; [constructor|done].
  - intros b' y Hy. apply Hstep. by constructor.
Qed.
(** Elements of a strongly sorted list are in order of their positions. *)
Lemma StronglySorted_lookup_lt (R : A -> A -> Prop) l i j x y :
  StronglySorted R l -> (i < j)%nat -> l !! i = Some x -> l !! j = Some y -> R x y.
Proof.
  intros Hs. revert i j. induction Hs as [|z l Hs IH Hz]; intros i j Hij Hi Hj; [done|].
  destruct j as [|j]; [lia|]. destruct i as [|i]; simpl in *.
  - simplify_eq. exact (proj1 (Forall_lookup _ _) Hz _ _ Hj).
  - eapply IH; [|done|done]. lia.
Qed.

(** A function whose values on a list have no duplicates is injective there. *)
Lemma NoDup_fmap_inj_on (f : A -> B) l x y :
  NoDup (f <$> l) -> x ∈ l -> y ∈ l -> f x = f y -> x = y.
Proof.
  induction l as [|z l IH]; intros Hnd Hx Hy E; [by apply elem_of_nil in Hx|].
  rewrite fmap_cons in Hnd. apply NoDup_cons in Hnd as [Hz Hnd].
  apply elem_of_cons in Hx as [->|Hx], Hy as [->|Hy]; try done; [..|by apply IH].
  - destruct Hz. rewrite E. by apply list_elem_of_fmap_2.
  - destruct Hz. rewrite <- E. by apply list_elem_of_fmap_2.
Qed.
End lists.

(** ** Machine integers *)

Open Scope Z_scope.

Definition modulus64 : Z := 2 ^ 64.

(** [uint64] values and arithmetic wrap modulo 2^64. *)
Definition u64 (z : Z) : Z := z mod modulus64.

Definition is_u64 (z : Z) : Prop := 0 <= z < modulus64.

(** [int64] conversion: two's complement. *)
Definition i64 (z : Z) : Z :=
  let m := z mod modulus64 in if m <? 2 ^ 63 then m else m - modulus64.

Lemma u64_small z : is_u64 z -> u64 z = z.
Proof. apply Z.mod_small. Qed.

Lemma u64_range z : is_u64 (u64 z).
Proof. apply Z.mod_pos_bound. reflexivity. Qed.

Lemma i64_small z : - 2 ^ 63 <= z < 2 ^ 63 -> i64 z = z.
Proof.
  intros Hz. unfold i64, modulus64.
  destruct (Z.leb_spec 0 z).
  - rewrite Z.mod_small by lia. case_if; lia.
  - replace (z mod 2 ^ 64) with (z + 2 ^ 64).
    + case_if; lia.
    + apply (Z.mod_unique _ _ (-1)); lia.
Qed.

#[export] Hint Resolve u64_range : agdns.
#[export] Hint Rewrite @u64_small @i64_small using (unfold is_u64, modulus64 in *; lia) : agdns.
