(* ===== verification/GoStd.v ===== *)
(** What the modelled code uses of Go's language and standard library: byte
    strings (package strings), runes and UTF-8 (package unicode/utf8), byte
    buffers (package bytes), errors (package errors), and binary search
    (package slices).

    A Go string is a [string] of bytes; a byte is an [ascii]; a rune is a [Z].
    An error text is kept as its format string, since the code only ever
    compares errors by identity. *)

From stdpp Require Import pretty.
From S2P Require Import Prelude.

Open Scope Z_scope.

#[global] Arguments String.append : simpl nomatch.

(** The decimal representation, [strconv.Itoa] and the verb [%d]. *)
Definition itoa (n : Z) : string := pretty n.

(** ** Bytes and strings *)

Definition bytes (s : string) : list ascii := String.list_ascii_of_string s.
Definition of_bytes (b : list ascii) : string := String.string_of_list_ascii b.

(** The value of a byte. *)
Definition bval (c : ascii) : Z := Z.of_N (N_of_ascii c).
Definition byte_of (z : Z) : ascii := ascii_of_N (Z.to_N z).

Definition len (s : string) : Z := Z.of_nat (String.length s).

Lemma len_nonneg s : 0 <= len s.
Proof. unfold len. lia. Qed.

Lemma bytes_of_bytes b : bytes (of_bytes b) = b.
Proof. apply String.list_ascii_of_string_of_list_ascii. Qed.

Lemma of_bytes_bytes s : of_bytes (bytes s) = s.
Proof. apply String.string_of_list_ascii_of_string. Qed.

Lemma bytes_inj s t : bytes s = bytes t -> s = t.
Proof. intros E. by rewrite <- (of_bytes_bytes s), <- (of_bytes_bytes t), E. Qed.

Lemma length_bytes s : length (bytes s) = String.length s.
Proof. induction s; simpl; congruence. Qed.

Lemma bval_range c : 0 <= bval c < 256.
Proof. unfold bval. pose proof (N_ascii_bounded c). lia. Qed.

Lemma byte_of_bval c : byte_of (bval c) = c.
Proof. unfold byte_of, bval. rewrite N2Z.id. apply ascii_N_embedding. Qed.

Lemma bval_byte_of z : 0 <= z < 256 -> bval (byte_of z) = z.
Proof. intros. unfold byte_of, bval. rewrite N_ascii_embedding; lia. Qed.

Lemma bval_inj c d : bval c = bval d -> c = d.
Proof. intros H. rewrite <- (byte_of_bval c), <- (byte_of_bval d). by rewrite H. Qed.

Fixpoint str_take (n : nat) (s : string) : string :=
  match n, s with
  | S n, String c s => String c (str_take n s)
  | _, _ => EmptyString
  end.

Fixpoint str_drop (n : nat) (s : string) : string :=
  match n, s with
  | S n, String _ s => str_drop n s
  | _, _ => s
  end.

Lemma append_nil_r s : s +:+ EmptyString = s.
Proof. induction s as [|c s IH]; simpl; [done|by rewrite IH]. Qed.

Lemma append_assoc s t u : (s +:+ t) +:+ u = s +:+ (t +:+ u).
Proof. induction s as [|c s IH]; simpl; [done|by rewrite IH]. Qed.

Lemma length_append s t : String.length (s +:+ t) = (String.length s + String.length t)%nat.
Proof. induction s as [|c s IH]; simpl; [done|by rewrite IH]. Qed.

Lemma bytes_append s t : bytes (s +:+ t) = bytes s ++ bytes t.
Proof. induction s as [|c s IH]; simpl; [done|by rewrite IH]. Qed.

Lemma str_take_append s t : str_take (String.length s) (s +:+ t) = s.
Proof. induction s as [|c s IH]; simpl; [by destruct t|by rewrite IH]. Qed.

Lemma str_drop_append s t : str_drop (String.length s) (s +:+ t) = t.
Proof. by induction s. Qed.

Lemma length_str_drop n s : String.length (str_drop n s) = (String.length s - n)%nat.
Proof. revert s. induction n as [|n IH]; intros [|ch s]; simpl; [done..|]. by rewrite IH. Qed.

Lemma str_take_drop n s : str_take n s +:+ str_drop n s = s.
Proof.
  revert s. induction n as [|n IH]; intros [|c s]; simpl; [done..|]. by rewrite IH.
Qed.

Lemma append_inv_head p s t : p +:+ s = p +:+ t -> s = t.
Proof. induction p as [|c p IH]; simpl; [done|]. intros [= H]. auto. Qed.

(** ** Package strings *)

Definition HasPrefix (s p : string) : bool := String.prefix p s.

Definition HasSuffix (s suf : string) : bool :=
  (String.length suf <=? String.length s)%nat
  && bool_decide (str_drop (String.length s - String.length suf) s = suf).

Definition TrimPrefix (s p : string) : string :=
  if HasPrefix s p then str_drop (String.length p) s else s.

Definition TrimSuffix (s suf : string) : string :=
  if HasSuffix s suf then str_take (String.length s - String.length suf) s else s.

(** [strings.Index]; [None] is -1. *)
Fixpoint Index (s sub : string) : option nat :=
  if String.prefix sub s then Some 0%nat
  else match s with
       | EmptyString => None
       | String _ s => S <$> Index s sub
       end.

Definition Contains (s sub : string) : bool :=
  match Index s sub with Some _ => true | None => false end.

(** [strings.Cut]. *)
Definition Cut (s sep : string) : string * string * bool :=
  match Index s sep with
  | Some i => (str_take i s, str_drop (i + String.length sep) s, true)
  | None => (s, EmptyString, false)
  end.

(** [strings.Count] for a one-byte separator. *)
Fixpoint CountByte (s : string) (c : ascii) : nat :=
  match s with
  | EmptyString => 0
  | String a s => ((if decide (a = c) then 1 else 0) + CountByte s c)%nat
  end.

(** [strings.Split] for a one-byte separator. *)
Fixpoint SplitByte (s : string) (c : ascii) : list string :=
  match s with
  | EmptyString => [EmptyString]
  | String a s =>
      if decide (a = c) then EmptyString :: SplitByte s c
      else match SplitByte s c with
           | h :: t => String a h :: t
           | [] => [String a EmptyString]
           end
  end.

(** [strings.SplitN] for a one-byte separator and [n > 0]. *)
Fixpoint SplitNByte (n : nat) (s : string) (c : ascii) : list string :=
  match n with
  | O => []
  | S O => [s]
  | S n' =>
      match Cut s (String c EmptyString) with
      | (before, after, true) => before :: SplitNByte n' after c
      | (_, _, false) => [s]
      end
  end.

Fixpoint JoinByte (l : list string) (c : ascii) : string :=
  match l with
  | [] => EmptyString
  | [s] => s
  | s :: l => s +:+ String c (JoinByte l c)
  end.

Definition is_upper (c : ascii) : bool := (65 <=? bval c) && (bval c <=? 90).

Definition lower_byte (c : ascii) : ascii :=
  if is_upper c then byte_of (bval c + 32) else c.

Fixpoint str_map (f : ascii -> ascii) (s : string) : string :=
  match s with
  | EmptyString => EmptyString
  | String c s => String (f c) (str_map f s)
  end.

Definition is_ascii (s : string) : bool := forallb (fun c => bval c <? 128) (bytes s).

(** [strings.ToLower] is the bytewise mapping on ASCII strings.  On other
    strings it maps runes with the Unicode tables, which stay a parameter. *)
Class UnicodeCase := {
  unicode_lower : string -> string;
  unicode_equal_fold : string -> string -> bool;
}.

Definition ascii_lower (s : string) : string := str_map lower_byte s.

Definition ToLower `{UnicodeCase} (s : string) : string :=
  if is_ascii s then ascii_lower s else unicode_lower s.

Definition EqualFold `{UnicodeCase} (s t : string) : bool :=
  if is_ascii s && is_ascii t then bool_decide (ascii_lower s = ascii_lower t)
  else unicode_equal_fold s t.

Lemma prefix_spec p s : String.prefix p s = true <-> exists t, s = p +:+ t.
Proof.
  revert s. induction p as [|c p IH]; intros s; simpl.
  - split; [by exists s|by destruct s].
  - destruct s as [|d s]; [split; [done|by intros [? ?]]|]. simpl.
    destruct (ascii_dec c d) as [->|Hne].
    + rewrite IH. split; intros [t Ht]; exists t; simpl in *; congruence.
    + split; [done|]. intros [t Ht]. simpl in Ht. congruence.
Qed.

Lemma HasPrefix_spec s p : HasPrefix s p = true <-> exists t, s = p +:+ t.
Proof. apply prefix_spec. Qed.

Lemma HasPrefix_append p t : HasPrefix (p +:+ t) p = true.
Proof. apply HasPrefix_spec. eauto. Qed.

Lemma TrimPrefix_append p t : TrimPrefix (p +:+ t) p = t.
Proof. unfold TrimPrefix. rewrite HasPrefix_append. apply str_drop_append. Qed.

Lemma TrimPrefix_no s p : HasPrefix s p = false -> TrimPrefix s p = s.
Proof. intros H. unfold TrimPrefix. by rewrite H. Qed.

Lemma HasSuffix_spec s u : HasSuffix s u = true <-> exists t, s = t +:+ u.
Proof.
  unfold HasSuffix. split.
  - intros H. bool_simp. exists (str_take (String.length s - String.length u) s).
    by rewrite <- H0 at 2; rewrite str_take_drop.
  - intros [t ->]. rewrite length_append.
    replace (String.length t + String.length u - String.length u)%nat with (String.length t) by lia.
    rewrite str_drop_append. rewrite bool_decide_true by done.
    rewrite andb_true_r. apply Nat.leb_le. lia.
Qed.

Lemma TrimSuffix_append t u : TrimSuffix (t +:+ u) u = t.
Proof.
  unfold TrimSuffix.
  assert (HasSuffix (t +:+ u) u = true) as -> by (apply HasSuffix_spec; eauto).
  rewrite length_append.
  replace (String.length t + String.length u - String.length u)%nat with (String.length t) by lia.
  apply str_take_append.
Qed.

Lemma Index_String c s sub :
  Index (String c s) sub =
  if String.prefix sub (String c s) then Some 0%nat else S <$> Index s sub.
Proof. reflexivity. Qed.

Lemma Index_Some s sub i :
  Index s sub = Some i ->
  s = str_take i s +:+ sub +:+ str_drop (i + String.length sub) s /\ (i <= String.length s)%nat.
Proof.
  revert i. induction s as [|c s IH]; intros i.
  - destruct sub as [|d sub]; simpl; [|done]. intros H. by simplify_eq.
  - rewrite Index_String. destruct (String.prefix sub (String c s)) eqn:E.
    + intros H. simplify_eq. apply prefix_spec in E as [t E]. rewrite E. simpl.
      rewrite str_drop_append. split; [done|lia].
    + intros H. apply fmap_Some in H as (j & Hj & ->). apply IH in Hj as [Hj ?].
      simpl. split; [congruence|lia].
Qed.

Lemma Index_prefix p s sub :
  String.prefix sub s = true -> exists i, Index (p +:+ s) sub = Some i.
Proof.
  intros H. induction p as [|c p [i IH]].
  - exists 0%nat. change (EmptyString +:+ s) with s.
    destruct s; [simpl in *|rewrite Index_String]; by rewrite H.
  - change (String c p +:+ s) with (String c (p +:+ s)). rewrite Index_String, IH.
    case_match; by eexists.
Qed.

Lemma Contains_spec s sub : Contains s sub = true <-> exists p t, s = p +:+ sub +:+ t.
Proof.
  unfold Contains. split.
  - destruct (Index s sub) as [i|] eqn:E; [|done]. intros _.
    apply Index_Some in E as [E _]. eauto.
  - intros (p & t & ->).
    destruct (Index_prefix p (sub +:+ t) sub) as [i ->]; [|done].
    apply prefix_spec. eauto.
Qed.

Lemma SplitByte_not_nil s c : SplitByte s c <> [].
Proof.
  destruct s as [|a s]; simpl; [done|]. case_decide; [done|]. by destruct (SplitByte s c).
Qed.

Lemma JoinByte_cons s l c : l <> [] -> JoinByte (s :: l) c = s +:+ String c (JoinByte l c).
Proof. by destruct l. Qed.

Lemma JoinByte_SplitByte s c : JoinByte (SplitByte s c) c = s.
Proof.
  induction s as [|a s IH]; simpl; [done|].
  pose proof (SplitByte_not_nil s c) as Hne. case_decide as Hd.
  - subst. rewrite JoinByte_cons by done. simpl. by rewrite IH.
  - destruct (SplitByte s c) as [|h t]; [done|].
    destruct t as [|h' t]; simpl in *; congruence.
Qed.

Lemma bytes_str_map f s : bytes (str_map f s) = map f (bytes s).
Proof. induction s as [|c s IH]; simpl; [done|by rewrite IH]. Qed.

Lemma lower_byte_not_upper c : is_upper (lower_byte c) = false.
Proof.
  unfold lower_byte. destruct (is_upper c) eqn:E; [|done].
  unfold is_upper in *. bool_simp. rewrite bval_byte_of by lia.
  apply andb_false_iff. right. apply Z.leb_gt. lia.
Qed.

Lemma lower_byte_idemp c : lower_byte (lower_byte c) = lower_byte c.
Proof. unfold lower_byte at 1. by rewrite lower_byte_not_upper. Qed.

Lemma ascii_lower_idemp s : ascii_lower (ascii_lower s) = ascii_lower s.
Proof.
  unfold ascii_lower. induction s as [|c s IH]; simpl; [done|].
  by rewrite lower_byte_idemp, IH.
Qed.

Lemma length_ascii_lower s : String.length (ascii_lower s) = String.length s.
Proof. unfold ascii_lower. induction s as [|c s IH]; simpl; [done|by rewrite IH]. Qed.

#[export] Hint Rewrite bytes_of_bytes of_bytes_bytes length_bytes length_append
  str_take_append str_drop_append : agdns.

(** ** Package errors

    [ErrConst] is an [errors.Error] constant or the value of [errors.New];
    [ErrWrap] an error with one [Unwrap] target, as made by [fmt.Errorf] with
    a [%w] verb; [ErrJoin] the result of [errors.Join]. *)

Inductive error :=
  | ErrConst (msg : string)
  | ErrWrap (format : string) (inner : error)
  | ErrJoin (errs : list error).

(** [errors.Unwrap]: a joined error has no single unwrapped error. *)
Definition Unwrap (e : error) : option error :=
  match e with
  | ErrWrap _ inner => Some inner
  | _ => None
  end.

(** [err == target] for a constant target. *)
Definition is_const (e : error) (target : string) : bool :=
  match e with
  | ErrConst m => bool_decide (m = target)
  | _ => false
  end.

(** [errors.Is] for a constant target. *)
Fixpoint Is (e : error) (target : string) : bool :=
  match e with
  | ErrConst m => bool_decide (m = target)
  | ErrWrap _ inner => Is inner target
  | ErrJoin errs => existsb (fun e => Is e target) errs
  end.

(** [errors.Join]: nil if every argument is nil. *)
Definition Join (errs : list error) : option error :=
  match errs with [] => None | _ => Some (ErrJoin errs) end.

(** [fmt.Errorf(format, ..., err)] of an error that may be nil. *)
Definition wrap_opt (format : string) (err : option error) : option error := ErrWrap format <$> err.

Lemma Join_omap_None (l : list (option error)) : Join (omap id l) = None <-> Forall (fun o => o = None) l.
Proof.
  induction l as [|[e|] l IH]; simpl; [done| |].
  - split; [done|]. intros Hl. by inversion Hl.
  - rewrite Forall_cons, <- IH. naive_solver.
Qed.

Lemma wrap_opt_None f e : wrap_opt f e = None <-> e = None.
Proof. by destruct e. Qed.

(** [errors.WithDeferred] of golibs: the error of a function and the one of its
    cleanup. *)
Class DeferredErrors := WithDeferred : error -> option error -> error.

(** [fmt.Errorf(format, ..., err)] applied only if [err] is not nil, which is
    what [errors.Annotate] and the deferred wrappers do. *)
Definition annotate {A} (format : string) (r : result error A) : result error A :=
  match r with
  | Ok a => Ok a
  | Err e => Err (ErrWrap format e)
  end.

Lemma annotate_Ok {A} f (r : result error A) a : annotate f r = Ok a <-> r = Ok a.
Proof. destruct r; simpl; split; congruence. Qed.

(** ** Package slices *)

(** [slices.BinarySearchFunc]: the position of the first key not below the
    target and whether it is equal to it.  [lo] and [hi] are the loop's bounds;
    [fuel] bounds the number of halvings. *)
Fixpoint search_loop {K} (cmp : K -> K -> comparison) (x : list K) (target : K)
    (fuel lo hi : nat) : nat :=
  match fuel with
  | O => lo
  | S fuel =>
      if (lo <? hi)%nat then
        let h := ((lo + hi) / 2)%nat in
        match x !! h with
        | Some k =>
            match cmp k target with
            | Lt => search_loop cmp x target fuel (S h) hi
            | _ => search_loop cmp x target fuel lo h
            end
        | None => lo
        end
      else lo
  end.

Definition BinarySearchFunc {K} (cmp : K -> K -> comparison) (x : list K) (target : K)
    : nat * bool :=
  let i := search_loop cmp x target (length x) 0 (length x) in
  (i, match x !! i with
      | Some k => match cmp k target with Eq => true | _ => false end
      | None => false
      end).

(** [slices.Insert] of one element and [slices.Delete] of one position. *)
Definition slice_insert {K} (l : list K) (i : nat) (k : K) : list K := take i l ++ k :: drop i l.
Definition slice_delete {K} (l : list K) (i : nat) : list K := take i l ++ drop (S i) l.

(** Indexing of slices and strings, which panics out of range. *)
Definition index {A} (l : list A) (i : nat) : outcome A :=
  match l !! i with
  | Some x => Ret x
  | None => Panic "index out of range"
  end.

Definition set_index {A} (l : list A) (i : nat) (x : A) : outcome (list A) :=
  if (i <? length l)%nat then Ret (<[i:=x]> l) else Panic "index out of range".

Lemma index_Some {A} (l : list A) i x : l !! i = Some x -> index l i = Ret x.
Proof. intros H. unfold index. by rewrite H. Qed.

Lemma set_index_lt {A} (l : list A) i x : (i < length l)%nat -> set_index l i x = Ret (<[i:=x]> l).
Proof. intros H. unfold set_index. by rewrite (proj2 (Nat.ltb_lt _ _) H). Qed.

(** Folding a loop body that may panic over the loop's values. *)
Fixpoint for_each {A S} (body : S -> A -> outcome S) (s : S) (l : list A) : outcome S :=
  match l with
  | [] => Ret s
  | x :: l => let! s := body s x in for_each body s l
  end.

Lemma for_each_inv {A S} (body : S -> A -> outcome S) (I : nat -> S -> Prop) (l : list A) s n :
  I n s ->
  (forall k x s, l !! k = Some x -> I (n + k)%nat s ->
     exists s', body s x = Ret s' /\ I (n + Datatypes.S k)%nat s') ->
  exists s', for_each body s l = Ret s' /\ I (n + length l)%nat s'.
Proof.
  revert s n. induction l as [|x l IH]; intros s n HI Hstep; simpl.
  - exists s. by rewrite Nat.add_0_r.
  - destruct (Hstep 0%nat x s) as (s1 & -> & H1); [done|by rewrite Nat.add_0_r|]. simpl.
    rewrite Nat.add_1_r in H1.
    destruct (IH s1 (Datatypes.S n) H1) as (s2 & -> & H2).
    + intros k y s' Hk HI'. rewrite Nat.add_succ_comm in HI'.
      destruct (Hstep (Datatypes.S k) y s' Hk HI') as (s'' & ? & ?). exists s''.
      split; [done|]. by rewrite Nat.add_succ_comm.
    + exists s2. split; [done|]. by rewrite <- Nat.add_succ_comm.
Qed.

(** ** Replacing in strings *)

(** [strings.ReplaceAll] with a non-empty old string: the fuel is the length. *)
Fixpoint replace_all (fuel : nat) (s old new : string) : string :=
  match fuel with
  | O => s
  | S fuel =>
      match Index s old with
      | None => s
      | Some i => str_take i s +:+ new +:+ replace_all fuel (str_drop (i + String.length old) s) old new
      end
  end.

Definition ReplaceAll (s old new : string) : string := replace_all (String.length s) s old new.

(** [strconv.FormatUint] with the base 16: at most sixteen digits. *)
Fixpoint hex_digits (fuel : nat) (n : Z) (acc : string) : string :=
  match fuel with
  | O => acc
  | S fuel =>
      let d := n mod 16 in
      let acc := String (byte_of (if d <? 10 then 48 + d else 87 + d)) acc in
      if n / 16 =? 0 then acc else hex_digits fuel (n / 16) acc
  end.

Definition FormatHex (n : Z) : string := hex_digits 16 n EmptyString.

(** ** Package time *)

(** A [time.Time] is the number of nanoseconds since the zero time, the first of
    January of the year 1. *)
Definition IsZero (t : Z) : bool := t =? 0.

(** [time.Second]. *)
Definition second : Z := 1000000000.

Definition maxDuration : Z := 2 ^ 63 - 1.
Definition minDuration : Z := - 2 ^ 63.

(** [Time.Sub]: a duration that does not fit into int64 is saturated. *)
Definition Sub (t u : Z) : Z := Z.max minDuration (Z.min maxDuration (t - u)).

(** ** Splitting at a byte *)

Lemma CountByte_append s t c : CountByte (s +:+ t) c = (CountByte s c + CountByte t c)%nat.
Proof. induction s as [|a s IH]; simpl; [done|]. rewrite IH. lia. Qed.

Lemma Index_byte a b c : CountByte a c = 0%nat ->
  Index (a +:+ String c b) (String c EmptyString) = Some (String.length a).
Proof.
  induction a as [|x a IH]; intros Hc; simpl String.append; rewrite Index_String.
  - assert (String.prefix (String c EmptyString) (String c b) = true) as ->; [|done].
    apply prefix_spec. by exists b.
  - simpl in Hc. destruct (decide (x = c)) as [|Hne]; [lia|].
    assert (String.prefix (String c EmptyString) (String x (a +:+ String c b)) = false) as ->.
    { apply not_true_is_false. intros Hp. apply prefix_spec in Hp as [t [= E _]]. done. }
    by rewrite IH.
Qed.

Lemma Cut_byte a b c : CountByte a c = 0%nat ->
  Cut (a +:+ String c b) (String c EmptyString) = (a, b, true).
Proof.
  intros Hc. unfold Cut. rewrite Index_byte by done. rewrite str_take_append. do 2 f_equal.
  change (String c b) with (String c EmptyString +:+ b). rewrite <- append_assoc.
  rewrite <- (length_append a (String c EmptyString)). by rewrite str_drop_append.
Qed.

(** What [strings.Cut] at a byte returns. *)
Lemma Cut_byte_inv s a b c : Cut s (String c EmptyString) = (a, b, true) ->
  s = a +:+ String c b /\ CountByte a c = 0%nat.
Proof.
  unfold Cut. destruct (Index s (String c EmptyString)) as [i|] eqn:E; [|done]. intros [= <- <-].
  split.
  - pose proof (Index_Some _ _ _ E) as [Es _]. exact Es.
  - revert i E. induction s as [|x s IH]; intros i E.
    + simpl in E. by destruct i.
    + rewrite Index_String in E.
      destruct (String.prefix (String c EmptyString) (String x s)) eqn:Ep; [by injection E as <-|].
      apply fmap_Some in E as (j & E & ->). simpl. rewrite (IH _ E).
      destruct (decide (x = c)) as [->|]; [|done].
      assert (String.prefix (String c EmptyString) (String c s) = true); [|congruence].
      apply prefix_spec. by exists s.
Qed.

(** ** Package path *)

(** [path.Clean] by its documented rules: empty and [.] elements are dropped, a
    [..] removes the element before it and is dropped at the root; the result
    ends in a slash only if it is the root, and an empty result is [.]. *)
Definition clean_step (rooted : bool) (acc : list string) (e : string) : list string :=
  if bool_decide (e = EmptyString) || bool_decide (e = "."%string) then acc
  else if bool_decide (e = ".."%string) then
    match last acc with
    | Some x =>
        if bool_decide (x = ".."%string) then acc ++ [e] else take (length acc - 1) acc
    | None => if rooted then acc else acc ++ [e]
    end
  else acc ++ [e].

Definition path_Clean (s : string) : string :=
  let rooted := HasPrefix s "/" in
  let b := JoinByte (foldl (clean_step rooted) [] (SplitByte s "/"%char)) "/"%char in
  if rooted then String "/"%char b
  else if bool_decide (b = EmptyString) then "."%string else b.

(** ** Package encoding/binary *)

(** The big-endian bytes of a number. *)
Fixpoint be_bytes (n : nat) (x : Z) : string :=
  match n with
  | O => EmptyString
  | S n => be_bytes n (x / 256) +:+ String (byte_of (x mod 256)) EmptyString
  end.

(** The number of big-endian bytes. *)
Definition be_value (s : string) : Z := foldl (fun x c => x * 256 + bval c) 0 (bytes s).

Lemma be_value_bytes n x : 0 <= x < 256 ^ Z.of_nat n -> be_value (be_bytes n x) = x.
Proof.
  revert x. induction n as [|n IH]; intros x Hx; [change (256 ^ Z.of_nat 0) with 1 in Hx; change (be_value (be_bytes 0 x)) with 0; lia|].
  rewrite Nat2Z.inj_succ, Z.pow_succ_r in Hx by lia.
  unfold be_value. simpl. rewrite bytes_append, foldl_app. simpl. fold (be_value (be_bytes n (x / 256))).
  rewrite IH.
  - rewrite bval_byte_of by (apply Z.mod_pos_bound; lia). pose proof (Z.div_mod x 256 ltac:(lia)). lia.
  - split; [apply Z.div_pos; lia|]. apply Z.div_lt_upper_bound; lia.
Qed.

Lemma be_bytes_length n x : String.length (be_bytes n x) = n.
Proof. revert x. induction n as [|n IH]; intros x; simpl; [done|]. rewrite length_append, IH. simpl. lia. Qed.

Lemma append_inj_length a b a' b' : String.length a = String.length a' -> a +:+ b = a' +:+ b' -> a = a' /\ b = b'.
Proof.
  intros Hl E. assert (a = a') as ->.
  { rewrite <- (str_take_append a b), <- (str_take_append a' b'), Hl. by rewrite E. }
  split; [done|]. by apply append_inv_head in E.
Qed.

Lemma be_bytes_inj n x y : 0 <= x < 256 ^ Z.of_nat n -> 0 <= y < 256 ^ Z.of_nat n ->
  be_bytes n x = be_bytes n y -> x = y.
Proof. intros Hx Hy E. by rewrite <- (be_value_bytes n x Hx), E, be_value_bytes. Qed.

(** ** Package strconv *)

Definition is_digit (c : ascii) : bool := (48 <=? bval c) && (bval c <=? 57).

(** [strconv.ParseInt] with the base ten: an optional sign and digits, with a
    value of the given width. *)
Definition ParseInt (s : string) (bitSize : Z) : result error Z :=
  let '(neg, digits) :=
    match bytes s with
    | c :: t => if bval c =? 43 then (false, t) else if bval c =? 45 then (true, t) else (false, c :: t)
    | [] => (false, [])
    end in
  if bool_decide (digits = []) || negb (forallb is_digit digits) then
    Err (ErrConst "invalid syntax")
  else
    let n := foldl (fun x c => x * 10 + (bval c - 48)) 0 digits in
    let v := if neg : bool then - n else n in
    if (- 2 ^ (bitSize - 1) <=? v) && (v <? 2 ^ (bitSize - 1)) then Ok v
    else Err (ErrConst "value out of range").
