(* ===== verification/Slices.v ===== *)
(** Sorted slices: total orders given by a comparison, and what
    [slices.BinarySearchFunc] and [slices.Insert] do on slices that are sorted. *)

From S2P Require Import Prelude GoStd.

Open Scope Z_scope.

(** cmp.Ordered: a total order given by a comparison. *)
Class Ordered (K : Type) := cmp : K -> K -> comparison.

Class OrderedSpec (K : Type) `{Ordered K} : Prop := {
  cmp_Eq a b : cmp a b = Eq <-> a = b;
  cmp_opp a b : cmp b a = CompOpp (cmp a b);
  cmp_trans a b c : cmp a b = Lt -> cmp b c = Lt -> cmp a c = Lt;
}.

(** *** Orders on strings, integers and pairs *)

#[export] Instance string_ordered : Ordered string := String.compare.

#[export] Instance string_ordered_spec : OrderedSpec string.
Proof.
  split; unfold cmp, string_ordered.
  - intros a b. split; [apply String.compare_eq_iff|]. intros <-.
    induction a as [|c a IH]; [done|]. simpl.
    destruct (Ascii.compare c c) eqn:E; [done|..]; unfold Ascii.compare in E; by rewrite N.compare_refl in E.
  - intros a b. apply String.compare_antisym.
  - intros a. induction a as [|x a IH]; intros [|y b] [|z c]; simpl; try done.
    unfold Ascii.compare.
    destruct (N.compare_spec (N_of_ascii x) (N_of_ascii y)) as [Exy|Hxy|Hxy]; [|..];
      destruct (N.compare_spec (N_of_ascii y) (N_of_ascii z)) as [Eyz|Hyz|Hyz]; try done; intros H1 H2;
      destruct (N.compare_spec (N_of_ascii x) (N_of_ascii z)) as [Exz|Hxz|Hxz]; try done; try lia.
    by apply (IH b).
Qed.

#[export] Instance Z_ordered : Ordered Z := Z.compare.

#[export] Instance Z_ordered_spec : OrderedSpec Z.
Proof.
  split; unfold cmp, Z_ordered.
  - apply Z.compare_eq_iff.
  - intros a b. apply Z.compare_antisym.
  - intros a b c. rewrite !Z.compare_lt_iff. lia.
Qed.

(** The lexicographic order. *)
#[export] Instance prod_ordered {A B} `{Ordered A, Ordered B} : Ordered (A * B) :=
  fun x y => match cmp x.1 y.1 with Eq => cmp x.2 y.2 | c => c end.

#[export] Instance prod_ordered_spec {A B} `{OrderedSpec A, OrderedSpec B} : OrderedSpec (A * B).
Proof.
  split; unfold cmp, prod_ordered.
  - intros [a1 a2] [b1 b2]. cbn. destruct (cmp a1 b1) eqn:E.
    + apply cmp_Eq in E as ->. rewrite cmp_Eq. split; [by intros ->|by intros [= ->]].
    + split; [done|]. intros [= -> ->]. rewrite (proj2 (cmp_Eq b1 b1) eq_refl) in E. done.
    + split; [done|]. intros [= -> ->]. rewrite (proj2 (cmp_Eq b1 b1) eq_refl) in E. done.
  - intros [a1 a2] [b1 b2]. cbn. rewrite (cmp_opp a1 b1). destruct (cmp a1 b1); cbn; [apply cmp_opp|done..].
  - intros [a1 a2] [b1 b2] [c1 c2]. cbn.
    destruct (cmp a1 b1) eqn:E1, (cmp b1 c1) eqn:E2; try done.
    + apply cmp_Eq in E1 as ->, E2 as ->. rewrite (proj2 (cmp_Eq c1 c1) eq_refl). apply cmp_trans.
    + apply cmp_Eq in E1 as ->. by rewrite E2.
    + apply cmp_Eq in E2 as ->. by rewrite E1.
    + by rewrite (cmp_trans _ _ _ E1 E2).
Qed.

(** An order by a key. *)
Lemma keyed_ordered_spec {A B} `{OrderedSpec B} `{!Ordered A} (key : A -> B) :
  Inj (=) (=) key -> (forall a b : A, cmp a b = cmp (key a) (key b)) -> OrderedSpec A.
Proof.
  intros Hinj Hkey. split.
  - intros a b. rewrite Hkey, cmp_Eq. split; [apply Hinj|by intros ->].
  - intros a b. rewrite !Hkey. apply cmp_opp.
  - intros a b c. rewrite !Hkey. apply cmp_trans.
Qed.

Section sorted_slices.
Context {K : Type} `{!Ordered K} `{!OrderedSpec K}.
Implicit Types (x : list K).

Definition lt_key (a b : K) : Prop := cmp a b = Lt.

Lemma cmp_refl a : cmp a a = Eq.
Proof. by apply cmp_Eq. Qed.

Lemma lt_key_irrefl a : ~ lt_key a a.
Proof. unfold lt_key. by rewrite cmp_refl. Qed.

Lemma not_lt_key a b : cmp a b <> Lt -> a = b \/ lt_key b a.
Proof.
  unfold lt_key. rewrite (cmp_opp a b). destruct (cmp a b) eqn:E; [|done|by right].
  left. by apply cmp_Eq.
Qed.

(** Everything before position [i] is below the target, everything from [i] on
    is not. *)
Definition splits x (target : K) (i : nat) : Prop :=
  (i <= length x)%nat /\
  (forall j k, x !! j = Some k -> (j < i)%nat -> cmp k target = Lt) /\
  (forall j k, x !! j = Some k -> (i <= j)%nat -> cmp k target <> Lt).

Lemma search_loop_spec x target fuel lo hi :
  StronglySorted lt_key x -> (lo <= hi <= length x)%nat -> (hi - lo <= fuel)%nat ->
  (forall j k, x !! j = Some k -> (j < lo)%nat -> cmp k target = Lt) ->
  (forall j k, x !! j = Some k -> (hi <= j)%nat -> cmp k target <> Lt) ->
  splits x target (search_loop cmp x target fuel lo hi).
Proof.
  intros Hs. revert lo hi. induction fuel as [|fuel IH]; intros lo hi Hb Hf Hlo Hhi; cbn [search_loop].
  { split_and!; [lia|done|]. intros j k Hj Hle. eapply Hhi; [done|lia]. }
  case_if; bool_simp; [|split_and!; [lia|done|intros j k Hj Hle; eapply Hhi; [done|lia]]].
  set (h := ((lo + hi) / 2)%nat).
  assert (lo <= h < hi)%nat as Hh.
  { pose proof (Nat.div_mod (lo + hi) 2 ltac:(lia)). pose proof (Nat.mod_upper_bound (lo + hi) 2 ltac:(lia)).
    unfold h. lia. }
  destruct (lookup_lt_is_Some_2 x h ltac:(lia)) as [k Hk]. rewrite Hk.
  assert (cmp k target = Lt -> forall j k', x !! j = Some k' -> (j < S h)%nat -> cmp k' target = Lt) as Hlow.
  { intros Hc j k' Hj Hle. destruct (decide (j = h)) as [->|]; [congruence|].
    eapply cmp_trans; [|done]. eapply (StronglySorted_lookup_lt lt_key); [done| |done|done]. lia. }
  assert (cmp k target <> Lt -> forall j k', x !! j = Some k' -> (h <= j)%nat -> cmp k' target <> Lt) as Hhigh.
  { intros Hc j k' Hj Hle Hlt. destruct (decide (j = h)) as [->|]; [congruence|].
    assert (lt_key k k') as Hkk by (eapply StronglySorted_lookup_lt; [done| |done|done]; lia).
    apply Hc. by eapply cmp_trans. }
  destruct (cmp k target) eqn:Ec.
  - apply IH; [lia|lia|done|]. by apply Hhigh.
  - apply IH; [lia|lia| |done]. by apply Hlow.
  - apply IH; [lia|lia|done|]. by apply Hhigh.
Qed.

Lemma BinarySearchFunc_spec x target :
  StronglySorted lt_key x ->
  exists i has, BinarySearchFunc cmp x target = (i, has) /\ splits x target i /\
    (has = true -> x !! i = Some target) /\ (has = true <-> target ∈ x).
Proof.
  intros Hs. unfold BinarySearchFunc. set (i := search_loop _ _ _ _ _ _).
  assert (splits x target i) as Hsp.
  { apply search_loop_spec; [done|lia|lia| |].
    - intros j k _ Hj. lia.
    - intros j k Hj Hle. apply lookup_lt_Some in Hj. lia. }
  eexists i, _. split; [done|]. split; [done|].
  assert (match x !! i with Some k => match cmp k target with Eq => true | _ => false end | None => false end
    = true <-> x !! i = Some target) as Hhas.
  { destruct (x !! i) as [k|] eqn:E; [|done]. destruct (cmp k target) eqn:Ec.
    - apply cmp_Eq in Ec as ->. done.
    - split; [done|]. intros [= ->]. by rewrite cmp_refl in Ec.
    - split; [done|]. intros [= ->]. by rewrite cmp_refl in Ec. }
  rewrite Hhas. split; [done|]. split; [apply list_elem_of_lookup_2|].
  intros (j & Hj)%list_elem_of_lookup. destruct Hsp as (Hi & Hlo & Hhi).
  destruct (decide (j < i)%nat) as [Hlt|Hge]; [by destruct (lt_key_irrefl target (Hlo _ _ Hj Hlt))|].
  destruct (decide (j = i)) as [->|Hne]; [done|].
  destruct (lookup_lt_is_Some_2 x i) as [k Hk]; [apply lookup_lt_Some in Hj; lia|].
  exfalso. apply (Hhi _ _ Hk); [done|].
  eapply (StronglySorted_lookup_lt lt_key); [done| |done|done]. lia.
Qed.

Lemma splits_take_lt x target i k : splits x target i -> k ∈ take i x -> lt_key k target.
Proof.
  intros (_ & Hlo & _) (j & Hj)%list_elem_of_lookup. apply lookup_take_Some in Hj as [Hj Hlt]. by eapply Hlo.
Qed.

Lemma splits_drop_ge x target i k : splits x target i -> k ∈ drop i x -> cmp k target <> Lt.
Proof.
  intros (_ & _ & Hhi) (j & Hj)%list_elem_of_lookup. rewrite lookup_drop in Hj. eapply Hhi; [done|lia].
Qed.

Lemma sorted_split x i : StronglySorted lt_key x ->
  StronglySorted lt_key (take i x) /\ StronglySorted lt_key (drop i x) /\
  forall a b, a ∈ take i x -> b ∈ drop i x -> lt_key a b.
Proof.
  intros Hs. rewrite <- (take_drop i x) in Hs. apply StronglySorted_app in Hs as (Hc & H1 & H2).
  split_and!; [done|done|]. intros a b Ha Hb. by apply Hc.
Qed.

(** A new element at the position that was found keeps the slice sorted. *)
Lemma slice_insert_sorted x i k :
  StronglySorted lt_key x -> splits x k i -> k ∉ x -> StronglySorted lt_key (slice_insert x i k).
Proof.
  intros Hs Hsp Hnin. destruct (sorted_split x i Hs) as (H1 & H2 & H12). unfold slice_insert.
  assert (forall b, b ∈ drop i x -> lt_key k b) as Hkb.
  { intros b Hb. destruct (not_lt_key b k (splits_drop_ge _ _ _ _ Hsp Hb)) as [->|]; [|done].
    destruct Hnin. rewrite <- (take_drop i x). apply elem_of_app. by right. }
  apply StronglySorted_app. split_and!; [|done|].
  - intros a b Ha [->|Hb]%elem_of_cons; [by eapply splits_take_lt|by apply H12].
  - apply StronglySorted_cons. split; [|done]. apply Forall_forall. done.
Qed.
End sorted_slices.

(** Searching by a key is searching in the slice of the keys. *)
Lemma search_loop_map {K V} (f : V -> K) (c : K -> K -> comparison) (x : list V) t fuel : forall lo hi,
  search_loop (fun a b => c (f a) (f b)) x t fuel lo hi = search_loop c (f <$> x) (f t) fuel lo hi.
Proof.
  induction fuel as [|fuel IH]; intros lo hi; [done|]. cbn [search_loop]. rewrite list_lookup_fmap.
  destruct (x !! _); cbn; [|done]. by rewrite !IH.
Qed.

Lemma BinarySearchFunc_map {K V} (f : V -> K) (c : K -> K -> comparison) (x : list V) t :
  BinarySearchFunc (fun a b => c (f a) (f b)) x t = BinarySearchFunc c (f <$> x) (f t).
Proof.
  unfold BinarySearchFunc. rewrite search_loop_map, length_fmap. f_equal. rewrite list_lookup_fmap. by destruct (x !! _).
Qed.

Lemma fmap_slice_insert {K V} (f : V -> K) (x : list V) i v : f <$> slice_insert x i v = slice_insert (f <$> x) i (f v).
Proof. unfold slice_insert. by rewrite fmap_app, fmap_cons, fmap_take, fmap_drop. Qed.

Lemma elem_of_slice_insert {V} (x : list V) i v w : w ∈ slice_insert x i v <-> w = v \/ w ∈ x.
Proof. unfold slice_insert. rewrite <- (take_drop i x) at 3. rewrite !elem_of_app, elem_of_cons. tauto. Qed.
