(* ===== verification/Utf8.v ===== *)
(** UTF-8 as package unicode/utf8 decodes and encodes it, and the byte buffer of
    package bytes as far as the modelled code uses it. *)

From S2P Require Import Prelude GoStd.

Open Scope Z_scope.

(** [utf8.RuneError]. *)
Definition RuneError : Z := 65533.

(** The size and the range of the second byte that a first byte announces; the
    table [first] with [acceptRanges] of package utf8.  [None] is a byte that
    cannot start a sequence. *)
Definition first_info (b : Z) : option (nat * Z * Z) :=
  if b <? 128 then Some (1%nat, 0, 0)
  else if b <? 194 then None
  else if b <? 224 then Some (2%nat, 128, 191)
  else if b =? 224 then Some (3%nat, 160, 191)
  else if b =? 237 then Some (3%nat, 128, 159)
  else if b <? 240 then Some (3%nat, 128, 191)
  else if b =? 240 then Some (4%nat, 144, 191)
  else if b <? 244 then Some (4%nat, 128, 191)
  else if b =? 244 then Some (4%nat, 128, 143)
  else None.

Definition is_cont (b : Z) : bool := (128 <=? b) && (b <=? 191).

(** [utf8.DecodeRuneInString]: the first rune and its size in bytes. *)
Definition DecodeRune (s : list ascii) : Z * nat :=
  match s with
  | [] => (RuneError, 0%nat)
  | c0 :: rest =>
      let b0 := bval c0 in
      match first_info b0 with
      | None => (RuneError, 1%nat)
      | Some (1%nat, _, _) => (b0, 1%nat)
      | Some (sz, lo, hi) =>
          match rest with
          | [] => (RuneError, 1%nat)
          | c1 :: rest1 =>
              let b1 := bval c1 in
              if negb ((lo <=? b1) && (b1 <=? hi)) || (length s <? sz)%nat then (RuneError, 1%nat)
              else match sz with
              | 2%nat => (Z.lor (Z.shiftl (Z.land b0 31) 6) (Z.land b1 63), 2%nat)
              | 3%nat =>
                  match rest1 with
                  | c2 :: _ =>
                      let b2 := bval c2 in
                      if is_cont b2 then
                        (Z.lor (Z.lor (Z.shiftl (Z.land b0 15) 12) (Z.shiftl (Z.land b1 63) 6))
                           (Z.land b2 63), 3%nat)
                      else (RuneError, 1%nat)
                  | [] => (RuneError, 1%nat)
                  end
              | _ =>
                  match rest1 with
                  | c2 :: c3 :: _ =>
                      let b2 := bval c2 in
                      let b3 := bval c3 in
                      if is_cont b2 && is_cont b3 then
                        (Z.lor (Z.lor (Z.shiftl (Z.land b0 7) 18) (Z.shiftl (Z.land b1 63) 12))
                           (Z.lor (Z.shiftl (Z.land b2 63) 6) (Z.land b3 63)), 4%nat)
                      else (RuneError, 1%nat)
                  | _ => (RuneError, 1%nat)
                  end
              end
          end
      end
  end.

(** The runes that [for s != "" { r, sz := DecodeRuneInString(s); s = s[sz:] }]
    visits with their byte offsets; [range s] visits the same pairs. *)
Fixpoint runes_at (fuel : nat) (off : nat) (s : list ascii) : list (nat * Z) :=
  match fuel, s with
  | S fuel, _ :: _ =>
      let '(r, sz) := DecodeRune s in (off, r) :: runes_at fuel (off + sz) (drop sz s)
  | _, _ => []
  end.

Definition range_string (s : string) : list (nat * Z) :=
  runes_at (String.length s) 0 (bytes s).

Definition runes (s : string) : list Z := (range_string s).*2.

(** [utf8.AppendRune]. *)
Definition EncodeRune (r : Z) : list ascii :=
  let enc3 r := [byte_of (Z.lor 224 (Z.shiftr r 12));
                 byte_of (Z.lor 128 (Z.land (Z.shiftr r 6) 63));
                 byte_of (Z.lor 128 (Z.land r 63))] in
  if (0 <=? r) && (r <=? 127) then [byte_of r]
  else if (0 <=? r) && (r <=? 2047) then
    [byte_of (Z.lor 192 (Z.shiftr r 6)); byte_of (Z.lor 128 (Z.land r 63))]
  else if (r <? 0) || (1114111 <? r) || ((55296 <=? r) && (r <=? 57343)) then enc3 RuneError
  else if r <=? 65535 then enc3 r
  else [byte_of (Z.lor 240 (Z.shiftr r 18));
        byte_of (Z.lor 128 (Z.land (Z.shiftr r 12) 63));
        byte_of (Z.lor 128 (Z.land (Z.shiftr r 6) 63));
        byte_of (Z.lor 128 (Z.land r 63))].

(** [bytes.Buffer.Truncate]: panics out of range. *)
Definition Truncate (buf : list ascii) (n : Z) : outcome (list ascii) :=
  if (n <? 0) || (Z.of_nat (length buf) <? n)
  then Panic "bytes.Buffer: truncation out of range"
  else Ret (take (Z.to_nat n) buf).

(** [bytes.TrimRight(b, "c")] for a one-byte cutset. *)
Fixpoint TrimRightByte (b : list ascii) (c : ascii) : list ascii :=
  match b with
  | [] => []
  | x :: b =>
      match TrimRightByte b c with
      | [] => if decide (x = c) then [] else [x]
      | t => x :: t
      end
  end.

(** ** Facts *)

Lemma DecodeRune_size c s : (1 <= snd (DecodeRune (c :: s)))%nat.
Proof. unfold DecodeRune. repeat case_match; simpl; lia. Qed.

Lemma first_info_ascii b : b < 128 -> first_info b = Some (1%nat, 0, 0).
Proof. intros H. unfold first_info. case_if; [done|lia]. Qed.

Lemma DecodeRune_ascii c s : bval c < 128 -> DecodeRune (c :: s) = (bval c, 1%nat).
Proof. intros H. unfold DecodeRune. by rewrite first_info_ascii. Qed.

Lemma EncodeRune_ascii r : 0 <= r < 128 -> EncodeRune r = [byte_of r].
Proof. intros H. unfold EncodeRune. case_if; [done|]. apply andb_false_iff in E as [?|?]; bool_simp; lia. Qed.

Lemma runes_at_ascii s fuel off :
  (length s <= fuel)%nat -> Forall (fun c => bval c < 128) s ->
  (runes_at fuel off s).*2 = map bval s /\ (runes_at fuel off s).*1 = seq off (length s).
Proof.
  revert fuel off. induction s as [|c s IH]; intros [|fuel] off Hf Ha; simpl in Hf; try lia; [done..|].
  apply Forall_cons in Ha as [Hc Ha].
  cbn [runes_at]. rewrite DecodeRune_ascii by done.
  destruct (IH fuel (off + 1)%nat) as [H1 H2]; [lia|done|].
  change (drop 1 (c :: s)) with (drop 0 s). rewrite drop_0.
  rewrite !fmap_cons, H1, H2. simpl. by rewrite Nat.add_1_r.
Qed.

Lemma is_ascii_Forall s : is_ascii s = true <-> Forall (fun c => bval c < 128) (bytes s).
Proof.
  unfold is_ascii. rewrite forallb_forall, Forall_forall.
  setoid_rewrite list_elem_of_In. by setoid_rewrite Z.ltb_lt.
Qed.

Lemma runes_ascii s : is_ascii s = true -> runes s = map bval (bytes s).
Proof.
  intros H. apply is_ascii_Forall in H. unfold runes, range_string.
  apply runes_at_ascii; [|done]. by rewrite length_bytes.
Qed.

Lemma range_string_ascii_offsets s :
  is_ascii s = true -> (range_string s).*1 = seq 0 (String.length s).
Proof.
  intros H. apply is_ascii_Forall in H. unfold range_string.
  destruct (runes_at_ascii (bytes s) (String.length s) 0) as [_ ->];
    [by rewrite length_bytes|done|by rewrite length_bytes].
Qed.

(** Decoding what was encoded gives the rune back, for one-byte runes. *)
Lemma EncodeRune_bval c : bval c < 128 -> EncodeRune (bval c) = [c].
Proof.
  intros H. pose proof (bval_range c). rewrite EncodeRune_ascii by lia. by rewrite byte_of_bval.
Qed.

Lemma TrimRightByte_snoc_eq b c : TrimRightByte (b ++ [c]) c = TrimRightByte b c.
Proof.
  induction b as [|x b IH]; simpl; [by rewrite decide_True|]. by rewrite IH.
Qed.

Lemma TrimRightByte_last_ne b c x : last b = Some x -> x <> c -> TrimRightByte b c = b.
Proof.
  induction b as [|y b IH]; [done|]. intros Hl Hne. simpl.
  destruct b as [|z b].
  - simpl in *. simplify_eq. by rewrite decide_False.
  - rewrite IH by done. done.
Qed.

Lemma TrimRightByte_prefix b c : exists n, b = TrimRightByte b c ++ replicate n c.
Proof.
  induction b as [|x b [n IH]]; simpl; [by exists 0%nat|].
  destruct (TrimRightByte b c) as [|y t] eqn:E.
  - case_decide as Hd; [exists (S n); simpl in *; congruence|exists n; simpl in *; congruence].
  - exists n. simpl in *. congruence.
Qed.

Lemma TrimRightByte_last b c x : last (TrimRightByte b c) = Some x -> x <> c.
Proof.
  induction b as [|y b IH]; simpl; [done|].
  destruct (TrimRightByte b c) as [|z t] eqn:E.
  - case_decide; [done|]. simpl. congruence.
  - intros H. apply IH. done.
Qed.
