(* ===== verification/NetIP.v ===== *)
(** Package net/netip as far as the modelled code uses it: addresses, address
    and port pairs, and prefixes.  An IPv4-mapped IPv6 address is an [Addr6], as
    in Go. *)

From S2P Require Import Prelude GoStd.

Open Scope Z_scope.

Inductive Addr :=
  | AddrZero                         (* netip.Addr{} *)
  | Addr4 (ip : Z)
  | Addr6 (ip : Z) (zone : string).

#[export] Instance Addr_eq_dec : EqDecision Addr.
Proof. solve_decision. Defined.

#[export] Instance Addr_countable : Countable Addr.
Proof.
  refine (inj_countable'
    (fun a => match a with
              | AddrZero => inl (inl tt)
              | Addr4 ip => inl (inr ip)
              | Addr6 ip z => inr (ip, z)
              end)
    (fun x => match x with
              | inl (inl _) => AddrZero
              | inl (inr ip) => Addr4 ip
              | inr (ip, z) => Addr6 ip z
              end) _).
  by intros [].
Defined.

(** Addresses with their value in range. *)
Definition addr_ok (a : Addr) : Prop :=
  match a with
  | AddrZero => True
  | Addr4 ip => 0 <= ip < 2 ^ 32
  | Addr6 ip _ => 0 <= ip < 2 ^ 128
  end.

Definition IsValid (a : Addr) : bool := match a with AddrZero => false | _ => true end.
Definition Is4 (a : Addr) : bool := match a with Addr4 _ => true | _ => false end.
Definition Is6 (a : Addr) : bool := match a with Addr6 _ _ => true | _ => false end.

Definition BitLen (a : Addr) : Z :=
  match a with AddrZero => 0 | Addr4 _ => 32 | Addr6 _ _ => 128 end.

Definition hasZone (a : Addr) : bool :=
  match a with Addr6 _ z => negb (bool_decide (z = EmptyString)) | _ => false end.

Definition withoutZone (a : Addr) : Addr :=
  match a with Addr6 ip _ => Addr6 ip EmptyString | _ => a end.

(** ** Strings of addresses *)

Definition ip_hex_digit (n : Z) : ascii :=
  ascii_of_nat (Z.to_nat (if n <? 10 then 48 + n else 87 + n)).

(** A 16-bit number without leading zeros. *)
Definition hex16 (n : Z) : string :=
  let d k := String (ip_hex_digit (Z.land (Z.shiftr n (4 * k)) 15)) in
  if n <? 16 then d 0 EmptyString
  else if n <? 256 then d 1 (d 0 EmptyString)
  else if n <? 4096 then d 2 (d 1 (d 0 EmptyString))
  else d 3 (d 2 (d 1 (d 0 EmptyString))).

Definition dotted (ip : Z) : string :=
  let byte k := itoa (Z.land (Z.shiftr ip (8 * k)) 255) in
  (byte 3 +:+ "." +:+ byte 2 +:+ "." +:+ byte 1 +:+ "." +:+ byte 0)%string.

Definition groups6 (ip : Z) : list Z :=
  (fun k => Z.land (Z.shiftr ip (16 * k)) 65535) <$> [7; 6; 5; 4; 3; 2; 1; 0].

(** The number of zero groups at the front. *)
Fixpoint zero_run (l : list Z) : nat :=
  match l with 0 :: l => S (zero_run l) | _ => 0%nat end.

(** The first longest run of at least two zero groups, as its start and length. *)
Definition longest_run (l : list Z) : nat * nat :=
  foldl (fun '(start, len) i =>
    let r := zero_run (drop i l) in
    if ((2 <=? r) && (len <? r))%nat then (i, r) else (start, len)) (0%nat, 0%nat) (seq 0 (length l)).

Definition join_hex (l : list Z) : string :=
  match l with
  | [] => EmptyString
  | x :: l => foldl (fun s y => s +:+ ":" +:+ hex16 y)%string (hex16 x) l
  end.

Definition colons (ip : Z) : string :=
  let l := groups6 ip in
  match longest_run l with
  | (_, 0%nat) => join_hex l
  | (start, len) => (join_hex (take start l) +:+ "::" +:+ join_hex (drop (start + len) l))%string
  end.

(** [net.IP.String]; an IPv4-mapped address is printed as an IPv4 address. *)
Definition IP_String (a : Addr) : string :=
  match a with
  | AddrZero => "<nil>"
  | Addr4 ip => dotted ip
  | Addr6 ip _ => if Z.shiftr ip 32 =? 65535 then dotted (Z.land ip (2 ^ 32 - 1)) else colons ip
  end.

Example IP_String_examples :
  IP_String (Addr4 0x7f000001) = "127.0.0.1"%string /\
  IP_String (Addr6 0 EmptyString) = "::"%string /\
  IP_String (Addr6 1 EmptyString) = "::1"%string /\
  IP_String (Addr6 0x20010db8000000000001000000000001 EmptyString) = "2001:db8::1:0:0:1"%string /\
  IP_String (Addr6 0x20010db8000000010001000100010000 EmptyString) = "2001:db8:0:1:1:1:1:0"%string /\
  IP_String (Addr6 0x00000000000000000000ffff01020304 EmptyString) = "1.2.3.4"%string /\
  IP_String (Addr6 0xfe800000000000000000000000000000 EmptyString) = "fe80::"%string.
Proof. vm_compute. done. Qed.

Record AddrPort := { ap_addr : Addr; ap_port : Z }.

#[export] Instance AddrPort_eq_dec : EqDecision AddrPort.
Proof. solve_decision. Defined.

(** [p_bits] is -1 for an invalid prefix. *)
Record Prefix := { p_ip : Addr; p_bits : Z }.

#[export] Instance Prefix_eq_dec : EqDecision Prefix.
Proof. solve_decision. Defined.

Definition prefix_valid (p : Prefix) : bool := 0 <=? p_bits p.

Definition PrefixFrom (ip : Addr) (bits : Z) : Prefix :=
  {| p_ip := withoutZone ip;
     p_bits := if IsValid ip && (0 <=? bits) && (bits <=? BitLen ip) then bits else -1 |}.

(** The mask of the first [bits] of [width] bits. *)
Definition mask (width bits : Z) : Z := 2 ^ width - 2 ^ (width - bits).

(** [Prefix.Contains]. *)
Definition prefix_contains (p : Prefix) (ip : Addr) : bool :=
  if negb (prefix_valid p) || hasZone ip then false
  else match p_ip p, ip with
       | Addr4 n, Addr4 x => Z.shiftr (Z.lxor x n) (32 - p_bits p) =? 0
       | Addr6 n _, Addr6 x _ => Z.land (Z.lxor x n) (mask 128 (p_bits p)) =? 0
       | _, _ => false
       end.

(** [Addr.Prefix]; [None] is an error.  The address is masked. *)
Definition addr_prefix (ip : Addr) (b : Z) : option Prefix :=
  if b <? 0 then None
  else match ip with
       | AddrZero => Some {| p_ip := AddrZero; p_bits := -1 |}
       | Addr4 x =>
           if 32 <? b then None else Some (PrefixFrom (Addr4 (Z.land x (mask 32 b))) b)
       | Addr6 x _ =>
           if 128 <? b then None
           else Some (PrefixFrom (Addr6 (Z.land x (mask 128 b)) EmptyString) b)
       end.

(** ** Facts *)

Lemma shiftr_lxor_zero x y k : 0 <= k ->
  Z.shiftr (Z.lxor x y) k = 0 <-> Z.shiftr x k = Z.shiftr y k.
Proof. intros. rewrite Z.shiftr_lxor. apply Z.lxor_eq_0_iff. Qed.

(** Masking keeps the bits from [width - bits] on. *)
Lemma land_mask x width bits :
  0 <= bits <= width -> 0 <= x < 2 ^ width ->
  Z.land x (mask width bits) = Z.shiftl (Z.shiftr x (width - bits)) (width - bits).
Proof.
  intros Hb Hx. set (k := width - bits). unfold mask. fold k.
  assert (0 < 2 ^ k) by (apply Z.pow_pos_nonneg; lia).
  replace (2 ^ width - 2 ^ k) with (Z.shiftl (Z.ones bits) k).
  - apply Z.bits_inj'. intros n Hn. rewrite Z.land_spec, !Z.shiftl_spec by lia.
    destruct (Z.ltb_spec n k) as [Hlt|Hge].
    + rewrite !(Z.testbit_neg_r _ (n - k)) by lia. by rewrite andb_false_r.
    + rewrite Z.shiftr_spec by lia. replace (n - k + k) with n by lia.
      destruct (Z.ltb_spec n width).
      * rewrite Z.ones_spec_low by lia. by rewrite andb_true_r.
      * destruct (Z.eq_dec x 0) as [->|]; [by rewrite Z.bits_0|].
        rewrite (Z.bits_above_log2 x n); [done|lia|].
        apply Z.log2_lt_pow2; [lia|]. eapply Z.lt_le_trans; [apply Hx|].
        apply Z.pow_le_mono_r; lia.
  - rewrite Z.shiftl_mul_pow2, Z.ones_equiv by lia.
    replace width with (bits + k) by lia. rewrite Z.pow_add_r by lia. lia.
Qed.

Lemma land_mask_eq x y width bits :
  0 <= bits <= width -> 0 <= x < 2 ^ width -> 0 <= y < 2 ^ width ->
  Z.land x (mask width bits) = Z.land y (mask width bits)
  <-> Z.shiftr x (width - bits) = Z.shiftr y (width - bits).
Proof.
  intros Hb Hx Hy. rewrite !land_mask by done. split; [|by intros ->].
  intros E. apply (f_equal (fun z => Z.shiftr z (width - bits))) in E.
  rewrite !Z.shiftr_shiftl_l, !Z.sub_diag, !Z.shiftl_0_r in E by lia. done.
Qed.

(** Two addresses are in the same network of [b] bits iff masking them gives the
    same prefix. *)
Definition same_network (x y : Addr) (b : Z) : Prop :=
  match x, y with
  | Addr4 x, Addr4 y => Z.shiftr x (32 - b) = Z.shiftr y (32 - b)
  | Addr6 x _, Addr6 y _ => Z.shiftr x (128 - b) = Z.shiftr y (128 - b)
  | _, _ => False
  end.

Lemma addr_prefix_4 x y b :
  addr_ok (Addr4 x) -> addr_ok (Addr4 y) -> 0 <= b <= 32 ->
  addr_prefix (Addr4 x) b = addr_prefix (Addr4 y) b <-> same_network (Addr4 x) (Addr4 y) b.
Proof.
  simpl. intros Hx Hy Hb. unfold addr_prefix. do 2 (case_if; [lia|]).
  rewrite <- (land_mask_eq x y 32 b) by lia. unfold PrefixFrom. simpl.
  split; [intros ?; congruence|by intros ->].
Qed.

Lemma addr_prefix_6 x zx y zy b :
  addr_ok (Addr6 x zx) -> addr_ok (Addr6 y zy) -> 0 <= b <= 128 ->
  addr_prefix (Addr6 x zx) b = addr_prefix (Addr6 y zy) b
  <-> same_network (Addr6 x zx) (Addr6 y zy) b.
Proof.
  simpl. intros Hx Hy Hb. unfold addr_prefix. do 2 (case_if; [lia|]).
  rewrite <- (land_mask_eq x y 128 b) by lia. unfold PrefixFrom. simpl.
  split; [intros ?; congruence|by intros ->].
Qed.

Lemma lxor_bound x y n : 0 < n -> 0 <= x < 2 ^ n -> 0 <= y < 2 ^ n -> 0 <= Z.lxor x y < 2 ^ n.
Proof.
  intros Hn Hx Hy. assert (0 <= Z.lxor x y) by (apply Z.lxor_nonneg; lia). split; [done|].
  destruct (Z.eq_dec (Z.lxor x y) 0) as [->|Hne]; [apply Z.pow_pos_nonneg; lia|].
  apply Z.log2_lt_pow2; [lia|].
  eapply Z.le_lt_trans; [apply Z.log2_lxor; lia|].
  assert (forall z, 0 <= z < 2 ^ n -> Z.log2 z < n) as Hlog.
  { intros z Hz. destruct (Z.eq_dec z 0) as [->|]; [simpl; lia|]. apply Z.log2_lt_pow2; lia. }
  pose proof (Hlog x Hx). pose proof (Hlog y Hy). lia.
Qed.

(** What [Contains] means: a valid prefix, no zone, the same family, and equal
    leading bits. *)
Lemma prefix_contains_spec p ip :
  addr_ok (p_ip p) -> addr_ok ip -> p_bits p <= BitLen (p_ip p) ->
  prefix_contains p ip = true <->
  0 <= p_bits p /\ hasZone ip = false /\ same_network (p_ip p) ip (p_bits p).
Proof.
  intros Hp Hip Hb. unfold prefix_contains, prefix_valid.
  destruct (0 <=? p_bits p) eqn:Ev, (hasZone ip) eqn:Ez; bool_simp; simpl; try naive_solver lia.
  destruct (p_ip p) as [|n|n zn], ip as [|x|x zx]; simpl in *;
    try (split; [discriminate|tauto]).
  - rewrite Z.eqb_eq, shiftr_lxor_zero by lia. naive_solver.
  - rewrite Z.eqb_eq, land_mask by (try apply lxor_bound; lia).
    rewrite Z.shiftl_eq_0_iff, shiftr_lxor_zero by lia. naive_solver.
Qed.
