(* ===== verification/HumanID.v ===== *)
(** Human-readable device identifiers: internal/agd/humanid.go with the
    validation helpers of internal/agdvalidate.

    The functions of golibs' package netutil are parameters ([Netutil]); what
    the code relies on is their documented behaviour ([NetutilSpec]). *)

From S2P Require Import Prelude GoStd Utf8.

Open Scope Z_scope.

(** ** internal/agdvalidate *)

Definition UnitByte : string := "bytes".
Definition UnitRune : string := "runes".

Definition Inclusion (n minVal maxVal : Z) (unitName : string) : option error :=
  if maxVal <? n then Some (ErrConst "too long: got %d %s, max %d")
  else if n <? minVal then Some (ErrConst "too short: got %d %s, min %d")
  else None.

(** [None] is the pair (-1, 0). *)
Definition FirstNonIDRune (s : string) (excludeSlashes : bool) : option (nat * Z) :=
  first_such (fun '(_, r) => (r <? 33) || (126 <? r) || (excludeSlashes && (r =? 47)))
    (range_string s).

Lemma Inclusion_None n lo hi u : Inclusion n lo hi u = None <-> lo <= n <= hi.
Proof. unfold Inclusion. repeat case_if; split; try done; lia. Qed.

(** ** golibs/netutil *)

Class Netutil := {
  MaxDomainLabelLen : Z;
  MaxDomainNameLen : Z;
  (** nil if the label is valid *)
  ValidateHostnameLabel : string -> option error;
  IsValidHostOuterRune : Z -> bool;
}.

Definition hyphen : ascii := "-"%char.

(** Letters and digits. *)
Definition outer_rune (r : Z) : Prop := 97 <= r <= 122 \/ 65 <= r <= 90 \/ 48 <= r <= 57.

Definition outer (c : ascii) : Prop := outer_rune (bval c).

#[export] Instance outer_rune_dec r : Decision (outer_rune r).
Proof. unfold outer_rune. apply _. Defined.
#[export] Instance outer_dec c : Decision (outer c).
Proof. unfold outer. apply _. Defined.

(** A hostname label of RFC 1123: letters, digits and inner hyphens, at most 63
    bytes. *)
Definition valid_label (b : list ascii) : Prop :=
  b <> [] /\ (length b <= 63)%nat /\
  Forall (fun c => outer c \/ c = hyphen) b /\
  (forall c, head b = Some c -> outer c) /\
  (forall c, last b = Some c -> outer c).

Class NetutilSpec `{Netutil} : Prop := {
  max_label_len : MaxDomainLabelLen = 63;
  max_name_len : MaxDomainNameLen = 253;
  outer_rune_ok r : IsValidHostOuterRune r = true <-> outer_rune r;
  label_ok s : ValidateHostnameLabel s = None <-> valid_label (bytes s);
  (** errors are of type *LabelError, which wraps the reason *)
  label_error_wraps s err : ValidateHostnameLabel s = Some err -> Unwrap err <> None;
}.

(** ** HumanID *)

Section humanid.
Context `{Netutil} `{UnicodeCase}.

Definition MaxHumanIDLen : Z := MaxDomainLabelLen.
Definition MinHumanIDLen : Z := 1.

Definition newHumanID (s : string) : result error string :=
  match Inclusion (len s) MinHumanIDLen MaxHumanIDLen UnitByte with
  | Some err => Err err
  | None =>
      match ValidateHostnameLabel s with
      | Some err => Err err
      | None =>
          match Index s "---" with
          | Some _ => Err (ErrConst "at index %d: max 2 consecutive hyphens are allowed")
          | None => Ok s
          end
      end
  end.

Definition NewHumanID (s : string) : result error string :=
  annotate "bad human id %q: %w" (newHumanID s).

Definition is_upper_rune (r : Z) : bool := (65 <=? r) && (r <=? 90).

Definition NewHumanIDLower (s : string) : result error string :=
  match newHumanID s with
  | Err err => Err (ErrWrap "bad lowercase human id %q: %w" err)
  | Ok humanID =>
      match first_such (fun '(_, r) => is_upper_rune r) (range_string humanID) with
      | Some _ => Err (ErrConst "bad lowercase human id %q: at index %d: %q is not lowercase")
      | None => Ok s
      end
  end.

Definition HumanIDToLower (id : string) : string := ToLower id.

(** *** The normalizer *)

Record humanIDNormalizer := {
  n_buf : list ascii;
  n_state : Z;
  n_prevRune : Z;
  n_prevPrevRune : Z;
}.

Definition humanIDNormStateInitial : Z := 0.
Definition humanIDNormStateInvalid : Z := 1.
Definition humanIDNormStateValid : Z := 2.

Definition hyphen_rune : Z := 45.

Definition set_state (p : humanIDNormalizer) (st : Z) : humanIDNormalizer :=
  {| n_buf := n_buf p; n_state := st;
     n_prevRune := n_prevRune p; n_prevPrevRune := n_prevPrevRune p |}.

Definition write (p : humanIDNormalizer) (r : Z) : humanIDNormalizer :=
  {| n_buf := n_buf p ++ EncodeRune r; n_state := n_state p;
     n_prevRune := r; n_prevPrevRune := n_prevRune p |}.

Definition nextInitial (p : humanIDNormalizer) (r : Z) : humanIDNormalizer :=
  if negb (IsValidHostOuterRune r) then p
  else write (set_state p humanIDNormStateValid) r.

Definition truncateHyphens (p : humanIDNormalizer) : outcome humanIDNormalizer :=
  if negb (n_prevRune p =? hyphen_rune) then Ret p
  else if n_prevPrevRune p =? hyphen_rune then
    let! buf := Truncate (n_buf p) (Z.of_nat (length (n_buf p)) - 2) in
    Ret {| n_buf := buf; n_state := n_state p;
           n_prevRune := RuneError; n_prevPrevRune := RuneError |}
  else
    let! buf := Truncate (n_buf p) (Z.of_nat (length (n_buf p)) - 1) in
    Ret {| n_buf := buf; n_state := n_state p;
           n_prevRune := RuneError; n_prevPrevRune := n_prevPrevRune p |}.

Definition nextValid (p : humanIDNormalizer) (r : Z) : outcome humanIDNormalizer :=
  if r =? hyphen_rune then
    if (n_prevPrevRune p =? hyphen_rune) && (n_prevRune p =? hyphen_rune) then
      let! buf := Truncate (n_buf p) (Z.of_nat (length (n_buf p)) - 2) in
      Ret {| n_buf := buf; n_state := humanIDNormStateInvalid;
             n_prevRune := RuneError; n_prevPrevRune := RuneError |}
    else Ret (write p r)
  else if negb (IsValidHostOuterRune r) then
    let! p := truncateHyphens p in
    Ret (set_state p humanIDNormStateInvalid)
  else Ret (write p r).

Definition nextInvalid (p : humanIDNormalizer) (r : Z) : humanIDNormalizer :=
  if negb (IsValidHostOuterRune r) then p
  else
    let p := set_state p humanIDNormStateValid in
    let p := if negb (n_prevRune p =? hyphen_rune) then write p hyphen_rune else p in
    write p r.

Definition next (p : humanIDNormalizer) (r : Z) : outcome humanIDNormalizer :=
  if n_state p =? humanIDNormStateInitial then Ret (nextInitial p r)
  else if n_state p =? humanIDNormStateValid then nextValid p r
  else if n_state p =? humanIDNormStateInvalid then Ret (nextInvalid p r)
  else Panic "bad humanIDNormalizer state %d".

(** The loop of [ParseNormalized] over the runes of the string. *)
Fixpoint next_all (p : humanIDNormalizer) (rs : list Z) : outcome humanIDNormalizer :=
  match rs with
  | [] => Ret p
  | r :: rs => let! p := next p r in next_all p rs
  end.

Definition norm_result (p : humanIDNormalizer) : string :=
  let b := take (Z.to_nat (Z.min (Z.of_nat (length (n_buf p))) MaxHumanIDLen)) (n_buf p) in
  of_bytes (TrimRightByte b hyphen).

Definition new_normalizer : humanIDNormalizer :=
  {| n_buf := []; n_state := humanIDNormStateInitial; n_prevRune := 0; n_prevPrevRune := 0 |}.

Definition ParseNormalized (s : string) : outcome (result error string) :=
  match newHumanID s with
  | Ok id => Ret (Ok id)
  | Err _ =>
      match Inclusion (len s) MinHumanIDLen MaxDomainNameLen UnitByte with
      | Some err => Ret (Err (ErrWrap "bad non-normalized human id %q: %w" err))
      | None =>
          let! n := next_all new_normalizer (runes s) in
          let s' := norm_result n in
          if bool_decide (s' = EmptyString) || bool_decide (s' = "-"%string) then
            Ret (Err (ErrWrap "bad non-normalized human id %q: %w" (ErrConst "cannot normalize")))
          else Ret (annotate "bad non-normalized human id %q: %w" (newHumanID s'))
      end
  end.

End humanid.

(** ** Normalized buffers

    [good b n]: [b] starts with a letter or digit, contains only letters,
    digits and runs of at most two hyphens, and ends in [n] hyphens. *)

Inductive good : list ascii -> nat -> Prop :=
  | good_first c : outer c -> good [c] 0
  | good_outer b n c : good b n -> outer c -> good (b ++ [c]) 0
  | good_hyphen b n : good b n -> (n < 2)%nat -> good (b ++ [hyphen]) (S n).

Lemma hyphen_not_outer : ~ outer hyphen.
Proof. vm_compute. intuition congruence. Qed.

Lemma outer_ascii c : outer c -> bval c < 128.
Proof. unfold outer, outer_rune. lia. Qed.

Lemma outer_rune_not_hyphen r : outer_rune r -> r <> hyphen_rune.
Proof. unfold outer_rune, hyphen_rune. lia. Qed.

Lemma outer_byte_of r : outer_rune r -> outer (byte_of r).
Proof. intros Hr. unfold outer. rewrite bval_byte_of; [done|]. unfold outer_rune in Hr. lia. Qed.

Lemma good_le b n : good b n -> (n <= 2)%nat.
Proof. induction 1; lia. Qed.

Lemma good_nonempty b n : good b n -> b <> [].
Proof. induction 1; [done| |]; intros H'; by apply app_nil in H' as [_ ?]. Qed.

Lemma good_snoc_hyphen b n : good (b ++ [hyphen]) n -> exists m, n = S m /\ good b m.
Proof.
  intros Hg. remember (b ++ [hyphen]) as l eqn:E. destruct Hg as [c Hc|b' n' c Hg Hc|b' n' Hg Hn].
  - destruct b as [|x b]; simplify_eq/=.
    + by apply hyphen_not_outer in Hc.
    + by destruct b.
  - apply app_inj_tail in E as [_ ->]. by apply hyphen_not_outer in Hc.
  - apply app_inj_tail in E as [-> _]. eauto.
Qed.

Lemma good_snoc_pos b n : good b (S n) -> exists b', b = b' ++ [hyphen] /\ good b' n.
Proof. intros Hg. inversion Hg; subst. eauto. Qed.

Lemma good_0_last b c : good b 0 -> last b = Some c -> outer c.
Proof.
  intros Hg. inversion Hg; subst.
  - intros [= <-]. done.
  - rewrite last_snoc. by intros [= <-].
Qed.

Lemma good_Forall b n : good b n -> Forall (fun c => outer c \/ c = hyphen) b.
Proof.
  induction 1; [apply Forall_singleton; auto|..]; apply Forall_app; split; try done;
    apply Forall_singleton; auto.
Qed.

Lemma good_head b n c : good b n -> head b = Some c -> outer c.
Proof.
  intros Hg. revert c. induction Hg as [c Hc|b n c Hg IH Hc|b n Hg IH Hn]; intros d Hd.
  - by simplify_eq/=.
  - apply good_nonempty in Hg. by destruct b; [|apply IH].
  - apply good_nonempty in Hg. by destruct b; [|apply IH].
Qed.

Lemma good_take b n k : good b n -> (0 < k)%nat -> exists m, good (take k b) m.
Proof.
  intros Hg Hk. induction Hg as [c Hc|b n c Hg [m IH] Hc|b n Hg [m IH] Hn].
  - destruct k; [lia|]. exists 0%nat. simpl. destruct k; by constructor.
  - destruct (decide (k <= length b)%nat).
    + exists m. by rewrite take_app_le.
    + exists 0%nat. rewrite take_ge by (rewrite length_app; simpl; lia). by econstructor.
  - destruct (decide (k <= length b)%nat).
    + exists m. by rewrite take_app_le.
    + exists (S n). rewrite take_ge by (rewrite length_app; simpl; lia). by constructor.
Qed.

Lemma good_prefix l r n : good (l ++ r) n -> l <> [] -> exists m, good l m.
Proof.
  intros Hg Hl. destruct (good_take _ _ (length l) Hg) as [m Hm].
  - destruct l; [done|simpl; lia].
  - rewrite take_app_length in Hm. eauto.
Qed.

(** No run of three hyphens. *)
Lemma good_no_triple l r n : ~ good (l ++ [hyphen; hyphen; hyphen] ++ r) n.
Proof.
  intros Hg. rewrite app_assoc in Hg. apply good_prefix in Hg as [m Hg]; [|by destruct l].
  replace (l ++ [hyphen; hyphen; hyphen]) with (((l ++ [hyphen]) ++ [hyphen]) ++ [hyphen]) in Hg
    by (by rewrite <- !app_assoc).
  apply good_le in Hg as Hle.
  apply good_snoc_hyphen in Hg as (m1 & -> & Hg).
  apply good_snoc_hyphen in Hg as (m2 & -> & Hg).
  apply good_snoc_hyphen in Hg as (m3 & -> & Hg). lia.
Qed.

Lemma good_trim b n : good b n -> good (TrimRightByte b hyphen) 0.
Proof.
  revert b. induction n as [|n IH]; intros b Hg.
  - destruct (last b) as [c|] eqn:E.
    + rewrite (TrimRightByte_last_ne _ _ c); [done|done|].
      intros ->. apply hyphen_not_outer. by eapply good_0_last.
    + apply last_None in E as ->. by apply good_nonempty in Hg.
  - apply good_snoc_pos in Hg as (b' & -> & Hg). rewrite TrimRightByte_snoc_eq. auto.
Qed.

(** ** The normalizer's invariant *)

Section normalizer.
Context `{Netutil} `{!NetutilSpec}.

(** How the two remembered runes reflect the trailing hyphens in the state
    [humanIDNormStateValid]. *)
Definition prev_runes (p : humanIDNormalizer) (n : nat) : Prop :=
  match n with
  | O => n_prevRune p <> hyphen_rune
  | S O => n_prevRune p = hyphen_rune /\ n_prevPrevRune p <> hyphen_rune
  | _ => n_prevRune p = hyphen_rune /\ n_prevPrevRune p = hyphen_rune
  end.

Definition norm_inv (p : humanIDNormalizer) : Prop :=
  (n_state p = humanIDNormStateInitial /\ n_buf p = []) \/
  (n_state p = humanIDNormStateValid /\ exists n, good (n_buf p) n /\ prev_runes p n) \/
  (n_state p = humanIDNormStateInvalid /\ good (n_buf p) 0 /\ n_prevRune p <> hyphen_rune).

(** The letters and digits of a buffer and of the runes read so far. *)
Definition outer_bytes (b : list ascii) : list Z := filter outer_rune (map bval b).

Lemma outer_bytes_app b b' : outer_bytes (b ++ b') = outer_bytes b ++ outer_bytes b'.
Proof. unfold outer_bytes. by rewrite map_app, filter_app. Qed.

Lemma outer_bytes_hyphen : outer_bytes [hyphen] = [].
Proof. reflexivity. Qed.

Lemma outer_bytes_rune r : outer_rune r -> outer_bytes (EncodeRune r) = [r].
Proof.
  intros Hr. pose proof Hr as Hr'. unfold outer_rune in Hr'. rewrite EncodeRune_ascii by lia.
  unfold outer_bytes. simpl. rewrite bval_byte_of by lia. by rewrite filter_cons_True.
Qed.

Lemma not_outer_ok r : IsValidHostOuterRune r = false <-> ~ outer_rune r.
Proof. rewrite <- outer_rune_ok. by rewrite not_true_iff_false. Qed.

Lemma outer_rune_eqb_hyphen r : outer_rune r -> (r =? hyphen_rune) = false.
Proof. intros. apply Z.eqb_neq. by apply outer_rune_not_hyphen. Qed.

Lemma EncodeRune_outer r : outer_rune r -> EncodeRune r = [byte_of r].
Proof. intros Hr. apply EncodeRune_ascii. unfold outer_rune in Hr. lia. Qed.

Lemma Truncate_app b c : Truncate (b ++ c) (Z.of_nat (length (b ++ c)) - Z.of_nat (length c)) = Ret b.
Proof.
  unfold Truncate. rewrite length_app. case_if.
  - apply orb_true_iff in E as [?|?]; bool_simp; lia.
  - replace (Z.to_nat _) with (length b) by lia. by rewrite take_app_length.
Qed.

Lemma outer_bytes_snoc_hyphen b : outer_bytes (b ++ [hyphen]) = outer_bytes b.
Proof. rewrite outer_bytes_app, outer_bytes_hyphen. apply app_nil_r. Qed.

(** Dropping two trailing hyphens. *)
Lemma Truncate_two b n :
  good b (S (S n)) ->
  exists b', Truncate b (Z.of_nat (length b) - 2) = Ret b' /\ good b' 0 /\
    outer_bytes b' = outer_bytes b.
Proof.
  intros Hg. assert (n = 0%nat) as -> by (apply good_le in Hg; lia).
  apply good_snoc_pos in Hg as (b1 & -> & Hg). apply good_snoc_pos in Hg as (b2 & -> & Hg).
  exists b2. rewrite !outer_bytes_snoc_hyphen. split; [|done].
  rewrite <- app_assoc. apply (Truncate_app b2 ([hyphen] ++ [hyphen])).
Qed.

Lemma Truncate_one b :
  good b 1 ->
  exists b', Truncate b (Z.of_nat (length b) - 1) = Ret b' /\ good b' 0 /\
    outer_bytes b' = outer_bytes b.
Proof.
  intros Hg. apply good_snoc_pos in Hg as (b1 & -> & Hg).
  exists b1. rewrite outer_bytes_snoc_hyphen. split; [|done]. apply (Truncate_app b1 [hyphen]).
Qed.

(** One step of each kind: the invariant is kept, nothing panics, and letters
    and digits are never lost. *)
Definition step_ok (p : humanIDNormalizer) (r : Z) (o : outcome humanIDNormalizer) : Prop :=
  exists p', o = Ret p' /\ norm_inv p' /\
    outer_bytes (n_buf p') = outer_bytes (n_buf p) ++ filter outer_rune [r].

Lemma write_outer_ok p r n :
  n_state p = humanIDNormStateValid -> good (n_buf p) n -> outer_rune r ->
  step_ok p r (Ret (write p r)).
Proof.
  intros Hst Hg Hr. eexists. split; [done|]. split.
  - right; left. split; [done|]. exists 0%nat. simpl. rewrite EncodeRune_outer by done.
    split; [econstructor; [done|by apply outer_byte_of]|by apply outer_rune_not_hyphen].
  - simpl. rewrite outer_bytes_app, outer_bytes_rune by done. by rewrite filter_cons_True.
Qed.

Lemma nextValid_hyphen_ok p n :
  n_state p = humanIDNormStateValid -> good (n_buf p) n -> prev_runes p n ->
  step_ok p hyphen_rune (nextValid p hyphen_rune).
Proof.
  intros Hst Hg Hpr. unfold step_ok, nextValid. rewrite Z.eqb_refl.
  rewrite filter_cons_False, app_nil_r by (by vm_compute; intuition congruence).
  assert (forall k, good (n_buf p) k -> (k < 2)%nat -> prev_runes (write p hyphen_rune) (S k) ->
    norm_inv (write p hyphen_rune) /\ outer_bytes (n_buf (write p hyphen_rune)) = outer_bytes (n_buf p))
    as Hwrite.
  { intros k Hk Hlt Hp. split; [|apply outer_bytes_snoc_hyphen].
    right; left. split; [done|]. exists (S k). split; [by constructor|done]. }
  destruct n as [|[|n]]; simpl in Hpr.
  - rewrite (proj2 (Z.eqb_neq _ _) Hpr), andb_false_r. eexists. split; [done|].
    apply (Hwrite 0%nat); [done|lia|done].
  - destruct Hpr as [Hp Hpp]. rewrite (proj2 (Z.eqb_neq _ _) Hpp). eexists. split; [done|].
    apply (Hwrite 1%nat); [done|lia|done].
  - destruct Hpr as [-> ->]. destruct (Truncate_two _ _ Hg) as (b' & -> & Hg' & Hb).
    eexists. split; [done|]. split; [|done]. right; right. done.
Qed.

Lemma truncateHyphens_ok p n :
  good (n_buf p) n -> prev_runes p n ->
  exists p', truncateHyphens p = Ret p' /\ good (n_buf p') 0 /\ n_prevRune p' <> hyphen_rune /\
    outer_bytes (n_buf p') = outer_bytes (n_buf p).
Proof.
  intros Hg Hpr. unfold truncateHyphens. destruct n as [|[|n]]; simpl in Hpr.
  - rewrite (proj2 (Z.eqb_neq _ _) Hpr). simpl. eauto.
  - destruct Hpr as [-> Hpp]. rewrite (proj2 (Z.eqb_neq _ _) Hpp). simpl.
    destruct (Truncate_one _ Hg) as (b' & -> & Hg' & Hb). eexists. by split.
  - destruct Hpr as [-> ->]. simpl.
    destruct (Truncate_two _ _ Hg) as (b' & -> & Hg' & Hb). eexists. by split.
Qed.

Lemma nextValid_ok p r n :
  n_state p = humanIDNormStateValid -> good (n_buf p) n -> prev_runes p n ->
  step_ok p r (nextValid p r).
Proof.
  intros Hst Hg Hpr. destruct (decide (r = hyphen_rune)) as [->|Hr].
  { by eapply nextValid_hyphen_ok. }
  unfold nextValid. rewrite (proj2 (Z.eqb_neq _ _) Hr).
  destruct (IsValidHostOuterRune r) eqn:Ev; simpl.
  - apply outer_rune_ok in Ev. by eapply write_outer_ok.
  - apply not_outer_ok in Ev. destruct (truncateHyphens_ok _ _ Hg Hpr) as (p' & -> & Hg' & Hp & Hb).
    exists (set_state p' humanIDNormStateInvalid). simpl. split; [done|].
    rewrite filter_cons_False, app_nil_r by done. split; [|done]. right; right. done.
Qed.

Lemma nextInitial_ok p r :
  n_state p = humanIDNormStateInitial -> n_buf p = [] -> step_ok p r (Ret (nextInitial p r)).
Proof.
  intros Hst Hb. unfold nextInitial. destruct (IsValidHostOuterRune r) eqn:Ev; simpl.
  - apply outer_rune_ok in Ev. eexists. split; [done|]. split.
    + right; left. split; [done|]. exists 0%nat. simpl. rewrite Hb, EncodeRune_outer by done. simpl.
      split; [constructor; by apply outer_byte_of|by apply outer_rune_not_hyphen].
    + simpl. rewrite outer_bytes_app, outer_bytes_rune by done. by rewrite filter_cons_True.
  - apply not_outer_ok in Ev. exists p. rewrite filter_cons_False, app_nil_r by done.
    split; [done|]. split; [by left|done].
Qed.

Lemma nextInvalid_ok p r :
  n_state p = humanIDNormStateInvalid -> good (n_buf p) 0 -> n_prevRune p <> hyphen_rune ->
  step_ok p r (Ret (nextInvalid p r)).
Proof.
  intros Hst Hg Hp. unfold nextInvalid. destruct (IsValidHostOuterRune r) eqn:Ev; simpl.
  - apply outer_rune_ok in Ev. rewrite (proj2 (Z.eqb_neq _ _) Hp). simpl.
    destruct (write_outer_ok (write (set_state p humanIDNormStateValid) hyphen_rune) r 1)
      as (p' & [= <-] & Hi & Hb); [done|simpl; constructor; [done|lia]|done|].
    eexists. split; [done|]. split; [done|]. rewrite Hb. f_equal. apply outer_bytes_snoc_hyphen.
  - apply not_outer_ok in Ev. exists p. rewrite filter_cons_False, app_nil_r by done.
    split; [done|]. split; [by right; right|done].
Qed.

Lemma next_ok p r : norm_inv p -> step_ok p r (next p r).
Proof.
  unfold next. intros [[Hst Hb]|[[Hst (n & Hg & Hpr)]|[Hst [Hg Hp]]]]; rewrite Hst; simpl.
  - by apply nextInitial_ok.
  - by eapply nextValid_ok.
  - by apply nextInvalid_ok.
Qed.

Lemma next_all_ok rs p :
  norm_inv p ->
  exists p', next_all p rs = Ret p' /\ norm_inv p' /\
    outer_bytes (n_buf p') = outer_bytes (n_buf p) ++ filter outer_rune rs.
Proof.
  revert p. induction rs as [|r rs IH]; intros p Hp; simpl.
  - exists p. by rewrite app_nil_r.
  - destruct (next_ok p r Hp) as (p1 & -> & Hp1 & Hb1). simpl.
    destruct (IH p1 Hp1) as (p2 & -> & Hp2 & Hb2). exists p2. split; [done|]. split; [done|].
    rewrite Hb2, Hb1, <- app_assoc, <- filter_app. done.
Qed.

Lemma norm_inv_new : norm_inv new_normalizer.
Proof. by left. Qed.

(** A buffer with a letter or a digit in it is a normalized one. *)
Lemma norm_inv_good p : norm_inv p -> outer_bytes (n_buf p) <> [] -> exists n, good (n_buf p) n.
Proof.
  intros [[_ Hb]|[[_ (n & Hg & _)]|[_ [Hg _]]]] Hne; [|by eauto..]. by rewrite Hb in Hne.
Qed.

Lemma norm_inv_empty p : norm_inv p -> outer_bytes (n_buf p) = [] -> n_buf p = [].
Proof.
  intros [[_ Hb]|[[_ (n & Hg & _)]|[_ [Hg _]]]] He; [done|..]; exfalso;
    (destruct (n_buf p) as [|c b] eqn:Eb; [by eapply good_nonempty in Hg|]);
    apply (good_head _ _ c) in Hg; [|done| |done];
    unfold outer_bytes in He; simpl in He; by rewrite filter_cons_True in He.
Qed.

End normalizer.

(** ** Correctness of parsing *)

Section parsing.
Context `{Netutil} `{!NetutilSpec}.

Lemma newHumanID_Ok s id : newHumanID s = Ok id -> id = s.
Proof. unfold newHumanID. by repeat case_match; intros; simplify_eq. Qed.

Lemma newHumanID_ok_iff s :
  newHumanID s = Ok s <-> valid_label (bytes s) /\ Contains s "---" = false.
Proof.
  unfold newHumanID, Contains, MinHumanIDLen, MaxHumanIDLen. rewrite <- label_ok, max_label_len.
  destruct (Inclusion (len s) 1 63 UnitByte) eqn:Ei.
  - split; [done|]. intros [Hl _]. apply label_ok in Hl as (Hne & Hlen & _).
    enough (Inclusion (len s) 1 63 UnitByte = None) by congruence.
    apply Inclusion_None. unfold len. rewrite <- length_bytes. destruct (bytes s); [done|].
    simpl in *. lia.
  - destruct (ValidateHostnameLabel s); [split; [done|by intros [? _]]|].
    destruct (Index s "---"); split; try done. by intros [_ ?].
Qed.

Lemma good_newHumanID b :
  good b 0 -> (length b <= 63)%nat -> newHumanID (of_bytes b) = Ok (of_bytes b).
Proof.
  intros Hg Hlen. apply newHumanID_ok_iff. rewrite bytes_of_bytes. split.
  - split; [by eapply good_nonempty|]. split; [done|]. split; [by eapply good_Forall|].
    split; intros c Hc; [by eapply good_head|by eapply good_0_last].
  - destruct (Contains _ _) eqn:E; [|done]. exfalso.
    apply Contains_spec in E as (p & t & E). apply (f_equal bytes) in E.
    rewrite bytes_of_bytes, !bytes_append in E. rewrite E in Hg. by eapply good_no_triple.
Qed.

(** The result of the normalization of a buffer. *)
Lemma norm_result_good p n :
  good (n_buf p) n ->
  exists b k, norm_result p = of_bytes b /\ good b 0 /\ (length b <= 63)%nat /\
    take 63 (n_buf p) = b ++ replicate k hyphen.
Proof.
  intros Hg. unfold norm_result, MaxHumanIDLen. rewrite max_label_len.
  replace (take (Z.to_nat _) (n_buf p)) with (take 63 (n_buf p)).
  - destruct (good_take _ _ 63 Hg) as [m Hm]; [lia|].
    destruct (TrimRightByte_prefix (take 63 (n_buf p)) hyphen) as [k Hk].
    exists (TrimRightByte (take 63 (n_buf p)) hyphen), k.
    split; [done|]. split; [by eapply good_trim|]. split; [|done].
    apply (f_equal length) in Hk. rewrite length_app, length_take in Hk. lia.
  - destruct (decide (length (n_buf p) <= 63)%nat).
    + rewrite Z.min_l, Nat2Z.id by lia. rewrite !take_ge; [done|lia..].
    + rewrite Z.min_r by lia. done.
Qed.

Lemma good_not_degenerate b :
  good b 0 -> bool_decide (of_bytes b = EmptyString) || bool_decide (of_bytes b = "-"%string) = false.
Proof.
  intros Hg. apply orb_false_iff. split; apply bool_decide_eq_false_2; intros E;
    apply (f_equal bytes) in E; rewrite bytes_of_bytes in E; simpl in E; subst b.
  - by apply good_nonempty in Hg.
  - by apply (good_snoc_hyphen []) in Hg as (? & ? & _).
Qed.

Lemma has_outer_filter (rs : list Z) : (exists r, r ∈ rs /\ outer_rune r) <-> filter outer_rune rs <> [].
Proof.
  split.
  - intros (r & Hr & Ho) E. assert (r ∈ filter outer_rune rs) as Hin by (by apply list_elem_of_filter).
    rewrite E in Hin. by apply elem_of_nil in Hin.
  - intros Hne. destruct (filter outer_rune rs) as [|r l] eqn:E; [done|].
    exists r. assert (r ∈ filter outer_rune rs) as Hin by (rewrite E; constructor).
    apply list_elem_of_filter in Hin. tauto.
Qed.

Lemma good_outer_bytes b : good b 0 -> outer_bytes b <> [].
Proof.
  intros Hg. destruct b as [|c b]; [by apply good_nonempty in Hg|].
  apply (good_head _ _ c) in Hg; [|done]. unfold outer_bytes. simpl.
  by rewrite filter_cons_True.
Qed.

Lemma valid_label_runes s :
  valid_label (bytes s) -> runes s = map bval (bytes s) /\ 1 <= len s <= 63 /\
  exists r, r ∈ runes s /\ outer_rune r.
Proof.
  intros (Hne & Hlen & Hall & Hhd & _).
  assert (runes s = map bval (bytes s)) as Hr.
  { apply runes_ascii, is_ascii_Forall. eapply Forall_impl; [done|].
    intros c [Hc| ->]; [by apply outer_ascii|done]. }
  split; [done|]. rewrite Hr. unfold len. rewrite <- length_bytes.
  destruct (bytes s) as [|c b]; [done|]. simpl in *. split; [lia|].
  exists (bval c). split; [constructor|by apply Hhd].
Qed.

(** What [ParseNormalized] returns in terms of the letters and digits of its
    argument. *)
Lemma ParseNormalized_cases s :
  (newHumanID s = Ok s /\ ParseNormalized s = Ret (Ok s)) \/
  (exists err, ParseNormalized s = Ret (Err err) /\
     ~ (1 <= len s <= 253 /\ exists r, r ∈ runes s /\ outer_rune r)) \/
  (exists b k n, ParseNormalized s = Ret (Ok (of_bytes b)) /\ good b 0 /\ (length b <= 63)%nat /\
     1 <= len s <= 253 /\ take 63 (n_buf n) = b ++ replicate k hyphen /\
     outer_bytes (n_buf n) = filter outer_rune (runes s) /\ filter outer_rune (runes s) <> []).
Proof.
  unfold ParseNormalized. destruct (newHumanID s) as [id|e] eqn:En.
  { left. apply newHumanID_Ok in En as ->. done. }
  right. unfold MinHumanIDLen. rewrite max_name_len.
  destruct (Inclusion (len s) 1 253 UnitByte) as [err|] eqn:Ei.
  { left. eexists. split; [done|]. intros [Hl _]. apply (Inclusion_None _ _ _ UnitByte) in Hl. congruence. }
  apply Inclusion_None in Ei.
  destruct (next_all_ok (runes s) new_normalizer norm_inv_new) as (n & -> & Hinv & Hb).
  simpl in Hb. change (outer_bytes []) with (@nil Z) in Hb. simpl.
  destruct (decide (filter outer_rune (runes s) = [])) as [He|Hne].
  - left. assert (n_buf n = []) as Hbuf by (apply norm_inv_empty; [done|by rewrite Hb, He]).
    replace (norm_result n) with EmptyString
      by (unfold norm_result; rewrite Hbuf, take_nil; reflexivity).
    eexists. split; [done|]. rewrite has_outer_filter. tauto.
  - right. destruct (norm_inv_good n Hinv) as [m Hg]; [by rewrite Hb|].
    destruct (norm_result_good n m Hg) as (b & k & -> & Hgb & Hlen & Htake).
    rewrite good_not_degenerate by done. rewrite good_newHumanID by done.
    exists b, k, n. done.
Qed.

(** [ParseNormalized] never panics, and it succeeds exactly on the inputs of
    1 to 253 bytes that contain at least one letter or digit: the normalization
    always produces an identifier that passes the final validation. *)
Theorem ParseNormalized_succeeds_iff s :
  (exists r, ParseNormalized s = Ret r) /\
  ((exists id, ParseNormalized s = Ret (Ok id)) <->
   (1 <= len s <= 253 /\ exists r, r ∈ runes s /\ outer_rune r)).
Proof.
  destruct (ParseNormalized_cases s) as [[Hn ->]|[(err & -> & Hno)|(b & k & n & -> & Hg & Hl & Hlen & _ & _ & Hne)]].
  - split; [eauto|]. split; [intros _|by eauto].
    apply newHumanID_ok_iff in Hn as [Hv _]. apply valid_label_runes in Hv as (_ & ? & ?).
    split; [lia|done].
  - split; [eauto|]. split; [by intros [id ?]|by intros Hyes].
  - split; [eauto|]. split; [intros _|by eauto]. split; [done|]. by apply has_outer_filter.
Qed.

(** An identifier accepted by [ParseNormalized] is a valid HumanID, parsing
    it again returns it unchanged, and its letters and digits are a prefix of
    the letters and digits of the input: nothing is invented or reordered. *)
Theorem ParseNormalized_sound s id :
  ParseNormalized s = Ret (Ok id) ->
  newHumanID id = Ok id /\
  ParseNormalized id = Ret (Ok id) /\
  outer_bytes (bytes id) `prefix_of` filter outer_rune (runes s).
Proof.
  intros Hp.
  assert (newHumanID id = Ok id /\ outer_bytes (bytes id) `prefix_of` filter outer_rune (runes s))
    as [Hid Hpre].
  { destruct (ParseNormalized_cases s)
      as [[Hn Hs]|[(err & Hs & _)|(b & k & n & Hs & Hg & Hl & _ & Htake & Hb & _)]];
      rewrite Hs in Hp; simplify_eq.
    - split; [done|]. apply newHumanID_ok_iff in Hn as [Hv _].
      apply valid_label_runes in Hv as [-> _]. done.
    - split; [by apply good_newHumanID|]. rewrite bytes_of_bytes, <- Hb.
      rewrite <- (take_drop 63 (n_buf n)), Htake, outer_bytes_app, outer_bytes_app, <- app_assoc.
      by apply prefix_app_r. }
  split; [done|]. split; [|done]. unfold ParseNormalized. by rewrite Hid.
Qed.

End parsing.

(** ** Lowercase identifiers *)

Section lower.
Context `{Netutil} `{!NetutilSpec} `{UnicodeCase}.

Lemma lower_byte_outer c : outer c -> outer (lower_byte c).
Proof.
  unfold lower_byte. destruct (is_upper c) eqn:E; [|done]. intros _.
  unfold is_upper in E. bool_simp. unfold outer. rewrite bval_byte_of by lia. left. lia.
Qed.

Lemma lower_byte_hyphen : lower_byte hyphen = hyphen.
Proof. reflexivity. Qed.

Lemma lower_byte_eq_hyphen c : outer c \/ c = hyphen -> lower_byte c = hyphen -> c = hyphen.
Proof.
  intros [Ho| ->]; [|done]. intros E. apply lower_byte_outer in Ho.
  rewrite E in Ho. by apply hyphen_not_outer in Ho.
Qed.

Lemma head_map {A B} (f : A -> B) l : head (map f l) = f <$> head l.
Proof. by destruct l. Qed.

Lemma last_map {A B} (f : A -> B) l : last (map f l) = f <$> last l.
Proof. apply (fmap_last f l). Qed.

Lemma valid_label_lower b : valid_label b -> valid_label (map lower_byte b).
Proof.
  intros (Hne & Hlen & Hall & Hhd & Hlast). split; [by destruct b|].
  split; [by rewrite length_map|]. split.
  - apply Forall_map. eapply Forall_impl; [done|]. intros c [Hc| ->].
    + left. by apply lower_byte_outer.
    + right. apply lower_byte_hyphen.
  - rewrite head_map, last_map. split; intros c Hc; apply fmap_Some in Hc as (d & Hd & ->);
      apply lower_byte_outer; auto.
Qed.

(** A run of hyphens in the lowercase string is one in the original. *)
Lemma lower_hyphens b l r k :
  Forall (fun c => outer c \/ c = hyphen) b ->
  map lower_byte b = l ++ replicate k hyphen ++ r ->
  exists l' r', b = l' ++ replicate k hyphen ++ r'.
Proof.
  intros Hall E. exists (take (length l) b), (drop (length l + k) b).
  rewrite <- (take_drop (length l) b) at 1. f_equal.
  rewrite <- (take_drop k (drop (length l) b)) at 1. rewrite drop_drop. f_equal.
  apply list_eq. intros i. destruct (decide (i < k)%nat) as [Hi|Hi].
  - rewrite lookup_take_lt, lookup_drop, lookup_replicate_2 by done.
    assert (map lower_byte b !! (length l + i)%nat = Some hyphen) as Hm.
    { rewrite E, lookup_app_r by lia. replace (length l + i - length l)%nat with i by lia.
      rewrite lookup_app_l by (by rewrite length_replicate). by rewrite lookup_replicate_2. }
    change (map lower_byte b) with (lower_byte <$> b) in Hm.
    rewrite list_lookup_fmap in Hm. apply fmap_Some in Hm as (c & Hc & Hl).
    rewrite Hc. f_equal. apply lower_byte_eq_hyphen; [|done].
    exact (proj1 (Forall_lookup _ _) Hall _ _ Hc).
  - rewrite lookup_take_ge by lia. symmetry. apply lookup_replicate_None. lia.
Qed.

(** The lowercase version of a valid HumanID is a valid lowercase HumanID:
    [NewHumanIDLower] accepts what [HumanIDToLower] produces. *)
Theorem HumanIDToLower_valid id :
  newHumanID id = Ok id ->
  NewHumanIDLower (HumanIDToLower id) = Ok (HumanIDToLower id).
Proof.
  intros Hid. apply newHumanID_ok_iff in Hid as [Hv Hc].
  assert (is_ascii id = true) as Ha.
  { apply is_ascii_Forall. destruct Hv as (_ & _ & Hall & _). eapply Forall_impl; [done|].
    intros c [Ho| ->]; [by apply outer_ascii|done]. }
  unfold NewHumanIDLower, HumanIDToLower, ToLower. rewrite Ha.
  assert (valid_label (bytes (ascii_lower id))) as Hv'.
  { unfold ascii_lower. rewrite bytes_str_map. by apply valid_label_lower. }
  assert (newHumanID (ascii_lower id) = Ok (ascii_lower id)) as ->.
  { apply newHumanID_ok_iff. split; [done|].
    destruct (Contains (ascii_lower id) "---") eqn:E; [|done]. exfalso.
    apply Contains_spec in E as (p & t & E). apply (f_equal bytes) in E.
    unfold ascii_lower in E. rewrite bytes_str_map, !bytes_append in E.
    destruct (lower_hyphens (bytes id) (bytes p) (bytes t) 3) as (l' & r' & E').
    { apply Hv. }
    { done. }
    enough (Contains id "---" = true) by congruence.
    apply Contains_spec. exists (of_bytes l'), (of_bytes r').
    rewrite <- (of_bytes_bytes id), E'. rewrite <- (of_bytes_bytes (_ +:+ _)).
    f_equal. rewrite !bytes_append, !bytes_of_bytes. done. }
  destruct (first_such _ _) as [[i r]|] eqn:E; [|done]. exfalso.
  apply first_such_Some in E as [Hin Hup].
  apply (list_elem_of_fmap_2 snd) in Hin. simpl in Hin.
  change ((range_string (ascii_lower id)).*2) with (runes (ascii_lower id)) in Hin.
  apply valid_label_runes in Hv' as [Hr _]. rewrite Hr in Hin. unfold ascii_lower in Hin.
  rewrite bytes_str_map in Hin. apply list_elem_of_In, in_map_iff in Hin as (c & <- & Hin).
  apply in_map_iff in Hin as (d & <- & _).
  pose proof (lower_byte_not_upper d) as Hl. unfold is_upper in Hl. unfold is_upper_rune in Hup.
  congruence.
Qed.

End lower.

(** ** A concrete netutil *)

Definition outer_runeb (r : Z) : bool := bool_decide (outer_rune r).

Definition valid_labelb (b : list ascii) : bool :=
  bool_decide (b <> [] /\ (length b <= 63)%nat /\ Forall (fun c => outer c \/ c = hyphen) b)
  && match head b with Some c => bool_decide (outer c) | None => true end
  && match last b with Some c => bool_decide (outer c) | None => true end.

Lemma valid_labelb_spec b : valid_labelb b = true <-> valid_label b.
Proof.
  unfold valid_labelb, valid_label. rewrite !andb_true_iff, bool_decide_eq_true.
  destruct (head b), (last b); rewrite ?bool_decide_eq_true; naive_solver.
Qed.

Definition ref_netutil : Netutil := {|
  MaxDomainLabelLen := 63;
  MaxDomainNameLen := 253;
  ValidateHostnameLabel s :=
    if valid_labelb (bytes s) then None
    else Some (ErrWrap "bad hostname label %q: %s" (ErrConst "bad hostname label rune %q"));
  IsValidHostOuterRune := outer_runeb;
|}.

Lemma ref_netutil_spec : @NetutilSpec ref_netutil.
Proof.
  split; [done..| | |].
  - intros r. apply bool_decide_eq_true.
  - intros s. simpl. rewrite <- valid_labelb_spec. by destruct (valid_labelb _).
  - intros s err. simpl. destruct (valid_labelb _); [done|]. by intros [= <-].
Qed.

Definition ref_unicode : UnicodeCase := {|
  unicode_lower := ascii_lower;
  unicode_equal_fold s t := bool_decide (ascii_lower s = ascii_lower t);
|}.

Example ParseNormalized_example :
  @ParseNormalized ref_netutil "My--Device!!!_phone---2-"%string = Ret (Ok "My--Device-phone-2"%string).
Proof. reflexivity. Qed.

Lemma ParseNormalized_succeeds_iff_witness :
  exists id, @ParseNormalized ref_netutil "!!a---b"%string = Ret (Ok id).
Proof.
  apply (@ParseNormalized_succeeds_iff ref_netutil ref_netutil_spec "!!a---b"%string).
  split; [vm_compute; split; congruence|].
  exists 97. split; [apply list_elem_of_In; vm_compute; tauto|vm_compute; intuition congruence].
Defined.

Lemma ParseNormalized_sound_witness :
  @newHumanID ref_netutil "a-b"%string = Ok "a-b"%string /\
  @ParseNormalized ref_netutil "a-b"%string = Ret (Ok "a-b"%string) /\
  outer_bytes (bytes "a-b"%string) `prefix_of` filter outer_rune (runes "!!a---b"%string).
Proof.
  apply (@ParseNormalized_sound ref_netutil ref_netutil_spec "!!a---b"%string "a-b"%string).
  reflexivity.
Defined.

Lemma HumanIDToLower_valid_witness :
  @NewHumanIDLower ref_netutil (@HumanIDToLower ref_unicode "My-PC"%string)
  = Ok (@HumanIDToLower ref_unicode "My-PC"%string).
Proof.
  apply (@HumanIDToLower_valid ref_netutil ref_netutil_spec ref_unicode "My-PC"%string).
  reflexivity.
Defined.
