(* ===== verification/AgdProtobuf.v ===== *)
(** Values in messages: the binary forms of IP addresses and networks
    (internal/agdprotobuf/pbutil.go, net/netip), account identifiers
    (internal/agd/account.go), names of certificates (internal/agd/tls.go), and the well-known types of protobuf.

    Slices that are converted between two string types by [UnsafelyConvert...]
    are the same lists here. *)

From S2P Require Import Prelude GoStd Utf8 NetIP.

Open Scope Z_scope.

(** ** Package net/netip *)

Definition MarshalBinary (ip : Addr) : string :=
  match ip with
  | AddrZero => EmptyString
  | Addr4 n => be_bytes 4 n
  | Addr6 n zone => be_bytes 16 n +:+ zone
  end.

Definition UnmarshalBinary (b : string) : result error Addr :=
  let n := len b in
  if n =? 0 then Ok AddrZero
  else if n =? 4 then Ok (Addr4 (be_value b))
  else if n =? 16 then Ok (Addr6 (be_value b) EmptyString)
  else if 16 <? n then Ok (Addr6 (be_value (str_take 16 b)) (str_drop 16 b))
  else Err (ErrConst "unexpected slice size").

Definition AddrFromSlice (b : string) : option Addr :=
  if len b =? 4 then Some (Addr4 (be_value b))
  else if len b =? 16 then Some (Addr6 (be_value b) EmptyString)
  else None.

Definition AsSlice (ip : Addr) : string :=
  match ip with
  | AddrZero => EmptyString
  | Addr4 n => be_bytes 4 n
  | Addr6 n _ => be_bytes 16 n
  end.

(** ** agdprotobuf.go *)

Definition IPToBytes (ip : Addr) : string := MarshalBinary ip.

Definition IPsToByteSlices (ips : list Addr) : list string := IPToBytes <$> ips.

Fixpoint ByteSlicesToIPs (data : list string) : result error (list Addr) :=
  match data with
  | [] => Ok []
  | b :: data =>
      let? ip := annotate "ip at index %d: %w" (UnmarshalBinary b) in
      let? ips := ByteSlicesToIPs data in
      Ok (ip :: ips)
  end.

(** ** account.go *)

Definition AccountIDEmpty : Z := 0.

Definition NewAccountID (i : Z) : result error Z :=
  if i <=? 0 then Err (ErrWrap "i: %w" (ErrConst "not positive")) else Ok i.

Definition NewAccountIDFromString (s : string) : result error Z :=
  let? id64 := annotate "bad account id: %w" (ParseInt s 32) in
  if id64 <=? 0 then Err (ErrWrap "account id: %w" (ErrConst "not positive")) else Ok id64.

(** ** tls.go *)

Definition maxCertificateNameLen : Z := 64.

Definition isValidCertNameRune (r : Z) : bool :=
  ((97 <=? r) && (r <=? 122)) || ((65 <=? r) && (r <=? 90)) || ((48 <=? r) && (r <=? 57)) ||
  (r =? 95) || (r =? 45).

Definition NewCertificateName (str : string) : result error string :=
  if bool_decide (str = EmptyString) then Err (ErrConst "empty value")
  else if negb ((1 <=? len str) && (len str <=? maxCertificateNameLen)) then
    Err (ErrWrap "length: %w" (ErrConst "out of range"))
  else if negb (forallb isValidCertNameRune (runes str)) then Err (ErrConst "at index %d: bad symbol: %q")
  else Ok str.

(** ** The well-known types

    [timestamppb] and [durationpb]; the methods accept nil. *)
Class WellKnownTypes := {
  Timestamp : Type;
  Duration : Type;
  timestamppb_New : Z -> Timestamp;
  AsTime : option Timestamp -> Z;
  durationpb_New : Z -> Duration;
  AsDuration : option Duration -> Z;
}.

Class WellKnownTypesSpec `{WellKnownTypes} : Prop := {
  as_time_new t : AsTime (Some (timestamppb_New t)) = t;
  as_duration_new d : minDuration <= d <= maxDuration -> AsDuration (Some (durationpb_New d)) = d;
  as_duration_range d : minDuration <= AsDuration d <= maxDuration;
}.

(** ** Facts *)

(** A network that [PrefixFrom] makes of a valid address; a number of bits that is
    not valid for the address gives -1. *)
Definition prefix_ok (p : Prefix) : Prop :=
  addr_ok (p_ip p) /\ IsValid (p_ip p) = true /\ hasZone (p_ip p) = false /\ -1 <= p_bits p <= BitLen (p_ip p).

Lemma be_bytes_len n x : len (be_bytes n x) = Z.of_nat n.
Proof. unfold len. by rewrite be_bytes_length. Qed.

Lemma len_append s t : len (s +:+ t) = len s + len t.
Proof. unfold len. rewrite length_append. lia. Qed.

Lemma len_zero s : len s = 0 -> s = EmptyString.
Proof. by destruct s. Qed.

Lemma UnmarshalBinary_IPToBytes ip : addr_ok ip -> UnmarshalBinary (IPToBytes ip) = Ok ip.
Proof.
  unfold UnmarshalBinary, IPToBytes. destruct ip as [|n|n zone]; intros Hok; cbn [MarshalBinary addr_ok] in *.
  - done.
  - rewrite be_bytes_len. by rewrite be_value_bytes.
  - rewrite len_append, be_bytes_len. pose proof (len_nonneg zone). change (Z.of_nat 16) with 16.
    destruct (16 + len zone =? 0) eqn:E0; [lia|]. destruct (16 + len zone =? 4) eqn:E1; [lia|].
    destruct (16 + len zone =? 16) eqn:E2.
    + assert (zone = EmptyString) as -> by (apply len_zero; lia). by rewrite append_nil_r, be_value_bytes.
    + destruct (16 <? 16 + len zone) eqn:E3; [|lia].
      rewrite <- (be_bytes_length 16 n) at 1 3. rewrite str_take_append, str_drop_append.
      by rewrite be_value_bytes.
Qed.

Lemma ByteSlicesToIPs_roundtrip ips : Forall addr_ok ips -> ByteSlicesToIPs (IPsToByteSlices ips) = Ok ips.
Proof.
  induction 1 as [|ip ips Hok _ IH]; [done|]. cbn [IPsToByteSlices fmap list_fmap ByteSlicesToIPs].
  rewrite UnmarshalBinary_IPToBytes by done. cbn [annotate result_bind].
  change (IPToBytes <$> ips) with (IPsToByteSlices ips). by rewrite IH.
Qed.

Lemma AddrFromSlice_AsSlice ip :
  addr_ok ip -> IsValid ip = true -> hasZone ip = false -> AddrFromSlice (AsSlice ip) = Some ip.
Proof.
  unfold AddrFromSlice. destruct ip as [|n|n zone]; intros Hok Hv Hz; cbn [AsSlice addr_ok hasZone] in *; [done| |].
  - by rewrite be_bytes_len, be_value_bytes.
  - apply negb_false_iff, bool_decide_eq_true in Hz as ->. by rewrite be_bytes_len, be_value_bytes.
Qed.

(** Addresses that come from bytes are in range. *)
Lemma be_value_range s : 0 <= be_value s < 256 ^ len s.
Proof.
  unfold be_value, len. rewrite <- length_bytes. induction (bytes s) as [|c l IH] using rev_ind; [done|].
  rewrite foldl_app, length_app. cbn [foldl length]. pose proof (bval_range c).
  rewrite Nat2Z.inj_add, Z.pow_add_r by lia. lia.
Qed.

Lemma UnmarshalBinary_ok b ip : UnmarshalBinary b = Ok ip -> addr_ok ip.
Proof.
  unfold UnmarshalBinary. intros E. destruct (len b =? 0); [by injection E as <-|].
  destruct (len b =? 4) eqn:E4.
  { injection E as <-. simpl. pose proof (be_value_range b) as R. apply Z.eqb_eq in E4. rewrite E4 in R. done. }
  destruct (len b =? 16) eqn:E16.
  { injection E as <-. simpl. pose proof (be_value_range b) as R. apply Z.eqb_eq in E16. rewrite E16 in R. done. }
  destruct (16 <? len b) eqn:El; [|done]. injection E as <-. simpl.
  pose proof (be_value_range (str_take 16 b)) as R.
  assert (len (str_take 16 b) = 16) as El'; [|rewrite El' in R; done].
  pose proof (str_take_drop 16 b) as Eb. pose proof (length_str_drop 16 b) as Hd.
  apply (f_equal String.length) in Eb. rewrite length_append in Eb. unfold len in *. lia.
Qed.

Lemma ByteSlicesToIPs_ok data ips : ByteSlicesToIPs data = Ok ips -> Forall addr_ok ips.
Proof.
  revert ips. induction data as [|b data IH]; intros ips E; [by injection E as <-|]. cbn in E.
  destruct (UnmarshalBinary b) as [ip|e] eqn:Eb; [|done]. cbn in E.
  destruct (ByteSlicesToIPs data) as [ips'|e] eqn:Ed; [|done]. injection E as <-.
  constructor; [by eapply UnmarshalBinary_ok|by apply IH].
Qed.

Lemma AddrFromSlice_ok b ip :
  AddrFromSlice b = Some ip -> addr_ok ip /\ IsValid ip = true /\ hasZone ip = false.
Proof.
  unfold AddrFromSlice. pose proof (be_value_range b) as R.
  destruct (len b =? 4) eqn:E4; [|destruct (len b =? 16) eqn:E16; [|done]]; intros [= <-].
  - apply Z.eqb_eq in E4. rewrite E4 in R. done.
  - apply Z.eqb_eq in E16. rewrite E16 in R. done.
Qed.

Lemma PrefixFrom_ok ip bits : addr_ok ip -> IsValid ip = true -> hasZone ip = false -> prefix_ok (PrefixFrom ip bits).
Proof.
  intros Ha Hv Hz. unfold prefix_ok, PrefixFrom. cbn [p_ip p_bits]. rewrite Hv.
  assert (withoutZone ip = ip) as ->
    by (destruct ip as [| |n zone]; [done..|apply negb_false_iff, bool_decide_eq_true in Hz as ->; done]).
  split_and!; [done..| |].
  - destruct (0 <=? bits) eqn:E1, (bits <=? BitLen ip) eqn:E2; simpl; lia.
  - destruct (0 <=? bits) eqn:E1, (bits <=? BitLen ip) eqn:E2; simpl; destruct ip; simpl in *; lia.
Qed.
