(* ===== verification/Levenshtein.v ===== *)
(** The Damerau-Levenshtein calculator: internal/agdalg/levenshtein.go.

    [Distance] runs the row-by-row algorithm on rows taken from a pool, whose
    contents are whatever a previous call left in them.  The specification is
    the minimal cost of an alignment ([align]): a left-to-right reading of both
    strings by deletions, insertions, substitutions and transpositions of
    adjacent bytes. *)

From S2P Require Import Prelude GoStd Utf8.

Open Scope Z_scope.

(** ** The code *)

(** A slice of the pool: its backing array and its length. *)
Record uints := { u_arr : list Z; u_len : nat }.

Definition u_cap (s : uints) : nat := length (u_arr s).

(** [slices.Grow]: the length and the elements are kept and there is room for
    [n] more elements, zero if newly allocated. *)
Definition Grow (s : uints) (n : nat) : uints :=
  if (u_len s + n <=? u_cap s)%nat then s
  else {| u_arr := take (u_len s) (u_arr s) ++ replicate n 0; u_len := u_len s |}.

(** The row is the slice at the pointer, cut at [l]. *)
Definition newRow (ptr : uints) (l : nat) : outcome (list Z) :=
  let ptr := if (u_cap ptr <? l)%nat then Grow ptr (l - u_len ptr) else ptr in
  if (l <=? u_cap ptr)%nat then Ret (take l (u_arr ptr)) else Panic "slice bounds out of range".

Definition hasTransposition (a b : list ascii) (i j : nat) : outcome bool :=
  if (0 <? i)%nat && (0 <? j)%nat then
    let! ai := index a i in
    let! bj1 := index b (j - 1) in
    if decide (ai = bj1) then
      let! ai1 := index a (i - 1) in
      let! bj := index b j in
      Ret (bool_decide (ai1 = bj))
    else Ret false
  else Ret false.

Definition handleQuick (a b : string) : option Z :=
  if decide (a = b) then Some 0
  else if decide (a = EmptyString) then Some (len b)
  else if decide (b = EmptyString) then Some (len a)
  else if Contains a b then Some (len a - len b)
  else if Contains b a then Some (len b - len a)
  else None.

Definition BoolToNumber (b : bool) : Z := if b then 1 else 0.

(** The body of the inner loop: fills [curr[j+1]]. *)
Definition inner_body (a b : list ascii) (prevPrev prev : list Z) (i : nat)
    (curr : list Z) (j : nat) : outcome (list Z) :=
  let! del := index prev (j + 1) in
  let costDel := u64 (del + 1) in
  let! ins := index curr j in
  let costIns := u64 (ins + 1) in
  let! ai := index a i in
  let! bj := index b j in
  let sub := BoolToNumber (negb (bool_decide (ai = bj))) in
  let! pj := index prev j in
  let costSub := u64 (pj + sub) in
  let! trans := hasTransposition a b i j in
  let! costTrans :=
    (if trans then
       let! pp := index prevPrev (j - 1) in Ret (u64 (pp + sub))
     else Ret costSub) in
  set_index curr (j + 1) (Z.min (Z.min (Z.min costDel costIns) costSub) costTrans).

(** The body of the outer loop on the rows [(prevPrev, prev, curr)], with the
    swap at its end. *)
Definition outer_body (a b : string) (rows : list Z * list Z * list Z) (i : nat)
    : outcome (list Z * list Z * list Z) :=
  let '(prevPrev, prev, curr) := rows in
  let! curr := set_index curr 0 (u64 (Z.of_nat i + 1)) in
  let! curr := for_each (inner_body (bytes a) (bytes b) prevPrev prev i) curr (range_string b).*1 in
  Ret (prev, curr, prevPrev).

Definition init_row (n : nat) : list Z := map Z.of_nat (seq 0 n).

(** [ptr1], [ptr2] and [ptr3] are what the pool returns. *)
Definition Distance (ptr1 ptr2 ptr3 : uints) (a b : string) : outcome Z :=
  match handleQuick a b with
  | Some dist => Ret dist
  | None =>
      let rowLen := (String.length b + 1)%nat in
      let! curr := newRow ptr1 rowLen in
      let! prev := newRow ptr2 rowLen in
      let! prevPrev := newRow ptr3 rowLen in
      let prev := init_row (length prev) in
      let! rows := for_each (outer_body a b) (prevPrev, prev, curr) (range_string a).*1 in
      index (rows.1.2) (String.length b)
  end.

(** ** The specification *)

Definition neq_cost (c d : ascii) : nat := if decide (c = d) then 0 else 1.

(** [align a b n]: [b] is reached from [a] at cost [n]. *)
Inductive align : list ascii -> list ascii -> nat -> Prop :=
  | align_nil : align [] [] 0
  | align_del c a b n : align a b n -> align (c :: a) b (S n)
  | align_ins d a b n : align a b n -> align a (d :: b) (S n)
  | align_sub c d a b n : align a b n -> align (c :: a) (d :: b) (n + neq_cost c d)
  | align_swap c d a b n : align a b n -> align (c :: d :: a) (d :: c :: b) (n + neq_cost c d).

Definition min_align (a b : list ascii) (n : nat) : Prop :=
  align a b n /\ forall m, align a b m -> (n <= m)%nat.

(** The recursive form of the specification, on reversed strings. *)
Fixpoint osa (a : list ascii) : list ascii -> nat :=
  fix osa_b (b : list ascii) : nat :=
    match a, b with
    | [], _ => length b
    | _, [] => length a
    | c :: a', d :: b' =>
        let m := (Nat.min (Nat.min (S (osa a' b)) (S (osa_b b'))) (osa a' b' + neq_cost c d))%nat in
        match a', b' with
        | c' :: a'', d' :: b'' =>
            if decide (c = d') then
              if decide (c' = d) then Nat.min m (osa a'' b'' + neq_cost c d)%nat else m
            else m
        | _, _ => m
        end
    end.

(** ** Alignments *)

Lemma align_app a b n a' b' n' :
  align a b n -> align a' b' n' -> align (a ++ a') (b ++ b') (n + n').
Proof.
  intros H H'. induction H as [|c a b n H IH|d a b n H IH|c d a b n H IH|c d a b n H IH]; simpl.
  - done.
  - by constructor.
  - by constructor.
  - replace (n + neq_cost c d + n')%nat with (n + n' + neq_cost c d)%nat by lia. by constructor.
  - replace (n + neq_cost c d + n')%nat with (n + n' + neq_cost c d)%nat by lia. by constructor.
Qed.

Lemma neq_cost_sym c d : neq_cost c d = neq_cost d c.
Proof. unfold neq_cost. by repeat case_decide. Qed.

Lemma neq_cost_refl c : neq_cost c c = 0%nat.
Proof. unfold neq_cost. by rewrite decide_True. Qed.

Lemma align_rev a b n : align a b n -> align (rev a) (rev b) n.
Proof.
  induction 1 as [|c a b n H IH|d a b n H IH|c d a b n H IH|c d a b n H IH]; simpl.
  - constructor.
  - rewrite <- (app_nil_r (rev b)), <- Nat.add_1_r. apply align_app; [done|repeat constructor].
  - rewrite <- (app_nil_r (rev a)), <- Nat.add_1_r. apply align_app; [done|repeat constructor].
  - apply align_app; [done|]. apply (align_sub c d [] [] 0). constructor.
  - rewrite <- !app_assoc. apply align_app; [done|]. rewrite neq_cost_sym.
    apply (align_swap d c [] [] 0). constructor.
Qed.

Lemma align_rev_iff a b n : align (rev a) (rev b) n <-> align a b n.
Proof.
  split; intros H; apply align_rev in H; [by rewrite !rev_involutive in H|done].
Qed.

Lemma align_sym a b n : align a b n -> align b a n.
Proof. induction 1; rewrite 1?neq_cost_sym; by constructor. Qed.

Lemma align_refl a : align a a 0.
Proof.
  induction a as [|c a IH]; [constructor|].
  rewrite <- (neq_cost_refl c). apply (align_sub c c _ _ 0). done.
Qed.

Lemma align_delete_all a : align a [] (length a).
Proof. induction a; simpl; by constructor. Qed.

(** A cost is at least the difference of the lengths. *)
Lemma align_length a b n : align a b n -> (length a <= length b + n)%nat.
Proof. induction 1; simpl; lia. Qed.

(** ** The recursive form computes the minimal cost *)

Lemma osa_nil_l b : osa [] b = length b.
Proof. by destruct b. Qed.

Lemma osa_nil_r a : osa a [] = length a.
Proof. by destruct a. Qed.

Lemma osa_cons c a d b :
  osa (c :: a) (d :: b) =
  let m := (Nat.min (Nat.min (S (osa a (d :: b))) (S (osa (c :: a) b))) (osa a b + neq_cost c d))%nat in
  match a, b with
  | c' :: a'', d' :: b'' =>
      if decide (c = d') then
        if decide (c' = d) then Nat.min m (osa a'' b'' + neq_cost c d)%nat else m
      else m
  | _, _ => m
  end.
Proof. reflexivity. Qed.

(** The minimum of the three basic operations is reached, and so is a
    transposition. *)
Lemma osa_align a b : align a b (osa a b).
Proof.
  remember (length a + length b)%nat as k eqn:Hk. revert a b Hk.
  induction k as [k IH] using lt_wf_ind. intros a b Hk.
  destruct a as [|c a].
  { rewrite osa_nil_l. apply align_sym, align_delete_all. }
  destruct b as [|d b].
  { rewrite osa_nil_r. apply align_delete_all. }
  rewrite osa_cons. cbv zeta.
  assert (forall x y, align (c :: a) (d :: b) x -> align (c :: a) (d :: b) y ->
    align (c :: a) (d :: b) (Nat.min x y)) as Hmin
    by (intros x y ? ?; destruct (Nat.min_spec x y) as [[_ ->]|[_ ->]]; done).
  assert (align (c :: a) (d :: b)
    (Nat.min (Nat.min (S (osa a (d :: b))) (S (osa (c :: a) b))) (osa a b + neq_cost c d))) as H3.
  { repeat apply Hmin; constructor; eapply IH; [|done| |done| |done]; simpl in *; lia. }
  destruct a as [|c' a], b as [|d' b]; try done.
  repeat case_decide; try done. subst. apply Hmin; [done|].
  apply align_swap. eapply IH; [|done]. simpl in *. lia.
Qed.

Lemma osa_min a b n : align a b n -> (osa a b <= n)%nat.
Proof.
  induction 1 as [|c a b n H IH|d a b n H IH|c d a b n H IH|c d a b n H IH].
  - done.
  - destruct b as [|d b]; [rewrite osa_nil_r in *; simpl; lia|].
    rewrite osa_cons. cbv zeta. repeat case_match; lia.
  - destruct a as [|c a]; [rewrite osa_nil_l in *; simpl; lia|].
    rewrite osa_cons. cbv zeta. repeat case_match; lia.
  - rewrite osa_cons. cbv zeta. repeat case_match; lia.
  - rewrite osa_cons. cbv zeta. rewrite !decide_True by done. lia.
Qed.

Lemma osa_spec a b n : min_align a b n <-> n = osa a b.
Proof.
  split.
  - intros [Ha Hm]. specialize (Hm _ (osa_align a b)). apply osa_min in Ha. lia.
  - intros ->. split; [apply osa_align|apply osa_min].
Qed.

Lemma osa_rev a b : osa (rev a) (rev b) = osa a b.
Proof.
  apply Nat.le_antisymm; apply osa_min.
  - apply align_rev_iff, osa_align.
  - rewrite <- align_rev_iff. apply osa_align.
Qed.

Lemma osa_bound a b : (osa a b <= length a + length b)%nat.
Proof.
  apply osa_min. rewrite <- (app_nil_r a), <- (app_nil_l b) at 1.
  apply align_app; [|apply align_sym].  all: rewrite ?app_nil_r; apply align_delete_all.
Qed.

(** ** The rows of the algorithm *)

Section rows.
Variables a b : list ascii.
Hypothesis Hsize : Z.of_nat (length a + length b) + 1 < 2 ^ 64.

(** The distance of prefixes. *)
Definition D (i j : nat) : nat := osa (rev (take i a)) (rev (take j b)).

Lemma D_bound i j : (D i j <= length a + length b)%nat.
Proof.
  unfold D. pose proof (osa_bound (rev (take i a)) (rev (take j b))) as H.
  rewrite !length_rev, !length_take in H. lia.
Qed.

Lemma D_u64 i j n : (n <= 1)%nat -> u64 (Z.of_nat (D i j) + Z.of_nat n) = Z.of_nat (D i j + n).
Proof.
  intros Hn. pose proof (D_bound i j). rewrite u64_small by (unfold is_u64, modulus64; lia). lia.
Qed.

Lemma rev_take_S (l : list ascii) i c :
  l !! i = Some c -> rev (take (S i) l) = c :: rev (take i l).
Proof. intros H. rewrite (take_S_r _ _ _ H), rev_app_distr. done. Qed.

Lemma D_0_l j : (j <= length b)%nat -> D 0 j = j.
Proof. intros. unfold D. rewrite take_0, osa_nil_l, length_rev, length_take. lia. Qed.

Lemma D_0_r i : (i <= length a)%nat -> D i 0 = i.
Proof. intros. unfold D. rewrite take_0, osa_nil_r, length_rev, length_take. lia. Qed.

Definition swapped (i j : nat) (c d : ascii) : bool :=
  match i, j with
  | S i', S j' => bool_decide (b !! j' = Some c) && bool_decide (a !! i' = Some d)
  | _, _ => false
  end.

Lemma D_S i j c d :
  a !! i = Some c -> b !! j = Some d ->
  D (S i) (S j) =
  let m := Nat.min (Nat.min (S (D i (S j))) (S (D (S i) j))) (D i j + neq_cost c d) in
  if swapped i j c d then Nat.min m (D (i - 1) (j - 1) + neq_cost c d) else m.
Proof.
  intros Ha Hb. unfold D. rewrite (rev_take_S a i c Ha), (rev_take_S b j d Hb), osa_cons.
  rewrite <- (rev_take_S a i c Ha), <- (rev_take_S b j d Hb). cbv zeta.
  destruct i as [|i]; [by rewrite take_0|].
  assert (is_Some (a !! i)) as [c' Hc'].
  { apply lookup_lt_is_Some. apply lookup_lt_Some in Ha. lia. }
  rewrite (rev_take_S a i c' Hc').
  destruct j as [|j]; [by rewrite take_0|].
  assert (is_Some (b !! j)) as [d' Hd'].
  { apply lookup_lt_is_Some. apply lookup_lt_Some in Hb. lia. }
  rewrite (rev_take_S b j d' Hd'). simpl. rewrite !Nat.sub_0_r, Hd', Hc'.
  repeat case_decide; repeat case_bool_decide; simplify_eq; done.
Qed.

Lemma hasTransposition_ok i j c d :
  a !! i = Some c -> b !! j = Some d -> hasTransposition a b i j = Ret (swapped i j c d).
Proof.
  intros Ha Hb. unfold hasTransposition.
  destruct i as [|i]; [done|]. destruct j as [|j]; [done|]. simpl. rewrite !Nat.sub_0_r.
  rewrite (index_Some a _ _ Ha). simpl.
  assert (is_Some (a !! i)) as [c' Hc'].
  { apply lookup_lt_is_Some. apply lookup_lt_Some in Ha. lia. }
  assert (is_Some (b !! j)) as [d' Hd'].
  { apply lookup_lt_is_Some. apply lookup_lt_Some in Hb. lia. }
  rewrite (index_Some b _ _ Hd'). simpl. rewrite Hc', Hd'. case_decide; subst.
  - rewrite (index_Some a _ _ Hc'), (index_Some b _ _ Hb). simpl.
    f_equal. repeat case_bool_decide; simplify_eq; done.
  - repeat case_bool_decide; simplify_eq; done.
Qed.

(** [is_row l i n]: the first [n] entries of [l] are those of row [i]. *)
Definition is_row (l : list Z) (i n : nat) : Prop :=
  length l = S (length b) /\ forall k, (k < n)%nat -> l !! k = Some (Z.of_nat (D i k)).

Lemma min_of_nat x y : Z.min (Z.of_nat x) (Z.of_nat y) = Z.of_nat (Nat.min x y).
Proof. lia. Qed.

Lemma neq_cost_number c d :
  BoolToNumber (negb (bool_decide (c = d))) = Z.of_nat (neq_cost c d).
Proof. unfold neq_cost. case_bool_decide; case_decide; done. Qed.

Lemma neq_cost_le c d : (neq_cost c d <= 1)%nat.
Proof. unfold neq_cost. case_decide; lia. Qed.

Lemma inner_body_ok pp prev curr i j c d :
  a !! i = Some c -> b !! j = Some d ->
  is_row prev i (S (length b)) -> ((0 < i)%nat -> is_row pp (i - 1) (S (length b))) ->
  is_row curr (S i) (S j) ->
  exists curr', inner_body a b pp prev i curr j = Ret curr' /\ is_row curr' (S i) (S (S j)).
Proof.
  intros Ha Hb [Hlp Hprev] Hpp [Hlc Hcurr].
  assert (j < length b)%nat as Hj by (by apply lookup_lt_Some in Hb).
  unfold inner_body. rewrite Nat.add_1_r.
  rewrite (index_Some prev (S j) (Z.of_nat (D i (S j)))) by (apply Hprev; lia). simpl.
  rewrite (index_Some curr j (Z.of_nat (D (S i) j))) by (apply Hcurr; lia). simpl.
  rewrite (index_Some a i c Ha), (index_Some b j d Hb). simpl.
  rewrite (index_Some prev j (Z.of_nat (D i j))) by (apply Hprev; lia). simpl.
  rewrite (hasTransposition_ok i j c d Ha Hb), neq_cost_number. simpl.
  pose proof (neq_cost_le c d) as Hn.
  rewrite !(D_u64 _ _ 1), (D_u64 _ _ (neq_cost c d)) by lia.
  exists (<[S j:=Z.of_nat (D (S i) (S j))]> curr). split.
  - assert (forall v, Z.of_nat (D (S i) (S j)) = v ->
      set_index curr (S j) v = Ret (<[S j:=Z.of_nat (D (S i) (S j))]> curr)) as Hset
      by (intros v <-; apply set_index_lt; lia).
    rewrite (D_S i j c d Ha Hb) in Hset. cbv zeta in Hset.
    destruct (swapped i j c d) eqn:Es.
    + assert (0 < i)%nat as Hi by (destruct i; [done|lia]).
      destruct (Hpp Hi) as [_ Hrow].
      rewrite (index_Some pp (j - 1) (Z.of_nat (D (i - 1) (j - 1)))) by (apply Hrow; lia). simpl.
      rewrite (D_u64 _ _ (neq_cost c d)) by lia. rewrite (D_S i j c d Ha Hb), Es. apply Hset. lia.
    + simpl. rewrite (D_S i j c d Ha Hb), Es. apply Hset. lia.
  - split; [by rewrite length_insert|]. intros k Hk.
    destruct (decide (k = S j)) as [->|Hne].
    + rewrite list_lookup_insert_eq; [done|lia].
    + rewrite list_lookup_insert_ne by done. apply Hcurr. lia.
Qed.
End rows.

(** ** The two paths of [Distance] *)

Definition uints_ok (s : uints) : Prop := (u_len s <= u_cap s)%nat.

Lemma newRow_ok ptr l : uints_ok ptr -> exists row, newRow ptr l = Ret row /\ length row = l.
Proof.
  unfold uints_ok, newRow, Grow, u_cap. intros Hok.
  destruct (length (u_arr ptr) <? l)%nat eqn:E; bool_simp.
  - destruct (u_len ptr + _ <=? _)%nat eqn:E1; bool_simp; [lia|]. cbn [u_arr u_len].
    rewrite length_app, length_take, length_replicate.
    destruct (l <=? _)%nat eqn:E2; bool_simp; [|lia].
    eexists. split; [done|]. rewrite length_take, length_app, length_take, length_replicate. lia.
  - destruct (l <=? _)%nat eqn:E2; bool_simp; [|lia].
    eexists. split; [done|]. rewrite length_take. lia.
Qed.

Lemma min_align_contains p b t : min_align (p ++ b ++ t) b (length p + length t).
Proof.
  split.
  - change b with ([] ++ b) at 2. apply align_app; [apply align_delete_all|].
    rewrite <- (app_nil_r b) at 2. apply (align_app b b 0 t []); [apply align_refl|apply align_delete_all].
  - intros m Hm. apply align_length in Hm. rewrite !length_app in Hm. lia.
Qed.

Lemma min_align_sym a b n : min_align a b n -> min_align b a n.
Proof. intros [H Hm]. split; [by apply align_sym|]. intros m ?. by apply Hm, align_sym. Qed.

Lemma contains_distance a b :
  Contains a b = true ->
  exists n, len a - len b = Z.of_nat n /\ min_align (bytes a) (bytes b) n.
Proof.
  intros H. apply Contains_spec in H as (p & t & ->).
  exists (length (bytes p) + length (bytes t))%nat. rewrite !bytes_append. split.
  - unfold len. rewrite !length_append, !length_bytes. lia.
  - apply min_align_contains.
Qed.

Lemma handleQuick_ok a b d :
  handleQuick a b = Some d -> exists n, d = Z.of_nat n /\ min_align (bytes a) (bytes b) n.
Proof.
  unfold handleQuick. intros H. repeat case_decide; simplify_eq.
  - exists 0%nat. split; [done|]. split; [apply align_refl|lia].
  - exists (length (bytes b)). split; [by rewrite length_bytes|].
    apply osa_spec. by rewrite osa_nil_l.
  - exists (length (bytes a)). split; [by rewrite length_bytes|].
    apply osa_spec. by rewrite osa_nil_r.
  - destruct (Contains a b) eqn:E1; simplify_eq; [by apply contains_distance|].
    destruct (Contains b a) eqn:E2; simplify_eq.
    apply contains_distance in E2 as (n & ? & ?). exists n. split; [done|by apply min_align_sym].
Qed.

Section outer_loop.
Variables a b : string.
Hypothesis Hb : is_ascii b = true.
Hypothesis Hsize : Z.of_nat (length (bytes a) + length (bytes b)) + 1 < 2 ^ 64.

Definition outer_inv (i : nat) (rows : list Z * list Z * list Z) : Prop :=
  let n := S (length (bytes b)) in
  is_row (bytes a) (bytes b) (rows.1.2) i n /\
  ((0 < i)%nat -> is_row (bytes a) (bytes b) (rows.1.1) (i - 1) n) /\
  length (rows.1.1) = n /\ length (rows.2) = n.

Lemma outer_body_ok i rows :
  (i < length (bytes a))%nat -> outer_inv i rows ->
  exists rows', outer_body a b rows i = Ret rows' /\ outer_inv (S i) rows'.
Proof.
  intros Hi. destruct rows as [[pp prev] curr]. intros (Hprev & Hpp & Hlp & Hlc).
  simpl in Hprev, Hpp, Hlp, Hlc.
  unfold outer_body. rewrite set_index_lt by lia. cbn [outcome_bind].
  rewrite range_string_ascii_offsets by done.
  destruct (lookup_lt_is_Some_2 (bytes a) i) as [c Hc]; [done|].
  destruct (for_each_inv (inner_body (bytes a) (bytes b) pp prev i)
    (fun n curr => is_row (bytes a) (bytes b) curr (S i) (S n))
    (seq 0 (String.length b)) (<[0%nat:=u64 (Z.of_nat i + 1)]> curr) 0) as (curr' & -> & Hcurr').
  - split; [by rewrite length_insert|]. intros k Hk. assert (k = 0)%nat as -> by lia.
    rewrite list_lookup_insert_eq by lia. rewrite D_0_r by lia.
    rewrite u64_small by (unfold is_u64, modulus64; lia). f_equal. lia.
  - intros k x s Hk Hs. apply lookup_seq in Hk as [-> Hk]. rewrite <- length_bytes in Hk.
    destruct (lookup_lt_is_Some_2 (bytes b) k) as [d Hd]; [lia|]. simpl.
    eapply inner_body_ok; try done.
  - rewrite length_seq in Hcurr'. simpl in *. eexists. split; [done|].
    rewrite <- length_bytes in Hcurr'. split; [done|]. split; [|split; [apply Hprev|done]].
    intros _. simpl. by rewrite Nat.sub_0_r.
Qed.
End outer_loop.

Lemma Distance_ok ptr1 ptr2 ptr3 a b :
  uints_ok ptr1 -> uints_ok ptr2 -> uints_ok ptr3 ->
  is_ascii a = true -> is_ascii b = true ->
  len a < 2 ^ 63 -> len b < 2 ^ 63 ->
  exists n, Distance ptr1 ptr2 ptr3 a b = Ret (Z.of_nat n) /\ min_align (bytes a) (bytes b) n.
Proof.
  intros H1 H2 H3 Ha Hb Hla Hlb. unfold Distance.
  destruct (handleQuick a b) as [d|] eqn:Eq.
  { apply handleQuick_ok in Eq as (n & -> & Hn). eauto. }
  unfold len in *. pose proof (length_bytes a) as La. pose proof (length_bytes b) as Lb.
  destruct (newRow_ok ptr1 (String.length b + 1) H1) as (curr & -> & Hcl). cbn [outcome_bind].
  destruct (newRow_ok ptr2 (String.length b + 1) H2) as (prev & -> & Hprevl). cbn [outcome_bind].
  destruct (newRow_ok ptr3 (String.length b + 1) H3) as (pp & -> & Hppl). cbn [outcome_bind].
  rewrite Hprevl, range_string_ascii_offsets by done.
  destruct (for_each_inv (outer_body a b) (outer_inv a b) (seq 0 (String.length a))
    (pp, init_row (String.length b + 1), curr) 0) as (rows & -> & Hinv).
  - split; [|split; [lia|simpl; lia]]. split.
    + simpl. unfold init_row. rewrite length_map, length_seq. lia.
    + intros k Hk. simpl. unfold init_row. change (map Z.of_nat) with (fmap (M := list) Z.of_nat).
      rewrite list_lookup_fmap, lookup_seq_lt by lia. simpl. rewrite D_0_l by lia. done.
  - intros k x s Hk Hs. apply lookup_seq in Hk as [-> Hk]. apply outer_body_ok; [done| |..].
    + lia.
    + lia.
    + done.
  - cbn [outcome_bind]. rewrite length_seq in Hinv. simpl in Hinv.
    destruct Hinv as [[_ Hrow] _]. exists (osa (bytes a) (bytes b)). split.
    + rewrite (index_Some _ _ (Z.of_nat (D (bytes a) (bytes b) (String.length a) (String.length b)))).
      * do 2 f_equal. unfold D. rewrite <- !length_bytes, !firstn_all. apply osa_rev.
      * apply Hrow. lia.
    + by apply osa_spec.
Qed.

(** C39. For ASCII strings, and whatever the pooled rows contain, [Distance]
    does not panic and returns the minimal cost of an alignment of [a] and [b]
    by deletions, insertions, substitutions and transpositions of adjacent
    bytes, both on its quick path and on the row-by-row path. *)
Theorem Distance_correct ptr1 ptr2 ptr3 a b :
  uints_ok ptr1 -> uints_ok ptr2 -> uints_ok ptr3 ->
  is_ascii a = true -> is_ascii b = true ->
  len a < 2 ^ 63 -> len b < 2 ^ 63 ->
  exists n, Distance ptr1 ptr2 ptr3 a b = Ret (Z.of_nat n) /\ min_align (bytes a) (bytes b) n.
Proof. apply Distance_ok. Qed.

Lemma Distance_correct_witness :
  exists n, Distance {| u_arr := [7; 7]; u_len := 1 |} {| u_arr := []; u_len := 0 |}
    {| u_arr := [9; 9; 9; 9; 9; 9; 9; 9]; u_len := 0 |} "google"%string "googel"%string
    = Ret (Z.of_nat n) /\ min_align (bytes "google") (bytes "googel") n.
Proof.
  apply Distance_correct; [unfold uints_ok, u_cap; simpl; lia..|reflexivity|reflexivity|reflexivity|reflexivity].
Defined.

Example Distance_transposition :
  Distance {| u_arr := [7; 7]; u_len := 1 |} {| u_arr := []; u_len := 0 |}
    {| u_arr := [9; 9; 9; 9; 9; 9; 9; 9]; u_len := 0 |} "google"%string "googel"%string = Ret 1.
Proof. reflexivity. Qed.
