(* ===== verification/ConnLimiter.v ===== *)
(** The stream-connection limiter: internal/connlimiter.

    [counter] is counter.go.  The rest models limiter.go, listener.go and
    conn.go as a transition system: several listeners share one counter under
    one mutex and one condition variable; goroutines call Accept and Close.
    Every critical section is one step; which waiting goroutine a Signal wakes
    is part of the step's label.  Logging, metrics and the underlying net.Conn
    and net.Listener are not part of the state; an underlying Accept either
    succeeds or fails. *)

From S2P Require Import Prelude.

Open Scope Z_scope.

(** ** counter.go *)

Record counter := {
  current : Z;
  stop : Z;
  resume : Z;
  isAccepting : bool;
}.

Definition counter_increment (c : counter) : bool * counter :=
  if negb (isAccepting c) then (false, c)
  else
    let cur := u64 (current c + 1) in
    (true, {| current := cur; stop := stop c; resume := resume c;
              isAccepting := cur <? stop c |}).

Definition counter_decrement (c : counter) : counter :=
  let cur := u64 (current c - 1) in
  {| current := cur; stop := stop c; resume := resume c;
     isAccepting := isAccepting c || (cur <=? resume c) |}.

(** ** limiter.go *)

Record Config := { Stop : Z; Resume : Z }.

(** "Stop must be greater than zero and greater than or equal to Resume";
    "Resume must be greater than zero". *)
Definition valid_config (c : Config) : Prop :=
  0 < Resume c <= Stop c /\ Stop c < modulus64.

Definition new_counter (c : Config) : counter :=
  {| current := 0; stop := Stop c; resume := Resume c; isAccepting := true |}.

(** ** listener.go and conn.go *)

(** Where a goroutine that has called Accept on listener [l] is, or what has
    become of the connection it has got. *)
Inductive conn_state :=
  | Trying (l : nat)    (* about to evaluate the loop condition of increment *)
  | Waiting (l : nat)   (* in counterCond.Wait *)
  | InAccept (l : nat)  (* has incremented the counter; in Listener.Accept *)
  | Open (l : nat)      (* Accept has returned a limitConn *)
  | Closing (l : nat)   (* limitConn.Close has set isClosed *)
  | Finished.           (* Accept has returned an error, or Close is done *)

Record limiter := {
  cnt : counter;
  closed : gset nat;       (* listeners with isClosed set *)
  conns : list conn_state;
}.

Definition new_limiter (c : Config) : limiter :=
  {| cnt := new_counter c; closed := ∅; conns := [] |}.

Definition set_conn (s : limiter) (i : nat) (t : conn_state) : limiter :=
  {| cnt := cnt s; closed := closed s; conns := <[i:=t]> (conns s) |}.

Definition set_cnt (s : limiter) (c : counter) : limiter :=
  {| cnt := c; closed := closed s; conns := conns s |}.

Definition is_waiting (t : conn_state) : bool :=
  match t with Waiting _ => true | _ => false end.

(** [counterCond.Signal] wakes one waiting goroutine, if there is any; [w] says
    which one. *)
Definition signal (w : option nat) (s : limiter) : option limiter :=
  match w with
  | None => if existsb is_waiting (conns s) then None else Some s
  | Some j =>
      match conns s !! j with
      | Some (Waiting l) => Some (set_conn s j (Trying l))
      | _ => None
      end
  end.

(** [counterCond.Broadcast]. *)
Definition wake (t : conn_state) : conn_state :=
  match t with Waiting l => Trying l | _ => t end.

(** [limitListener.decrement] by the goroutine or connection [i], which becomes
    [Finished]. *)
Definition decrement (i : nat) (w : option nat) (s : limiter) : option limiter :=
  signal w (set_conn (set_cnt s (counter_decrement (cnt s))) i Finished).

(** One evaluation of the loop of [limitListener.increment] and what Accept does
    after it. *)
Definition try_increment (i l : nat) (s : limiter) : limiter :=
  let '(shouldAccept, c) := counter_increment (cnt s) in
  let s := set_cnt s c in
  let isClosed := bool_decide (l ∈ closed s) in
  if negb shouldAccept && negb isClosed then set_conn s i (Waiting l)
  else if isClosed then set_conn s i Finished (* return nil, net.ErrClosed *)
  else set_conn s i (InAccept l).

(** [limitListener.Close]; the second component is whether it returned
    net.ErrClosed at once. *)
Definition close_listener (l : nat) (s : limiter) : limiter * bool :=
  if bool_decide (l ∈ closed s) then (s, true)
  else ({| cnt := cnt s; closed := {[l]} ∪ closed s; conns := map wake (conns s) |}, false).

Inductive event :=
  | EvAccept (l : nat)
  | EvTry (i : nat)
  | EvAcceptOk (i : nat)
  | EvAcceptErr (i : nat) (w : option nat)
  | EvCloseConn (i : nat)
  | EvDecrement (i : nat) (w : option nat)
  | EvCloseListener (l : nat).

Definition exec (e : event) (s : limiter) : option limiter :=
  match e with
  | EvAccept l =>
      Some {| cnt := cnt s; closed := closed s; conns := conns s ++ [Trying l] |}
  | EvTry i =>
      match conns s !! i with Some (Trying l) => Some (try_increment i l s) | _ => None end
  | EvAcceptOk i =>
      match conns s !! i with Some (InAccept l) => Some (set_conn s i (Open l)) | _ => None end
  | EvAcceptErr i w =>
      match conns s !! i with Some (InAccept _) => decrement i w s | _ => None end
  | EvCloseConn i =>
      match conns s !! i with
      | Some (Open l) => Some (set_conn s i (Closing l))
      | Some (Closing _) | Some Finished => Some s (* CompareAndSwap fails: net.ErrClosed *)
      | _ => None
      end
  | EvDecrement i w =>
      match conns s !! i with Some (Closing _) => decrement i w s | _ => None end
  | EvCloseListener l => Some (close_listener l s).1
  end.

Inductive reachable (c : Config) : limiter -> Prop :=
  | reach_init : reachable c (new_limiter c)
  | reach_step e s s' : reachable c s -> exec e s = Some s' -> reachable c s'.

(** A run of events. *)
Fixpoint run (es : list event) (s : limiter) : option limiter :=
  match es with
  | [] => Some s
  | e :: es => s ← exec e s; run es s
  end.

Lemma run_reachable c es s s' : reachable c s -> run es s = Some s' -> reachable c s'.
Proof.
  revert s. induction es as [|e es IH]; simpl; intros s Hs Hr; simplify_eq; [done|].
  apply bind_Some in Hr as (s1 & He & Hr). eapply IH; [|done]. by econstructor.
Qed.

(** ** The counter *)

Definition counter_ok (c : counter) : Prop :=
  0 < resume c <= stop c /\ stop c < modulus64 /\
  0 <= current c <= stop c /\
  (isAccepting c = true -> current c < stop c) /\
  (isAccepting c = false -> resume c < current c \/ current c = stop c).

Lemma new_counter_ok c : valid_config c -> counter_ok (new_counter c).
Proof. unfold valid_config, counter_ok. simpl. intros. split_and!; try lia; done. Qed.

Lemma counter_increment_ok c b c' :
  counter_ok c -> counter_increment c = (b, c') ->
  counter_ok c' /\ b = isAccepting c /\ stop c' = stop c /\
  current c' = current c + (if b then 1 else 0).
Proof.
  intros (Hr & Hs & Hc & Ha & Hn). unfold counter_increment.
  destruct (isAccepting c) eqn:E; simpl; intros H; simplify_eq.
  - specialize (Ha eq_refl). rewrite u64_small by (unfold is_u64; lia).
    unfold counter_ok. simpl.
    destruct (current c + 1 <? stop c) eqn:El; bool_simp; split_and!; try done; lia.
  - unfold counter_ok. rewrite E. split_and!; try done; lia.
Qed.

Lemma counter_decrement_ok c :
  counter_ok c -> 0 < current c ->
  counter_ok (counter_decrement c) /\ stop (counter_decrement c) = stop c /\
  current (counter_decrement c) = current c - 1.
Proof.
  intros (Hr & Hs & Hc & Ha & Hn) Hpos. unfold counter_decrement, counter_ok. simpl.
  rewrite u64_small by (unfold is_u64; lia).
  destruct (isAccepting c) eqn:E; simpl.
  - specialize (Ha eq_refl). split_and!; try done; lia.
  - destruct (current c - 1 <=? resume c) eqn:El; bool_simp; split_and!; try done; lia.
Qed.

(** *** Hysteresis *)

Inductive counter_op := Inc | Dec.

Definition counter_step (c : counter) (o : counter_op) : counter :=
  match o with Inc => (counter_increment c).2 | Dec => counter_decrement c end.

(** Once the counter has stopped accepting, it accepts a connection again
    only after the number of active connections has gone down to [resume] or
    below: a state that accepts again is preceded by one with at most [resume]
    connections. *)
Theorem counter_hysteresis c ops :
  isAccepting c = false -> isAccepting (foldl counter_step c ops) = true ->
  exists ops1 ops2, ops = ops1 ++ Dec :: ops2 /\
    isAccepting (foldl counter_step c ops1) = false /\
    current (foldl counter_step c (ops1 ++ [Dec])) <= resume c.
Proof.
  revert c. induction ops as [|o ops IH]; intros c Hn Ha; simpl in *; [congruence|].
  destruct (isAccepting (counter_step c o)) eqn:E.
  - destruct o; simpl in E.
    + unfold counter_increment in E. rewrite Hn in E. simpl in E. congruence.
    + exists [], ops. simpl. split; [done|]. split; [done|].
      unfold counter_decrement in E. simpl in E. rewrite Hn in E. simpl in E. by bool_simp.
  - destruct (IH _ E Ha) as (ops1 & ops2 & -> & H1 & H2).
    exists (o :: ops1), ops2. split; [done|]. split; [done|]. simpl.
    replace (resume c) with (resume (counter_step c o)); [done|].
    destruct o; simpl; [|done]. unfold counter_increment. by destruct (isAccepting c).
Qed.

Lemma counter_hysteresis_witness :
  exists ops1 ops2, [Inc; Dec; Dec; Inc] = ops1 ++ Dec :: ops2 /\
    isAccepting (foldl counter_step
      {| current := 3; stop := 3; resume := 1; isAccepting := false |} ops1) = false /\
    current (foldl counter_step
      {| current := 3; stop := 3; resume := 1; isAccepting := false |} (ops1 ++ [Dec])) <= 1.
Proof. apply (counter_hysteresis {| current := 3; stop := 3; resume := 1; isAccepting := false |}); reflexivity. Defined.

(** ** Slots

    A goroutine or connection holds a slot of the counter from the successful
    increment to the decrement. *)

Definition holds_slot (t : conn_state) : Z :=
  match t with InAccept _ | Open _ | Closing _ => 1 | _ => 0 end.

Fixpoint slots (l : list conn_state) : Z :=
  match l with [] => 0 | t :: l => holds_slot t + slots l end.

Lemma slots_nonneg l : 0 <= slots l.
Proof. induction l as [|t l IH]; simpl; [lia|]. destruct t; simpl; lia. Qed.

Lemma slots_app l l' : slots (l ++ l') = slots l + slots l'.
Proof. induction l; simpl; lia. Qed.

Lemma slots_insert l i t t' :
  l !! i = Some t -> slots (<[i:=t']> l) = slots l - holds_slot t + holds_slot t'.
Proof.
  revert i. induction l as [|u l IH]; intros [|i] Hi; simpl in *; simplify_eq; [lia|].
  rewrite IH by done. lia.
Qed.

Lemma slots_lookup_le l i t : l !! i = Some t -> holds_slot t <= slots l.
Proof.
  revert i. induction l as [|u l IH]; intros [|i] Hi; simpl in *; simplify_eq.
  - pose proof (slots_nonneg l). lia.
  - specialize (IH _ Hi). destruct u; simpl; lia.
Qed.

Lemma slots_wake l : slots (map wake l) = slots l.
Proof. induction l as [|t l IH]; simpl; [done|]. rewrite IH. by destruct t. Qed.

Lemma signal_spec w s s' :
  signal w s = Some s' ->
  cnt s' = cnt s /\ closed s' = closed s /\ slots (conns s') = slots (conns s).
Proof.
  unfold signal. destruct w as [j|].
  - destruct (conns s !! j) as [[]|] eqn:E; intros H; simplify_eq. simpl.
    rewrite (slots_insert _ _ _ _ E). simpl. split_and!; [done..|lia].
  - destruct (existsb _ _); intros H; by simplify_eq.
Qed.

(** An Accept call on a closed listener that finds the counter accepting takes a
    slot and returns net.ErrClosed: the slot is lost. *)
Definition leaks (e : event) (s : limiter) : Z :=
  match e with
  | EvTry i =>
      match conns s !! i with
      | Some (Trying l) => if bool_decide (l ∈ closed s) && isAccepting (cnt s) then 1 else 0
      | _ => 0
      end
  | _ => 0
  end.

(** [reachable_leak c s k]: a run to [s] in which [k] slots were lost. *)
Inductive reachable_leak (c : Config) : limiter -> Z -> Prop :=
  | rleak_init : reachable_leak c (new_limiter c) 0
  | rleak_step e s s' k :
      reachable_leak c s k -> exec e s = Some s' -> reachable_leak c s' (k + leaks e s).

Lemma reachable_leak_iff c s : reachable c s <-> exists k, reachable_leak c s k.
Proof.
  split.
  - induction 1 as [|e s s' _ [k IH] He]; [exists 0; constructor|]. eexists. by econstructor.
  - intros [k Hk]. induction Hk; by econstructor.
Qed.

Definition limiter_inv (c : Config) (s : limiter) (k : Z) : Prop :=
  counter_ok (cnt s) /\ stop (cnt s) = Stop c /\ 0 <= k /\
  current (cnt s) = slots (conns s) + k.

Lemma decrement_inv c i w s s' k t :
  limiter_inv c s k -> conns s !! i = Some t -> holds_slot t = 1 ->
  decrement i w s = Some s' -> limiter_inv c s' k.
Proof.
  intros (Hok & Hst & Hk & Hcur) Hi Ht Hd. apply signal_spec in Hd as (Hc & _ & Hsl).
  pose proof (slots_lookup_le _ _ _ Hi) as Hle.
  destruct (counter_decrement_ok _ Hok) as (Hok' & Hst' & Hcur'); [lia|].
  cbn [cnt conns set_cnt set_conn] in *. rewrite (slots_insert _ _ _ _ Hi) in Hsl.
  cbn [holds_slot] in Hsl. unfold limiter_inv. rewrite Hc, Hsl, Hcur'.
  split_and!; [done|congruence|done|lia].
Qed.

Lemma try_increment_inv c i l s k :
  limiter_inv c s k -> conns s !! i = Some (Trying l) ->
  limiter_inv c (try_increment i l s) (k + leaks (EvTry i) s).
Proof.
  intros (Hok & Hst & Hk & Hcur) Hi. unfold try_increment, leaks. rewrite Hi.
  destruct (counter_increment (cnt s)) as [b c'] eqn:E.
  apply counter_increment_ok in E as (Hok' & -> & Hst' & Hcur'); [|done]. revert Hcur'. simpl.
  destruct (bool_decide (l ∈ closed s)) eqn:Ec, (isAccepting (cnt s)) eqn:Ea; simpl in *;
    intros Hcur'; unfold limiter_inv; simpl; rewrite (slots_insert _ _ _ _ Hi); simpl;
    split_and!; try done; try congruence; lia.
Qed.

Lemma exec_inv c e s s' k :
  limiter_inv c s k -> exec e s = Some s' -> limiter_inv c s' (k + leaks e s).
Proof.
  intros Hinv He. destruct e as [l|i|i|i w|i|i w|l]; unfold exec in He.
  - simplify_eq. destruct Hinv as (? & ? & ? & ?). unfold limiter_inv. simpl.
    rewrite slots_app. simpl. split_and!; try done; lia.
  - destruct (conns s !! i) as [[]|] eqn:E; simplify_eq. by apply try_increment_inv.
  - destruct (conns s !! i) as [[]|] eqn:E; simplify_eq. destruct Hinv as (? & ? & ? & ?).
    unfold limiter_inv. simpl. rewrite (slots_insert _ _ _ _ E). simpl. split_and!; try done; lia.
  - destruct (conns s !! i) as [[]|] eqn:E; simplify_eq. simpl. rewrite Z.add_0_r.
    by eapply decrement_inv.
  - destruct (conns s !! i) as [[]|] eqn:E; simplify_eq; destruct Hinv as (? & ? & ? & ?);
      unfold limiter_inv; simpl; rewrite ?(slots_insert _ _ _ _ E); simpl; split_and!; try done; lia.
  - destruct (conns s !! i) as [[]|] eqn:E; simplify_eq. simpl. rewrite Z.add_0_r.
    by eapply decrement_inv.
  - simplify_eq. simpl. rewrite Z.add_0_r. unfold close_listener.
    case_bool_decide; simpl; [done|]. destruct Hinv as (? & ? & ? & ?).
    unfold limiter_inv. simpl. by rewrite slots_wake.
Qed.

(** C38. In every reachable state of the limiter the counter equals the number of
    accepting goroutines and live connections plus the slots lost to Accept
    calls on closed listeners; it never wraps around and never exceeds [Stop],
    so at most [Stop] connections are active at any time. *)
Theorem limiter_bound c s k :
  valid_config c -> reachable_leak c s k ->
  0 <= k /\ current (cnt s) = slots (conns s) + k /\
  0 <= current (cnt s) <= Stop c /\ slots (conns s) <= Stop c.
Proof.
  intros Hc Hr. assert (limiter_inv c s k) as (Hok & Hst & Hk & Hcur).
  { induction Hr as [|e s s' k Hr IH He]; [|by eapply exec_inv].
    split; [by apply new_counter_ok|]. split; [done|]. by split. }
  destruct Hok as (_ & _ & ? & _). lia.
Qed.

Definition two_conns : Config := {| Stop := 2; Resume := 1 |}.

(** Runs with their number of lost slots. *)
Fixpoint run_leak (es : list event) (s : limiter) (k : Z) : option (limiter * Z) :=
  match es with
  | [] => Some (s, k)
  | e :: es => s' ← exec e s; run_leak es s' (k + leaks e s)
  end.

Lemma run_leak_reachable c es s k s' k' :
  reachable_leak c s k -> run_leak es s k = Some (s', k') -> reachable_leak c s' k'.
Proof.
  revert s k. induction es as [|e es IH]; simpl; intros s k Hs Hr; simplify_eq; [done|].
  apply bind_Some in Hr as (s1 & He & Hr). eapply IH; [|done]. by econstructor.
Qed.

Lemma limiter_bound_witness :
  exists s, run_leak [EvAccept 7; EvTry 0; EvAcceptOk 0] (new_limiter two_conns) 0 = Some (s, 0) /\
    current (cnt s) = slots (conns s) + 0 /\ slots (conns s) <= Stop two_conns.
Proof.
  eexists. split; [reflexivity|].
  assert (valid_config two_conns) as Hv by (vm_compute; intuition congruence).
  match goal with |- current (cnt ?s) = _ /\ _ =>
    destruct (limiter_bound two_conns s 0 Hv) as (_ & H1 & _ & H2)
  end.
  - eapply (run_leak_reachable _ [EvAccept 7; EvTry 0; EvAcceptOk 0]); [constructor|reflexivity].
  - split; [exact H1|exact H2].
Defined.

(** Accept on a closed listener loses a slot of the shared counter for good:
    with [Stop = 1], one such call leaves the counter not accepting although no
    connection is active, and an Accept call on another, open listener waits
    with nobody left to wake it. *)
Theorem closed_accept_leaks_slot :
  let c := {| Stop := 1; Resume := 1 |} in
  exists s, reachable c s /\ slots (conns s) = 0 /\ current (cnt s) = 1 /\
    isAccepting (cnt s) = false /\ conns s = [Finished; Waiting 2] /\ 2%nat ∉ closed s.
Proof.
  intros c. eexists. split.
  - eapply (run_reachable c [EvCloseListener 1; EvAccept 1; EvTry 0; EvAccept 2; EvTry 1]);
      [constructor|reflexivity].
  - vm_compute. repeat split; try done.
Qed.

(** The decrement wakes only one waiting goroutine: there is a reachable
    state in which the counter accepts connections, no goroutine is about to
    retry, and an Accept call on an open listener is still waiting. *)
Theorem signal_leaves_waiter :
  let c := {| Stop := 3; Resume := 1 |} in
  exists s, reachable c s /\ isAccepting (cnt s) = true /\
    (exists i l, conns s !! i = Some (Waiting l) /\ l ∉ closed s) /\
    (forall i l, conns s !! i <> Some (Trying l)).
Proof.
  intros c. eexists. split.
  - eapply (run_reachable c
      [EvAccept 1; EvTry 0; EvAcceptOk 0; EvAccept 1; EvTry 1; EvAcceptOk 1;
       EvAccept 1; EvTry 2; EvAcceptOk 2; EvAccept 1; EvTry 3; EvAccept 2; EvTry 4;
       EvCloseConn 0; EvDecrement 0 (Some 3%nat); EvTry 3;
       EvCloseConn 1; EvDecrement 1 (Some 3%nat); EvTry 3; EvAcceptOk 3]);
      [constructor|reflexivity].
  - split; [reflexivity|]. split.
    + exists 4%nat, 2%nat. split; [reflexivity|]. apply not_elem_of_empty.
    + intros i l. vm_compute. by do 5 (destruct i as [|i]; [discriminate|]).
Qed.
