(* ===== verification/Schedule.v ===== *)
(** Schedules: the exponential retry schedule of internal/agdtime (schedule.go)
    and the weekly parental-protection schedule of internal/filter
    (schedule.go). *)

From S2P Require Import Prelude GoStd.

Open Scope Z_scope.

(** ** internal/agdtime/schedule.go *)

Record ExponentialSchedule := { es_current : Z; es_max : Z; es_base : Z }.

Definition NewExponentialSchedule (initial max base : Z) : ExponentialSchedule :=
  {| es_current := initial; es_max := max; es_base := base |}.

(** The multiplication is that of int64. *)
Definition UntilNext (s : ExponentialSchedule) : Z * ExponentialSchedule :=
  let d := es_current s in
  if (es_max s <=? d) || (d <? 0) then (es_max s, s)
  else (d, {| es_current := i64 (es_current s * i64 (es_base s)); es_max := es_max s;
              es_base := es_base s |}).

(** The results of [n] calls. *)
Fixpoint intervals (n : nat) (s : ExponentialSchedule) : list Z :=
  match n with
  | O => []
  | S n => let '(d, s) := UntilNext s in d :: intervals n s
  end.

(** ** internal/filter/schedule.go *)

Record DayInterval := { di_Start : Z; di_End : Z }.

#[export] Instance DayInterval_eq_dec : EqDecision DayInterval.
Proof. solve_decision. Defined.

Definition MaxDayIntervalStartMinutes : Z := 24 * 60 - 1.
Definition MaxDayIntervalEndMinutes : Z := 24 * 60.

Definition empty_interval : DayInterval := {| di_Start := 0; di_End := 0 |}.

(** [None] is a nil pointer. *)
Definition Validate (r : option DayInterval) : option error :=
  match r with
  | None => None
  | Some r =>
      if bool_decide (r = empty_interval) then None
      else if di_End r <? di_Start r then
        Some (ErrWrap "end: %w: %d is less than start %d" (ErrConst "out of range"))
      else if MaxDayIntervalStartMinutes <? di_Start r then
        Some (ErrWrap "start: %w: %d is greater than %d" (ErrConst "out of range"))
      else if MaxDayIntervalEndMinutes <? di_End r then
        Some (ErrWrap "end: %w: %d is greater than %d" (ErrConst "out of range"))
      else None
  end.

(** A time zone has a name, and gives the offset, in nanoseconds, that is in effect at an
    instant.  Instants are nanoseconds since the first of January of the year 1,
    a Monday. *)
Record Location := { loc_String : string; zone_offset : Z -> Z }.

Definition minute : Z := 60 * 1000000000.
Definition day_len : Z := 24 * 60 * minute.

(** The wall clock of [t], as if it were an instant in UTC. *)
Definition wall (loc : Location) (t : Z) : Z := t + zone_offset loc t.

Definition Weekday (loc : Location) (t : Z) : Z := (wall loc t / day_len + 1) mod 7.

(** [time.Date] for the wall clock [w]: the offset in effect at [w], and if that
    is not zero, the one in effect at [w] less this offset. *)
Definition date (loc : Location) (w : Z) : Z :=
  if zone_offset loc w =? 0 then w else w - zone_offset loc (w - zone_offset loc w).

Record ConfigSchedule := { Week : list (option DayInterval); TimeZone : Location }.

Definition schedule_Contains (s : ConfigSchedule) (t : Z) : outcome bool :=
  let loc := TimeZone s in
  let! r := index (Week s) (Z.to_nat (Weekday loc t)) in
  match r with
  | None => Ret false
  | Some r =>
      if bool_decide (r = empty_interval) then Ret false
      else
        let day := date loc (wall loc t / day_len * day_len) in
        let start := day + di_Start r * minute in
        let end_ := day + di_End r * minute in
        Ret (negb (t <? start) && (t <? end_))
  end.

(** ** Facts *)

Lemma i64_double d : 0 <= d < 2 ^ 63 -> i64 (d * 2) = if d * 2 <? 2 ^ 63 then d * 2 else d * 2 - 2 ^ 64.
Proof.
  intros Hd. unfold i64, modulus64. rewrite Z.mod_small by lia. done.
Qed.

Lemma intervals_max n s : es_max s <= es_current s \/ es_current s < 0 ->
  intervals n s = replicate n (es_max s).
Proof.
  intros Hs. induction n as [|n IH]; [done|]. simpl. unfold UntilNext.
  destruct ((es_max s <=? es_current s) || (es_current s <? 0)) eqn:E.
  - by rewrite IH.
  - apply orb_false_iff in E. bool_simp. lia.
Qed.

Lemma intervals_doubling initial max n :
  0 < initial < 2 ^ 63 -> 0 < max < 2 ^ 63 ->
  intervals n (NewExponentialSchedule initial max 2) =
  map (fun k => Z.min (initial * 2 ^ Z.of_nat k) max) (seq 0 n).
Proof.
  unfold NewExponentialSchedule. revert initial.
  induction n as [|n IH]; intros initial Hi Hm; [done|].
  destruct (Z_lt_ge_dec initial max) as [Hlt|Hge].
  - simpl. unfold UntilNext. simpl.
    destruct ((max <=? initial) || (initial <? 0)) eqn:E.
    { apply orb_true_iff in E as [E|E]; bool_simp; lia. }
    rewrite Z.mul_1_r. change (i64 2) with 2. rewrite i64_double by lia.
    f_equal; [lia|]. rewrite <- seq_shift, map_map. case_if.
    + rewrite IH by lia. apply map_ext. intros k.
      rewrite Nat2Z.inj_succ, Z.pow_succ_r by lia. lia.
    + rewrite intervals_max by (simpl; lia). simpl.
      rewrite <- (length_seq n 0) at 1. generalize (seq 0 n). intros ks.
      induction ks as [|k ks IHk]; [done|]. simpl. rewrite IHk. f_equal.
      assert (0 < 2 ^ Z.of_nat k) by (apply Z.pow_pos_nonneg; lia).
      rewrite Nat2Z.inj_succ, Z.pow_succ_r by lia. nia.
  - rewrite intervals_max by (simpl; lia). simpl.
    rewrite <- (length_seq n 0) at 1. f_equal; [lia|]. rewrite <- seq_shift, map_map.
    generalize (seq 0 n). intros ks.
    induction ks as [|k ks IHk]; [done|]. simpl. rewrite IHk. f_equal.
    assert (0 < 2 ^ Z.of_nat k) by (apply Z.pow_pos_nonneg; lia).
    rewrite Nat2Z.inj_succ, Z.pow_succ_r by lia. nia.
Qed.

(** The schedule after [n] calls. *)
Fixpoint after_calls (n : nat) (s : ExponentialSchedule) : ExponentialSchedule :=
  match n with
  | O => s
  | S n => after_calls n (UntilNext s).2
  end.

Lemma after_calls_S n s : after_calls (S n) s = (UntilNext (after_calls n s)).2.
Proof. revert s. induction n as [|n IH]; intros s; [done|]. simpl in *. by rewrite IH. Qed.

Lemma intervals_lookup n k s : (k < n)%nat -> intervals n s !! k = Some (UntilNext (after_calls k s)).1.
Proof.
  revert k s. induction n as [|n IH]; intros k s Hk; [lia|]. simpl.
  destruct (UntilNext s) as [d s'] eqn:E. destruct k as [|k]; simpl; [by rewrite E|].
  rewrite IH by lia. by rewrite E.
Qed.

Lemma until_next_doubling initial max n :
  0 < initial < 2 ^ 63 -> 0 < max < 2 ^ 63 ->
  (UntilNext (after_calls n (NewExponentialSchedule initial max 2))).1 =
  Z.min (initial * 2 ^ Z.of_nat n) max.
Proof.
  intros Hi Hm. pose proof (intervals_lookup (S n) n (NewExponentialSchedule initial max 2) ltac:(lia)) as E.
  rewrite intervals_doubling in E by done. rewrite list_lookup_fmap, lookup_seq_lt in E by lia.
  simpl in E. by injection E as <-.
Qed.

(** With base two, the retry intervals start with the initial one and double
    until they reach the maximum, where they stay; the doubling may overflow
    int64, but never comes back as a wrong interval. *)
Theorem exponential_intervals initial max n :
  0 < initial < 2 ^ 63 -> 0 < max < 2 ^ 63 ->
  intervals n (NewExponentialSchedule initial max 2) =
  map (fun k => Z.min (initial * 2 ^ Z.of_nat k) max) (seq 0 n).
Proof. apply intervals_doubling. Qed.

Lemma exponential_intervals_witness :
  intervals 5 (NewExponentialSchedule 60 600 2) = [60; 120; 240; 480; 600].
Proof. exact (exponential_intervals 60 600 5 ltac:(lia) ltac:(lia)). Defined.

(** The overflow check works for base two only: with base four the schedule
    can overflow to zero and then stays at zero, below the initial interval. *)
Theorem exponential_overflow_base_four :
  intervals 4 (NewExponentialSchedule (2 ^ 62) (2 ^ 63 - 1) 4) = [2 ^ 62; 0; 0; 0].
Proof. reflexivity. Qed.

Lemma div_mod_day x : 0 <= x -> x = x / day_len * day_len + x mod day_len /\ 0 <= x mod day_len < day_len.
Proof.
  intros Hx. assert (0 < day_len) by (unfold day_len, minute; lia).
  pose proof (Z.div_mod x day_len ltac:(lia)). pose proof (Z.mod_pos_bound x day_len ltac:(lia)). lia.
Qed.

(** In a time zone with a constant offset, a weekly schedule contains an
    instant exactly when the minute of the local day is in the interval of the
    local weekday: the start is included, the end is not, and a day without an
    interval or with an empty one contains nothing. *)
Theorem schedule_contains_fixed_zone week name off t :
  length week = 7%nat -> 0 <= t + off ->
  let s := {| Week := week; TimeZone := {| loc_String := name; zone_offset _ := off |} |} in
  let local := t + off in
  exists r, week !! Z.to_nat ((local / day_len + 1) mod 7) = Some r /\
    exists b, schedule_Contains s t = Ret b /\
      (b = true <->
       exists i, r = Some i /\ di_Start i <= (local mod day_len) / minute < di_End i).
Proof.
  intros Hlen Ht s local.
  assert (0 <= (local / day_len + 1) mod 7 < 7) as Hw by (apply Z.mod_pos_bound; lia).
  destruct (lookup_lt_is_Some_2 week (Z.to_nat ((local / day_len + 1) mod 7))) as [r Hr]; [lia|].
  exists r. split; [done|]. unfold schedule_Contains.
  replace (Weekday (TimeZone s) t) with ((local / day_len + 1) mod 7) by done.
  rewrite (index_Some _ _ r) by done. simpl. destruct r as [i|].
  2:{ exists false. split; [done|]. split; [done|]. by intros (i & ? & _). }
  case_bool_decide as He.
  { exists false. split; [done|]. split; [done|]. intros (i' & [= <-] & Hi). subst i. simpl in Hi. lia. }
  eexists. split; [done|].
  assert (date {| loc_String := name; zone_offset _ := off |} (local / day_len * day_len) = local / day_len * day_len - off)
    as Ed by (unfold date; simpl; case_if; lia).
  replace (wall {| loc_String := name; zone_offset _ := off |} t) with local by done. rewrite Ed.
  destruct (div_mod_day local Ht) as [Hdm Hm]. set (base := local / day_len * day_len) in *.
  set (x := local mod day_len) in *.
  assert (0 < minute) as Hmin by (unfold minute; lia).
  rewrite andb_true_iff, negb_true_iff, Z.ltb_ge, Z.ltb_lt.
  assert (t = base + x - off) as Et by (unfold local in *; lia).
  assert (forall k, k * minute <= x <-> k <= x / minute) as Hk.
  { intros k. split; intros Hkx.
    - apply Z.div_le_lower_bound; lia.
    - pose proof (Z.mul_div_le x minute Hmin). nia. }
  split.
  - intros [H1 H2]. exists i. split; [done|]. pose proof (Hk (di_Start i)). pose proof (Hk (di_End i)). clearbody base x. lia.
  - intros (i' & [= <-] & H1 & H2). pose proof (Hk (di_Start i)). pose proof (Hk (di_End i)). clearbody base x. lia.
Qed.

Lemma schedule_contains_fixed_zone_witness :
  let week := replicate 7 (Some {| di_Start := 60; di_End := 120 |}) in
  exists r, week !! 1%nat = Some r /\
    exists b, schedule_Contains {| Week := week; TimeZone := {| loc_String := "UTC"; zone_offset _ := 0 |} |} (90 * minute) = Ret b /\
    (b = true <-> exists i, r = Some i /\ di_Start i <= ((90 * minute) mod day_len) / minute < di_End i).
Proof.
  intros week.
  apply (schedule_contains_fixed_zone week "UTC" 0 (90 * minute)); [reflexivity|].
  unfold minute. lia.
Defined.

(** On the day on which the clocks go back, an interval that covers the whole
    day, from 0:00 to 24:00, does not contain the last hour of the day: the end
    of the interval is counted in elapsed minutes from the local midnight, and
    this day has 25 hours. *)
Theorem schedule_whole_day_misses_hour :
  let hour := 60 * minute in
  (* the offset goes from two hours to one hour at 1:00 UTC of the eighth day *)
  let loc := {| loc_String := "Europe/Brussels"; zone_offset t := if t <? 7 * day_len + hour then 2 * hour else hour |} in
  let s := {| Week := replicate 7 (Some {| di_Start := 0; di_End := 1440 |}); TimeZone := loc |} in
  let t := 7 * day_len + 22 * hour + 30 * minute in
  wall loc t mod day_len = 23 * hour + 30 * minute /\ schedule_Contains s t = Ret false.
Proof. split; reflexivity. Qed.
