(* ===== verification/FilterConfig.v ===== *)
(** The filtering configurations of profiles and of filtering groups:
    internal/filter (config.go). *)

From S2P Require Import Prelude GoStd Schedule.

Open Scope Z_scope.

(** ** config.go *)

Record ConfigCategories := { cg_IDs : list string; cg_Enabled : bool }.

Record ConfigParental := {
  cp_Categories : ConfigCategories;
  cp_PauseSchedule : option ConfigSchedule;
  cp_BlockedServices : list string;
  cp_Enabled : bool;
  cp_AdultBlockingEnabled : bool;
  cp_SafeSearchGeneralEnabled : bool;
  cp_SafeSearchYouTubeEnabled : bool;
}.

Record ConfigCustomRuleList := { crl_IDs : list string; crl_Enabled : bool }.
Record ConfigRuleList := { cr_IDs : list string; cr_Enabled : bool }.

Record ConfigTyposquatting := { ct_Enabled : bool }.

Record ConfigSafeBrowsing := {
  csb_Typosquatting : option ConfigTyposquatting;
  csb_Enabled : bool;
  csb_DangerousDomainsEnabled : bool;
  csb_NewlyRegisteredDomainsEnabled : bool;
}.

(** A custom filter is given by its rules. *)
Record ConfigCustomFilter := { ccf_Filter : option (list string); ccf_Enabled : bool }.

Record ConfigClient := {
  cfc_CustomFilter : ConfigCustomFilter;
  cfc_CustomRuleList : ConfigCustomRuleList;
  cfc_Parental : ConfigParental;
  cfc_RuleList : ConfigRuleList;
  cfc_SafeBrowsing : ConfigSafeBrowsing;
}.

Record ConfigGroup := {
  cfg_Parental : ConfigParental;
  cfg_RuleList : ConfigRuleList;
  cfg_SafeBrowsing : ConfigSafeBrowsing;
}.

Inductive FilterConfig :=
  | ConfigNil
  | ConfigOfClient (c : ConfigClient)
  | ConfigOfGroup (c : ConfigGroup).
