(* ===== verification/HashPrefix.v ===== *)
(** The hash-prefix storage of internal/filter/hashprefix (hashprefix.go,
    storage.go) and the matcher for hash queries (matcher.go).

    The hash function is a parameter of 32-byte values; the hexadecimal encoding
    and the line scanner of the Go library are modelled.  A [Prefix] and a
    [suffix] are strings of two and of thirty bytes. *)

From S2P Require Import Prelude GoStd.

Open Scope Z_scope.

Definition PrefixLen : nat := 2.
Definition PrefixEncLen : nat := PrefixLen * 2.
Definition hashLen : nat := 32.
Definition suffixLen : nat := hashLen - PrefixLen.
Definition hashEncLen : nat := hashLen * 2.
Definition legacyPrefixEncLen : nat := 8.

(** crypto/sha256. *)
Class Sha256 := Sum256 : string -> string.
Class Sha256Spec `{Sha256} : Prop := sum_length s : String.length (Sum256 s) = hashLen.

(** ** encoding/hex *)

Definition hex_digit (n : Z) : ascii := if n <? 10 then byte_of (48 + n) else byte_of (87 + n).

Fixpoint hex_encode (s : string) : string :=
  match s with
  | EmptyString => EmptyString
  | String c s =>
      String (hex_digit (bval c / 16)) (String (hex_digit (bval c mod 16)) (hex_encode s))
  end.

Definition from_hex (c : ascii) : option Z :=
  let v := bval c in
  if (48 <=? v) && (v <=? 57) then Some (v - 48)
  else if (97 <=? v) && (v <=? 102) then Some (v - 87)
  else if (65 <=? v) && (v <=? 70) then Some (v - 55)
  else None.

(** [None] is an error. *)
Fixpoint hex_decode (s : string) : option string :=
  match s with
  | EmptyString => Some EmptyString
  | String _ EmptyString => None
  | String a (String b s) =>
      match from_hex a, from_hex b with
      | Some x, Some y => String (byte_of (16 * x + y)) <$> hex_decode s
      | _, _ => None
      end
  end.

(** ** bufio.Scanner *)

Definition MaxScanTokenSize : nat := 65536.

Definition cr : ascii := ascii_of_nat 13.
Definition lf : ascii := ascii_of_nat 10.

(** The trailing carriage return of a line is dropped. *)
Definition drop_cr (s : string) : string := TrimSuffix s (String cr EmptyString).

(** The lines of the data; an empty last line is not one. *)
Definition raw_lines (data : string) : list string :=
  let ls := SplitByte data lf in
  match last ls with
  | Some EmptyString => take (length ls - 1) ls
  | _ => ls
  end.

(** The scanner fails at a line that does not fit into its buffer. *)
Definition scan_lines (data : string) : result error (list string) :=
  if existsb (fun l => (Z.of_nat MaxScanTokenSize <=? len l)) (raw_lines data)
  then Err (ErrConst "bufio.Scanner: token too long")
  else Ok (map drop_cr (raw_lines data)).

(** ** storage.go *)

Section storage.
Context `{Sha256}.

Notation suffixMap := (gmap string (list string)).

Record Storage := { hashSuffixes : suffixMap }.

Definition pref_of (sum : string) : string := str_take PrefixLen sum.
Definition suf_of (sum : string) : string := str_drop PrefixLen sum.

(** A line that is not empty and not a comment. *)
Definition is_host (l : string) : bool :=
  match l with
  | EmptyString => false
  | String c _ => negb (bool_decide (c = "#"%char))
  end.

(** The body of the loop of [Reset]. *)
Definition reset_line (s : suffixMap * Z) (host : string) : suffixMap * Z :=
  if negb (is_host host) then s
  else
    let sum := Sum256 host in
    let '(next, n) := s in
    (<[pref_of sum := default [] (next !! pref_of sum) ++ [suf_of sum]]> next, u64 (n + 1)).

Definition Reset (s : Storage) (hostnameData : string) : result error Z * Storage :=
  match scan_lines hostnameData with
  | Err err => (Err (ErrWrap "scanning hosts: %w" err), s)
  | Ok lines =>
      let '(next, n) := foldl reset_line (∅, 0) lines in
      (Ok n, {| hashSuffixes := next |})
  end.

Definition NewStorage (hostnameData : option string) : result error Storage :=
  let s := {| hashSuffixes := ∅ |} in
  match hostnameData with
  | None => Ok s
  | Some data =>
      match Reset s data with
      | (Err err, _) => Err err
      | (Ok _, s) => Ok s
      end
  end.

(** [loadHashSuffixes] and the loop; the comparison with the whole sum is that
    of the buffer filled with the prefix and the suffix. *)
Definition Matches (s : Storage) (host : string) : bool :=
  let sum := Sum256 host in
  let pref := pref_of sum in
  match hashSuffixes s !! pref with
  | None => false
  | Some hashSufs => existsb (fun suf => bool_decide (pref +:+ suf = sum)) hashSufs
  end.

(** What the builder contains: the encoded hashes in one string. *)
Definition hashes_buffer (s : Storage) (prefs : list string) : string :=
  foldl (fun b pref =>
    foldl (fun b suf => b +:+ (hex_encode pref +:+ hex_encode suf)) b
      (default [] (hashSuffixes s !! pref)))
    EmptyString prefs.

Definition hashes_count (s : Storage) (prefs : list string) : nat :=
  foldl (fun l pref => (l + length (default [] (hashSuffixes s !! pref)))%nat) 0%nat prefs.

(** [str[lo:hi]]. *)
Definition str_slice (s : string) (lo hi : nat) : outcome string :=
  if (lo <=? hi)%nat && (hi <=? String.length s)%nat then Ret (str_take (hi - lo) (str_drop lo s))
  else Panic "slice bounds out of range".

(** The loop that cuts the string into hashes. *)
Fixpoint cut_hashes (str : string) (n i : nat) : outcome (list string) :=
  match n with
  | O => Ret []
  | S n =>
      let! h := str_slice str (i * hashEncLen) ((i + 1) * hashEncLen) in
      let! l := cut_hashes str n (i + 1) in
      Ret (h :: l)
  end.

Definition Hashes (s : Storage) (prefs : list string) : outcome (list string) :=
  if (length prefs =? 0)%nat then Ret []
  else cut_hashes (hashes_buffer s prefs) (hashes_count s prefs) 0.

(** ** matcher.go *)

(** The prefixes of the set are decoded in an order that is not specified. *)
Fixpoint decode_prefixes (l : list string) : result error (list string) :=
  match l with
  | [] => Ok []
  | s :: l =>
      match hex_decode s with
      | None => Err (ErrConst "bad hash encoding for %q")
      | Some p => let? ps := decode_prefixes l in Ok (p :: ps)
      end
  end.

(** The body of the loop over the parts: the part of four bytes. *)
Fixpoint cut_prefixes (l : list string) (acc : gset string) : result error (gset string) :=
  match l with
  | [] => Ok acc
  | s :: l =>
      if (String.length s =? PrefixEncLen)%nat then cut_prefixes l ({[s]} ∪ acc)
      else if (String.length s =? legacyPrefixEncLen)%nat then
        cut_prefixes l ({[str_take PrefixEncLen s]} ∪ acc)
      else Err (ErrConst "bad hash len %d for %q")
  end.

Definition prefixesFromStr (prefixesStr : string) : result error (list string) :=
  if bool_decide (prefixesStr = EmptyString) then Ok []
  else
    let? set := cut_prefixes (SplitByte prefixesStr "."%char) ∅ in
    decode_prefixes (elements set).

(** The storages in the order of the iteration over the map, which is not
    specified.  The results are [hashes] and [matched]. *)
Fixpoint MatchByPrefix (storages : list (string * Storage)) (host : string)
    : outcome (result error (list string * bool)) :=
  match storages with
  | [] => Ret (Ok ([], false))
  | (suffix, strg) :: storages =>
      if HasSuffix host suffix then
        match prefixesFromStr (TrimSuffix host suffix) with
        | Err err => Ret (Err err)
        | Ok hashPrefixes => let! hs := Hashes strg hashPrefixes in Ret (Ok (hs, true))
        end
      else MatchByPrefix storages host
  end.

End storage.

(** ** Facts *)

Lemma hex_encode_append s t : hex_encode (s +:+ t) = hex_encode s +:+ hex_encode t.
Proof. induction s as [|c s IH]; simpl; [done|]. by rewrite IH. Qed.

Lemma length_hex_encode s : String.length (hex_encode s) = (2 * String.length s)%nat.
Proof. induction s as [|c s IH]; simpl; [done|]. rewrite IH. lia. Qed.

Lemma from_hex_digit c :
  from_hex (hex_digit (bval c / 16)) = Some (bval c / 16) /\
  from_hex (hex_digit (bval c mod 16)) = Some (bval c mod 16).
Proof. destruct c as [[] [] [] [] [] [] [] []]; split; reflexivity. Qed.

Lemma hex_decode_encode s : hex_decode (hex_encode s) = Some s.
Proof.
  induction s as [|c s IH]; simpl; [done|]. destruct (from_hex_digit c) as [-> ->]. rewrite IH. simpl.
  rewrite <- Z.div_mod by lia. by rewrite byte_of_bval.
Qed.

Lemma length_str_take n s : (n <= String.length s)%nat -> String.length (str_take n s) = n.
Proof.
  revert s. induction n as [|n IH]; intros [|c s] Hn; simpl in *; try lia. rewrite IH; lia.
Qed.

Section storage_facts.
Context `{Sha256} `{!Sha256Spec}.

(** Prefixes of two bytes and suffixes of thirty. *)
Definition storage_ok (s : Storage) : Prop :=
  forall p l suf, hashSuffixes s !! p = Some l -> suf ∈ l ->
    String.length p = PrefixLen /\ String.length suf = suffixLen.

(** The hashes that start with one of the prefixes, encoded. *)
Definition hashes_spec (s : Storage) (prefs : list string) : list string :=
  prefs ≫= fun pref => (fun suf => hex_encode (pref +:+ suf)) <$> default [] (hashSuffixes s !! pref).

Lemma foldl_append (l : list string) (f : string -> string) b :
  foldl (fun b x => b +:+ f x) b l = b +:+ foldr (fun x r => f x +:+ r) EmptyString l.
Proof.
  revert b. induction l as [|x l IH]; intros b; simpl; [by rewrite append_nil_r|].
  by rewrite IH, append_assoc.
Qed.

Definition concat_strings (l : list string) : string := foldr String.append EmptyString l.

Lemma concat_strings_app l l' : concat_strings (l ++ l') = concat_strings l +:+ concat_strings l'.
Proof. induction l as [|x l IH]; simpl; [done|]. by rewrite IH, append_assoc. Qed.

Lemma hashes_buffer_spec s prefs : hashes_buffer s prefs = concat_strings (hashes_spec s prefs).
Proof.
  unfold hashes_buffer, hashes_spec.
  assert (forall b, foldl (fun b pref => foldl (fun b suf => b +:+ (hex_encode pref +:+ hex_encode suf)) b
    (default [] (hashSuffixes s !! pref))) b prefs =
    b +:+ concat_strings (prefs ≫= fun pref => (fun suf => hex_encode (pref +:+ suf)) <$>
      default [] (hashSuffixes s !! pref))) as Hf; [|apply Hf].
  induction prefs as [|p prefs IH]; intros b; simpl; [by rewrite append_nil_r|].
  rewrite IH, foldl_append, concat_strings_app, append_assoc. f_equal. f_equal.
  induction (default [] (hashSuffixes s !! p)) as [|suf l IHl]; simpl; [done|].
  rewrite hex_encode_append. f_equal. exact IHl.
Qed.

Lemma hashes_count_spec s prefs : hashes_count s prefs = length (hashes_spec s prefs).
Proof.
  unfold hashes_count, hashes_spec.
  assert (forall n, foldl (fun l pref => (l + length (default [] (hashSuffixes s !! pref)))%nat) n prefs =
    (n + length (prefs ≫= fun pref => (fun suf => hex_encode (pref +:+ suf)) <$>
      default [] (hashSuffixes s !! pref)))%nat) as Hf; [|apply Hf].
  induction prefs as [|p prefs IH]; intros n; simpl; [lia|].
  rewrite IH, length_app, length_fmap, Nat.add_assoc. done.
Qed.

Lemma cut_hashes_spec pre l i :
  Forall (fun h => String.length h = hashEncLen) l -> String.length pre = (i * hashEncLen)%nat ->
  cut_hashes (pre +:+ concat_strings l) (length l) i = Ret l.
Proof.
  revert pre i. induction l as [|h l IH]; intros pre i Hl Hpre; [done|].
  apply Forall_cons in Hl as [Hh Hl]. simpl length. cbn [cut_hashes]. unfold str_slice.
  assert (String.length (pre +:+ concat_strings (h :: l)) =
    (i * hashEncLen + hashEncLen + String.length (concat_strings l))%nat) as Hlen.
  { simpl. rewrite !length_append. lia. }
  destruct ((_ <=? _)%nat && _) eqn:E.
  2:{ apply andb_false_iff in E. rewrite !Nat.leb_gt in E. unfold hashEncLen in *. lia. }
  replace ((i + 1) * hashEncLen - i * hashEncLen)%nat with hashEncLen by lia.
  rewrite <- Hpre, str_drop_append. simpl concat_strings. rewrite <- Hh, str_take_append. simpl.
  rewrite <- append_assoc, IH; [done|done|]. rewrite length_append. lia.
Qed.

Lemma Hashes_eq s prefs :
  storage_ok s -> Hashes s prefs = Ret (hashes_spec s prefs).
Proof.
  intros Hok. unfold Hashes. destruct prefs as [|p prefs]; [done|]. simpl Nat.eqb.
  rewrite hashes_buffer_spec, hashes_count_spec.
  apply (cut_hashes_spec EmptyString); [|done].
  apply Forall_forall. intros h Hh. unfold hashes_spec in Hh.
  apply list_elem_of_bind in Hh as (q & (suf & -> & Hsuf)%list_elem_of_fmap & _).
  destruct (hashSuffixes s !! q) as [l|] eqn:E; [|by apply elem_of_nil in Hsuf].
  destruct (Hok _ _ _ E Hsuf) as [Hp Hs]. rewrite length_hex_encode, length_append, Hp, Hs. done.
Qed.

(** C12. [Hashes] returns exactly the stored hashes that start with the requested
    prefixes, in the order of the prefixes and of the stored hashes, each as 64
    hexadecimal digits: writing all of them into one buffer and cutting it apart
    never mixes two hashes and never fails. *)
Theorem Hashes_correct s prefs :
  storage_ok s -> Hashes s prefs = Ret (hashes_spec s prefs).
Proof. apply Hashes_eq. Qed.

(** *** Resetting *)

Definition hosts (lines : list string) : list string := filter (fun l => is_host l = true) lines.

Lemma reset_lines_lookup lines next n p suf :
  suf ∈ default [] ((foldl reset_line (next, n) lines).1 !! p) <->
  suf ∈ default [] (next !! p) \/
  exists h, h ∈ hosts lines /\ pref_of (Sum256 h) = p /\ suf_of (Sum256 h) = suf.
Proof.
  revert next n. induction lines as [|l lines IH]; intros next n; simpl; [set_solver|].
  unfold hosts. destruct (is_host l) eqn:El.
  - assert (reset_line (next, n) l =
      (<[pref_of (Sum256 l) := default [] (next !! pref_of (Sum256 l)) ++ [suf_of (Sum256 l)]]> next,
       u64 (n + 1))) as -> by (unfold reset_line; by rewrite El).
    rewrite filter_cons_True by done. rewrite IH.
    destruct (decide (pref_of (Sum256 l) = p)) as [<-|Hne].
    + rewrite lookup_insert_eq. simpl. rewrite elem_of_app, list_elem_of_singleton. set_solver.
    + rewrite lookup_insert_ne by done. set_solver.
  - assert (reset_line (next, n) l = (next, n)) as -> by (unfold reset_line; by rewrite El).
    rewrite filter_cons_False by congruence. apply IH.
Qed.

Lemma pref_suf sum : pref_of sum +:+ suf_of sum = sum.
Proof. apply str_take_drop. Qed.

Lemma Reset_ok_storage s data n s' : Reset s data = (Ok n, s') -> storage_ok s'.
Proof.
  unfold Reset. destruct (scan_lines data) as [lines|]; [|done].
  destruct (foldl reset_line (∅, 0) lines) as [next m] eqn:E. intros [= <- <-].
  intros p l suf Hl Hsuf. simpl in Hl.
  pose proof (reset_lines_lookup lines ∅ 0 p suf) as Hiff. rewrite E in Hiff. simpl in Hiff.
  rewrite Hl, lookup_empty in Hiff. simpl in Hiff.
  destruct (proj1 Hiff Hsuf) as [Hin|(h & _ & <- & <-)]; [by apply elem_of_nil in Hin|].
  pose proof (sum_length h) as Hsum. split.
  - unfold pref_of. apply length_str_take. rewrite Hsum. unfold hashLen, PrefixLen. lia.
  - unfold suf_of. rewrite length_str_drop, Hsum. done.
Qed.

(** After a reset that succeeded, a host matches iff it has the same hash as
    one of the listed hosts, which are the lines that are neither empty nor
    comments; nothing from before is left.  In particular every listed host
    matches.  A reset that fails, because of a line that is too long, changes
    nothing. *)
Theorem Reset_Matches s data :
  match Reset s data with
  | (Ok n, s') => exists lines, scan_lines data = Ok lines /\
      forall host, Matches s' host = true <-> exists h, h ∈ hosts lines /\ Sum256 h = Sum256 host
  | (Err _, s') => s' = s /\ exists l, l ∈ raw_lines data /\ Z.of_nat MaxScanTokenSize <= len l
  end.
Proof.
  unfold Reset. destruct (scan_lines data) as [lines|err] eqn:Es.
  - destruct (foldl reset_line (∅, 0) lines) as [next n] eqn:E. exists lines. split; [done|].
    intros host. unfold Matches. simpl.
    pose proof (reset_lines_lookup lines ∅ 0 (pref_of (Sum256 host))) as Hl.
    rewrite E, lookup_empty in Hl. simpl in Hl.
    assert ((exists suf, suf ∈ default [] (next !! pref_of (Sum256 host)) /\
      pref_of (Sum256 host) +:+ suf = Sum256 host) <-> exists h, h ∈ hosts lines /\ Sum256 h = Sum256 host)
      as <-.
    { setoid_rewrite Hl. split.
      - intros (suf & [Hin|(h & Hh & Hp & Hs)] & Heq); [by apply elem_of_nil in Hin|].
        exists h. split; [done|]. rewrite <- (pref_suf (Sum256 h)), Hp, Hs. done.
      - intros (h & Hh & Heq). exists (suf_of (Sum256 host)). split; [|apply pref_suf].
        right. exists h. by rewrite Heq. }
    destruct (next !! pref_of (Sum256 host)) as [l|]; simpl.
    + rewrite existsb_elem. by setoid_rewrite bool_decide_eq_true.
    + split; [done|]. intros (suf & Hin & _). by apply elem_of_nil in Hin.
  - split; [done|]. unfold scan_lines in Es. case_match eqn:Ex; [|done].
    apply existsb_elem in Ex as (l & Hl & Hle). exists l. split; [done|]. by apply Z.leb_le.
Qed.

(** *** Hash queries *)

Lemma SplitByte_single s c : CountByte s c = 0%nat -> SplitByte s c = [s].
Proof.
  induction s as [|a s IH]; intros Hc; simpl in *; [done|].
  destruct (decide (a = c)); [lia|]. rewrite IH by lia. done.
Qed.

Lemma hex_encode_no_dot s : CountByte (hex_encode s) "."%char = 0%nat.
Proof.
  assert (forall n, 0 <= n < 16 -> hex_digit n <> "."%char) as Hd.
  { intros n Hn. unfold hex_digit. case_if; intros E'; apply (f_equal bval) in E';
      rewrite bval_byte_of in E' by lia; change (bval "."%char) with 46 in E'; lia. }
  induction s as [|c s IH]; [done|]. cbn [hex_encode CountByte].
  pose proof (bval_range c).
  assert (0 <= bval c / 16 < 16) by (split; [apply Z.div_pos|apply Z.div_lt_upper_bound]; lia).
  assert (0 <= bval c mod 16 < 16) by (apply Z.mod_pos_bound; lia).
  rewrite !decide_False by (by apply Hd). lia.
Qed.

(** The answer to a query for one hash prefix: the hashes of exactly the listed
    hosts with this prefix. *)
Lemma query_exact suffix s data n s' rest lines p :
  Reset s data = (Ok n, s') -> scan_lines data = Ok lines -> String.length p = PrefixLen ->
  exists hs, MatchByPrefix ((suffix, s') :: rest) (hex_encode p +:+ suffix) = Ret (Ok (hs, true)) /\
    forall h, h ∈ hs <-> exists host, host ∈ hosts lines /\ pref_of (Sum256 host) = p /\ h = hex_encode (Sum256 host).
Proof.
  intros Hr Hs Hp. pose proof (Reset_ok_storage _ _ _ _ Hr) as Hok. simpl. set (q := hex_encode p).
  assert (HasSuffix (q +:+ suffix) suffix = true) as -> by (apply HasSuffix_spec; eauto).
  rewrite TrimSuffix_append.
  assert (String.length q = PrefixEncLen) as Hq by (unfold q; by rewrite length_hex_encode, Hp).
  assert (prefixesFromStr q = Ok [p]) as ->.
  { unfold prefixesFromStr. rewrite bool_decide_eq_false_2 by (intros E; by rewrite E in Hq).
    rewrite SplitByte_single by apply hex_encode_no_dot. cbn [cut_prefixes].
    rewrite (proj2 (Nat.eqb_eq _ _) Hq). simpl.
    assert ({[q]} ∪ ∅ = ({[q]} : gset string)) as -> by set_solver. rewrite elements_singleton. simpl.
    unfold q. by rewrite hex_decode_encode. }
  rewrite Hashes_eq by done. simpl. eexists. split; [done|]. intros h. unfold hashes_spec. simpl.
  rewrite app_nil_r, list_elem_of_fmap. unfold Reset in Hr. rewrite Hs in Hr.
  destruct (foldl reset_line (∅, 0) lines) as [next m] eqn:E. injection Hr as <- <-. simpl.
  assert (forall suf, suf ∈ default [] (next !! p) <->
    exists h, h ∈ hosts lines /\ pref_of (Sum256 h) = p /\ suf_of (Sum256 h) = suf) as Hl.
  { intros suf. pose proof (reset_lines_lookup lines ∅ 0 p suf) as Hl. rewrite E, lookup_empty in Hl.
    simpl in Hl. rewrite Hl, elem_of_nil. tauto. }
  split.
  - intros (suf & -> & (host & Hh & <- & <-)%Hl). exists host. by rewrite pref_suf.
  - intros (host & Hh & <- & ->). exists (suf_of (Sum256 host)). rewrite pref_suf. split; [done|]. apply Hl. by exists host.
Qed.

(** A client that asks for the hash prefix of a listed host gets its full
    hash: for every line of the list, the query with the four hexadecimal digits
    of its hash under the storage's suffix matches, and the hash is among the
    returned ones. *)
Theorem query_finds_listed suffix s data n s' rest host :
  Reset s data = (Ok n, s') ->
  (exists lines, scan_lines data = Ok lines /\ host ∈ hosts lines) ->
  exists hs, MatchByPrefix ((suffix, s') :: rest) (hex_encode (pref_of (Sum256 host)) +:+ suffix) =
    Ret (Ok (hs, true)) /\ hex_encode (Sum256 host) ∈ hs.
Proof.
  intros Hr (lines & Hs & Hh).
  destruct (query_exact suffix s data n s' rest lines (pref_of (Sum256 host)) Hr Hs) as (hs & E & Hhs).
  - unfold pref_of. rewrite length_str_take; [done|]. rewrite sum_length. unfold hashLen, PrefixLen. lia.
  - exists hs. split; [done|]. apply Hhs. by exists host.
Qed.

End storage_facts.

(** ** Concrete inputs *)

(** A toy hash: the string padded to 32 bytes. *)
#[local] Instance toy_sha256 : Sha256 := fun s => str_take hashLen (s +:+ "................................").

#[local] Instance toy_sha256_spec : Sha256Spec.
Proof.
  intros s. unfold Sum256, toy_sha256. apply length_str_take. rewrite length_append.
  change (String.length "................................") with hashLen. lia.
Qed.

Definition toy_data : string :=
  "bad.example" +:+ String lf (String lf ("# comment" +:+ String lf ("worse.example" +:+ String cr (String lf EmptyString)))).

Definition toy_storage : Storage := (Reset {| hashSuffixes := ∅ |} toy_data).2.

Lemma toy_reset : Reset {| hashSuffixes := ∅ |} toy_data = (Ok 2, toy_storage).
Proof. vm_compute. reflexivity. Qed.

Lemma Hashes_correct_witness :
  Hashes toy_storage ["ba"%string] = Ret [hex_encode (Sum256 "bad.example")].
Proof.
  rewrite (Hashes_correct toy_storage ["ba"%string] (Reset_ok_storage _ _ _ _ toy_reset)).
  vm_compute. reflexivity.
Defined.

Example toy_matches :
  Matches toy_storage "worse.example" = true /\ Matches toy_storage "good.example" = false.
Proof. split; vm_compute; reflexivity. Qed.

Lemma query_finds_listed_witness :
  exists hs, MatchByPrefix [(".sb.example"%string, toy_storage)]
    (hex_encode (pref_of (Sum256 "bad.example")) +:+ ".sb.example") = Ret (Ok (hs, true)) /\
    hex_encode (Sum256 "bad.example") ∈ hs.
Proof.
  apply (query_finds_listed ".sb.example"%string _ _ _ _ [] "bad.example"%string toy_reset).
  eexists. split; [vm_compute; reflexivity|]. vm_compute. constructor.
Defined.

Lemma Reset_Matches_witness :
  exists lines, scan_lines toy_data = Ok lines /\
    forall host, Matches toy_storage host = true <-> exists h, h ∈ hosts lines /\ Sum256 h = Sum256 host.
Proof.
  pose proof (Reset_Matches {| hashSuffixes := ∅ |} toy_data) as H.
  rewrite toy_reset in H. exact H.
Defined.
