(* ===== verification/DnsMsg.v ===== *)
(** DNS messages: the message type of package miekg/dns as far as the modelled
    code uses it, and internal/dnsmsg: the constructor of blocked and rewritten
    responses (constructor.go, response.go, rrconstructor.go, svcbmsg.go,
    blockingmode.go) and the inspection of messages (dnsmsg.go).

    The functions of miekg/dns and of golibs that the code calls are parameters
    ([MiekgDNS], [IPConv], [SvcbParsers]) with their documented behaviour.  The
    pooled cloner only provides memory for records; the records are values here. *)

From S2P Require Import Prelude GoStd NetIP.

Open Scope Z_scope.

(** ** The message type *)

Definition TypeNone : Z := 0.
Definition TypeA : Z := 1.
Definition TypeCNAME : Z := 5.
Definition TypeSOA : Z := 6.
Definition TypePTR : Z := 12.
Definition TypeMX : Z := 15.
Definition TypeTXT : Z := 16.
Definition TypeAAAA : Z := 28.
Definition TypeSRV : Z := 33.
Definition TypeOPT : Z := 41.
Definition TypeSVCB : Z := 64.
Definition TypeHTTPS : Z := 65.
Definition TypeANY : Z := 255.

Definition ClassINET : Z := 1.
Definition ClassCHAOS : Z := 3.

Definition RcodeSuccess : Z := 0.
Definition RcodeFormatError : Z := 1.
Definition RcodeServerFailure : Z := 2.
Definition RcodeNameError : Z := 3.
Definition RcodeRefused : Z := 5.

Definition ExtendedErrorCodeFiltered : Z := 17.

Record Question := { q_Name : string; q_Qtype : Z; q_Qclass : Z }.

Record RR_Header := { rh_Name : string; rh_Rrtype : Z; rh_Class : Z; rh_Ttl : Z }.

(** The options of an OPT record that the code looks at, and any other one. *)
Inductive EDNSOption :=
  | EDNS0_EDE (InfoCode : Z) (ExtraText : string)
  | EDNS0_SUBNET (Family SourceNetmask SourceScope : Z) (Address : string)
  | EDNS0_Other (code : Z) (data : string).

Inductive SVCBKeyValue :=
  | SVCBAlpn (alpn : list string)
  | SVCBDoHPath (template : string)
  | SVCBECHConfig (ech : string)
  | SVCBIPv4Hint (hint : list Addr)
  | SVCBIPv6Hint (hint : list Addr)
  | SVCBMandatory (code : list Z)
  | SVCBNoDefaultAlpn
  | SVCBPort (port : Z).

Inductive RRData :=
  | RD_A (ip : Addr)
  | RD_AAAA (ip : Addr)
  | RD_CNAME (target : string)
  | RD_MX (mx : string) (preference : Z)
  | RD_PTR (ptr : string)
  | RD_SRV (target : string) (priority weight port : Z)
  | RD_TXT (txt : list string)
  | RD_SOA (ns mbox : string) (serial refresh retry expire minttl : Z)
  | RD_SVCB (priority : Z) (target : string) (value : list SVCBKeyValue)
  | RD_HTTPS (priority : Z) (target : string) (value : list SVCBKeyValue)
  | RD_OPT (option : list EDNSOption)
  | RD_Other (data : string).

Record RR := { rr_Hdr : RR_Header; rr_Data : RRData }.

Record Msg := {
  m_Id : Z;
  m_Response : bool;
  m_RecursionDesired : bool;
  m_RecursionAvailable : bool;
  m_AuthenticatedData : bool;
  m_CheckingDisabled : bool;
  m_Truncated : bool;
  m_Opcode : Z;
  m_Rcode : Z;
  m_Compress : bool;
  m_Question : list Question;
  m_Answer : list RR;
  m_Ns : list RR;
  m_Extra : list RR;
}.

(** Assignments to fields. *)
Definition set_Id (m : Msg) (x : Z) : Msg := {|
  m_Id := x; m_Response := m_Response m; m_RecursionDesired := m_RecursionDesired m;
  m_RecursionAvailable := m_RecursionAvailable m; m_AuthenticatedData := m_AuthenticatedData m;
  m_CheckingDisabled := m_CheckingDisabled m; m_Truncated := m_Truncated m; m_Opcode := m_Opcode m; m_Rcode := m_Rcode m; m_Compress := m_Compress m;
  m_Question := m_Question m; m_Answer := m_Answer m; m_Ns := m_Ns m; m_Extra := m_Extra m |}.
Definition set_AuthenticatedData (m : Msg) (x : bool) : Msg := {|
  m_Id := m_Id m; m_Response := m_Response m; m_RecursionDesired := m_RecursionDesired m;
  m_RecursionAvailable := m_RecursionAvailable m; m_AuthenticatedData := x;
  m_CheckingDisabled := m_CheckingDisabled m; m_Truncated := m_Truncated m; m_Opcode := m_Opcode m; m_Rcode := m_Rcode m; m_Compress := m_Compress m;
  m_Question := m_Question m; m_Answer := m_Answer m; m_Ns := m_Ns m; m_Extra := m_Extra m |}.
Definition set_Rcode (m : Msg) (x : Z) : Msg := {|
  m_Id := m_Id m; m_Response := m_Response m; m_RecursionDesired := m_RecursionDesired m;
  m_RecursionAvailable := m_RecursionAvailable m; m_AuthenticatedData := m_AuthenticatedData m;
  m_CheckingDisabled := m_CheckingDisabled m; m_Truncated := m_Truncated m; m_Opcode := m_Opcode m; m_Rcode := x; m_Compress := m_Compress m;
  m_Question := m_Question m; m_Answer := m_Answer m; m_Ns := m_Ns m; m_Extra := m_Extra m |}.
Definition set_Compress (m : Msg) (x : bool) : Msg := {|
  m_Id := m_Id m; m_Response := m_Response m; m_RecursionDesired := m_RecursionDesired m;
  m_RecursionAvailable := m_RecursionAvailable m; m_AuthenticatedData := m_AuthenticatedData m;
  m_CheckingDisabled := m_CheckingDisabled m; m_Truncated := m_Truncated m; m_Opcode := m_Opcode m; m_Rcode := m_Rcode m; m_Compress := x;
  m_Question := m_Question m; m_Answer := m_Answer m; m_Ns := m_Ns m; m_Extra := m_Extra m |}.
Definition set_Question (m : Msg) (x : list Question) : Msg := {|
  m_Id := m_Id m; m_Response := m_Response m; m_RecursionDesired := m_RecursionDesired m;
  m_RecursionAvailable := m_RecursionAvailable m; m_AuthenticatedData := m_AuthenticatedData m;
  m_CheckingDisabled := m_CheckingDisabled m; m_Truncated := m_Truncated m; m_Opcode := m_Opcode m; m_Rcode := m_Rcode m; m_Compress := m_Compress m;
  m_Question := x; m_Answer := m_Answer m; m_Ns := m_Ns m; m_Extra := m_Extra m |}.
Definition set_Answer (m : Msg) (x : list RR) : Msg := {|
  m_Id := m_Id m; m_Response := m_Response m; m_RecursionDesired := m_RecursionDesired m;
  m_RecursionAvailable := m_RecursionAvailable m; m_AuthenticatedData := m_AuthenticatedData m;
  m_CheckingDisabled := m_CheckingDisabled m; m_Truncated := m_Truncated m; m_Opcode := m_Opcode m; m_Rcode := m_Rcode m; m_Compress := m_Compress m;
  m_Question := m_Question m; m_Answer := x; m_Ns := m_Ns m; m_Extra := m_Extra m |}.
Definition set_Ns (m : Msg) (x : list RR) : Msg := {|
  m_Id := m_Id m; m_Response := m_Response m; m_RecursionDesired := m_RecursionDesired m;
  m_RecursionAvailable := m_RecursionAvailable m; m_AuthenticatedData := m_AuthenticatedData m;
  m_CheckingDisabled := m_CheckingDisabled m; m_Truncated := m_Truncated m; m_Opcode := m_Opcode m; m_Rcode := m_Rcode m; m_Compress := m_Compress m;
  m_Question := m_Question m; m_Answer := m_Answer m; m_Ns := x; m_Extra := m_Extra m |}.
Definition set_Extra (m : Msg) (x : list RR) : Msg := {|
  m_Id := m_Id m; m_Response := m_Response m; m_RecursionDesired := m_RecursionDesired m;
  m_RecursionAvailable := m_RecursionAvailable m; m_AuthenticatedData := m_AuthenticatedData m;
  m_CheckingDisabled := m_CheckingDisabled m; m_Truncated := m_Truncated m; m_Opcode := m_Opcode m; m_Rcode := m_Rcode m; m_Compress := m_Compress m;
  m_Question := m_Question m; m_Answer := m_Answer m; m_Ns := m_Ns m; m_Extra := x |}.

Definition is_OPT (rr : RR) : bool := match rr_Data rr with RD_OPT _ => true | _ => false end.

(** ** Parameters *)

(** [find_OPT] is the position of the record that [Msg.IsEdns0] returns in the
    additional section. *)
Class MiekgDNS := {
  SetReply : Msg -> Msg -> Msg;
  find_OPT : list RR -> option nat;
  Fqdn : string -> string;
}.

Class MiekgDNSSpec `{MiekgDNS} : Prop := {
  reply_Id m req : m_Id (SetReply m req) = m_Id req;
  reply_Response m req : m_Response (SetReply m req) = true;
  reply_Rcode m req : m_Rcode (SetReply m req) = RcodeSuccess;
  reply_Question m req : m_Question (SetReply m req) = take 1 (m_Question req) \/
    (m_Question req = [] /\ m_Question (SetReply m req) = m_Question m);
  reply_AuthenticatedData m req : m_AuthenticatedData (SetReply m req) = m_AuthenticatedData m;
  reply_RecursionAvailable m req : m_RecursionAvailable (SetReply m req) = m_RecursionAvailable m;
  reply_Truncated m req : m_Truncated (SetReply m req) = m_Truncated m;
  reply_Answer m req : m_Answer (SetReply m req) = m_Answer m;
  reply_Ns m req : m_Ns (SetReply m req) = m_Ns m;
  reply_Extra m req : m_Extra (SetReply m req) = m_Extra m;
  find_OPT_Some l i : find_OPT l = Some i -> exists rr, l !! i = Some rr /\ is_OPT rr = true;
  find_OPT_None l : find_OPT l = None -> forall rr, rr ∈ l -> is_OPT rr = false;
  (** only the types of the records matter *)
  find_OPT_ext l l' : is_OPT <$> l = is_OPT <$> l' -> find_OPT l = find_OPT l';
}.

(** [netutil.IPToAddr]: the address of a byte slice for an address family. *)
Class IPConv := IPToAddr : string -> Z -> result error Addr.

Class SvcbParsers := {
  base64_decode : string -> option string;
  ParseIP : string -> option Addr;
  ParseUint16 : string -> option Z;
}.

(** ** The OPT record

    Its class field is the UDP payload size, and bit 15 of its TTL field the DO
    flag (RFC 6891, sections 6.1.2 and 6.1.3). *)

Definition UDPSize (rr : RR) : Z := rh_Class (rr_Hdr rr).
Definition Do (rr : RR) : bool := Z.testbit (rh_Ttl (rr_Hdr rr)) 15.

Definition opt_options (rr : RR) : list EDNSOption :=
  match rr_Data rr with RD_OPT o => o | _ => [] end.

Section constructor.
Context `{MiekgDNS} `{SvcbParsers}.

(** [msg.IsEdns0()]. *)
Definition IsEdns0 (m : Msg) : option RR := find_OPT (m_Extra m) ≫= (fun i => m_Extra m !! i).

(** ** rrconstructor.go *)

Definition newOPT (udpSize : Z) (doBit : bool) : RR := {|
  rr_Hdr := {| rh_Name := "."; rh_Rrtype := TypeOPT; rh_Class := udpSize;
               rh_Ttl := if doBit then Z.shiftl 1 15 else 0 |};
  rr_Data := RD_OPT [];
|}.

(** ** blockingmode.go *)

(** [BlockingModeOther] stands for any other implementation of the interface. *)
Inductive BlockingMode :=
  | BlockingModeCustomIP (IPv4 IPv6 : list Addr)
  | BlockingModeNullIP
  | BlockingModeNXDOMAIN
  | BlockingModeREFUSED
  | BlockingModeOther.

(** ** constructor.go *)

(** [fltRespTTL] is in nanoseconds. *)
Record Constructor := {
  blockingMode : BlockingMode;
  sde : string;
  fltRespTTL : Z;
  edeEnabled : bool;
}.

Definition MaxTXTStringLen : Z := 255.

(** [uint32(c.fltRespTTL.Seconds())], for durations below 2^32 seconds. *)
Definition ttl_seconds (c : Constructor) : Z := (fltRespTTL c / 1000000000) mod 2 ^ 32.

Definition newHdrWithClass (c : Constructor) (fqdn : string) (rrType cl : Z) : RR_Header :=
  {| rh_Name := fqdn; rh_Rrtype := rrType; rh_Ttl := ttl_seconds c; rh_Class := cl |}.

Definition newHdr (c : Constructor) (req : Msg) (rrType : Z) : outcome RR_Header :=
  let! q := index (m_Question req) 0 in
  Ret (newHdrWithClass c (q_Name q) rrType ClassINET).

(** The body of the loop that cuts [str] into strings of at most 255 bytes. *)
Definition debug_chunk (str : string) (strNum : Z) (newStr : list string) (i : nat)
    : outcome (list string) :=
  let start := Z.of_nat i * MaxTXTStringLen in
  let! cutStr :=
    if Z.of_nat i =? strNum - 1 then
      if start <=? len str then Ret (str_drop (Z.to_nat start) str)
      else Panic "slice bounds out of range"
    else
      if start + MaxTXTStringLen <=? len str
      then Ret (str_take (Z.to_nat MaxTXTStringLen) (str_drop (Z.to_nat start) str))
      else Panic "slice bounds out of range" in
  Ret (newStr ++ [cutStr]).

Definition debug_chunks (str : string) : outcome (list string) :=
  let strNum := (len str + MaxTXTStringLen - 1) / MaxTXTStringLen in
  for_each (debug_chunk str strNum) [] (seq 0 (Z.to_nat strNum)).

Definition AppendDebugExtra (c : Constructor) (req resp : Msg) (str : string)
    : outcome (result error Msg) :=
  let! q := index (m_Question req) 0 in
  if negb (q_Qtype q =? TypeTXT) then Ret (Err (ErrConst "bad qtype for txt resp: %s"))
  else
    let hdr := newHdrWithClass c (q_Name q) TypeTXT ClassCHAOS in
    let! txt := if len str <=? MaxTXTStringLen then Ret [str] else debug_chunks str in
    Ret (Ok (set_Extra resp (m_Extra resp ++ [{| rr_Hdr := hdr; rr_Data := RD_TXT txt |}]))).

Definition NewAnswerA (c : Constructor) (fqdn : string) (ip : Addr) : result error RR :=
  let mk ip := {| rr_Hdr := newHdrWithClass c fqdn TypeA ClassINET; rr_Data := RD_A ip |} in
  if bool_decide (ip = AddrZero) then Ok (mk (Addr4 0))
  else if negb (Is4 ip) then Err (ErrConst "bad ipv4: %s") else Ok (mk ip).

Definition NewAnswerAAAA (c : Constructor) (fqdn : string) (ip : Addr) : result error RR :=
  let mk ip := {| rr_Hdr := newHdrWithClass c fqdn TypeAAAA ClassINET; rr_Data := RD_AAAA ip |} in
  if bool_decide (ip = AddrZero) then Ok (mk (Addr6 0 EmptyString))
  else if negb (Is6 ip) then Err (ErrConst "bad ipv6: %s") else Ok (mk ip).

Definition with_hdr (c : Constructor) (req : Msg) (rrType : Z) (d : RRData) : outcome RR :=
  let! hdr := newHdr c req rrType in Ret {| rr_Hdr := hdr; rr_Data := d |}.

Definition NewAnswerCNAME (c : Constructor) (req : Msg) (target : string) : outcome RR :=
  with_hdr c req TypeCNAME (RD_CNAME (Fqdn target)).
Definition NewAnswerMX (c : Constructor) (req : Msg) (exchange : string) (preference : Z) : outcome RR :=
  with_hdr c req TypeMX (RD_MX (Fqdn exchange) preference).
Definition NewAnswerPTR (c : Constructor) (req : Msg) (ptr : string) : outcome RR :=
  with_hdr c req TypePTR (RD_PTR (Fqdn ptr)).
Definition NewAnswerSRV (c : Constructor) (req : Msg) (target : string) (priority weight port : Z)
    : outcome RR :=
  with_hdr c req TypeSRV (RD_SRV (Fqdn target) priority weight port).

Definition NewAnswerTXT (c : Constructor) (req : Msg) (strs : list string) : outcome (result error RR) :=
  let! q := index (m_Question req) 0 in
  if negb (q_Qtype q =? TypeTXT) then Ret (Err (ErrConst "bad qtype for txt resp: %s"))
  else if existsb (fun s => MaxTXTStringLen <? len s) strs
  then Ret (Err (ErrConst "txt string at index %d: too long: got %d bytes, max %d"))
  else let! rr := with_hdr c req TypeTXT (RD_TXT strs) in Ret (Ok rr).

Definition newSOARecords (c : Constructor) (req : Msg) : list RR :=
  let zone := match m_Question req with q :: _ => q_Name q | [] => EmptyString end in
  [{| rr_Hdr := newHdrWithClass c zone TypeSOA ClassINET;
      rr_Data := RD_SOA "fake-for-negative-caching.adguard.com."
        ("hostmaster." +:+ match zone with
                           | String ch _ => if bool_decide (ch = "."%char) then EmptyString else zone
                           | EmptyString => EmptyString
                           end)
        100500 1800 900 604800 86400 |}].

(** ** response.go *)

Definition empty_msg : Msg := {|
  m_Id := 0; m_Response := false; m_RecursionDesired := false; m_RecursionAvailable := false;
  m_AuthenticatedData := false; m_CheckingDisabled := false; m_Truncated := false; m_Opcode := 0; m_Rcode := 0; m_Compress := false;
  m_Question := []; m_Answer := []; m_Ns := []; m_Extra := [];
|}.

Definition NewResp (req : Msg) : Msg :=
  SetReply {| m_Id := 0; m_Response := false; m_RecursionDesired := false; m_RecursionAvailable := true;
              m_AuthenticatedData := false; m_CheckingDisabled := false; m_Truncated := false; m_Opcode := 0; m_Rcode := 0; m_Compress := true;
              m_Question := []; m_Answer := []; m_Ns := []; m_Extra := [] |} req.

(** The loops of [newMsgA] and [newMsgAAAA]. *)
Fixpoint append_answers (new : string -> Addr -> result error RR) (req msg : Msg) (ips : list Addr)
    : outcome (result error Msg) :=
  match ips with
  | [] => Ret (Ok msg)
  | ip :: ips =>
      let! q := index (m_Question req) 0 in
      match new (q_Name q) ip with
      | Err err => Ret (Err (ErrWrap "bad ip at idx %d: %w" err))
      | Ok ans => append_answers new req (set_Answer msg (m_Answer msg ++ [ans])) ips
      end
  end.

Definition newMsgA (c : Constructor) (req : Msg) (ips : list Addr) : outcome (result error Msg) :=
  append_answers (NewAnswerA c) req (NewResp req) ips.
Definition newMsgAAAA (c : Constructor) (req : Msg) (ips : list Addr) : outcome (result error Msg) :=
  append_answers (NewAnswerAAAA c) req (NewResp req) ips.

Definition findEDE (opt : RR) : option (Z * string) :=
  foldr (fun o r => match o with EDNS0_EDE code text => Some (code, text) | _ => r end)
    None (opt_options opt).

Definition sdeForReqOpt (c : Constructor) (reqOpt : RR) : string :=
  match findEDE reqOpt with
  | Some (0, EmptyString) => sde c
  | _ => EmptyString
  end.

(** [respOpt.Option = append(respOpt.Option, o)] for the record at [i]. *)
Definition append_option (l : list RR) (i : nat) (o : EDNSOption) : list RR :=
  alter (fun rr => {| rr_Hdr := rr_Hdr rr; rr_Data := RD_OPT (opt_options rr ++ [o]) |}) i l.

Definition AddEDE (c : Constructor) (req resp : Msg) (code : Z) : Msg :=
  if negb (edeEnabled c) then resp
  else match IsEdns0 req with
  | None => resp
  | Some reqOpt =>
      let ede := EDNS0_EDE code (sdeForReqOpt c reqOpt) in
      match find_OPT (m_Extra resp) with
      | None =>
          set_Extra resp (append_option (m_Extra resp ++ [newOPT (UDPSize reqOpt) (Do reqOpt)])
            (length (m_Extra resp)) ede)
      | Some i =>
          if existsb (fun rr => bool_decide (is_Some (findEDE rr))) (option_list (m_Extra resp !! i))
          then resp else set_Extra resp (append_option (m_Extra resp) i ede)
      end
  end.

Definition NewRespRCode (c : Constructor) (req : Msg) (rc : Z) : Msg :=
  set_Ns (set_Rcode (NewResp req) rc) (newSOARecords c req).

Definition NewBlockedRespRCode (c : Constructor) (req : Msg) (rc : Z) : Msg :=
  AddEDE c req (set_Rcode (NewResp req) rc) ExtendedErrorCodeFiltered.

Definition NewRespTXT (c : Constructor) (req : Msg) (strs : list string) : outcome (result error Msg) :=
  let! r := NewAnswerTXT c req strs in
  Ret (let? ans := r in
       let msg := NewResp req in
       Ok (set_Answer msg (m_Answer msg ++ [ans]))).

Definition NewRespIP (c : Constructor) (req : Msg) (ips : list Addr) : outcome (result error Msg) :=
  let! q := index (m_Question req) 0 in
  if q_Qtype q =? TypeA then newMsgA c req ips
  else if q_Qtype q =? TypeAAAA then newMsgAAAA c req ips
  else Ret (Err (ErrConst "bad qtype for a or aaaa resp: %d")).

Definition NewBlockedRespIP (c : Constructor) (req : Msg) (ips : list Addr) : outcome (result error Msg) :=
  let! q := index (m_Question req) 0 in
  if q_Qtype q =? TypeA then newMsgA c req ips
  else if q_Qtype q =? TypeAAAA then newMsgAAAA c req ips
  else Ret (Err (ErrConst "bad qtype for an ip resp: %d")).

Definition NewBlockedNullIPResp (c : Constructor) (req : Msg) : outcome (result error Msg) :=
  let! q := index (m_Question req) 0 in
  let! r := if q_Qtype q =? TypeA then newMsgA c req [AddrZero]
            else if q_Qtype q =? TypeAAAA then newMsgAAAA c req [AddrZero]
            else Ret (Err (ErrConst "bad qtype for an ip resp: %d")) in
  Ret (let? resp := r in Ok (AddEDE c req resp ExtendedErrorCodeFiltered)).

(** A blocked response without answers and with the SOA record. *)
Definition blocked_soa (c : Constructor) (req : Msg) (rc : Z) : Msg :=
  set_Ns (NewBlockedRespRCode c req rc) (newSOARecords c req).

Definition newBlockedCustomIPResp (c : Constructor) (req : Msg) (IPv4 IPv6 : list Addr)
    : outcome (result error Msg) :=
  let! q := index (m_Question req) 0 in
  if (q_Qtype q =? TypeA) && (0 <? Z.of_nat (length IPv4)) then NewBlockedRespIP c req IPv4
  else if (q_Qtype q =? TypeAAAA) && (0 <? Z.of_nat (length IPv6)) then NewBlockedRespIP c req IPv6
  else Ret (Ok (blocked_soa c req RcodeSuccess)).

Definition NewBlockedResp (c : Constructor) (req : Msg) (mode : option BlockingMode)
    : outcome (result error Msg) :=
  match default (blockingMode c) mode with
  | BlockingModeCustomIP IPv4 IPv6 => newBlockedCustomIPResp c req IPv4 IPv6
  | BlockingModeNullIP =>
      let! q := index (m_Question req) 0 in
      if (q_Qtype q =? TypeA) || (q_Qtype q =? TypeAAAA) then NewBlockedNullIPResp c req
      else Ret (Ok (blocked_soa c req RcodeSuccess))
  | BlockingModeNXDOMAIN => Ret (Ok (blocked_soa c req RcodeNameError))
  | BlockingModeREFUSED => Ret (Ok (blocked_soa c req RcodeRefused))
  | BlockingModeOther => Panic "unexpected type %T"
  end.

(** ** svcbmsg.go *)

Definition strToSVCBKey (s : string) : option Z :=
  if bool_decide (s = "mandatory") then Some 0
  else if bool_decide (s = "alpn") then Some 1
  else if bool_decide (s = "no-default-alpn") then Some 2
  else if bool_decide (s = "port") then Some 3
  else if bool_decide (s = "ipv4hint") then Some 4
  else if bool_decide (s = "ech") then Some 5
  else if bool_decide (s = "ipv6hint") then Some 6
  else if bool_decide (s = "dohpath") then Some 7
  else None.

(** An IPv4 hint must have a four-byte form; an IPv4 address and an IPv4-mapped
    one have it. *)
Definition To4 (ip : Addr) : bool :=
  match ip with
  | Addr4 _ => true
  | Addr6 ip _ => ip / 2 ^ 32 =? 65535
  | AddrZero => false
  end.

Definition svcbKeyHandlers (key valStr : string) : option SVCBKeyValue :=
  if bool_decide (key = "alpn") then Some (SVCBAlpn [valStr])
  else if bool_decide (key = "dohpath") then Some (SVCBDoHPath valStr)
  else if bool_decide (key = "ech") then SVCBECHConfig <$> base64_decode valStr
  else if bool_decide (key = "ipv4hint") then
    ip ← ParseIP valStr; if To4 ip then Some (SVCBIPv4Hint [ip]) else None
  else if bool_decide (key = "ipv6hint") then ip ← ParseIP valStr; Some (SVCBIPv6Hint [ip])
  else if bool_decide (key = "mandatory") then
    code ← strToSVCBKey valStr; Some (SVCBMandatory [code])
  else if bool_decide (key = "no-default-alpn") then Some SVCBNoDefaultAlpn
  else if bool_decide (key = "port") then SVCBPort <$> ParseUint16 valStr
  else None.

(** [params] lists the parameters in the order in which the map is ranged
    over. *)
Definition svcb_values (params : list (string * string)) : list SVCBKeyValue :=
  omap (fun '(k, v) => svcbKeyHandlers k v) params.

Definition NewAnswerSVCB (c : Constructor) (req : Msg) (priority : Z) (target : string)
    (params : list (string * string)) : outcome RR :=
  with_hdr c req TypeSVCB (RD_SVCB priority (Fqdn target) (svcb_values params)).

Definition NewAnswerHTTPS (c : Constructor) (req : Msg) (priority : Z) (target : string)
    (params : list (string * string)) : outcome RR :=
  with_hdr c req TypeHTTPS (RD_HTTPS priority (Fqdn target) (svcb_values params)).

End constructor.

(** ** dnsmsg.go *)

Definition MaxUint32 : Z := 2 ^ 32 - 1.
Definition ServFailMaxCacheTTL : Z := 30.
Definition AddrFamilyIPv4 : Z := 1.
Definition AddrFamilyIPv6 : Z := 2.

Definition IsDO `{MiekgDNS} (msg : Msg) : bool :=
  match IsEdns0 msg with Some opt => Do opt | None => false end.

(** The zero [netip.Prefix]; its bit length is -1, as for an invalid prefix
    with the zero address. *)
Definition prefix_zero : Prefix := {| p_ip := AddrZero; p_bits := -1 |}.

Definition Masked (p : Prefix) : Prefix := default prefix_zero (addr_prefix (p_ip p) (p_bits p)).

Definition ecsData `{IPConv} (Family SourceNetmask SourceScope : Z) (Address : string)
    : result error (Prefix * Z) :=
  if negb (Family =? AddrFamilyIPv4) && negb (Family =? AddrFamilyIPv6)
  then Err (ErrConst "unsupported addr family number %d")
  else match IPToAddr Address Family with
  | Err err => Err (ErrWrap "bad ecs ip addr: %w" err)
  | Ok ip =>
      let subnet := PrefixFrom ip SourceNetmask in
      if negb (prefix_valid subnet) then Err (ErrConst "bad src netmask %d for addr family %s")
      else if negb (bool_decide (Masked subnet = subnet))
      then Err (ErrConst "ip %s has non-zero bits beyond prefix %d")
      else Ok (subnet, SourceScope)
  end.

(** The loop over the options. *)
Fixpoint ecs_options `{IPConv} (opts : list EDNSOption) : result error (Prefix * Z) :=
  match opts with
  | [] => Ok (prefix_zero, 0)
  | EDNS0_SUBNET fam mask scope addr :: opts =>
      match ecsData fam mask scope addr with
      | Err err => Err (ErrWrap "bad ecs: %s" err)
      | Ok (subnet, scope) =>
          if negb (bool_decide (subnet = prefix_zero)) then Ok (subnet, scope) else ecs_options opts
      end
  | _ :: opts => ecs_options opts
  end.

Definition ECSFromMsg `{MiekgDNS} `{IPConv} (msg : Msg) : result error (Prefix * Z) :=
  match IsEdns0 msg with
  | None => Ok (prefix_zero, 0)
  | Some opt => ecs_options (opt_options opt)
  end.

Definition with_Ttl (rr : RR) (ttl : Z) : RR := {|
  rr_Hdr := {| rh_Name := rh_Name (rr_Hdr rr); rh_Rrtype := rh_Rrtype (rr_Hdr rr);
               rh_Class := rh_Class (rr_Hdr rr); rh_Ttl := ttl |};
  rr_Data := rr_Data rr;
|}.

Definition SetMinTTL (r : Msg) (minTTL : Z) : Msg :=
  set_Answer r ((fun rr => with_Ttl rr (Z.max (rh_Ttl (rr_Hdr rr)) minTTL)) <$> m_Answer r).

Definition getTTLIfLower (r : RR) (ttl : Z) : Z :=
  match rr_Data r with
  | RD_OPT _ => ttl
  | RD_SOA _ _ _ _ _ _ minttl =>
      Z.min (rh_Ttl (rr_Hdr r)) (if (0 <? minttl) && (minttl <? ttl) then minttl else ttl)
  | _ => Z.min (rh_Ttl (rr_Hdr r)) ttl
  end.

(** The nested loops; [None] is the early return of zero. *)
Fixpoint lowest_ttl (rrs : list RR) (ttl : Z) : option Z :=
  match rrs with
  | [] => Some ttl
  | rr :: rrs =>
      let ttl := getTTLIfLower rr ttl in
      if ttl =? 0 then None else lowest_ttl rrs ttl
  end.

Definition FindLowestTTL (msg : Msg) : Z :=
  match lowest_ttl (m_Answer msg ++ m_Ns msg ++ m_Extra msg) MaxUint32 with
  | None => 0
  | Some ttl =>
      if (m_Rcode msg =? RcodeServerFailure) && (ServFailMaxCacheTTL <? ttl) then ServFailMaxCacheTTL
      else if ttl =? MaxUint32 then 0
      else ttl
  end.

(** * Facts *)

(** ** TTLs *)

(** The lifetime of a record for caching; none for an OPT record. *)
Definition effective_ttl (rr : RR) : option Z :=
  match rr_Data rr with
  | RD_OPT _ => None
  | RD_SOA _ _ _ _ _ _ minttl =>
      Some (if 0 <? minttl then Z.min (rh_Ttl (rr_Hdr rr)) minttl else rh_Ttl (rr_Hdr rr))
  | _ => Some (rh_Ttl (rr_Hdr rr))
  end.

Definition effective_ttls (msg : Msg) : list Z :=
  omap effective_ttl (m_Answer msg ++ m_Ns msg ++ m_Extra msg).

Definition min_list (x : Z) (l : list Z) : Z := foldr Z.min x l.

Lemma getTTLIfLower_effective rr ttl :
  getTTLIfLower rr ttl = match effective_ttl rr with Some t => Z.min t ttl | None => ttl end.
Proof.
  unfold getTTLIfLower, effective_ttl. destruct (rr_Data rr); try done.
  destruct (Z.ltb_spec 0 minttl); simpl; [|lia]. destruct (Z.ltb_spec minttl ttl); lia.
Qed.

Lemma min_list_min t x l : min_list (Z.min t x) l = Z.min t (min_list x l).
Proof. induction l as [|y l IH]; simpl; [done|]. rewrite IH. lia. Qed.

Lemma min_list_nonneg x l : 0 <= x -> Forall (fun t => 0 <= t) l -> 0 <= min_list x l.
Proof. intros Hx. induction 1; simpl; lia. Qed.

Lemma min_list_le_init x l : min_list x l <= x.
Proof. induction l; simpl; lia. Qed.

Lemma lowest_ttl_spec rrs ttl :
  0 < ttl -> Forall (fun t => 0 <= t) (omap effective_ttl rrs) ->
  default 0 (lowest_ttl rrs ttl) = min_list ttl (omap effective_ttl rrs) /\
  (lowest_ttl rrs ttl = None -> min_list ttl (omap effective_ttl rrs) = 0).
Proof.
  revert ttl. induction rrs as [|rr rrs IH]; intros ttl Httl Hall; simpl; [done|].
  rewrite getTTLIfLower_effective. simpl in Hall. destruct (effective_ttl rr) as [t|] eqn:Et; simpl.
  - apply Forall_cons in Hall as [Ht Hall]. rewrite <- min_list_min. case_if.
    + change (list_omap RR Z effective_ttl rrs) with (omap effective_ttl rrs).
      pose proof (min_list_le_init (Z.min t ttl) (omap effective_ttl rrs)).
      pose proof (min_list_nonneg (Z.min t ttl) (omap effective_ttl rrs) ltac:(lia) Hall).
      simpl default. split; [lia|intros _; lia].
    + apply IH; [lia|done].
  - case_if; [lia|]. by apply IH.
Qed.

(** [FindLowestTTL] is the minimum of the lifetimes of all records of the
    message: OPT records do not count, an SOA record counts with the lower one
    of its own TTL and its MINIMUM field (RFC 2308), a message without records
    has a lifetime of zero, and a SERVFAIL response is kept for thirty seconds at
    most.  All TTLs must be below 2^32 - 1. *)
Theorem FindLowestTTL_correct msg :
  Forall (fun t => 0 <= t < MaxUint32) (effective_ttls msg) ->
  FindLowestTTL msg =
    let servfail := m_Rcode msg =? RcodeServerFailure in
    match effective_ttls msg with
    | [] => if servfail then ServFailMaxCacheTTL else 0
    | t :: ts => if servfail then Z.min ServFailMaxCacheTTL (min_list t ts) else min_list t ts
    end.
Proof.
  intros Hall. unfold FindLowestTTL. set (rrs := m_Answer msg ++ m_Ns msg ++ m_Extra msg).
  assert (Forall (fun t => 0 <= t) (omap effective_ttl rrs)) as Hnn
    by (eapply Forall_impl; [exact Hall|simpl; lia]).
  destruct (lowest_ttl_spec rrs MaxUint32 ltac:(reflexivity) Hnn) as [Hd Hn].
  change (omap effective_ttl rrs) with (effective_ttls msg) in *.
  assert (min_list MaxUint32 (effective_ttls msg) =
    match effective_ttls msg with [] => MaxUint32 | t :: ts => min_list t ts end) as Em.
  { destruct (effective_ttls msg) as [|t ts]; [done|]. apply Forall_cons in Hall as [Ht _].
    simpl. rewrite <- min_list_min. f_equal. lia. }
  rewrite Em in Hd, Hn.
  assert (forall t ts, effective_ttls msg = t :: ts -> min_list t ts < MaxUint32) as Hlt.
  { intros t ts E. rewrite E in Hall. apply Forall_cons in Hall as [Ht _].
    pose proof (min_list_le_init t ts). lia. }
  unfold ServFailMaxCacheTTL, MaxUint32 in *.
  destruct (lowest_ttl rrs (2 ^ 32 - 1)) as [ttl|] eqn:El; simpl in Hd.
  - subst ttl. destruct (effective_ttls msg) as [|t ts]; simpl.
    + destruct (m_Rcode msg =? RcodeServerFailure); reflexivity.
    + specialize (Hlt t ts eq_refl). rewrite (proj2 (Z.eqb_neq (min_list t ts) _)) by lia.
      destruct (m_Rcode msg =? RcodeServerFailure); simpl; [|done].
      destruct (Z.ltb_spec 30 (min_list t ts)); lia.
  - specialize (Hn eq_refl). destruct (effective_ttls msg) as [|t ts]; [discriminate Hn|]. rewrite Hn.
    by destruct (m_Rcode msg =? RcodeServerFailure).
Qed.

(** ** Client subnets *)

Definition subnet_option (o : EDNSOption) : bool :=
  match o with EDNS0_SUBNET _ _ _ _ => true | _ => false end.

Lemma ecsData_valid `{IPConv} fam nm scope addr p s :
  ecsData fam nm scope addr = Ok (p, s) ->
  prefix_valid p = true /\ p_bits p = nm /\ Masked p = p /\ s = scope /\ p <> prefix_zero.
Proof.
  unfold ecsData. case_if; [done|]. destruct (IPToAddr addr fam) as [ip|]; [|done].
  repeat case_if; try done. intros [= <- <-]. split_and!; try done.
  - unfold prefix_valid, PrefixFrom in *. simpl in *. case_if; [done|lia].
  - intros Ez. by rewrite Ez in *.
Qed.

(** Only the first client-subnet option of a message counts: [ECSFromMsg]
    fails if and only if that option is malformed, and otherwise returns its
    subnet, which has the option's prefix length and no bits set beyond it, and
    its scope; without such an option it returns the zero prefix. *)
Theorem ECSFromMsg_first `{MiekgDNS} `{IPConv} msg opt :
  IsEdns0 msg = Some opt ->
  match first_such subnet_option (opt_options opt) with
  | Some (EDNS0_SUBNET fam nm scope addr) =>
      match ECSFromMsg msg with
      | Ok (p, s) => ecsData fam nm scope addr = Ok (p, s) /\ p_bits p = nm /\ Masked p = p /\ s = scope
      | Err e => exists e', e = ErrWrap "bad ecs: %s" e' /\ ecsData fam nm scope addr = Err e'
      end
  | _ => ECSFromMsg msg = Ok (prefix_zero, 0)
  end.
Proof.
  intros Ho. unfold ECSFromMsg. rewrite Ho.
  induction (opt_options opt) as [|o opts IH]; simpl; [done|]. destruct o as [| fam nm scope addr |]; [done| |done].
  simpl. destruct (ecsData fam nm scope addr) as [[p s]|e] eqn:E; [|by exists e].
  destruct (ecsData_valid _ _ _ _ _ _ E) as (_ & Hb & Hm & Hs & Hz).
  rewrite bool_decide_eq_false_2 by done. simpl. by split_and!.
Qed.

(** ** Chunks of a debug string *)

Fixpoint concat_strs (l : list string) : string :=
  match l with [] => EmptyString | s :: l => s +:+ concat_strs l end.

Lemma concat_strs_app l1 l2 : concat_strs (l1 ++ l2) = concat_strs l1 +:+ concat_strs l2.
Proof. induction l1 as [|s l1 IH]; simpl; [done|]. by rewrite IH, append_assoc. Qed.

Lemma concat_strs_snoc l s : concat_strs (l ++ [s]) = concat_strs l +:+ s.
Proof. rewrite concat_strs_app. simpl. by rewrite append_nil_r. Qed.

Lemma length_str_take_min n s : String.length (str_take n s) = Nat.min n (String.length s).
Proof. revert s. induction n as [|n IH]; intros [|ch s]; simpl; [done..|]. by rewrite IH. Qed.

Lemma str_take_chunk i n s :
  str_take i s +:+ str_take n (str_drop i s) = str_take (i + n) s.
Proof. revert s. induction i as [|i IH]; intros [|ch s]; simpl; [done|done|by destruct n|by rewrite IH]. Qed.

(** After [n] rounds the first [255 * n] bytes have been cut. *)
Lemma debug_chunks_prefix str acc m strNum :
  strNum = (len str + MaxTXTStringLen - 1) / MaxTXTStringLen -> 0 < len str ->
  forall n, (n + m)%nat = Z.to_nat strNum ->
  concat_strs acc = str_take (255 * n) str -> Forall (fun s => len s <= MaxTXTStringLen) acc ->
  exists txt, for_each (debug_chunk str strNum) acc (seq n m) = Ret txt /\
    concat_strs txt = (if (m =? 0)%nat then str_take (255 * n) str else str) /\
    Forall (fun s => len s <= MaxTXTStringLen) txt.
Proof.
  intros HN Hpos. revert acc. unfold debug_chunk, MaxTXTStringLen in *.
  pose proof (Z.div_mod (len str + 255 - 1) 255 ltac:(lia)) as Hdm.
  pose proof (Z.mod_pos_bound (len str + 255 - 1) 255 ltac:(lia)) as Hmb. rewrite <- HN in Hdm.
  assert (len str = Z.of_nat (String.length str)) as HL by reflexivity.
  induction m as [|m IH]; intros acc n Hnm Hc Hall; cbn [seq for_each].
  { exists acc. by split_and!. }
  destruct (Z.eqb_spec (Z.of_nat n) (strNum - 1)) as [En|En].
  - assert (m = 0)%nat as -> by lia.
    rewrite (proj2 (Z.leb_le _ _)) by lia. cbn [outcome_bind seq for_each].
    eexists. split_and!; [done|..].
    + rewrite concat_strs_snoc, Hc.
      replace (Z.to_nat (Z.of_nat n * 255)) with (255 * n)%nat by lia. apply str_take_drop.
    + apply Forall_app. split; [done|]. constructor; [|constructor].
      unfold len. rewrite length_str_drop. lia.
  - rewrite (proj2 (Z.leb_le _ _)) by lia. cbn [outcome_bind].
    destruct (IH (acc ++ [str_take (Z.to_nat 255) (str_drop (Z.to_nat (Z.of_nat n * 255)) str)]) (S n))
      as (txt & E & Ec & Hf); [lia|..].
    + rewrite concat_strs_snoc, Hc.
      replace (Z.to_nat (Z.of_nat n * 255)) with (255 * n)%nat by lia.
      rewrite str_take_chunk. f_equal. lia.
    + apply Forall_app. split; [done|]. constructor; [|constructor].
      unfold len. rewrite length_str_take_min. lia.
    + exists txt. split_and!; [done| |done]. destruct m; [lia|done].
Qed.

(** [AppendDebugExtra] adds one TXT record of class CHAOS with the whole
    debug string: the strings of the record are at most 255 bytes long each and
    together are the given string, however long it is. *)
Theorem AppendDebugExtra_whole c req resp str q qs :
  m_Question req = q :: qs -> q_Qtype q = TypeTXT ->
  exists txt,
    AppendDebugExtra c req resp str = Ret (Ok (set_Extra resp (m_Extra resp ++
      [{| rr_Hdr := newHdrWithClass c (q_Name q) TypeTXT ClassCHAOS; rr_Data := RD_TXT txt |}]))) /\
    concat_strs txt = str /\ Forall (fun s => len s <= MaxTXTStringLen) txt.
Proof.
  intros Hq Ht. unfold AppendDebugExtra. rewrite Hq. simpl. rewrite Ht. simpl.
  destruct (Z.leb_spec (len str) MaxTXTStringLen) as [Hl|Hl].
  - exists [str]. split_and!; [done| |by repeat constructor]. simpl. apply append_nil_r.
  - destruct (debug_chunks_prefix str [] (Z.to_nat ((len str + MaxTXTStringLen - 1) / MaxTXTStringLen))
      _ eq_refl) with (n := 0%nat) as (txt & E & Ec & Hf); [unfold MaxTXTStringLen in *; lia|done|done|done|].
    exists txt. unfold debug_chunks. rewrite E. split_and!; [done| |done].
    rewrite Ec. destruct (Z.to_nat _) eqn:En; [|done].
    assert (1 <= (len str + MaxTXTStringLen - 1) / MaxTXTStringLen) as H1; [|lia].
    unfold MaxTXTStringLen in *. apply Z.div_le_lower_bound; lia.
Qed.

(** ** Blocked responses *)

Section blocked.
Context `{MiekgDNS} `{!MiekgDNSSpec}.

(** The addresses that a blocking mode puts into the answers to a question. *)
Definition mode_ips (mode : BlockingMode) (q : Question) : list Addr :=
  let pick v4 v6 :=
    if q_Qtype q =? TypeA then v4 else if q_Qtype q =? TypeAAAA then v6 else [] in
  match mode with
  | BlockingModeCustomIP IPv4 IPv6 => pick IPv4 IPv6
  | BlockingModeNullIP => pick [Addr4 0] [Addr6 0 EmptyString]
  | _ => []
  end.

Definition mode_rcode (mode : BlockingMode) : Z :=
  match mode with
  | BlockingModeNXDOMAIN => RcodeNameError
  | BlockingModeREFUSED => RcodeRefused
  | _ => RcodeSuccess
  end.

(** The custom addresses are of their families, as blockingmode.go requires. *)
Definition valid_mode (mode : BlockingMode) : Prop :=
  match mode with
  | BlockingModeCustomIP IPv4 IPv6 =>
      Forall (fun ip => Is4 ip = true) IPv4 /\ Forall (fun ip => Is6 ip = true) IPv6
  | BlockingModeOther => False
  | _ => True
  end.

Definition answer_for (c : Constructor) (q : Question) (ip : Addr) : RR := {|
  rr_Hdr := newHdrWithClass c (q_Name q) (q_Qtype q) ClassINET;
  rr_Data := if q_Qtype q =? TypeA then RD_A ip else RD_AAAA ip;
|}.

(** The additional section of a blocked response: an OPT record with the
    extended error if the feature is on and the request has one. *)
Definition ede_extra (c : Constructor) (req : Msg) : list RR :=
  match IsEdns0 req with
  | Some o =>
      if edeEnabled c then
        [{| rr_Hdr := rr_Hdr (newOPT (UDPSize o) (Do o));
            rr_Data := RD_OPT [EDNS0_EDE ExtendedErrorCodeFiltered (sdeForReqOpt c o)] |}]
      else []
  | None => []
  end.

Lemma find_OPT_nil : find_OPT [] = None.
Proof. destruct (find_OPT []) as [i|] eqn:E; [|done]. by apply find_OPT_Some in E as (? & ? & _). Qed.

Lemma AddEDE_fresh c req resp : m_Extra resp = [] ->
  AddEDE c req resp ExtendedErrorCodeFiltered = set_Extra resp (ede_extra c req).
Proof.
  intros E. unfold AddEDE, ede_extra. destruct (IsEdns0 req) as [o|], (edeEnabled c); simpl;
    rewrite ?E, ?find_OPT_nil; try done; destruct resp; simpl in *; by subst.
Qed.

Lemma NewResp_fields req q qs : m_Question req = q :: qs ->
  m_Id (NewResp req) = m_Id req /\ m_Response (NewResp req) = true /\ m_Question (NewResp req) = [q] /\
  m_Rcode (NewResp req) = RcodeSuccess /\ m_Answer (NewResp req) = [] /\ m_Ns (NewResp req) = [] /\
  m_Extra (NewResp req) = [].
Proof.
  intros Hq. unfold NewResp. rewrite reply_Id, reply_Response, reply_Rcode, reply_Answer, reply_Ns, reply_Extra.
  split_and!; try done. edestruct reply_Question as [->|[E _]]; [by rewrite Hq|by rewrite Hq in E].
Qed.

Lemma append_answers_all new c req q qs ips msg :
  m_Question req = q :: qs -> (forall ip, ip ∈ ips -> new (q_Name q) ip = Ok (answer_for c q ip)) ->
  append_answers new req msg ips = Ret (Ok (set_Answer msg (m_Answer msg ++ (answer_for c q <$> ips)))).
Proof.
  intros Hq. revert msg. induction ips as [|ip ips IH]; intros msg Hnew; simpl.
  - rewrite app_nil_r. by destruct msg.
  - rewrite Hq. simpl. rewrite Hnew by constructor. rewrite IH by (intros; apply Hnew; by constructor).
    simpl. by rewrite <- app_assoc.
Qed.

Lemma newMsg_all c req q qs ips :
  m_Question req = q :: qs ->
  (q_Qtype q = TypeA -> Forall (fun ip => Is4 ip = true) ips ->
   newMsgA c req ips = Ret (Ok (set_Answer (NewResp req) (answer_for c q <$> ips)))) /\
  (q_Qtype q = TypeAAAA -> Forall (fun ip => Is6 ip = true) ips ->
   newMsgAAAA c req ips = Ret (Ok (set_Answer (NewResp req) (answer_for c q <$> ips)))).
Proof.
  intros Hq. destruct (NewResp_fields req q qs Hq) as (_ & _ & _ & _ & Ea & _).
  split; intros Ht Hall; [unfold newMsgA|unfold newMsgAAAA];
    (rewrite (append_answers_all _ c req q qs); [by rewrite Ea|done|]);
    intros ip Hin; rewrite Forall_forall in Hall; specialize (Hall ip Hin);
    unfold answer_for; rewrite Ht; by destruct ip.
Qed.

Lemma newMsg_null c req q qs :
  m_Question req = q :: qs ->
  (q_Qtype q = TypeA ->
   newMsgA c req [AddrZero] = Ret (Ok (set_Answer (NewResp req) [answer_for c q (Addr4 0)]))) /\
  (q_Qtype q = TypeAAAA ->
   newMsgAAAA c req [AddrZero] = Ret (Ok (set_Answer (NewResp req) [answer_for c q (Addr6 0 EmptyString)]))).
Proof.
  intros Hq. destruct (NewResp_fields req q qs Hq) as (_ & _ & _ & _ & Ea & _).
  unfold newMsgA, newMsgAAAA, answer_for. simpl. rewrite Hq. simpl. rewrite Ea.
  split; intros ->; reflexivity.
Qed.

(** What a blocked response is to look like. *)
Definition blocked_shape (c : Constructor) (req : Msg) (q : Question) (mode : BlockingMode) (m : Msg)
    : Prop :=
  m_Id m = m_Id req /\ m_Response m = true /\ m_Question m = [q] /\ m_Rcode m = mode_rcode mode /\
  m_Answer m = answer_for c q <$> mode_ips mode q /\
  m_Ns m = match mode_ips mode q with [] => newSOARecords c req | _ => [] end /\
  m_Extra m = match mode, mode_ips mode q with
              | BlockingModeCustomIP _ _, _ :: _ => []
              | _, _ => ede_extra c req
              end.

Lemma blocked_soa_shape c req q qs mode rc :
  m_Question req = q :: qs -> mode_ips mode q = [] -> mode_rcode mode = rc ->
  blocked_shape c req q mode (blocked_soa c req rc).
Proof.
  intros Hq Hi <-. destruct (NewResp_fields req q qs Hq) as (Hid & Hr & HQ & HR & HA & HN & HE).
  unfold blocked_soa, NewBlockedRespRCode, blocked_shape. rewrite AddEDE_fresh, Hi by done.
  simpl. split_and!; try done. destruct mode; simpl in *; by rewrite ?Hi.
Qed.

Lemma answers_shape c req q qs mode ips :
  m_Question req = q :: qs -> mode_ips mode q = ips -> ips <> [] -> mode_rcode mode = RcodeSuccess ->
  blocked_shape c req q mode
    (set_Extra (set_Answer (NewResp req) (answer_for c q <$> ips))
       match mode with BlockingModeCustomIP _ _ => [] | _ => ede_extra c req end).
Proof.
  intros Hq Hi Hne Hc. destruct (NewResp_fields req q qs Hq) as (Hid & Hr & HQ & HR & HA & HN & HE).
  unfold blocked_shape. rewrite Hi, Hc. destruct ips; [done|]. simpl. split_and!; try done.
  destruct mode; simpl in *; by rewrite ?Hi.
Qed.

Lemma custom_ips_shape c req q qs IPv4 IPv6 :
  m_Question req = q :: qs -> valid_mode (BlockingModeCustomIP IPv4 IPv6) ->
  exists m, newBlockedCustomIPResp c req IPv4 IPv6 = Ret (Ok m) /\
    blocked_shape c req q (BlockingModeCustomIP IPv4 IPv6) m.
Proof.
  intros Hq [H4 H6]. unfold newBlockedCustomIPResp, NewBlockedRespIP. rewrite Hq. simpl.
  assert (forall ips, ips <> [] -> mode_ips (BlockingModeCustomIP IPv4 IPv6) q = ips ->
    blocked_shape c req q (BlockingModeCustomIP IPv4 IPv6)
      (set_Answer (NewResp req) (answer_for c q <$> ips))) as Hans.
  { intros ips Hne Hi. destruct (NewResp_fields req q qs Hq) as (_ & _ & _ & _ & _ & _ & HE).
    pose proof (answers_shape c req q qs _ ips Hq Hi Hne eq_refl) as Hs. simpl in Hs.
    replace (set_Answer (NewResp req) (answer_for c q <$> ips))
      with (set_Extra (set_Answer (NewResp req) (answer_for c q <$> ips)) []); [done|].
    unfold set_Extra, set_Answer. simpl. by rewrite HE. }
  unfold mode_ips in Hans. simpl in Hans.
  destruct (Z.eqb_spec (q_Qtype q) TypeA) as [Ea|Ea]; simpl.
  - destruct IPv4 as [|ip l]; simpl.
    + rewrite Ea. simpl. eexists. split; [done|]. apply (blocked_soa_shape _ _ _ qs); [done| |done].
      simpl. by rewrite Ea.
    + eexists. split; [by apply (newMsg_all c req q qs)|]. by apply Hans.
  - destruct (Z.eqb_spec (q_Qtype q) TypeAAAA) as [Eb|Eb]; simpl;
      [destruct IPv6 as [|ip l]; simpl|].
    + eexists. split; [done|]. apply (blocked_soa_shape _ _ _ qs); [done| |done]. simpl. by rewrite Eb.
    + eexists. split; [by apply (newMsg_all c req q qs)|]. by apply Hans.
    + eexists. split; [done|]. apply (blocked_soa_shape _ _ _ qs); [done| |done].
      simpl. by rewrite (proj2 (Z.eqb_neq _ _) Ea), (proj2 (Z.eqb_neq _ _) Eb).
Qed.

Lemma null_ip_shape c req q qs ip :
  m_Question req = q :: qs -> mode_ips BlockingModeNullIP q = [ip] ->
  NewBlockedNullIPResp c req = Ret (Ok (AddEDE c req (set_Answer (NewResp req) [answer_for c q ip])
    ExtendedErrorCodeFiltered)) /\
  blocked_shape c req q BlockingModeNullIP
    (AddEDE c req (set_Answer (NewResp req) [answer_for c q ip]) ExtendedErrorCodeFiltered).
Proof.
  intros Hq Hi. destruct (NewResp_fields req q qs Hq) as (_ & _ & _ & _ & _ & _ & HE). split.
  - unfold NewBlockedNullIPResp. rewrite Hq. simpl. destruct (newMsg_null c req q qs Hq) as [Ha H6].
    unfold mode_ips in Hi. destruct (Z.eqb_spec (q_Qtype q) TypeA) as [Ea|Ea].
    + rewrite Ha by done. by injection Hi as <-.
    + destruct (Z.eqb_spec (q_Qtype q) TypeAAAA) as [Eb|Eb]; [|done].
      rewrite H6 by done. by injection Hi as <-.
  - rewrite AddEDE_fresh by done. by apply (answers_shape c req q qs BlockingModeNullIP [ip]).
Qed.

Lemma NewBlockedResp_ok c req mode q qs :
  let m0 := default (blockingMode c) mode in
  m_Question req = q :: qs -> valid_mode m0 ->
  exists m, NewBlockedResp c req mode = Ret (Ok m) /\ blocked_shape c req q m0 m.
Proof.
  intros m0 Hq Hm. unfold NewBlockedResp. fold m0.
  destruct m0 as [v4 v6| | | |] eqn:Em; [..|done].
  - by apply custom_ips_shape with qs.
  - rewrite Hq. simpl. case_if.
    + assert (exists ip, mode_ips BlockingModeNullIP q = [ip]) as [ip Hi].
      { unfold mode_ips. apply orb_true_iff in E as [E|E]; rewrite E; [by eexists|case_if; by eexists]. }
      destruct (null_ip_shape c req q qs ip Hq Hi) as [-> Hs]. by eexists.
    + eexists. split; [done|]. apply (blocked_soa_shape _ _ _ qs); [done| |done].
      unfold mode_ips. by repeat (rewrite (proj2 (Z.eqb_neq _ _)) by done).
  - eexists. split; [done|]. by apply (blocked_soa_shape _ _ _ qs).
  - eexists. split; [done|]. by apply (blocked_soa_shape _ _ _ qs).
Qed.

(** The shape of a blocked response, for every blocking mode and every
    request with a question.  It replies to the request and carries the response
    code of the mode; its answers are exactly the addresses of the mode for the
    question type, with the question's name and the configured TTL; a response
    without answers has the SOA record for negative caching; and the extended
    DNS error is added, once, if it is enabled and the client supports EDNS,
    except that responses with custom addresses never carry it. *)
Theorem NewBlockedResp_shape c req mode q qs :
  let m0 := default (blockingMode c) mode in
  m_Question req = q :: qs -> valid_mode m0 ->
  exists m, NewBlockedResp c req mode = Ret (Ok m) /\ blocked_shape c req q m0 m.
Proof. apply NewBlockedResp_ok. Qed.

End blocked.

(** ** Concrete inputs *)

(** An instance of the parameters. *)
Definition ref_miekg : MiekgDNS := {|
  SetReply m req := {|
    m_Id := m_Id req; m_Response := true; m_RecursionDesired := m_RecursionDesired req;
    m_RecursionAvailable := m_RecursionAvailable m; m_AuthenticatedData := m_AuthenticatedData m;
    m_CheckingDisabled := m_CheckingDisabled req; m_Truncated := m_Truncated m; m_Opcode := m_Opcode m; m_Rcode := RcodeSuccess; m_Compress := m_Compress m;
    m_Question := take 1 (m_Question req); m_Answer := m_Answer m; m_Ns := m_Ns m; m_Extra := m_Extra m |};
  find_OPT l := fst <$> list_find (fun rr => is_OPT rr = true) l;
  Fqdn s := if HasSuffix s "." then s else s +:+ ".";
|}.

Lemma ref_miekg_spec : MiekgDNSSpec (H := ref_miekg).
Proof.
  split; try done.
  - intros m req. by left.
  - intros l i. simpl. intros ([j rr] & E & ->)%fmap_Some. apply list_find_Some in E as (? & ? & _).
    by exists rr.
  - intros l. simpl. intros E%fmap_None rr Hin. destruct (is_OPT rr) eqn:Er; [|done].
    rewrite list_find_None, Forall_forall in E. by destruct (E rr Hin).
  - intros l. simpl. induction l as [|rr l IH]; intros [|rr' l'] E; try done. injection E as E1 E2.
    simpl. rewrite E1. case_decide; [done|]. specialize (IH l' E2).
    by destruct (list_find _ l) as [[]|], (list_find _ l') as [[]|]; simpl in *; simplify_eq.
Qed.

#[local] Existing Instance ref_miekg.
#[local] Existing Instance ref_miekg_spec.

Definition some_question : Question :=
  {| q_Name := "bad.example."; q_Qtype := TypeA; q_Qclass := ClassINET |}.

(** A request with EDNS and an empty extended-error option. *)
Definition some_request : Msg := {|
  m_Id := 7; m_Response := false; m_RecursionDesired := true; m_RecursionAvailable := false;
  m_AuthenticatedData := false; m_CheckingDisabled := false; m_Truncated := false; m_Opcode := 0; m_Rcode := 0; m_Compress := false;
  m_Question := [some_question]; m_Answer := []; m_Ns := [];
  m_Extra := [{| rr_Hdr := rr_Hdr (newOPT 1232 true);
                 rr_Data := RD_OPT [EDNS0_EDE 0 EmptyString; EDNS0_SUBNET 1 24 0 "ip"] |}];
|}.

Definition some_constructor : Constructor := {|
  blockingMode := BlockingModeNullIP; sde := "sde"; fltRespTTL := 10 * 1000000000; edeEnabled := true;
|}.

Lemma NewBlockedResp_shape_witness :
  exists m, NewBlockedResp some_constructor some_request None = Ret (Ok m) /\
    blocked_shape some_constructor some_request some_question BlockingModeNullIP m.
Proof.
  apply (NewBlockedResp_shape some_constructor some_request None some_question []); [reflexivity|exact I].
Defined.

Example blocked_null_ip :
  match NewBlockedResp some_constructor some_request None with
  | Ret (Ok m) => rr_Data <$> (m_Answer m ++ m_Extra m) = [RD_A (Addr4 0); RD_OPT [EDNS0_EDE 17 "sde"]]
  | _ => False
  end.
Proof. reflexivity. Qed.

Definition txt_request : Msg :=
  set_Question some_request [{| q_Name := "who."; q_Qtype := TypeTXT; q_Qclass := ClassCHAOS |}].

Lemma AppendDebugExtra_whole_witness :
  exists txt,
    AppendDebugExtra some_constructor txt_request empty_msg "hello" =
      Ret (Ok (set_Extra empty_msg ([] ++
        [{| rr_Hdr := newHdrWithClass some_constructor "who." TypeTXT ClassCHAOS; rr_Data := RD_TXT txt |}]))) /\
    concat_strs txt = "hello"%string /\ Forall (fun s => len s <= MaxTXTStringLen) txt.
Proof.
  apply (AppendDebugExtra_whole some_constructor txt_request empty_msg "hello"
    {| q_Name := "who."; q_Qtype := TypeTXT; q_Qclass := ClassCHAOS |} []); reflexivity.
Defined.

Definition soa_msg : Msg :=
  set_Rcode (set_Extra (set_Ns empty_msg (newSOARecords some_constructor some_request))
    [newOPT 1232 false]) RcodeNameError.

Lemma FindLowestTTL_correct_witness : FindLowestTTL soa_msg = 10.
Proof.
  rewrite (FindLowestTTL_correct soa_msg); [reflexivity|].
  repeat constructor; vm_compute; congruence.
Defined.

#[local] Instance some_ipconv : IPConv := fun s fam => Ok (Addr4 256).

Lemma ECSFromMsg_first_witness :
  ecsData 1 24 0 "ip" = Ok (PrefixFrom (Addr4 256) 24, 0) /\ ECSFromMsg some_request = ecsData 1 24 0 "ip".
Proof.
  split; [reflexivity|].
  generalize (ECSFromMsg_first some_request _ eq_refl).
  change (first_such subnet_option (opt_options _)) with (Some (EDNS0_SUBNET 1 24 0 "ip")).
  destruct (ECSFromMsg some_request) as [[p s]|e]; [by intros (E & _)|intros (e' & _ & E); discriminate E].
Defined.
