(* ===== verification/Filter.v ===== *)
(** What the filters of internal/filter share: identifiers (id.go, category.go),
    requests and results (filter.go, result.go), replaced results
    (replacement.go), the domain-name helpers of internal/agdnet (agdnet.go) and
    the cache interface of internal/agdcache.

    The public-suffix list, golibs' netutil and the cache implementations are
    parameters with their documented behaviour.  A cache may forget an entry at
    any time, but never returns a value that was not set. *)

From S2P Require Import Prelude GoStd Utf8 NetIP HumanID DnsMsg.

Open Scope Z_scope.

(** ** id.go, category.go *)

Definition IDNone : string := EmptyString.
Definition IDBlockedService : string := "blocked_service".
Definition IDCustom : string := "custom".
Definition IDCategory : string := "category".

(** The common part of [NewID], [NewBlockedServiceID] and [NewCategoryID]. *)
Definition new_id (format bad : string) (minLen maxLen : Z) (s : string) : result error string :=
  annotate format
    match Inclusion (len s) minLen maxLen UnitByte with
    | Some err => Err err
    | None => match FirstNonIDRune s true with Some _ => Err (ErrConst bad) | None => Ok s end
    end.

Definition NewID (s : string) : result error string :=
  new_id "bad filter id %q: %w" "bad rune %q at index %d" 1 128 s.
Definition NewBlockedServiceID (s : string) : result error string :=
  new_id "bad blocked service id %q: %w" "bad char %q at index %d" 1 64 s.
Definition NewCategoryID (s : string) : result error string :=
  new_id "bad category id %q: %w" "bad rune %q at index %d" 1 128 s.

Definition MaxRuleTextRuneLen : Z := 10000.

Definition NewRuleText (s : string) : result error string :=
  annotate "bad filter rule text %q: %w"
    match Inclusion (Z.of_nat (length (runes s))) 0 MaxRuleTextRuneLen UnitRune with
    | Some err => Err err
    | None => Ok s
    end.

(** ** filter.go *)

Record Request := {
  f_DNS : Msg;
  f_Messages : Constructor;
  f_RemoteIP : Addr;
  f_ClientName : string;
  f_Host : string;
  f_QType : Z;
  f_QClass : Z;
}.

Record Response := {
  fr_DNS : Msg;
  fr_RemoteIP : Addr;
  fr_ClientName : string;
}.

(** [AddrFamilyNone]; the families of [IsFilterable]. *)
Definition AddrFamilyNone : Z := 0.

Definition AddrFamilyFromRRType (qt : Z) : Z :=
  if qt =? TypeA then AddrFamilyIPv4
  else if qt =? TypeAAAA then AddrFamilyIPv6 else AddrFamilyNone.

Definition IsFilterable (qt : Z) : Z * bool :=
  if qt =? TypeHTTPS then (AddrFamilyNone, true)
  else let fam := AddrFamilyFromRRType qt in (fam, negb (fam =? AddrFamilyNone)).

(** ** result.go *)

Inductive Result :=
  | ResultAllowed (List Rule : string)
  | ResultBlocked (List Rule : string)
  | ResultModifiedResponse (msg : Msg) (List Rule : string)
  | ResultModifiedRequest (msg : Msg) (List Rule : string).

Definition MatchedRule (r : Result) : string * string :=
  match r with
  | ResultAllowed l t | ResultBlocked l t
  | ResultModifiedResponse _ l t | ResultModifiedRequest _ l t => (l, t)
  end.

(** [newID] is the value of [dns.Id()]. *)
Definition CloneModifiedResult `{MiekgDNS} (newID : Z) (r : option Result) (req : Msg)
    : outcome (option Result) :=
  match r with
  | None => Ret None
  | Some (ResultModifiedRequest msg l t) => Ret (Some (ResultModifiedRequest (set_Id msg newID) l t))
  | Some (ResultModifiedResponse msg l t) => Ret (Some (ResultModifiedResponse (SetReply msg req) l t))
  | Some _ => Panic "filter: unexpected type for result: %T(%[1]v)"
  end.

(** The value that [SetModifiedResultInCache] sets. *)
Definition cached_modified (newID : Z) (r : Result) : outcome Result :=
  match r with
  | ResultModifiedRequest msg l t => Ret (ResultModifiedRequest (set_Id msg newID) l t)
  | ResultModifiedResponse msg l t => Ret (ResultModifiedResponse msg l t)
  | _ => Panic "filter: unexpected type for result: %T(%[1]v)"
  end.

(** ** internal/agdcache *)

(** [cmap] is the contents of a cache as far as they can still be returned;
    [Get] may change the order of eviction. *)
Class AgdCache (K V : Type) := {
  cache : Type;
  cmap : cache -> K -> option V;
  cempty : cache;
  cget : cache -> K -> option V * cache;
  cset : cache -> K -> V -> cache;
  cclear : cache -> cache;
}.

Class AgdCacheSpec (K V : Type) `{AgdCache K V} : Prop := {
  cmap_empty k : cmap cempty k = None;
  cget_map c k : (cget c k).1 = cmap c k;
  cget_keeps c k k' v : cmap (cget c k).2 k' = Some v -> cmap c k' = Some v;
  cset_map c k v k' v' : cmap (cset c k v) k' = Some v' -> (k' = k /\ v' = v) \/ cmap c k' = Some v';
  cclear_map c k : cmap (cclear c) k = None;
}.

(** ** internal/filter/internal/rulelist/cache.go *)

Record CacheKey := { ck_host : string; ck_qType : Z; ck_qClass : Z; ck_isAns : bool }.

#[export] Instance CacheKey_eq_dec : EqDecision CacheKey.
Proof. solve_decision. Defined.

Definition NewCacheKey (host : string) (qt cl : Z) (isAns : bool) : CacheKey :=
  {| ck_host := host; ck_qType := qt; ck_qClass := cl; ck_isAns := isAns |}.

(** ** internal/agdnet *)

Definition dot : ascii := "."%char.

Definition NormalizeDomain `{UnicodeCase} (fqdn : string) : string := ToLower (TrimSuffix fqdn ".").

Definition NormalizeQueryDomain `{UnicodeCase} (host : string) : string :=
  if bool_decide (host = "."%string) then host else NormalizeDomain host.

Definition androidMetricFQDNSuffix : string := "-ds.metric.gstatic.com.".

Definition AndroidMetricDomainReplacement `{UnicodeCase} (fqdn : string) : string :=
  let fqdn := ToLower fqdn in
  if negb (HasSuffix fqdn androidMetricFQDNSuffix) then EmptyString
  else if HasSuffix fqdn ("-dnsohttps" +:+ androidMetricFQDNSuffix)
  then "000000-dnsohttps" +:+ androidMetricFQDNSuffix
  else if HasSuffix fqdn ("-dnsotls" +:+ androidMetricFQDNSuffix)
  then "00000000-dnsotls" +:+ androidMetricFQDNSuffix
  else EmptyString.

(** The labels of a domain name, and the name with the first [k] labels cut
    off. *)
Definition labels (d : string) : list string := SplitByte d dot.
Definition cut_labels (d : string) (k : nat) : string := JoinByte (drop k (labels d)) dot.

(** [netutil.AppendSubdomains]: the domain itself and all its parents. *)
Definition subdomains (d : string) : list string := cut_labels d <$> seq 0 (length (labels d)).

Class PublicSuffixList := PublicSuffix : string -> string.

(** A public suffix of a domain is the domain or one of its parents. *)
Class PublicSuffixSpec `{PublicSuffixList} : Prop :=
  public_suffix d : PublicSuffix d ∈ subdomains d.

Class Subdomains := netutil_AppendSubdomains : list string -> string -> list string.
Class SubdomainsSpec `{Subdomains} : Prop :=
  append_subdomains orig d : netutil_AppendSubdomains orig d = orig ++ subdomains d.

(** [strings.LastIndexFunc] with the counting function of [AppendSubdomains],
    on the bytes from the end; [i] bytes are left. *)
Fixpoint last_index (b : list ascii) (i dotsNum subDomainNum : nat) : option nat :=
  match b with
  | [] => None
  | c :: b =>
      let dotsNum := if decide (c = dot) then S dotsNum else dotsNum in
      if (dotsNum =? subDomainNum)%nat then Some (i - 1)%nat else last_index b (i - 1) dotsNum subDomainNum
  end.

(** The loop that cuts the list at the public suffix. *)
Fixpoint cut_at (pubSuf : string) (sub : list string) : list string :=
  match sub with
  | [] => []
  | s :: sub => if bool_decide (s = pubSuf) then [] else s :: cut_at pubSuf sub
  end.

Definition AppendSubdomains `{PublicSuffixList} `{Subdomains} (orig : list string) (domain : string)
    (subDomainNum : nat) : list string :=
  let pubSuf := PublicSuffix domain in
  let domain := match last_index (rev (bytes domain)) (String.length domain) 0 subDomainNum with
                | Some i => str_drop (i + 1) domain
                | None => domain
                end in
  cut_at pubSuf (netutil_AppendSubdomains orig domain).

(** [strings.LastIndex] for one byte, plus one; zero if there is none. *)
Fixpoint after_last (s : string) (c : ascii) : nat :=
  match s with
  | EmptyString => 0
  | String a s => if (0 <? CountByte s c)%nat then S (after_last s c)
                  else if decide (a = c) then 1 else 0
  end.

Definition EffectiveTLDPlusOne `{PublicSuffixList} (domain : string) : result error string :=
  if HasPrefix domain "." || HasSuffix domain "." || Contains domain ".."
  then Err (ErrConst "publicsuffix: empty label in domain %q")
  else
    let ps := PublicSuffix domain in
    if (String.length domain <=? String.length ps)%nat
    then Err (ErrConst "publicsuffix: cannot derive eTLD+1 for domain %q")
    else
      let i := (String.length domain - String.length ps - 1)%nat in
      if negb (bool_decide (String.get i domain = Some dot))
      then Err (ErrConst "publicsuffix: invalid public suffix %q for domain %q")
      else Ok (str_drop (after_last (str_take i domain) dot) domain).

(** ** replacement.go *)

Record ReplacedResultConstructor := { replIP : Addr; replFQDN : string }.

Class NetutilNames := {
  IsValidIPString : string -> bool;
  ParseAddr : string -> option Addr;
  ValidateDomainName : string -> option error;
}.

(** [netip.MustParseAddr] panics on a bad address. *)
Definition NewReplacedResultConstructor `{MiekgDNS} `{NetutilNames} (Replacement : string)
    : outcome (result error ReplacedResultConstructor) :=
  if IsValidIPString Replacement then
    match ParseAddr Replacement with
    | Some ip => Ret (Ok {| replIP := ip; replFQDN := EmptyString |})
    | None => Panic "netip.MustParseAddr"
    end
  else match ValidateDomainName Replacement with
  | Some err => Ret (Err (ErrWrap "replacement: %w" err))
  | None => Ret (Ok {| replIP := AddrZero; replFQDN := Fqdn Replacement |})
  end.

Definition respForFamily `{MiekgDNS} (c : ReplacedResultConstructor) (req : Request) (fam : Z)
    : outcome (result error Msg) :=
  let msgs := f_Messages req in
  if fam =? AddrFamilyNone then NewBlockedResp msgs (f_DNS req) None
  else if (Is4 (replIP c) && (fam =? AddrFamilyIPv4)) || (Is6 (replIP c) && (fam =? AddrFamilyIPv6))
  then NewBlockedRespIP msgs (f_DNS req) [replIP c]
  else Ret (Ok (AddEDE msgs (f_DNS req) (NewRespRCode msgs (f_DNS req) RcodeSuccess)
                  ExtendedErrorCodeFiltered)).

(** [modReq.Question[0].Name = name]. *)
Definition set_question_name (m : Msg) (name : string) : outcome Msg :=
  match m_Question m with
  | [] => Panic "index out of range"
  | q :: qs =>
      Ret (set_Question m ({| q_Name := name; q_Qtype := q_Qtype q; q_Qclass := q_Qclass q |} :: qs))
  end.

Definition repl_New `{MiekgDNS} (c : ReplacedResultConstructor) (req : Request) (id text : string) (fam : Z)
    : outcome (result error Result) :=
  if negb (bool_decide (replFQDN c = EmptyString)) then
    let! modReq := set_question_name (f_DNS req) (replFQDN c) in
    Ret (Ok (ResultModifiedRequest modReq id text))
  else
    let! r := respForFamily c req fam in
    Ret match r with
        | Err err => Err (ErrWrap "filter %s: creating modified result: %w" err)
        | Ok resp => Ok (ResultModifiedResponse resp id text)
        end.

(** * Facts *)

(** The result rewrites a request or a response. *)
Definition modified (r : Result) : bool :=
  match r with ResultModifiedResponse _ _ _ | ResultModifiedRequest _ _ _ => true | _ => false end.

(** ** Caches

    Every value of the cache has the property [P] for its key. *)

Section cache_facts.
Context `{AgdCacheSpec K V}.

Definition cache_ok (P : K -> V -> Prop) (c : cache) : Prop := forall k v, cmap c k = Some v -> P k v.

Lemma cache_ok_empty P : cache_ok P cempty.
Proof. intros k v Hv. by rewrite cmap_empty in Hv. Qed.

Lemma cache_ok_clear P c : cache_ok P (cclear c).
Proof. intros k v Hv. by rewrite cclear_map in Hv. Qed.

Lemma cache_ok_set P c k v : cache_ok P c -> P k v -> cache_ok P (cset c k v).
Proof. intros Hc Hp k' v' Hv. apply cset_map in Hv as [[-> ->]|Hv]; [done|by apply Hc]. Qed.

Lemma cache_ok_get P c k r c' :
  cache_ok P c -> cget c k = (r, c') -> cache_ok P c' /\ forall v, r = Some v -> P k v.
Proof.
  intros Hc E. pose proof (cget_map c k) as Hm. pose proof (cget_keeps c k) as Hk. rewrite E in Hm, Hk.
  simpl in *. split; [intros k' v Hv; by apply Hc, Hk|]. intros v ->. by apply Hc.
Qed.

End cache_facts.

(** ** Labels *)

Lemma SplitByte_app a b c : SplitByte (a +:+ String c b) c = SplitByte a c ++ SplitByte b c.
Proof.
  induction a as [|x a IH]; cbn [String.append SplitByte].
  - by rewrite decide_True.
  - case_decide; [by rewrite IH|]. rewrite IH. pose proof (SplitByte_not_nil a c).
    destruct (SplitByte a c); [done|]. done.
Qed.

Lemma SplitByte_length s c : length (SplitByte s c) = S (CountByte s c).
Proof.
  induction s as [|x s IH]; [done|]. simpl. case_decide; simpl; [by rewrite IH|].
  pose proof (SplitByte_not_nil s c). by destruct (SplitByte s c).
Qed.

Lemma SplitByte_count s c x : x ∈ SplitByte s c -> CountByte x c = 0%nat.
Proof.
  revert x. induction s as [|y s IH]; intros x; simpl; [by intros ->%list_elem_of_singleton|].
  case_decide as E; [intros [->|Hx]%elem_of_cons; [done|by apply IH]|].
  pose proof (SplitByte_not_nil s c). destruct (SplitByte s c) as [|h t]; [done|].
  intros [->|Hx]%elem_of_cons; [|apply IH; by right]. simpl. rewrite decide_False by done.
  apply IH. by left.
Qed.

Lemma labels_not_nil d : (0 < length (labels d))%nat.
Proof. unfold labels. rewrite SplitByte_length. lia. Qed.

Lemma cut_labels_0 d : cut_labels d 0 = d.
Proof. apply JoinByte_SplitByte. Qed.

(** The labels after a dot. *)
Lemma cut_labels_after a b k :
  cut_labels b k = cut_labels (a +:+ String dot b) (length (labels a) + k).
Proof.
  unfold cut_labels, labels. rewrite SplitByte_app, drop_app_ge by lia. do 2 f_equal. lia.
Qed.

Lemma labels_after a b : length (labels (a +:+ String dot b)) = (length (labels a) + length (labels b))%nat.
Proof. unfold labels. by rewrite SplitByte_app, length_app. Qed.

(** Cutting off [k] labels leaves what follows a dot. *)
Lemma cut_labels_split d k : (S k < length (labels d))%nat ->
  cut_labels d k = default EmptyString (labels d !! k) +:+ String dot (cut_labels d (S k)).
Proof.
  intros Hk. unfold cut_labels.
  destruct (lookup_lt_is_Some_2 (labels d) k ltac:(lia)) as [x Hx]. rewrite Hx. simpl.
  rewrite (drop_S _ x k) by done. apply JoinByte_cons. intros E%(f_equal length).
  rewrite length_drop in E. simpl in E. lia.
Qed.

Lemma JoinByte_app l1 l2 c : l1 <> [] -> l2 <> [] ->
  JoinByte (l1 ++ l2) c = JoinByte l1 c +:+ String c (JoinByte l2 c).
Proof.
  intros H1 H2. induction l1 as [|s l1 IH]; [done|]. destruct l1 as [|s' l1].
  - simpl. destruct l2; done.
  - rewrite (JoinByte_cons s (s' :: l1)) by done. simpl app.
    rewrite (JoinByte_cons s (s' :: l1 ++ l2)) by done. rewrite append_assoc.
    simpl String.append at 2. do 2 f_equal. by apply IH.
Qed.

Lemma SplitByte_none s c : CountByte s c = 0%nat -> SplitByte s c = [s].
Proof.
  induction s as [|x s IH]; simpl; [done|]. case_decide; [done|]. intros E. by rewrite IH.
Qed.

Lemma SplitByte_JoinByte l c : l <> [] -> (forall x, x ∈ l -> CountByte x c = 0%nat) ->
  SplitByte (JoinByte l c) c = l.
Proof.
  intros Hne Hall. induction l as [|s l IH]; [done|]. destruct l as [|s' l].
  - simpl. apply SplitByte_none, Hall. by left.
  - rewrite JoinByte_cons by done. rewrite SplitByte_app, IH; [|done|intros; apply Hall; by right].
    rewrite SplitByte_none by (apply Hall; by left). done.
Qed.

(** The part of a domain before its last labels. *)
Lemma cut_labels_prefix d k : (0 < k < length (labels d))%nat ->
  exists x, d = x +:+ String dot (cut_labels d k) /\ labels x = take k (labels d).
Proof.
  intros Hk. exists (JoinByte (take k (labels d)) dot).
  assert (take k (labels d) <> []) as Ht by (intros E%(f_equal length); rewrite length_take in E; simpl in E; lia).
  split.
  - unfold cut_labels. rewrite <- JoinByte_app, take_drop; [by rewrite <- (cut_labels_0 d) at 1|done|].
    intros E%(f_equal length). rewrite length_drop in E. simpl in E. lia.
  - apply SplitByte_JoinByte; [done|]. intros x (i & Hi & _)%elem_of_take.
    eapply SplitByte_count, list_elem_of_lookup_2, Hi.
Qed.

Lemma cut_labels_shorter d i k : (i < k < length (labels d))%nat ->
  (String.length (cut_labels d k) < String.length (cut_labels d i))%nat.
Proof.
  intros [Hik Hk]. induction k as [|k IH]; [lia|].
  assert (String.length (cut_labels d (S k)) < String.length (cut_labels d k))%nat.
  { rewrite (cut_labels_split d k) by lia. rewrite length_append. simpl. lia. }
  destruct (decide (i = k)) as [->|]; [done|]. etransitivity; [done|]. apply IH; lia.
Qed.

Lemma cut_labels_inj d i k : (i < length (labels d))%nat -> (k < length (labels d))%nat ->
  cut_labels d i = cut_labels d k -> i = k.
Proof.
  intros Hi Hk E. destruct (Nat.lt_trichotomy i k) as [H|[H|H]]; [|done|].
  - pose proof (cut_labels_shorter d i k ltac:(lia)). rewrite E in *. lia.
  - pose proof (cut_labels_shorter d k i ltac:(lia)). rewrite E in *. lia.
Qed.

(** ** Subdomains *)

Lemma CountByte_of_bytes_snoc l c a :
  CountByte (of_bytes (l ++ [a])) c = (CountByte (of_bytes l) c + (if decide (a = c) then 1 else 0))%nat.
Proof. induction l as [|x l IH]; simpl; [lia|]. unfold of_bytes in *. rewrite IH. lia. Qed.

Lemma of_bytes_app l1 l2 : of_bytes (l1 ++ l2) = of_bytes l1 +:+ of_bytes l2.
Proof. induction l1 as [|x l1 IH]; [done|]. unfold of_bytes in *. simpl. by rewrite IH. Qed.

(** The index that is found is that of the dot before the last [n] labels. *)
Lemma last_index_spec l t n : (CountByte t dot < n)%nat ->
  match last_index (rev l) (length l) (CountByte t dot) n with
  | Some i => exists a b, of_bytes l +:+ t = a +:+ String dot b /\ i = String.length a /\
      S (CountByte b dot) = n
  | None => (CountByte (of_bytes l +:+ t) dot < n)%nat
  end.
Proof.
  revert t. induction l as [|c l IH] using rev_ind; intros t Ht; [done|].
  rewrite rev_unit, length_app. simpl. rewrite of_bytes_app, append_assoc. simpl.
  replace (length l + 1 - 1)%nat with (length l) by lia.
  destruct (decide (c = dot)) as [->|Hc].
  - destruct (Nat.eqb_spec (S (CountByte t dot)) n) as [E|E].
    + exists (of_bytes l), t. split_and!; [done| |done].
      by rewrite <- length_bytes, bytes_of_bytes.
    + specialize (IH (String dot t)). simpl in IH. apply IH. lia.
  - rewrite (proj2 (Nat.eqb_neq _ _)) by lia. specialize (IH (String c t)). simpl in IH.
    rewrite decide_False in IH by done. by apply IH.
Qed.

(** The domain cut to its last [n] labels. *)
Lemma last_labels d n : (0 < n)%nat ->
  match last_index (rev (bytes d)) (String.length d) 0 n with
  | Some i => str_drop (i + 1) d
  | None => d
  end = cut_labels d (length (labels d) - n).
Proof.
  intros Hn. pose proof (last_index_spec (bytes d) EmptyString n Hn) as H.
  rewrite of_bytes_bytes, append_nil_r, length_bytes in H. simpl in H.
  unfold labels. rewrite SplitByte_length. destruct (last_index _ _ _ _) as [i|].
  - destruct H as (a & b & -> & -> & Hb).
    rewrite <- (append_assoc a (String dot EmptyString) b : (a +:+ String dot EmptyString) +:+ b = a +:+ String dot b) at 1.
    replace (String.length a + 1)%nat with (String.length (a +:+ String dot EmptyString))
      by (rewrite length_append; simpl; lia).
    rewrite str_drop_append. transitivity (cut_labels b 0); [by rewrite cut_labels_0|].
    rewrite (cut_labels_after a b 0). f_equal.
    rewrite CountByte_append. unfold labels. rewrite SplitByte_length. simpl.
    lia.
  - rewrite <- (cut_labels_0 d) at 1. f_equal. lia.
Qed.

Lemma cut_at_seq d a n j :
  (a <= j < length (labels d))%nat -> (a + n <= length (labels d))%nat -> (j < a + n)%nat ->
  cut_at (cut_labels d j) (cut_labels d <$> seq a n) = cut_labels d <$> seq a (j - a).
Proof.
  revert a. induction n as [|n IH]; intros a Haj Hn Hjn; [lia|]. cbn [seq fmap list_fmap cut_at].
  destruct (decide (a = j)) as [->|Hne].
  - rewrite bool_decide_eq_true_2 by done. by rewrite Nat.sub_diag.
  - rewrite bool_decide_eq_false_2 by (intros E; apply Hne; apply cut_labels_inj in E; lia).
    replace (j - a)%nat with (S (j - S a)) by lia. cbn [seq fmap list_fmap]. f_equal.
    change (list_fmap ?f ?l) with (f <$> l). apply IH; lia.
Qed.

Lemma after_last_no_dot a b c : CountByte b c = 0%nat -> after_last (a +:+ b) c = after_last a c.
Proof.
  intros Hb. induction a as [|x a IH]; simpl.
  - induction b as [|y b IHb]; simpl in *; [done|]. case_decide; [done|]. simpl in Hb.
    rewrite Hb. done.
  - by rewrite IH, CountByte_append, Hb, Nat.add_0_r.
Qed.

Lemma after_last_dot a c : after_last (a +:+ String c EmptyString) c = S (String.length a).
Proof.
  induction a as [|x a IH]; simpl; [by rewrite decide_True|].
  rewrite IH, CountByte_append. simpl. rewrite decide_True by done.
  by rewrite (proj2 (Nat.ltb_lt _ _)) by lia.
Qed.

Lemma get_append a c b : String.get (String.length a) (a +:+ String c b) = Some c.
Proof. induction a; done. Qed.

Lemma get_none a n : (String.length a <= n)%nat -> String.get n a = None.
Proof. revert n. induction a as [|x a IH]; intros [|n] Hn; simpl in *; [done..|lia|]. apply IH. lia. Qed.

(** A domain as its last label before the public suffix, and what is around. *)
Lemma labels_around d j : (0 < j < length (labels d))%nat ->
  exists pre lab, d = (pre +:+ lab) +:+ String dot (cut_labels d j) /\ CountByte lab dot = 0%nat /\
    (pre = EmptyString \/ exists y, pre = y +:+ String dot EmptyString) /\
    cut_labels d (j - 1) = lab +:+ String dot (cut_labels d j).
Proof.
  intros Hj. destruct (lookup_lt_is_Some_2 (labels d) (j - 1) ltac:(lia)) as [lab Hlab].
  assert (cut_labels d (j - 1) = lab +:+ String dot (cut_labels d j)) as Hc.
  { rewrite (cut_labels_split d (j - 1)) by lia. rewrite Hlab. by replace (S (j - 1)) with j by lia. }
  assert (CountByte lab dot = 0%nat) as Hl by (eapply SplitByte_count, list_elem_of_lookup_2, Hlab).
  destruct (decide (j = 1)%nat) as [->|Hne].
  - exists EmptyString, lab. split_and!; [|done|by left|done].
    rewrite <- (cut_labels_0 d) at 1. exact Hc.
  - destruct (cut_labels_prefix d (j - 1)) as (y & Ey & _); [lia|].
    exists (y +:+ String dot EmptyString), lab. split_and!; [|done|right; by exists y|done].
    rewrite Ey at 1. rewrite Hc. by rewrite !append_assoc.
Qed.

Section agdnet_facts.
Context `{PublicSuffixList} `{!PublicSuffixSpec} `{Subdomains} `{!SubdomainsSpec}.

(** [AppendSubdomains] lists the domain and its parents, longest first, that
    have at most [n] labels and more labels than the public suffix of the domain.
    [j] is the number of labels before the public suffix; the public suffix must
    not have more than [n] labels itself. *)
Theorem AppendSubdomains_exact d n j :
  (0 < n)%nat -> (j < length (labels d))%nat -> PublicSuffix d = cut_labels d j ->
  (length (labels d) - j <= n)%nat ->
  AppendSubdomains [] d n =
    cut_labels d <$> seq (length (labels d) - n) (j - (length (labels d) - n)).
Proof.
  intros Hn Hj Hp Hle. unfold AppendSubdomains. rewrite last_labels, append_subdomains by done. simpl.
  set (L := length (labels d)) in *. set (a := (L - n)%nat).
  assert (exists m, subdomains (cut_labels d a) = cut_labels d <$> seq a m /\ (a + m = L)%nat)
    as (m & -> & Hm).
  { subst a. exists (Nat.min n L). split; [|lia]. unfold subdomains.
    destruct (decide (L <= n)%nat) as [Hl|Hl].
    - replace (L - n)%nat with 0%nat by lia. rewrite cut_labels_0. fold L. by rewrite Nat.min_r by lia.
    - assert (exists x, d = x +:+ String dot (cut_labels d (L - n)) /\ length (labels x) = (L - n)%nat)
        as (x & Ex & Hx).
      { destruct (cut_labels_prefix d (L - n)) as (x & Ex & Hx); [fold L; lia|].
        exists x. split; [done|]. rewrite Hx, length_take. fold L. lia. }
      assert (length (labels (cut_labels d (L - n))) = n) as Hln.
      { assert (L = length (labels x) + length (labels (cut_labels d (L - n))))%nat; [|lia].
        rewrite <- labels_after, <- Ex. done. }
      rewrite Hln, Nat.min_l by lia. apply list_eq. intros i. rewrite !list_lookup_fmap.
      destruct (decide (i < n)%nat) as [Hi|Hi].
      + rewrite !lookup_seq_lt by done. simpl. f_equal. rewrite (cut_labels_after x). rewrite <- Ex, Hx.
        done.
      + rewrite !lookup_seq_ge by lia. done. }
  rewrite Hp. apply cut_at_seq; lia.
Qed.

(** [EffectiveTLDPlusOne] is the public suffix of the domain with one more
    label before it.  It fails exactly when the domain has an empty label or is
    its own public suffix. *)
Theorem EffectiveTLDPlusOne_spec d j :
  (j < length (labels d))%nat -> PublicSuffix d = cut_labels d j ->
  if HasPrefix d "." || HasSuffix d "." || Contains d ".." then is_ok (EffectiveTLDPlusOne d) = false
  else if decide (j = 0)%nat then is_ok (EffectiveTLDPlusOne d) = false
  else EffectiveTLDPlusOne d = Ok (cut_labels d (j - 1)).
Proof.
  intros Hj Hp. unfold EffectiveTLDPlusOne. destruct (HasPrefix d "." || HasSuffix d "." || Contains d ".."); [done|].
  rewrite Hp. destruct (decide (j = 0)%nat) as [->|Hne].
  { rewrite cut_labels_0. by rewrite (proj2 (Nat.leb_le _ _)) by lia. }
  destruct (labels_around d j ltac:(lia)) as (pre & lab & Ed & Hl & Hpre & Hc).
  set (ps := cut_labels d j) in *.
  assert (String.length d = String.length (pre +:+ lab) + S (String.length ps))%nat as El.
  { rewrite Ed, length_append. done. }
  rewrite (proj2 (Nat.leb_gt _ _)) by lia.
  replace (String.length d - String.length ps - 1)%nat with (String.length (pre +:+ lab)) by lia.
  rewrite Hc. clearbody ps.
  rewrite Ed, get_append, bool_decide_eq_true_2, str_take_append by done. simpl. f_equal.
  rewrite after_last_no_dot by done. rewrite append_assoc.
  destruct Hpre as [->|[y ->]]; [done|]. rewrite after_last_dot.
  replace (S (String.length y)) with (String.length (y +:+ String dot EmptyString))
    by (rewrite length_append; simpl; lia).
  apply str_drop_append.
Qed.

End agdnet_facts.

(** ** Concrete inputs *)

(** A cache that forgets nothing. *)
Definition fun_cache (K V : Type) `{EqDecision K} : AgdCache K V := {|
  cache := K -> option V;
  cmap c k := c k;
  cempty := fun _ => None;
  cget c k := (c k, c);
  cset c k v := fun k' => if decide (k' = k) then Some v else c k';
  cclear _ := fun _ => None;
|}.

Lemma fun_cache_spec (K V : Type) `{EqDecision K} : AgdCacheSpec K V (H := fun_cache K V).
Proof. split; try done. intros c k v k' v'. simpl. case_decide; [|by right]. intros [= <-]. by left. Qed.

(** Public suffixes of one label. *)
#[local] Instance tld_list : PublicSuffixList := fun d => cut_labels d (length (labels d) - 1).

#[local] Instance ref_subdomains : Subdomains := fun orig d => orig ++ subdomains d.
#[local] Instance ref_subdomains_spec : SubdomainsSpec.
Proof. done. Qed.

Lemma AppendSubdomains_exact_witness :
  AppendSubdomains [] "a.b.c.org" 3 = ["b.c.org"; "c.org"]%string.
Proof. rewrite (AppendSubdomains_exact "a.b.c.org" 3 3); [reflexivity|simpl; lia|simpl; lia|reflexivity|simpl; lia]. Defined.

Lemma EffectiveTLDPlusOne_spec_witness : EffectiveTLDPlusOne "a.b.c.org" = Ok "c.org"%string.
Proof.
  apply (EffectiveTLDPlusOne_spec "a.b.c.org" 3); [simpl; lia|reflexivity].
Defined.
