(* ===== verification/RuleList.v ===== *)
(** Rule-list filters: internal/filter/internal/rulelist (rulelist.go,
    immutable.go, refreshable.go, dnsrewrite.go) and internal/filter/custom.

    The rule engine is the package urlfilter, a parameter ([Urlfilter]).  A rule
    carries the identity of its pointer, since the composite filter indexes rules
    by their pointers. *)

From S2P Require Import Prelude GoStd NetIP HumanID DnsMsg Filter.

Open Scope Z_scope.

(** ** urlfilter *)

Inductive RRValue :=
  | RV_Addr (ip : Addr)
  | RV_String (s : string)
  | RV_MX (exchange : string) (preference : Z)
  | RV_SRV (target : string) (priority weight port : Z)
  | RV_SVCB (priority : Z) (target : string) (params : list (string * string))
  | RV_Nil.

Record DNSRewrite := { dr_NewCNAME : string; dr_RCode : Z; dr_RRType : Z; dr_Value : RRValue }.

Record NetworkRule := {
  nr_ptr : nat;
  nr_Text : string;
  nr_Whitelist : bool;
  nr_DNSRewrite : option DNSRewrite;
}.

Record HostRule := { hr_ptr : nat; hr_Text : string }.

Record DNSRequest := {
  ur_ClientIP : Addr;
  ur_ClientIdentifiers : gset string;
  ur_DNSType : Z;
  ur_Hostname : string;
  ur_Answer : bool;
}.

Record DNSResult := {
  NetworkRules : list NetworkRule;
  HostRulesV4 : list HostRule;
  HostRulesV6 : list HostRule;
}.

(** [MatchRequest] is [MatchRequestInto] on a result that has been reset: the
    result of the match and the contents of the result structure.
    [res_NetworkRule] is the field [NetworkRule] of the result. *)
Class Urlfilter := {
  DNSEngine : Type;
  NewDNSEngine : string -> DNSEngine;
  MatchRequest : DNSEngine -> DNSRequest -> bool * DNSResult;
  GetDNSBasicRule : list NetworkRule -> option NetworkRule;
  DNSRewrites : DNSResult -> list NetworkRule;
  res_NetworkRule : DNSResult -> option NetworkRule;
}.

(** The basic rule is one of the given rules, and the rewrite rules are rules of
    the result that have a rewrite. *)
Class UrlfilterSpec `{Urlfilter} : Prop := {
  basic_rule_in l r : GetDNSBasicRule l = Some r -> r ∈ l;
  rewrites_in res r : r ∈ DNSRewrites res -> r ∈ NetworkRules res /\ is_Some (nr_DNSRewrite r);
}.

(** ** internal/agdurlflt

    The buffer of the code grows when it must, so the capacity that [RulesLen]
    computes does not change the result. *)
Definition newline : ascii := "010"%char.

Definition RulesLen (ruleStrs : list string) : Z :=
  foldl (fun l s => l + (len s + 1)) 0 ruleStrs.

(** [buf.WriteString(s)] and [buf.WriteByte('\n')]. *)
Definition write_line (buf s : string) : string := buf +:+ s +:+ String newline EmptyString.

Definition RulesToBytes (ruleStrs : list string) : string :=
  if RulesLen ruleStrs =? 0 then EmptyString else foldl write_line EmptyString ruleStrs.

(** The loop over the runes of a rule writes what [strings.ToLower] returns. *)
Definition RulesToBytesLower `{UnicodeCase} (ruleStrs : list string) : string :=
  if RulesLen ruleStrs =? 0 then EmptyString
  else foldl (fun buf s => write_line buf (ToLower s)) EmptyString ruleStrs.

(** ** rulelist.go *)

Section rulelist.
Context `{Urlfilter} `{AgdCache CacheKey (option DNSResult)}.

(** [bf_cache] is [None] for an [EmptyResultCache]. *)
Record baseFilter := {
  bf_engine : DNSEngine;
  bf_cache : option cache;
  bf_id : string;
  bf_svcID : string;
}.

Definition newBaseFilter (rulesData id svcID : string) (c : option cache) : baseFilter :=
  {| bf_engine := NewDNSEngine rulesData; bf_cache := c; bf_id := id; bf_svcID := svcID |}.

Definition with_cache (f : baseFilter) (c : cache) : baseFilter :=
  {| bf_engine := bf_engine f; bf_cache := Some c; bf_id := bf_id f; bf_svcID := bf_svcID f |}.

(** What the engine says; [None] is no match. *)
Definition engine_result (e : DNSEngine) (req : DNSRequest) : option DNSResult :=
  let '(ok, res) := MatchRequest e req in
  if ok || (0 <? Z.of_nat (length (NetworkRules res))) then Some res else None.

Definition request_key (req : DNSRequest) : CacheKey :=
  NewCacheKey (ur_Hostname req) (ur_DNSType req) ClassINET (ur_Answer req).

(** The result is [res] if [ok] is true. *)
Definition SetURLFilterResult (f : baseFilter) (req : DNSRequest) : option DNSResult * baseFilter :=
  match bf_cache f with
  | None => (engine_result (bf_engine f) req, f)
  | Some c =>
      let cacheKey := request_key req in
      match cget c cacheKey with
      | (Some cachedRes, c) => (cachedRes, with_cache f c)
      | (None, c) =>
          let res := engine_result (bf_engine f) req in
          (res, with_cache f (cset c cacheKey res))
      end
  end.

(** ** refreshable.go

    [data] is what the refreshable has loaded, or its error. *)
Definition rulelist_Refresh (f : baseFilter) (data : result error string) : option error * baseFilter :=
  match data with
  | Err err => (Some err, f)
  | Ok rulesData =>
      (None, {| bf_engine := NewDNSEngine rulesData; bf_cache := cclear <$> bf_cache f;
                bf_id := bf_id f; bf_svcID := bf_svcID f |})
  end.

(** ** internal/filter/custom

    The filter is compiled at its first use, without a cache. *)
Record CustomFilter := { cf_rules : list string; cf_immutable : option baseFilter }.

Definition custom_New (rules : list string) : CustomFilter := {| cf_rules := rules; cf_immutable := None |}.

Definition custom_SetURLFilterResult (f : CustomFilter) (req : DNSRequest)
    : option DNSResult * CustomFilter :=
  let imm := default (newBaseFilter (RulesToBytes (cf_rules f)) IDCustom EmptyString None) (cf_immutable f) in
  let '(res, imm) := SetURLFilterResult imm req in
  (res, {| cf_rules := cf_rules f; cf_immutable := Some imm |}).

End rulelist.

(** ** dnsrewrite.go *)

Section rewrite.
Context `{MiekgDNS} `{SvcbParsers} `{UnicodeCase}.

(** [drr_Response] are the values for a type in the order of the rules. *)
Record dnsRewriteResult := {
  drr_Response : list (Z * RRValue);
  drr_CanonName : string;
  drr_ResRuleText : string;
  drr_RCode : Z;
}.

Definition empty_rewrite : dnsRewriteResult :=
  {| drr_Response := []; drr_CanonName := EmptyString; drr_ResRuleText := EmptyString;
     drr_RCode := RcodeSuccess |}.

(** A rule without a rewrite makes the code dereference nil. *)
Fixpoint processDNSRewriteRules (dnsr : list NetworkRule) (res : dnsRewriteResult)
    : outcome dnsRewriteResult :=
  match dnsr with
  | [] => Ret res
  | rule :: dnsr =>
      match nr_DNSRewrite rule with
      | None => Panic "nil pointer dereference"
      | Some dr =>
          if negb (bool_decide (dr_NewCNAME dr = EmptyString)) then
            Ret {| drr_Response := drr_Response res; drr_CanonName := dr_NewCNAME dr;
                   drr_ResRuleText := nr_Text rule; drr_RCode := drr_RCode res |}
          else if negb (dr_RCode dr =? RcodeSuccess) then
            Ret {| drr_Response := drr_Response res; drr_CanonName := drr_CanonName res;
                   drr_ResRuleText := nr_Text rule; drr_RCode := dr_RCode dr |}
          else
            processDNSRewriteRules dnsr
              {| drr_Response := drr_Response res ++ [(dr_RRType dr, dr_Value dr)];
                 drr_CanonName := drr_CanonName res; drr_ResRuleText := drr_ResRuleText res;
                 drr_RCode := dr_RCode dr |}
      end
  end.

(** The values for the type [rr], [res.Response[rr]]. *)
Definition values_for (res : dnsRewriteResult) (rr : Z) : list RRValue :=
  omap (fun '(t, v) => if t =? rr then Some v else None) (drr_Response res).

(** The answer functions; [None] is a nil answer. *)
Definition filterDNSRewriteResponse (req : Request) (rr : Z) (v : RRValue)
    : outcome (result error (option RR)) :=
  let msgs := f_Messages req in
  let ok (o : outcome RR) := let! ans := o in Ret (Ok (Some ans)) in
  let res (r : result error RR) := Ret (let? ans := r in Ok (Some ans)) in
  if (rr =? TypeA) || (rr =? TypeAAAA) then
    match v with
    | RV_Addr ip =>
        let! q := index (m_Question (f_DNS req)) 0 in
        res (if rr =? TypeA then NewAnswerA msgs (q_Name q) ip else NewAnswerAAAA msgs (q_Name q) ip)
    | _ => Ret (Err (ErrConst "value for rr type %d has type %T, not net.IP"))
    end
  else if (rr =? TypePTR) || (rr =? TypeTXT) then
    match v with
    | RV_String s =>
        if rr =? TypeTXT then let! r := NewAnswerTXT msgs (f_DNS req) [s] in res r
        else ok (NewAnswerPTR msgs (f_DNS req) s)
    | _ => Ret (Err (ErrConst "value for rr type %d has type %T, not string"))
    end
  else if rr =? TypeMX then
    match v with
    | RV_MX exchange pref => ok (NewAnswerMX msgs (f_DNS req) exchange pref)
    | _ => Ret (Err (ErrConst "value for rr type %d has type %T, not *rules.DNSMX"))
    end
  else if (rr =? TypeHTTPS) || (rr =? TypeSVCB) then
    match v with
    | RV_SVCB prio target params =>
        ok (if rr =? TypeHTTPS then NewAnswerHTTPS msgs (f_DNS req) prio target params
            else NewAnswerSVCB msgs (f_DNS req) prio target params)
    | _ => Ret (Err (ErrConst "value for rr type %d has type %T, not *rules.DNSSVCB"))
    end
  else if rr =? TypeSRV then
    match v with
    | RV_SRV target prio weight port => ok (NewAnswerSRV msgs (f_DNS req) target prio weight port)
    | _ => Ret (Err (ErrConst "value for rr type %d has type %T, not *rules.DNSSRV"))
    end
  else Ret (Ok None).

(** The loop over the values. *)
Fixpoint rewrite_answers (req : Request) (rr : Z) (values : list RRValue) (resp : Msg)
    : outcome (result error Msg) :=
  match values with
  | [] => Ret (Ok resp)
  | v :: values =>
      let! r := filterDNSRewriteResponse req rr v in
      match r with
      | Err err => Ret (Err (ErrWrap "dns rewrite response for %d[%d]: %w" err))
      | Ok None => rewrite_answers req rr values resp
      | Ok (Some ans) => rewrite_answers req rr values (set_Answer resp (m_Answer resp ++ [ans]))
      end
  end.

Definition filterDNSRewrite (req : Request) (res : dnsRewriteResult) : outcome (result error Msg) :=
  let resp := NewBlockedRespRCode (f_Messages req) (f_DNS req) RcodeSuccess in
  let! q := index (m_Question (f_DNS req)) 0 in
  rewrite_answers req (q_Qtype q) (values_for res (q_Qtype q)) resp.

Definition ProcessDNSRewrites (req : Request) (dnsr : list NetworkRule) (id : string)
    : outcome (option Result) :=
  if (length dnsr =? 0)%nat then Ret None
  else
    let! dnsRwRes := processDNSRewriteRules dnsr empty_rewrite in
    if negb (bool_decide (drr_CanonName dnsRwRes = EmptyString)) then
      if EqualFold (drr_CanonName dnsRwRes) (f_Host req) then Ret None
      else
        let! modReq := set_question_name (f_DNS req) (Fqdn (drr_CanonName dnsRwRes)) in
        Ret (Some (ResultModifiedRequest modReq id (drr_ResRuleText dnsRwRes)))
    else if negb (drr_RCode dnsRwRes =? RcodeSuccess) then
      let resp := NewBlockedRespRCode (f_Messages req) (f_DNS req) (drr_RCode dnsRwRes) in
      Ret (Some (ResultModifiedResponse resp id (drr_ResRuleText dnsRwRes)))
    else
      let! r := filterDNSRewrite req dnsRwRes in
      Ret match r with
          | Err _ => None
          | Ok resp => Some (ResultModifiedResponse resp id EmptyString)
          end.

End rewrite.

(** * Facts *)

(** ** Rule texts *)

Lemma RulesLen_from l0 rs : foldl (fun l s => l + (len s + 1)) l0 rs = l0 + RulesLen rs.
Proof.
  unfold RulesLen. revert l0. induction rs as [|r rs IH]; intros l0; simpl; [lia|].
  rewrite IH, (IH (0 + _)). lia.
Qed.

Lemma RulesLen_cons r rs : RulesLen (r :: rs) = len r + 1 + RulesLen rs.
Proof. unfold RulesLen at 1. simpl. rewrite RulesLen_from. lia. Qed.

Lemma RulesLen_nonneg rs : 0 <= RulesLen rs.
Proof. induction rs as [|r rs IH]; [done|]. rewrite RulesLen_cons. pose proof (len_nonneg r). lia. Qed.

Lemma write_lines buf rs :
  foldl write_line buf rs = buf +:+ foldl write_line EmptyString rs.
Proof.
  revert buf. induction rs as [|r rs IH]; intros buf; simpl; [by rewrite append_nil_r|].
  rewrite IH, (IH (write_line EmptyString r)). unfold write_line. simpl. by rewrite !append_assoc.
Qed.

Lemma RulesToBytes_cons r rs : RulesToBytes (r :: rs) = r +:+ String newline (RulesToBytes rs).
Proof.
  unfold RulesToBytes. pose proof (RulesLen_nonneg rs). pose proof (len_nonneg r).
  rewrite RulesLen_cons. case_if; [bool_simp; lia|]. simpl. rewrite write_lines. unfold write_line at 1. simpl.
  rewrite append_assoc. simpl. do 2 f_equal. case_if; [|done]. bool_simp.
  destruct rs as [|r' rs]; [done|]. rewrite RulesLen_cons in *.
  pose proof (RulesLen_nonneg rs). pose proof (len_nonneg r'). lia.
Qed.

(** The rules of a custom filter or an access manager reach the rule engine
    unchanged: the text that is compiled consists of exactly the rules, in order,
    one on each line, and the buffer has exactly the size it needs. *)
Theorem RulesToBytes_lines rs :
  (forall r, r ∈ rs -> CountByte r newline = 0%nat) ->
  SplitByte (RulesToBytes rs) newline = rs ++ [EmptyString] /\ len (RulesToBytes rs) = RulesLen rs.
Proof.
  induction rs as [|r rs IH]; intros Hall; [done|].
  destruct IH as [IH1 IH2]; [intros x Hx; apply Hall; by right|].
  rewrite RulesToBytes_cons, SplitByte_app, IH1, RulesLen_cons. split.
  - rewrite SplitByte_none by (apply Hall; by left). done.
  - rewrite <- IH2. unfold len. rewrite length_append. simpl. lia.
Qed.

(** ** The result cache *)

Section cache_facts.
Context `{Urlfilter} `{AgdCache CacheKey (option DNSResult)} `{!AgdCacheSpec CacheKey (option DNSResult)}.

Inductive rl_event :=
  | RlMatch (req : DNSRequest)
  | RlRefresh (data : result error string).

Definition rl_exec (f : baseFilter) (e : rl_event) : baseFilter :=
  match e with
  | RlMatch req => (SetURLFilterResult f req).2
  | RlRefresh data => (rulelist_Refresh f data).2
  end.

(** The rules that were loaded last. *)
Definition rl_data (data0 : string) (evs : list rl_event) : string :=
  foldl (fun d e => match e with RlRefresh (Ok d') => d' | _ => d end) data0 evs.

(** The requests that were matched since these rules were loaded. *)
Definition rl_matched (evs : list rl_event) : list DNSRequest :=
  foldl (fun l e =>
    match e with RlMatch req => l ++ [req] | RlRefresh (Ok _) => [] | RlRefresh (Err _) => l end) [] evs.

(** The engine looks at the host, the type and the direction only: its rules
    have no modifiers for clients. *)
Definition key_determined (e : DNSEngine) : Prop :=
  forall r1 r2, request_key r1 = request_key r2 -> engine_result e r1 = engine_result e r2.

(** Every cached result is what the engine said for one of the requests [rs]. *)
Definition rl_coherent (rs : list DNSRequest) (f : baseFilter) : Prop :=
  forall c, bf_cache f = Some c ->
  forall k v, cmap c k = Some v ->
    exists req, req ∈ rs /\ request_key req = k /\ v = engine_result (bf_engine f) req.

Lemma SetURLFilterResult_coherent rs f req :
  rl_coherent rs f ->
  let '(r, f') := SetURLFilterResult f req in
  (exists req', req' ∈ rs ++ [req] /\ request_key req' = request_key req /\
     r = engine_result (bf_engine f) req') /\
  rl_coherent (rs ++ [req]) f' /\ bf_engine f' = bf_engine f.
Proof.
  intros Hc. assert (req ∈ rs ++ [req]) as Hreq by (apply elem_of_app; right; by left).
  assert (forall req', req' ∈ rs -> req' ∈ rs ++ [req]) as Hin by (intros; apply elem_of_app; by left).
  unfold SetURLFilterResult. destruct (bf_cache f) as [c|] eqn:Ec.
  2:{ split_and!; [by exists req| |done]. intros c Hcc. congruence. }
  specialize (Hc c Ec). pose proof (cget_map c (request_key req)) as Hg.
  pose proof (cget_keeps c (request_key req)) as Hkeep.
  destruct (cget c (request_key req)) as [[v|] c']; simpl in *.
  - split_and!; [|intros c'' [= <-] k v' Hv|done].
    + destruct (Hc (request_key req) v) as (r & ? & ? & ?); [done|]. exists r. auto.
    + destruct (Hc k v') as (r & ? & ? & ?); [by apply Hkeep|]. exists r. auto.
  - split_and!; [by exists req|intros c'' [= <-] k v' Hv|done].
    apply cset_map in Hv as [[-> ->]|Hv]; [by exists req|].
    destruct (Hc k v') as (r & ? & ? & ?); [by apply Hkeep|]. exists r. auto.
Qed.

Lemma rl_exec_coherent data0 id svcID evs :
  let f := foldl rl_exec (newBaseFilter data0 id svcID (Some cempty)) evs in
  rl_coherent (rl_matched evs) f /\ bf_engine f = NewDNSEngine (rl_data data0 evs).
Proof.
  unfold rl_data, rl_matched. induction evs as [|e evs [Hc He]] using rev_ind.
  - split; [|done]. intros c [= <-] k v Hv. by rewrite cmap_empty in Hv.
  - rewrite !foldl_app. simpl. destruct e as [r|[d|err]]; simpl; [|split; [|done]|done].
    + pose proof (SetURLFilterResult_coherent _ _ r Hc) as Hs.
      destruct (SetURLFilterResult _ r) as [x f']. destruct Hs as (_ & ? & He'). split; [done|]. etransitivity; [exact He'|exact He].
    + intros c Hcc k v Hv. simpl in Hcc. apply fmap_Some in Hcc as (c0 & _ & ->).
      by rewrite cclear_map in Hv.
Qed.


(** The custom filter of a profile has no cache and always says what its engine
    says, also for rules with client modifiers. *)
Lemma custom_no_cache f req :
  (forall i, cf_immutable f = Some i -> i = newBaseFilter (RulesToBytes (cf_rules f)) IDCustom EmptyString None) ->
  (custom_SetURLFilterResult f req).1 = engine_result (NewDNSEngine (RulesToBytes (cf_rules f))) req /\
  forall i, cf_immutable (custom_SetURLFilterResult f req).2 = Some i ->
    i = newBaseFilter (RulesToBytes (cf_rules f)) IDCustom EmptyString None.
Proof.
  intros Hi. unfold custom_SetURLFilterResult. destruct (cf_immutable f) as [i|]; simpl.
  - rewrite (Hi i eq_refl). simpl. split; [done|]. by intros ? [= <-].
  - split; [done|]. by intros ? [= <-].
Qed.

End cache_facts.

(** ** Rewrites *)

Section rewrite_facts.
Context `{MiekgDNS} `{!MiekgDNSSpec} `{SvcbParsers} `{UnicodeCase}.

(** A rule that decides alone: it has a new name or an error code. *)
Definition decisive (r : NetworkRule) : bool :=
  match nr_DNSRewrite r with
  | Some dr => negb (bool_decide (dr_NewCNAME dr = EmptyString)) || negb (dr_RCode dr =? RcodeSuccess)
  | None => false
  end.

(** The records that the rules give for a type, in the order of the rules. *)
Definition rule_values (dnsr : list NetworkRule) (rr : Z) : list RRValue :=
  omap (fun r => dr ← nr_DNSRewrite r; if dr_RRType dr =? rr then Some (dr_Value dr) else None) dnsr.

Lemma rule_values_cons r dnsr rr dr : nr_DNSRewrite r = Some dr ->
  rule_values (r :: dnsr) rr = (if dr_RRType dr =? rr then [dr_Value dr] else []) ++ rule_values dnsr rr.
Proof. intros Hr. unfold rule_values. cbn [omap list_omap]. rewrite Hr. simpl. by destruct (_ =? _). Qed.

Lemma values_for_snoc resp t v cn rt rc cn' rt' rc' rr :
  values_for {| drr_Response := resp ++ [(t, v)]; drr_CanonName := cn; drr_ResRuleText := rt; drr_RCode := rc |} rr =
  values_for {| drr_Response := resp; drr_CanonName := cn'; drr_ResRuleText := rt'; drr_RCode := rc' |} rr ++
    (if t =? rr then [v] else []).
Proof. unfold values_for. cbn [drr_Response]. rewrite omap_app. simpl. by destruct (t =? rr). Qed.

Lemma process_rules dnsr res :
  (forall r, r ∈ dnsr -> is_Some (nr_DNSRewrite r)) ->
  exists res', processDNSRewriteRules dnsr res = Ret res' /\
  match first_such decisive dnsr with
  | Some r => exists dr, nr_DNSRewrite r = Some dr /\ drr_ResRuleText res' = nr_Text r /\
      if bool_decide (dr_NewCNAME dr = EmptyString)
      then drr_CanonName res' = drr_CanonName res /\ drr_RCode res' = dr_RCode dr
      else drr_CanonName res' = dr_NewCNAME dr
  | None => drr_CanonName res' = drr_CanonName res /\
      (drr_RCode res = RcodeSuccess -> drr_RCode res' = RcodeSuccess) /\
      forall rr, values_for res' rr = values_for res rr ++ rule_values dnsr rr
  end.
Proof.
  revert res. induction dnsr as [|r dnsr IH]; intros res Hall; cbn [processDNSRewriteRules first_such].
  - exists res. split_and!; try done. intros rr. by rewrite app_nil_r.
  - destruct (Hall r) as [dr Hr]; [by left|]. rewrite Hr.
    assert (decisive r = negb (bool_decide (dr_NewCNAME dr = EmptyString)) || negb (dr_RCode dr =? RcodeSuccess))
      as -> by (unfold decisive; by rewrite Hr).
    assert (forall r, r ∈ dnsr -> is_Some (nr_DNSRewrite r)) as Hall' by (intros; apply Hall; by right).
    destruct (bool_decide (dr_NewCNAME dr = EmptyString)) eqn:En; cbn [negb orb].
    + destruct (Z.eqb_spec (dr_RCode dr) RcodeSuccess) as [Ec|Ec]; cbn [negb orb].
      * edestruct IH as (res' & -> & Hr'); [done|]. eexists. split; [done|].
        destruct (first_such decisive dnsr) as [r'|]; [exact Hr'|]. simpl in Hr'.
        destruct Hr' as (Hcn & Hrc & Hv). split_and!; [done|auto|]. intros rr. rewrite Hv.
        rewrite (rule_values_cons _ _ _ _ Hr). destruct res as [resp cn rt rc].
        rewrite (values_for_snoc resp _ _ _ _ _ cn rt rc). by rewrite <- app_assoc.
      * eexists. split; [done|]. exists dr. by rewrite En.
    + eexists. split; [done|]. exists dr. by rewrite En.
Qed.

Lemma rewrite_response_total req rr v q qs :
  m_Question (f_DNS req) = q :: qs -> exists r, filterDNSRewriteResponse req rr v = Ret r.
Proof.
  intros Hq. unfold filterDNSRewriteResponse, NewAnswerTXT, NewAnswerPTR, NewAnswerMX, NewAnswerHTTPS,
    NewAnswerSVCB, NewAnswerSRV, with_hdr, newHdr. rewrite Hq. simpl.
  repeat case_if; destruct v; simpl; repeat case_if; by eexists.
Qed.

Lemma rewrite_answers_total req rr vs resp q qs :
  m_Question (f_DNS req) = q :: qs -> exists r, rewrite_answers req rr vs resp = Ret r.
Proof.
  intros Hq. revert resp. induction vs as [|v vs IH]; intros resp; simpl; [by eexists|].
  destruct (rewrite_response_total req rr v q qs Hq) as [[[ans|]|err] ->]; simpl; [apply IH..|by eexists].
Qed.

Lemma rewrite_answers_ips req q qs ips resp :
  m_Question (f_DNS req) = q :: qs ->
  (q_Qtype q = TypeA /\ Forall (fun ip => Is4 ip = true) ips) \/
  (q_Qtype q = TypeAAAA /\ Forall (fun ip => Is6 ip = true) ips) ->
  rewrite_answers req (q_Qtype q) (RV_Addr <$> ips) resp =
  Ret (Ok (set_Answer resp (m_Answer resp ++ (answer_for (f_Messages req) q <$> ips)))).
Proof.
  intros Hq. revert resp. induction ips as [|ip ips IH]; intros resp Hips.
  - simpl. rewrite app_nil_r. by destruct resp.
  - assert (filterDNSRewriteResponse req (q_Qtype q) (RV_Addr ip) =
      Ret (Ok (Some (answer_for (f_Messages req) q ip)))) as E.
    { unfold filterDNSRewriteResponse, answer_for. rewrite Hq. simpl.
      destruct Hips as [[-> Hip%Forall_inv]|[-> Hip%Forall_inv]]; simpl; by destruct ip. }
    simpl. rewrite E. simpl. rewrite IH.
    + simpl. by rewrite <- app_assoc.
    + destruct Hips as [[? Hip%Forall_inv_tail]|[? Hip%Forall_inv_tail]]; auto.
Qed.

Lemma AddEDE_Answer c req resp code : m_Answer (AddEDE c req resp code) = m_Answer resp.
Proof. unfold AddEDE. by repeat case_match. Qed.

Lemma NewBlockedRespRCode_Answer c req rc : m_Answer (NewBlockedRespRCode c req rc) = [].
Proof. unfold NewBlockedRespRCode, NewResp. rewrite AddEDE_Answer. simpl. by rewrite reply_Answer. Qed.

(** What rewrite rules do to a request.  The first rule with a new name or an
    error code decides: a new name, unless it is the requested name itself, makes
    a request for that name; an error code makes a response with that code.  If
    there is no such rule, the response to an address question has as its answers
    exactly the addresses that the rules give for its type, in their order. *)
Theorem ProcessDNSRewrites_priority req dnsr id q qs :
  m_Question (f_DNS req) = q :: qs -> dnsr <> [] ->
  (forall r, r ∈ dnsr -> is_Some (nr_DNSRewrite r)) ->
  match first_such decisive dnsr with
  | Some r => exists dr, nr_DNSRewrite r = Some dr /\
      ProcessDNSRewrites req dnsr id =
        Ret (if bool_decide (dr_NewCNAME dr = EmptyString) then
               Some (ResultModifiedResponse
                 (NewBlockedRespRCode (f_Messages req) (f_DNS req) (dr_RCode dr)) id (nr_Text r))
             else if EqualFold (dr_NewCNAME dr) (f_Host req) then None
             else Some (ResultModifiedRequest (set_Question (f_DNS req)
               ({| q_Name := Fqdn (dr_NewCNAME dr); q_Qtype := q_Qtype q; q_Qclass := q_Qclass q |} :: qs))
               id (nr_Text r)))
  | None => forall ips, rule_values dnsr (q_Qtype q) = RV_Addr <$> ips ->
      (q_Qtype q = TypeA /\ Forall (fun ip => Is4 ip = true) ips) \/
      (q_Qtype q = TypeAAAA /\ Forall (fun ip => Is6 ip = true) ips) ->
      exists resp, ProcessDNSRewrites req dnsr id = Ret (Some (ResultModifiedResponse resp id EmptyString)) /\
        m_Answer resp = answer_for (f_Messages req) q <$> ips
  end.
Proof.
  intros Hq Hne Hall. unfold ProcessDNSRewrites.
  destruct (Nat.eqb_spec (length dnsr) 0) as [E|_]; [by destruct dnsr|].
  destruct (process_rules dnsr empty_rewrite Hall) as (res' & -> & Hr).
  destruct (first_such decisive dnsr) as [r|] eqn:Ef; simpl.
  - destruct Hr as (dr & Hdr & Ht & Hc). exists dr. split; [done|].
    apply first_such_Some in Ef as [_ Hdec]. unfold decisive in Hdec. rewrite Hdr in Hdec.
    destruct (bool_decide (dr_NewCNAME dr = EmptyString)) eqn:En; simpl in *.
    + destruct Hc as [-> ->]. simpl. rewrite Hdec. by rewrite Ht.
    + rewrite Hc, En. simpl. case_if; [done|]. unfold set_question_name. rewrite Hq. simpl. by rewrite Ht.
  - destruct Hr as (-> & Hrc & Hv). simpl. rewrite Hrc by done. simpl. intros ips Hips Hfam.
    unfold filterDNSRewrite. rewrite Hq. simpl. rewrite Hv. simpl. rewrite Hips.
    rewrite (rewrite_answers_ips req q qs) by done. simpl. rewrite NewBlockedRespRCode_Answer.
    eexists. split; [done|]. done.
Qed.

Lemma ProcessDNSRewrites_total req dnsr id q qs :
  m_Question (f_DNS req) = q :: qs -> (forall r, r ∈ dnsr -> is_Some (nr_DNSRewrite r)) ->
  exists r, ProcessDNSRewrites req dnsr id = Ret r.
Proof.
  intros Hq Hall. unfold ProcessDNSRewrites. case_if; [by eexists|].
  destruct (process_rules dnsr empty_rewrite Hall) as (res' & -> & _). simpl.
  unfold set_question_name, filterDNSRewrite. rewrite Hq. simpl.
  repeat case_if; try by eexists.
  edestruct rewrite_answers_total as [r ->]; [done|]. by eexists.
Qed.

End rewrite_facts.

(** ** Concrete inputs *)

#[local] Existing Instance ref_miekg.
#[local] Existing Instance ref_miekg_spec.
#[local] Existing Instance ref_unicode.
#[local] Instance result_cache : AgdCache CacheKey (option DNSResult) := fun_cache _ _.
#[local] Instance result_cache_spec : AgdCacheSpec CacheKey (option DNSResult) := fun_cache_spec _ _.

Definition block_rule (text : string) : NetworkRule :=
  {| nr_ptr := 1; nr_Text := text; nr_Whitelist := false; nr_DNSRewrite := None |}.

Definition no_result : DNSResult := {| NetworkRules := []; HostRulesV4 := []; HostRulesV6 := [] |}.

(** An engine whose only rule blocks one host, if it is given for all clients, or
    for one client: the text is the host, or the client's name and the host. *)
#[local] Instance toy_urlfilter : Urlfilter := {|
  DNSEngine := string;
  NewDNSEngine d := d;
  MatchRequest e req :=
    let applies :=
      match Cut e "@" with
      | (cl, host, true) => bool_decide (cl ∈ ur_ClientIdentifiers req /\ host = ur_Hostname req)
      | (host, _, false) => bool_decide (host = ur_Hostname req)
      end in
    (applies, if applies then {| NetworkRules := [block_rule e]; HostRulesV4 := []; HostRulesV6 := [] |}
              else no_result);
  GetDNSBasicRule l := head l;
  DNSRewrites res := filter (fun r => is_Some (nr_DNSRewrite r)) (NetworkRules res);
  res_NetworkRule res := head (NetworkRules res);
|}.

Definition request_of (host : string) (clients : gset string) : DNSRequest := {|
  ur_ClientIP := AddrZero; ur_ClientIdentifiers := clients; ur_DNSType := TypeA; ur_Hostname := host;
  ur_Answer := false;
|}.

(** The cache key has no client: a rule for the client "phone" that has been
    matched once is then applied to every other client, and the other way round.
    The rule lists of a profile are cached this way, and they are matched with the
    name of the client. *)
Theorem client_rules_cached :
  let f := newBaseFilter "phone@bad.example" "list" EmptyString (Some cempty) in
  let blocked r := bool_decide (is_Some r) in
  let '(r1, f1) := SetURLFilterResult f (request_of "bad.example" {["phone"%string]}) in
  let '(r2, _) := SetURLFilterResult f1 (request_of "bad.example" {["laptop"%string]}) in
  let '(r3, _) := SetURLFilterResult f (request_of "bad.example" {["laptop"%string]}) in
  blocked r1 = true /\ blocked r2 = true /\ blocked r3 = false.
Proof. vm_compute. done. Qed.

(** An engine without client rules. *)
Definition plain_urlfilter : Urlfilter := {|
  DNSEngine := string;
  NewDNSEngine d := d;
  MatchRequest e req :=
    if bool_decide (e = ur_Hostname req)
    then (true, {| NetworkRules := [block_rule e]; HostRulesV4 := []; HostRulesV6 := [] |})
    else (false, no_result);
  GetDNSBasicRule l := head l;
  DNSRewrites res := filter (fun r => is_Some (nr_DNSRewrite r)) (NetworkRules res);
  res_NetworkRule res := head (NetworkRules res);
|}.

Lemma plain_urlfilter_spec : UrlfilterSpec (H := plain_urlfilter).
Proof.
  split.
  - intros [|x l] r; simpl; [done|]. intros [= ->]. by left.
  - intros res r. simpl. by intros [? ?]%list_elem_of_filter.
Qed.


Lemma RulesToBytes_lines_witness :
  SplitByte (RulesToBytes ["||a.example^"; "@@||b.example^"]%string) newline =
    ["||a.example^"; "@@||b.example^"; ""]%string /\
  len (RulesToBytes ["||a.example^"; "@@||b.example^"]%string) =
    RulesLen ["||a.example^"; "@@||b.example^"]%string.
Proof.
  apply (RulesToBytes_lines ["||a.example^"; "@@||b.example^"]%string).
  intros r [->|[->|[]%elem_of_nil]%elem_of_cons]%elem_of_cons; reflexivity.
Defined.

Definition rewrite_rule (text : string) (dr : DNSRewrite) : NetworkRule :=
  {| nr_ptr := 2; nr_Text := text; nr_Whitelist := false; nr_DNSRewrite := Some dr |}.

Definition some_filter_request : Request := {|
  f_DNS := some_request; f_Messages := some_constructor; f_RemoteIP := Addr4 1; f_ClientName := EmptyString;
  f_Host := "bad.example"; f_QType := TypeA; f_QClass := ClassINET;
|}.

#[local] Instance no_svcb : SvcbParsers :=
  {| base64_decode _ := None; ParseIP _ := None; ParseUint16 _ := None |}.

Definition some_rewrites : list NetworkRule :=
  [rewrite_rule "r1" {| dr_NewCNAME := EmptyString; dr_RCode := 0; dr_RRType := TypeAAAA; dr_Value := RV_Nil |};
   rewrite_rule "r2" {| dr_NewCNAME := EmptyString; dr_RCode := 0; dr_RRType := TypeA; dr_Value := RV_Addr (Addr4 9) |}].

Lemma ProcessDNSRewrites_priority_witness :
  exists resp, ProcessDNSRewrites some_filter_request some_rewrites "list" =
    Ret (Some (ResultModifiedResponse resp "list" EmptyString)) /\
  m_Answer resp = [answer_for some_constructor some_question (Addr4 9)].
Proof.
  pose proof (ProcessDNSRewrites_priority some_filter_request some_rewrites "list" some_question [] eq_refl)
    as H. change (first_such decisive some_rewrites) with (@None NetworkRule) in H.
  apply (fun Hne Hall => H Hne Hall [Addr4 9] eq_refl).
  - discriminate.
  - intros r [->|[->|[]%elem_of_nil]%elem_of_cons]%elem_of_cons; eexists; reflexivity.
  - left. split; [reflexivity|by repeat constructor].
Defined.
