(* ===== verification/Composite.v ===== *)
(** The composite filter: internal/filter/internal/composite (composite.go,
    request.go, result.go), with the safe-search filter of
    internal/filter/internal/safesearch that it runs.

    A rule list is its identifiers and the function from requests to results that
    it computes; that the result caches do not change this function is shown in
    RuleList.v.  The request and result structures that the code reuses are reset
    before each use, so they are values here. *)

From S2P Require Import Prelude GoStd NetIP HumanID DnsMsg Filter RuleList.

Open Scope Z_scope.

(** ** result.go *)

Record urlFilterResultCollector := {
  netRuleIDs : gmap nat string;
  hostRuleIDs : gmap nat string;
  netRuleSvcIDs : gmap nat string;
  hostRuleSvcIDs : gmap nat string;
  networkRules : list NetworkRule;
  hostRules4 : list HostRule;
  hostRules6 : list HostRule;
}.

Definition newURLFilterResultCollector : urlFilterResultCollector := {|
  netRuleIDs := ∅; hostRuleIDs := ∅; netRuleSvcIDs := ∅; hostRuleSvcIDs := ∅;
  networkRules := []; hostRules4 := []; hostRules6 := [];
|}.

(** [m[k] = svcID] if the ID is not empty. *)
Definition set_svc (svcID : string) (m : gmap nat string) (k : nat) : gmap nat string :=
  if bool_decide (svcID = EmptyString) then m else <[k := svcID]> m.

Definition collector_add (id svcID : string) (dr : DNSResult) (c : urlFilterResultCollector)
    : urlFilterResultCollector :=
  let net := nr_ptr <$> NetworkRules dr in
  let host := (hr_ptr <$> HostRulesV4 dr) ++ (hr_ptr <$> HostRulesV6 dr) in
  {| netRuleIDs := foldl (fun m k => <[k := id]> m) (netRuleIDs c) net;
     hostRuleIDs := foldl (fun m k => <[k := id]> m) (hostRuleIDs c) host;
     netRuleSvcIDs := foldl (set_svc svcID) (netRuleSvcIDs c) net;
     hostRuleSvcIDs := foldl (set_svc svcID) (hostRuleSvcIDs c) host;
     networkRules := networkRules c ++ NetworkRules dr;
     hostRules4 := hostRules4 c ++ HostRulesV4 dr;
     hostRules6 := hostRules6 c ++ HostRulesV6 dr |}.

(** The rule text of a result: the service for a blocked service, and the text of
    the rule otherwise. *)
Definition rule_text (fltID : string) (svcIDs : gmap nat string) (ptr : nat) (text : string)
    : outcome string :=
  if bool_decide (fltID = IDBlockedService) then
    match svcIDs !! ptr with
    | None => Panic "composite: service id %q not found"
    | Some svcID => Ret svcID
    end
  else Ret text.

Definition netRuleDataToResult (c : urlFilterResultCollector) (nr : NetworkRule) : outcome Result :=
  match netRuleIDs c !! nr_ptr nr with
  | None => Panic "composite: filter id %q not found"
  | Some fltID =>
      let! rule := rule_text fltID (netRuleSvcIDs c) (nr_ptr nr) (nr_Text nr) in
      Ret (if nr_Whitelist nr then ResultAllowed fltID rule else ResultBlocked fltID rule)
  end.

Definition hostRuleDataToResult (c : urlFilterResultCollector) (hr : HostRule) : outcome Result :=
  match hostRuleIDs c !! hr_ptr hr with
  | None => Panic "composite: filter id %q not found"
  | Some fltID =>
      let! rule := rule_text fltID (hostRuleSvcIDs c) (hr_ptr hr) (hr_Text hr) in
      Ret (ResultBlocked fltID rule)
  end.

Definition hostsRulesToResult (c : urlFilterResultCollector) (rrType : Z) : outcome (option Result) :=
  let some hr := let! r := hostRuleDataToResult c hr in Ret (Some r) in
  match hostRules4 c, hostRules6 c with
  | [], [] => Ret None
  | hr4 :: _, [] => some hr4
  | [], hr6 :: _ => some hr6
  | hr4 :: _, hr6 :: _ => if rrType =? TypeAAAA then some hr6 else some hr4
  end.

Section composite.
Context `{Urlfilter} `{MiekgDNS} `{SvcbParsers} `{UnicodeCase}.

Definition toInternal (c : urlFilterResultCollector) (rrType : Z) : outcome (option Result) :=
  match GetDNSBasicRule (networkRules c) with
  | Some nr => let! r := netRuleDataToResult c nr in Ret (Some r)
  | None => hostsRulesToResult c rrType
  end.

(** ** request.go *)

Definition RequestFilter := Request -> outcome (result error (option Result)).
Definition RequestFilterUF := Request -> DNSRequest -> outcome (result error (option Result)).

(** A request structure after [Reset]. *)
Definition reset_request : DNSRequest := {|
  ur_ClientIP := AddrZero; ur_ClientIdentifiers := ∅; ur_DNSType := 0; ur_Hostname := EmptyString;
  ur_Answer := false;
|}.

Definition ufRequestFilter (flt : RequestFilterUF) : RequestFilter := fun req => flt req reset_request.

(** ** composite.go *)

Record ListFilter := {
  lf_id : string;
  lf_svcID : string;
  lf_match : DNSRequest -> option DNSResult;
}.

Record CompositeConfig := {
  cc_SafeBrowsing : option RequestFilter;
  cc_AdultBlocking : option RequestFilter;
  cc_NewRegisteredDomains : option RequestFilter;
  cc_Typosquatting : option RequestFilter;
  cc_GeneralSafeSearch : option RequestFilterUF;
  cc_YouTubeSafeSearch : option RequestFilterUF;
  cc_Custom : option (DNSRequest -> option DNSResult);
  cc_CategoryFilters : list RequestFilter;
  cc_CustomRuleLists : list ListFilter;
  cc_RuleLists : list ListFilter;
  cc_ServiceLists : list ListFilter;
}.

Record CompositeFilter := {
  custom : option (DNSRequest -> option DNSResult);
  ruleLists : list ListFilter;
  customRuleLists : list ListFilter;
  svcLists : list ListFilter;
  reqFilters : list RequestFilter;
}.

Definition appendIfNotNil (orig : list RequestFilter) (flt : option RequestFilter) : list RequestFilter :=
  match flt with Some f => orig ++ [f] | None => orig end.

Definition appendIfNotNilUF (orig : list RequestFilter) (flt : option RequestFilterUF)
    : list RequestFilter :=
  match flt with Some f => orig ++ [ufRequestFilter f] | None => orig end.

Definition composite_New (c : CompositeConfig) : CompositeFilter :=
  let fs := appendIfNotNil [] (cc_SafeBrowsing c) in
  let fs := appendIfNotNil fs (cc_AdultBlocking c) in
  let fs := appendIfNotNilUF fs (cc_GeneralSafeSearch c) in
  let fs := appendIfNotNilUF fs (cc_YouTubeSafeSearch c) in
  let fs := appendIfNotNil fs (cc_NewRegisteredDomains c) in
  let fs := foldl (fun fs df => appendIfNotNil fs (Some df)) fs (cc_CategoryFilters c) in
  let fs := appendIfNotNil fs (cc_Typosquatting c) in
  {| custom := cc_Custom c; customRuleLists := cc_CustomRuleLists c; ruleLists := cc_RuleLists c;
     svcLists := cc_ServiceLists c; reqFilters := fs |}.

Definition addClientID (r : DNSRequest) (id : string) : DNSRequest :=
  if bool_decide (id = EmptyString) then r
  else {| ur_ClientIP := ur_ClientIP r; ur_ClientIdentifiers := {[id]} ∪ ur_ClientIdentifiers r;
          ur_DNSType := ur_DNSType r; ur_Hostname := ur_Hostname r; ur_Answer := ur_Answer r |}.

(** [ufReq.ClientIdentifiers.Clear()]. *)
Definition clear_clients (r : DNSRequest) : DNSRequest :=
  {| ur_ClientIP := ur_ClientIP r; ur_ClientIdentifiers := ∅; ur_DNSType := ur_DNSType r;
     ur_Hostname := ur_Hostname r; ur_Answer := ur_Answer r |}.

Definition filterReqWithCustomFilter (f : CompositeFilter) (req : Request) (ufReq : DNSRequest)
    (c : urlFilterResultCollector) : outcome (option Result * urlFilterResultCollector) :=
  match custom f with
  | None => Ret (None, c)
  | Some cust =>
      match cust (addClientID ufReq (f_ClientName req)) with
      | None => Ret (None, c)
      | Some ufRes =>
          let! r := ProcessDNSRewrites req (DNSRewrites ufRes) IDCustom in
          match r with
          | Some r => Ret (Some r, c)
          | None =>
              let c := collector_add IDCustom EmptyString ufRes c in
              let! r := toInternal c (f_QType req) in
              Ret (r, c)
          end
      end
  end.

(** The loop over lists that stops at a rewrite. *)
Fixpoint match_lists (req : Request) (ufReq : DNSRequest) (lists : list ListFilter)
    (c : urlFilterResultCollector) : outcome (option Result * urlFilterResultCollector) :=
  match lists with
  | [] => Ret (None, c)
  | rl :: lists =>
      match lf_match rl ufReq with
      | None => match_lists req ufReq lists c
      | Some ufRes =>
          let! r := ProcessDNSRewrites req (DNSRewrites ufRes) (lf_id rl) in
          match r with
          | Some r => Ret (Some r, c)
          | None => match_lists req ufReq lists (collector_add (lf_id rl) EmptyString ufRes c)
          end
      end
  end.

Definition filterReqWithCustomRuleLists (f : CompositeFilter) (req : Request) (ufReq : DNSRequest)
    (c : urlFilterResultCollector) : outcome (option Result * urlFilterResultCollector) :=
  let! rc := match_lists req (addClientID ufReq (f_ClientName req)) (customRuleLists f) c in
  match rc with
  | (Some r, c) => Ret (Some r, c)
  | (None, c) => let! r := toInternal c (f_QType req) in Ret (r, c)
  end.

Definition filterReqWithCommonRuleLists (f : CompositeFilter) (req : Request) (ufReq : DNSRequest)
    (c : urlFilterResultCollector) : outcome (option Result * urlFilterResultCollector) :=
  match_lists req ufReq (ruleLists f) c.

(** The loop that adds the results of lists; [svc] tells whether with the IDs of
    their services. *)
Definition collect_lists (svc : bool) (ufReq : DNSRequest) (lists : list ListFilter)
    (c : urlFilterResultCollector) : urlFilterResultCollector :=
  foldl (fun c rl =>
    match lf_match rl ufReq with
    | Some ufRes => collector_add (lf_id rl) (if svc then lf_svcID rl else EmptyString) ufRes c
    | None => c
    end) c lists.

Definition request_for (req : Request) : DNSRequest := {|
  ur_ClientIP := f_RemoteIP req; ur_ClientIdentifiers := ∅; ur_DNSType := f_QType req;
  ur_Hostname := f_Host req; ur_Answer := false;
|}.

(** The results are [r] and [fromCustom]. *)
Definition filterReqWithRuleLists (f : CompositeFilter) (req : Request) : outcome (option Result * bool) :=
  let ufReq := addClientID (request_for req) (f_ClientName req) in
  let! rc := filterReqWithCustomFilter f req ufReq newURLFilterResultCollector in
  match rc with
  | (Some r, _) => Ret (Some r, true)
  | (None, c) =>
      let! rc := filterReqWithCustomRuleLists f req ufReq c in
      match rc with
      | (Some r, _) => Ret (Some r, true)
      | (None, c) =>
          let ufReq := clear_clients ufReq in
          let! rc := filterReqWithCommonRuleLists f req ufReq c in
          match rc with
          | (Some r, _) => Ret (Some r, false)
          | (None, c) =>
              let! r := toInternal (collect_lists true ufReq (svcLists f) c) (f_QType req) in
              Ret (r, false)
          end
      end
  end.

(** The loop over the request filters. *)
Fixpoint run_filters (fs : list RequestFilter) (req : Request) : outcome (result error (option Result)) :=
  match fs with
  | [] => Ret (Ok None)
  | rf :: fs =>
      let! r := rf req in
      match r with
      | Err err => Ret (Err err)
      | Ok (Some r) => Ret (Ok (Some r))
      | Ok None => run_filters fs req
      end
  end.

Definition FilterRequest (f : CompositeFilter) (req : Request) : outcome (result error (option Result)) :=
  let! rc := filterReqWithRuleLists f req in
  let '(rlRes, fromCustom) := rc in
  let go_on :=
    let! r := run_filters (reqFilters f) req in
    Ret match r with
        | Ok None => Ok rlRes
        | r => r
        end in
  match rlRes with
  | Some (ResultAllowed _ _) => if fromCustom then Ret (Ok rlRes) else go_on
  | Some _ => Ret (Ok rlRes)
  | None => go_on
  end.

(** *** Responses *)

(** [hint_string] is the string of a hint, the [String] method of the value. *)
Context (hint_string : SVCBKeyValue -> string).

Definition parseRespAnswer (ans : RR) : option (string * Z) :=
  match rr_Data ans with
  | RD_A ip => Some (IP_String ip, TypeA)
  | RD_AAAA ip => Some (IP_String ip, TypeAAAA)
  | RD_CNAME target => Some (TrimSuffix target ".", TypeCNAME)
  | _ => None
  end.

Definition filterRespWithRuleLists (f : CompositeFilter) (resp : Response) (host : string) (rrType : Z)
    : outcome (option Result) :=
  let ufReq := {| ur_ClientIP := fr_RemoteIP resp; ur_ClientIdentifiers := ∅; ur_DNSType := rrType;
                  ur_Hostname := host; ur_Answer := true |} in
  let c := newURLFilterResultCollector in
  let withClient := addClientID ufReq (fr_ClientName resp) in
  match custom f ≫= (fun cust => cust withClient) with
  | Some ufRes => toInternal (collector_add IDCustom EmptyString ufRes c) rrType
  | None =>
      let c := collect_lists false withClient (customRuleLists f) c in
      let! r := toInternal c rrType in
      match r with
      | Some r => Ret (Some r)
      | None =>
          let ufReq := clear_clients withClient in
          let c := collect_lists false ufReq (ruleLists f) c in
          toInternal (collect_lists true ufReq (svcLists f) c) rrType
      end
  end.

(** The loops over hints and over answers that stop at the first result. *)
Fixpoint first_result {A} (filt : A -> outcome (option Result)) (l : list A) : outcome (option Result) :=
  match l with
  | [] => Ret None
  | x :: l =>
      let! r := filt x in
      match r with Some r => Ret (Some r) | None => first_result filt l end
  end.

Definition filterSVCBHint (f : CompositeFilter) (resp : Response) (hint : string) : outcome (option Result) :=
  first_result (fun s => filterRespWithRuleLists f resp s TypeHTTPS) (SplitByte hint ","%char).

Definition filterHTTPSAnswer (f : CompositeFilter) (resp : Response) (value : list SVCBKeyValue)
    : outcome (option Result) :=
  first_result (fun kv =>
    match kv with
    | SVCBIPv4Hint _ | SVCBIPv6Hint _ => filterSVCBHint f resp (hint_string kv)
    | _ => Ret None
    end) value.

Definition filterAnswer (f : CompositeFilter) (resp : Response) (ans : RR) : outcome (option Result) :=
  match rr_Data ans with
  | RD_HTTPS _ _ value => filterHTTPSAnswer f resp value
  | _ =>
      match parseRespAnswer ans with
      | None => Ret None
      | Some (host, rrType) => filterRespWithRuleLists f resp host rrType
      end
  end.

Definition FilterResponse (f : CompositeFilter) (resp : Response) : outcome (option Result) :=
  first_result (filterAnswer f resp) (m_Answer (fr_DNS resp)).

(** ** internal/filter/internal/safesearch *)

Definition replaceRule (r : option Result) (host : string) : outcome (option Result) :=
  match r with
  | None => Ret None
  | Some (ResultModifiedRequest msg l _) => Ret (Some (ResultModifiedRequest msg l host))
  | Some (ResultModifiedResponse msg l _) => Ret (Some (ResultModifiedResponse msg l host))
  | Some _ => Panic "safesearch: unexpected type for result: %T(%[1]v)"
  end.

Definition safesearch_FilterRequestUF (flt : ListFilter) : RequestFilterUF := fun req ufReq =>
  let qt := f_QType req in
  if negb ((qt =? TypeA) || (qt =? TypeAAAA) || (qt =? TypeHTTPS)) then Ret (Ok None)
  else
    let ufReq := {| ur_ClientIP := ur_ClientIP ufReq; ur_ClientIdentifiers := ur_ClientIdentifiers ufReq;
                    ur_DNSType := f_QType req; ur_Hostname := f_Host req; ur_Answer := ur_Answer ufReq |} in
    match lf_match flt ufReq with
    | None => Ret (Ok None)
    | Some ufRes =>
        let! r := ProcessDNSRewrites req (DNSRewrites ufRes) (lf_id flt) in
        let! r := replaceRule r (f_Host req) in
        Ret (Ok r)
    end.

End composite.

(** * Facts *)

(** ** The collector *)

(** One matched list: its ID, the ID of its service and its result. *)
Definition entry : Type := string * string * DNSResult.

Lemma foldl_insert_lookup {V} (v : V) (ks : list nat) (m : gmap nat V) x :
  foldl (fun m k => <[k := v]> m) m ks !! x = if decide (x ∈ ks) then Some v else m !! x.
Proof.
  revert m. induction ks as [|k ks IH]; intros m; cbn [foldl]; [by rewrite decide_False by set_solver|].
  rewrite IH. destruct (decide (x ∈ ks)); [by rewrite decide_True by set_solver|].
  destruct (decide (x = k)) as [->|].
  - by rewrite decide_True, lookup_insert_eq by set_solver.
  - by rewrite decide_False, lookup_insert_ne by set_solver.
Qed.

Lemma foldl_set_svc_lookup svc (ks : list nat) (m : gmap nat string) x :
  foldl (set_svc svc) m ks !! x =
  if decide (svc = EmptyString) then m !! x else if decide (x ∈ ks) then Some svc else m !! x.
Proof.
  destruct (decide (svc = EmptyString)) as [->|Hne].
  - revert m. induction ks as [|k ks IH]; intros m; simpl; [done|]. by rewrite IH.
  - rewrite <- foldl_insert_lookup. f_equal. revert m. induction ks as [|k ks IH]; intros m; simpl; [done|].
    unfold set_svc at 2. rewrite bool_decide_eq_false_2 by done. apply IH.
Qed.

(** What the maps of a collector say about the lists [L] that were added to it,
    for the rules that [ptrs] takes from a result. *)
Definition ids_ok (L : list entry) (ptrs : DNSResult -> list nat) (ids svcs : gmap nat string) : Prop :=
  forall p id, ids !! p = Some id ->
  exists svc dr, (id, svc, dr) ∈ L /\ p ∈ ptrs dr /\ (svc <> EmptyString -> svcs !! p = Some svc).

Definition net_ptrs (dr : DNSResult) : list nat := nr_ptr <$> NetworkRules dr.
Definition host_rules (dr : DNSResult) : list HostRule := HostRulesV4 dr ++ HostRulesV6 dr.
Definition host_ptrs (dr : DNSResult) : list nat := hr_ptr <$> host_rules dr.

Record collector_ok (L : list entry) (c : urlFilterResultCollector) : Prop := {
  ok_net : ids_ok L net_ptrs (netRuleIDs c) (netRuleSvcIDs c);
  ok_host : ids_ok L host_ptrs (hostRuleIDs c) (hostRuleSvcIDs c);
  ok_net_rules nr : nr ∈ networkRules c -> is_Some (netRuleIDs c !! nr_ptr nr) /\
    exists e, e ∈ L /\ nr ∈ NetworkRules e.2;
  ok_host_rules hr : hr ∈ hostRules4 c ++ hostRules6 c -> is_Some (hostRuleIDs c !! hr_ptr hr) /\
    exists e, e ∈ L /\ hr ∈ host_rules e.2;
}.

Lemma ids_ok_add L ptrs ids svcs id svc dr :
  ids_ok L ptrs ids svcs ->
  ids_ok (L ++ [(id, svc, dr)]) ptrs (foldl (fun m k => <[k := id]> m) ids (ptrs dr))
    (foldl (set_svc svc) svcs (ptrs dr)).
Proof.
  intros Hok p i. rewrite foldl_insert_lookup, foldl_set_svc_lookup.
  destruct (decide (p ∈ ptrs dr)) as [Hp|Hp].
  - intros [= <-]. exists svc, dr. split_and!; [set_solver|done|]. intros Hs. by rewrite decide_False.
  - intros (svc' & dr' & Hin & Hp' & Hs)%Hok. exists svc', dr'. split_and!; [set_solver|done|].
    intros Hne. rewrite (Hs Hne). by destruct (decide (svc = EmptyString)).
Qed.

Lemma is_Some_foldl_insert {V} (v : V) ks (m : gmap nat V) x :
  x ∈ ks \/ is_Some (m !! x) -> is_Some (foldl (fun m k => <[k := v]> m) m ks !! x).
Proof. rewrite foldl_insert_lookup. case_decide; [by eexists|]. intros [?|?]; done. Qed.

Lemma collector_ok_add L c id svc dr :
  collector_ok L c -> collector_ok (L ++ [(id, svc, dr)]) (collector_add id svc dr c).
Proof.
  intros [Hn Hh Hnr Hhr]. split; simpl.
  - by apply ids_ok_add.
  - rewrite <- fmap_app. by apply (ids_ok_add L host_ptrs).
  - intros nr [Hin|Hin]%elem_of_app.
    + destruct (Hnr nr Hin) as [? (e & He & Hx)]. split; [apply is_Some_foldl_insert; by right|].
      exists e. split; [set_solver|done].
    + split; [apply is_Some_foldl_insert; left; by apply list_elem_of_fmap_2|].
      exists (id, svc, dr). split; [set_solver|done].
  - intros hr Hin. assert (hr ∈ hostRules4 c ++ hostRules6 c \/ hr ∈ host_rules dr) as [Hin'|Hin']
      by (unfold host_rules; set_solver).
    + destruct (Hhr hr Hin') as [? (e & He & Hx)]. split; [apply is_Some_foldl_insert; by right|].
      exists e. split; [set_solver|done].
    + split.
      * apply is_Some_foldl_insert. left. rewrite <- fmap_app. by apply list_elem_of_fmap_2.
      * exists (id, svc, dr). split; [set_solver|done].
Qed.

Lemma collector_ok_new : collector_ok [] newURLFilterResultCollector.
Proof.
  split; simpl.
  - intros p id Hp. by rewrite lookup_empty in Hp.
  - intros p id Hp. by rewrite lookup_empty in Hp.
  - intros nr []%elem_of_nil.
  - intros hr []%elem_of_nil.
Qed.

(** A rule list and its pointers: equal pointers are the same rule, and every
    list of a blocked service has its ID. *)
Record entries_ok (L : list entry) : Prop := {
  ptr_net e e' nr nr' : e ∈ L -> e' ∈ L -> nr ∈ NetworkRules e.2 -> nr' ∈ NetworkRules e'.2 ->
    nr_ptr nr = nr_ptr nr' -> nr = nr';
  ptr_host e e' hr hr' : e ∈ L -> e' ∈ L -> hr ∈ host_rules e.2 -> hr' ∈ host_rules e'.2 ->
    hr_ptr hr = hr_ptr hr' -> hr = hr';
  svc_named id svc dr : (id, svc, dr) ∈ L -> id = IDBlockedService -> svc <> EmptyString;
}.

(** The result names a list that has matched, and a rule of this list's result
    with the verdict; for a blocked service, the rule is the service. *)
Definition from_entry (L : list entry) (r : Result) : Prop :=
  exists id svc dr text,
    (id, svc, dr) ∈ L /\
    (exists white,
      ((exists nr, nr ∈ NetworkRules dr /\ nr_Text nr = text /\ nr_Whitelist nr = white) \/
       (exists hr, hr ∈ host_rules dr /\ hr_Text hr = text /\ white = false)) /\
      let rule := if bool_decide (id = IDBlockedService) then svc else text in
      r = if white : bool then ResultAllowed id rule else ResultBlocked id rule).

Lemma rule_text_ok L ids svcs ptrs p text id :
  ids_ok L ptrs ids svcs -> entries_ok L -> ids !! p = Some id ->
  exists svc dr, (id, svc, dr) ∈ L /\ p ∈ ptrs dr /\
    rule_text id svcs p text = Ret (if bool_decide (id = IDBlockedService) then svc else text).
Proof.
  intros Hok He (svc & dr & Hin & Hp & Hs)%Hok. exists svc, dr. split_and!; [done..|].
  unfold rule_text. case_bool_decide as Eb; [|done].
  rewrite Hs by (by eapply svc_named). done.
Qed.

Section collector_facts.
Context `{Urlfilter} `{!UrlfilterSpec}.

Lemma net_result L c nr : collector_ok L c -> entries_ok L -> nr ∈ networkRules c ->
  exists r, netRuleDataToResult c nr = Ret r /\ from_entry L r.
Proof.
  intros Hc He Hin. destruct (ok_net_rules _ _ Hc nr Hin) as [[id Hid] (e & HeL & Hnr)].
  destruct (rule_text_ok L _ _ _ _ (nr_Text nr) id (ok_net _ _ Hc) He Hid) as (svc & dr & HL & Hp & Ht).
  unfold netRuleDataToResult. rewrite Hid, Ht. simpl. eexists. split; [done|].
  exists id, svc, dr, (nr_Text nr). split; [done|]. exists (nr_Whitelist nr). split; [|done]. left.
  apply list_elem_of_fmap in Hp as (nr' & Ep & Hnr'). exists nr'.
  rewrite (ptr_net L He e (id, svc, dr) nr nr') by done. done.
Qed.

Lemma host_result L c hr : collector_ok L c -> entries_ok L -> hr ∈ hostRules4 c ++ hostRules6 c ->
  exists r, hostRuleDataToResult c hr = Ret r /\ from_entry L r.
Proof.
  intros Hc He Hin. destruct (ok_host_rules _ _ Hc hr Hin) as [[id Hid] (e & HeL & Hhr)].
  destruct (rule_text_ok L _ _ _ _ (hr_Text hr) id (ok_host _ _ Hc) He Hid) as (svc & dr & HL & Hp & Ht).
  unfold hostRuleDataToResult. rewrite Hid, Ht. simpl. eexists. split; [done|].
  exists id, svc, dr, (hr_Text hr). split; [done|]. exists false. split; [|done]. right.
  apply list_elem_of_fmap in Hp as (hr' & Ep & Hhr'). exists hr'.
  rewrite (ptr_host L He e (id, svc, dr) hr hr') by done. done.
Qed.

Lemma toInternal_ok L c rrType : collector_ok L c -> entries_ok L ->
  exists ro, toInternal c rrType = Ret ro /\ forall r, ro = Some r -> from_entry L r.
Proof.
  intros Hc He. unfold toInternal. destruct (GetDNSBasicRule (networkRules c)) as [nr|] eqn:Eb.
  - apply basic_rule_in in Eb. destruct (net_result L c nr Hc He Eb) as (r & -> & Hr).
    simpl. eexists. split; [done|]. by intros ? [= <-].
  - unfold hostsRulesToResult.
    assert (forall hr, hr ∈ hostRules4 c ++ hostRules6 c -> exists ro,
      (let! r := hostRuleDataToResult c hr in Ret (Some r)) = Ret ro /\ forall r, ro = Some r -> from_entry L r)
      as Hsome.
    { intros hr Hin. destruct (host_result L c hr Hc He Hin) as (r & -> & Hr). simpl.
      eexists. split; [done|]. by intros ? [= <-]. }
    destruct (hostRules4 c) as [|h4 l4], (hostRules6 c) as [|h6 l6]; [by eexists|..];
      try case_if; apply Hsome; set_solver.
Qed.

End collector_facts.

(** ** The rule lists of a filter *)

Section filter_facts.
Context `{Urlfilter} `{!UrlfilterSpec} `{MiekgDNS} `{SvcbParsers} `{UnicodeCase}.

(** The result is a rewrite of a list that has matched.  The rule is the list's first
    one with a new name or an error code; if there is none, no rule is named. *)
Definition from_rewrite (L : list entry) (r : Result) : Prop :=
  modified r = true /\
  exists id svc dr, (id, svc, dr) ∈ L /\ DNSRewrites dr <> [] /\
    MatchedRule r = (id, default EmptyString (nr_Text <$> first_such decisive (DNSRewrites dr))).

(** A verdict of one of the lists [L], or a rewrite of one of [R]. *)
Definition sourced (L R : list entry) (r : Result) : Prop := from_entry L r \/ from_rewrite R r.

Definition entries_of (svc : bool) (q : DNSRequest) (lists : list ListFilter) : list entry :=
  omap (fun rl => dr ← lf_match rl q; Some (lf_id rl, if svc then lf_svcID rl else EmptyString, dr)) lists.

Definition client_request (req : Request) : DNSRequest := addClientID (request_for req) (f_ClientName req).

(** The matches of the profile's own rules, and all matches; the lists that are
    not the profile's own do not get the name of the client. *)
Definition custom_entries (f : CompositeFilter) (req : Request) : list entry :=
  option_list ((fun dr => (IDCustom, EmptyString, dr)) <$> (custom f ≫= (fun c => c (client_request req)))) ++
  entries_of false (client_request req) (customRuleLists f).

(** The matches that may rewrite: all but those of the blocked services. *)
Definition list_entries (f : CompositeFilter) (req : Request) : list entry :=
  custom_entries f req ++ entries_of false (request_for req) (ruleLists f).

Definition all_entries (f : CompositeFilter) (req : Request) : list entry :=
  custom_entries f req ++ entries_of false (request_for req) (ruleLists f) ++
  entries_of true (request_for req) (svcLists f).

Lemma addClientID_twice r id : addClientID (addClientID r id) id = addClientID r id.
Proof.
  unfold addClientID. case_bool_decide; [done|]. simpl. f_equal. set_solver.
Qed.

Lemma clear_client_request req : clear_clients (client_request req) = request_for req.
Proof. unfold client_request, addClientID. by case_bool_decide. Qed.

Lemma ProcessDNSRewrites_id req dnsr id r :
  (forall x, x ∈ dnsr -> is_Some (nr_DNSRewrite x)) -> ProcessDNSRewrites req dnsr id = Ret (Some r) ->
  modified r = true /\ dnsr <> [] /\ MatchedRule r = (id, default EmptyString (nr_Text <$> first_such decisive dnsr)).
Proof.
  intros Hall. unfold ProcessDNSRewrites. destruct dnsr as [|x dnsr]; [done|]. cbn [length Nat.eqb].
  destruct (process_rules (x :: dnsr) empty_rewrite Hall) as (res & -> & Hres). cbn [outcome_bind].
  destruct (first_such decisive (x :: dnsr)) as [y|] eqn:Ey.
  - destruct Hres as (dr & Hy & Ht & Hc). destruct (first_such_Some _ _ _ Ey) as [_ Hd]. unfold decisive in Hd. rewrite Hy in Hd.
    destruct (bool_decide (drr_CanonName res = EmptyString)) eqn:En; cbn [negb].
    + destruct (bool_decide (dr_NewCNAME dr = EmptyString)) eqn:Ec.
      * destruct Hc as [_ ->]. cbn [negb orb] in Hd. rewrite Hd. intros [= <-]. simpl. by rewrite Ht.
      * bool_simp. congruence.
    + case_if; [done|]. destruct (set_question_name _ _) as [m|]; simpl; [|done]. intros [= <-]. simpl. by rewrite Ht.
  - destruct Hres as (-> & Hc & _). rewrite (Hc eq_refl). simpl.
    destruct (filterDNSRewrite req res) as [[m|e]|]; simpl; [|done..]. by intros [= <-].
Qed.

Lemma rewrites_have_values dr x : x ∈ DNSRewrites dr -> is_Some (nr_DNSRewrite x).
Proof. by intros [_ ?]%rewrites_in. Qed.

Lemma process_match req dr id q qs :
  m_Question (f_DNS req) = q :: qs ->
  exists ro, ProcessDNSRewrites req (DNSRewrites dr) id = Ret ro /\
    forall L svc r, ro = Some r -> (id, svc, dr) ∈ L -> from_rewrite L r.
Proof.
  intros Hq. destruct (ProcessDNSRewrites_total req (DNSRewrites dr) id q qs Hq) as [ro Hro].
  { apply rewrites_have_values. }
  exists ro. split; [done|]. intros L svc r -> Hin.
  apply ProcessDNSRewrites_id in Hro as (? & ? & ?); [|apply rewrites_have_values].
  split; [done|]. by exists id, svc, dr.
Qed.

Lemma match_lists_ok req u lists q qs L c :
  m_Question (f_DNS req) = q :: qs -> collector_ok L c ->
  exists ro c', match_lists req u lists c = Ret (ro, c') /\
    match ro with
    | Some r => from_rewrite (L ++ entries_of false u lists) r
    | None => collector_ok (L ++ entries_of false u lists) c'
    end.
Proof.
  intros Hq. revert L c. induction lists as [|rl lists IH]; intros L c Hc; simpl.
  - exists None, c. split; [done|]. by rewrite app_nil_r.
  - unfold entries_of in *. simpl. destruct (lf_match rl u) as [dr|]; simpl; [|by apply IH].
    destruct (process_match req dr (lf_id rl) q qs Hq) as (ro & -> & Hro). simpl.
    destruct ro as [r|].
    + exists (Some r), c. split; [done|]. eapply (Hro _ EmptyString); [done|]. set_solver.
    + edestruct IH as (ro & c' & -> & Hr); [by apply collector_ok_add|]. exists ro, c'. split; [done|].
      rewrite <- app_assoc in Hr. exact Hr.
Qed.

Lemma collect_lists_ok svc u lists L c :
  collector_ok L c -> collector_ok (L ++ entries_of svc u lists) (collect_lists svc u lists c).
Proof.
  revert L c. induction lists as [|rl lists IH]; intros L c Hc; simpl; [by rewrite app_nil_r|].
  unfold entries_of in *. simpl. destruct (lf_match rl u) as [dr|]; simpl; [|by apply IH].
  specialize (IH _ _ (collector_ok_add _ _ (lf_id rl) (if svc then lf_svcID rl else EmptyString) dr Hc)).
  by rewrite <- app_assoc in IH.
Qed.

Lemma entries_ok_sub L L' : entries_ok L' -> L ⊆ L' -> entries_ok L.
Proof. intros [Hn Hh Hv] Hs. split; eauto. Qed.

Lemma from_entry_sub L L' r : from_entry L r -> L ⊆ L' -> from_entry L' r.
Proof. intros (id & svc & dr & text & Hin & ?) Hs. exists id, svc, dr, text. eauto. Qed.

Lemma from_rewrite_sub L L' r : from_rewrite L r -> L ⊆ L' -> from_rewrite L' r.
Proof. intros (? & id & svc & dr & Hin & ?) Hs. split; [done|]. exists id, svc, dr. eauto. Qed.

(** The custom filter. *)
Lemma custom_filter_ok f req q qs :
  m_Question (f_DNS req) = q :: qs -> entries_ok (custom_entries f req) ->
  let L := option_list ((fun dr => (IDCustom, EmptyString, dr)) <$> (custom f ≫= (fun c => c (client_request req)))) in
  exists ro c, filterReqWithCustomFilter f req (client_request req) newURLFilterResultCollector = Ret (ro, c) /\
    match ro with
    | Some r => sourced (custom_entries f req) (custom_entries f req) r
    | None => collector_ok L c
    end.
Proof.
  intros Hq He L. unfold filterReqWithCustomFilter. unfold client_request at 1. rewrite addClientID_twice.
  fold (client_request req). subst L. unfold custom_entries in *. destruct (custom f) as [cu|]; simpl in *.
  2:{ exists None, newURLFilterResultCollector. split; [done|]. apply collector_ok_new. }
  destruct (cu (client_request req)) as [dr|]; simpl in *.
  2:{ exists None, newURLFilterResultCollector. split; [done|]. apply collector_ok_new. }
  destruct (process_match req dr IDCustom q qs Hq) as (ro & -> & Hro). simpl. destruct ro as [r|].
  - exists (Some r), newURLFilterResultCollector. split; [done|]. right.
    eapply (Hro _ EmptyString); [done|]. by left.
  - pose proof (collector_ok_add [] _ IDCustom EmptyString dr collector_ok_new) as Hc. simpl in Hc.
    destruct (toInternal_ok _ _ (f_QType req) Hc) as (ro & -> & Hr).
    { eapply entries_ok_sub; [exact He|]. set_solver. }
    simpl. eexists ro, _. split; [done|]. destruct ro as [r|]; [|done].
    left. eapply from_entry_sub; [by apply Hr|set_solver].
Qed.

Lemma rule_lists_sourced f req q qs :
  m_Question (f_DNS req) = q :: qs -> entries_ok (all_entries f req) ->
  exists ro fromCustom, filterReqWithRuleLists f req = Ret (ro, fromCustom) /\
    forall r, ro = Some r -> sourced (if fromCustom then custom_entries f req else all_entries f req)
      (if fromCustom then custom_entries f req else list_entries f req) r.
Proof.
  intros Hq He. unfold filterReqWithRuleLists. fold (client_request req).
  assert (entries_ok (custom_entries f req)) as Hec
    by (eapply entries_ok_sub; [exact He|]; unfold all_entries; set_solver).
  destruct (custom_filter_ok f req q qs Hq Hec) as (ro & c & -> & Hr). simpl.
  destruct ro as [r|]; [exists (Some r), true; split; [done|]; by intros ? [= <-]|].
  unfold filterReqWithCustomRuleLists. unfold client_request at 1. rewrite addClientID_twice.
  fold (client_request req).
  edestruct match_lists_ok as (ro & c' & -> & Hr'); [done|exact Hr|]. simpl.
  fold (custom_entries f req) in Hr'. destruct ro as [r|]; simpl.
  { exists (Some r), true. split; [done|]. intros ? [= <-]. by right. }
  destruct (toInternal_ok _ _ (f_QType req) Hr' Hec) as (ro & -> & Hr2). simpl.
  destruct ro as [r|]; [exists (Some r), true; split; [done|]; intros ? [= <-]; left; by apply Hr2|].
  rewrite clear_client_request. unfold filterReqWithCommonRuleLists.
  edestruct match_lists_ok as (ro & c2 & -> & Hr3); [done|exact Hr'|]. simpl.
  destruct ro as [r|].
  { exists (Some r), false. split; [done|]. intros ? [= <-]. by right. }
  edestruct toInternal_ok as (ro & -> & Hr4); [apply collect_lists_ok, Hr3|by rewrite <- app_assoc|]. simpl.
  exists ro, false. split; [done|]. intros r ->. left. specialize (Hr4 r eq_refl).
  by rewrite <- app_assoc in Hr4.
Qed.

(** The order in which FilterRequest documents its request filters. *)
Definition documented_order (c : CompositeConfig) : list RequestFilter :=
  option_list (cc_SafeBrowsing c) ++ option_list (cc_AdultBlocking c) ++
  (ufRequestFilter <$> option_list (cc_GeneralSafeSearch c)) ++
  (ufRequestFilter <$> option_list (cc_YouTubeSafeSearch c)) ++
  option_list (cc_NewRegisteredDomains c) ++ cc_CategoryFilters c ++ option_list (cc_Typosquatting c).

(** Whether the result of the rule lists ends the filtering. *)
Definition final (ro : option Result) (fromCustom : bool) : bool :=
  match ro with
  | Some (ResultAllowed _ _) => fromCustom
  | Some _ => true
  | None => false
  end.

Lemma composite_New_order c : reqFilters (composite_New c) = documented_order c.
Proof.
  unfold composite_New, documented_order, appendIfNotNil, appendIfNotNilUF. cbn [reqFilters].
  assert (forall l fs : list RequestFilter, foldl (fun fs df => fs ++ [df]) fs l = fs ++ l) as Hf.
  { intros l. induction l as [|x l IH]; intros fs; simpl; [by rewrite app_nil_r|]. by rewrite IH, <- app_assoc. }
  destruct (cc_SafeBrowsing c), (cc_AdultBlocking c), (cc_GeneralSafeSearch c), (cc_YouTubeSafeSearch c),
    (cc_NewRegisteredDomains c), (cc_Typosquatting c); rewrite Hf; simpl; by rewrite ?app_nil_r, <- ?app_assoc.
Qed.

(** **** When the rule lists have no result *)

(** The rules of a collector are those of the lists [L], in their order. *)
Record collected (L : list entry) (c : urlFilterResultCollector) : Prop := {
  col_net : networkRules c = L ≫= (fun e => NetworkRules e.2);
  col_host4 : hostRules4 c = L ≫= (fun e => HostRulesV4 e.2);
  col_host6 : hostRules6 c = L ≫= (fun e => HostRulesV6 e.2);
}.

Lemma collected_add L c id svc dr : collected L c -> collected (L ++ [(id, svc, dr)]) (collector_add id svc dr c).
Proof. intros [Hn H4 H6]. split; simpl; rewrite bind_app; simpl; by rewrite app_nil_r, ?Hn, ?H4, ?H6. Qed.

(** The list does not rewrite the request. *)
Definition no_rewrite (req : Request) (e : entry) : Prop := ProcessDNSRewrites req (DNSRewrites e.2) e.1.1 = Ret None.

Lemma match_lists_none req u lists L c c' : match_lists req u lists c = Ret (None, c') -> collected L c ->
  collected (L ++ entries_of false u lists) c' /\ Forall (no_rewrite req) (entries_of false u lists).
Proof.
  revert L c. induction lists as [|rl lists IH]; intros L c; simpl.
  - intros [= <-]. by rewrite app_nil_r.
  - unfold entries_of in *. simpl. destruct (lf_match rl u) as [dr|]; simpl; [|apply IH].
    destruct (ProcessDNSRewrites req (DNSRewrites dr) (lf_id rl)) as [[r|]|] eqn:Ep; simpl; [done| |done].
    intros E Hc. destruct (IH _ _ E (collected_add _ _ (lf_id rl) EmptyString dr Hc)) as [Hc' Hn].
    rewrite <- app_assoc in Hc'. split; [exact Hc'|]. by constructor.
Qed.

Lemma collect_lists_collected svc u lists L c :
  collected L c -> collected (L ++ entries_of svc u lists) (collect_lists svc u lists c).
Proof.
  revert L c. induction lists as [|rl lists IH]; intros L c Hc; simpl; [by rewrite app_nil_r|].
  unfold entries_of in *. simpl. destruct (lf_match rl u) as [dr|]; simpl; [|by apply IH].
  specialize (IH _ _ (collected_add _ _ (lf_id rl) (if svc then lf_svcID rl else EmptyString) dr Hc)).
  by rewrite <- app_assoc in IH.
Qed.

Lemma custom_none f req u c : filterReqWithCustomFilter f req u newURLFilterResultCollector = Ret (None, c) ->
  let L := option_list ((fun dr => (IDCustom, EmptyString, dr)) <$> (custom f ≫= (fun c => c (addClientID u (f_ClientName req))))) in
  collected L c /\ Forall (no_rewrite req) L.
Proof.
  unfold filterReqWithCustomFilter. destruct (custom f) as [cu|]; simpl; [|by intros [= <-]].
  destruct (cu _) as [dr|]; simpl; [|by intros [= <-]].
  destruct (ProcessDNSRewrites req (DNSRewrites dr) IDCustom) as [[r|]|] eqn:Ep; simpl; [done| |done].
  destruct (toInternal _ _) as [ro|]; simpl; [|done]. intros [= -> <-]. split; [|by constructor].
  apply (collected_add []). by split.
Qed.

Lemma toInternal_none c t : toInternal c t = Ret None ->
  GetDNSBasicRule (networkRules c) = None /\ hostRules4 c = [] /\ hostRules6 c = [].
Proof.
  unfold toInternal, hostsRulesToResult. destruct (GetDNSBasicRule _) as [nr|]; [by destruct (netRuleDataToResult c nr)|].
  destruct (hostRules4 c) as [|h4 l4], (hostRules6 c) as [|h6 l6]; [done|..]; try case_if;
    by destruct (hostRuleDataToResult c _).
Qed.

(** No list rewrites the request, the rules that match do not decide about it, and no
    hosts rule matches. *)
Definition lists_pass (f : CompositeFilter) (req : Request) : Prop :=
  Forall (no_rewrite req) (list_entries f req) /\
  GetDNSBasicRule (all_entries f req ≫= (fun e => NetworkRules e.2)) = None /\
  Forall (fun e => HostRulesV4 e.2 = [] /\ HostRulesV6 e.2 = []) (all_entries f req).

Lemma bind_nil_Forall {A B} (g : A -> list B) l : l ≫= g = [] -> Forall (fun x => g x = []) l.
Proof. induction l as [|x l IH]; [by constructor|]. simpl. intros [? ?]%app_nil. constructor; auto. Qed.

Lemma rule_lists_none f req fc : filterReqWithRuleLists f req = Ret (None, fc) -> lists_pass f req.
Proof.
  unfold filterReqWithRuleLists. fold (client_request req).
  destruct (filterReqWithCustomFilter _ _ _ _) as [[[r|] c]|] eqn:E1; simpl; [done| |done].
  apply custom_none in E1 as [Hc1 Hn1]. unfold client_request in Hc1, Hn1. rewrite addClientID_twice in Hc1, Hn1.
  fold (client_request req) in Hc1, Hn1. unfold filterReqWithCustomRuleLists. unfold client_request at 1.
  rewrite addClientID_twice. fold (client_request req).
  destruct (match_lists _ _ (customRuleLists f) _) as [[[r|] c2]|] eqn:E2; simpl; [done| |done].
  destruct (match_lists_none _ _ _ _ _ _ E2 Hc1) as [Hc2 Hn2]. destruct (toInternal c2 _) as [[r|]|]; simpl; [done| |done].
  rewrite clear_client_request. unfold filterReqWithCommonRuleLists.
  destruct (match_lists _ _ (ruleLists f) _) as [[[r|] c3]|] eqn:E3; simpl; [done| |done].
  destruct (match_lists_none _ _ _ _ _ _ E3 Hc2) as [Hc3 Hn3].
  pose proof (collect_lists_collected true (request_for req) (svcLists f) _ _ Hc3) as Hc4.
  destruct (toInternal _ _) as [ro|] eqn:Et; simpl; [|done]. intros [= -> <-].
  apply toInternal_none in Et as (Hb & Hh4 & Hh6). destruct Hc4 as [Hn H4 H6].
  rewrite <- !app_assoc in Hn, H4, H6. unfold lists_pass, all_entries, list_entries, custom_entries.
  rewrite <- !app_assoc. split_and!.
  - rewrite !Forall_app. done.
  - by rewrite <- Hn.
  - rewrite Hh4 in H4. rewrite Hh6 in H6. apply Forall_and. split; by apply bind_nil_Forall.
Qed.

(** What the first of the filters with something to say says, and [dflt] if none has:
    a result, an error or a panic ends the search. *)
Inductive first_decides (req : Request) (dflt : outcome (result error (option Result)))
    : list RequestFilter -> outcome (result error (option Result)) -> Prop :=
  | decides_none : first_decides req dflt [] dflt
  | decides_later f fs o : f req = Ret (Ok None) -> first_decides req dflt fs o -> first_decides req dflt (f :: fs) o
  | decides_here f fs : f req <> Ret (Ok None) -> first_decides req dflt (f :: fs) (f req).

Lemma run_filters_first fs req ro : first_decides req (Ret (Ok ro)) fs
  (let! r := run_filters fs req in Ret match r with Ok None => Ok ro | r => r end).
Proof.
  induction fs as [|f fs IH]; simpl; [constructor|].
  destruct (f req) as [[[r|]|err]|msg] eqn:Ef; simpl; [|by apply decides_later|..];
    rewrite <- Ef; by apply decides_here; rewrite Ef.
Qed.


(** A request with another client name. *)
Definition set_ClientName (req : Request) (name : string) : Request := {|
  f_DNS := f_DNS req; f_Messages := f_Messages req; f_RemoteIP := f_RemoteIP req; f_ClientName := name;
  f_Host := f_Host req; f_QType := f_QType req; f_QClass := f_QClass req;
|}.

Lemma ProcessDNSRewrites_client req name dnsr id :
  ProcessDNSRewrites (set_ClientName req name) dnsr id = ProcessDNSRewrites req dnsr id.
Proof.
  assert (forall rr vs m, rewrite_answers (set_ClientName req name) rr vs m = rewrite_answers req rr vs m)
    as Hr.
  { intros rr vs. induction vs as [|v vs IH]; intros m; cbn [rewrite_answers]; [done|].
    change (filterDNSRewriteResponse (set_ClientName req name) rr v) with (filterDNSRewriteResponse req rr v).
    destruct (filterDNSRewriteResponse req rr v) as [[[ans|]|e]|]; simpl; [apply IH..|done|done]. }
  unfold ProcessDNSRewrites, filterDNSRewrite. cbn [set_ClientName f_DNS f_Messages f_Host].
  case_if; [done|]. destruct (processDNSRewriteRules dnsr empty_rewrite) as [res|]; simpl; [|done].
  destruct (index (m_Question (f_DNS req)) 0) as [q'|]; simpl; [by rewrite Hr|done].
Qed.

Lemma match_lists_client req name lists u c :
  match_lists (set_ClientName req name) u lists c = match_lists req u lists c.
Proof.
  revert c. induction lists as [|rl lists IH]; intros c; simpl; [done|].
  destruct (lf_match rl u) as [dr|]; [|done]. rewrite ProcessDNSRewrites_client.
  destruct (ProcessDNSRewrites req (DNSRewrites dr) (lf_id rl)) as [[r|]|]; simpl; [done|apply IH|done].
Qed.

(** The name of the client's device is only given to the profile's own rules:
    without them, the result of the rule lists is the same for every device. *)
Theorem common_lists_anonymous f req name :
  custom f = None -> customRuleLists f = [] ->
  filterReqWithRuleLists f (set_ClientName req name) = filterReqWithRuleLists f req.
Proof.
  intros Hc Hl. unfold filterReqWithRuleLists.
  fold (client_request req) (client_request (set_ClientName req name)).
  rewrite !clear_client_request. unfold filterReqWithCustomFilter, filterReqWithCustomRuleLists.
  rewrite Hc, Hl. simpl.
  destruct (toInternal newURLFilterResultCollector (f_QType req)) as [[r|]|]; simpl; [done| |done].
  unfold filterReqWithCommonRuleLists. by rewrite match_lists_client.
Qed.

(** *** Responses *)

Section response_facts.
Context (hint_string : SVCBKeyValue -> string).

(** The names of an answer that are matched against the lists. *)
Definition answer_names (ans : RR) : list (string * Z) :=
  match rr_Data ans with
  | RD_HTTPS _ _ value =>
      value ≫= (fun kv =>
        match kv with
        | SVCBIPv4Hint _ | SVCBIPv6Hint _ =>
            (fun s => (s, TypeHTTPS)) <$> SplitByte (hint_string kv) ","%char
        | _ => []
        end)
  | _ => option_list (parseRespAnswer ans)
  end.

Definition answer_request (resp : Response) (name : string * Z) : DNSRequest := {|
  ur_ClientIP := fr_RemoteIP resp; ur_ClientIdentifiers := ∅; ur_DNSType := name.2; ur_Hostname := name.1;
  ur_Answer := true;
|}.

(** The matches of a name of an answer. *)
Definition answer_entries (f : CompositeFilter) (resp : Response) (name : string * Z) : list entry :=
  let anon := answer_request resp name in
  let named := addClientID anon (fr_ClientName resp) in
  option_list ((fun dr => (IDCustom, EmptyString, dr)) <$> (custom f ≫= (fun c => c named))) ++
  entries_of false named (customRuleLists f) ++ entries_of false anon (ruleLists f) ++
  entries_of true anon (svcLists f).

Lemma first_result_app {A} (filt : A -> outcome (option Result)) l1 l2 :
  first_result filt (l1 ++ l2) =
  (let! r := first_result filt l1 in match r with Some r => Ret (Some r) | None => first_result filt l2 end).
Proof.
  induction l1 as [|x l1 IH]; simpl; [done|]. destruct (filt x) as [[r|]|]; simpl; [done|apply IH|done].
Qed.

Lemma first_result_bind {A B} (filt : A -> outcome (option Result)) (g : B -> list A) l :
  first_result (fun x => first_result filt (g x)) l = first_result filt (l ≫= g).
Proof.
  induction l as [|x l IH]; simpl; [done|]. rewrite first_result_app.
  by destruct (first_result filt (g x)) as [[r|]|]; simpl.
Qed.

Lemma first_result_fmap {A B} (filt : A -> outcome (option Result)) (g : B -> A) l :
  first_result (fun x => filt (g x)) l = first_result filt (g <$> l).
Proof. induction l as [|x l IH]; simpl; [done|]. by rewrite IH. Qed.

Lemma first_result_ext {A} (filt filt' : A -> outcome (option Result)) l :
  (forall x, filt x = filt' x) -> first_result filt l = first_result filt' l.
Proof. intros He. induction l as [|x l IH]; simpl; [done|]. by rewrite He, IH. Qed.

(** The filtering of a response is a search over the names of its answers. *)
Lemma FilterResponse_names f resp :
  FilterResponse hint_string f resp =
  first_result (fun n => filterRespWithRuleLists f resp n.1 n.2) (m_Answer (fr_DNS resp) ≫= answer_names).
Proof.
  unfold FilterResponse. rewrite <- first_result_bind. apply first_result_ext. intros ans.
  unfold filterAnswer, answer_names. set (flt := fun n : string * Z => filterRespWithRuleLists f resp n.1 n.2).
  assert (forall o : option (string * Z),
    match o with None => Ret None | Some (host, rrType) => filterRespWithRuleLists f resp host rrType end =
    first_result flt (option_list o)) as Hone.
  { intros [[h t]|]; simpl; [|done]. unfold flt. simpl.
    by destruct (filterRespWithRuleLists f resp h t) as [[r|]|]. }
  destruct (rr_Data ans); try apply Hone.
  unfold filterHTTPSAnswer. rewrite <- first_result_bind. apply first_result_ext. intros kv.
  unfold filterSVCBHint. destruct kv; try done; apply (first_result_fmap flt (fun s => (s, TypeHTTPS))).
Qed.

Lemma clear_addClientID r id : ur_ClientIdentifiers r = ∅ -> clear_clients (addClientID r id) = r.
Proof. destruct r. simpl. intros ->. unfold addClientID. by case_bool_decide. Qed.

Lemma filterResp_ok f resp n :
  entries_ok (answer_entries f resp n) ->
  exists ro, filterRespWithRuleLists f resp n.1 n.2 = Ret ro /\
    forall r, ro = Some r -> from_entry (answer_entries f resp n) r.
Proof.
  intros He. unfold filterRespWithRuleLists. fold (answer_request resp n).
  rewrite clear_addClientID by done. unfold answer_entries in *.
  set (named := addClientID (answer_request resp n) (fr_ClientName resp)) in *.
  destruct (custom f ≫= _) as [dr|]; simpl in *.
  - destruct (toInternal_ok [(IDCustom, EmptyString, dr)]
      (collector_add IDCustom EmptyString dr newURLFilterResultCollector) n.2) as (ro & -> & Hr).
    + apply (collector_ok_add []), collector_ok_new.
    + eapply entries_ok_sub; [exact He|set_solver].
    + exists ro. split; [done|]. intros r Er. eapply from_entry_sub; [by apply Hr|set_solver].
  - pose proof (collect_lists_ok false named (customRuleLists f) [] _ collector_ok_new) as Hc.
    destruct (toInternal_ok _ _ n.2 Hc) as (ro & -> & Hr); [eapply entries_ok_sub; [exact He|set_solver]|].
    simpl in *. destruct ro as [r|].
    { exists (Some r). split; [done|]. intros ? [= <-]. eapply from_entry_sub; [by apply Hr|set_solver]. }
    edestruct toInternal_ok as (ro & -> & Hr'); [apply collect_lists_ok, collect_lists_ok, Hc| |].
    { by rewrite <- app_assoc. }
    exists ro. split; [done|]. rewrite <- app_assoc in Hr'. exact Hr'.
Qed.

(** How a response is decided.  Every name that the answers lead to is matched
    in order: the address of an A or AAAA answer, the target of a CNAME answer and
    every address hint of an HTTPS answer.  The first name for which the lists have
    a verdict decides; the verdict names a list that has matched this very name and
    a rule of this list, it blocks or allows and never rewrites, and matching never
    panics. *)
Theorem FilterResponse_source f resp :
  let names := m_Answer (fr_DNS resp) ≫= answer_names in
  (forall n, n ∈ names -> entries_ok (answer_entries f resp n)) ->
  exists ro, FilterResponse hint_string f resp = Ret ro /\
    match ro with
    | None => forall n, n ∈ names -> filterRespWithRuleLists f resp n.1 n.2 = Ret None
    | Some r => exists before n after, names = before ++ n :: after /\
        (forall n', n' ∈ before -> filterRespWithRuleLists f resp n'.1 n'.2 = Ret None) /\
        from_entry (answer_entries f resp n) r /\ modified r = false
    end.
Proof.
  intros names. rewrite FilterResponse_names. fold names. induction names as [|n names IH]; intros He; simpl.
  - exists None. split; [done|]. by intros n ?%not_elem_of_nil.
  - destruct (filterResp_ok f resp n) as (ro & E & Hr); [apply He; by left|]. rewrite E. simpl.
    destruct ro as [r|].
    + exists (Some r). split; [done|]. specialize (Hr r eq_refl).
      exists [], n, names. split_and!; [done|by intros ? ?%not_elem_of_nil|done|].
      destruct Hr as (id & svc & dr & text & _ & white & _ & ->). by destruct white.
    + destruct IH as (ro & -> & Hro); [intros n' ?; apply He; by right|]. exists ro. split; [done|].
      destruct ro as [r|].
      * destruct Hro as (before & m & after & -> & Hb & Hm). exists (n :: before), m, after.
        split_and!; [done| |apply Hm..]. intros n' [->|?]%elem_of_cons; auto.
      * intros n' [->|?]%elem_of_cons; auto.
Qed.

End response_facts.

End filter_facts.

(** ** Concrete inputs *)

#[local] Existing Instance ref_miekg.
#[local] Existing Instance ref_unicode.
#[local] Existing Instance plain_urlfilter.
#[local] Existing Instance plain_urlfilter_spec.
#[local] Instance no_svcb_params : SvcbParsers :=
  {| base64_decode _ := None; ParseIP _ := None; ParseUint16 _ := None |}.

(** A list with one rule for a host; [p] is the pointer of the rule. *)
Definition list_of (p : nat) (id svc host : string) (white : bool) : ListFilter := {|
  lf_id := id; lf_svcID := svc;
  lf_match r :=
    if bool_decide (ur_Hostname r = host) then
      Some {| NetworkRules := [{| nr_ptr := p; nr_Text := host; nr_Whitelist := white; nr_DNSRewrite := None |}];
              HostRulesV4 := []; HostRulesV6 := [] |}
    else None;
|}.

(** A profile whose common list allows "bad.example", which the safe-browsing
    filter blocks. *)
Definition some_composite_config : CompositeConfig := {|
  cc_SafeBrowsing := Some (fun _ => Ret (Ok (Some (ResultBlocked "safe_browsing" "bad.example"))));
  cc_AdultBlocking := None; cc_NewRegisteredDomains := None; cc_Typosquatting := None;
  cc_GeneralSafeSearch := None; cc_YouTubeSafeSearch := None; cc_Custom := None; cc_CategoryFilters := [];
  cc_CustomRuleLists := []; cc_RuleLists := [list_of 1 "list" EmptyString "bad.example" true];
  cc_ServiceLists := [];
|}.

Lemma some_entries : all_entries (composite_New some_composite_config) some_filter_request =
  [("list", EmptyString,
    {| NetworkRules := [{| nr_ptr := 1; nr_Text := "bad.example"; nr_Whitelist := true; nr_DNSRewrite := None |}];
       HostRulesV4 := []; HostRulesV6 := [] |})]%string.
Proof. reflexivity. Qed.

Lemma one_entry_ok e nr : NetworkRules e.2 = [nr] -> HostRulesV4 e.2 = [] -> HostRulesV6 e.2 = [] ->
  e.1.1 <> IDBlockedService -> entries_ok [e].
Proof.
  intros Hn H4 H6 Hid. split.
  - intros e1 e2 n1 n2 ->%list_elem_of_singleton ->%list_elem_of_singleton. rewrite Hn.
    by intros ->%list_elem_of_singleton ->%list_elem_of_singleton.
  - intros e1 e2 h1 h2 ->%list_elem_of_singleton _. unfold host_rules. rewrite H4, H6.
    by intros ?%not_elem_of_nil.
  - intros id svc dr <-%list_elem_of_singleton. by intros ->.
Qed.


Lemma common_lists_anonymous_witness :
  filterReqWithRuleLists (composite_New some_composite_config) (set_ClientName some_filter_request "phone") =
  Ret (Some (ResultAllowed "list" "bad.example"), false).
Proof. rewrite common_lists_anonymous by reflexivity. reflexivity. Defined.

Definition some_response : Response := {|
  fr_DNS := set_Answer (NewResp some_request)
    [{| rr_Hdr := newHdrWithClass some_constructor "www.example." TypeCNAME ClassINET; rr_Data := RD_CNAME "bad.example." |}];
  fr_RemoteIP := Addr4 1; fr_ClientName := "phone";
|}.

Lemma FilterResponse_source_witness :
  exists n, FilterResponse (fun _ => EmptyString)
    (composite_New some_composite_config) some_response = Ret (Some (ResultAllowed "list" "bad.example")) /\
  from_entry (answer_entries (composite_New some_composite_config) some_response n)
    (ResultAllowed "list" "bad.example").
Proof.
  destruct (FilterResponse_source (fun _ => EmptyString)
    (composite_New some_composite_config) some_response) as (ro & E & Hro).
  - intros n Hn. apply list_elem_of_singleton in Hn as ->. cbn. by eapply one_entry_ok.
  - pose proof E as E'. vm_compute in E'. injection E' as <-.
    destruct Hro as (before & n & after & _ & _ & Hn & _). exists n. by split.
Defined.
