(* ===== verification/Access.v ===== *)
(** Access control: internal/access, with the location data of internal/geoip
    that it reads.

    The pools of request and result structures are reset before each use, so the
    structures are values here.  The engine of a profile is compiled at its first
    use, which is state ([lazyEngine]); the standard blocker is one object that
    all profiles share and whose configuration is replaced at run time, so it is
    an argument of the profiles' operations. *)

From S2P Require Import Prelude GoStd NetIP HumanID DnsMsg Filter RuleList.

Open Scope Z_scope.

(** ** internal/geoip/location.go *)

Record GeoLocation := {
  Country : string;
  Continent : string;
  TopSubdivision : string;
  ASN : Z;
}.

(** ** Helpers of profile.go *)

Definition matchNets (nets : list Prefix) (ip : Addr) : bool := existsb (fun n => prefix_contains n ip) nets.

Definition matchASNs (asns : list Z) (l : option GeoLocation) : bool :=
  match l with
  | Some l => bool_decide (ASN l ∈ asns)
  | None => false
  end.

(** [isBlockedByNets], which is the same for the profiles and the standard
    blocker. *)
Definition isBlockedByNets (allowedNets blockedNets : list Prefix) (allowedASN blockedASN : list Z)
    (ip : Addr) (l : option GeoLocation) : bool :=
  if matchASNs allowedASN l || matchNets allowedNets ip then false
  else matchASNs blockedASN l || matchNets blockedNets ip.

(** ** standardaccess.go: configurations *)

Record StandardBlockerConfig := {
  sc_AllowedNets : list Prefix;
  sc_BlockedNets : list Prefix;
  sc_AllowedASN : list Z;
  sc_BlockedASN : list Z;
  sc_BlocklistDomainRules : list string;
}.

(** [StandardBlockerConfig.Equal]; [None] is a nil pointer. *)
Definition StandardBlockerConfig_Equal (c other : option StandardBlockerConfig) : bool :=
  match c, other with
  | None, None => true
  | Some c, Some other =>
      bool_decide (sc_AllowedNets c = sc_AllowedNets other) &&
      bool_decide (sc_BlockedNets c = sc_BlockedNets other) &&
      bool_decide (sc_AllowedASN c = sc_AllowedASN other) &&
      bool_decide (sc_BlockedASN c = sc_BlockedASN other) &&
      bool_decide (sc_BlocklistDomainRules c = sc_BlocklistDomainRules other)
  | _, _ => false
  end.

(** ** profile.go: configurations *)

Record ProfileConfig := {
  pc_AllowedNets : list Prefix;
  pc_BlockedNets : list Prefix;
  pc_AllowedASN : list Z;
  pc_BlockedASN : list Z;
  pc_BlocklistDomainRules : list string;
  pc_StandardEnabled : bool;
}.

(** [standard]: the empty blocker or the shared standard one. *)
Inductive BlockerRef := EmptyBlocker | TheStandardBlocker.

Section access.
Context `{Urlfilter} `{UnicodeCase}.

(** ** access.go *)

(** A request structure after [Reset] with its two fields set. *)
Definition access_request (host : string) (qt : Z) : DNSRequest := {|
  ur_ClientIP := AddrZero; ur_ClientIdentifiers := ∅; ur_DNSType := qt; ur_Hostname := host;
  ur_Answer := false;
|}.

Definition matchBlocked (host : string) (qt : Z) (engine : DNSEngine) : bool :=
  let '(blocked, res) := MatchRequest engine (access_request host qt) in
  match res_NetworkRule res with
  | Some nr => if blocked then negb (nr_Whitelist nr) else blocked
  | None => blocked
  end.

Record Global := { g_blockedHostsEng : DNSEngine; g_blockedNets : list Prefix }.

Definition NewGlobal (blockedDomains : list string) (blockedSubnets : list Prefix) : Global :=
  {| g_blockedHostsEng := NewDNSEngine (RulesToBytesLower blockedDomains); g_blockedNets := blockedSubnets |}.

Definition IsBlockedHost (g : Global) (host : string) (qt : Z) : bool :=
  matchBlocked host qt (g_blockedHostsEng g).

Definition IsBlockedIP (g : Global) (ip : Addr) : bool := matchNets (g_blockedNets g) ip.

(** ** engine.go *)

Record blockedHostEngine := { e_rules : list string; lazyEngine : option DNSEngine }.

Definition newBlockedHostEngine (rules : list string) : blockedHostEngine :=
  {| e_rules := rules; lazyEngine := None |}.

(** The engine that [initOnce.Do] leaves in the structure. *)
Definition init_once (e : blockedHostEngine) : DNSEngine :=
  default (NewDNSEngine (RulesToBytesLower (e_rules e))) (lazyEngine e).

Definition engine_isBlocked (e : blockedHostEngine) (req : Msg) : outcome (bool * blockedHostEngine) :=
  let eng := init_once e in
  let! q := index (m_Question req) 0 in
  let host := NormalizeQueryDomain (q_Name q) in
  Ret (matchBlocked host (q_Qtype q) eng, {| e_rules := e_rules e; lazyEngine := Some eng |}).

(** ** standardaccess.go *)

Record StandardBlocker := {
  sb_blockedHostsEng : DNSEngine;
  sb_allowedNets : list Prefix;
  sb_blockedNets : list Prefix;
  sb_allowedASN : list Z;
  sb_blockedASN : list Z;
}.

(** [SetConfig] replaces all fields under the lock. *)
Definition SetConfig (c : StandardBlockerConfig) : StandardBlocker := {|
  sb_blockedHostsEng := NewDNSEngine (RulesToBytesLower (sc_BlocklistDomainRules c));
  sb_allowedNets := sc_AllowedNets c; sb_blockedNets := sc_BlockedNets c;
  sb_allowedASN := sc_AllowedASN c; sb_blockedASN := sc_BlockedASN c;
|}.

Definition NewStandardBlocker (conf : StandardBlockerConfig) : StandardBlocker := SetConfig conf.

Definition standard_IsBlocked (b : StandardBlocker) (req : Msg) (rAddr : AddrPort) (l : option GeoLocation)
    : outcome bool :=
  if isBlockedByNets (sb_allowedNets b) (sb_blockedNets b) (sb_allowedASN b) (sb_blockedASN b)
       (ap_addr rAddr) l
  then Ret true
  else
    let! q := index (m_Question req) 0 in
    Ret (matchBlocked (NormalizeQueryDomain (q_Name q)) (q_Qtype q) (sb_blockedHostsEng b)).

(** ** profile.go *)

Record DefaultProfile := {
  dp_standard : BlockerRef;
  dp_blockedHostsEng : blockedHostEngine;
  dp_allowedNets : list Prefix;
  dp_blockedNets : list Prefix;
  dp_allowedASN : list Z;
  dp_blockedASN : list Z;
  dp_blocklistDomainRules : list string;
  dp_standardEnabled : bool;
}.

Definition newDefaultProfile (conf : ProfileConfig) (standard : BlockerRef) : DefaultProfile := {|
  dp_standard := standard;
  dp_blockedHostsEng := newBlockedHostEngine (pc_BlocklistDomainRules conf);
  dp_allowedNets := pc_AllowedNets conf; dp_blockedNets := pc_BlockedNets conf;
  dp_allowedASN := pc_AllowedASN conf; dp_blockedASN := pc_BlockedASN conf;
  dp_blocklistDomainRules := pc_BlocklistDomainRules conf;
  dp_standardEnabled := pc_StandardEnabled conf;
|}.

(** [ProfileConstructor.New]. *)
Definition access_New (conf : ProfileConfig) : DefaultProfile :=
  newDefaultProfile conf (if pc_StandardEnabled conf then TheStandardBlocker else EmptyBlocker).

(** [DefaultProfile.Config]. *)
Definition access_Config (p : DefaultProfile) : ProfileConfig := {|
  pc_AllowedNets := dp_allowedNets p; pc_BlockedNets := dp_blockedNets p;
  pc_AllowedASN := dp_allowedASN p; pc_BlockedASN := dp_blockedASN p;
  pc_BlocklistDomainRules := dp_blocklistDomainRules p; pc_StandardEnabled := dp_standardEnabled p;
|}.

Definition with_engine (p : DefaultProfile) (e : blockedHostEngine) : DefaultProfile := {|
  dp_standard := dp_standard p; dp_blockedHostsEng := e;
  dp_allowedNets := dp_allowedNets p; dp_blockedNets := dp_blockedNets p;
  dp_allowedASN := dp_allowedASN p; dp_blockedASN := dp_blockedASN p;
  dp_blocklistDomainRules := dp_blocklistDomainRules p; dp_standardEnabled := dp_standardEnabled p;
|}.

Definition access_IsBlocked (p : DefaultProfile) (std : StandardBlocker) (req : Msg) (rAddr : AddrPort)
    (l : option GeoLocation) : outcome (bool * DefaultProfile) :=
  if isBlockedByNets (dp_allowedNets p) (dp_blockedNets p) (dp_allowedASN p) (dp_blockedASN p)
       (ap_addr rAddr) l
  then Ret (true, p)
  else
    let! be := engine_isBlocked (dp_blockedHostsEng p) req in
    let p := with_engine p be.2 in
    if be.1 then Ret (true, p)
    else
      match dp_standard p with
      | EmptyBlocker => Ret (false, p)
      | TheStandardBlocker => let! b := standard_IsBlocked std req rAddr l in Ret (b, p)
      end.

End access.

(** * Facts *)

(** ** Decisions

    The specification of a list of networks, systems and rules: what is allowed
    is never blocked by the network lists; rules are another ground for blocking,
    which the allowed networks do not lift. *)

Definition contains_ip (nets : list Prefix) (ip : Addr) : Prop :=
  exists n, n ∈ nets /\ prefix_contains n ip = true.

Definition has_asn (asns : list Z) (l : option GeoLocation) : Prop :=
  exists loc, l = Some loc /\ ASN loc ∈ asns.

Definition nets_block (allowedNets blockedNets : list Prefix) (allowedASN blockedASN : list Z)
    (ip : Addr) (l : option GeoLocation) : Prop :=
  (has_asn blockedASN l \/ contains_ip blockedNets ip) /\
  ~ has_asn allowedASN l /\ ~ contains_ip allowedNets ip.

Lemma matchNets_spec nets ip : matchNets nets ip = true <-> contains_ip nets ip.
Proof.
  unfold matchNets, contains_ip. rewrite existsb_exists. by setoid_rewrite list_elem_of_In.
Qed.

Lemma matchASNs_spec asns l : matchASNs asns l = true <-> has_asn asns l.
Proof.
  unfold matchASNs, has_asn. destruct l as [loc|]; [rewrite bool_decide_eq_true|]; naive_solver.
Qed.

Lemma isBlockedByNets_spec aN bN aA bA ip l :
  isBlockedByNets aN bN aA bA ip l = true <-> nets_block aN bN aA bA ip l.
Proof.
  unfold isBlockedByNets, nets_block.
  rewrite <- !matchNets_spec, <- !matchASNs_spec.
  destruct (matchASNs aA l), (matchNets aN ip), (matchASNs bA l), (matchNets bN ip); simpl; naive_solver.
Qed.

Lemma index_0 {A} (l : list A) x xs : l = x :: xs -> index l 0 = Ret x.
Proof. by intros ->. Qed.

Section decisions.
Context `{Urlfilter} `{UnicodeCase}.

(** A list of domain rules blocks a question: its engine matches the normalised
    name, and the deciding rule, if there is one, is not an exception. *)
Definition rules_block (rules : list string) (q : Question) : Prop :=
  let '(matched, res) := MatchRequest (NewDNSEngine (RulesToBytesLower rules))
    (access_request (NormalizeQueryDomain (q_Name q)) (q_Qtype q)) in
  matched = true /\ forall nr, res_NetworkRule res = Some nr -> nr_Whitelist nr = false.

Lemma matchBlocked_spec rules q :
  matchBlocked (NormalizeQueryDomain (q_Name q)) (q_Qtype q) (NewDNSEngine (RulesToBytesLower rules)) = true <->
  rules_block rules q.
Proof.
  unfold matchBlocked, rules_block. destruct (MatchRequest _ _) as [[] res]; destruct (res_NetworkRule res) as [nr|];
    [destruct (nr_Whitelist nr) eqn:E|..]; naive_solver.
Qed.

Definition standard_blocks (c : StandardBlockerConfig) (q : Question) (ip : Addr) (l : option GeoLocation) : Prop :=
  nets_block (sc_AllowedNets c) (sc_BlockedNets c) (sc_AllowedASN c) (sc_BlockedASN c) ip l \/
  rules_block (sc_BlocklistDomainRules c) q.

Definition profile_blocks (c : ProfileConfig) (std : StandardBlockerConfig) (q : Question) (ip : Addr)
    (l : option GeoLocation) : Prop :=
  nets_block (pc_AllowedNets c) (pc_BlockedNets c) (pc_AllowedASN c) (pc_BlockedASN c) ip l \/
  rules_block (pc_BlocklistDomainRules c) q \/
  (pc_StandardEnabled c = true /\ standard_blocks std q ip l).

Lemma standard_IsBlocked_spec c req addr l q qs :
  m_Question req = q :: qs ->
  exists b, standard_IsBlocked (SetConfig c) req addr l = Ret b /\
    (b = true <-> standard_blocks c q (ap_addr addr) l).
Proof.
  intros Hq. unfold standard_IsBlocked, standard_blocks. cbn [SetConfig sb_allowedNets sb_blockedNets
    sb_allowedASN sb_blockedASN sb_blockedHostsEng]. setoid_rewrite <- isBlockedByNets_spec. setoid_rewrite <- matchBlocked_spec.
  destruct (isBlockedByNets _ _ _ _ _ _); [exists true; naive_solver|].
  rewrite (index_0 _ _ _ Hq). simpl. eexists. split; [done|]. naive_solver.
Qed.

(** ** Histories

    Requests to one profile's access manager, and replacements of the standard
    configuration, in any order. *)
Inductive access_event :=
  | AccRequest (req : Msg) (rAddr : AddrPort) (l : option GeoLocation)
  | AccSetConfig (c : StandardBlockerConfig).

Definition access_exec (s : DefaultProfile * StandardBlocker) (e : access_event)
    : outcome (DefaultProfile * StandardBlocker) :=
  match e with
  | AccRequest req rAddr l => let! bp := access_IsBlocked s.1 s.2 req rAddr l in Ret (bp.2, s.2)
  | AccSetConfig c => Ret (s.1, SetConfig c)
  end.

(** The standard configuration after the events. *)
Definition last_config (c0 : StandardBlockerConfig) (evs : list access_event) : StandardBlockerConfig :=
  foldl (fun c e => match e with AccSetConfig c => c | _ => c end) c0 evs.

Definition one_question (e : access_event) : Prop :=
  match e with AccRequest req _ _ => m_Question req <> [] | _ => True end.

(** The profile is the one of the configuration, up to the compiled engine. *)
Definition profile_of (conf : ProfileConfig) (p : DefaultProfile) : Prop :=
  exists e, p = with_engine (access_New conf) e /\ e_rules e = pc_BlocklistDomainRules conf /\
    init_once e = NewDNSEngine (RulesToBytesLower (pc_BlocklistDomainRules conf)).

Lemma profile_of_New conf : profile_of conf (access_New conf).
Proof. by exists (newBlockedHostEngine (pc_BlocklistDomainRules conf)). Qed.

Lemma access_IsBlocked_spec conf p std req addr l q qs :
  profile_of conf p -> m_Question req = q :: qs ->
  exists b p', access_IsBlocked p (SetConfig std) req addr l = Ret (b, p') /\ profile_of conf p' /\
    (b = true <-> profile_blocks conf std q (ap_addr addr) l).
Proof.
  intros (e & -> & Hr & He) Hq. unfold access_IsBlocked, profile_blocks.
  setoid_rewrite <- isBlockedByNets_spec. setoid_rewrite <- matchBlocked_spec. simpl.
  destruct (isBlockedByNets _ _ _ _ _ _).
  { eexists true, _. split; [done|]. split; [by exists e|naive_solver]. }
  unfold engine_isBlocked. rewrite (index_0 _ _ _ Hq), He, Hr. simpl.
  assert (forall e', e_rules e' = pc_BlocklistDomainRules conf ->
    init_once e' = NewDNSEngine (RulesToBytesLower (pc_BlocklistDomainRules conf)) ->
    profile_of conf (with_engine (with_engine (access_New conf) e) e')) as Hp by (intros e' ? ?; by exists e').
  set (e' := {| e_rules := _; lazyEngine := _ |}). assert (profile_of conf (with_engine (with_engine (access_New conf) e) e'))
    as Hp' by by apply Hp.
  destruct (matchBlocked _ _ _); [by eexists true, _; split_and!; [done..|naive_solver]|].
  destruct (standard_IsBlocked_spec std req addr l q qs Hq) as (b & -> & Hb). simpl.
  destruct (pc_StandardEnabled conf); [exists b|exists false]; eexists; (split_and!; [done..|naive_solver]).
Qed.

Lemma access_exec_ok conf std s e :
  profile_of conf s.1 -> s.2 = SetConfig std -> one_question e ->
  exists s', access_exec s e = Ret s' /\ profile_of conf s'.1 /\ s'.2 = SetConfig (last_config std [e]).
Proof.
  intros Hp Hs Hq. destruct e as [req addr l|c]; simpl in *; [|by eexists].
  destruct (m_Question req) as [|q qs] eqn:E; [done|]. rewrite Hs.
  destruct (access_IsBlocked_spec conf s.1 std req addr l q qs Hp E) as (b & p' & -> & Hp' & _).
  simpl. by eexists.
Qed.

(** The access decision on a request, after any earlier requests and any
    replacements of the standard configuration, depends on nothing but the
    profile's configuration and the last standard configuration: a request is
    blocked if its address or system is on a block list and on no allow list of
    the same configuration, or if a domain rule matches, by the profile or, if it
    has opted in, by the standard configuration.  The compilation of the rules at
    the first use changes no decision, and nothing panics. *)
Theorem access_decision conf std0 evs req addr l q qs :
  Forall one_question evs -> m_Question req = q :: qs ->
  exists s, for_each access_exec (access_New conf, NewStandardBlocker std0) evs = Ret s /\
  exists b p', access_IsBlocked s.1 s.2 req addr l = Ret (b, p') /\
    (b = true <-> profile_blocks conf (last_config std0 evs) q (ap_addr addr) l).
Proof.
  intros Hall Hq.
  assert (forall evs s std, Forall one_question evs -> profile_of conf s.1 -> s.2 = SetConfig std ->
    exists s', for_each access_exec s evs = Ret s' /\ profile_of conf s'.1 /\
      s'.2 = SetConfig (last_config std evs)) as Hrun.
  { clear. intros evs. induction evs as [|e evs IH]; intros s std Hall Hp Hs; [by exists s|].
    apply Forall_cons in Hall as [He Hall]. destruct (access_exec_ok conf std s e Hp Hs He) as (s' & E & Hp' & Hs').
    simpl. rewrite E. simpl. apply (IH s' _ Hall Hp' Hs'). }
  destruct (Hrun evs (access_New conf, NewStandardBlocker std0) std0 Hall (profile_of_New conf) eq_refl)
    as (s & -> & Hp & Hs).
  exists s. split; [done|]. rewrite Hs.
  destruct (access_IsBlocked_spec conf s.1 (last_config std0 evs) req addr l q qs Hp Hq) as (b & p' & E & _ & Hb).
  by exists b, p'.
Qed.

(** The configuration that a profile's manager reports is the one it was made of. *)
Lemma access_Config_New conf : access_Config (access_New conf) = conf.
Proof. by destruct conf. Qed.

Lemma StandardBlockerConfig_Equal_spec c other : StandardBlockerConfig_Equal c other = true <-> c = other.
Proof.
  destruct c as [[] |], other as [[] |]; simpl; rewrite ?andb_true_iff, ?bool_decide_eq_true; naive_solver.
Qed.

End decisions.

(** ** Concrete inputs *)

#[local] Existing Instance plain_urlfilter.
#[local] Existing Instance ref_unicode.

Definition no_standard : StandardBlockerConfig := {|
  sc_AllowedNets := []; sc_BlockedNets := []; sc_AllowedASN := []; sc_BlockedASN := [];
  sc_BlocklistDomainRules := [];
|}.

(** Blocks 10.0.0.0/8 and allows the system 64500. *)
Definition some_access : ProfileConfig := {|
  pc_AllowedNets := []; pc_BlockedNets := [{| p_ip := Addr4 0x0a000000; p_bits := 8 |}];
  pc_AllowedASN := [64500]; pc_BlockedASN := []; pc_BlocklistDomainRules := []; pc_StandardEnabled := true;
|}.

Definition in_asn (n : Z) : GeoLocation :=
  {| Country := "NL"; Continent := "EU"; TopSubdivision := EmptyString; ASN := n |}.

Definition addr10 : AddrPort := {| ap_addr := Addr4 0x0a000001; ap_port := 5353 |}.

Lemma access_decision_witness :
  exists s, for_each access_exec (access_New some_access, NewStandardBlocker no_standard)
    [AccRequest some_request addr10 None; AccSetConfig no_standard] = Ret s /\
  exists p', access_IsBlocked s.1 s.2 some_request addr10 None = Ret (true, p').
Proof.
  destruct (access_decision some_access no_standard
    [AccRequest some_request addr10 None; AccSetConfig no_standard] some_request addr10 None some_question [])
    as (s & E & b & p' & Eb & Hb).
  - by repeat constructor.
  - reflexivity.
  - exists s. split; [exact E|]. exists p'. rewrite Eb. do 2 f_equal. apply Hb. left. split_and!.
    + right. exists {| p_ip := Addr4 0x0a000000; p_bits := 8 |}. split; [by left|reflexivity].
    + by intros (loc & ? & _).
    + by intros (n & []%elem_of_nil & _).
Defined.
