(* ===== verification/AgdCache.v ===== *)
(** The cache with expiration of internal/agdcache (default.go), over the LRU cache
    of golang-lru, which is a parameter. *)

From S2P Require Import Prelude GoStd.

Open Scope Z_scope.

(** [simplelru.LRU]: an element may be evicted when another one is added. *)
Class Lru (K V : Type) := {
  lru : Type;
  lru_New : Z -> result error lru;
  lru_Get : lru -> K -> option V * lru;
  lru_Add : lru -> K -> V -> lru;
  lru_Remove : lru -> K -> lru;
  lru_Purge : lru -> lru;
  lru_Len : lru -> Z;
}.

Class LruSpec (K V : Type) `{Lru K V} : Prop := {
  lru_new n c k : lru_New n = Ok c -> (lru_Get c k).1 = None;
  lru_get_keeps c k k' : (lru_Get (lru_Get c k).2 k').1 = (lru_Get c k').1;
  lru_add_eq c k v : (lru_Get (lru_Add c k v) k).1 = Some v;
  lru_add_ne c k v k' v' : k <> k' -> (lru_Get (lru_Add c k v) k').1 = Some v' -> (lru_Get c k').1 = Some v';
  lru_remove_eq c k : (lru_Get (lru_Remove c k) k).1 = None;
  lru_remove_ne c k k' : k <> k' -> (lru_Get (lru_Remove c k) k').1 = (lru_Get c k').1;
  lru_purge c k : (lru_Get (lru_Purge c) k).1 = None;
}.

(** The expiration is a Unix time in nanoseconds, and zero for no expiration. *)
Record entry (T : Type) := { e_val : T; e_expiration : Z }.
Arguments e_val {T} _.
Arguments e_expiration {T} _.

Section default.
Context {K T : Type} `{L : Lru K (entry T)}.

(** A cache is its LRU; the clock is an argument of the operations. *)
Record DefaultCache := { dc_cache : lru }.

Definition cache_New (count : Z) : result error DefaultCache :=
  match lru_New count with
  | Ok l => Ok {| dc_cache := l |}
  | Err err => Err (ErrWrap "agdcache: creating lru: %w" err)
  end.

Definition cache_Set (c : DefaultCache) (key : K) (val : T) : DefaultCache :=
  {| dc_cache := lru_Add (dc_cache c) key {| e_val := val; e_expiration := 0 |} |}.

Definition cache_SetWithExpire (now : Z) (c : DefaultCache) (key : K) (val : T) (duration : Z) : DefaultCache :=
  {| dc_cache := lru_Add (dc_cache c) key {| e_val := val; e_expiration := i64 (now + duration) |} |}.

Definition cache_Get (now : Z) (c : DefaultCache) (key : K) : option T * DefaultCache :=
  match lru_Get (dc_cache c) key with
  | (None, l) => (None, {| dc_cache := l |})
  | (Some e, l) =>
      if (0 <? e_expiration e) && (e_expiration e <? now)
      then (None, {| dc_cache := lru_Remove l key |})
      else (Some (e_val e), {| dc_cache := l |})
  end.

Definition cache_Clear (c : DefaultCache) : DefaultCache := {| dc_cache := lru_Purge (dc_cache c) |}.

Definition cache_Len (c : DefaultCache) : Z := lru_Len (dc_cache c).

End default.
Arguments DefaultCache K T {L}.

(** ** The cache as a partial map in time *)

Section facts.
Context {K T : Type} `{EqDecision K} `{L : Lru K (entry T)} `{!LruSpec K (entry T)}.

Implicit Types (c : DefaultCache K T) (k : K) (v : T).

(** Operations on a cache. *)
Inductive cache_op :=
  | OpSet (k : K) (v : T)
  | OpSetExpire (now : Z) (k : K) (v : T) (d : Z)
  | OpGet (now : Z) (k : K)
  | OpClear.

Definition cache_exec c (o : cache_op) : DefaultCache K T :=
  match o with
  | OpSet k v => cache_Set c k v
  | OpSetExpire now k v d => cache_SetWithExpire now c k v d
  | OpGet now k => (cache_Get now c k).2
  | OpClear => cache_Clear c
  end.

(** The abstract state of a key: the value that was set last, with the time until
    which it is valid, if that is limited. *)
Definition spec_step (k : K) (s : option (T * option Z)) (o : cache_op) : option (T * option Z) :=
  match o with
  | OpSet k' v => if decide (k' = k) then Some (v, None) else s
  | OpSetExpire now k' v d => if decide (k' = k) then Some (v, Some (now + d)) else s
  | OpGet _ _ => s
  | OpClear => None
  end.

Definition spec_of (k : K) (ops : list cache_op) : option (T * option Z) := foldl (spec_step k) None ops.

(** The times of expiration are positive and below 2^63. *)
Definition op_ok (o : cache_op) : Prop :=
  match o with OpSetExpire now _ _ d => 0 < now + d < 2 ^ 63 | _ => True end.

(** What the cache holds for a key is what was set last. *)
Definition holds c k (s : option (T * option Z)) : Prop :=
  forall e, (lru_Get (dc_cache c) k).1 = Some e ->
    exists until, s = Some (e_val e, until) /\ e_expiration e = default 0 until /\
      forall t, until = Some t -> 0 < t.

Lemma cache_Get_keeps now c k k' e : (lru_Get (dc_cache (cache_Get now c k).2) k').1 = Some e ->
  (lru_Get (dc_cache c) k').1 = Some e.
Proof.
  unfold cache_Get. pose proof (lru_get_keeps (dc_cache c) k k') as Hk.
  destruct (lru_Get (dc_cache c) k) as [[e'|] l] eqn:E; simpl in *; [|by rewrite Hk].
  destruct (_ && _); simpl; [|by rewrite Hk].
  destruct (decide (k = k')) as [<-|Hne]; [by rewrite lru_remove_eq|]. by rewrite (lru_remove_ne l k k' Hne), Hk.
Qed.

Lemma cache_exec_holds c k s o : op_ok o -> holds c k s -> holds (cache_exec c o) k (spec_step k s o).
Proof.
  intros Ho Hc e. destruct o as [k' v|now k' v d|now k'|]; simpl in *.
  - destruct (decide (k' = k)) as [->|Hne].
    + rewrite lru_add_eq. intros [= <-]. by exists None.
    + intros E%lru_add_ne; [|done]. by apply Hc.
  - destruct (decide (k' = k)) as [->|Hne].
    + rewrite lru_add_eq. intros [= <-]. exists (Some (now + d)). split; [done|].
      split; [|intros t [= <-]; lia]. simpl. apply i64_small. lia.
    + intros E%lru_add_ne; [|done]. by apply Hc.
  - intros E%cache_Get_keeps. by apply Hc.
  - by rewrite lru_purge.
Qed.

Lemma cache_run_holds c k s ops : Forall op_ok ops -> holds c k s ->
  holds (foldl cache_exec c ops) k (foldl (spec_step k) s ops).
Proof.
  intros Hall. revert c s. induction Hall as [|o ops Ho Hall IH]; intros c s Hc; [done|].
  simpl. by apply IH, cache_exec_holds.
Qed.

Lemma cache_New_holds count c k : cache_New count = Ok c -> holds c k None.
Proof.
  unfold cache_New. destruct (lru_New count) as [l|] eqn:E; [|done]. intros [= <-] e. simpl.
  by rewrite (lru_new _ _ _ E).
Qed.

Lemma cache_Get_spec now c k v : (cache_Get now c k).1 = Some v ->
  exists e, (lru_Get (dc_cache c) k).1 = Some e /\ v = e_val e /\ (0 < e_expiration e -> now <= e_expiration e).
Proof.
  unfold cache_Get. destruct (lru_Get (dc_cache c) k) as [[e|] l]; [|done]. simpl.
  destruct ((0 <? e_expiration e) && (e_expiration e <? now)) eqn:E; [done|]. intros [= <-]. exists e.
  split_and!; [done..|]. intros Hp. apply andb_false_iff in E as [E|E]; bool_simp; lia.
Qed.

(** The cache never returns anything but what was set last for the key, since the
    cache was cleared, and never after it has expired; and a value that has just
    been set is returned until it expires.  Eviction only makes it forget. *)
Theorem cache_returns_last count c0 ops k now :
  cache_New count = Ok c0 -> Forall op_ok ops ->
  let c := foldl cache_exec c0 ops in
  (forall v, (cache_Get now c k).1 = Some v ->
     exists until, spec_of k ops = Some (v, until) /\ forall t, until = Some t -> now <= t) /\
  (forall v d t, 0 < t + d < 2 ^ 63 ->
     (cache_Get now (cache_SetWithExpire t c k v d) k).1 = if t + d <? now then None else Some v) /\
  (forall v, (cache_Get now (cache_Set c k v) k).1 = Some v).
Proof.
  intros Hn Hops c. split_and!.
  - intros v (e & E & -> & Hexp)%cache_Get_spec.
    destruct (cache_run_holds c0 k None ops Hops (cache_New_holds _ _ _ Hn) e E) as (until & Hs & Hu & Hpos).
    exists until. split; [done|]. intros t ->. simpl in Hu. rewrite Hu in Hexp. apply Hexp. by apply Hpos.
  - intros v d t Ht. unfold cache_Get. simpl. pose proof (lru_add_eq (dc_cache c) k {| e_val := v; e_expiration := i64 (t + d) |}) as Ha.
    destruct (lru_Get _ k) as [o l]. simpl in Ha. subst o. simpl. rewrite i64_small by lia.
    assert (0 <? t + d = true) as -> by lia. simpl. by destruct (_ <? now).
  - intros v. unfold cache_Get. simpl. pose proof (lru_add_eq (dc_cache c) k {| e_val := v; e_expiration := 0 |}) as Ha.
    destruct (lru_Get _ k) as [o l]. simpl in Ha. by subst o.
Qed.

End facts.

(** ** A concrete LRU: one that never evicts *)

Definition map_lru (K V : Type) `{Countable K} : Lru K V := {|
  lru := gmap K V;
  lru_New n := Ok ∅;
  lru_Get c k := (c !! k, c);
  lru_Add c k v := <[k := v]> c;
  lru_Remove c k := delete k c;
  lru_Purge _ := ∅;
  lru_Len c := Z.of_nat (size c);
|}.

Lemma map_lru_spec (K V : Type) `{Countable K} : LruSpec K V (H := map_lru K V).
Proof.
  split; simpl.
  - intros n c k [= <-]. apply lookup_empty.
  - done.
  - intros c k v. apply lookup_insert_eq.
  - intros c k v k' v' Hne. by rewrite lookup_insert_ne.
  - intros c k. apply lookup_delete_eq.
  - intros c k k' Hne. by rewrite lookup_delete_ne.
  - intros c k. apply lookup_empty.
Qed.

#[local] Existing Instance map_lru.
#[local] Existing Instance map_lru_spec.

(** A value is found until it expires. *)
Lemma cache_returns_last_witness :
  let ops := [OpSet 1%nat 5; OpSetExpire 100 2%nat 6 10; OpGet 200 1%nat; OpSetExpire 150 2%nat 7 10] in
  let c := foldl (cache_exec (K := nat) (T := Z)) {| dc_cache := ∅ |} ops in
  spec_of 2%nat ops = Some (7, Some 160) /\
  exists until, spec_of 1%nat ops = Some (5, until) /\ forall t, until = Some t -> 300 <= t.
Proof.
  intros ops c.
  destruct (cache_returns_last 10 {| dc_cache := ∅ |} ops 1%nat 300) as (Hg & _ & _).
  - reflexivity.
  - repeat (constructor; [simpl; lia || exact I|]). constructor.
  - split; [reflexivity|]. apply Hg. vm_compute. reflexivity.
Defined.
