(* ===== verification/ConnPool.v ===== *)
(** The pool of connections: internal/dnsserver/pool.

    The channel is a bounded queue.  [Get] and [Put] read the field with the channel
    under a lock and use the channel after they have released it, so [Put] is two
    steps of a goroutine, and [Get] one step and one more for each receive. *)

From S2P Require Import Prelude GoStd.

Open Scope Z_scope.

(** A connection is named by a number. *)
Record Conn := { c_Conn : Z; c_lastTimeUsed : Z }.

Definition wrapConn (now : Z) (conn : Z) : Conn := {| c_Conn := conn; c_lastTimeUsed := now |}.

Definition isExpired (now : Z) (conn : Conn) (timeout : Z) : bool :=
  (0 <? timeout) && (timeout <? Sub now (c_lastTimeUsed conn)).

Definition pool_ErrClosed : error := ErrConst "the pool is closed".

(** [p_isNil] says that the field with the channel is nil; [p_closed] that the
    channel is closed.  What the channel still holds can be received all the same. *)
Record Pool := {
  p_capacity : nat;
  p_conns : list Conn;
  p_closed : bool;
  p_isNil : bool;
  p_IdleTimeout : Z;
}.

Definition NewPool (maxCapacity : nat) (idle : Z) : Pool :=
  {| p_capacity := maxCapacity; p_conns := []; p_closed := false; p_isNil := false; p_IdleTimeout := idle |}.

Definition with_conns (p : Pool) (l : list Conn) : Pool :=
  {| p_capacity := p_capacity p; p_conns := l; p_closed := p_closed p; p_isNil := p_isNil p;
     p_IdleTimeout := p_IdleTimeout p |}.

Section pool.
(** The outside world, in which connections are made and closed. *)
Context `{DeferredErrors} {W : Type} (dial : W -> result error Z * W) (close_conn : Z -> W -> option error * W).

Definition pool_Create (now : Z) (w : W) : result error Conn * W :=
  match dial w with
  | (Err err, w) => (Err err, w)
  | (Ok c, w) => (Ok (wrapConn now c), w)
  end.

(** One iteration of the loop of [Get], which receives at most one connection.  An
    expired one is closed, and [None] is the [continue]. *)
Definition get_select (now idle : Z) (closed : bool) (conns : list Conn) (w : W)
    : option (result error Conn) * list Conn * W :=
  match conns with
  | conn :: conns =>
      if isExpired now conn idle then (None, conns, (close_conn (c_Conn conn) w).2)
      else (Some (Ok {| c_Conn := c_Conn conn; c_lastTimeUsed := now |}), conns, w)
  | [] => if closed then (Some (Err pool_ErrClosed), [], w) else let '(r, w) := pool_Create now w in (Some r, [], w)
  end.

(** The whole loop, if nobody else uses the channel. *)
Fixpoint get_loop (now idle : Z) (closed : bool) (conns : list Conn) (w : W) : result error Conn * list Conn * W :=
  match conns with
  | conn :: conns =>
      if isExpired now conn idle then get_loop now idle closed conns (close_conn (c_Conn conn) w).2
      else (Ok {| c_Conn := c_Conn conn; c_lastTimeUsed := now |}, conns, w)
  | [] => if closed then (Err pool_ErrClosed, [], w) else let '(r, w) := pool_Create now w in (r, [], w)
  end.

(** The steps of [Get]: the read of the field and one receive. *)
Definition get_read (p : Pool) : option error := if p_isNil p then Some pool_ErrClosed else None.

Definition get_receive (now : Z) (p : Pool) (w : W) : option (result error Conn) * Pool * W :=
  let '(r, rest, w) := get_select now (p_IdleTimeout p) (p_closed p) (p_conns p) w in (r, with_conns p rest, w).

Definition pool_Get (now : Z) (p : Pool) (w : W) : result error Conn * Pool * W :=
  match get_read p with
  | Some err => (Err err, p, w)
  | None =>
      let '(r, rest, w) := get_loop now (p_IdleTimeout p) (p_closed p) (p_conns p) w in (r, with_conns p rest, w)
  end.

Definition pool_closeConn (conn : Conn) (w : W) : error * W :=
  match close_conn (c_Conn conn) w with
  | (Some err, w) => (WithDeferred (ErrWrap "closing pool connection: %w" err) (Some pool_ErrClosed), w)
  | (None, w) => (pool_ErrClosed, w)
  end.

(** The second step of [Put], for a channel that was not nil. *)
Definition put_send (p : Pool) (conn : Conn) (w : W) : outcome (option error * Pool * W) :=
  if p_closed p then Panic "send on closed channel"
  else if (length (p_conns p) <? p_capacity p)%nat then Ret (None, with_conns p (p_conns p ++ [conn]), w)
  else let '(err, w) := close_conn (c_Conn conn) w in Ret (err, p, w).

Definition pool_Put (p : Pool) (conn : Conn) (w : W) : outcome (option error * Pool * W) :=
  if p_isNil p then let '(err, w) := pool_closeConn conn w in Ret (Some err, p, w) else put_send p conn w.

Fixpoint close_all (conns : list Conn) (w : W) : list error * W :=
  match conns with
  | [] => ([], w)
  | conn :: conns =>
      let '(err, w) := close_conn (c_Conn conn) w in
      let '(errs, w) := close_all conns w in
      (match err with Some err => err :: errs | None => errs end, w)
  end.

Definition pool_Close (p : Pool) (w : W) : option error * Pool * W :=
  if p_isNil p then (Some pool_ErrClosed, p, w)
  else
    let '(errs, w) := close_all (p_conns p) w in
    (wrap_opt "closing pool: %w" (Join errs),
     {| p_capacity := p_capacity p; p_conns := []; p_closed := true; p_isNil := true; p_IdleTimeout := p_IdleTimeout p |},
     w).

End pool.

(** * Facts *)

(** ** One goroutine *)

(** The loop does one iteration after the other. *)
Lemma get_loop_select {W} dial close_conn now idle closed conns (w : W) :
  get_loop dial close_conn now idle closed conns w =
  match get_select dial close_conn now idle closed conns w with
  | (Some r, rest, w) => (r, rest, w)
  | (None, rest, w) => get_loop dial close_conn now idle closed rest w
  end.
Proof.
  destruct conns as [|c conns]; cbn [get_loop get_select]; [destruct closed; [done|by destruct (pool_Create _ _ _)]|].
  by destruct (isExpired now c idle).
Qed.

(** A connection from the pool was used within the timeout: the pool gives no
    connection that has been idle for longer. *)
Lemma get_not_expired {W} dial close_conn now p conn p' (w w' : W) :
  pool_Get dial close_conn now p w = (Ok conn, p', w') -> 0 < p_IdleTimeout p ->
  (exists old, old ∈ p_conns p /\ c_Conn old = c_Conn conn /\ Sub now (c_lastTimeUsed old) <= p_IdleTimeout p) \/
  p_conns p' = [].
Proof.
  unfold pool_Get, get_read. destruct (p_isNil p); [done|].
  destruct (get_loop _ _ _ _ _ _ _) as [[r rest] w1] eqn:El. intros [= -> <- <-] Hi. simpl.
  revert w El. induction (p_conns p) as [|c conns IH]; intros w; cbn [get_loop].
  - destruct (p_closed p); [done|]. destruct (pool_Create _ _ _) as [r w2]. intros [= -> <- <-]. by right.
  - destruct (isExpired now c (p_IdleTimeout p)) eqn:Ee.
    + intros El. destruct (IH _ El) as [(old & Hin & Ho)|Hr]; [|by right]. left. exists old. split; [by right|done].
    + intros [= <- <- <-]. left. exists c. split; [by left|]. split; [done|]. unfold isExpired in Ee.
      apply andb_false_iff in Ee as [Ee|Ee]; lia.
Qed.

(** ** Many goroutines *)

(** The pool with the connections that goroutines have got and not returned, the
    returned ones for which [Put] has seen that the pool was open, the number of calls
    of [Get] in their loop, the closed connections and the number of connections
    made so far. *)
Record psys := {
  ps_pool : Pool;
  ps_held : list Z;
  ps_putting : list Z;
  ps_getting : nat;
  ps_shut : list Z;
  ps_next : Z;
}.

Inductive pop :=
  | PGetRead
  | PGetReceive (now : Z) (dial_err : option error)
  | PPutRead (i : nat)
  | PPutSend (now : Z) (i : nat)
  | PDiscard (i : nat)
  | PCloseChan
  | PCloseDrain
  | PCloseEnd.

(** The world of these steps: the closed connections and the number of those made. *)
Definition dial_next (dial_err : option error) (w : list Z * Z) : result error Z * (list Z * Z) :=
  match dial_err with Some err => (Err err, w) | None => (Ok w.2, (w.1, w.2 + 1)) end.

Definition shut_conn (c : Z) (w : list Z * Z) : option error * (list Z * Z) := (None, (c :: w.1, w.2)).

Definition set_closed (p : Pool) (nil : bool) : Pool :=
  {| p_capacity := p_capacity p; p_conns := p_conns p; p_closed := true; p_isNil := nil; p_IdleTimeout := p_IdleTimeout p |}.

(** One step.  [Close] holds the lock from the closing of the channel until the field
    is nil; a step that would wait for the lock does nothing.  The time stamps of
    connections do not matter here, and are those of the step. *)
Definition pstep (s : psys) (o : pop) : outcome psys :=
  let p := ps_pool s in
  let locked := p_closed p && negb (p_isNil p) in
  match o with
  | PGetRead =>
      Ret (if locked || p_isNil p then s
           else {| ps_pool := p; ps_held := ps_held s; ps_putting := ps_putting s; ps_getting := S (ps_getting s);
                   ps_shut := ps_shut s; ps_next := ps_next s |})
  | PGetReceive now dial_err =>
      match ps_getting s with
      | O => Ret s
      | S n =>
          let '(r, p, w) := get_receive (dial_next dial_err) shut_conn now p (ps_shut s, ps_next s) in
          Ret {| ps_pool := p;
                 ps_held := match r with Some (Ok conn) => c_Conn conn :: ps_held s | _ => ps_held s end;
                 ps_putting := ps_putting s; ps_getting := match r with Some _ => n | None => S n end; ps_shut := w.1; ps_next := w.2 |}
      end
  | PPutRead i =>
      match ps_held s !! i with
      | None => Ret s
      | Some c =>
          if locked then Ret s
          else
            let held := delete i (ps_held s) in
            if p_isNil p then
              Ret {| ps_pool := p; ps_held := held; ps_putting := ps_putting s; ps_getting := ps_getting s;
                     ps_shut := c :: ps_shut s; ps_next := ps_next s |}
            else
              Ret {| ps_pool := p; ps_held := held; ps_putting := c :: ps_putting s; ps_getting := ps_getting s;
                     ps_shut := ps_shut s; ps_next := ps_next s |}
      end
  | PPutSend now i =>
      match ps_putting s !! i with
      | None => Ret s
      | Some c =>
          let! r := put_send shut_conn p (wrapConn now c) (ps_shut s, ps_next s) in
          Ret {| ps_pool := r.1.2; ps_held := ps_held s; ps_putting := delete i (ps_putting s);
                 ps_getting := ps_getting s; ps_shut := r.2.1; ps_next := r.2.2 |}
      end
  | PDiscard i =>
      match ps_held s !! i with
      | None => Ret s
      | Some c =>
          Ret {| ps_pool := p; ps_held := delete i (ps_held s); ps_putting := ps_putting s; ps_getting := ps_getting s;
                 ps_shut := c :: ps_shut s; ps_next := ps_next s |}
      end
  | PCloseChan =>
      Ret (if locked || p_isNil p then s
           else {| ps_pool := set_closed p false; ps_held := ps_held s; ps_putting := ps_putting s;
                   ps_getting := ps_getting s; ps_shut := ps_shut s; ps_next := ps_next s |})
  | PCloseDrain =>
      match p_conns p with
      | c :: rest =>
          Ret (if locked
               then {| ps_pool := with_conns p rest; ps_held := ps_held s; ps_putting := ps_putting s;
                       ps_getting := ps_getting s; ps_shut := c_Conn c :: ps_shut s; ps_next := ps_next s |}
               else s)
      | [] => Ret s
      end
  | PCloseEnd =>
      Ret (match p_conns p with
           | [] => if locked
                   then {| ps_pool := set_closed p true; ps_held := ps_held s; ps_putting := ps_putting s;
                           ps_getting := ps_getting s; ps_shut := ps_shut s; ps_next := ps_next s |}
                   else s
           | _ => s
           end)
  end.

Definition psys0 (capacity : nat) (idle : Z) : psys :=
  {| ps_pool := NewPool capacity idle; ps_held := []; ps_putting := []; ps_getting := 0; ps_shut := []; ps_next := 0 |}.

(** All connections there are, with where they are. *)
Definition all_conns (s : psys) : list Z :=
  (c_Conn <$> p_conns (ps_pool s)) ++ ps_held s ++ ps_putting s ++ ps_shut s.

Record pool_inv (capacity : nat) (s : psys) : Prop := {
  pi_made : 0 <= ps_next s;
  pi_all : all_conns s ≡ₚ seqZ 0 (ps_next s);
  pi_capacity : p_capacity (ps_pool s) = capacity;
  pi_bound : (length (p_conns (ps_pool s)) <= capacity)%nat;
  pi_nil : p_isNil (ps_pool s) = true -> p_closed (ps_pool s) = true /\ p_conns (ps_pool s) = [];
}.

(** A step moves connections about, and may make one. *)
Definition moved (s s' : psys) : Prop :=
  (all_conns s' ≡ₚ all_conns s /\ ps_next s' = ps_next s) \/
  (all_conns s' ≡ₚ ps_next s :: all_conns s /\ ps_next s' = ps_next s + 1).

Lemma moved_refl s : moved s s.
Proof. by left. Qed.

(** What a receive gives, leaves and closes is what there was, or one more. *)
Lemma get_select_split derr now idle closed conns shut next r rest w :
  get_select (dial_next derr) shut_conn now idle closed conns (shut, next) = (r, rest, w) ->
  let held := match r with Some (Ok conn) => [c_Conn conn] | _ => [] end in
  (length rest <= length conns)%nat /\ (conns = [] -> rest = []) /\
  ((held ++ (c_Conn <$> rest) ++ w.1 ≡ₚ (c_Conn <$> conns) ++ shut /\ w.2 = next) \/
   (held ++ (c_Conn <$> rest) ++ w.1 ≡ₚ next :: (c_Conn <$> conns) ++ shut /\ w.2 = next + 1)).
Proof.
  destruct conns as [|c conns]; cbn [get_select].
  - destruct closed; [intros [= <- <- <-]; simpl; by auto|]. unfold pool_Create, dial_next.
    destruct derr; intros [= <- <- <-]; simpl; by auto.
  - destruct (isExpired now c idle); intros [= <- <- <-]; simpl; (split; [lia|]); (split; [done|]); left;
      (split; [|done]); solve_Permutation.
Qed.

Lemma get_receive_moved s now derr n s' :
  ps_getting s = S n -> pstep s (PGetReceive now derr) = Ret s' -> moved s s'.
Proof.
  intros Hn. unfold pstep. rewrite Hn. unfold get_receive.
  destruct (get_select _ _ _ _ _ _ _) as [[r rest] w] eqn:El. intros [= <-].
  apply get_select_split in El as (_ & _ & Hp). unfold moved, all_conns. simpl.
  set (got := match r with Some (Ok conn) => [c_Conn conn] | _ => [] end) in *.
  assert (match r with Some (Ok conn) => c_Conn conn :: ps_held s | _ => ps_held s end = got ++ ps_held s) as ->
    by (by destruct r as [[]|]).
  assert ((c_Conn <$> rest) ++ (got ++ ps_held s) ++ ps_putting s ++ w.1 ≡ₚ
    ps_held s ++ ps_putting s ++ got ++ (c_Conn <$> rest) ++ w.1) as -> by solve_Permutation.
  destruct Hp as [[-> ->]|[-> ->]]; [left|right]; (split; [solve_Permutation|lia]).
Qed.

(** A step, as far as connections and the channel are concerned. *)
Lemma pstep_moved s o s' : pstep s o = Ret s' -> moved s s'.
Proof.
  destruct o as [|now derr|i|now i|i| | |].
  2:{ destruct (ps_getting s) as [|n] eqn:En.
      - unfold pstep. rewrite En. intros [= <-]. apply moved_refl.
      - by eapply get_receive_moved. }
  all: unfold pstep; set (p := ps_pool s).
  - intros [= <-]. destruct (_ || _); [apply moved_refl|]. by left.
  - destruct (ps_held s !! i) as [c|] eqn:Hi; [|intros [= <-]; apply moved_refl].
    apply delete_Permutation in Hi. set (d := delete i _) in *; clearbody d. destruct (_ && _); [intros [= <-]; apply moved_refl|].
    destruct (p_isNil p); intros [= <-]; left; split; try done; unfold all_conns; simpl;
      rewrite Hi; simpl; solve_Permutation.
  - destruct (ps_putting s !! i) as [c|] eqn:Hi; [|intros [= <-]; apply moved_refl].
    apply delete_Permutation in Hi. set (d := delete i _) in *; clearbody d. unfold put_send. destruct (p_closed p); [done|].
    destruct (_ <? _)%nat; intros [= <-]; left; split; try done; unfold all_conns; simpl;
      rewrite ?fmap_app, Hi; simpl; solve_Permutation.
  - destruct (ps_held s !! i) as [c|] eqn:Hi; [|intros [= <-]; apply moved_refl].
    apply delete_Permutation in Hi. set (d := delete i _) in *; clearbody d. intros [= <-]. left. split; [|done]. unfold all_conns. simpl.
    rewrite Hi. simpl. solve_Permutation.
  - intros [= <-]. destruct (_ || _); [apply moved_refl|]. by left.
  - destruct (p_conns p) as [|c rest] eqn:Hc; [intros [= <-]; apply moved_refl|].
    intros [= <-]. destruct (_ && _); [|apply moved_refl]. left. split; [|done]. unfold all_conns. simpl.
    fold p. rewrite Hc. simpl. solve_Permutation.
  - intros [= <-]. destruct (p_conns p); [|apply moved_refl]. destruct (_ && _); [|apply moved_refl]. by left.
Qed.

(** How the channel changes: it never holds more than its capacity, and when the
    field is nil it is closed and empty. *)
Lemma pstep_channel capacity s o s' : pool_inv capacity s -> pstep s o = Ret s' ->
  p_capacity (ps_pool s') = capacity /\ (length (p_conns (ps_pool s')) <= capacity)%nat /\
  (p_isNil (ps_pool s') = true -> p_closed (ps_pool s') = true /\ p_conns (ps_pool s') = []).
Proof.
  intros [_ _ Hcap Hb Hnil]. assert (p_capacity (ps_pool s) = capacity /\ (length (p_conns (ps_pool s)) <= capacity)%nat /\
    (p_isNil (ps_pool s) = true -> p_closed (ps_pool s) = true /\ p_conns (ps_pool s) = [])) as Hsame by done.
  unfold pstep. destruct o as [|now derr|i|now i|i| | |].
  - intros [= <-]. by destruct (_ || _).
  - destruct (ps_getting s) as [|n]; [by intros [= <-]|]. unfold get_receive.
    destruct (get_select _ _ _ _ _ _ _) as [[r rest] w] eqn:El. intros [= <-]. simpl. split; [done|].
    apply get_select_split in El as (Hl & Hr & _). split; [lia|]. intros Hn. destruct (Hnil Hn). auto.
  - destruct (ps_held s !! i) as [c|]; [|by intros [= <-]]. destruct (_ && _); [by intros [= <-]|].
    destruct (p_isNil (ps_pool s)) eqn:En; intros [= <-]; simpl; [by rewrite En|by rewrite En in *].
  - destruct (ps_putting s !! i) as [c|]; [|by intros [= <-]]. unfold put_send.
    destruct (p_closed (ps_pool s)) eqn:Ec; [done|]. destruct (_ <? _)%nat eqn:El; intros [= <-]; simpl; [|by rewrite Ec].
    apply Nat.ltb_lt in El. rewrite length_app. simpl. split; [done|]. split; [lia|]. intros Hn. by destruct (Hnil Hn).
  - destruct (ps_held s !! i) as [c|]; by intros [= <-].
  - intros [= <-]. destruct (_ || _) eqn:E; [done|]. simpl. by split_and!.
  - destruct (p_conns (ps_pool s)) as [|c rest] eqn:Hc; [intros [= <-]; by rewrite Hc|].
    intros [= <-]. destruct (_ && _) eqn:E; simpl; [|by rewrite Hc]. simpl in Hb. split; [done|]. split; [lia|].
    apply andb_true_iff in E as [_ E]. intros Hn. by rewrite Hn in E.
  - intros [= <-]. destruct (p_conns (ps_pool s)) eqn:Hc; [|by rewrite Hc]. destruct (_ && _); [|by rewrite Hc].
    simpl. rewrite Hc. by split_and!.
Qed.

Lemma pstep_inv capacity s o s' : pool_inv capacity s -> pstep s o = Ret s' -> pool_inv capacity s'.
Proof.
  intros Hi Hs. destruct (pstep_channel _ _ _ _ Hi Hs) as (H1 & H2 & H3). destruct Hi as [Hm Ha _ _ _].
  destruct (pstep_moved _ _ _ Hs) as [[Hp Hx]|[Hp Hx]]; split; try done; rewrite Hx; [done|by rewrite Hp|lia|].
  rewrite Hp, Ha, seqZ_app by lia. rewrite (seqZ_cons (0 + ps_next s)) by lia. simpl. solve_Permutation.
Qed.

Lemma for_each_app {A S} (body : S -> A -> outcome S) s l1 l2 :
  for_each body s (l1 ++ l2) = (let! s := for_each body s l1 in for_each body s l2).
Proof. revert s. induction l1 as [|x l1 IH]; intros s; simpl; [done|]. by destruct (body s x); simpl. Qed.

(** [Close] is these steps, without others in between: the channel is closed, its
    connections are closed one by one, and the field becomes nil. *)
Lemma drain_steps s : p_closed (ps_pool s) = true -> p_isNil (ps_pool s) = false ->
  for_each pstep s (replicate (length (p_conns (ps_pool s))) PCloseDrain) =
  Ret {| ps_pool := with_conns (ps_pool s) []; ps_held := ps_held s; ps_putting := ps_putting s;
         ps_getting := ps_getting s; ps_shut := (close_all shut_conn (p_conns (ps_pool s)) (ps_shut s, ps_next s)).2.1;
         ps_next := ps_next s |}.
Proof.
  destruct s as [[cap conns closed nil idle] held putting getting shut next]; cbn. intros -> ->.
  revert shut. induction conns as [|c conns IH]; intros shut; [done|]. cbn. rewrite IH. cbn.
  by destruct (close_all shut_conn conns (c_Conn c :: shut, next)) as [errs w].
Qed.

Lemma close_steps s : p_closed (ps_pool s) = false -> p_isNil (ps_pool s) = false ->
  let '(_, p, w) := pool_Close shut_conn (ps_pool s) (ps_shut s, ps_next s) in
  for_each pstep s (PCloseChan :: replicate (length (p_conns (ps_pool s))) PCloseDrain ++ [PCloseEnd]) =
  Ret {| ps_pool := p; ps_held := ps_held s; ps_putting := ps_putting s; ps_getting := ps_getting s;
         ps_shut := w.1; ps_next := ps_next s |}.
Proof.
  intros Hc Hn. unfold pool_Close. rewrite Hn.
  destruct (close_all _ _ _) as [errs w] eqn:E. cbn [for_each app]. unfold pstep at 1. rewrite Hc, Hn. cbn.
  set (s1 := {| ps_pool := set_closed _ _ |}). rewrite for_each_app.
  change (length (p_conns (ps_pool s))) with (length (p_conns (ps_pool s1))). rewrite drain_steps by done. cbn.
  by rewrite E.
Qed.

(** C27. Connections are neither shared nor lost.  However the steps of any number of
    goroutines that get, return and discard connections and close the pool are
    interleaved, each receive of the loop of [Get] being a step, as long as none of
    them panics, every connection that was made is in exactly one place: in the pool,
    with one goroutine, or closed.  The pool never holds more connections than its
    capacity, and a pool that is closed has none. *)
Theorem pool_exclusive capacity idle ops s : for_each pstep (psys0 capacity idle) ops = Ret s ->
  (c_Conn <$> p_conns (ps_pool s)) ++ ps_held s ++ ps_putting s ++ ps_shut s ≡ₚ seqZ 0 (ps_next s) /\
  (length (p_conns (ps_pool s)) <= capacity)%nat /\
  (p_isNil (ps_pool s) = true -> p_conns (ps_pool s) = []).
Proof.
  assert (forall s0, pool_inv capacity s0 -> for_each pstep s0 ops = Ret s -> pool_inv capacity s) as Hg.
  { induction ops as [|o ops IH]; intros s0 Hi; simpl; [by intros [= <-]|].
    destruct (pstep s0 o) as [s1|] eqn:Es; simpl; [|done]. apply IH. by eapply pstep_inv. }
  intros Hr. assert (pool_inv capacity (psys0 capacity idle)) as H0' by (split; simpl; try done; lia).
  destruct (Hg _ H0' Hr) as [_ Ha _ Hb Hnil]. split_and!; try done. intros E. by destruct (Hnil E).
Qed.

Definition pool_run : list pop :=
  [PGetRead; PGetReceive 0 None; PGetRead; PGetReceive 0 None; PPutRead 0; PPutSend 1 0; PGetRead; PGetReceive 2 None;
   PDiscard 0; PPutRead 0; PPutSend 3 0; PCloseChan; PCloseDrain; PCloseEnd].

Lemma pool_exclusive_witness :
  exists s, for_each pstep (psys0 1 30) pool_run = Ret s /\ all_conns s = [0; 1] /\
    all_conns s ≡ₚ seqZ 0 (ps_next s).
Proof.
  exists (match for_each pstep (psys0 1 30) pool_run with Ret s => s | _ => psys0 1 30 end).
  split; [vm_compute; reflexivity|]. split; [vm_compute; reflexivity|].
  apply (pool_exclusive 1 30 pool_run). vm_compute. reflexivity.
Defined.

(** Returning a connection while the pool is being closed.  [Put] reads the channel
    under the lock and sends to it after it has released the lock; if [Close] closes
    the channel in between, [Put] panics. *)
Theorem put_races_with_close :
  for_each pstep (psys0 1024 (30 * second)) [PGetRead; PGetReceive 0 None; PPutRead 0; PCloseChan; PPutSend 1 0] =
  Panic "send on closed channel".
Proof. vm_compute. reflexivity. Qed.
