(* ===== verification/Refreshable.v ===== *)
(** Refreshable data: internal/filter/internal/refreshable (file.go,
    refreshable.go).

    A refreshable returns the contents of its cache file while the file is fresh,
    and downloads the data otherwise.  What the operating system and the server
    do is an input: the results of opening, reading and replacing files, and the
    body of the response.  The cache file is the state.  URLs are parsed by
    internal/agdhttp (url.go). *)

From S2P Require Import Prelude GoStd.

Open Scope Z_scope.

(** ** internal/agdhttp/url.go

    [net/url] and the scheme test of golibs are parameters. *)

Record URL := { u_Scheme : string; u_Host : string; u_Path : string }.

Class UrlLib := {
  url_Parse : string -> result error URL;
  IsValidHTTPURLScheme : string -> bool;
}.

Definition ParseHTTPURL `{UrlLib} (s : string) : result error URL :=
  let? u := url_Parse s in
  if bool_decide (u_Host u = EmptyString) then Err (ErrConst "empty host")
  else if negb (IsValidHTTPURLScheme (u_Scheme u)) then Err (ErrConst "bad scheme %q")
  else Ok u.

(** ** file.go *)

(** An opened file: the results of [Stat], [ReadAll] and [Close]. *)
Record OpenedFile := {
  of_ModTime : result error Z;
  of_Data : result error string;
  of_Close : option error;
}.

(** [errors.WithDeferred] in a deferred function; the other results are not used
    by the callers if there is an error. *)
Definition with_deferred {A} (r : result error A) (deferred : option error) : result error A :=
  match r, deferred with
  | r, None => r
  | Ok _, Some err => Err (ErrWrap "deferred: %w" err)
  | Err err, Some d => Err (ErrJoin [err; d])
  end.

(** [open] is the result of [os.Open], [Ok None] if the file does not exist.  The
    result [Ok None] is a nil slice. *)
Definition DataFromFile (open : result error (option OpenedFile)) (updTime staleness : Z)
    (acceptStale : bool) : result error (option string) :=
  match open with
  | Ok None => Ok None
  | Err err => Err (ErrWrap "opening refreshable file: %w" err)
  | Ok (Some file) =>
      let read :=
        match of_Data file with
        | Err err => Err (ErrWrap "reading refreshable file: %w" err)
        | Ok b => Ok (Some b)
        end in
      with_deferred
        (if acceptStale then read
         else match of_ModTime file with
              | Err err => Err (ErrWrap "reading refreshable file stat: %w" err)
              | Ok mtime => if negb (updTime <? mtime + staleness) then Ok None else read
              end)
        (of_Close file)
  end.

(** ** refreshable.go *)

(** The contents of the cache file, if there is one. *)
Record File := { fi_ModTime : Z; fi_Data : string }.

Record Refreshable := {
  r_isFile : bool;        (* the scheme of the URL is "file" *)
  r_staleness : Z;
}.

Definition SchemeFile : string := "file".

Definition refreshable_New `{UrlLib} `{UnicodeCase} (url : option URL) (staleness : Z) : result error Refreshable :=
  match url with
  | None => Err (ErrConst "refreshable.New: nil url for refreshable with ID %q")
  | Some u =>
      if negb (EqualFold (u_Scheme u) SchemeFile) && negb (IsValidHTTPURLScheme (u_Scheme u))
      then Err (ErrConst "refreshable.New: bad url scheme %q")
      else Ok {| r_isFile := EqualFold (u_Scheme u) SchemeFile; r_staleness := staleness |}
  end.

(** What happens during one refresh.  [re_open_err] and the like are errors of the
    operating system; [re_body] is what is copied from the response under the size
    limit, or the error of the request, of its status or of the copying;
    [re_later] is the modification time that a replaced file gets by itself. *)
Record RefrEnv := {
  re_now : Z;
  re_open_err : option error;
  re_stat_err : option error;
  re_read_err : option error;
  re_close_err : option error;
  re_tmp_err : option error;
  re_body : result error string;
  re_replace_err : option error;
  re_chtimes_err : option error;
  re_later : Z;
}.

Definition or_error {A} (err : option error) (a : A) : result error A :=
  match err with Some e => Err e | None => Ok a end.

(** Opening a file with the given contents. *)
Definition open_file (env : RefrEnv) (f : option File) : result error (option OpenedFile) :=
  or_error (re_open_err env)
    ((fun f => {| of_ModTime := or_error (re_stat_err env) (fi_ModTime f);
                  of_Data := or_error (re_read_err env) (fi_Data f);
                  of_Close := re_close_err env |}) <$> f).

(** [file] is the file of the URL. *)
Definition refreshFromFileOnly (r : Refreshable) (env : RefrEnv) (file : option File)
    : result error (option string) :=
  match DataFromFile (open_file env file) 0 (r_staleness r) true with
  | Err err => Err (ErrWrap "refreshing from file %q: %w" err)
  | Ok b => Ok b
  end.

(** [withDeferredTmpCleanup] for the returned data; on an error the temporary file
    is removed. *)
Definition withDeferredTmpCleanup (env : RefrEnv) (cache : option File) (updTime : Z)
    (returned : result error string) : result error string * option File :=
  match returned with
  | Err err => (Err err, cache)
  | Ok b =>
      match re_replace_err env with
      | Some err => (Err (ErrWrap "deferred: %w" err), cache)
      | None =>
          match re_chtimes_err env with
          | Some err => (Err (ErrWrap "deferred: %w" err), Some {| fi_ModTime := re_later env; fi_Data := b |})
          | None => (Ok b, Some {| fi_ModTime := updTime; fi_Data := b |})
          end
      end
  end.

Definition refreshFromURL (env : RefrEnv) (cache : option File) (updTime : Z)
    : result error string * option File :=
  match re_tmp_err env with
  | Some err => (Err (ErrWrap "creating temporary refreshable file: %w" err), cache)
  | None =>
      withDeferredTmpCleanup env cache updTime
        match re_body env with
        | Err err => Err err
        | Ok EmptyString => Err (ErrConst "empty text, not resetting")
        | Ok b => Ok b
        end
  end.

Definition useCachedOrRefreshFromURL (r : Refreshable) (env : RefrEnv) (cache : option File)
    (acceptStale : bool) : result error string * option File :=
  let now := re_now env in
  match DataFromFile (open_file env cache) now (r_staleness r) acceptStale with
  | Err err => (Err (ErrWrap "refreshing from cache file %q: %w" err), cache)
  | Ok b =>
      match default EmptyString b with
      | EmptyString =>
          match refreshFromURL env cache now with
          | (Err err, cache) => (Err (ErrWrap "refreshing from url %q: %w" err), cache)
          | (Ok b, cache) => (Ok b, cache)
          end
      | b => (Ok b, cache)
      end
  end.

(** The result is the data; a nil slice is the empty string.  For a file URL,
    [cache] is that file. *)
Definition refreshable_Refresh (r : Refreshable) (env : RefrEnv) (cache : option File) (acceptStale : bool)
    : result error string * option File :=
  let '(res, cache) :=
    if r_isFile r then (let? b := refreshFromFileOnly r env cache in Ok (default EmptyString b), cache)
    else useCachedOrRefreshFromURL r env cache acceptStale in
  (annotate "%s: %w" res, cache).

(** * Facts *)

(** A cache file that a refresh may use at the time [now]. *)
Definition usable (r : Refreshable) (now : Z) (acceptStale : bool) (f : File) : Prop :=
  fi_Data f <> EmptyString /\ (acceptStale = true \/ now < fi_ModTime f + r_staleness r).

Lemma DataFromFile_Some env f now st accept b :
  DataFromFile (open_file env f) now st accept = Ok (Some b) ->
  exists file, f = Some file /\ b = fi_Data file /\ (accept = true \/ now < fi_ModTime file + st).
Proof.
  unfold DataFromFile, open_file. destruct (re_open_err env); [done|]. simpl.
  destruct f as [file|]; [|done]. simpl. unfold with_deferred, or_error.
  destruct (re_close_err env), accept, (re_stat_err env), (re_read_err env); simpl;
    intros ?; repeat case_match; bool_simp; simplify_eq; exists file;
    (split_and!; [done|done|first [by left|right; lia]]).
Qed.

(** Without data, a file is missing, stale or empty. *)
Lemma DataFromFile_empty r env f now accept b :
  DataFromFile (open_file env f) now (r_staleness r) accept = Ok b -> default EmptyString b = EmptyString ->
  forall file, f = Some file -> ~ usable r now accept file.
Proof.
  intros E Hb file -> [Hne Hst]. destruct b as [b|].
  - apply DataFromFile_Some in E as (f' & [= <-] & -> & _). done.
  - revert E. unfold DataFromFile, open_file. destruct (re_open_err env); [done|]. simpl.
    unfold with_deferred, or_error.
    destruct (re_close_err env), accept, (re_stat_err env), (re_read_err env); simpl;
      intros ?; repeat case_match; bool_simp; simplify_eq; destruct Hst; first [done|lia].
Qed.

Lemma refreshFromURL_source env cache updTime :
  match refreshFromURL env cache updTime with
  | (Ok b, cache') => b <> EmptyString /\ re_body env = Ok b /\
      cache' = Some {| fi_ModTime := updTime; fi_Data := b |}
  | (Err _, cache') => cache' = cache \/
      exists b, re_body env = Ok b /\ cache' = Some {| fi_ModTime := re_later env; fi_Data := b |}
  end.
Proof.
  unfold refreshFromURL, withDeferredTmpCleanup. destruct (re_tmp_err env); [by left|].
  destruct (re_body env) as [[|c b]|]; [by left| |by left].
  destruct (re_replace_err env); [by left|].
  destruct (re_chtimes_err env); [right; by eexists|done].
Qed.

Lemma refresh_source_cases r env cache accept :
  r_isFile r = false ->
  match refreshable_Refresh r env cache accept with
  | (Ok b, cache') => b <> EmptyString /\
      ((exists f, cache = Some f /\ usable r (re_now env) accept f /\ b = fi_Data f /\ cache' = cache) \/
       (re_body env = Ok b /\ cache' = Some {| fi_ModTime := re_now env; fi_Data := b |} /\
        forall f, cache = Some f -> ~ usable r (re_now env) accept f))
  | (Err _, cache') => cache' = cache \/
      exists b, re_body env = Ok b /\ cache' = Some {| fi_ModTime := re_later env; fi_Data := b |}
  end.
Proof.
  intros Hf. unfold refreshable_Refresh. rewrite Hf. unfold useCachedOrRefreshFromURL.
  destruct (DataFromFile _ _ _ _) as [b|err] eqn:Ed; [|by left].
  destruct (default EmptyString b) as [|c s] eqn:Eb.
  - pose proof (DataFromFile_empty _ _ _ _ _ _ Ed Eb) as Hnone.
    pose proof (refreshFromURL_source env cache (re_now env)) as Hu.
    destruct (refreshFromURL env cache (re_now env)) as [[b'|e] cache']; simpl; [|done].
    destruct Hu as (? & ? & ->). split; [done|]. by right.
  - destruct b as [b|]; [|done]. simpl in Eb. subst b. simpl. split; [done|]. left.
    apply DataFromFile_Some in Ed as (f & -> & E & Hst). exists f. unfold usable. by rewrite <- E.
Qed.

(** Where the data of a refreshable comes from.  If a refresh from a URL
    succeeds, then its data is not empty, and it is either the contents of a cache
    file that is fresh, or whose staleness is accepted, or it has been downloaded
    just now, and the cache file is left with exactly this data and the time of the
    refresh; if the cache file is usable, then nothing is downloaded.  A failed
    refresh leaves the cache file as it was, unless only the times of the new file
    could not be set. *)
Theorem refresh_source r env cache accept :
  r_isFile r = false ->
  match refreshable_Refresh r env cache accept with
  | (Ok b, cache') => b <> EmptyString /\
      ((exists f, cache = Some f /\ usable r (re_now env) accept f /\ b = fi_Data f /\ cache' = cache) \/
       (re_body env = Ok b /\ cache' = Some {| fi_ModTime := re_now env; fi_Data := b |} /\
        forall f, cache = Some f -> ~ usable r (re_now env) accept f))
  | (Err _, cache') => cache' = cache \/
      exists b, re_body env = Ok b /\ cache' = Some {| fi_ModTime := re_later env; fi_Data := b |}
  end.
Proof. apply refresh_source_cases. Qed.

(** ** Concrete inputs *)

(** A refresh at the time [now] without errors, with the given body. *)
Definition env_at (now : Z) (body : string) : RefrEnv := {|
  re_now := now; re_open_err := None; re_stat_err := None; re_read_err := None; re_close_err := None;
  re_tmp_err := None; re_body := Ok body; re_replace_err := None; re_chtimes_err := None; re_later := now;
|}.

Definition url_refreshable (staleness : Z) : Refreshable := {| r_isFile := false; r_staleness := staleness |}.

Lemma refresh_source_witness :
  exists b cache', refreshable_Refresh (url_refreshable 10) (env_at 25 "new")
    (Some {| fi_ModTime := 14; fi_Data := "old" |}) false = (Ok b, cache') /\
  cache' = Some {| fi_ModTime := 25; fi_Data := b |}.
Proof.
  pose proof (refresh_source (url_refreshable 10) (env_at 25 "new")
    (Some {| fi_ModTime := 14; fi_Data := "old" |}) false eq_refl) as H.
  destruct (refreshable_Refresh _ _ _ _) as [[b|e] cache'] eqn:E; [|by vm_compute in E].
  exists b, cache'. split; [done|].
  destruct H as [_ [(f & [= <-] & [_ [?|Hu]] & _)|(_ & -> & _)]]; [done|simpl in Hu; lia|done].
Defined.
