(* ===== verification/MsgConfig.v ===== *)
(** The configuration of the constructor of messages: internal/dnsmsg
    (structurederror.go and NewConstructor of constructor.go). *)

From S2P Require Import Prelude GoStd Utf8 NetIP HumanID DnsMsg Refreshable.

Open Scope Z_scope.

(** A nil URL is [None]. *)
Record StructuredDNSErrorsConfig := {
  sd_Justification : string;
  sd_Organization : string;
  sd_Contact : list (option URL);
  sd_Enabled : bool;
}.

(** [json.Marshal] of [structuredDNSErrorData] and [url.URL.String]. *)
Class SdeEncoding := {
  marshal_sde : string -> string -> list string -> string;
  url_String : URL -> string;
}.

(** The table of surrogates and the one of non-characters of package unicode. *)
Definition isSurrogateOrNonCharacter (r : Z) : bool :=
  ((0xD800 <=? r) && (r <=? 0xDFFF)) ||
  ((0xFDD0 <=? r) && (r <=? 0xFDEF)) ||
  ((0 <=? r) && (r <=? 0x10FFFF) && (0xFFFE <=? r mod 0x10000)).

Definition validateSDEString (s : string) : option error :=
  if existsb isSurrogateOrNonCharacter (runes s) then Some (ErrConst "bad code point at index %d") else None.

Section config.
Context `{UnicodeCase} `{SdeEncoding}.

Definition validateSDEContactURL (u : option URL) : option error :=
  match u with
  | None => Some (ErrConst "no value")
  | Some u =>
      if bool_decide (ToLower (u_Scheme u) ∈ ["mailto"; "sips"; "tel"]%string) then None
      else Some (ErrWrap "scheme: %w: %q" (ErrConst "bad enum value"))
  end.

Definition sde_validate (c : option StructuredDNSErrorsConfig) (edeEnabled : bool) : option error :=
  match c with
  | None => Some (ErrConst "no value")
  | Some c =>
      if negb (sd_Enabled c) then None
      else if negb edeEnabled then Some (ErrConst "ede must be enabled to enable sde")
      else Join (omap id (
        [if bool_decide (sd_Contact c = []) then Some (ErrWrap "contact data: %w" (ErrConst "empty value")) else None] ++
        ((fun u => wrap_opt "contact data: at index %d: %w" (validateSDEContactURL u)) <$> sd_Contact c) ++
        [if bool_decide (sd_Justification c = EmptyString)
         then Some (ErrWrap "justification: %w" (ErrConst "empty value"))
         else wrap_opt "justification: %w" (validateSDEString (sd_Justification c));
         wrap_opt "organization: %w" (validateSDEString (sd_Organization c))]))
  end.

(** A nil contact has no string. *)
Definition iJSON (c : StructuredDNSErrorsConfig) : outcome string :=
  let! contact := foldr (fun u r => let! l := r in
    match u with Some u => Ret (url_String u :: l) | None => Panic "nil pointer dereference" end)
    (Ret []) (sd_Contact c) in
  Ret (marshal_sde (sd_Justification c) (sd_Organization c) contact).

(** The cloner is not in the model; here is whether it is nil. *)
Record ConstructorConfig := {
  cc_Cloner : bool;
  cc_StructuredErrors : option StructuredDNSErrorsConfig;
  cc_BlockingMode : option BlockingMode;
  cc_FilteredResponseTTL : Z;
  cc_EDEEnabled : bool;
}.

Definition cc_validate (conf : ConstructorConfig) : option error :=
  Join (omap id [
    (if cc_Cloner conf then None else Some (ErrWrap "cloner: %w" (ErrConst "no value")));
    wrap_opt "structured errors: %w" (sde_validate (cc_StructuredErrors conf) (cc_EDEEnabled conf));
    match cc_BlockingMode conf with
    | None => Some (ErrWrap "blocking mode: %w" (ErrConst "no value"))
    | Some _ => None
    end;
    (if cc_FilteredResponseTTL conf <? 0 then Some (ErrWrap "filtered response ttl: %w" (ErrConst "negative value"))
     else None)]).

Definition NewConstructor (conf : ConstructorConfig) : outcome (result error Constructor) :=
  match cc_validate conf with
  | Some err => Ret (Err (ErrWrap "configuration: %w" err))
  | None =>
      match cc_StructuredErrors conf, cc_BlockingMode conf with
      | Some sdeConf, Some mode =>
          let! s := if sd_Enabled sdeConf then iJSON sdeConf else Ret EmptyString in
          Ret (Ok {| blockingMode := mode; sde := s; fltRespTTL := cc_FilteredResponseTTL conf;
                     edeEnabled := cc_EDEEnabled conf |})
      | _, _ => Panic "nil pointer dereference"
      end
  end.

(** ** Facts *)

(** What makes a configuration valid. *)
Definition sde_ok (c : StructuredDNSErrorsConfig) (ede : bool) : Prop :=
  sd_Enabled c = true ->
  ede = true /\ sd_Contact c <> [] /\ sd_Justification c <> EmptyString /\
  (forall u, u ∈ sd_Contact c -> exists v, u = Some v /\ ToLower (u_Scheme v) ∈ ["mailto"; "sips"; "tel"]%string) /\
  (forall r, r ∈ runes (sd_Justification c) \/ r ∈ runes (sd_Organization c) ->
     isSurrogateOrNonCharacter r = false).

Lemma or_elim (P Q R : Z -> Prop) :
  (forall r, P r \/ Q r -> R r) <-> (forall r, P r -> R r) /\ (forall r, Q r -> R r).
Proof. naive_solver. Qed.

Lemma validateSDEString_None s :
  validateSDEString s = None <-> forall r, r ∈ runes s -> isSurrogateOrNonCharacter r = false.
Proof.
  unfold validateSDEString. rewrite <- existsb_elem_false. by destruct (existsb _ _).
Qed.

Lemma validateSDEContactURL_None u : validateSDEContactURL u = None <->
  exists v, u = Some v /\ ToLower (u_Scheme v) ∈ ["mailto"; "sips"; "tel"]%string.
Proof.
  destruct u as [u|]; simpl; [|naive_solver].
  case_bool_decide; naive_solver.
Qed.

Lemma sde_validate_None c ede : sde_validate (Some c) ede = None <-> sde_ok c ede.
Proof.
  unfold sde_ok, sde_validate. destruct (sd_Enabled c); cbn [negb]; [|naive_solver].
  destruct ede; cbn [negb]; [|naive_solver].
  rewrite Join_omap_None,  !Forall_app, !Forall_cons, Forall_fmap, wrap_opt_None, !validateSDEString_None.
  rewrite (Forall_forall _ (sd_Contact c)). unfold compose. setoid_rewrite wrap_opt_None. setoid_rewrite validateSDEContactURL_None.
  rewrite or_elim. repeat case_bool_decide; rewrite ?wrap_opt_None, ?validateSDEString_None, ?Forall_nil; intuition congruence.
Qed.

Lemma iJSON_total c : (forall u, u ∈ sd_Contact c -> exists v, u = Some v) -> exists s, iJSON c = Ret s.
Proof.
  intros Hu. unfold iJSON.
  assert (exists l, foldr (fun u r => let! l := r in
    match u with Some u => Ret (url_String u :: l) | None => Panic "nil pointer dereference" end)
    (Ret []) (sd_Contact c) = Ret l) as [l ->]; [|by eexists].
  induction (sd_Contact c) as [|u l IH]; [by exists []|].
  destruct IH as [l' E]; [intros v Hv; apply Hu; by constructor|]. simpl. rewrite E.
  destruct (Hu u) as [v ->]; [constructor|]. by eexists.
Qed.

Lemma NewConstructor_total conf sd :
  cc_StructuredErrors conf = Some sd ->
  exists r, NewConstructor conf = Ret r /\
    ((exists c, r = Ok c) <->
     cc_Cloner conf = true /\ sde_ok sd (cc_EDEEnabled conf) /\ cc_BlockingMode conf <> None /\
     0 <= cc_FilteredResponseTTL conf) /\
    (forall c, r = Ok c ->
       Some (blockingMode c) = cc_BlockingMode conf /\ fltRespTTL c = cc_FilteredResponseTTL conf /\
       edeEnabled c = cc_EDEEnabled conf /\ (sd_Enabled sd = false -> sde c = EmptyString)).
Proof.
  intros Hsd. unfold NewConstructor.
  assert (cc_validate conf = None <->
     cc_Cloner conf = true /\ sde_ok sd (cc_EDEEnabled conf) /\ cc_BlockingMode conf <> None /\
     0 <= cc_FilteredResponseTTL conf) as Hv.
  { unfold cc_validate. rewrite Join_omap_None, !Forall_cons, Hsd, wrap_opt_None, sde_validate_None.
    destruct (cc_Cloner conf), (cc_BlockingMode conf), (Z.ltb_spec (cc_FilteredResponseTTL conf) 0);
      rewrite ?Forall_nil; intuition (congruence || lia). }
  destruct (cc_validate conf) as [e|].
  { eexists. split; [done|]. split; [|naive_solver]. rewrite <- Hv. naive_solver. }
  destruct Hv as [Hv _]. specialize (Hv eq_refl) as (Hc & Hs & Hb & Ht). rewrite Hsd.
  destruct (cc_BlockingMode conf) as [mode|]; [|done].
  destruct (sd_Enabled sd) eqn:E; simpl.
  - destruct (iJSON_total sd) as [s ->]; [|simpl; eexists; split; [done|]; naive_solver].
    intros u Hu. destruct (Hs E) as (_ & _ & _ & Hall & _). destruct (Hall u Hu) as (v & -> & _). by exists v.
  - eexists. split; [done|]. naive_solver.
Qed.

(** A constructor is made exactly from the valid configurations, has their
    settings, and nothing panics. *)
Theorem NewConstructor_valid conf sd :
  cc_StructuredErrors conf = Some sd ->
  exists r, NewConstructor conf = Ret r /\
    ((exists c, r = Ok c) <->
     cc_Cloner conf = true /\ sde_ok sd (cc_EDEEnabled conf) /\ cc_BlockingMode conf <> None /\
     0 <= cc_FilteredResponseTTL conf) /\
    (forall c, r = Ok c ->
       Some (blockingMode c) = cc_BlockingMode conf /\ fltRespTTL c = cc_FilteredResponseTTL conf /\
       edeEnabled c = cc_EDEEnabled conf /\ (sd_Enabled sd = false -> sde c = EmptyString)).
Proof. apply NewConstructor_total. Qed.

End config.

(** ** A concrete configuration *)

#[local] Existing Instance ref_unicode.

#[export] Instance ref_sde : SdeEncoding := {|
  marshal_sde := fun j o c => j +:+ o +:+ foldr String.append EmptyString c;
  url_String := fun u => u_Scheme u +:+ ":" +:+ u_Path u;
|}.

Definition some_sde : StructuredDNSErrorsConfig := {|
  sd_Justification := "filtering"; sd_Organization := "org";
  sd_Contact := [Some {| u_Scheme := "MAILTO"; u_Host := ""; u_Path := "support" |}]; sd_Enabled := true;
|}.

Lemma NewConstructor_valid_witness :
  exists r, NewConstructor {| cc_Cloner := true; cc_StructuredErrors := Some some_sde;
    cc_BlockingMode := Some BlockingModeNullIP; cc_FilteredResponseTTL := 10; cc_EDEEnabled := true |} = Ret r /\
    exists c, r = Ok c /\ fltRespTTL c = 10.
Proof.
  set (conf := {| cc_Cloner := _ |}).
  destruct (NewConstructor_valid conf some_sde eq_refl) as (r & E & _ & Hc).
  exists r. split; [exact E|]. vm_compute in E. injection E as <-. eexists. split; reflexivity.
Defined.
