(* ===== verification/RuleListStorage.v ===== *)
(** The storage of rule lists: internal/filter/ruleliststorage (default.go,
    index.go, refresh.go).

    A refresh downloads the index, and then refreshes each list of the index in a
    goroutine of its own.  The goroutines only read the previous lists and only
    write the cache file of their own list, so their order does not matter and
    they are run one after another here.  The decoders of JSON and of times are
    parameters. *)

From S2P Require Import Prelude GoStd HumanID Filter RuleList Refreshable.

Open Scope Z_scope.

(** ** index.go *)

Record indexRespFilter := { ir_DownloadURL : string; ir_Key : string; ir_TimeUpdated : string }.

(** [None] is a nil pointer in the decoded slice. *)
Class IndexDecoders := {
  unmarshal_index : string -> result error (list (option indexRespFilter));
  time_Parse : string -> result error Z;
}.

Definition compare (f other : option indexRespFilter) : comparison :=
  match f, other with
  | None, None => Eq
  | None, Some _ => Gt
  | Some _, None => Lt
  | Some f, Some other => String.compare (ir_Key f) (ir_Key other)
  end.

(** [slices.SortStableFunc]. *)
Fixpoint sort_insert {A} (cmp : A -> A -> comparison) (x : A) (l : list A) : list A :=
  match l with
  | [] => [x]
  | y :: l => match cmp x y with Gt => y :: sort_insert cmp x l | _ => x :: y :: l end
  end.

Definition SortStableFunc {A} (cmp : A -> A -> comparison) (l : list A) : list A :=
  foldr (sort_insert cmp) [] l.

Definition NotEmpty (name s : string) : option error :=
  if bool_decide (s = EmptyString) then Some (ErrWrap name (ErrConst "empty value")) else None.

Definition ir_validate (f : option indexRespFilter) : option error :=
  match f with
  | None => Some (ErrConst "no value")
  | Some f =>
      Join (omap id [NotEmpty "downloadUrl" (ir_DownloadURL f); NotEmpty "timeUpdated" (ir_TimeUpdated f);
                     match NewID (ir_Key f) with
                     | Err err => Some (ErrWrap "filterKey: %w" err)
                     | Ok _ => None
                     end])
  end.

Record indexData := { id_url : URL; id_updTime : Z }.

Section storage.
Context `{IndexDecoders} `{UrlLib} `{UnicodeCase} `{Urlfilter} `{AgdCache CacheKey (option DNSResult)}.

Definition ir_toInternal (f : indexRespFilter) : result error indexData :=
  match ParseHTTPURL (ir_DownloadURL f) with
  | Err err => Err (ErrWrap "parsing url: %w" err)
  | Ok u =>
      match time_Parse (ir_TimeUpdated f) with
      | Err err => Err (ErrWrap "parsing timeUpdated: %w" err)
      | Ok t => Ok {| id_url := u; id_updTime := t |}
      end
  end.

(** One step of the loop; the second component are the collected errors. *)
Definition add_filter (acc : gmap string indexData * list error) (rf : option indexRespFilter)
    : gmap string indexData * list error :=
  let '(fls, errs) := acc in
  match rf with
  | None => (fls, errs ++ [ErrWrap "validating filter at index %d: %w" (ErrConst "no value")])
  | Some f =>
      match ir_validate (Some f) with
      | Some err => (fls, errs ++ [ErrWrap "validating filter at index %d: %w" err])
      | None =>
          if bool_decide (is_Some (fls !! ir_Key f))
          then (fls, errs ++ [ErrWrap "rule-list id: %w: %q" (ErrConst "duplicated value")])
          else
            match ir_toInternal f with
            | Err err => (fls, errs ++ [err])
            | Ok fl => (<[ir_Key f := fl]> fls, errs)
            end
      end
  end.

Definition index_toInternal (filters : list (option indexRespFilter)) : gmap string indexData * list error :=
  foldl add_filter (∅, []) filters.

(** ** default.go *)

Record ruleListData := { rd_refr : baseFilter; rd_updTime : Z }.

(** A value of the map may be a nil pointer.  A nil map and an empty map behave
    alike. *)
Notation ruleLists := (gmap string (option ruleListData)).

(** [rs_indexFile] and [rs_files] are the files of the cache directory, and
    [rs_errs] the errors given to the error collector. *)
Record RuleListStorage := {
  rs_refr : Refreshable;
  rs_ruleLists : ruleLists;
  rs_staleness : Z;
  rs_cacheEnabled : bool;
  rs_indexFile : option File;
  rs_files : gmap string File;
  rs_errs : list error;
}.

Definition NewRuleListStorage (indexURL : option URL) (indexStaleness staleness : Z) (cacheEnabled : bool)
    (indexFile : option File) (files : gmap string File) : result error RuleListStorage :=
  match refreshable_New indexURL indexStaleness with
  | Err err => Err (ErrWrap "initializing rule list refresher: %w" err)
  | Ok idxRefr =>
      Ok {| rs_refr := idxRefr; rs_ruleLists := ∅; rs_staleness := staleness; rs_cacheEnabled := cacheEnabled;
            rs_indexFile := indexFile; rs_files := files; rs_errs := [] |}
  end.

Definition AppendForListIDs (s : RuleListStorage) (orig : list baseFilter) (ids : list string) : list baseFilter :=
  foldl (fun rls id =>
    match rs_ruleLists s !! id with
    | Some (Some rl) => rls ++ [rd_refr rl]
    | _ => rls
    end) orig ids.

Definition HasListID (s : RuleListStorage) (id : string) : bool := bool_decide (is_Some (rs_ruleLists s !! id)).

(** ** refresh.go *)

Definition prevRuleList (s : RuleListStorage) (id : string) : option ruleListData :=
  default None (rs_ruleLists s !! id).

Definition needsUpdate (s : RuleListStorage) (id : string) (fl : indexData) : bool * option ruleListData :=
  match prevRuleList s id with
  | None => (true, None)
  | Some prev => (rd_updTime prev <? id_updTime fl, Some prev)
  end.

Definition NewRefreshable (url : URL) (id : string) (staleness : Z) (c : option cache)
    : result error (baseFilter * Refreshable) :=
  let f := newBaseFilter EmptyString id EmptyString c in
  if EqualFold (u_Scheme url) SchemeFile then Err (ErrConst "unsupported url %q")
  else
    match refreshable_New (Some url) staleness with
    | Err err => Err (ErrWrap "creating refreshable: %w" err)
    | Ok refr => Ok (f, refr)
    end.

Definition newRuleListRefreshable (s : RuleListStorage) (id : string) (fl : indexData)
    : result error (baseFilter * Refreshable) :=
  NewRefreshable (id_url fl) id (rs_staleness s) (if rs_cacheEnabled s then Some cempty else None).

(** [Refresh] of a new list: what its refreshable loads is compiled.  The second
    result is the cache file of the list. *)
Definition refresh_list (rl : baseFilter) (refr : Refreshable) (env : RefrEnv) (file : option File)
    (acceptStale : bool) : result error baseFilter * option File :=
  let '(data, file) := refreshable_Refresh refr env file acceptStale in
  match rulelist_Refresh rl data with
  | (Some err, _) => (Err err, file)
  | (None, rl) => (Ok rl, file)
  end.

(** The result sent to the channel, and the new cache file of the list. *)
Definition refreshRuleList (s : RuleListStorage) (env : RefrEnv) (id : string) (fl : indexData)
    (file : option File) (acceptStale : bool) : result error ruleListData * option File :=
  match needsUpdate s id fl with
  | (false, Some prev) => (Ok {| rd_refr := rd_refr prev; rd_updTime := rd_updTime prev |}, file)
  | _ =>
      match newRuleListRefreshable s id fl with
      | Err err => (Err (ErrWrap "creating rule list: %w" err), file)
      | Ok (rl, refr) =>
          match refresh_list rl refr env file acceptStale with
          | (Err err, file) => (Err (ErrWrap "refreshing rule list: %w" err), file)
          | (Ok rl, file) => (Ok {| rd_refr := rl; rd_updTime := id_updTime fl |}, file)
          end
      end
  end.

(** The second result are the errors that are collected. *)
Definition resultRuleList (s : RuleListStorage) (id : string) (res : result error ruleListData)
    : option ruleListData * list error :=
  match res with
  | Err err => (prevRuleList s id, [ErrWrap "initializing rule list %q: %w" err])
  | Ok rl => (Some rl, [])
  end.

(** What happens during a refresh: the environment of the index and of each list,
    and the error of the context, if it ends before all results have come. *)
Record StorageEnv := {
  se_index : RefrEnv;
  se_lists : string -> RefrEnv;
  se_ctx : option error;
}.

Definition refresh_one (s : RuleListStorage) (envs : string -> RefrEnv) (acceptStale : bool)
    (acc : ruleLists * gmap string File * list error) (x : string * indexData)
    : ruleLists * gmap string File * list error :=
  let '(rls, files, errs) := acc in
  let '(id, fl) := x in
  let '(res, file) := refreshRuleList s (envs id) id fl (files !! id) acceptStale in
  let '(rl, errs') := resultRuleList s id res in
  (<[id := rl]> rls, partial_alter (fun _ => file) id files, errs ++ errs').

Definition refreshRuleLists (s : RuleListStorage) (env : StorageEnv) (filtersData : gmap string indexData)
    (acceptStale : bool) : result error ruleLists * RuleListStorage :=
  let '(rls, files, errs) :=
    foldl (refresh_one s (se_lists env) acceptStale) (∅, rs_files s, []) (map_to_list filtersData) in
  let s := {| rs_refr := rs_refr s; rs_ruleLists := rs_ruleLists s; rs_staleness := rs_staleness s;
              rs_cacheEnabled := rs_cacheEnabled s; rs_indexFile := rs_indexFile s; rs_files := files;
              rs_errs := rs_errs s ++ errs |} in
  match se_ctx env with
  | Some err => (Err err, s)
  | None => (Ok rls, s)
  end.

Definition loadIndex (s : RuleListStorage) (env : StorageEnv) (acceptStale : bool)
    : result error (list (option indexRespFilter)) * RuleListStorage :=
  let '(b, file) := refreshable_Refresh (rs_refr s) (se_index env) (rs_indexFile s) acceptStale in
  let s := {| rs_refr := rs_refr s; rs_ruleLists := rs_ruleLists s; rs_staleness := rs_staleness s;
              rs_cacheEnabled := rs_cacheEnabled s; rs_indexFile := file; rs_files := rs_files s;
              rs_errs := rs_errs s |} in
  match b with
  | Err err => (Err (ErrWrap "loading index: %w" err), s)
  | Ok b =>
      match unmarshal_index b with
      | Err err => (Err (ErrWrap "decoding index: %w" err), s)
      | Ok filters => (Ok (SortStableFunc compare filters), s)
      end
  end.

Definition collect (s : RuleListStorage) (errs : list error) : RuleListStorage := {|
  rs_refr := rs_refr s; rs_ruleLists := rs_ruleLists s; rs_staleness := rs_staleness s;
  rs_cacheEnabled := rs_cacheEnabled s; rs_indexFile := rs_indexFile s; rs_files := rs_files s;
  rs_errs := rs_errs s ++ errs;
|}.

Definition loadRuleLists (s : RuleListStorage) (env : StorageEnv) (acceptStale : bool)
    : result error ruleLists * RuleListStorage :=
  match loadIndex s env acceptStale with
  | (Err err, s) => (Err err, s)
  | (Ok resp, s) =>
      let '(fls, errs) := index_toInternal resp in
      match refreshRuleLists (collect s errs) env fls acceptStale with
      | (Err err, s) => (Err (ErrWrap "refreshing rule lists: %w" err), s)
      | (Ok rls, s) => (Ok rls, s)
      end
  end.

Definition resetRuleLists (s : RuleListStorage) (rls : ruleLists) : RuleListStorage := {|
  rs_refr := rs_refr s; rs_ruleLists := rls; rs_staleness := rs_staleness s;
  rs_cacheEnabled := rs_cacheEnabled s; rs_indexFile := rs_indexFile s; rs_files := rs_files s;
  rs_errs := rs_errs s;
|}.

(** The deletion of metrics for removed lists is left out. *)
Definition rls_refresh (s : RuleListStorage) (env : StorageEnv) (acceptStale : bool)
    : option error * RuleListStorage :=
  match loadRuleLists s env acceptStale with
  | (Err err, s) => (Some err, s)
  | (Ok rls, s) => (None, resetRuleLists s rls)
  end.

Definition rls_Refresh (s : RuleListStorage) (env : StorageEnv) : option error * RuleListStorage :=
  match rls_refresh s env false with
  | (Some err, s) => (Some err, collect s [err])
  | (None, s) => (None, s)
  end.

Definition rls_RefreshInitial (s : RuleListStorage) (env : StorageEnv) : option error * RuleListStorage :=
  match rls_refresh s env true with
  | (Some err, s) => (Some (ErrWrap "refreshing rule list storage initially: %w" err), s)
  | (None, s) => (None, s)
  end.

End storage.

(** * Facts *)

Section facts.
Context `{IndexDecoders} `{UrlLib} `{UnicodeCase} `{Urlfilter} `{AgdCache CacheKey (option DNSResult)}.

(** The goroutines of a refresh do not disturb one another. *)
Lemma refresh_all s envs accept l rls files errs :
  NoDup l.*1 ->
  let r := foldl (refresh_one s envs accept) (rls, files, errs) l in
  (forall id, id ∉ l.*1 -> r.1.1 !! id = rls !! id /\ r.1.2 !! id = files !! id) /\
  (forall id fl, (id, fl) ∈ l ->
    let rr := refreshRuleList s (envs id) id fl (files !! id) accept in
    r.1.1 !! id = Some (resultRuleList s id rr.1).1 /\ r.1.2 !! id = rr.2).
Proof.
  revert rls files errs. induction l as [|[i f] l IH]; intros rls files errs Hnd; simpl.
  { split; [done|]. by intros id fl ?%not_elem_of_nil. }
  apply NoDup_cons in Hnd as [Hi Hnd].
  destruct (refreshRuleList s (envs i) i f (files !! i) accept) as [res file] eqn:Er.
  destruct (resultRuleList s i res) as [rl errs'] eqn:El.
  edestruct (IH (<[i:=rl]> rls) (partial_alter (λ _, file) i files) (errs ++ errs') Hnd) as [Hout Hin].
  split.
  - intros id [Hne Hid]%not_elem_of_cons. destruct (Hout id Hid) as [-> ->]. simpl in Hne.
    by rewrite lookup_insert_ne, lookup_partial_alter_ne by done.
  - intros id fl [[= -> ->]|Hm]%elem_of_cons.
    + destruct (Hout i Hi) as [-> ->]. rewrite lookup_insert_eq, lookup_partial_alter_eq, Er. simpl. by rewrite El.
    + assert (id ≠ i) as Hne by (intros ->; apply Hi; by apply (list_elem_of_fmap_2 fst _ (i, fl))).
      specialize (Hin id fl Hm). by rewrite lookup_partial_alter_ne in Hin by done.
Qed.

Lemma refresh_map s env accept fls :
  let r := refreshRuleLists s env fls accept in
  (forall id, rs_files r.2 !! id =
    match fls !! id with
    | Some fl => (refreshRuleList s (se_lists env id) id fl (rs_files s !! id) accept).2
    | None => rs_files s !! id
    end) /\
  rs_ruleLists r.2 = rs_ruleLists s /\
  forall rls, r.1 = Ok rls -> forall id, rls !! id =
    (fun fl => (resultRuleList s id (refreshRuleList s (se_lists env id) id fl (rs_files s !! id) accept).1).1)
    <$> fls !! id.
Proof.
  unfold refreshRuleLists.
  destruct (refresh_all s (se_lists env) accept (map_to_list fls) ∅ (rs_files s) [] (NoDup_fst_map_to_list fls))
    as [Hout Hin].
  destruct (foldl _ _ _) as [[rls files] errs]. simpl in *.
  assert (forall id, fls !! id = None -> id ∉ (map_to_list fls).*1) as Hnot.
  { intros id Hn ((i & f) & -> & Hm)%list_elem_of_fmap. apply elem_of_map_to_list in Hm. simpl in Hn. congruence. }
  split_and!.
  - intros id. destruct (se_ctx env), (fls !! id) as [fl|] eqn:E; simpl;
      first [by apply Hin, elem_of_map_to_list|by apply Hout, Hnot].
  - by destruct (se_ctx env).
  - destruct (se_ctx env); simpl; [done|]. intros ? [= <-] id. destruct (fls !! id) as [fl|] eqn:E; simpl.
    + by apply Hin, elem_of_map_to_list.
    + destruct (Hout id (Hnot id E)) as [-> _]. apply lookup_empty.
Qed.

(** The valid entries of the index that a refresh loads. *)
Definition loaded_index (s : RuleListStorage) (env : StorageEnv) (accept : bool) : option (gmap string indexData) :=
  match (loadIndex s env accept).1 with
  | Ok resp => Some (index_toInternal resp).1
  | Err _ => None
  end.

Lemma loadIndex_keeps s env accept :
  let s' := (loadIndex s env accept).2 in
  rs_ruleLists s' = rs_ruleLists s /\ rs_files s' = rs_files s /\ rs_staleness s' = rs_staleness s /\
  rs_cacheEnabled s' = rs_cacheEnabled s.
Proof.
  unfold loadIndex. destruct (refreshable_Refresh _ _ _ _) as [[b|] f]; [|done]. by destruct (unmarshal_index b).
Qed.

Lemma refreshRuleList_same s s' env id fl file accept :
  rs_ruleLists s' = rs_ruleLists s -> rs_staleness s' = rs_staleness s -> rs_cacheEnabled s' = rs_cacheEnabled s ->
  refreshRuleList s' env id fl file accept = refreshRuleList s env id fl file accept.
Proof.
  intros H1' H2' H3'. unfold refreshRuleList, needsUpdate, prevRuleList, newRuleListRefreshable.
  by rewrite H1', H2', H3'.
Qed.

(** What a refresh does, list by list. *)
Lemma refresh_lists s env accept :
  let s' := (rls_refresh s env accept).2 in
  let one id fl := refreshRuleList s (se_lists env id) id fl (rs_files s !! id) accept in
  match loaded_index s env accept with
  | None => rs_ruleLists s' = rs_ruleLists s /\ rs_files s' = rs_files s
  | Some fls =>
      (forall id, rs_files s' !! id = match fls !! id with Some fl => (one id fl).2 | None => rs_files s !! id end) /\
      (rs_ruleLists s' = rs_ruleLists s \/
       forall id, rs_ruleLists s' !! id = (fun fl => (resultRuleList s id (one id fl).1).1) <$> fls !! id)
  end.
Proof.
  unfold rls_refresh, loadRuleLists, loaded_index.
  pose proof (loadIndex_keeps s env accept) as Hk. simpl in *.
  destruct (loadIndex s env accept) as [[resp|e] s1]; simpl in *; [|by destruct Hk as (? & ? & _)].
  destruct Hk as (Hl & Hf & Hs & Hc). destruct (index_toInternal resp) as [fls errs]. simpl.
  destruct (refresh_map (collect s1 errs) env accept fls) as (Hfiles & Hsame & Hrls).
  destruct (refreshRuleLists (collect s1 errs) env fls accept) as [[rls|e] s2]; simpl in *.
  - split.
    + intros id. rewrite Hfiles. simpl. rewrite Hf. destruct (fls !! id); [|done].
      by rewrite (refreshRuleList_same s).
    + right. intros id. rewrite (Hrls rls eq_refl). destruct (fls !! id); simpl; [|done]. rewrite Hf.
      rewrite (refreshRuleList_same s) by done. unfold resultRuleList, prevRuleList. simpl. by rewrite Hl.
  - split; [|left; congruence]. intros id. rewrite Hfiles. simpl. rewrite Hf. destruct (fls !! id); [|done].
    by rewrite (refreshRuleList_same s).
Qed.

(** One list: where its data comes from, and what the cache file is left with. *)
Lemma refreshRuleList_source s env id fl file accept (P : string -> Prop) :
  (forall f, file = Some f -> P (fi_Data f)) -> (forall b, re_body env = Ok b -> P b) ->
  let r := refreshRuleList s env id fl file accept in
  (forall f, r.2 = Some f -> P (fi_Data f)) /\
  match r.1 with
  | Err _ => True
  | Ok d => prevRuleList s id = Some d \/
      bf_id (rd_refr d) = id /\ rd_updTime d = id_updTime fl /\
      exists b, b <> EmptyString /\ P b /\ bf_engine (rd_refr d) = NewDNSEngine b
  end.
Proof.
  intros Hfile Hbody. unfold refreshRuleList.
  assert (forall rl refr, r_isFile refr = false -> bf_id rl = id ->
    let r := refresh_list rl refr env file accept in
    (forall f, r.2 = Some f -> P (fi_Data f)) /\
    forall rl', r.1 = Ok rl' -> bf_id rl' = id /\
      exists b, b <> EmptyString /\ P b /\ bf_engine rl' = NewDNSEngine b) as Hload.
  { intros rl refr Hurl Hid. unfold refresh_list. pose proof (refresh_source_cases refr env file accept Hurl) as Hs.
    destruct (refreshable_Refresh refr env file accept) as [[b|e] file']; simpl in *.
    - destruct Hs as [Hne Hs]. split.
      + intros f ->. destruct Hs as [(f' & -> & _ & -> & [= <-])|(Hb & [= ->] & _)]; [by apply Hfile|by apply Hbody].
      + intros rl' [= <-]. split; [done|]. exists b. split_and!; [done| |done].
        destruct Hs as [(f' & -> & _ & -> & _)|(Hb & _)]; [by apply Hfile|by apply Hbody].
    - split; [|done]. intros f ->. destruct Hs as [<-|(b & Hb & [= ->])]; [by apply Hfile|by apply Hbody]. }
  assert (forall rl refr, newRuleListRefreshable s id fl = Ok (rl, refr) -> r_isFile refr = false /\ bf_id rl = id) as Hnew.
  { intros rl refr. unfold newRuleListRefreshable, NewRefreshable, refreshable_New.
    destruct (EqualFold (u_Scheme (id_url fl)) SchemeFile) eqn:Ef; [done|]. case_if; [done|]. by intros [= <- <-]. }
  unfold needsUpdate. destruct (prevRuleList s id) as [prev|] eqn:Ep.
  1: destruct (rd_updTime prev <? id_updTime fl) eqn:Et; [|simpl; split; [done|left; by destruct prev]].
  all: destruct (newRuleListRefreshable s id fl) as [[rl refr]|e]; simpl; [|done];
    destruct (Hnew rl refr eq_refl) as [Hurl Hid]; destruct (Hload rl refr Hurl Hid) as [Hf Hr];
    destruct (refresh_list rl refr env file accept) as [[rl'|e] file']; simpl in *; (split; [done|]); [|done];
    destruct (Hr rl' eq_refl) as [? ?]; right; done.
Qed.

(** A refresh, initial or periodic. *)
Definition rls_exec (s : RuleListStorage) (e : bool * StorageEnv) : RuleListStorage :=
  if e.1 then (rls_RefreshInitial s e.2).2 else (rls_Refresh s e.2).2.

Lemma rls_exec_refresh s e :
  rs_ruleLists (rls_exec s e) = rs_ruleLists (rls_refresh s e.2 e.1).2 /\
  rs_files (rls_exec s e) = rs_files (rls_refresh s e.2 e.1).2.
Proof.
  unfold rls_exec, rls_RefreshInitial, rls_Refresh. destruct e as [[|] env]; simpl;
    destruct (rls_refresh s env _) as [[err|] s']; done.
Qed.

(** The data that a list may have: what its cache file had at the start, or what
    was downloaded for it. *)
Definition known_data (files : gmap string File) (evs : list (bool * StorageEnv)) (id b : string) : Prop :=
  (exists f, files !! id = Some f /\ fi_Data f = b) \/
  (exists e, e ∈ evs /\ re_body (se_lists e.2 id) = Ok b).

(** The lists are under their own IDs and compiled from data [P]. *)
Record rls_ok (P : string -> string -> Prop) (s : RuleListStorage) : Prop := {
  ok_files id f : rs_files s !! id = Some f -> P id (fi_Data f);
  ok_lists id d : prevRuleList s id = Some d ->
    bf_id (rd_refr d) = id /\ exists b, b <> EmptyString /\ P id b /\ bf_engine (rd_refr d) = NewDNSEngine b;
}.

Lemma rls_exec_ok P s e :
  (forall id b, re_body (se_lists e.2 id) = Ok b -> P id b) -> rls_ok P s -> rls_ok P (rls_exec s e).
Proof.
  intros HP [Hf Hl]. destruct (rls_exec_refresh s e) as [El Ef].
  pose proof (refresh_lists s e.2 e.1) as Hr. simpl in Hr.
  destruct (loaded_index s e.2 e.1) as [fls|].
  - destruct Hr as [Hfiles Hlists]. split.
    + intros id f. rewrite Ef, Hfiles. destruct (fls !! id) as [fl|]; [|apply Hf].
      apply (refreshRuleList_source s (se_lists e.2 id) id fl (rs_files s !! id) e.1 (P id)); [apply Hf|apply HP].
    + intros id d. unfold prevRuleList. rewrite El. destruct Hlists as [->|Hlists]; [apply Hl|].
      rewrite Hlists. destruct (fls !! id) as [fl|]; simpl; [|done].
      destruct (refreshRuleList_source s (se_lists e.2 id) id fl (rs_files s !! id) e.1 (P id)
        (Hf id) (HP id)) as [_ Hr].
      destruct (refreshRuleList s _ id fl _ e.1).1 as [d'|err]; simpl; [|apply Hl].
      intros [= ->]. destruct Hr as [Hp|(? & _ & ?)]; [by apply Hl|done].
  - destruct Hr as [Hl' Hf']. split; unfold prevRuleList; rewrite ?El, ?Ef, ?Hl', ?Hf'; [apply Hf|apply Hl].
Qed.

Lemma rls_run_ok P evs s :
  (forall e id b, e ∈ evs -> re_body (se_lists e.2 id) = Ok b -> P id b) -> rls_ok P s ->
  rls_ok P (foldl rls_exec s evs).
Proof.
  revert s. induction evs as [|e evs IH]; intros s HP Hs; simpl; [done|].
  apply IH; [intros e' id b ?; apply HP; by right|]. apply rls_exec_ok; [|done]. intros id b. apply HP. by left.
Qed.

Lemma AppendForListIDs_omap s orig ids :
  AppendForListIDs s orig ids = orig ++ omap (fun id => rd_refr <$> prevRuleList s id) ids.
Proof.
  unfold AppendForListIDs. revert orig. induction ids as [|id ids IH]; intros orig; simpl; [by rewrite app_nil_r|].
  rewrite IH. unfold prevRuleList. destruct (rs_ruleLists s !! id) as [[d|]|]; simpl; [|done..].
  by rewrite <- app_assoc.
Qed.

(** A filter gets the lists of its configuration and nothing else.  After any
    refreshes, successful or not, the lists for the given IDs are in the order of
    the IDs, each is the list with this very ID, and its rules are compiled from a
    non-empty text that has been downloaded for this list or was in its cache file
    at the start. *)
Theorem lists_for_ids s0 evs orig ids :
  rs_ruleLists s0 = ∅ ->
  exists rls, AppendForListIDs (foldl rls_exec s0 evs) orig ids = orig ++ rls /\
    sublist (bf_id <$> rls) ids /\
    forall rl, rl ∈ rls -> exists b, b <> EmptyString /\ known_data (rs_files s0) evs (bf_id rl) b /\
      bf_engine rl = NewDNSEngine b.
Proof.
  intros Hnew. set (s := foldl rls_exec s0 evs). rewrite AppendForListIDs_omap. eexists. split; [done|].
  destruct (rls_run_ok (known_data (rs_files s0) evs) evs s0) as [_ Hl].
  { intros e id b He Hb. right. by exists e. }
  { split; [|intros id d; unfold prevRuleList; by rewrite Hnew, lookup_empty]. intros id f Hf. left. by exists f. }
  fold s in Hl. split.
  - induction ids as [|id ids IH]; simpl; [done|]. destruct (prevRuleList s id) as [d|] eqn:E; simpl.
    + destruct (Hl id d E) as [-> _]. by apply sublist_skip.
    + by apply sublist_cons.
  - intros rl (id & _ & Hd)%list_elem_of_omap. apply fmap_Some in Hd as (d & Hp & ->).
    destruct (Hl id d Hp) as [-> Hb]. done.
Qed.

(** A list that every index that is loaded has. *)
Fixpoint always_listed (id : string) (s : RuleListStorage) (evs : list (bool * StorageEnv)) : Prop :=
  match evs with
  | [] => True
  | e :: evs =>
      (forall fls, loaded_index s e.2 e.1 = Some fls -> is_Some (fls !! id)) /\
      always_listed id (rls_exec s e) evs
  end.

Lemma rls_exec_survives s e id d :
  (forall fls, loaded_index s e.2 e.1 = Some fls -> is_Some (fls !! id)) -> prevRuleList s id = Some d ->
  exists d', prevRuleList (rls_exec s e) id = Some d' /\ rd_updTime d <= rd_updTime d'.
Proof.
  intros Hin Hp. destruct (rls_exec_refresh s e) as [El _].
  pose proof (refresh_lists s e.2 e.1) as Hr. simpl in Hr. unfold prevRuleList. rewrite El.
  destruct (loaded_index s e.2 e.1) as [fls|]; [|destruct Hr as [-> _]; by exists d].
  destruct Hr as [_ [-> | ->]]; [by exists d|]. destruct (Hin fls eq_refl) as [fl ->]. simpl.
  assert (forall d', (refreshRuleList s (se_lists e.2 id) id fl (rs_files s !! id) e.1).1 = Ok d' ->
    rd_updTime d <= rd_updTime d') as Ht.
  { unfold refreshRuleList, needsUpdate. rewrite Hp. destruct (Z.ltb_spec (rd_updTime d) (id_updTime fl)).
    - destruct (newRuleListRefreshable s id fl) as [[rl refr]|]; [|done].
      destruct (refresh_list rl refr _ _ _) as [[rl'|] file]; [|done]. intros ? [= <-]. simpl. lia.
    - intros ? [= <-]. done. }
  destruct (refreshRuleList s _ id fl _ e.1).1 as [d'|err]; simpl; [by exists d'; auto|]. by exists d.
Qed.

(** A list does not get lost.  As long as every index that is loaded has the
    list, then whatever fails in between (the index, the download of the list, its
    cache file, the context), a list that has been loaded stays available, and it
    never goes back to an earlier version. *)
Theorem list_survives s evs id d :
  prevRuleList s id = Some d -> always_listed id s evs ->
  exists d', AppendForListIDs (foldl rls_exec s evs) [] [id] = [rd_refr d'] /\ rd_updTime d <= rd_updTime d'.
Proof.
  revert s d. induction evs as [|e evs IH]; intros s d Hp Ha.
  - exists d. rewrite AppendForListIDs_omap. simpl. by rewrite Hp.
  - destruct Ha as [Hin Ha]. destruct (rls_exec_survives s e id d Hin Hp) as (d1 & Hp1 & Hle).
    destruct (IH _ _ Hp1 Ha) as (d' & E & Hle'). exists d'. split; [exact E|lia].
Qed.

End facts.

(** ** Concrete inputs *)

#[local] Existing Instance plain_urlfilter.
#[local] Existing Instance ref_unicode.
#[local] Instance list_cache : AgdCache CacheKey (option DNSResult) := fun_cache _ _.
#[local] Instance http_urls : UrlLib := {|
  url_Parse s := Ok {| u_Scheme := "https"; u_Host := s; u_Path := EmptyString |};
  IsValidHTTPURLScheme s := bool_decide (s = "https"%string);
|}.

(** An index is one letter, the time of the only list in it. *)
Definition letter_time (s : string) : Z := match s with String c _ => bval c | EmptyString => 0 end.

#[local] Instance letter_index : IndexDecoders := {|
  unmarshal_index s := Ok [None; Some {| ir_DownloadURL := "lists.example"; ir_Key := "list"; ir_TimeUpdated := s |}];
  time_Parse s := Ok (letter_time s);
|}.

Definition index_url : URL := {| u_Scheme := "https"; u_Host := "index.example"; u_Path := EmptyString |}.

(** A storage whose files are stale after a hundred units of time. *)
Definition some_rl_storage : RuleListStorage := {|
  rs_refr := url_refreshable 100; rs_ruleLists := ∅; rs_staleness := 100; rs_cacheEnabled := true;
  rs_indexFile := None; rs_files := ∅; rs_errs := [];
|}.

(** A refresh at [now], in which the index is [idx] and the list, which is
    refreshed [later], is [rules]. *)
Definition refresh_at (now : Z) (idx : string) (later : Z) (rules : string) : bool * StorageEnv :=
  (false, {| se_index := env_at now idx; se_lists _ := env_at later rules; se_ctx := None |}).

(** The text that the list is compiled from. *)
Definition list_text (s : RuleListStorage) : list string := bf_engine <$> AppendForListIDs s [] ["list"]%string.

Lemma lists_for_ids_witness :
  exists rls, AppendForListIDs (foldl rls_exec some_rl_storage [refresh_at 0 "a" 1 "rules"]) [] ["other"; "list"]%string =
    [] ++ rls /\ (bf_id <$> rls) = ["list"]%string.
Proof.
  destruct (lists_for_ids some_rl_storage [refresh_at 0 "a" 1 "rules"] [] ["other"; "list"]%string eq_refl)
    as (rls & E & _). exists rls. split; [exact E|]. simpl in E. rewrite <- E. vm_compute. reflexivity.
Defined.

Lemma list_survives_witness :
  let s := rls_exec some_rl_storage (refresh_at 0 "a" 1 "rules") in
  exists d', AppendForListIDs (foldl rls_exec s [refresh_at 200 "b" 201 EmptyString]) [] ["list"]%string = [rd_refr d'].
Proof.
  intros s. destruct (prevRuleList s "list") as [d|] eqn:E; [|by vm_compute in E].
  destruct (list_survives s [refresh_at 200 "b" 201 EmptyString] "list" d E) as (d' & E' & _).
  - split; [|done]. intros fls Hf. vm_compute in Hf. injection Hf as <-. by eexists.
  - by exists d'.
Defined.

(** The update of a list is lost.  The index of the second refresh has a newer
    version of the list, but the cache file of the list is still fresh, so the old
    rules are compiled and recorded as the new version; a later refresh, when the
    file has become stale, finds the recorded version up to date. *)
Theorem update_lost :
  let s1 := rls_exec some_rl_storage (refresh_at 0 "a" 1 "old rules") in
  let s2 := rls_exec s1 (refresh_at 100 "b" 100 "new rules") in
  let s3 := rls_exec s2 (refresh_at 1000 "b" 1001 "new rules") in
  list_text s1 = ["old rules"]%string /\ list_text s2 = ["old rules"]%string /\ list_text s3 = ["old rules"]%string /\
  list_text (rls_exec s1 (refresh_at 1000 "b" 1001 "new rules")) = ["new rules"]%string.
Proof. vm_compute. done. Qed.

(** A list that could not be loaded at all is reported as present. *)
Theorem has_list_never_loaded :
  let s := rls_exec some_rl_storage (refresh_at 0 "a" 1 EmptyString) in
  HasListID s "list" = true /\ list_text s = [].
Proof. vm_compute. done. Qed.
