(* ===== verification/DomainFilters.v ===== *)
(** The request filters that match domain names: internal/filter/hashprefix
    (filter.go), internal/filter/internal/domain (filter.go) and
    internal/filter/typosquatting (typosquatting.go, refresh.go, filecache.go)
    with the index data of internal/filter/filterindex.

    The filters are records with their data and their result cache.  The pools of
    subdomain slices are emptied before use, so the slices are values. *)

From S2P Require Import Prelude GoStd NetIP HumanID Levenshtein HashPrefix DnsMsg Filter RuleList.

Open Scope Z_scope.

Section filters.
Context `{Sha256} `{PublicSuffixList} `{Subdomains} `{MiekgDNS} `{UnicodeCase}.
Context `{AgdCache CacheKey (option Result)}.

Definition request_cache_key (req : Request) : CacheKey :=
  NewCacheKey (f_Host req) (f_QType req) (f_QClass req) false.

(** The loop over the subdomains: the first one that matches, or the empty
    string. *)
Definition first_match (p : string -> bool) (subs : list string) : string :=
  default EmptyString (first_such p subs).

(** ** hashprefix/filter.go *)

Record HashFilter := {
  hf_hashes : Storage;
  hf_replCons : ReplacedResultConstructor;
  hf_resCache : cache;
  hf_id : string;
  hf_subDomainNum : nat;
}.

Definition NewHashFilter (hashes : Storage) (replCons : ReplacedResultConstructor) (id : string)
    (subDomainNum : nat) : HashFilter := {|
  hf_hashes := hashes; hf_replCons := replCons; hf_resCache := cempty; hf_id := id;
  hf_subDomainNum := subDomainNum;
|}.

Definition hf_with_cache (f : HashFilter) (c : cache) : HashFilter := {|
  hf_hashes := hf_hashes f; hf_replCons := hf_replCons f; hf_resCache := c; hf_id := hf_id f;
  hf_subDomainNum := hf_subDomainNum f;
|}.

(** [newID] is the value of [dns.Id()] for a cloned request. *)
Definition hash_FilterRequest (f : HashFilter) (newID : Z) (req : Request)
    : outcome (result error (option Result) * HashFilter) :=
  let cacheKey := request_cache_key req in
  let '(item, c) := cget (hf_resCache f) cacheKey in
  let f := hf_with_cache f c in
  match item with
  | Some item => let! r := CloneModifiedResult newID item (f_DNS req) in Ret (Ok r, f)
  | None =>
      match IsFilterable (f_QType req) with
      | (_, false) => Ret (Ok None, f)
      | (fam, true) =>
          let subs := AppendSubdomains [] (f_Host req) (hf_subDomainNum f) in
          let matched := first_match (Matches (hf_hashes f)) subs in
          if bool_decide (matched = EmptyString)
          then Ret (Ok None, hf_with_cache f (cset (hf_resCache f) cacheKey None))
          else
            let! r := repl_New (hf_replCons f) req (hf_id f) matched fam in
            match r with
            | Err err => Ret (Err err, f)
            | Ok r =>
                let! item := cached_modified newID r in
                Ret (Ok (Some r), hf_with_cache f (cset (hf_resCache f) cacheKey (Some item)))
            end
      end
  end.

(** [data] is what the refreshable returns. *)
Definition hash_refresh (f : HashFilter) (data : result error string) : option error * HashFilter :=
  match data with
  | Err err => (Some err, f)
  | Ok b =>
      match Reset (hf_hashes f) b with
      | (Err err, hashes) =>
          (Some (ErrWrap "%s: resetting: %w" err),
           {| hf_hashes := hashes; hf_replCons := hf_replCons f; hf_resCache := hf_resCache f;
              hf_id := hf_id f; hf_subDomainNum := hf_subDomainNum f |})
      | (Ok _, hashes) =>
          (None,
           {| hf_hashes := hashes; hf_replCons := hf_replCons f; hf_resCache := cclear (hf_resCache f);
              hf_id := hf_id f; hf_subDomainNum := hf_subDomainNum f |})
      end
  end.

(** ** internal/domain/filter.go *)

(** [df_domains] is the atomic pointer, which is nil before the first refresh. *)
Record DomainFilter := {
  df_domains : option (gset string);
  df_resCache : cache;
  df_catID : string;
  df_resListID : string;
  df_subDomainNum : nat;
}.

Definition NewDomainFilter (catID resListID : string) (subDomainNum : nat) : DomainFilter := {|
  df_domains := None; df_resCache := cempty; df_catID := catID; df_resListID := resListID;
  df_subDomainNum := subDomainNum;
|}.

Definition df_with_cache (f : DomainFilter) (c : cache) : DomainFilter := {|
  df_domains := df_domains f; df_resCache := c; df_catID := df_catID f; df_resListID := df_resListID f;
  df_subDomainNum := df_subDomainNum f;
|}.

Definition domain_FilterRequest (f : DomainFilter) (req : Request) : outcome (option Result * DomainFilter) :=
  let cacheKey := request_cache_key req in
  let '(item, c) := cget (df_resCache f) cacheKey in
  let f := df_with_cache f c in
  match item with
  | Some item => Ret (item, f)
  | None =>
      if negb (IsFilterable (f_QType req)).2 then Ret (None, f)
      else
        match df_domains f with
        | None => Panic "nil pointer dereference"
        | Some domains =>
            let subs := AppendSubdomains [] (f_Host req) (df_subDomainNum f) in
            let matched := first_match (fun s => bool_decide (s ∈ domains)) subs in
            let r := if bool_decide (matched = EmptyString) then None
                     else Some (ResultBlocked (df_resListID f) (df_catID f)) in
            Ret (r, df_with_cache f (cset (df_resCache f) cacheKey r))
        end
  end.

(** [resetDomains]; the result is the new set and the number of lines. *)
Definition resetDomains (domainData : string) : result error (gset string * Z) :=
  match scan_lines domainData with
  | Err err => Err (ErrWrap "scanning domains: %w" err)
  | Ok lines =>
      Ok (foldl (fun '(next, n) domain =>
        if is_host domain then ({[ToLower domain]} ∪ next, u64 (n + 1)) else (next, n)) (∅, 0) lines)
  end.

Definition domain_refresh (f : DomainFilter) (data : result error string) : option error * DomainFilter :=
  match data with
  | Err err => (Some err, f)
  | Ok b =>
      match resetDomains b with
      | Err err => (Some (ErrWrap "%s: resetting: %w" err), f)
      | Ok (domains, _) =>
          (None, {| df_domains := Some domains; df_resCache := cclear (df_resCache f); df_catID := df_catID f;
                    df_resListID := df_resListID f; df_subDomainNum := df_subDomainNum f |})
      end
  end.

(** ** filterindex and typosquatting.go *)

Record TyposquattingProtectedDomain := { pd_Domain : string; pd_Distance : Z }.

Record Typosquatting := {
  ty_Domains : list TyposquattingProtectedDomain;
  ty_Exceptions : list string;
}.

Notation lenIndex := (gmap Z (list TyposquattingProtectedDomain)).

Record TypoFilter := {
  tf_exceptions : gset string;
  tf_protectedByLen : lenIndex;
  tf_replCons : ReplacedResultConstructor;
  tf_resCache : cache;
  tf_id : string;
}.

Definition NewTypoFilter (replCons : ReplacedResultConstructor) (id : string) : TypoFilter := {|
  tf_exceptions := ∅; tf_protectedByLen := ∅; tf_replCons := replCons; tf_resCache := cempty; tf_id := id;
|}.

Definition tf_with_cache (f : TypoFilter) (c : cache) : TypoFilter := {|
  tf_exceptions := tf_exceptions f; tf_protectedByLen := tf_protectedByLen f;
  tf_replCons := tf_replCons f; tf_resCache := c; tf_id := tf_id f;
|}.

(** [protectedByLen[i] = append(protectedByLen[i], pd)]. *)
Definition add_len (pd : TyposquattingProtectedDomain) (m : lenIndex) (i : Z) : lenIndex :=
  <[i := default [] (m !! i) ++ [pd]]> m.

(** The lengths of the loop, from [minLen] to [maxLen]. *)
Definition len_range (pd : TyposquattingProtectedDomain) : list Z :=
  let l := len (pd_Domain pd) in
  let d := i64 (pd_Distance pd) in
  let minLen := Z.max 0 (i64 (l - d)) in
  let maxLen := i64 (l + d) in
  seqZ minLen (maxLen - minLen + 1).

Definition protected_by_len (domains : list TyposquattingProtectedDomain) : lenIndex :=
  foldl (fun m pd => foldl (add_len pd) m (len_range pd)) ∅ domains.

Definition setIndexData (f : TypoFilter) (idx : Typosquatting) : TypoFilter := {|
  tf_exceptions := list_to_set (ty_Exceptions idx);
  tf_protectedByLen := protected_by_len (ty_Domains idx);
  tf_replCons := tf_replCons f; tf_resCache := tf_resCache f; tf_id := tf_id f;
|}.

(** The slices that the calculator's pool returns in a call. *)
Context (rows : string -> string -> uints * uints * uints).

Definition distance (a b : string) : outcome Z :=
  let '(p1, p2, p3) := rows a b in Distance p1 p2 p3 a b.

Definition MaxUint : Z := 2 ^ 64 - 1.

(** The loop of [matchProtectedDomain]. *)
Fixpoint match_loop (etld1 : string) (pds : list TyposquattingProtectedDomain)
    (matched : option TyposquattingProtectedDomain) (minDist : Z)
    : outcome (option TyposquattingProtectedDomain) :=
  match pds with
  | [] => Ret matched
  | pd :: pds =>
      let! dist := distance etld1 (pd_Domain pd) in
      if dist =? 0 then Ret None
      else if (0 <? dist) && (dist <=? pd_Distance pd) && (dist <? minDist)
      then match_loop etld1 pds (Some pd) dist
      else match_loop etld1 pds matched minDist
  end.

Definition matchProtectedDomain (etld1 : string) (protectedByLen : lenIndex)
    : outcome (option TyposquattingProtectedDomain) :=
  match_loop etld1 (default [] (protectedByLen !! len etld1)) None MaxUint.

Definition typo_etld1 (host : string) : string :=
  match EffectiveTLDPlusOne host with Ok d => d | Err _ => host end.

Definition typo_FilterRequest (f : TypoFilter) (newID : Z) (req : Request)
    : outcome (result error (option Result) * TypoFilter) :=
  if bool_decide (tf_protectedByLen f = ∅) then Ret (Ok None, f)
  else
    match IsFilterable (f_QType req) with
    | (_, false) => Ret (Ok None, f)
    | (fam, true) =>
        let etld1 := typo_etld1 (f_Host req) in
        let cacheKey := NewCacheKey etld1 (f_QType req) (f_QClass req) false in
        let '(item, c) := cget (tf_resCache f) cacheKey in
        let f := tf_with_cache f c in
        let none := (Ok None, tf_with_cache f (cset (tf_resCache f) cacheKey None)) in
        match item with
        | Some item => let! r := CloneModifiedResult newID item (f_DNS req) in Ret (Ok r, f)
        | None =>
            if bool_decide (etld1 ∈ tf_exceptions f) then Ret none
            else
              let! matched := matchProtectedDomain etld1 (tf_protectedByLen f) in
              match matched with
              | None => Ret none
              | Some pd =>
                  let! r := repl_New (tf_replCons f) req (tf_id f) (pd_Domain pd) fam in
                  match r with
                  | Err err => Ret (Err err, f)
                  | Ok r =>
                      let! item := cached_modified newID r in
                      Ret (Ok (Some r), tf_with_cache f (cset (tf_resCache f) cacheKey (Some item)))
                  end
              end
        end
    end.

(** ** filecache.go *)

Definition indexCacheVersion : Z := 1.

Record indexCache := {
  ic_Domains : list (string * Z);
  ic_Exceptions : list string;
  ic_SchemaVersion : Z;
}.

Definition newIndexCache (idx : Typosquatting) : indexCache := {|
  ic_Domains := (fun d => (pd_Domain d, pd_Distance d)) <$> ty_Domains idx;
  ic_Exceptions := ty_Exceptions idx;
  ic_SchemaVersion := indexCacheVersion;
|}.

Definition indexCache_toInternal (c : indexCache) : result error Typosquatting :=
  if negb ((indexCacheVersion <=? ic_SchemaVersion c) && (ic_SchemaVersion c <=? indexCacheVersion))
  then Err (ErrWrap "malformed cache: %w" (ErrConst "schema_version: out of range"))
  else Ok {| ty_Domains := (fun '(d, n) => {| pd_Domain := d; pd_Distance := n |}) <$> ic_Domains c;
             ty_Exceptions := ic_Exceptions c |}.

(** ** refresh.go *)

(** [storage] is the result of the index storage, in which the index may be nil;
    the result of writing the cache file is only reported. *)
Definition indexFromStorage (storage : result error (option Typosquatting))
    : outcome (result error (option Typosquatting) * option indexCache) :=
  match storage with
  | Err err => Ret (Err (ErrWrap "getting index from storage: %w" err), None)
  | Ok None => Panic "nil pointer dereference"
  | Ok (Some idx) => Ret (Ok (Some idx), Some (newIndexCache idx))
  end.

(** [file] is the decoded cache file, if it may be used.  The second result is the
    new contents of the cache file, if any. *)
Definition typo_refresh (f : TypoFilter) (file : result error (option indexCache))
    (storage : result error (option Typosquatting))
    : outcome (option error * option indexCache * TypoFilter) :=
  let cached :=
    match file with
    | Ok (Some c) => match indexCache_toInternal c with Ok idx => Some idx | Err _ => None end
    | _ => None
    end in
  let! res :=
    match cached with
    | Some idx => Ret (Ok (Some idx), None)
    | None => indexFromStorage storage
    end in
  match res with
  | (Err err, w) => Ret (Some err, w, f)
  | (Ok None, w) => Ret (Some (ErrConst "found no index in cache or storage"), w, f)
  | (Ok (Some idx), w) => Ret (None, w, setIndexData f idx)
  end.

End filters.

(** * Facts *)

(** A request as the middlewares make it: it has a question, whose type is the
    one of the request data, and the constructor has a valid blocking mode. *)
Definition well_formed (req : Request) : Prop :=
  (exists q qs, m_Question (f_DNS req) = q :: qs /\ q_Qtype q = f_QType req) /\
  valid_mode (blockingMode (f_Messages req)).

Definition filterable (qt : Z) : Prop := (IsFilterable qt).2 = true.

Section replacement_facts.
Context `{MiekgDNS} `{!MiekgDNSSpec}.

Lemma respForFamily_ok c req fam :
  well_formed req -> IsFilterable (f_QType req) = (fam, true) ->
  exists resp, respForFamily c req fam = Ret (Ok resp).
Proof.
  intros [(q & qs & Hq & Ht) Hm] Hf. unfold respForFamily. case_if.
  { edestruct (NewBlockedResp_ok (f_Messages req) (f_DNS req) None) as (m & -> & _); [done|done|]. by eexists. }
  case_if; [|by eexists]. unfold NewBlockedRespIP. rewrite Hq. simpl. rewrite Ht.
  unfold IsFilterable, AddrFamilyFromRRType in Hf.
  destruct (newMsg_all (f_Messages req) (f_DNS req) q qs [replIP c] Hq) as [HA H6].
  destruct (Z.eqb_spec (f_QType req) TypeHTTPS); [by injection Hf as <-|].
  destruct (Z.eqb_spec (f_QType req) TypeA) as [Ea|].
  - rewrite HA; [by eexists|congruence|]. constructor; [|done]. injection Hf as <-.
    by apply orb_true_iff in E0 as [[? _]%andb_prop|[_ ?]%andb_prop].
  - destruct (Z.eqb_spec (f_QType req) TypeAAAA) as [Eb|]; [|by injection Hf as <-].
    rewrite H6; [by eexists|congruence|]. constructor; [|done]. injection Hf as <-.
    by apply orb_true_iff in E0 as [[_ ?]%andb_prop|[? _]%andb_prop].
Qed.

Lemma repl_New_ok c req id text fam :
  well_formed req -> IsFilterable (f_QType req) = (fam, true) ->
  exists r, repl_New c req id text fam = Ret (Ok r) /\ modified r = true /\ MatchedRule r = (id, text).
Proof.
  intros Hw Hf. unfold repl_New. case_if.
  - destruct Hw as [(q & qs & Hq & _) _]. unfold set_question_name. rewrite Hq. simpl. by eexists.
  - destruct (respForFamily_ok c req fam Hw Hf) as [resp ->]. simpl. by eexists.
Qed.

Lemma cached_modified_ok newID r : modified r = true ->
  exists r', cached_modified newID r = Ret r' /\ modified r' = true /\ MatchedRule r' = MatchedRule r.
Proof. destruct r; simpl; try done; intros _; by eexists. Qed.

Lemma CloneModifiedResult_ok newID r req : modified r = true ->
  exists r', CloneModifiedResult newID (Some r) req = Ret (Some r') /\ modified r' = true /\
    MatchedRule r' = MatchedRule r.
Proof. destruct r; simpl; try done; intros _; by eexists. Qed.

End replacement_facts.

(** The result of a filter with the ID [id] whose deciding name is [m]; the empty
    name is no match. *)
Definition verdict_ok (id m : string) (r : option Result) : Prop :=
  if bool_decide (m = EmptyString) then r = None
  else exists res, r = Some res /\ modified res = true /\ MatchedRule res = (id, m).

Section hash_facts.
Context `{Sha256} `{PublicSuffixList} `{Subdomains} `{MiekgDNS} `{!MiekgDNSSpec} `{UnicodeCase}.
Context `{AgdCacheSpec CacheKey (option Result)}.

(** *** The hash-prefix filter *)

(** The first of the checked domains of a host that is listed. *)
Definition listed_domain (s : Storage) (n : nat) (host : string) : string :=
  first_match (Matches s) (AppendSubdomains [] host n).

Definition hf_ok (f : HashFilter) : Prop :=
  cache_ok (fun k v => filterable (ck_qType k) /\
    verdict_ok (hf_id f) (listed_domain (hf_hashes f) (hf_subDomainNum f) (ck_host k)) v) (hf_resCache f).

(** The data and settings are the same. *)
Definition hf_same (f f' : HashFilter) : Prop :=
  hf_hashes f' = hf_hashes f /\ hf_id f' = hf_id f /\ hf_subDomainNum f' = hf_subDomainNum f /\
  hf_replCons f' = hf_replCons f.

Lemma hash_request f newID req :
  hf_ok f -> well_formed req ->
  exists r f', hash_FilterRequest f newID req = Ret (Ok r, f') /\ hf_ok f' /\ hf_same f f' /\
    if (IsFilterable (f_QType req)).2
    then verdict_ok (hf_id f) (listed_domain (hf_hashes f) (hf_subDomainNum f) (f_Host req)) r
    else r = None.
Proof.
  intros Hok Hw. unfold hash_FilterRequest.
  destruct (cget (hf_resCache f) (request_cache_key req)) as [item c] eqn:Eg.
  destruct (cache_ok_get _ _ _ _ _ Hok Eg) as [Hc Hitem].
  destruct item as [item|].
  - destruct (Hitem item eq_refl) as [Hf Hv]. simpl in Hf, Hv. unfold filterable in Hf. rewrite Hf.
    unfold verdict_ok in *. case_bool_decide.
    + subst item. by eexists _, _.
    + destruct Hv as (res & -> & Hmod & Hr). destruct (CloneModifiedResult_ok newID res (f_DNS req) Hmod) as (r' & -> & ? & Hr').
      eexists _, _. split; [done|]. split_and!; [done..|]. exists r'. by rewrite Hr'.
  - destruct (IsFilterable (f_QType req)) as [fam [|]] eqn:Ef; simpl; [|by eexists _, _].
    assert (filterable (ck_qType (request_cache_key req))) as Hflt by (unfold filterable; simpl; by rewrite Ef).
    fold (listed_domain (hf_hashes f) (hf_subDomainNum f) (f_Host req)).
    destruct (bool_decide (listed_domain _ _ _ = _)) eqn:Eb.
    + eexists _, _. split; [done|]. unfold verdict_ok. split_and!; [|done..|by rewrite Eb].
      apply cache_ok_set; [done|]. split; [done|]. unfold verdict_ok. simpl. by rewrite Eb.
    + destruct (repl_New_ok (hf_replCons f) req (hf_id f) (listed_domain (hf_hashes f) (hf_subDomainNum f) (f_Host req)) fam Hw Ef)
        as (r & -> & Hmod & Hr). simpl.
      destruct (cached_modified_ok newID r Hmod) as (r' & -> & Hmod' & Hr'). simpl.
      eexists _, _. split; [done|]. unfold verdict_ok. split_and!; [|done..|rewrite Eb; by exists r].
      apply cache_ok_set; [done|]. split; [done|]. unfold verdict_ok. simpl. rewrite Eb. exists r'. by rewrite Hr'.
Qed.

(** Requests and refreshes, in any order. *)
Inductive hf_event :=
  | HfRequest (newID : Z) (req : Request)
  | HfRefresh (data : result error string).

Definition hf_exec (f : HashFilter) (e : hf_event) : outcome HashFilter :=
  match e with
  | HfRequest newID req => let! rf := hash_FilterRequest f newID req in Ret rf.2
  | HfRefresh data => Ret (hash_refresh f data).2
  end.

Definition hf_event_ok (e : hf_event) : Prop := match e with HfRequest _ req => well_formed req | _ => True end.

(** The storage after the events: the one of the last successful refresh. *)
Definition hf_storage (s0 : Storage) (evs : list hf_event) : Storage :=
  foldl (fun s e =>
    match e with
    | HfRefresh (Ok b) => match Reset s b with (Ok _, s') => s' | _ => s end
    | _ => s
    end) s0 evs.

Lemma Reset_Err_same s b err s' : Reset s b = (Err err, s') -> s' = s.
Proof. unfold Reset. destruct (scan_lines b); [by destruct (foldl _ _ _)|]. by intros [= _ <-]. Qed.

Lemma hf_exec_ok f e : hf_ok f -> hf_event_ok e ->
  exists f', hf_exec f e = Ret f' /\ hf_ok f' /\ hf_hashes f' = hf_storage (hf_hashes f) [e] /\
    hf_id f' = hf_id f /\ hf_subDomainNum f' = hf_subDomainNum f.
Proof.
  intros Hok He. destruct e as [newID req|data]; simpl.
  - destruct (hash_request f newID req Hok He) as (r & f' & -> & ? & (? & ? & ? & _) & _). simpl. by eexists.
  - unfold hash_refresh. destruct data as [b|err]; [|by eexists].
    destruct (Reset (hf_hashes f) b) as [[n|err] s'] eqn:Er; simpl; eexists; (split; [done|]); simpl.
    + split_and!; [apply cache_ok_clear|done..].
    + apply Reset_Err_same in Er as ->. by split_and!.
Qed.

(** The safe-browsing, adult and new-domain filters are exact under caching.
    After any sequence of requests and refreshes, the filter has a result for a
    request of a filterable type if and only if one of the domains to check for
    the host is in the hash storage of the last successful refresh, and then the
    result is a rewrite that names this filter and the most specific listed domain;
    requests of other types pass.  The result cache never changes the verdict, and
    no request makes the filter fail or panic. *)
Theorem hash_filter_exact s0 repl id n evs newID req :
  Forall hf_event_ok evs -> well_formed req ->
  exists f, for_each hf_exec (NewHashFilter s0 repl id n) evs = Ret f /\
  exists r f', hash_FilterRequest f newID req = Ret (Ok r, f') /\
    if (IsFilterable (f_QType req)).2
    then verdict_ok id (listed_domain (hf_storage s0 evs) n (f_Host req)) r
    else r = None.
Proof.
  intros Hall Hw.
  assert (forall evs f, Forall hf_event_ok evs -> hf_ok f ->
    exists f', for_each hf_exec f evs = Ret f' /\ hf_ok f' /\ hf_hashes f' = hf_storage (hf_hashes f) evs /\
      hf_id f' = hf_id f /\ hf_subDomainNum f' = hf_subDomainNum f) as Hrun.
  { clear Hall. intros evs'. induction evs' as [|e evs' IH]; intros f Hall Hok; [by exists f|].
    apply Forall_cons in Hall as [He Hall]. destruct (hf_exec_ok f e Hok He) as (f1 & E & Hok1 & Hh & Hi & Hn).
    simpl. rewrite E. simpl. destruct (IH f1 Hall Hok1) as (f2 & E2 & Hok2 & Hh2 & Hi2 & Hn2).
    exists f2. split_and!; [done..| | |]; [|congruence..]. rewrite Hh2, Hh. done. }
  destruct (Hrun evs (NewHashFilter s0 repl id n) Hall (cache_ok_empty _)) as (f & -> & Hok & Hh & Hi & Hn).
  exists f. split; [done|]. destruct (hash_request f newID req Hok Hw) as (r & f' & -> & _ & _ & Hv).
  exists r, f'. split; [done|]. simpl in *. by rewrite Hh, Hi, Hn in Hv.
Qed.

End hash_facts.

(** *** The domain filter *)

Section domain_facts.
Context `{PublicSuffixList} `{Subdomains} `{UnicodeCase} `{AgdCacheSpec CacheKey (option Result)}.

(** What a category filter with the given domains is to say. *)
Definition category_verdict (domains : gset string) (list cat : string) (n : nat) (host : string) (qt : Z)
    : option Result :=
  if (IsFilterable qt).2 then
    if bool_decide (first_match (fun s => bool_decide (s ∈ domains)) (AppendSubdomains [] host n) = EmptyString)
    then None else Some (ResultBlocked list cat)
  else None.

Definition df_ok (f : DomainFilter) : Prop :=
  exists domains, df_domains f = Some domains /\
  cache_ok (fun k v => v = category_verdict domains (df_resListID f) (df_catID f) (df_subDomainNum f)
    (ck_host k) (ck_qType k)) (df_resCache f).

Lemma domain_request f domains req :
  df_ok f -> df_domains f = Some domains ->
  exists f', domain_FilterRequest f req =
    Ret (category_verdict domains (df_resListID f) (df_catID f) (df_subDomainNum f) (f_Host req) (f_QType req), f') /\
    df_ok f' /\ df_domains f' = Some domains.
Proof.
  intros (? & Hd & Hok) Hd'. rewrite Hd in Hd'. injection Hd' as ->. unfold domain_FilterRequest.
  destruct (cget (df_resCache f) (request_cache_key req)) as [item c] eqn:Eg.
  destruct (cache_ok_get _ _ _ _ _ Hok Eg) as [Hc Hitem].
  assert (df_ok (df_with_cache f c)) as Hok' by (by exists domains).
  destruct item as [item|].
  - rewrite (Hitem item eq_refl). by eexists.
  - unfold category_verdict in *. destruct (IsFilterable (f_QType req)) as [fam [|]] eqn:Ef; simpl; [|by eexists].
    rewrite Hd. eexists. split; [done|]. split; [|done]. exists domains. split; [done|]. simpl.
    apply cache_ok_set; [done|]. unfold category_verdict. cbn [request_cache_key NewCacheKey ck_host ck_qType]. by rewrite Ef.
Qed.

(** A refresh of a filter replaces its domains, or leaves the filter alone. *)
Lemma domain_refresh_ok f data :
  df_ok f \/ (df_domains f = None /\ exists b d, data = Ok b /\ resetDomains b = Ok d) ->
  df_ok (domain_refresh f data).2.
Proof.
  unfold domain_refresh. intros [Hok|(Hn & b & [d n] & -> & ->)].
  - destruct data as [b|]; [|done]. destruct (resetDomains b) as [[d n]|]; [|done].
    simpl. exists d. split; [done|]. apply cache_ok_clear.
  - simpl. exists d. split; [done|]. apply cache_ok_clear.
Qed.

End domain_facts.

(** *** The typosquatting filter *)

Section typo_facts.
Context (rows : string -> string -> uints * uints * uints).

Definition rows_ok : Prop :=
  forall a b, let '(p1, p2, p3) := rows a b in uints_ok p1 /\ uints_ok p2 /\ uints_ok p3.

(** A protected domain as the index has it. *)
Definition protected_ok (pd : TyposquattingProtectedDomain) : Prop :=
  is_ascii (pd_Domain pd) = true /\ len (pd_Domain pd) < 2 ^ 62 /\ 0 <= pd_Distance pd < 2 ^ 62.

(** The edit distance of the specification. *)
Definition edit_distance (a b : string) : Z := Z.of_nat (osa (bytes a) (bytes b)).

Definition within (etld1 : string) (pd : TyposquattingProtectedDomain) : Prop :=
  edit_distance etld1 (pd_Domain pd) <= pd_Distance pd.

Lemma align_0 a b n : align a b n -> n = 0%nat -> a = b.
Proof.
  induction 1 as [| | |c d a b n Ha IH|c d a b n Ha IH]; intros En; try done;
    unfold neq_cost in *; case_decide; subst; try lia; by rewrite IH by lia.
Qed.

Lemma edit_distance_0 a b : edit_distance a b = 0 <-> a = b.
Proof.
  unfold edit_distance. split.
  - intros E. apply bytes_inj, (align_0 _ _ (osa (bytes a) (bytes b))); [apply osa_align|lia].
  - intros ->. pose proof (osa_min (bytes b) (bytes b) 0 (align_refl _)). lia.
Qed.

Lemma edit_distance_len a b : Z.abs (len a - len b) <= edit_distance a b.
Proof.
  unfold edit_distance, len. pose proof (osa_align (bytes a) (bytes b)) as Ha.
  pose proof (align_length _ _ _ Ha). pose proof (align_length _ _ _ (align_sym _ _ _ Ha)).
  rewrite !length_bytes in *. lia.
Qed.

Lemma distance_ok a b :
  rows_ok -> is_ascii a = true -> is_ascii b = true -> len a < 2 ^ 63 -> len b < 2 ^ 63 ->
  distance rows a b = Ret (edit_distance a b).
Proof.
  intros Hr Ha Hb Hla Hlb. unfold distance. specialize (Hr a b). destruct (rows a b) as [[p1 p2] p3].
  destruct Hr as (? & ? & ?). destruct (Distance_ok p1 p2 p3 a b) as (n & -> & Hn); [done..|].
  apply osa_spec in Hn as ->. done.
Qed.

(** **** The index by lengths *)

Lemma add_len_lookup pd ks m i : NoDup ks ->
  foldl (add_len pd) m ks !! i =
  if decide (i ∈ ks) then Some (default [] (m !! i) ++ [pd]) else m !! i.
Proof.
  revert m. induction ks as [|k ks IH]; intros m Hnd; cbn [foldl]; [by rewrite decide_False by set_solver|].
  apply NoDup_cons in Hnd as [Hk Hnd]. rewrite IH by done. unfold add_len.
  destruct (decide (i = k)) as [->|Hne].
  - rewrite (decide_False (P := k ∈ ks)) by done. rewrite (decide_True (P := k ∈ k :: ks)) by set_solver.
    by rewrite lookup_insert_eq.
  - rewrite lookup_insert_ne by done. destruct (decide (i ∈ ks)).
    + by rewrite decide_True by set_solver.
    + by rewrite decide_False by set_solver.
Qed.

Lemma protected_by_len_lookup ds i :
  default [] (protected_by_len ds !! i) = filter (fun pd => i ∈ len_range pd) ds.
Proof.
  unfold protected_by_len. induction ds as [|pd ds IH] using rev_ind; [simpl; by rewrite lookup_empty|].
  rewrite foldl_app, filter_app. cbn [foldl]. rewrite add_len_lookup by apply NoDup_seqZ.
  rewrite filter_cons, filter_nil. rewrite <- IH.
  destruct (decide (i ∈ len_range pd)); simpl; [done|by rewrite app_nil_r].
Qed.

Lemma elem_of_len_range pd l : protected_ok pd -> 0 <= l ->
  l ∈ len_range pd <-> Z.abs (l - len (pd_Domain pd)) <= pd_Distance pd.
Proof.
  intros (_ & Hl & Hd) H0. unfold len_range. pose proof (len_nonneg (pd_Domain pd)).
  rewrite !i64_small by (rewrite ?i64_small; lia). rewrite elem_of_seqZ. lia.
Qed.

(** **** The loop *)

(** [m] is the closest protected domain of [ds] within its own limit, unless one
    of them is the name itself. *)
Definition closest (ds : list TyposquattingProtectedDomain) (etld1 : string)
    (m : option TyposquattingProtectedDomain) : Prop :=
  match m with
  | None => (exists pd, pd ∈ ds /\ pd_Domain pd = etld1) \/ (forall pd, pd ∈ ds -> ~ within etld1 pd)
  | Some pd => pd ∈ ds /\ within etld1 pd /\ (forall pd', pd' ∈ ds -> pd_Domain pd' <> etld1) /\
      forall pd', pd' ∈ ds -> within etld1 pd' ->
        edit_distance etld1 (pd_Domain pd) <= edit_distance etld1 (pd_Domain pd')
  end.

(** The state of the loop after the domains [done]. *)
Definition loop_inv (seen : list TyposquattingProtectedDomain) (etld1 : string)
    (matched : option TyposquattingProtectedDomain) (minDist : Z) : Prop :=
  (forall pd, pd ∈ seen -> pd_Domain pd <> etld1) /\
  match matched with
  | None => minDist = MaxUint /\ forall pd, pd ∈ seen -> ~ within etld1 pd
  | Some pd => minDist = edit_distance etld1 (pd_Domain pd) /\ closest seen etld1 (Some pd)
  end.

Lemma match_loop_ok etld1 seen ds matched minDist :
  rows_ok -> is_ascii etld1 = true -> len etld1 < 2 ^ 63 -> Forall protected_ok ds ->
  loop_inv seen etld1 matched minDist ->
  exists m, match_loop rows etld1 ds matched minDist = Ret m /\ closest (seen ++ ds) etld1 m.
Proof.
  intros Hr Ha Hl. revert seen matched minDist. induction ds as [|pd ds IH]; intros seen matched minDist Hds Hinv.
  - exists matched. split; [done|]. rewrite app_nil_r. destruct Hinv as [_ Hinv].
    destruct matched; [by destruct Hinv|]. right. by destruct Hinv.
  - apply Forall_cons in Hds as [(Hpa & Hpl & Hpd) Hds]. cbn [match_loop].
    rewrite distance_ok by (done || lia). cbn [outcome_bind].
    pose proof (edit_distance_0 etld1 (pd_Domain pd)) as H0.
    assert (0 <= edit_distance etld1 (pd_Domain pd)) by (unfold edit_distance; lia).
    destruct (Z.eqb_spec (edit_distance etld1 (pd_Domain pd)) 0) as [E|Hne].
    { exists None. split; [done|]. left. exists pd. split; [set_solver|]. symmetry. by apply H0. }
    destruct Hinv as [Hnot Hinv].
    assert (forall x, x ∈ seen ++ [pd] -> pd_Domain x <> etld1) as Hnot'.
    { intros x [?| ->%list_elem_of_singleton]%elem_of_app; [by apply Hnot|]. intros E. by apply Hne, H0. }
    assert ((seen ++ [pd]) ++ ds = seen ++ pd :: ds) as <- by (by rewrite <- app_assoc).
    destruct (0 <? edit_distance etld1 (pd_Domain pd)) eqn:E0; bool_simp; [|lia]. simpl.
    destruct (Z.leb_spec (edit_distance etld1 (pd_Domain pd)) (pd_Distance pd)) as [Hw|Hw]; simpl.
    + destruct (Z.ltb_spec (edit_distance etld1 (pd_Domain pd)) minDist) as [Hlt|Hge]; apply IH; try done;
        (split; [done|]).
      * split; [done|]. simpl. split_and!; [set_solver|done|done|].
        intros x [Hx| ->%list_elem_of_singleton]%elem_of_app Hwx; [|lia].
        destruct matched as [pm|]; destruct Hinv as [-> Hinv].
        -- destruct Hinv as (_ & _ & _ & Hmin). specialize (Hmin x Hx Hwx). lia.
        -- by destruct (Hinv x Hx).
      * destruct matched as [pm|]; destruct Hinv as [-> Hinv].
        -- split; [done|]. destruct Hinv as (Hin & Hwm & _ & Hmin). simpl. split_and!; [set_solver|done|done|].
           intros x [Hx| ->%list_elem_of_singleton]%elem_of_app Hwx; [by apply Hmin|lia].
        -- unfold MaxUint in Hge. lia.
    + apply IH; [done|]. split; [done|]. assert (~ within etld1 pd) as Hnw by (unfold within; lia).
      destruct matched as [pm|]; destruct Hinv as [-> Hinv]; (split; [done|]).
      * destruct Hinv as (Hin & Hwm & _ & Hmin). simpl. split_and!; [set_solver|done|done|].
        intros x [Hx| ->%list_elem_of_singleton]%elem_of_app Hwx; [by apply Hmin|done].
      * intros x [Hx| ->%list_elem_of_singleton]%elem_of_app; [by apply Hinv|done].
Qed.

(** Domains that the index does not have for the length of a name are too far. *)
Lemma closest_index ds etld1 m : Forall protected_ok ds ->
  closest (filter (fun pd => len etld1 ∈ len_range pd) ds) etld1 m -> closest ds etld1 m.
Proof.
  intros Hds. rewrite Forall_forall in Hds.
  assert (forall pd, pd ∈ ds -> within etld1 pd \/ pd_Domain pd = etld1 ->
    pd ∈ filter (fun pd => len etld1 ∈ len_range pd) ds) as Hin.
  { intros pd Hpd Hw. apply list_elem_of_filter. split; [|done].
    apply elem_of_len_range; [by apply Hds|apply len_nonneg|].
    pose proof (edit_distance_len etld1 (pd_Domain pd)). destruct (Hds pd Hpd) as (_ & _ & ? & _).
    destruct Hw as [Hw| <-]; [unfold within in Hw; lia|lia]. }
  assert (forall pd, pd ∈ filter (fun pd => len etld1 ∈ len_range pd) ds -> pd ∈ ds) as Hsub
    by (intros pd [_ ?]%list_elem_of_filter; done).
  destruct m as [pd|]; simpl.
  - intros (Hp & Hw & Hne & Hmin). split_and!; [by apply Hsub|done| |].
    + intros pd' Hpd' E. apply (Hne pd'); [|done]. apply Hin; [done|by right].
    + intros pd' Hpd' Hw'. apply Hmin; [|done]. apply Hin; [done|by left].
  - intros [(pd & Hp & E)|Hno]; [left; exists pd; split; [by apply Hsub|done]|].
    right. intros pd Hpd Hw. apply (Hno pd); [|done]. apply Hin; [done|by left].
Qed.

Lemma matchProtectedDomain_closest ds etld1 :
  rows_ok -> is_ascii etld1 = true -> len etld1 < 2 ^ 62 -> Forall protected_ok ds ->
  exists m, matchProtectedDomain rows etld1 (protected_by_len ds) = Ret m /\ closest ds etld1 m.
Proof.
  intros Hr Ha Hl Hds. unfold matchProtectedDomain. rewrite protected_by_len_lookup.
  destruct (match_loop_ok etld1 [] (filter (fun pd => len etld1 ∈ len_range pd) ds) None MaxUint)
    as (m & -> & Hm); [done|done|lia| |split; [by intros ? ?%not_elem_of_nil|]|].
  - apply Forall_forall. intros pd [_ Hpd]%list_elem_of_filter. rewrite Forall_forall in Hds. by apply Hds.
  - split; [done|]. by intros ? ?%not_elem_of_nil.
  - exists m. split; [done|]. by apply closest_index.
Qed.

End typo_facts.

Section typo_filter_facts.
Context `{PublicSuffixList} `{MiekgDNS} `{!MiekgDNSSpec} `{AgdCacheSpec CacheKey (option Result)}.
Context (rows : string -> string -> uints * uints * uints) (idx : Typosquatting).
Hypothesis Hrows : rows_ok rows.
Hypothesis Hidx : Forall protected_ok (ty_Domains idx).

(** What the filter with the ID [id] is to say about a registrable domain. *)
Definition typo_verdict (id etld1 : string) (r : option Result) : Prop :=
  if bool_decide (etld1 ∈ ty_Exceptions idx) then r = None
  else exists m, closest (ty_Domains idx) etld1 m /\
    match m with
    | None => r = None
    | Some pd => exists res, r = Some res /\ modified res = true /\ MatchedRule res = (id, pd_Domain pd)
    end.

Definition host_ok (req : Request) : Prop :=
  well_formed req /\ is_ascii (typo_etld1 (f_Host req)) = true /\ len (typo_etld1 (f_Host req)) < 2 ^ 62.

Record tf_ok (id : string) (f : TypoFilter) : Prop := {
  tf_ok_exc : tf_exceptions f = list_to_set (ty_Exceptions idx);
  tf_ok_len : tf_protectedByLen f = protected_by_len (ty_Domains idx);
  tf_ok_id : tf_id f = id;
  tf_ok_cache : cache_ok (fun k v => typo_verdict id (ck_host k) v) (tf_resCache f);
}.

Lemma protected_by_len_empty : protected_by_len (ty_Domains idx) = ∅ -> ty_Domains idx = [].
Proof.
  intros E. destruct (ty_Domains idx) as [|pd ds] eqn:Ed; [done|]. exfalso.
  pose proof (protected_by_len_lookup (pd :: ds) (len (pd_Domain pd))) as Hl. rewrite E, lookup_empty in Hl.
  assert (pd ∈ filter (fun x => len (pd_Domain pd) ∈ len_range x) (pd :: ds)) as Hin.
  { apply list_elem_of_filter. split; [|by left]. apply Forall_cons in Hidx as [Hp _].
    apply elem_of_len_range; [done|apply len_nonneg|]. destruct Hp as (_ & _ & ? & _). lia. }
  rewrite <- Hl in Hin. by apply not_elem_of_nil in Hin.
Qed.

Lemma typo_verdict_modified id etld1 r res : typo_verdict id etld1 r -> r = Some res -> modified res = true.
Proof. unfold typo_verdict. case_bool_decide; [by intros ->|]. intros (m & _ & Hm) ->. destruct m; naive_solver. Qed.

Lemma typo_verdict_rule id etld1 res res' :
  typo_verdict id etld1 (Some res) -> modified res' = true -> MatchedRule res' = MatchedRule res ->
  typo_verdict id etld1 (Some res').
Proof.
  unfold typo_verdict. case_bool_decide; [done|]. intros (m & Hc & Hm) Hmod Hr. exists m. split; [done|].
  destruct m; [|done]. destruct Hm as (? & [= <-] & _ & Hm). exists res'. by rewrite Hr.
Qed.

Lemma typo_request id f newID req :
  tf_ok id f -> host_ok req ->
  exists r f', typo_FilterRequest rows f newID req = Ret (Ok r, f') /\ tf_ok id f' /\
    if (IsFilterable (f_QType req)).2 then typo_verdict id (typo_etld1 (f_Host req)) r else r = None.
Proof.
  intros Hok (Hw & Ha & Hl). pose proof Hok as [He Hp Hi Hc]. unfold typo_FilterRequest.
  case_if.
  { exists None, f. split_and!; [done..|]. destruct (IsFilterable _).2; [|done].
    rewrite Hp in E. apply protected_by_len_empty in E. unfold typo_verdict. case_bool_decide; [done|].
    exists None. split; [|done]. right. rewrite E. by intros pd ?%not_elem_of_nil. }
  destruct (IsFilterable (f_QType req)) as [fam [|]] eqn:Ef; simpl; [|by eexists _, _].
  set (key := NewCacheKey _ _ _ _). destruct (cget (tf_resCache f) key) as [item c] eqn:Eg.
  destruct (cache_ok_get _ _ _ _ _ Hc Eg) as [Hc' Hitem].
  assert (forall c, cache_ok (fun k v => typo_verdict id (ck_host k) v) c -> tf_ok id (tf_with_cache f c))
    as Hwith by (intros; by split).
  destruct item as [item|].
  { specialize (Hitem item eq_refl). simpl in Hitem. destruct item as [res|]; [|by eexists _, _; eauto].
    destruct (CloneModifiedResult_ok newID res (f_DNS req)) as (r' & -> & Hmod & Hr).
    { by eapply typo_verdict_modified. }
    eexists _, _. split; [done|]. split; [by apply Hwith|]. by eapply typo_verdict_rule. }
  assert (forall v, typo_verdict id (typo_etld1 (f_Host req)) v ->
    tf_ok id (tf_with_cache (tf_with_cache f c) (cset c key v))) as Hset
    by (intros v Hv; split; [done..|]; by apply cache_ok_set).
  simpl. rewrite He, Hp, Hi. case_bool_decide as Ex.
  { assert (typo_verdict id (typo_etld1 (f_Host req)) None) as Hv.
    { unfold typo_verdict. rewrite bool_decide_eq_true_2 by set_solver. done. }
    eexists _, _. split; [done|]. split; [by apply Hset|done]. }
  assert (bool_decide (typo_etld1 (f_Host req) ∈ ty_Exceptions idx) = false) as Ex'
    by (apply bool_decide_eq_false_2; set_solver).
  destruct (matchProtectedDomain_closest rows (ty_Domains idx) (typo_etld1 (f_Host req))) as (m & -> & Hm);
    [done..|]. simpl. destruct m as [pd|].
  - destruct (repl_New_ok (tf_replCons f) req id (pd_Domain pd) fam Hw Ef) as (r & -> & Hmod & Hr). simpl.
    destruct (cached_modified_ok newID r Hmod) as (r' & -> & Hmod' & Hr'). simpl.
    assert (typo_verdict id (typo_etld1 (f_Host req)) (Some r)) as Hv.
    { unfold typo_verdict. rewrite Ex'. exists (Some pd). split; [done|]. by exists r. }
    eexists _, _. split; [done|]. split; [apply Hset; by eapply typo_verdict_rule|done].
  - assert (typo_verdict id (typo_etld1 (f_Host req)) None) as Hv.
    { unfold typo_verdict. rewrite Ex'. by exists None. }
    eexists _, _. split; [done|]. split; [by apply Hset|done].
Qed.

Definition tf_exec (f : TypoFilter) (e : Z * Request) : outcome TypoFilter :=
  let! rf := typo_FilterRequest rows f e.1 e.2 in Ret rf.2.

(** The typosquatting filter is exact for its index.  After any requests, a
    request of a filterable type has a result if and only if its registrable
    domain is no exception, is not itself protected, and is within the allowed
    edit distance of a protected domain; the result names a protected domain at
    the smallest distance.  Neither the index by lengths nor the result cache
    loses or adds a match, whatever the calculator's pooled rows contain. *)
Theorem typo_filter_exact repl id reqs newID req :
  Forall (fun e => host_ok e.2) reqs -> host_ok req ->
  exists f, for_each tf_exec (setIndexData (NewTypoFilter repl id) idx) reqs = Ret f /\
  exists r f', typo_FilterRequest rows f newID req = Ret (Ok r, f') /\
    if (IsFilterable (f_QType req)).2 then typo_verdict id (typo_etld1 (f_Host req)) r else r = None.
Proof.
  intros Hall Hreq.
  assert (forall reqs f, Forall (fun e => host_ok e.2) reqs -> tf_ok id f ->
    exists f', for_each tf_exec f reqs = Ret f' /\ tf_ok id f') as Hrun.
  { clear Hall. intros l. induction l as [|e l IH]; intros f Hall Hf; [by exists f|].
    apply Forall_cons in Hall as [He Hall]. simpl. unfold tf_exec at 1.
    destruct (typo_request id f e.1 e.2 Hf He) as (r & f1 & -> & Hf1 & _). simpl. by apply IH. }
  destruct (Hrun reqs (setIndexData (NewTypoFilter repl id) idx) Hall) as (f & -> & Hf).
  { split; try done. apply cache_ok_empty. }
  exists f. split; [done|]. destruct (typo_request id f newID req Hf Hreq) as (r & f' & -> & _ & Hv).
  by exists r, f'.
Qed.

End typo_filter_facts.

(** **** Across refreshes *)

Section typo_events.
Context `{PublicSuffixList} `{MiekgDNS} `{!MiekgDNSSpec} `{AgdCacheSpec CacheKey (option Result)}.
Context (rows : string -> string -> uints * uints * uints).
Hypothesis Hrows : rows_ok rows.

(** The index by lengths is the one of proper domains, and the cached results name
    this filter.  Unlike [tf_ok], this does not relate the cached results to the
    index, and a refresh keeps it. *)
Record tf_named (f : TypoFilter) : Prop := {
  tn_len : exists ds, Forall protected_ok ds /\ tf_protectedByLen f = protected_by_len ds;
  tn_cache : cache_ok (fun _ v => forall r, v = Some r -> modified r = true /\ (MatchedRule r).1 = tf_id f) (tf_resCache f);
}.

Lemma tf_named_new repl id : tf_named (NewTypoFilter repl id).
Proof. split; [by exists []|apply cache_ok_empty]. Qed.

Lemma typo_named_request f newID req : tf_named f -> host_ok req ->
  exists r f', typo_FilterRequest rows f newID req = Ret (Ok r, f') /\ tf_named f' /\ tf_id f' = tf_id f /\
    forall res, r = Some res -> modified res = true /\ (MatchedRule res).1 = tf_id f.
Proof.
  intros [(ds & Hds & Hp) Hc] (Hw & Ha & Hl). unfold typo_FilterRequest.
  case_if; [eexists None, f; split_and!; [done|split; [by exists ds|done]|done..]|].
  destruct (IsFilterable (f_QType req)) as [fam [|]] eqn:Ef; [|eexists None, f; split_and!; [done|split; [by exists ds|done]|done..]].
  set (key := NewCacheKey _ _ _ _). destruct (cget (tf_resCache f) key) as [item c] eqn:Eg.
  destruct (cache_ok_get _ _ _ _ _ Hc Eg) as [Hc' Hitem].
  assert (tf_named (tf_with_cache f c)) as Hwith by (split; [by exists ds|done]).
  destruct item as [[res|]|].
  { destruct (Hitem _ eq_refl res eq_refl) as [Hm Hi].
    destruct (CloneModifiedResult_ok newID res (f_DNS req) Hm) as (r' & -> & Hm' & Hr').
    eexists _, _. split; [done|]. split_and!; [done..|]. intros ? [= <-]. by rewrite Hr'. }
  { by eexists None, _. }
  assert (forall v, (forall r, v = Some r -> modified r = true /\ (MatchedRule r).1 = tf_id f) ->
    tf_named (tf_with_cache (tf_with_cache f c) (cset c key v))) as Hset
    by (intros v Hv; split; [by exists ds|by apply cache_ok_set]).
  case_if; [eexists None, _; split; [done|]; split_and!; [by apply Hset|done..]|].
  cbn [tf_with_cache tf_protectedByLen tf_replCons tf_id tf_resCache]. rewrite Hp.
  destruct (matchProtectedDomain_closest rows ds (typo_etld1 (f_Host req))) as ([pd|] & -> & _); [done..| |];
    cbn [outcome_bind]; [|eexists None, _; split; [done|]; split_and!; [by apply Hset|done..]].
  destruct (repl_New_ok (tf_replCons f) req (tf_id f) (pd_Domain pd) fam Hw Ef) as (r & -> & Hmod & Hr). simpl.
  destruct (cached_modified_ok newID r Hmod) as (r' & -> & Hmod' & Hr'). simpl.
  eexists _, _. split; [done|]. split_and!; [|done|].
  - apply Hset. intros ? [= <-]. by rewrite Hr', Hr.
  - intros ? [= <-]. by rewrite Hr.
Qed.

(** Requests and refreshes of the filter, in any order. *)
Inductive tf_event :=
  | TfRequest (newID : Z) (req : Request)
  | TfRefresh (file : result error (option indexCache)) (storage : result error (option Typosquatting)).

Definition tf_step (f : TypoFilter) (e : tf_event) : outcome TypoFilter :=
  match e with
  | TfRequest newID req => let! r := typo_FilterRequest rows f newID req in Ret r.2
  | TfRefresh file storage => let! r := typo_refresh f file storage in Ret r.2
  end.

Definition tf_event_ok (e : tf_event) : Prop :=
  match e with
  | TfRequest _ req => host_ok req
  | TfRefresh file storage =>
      (forall idx, storage = Ok (Some idx) -> Forall protected_ok (ty_Domains idx)) /\
      (forall c idx, file = Ok (Some c) -> indexCache_toInternal c = Ok idx -> Forall protected_ok (ty_Domains idx))
  end.

Lemma tf_step_named f e f' : tf_named f -> tf_event_ok e -> tf_step f e = Ret f' -> tf_named f' /\ tf_id f' = tf_id f.
Proof.
  intros Hf He. assert (forall idx, Forall protected_ok (ty_Domains idx) -> tf_named (setIndexData f idx)) as Hset.
  { intros idx Hi. split; [by eexists|]. apply (tn_cache f Hf). }
  destruct e as [newID req|file storage]; simpl in *.
  - destruct (typo_named_request f newID req Hf He) as (r & f1 & -> & ? & ? & _). simpl. by intros [= <-].
  - destruct He as [Hst Hfi]. unfold typo_refresh.
    assert (forall r, (let! res := indexFromStorage storage in
      match res with
      | (Err err, w) => Ret (Some err, w, f)
      | (Ok None, w) => Ret (Some (ErrConst "found no index in cache or storage"), w, f)
      | (Ok (Some idx), w) => Ret (None, w, setIndexData f idx)
      end) = Ret r -> tf_named r.2 /\ tf_id r.2 = tf_id f) as Hgo.
    { intros r. destruct storage as [[idx|]|err]; simpl; [|done|by intros [= <-]].
      intros [= <-]. split; [by apply Hset, Hst|done]. }
    set (cached := match file with Ok (Some c) => _ | _ => _ end).
    destruct cached as [idx|] eqn:Ec; cbn [outcome_bind].
    + intros [= <-]. split; [|done]. apply Hset. subst cached. destruct file as [[c|]|]; try done.
      destruct (indexCache_toInternal c) eqn:Ei; [|done]. injection Ec as <-. by eapply Hfi.
    + destruct (let! res := indexFromStorage storage in _) as [r|] eqn:Er; cbn [outcome_bind]; [|done].
      intros [= <-]. by apply Hgo.
Qed.

End typo_events.

(** The cache file restores the index. *)
Lemma indexCache_roundtrip idx : indexCache_toInternal (newIndexCache idx) = Ok idx.
Proof.
  unfold indexCache_toInternal, newIndexCache. simpl. do 2 f_equal. destruct idx as [ds exc]. simpl. f_equal.
  rewrite <- list_fmap_compose. rewrite <- (list_fmap_id ds) at 2. apply list_fmap_ext. intros i [d n] _. done.
Qed.

(** ** Concrete inputs *)

#[local] Existing Instance ref_miekg.
#[local] Existing Instance ref_miekg_spec.
#[local] Existing Instance ref_unicode.
#[local] Existing Instance toy_sha256.
#[local] Existing Instance tld_list.
#[local] Existing Instance ref_subdomains.
#[local] Instance filter_cache : AgdCache CacheKey (option Result) := fun_cache _ _.
#[local] Instance filter_cache_spec : AgdCacheSpec CacheKey (option Result) := fun_cache_spec _ _.

(** A request for the addresses of a host with the constructor of a profile. *)
Definition host_request (host : string) (msgs : Constructor) : Request := {|
  f_DNS := set_Question some_request [{| q_Name := host +:+ "."; q_Qtype := TypeA; q_Qclass := ClassINET |}];
  f_Messages := msgs; f_RemoteIP := Addr4 1; f_ClientName := EmptyString; f_Host := host; f_QType := TypeA;
  f_QClass := ClassINET;
|}.

Lemma host_request_well_formed host : well_formed (host_request host some_constructor).
Proof. split; [|exact I]. eexists _, _. by split. Qed.

(** The answers replace addresses by 9.9.9.9. *)
Definition block_page : ReplacedResultConstructor := {| replIP := Addr4 0x09090909; replFQDN := EmptyString |}.

Definition new_hash_filter : HashFilter := NewHashFilter toy_storage block_page "safe_browsing" 4.

Definition blocked_twice : list hf_event :=
  [HfRequest 1 (host_request "www.bad.example" some_constructor); HfRefresh (Err (ErrConst "net"))].

Lemma hash_filter_exact_witness :
  exists f, for_each hf_exec (NewHashFilter toy_storage block_page "safe_browsing" 4) blocked_twice = Ret f /\
  exists res f', hash_FilterRequest f 2 (host_request "www.bad.example" some_constructor) = Ret (Ok (Some res), f') /\
    MatchedRule res = ("safe_browsing", "bad.example")%string.
Proof.
  assert (listed_domain (hf_storage toy_storage blocked_twice) 4
    (f_Host (host_request "www.bad.example" some_constructor)) = "bad.example"%string) as El
    by (vm_compute; reflexivity).
  destruct (hash_filter_exact toy_storage block_page "safe_browsing" 4 blocked_twice
    2 (host_request "www.bad.example" some_constructor)) as (f & E & r & f' & Er & Hv).
  - constructor; [apply host_request_well_formed|]. by repeat constructor.
  - apply host_request_well_formed.
  - exists f. split; [exact E|]. rewrite El in Hv. destruct Hv as (res & -> & _ & Hr).
    exists res, f'. split; [exact Er|exact Hr].
Defined.

(** The TTLs of the answers of a result. *)
Definition result_ttls (r : option Result) : list Z :=
  match r with
  | Some (ResultModifiedResponse m _ _) => (fun rr => rh_Ttl (rr_Hdr rr)) <$> m_Answer m
  | _ => []
  end.

Definition result_owners (r : option Result) : list string :=
  match r with
  | Some (ResultModifiedResponse m _ _) => (fun rr => rh_Name (rr_Hdr rr)) <$> m_Answer m
  | _ => []
  end.

(** The answers of the same filter to two requests. *)
Definition two_requests {F} (filt : F -> Request -> outcome (result error (option Result) * F)) (f : F)
    (r1 r2 : Request) : outcome (option Result * option Result) :=
  let! a := filt f r1 in
  let! b := filt a.2 r2 in
  Ret (match a.1 with Ok r => r | Err _ => None end, match b.1 with Ok r => r | Err _ => None end).

(** The result cache keeps the response that was made with the constructor of the
    first profile that asked: the second profile gets its TTL of ten seconds,
    not its own TTL of an hour. *)
Theorem cached_response_of_other_profile :
  let other := {| blockingMode := BlockingModeNXDOMAIN; sde := EmptyString; fltRespTTL := 3600 * 1000000000;
                  edeEnabled := false |} in
  match two_requests (fun f => hash_FilterRequest f 1) new_hash_filter
    (host_request "bad.example" some_constructor) (host_request "bad.example" other) with
  | Ret (r1, r2) => result_ttls r1 = [10] /\ result_ttls r2 = [10]
  | Panic _ => False
  end.
Proof. vm_compute. done. Qed.

(** *** Typosquatting *)

(** Pools that return empty slices. *)
Definition empty_rows (a b : string) : uints * uints * uints :=
  ({| u_arr := []; u_len := 0 |}, {| u_arr := []; u_len := 0 |}, {| u_arr := []; u_len := 0 |}).

Definition google_index : Typosquatting := {|
  ty_Domains := [{| pd_Domain := "google.com"; pd_Distance := 1 |}]; ty_Exceptions := [];
|}.

Definition google_filter : TypoFilter := setIndexData (NewTypoFilter block_page "typosquatting") google_index.

Lemma typo_filter_exact_witness :
  exists f, for_each (tf_exec empty_rows) google_filter [(1, host_request "www.gogle.com" some_constructor)] = Ret f /\
  exists res f', typo_FilterRequest empty_rows f 2 (host_request "gogle.com" some_constructor) =
    Ret (Ok (Some res), f') /\ MatchedRule res = ("typosquatting", "google.com")%string.
Proof.
  destruct (typo_filter_exact empty_rows google_index) with (repl := block_page) (id := "typosquatting"%string)
    (reqs := [(1, host_request "www.gogle.com" some_constructor)]) (newID := 2)
    (req := host_request "gogle.com" some_constructor) as (f & E & r & f' & Er & Hv).
  - intros a b. repeat split; unfold uints_ok; simpl; lia.
  - repeat constructor; simpl; lia.
  - constructor; [|done]. split; [apply host_request_well_formed|]. split; reflexivity.
  - split; [apply host_request_well_formed|]. split; reflexivity.
  - exists f. split; [exact E|]. change (IsFilterable _).2 with true in Hv. cbn [negb] in Hv.
    destruct Hv as (m & Hm & Hr). destruct m as [pd|].
    + destruct Hm as (Hin & _). apply list_elem_of_singleton in Hin as ->.
      destruct Hr as (res & -> & _ & Hr).
      exists res, f'. split; [exact Er|exact Hr].
    + exfalso. destruct Hm as [(pd & ->%list_elem_of_singleton & [=])|Hno].
      apply (Hno {| pd_Domain := "google.com"; pd_Distance := 1 |}); [by left|]. vm_compute. done.
Defined.

(** A refresh does not clear the result cache: the name that was blocked under the
    first index is still blocked after an index that has it as an exception. *)
Theorem typo_stale_after_refresh :
  let req := host_request "gogle.com" some_constructor in
  let idx2 := {| ty_Domains := ty_Domains google_index; ty_Exceptions := ["gogle.com"%string] |} in
  let second f := let! r := typo_refresh f (Ok None) (Ok (Some idx2)) in typo_FilterRequest empty_rows r.2 1 req in
  let blocked (o : outcome (result error (option Result) * TypoFilter)) :=
    match o with Ret (Ok (Some _), _) => true | _ => false end in
  match typo_FilterRequest empty_rows google_filter 1 req with
  | Ret (_, f) => blocked (second f) = true /\ blocked (second google_filter) = false
  | Panic _ => False
  end.
Proof. vm_compute. done. Qed.

(** The cache key is the registrable domain, so a second host gets answers that are
    owned by the first one. *)
Theorem typo_cached_owner :
  match two_requests (fun f => typo_FilterRequest empty_rows f 1) google_filter
    (host_request "a.gogle.com" some_constructor) (host_request "b.gogle.com" some_constructor) with
  | Ret (r1, r2) => result_owners r1 = ["a.gogle.com."%string] /\ result_owners r2 = ["a.gogle.com."%string]
  | Panic _ => False
  end.
Proof. vm_compute. done. Qed.

(** An empty answer of the index storage, which its documentation allows, is
    dereferenced. *)
Theorem typo_nil_index_panics :
  typo_refresh google_filter (Ok None) (Ok None) = Panic "nil pointer dereference".
Proof. reflexivity. Qed.
