(* ===== verification/FilterStorage.v ===== *)
(** The filter storage: internal/filter/internal/serviceblock and
    internal/filter/filterstorage (default.go, refresh.go, category.go).

    The storage keeps the filters that all profiles share, and makes a composite
    filter for a configuration from those of them that are enabled.  A composite
    filter holds functions: those of the filters of the storage at that time. *)

From S2P Require Import Prelude GoStd Schedule HumanID HashPrefix Levenshtein DnsMsg Filter FilterConfig RuleList Composite.
From S2P Require Import Refreshable RuleListStorage DomainFilters.

Open Scope Z_scope.

(** ** serviceblock *)

Record indexRespService := { is_ID : string; is_Rules : list string }.

(** ** category.go *)

Record categoryRespFilter := { cr_DownloadURL : string }.

Class StorageDecoders := {
  unmarshal_services : string -> result error (list (option indexRespService));
  unmarshal_categories : string -> result error (gmap string (option categoryRespFilter));
}.

Definition category_validate (f : option categoryRespFilter) (categoryName : string) : option error :=
  match f with
  | None => Some (ErrConst "no value")
  | Some f =>
      Join (omap id [if bool_decide (cr_DownloadURL f = EmptyString)
                     then Some (ErrWrap "downloadUrl: %w" (ErrConst "empty value")) else None;
                     match NewCategoryID categoryName with Err err => Some err | Ok _ => None end])
  end.

Record categoryData := { cd_url : URL; cd_id : string }.

Section storage.
Context `{Sha256} `{PublicSuffixList} `{Subdomains} `{MiekgDNS} `{SvcbParsers} `{UnicodeCase} `{Urlfilter}.
Context `{UrlLib} `{StorageDecoders}.
Context `{RC : AgdCache CacheKey (option DNSResult)} `{FC : AgdCache CacheKey (option Result)}.

(** *** serviceblock *)

Record ServiceFilter := {
  svc_refr : Refreshable;
  svc_file : option File;
  svc_services : gmap string baseFilter;
}.

Definition ServiceRuleLists (f : ServiceFilter) (ids : list string) : list baseFilter :=
  omap (fun id => svc_services f !! id) ids.

Definition svc_toInternal (svc : option indexRespService) (useCache : bool)
    : outcome (result error (string * baseFilter) * list error) :=
  match svc with
  | None => Panic "nil pointer dereference"
  | Some svc =>
      match NewBlockedServiceID (is_ID svc) with
      | Err err => Ret (Err (ErrWrap "validating id: %w" err), [])
      | Ok svcID =>
          let collected := match is_Rules svc with
                           | [] => [ErrConst "service filter: no rules for service with id %s"]
                           | _ => []
                           end in
          let rulesData := RulesToBytes (is_Rules svc) in
          Ret (Ok (svcID, newBaseFilter rulesData IDBlockedService svcID (if useCache then Some cempty else None)),
               collected)
      end
  end.

(** The loop: the services, the errors at their indexes and the collected
    errors. *)
Fixpoint svcs_toInternal (svcs : list (option indexRespService)) (useCache : bool)
    (acc : gmap string baseFilter * list error * list error)
    : outcome (gmap string baseFilter * list error * list error) :=
  match svcs with
  | [] => Ret acc
  | svc :: svcs =>
      let '(services, errs, collected) := acc in
      let! r := svc_toInternal svc useCache in
      match r with
      | (Err err, c) =>
          svcs_toInternal svcs useCache (services, errs ++ [ErrWrap "service at index %d: %w" err], collected ++ c)
      | (Ok (svcID, rl), c) => svcs_toInternal svcs useCache (<[svcID := rl]> services, errs, collected ++ c)
      end
  end.

Definition index_services (svcs : list (option indexRespService)) (useCache : bool)
    : outcome (result error (gmap string baseFilter) * list error) :=
  let! r := svcs_toInternal svcs useCache (∅, [], []) in
  let '(services, errs, collected) := r in
  Ret (match Join errs with
       | Some err => Err (ErrWrap "converting blocked services: %w" err)
       | None => Ok services
       end, collected).

Definition svc_loadIndex (f : ServiceFilter) (env : RefrEnv) (acceptStale : bool)
    : result error (list (option indexRespService)) * ServiceFilter :=
  let '(b, file) := refreshable_Refresh (svc_refr f) env (svc_file f) acceptStale in
  let f := {| svc_refr := svc_refr f; svc_file := file; svc_services := svc_services f |} in
  match b with
  | Err err => (Err (ErrWrap "loading index: %w" err), f)
  | Ok b =>
      match unmarshal_services b with
      | Err err => (Err (ErrWrap "decoding index: %w" err), f)
      | Ok resp => (Ok resp, f)
      end
  end.

(** The last result are the collected errors. *)
Definition svc_Refresh (f : ServiceFilter) (env : RefrEnv) (useCache acceptStale : bool)
    : outcome (option error * ServiceFilter * list error) :=
  match svc_loadIndex f env acceptStale with
  | (Err err, f) => Ret (Some err, f, [])
  | (Ok resp, f) =>
      let! r := index_services resp useCache in
      match r with
      | (Err err, collected) => Ret (Some err, f, collected)
      | (Ok services, collected) =>
          Ret (None, {| svc_refr := svc_refr f; svc_file := svc_file f; svc_services := services |}, collected)
      end
  end.

(** *** category.go *)

(** The keys of the index are distinct, so the test for duplicates never holds.
    The second component are the collected errors. *)
Definition categories_toInternal (filters : gmap string (option categoryRespFilter))
    : list categoryData * list error :=
  let '(_, fls, errs) :=
    foldl (fun '(ids, fls, errs) '(cat, fl) =>
      match fl, category_validate fl cat with
      | _, Some err => (ids, fls, errs ++ [ErrWrap "validating category filter %q: %w" err])
      | None, None => (ids, fls, errs)
      | Some f, None =>
          match ParseHTTPURL (cr_DownloadURL f) with
          | Err err => (ids, fls, errs ++ [ErrWrap "validating url: %w" err])
          | Ok u =>
              if bool_decide (cat ∈ ids)
              then (ids, fls, errs ++ [ErrWrap "category id: %w: %q" (ErrConst "duplicated value")])
              else ({[cat]} ∪ ids, fls ++ [{| cd_url := u; cd_id := cat |}], errs)
          end
      end) ((∅ : gset string), [], []) (map_to_list filters) in
  (fls, errs).

(** *** default.go *)

Record SafeSearch := { ss_flt : baseFilter; ss_refr : Refreshable; ss_file : option File }.

(** [fs_newID] and [fs_rows] are what the random message IDs and the pools of the
    distance calculator give.  [fs_errs] are the collected errors. *)
Record FilterStorage := {
  fs_services : option ServiceFilter;
  fs_adult : option HashFilter;
  fs_dangerous : option HashFilter;
  fs_newlyRegistered : option HashFilter;
  fs_safeSearchGeneral : option SafeSearch;
  fs_safeSearchYouTube : option SafeSearch;
  fs_typosquatting : option TypoFilter;
  fs_domainFilters : gmap string (option DomainFilter);
  fs_catIdxRefr : option Refreshable;
  fs_catIdxFile : option File;
  fs_catFiles : gmap string File;
  fs_catStaleness : Z;
  fs_subDomainNum : nat;
  fs_serviceResCacheEnabled : bool;
  fs_errs : list error;
}.

Context (newID : Z) (rows : string -> string -> uints * uints * uints).

Definition hash_filter_fn (f : HashFilter) : RequestFilter := fun req =>
  let! r := hash_FilterRequest f newID req in Ret r.1.

Definition domain_filter_fn (f : DomainFilter) : RequestFilter := fun req =>
  let! r := domain_FilterRequest f req in Ret (Ok r.1).

Definition typo_filter_fn (f : TypoFilter) : RequestFilter := fun req =>
  let! r := typo_FilterRequest rows f newID req in Ret r.1.

Definition list_filter (f : baseFilter) : ListFilter :=
  {| lf_id := bf_id f; lf_svcID := bf_svcID f; lf_match q := (SetURLFilterResult f q).1 |}.

Definition safe_search_fn (f : SafeSearch) : RequestFilterUF := safesearch_FilterRequestUF (list_filter (ss_flt f)).

(** The configuration of a composite filter in which nothing is set. *)
Definition empty_composite : CompositeConfig := {|
  cc_SafeBrowsing := None; cc_AdultBlocking := None; cc_NewRegisteredDomains := None; cc_Typosquatting := None;
  cc_GeneralSafeSearch := None; cc_YouTubeSafeSearch := None; cc_Custom := None; cc_CategoryFilters := [];
  cc_CustomRuleLists := []; cc_RuleLists := []; cc_ServiceLists := [];
|}.

(** [if cond && f != nil { field = f }] *)
Definition set_if {A B} (cond : bool) (f : option A) (fn : A -> B) (old : option B) : option B :=
  match f with Some f => if cond then Some (fn f) else old | None => old end.

Definition setDomainFilters (s : FilterStorage) (cc : CompositeConfig) (c : ConfigCategories) : CompositeConfig :=
  if negb (cg_Enabled c) || bool_decide (cg_IDs c = []) then cc
  else {| cc_SafeBrowsing := cc_SafeBrowsing cc; cc_AdultBlocking := cc_AdultBlocking cc;
          cc_NewRegisteredDomains := cc_NewRegisteredDomains cc; cc_Typosquatting := cc_Typosquatting cc;
          cc_GeneralSafeSearch := cc_GeneralSafeSearch cc; cc_YouTubeSafeSearch := cc_YouTubeSafeSearch cc;
          cc_Custom := cc_Custom cc;
          cc_CategoryFilters := foldl (fun fs id =>
            match fs_domainFilters s !! id with
            | Some (Some fl) => fs ++ [domain_filter_fn fl]
            | _ => fs
            end) (cc_CategoryFilters cc) (cg_IDs c);
          cc_CustomRuleLists := cc_CustomRuleLists cc; cc_RuleLists := cc_RuleLists cc;
          cc_ServiceLists := cc_ServiceLists cc |}.

Definition setEnabledParental (s : FilterStorage) (cc : CompositeConfig) (c : ConfigParental) : CompositeConfig :=
  let cc := {|
    cc_SafeBrowsing := cc_SafeBrowsing cc;
    cc_AdultBlocking := set_if (cp_AdultBlockingEnabled c) (fs_adult s) hash_filter_fn (cc_AdultBlocking cc);
    cc_NewRegisteredDomains := cc_NewRegisteredDomains cc; cc_Typosquatting := cc_Typosquatting cc;
    cc_GeneralSafeSearch :=
      set_if (cp_SafeSearchGeneralEnabled c) (fs_safeSearchGeneral s) safe_search_fn (cc_GeneralSafeSearch cc);
    cc_YouTubeSafeSearch :=
      set_if (cp_SafeSearchYouTubeEnabled c) (fs_safeSearchYouTube s) safe_search_fn (cc_YouTubeSafeSearch cc);
    cc_Custom := cc_Custom cc; cc_CategoryFilters := cc_CategoryFilters cc;
    cc_CustomRuleLists := cc_CustomRuleLists cc; cc_RuleLists := cc_RuleLists cc;
    cc_ServiceLists :=
      match fs_services s with
      | Some svcs => if negb (bool_decide (cp_BlockedServices c = []))
                     then list_filter <$> ServiceRuleLists svcs (cp_BlockedServices c) else cc_ServiceLists cc
      | None => cc_ServiceLists cc
      end;
  |} in
  setDomainFilters s cc (cp_Categories c).

Definition setParental (s : FilterStorage) (now : Z) (cc : CompositeConfig) (c : ConfigParental)
    : outcome CompositeConfig :=
  if negb (cp_Enabled c) then Ret cc
  else
    let! paused :=
      match cp_PauseSchedule c with
      | None => Ret false
      | Some pause => schedule_Contains pause now
      end in
    Ret (if paused : bool then cc else setEnabledParental s cc c).

(** The lists of the rule-list storage [rls]. *)
Definition lists_for (rls : RuleListStorage) (orig : list ListFilter) (ids : list string) : list ListFilter :=
  orig ++ (list_filter <$> AppendForListIDs rls [] ids).

Definition setCustomRuleLists (rls : RuleListStorage) (cc : CompositeConfig) (c : ConfigCustomRuleList)
    : CompositeConfig :=
  if negb (crl_Enabled c) || bool_decide (crl_IDs c = []) then cc
  else {| cc_SafeBrowsing := cc_SafeBrowsing cc; cc_AdultBlocking := cc_AdultBlocking cc;
          cc_NewRegisteredDomains := cc_NewRegisteredDomains cc; cc_Typosquatting := cc_Typosquatting cc;
          cc_GeneralSafeSearch := cc_GeneralSafeSearch cc; cc_YouTubeSafeSearch := cc_YouTubeSafeSearch cc;
          cc_Custom := cc_Custom cc; cc_CategoryFilters := cc_CategoryFilters cc;
          cc_CustomRuleLists := lists_for rls (cc_CustomRuleLists cc) (crl_IDs c);
          cc_RuleLists := cc_RuleLists cc; cc_ServiceLists := cc_ServiceLists cc |}.

Definition setRuleLists (rls : RuleListStorage) (cc : CompositeConfig) (c : ConfigRuleList) : CompositeConfig :=
  if negb (cr_Enabled c) || bool_decide (cr_IDs c = []) then cc
  else {| cc_SafeBrowsing := cc_SafeBrowsing cc; cc_AdultBlocking := cc_AdultBlocking cc;
          cc_NewRegisteredDomains := cc_NewRegisteredDomains cc; cc_Typosquatting := cc_Typosquatting cc;
          cc_GeneralSafeSearch := cc_GeneralSafeSearch cc; cc_YouTubeSafeSearch := cc_YouTubeSafeSearch cc;
          cc_Custom := cc_Custom cc; cc_CategoryFilters := cc_CategoryFilters cc;
          cc_CustomRuleLists := cc_CustomRuleLists cc;
          cc_RuleLists := lists_for rls (cc_RuleLists cc) (cr_IDs c); cc_ServiceLists := cc_ServiceLists cc |}.

Definition setSafeBrowsing (s : FilterStorage) (cc : CompositeConfig) (c : ConfigSafeBrowsing) : CompositeConfig :=
  if negb (csb_Enabled c) then cc
  else {| cc_SafeBrowsing :=
            set_if (csb_DangerousDomainsEnabled c) (fs_dangerous s) hash_filter_fn (cc_SafeBrowsing cc);
          cc_AdultBlocking := cc_AdultBlocking cc;
          cc_NewRegisteredDomains :=
            set_if (csb_NewlyRegisteredDomainsEnabled c) (fs_newlyRegistered s) hash_filter_fn
              (cc_NewRegisteredDomains cc);
          cc_Typosquatting :=
            set_if (match csb_Typosquatting c with Some t => ct_Enabled t | None => false end)
              (fs_typosquatting s) typo_filter_fn (cc_Typosquatting cc);
          cc_GeneralSafeSearch := cc_GeneralSafeSearch cc; cc_YouTubeSafeSearch := cc_YouTubeSafeSearch cc;
          cc_Custom := cc_Custom cc; cc_CategoryFilters := cc_CategoryFilters cc;
          cc_CustomRuleLists := cc_CustomRuleLists cc; cc_RuleLists := cc_RuleLists cc;
          cc_ServiceLists := cc_ServiceLists cc |}.

(** The custom filter that is made from the rules; by [custom_no_cache], what has
    been asked before does not change its answers. *)
Definition custom_fn (rules : list string) : DNSRequest -> option DNSResult := fun q =>
  (custom_SetURLFilterResult (custom_New rules) q).1.

Definition client_composite (s : FilterStorage) (rls : RuleListStorage) (now : Z) (c : ConfigClient)
    : outcome CompositeConfig :=
  let! cc := setParental s now empty_composite (cfc_Parental c) in
  let cc := setCustomRuleLists rls cc (cfc_CustomRuleList c) in
  let cc := setRuleLists rls cc (cfc_RuleList c) in
  let cc := setSafeBrowsing s cc (cfc_SafeBrowsing c) in
  Ret {| cc_SafeBrowsing := cc_SafeBrowsing cc; cc_AdultBlocking := cc_AdultBlocking cc;
         cc_NewRegisteredDomains := cc_NewRegisteredDomains cc; cc_Typosquatting := cc_Typosquatting cc;
         cc_GeneralSafeSearch := cc_GeneralSafeSearch cc; cc_YouTubeSafeSearch := cc_YouTubeSafeSearch cc;
         cc_Custom := if ccf_Enabled (cfc_CustomFilter c) then custom_fn <$> ccf_Filter (cfc_CustomFilter c)
                      else cc_Custom cc;
         cc_CategoryFilters := cc_CategoryFilters cc; cc_CustomRuleLists := cc_CustomRuleLists cc;
         cc_RuleLists := cc_RuleLists cc; cc_ServiceLists := cc_ServiceLists cc |}.

Definition forClient (s : FilterStorage) (rls : RuleListStorage) (now : Z) (c : ConfigClient)
    : outcome CompositeFilter :=
  let! cc := client_composite s rls now c in Ret (composite_New cc).

Definition group_composite (s : FilterStorage) (rls : RuleListStorage) (now : Z) (c : ConfigGroup)
    : outcome CompositeConfig :=
  let! cc := setParental s now empty_composite (cfg_Parental c) in
  let cc := setRuleLists rls cc (cfg_RuleList c) in
  Ret (setSafeBrowsing s cc (cfg_SafeBrowsing c)).

Definition forGroup (s : FilterStorage) (rls : RuleListStorage) (now : Z) (c : ConfigGroup)
    : outcome CompositeFilter :=
  let! cc := group_composite s rls now c in Ret (composite_New cc).

(** [filter.Interface]: the empty filter or a composite one. *)
Inductive FilterInterface := FilterEmpty | FilterOf (f : CompositeFilter).

Definition ForConfig (s : FilterStorage) (rls : RuleListStorage) (now : Z) (c : FilterConfig)
    : outcome FilterInterface :=
  match c with
  | ConfigNil => Ret FilterEmpty
  | ConfigOfClient c => let! f := forClient s rls now c in Ret (FilterOf f)
  | ConfigOfGroup c => let! f := forGroup s rls now c in Ret (FilterOf f)
  end.

Definition iface_FilterRequest (f : FilterInterface) (req : Request) : outcome (result error (option Result)) :=
  match f with FilterEmpty => Ret (Ok None) | FilterOf f => FilterRequest f req end.

Definition iface_FilterResponse (hint_string : SVCBKeyValue -> string) (f : FilterInterface) (resp : Response)
    : outcome (result error (option Result)) :=
  match f with
  | FilterEmpty => Ret (Ok None)
  | FilterOf f => let! r := FilterResponse hint_string f resp in Ret (Ok r)
  end.

(** ** refresh.go *)

(** What happens during a refresh. *)
Record FilterEnv := {
  fe_catIndex : RefrEnv;
  fe_cats : string -> RefrEnv;
  fe_ctx : option error;
  fe_services : RefrEnv;
  fe_general : RefrEnv;
  fe_youtube : RefrEnv;
}.

(** The storage with new categories, files and collected errors. *)
Definition fs_update (s : FilterStorage) (services : option ServiceFilter) (general youtube : option SafeSearch)
    (dfs : gmap string (option DomainFilter)) (idxFile : option File) (files : gmap string File)
    (errs : list error) : FilterStorage := {|
  fs_services := services; fs_adult := fs_adult s; fs_dangerous := fs_dangerous s;
  fs_newlyRegistered := fs_newlyRegistered s; fs_safeSearchGeneral := general; fs_safeSearchYouTube := youtube;
  fs_typosquatting := fs_typosquatting s; fs_domainFilters := dfs; fs_catIdxRefr := fs_catIdxRefr s;
  fs_catIdxFile := idxFile; fs_catFiles := files; fs_catStaleness := fs_catStaleness s;
  fs_subDomainNum := fs_subDomainNum s; fs_serviceResCacheEnabled := fs_serviceResCacheEnabled s;
  fs_errs := fs_errs s ++ errs;
|}.

Definition initDomainFilter (s : FilterStorage) (cat : categoryData) : result error (DomainFilter * Refreshable) :=
  match refreshable_New (Some (cd_url cat)) (fs_catStaleness s) with
  | Err err => Err (ErrWrap "creating refreshable: %w" err)
  | Ok refr => Ok (NewDomainFilter (cd_id cat) IDCategory (fs_subDomainNum s), refr)
  end.

(** [Refresh] of a domain filter does not accept stale files. *)
Definition refreshDomainFilter (s : FilterStorage) (env : RefrEnv) (cat : categoryData) (file : option File)
    : result error DomainFilter * option File :=
  match initDomainFilter s cat with
  | Err err => (Err (ErrWrap "creating domain filter: %w" err), file)
  | Ok (df, refr) =>
      let '(data, file) := refreshable_Refresh refr env file false in
      match domain_refresh df data with
      | (Some err, _) => (Err (ErrWrap "refreshing domain filter: %w" (ErrWrap "refreshing: %w" err)), file)
      | (None, df) => (Ok df, file)
      end
  end.

Definition prevDomainFilter (s : FilterStorage) (id : string) : option DomainFilter :=
  default None (fs_domainFilters s !! id).

Definition resultDomainFilter (s : FilterStorage) (catID : string) (res : result error DomainFilter)
    : option DomainFilter * list error :=
  match res with
  | Err err => (prevDomainFilter s catID, [ErrWrap "initializing domain filter %q: %w" err])
  | Ok df => (Some df, [])
  end.

Definition refresh_category (s : FilterStorage) (envs : string -> RefrEnv)
    (acc : gmap string (option DomainFilter) * gmap string File * list error) (cat : categoryData)
    : gmap string (option DomainFilter) * gmap string File * list error :=
  let '(dfs, files, errs) := acc in
  let '(res, file) := refreshDomainFilter s (envs (cd_id cat)) cat (files !! cd_id cat) in
  let '(df, errs') := resultDomainFilter s (cd_id cat) res in
  (<[cd_id cat := df]> dfs, partial_alter (fun _ => file) (cd_id cat) files, errs ++ errs').

Definition refreshDomainFilters (s : FilterStorage) (env : FilterEnv) (data : list categoryData)
    : result error (gmap string (option DomainFilter)) * FilterStorage :=
  let '(dfs, files, errs) := foldl (refresh_category s (fe_cats env)) (∅, fs_catFiles s, []) data in
  let s := fs_update s (fs_services s) (fs_safeSearchGeneral s) (fs_safeSearchYouTube s) (fs_domainFilters s)
             (fs_catIdxFile s) files errs in
  match fe_ctx env with Some err => (Err err, s) | None => (Ok dfs, s) end.

Definition loadCategoryIndex (s : FilterStorage) (refr : Refreshable) (env : FilterEnv) (acceptStale : bool)
    : result error (gmap string (option categoryRespFilter)) * FilterStorage :=
  let '(b, file) := refreshable_Refresh refr (fe_catIndex env) (fs_catIdxFile s) acceptStale in
  let s := fs_update s (fs_services s) (fs_safeSearchGeneral s) (fs_safeSearchYouTube s) (fs_domainFilters s)
             file (fs_catFiles s) [] in
  match b with
  | Err err => (Err (ErrWrap "loading index: %w" err), s)
  | Ok b =>
      match unmarshal_categories b with
      | Err err => (Err (ErrWrap "decoding: %w" err), s)
      | Ok resp => (Ok resp, s)
      end
  end.

(** A nil map is an empty one. *)
Definition loadCategoryFilters (s : FilterStorage) (env : FilterEnv) (acceptStale : bool)
    : result error (gmap string (option DomainFilter)) * FilterStorage :=
  match fs_catIdxRefr s with
  | None => (Ok ∅, s)
  | Some refr =>
      match loadCategoryIndex s refr env acceptStale with
      | (Err err, s) => (Err err, s)
      | (Ok resp, s) =>
          let '(fls, errs) := categories_toInternal resp in
          let s := fs_update s (fs_services s) (fs_safeSearchGeneral s) (fs_safeSearchYouTube s)
                     (fs_domainFilters s) (fs_catIdxFile s) (fs_catFiles s) errs in
          refreshDomainFilters s env fls
      end
  end.

Definition refreshServices (s : FilterStorage) (env : FilterEnv) (acceptStale : bool)
    : outcome (option error * FilterStorage) :=
  match fs_services s with
  | None => Ret (None, s)
  | Some svcs =>
      let! r := svc_Refresh svcs (fe_services env) (fs_serviceResCacheEnabled s) acceptStale in
      let '(err, svcs, collected) := r in
      Ret (ErrWrap "refreshing blocked services: %w" <$> err,
           fs_update s (Some svcs) (fs_safeSearchGeneral s) (fs_safeSearchYouTube s) (fs_domainFilters s)
             (fs_catIdxFile s) (fs_catFiles s) collected)
  end.

Definition ss_Refresh (f : SafeSearch) (env : RefrEnv) (acceptStale : bool) : option error * SafeSearch :=
  let '(data, file) := refreshable_Refresh (ss_refr f) env (ss_file f) acceptStale in
  let '(err, flt) := rulelist_Refresh (ss_flt f) data in
  (err, {| ss_flt := flt; ss_refr := ss_refr f; ss_file := file |}).

Definition refresh_opt (f : option SafeSearch) (env : RefrEnv) (acceptStale : bool)
    : option error * option SafeSearch :=
  match f with
  | None => (None, None)
  | Some f => let '(err, f) := ss_Refresh f env acceptStale in (err, Some f)
  end.

Definition refreshSafeSearch (s : FilterStorage) (env : FilterEnv) (acceptStale : bool)
    : option error * FilterStorage :=
  let '(err, general) := refresh_opt (fs_safeSearchGeneral s) (fe_general env) acceptStale in
  let s := fs_update s (fs_services s) general (fs_safeSearchYouTube s) (fs_domainFilters s) (fs_catIdxFile s)
             (fs_catFiles s) [] in
  match err with
  | Some err => (Some (ErrWrap "refreshing general safe search: %w" err), s)
  | None =>
      let '(err, youtube) := refresh_opt (fs_safeSearchYouTube s) (fe_youtube env) acceptStale in
      (ErrWrap "refreshing youtube safe search: %w" <$> err,
       fs_update s (fs_services s) (fs_safeSearchGeneral s) youtube (fs_domainFilters s) (fs_catIdxFile s)
         (fs_catFiles s) [])
  end.

Definition resetDomainFilters (s : FilterStorage) (dfs : gmap string (option DomainFilter)) : FilterStorage :=
  fs_update s (fs_services s) (fs_safeSearchGeneral s) (fs_safeSearchYouTube s) dfs (fs_catIdxFile s)
    (fs_catFiles s) [].

Definition fs_refresh (s : FilterStorage) (env : FilterEnv) (acceptStale : bool)
    : outcome (option error * FilterStorage) :=
  match loadCategoryFilters s env acceptStale with
  | (Err err, s) => Ret (Some err, s)
  | (Ok newDomainFilters, s) =>
      let! r := refreshServices s env acceptStale in
      match r with
      | (Some err, s) => Ret (Some err, s)
      | (None, s) =>
          match refreshSafeSearch s env acceptStale with
          | (Some err, s) => Ret (Some err, s)
          | (None, s) => Ret (None, resetDomainFilters s newDomainFilters)
          end
      end
  end.

Definition fs_Refresh (s : FilterStorage) (env : FilterEnv) : outcome (option error * FilterStorage) :=
  let! r := fs_refresh s env false in
  let '(err, s) := r in
  Ret (err, fs_update s (fs_services s) (fs_safeSearchGeneral s) (fs_safeSearchYouTube s) (fs_domainFilters s)
              (fs_catIdxFile s) (fs_catFiles s) (option_list err)).

Definition fs_RefreshInitial (s : FilterStorage) (env : FilterEnv) : outcome (option error * FilterStorage) :=
  let! r := fs_refresh s env true in
  Ret (ErrWrap "refreshing filter storage initially: %w" <$> r.1, r.2).

End storage.

(** * Facts *)

(** ** Which lists and filters may decide *)

Section config_facts.
Context `{Sha256} `{PublicSuffixList} `{Subdomains} `{MiekgDNS} `{!MiekgDNSSpec} `{SvcbParsers} `{UnicodeCase}.
Context `{Urlfilter} `{!UrlfilterSpec} `{UrlLib} `{ID : IndexDecoders} `{StorageDecoders}.
Context `{RC : AgdCache CacheKey (option DNSResult)} `{FC : AgdCacheSpec CacheKey (option Result)}.
Context (newID : Z) (rows : string -> string -> uints * uints * uints).
Hypothesis Hrows : rows_ok rows.

(** The shared filters are as their refreshes make them: the caches of the hash-prefix
    and of the category filters agree with the data, the cached results of the
    typosquatting filter name this filter (a refresh does not clear them), and the
    filters are stored under their own IDs. *)
Record fs_ok (s : FilterStorage) : Prop := {
  ok_hash f : Some f ∈ [fs_adult s; fs_dangerous s; fs_newlyRegistered s] -> hf_ok f;
  ok_typo f : fs_typosquatting s = Some f -> tf_named f;
  ok_domain id f : prevDomainFilter s id = Some f -> df_ok f /\ df_catID f = id /\ df_resListID f = IDCategory;
  ok_service svcs id f : fs_services s = Some svcs -> svc_services svcs !! id = Some f ->
    bf_id f = IDBlockedService /\ bf_svcID f = id;
}.

Definition lists_ok (rls : RuleListStorage) : Prop :=
  forall id d, prevRuleList rls id = Some d -> bf_id (rd_refr d) = id.

(** The parental control is on and not paused. *)
Definition parental_active (now : Z) (c : ConfigParental) : Prop :=
  cp_Enabled c = true /\
  match cp_PauseSchedule c with None => True | Some p => schedule_Contains p now = Ret false end.

(** The matched list and rule of a result that a configuration allows. *)
Inductive parental_allows (s : FilterStorage) (c : ConfigParental) : string * string -> Prop :=
  | allow_adult f rule : cp_AdultBlockingEnabled c = true -> fs_adult s = Some f -> parental_allows s c (hf_id f, rule)
  | allow_general f rule : cp_SafeSearchGeneralEnabled c = true -> fs_safeSearchGeneral s = Some f ->
      parental_allows s c (bf_id (ss_flt f), rule)
  | allow_youtube f rule : cp_SafeSearchYouTubeEnabled c = true -> fs_safeSearchYouTube s = Some f ->
      parental_allows s c (bf_id (ss_flt f), rule)
  | allow_service svc : svc ∈ cp_BlockedServices c -> parental_allows s c (IDBlockedService, svc)
  | allow_category cat : cg_Enabled (cp_Categories c) = true -> cat ∈ cg_IDs (cp_Categories c) ->
      parental_allows s c (IDCategory, cat).

Inductive browsing_allows (s : FilterStorage) (c : ConfigSafeBrowsing) : string * string -> Prop :=
  | allow_dangerous f rule : csb_DangerousDomainsEnabled c = true -> fs_dangerous s = Some f ->
      browsing_allows s c (hf_id f, rule)
  | allow_new f rule : csb_NewlyRegisteredDomainsEnabled c = true -> fs_newlyRegistered s = Some f ->
      browsing_allows s c (hf_id f, rule)
  | allow_typo t f rule : csb_Typosquatting c = Some t -> ct_Enabled t = true -> fs_typosquatting s = Some f ->
      browsing_allows s c (tf_id f, rule).

Inductive client_allows (s : FilterStorage) (now : Z) (c : ConfigClient) : string * string -> Prop :=
  | allow_custom rule : ccf_Enabled (cfc_CustomFilter c) = true -> client_allows s now c (IDCustom, rule)
  | allow_custom_list id rule : crl_Enabled (cfc_CustomRuleList c) = true -> id ∈ crl_IDs (cfc_CustomRuleList c) ->
      client_allows s now c (id, rule)
  | allow_list id rule : cr_Enabled (cfc_RuleList c) = true -> id ∈ cr_IDs (cfc_RuleList c) ->
      client_allows s now c (id, rule)
  | allow_parental r : parental_active now (cfc_Parental c) -> parental_allows s (cfc_Parental c) r ->
      client_allows s now c r
  | allow_browsing r : csb_Enabled (cfc_SafeBrowsing c) = true -> browsing_allows s (cfc_SafeBrowsing c) r ->
      client_allows s now c r.

(** *** The single filters *)

(** The filter answers every proper request without an error, and only with
    results whose matched list and rule satisfy [P]. *)
Definition answers (P : string * string -> Prop) (f : RequestFilter) : Prop :=
  forall req, host_ok req -> exists ro, f req = Ret (Ok ro) /\ forall r, ro = Some r -> P (MatchedRule r).

Lemma hash_answers (P : string * string -> Prop) f : hf_ok f -> (forall rule, P (hf_id f, rule)) ->
  answers P (hash_filter_fn newID f).
Proof.
  intros Hf HP req [Hw _]. unfold hash_filter_fn.
  destruct (hash_request f newID req Hf Hw) as (ro & f' & -> & _ & _ & Hv). simpl. exists ro. split; [done|].
  intros r ->. destruct (IsFilterable (f_QType req)).2; [|done]. unfold verdict_ok in Hv.
  destruct (bool_decide _); [done|]. destruct Hv as (? & [= <-] & _ & ->). apply HP.
Qed.

Lemma domain_answers (P : string * string -> Prop) f : df_ok f -> P (df_resListID f, df_catID f) ->
  answers P (domain_filter_fn f).
Proof.
  intros Hf HP req _. unfold domain_filter_fn. pose proof Hf as (d & Hd & _).
  destruct (domain_request f d req Hf Hd) as (f' & -> & _). simpl. eexists. split; [done|].
  unfold category_verdict. intros r Hr. repeat case_match; simplify_eq. done.
Qed.

Lemma typo_answers (P : string * string -> Prop) f : tf_named f -> (forall rule, P (tf_id f, rule)) ->
  answers P (typo_filter_fn newID rows f).
Proof.
  intros Hf HP req Hreq. unfold typo_filter_fn.
  destruct (typo_named_request rows Hrows f newID req Hf Hreq) as (ro & f' & -> & _ & _ & Hv).
  simpl. exists ro. split; [done|]. intros r Hr. destruct (Hv r Hr) as [_ Hi].
  destruct (MatchedRule r) as [id rule]. simpl in Hi. subst id. apply HP.
Qed.

Lemma safe_search_answers (P : string * string -> Prop) f : (forall rule, P (bf_id (ss_flt f), rule)) ->
  answers P (ufRequestFilter (safe_search_fn f)).
Proof.
  intros HP req [[(q & qs & Hq & _) _] _]. unfold ufRequestFilter, safe_search_fn, safesearch_FilterRequestUF.
  case_if; [by exists None|]. cbn [list_filter lf_match lf_id].
  destruct (SetURLFilterResult _ _).1 as [dr|]; [|by exists None].
  destruct (process_match req dr (bf_id (ss_flt f)) q qs Hq) as (ro & Ep & _). rewrite Ep. simpl.
  destruct ro as [r|]; simpl; [|by exists None].
  apply ProcessDNSRewrites_id in Ep as (Hm & _ & Hid); [|apply rewrites_have_values]. destruct r; simpl in *; try done;
    eexists; (split; [done|]); intros ? [= <-]; simpl; injection Hid as -> _; apply HP.
Qed.

Lemma run_filters_answers P fs req : Forall (answers P) fs -> host_ok req ->
  exists ro, run_filters fs req = Ret (Ok ro) /\ forall r, ro = Some r -> P (MatchedRule r).
Proof.
  intros Hfs Hreq. induction Hfs as [|f fs Hf Hfs IH]; simpl; [by exists None|].
  destruct (Hf req Hreq) as ([r|] & -> & Hr); simpl; [|apply IH]. exists (Some r). split; [done|]. exact Hr.
Qed.

(** *** Composite filters *)

Record cc_ok (P : string * string -> Prop) (cc : CompositeConfig) : Prop := {
  ok_filters f : Some f ∈ [cc_SafeBrowsing cc; cc_AdultBlocking cc; cc_NewRegisteredDomains cc; cc_Typosquatting cc] ->
    answers P f;
  ok_searches f : Some f ∈ [cc_GeneralSafeSearch cc; cc_YouTubeSafeSearch cc] -> answers P (ufRequestFilter f);
  ok_categories : Forall (answers P) (cc_CategoryFilters cc);
  ok_custom rule : is_Some (cc_Custom cc) -> P (IDCustom, rule);
  ok_rule_lists l rule : l ∈ cc_CustomRuleLists cc ++ cc_RuleLists cc -> P (lf_id l, rule);
  ok_svc_lists l : l ∈ cc_ServiceLists cc -> lf_id l = IDBlockedService /\ P (IDBlockedService, lf_svcID l);
}.

Lemma cc_ok_order P cc : cc_ok P cc -> Forall (answers P) (documented_order cc).
Proof.
  intros [Hf Hs Hc _ _ _]. unfold documented_order. rewrite !Forall_app.
  assert (forall o, o ∈ [cc_SafeBrowsing cc; cc_AdultBlocking cc; cc_NewRegisteredDomains cc; cc_Typosquatting cc] ->
    Forall (answers P) (option_list o)) as Hone.
  { intros [f|] Ho; constructor; [by apply Hf|done]. }
  assert (forall o, o ∈ [cc_GeneralSafeSearch cc; cc_YouTubeSafeSearch cc] ->
    Forall (answers P) (ufRequestFilter <$> option_list o)) as Huf.
  { intros [f|] Ho; constructor; [by apply Hs|done]. }
  split_and!; try apply Hone; try apply Huf; try done; set_solver.
Qed.

Lemma elem_of_entries_of id svc dr b q lists : (id, svc, dr) ∈ entries_of b q lists ->
  exists l, l ∈ lists /\ id = lf_id l /\ svc = if b then lf_svcID l else EmptyString.
Proof.
  unfold entries_of. intros (l & Hl & E)%list_elem_of_omap. destruct (lf_match l q); simplify_eq/=. by exists l.
Qed.

(** The lists whose own ID is allowed with any rule. *)
Lemma list_entries_allowed P cc req id svc dr rule : cc_ok P cc ->
  (id, svc, dr) ∈ list_entries (composite_New cc) req -> P (id, rule).
Proof.
  intros Hok [[Hin|Hin]%elem_of_app|Hin]%elem_of_app.
  - simpl in Hin. destruct (cc_Custom cc) as [cu|] eqn:Ec; simpl in Hin; [|by apply not_elem_of_nil in Hin].
    destruct (cu _); simpl in Hin; [|by apply not_elem_of_nil in Hin]. apply list_elem_of_singleton in Hin.
    simplify_eq. apply (ok_custom P cc Hok). by rewrite Ec.
  - apply elem_of_entries_of in Hin as (l & Hl & -> & _). apply (ok_rule_lists P cc Hok). set_solver.
  - apply elem_of_entries_of in Hin as (l & Hl & -> & _). apply (ok_rule_lists P cc Hok). set_solver.
Qed.

Lemma sourced_allowed P cc req r : cc_ok P cc ->
  sourced (all_entries (composite_New cc) req) (list_entries (composite_New cc) req) r -> P (MatchedRule r).
Proof.
  intros Hok [(id & svc & dr & text & Hin & white & _ & ->)|(_ & id & svc & dr & Hin & _ & Hid)].
  - assert (P (id, if bool_decide (id = IDBlockedService) then svc else text)) as HP; [|by destruct white].
    unfold all_entries in Hin. rewrite app_assoc in Hin. apply elem_of_app in Hin as [Hin|Hin].
    + by eapply list_entries_allowed.
    + apply elem_of_entries_of in Hin as (l & Hl & -> & ->).
      destruct (ok_svc_lists P cc Hok l Hl) as [-> HP]. by rewrite bool_decide_eq_true_2.
  - rewrite Hid. by eapply list_entries_allowed.
Qed.

Lemma answer_allowed P cc resp n r : cc_ok P cc ->
  from_entry (answer_entries (composite_New cc) resp n) r -> P (MatchedRule r).
Proof.
  intros Hok (id & svc & dr & text & Hin & white & _ & ->).
  assert (P (id, if bool_decide (id = IDBlockedService) then svc else text)) as HP; [|by destruct white].
  apply elem_of_app in Hin as [Hin|[Hin|[Hin|Hin]%elem_of_app]%elem_of_app].
  - simpl in Hin. destruct (cc_Custom cc) as [cu|] eqn:Ec; simpl in Hin; [|by apply not_elem_of_nil in Hin].
    destruct (cu _); simpl in Hin; [|by apply not_elem_of_nil in Hin]. apply list_elem_of_singleton in Hin.
    simplify_eq. apply (ok_custom P cc Hok). by rewrite Ec.
  - apply elem_of_entries_of in Hin as (l & Hl & -> & _). apply (ok_rule_lists P cc Hok). set_solver.
  - apply elem_of_entries_of in Hin as (l & Hl & -> & _). apply (ok_rule_lists P cc Hok). set_solver.
  - apply elem_of_entries_of in Hin as (l & Hl & -> & ->).
    destruct (ok_svc_lists P cc Hok l Hl) as [-> HP]. by rewrite bool_decide_eq_true_2.
Qed.

Lemma composite_allowed P cc req :
  cc_ok P cc -> host_ok req -> entries_ok (all_entries (composite_New cc) req) ->
  exists ro, FilterRequest (composite_New cc) req = Ret (Ok ro) /\ forall r, ro = Some r -> P (MatchedRule r).
Proof.
  intros Hok Hreq He. pose proof Hreq as [[(q & qs & Hq & _) _] _].
  destruct (rule_lists_sourced (composite_New cc) req q qs Hq He) as (ro & fc & E & Hs).
  assert (forall r, ro = Some r -> P (MatchedRule r)) as Hro.
  { intros r ->. apply (sourced_allowed P cc req r Hok). destruct (Hs r eq_refl) as [Hr|Hr], fc; [left|by left|right|by right].
    - eapply from_entry_sub; [exact Hr|]. unfold all_entries. set_solver.
    - eapply from_rewrite_sub; [exact Hr|]. unfold list_entries. set_solver. }
  destruct (run_filters_answers P _ req (cc_ok_order P cc Hok) Hreq) as (ro' & Er & Hro').
  unfold FilterRequest. rewrite E, composite_New_order. simpl. rewrite Er. simpl.
  assert (exists ro0, Ret match ro' with Some _ => Ok ro' | None => Ok ro end = Ret (Ok ro0 : result error _) /\
    forall r, ro0 = Some r -> P (MatchedRule r)) as Hgo by (destruct ro'; by eexists).
  destruct ro as [r|]; [|exact Hgo].
  assert (exists ro0, Ret (Ok (Some r)) = Ret (Ok ro0 : result error _) /\
    forall r, ro0 = Some r -> P (MatchedRule r)) as Hstop by (by exists (Some r)).
  destruct r; try exact Hstop. destruct fc; [exact Hstop|exact Hgo].
Qed.

(** *** Configurations *)

Lemma cc_ok_empty P : cc_ok P empty_composite.
Proof.
  split; simpl.
  - intros f Hf. set_solver.
  - intros f Hf. set_solver.
  - done.
  - by intros rule [].
  - by intros l rule []%elem_of_nil.
  - by intros l []%elem_of_nil.
Qed.

(** Membership in an explicit list. *)
Ltac in_list := rewrite !elem_of_cons; tauto.

(** Filters are switched on one by one. *)
Lemma set_if_Some {A B} cond (f : option A) (fn : A -> B) old g : Some g = set_if cond f fn old ->
  Some g = old \/ (cond = true /\ exists x, f = Some x /\ g = fn x).
Proof. unfold set_if. destruct f as [x|], cond; intros; simplify_eq; eauto 6. Qed.

Lemma setDomainFilters_ok (P : string * string -> Prop) s cc c : fs_ok s -> cc_ok P cc ->
  (cg_Enabled c = true -> forall cat, cat ∈ cg_IDs c -> P (IDCategory, cat)) -> cc_ok P (setDomainFilters s cc c).
Proof.
  intros Hs Hcc HP. unfold setDomainFilters. destruct (cg_Enabled c); simpl; [|done]. case_bool_decide; [done|].
  destruct Hcc as [Hf Hss Hc Hcu Hl Hv]. split; simpl; try done. specialize (HP eq_refl). clear -Hs Hc HP FC.
  revert Hc HP. generalize (cc_CategoryFilters cc). induction (cg_IDs c) as [|id ids IH]; intros fs Hc HP; simpl; [done|].
  apply IH; [|set_solver]. pose proof (ok_domain s Hs id) as Hd. unfold prevDomainFilter in Hd.
  destruct (fs_domainFilters s !! id) as [[df|]|]; [|done..]. destruct (Hd df eq_refl) as (Hok & Hcat & Hl).
  apply Forall_app. split; [done|]. constructor; [|done]. apply domain_answers; [done|]. rewrite Hcat, Hl.
  apply HP. by left.
Qed.

Lemma setEnabledParental_ok (P : string * string -> Prop) s cc c : fs_ok s -> cc_ok P cc ->
  (forall r, parental_allows s c r -> P r) -> cc_ok P (setEnabledParental newID s cc c).
Proof.
  intros Hs Hcc HP. unfold setEnabledParental. apply setDomainFilters_ok; [done| |].
  2:{ intros He cat Hc. apply HP. by constructor. }
  destruct Hcc as [Hf Hss Hc Hcu Hl Hv]. split; simpl; try done.
  - intros f Hin. rewrite !elem_of_cons in Hin. destruct Hin as [E|[E|[E|[E|E]]]]; try (apply Hf; in_list).
    apply set_if_Some in E as [E|(Hon & x & Ex & ->)]; [apply Hf; in_list|].
    apply hash_answers; [apply (ok_hash s Hs); rewrite Ex; in_list|]. intros rule. apply HP. by econstructor.
  - intros f Hin. rewrite !elem_of_cons in Hin. destruct Hin as [E|[E|E]]; [| |by apply not_elem_of_nil in E];
      apply set_if_Some in E as [E|(Hon & x & Ex & ->)]; try (apply Hss; in_list);
      apply safe_search_answers; intros rule; apply HP.
    + by apply allow_general.
    + by apply allow_youtube.
  - intros l. destruct (fs_services s) as [svcs|] eqn:Ev; [|apply Hv]. case_bool_decide; [apply Hv|].
    intros (f & -> & (id & Hid & Hf')%list_elem_of_omap)%list_elem_of_fmap. simpl.
    destruct (ok_service s Hs svcs id f Ev Hf') as [-> ->]. split; [done|]. apply HP. by constructor.
Qed.

Lemma lists_for_ok rls orig ids l : lists_ok rls -> l ∈ lists_for rls orig ids -> l ∈ orig \/ lf_id l ∈ ids.
Proof.
  intros Hr. unfold lists_for. rewrite AppendForListIDs_omap. simpl. intros [Hl|Hl]%elem_of_app; [by left|right].
  apply list_elem_of_fmap in Hl as (f & -> & (id & Hid & Hf)%list_elem_of_omap).
  apply fmap_Some in Hf as (d & Hd & ->). simpl. by rewrite (Hr id d Hd).
Qed.

Lemma setCustomRuleLists_ok (P : string * string -> Prop) rls cc c : lists_ok rls -> cc_ok P cc ->
  (crl_Enabled c = true -> forall id rule, id ∈ crl_IDs c -> P (id, rule)) -> cc_ok P (setCustomRuleLists rls cc c).
Proof.
  intros Hr Hcc HP. unfold setCustomRuleLists. destruct (crl_Enabled c); simpl; [|done]. case_bool_decide; [done|].
  destruct Hcc as [Hf Hss Hc Hcu Hl Hv]. split; simpl; try done. intros l rule [Hin|Hin]%elem_of_app; [|apply Hl; set_solver].
  apply lists_for_ok in Hin as [Hin|Hin]; [apply Hl; set_solver|by apply HP|done].
Qed.

Lemma setRuleLists_ok (P : string * string -> Prop) rls cc c : lists_ok rls -> cc_ok P cc ->
  (cr_Enabled c = true -> forall id rule, id ∈ cr_IDs c -> P (id, rule)) -> cc_ok P (setRuleLists rls cc c).
Proof.
  intros Hr Hcc HP. unfold setRuleLists. destruct (cr_Enabled c); simpl; [|done]. case_bool_decide; [done|].
  destruct Hcc as [Hf Hss Hc Hcu Hl Hv]. split; simpl; try done. intros l rule [Hin|Hin]%elem_of_app; [apply Hl; set_solver|].
  apply lists_for_ok in Hin as [Hin|Hin]; [apply Hl; set_solver|by apply HP|done].
Qed.

Lemma setSafeBrowsing_ok (P : string * string -> Prop) s cc c : fs_ok s -> cc_ok P cc ->
  (csb_Enabled c = true -> forall r, browsing_allows s c r -> P r) -> cc_ok P (setSafeBrowsing newID rows s cc c).
Proof.
  intros Hs Hcc HP. unfold setSafeBrowsing. destruct (csb_Enabled c); simpl; [|done]. specialize (HP eq_refl).
  destruct Hcc as [Hf Hss Hc Hcu Hl Hv]. split; simpl; try done.
  intros f Hin. rewrite !elem_of_cons in Hin. destruct Hin as [E|[E|[E|[E|E]]]]; try (apply Hf; in_list);
    apply set_if_Some in E as [E|(Hon & x & Ex & ->)]; try (apply Hf; in_list).
  - apply hash_answers; [apply (ok_hash s Hs); rewrite Ex; in_list|]. intros rule. apply HP. by apply allow_dangerous.
  - apply hash_answers; [apply (ok_hash s Hs); rewrite Ex; in_list|]. intros rule. apply HP. by apply allow_new.
  - apply typo_answers; [by apply (ok_typo s Hs)|]. intros rule. apply HP.
    destruct (csb_Typosquatting c) as [t|] eqn:Et; [|done]. by eapply allow_typo.
Qed.

(** A schedule has an entry for each day of the week, as the array type of the code
    demands. *)
Definition schedule_ok (c : ConfigParental) : Prop :=
  forall p, cp_PauseSchedule c = Some p -> length (Week p) = 7%nat.

Lemma schedule_Contains_total p now : length (Week p) = 7%nat -> exists b, schedule_Contains p now = Ret b.
Proof.
  intros Hl. unfold schedule_Contains.
  assert (0 <= Weekday (TimeZone p) now < 7) as Hd by (apply Z.mod_pos_bound; lia).
  destruct (lookup_lt_is_Some_2 (Week p) (Z.to_nat (Weekday (TimeZone p) now))) as [r Hr]; [lia|].
  rewrite (index_Some _ _ _ Hr). simpl. destruct r as [r|]; [|by eexists]. case_bool_decide; by eexists.
Qed.

Lemma setParental_ok (P : string * string -> Prop) s now cc c : fs_ok s -> cc_ok P cc -> schedule_ok c ->
  (parental_active now c -> forall r, parental_allows s c r -> P r) ->
  exists cc', setParental newID s now cc c = Ret cc' /\ cc_ok P cc'.
Proof.
  intros Hs Hcc Hsch HP. unfold setParental, parental_active in *. destruct (cp_Enabled c); simpl; [|by exists cc].
  destruct (cp_PauseSchedule c) as [p|] eqn:Ep.
  - destruct (schedule_Contains_total p now (Hsch p Ep)) as [b Eb]. rewrite Eb in *. simpl. destruct b; [by exists cc|].
    eexists. split; [done|]. apply setEnabledParental_ok; [done..|]. by apply HP.
  - simpl. eexists. split; [done|]. apply setEnabledParental_ok; [done..|]. by apply HP.
Qed.

Lemma client_composite_ok s rls now c : fs_ok s -> lists_ok rls -> schedule_ok (cfc_Parental c) ->
  exists cc, client_composite newID rows s rls now c = Ret cc /\ cc_ok (client_allows s now c) cc.
Proof.
  intros Hs Hr Hsch. unfold client_composite.
  destruct (setParental_ok (client_allows s now c) s now empty_composite (cfc_Parental c) Hs (cc_ok_empty _) Hsch)
    as (cc & -> & Hcc); [intros ? r ?; by apply allow_parental|]. simpl. eexists. split; [done|].
  eapply setCustomRuleLists_ok in Hcc; [|exact Hr|intros ? id rule; by apply (allow_custom_list s now c)].
  eapply setRuleLists_ok in Hcc; [|exact Hr|intros ? id rule; by apply (allow_list s now c)].
  eapply setSafeBrowsing_ok in Hcc; [|exact Hs|intros ? r ?; by apply (allow_browsing s now c)].
  destruct Hcc as [Hf Hss Hc Hcu Hl Hv]. split; simpl; try done.
  intros rule. destruct (ccf_Enabled (cfc_CustomFilter c)) eqn:E; [by constructor|apply Hcu].
Qed.

Lemma config_filter s rls now c req :
  fs_ok s -> lists_ok rls -> schedule_ok (cfc_Parental c) -> host_ok req ->
  exists f, forClient newID rows s rls now c = Ret f /\
    (entries_ok (all_entries f req) ->
     exists ro, FilterRequest f req = Ret (Ok ro) /\ forall r, ro = Some r -> client_allows s now c (MatchedRule r)).
Proof.
  intros Hs Hr Hsch Hreq. unfold forClient.
  destruct (client_composite_ok s rls now c Hs Hr Hsch) as (cc & -> & Hcc). simpl. eexists. split; [done|].
  intros He. by apply composite_allowed.
Qed.

(** The filter of the response. *)
Lemma config_response s rls now c f hint_string resp :
  fs_ok s -> lists_ok rls -> schedule_ok (cfc_Parental c) -> forClient newID rows s rls now c = Ret f ->
  (forall n, n ∈ m_Answer (fr_DNS resp) ≫= answer_names hint_string -> entries_ok (answer_entries f resp n)) ->
  exists ro, FilterResponse hint_string f resp = Ret ro /\
    forall r, ro = Some r -> modified r = false /\ client_allows s now c (MatchedRule r).
Proof.
  intros Hs Hr Hsch. unfold forClient. destruct (client_composite_ok s rls now c Hs Hr Hsch) as (cc & -> & Hcc).
  simpl. intros [= <-] He. destruct (FilterResponse_source hint_string _ resp He) as (ro & E & Hro).
  exists ro. split; [done|]. intros r ->. destruct Hro as (_ & n & _ & _ & _ & Hfrom & Hm). split; [done|].
  by eapply answer_allowed.
Qed.

(** *** Refreshes keep the storage in order *)

Lemma refreshDomainFilter_ok s env cat file df :
  (refreshDomainFilter s env cat file).1 = Ok df -> df_ok df /\ df_catID df = cd_id cat /\ df_resListID df = IDCategory.
Proof.
  unfold refreshDomainFilter, initDomainFilter. destruct (refreshable_New _ _) as [refr|]; [|done].
  destruct (refreshable_Refresh refr env file false) as [data file']. simpl.
  destruct (domain_refresh (NewDomainFilter (cd_id cat) IDCategory (fs_subDomainNum s)) data) as [[e|] df'] eqn:E; [done|].
  simpl. intros [= <-]. unfold domain_refresh in E. destruct data as [b|]; [|done].
  destruct (resetDomains b) as [[d n]|]; [|done]. injection E as <-. split_and!; [|done..].
  exists d. split; [done|]. apply cache_ok_clear.
Qed.

Lemma refresh_categories_ok s envs cats acc :
  fs_ok s -> (forall id f, default None (acc.1.1 !! id) = Some f -> df_ok f /\ df_catID f = id /\ df_resListID f = IDCategory) ->
  forall id f, default None ((foldl (refresh_category s envs) acc cats).1.1 !! id) = Some f ->
  df_ok f /\ df_catID f = id /\ df_resListID f = IDCategory.
Proof.
  intros Hs. revert acc. induction cats as [|cat cats IH]; intros [[dfs files] errs] Hacc; simpl in *; [done|].
  apply IH. intros id f. pose proof (refreshDomainFilter_ok s (envs (cd_id cat)) cat (files !! cd_id cat)) as Hr.
  destruct (refreshDomainFilter s (envs (cd_id cat)) cat (files !! cd_id cat)) as [res file].
  destruct (resultDomainFilter s (cd_id cat) res) as [df errs'] eqn:E. simpl in *.
  destruct (decide (id = cd_id cat)) as [->|Hne]; [rewrite lookup_insert_eq|by rewrite lookup_insert_ne by done; apply Hacc].
  simpl. intros ->. unfold resultDomainFilter in E. destruct res as [df|e]; simplify_eq; [by apply Hr|].
  by apply (ok_domain s Hs).
Qed.

Lemma svcs_toInternal_ok svcs useCache acc acc' :
  svcs_toInternal svcs useCache acc = Ret acc' ->
  (forall id f, acc.1.1 !! id = Some f -> bf_id f = IDBlockedService /\ bf_svcID f = id) ->
  forall id f, acc'.1.1 !! id = Some f -> bf_id f = IDBlockedService /\ bf_svcID f = id.
Proof.
  revert acc. induction svcs as [|svc svcs IH]; intros [[services errs] coll]; simpl; [by intros [= <-]|].
  unfold svc_toInternal. destruct svc as [svc|]; simpl; [|done].
  destruct (NewBlockedServiceID (is_ID svc)) as [svcID|e]; simpl; intros Hrec Hacc; (eapply IH; [exact Hrec|]); simpl; [|done].
  intros id f [[<- <-]|[_ ?]]%lookup_insert_Some; [done|by apply Hacc].
Qed.

Lemma fs_update_ok s services general youtube dfs idx files errs : fs_ok s ->
  (forall id f, default None (dfs !! id) = Some f -> df_ok f /\ df_catID f = id /\ df_resListID f = IDCategory) ->
  (forall svcs id f, services = Some svcs -> svc_services svcs !! id = Some f ->
    bf_id f = IDBlockedService /\ bf_svcID f = id) ->
  fs_ok (fs_update s services general youtube dfs idx files errs).
Proof. intros Hs Hd Hv. split; [apply Hs|apply Hs|exact Hd|exact Hv]. Qed.

Lemma loadCategoryFilters_ok s env accept : fs_ok s ->
  fs_ok (loadCategoryFilters s env accept).2 /\
  forall dfs, (loadCategoryFilters s env accept).1 = Ok dfs -> forall id f, default None (dfs !! id) = Some f ->
    df_ok f /\ df_catID f = id /\ df_resListID f = IDCategory.
Proof.
  intros Hs. assert (forall e idx files, fs_ok (fs_update s (fs_services s) (fs_safeSearchGeneral s)
    (fs_safeSearchYouTube s) (fs_domainFilters s) idx files e)) as Hu.
  { intros e idx files. apply fs_update_ok; [done|apply (ok_domain s Hs)|apply (ok_service s Hs)]. }
  unfold loadCategoryFilters. destruct (fs_catIdxRefr s) as [refr|].
  2:{ split; [done|]. intros ? [= <-] id f. by rewrite lookup_empty. }
  unfold loadCategoryIndex. destruct (refreshable_Refresh _ _ _ _) as [[b|] file]; [|split; [apply Hu|done]].
  destruct (unmarshal_categories b) as [resp|]; [|split; [apply Hu|done]].
  destruct (categories_toInternal resp) as [fls errs]. unfold refreshDomainFilters.
  set (s1 := fs_update _ _ _ _ _ _ _ errs).
  assert (fs_ok s1) as Hs1 by (apply fs_update_ok; [apply Hu|apply (ok_domain s Hs)|apply (ok_service s Hs)]).
  pose proof (refresh_categories_ok s1 (fe_cats env) fls (∅, fs_catFiles s1, []) Hs1) as Hc.
  destruct (foldl _ _ _) as [[dfs files] errs']. simpl in *.
  assert (fs_ok (fs_update s1 (fs_services s) (fs_safeSearchGeneral s) (fs_safeSearchYouTube s) (fs_domainFilters s)
    file files errs')) as Hs2 by (apply fs_update_ok; [done|apply (ok_domain s Hs)|apply (ok_service s Hs)]).
  destruct (fe_ctx env); (split; [exact Hs2|]); simpl; [done|]. intros ? [= <-]. apply Hc.
  intros id f. by rewrite lookup_empty.
Qed.

Lemma refreshServices_ok s env accept r : fs_ok s -> refreshServices s env accept = Ret r ->
  fs_ok r.2 /\ fs_domainFilters r.2 = fs_domainFilters s.
Proof.
  intros Hs. unfold refreshServices. destruct (fs_services s) as [svcs|] eqn:Ev; [|by intros [= <-]].
  assert (forall svcs', svc_Refresh svcs (fe_services env) (fs_serviceResCacheEnabled s) accept = Ret svcs' ->
    forall id f, svc_services svcs'.1.2 !! id = Some f -> bf_id f = IDBlockedService /\ bf_svcID f = id) as Hsvc.
  { intros svcs'. unfold svc_Refresh, svc_loadIndex.
    destruct (refreshable_Refresh _ _ _ _) as [[b|] file]; [|intros [= <-] id f; exact (ok_service s Hs svcs id f Ev)].
    destruct (unmarshal_services b) as [resp|]; [|intros [= <-] id f; exact (ok_service s Hs svcs id f Ev)].
    unfold index_services.
    destruct (svcs_toInternal resp _ (∅, [], [])) as [[[services errs] coll]|] eqn:E; simpl; [|done].
    destruct (Join errs); intros [= <-]; [intros id f; exact (ok_service s Hs svcs id f Ev)|].
    apply (svcs_toInternal_ok _ _ _ _ E). intros id f Hf. simpl in Hf. by rewrite lookup_empty in Hf. }
  destruct (svc_Refresh _ _ _ _) as [[[err svcs'] coll]|]; simpl; [|done]. intros [= <-]. split; [|done].
  apply fs_update_ok; [done|apply (ok_domain s Hs)|]. intros ? id f [= <-]. by apply (Hsvc _ eq_refl).
Qed.

Lemma refreshSafeSearch_ok s env accept : fs_ok s -> fs_ok (refreshSafeSearch s env accept).2.
Proof.
  intros Hs. unfold refreshSafeSearch. destruct (refresh_opt _ _ _) as [[e|] g]; simpl.
  - apply fs_update_ok; [done|apply (ok_domain s Hs)|apply (ok_service s Hs)].
  - destruct (refresh_opt _ _ _) as [e y]. simpl.
    repeat apply fs_update_ok; try done; first [apply (ok_domain s Hs)|apply (ok_service s Hs)].
Qed.

(** **** What a refresh leaves alone *)

Definition search_ids (s : FilterStorage) : option string * option string :=
  ((fun f => bf_id (ss_flt f)) <$> fs_safeSearchGeneral s, (fun f => bf_id (ss_flt f)) <$> fs_safeSearchYouTube s).

(** The filters that have a refresh of their own are the same, and the IDs of the
    safe searches are. *)
Definition fs_frame (s s' : FilterStorage) : Prop :=
  fs_adult s' = fs_adult s /\ fs_dangerous s' = fs_dangerous s /\ fs_newlyRegistered s' = fs_newlyRegistered s /\
  fs_typosquatting s' = fs_typosquatting s /\ search_ids s' = search_ids s.

Lemma fs_frame_trans s1 s2 s3 : fs_frame s1 s2 -> fs_frame s2 s3 -> fs_frame s1 s3.
Proof. unfold fs_frame. intros (-> & -> & -> & -> & ->) ?. done. Qed.

Lemma loadCategoryFilters_frame s env accept : let s' := (loadCategoryFilters s env accept).2 in
  fs_frame s s' /\ fs_domainFilters s' = fs_domainFilters s.
Proof.
  simpl. unfold loadCategoryFilters. destruct (fs_catIdxRefr s); [|done]. unfold loadCategoryIndex.
  destruct (refreshable_Refresh _ _ _ _) as [[b|] file]; [|done]. destruct (unmarshal_categories b); [|done].
  destruct (categories_toInternal _). unfold refreshDomainFilters. destruct (foldl _ _ _) as [[??]?].
  by destruct (fe_ctx env).
Qed.

Lemma refreshServices_frame s env accept r : refreshServices s env accept = Ret r -> fs_frame s r.2.
Proof.
  unfold refreshServices. destruct (fs_services s) as [svcs|]; [|by intros [= <-]].
  destruct (svc_Refresh _ _ _ _) as [[[err svcs'] coll]|]; simpl; [|done]. by intros [= <-].
Qed.

Lemma refresh_opt_id f env accept :
  (fun f => bf_id (ss_flt f)) <$> (refresh_opt f env accept).2 = (fun f => bf_id (ss_flt f)) <$> f.
Proof.
  destruct f as [f|]; [|done]. simpl. unfold ss_Refresh. destruct (refreshable_Refresh _ _ _ _) as [data file].
  by destruct data.
Qed.

Lemma refreshSafeSearch_frame s env accept : let s' := (refreshSafeSearch s env accept).2 in
  fs_frame s s' /\ fs_domainFilters s' = fs_domainFilters s.
Proof.
  simpl. unfold fs_frame, refreshSafeSearch.
  pose proof (refresh_opt_id (fs_safeSearchGeneral s) (fe_general env) accept) as Hg.
  destruct (refresh_opt (fs_safeSearchGeneral s) _ _) as [[e|] g]; simpl in *.
  - split_and!; try done. by apply (f_equal2 pair).
  - pose proof (refresh_opt_id (fs_safeSearchYouTube s) (fe_youtube env) accept) as Hy.
    destruct (refresh_opt (fs_safeSearchYouTube s) _ _) as [e y]. simpl in *.
    split_and!; try done. by apply (f_equal2 pair).
Qed.

Lemma fs_refresh_ok s env accept err s' : fs_ok s -> fs_refresh s env accept = Ret (err, s') ->
  fs_ok s' /\ fs_frame s s' /\ (err <> None -> fs_domainFilters s' = fs_domainFilters s).
Proof.
  intros Hs. unfold fs_refresh. destruct (loadCategoryFilters_ok s env accept Hs) as [Hs1 Hdfs].
  destruct (loadCategoryFilters_frame s env accept) as [Hf1 Hd1].
  destruct (loadCategoryFilters s env accept) as [[dfs|e] s1]; simpl in *; [|by intros [= <- <-]].
  destruct (refreshServices s1 env accept) as [r|] eqn:Er; simpl; [|done].
  destruct (refreshServices_ok s1 env accept r Hs1 Er) as [Hs2 Hd2].
  pose proof (fs_frame_trans _ _ _ Hf1 (refreshServices_frame s1 env accept r Er)) as Hf2.
  destruct r as [[e|] s2]; simpl in *.
  { intros [= <- <-]. split_and!; [done..|]. by rewrite Hd2. }
  pose proof (refreshSafeSearch_ok s2 env accept Hs2) as Hs3.
  destruct (refreshSafeSearch_frame s2 env accept) as [Hf3 Hd3].
  apply (fs_frame_trans _ _ _ Hf2) in Hf3.
  destruct (refreshSafeSearch s2 env accept) as [[e|] s3]; simpl in *; intros [= <- <-].
  - split_and!; [done..|]. by rewrite Hd3, Hd2.
  - split_and!; [|done..]. apply fs_update_ok; [done|by apply Hdfs|apply (ok_service s3 Hs3)].
Qed.

(** *** What happens to a storage *)

Inductive hash_kind := HashAdult | HashDangerous | HashNewlyRegistered.

Definition get_hash (s : FilterStorage) (k : hash_kind) : option HashFilter :=
  match k with
  | HashAdult => fs_adult s
  | HashDangerous => fs_dangerous s
  | HashNewlyRegistered => fs_newlyRegistered s
  end.

Definition set_filters (s : FilterStorage) (adult dangerous newly : option HashFilter) (typo : option TypoFilter)
    (dfs : gmap string (option DomainFilter)) : FilterStorage := {|
  fs_services := fs_services s; fs_adult := adult; fs_dangerous := dangerous; fs_newlyRegistered := newly;
  fs_safeSearchGeneral := fs_safeSearchGeneral s; fs_safeSearchYouTube := fs_safeSearchYouTube s;
  fs_typosquatting := typo; fs_domainFilters := dfs; fs_catIdxRefr := fs_catIdxRefr s;
  fs_catIdxFile := fs_catIdxFile s; fs_catFiles := fs_catFiles s; fs_catStaleness := fs_catStaleness s;
  fs_subDomainNum := fs_subDomainNum s; fs_serviceResCacheEnabled := fs_serviceResCacheEnabled s; fs_errs := fs_errs s;
|}.

Definition set_hash (s : FilterStorage) (k : hash_kind) (f : HashFilter) : FilterStorage :=
  match k with
  | HashAdult => set_filters s (Some f) (fs_dangerous s) (fs_newlyRegistered s) (fs_typosquatting s) (fs_domainFilters s)
  | HashDangerous => set_filters s (fs_adult s) (Some f) (fs_newlyRegistered s) (fs_typosquatting s) (fs_domainFilters s)
  | HashNewlyRegistered => set_filters s (fs_adult s) (fs_dangerous s) (Some f) (fs_typosquatting s) (fs_domainFilters s)
  end.

(** A refresh of the storage, and a request to, or a refresh of, one of the filters
    which it shares.  Requests to a rule list change the cache of the list only. *)
Inductive fs_event :=
  | FsRefresh (initial : bool) (env : FilterEnv)
  | FsHash (k : hash_kind) (e : hf_event)
  | FsTypo (e : tf_event)
  | FsCategory (id : string) (req : Request).

Definition fs_exec (s : FilterStorage) (e : fs_event) : outcome FilterStorage :=
  match e with
  | FsRefresh initial env => let! r := if initial then fs_RefreshInitial s env else fs_Refresh s env in Ret r.2
  | FsHash k e =>
      match get_hash s k with
      | Some f => let! f := hf_exec f e in Ret (set_hash s k f)
      | None => Ret s
      end
  | FsTypo e =>
      match fs_typosquatting s with
      | Some f => let! f := tf_step rows f e in
          Ret (set_filters s (fs_adult s) (fs_dangerous s) (fs_newlyRegistered s) (Some f) (fs_domainFilters s))
      | None => Ret s
      end
  | FsCategory id req =>
      match prevDomainFilter s id with
      | Some f => let! r := domain_FilterRequest f req in
          Ret (set_filters s (fs_adult s) (fs_dangerous s) (fs_newlyRegistered s) (fs_typosquatting s)
                 (<[id := Some r.2]> (fs_domainFilters s)))
      | None => Ret s
      end
  end.

(** The requests are proper, and so are the domains of the typosquatting index. *)
Definition fs_event_ok (e : fs_event) : Prop :=
  match e with
  | FsRefresh _ _ => True
  | FsHash _ e => hf_event_ok e
  | FsTypo e => tf_event_ok e
  | FsCategory _ req => host_ok req
  end.

(** A storage as [New] leaves it: nothing is loaded or cached. *)
Record fs_new (s : FilterStorage) : Prop := {
  new_hash k f : get_hash s k = Some f -> hf_resCache f = cempty;
  new_typo f : fs_typosquatting s = Some f -> f = NewTypoFilter (tf_replCons f) (tf_id f);
  new_domain : fs_domainFilters s = ∅;
  new_services svcs : fs_services s = Some svcs -> svc_services svcs = ∅;
}.

(** The storages that a running server may have. *)
Definition fs_reached (s : FilterStorage) : Prop :=
  exists s0 evs, fs_new s0 /\ Forall fs_event_ok evs /\ for_each fs_exec s0 evs = Ret s.

Definition lists_reached (rls : RuleListStorage) : Prop :=
  exists rls0 evs, rs_ruleLists rls0 = ∅ /\ rls = foldl rls_exec rls0 evs.

Lemma elem_of_hashes s f : Some f ∈ [fs_adult s; fs_dangerous s; fs_newlyRegistered s] <-> exists k, get_hash s k = Some f.
Proof.
  rewrite !elem_of_cons, elem_of_nil. split.
  - intros [E|[E|[E|[]]]]; [by exists HashAdult|by exists HashDangerous|by exists HashNewlyRegistered].
  - intros [[] E]; simpl in E; rewrite E; auto.
Qed.

Lemma fs_new_ok s : fs_new s -> fs_ok s.
Proof.
  intros [Hh Ht Hd Hv]. split.
  - intros f [k Hk]%elem_of_hashes. unfold hf_ok. rewrite (Hh k f Hk). apply cache_ok_empty.
  - intros f Hf. rewrite (Ht f Hf). apply tf_named_new.
  - intros id f. unfold prevDomainFilter. by rewrite Hd, lookup_empty.
  - intros svcs id f Hs. by rewrite (Hv svcs Hs), lookup_empty.
Qed.

Lemma domain_request_ids f req r f' : domain_FilterRequest f req = Ret (r, f') ->
  df_catID f' = df_catID f /\ df_resListID f' = df_resListID f.
Proof.
  unfold domain_FilterRequest. destruct (cget _ _) as [[item|] c]; [by intros [= _ <-]|].
  case_if; [by intros [= _ <-]|]. cbn [df_with_cache df_domains]. destruct (df_domains f); [|done]. by intros [= _ <-].
Qed.

Lemma set_hash_ok s k f : fs_ok s -> hf_ok f -> fs_ok (set_hash s k f).
Proof.
  intros [Hh Ht Hd Hv] Hf. split; [|by destruct k..].
  intros f' [k' Hk]%elem_of_hashes. destruct k, k'; simpl in Hk;
    first [injection Hk as <-; done | apply Hh; rewrite Hk, !elem_of_cons; auto].
Qed.

Lemma fs_exec_ok s e s' : fs_ok s -> fs_event_ok e -> fs_exec s e = Ret s' -> fs_ok s'.
Proof.
  intros Hs He. destruct e as [initial env|k e|e|id req]; simpl in *.
  - destruct initial.
    + unfold fs_RefreshInitial. destruct (fs_refresh s env true) as [[err s1]|] eqn:E; simpl; [|done].
      intros [= <-]. by eapply fs_refresh_ok.
    + unfold fs_Refresh. destruct (fs_refresh s env false) as [[err s1]|] eqn:E; simpl; [|done].
      intros [= <-]. destruct (fs_refresh_ok _ _ _ _ _ Hs E) as [Hs1 _].
      apply fs_update_ok; [done|apply (ok_domain s1 Hs1)|apply (ok_service s1 Hs1)].
  - destruct (get_hash s k) as [f|] eqn:Ek; [|by intros [= <-]].
    destruct (hf_exec_ok f e) as (f' & -> & Hf & _); [apply (ok_hash s Hs), elem_of_hashes; by exists k|done|].
    simpl. intros [= <-]. by apply set_hash_ok.
  - destruct (fs_typosquatting s) as [f|] eqn:Et; [|by intros [= <-]].
    destruct (tf_step rows f e) as [f'|] eqn:Ef; simpl; [|done]. intros [= <-].
    destruct (tf_step_named rows Hrows f e f' (ok_typo s Hs f Et) He Ef) as [Hf _].
    destruct Hs as [Hh Ht Hd Hv]. split; try done. by intros ? [= <-].
  - destruct (prevDomainFilter s id) as [f|] eqn:Ed; [|by intros [= <-]].
    destruct (ok_domain s Hs id f Ed) as (Hf & Hc & Hl). pose proof Hf as (d & Hd & _).
    destruct (domain_request f d req Hf Hd) as (f' & E & Hf' & _). pose proof (domain_request_ids _ _ _ _ E) as [Hc' Hl'].
    rewrite E. simpl. intros [= <-]. destruct Hs as [Hh Ht Hdf Hv]. split; try done.
    intros id' f1. unfold prevDomainFilter. cbn [set_filters fs_domainFilters]. destruct (decide (id' = id)) as [->|Hne].
    + rewrite lookup_insert_eq. simpl. intros [= <-]. split_and!; [done|congruence..].
    + rewrite lookup_insert_ne by done. apply Hdf.
Qed.

Lemma fs_reached_ok s : fs_reached s -> fs_ok s.
Proof.
  intros (s0 & evs & Hn & Hall & Hr). apply fs_new_ok in Hn. revert s0 Hn Hr.
  induction Hall as [|e evs He Hall IH]; intros s0 Hs0; simpl; [by intros [= <-]|].
  destruct (fs_exec s0 e) as [s1|] eqn:E; simpl; [|done]. apply IH. by eapply fs_exec_ok.
Qed.

Lemma lists_reached_ok rls : lists_reached rls -> lists_ok rls.
Proof.
  intros (rls0 & evs & Hn & ->) id d Hd.
  destruct (rls_run_ok (fun _ _ => True) evs rls0) as [_ Hl]; [done| |by apply (Hl id d Hd)].
  split; [done|]. intros id' d'. unfold prevRuleList. by rewrite Hn, lookup_empty.
Qed.

(** C4. The filter of a profile respects the profile's configuration.  Take a filter
    storage and a rule-list storage as any history of refreshes, successful or not, and
    of requests has left them (every typosquatting index with ASCII domains and bounded
    distances), any configuration of a profile (whose schedule, if any, has its seven
    days) and any request with a question of its own type, a valid blocking mode and an
    ASCII registrable domain.  Then a filter is made.  If the rules that match are told
    apart by their pointers and no matching rule list has the reserved ID of the blocked
    services, the filter answers without an error or a panic, and the list and the rule
    that the answer names are allowed by the configuration: the custom rules, a rule
    list, a blocked service, a category or a shared filter only if this very feature is
    enabled there, and those of the parental control only if it is on and not paused at
    this time. *)
Theorem config_respected s rls now c req :
  fs_reached s -> lists_reached rls -> schedule_ok (cfc_Parental c) -> host_ok req ->
  exists f, forClient newID rows s rls now c = Ret f /\
    (entries_ok (all_entries f req) ->
     exists ro, FilterRequest f req = Ret (Ok ro) /\ forall r, ro = Some r -> client_allows s now c (MatchedRule r)).
Proof. intros Hs Hr. apply config_filter; [by apply fs_reached_ok|by apply lists_reached_ok]. Qed.

(** C37. The shared filters stay in order.  Take a storage as any history of refreshes
    and requests has left it.  A refresh of the storage, initial or periodic, complete
    or ended by an error at any point, leaves every category filter under its own
    category, with its own list ID and with a cache that agrees with its domains, every
    list of a blocked service under its own service, and every hash-prefix filter with a
    cache that agrees with its hashes.  It leaves alone the hash-prefix and the
    typosquatting filters, which have refreshes of their own, and the IDs of the safe
    searches; and if it ends with an error, the category filters are the same as
    before. *)
Theorem storage_refresh_invariant s env accept err s' :
  fs_reached s -> fs_refresh s env accept = Ret (err, s') ->
  fs_ok s' /\ fs_frame s s' /\ (err <> None -> fs_domainFilters s' = fs_domainFilters s).
Proof. intros Hs. by apply fs_refresh_ok, fs_reached_ok. Qed.

End config_facts.

(** ** Concrete inputs *)

#[local] Existing Instance ref_miekg.
#[local] Existing Instance ref_miekg_spec.
#[local] Existing Instance ref_unicode.
#[local] Existing Instance toy_sha256.
#[local] Existing Instance tld_list.
#[local] Existing Instance ref_subdomains.
#[local] Existing Instance plain_urlfilter.
#[local] Existing Instance plain_urlfilter_spec.
#[local] Existing Instance no_svcb_params.
#[local] Existing Instance http_urls.
#[local] Existing Instance letter_index.
#[local] Existing Instance list_cache.
#[local] Existing Instance filter_cache.
#[local] Existing Instance filter_cache_spec.

(** An index of categories has one category with the letters of the index, and
    there are no services. *)
#[local] Instance one_category : StorageDecoders := {|
  unmarshal_services _ := Ok [];
  unmarshal_categories s := Ok {[s := Some {| cr_DownloadURL := "cats.example" |}]};
|}.

Definition some_filter_storage : FilterStorage := {|
  fs_services := None; fs_adult := Some new_hash_filter; fs_dangerous := None; fs_newlyRegistered := None;
  fs_safeSearchGeneral := None; fs_safeSearchYouTube := None; fs_typosquatting := None; fs_domainFilters := ∅;
  fs_catIdxRefr := Some (url_refreshable 100); fs_catIdxFile := None;
  fs_catFiles := {["ads"%string := {| fi_ModTime := 0; fi_Data := "ads.example" |}]};
  fs_catStaleness := 100; fs_subDomainNum := 4; fs_serviceResCacheEnabled := true; fs_errs := [];
|}.

Lemma some_filter_storage_new : fs_new some_filter_storage.
Proof. split; try done. by intros [] f [= <-]. Qed.

Lemma some_filter_storage_reached : fs_reached empty_rows some_filter_storage.
Proof. exists some_filter_storage, []. split; [apply some_filter_storage_new|]. by split. Qed.

(** The storage after a refusal and a refresh of the adult filter. *)
Definition used_filter_storage : FilterStorage :=
  match for_each (fs_exec empty_rows) some_filter_storage
    [FsHash HashAdult (HfRequest 1 (host_request "bad.example" some_constructor));
     FsHash HashAdult (HfRefresh (Err (ErrConst "net")))] with
  | Ret s => s
  | Panic _ => some_filter_storage
  end.

Lemma used_filter_storage_reached : fs_reached empty_rows used_filter_storage.
Proof.
  exists some_filter_storage, [FsHash HashAdult (HfRequest 1 (host_request "bad.example" some_constructor));
    FsHash HashAdult (HfRefresh (Err (ErrConst "net")))].
  split; [apply some_filter_storage_new|]. split; [|reflexivity].
  constructor; [apply host_request_well_formed|]. by repeat constructor.
Qed.

Definition some_parental (adult : bool) : ConfigParental := {|
  cp_Categories := {| cg_IDs := []; cg_Enabled := false |}; cp_PauseSchedule := None; cp_BlockedServices := [];
  cp_Enabled := true; cp_AdultBlockingEnabled := adult; cp_SafeSearchGeneralEnabled := true;
  cp_SafeSearchYouTubeEnabled := false;
|}.

Definition some_client (adult : bool) : ConfigClient := {|
  cfc_CustomFilter := {| ccf_Filter := None; ccf_Enabled := false |};
  cfc_CustomRuleList := {| crl_IDs := []; crl_Enabled := false |};
  cfc_Parental := some_parental adult;
  cfc_RuleList := {| cr_IDs := ["list"%string]; cr_Enabled := true |};
  cfc_SafeBrowsing := {| csb_Typosquatting := None; csb_Enabled := false; csb_DangerousDomainsEnabled := true;
                         csb_NewlyRegisteredDomainsEnabled := true |};
|}.

Lemma some_rl_storage_reached : lists_reached some_rl_storage.
Proof. by exists some_rl_storage, []. Qed.

Lemma entries_ok_nil : entries_ok [].
Proof. split; intros; by apply not_elem_of_nil in H. Qed.

Lemma config_respected_witness :
  exists f, forClient 1 empty_rows used_filter_storage some_rl_storage 0 (some_client true) = Ret f /\
  exists r, FilterRequest f (host_request "bad.example" some_constructor) = Ret (Ok (Some r)) /\
    client_allows used_filter_storage 0 (some_client true) (MatchedRule r).
Proof.
  destruct (config_respected 1 empty_rows) with (s := used_filter_storage) (rls := some_rl_storage) (now := 0)
    (c := some_client true) (req := host_request "bad.example" some_constructor) as (f & E & Hf).
  - intros a b. repeat split; unfold uints_ok; simpl; lia.
  - apply used_filter_storage_reached.
  - apply some_rl_storage_reached.
  - by intros p [=].
  - split; [apply host_request_well_formed|]. split; reflexivity.
  - exists f. split; [exact E|].
    assert (forClient 1 empty_rows used_filter_storage some_rl_storage 0 (some_client true) =
      Ret (composite_New {| cc_SafeBrowsing := None; cc_AdultBlocking := hash_filter_fn 1 <$> fs_adult used_filter_storage;
        cc_NewRegisteredDomains := None; cc_Typosquatting := None; cc_GeneralSafeSearch := None;
        cc_YouTubeSafeSearch := None; cc_Custom := None; cc_CategoryFilters := []; cc_CustomRuleLists := [];
        cc_RuleLists := []; cc_ServiceLists := [] |})) as E2 by reflexivity.
    assert (forall x y : CompositeFilter, Ret x = Ret y -> x = y) as Hinj by (by intros x y [= ->]).
    rewrite E2 in E. apply Hinj in E. clear E2 Hinj. subst f.
    destruct Hf as (ro & Er & Hro); [apply entries_ok_nil|]. destruct ro as [r|]; [|by vm_compute in Er].
    exists r. split; [exact Er|by apply Hro].
Defined.

(** A refresh at [now] with the index [idx] and the domains [body]. *)
Definition category_env (now : Z) (idx : string) (body : result error string) : FilterEnv := {|
  fe_catIndex := env_at now idx;
  fe_cats _ := {| re_now := now; re_open_err := None; re_stat_err := None; re_read_err := None; re_close_err := None;
                  re_tmp_err := None; re_body := body; re_replace_err := None; re_chtimes_err := None; re_later := now |};
  fe_ctx := None; fe_services := env_at now EmptyString; fe_general := env_at now EmptyString;
  fe_youtube := env_at now EmptyString;
|}.

Lemma storage_refresh_invariant_witness :
  exists s', fs_refresh used_filter_storage (category_env 50 "ads" (Ok "x.example"%string)) false = Ret (None, s') /\
    fs_ok s' /\ fs_frame used_filter_storage s'.
Proof.
  destruct (fs_refresh used_filter_storage (category_env 50 "ads" (Ok "x.example"%string)) false) as [[[e|] s']|] eqn:E;
    [by vm_compute in E| |by vm_compute in E].
  exists s'. split; [done|].
  destruct (storage_refresh_invariant empty_rows ltac:(intros a b; repeat split; unfold uints_ok; simpl; lia)
    used_filter_storage (category_env 50 "ads" (Ok "x.example"%string)) false None s' used_filter_storage_reached E)
    as (Hok & Hf & _).
  split; [exact Hok|exact Hf].
Defined.

(** The initial refresh of the storage is to use the cached files regardless of
    their staleness; it does not use a stale file of a category, although the
    download fails, and the category is not filtered. *)
Theorem initial_refresh_ignores_stale_category :
  match fs_RefreshInitial some_filter_storage (category_env 200 "ads" (Err (ErrConst "net"))) with
  | Ret (err, s') => err = None /\ fs_domainFilters s' !! "ads"%string = Some None /\
      fi_Data <$> fs_catFiles s' !! "ads"%string = Some "ads.example"%string
  | Panic _ => False
  end.
Proof. vm_compute. done. Qed.
