(* ===== verification/RateLimit.v ===== *)
(** The rate limiter of internal/dnsserver/ratelimit: the request counter
    (counter.go), the allowlist (allowlist.go), the backoff limiter (backoff.go)
    and the middleware (ratelimit.go).

    The ring buffer of golibs/container and the cache of patrickmn/go-cache are
    parameters given by their documented behaviour ([RingBufferSpec],
    [CacheSpec]).  The caches hold pointers, so the counters they point to live
    in a heap, and a counter found in a cache is updated in place.  All times
    are Unix times in nanoseconds; one call reads the clock once. *)

From stdpp Require Import pretty.
From S2P Require Import Prelude GoStd NetIP DnsMsg.

Open Scope Z_scope.

(** ** Third-party containers *)

Class RingBuffer := {
  ring : Type;
  NewRingBuffer : Z -> ring;
  Push : ring -> Z -> ring;
  Current : ring -> Z;
}.

(** The current element of a ring of [n] places is the oldest of the last [n]
    pushed elements, or zero while the ring is not full. *)
Class RingBufferSpec `{RingBuffer} : Prop :=
  ring_current n xs : (0 < n)%nat ->
    Current (foldl Push (NewRingBuffer (Z.of_nat n)) xs) =
    if (n <=? length xs)%nat then default 0 (xs !! (length xs - n)%nat) else 0.

Class Cache := {
  cache : Type;
  cache_new : Z -> cache;
  (** the arguments are the time, the cache and the key *)
  cache_get : Z -> cache -> string -> option nat;
  cache_set_default : Z -> cache -> string -> nat -> cache;
  cache_expiration : cache -> Z;
}.

Class CacheSpec `{Cache} : Prop := {
  cache_get_new d now k : cache_get now (cache_new d) k = None;
  cache_get_set_eq c k v now now' : now <= now' ->
    cache_get now' (cache_set_default now c k v) k =
    if (0 <? cache_expiration c) && (now + cache_expiration c <? now') then None else Some v;
  cache_get_set_ne c k k' v now now' : k <> k' ->
    cache_get now' (cache_set_default now c k v) k' = cache_get now' c k';
  cache_expiration_new d : cache_expiration (cache_new d) = d;
  cache_expiration_set c k v now :
    cache_expiration (cache_set_default now c k v) = cache_expiration c;
}.

(** ** counter.go *)

Section request_counter.
Context `{RingBuffer}.

Record RequestCounter := { rc_ring : ring; rc_ivl : Z }.

Definition NewRequestCounter (num ivl : Z) : RequestCounter :=
  {| rc_ring := NewRingBuffer (u64 (num + 1)); rc_ivl := ivl |}.

Definition Add (r : RequestCounter) (ts : Z) : bool * RequestCounter :=
  let rg := Push (rc_ring r) ts in
  let tail := Current rg in
  ((0 <? tail) && (i64 (ts - tail) <=? rc_ivl r), {| rc_ring := rg; rc_ivl := rc_ivl r |}).

End request_counter.

(** ** allowlist.go *)

Record DynamicAllowlist := { dynamic : list Prefix; persistent : list Prefix }.

Definition IsAllowed (l : DynamicAllowlist) (ip : Addr) : result error bool :=
  if existsb (fun n => prefix_contains n ip) (persistent l) then Ok true
  else if existsb (fun n => prefix_contains n ip) (dynamic l) then Ok true
  else Ok false.

Definition Update (l : DynamicAllowlist) (subnets : list Prefix) : DynamicAllowlist :=
  {| dynamic := subnets; persistent := persistent l |}.

(** ** backoff.go *)



Section backoff.
Context `{RingBuffer} `{Cache}.

(** [Prefix.String] and the allowlist of the configuration. *)
Context (prefix_string : Prefix -> string).

Record Backoff := {
  reqCounters : cache;
  hitCounters : cache;
  reqHeap : list RequestCounter;   (* what the pointers in reqCounters point to *)
  hitHeap : list Z;                (* what the pointers in hitCounters point to *)
  allowlist : Addr -> result error bool;
  respSzEst : Z;
  count : Z;
  ipv4Count : Z;
  ipv4Interval : Z;
  ipv4SubnetKeyLen : Z;
  ipv6Count : Z;
  ipv6Interval : Z;
  ipv6SubnetKeyLen : Z;
  refuseANY : bool;
}.

Record BackoffConfig := {
  c_Allowlist : Addr -> result error bool;
  c_Period : Z;
  c_Duration : Z;
  c_Count : Z;
  c_ResponseSizeEstimate : Z;
  c_IPv4Count : Z;
  c_IPv4Interval : Z;
  c_IPv4SubnetKeyLen : Z;
  c_IPv6Count : Z;
  c_IPv6Interval : Z;
  c_IPv6SubnetKeyLen : Z;
  c_RefuseANY : bool;
}.

Definition NewBackoff (c : BackoffConfig) : Backoff := {|
  reqCounters := cache_new (c_Period c);
  hitCounters := cache_new (c_Duration c);
  reqHeap := [];
  hitHeap := [];
  allowlist := c_Allowlist c;
  respSzEst := c_ResponseSizeEstimate c;
  count := c_Count c;
  ipv4Count := c_IPv4Count c;
  ipv4Interval := c_IPv4Interval c;
  ipv4SubnetKeyLen := c_IPv4SubnetKeyLen c;
  ipv6Count := c_IPv6Count c;
  ipv6Interval := c_IPv6Interval c;
  ipv6SubnetKeyLen := c_IPv6SubnetKeyLen c;
  refuseANY := c_RefuseANY c;
|}.

(** The counters and caches of [l] replaced. *)
Definition with_counters (l : Backoff) (rc hc : cache) (rh : list RequestCounter) (hh : list Z)
    : Backoff := {|
  reqCounters := rc; hitCounters := hc; reqHeap := rh; hitHeap := hh;
  allowlist := allowlist l; respSzEst := respSzEst l; count := count l;
  ipv4Count := ipv4Count l; ipv4Interval := ipv4Interval l;
  ipv4SubnetKeyLen := ipv4SubnetKeyLen l; ipv6Count := ipv6Count l;
  ipv6Interval := ipv6Interval l; ipv6SubnetKeyLen := ipv6SubnetKeyLen l;
  refuseANY := refuseANY l;
|}.

Definition validateAddr (addr : Addr) : option error :=
  if negb (IsValid addr) then Some (ErrConst "bad ip address %q") else None.

Definition subnetKey (l : Backoff) (ip : Addr) : outcome string :=
  let subnet :=
    if Is4 ip then addr_prefix ip (ipv4SubnetKeyLen l)
    else addr_prefix ip (ipv6SubnetKeyLen l) in
  match subnet with
  | Some p => Ret (prefix_string p)
  | None => Panic "backoff: getting subnet: %w"
  end.

Definition incBackoff (now : Z) (l : Backoff) (key : string) : Backoff :=
  match cache_get now (hitCounters l) key with
  | Some p =>
      with_counters l (reqCounters l) (hitCounters l) (reqHeap l)
        (alter (fun v => u64 (v + 1)) p (hitHeap l))
  | None =>
      with_counters l (reqCounters l)
        (cache_set_default now (hitCounters l) key (length (hitHeap l)))
        (reqHeap l) (hitHeap l ++ [u64 (0 + 1)])
  end.

(** The counter's Add on the request counter at [p]. *)
Definition add_at (now : Z) (h : list RequestCounter) (p : nat) : bool * list RequestCounter :=
  match h !! p with
  | Some r => let '(above, r) := Add r now in (above, <[p:=r]> h)
  | None => (false, h)
  end.

(** The counter of [key], which is new unless the cache has it. *)
Definition counter_for (now : Z) (l : Backoff) (key : string) (cnt ivl : Z) : nat * Backoff :=
  match cache_get now (reqCounters l) key with
  | Some p => (p, l)
  | None =>
      let p := length (reqHeap l) in
      (p, with_counters l (cache_set_default now (reqCounters l) key p) (hitCounters l)
            (reqHeap l ++ [NewRequestCounter cnt ivl]) (hitHeap l))
  end.

Definition hasHitRateLimit (now : Z) (l : Backoff) (key : string) (cnt ivl : Z) : bool * Backoff :=
  let '(p, l) := counter_for now l key cnt ivl in
  let '(above, h) := add_at now (reqHeap l) p in
  let l := with_counters l (reqCounters l) (hitCounters l) h (hitHeap l) in
  (above, if above then incBackoff now l key else l).

Definition isBackoff (now : Z) (l : Backoff) (key : string) : bool :=
  match cache_get now (hitCounters l) key with
  | None => false
  | Some p => count l <=? default 0 (hitHeap l !! p)
  end.

(** The results are [drop], [allowlisted] and [err]. *)
Definition IsRateLimited (now : Z) (l : Backoff) (qs : list Question) (ip : Addr)
    : outcome (result error (bool * bool) * Backoff) :=
  match validateAddr ip with
  | Some err => Ret (Err err, l)
  | None =>
      let! q := index qs 0 in
      if refuseANY l && (q_Qtype q =? TypeANY) then Ret (Ok (true, false), l)
      else match allowlist l ip with
      | Err err => Ret (Err err, l)
      | Ok true => Ret (Ok (false, true), l)
      | Ok false =>
          let! key := subnetKey l ip in
          if isBackoff now l key then Ret (Ok (true, false), l)
          else
            let '(cnt, ivl) :=
              if Is6 ip then (ipv6Count l, ipv6Interval l) else (ipv4Count l, ipv4Interval l) in
            let '(hit, l) := hasHitRateLimit now l key cnt ivl in
            Ret (Ok (hit, false), l)
      end
  end.

(** [n] calls of [IsRateLimited] whose results are ignored. *)
Fixpoint repeat_limited (n : nat) (now : Z) (l : Backoff) (qs : list Question) (ip : Addr)
    : outcome Backoff :=
  match n with
  | O => Ret l
  | S n => let! r := IsRateLimited now l qs ip in repeat_limited n now r.2 qs ip
  end.

(** [respLen] is the length of the response message. *)
Definition CountResponses (now : Z) (l : Backoff) (respLen : Z) (qs : list Question) (ip : Addr)
    : outcome Backoff :=
  if respSzEst l =? 0 then Panic "integer divide by zero"
  else repeat_limited (Z.to_nat (respLen / respSzEst l)) now l qs ip.

End backoff.

(** ** ratelimit.go *)

(** The interface that the middleware uses. *)
Record RateLimitInterface (S : Type) := {
  rl_IsRateLimited : Z -> S -> list Question -> Addr -> outcome (result error (bool * bool) * S);
  rl_CountResponses : Z -> S -> Z -> list Question -> Addr -> outcome S;
}.
Arguments rl_IsRateLimited {S} _ _ _ _ _.
Arguments rl_CountResponses {S} _ _ _ _ _ _.

Definition backoff_interface `{RingBuffer} `{Cache} (prefix_string : Prefix -> string)
    : RateLimitInterface Backoff := {|
  rl_IsRateLimited := IsRateLimited prefix_string;
  rl_CountResponses := CountResponses prefix_string;
|}.

(** A response as the middleware sees it. *)
Record Resp := { r_Question : list Question; r_Len : Z; r_Data : string }.

(** What the middleware does, in order. *)
Inductive mw_action :=
  | CallNext            (* next.ServeDNS with the caller's response writer *)
  | CallNextBuffered    (* next.ServeDNS with a NonWriterResponseWriter *)
  | OnRateLimited
  | OnAllowlisted
  | WriteMsg (r : Resp).

Section middleware.
Context {S : Type} (rl : RateLimitInterface S).

Record Middleware := { mw_protos : list Z }.

Definition isEnabledForProto (mw : Middleware) (proto : Z) : bool :=
  if (length (mw_protos mw) =? 0)%nat then true else bool_decide (proto ∈ mw_protos mw).

(** [next] is the error that the next handler returns or the response that it
    has written; [None] if it has written none. *)
Definition ServeDNS (now : Z) (mw : Middleware) (s : S) (proto : Z) (raddr : AddrPort)
    (qs : list Question) (next : result error (option Resp))
    : outcome (S * list mw_action * option error) :=
  let next_err := match next with Ok _ => None | Err e => Some e end in
  if negb (isEnabledForProto mw proto) then Ret (s, [CallNext], next_err)
  else if ap_port raddr =? 0 then Ret (s, [OnRateLimited], None)
  else
    let ip := ap_addr raddr in
    let! r := rl_IsRateLimited rl now s qs ip in
    let '(res, s) := r in
    match res with
    | Err e => Ret (s, [], Some (ErrWrap "ratelimit mw: %w" e))
    | Ok (true, _) => Ret (s, [OnRateLimited], None)
    | Ok (false, true) => Ret (s, [OnAllowlisted; CallNext], next_err)
    | Ok (false, false) =>
        match next with
        | Err e => Ret (s, [CallNextBuffered], Some e)
        | Ok None => Ret (s, [CallNextBuffered], None)
        | Ok (Some resp) =>
            let! s := rl_CountResponses rl now s (r_Len resp) (r_Question resp) ip in
            Ret (s, [CallNextBuffered; WriteMsg resp], None)
        end
    end.

End middleware.

(** ** The request counter counts a sliding window *)

(** The requests among [xs] that are within [ivl] of [t]. *)
Definition in_window (ivl t x : Z) : Prop := t - x <= ivl.
#[export] Instance in_window_dec ivl t x : Decision (in_window ivl t x).
Proof. unfold in_window. apply _. Defined.

Definition window (ivl t : Z) (xs : list Z) : nat := length (filter (in_window ivl t) xs).

(** Times in order, positive, and within the range of int64. *)
Definition times_ok (xs : list Z) : Prop :=
  StronglySorted Z.le xs /\ Forall (fun t => 0 < t < 2 ^ 63) xs.

Lemma window_app ivl t xs ys : window ivl t (xs ++ ys) = (window ivl t xs + window ivl t ys)%nat.
Proof. unfold window. by rewrite filter_app, length_app. Qed.

Lemma window_le ivl t xs : (window ivl t xs <= length xs)%nat.
Proof. apply length_filter. Qed.

Lemma window_all ivl t xs : Forall (in_window ivl t) xs -> window ivl t xs = length xs.
Proof.
  intros H. unfold window. induction H as [|x xs Hx H IH]; [done|].
  rewrite filter_cons_True by done. simpl. by rewrite IH.
Qed.

Lemma window_none ivl t xs : Forall (fun x => ~ in_window ivl t x) xs -> window ivl t xs = 0%nat.
Proof.
  intros H. unfold window. induction H as [|x xs Hx H IH]; [done|].
  by rewrite filter_cons_False.
Qed.

Lemma times_ok_lookup xs i j x y :
  times_ok xs -> (i <= j)%nat -> xs !! i = Some x -> xs !! j = Some y -> x <= y.
Proof.
  intros [Hs _] Hij Hi Hj. destruct (decide (i = j)) as [->|]; [simplify_eq; lia|].
  eapply (StronglySorted_lookup_lt Z.le); [done| |done|done]. lia.
Qed.

(** In an ordered list of times, the [n]-th element from the end is in the
    window iff at least [n] elements are. *)
Lemma window_nth ivl t xs n v :
  times_ok xs -> (0 < n <= length xs)%nat -> xs !! (length xs - n)%nat = Some v ->
  in_window ivl t v <-> (n <= window ivl t xs)%nat.
Proof.
  intros Hok Hn Hv.
  assert (window ivl t xs = window ivl t (take (length xs - n) xs) + window ivl t (drop (length xs - n) xs))%nat
    as -> by (by rewrite <- window_app, take_drop).
  assert (length (drop (length xs - n) xs) = n) as Hlen by (rewrite length_drop; lia).
  split.
  - intros Hw. rewrite (window_all _ _ (drop _ _)); [lia|].
    apply Forall_lookup. intros i y Hy. rewrite lookup_drop in Hy.
    assert (v <= y) by (eapply times_ok_lookup; [done| |done|done]; lia).
    unfold in_window in *. lia.
  - intros Hc. destruct (decide (in_window ivl t v)) as [|Hno]; [done|]. exfalso.
    rewrite (window_none _ _ (take _ _)) in Hc.
    + rewrite (drop_S _ _ _ Hv) in Hc. change (v :: ?l) with ([v] ++ l) in Hc.
      rewrite window_app, (window_none _ _ [v]) in Hc by (by apply Forall_singleton).
      pose proof (window_le ivl t (drop (S (length xs - n)) xs)) as Hle.
      rewrite length_drop in Hle. lia.
    + apply Forall_lookup. intros i y Hy. apply lookup_take_Some in Hy as [Hy Hi].
      assert (y <= v) by (eapply times_ok_lookup; [done| |done|done]; lia).
      unfold in_window in *. lia.
Qed.

Section request_counter_facts.
Context `{RingBuffer} `{!RingBufferSpec}.

(** The counter after the requests [xs]. *)
Definition counter_of (num ivl : Z) (xs : list Z) : RequestCounter :=
  foldl (fun r t => (Add r t).2) (NewRequestCounter num ivl) xs.

Lemma counter_of_ring num ivl xs :
  counter_of num ivl xs =
  {| rc_ring := foldl Push (NewRingBuffer (u64 (num + 1))) xs; rc_ivl := ivl |}.
Proof.
  unfold counter_of, NewRequestCounter. generalize (NewRingBuffer (u64 (num + 1))).
  induction xs as [|t xs IH]; intros rg; simpl; [done|]. by rewrite IH.
Qed.

Lemma counter_of_snoc num ivl xs t :
  counter_of num ivl (xs ++ [t]) = (Add (counter_of num ivl xs) t).2.
Proof. unfold counter_of. by rewrite foldl_app. Qed.

Lemma RequestCounter_window_aux num ivl xs t :
  0 <= num < 2 ^ 64 - 1 -> times_ok (xs ++ [t]) ->
  (Add (counter_of num ivl xs) t).1 = true <->
  num < Z.of_nat (window ivl t (xs ++ [t])).
Proof.
  intros Hnum Hok. unfold Add. rewrite counter_of_ring. cbn [rc_ring rc_ivl fst].
  replace (Push (foldl Push (NewRingBuffer (u64 (num + 1))) xs) t)
    with (foldl Push (NewRingBuffer (Z.of_nat (Z.to_nat (num + 1)))) (xs ++ [t])).
  2:{ rewrite foldl_app. simpl. do 3 f_equal.
      rewrite u64_small by (unfold is_u64, modulus64; lia). lia. }
  rewrite ring_current by lia. set (ys := xs ++ [t]) in *. set (n := Z.to_nat (num + 1)).
  destruct (n <=? length ys)%nat eqn:E; bool_simp.
  - destruct (lookup_lt_is_Some_2 ys (length ys - n)) as [v Hv]; [lia|].
    rewrite Hv. simpl.
    assert (0 < v < 2 ^ 63) as Hvr.
    { destruct Hok as [_ Hf]. exact (proj1 (Forall_lookup _ _) Hf _ _ Hv). }
    assert (0 < t < 2 ^ 63) as Htr.
    { destruct Hok as [_ Hf]. unfold ys in Hf. apply Forall_app in Hf as [_ Hf].
      exact (proj1 (Forall_singleton _ _) Hf). }
    rewrite i64_small by lia. rewrite andb_true_iff, Z.ltb_lt, Z.leb_le.
    pose proof (window_nth ivl t ys n v Hok ltac:(lia) Hv) as Hw. unfold in_window in Hw.
    split; [intros [_ Hle]; apply Hw in Hle; lia|]. intros Hc. split; [lia|]. apply Hw. lia.
  - pose proof (window_le ivl t ys). simpl. split; [done|lia].
Qed.

(** After any ordered sequence of requests, [RequestCounter.Add] reports a
    request as above the limit exactly when more than [num] requests, itself
    included, were made within the interval that ends with it. *)
Theorem RequestCounter_window num ivl xs t :
  0 <= num < 2 ^ 64 - 1 -> times_ok (xs ++ [t]) ->
  (Add (counter_of num ivl xs) t).1 = true <->
  num < Z.of_nat (window ivl t (xs ++ [t])).
Proof. apply RequestCounter_window_aux. Qed.

End request_counter_facts.

Lemma window_sublist ivl t xs ys : xs `sublist_of` ys -> (window ivl t xs <= window ivl t ys)%nat.
Proof.
  unfold window. induction 1 as [|x xs ys H IH|x xs ys H IH]; [done|..].
  - destruct (decide (in_window ivl t x)).
    + rewrite !filter_cons_True by done. simpl. lia.
    + by rewrite !filter_cons_False.
  - destruct (decide (in_window ivl t x)).
    + rewrite (filter_cons_True _ x) by done. simpl. lia.
    + by rewrite (filter_cons_False _ x).
Qed.

Lemma times_ok_sublist xs ys : xs `sublist_of` ys -> times_ok ys -> times_ok xs.
Proof.
  intros Hsub [Hs Hf]. split.
  - clear Hf. induction Hsub as [|x xs ys H IH|x xs ys H IH]; [done|..];
      apply StronglySorted_cons in Hs as [Hx Hs]; [|auto].
    apply StronglySorted_cons. split; [|auto]. rewrite Forall_forall in *. intros y Hy.
    apply Hx. by eapply elem_of_sublist.
  - rewrite Forall_forall in *. intros y Hy. apply Hf. by eapply elem_of_sublist.
Qed.

(** ** Clients within the limit are served *)

Record request := { rq_time : Z; rq_Question : list Question; rq_ip : Addr }.

Section clients.
Context `{RingBuffer} `{!RingBufferSpec} `{Cache} `{!CacheSpec}.
Context (prefix_string : Prefix -> string).

(** The results of a sequence of requests. *)
Fixpoint serve_all (l : Backoff) (rs : list request)
    : outcome (list (result error (bool * bool)) * Backoff) :=
  match rs with
  | [] => Ret ([], l)
  | r :: rs =>
      let! x := IsRateLimited prefix_string (rq_time r) l (rq_Question r) (rq_ip r) in
      let! y := serve_all x.2 rs in
      Ret (x.1 :: y.1, y.2)
  end.

(** The requests of one bucket. *)
Definition of_key (l : Backoff) (k : string) (r : request) : Prop :=
  subnetKey prefix_string l (rq_ip r) = Ret k.

#[local] Instance outcome_eq_dec : EqDecision (outcome string).
Proof. solve_decision. Defined.

#[local] Instance of_key_dec l k r : Decision (of_key l k r).
Proof. unfold of_key. apply _. Defined.

Definition history (l : Backoff) (k : string) (rs : list request) : list Z :=
  rq_time <$> filter (of_key l k) rs.

(** At most [num] requests in any interval of length [ivl]. *)
Definition within_limit (num ivl : Z) (hist : list Z) : Prop :=
  forall h t h', hist = h ++ t :: h' -> Z.of_nat (window ivl t (h ++ [t])) <= num.

Definition limit_of (l : Backoff) (ip : Addr) : Z * Z :=
  if Is6 ip then (ipv6Count l, ipv6Interval l) else (ipv4Count l, ipv4Interval l).

(** The state of the limiter as far as the bucket [k0], whose requests so far
    are [hist], depends on it. *)
Record bucket_inv (k0 : string) (num ivl : Z) (hist : list Z) (tl : Z)
    (rc hc : cache) (rh : list RequestCounter) : Prop := {
  inv_alloc now k p : tl <= now -> cache_get now rc k = Some p -> (p < length rh)%nat;
  inv_inj now now' k k' p : tl <= now -> tl <= now' ->
    cache_get now rc k = Some p -> cache_get now' rc k' = Some p -> k = k';
  inv_counter now p : tl <= now -> cache_get now rc k0 = Some p ->
    exists xs, rh !! p = Some (counter_of num ivl xs) /\ xs `sublist_of` hist;
  inv_no_hits now : tl <= now -> cache_get now hc k0 = None;
}.

Lemma cache_get_set_Some c k k' v p now now' : now <= now' ->
  cache_get now' (cache_set_default now c k v) k' = Some p ->
  (k' = k /\ p = v) \/ (k' <> k /\ cache_get now' c k' = Some p).
Proof.
  intros Hle. destruct (decide (k = k')) as [->|Hne].
  - rewrite cache_get_set_eq by done. case_if; [done|]. intros [= ->]. by left.
  - rewrite cache_get_set_ne by done. right. by split.
Qed.

(** Finding the counter of a key or storing a new one. *)
Lemma bucket_inv_new k0 num ivl hist tl rc hc rh t k r :
  bucket_inv k0 num ivl hist tl rc hc rh -> tl <= t ->
  (k = k0 -> r = counter_of num ivl []) ->
  bucket_inv k0 num ivl hist t (cache_set_default t rc k (length rh)) hc (rh ++ [r]).
Proof.
  intros [Ha Hi Hc Hn] Ht Hr. split.
  - intros now k' p Hnow Hg. rewrite length_app. simpl.
    apply cache_get_set_Some in Hg as [[-> ->]|[_ Hg]]; [lia| |lia].
    apply Ha in Hg; lia.
  - intros now now' k1 k2 p Hn1 Hn2 G1 G2.
    apply cache_get_set_Some in G1 as [[-> ->]|[? G1]]; [| |done];
      (apply cache_get_set_Some in G2 as [[-> E]|[? G2]]; [| |done]); try done.
    + apply Ha in G2; lia.
    + subst p. apply Ha in G1; lia.
    + eapply (Hi now now'); [lia|lia|done|done].
  - intros now p Hnow Hg. apply cache_get_set_Some in Hg as [[-> ->]|[_ Hg]]; [| |done].
    + exists []. rewrite lookup_app_r, Nat.sub_diag by done. simpl.
      rewrite Hr by done. split; [done|apply sublist_nil_l].
    + apply Hc in Hg as (xs & Hxs & Hsub); [|lia]. exists xs. split; [|done].
      by apply lookup_app_l_Some.
  - intros now Hnow. apply Hn. lia.
Qed.

Lemma bucket_inv_later k0 num ivl hist tl rc hc rh t :
  bucket_inv k0 num ivl hist tl rc hc rh -> tl <= t ->
  bucket_inv k0 num ivl hist t rc hc rh.
Proof.
  intros [Ha Hi Hc Hn] Ht.
  split.
  - intros now k p Hle. apply Ha. lia.
  - intros now now' k k' p Hle Hle'. apply Hi; lia.
  - intros now p Hle. apply Hc. lia.
  - intros now Hle. apply Hn. lia.
Qed.

Lemma bucket_inv_hist k0 num ivl hist hist' tl rc hc rh :
  bucket_inv k0 num ivl hist tl rc hc rh -> hist `sublist_of` hist' ->
  bucket_inv k0 num ivl hist' tl rc hc rh.
Proof.
  intros [Ha Hi Hc Hn] Hs. split; try done.
  intros now p Hnow Hg. destruct (Hc now p Hnow Hg) as (xs & ? & ?). exists xs.
  split; [done|]. by etrans.
Qed.

(** Updating the counter of the key [k] at [p]. *)
Lemma bucket_inv_update k0 num ivl hist t rc hc rh k p r :
  bucket_inv k0 num ivl hist t rc hc rh ->
  (forall now k', t <= now -> cache_get now rc k' = Some p -> k' = k) ->
  (k = k0 -> exists xs, r = counter_of num ivl xs /\ xs `sublist_of` hist) ->
  bucket_inv k0 num ivl hist t rc hc (<[p:=r]> rh).
Proof.
  intros [Ha Hi Hc Hn] Hp Hr. split; try done.
  - intros now k' q Hnow Hg. rewrite length_insert. eauto.
  - intros now q Hnow Hg. destruct (decide (q = p)) as [->|Hne].
    + destruct Hr as (xs & -> & Hxs); [symmetry; eauto|]. exists xs.
      split; [|done]. apply list_lookup_insert_eq. eauto.
    + rewrite list_lookup_insert_ne by done. eauto.
Qed.

(** [b] differs from [a] in the counters only. *)
Definition same_config (a b : Backoff) : Prop :=
  b = with_counters a (reqCounters b) (hitCounters b) (reqHeap b) (hitHeap b).

Lemma same_config_with a b rc hc rh hh :
  same_config a b -> same_config a (with_counters b rc hc rh hh).
Proof. unfold same_config. destruct a, b. unfold with_counters. simpl. congruence. Qed.

Lemma same_config_subnetKey a b ip :
  same_config a b -> subnetKey prefix_string b ip = subnetKey prefix_string a ip.
Proof. unfold same_config. by intros ->. Qed.

(** The invariant on the whole limiter. *)
Definition limiter_inv (l0 : Backoff) (k0 : string) (num ivl : Z) (hist : list Z) (t : Z)
    (l : Backoff) : Prop :=
  same_config l0 l /\ bucket_inv k0 num ivl hist t (reqCounters l) (hitCounters l) (reqHeap l).

(** The counter for a key, existing or new. *)
Lemma counter_found k0 num ivl hist t l key cnt iv :
  bucket_inv k0 num ivl hist t (reqCounters l) (hitCounters l) (reqHeap l) ->
  (key = k0 -> cnt = num /\ iv = ivl) ->
  exists p l1,
    counter_for t l key cnt iv = (p, l1) /\
    same_config l l1 /\
    bucket_inv k0 num ivl hist t (reqCounters l1) (hitCounters l1) (reqHeap l1) /\
    cache_get t (reqCounters l1) key = Some p.
Proof.
  intros Hinv Hk. unfold counter_for. destruct (cache_get t (reqCounters l) key) as [p|] eqn:E.
  { exists p, l. split_and!; try done. by destruct l. }
  eexists _, _. split; [done|]. simpl. split; [done|]. split.
  - apply (bucket_inv_new _ _ _ _ t); [done|done|]. intros Hkk. by destruct (Hk Hkk) as [-> ->].
  - rewrite cache_get_set_eq by done. case_if; [|done]. bool_simp. lia.
Qed.

Lemma hasHitRateLimit_inv l0 k0 num ivl hist t l key cnt iv :
  limiter_inv l0 k0 num ivl hist t l -> 0 <= num < 2 ^ 64 - 1 ->
  (key = k0 -> cnt = num /\ iv = ivl /\ times_ok (hist ++ [t]) /\
    Z.of_nat (window ivl t (hist ++ [t])) <= num) ->
  exists hit l', hasHitRateLimit t l key cnt iv = (hit, l') /\
    limiter_inv l0 k0 num ivl (if decide (key = k0) then hist ++ [t] else hist) t l' /\
    (key = k0 -> hit = false).
Proof.
  intros [Hcfg Hinv] Hnum Hk. unfold hasHitRateLimit.
  destruct (counter_found k0 num ivl hist t l key cnt iv Hinv) as (p & l1 & -> & Hc1 & Hinv1 & Hp);
    [naive_solver|].
  destruct (lookup_lt_is_Some_2 (reqHeap l1) p) as [r Hr].
  { eapply inv_alloc; [done|reflexivity|done]. }
  unfold add_at. rewrite Hr. destruct (Add r t) as [above r'] eqn:EA.
  assert (same_config l0 l1) as Hc. { unfold same_config in *. rewrite Hc1, Hcfg. done. }
  eexists _, _. split; [reflexivity|].
  assert (bucket_inv k0 num ivl (if decide (key = k0) then hist ++ [t] else hist) t
            (reqCounters l1) (hitCounters l1) (<[p:=r']> (reqHeap l1)) /\
          (key = k0 -> above = false)) as [Hb Hab].
  { destruct (decide (key = k0)) as [->|Hne].
    - destruct (Hk eq_refl) as (-> & -> & Hok & Hw).
      destruct (inv_counter _ _ _ _ _ _ _ _ Hinv1 t p ltac:(reflexivity) Hp) as (xs & Hxs & Hsub).
      assert (r = counter_of num ivl xs) as -> by congruence.
      assert ((xs ++ [t]) `sublist_of` (hist ++ [t])) as Hsub' by (by apply sublist_app).
      split.
      + apply bucket_inv_update with (k := k0).
        * eapply bucket_inv_hist; [done|]. by apply sublist_inserts_r.
        * intros now k' Hnow Hg. eapply (inv_inj _ _ _ _ _ _ _ _ Hinv1 now t); done.
        * intros _. exists (xs ++ [t]). rewrite counter_of_snoc, EA. done.
      + intros _. apply not_true_is_false. intros ->.
        assert (num < Z.of_nat (window ivl t (xs ++ [t]))) as Hgt.
        { apply RequestCounter_window_aux; [done| |by rewrite EA].
          by eapply times_ok_sublist. }
        pose proof (window_sublist ivl t _ _ Hsub'). lia.
    - split; [|done]. apply bucket_inv_update with (k := key); [done| |done].
      intros now k' Hnow Hg. eapply (inv_inj _ _ _ _ _ _ _ _ Hinv1 now t); done. }
  split; [|done]. unfold limiter_inv.
  destruct above; [|by split; [unfold same_config in *; rewrite Hc|]].
  destruct (decide (key = k0)) as [->|Hne]; [discriminate Hab; done|].
  unfold incBackoff. simpl. destruct (cache_get t (hitCounters l1) key) eqn:Eh; simpl.
  - split; [unfold same_config in *; by rewrite Hc|done].
  - split; [unfold same_config in *; by rewrite Hc|].
    destruct Hb as [Ha Hi Hcn Hn]. split; try done.
    intros now Hnow. rewrite cache_get_set_ne by done. by apply Hn.
Qed.

(** A request with a question, whose address the limiter can make a key of. *)
Definition request_ok (l0 : Backoff) (r : request) : Prop :=
  rq_Question r <> [] /\ exists k, subnetKey prefix_string l0 (rq_ip r) = Ret k.

(** The limiter can serve the request: the address is valid, the allowlist
    knows it, and it is not a refused ANY request. *)
Definition servable (l0 : Backoff) (r : request) : Prop :=
  IsValid (rq_ip r) = true /\ (exists b, allowlist l0 (rq_ip r) = Ok b) /\
  (refuseANY l0 = true -> forall q, head (rq_Question r) = Some q -> q_Qtype q <> TypeANY).

Definition next_hist (l0 : Backoff) (k0 : string) (r : request) (hist : list Z) : list Z :=
  if decide (of_key l0 k0 r) then hist ++ [rq_time r] else hist.

Lemma limiter_inv_skip l0 k0 num ivl hist tl l r :
  limiter_inv l0 k0 num ivl hist tl l -> tl <= rq_time r ->
  limiter_inv l0 k0 num ivl (next_hist l0 k0 r hist) (rq_time r) l.
Proof.
  intros [Hc Hb] Ht. split; [done|]. unfold next_hist.
  apply bucket_inv_hist with (hist := hist); [by eapply bucket_inv_later|].
  case_decide; [by apply sublist_inserts_r|done].
Qed.

Lemma IsRateLimited_inv l0 k0 num ivl hist tl l r :
  limiter_inv l0 k0 num ivl hist tl l -> 0 <= num < 2 ^ 64 - 1 -> tl <= rq_time r ->
  request_ok l0 r ->
  (of_key l0 k0 r -> limit_of l0 (rq_ip r) = (num, ivl) /\ times_ok (hist ++ [rq_time r]) /\
    Z.of_nat (window ivl (rq_time r) (hist ++ [rq_time r])) <= num) ->
  exists res l', IsRateLimited prefix_string (rq_time r) l (rq_Question r) (rq_ip r) = Ret (res, l') /\
    limiter_inv l0 k0 num ivl (next_hist l0 k0 r hist) (rq_time r) l' /\
    (of_key l0 k0 r -> servable l0 r -> exists a, res = Ok (false, a)).
Proof.
  intros Hinv Hnum Ht [Hq [k Hk]] Hlim. pose proof (limiter_inv_skip _ _ _ _ _ _ _ _ Hinv Ht) as Hskip.
  destruct Hinv as [Hc Hb].
  assert (allowlist l = allowlist l0 /\ refuseANY l = refuseANY l0 /\ limit_of l = limit_of l0)
    as (Ea & Er & El) by (by rewrite Hc).
  unfold IsRateLimited, validateAddr.
  destruct (IsValid (rq_ip r)) eqn:Ev; simpl.
  2:{ eexists _, _. split_and!; [done|done|]. intros _ [? _]. congruence. }
  destruct (rq_Question r) as [|q qs] eqn:EQ; [done|]. simpl. rewrite Er, Ea.
  destruct (refuseANY l0 && (q_Qtype q =? TypeANY)) eqn:Eany.
  { eexists _, _. split_and!; [done|done|]. intros _ (_ & _ & Hs). bool_simp.
    destruct (Hs ltac:(done) q); [by rewrite EQ|lia]. }
  destruct (allowlist l0 (rq_ip r)) as [[]|e] eqn:Eal.
  1:{ eexists _, _. split_and!; [done|done|]. eauto. }
  2:{ eexists _, _. split_and!; [done|done|]. intros _ (_ & [? ?] & _). congruence. }
  rewrite (same_config_subnetKey l0) by done. rewrite Hk. simpl.
  destruct (isBackoff (rq_time r) l k) eqn:Eb.
  { eexists _, _. split_and!; [done|done|]. unfold of_key. rewrite Hk. intros [= ->].
    unfold isBackoff in Eb. by rewrite (inv_no_hits _ _ _ _ _ _ _ _ Hb) in Eb. }
  change (if Is6 (rq_ip r) then _ else _) with (limit_of l (rq_ip r)). rewrite El.
  destruct (limit_of l0 (rq_ip r)) as [cnt iv] eqn:Elim.
  destruct (hasHitRateLimit_inv l0 k0 num ivl hist (rq_time r) l k cnt iv)
    as (hit & l' & -> & Hinv' & Hhit); [|done| |].
  { split; [done|]. by eapply bucket_inv_later. }
  { intros ->. destruct (Hlim Hk) as ([= -> ->] & ? & ?). done. }
  eexists _, _. split; [done|]. split.
  - unfold next_hist. destruct (decide (of_key l0 k0 r)) as [Ho|Ho]; unfold of_key in Ho;
      case_decide; congruence.
  - unfold of_key. rewrite Hk. intros [= ->] _. rewrite Hhit by done. eauto.
Qed.

Lemma history_cons l0 k0 r rs hist :
  hist ++ history l0 k0 (r :: rs) = next_hist l0 k0 r hist ++ history l0 k0 rs.
Proof.
  unfold history, next_hist. case_decide.
  - rewrite filter_cons_True by done. simpl. by rewrite <- app_assoc.
  - by rewrite filter_cons_False.
Qed.

Lemma serve_all_inv l0 k0 num ivl rs : forall hist tl l,
  limiter_inv l0 k0 num ivl hist tl l -> 0 <= num < 2 ^ 64 - 1 ->
  Forall (request_ok l0) rs ->
  Forall (fun r => of_key l0 k0 r -> limit_of l0 (rq_ip r) = (num, ivl)) rs ->
  StronglySorted Z.le (tl :: (rq_time <$> rs)) ->
  times_ok (hist ++ history l0 k0 rs) ->
  within_limit num ivl (hist ++ history l0 k0 rs) ->
  exists outs l', serve_all l rs = Ret (outs, l') /\
    forall i r, rs !! i = Some r -> of_key l0 k0 r -> servable l0 r ->
      exists a, outs !! i = Some (Ok (false, a)).
Proof.
  induction rs as [|r rs IH]; intros hist tl l Hinv Hnum Hok Hlim Hs Ht Hw.
  { eexists _, _. split; [done|]. done. }
  apply Forall_cons in Hok as [Hok1 Hok]. apply Forall_cons in Hlim as [Hlim1 Hlim].
  apply StronglySorted_cons in Hs as [Hs1 Hs]. simpl in Hs1. apply Forall_cons in Hs1 as [Htl _].
  destruct (IsRateLimited_inv l0 k0 num ivl hist tl l r) as (res & l1 & E & Hinv1 & Hres); try done.
  { intros Hk. rewrite history_cons in Ht, Hw. unfold next_hist in Ht, Hw.
    rewrite decide_True in Ht, Hw by done. split; [by apply Hlim1|]. split.
    - eapply times_ok_sublist; [|done]. by apply sublist_inserts_r.
    - apply (Hw hist (rq_time r) (history l0 k0 rs)). by rewrite <- app_assoc. }
  rewrite history_cons in Ht, Hw.
  destruct (IH _ _ _ Hinv1 Hnum Hok Hlim Hs Ht Hw) as (outs & l2 & E2 & Houts).
  exists (res :: outs), l2. simpl. rewrite E. simpl. rewrite E2. simpl. split; [done|].
  intros [|i] r' Hi Hk Hsv; simpl in Hi; [|by eapply Houts].
  injection Hi as <-. destruct (Hres Hk Hsv) as [a ->]. by exists a.
Qed.

Lemma bucket_inv_empty c k0 num ivl tl :
  limiter_inv (NewBackoff c) k0 num ivl [] tl (NewBackoff c).
Proof.
  split; [done|]. split; simpl.
  - intros now k p _. by rewrite cache_get_new.
  - intros now now' k k' p _ _. by rewrite cache_get_new.
  - intros now p _. by rewrite cache_get_new.
  - intros now _. apply cache_get_new.
Qed.

(** Addresses with one key have one family, hence one limit. *)
Lemma key_limit l x y k : (forall p q, prefix_string p = prefix_string q -> p = q) ->
  subnetKey prefix_string l x = Ret k -> subnetKey prefix_string l y = Ret k ->
  limit_of l x = limit_of l y.
Proof.
  intros Hinj Hx Hy. unfold subnetKey in Hx, Hy.
  destruct (if Is4 x then _ else _) as [p|] eqn:Ex; [|done].
  destruct (if Is4 y then _ else _) as [q|] eqn:Ey; [|done].
  assert (p = q) as -> by (apply Hinj; congruence).
  unfold limit_of, addr_prefix in *. destruct x, y; simpl in *; repeat case_match; naive_solver.
Qed.

(** A client that keeps to its limit is always served.  Whatever the other
    clients send, if the requests from the subnet of [ip0] are never more than
    the configured number within the configured interval, then every request
    from that subnet that has a valid address, known to the allowlist, and that
    is not a refused ANY request gets the answer that it is not to be dropped. *)
Theorem compliant_client_served c ip0 k0 rs :
  let l0 := NewBackoff c in
  let '(num, ivl) := limit_of l0 ip0 in
  (forall p q, prefix_string p = prefix_string q -> p = q) ->
  subnetKey prefix_string l0 ip0 = Ret k0 ->
  0 <= num < 2 ^ 64 - 1 ->
  times_ok (rq_time <$> rs) ->
  Forall (request_ok l0) rs ->
  within_limit num ivl (history l0 k0 rs) ->
  exists outs l', serve_all l0 rs = Ret (outs, l') /\
    forall i r, rs !! i = Some r -> of_key l0 k0 r -> servable l0 r ->
      exists a, outs !! i = Some (Ok (false, a)).
Proof.
  intros l0. destruct (limit_of l0 ip0) as [num ivl] eqn:El.
  intros Hinj Hk Hnum Ht Hok Hw.
  apply (serve_all_inv l0 k0 num ivl rs [] 0); try done.
  - apply bucket_inv_empty.
  - apply Forall_forall. intros r _ Hr. rewrite <- El. by eapply key_limit.
  - destruct Ht as [Hs Hf]. apply StronglySorted_cons. split; [|done].
    eapply Forall_impl; [done|]. simpl. lia.
  - simpl. eapply times_ok_sublist; [|done]. unfold history. apply fmap_sublist, sublist_filter.
Qed.

(** ** One client, exactly *)

(** What the limiter is to answer to the requests at [ts] of one client that it
    has not yet forgotten: [xs] are the counted requests, [h] the times that the
    client was above the limit, and [cnt] the number of these that it takes to
    be in backoff, where requests are dropped and not counted. *)
Fixpoint backoff_spec (num ivl cnt : Z) (xs : list Z) (h : Z) (ts : list Z) : list bool :=
  match ts with
  | [] => []
  | t :: ts =>
      if (0 <? h) && (cnt <=? h) then true :: backoff_spec num ivl cnt xs h ts
      else
        let hit := num <? Z.of_nat (window ivl t (xs ++ [t])) in
        hit :: backoff_spec num ivl cnt (xs ++ [t]) (if hit then h + 1 else h) ts
  end.

(** The state that [backoff_spec] abstracts, from [t] until [T]. *)
Record client_inv (l0 : Backoff) (k : string) (num ivl T : Z) (t : Z) (xs : list Z) (h : Z)
    (l : Backoff) : Prop := {
  ci_config : same_config l0 l;
  ci_counter :
    (xs = [] /\ forall now, cache_get now (reqCounters l) k = None) \/
    (exists p, reqHeap l !! p = Some (counter_of num ivl xs) /\
       forall now, t <= now <= T -> cache_get now (reqCounters l) k = Some p);
  ci_hits :
    (h = 0 /\ forall now, cache_get now (hitCounters l) k = None) \/
    (0 < h /\ exists p, hitHeap l !! p = Some h /\
       forall now, t <= now <= T -> cache_get now (hitCounters l) k = Some p);
  ci_period : 0 < cache_expiration (reqCounters l) -> T <= t + cache_expiration (reqCounters l);
  ci_duration : 0 < cache_expiration (hitCounters l) -> T <= t + cache_expiration (hitCounters l);
}.

Lemma client_inv_later l0 k num ivl T t t' xs h l :
  client_inv l0 k num ivl T t xs h l -> t <= t' -> client_inv l0 k num ivl T t' xs h l.
Proof.
  intros [Hc Hx Hh Hp1 Hp2] Ht. split; [done| | |intros; lia..].
  - destruct Hx as [Hx|(p & Hp & Hg)]; [by left|]. right. exists p. split; [done|].
    intros now Hn. apply Hg. lia.
  - destruct Hh as [Hh|(Hh & p & Hp & Hg)]; [by left|]. right. split; [done|]. exists p.
    split; [done|]. intros now Hn. apply Hg. lia.
Qed.

(** A new entry is there until [T]. *)
Lemma cache_get_set_until c k v t T now :
  (0 < cache_expiration c -> T <= t + cache_expiration c) -> t <= now <= T ->
  cache_get now (cache_set_default t c k v) k = Some v.
Proof.
  intros He Hn. rewrite cache_get_set_eq by lia. case_if; [|done]. bool_simp. lia.
Qed.

Lemma counter_for_client l0 k num ivl T t xs h l :
  client_inv l0 k num ivl T t xs h l -> t <= T ->
  exists p l1, counter_for t l k num ivl = (p, l1) /\
    client_inv l0 k num ivl T t xs h l1 /\
    reqHeap l1 !! p = Some (counter_of num ivl xs) /\
    (forall now, t <= now <= T -> cache_get now (reqCounters l1) k = Some p).
Proof.
  intros Hinv HT. unfold counter_for. destruct (ci_counter _ _ _ _ _ _ _ _ _ Hinv) as [[-> Hx]|(p & Hp & Hg)].
  - rewrite Hx. eexists _, _. split; [done|]. simpl.
    assert ((reqHeap l ++ [NewRequestCounter num ivl]) !! length (reqHeap l)
      = Some (counter_of num ivl [])) as Hl.
    { rewrite lookup_app_r, Nat.sub_diag by done. done. }
    assert (forall now, t <= now <= T ->
      cache_get now (cache_set_default t (reqCounters l) k (length (reqHeap l))) k = Some (length (reqHeap l))).
    { intros now Hn. eapply cache_get_set_until; [|done]. apply Hinv. }
    split_and!; try done. split; simpl; try apply Hinv.
    + apply same_config_with, Hinv.
    + right. eauto.
    + rewrite cache_expiration_set. apply Hinv.
  - rewrite Hg by lia. eexists _, _. split; [done|]. done.
Qed.

Lemma hasHitRateLimit_client l0 k num ivl T t xs h l :
  client_inv l0 k num ivl T t xs h l -> t <= T -> 0 <= num < 2 ^ 64 - 1 ->
  0 <= h < 2 ^ 64 - 1 -> times_ok (xs ++ [t]) ->
  let hit := num <? Z.of_nat (window ivl t (xs ++ [t])) in
  exists l', hasHitRateLimit t l k num ivl = (hit, l') /\
    client_inv l0 k num ivl T t (xs ++ [t]) (if hit then h + 1 else h) l'.
Proof.
  intros Hinv HT Hnum Hh Hok hit. unfold hasHitRateLimit.
  destruct (counter_for_client _ _ _ _ _ _ _ _ _ Hinv HT) as (p & l1 & -> & Hinv1 & Hp & Hg).
  unfold add_at. rewrite Hp.
  assert ((Add (counter_of num ivl xs) t).1 = hit) as Ehit.
  { apply eq_true_iff_eq. rewrite RequestCounter_window_aux by done. unfold hit. by rewrite Z.ltb_lt. }
  pose proof (counter_of_snoc num ivl xs t) as Es.
  destruct (Add (counter_of num ivl xs) t) as [above r]. simpl in Ehit, Es. subst above r.
  set (l2 := with_counters l1 _ _ _ _).
  assert (client_inv l0 k num ivl T t (xs ++ [t]) h l2) as Hinv2.
  { split; try apply Hinv1.
    - apply same_config_with, Hinv1.
    - right. exists p. split; [|done]. apply list_lookup_insert_eq. by eapply lookup_lt_Some. }
  eexists. split; [done|]. destruct hit; [|done]. unfold incBackoff.
  destruct (ci_hits _ _ _ _ _ _ _ _ _ Hinv2) as [[-> Hn]|(Hh0 & q & Hq & Hgq)].
  - rewrite Hn. split; simpl; try apply Hinv2.
    + apply same_config_with, Hinv2.
    + right. split; [lia|]. exists (length (hitHeap l1)). split.
      * rewrite lookup_app_r, Nat.sub_diag by done. done.
      * intros now Hnow. eapply cache_get_set_until; [|done]. apply Hinv1.
    + rewrite cache_expiration_set. apply Hinv2.
  - rewrite Hgq by lia. split; simpl; try apply Hinv2.
    + apply same_config_with, Hinv2.
    + right. split; [lia|]. exists q. split; [|done].
      rewrite list_lookup_alter_eq. simpl in Hq. rewrite Hq. simpl. f_equal. apply u64_small.
      unfold is_u64, modulus64. lia.
Qed.

Lemma isBackoff_client l0 k num ivl T t xs h l :
  client_inv l0 k num ivl T t xs h l -> t <= T ->
  isBackoff t l k = (0 <? h) && (count l0 <=? h).
Proof.
  intros Hinv HT. unfold isBackoff.
  assert (count l = count l0) as -> by (destruct Hinv as [Hc _ _ _ _]; by rewrite Hc).
  destruct (ci_hits _ _ _ _ _ _ _ _ _ Hinv) as [[-> ->]|(Hh0 & q & Hq & Hgq)]; [done|].
  rewrite Hgq by lia. rewrite Hq. simpl. by rewrite (proj2 (Z.ltb_lt 0 h) Hh0).
Qed.

(** A request of the client [ip] that is counted. *)
Definition counted (l0 : Backoff) (ip : Addr) (r : request) : Prop :=
  rq_ip r = ip /\ exists q qs, rq_Question r = q :: qs /\ refuseANY l0 && (q_Qtype q =? TypeANY) = false.

Lemma serve_all_client l0 ip k num ivl T : IsValid ip = true -> allowlist l0 ip = Ok false ->
  subnetKey prefix_string l0 ip = Ret k -> limit_of l0 ip = (num, ivl) -> 0 <= num < 2 ^ 64 - 1 ->
  forall rs t xs h l, client_inv l0 k num ivl T t xs h l ->
    Forall (counted l0 ip) rs -> times_ok (xs ++ (rq_time <$> rs)) ->
    Forall (fun r => t <= rq_time r <= T) rs ->
    0 <= h -> h + Z.of_nat (length rs) < 2 ^ 64 ->
    exists l', serve_all l rs =
      Ret ((fun b => Ok (b, false)) <$> backoff_spec num ivl (count l0) xs h (rq_time <$> rs), l').
Proof.
  intros Hv Ha Hk Hlim Hnum. induction rs as [|r rs IH]; intros t xs h l Hinv Hrs Hok Ht Hh Hlen.
  { by eexists. }
  apply Forall_cons in Hrs as [(Hip & q & qs & Eq & Eany) Hrs]. apply Forall_cons in Ht as [Ht1 Ht].
  assert (Forall (fun r' => rq_time r <= rq_time r' <= T) rs) as Ht'.
  { destruct Hok as [Hs _]. apply StronglySorted_app in Hs as (_ & _ & Hs).
    rewrite fmap_cons in Hs. apply StronglySorted_cons in Hs as [Hs _]. rewrite Forall_fmap in Hs.
    rewrite Forall_forall in *.
    intros x Hx. split; [by apply (Hs x)|by apply Ht]. }
  apply client_inv_later with (t' := rq_time r) in Hinv; [|lia].
  assert (allowlist l = allowlist l0 /\ refuseANY l = refuseANY l0 /\ limit_of l = limit_of l0)
    as (Ea & Er & El) by (destruct Hinv as [Hc _ _ _ _]; by rewrite Hc).
  simpl. unfold IsRateLimited, validateAddr. rewrite Hip, Hv, Eq. simpl. rewrite Er, Eany, Ea, Ha.
  rewrite (same_config_subnetKey l0), Hk by apply Hinv. simpl.
  rewrite (isBackoff_client _ _ _ _ _ _ _ _ _ Hinv) by lia.
  simpl in Hlen. destruct ((0 <? h) && (count l0 <=? h)).
  - simpl. destruct (IH (rq_time r) xs h l) as [l' ->]; try done; [|lia|by eexists].
    eapply times_ok_sublist; [|done]. apply sublist_app; [done|]. simpl. by constructor.
  - change (if Is6 ip then _ else _) with (limit_of l ip). rewrite El, Hlim.
    assert (times_ok (xs ++ [rq_time r])) as Hok1.
    { eapply times_ok_sublist; [|done]. apply sublist_app; [done|]. simpl.
      constructor. apply sublist_nil_l. }
    destruct (hasHitRateLimit_client _ _ _ _ _ _ _ _ _ Hinv) as (l1 & -> & Hinv1); try done; [lia..|].
    simpl. destruct (IH _ _ _ _ Hinv1) as [l' ->]; try done.
    + by rewrite <- app_assoc.
    + case_if; lia.
    + case_if; lia.
    + by eexists.
Qed.

(** C3. What the limiter answers to one client is exactly the specified sliding
    window with backoff: from a new limiter and as long as no cached counter
    expires, the request is dropped iff the client has been above the limit
    [count] times already, or this request is above it. *)
Theorem one_client_exact c ip k rs t0 T :
  let l0 := NewBackoff c in
  let '(num, ivl) := limit_of l0 ip in
  IsValid ip = true -> allowlist l0 ip = Ok false ->
  subnetKey prefix_string l0 ip = Ret k -> 0 <= num < 2 ^ 64 - 1 ->
  Forall (counted l0 ip) rs -> times_ok (rq_time <$> rs) ->
  Forall (fun r => t0 <= rq_time r <= T) rs ->
  (0 < c_Period c -> T <= t0 + c_Period c) -> (0 < c_Duration c -> T <= t0 + c_Duration c) ->
  Z.of_nat (length rs) < 2 ^ 64 ->
  exists l', serve_all l0 rs =
    Ret ((fun b => Ok (b, false)) <$> backoff_spec num ivl (c_Count c) [] 0 (rq_time <$> rs), l').
Proof.
  intros l0. destruct (limit_of l0 ip) as [num ivl] eqn:El.
  intros Hv Ha Hk Hnum Hrs Hok Ht Hp Hd Hlen.
  apply (serve_all_client l0 ip k num ivl T) with (t := t0); try done.
  split; simpl; rewrite ?cache_expiration_new; try done.
  - left. split; [done|]. intros. apply cache_get_new.
  - left. split; [done|]. intros. apply cache_get_new.
Qed.

End clients.

(** ** The key of a client *)

(** Two clients share a counter exactly when their addresses have the same
    family and agree on the configured number of leading bits, whatever their
    IPv6 zones. *)
Theorem subnetKey_same_network `{RingBuffer} `{Cache} (prefix_string : Prefix -> string) l x y :
  (forall p q, prefix_string p = prefix_string q -> p = q) ->
  addr_ok x -> addr_ok y -> IsValid x = true -> IsValid y = true ->
  0 <= ipv4SubnetKeyLen l <= 32 -> 0 <= ipv6SubnetKeyLen l <= 128 ->
  subnetKey prefix_string l x = subnetKey prefix_string l y <->
  same_network x y (if Is4 x then ipv4SubnetKeyLen l else ipv6SubnetKeyLen l).
Proof.
  intros Hinj Hx Hy Hvx Hvy H4 H6. unfold subnetKey.
  assert (forall p q : option Prefix, is_Some p -> is_Some q ->
    (match p with Some p => Ret (prefix_string p) | None => Panic "backoff: getting subnet: %w" end =
     match q with Some p => Ret (prefix_string p) | None => Panic "backoff: getting subnet: %w" end)
    <-> p = q) as Hiff.
  { intros p q [p' ->] [q' ->]. split; [intros [= E]; f_equal; by apply Hinj|by intros [= ->]]. }
  assert (forall a b, (is_Some (addr_prefix a b)) <-> 0 <= b /\
    match a with AddrZero => True | Addr4 _ => b <= 32 | Addr6 _ _ => b <= 128 end) as Hsome.
  { intros [] b; unfold addr_prefix; repeat case_if; bool_simp;
      (split; [intros [? ?]; (done || lia)|intros; (eauto || lia)]). }
  rewrite Hiff by (destruct x, y; apply Hsome; simpl in *; (done || lia)).
  destruct x as [|x|x zx], y as [|y|y zy]; try done.
  - by apply addr_prefix_4.
  - simpl. split; [|done]. unfold addr_prefix. repeat case_if; bool_simp; try lia.
    intros Heq. by apply (f_equal (fmap p_ip)) in Heq.
  - simpl. split; [|done]. unfold addr_prefix. repeat case_if; bool_simp; try lia.
    intros Heq. by apply (f_equal (fmap p_ip)) in Heq.
  - by apply addr_prefix_6.
Qed.

(** ** What the middleware does *)

Section middleware_facts.
Context {S : Type} (rl : RateLimitInterface S).

(** When the middleware returns, it has written the response of the next
    handler itself iff the protocol is limited, the source port is not zero, and
    the limiter said neither to drop the request nor that it is allowlisted; the
    response is then counted before it is written.  The request was dropped
    silently iff the source port is zero or the limiter said so, and the next
    handler was not called then. *)
Theorem middleware_decides now mw s proto raddr qs next s' acts err :
  ServeDNS rl now mw s proto raddr qs next = Ret (s', acts, err) ->
  (forall resp, WriteMsg resp ∈ acts <->
     isEnabledForProto mw proto = true /\ ap_port raddr <> 0 /\ next = Ok (Some resp) /\
     exists s1, rl_IsRateLimited rl now s qs (ap_addr raddr) = Ret (Ok (false, false), s1) /\
       rl_CountResponses rl now s1 (r_Len resp) (r_Question resp) (ap_addr raddr) = Ret s') /\
  (OnRateLimited ∈ acts <->
     isEnabledForProto mw proto = true /\
     (ap_port raddr = 0 \/
      exists a s1, rl_IsRateLimited rl now s qs (ap_addr raddr) = Ret (Ok (true, a), s1))) /\
  (OnRateLimited ∈ acts -> CallNext ∉ acts /\ CallNextBuffered ∉ acts /\ err = None).
Proof.
  unfold ServeDNS. destruct (isEnabledForProto mw proto) eqn:Ee; simpl.
  2:{ intros [= <- <- <-]. set_solver. }
  destruct (ap_port raddr =? 0) eqn:Ep; bool_simp.
  { intros [= <- <- <-]. set_solver. }
  destruct (rl_IsRateLimited rl now s qs (ap_addr raddr)) as [[res s1]|p] eqn:Er; simpl; [|done].
  destruct res as [[[] []]|e].
  1-2: intros [= <- <- <-]; split_and!; [set_solver|set_solver by eauto 10|set_solver].
  - intros [= <- <- <-]. set_solver.
  - destruct next as [[resp|]|e].
    + destruct (rl_CountResponses _ _ _ _ _ _) as [s2|p] eqn:Ec; simpl; [|done].
      intros [= <- <- <-]. split_and!; [|set_solver|set_solver].
      intros resp'. split.
      * intros Hin. assert (resp' = resp) as -> by set_solver. eauto 10.
      * intros (_ & _ & [= ->] & _). set_solver.
    + intros [= <- <- <-]. set_solver.
    + intros [= <- <- <-]. set_solver.
  - intros [= <- <- <-]. set_solver.
Qed.

End middleware_facts.

(** ** Concrete containers, and the theorems on concrete inputs *)

#[local] Instance list_ring : RingBuffer := {|
  ring := Z * list Z;
  NewRingBuffer n := (n, []);
  Push r x := (r.1, r.2 ++ [x]);
  Current r :=
    if (Z.to_nat r.1 <=? length r.2)%nat then default 0 (r.2 !! (length r.2 - Z.to_nat r.1)%nat)
    else 0;
|}.

#[local] Instance list_ring_spec : RingBufferSpec.
Proof.
  intros n xs Hn. change (NewRingBuffer (Z.of_nat n)) with (Z.of_nat n, @nil Z).
  assert (forall ys, foldl Push (Z.of_nat n, ys) xs = (Z.of_nat n, ys ++ xs)) as ->.
  { induction xs as [|x xs IH]; intros ys; simpl; [by rewrite app_nil_r|].
    rewrite IH. by rewrite <- app_assoc. }
  simpl. by rewrite Nat2Z.id.
Qed.

#[local] Instance map_cache : Cache := {|
  cache := Z * gmap string (nat * Z);
  cache_new d := (d, ∅);
  cache_get now c k :=
    match c.2 !! k with
    | Some (v, t) => if (0 <? c.1) && (t + c.1 <? now) then None else Some v
    | None => None
    end;
  cache_set_default now c k v := (c.1, <[k:=(v, now)]> c.2);
  cache_expiration c := c.1;
|}.

#[local] Instance map_cache_spec : CacheSpec.
Proof.
  split; simpl; try done.
  - intros. by rewrite lookup_insert_eq.
  - intros. by rewrite lookup_insert_ne.
Qed.

Definition some_prefix_string (p : Prefix) : string :=
  pretty (N.pos (encode (p_ip p, p_bits p))).

Lemma some_prefix_string_inj p q : some_prefix_string p = some_prefix_string q -> p = q.
Proof.
  intros E. unfold some_prefix_string in E. apply (inj pretty) in E. injection E as E. apply (inj encode) in E.
  destruct p, q. simpl in *. congruence.
Qed.

Lemma within_limit_few num ivl hist : Z.of_nat (length hist) <= num -> within_limit num ivl hist.
Proof.
  intros Hl h t h' ->. pose proof (window_le ivl t (h ++ [t])).
  rewrite length_app in *. simpl in *. lia.
Qed.

Definition some_config : BackoffConfig := {|
  c_Allowlist := fun _ => Ok false; c_Period := 1000; c_Duration := 1000; c_Count := 2;
  c_ResponseSizeEstimate := 100; c_IPv4Count := 2; c_IPv4Interval := 10;
  c_IPv4SubnetKeyLen := 24; c_IPv6Count := 2; c_IPv6Interval := 10;
  c_IPv6SubnetKeyLen := 48; c_RefuseANY := true;
|}.

Definition some_question : Question := {| q_Name := "example.org."; q_Qtype := 1; q_Qclass := 1 |}.

Definition some_request (t : Z) (a : Z) : request :=
  {| rq_time := t; rq_Question := [some_question]; rq_ip := Addr4 a |}.

Lemma RequestCounter_window_witness :
  (Add (counter_of 2 10 [1; 5; 8]) 11).1 = true <-> 2 < Z.of_nat (window 10 11 ([1; 5; 8] ++ [11])).
Proof.
  apply RequestCounter_window; [lia|]. split; [|by repeat constructor].
  repeat (constructor; try done).
Defined.

Lemma compliant_client_served_witness :
  let rs := [some_request 1 256; some_request 2 1024; some_request 3 257; some_request 4 1025;
             some_request 5 1026; some_request 6 1027] in
  exists outs l', serve_all some_prefix_string (NewBackoff some_config) rs = Ret (outs, l') /\
    exists a, outs !! 2%nat = Some (Ok (false, a)).
Proof.
  intros rs.
  destruct (compliant_client_served some_prefix_string some_config (Addr4 256)
    (some_prefix_string (PrefixFrom (Addr4 (Z.land 256 (mask 32 24))) 24)) rs)
    as (outs & l' & E & Ho).
  - apply some_prefix_string_inj.
  - reflexivity.
  - simpl. lia.
  - split; [repeat (constructor; try done)|by repeat constructor].
  - repeat constructor; try discriminate; eexists; reflexivity.
  - apply within_limit_few. vm_compute. discriminate.
  - exists outs, l'. split; [done|].
    apply (Ho 2%nat (some_request 3 257)); [done|reflexivity|].
    split_and!; [done|by eexists|]. simpl. intros _ q [= <-]. done.
Defined.

Lemma one_client_exact_witness :
  exists l', serve_all some_prefix_string (NewBackoff some_config)
      ((fun t => some_request t 256) <$> [1; 2; 3; 4; 5; 20; 21]) =
    Ret ((fun b => Ok (b, false)) <$> [false; false; true; true; true; true; true], l').
Proof.
  refine (one_client_exact some_prefix_string some_config (Addr4 256) _
    ((fun t => some_request t 256) <$> [1; 2; 3; 4; 5; 20; 21]) 0 100
    eq_refl eq_refl eq_refl _ _ _ _ _ _ _).
  - simpl. lia.
  - repeat constructor; by eexists _, _.
  - split; [repeat (constructor; try done)|by repeat constructor].
  - by repeat constructor.
  - done.
  - done.
  - simpl. lia.
Defined.

Lemma subnetKey_same_network_witness :
  subnetKey some_prefix_string (NewBackoff some_config) (Addr4 256) =
  subnetKey some_prefix_string (NewBackoff some_config) (Addr4 257).
Proof.
  apply (subnetKey_same_network some_prefix_string (NewBackoff some_config) (Addr4 256) (Addr4 257));
    simpl; try done; [apply some_prefix_string_inj|lia..].
Defined.

Lemma middleware_decides_witness :
  let resp := {| r_Question := [some_question]; r_Len := 50; r_Data := EmptyString |} in
  let '(acts, err) := ([CallNextBuffered; WriteMsg resp], None) in
  exists s', ServeDNS (backoff_interface some_prefix_string) 1 {| mw_protos := [] |}
      (NewBackoff some_config) 0 {| ap_addr := Addr4 256; ap_port := 53 |} [some_question]
      (Ok (Some resp)) = Ret (s', acts, err) /\
    (exists s1, IsRateLimited some_prefix_string 1 (NewBackoff some_config) [some_question]
      (Addr4 256) = Ret (Ok (false, false), s1)) /\
    (OnRateLimited ∈ acts -> False).
Proof.
  intros resp. eexists. split; [reflexivity|].
  edestruct (middleware_decides (backoff_interface some_prefix_string) 1 {| mw_protos := [] |}
    (NewBackoff some_config) 0 {| ap_addr := Addr4 256; ap_port := 53 |} [some_question]
    (Ok (Some resp))) as (Hw & _ & Hn); [reflexivity|]. split.
  - destruct (proj1 (Hw resp)) as (_ & _ & _ & s1 & E & _); [set_solver|]. by exists s1.
  - intros Hin. destruct (Hn Hin) as (_ & Hc & _). set_solver.
Defined.
