(* ===== verification/Agd.v ===== *)
(** The shared entities of internal/agd: protocols, device types, the
    identifiers of devices and profiles, devices, profiles, custom domains,
    servers, device results, rate limits and request information; with
    internal/agdpasswd and the protocol numbers of internal/dnsserver.

    The filter, the access manager and the rate limiter of a profile are objects
    that are made from a configuration; a profile has the configurations. *)

From S2P Require Import Prelude GoStd Utf8 NetIP HumanID Schedule DnsMsg FilterConfig Access.

Open Scope Z_scope.

(** ** Protocols *)

Definition ProtoInvalid : Z := 0.
Definition ProtoDNS : Z := 8.
Definition ProtoDoH : Z := 3.
Definition ProtoDoQ : Z := 4.
Definition ProtoDoT : Z := 5.
Definition ProtoDNSCrypt : Z := 9.

Definition IsStdEncrypted (p : Z) : bool := (p =? ProtoDoT) || (p =? ProtoDoH) || (p =? ProtoDoQ).

(** ** Identifiers *)

Section identifiers.
Context `{Netutil} `{UnicodeCase}.

Definition MaxDeviceIDLen : Z := 8.
Definition MinDeviceIDLen : Z := 1.

(** [errors.Unwrap] of the label error replaces it; an error without a wrapped
    one would become nil here. *)
Definition NewDeviceID (s : string) : result error string :=
  annotate "bad device id %q: %w"
    match Inclusion (len s) MinDeviceIDLen MaxDeviceIDLen UnitByte with
    | Some err => Err err
    | None =>
        match ValidateHostnameLabel s with
        | Some err =>
            match Unwrap err with
            | Some err => Err err
            | None => Ok EmptyString
            end
        | None => Ok s
        end
    end.

Definition MaxProfileIDLen : Z := 8.

Definition NewProfileID (s : string) : result error string :=
  match Inclusion (len s) 0 MaxProfileIDLen UnitByte with
  | Some err => Err (ErrWrap "bad profile id %q: %w" err)
  | None =>
      match FirstNonIDRune s false with
      | Some _ => Err (ErrConst "bad profile id: bad char %q at index %d")
      | None => Ok s
      end
  end.

Definition MaxDeviceNameRuneLen : Z := 128.

Definition NewDeviceName (s : string) : result error string :=
  annotate "bad device name %q: %w"
    match Inclusion (Z.of_nat (length (runes s))) 0 MaxDeviceNameRuneLen UnitRune with
    | Some err => Err err
    | None => Ok s
    end.

(** ** Device types *)

Definition DeviceTypeNone : Z := 0.

Definition deviceTypeStrings : list string :=
  ["(none)"; "win"; "adr"; "mac"; "ios"; "lnx"; "rtr"; "stv"; "gam"; "otr"]%string.

(** The position of the first string of [l] that [s] is equal to under case
    folding; the loop of [DeviceTypeFromDNS]. *)
Fixpoint fold_index (s : string) (l : list string) (i : Z) : option Z :=
  match l with
  | [] => None
  | x :: l => if EqualFold s x then Some i else fold_index s l (i + 1)
  end.

Definition DeviceTypeFromDNS (s : string) : result error Z :=
  annotate "bad device type %q: %w"
    match Inclusion (len s) 3 3 UnitByte with
    | Some err => Err err
    | None =>
        match fold_index s (drop 1 deviceTypeStrings) 0 with
        | Some i => Ok (i + 1)
        | None => Err (ErrConst "unknown device type")
        end
    end.

(** [DeviceType.String]. *)
Definition DeviceType_String (dt : Z) : string :=
  match deviceTypeStrings !! Z.to_nat dt with
  | Some s => s
  | None => String.append "!bad_device_type_" (itoa dt)
  end.

End identifiers.

(** ** Authentication: internal/agdpasswd *)

Inductive Authenticator :=
  | AllowAuthenticator
  | PasswordHashBcrypt (hash : string).

(** The comparison function of golang.org/x/crypto/bcrypt. *)
Class Bcrypt := CompareHashAndPassword : string -> string -> bool.

Definition Authenticate `{Bcrypt} (a : Authenticator) (passwd : string) : bool :=
  match a with
  | AllowAuthenticator => true
  | PasswordHashBcrypt hash => CompareHashAndPassword hash passwd
  end.

Record AuthSettings := {
  PasswordHash : Authenticator;
  auth_Enabled : bool;
  DoHAuthOnly : bool;
}.

(** ** Devices and profiles *)

Record Device := {
  Auth : AuthSettings;
  d_ID : string;
  LinkedIP : Addr;
  d_Name : string;
  HumanIDLower : string;
  DedicatedIPs : list Addr;
  d_FilteringEnabled : bool;
}.

Record CustomDomainStateCurrent := {
  NotBefore : Z;
  NotAfter : Z;
  CertName : string;
  cur_Enabled : bool;
}.

Record CustomDomainStatePending := {
  Expire : Z;
  WellKnownPath : string;
}.

(** [StateOther] is any other value of the interface type. *)
Inductive CustomDomainState :=
  | StateCurrent (s : CustomDomainStateCurrent)
  | StatePending (s : CustomDomainStatePending)
  | StateOther.

Record CustomDomainConfig := {
  State : CustomDomainState;
  cdc_Domains : list string;
}.

Record AccountCustomDomains := {
  cd_Domains : list CustomDomainConfig;
  cd_Enabled : bool;
}.

(** ratelimit.go: the configuration of a profile's rate limiter. *)
Record RatelimitConfig := {
  rc_ClientSubnets : list Prefix;
  rc_RPS : Z;
  rc_Enabled : bool;
}.

(** A default rate limiter is the address of its counter and its configuration. *)
Inductive Ratelimiter :=
  | GlobalRatelimiter
  | DefaultRatelimiter (ptr : nat) (clientSubnets : list Prefix) (respSzEst rps : Z).

Definition Ratelimiter_Config (r : Ratelimiter) : RatelimitConfig :=
  match r with
  | GlobalRatelimiter => {| rc_ClientSubnets := []; rc_RPS := 0; rc_Enabled := false |}
  | DefaultRatelimiter _ nets _ rps => {| rc_ClientSubnets := nets; rc_RPS := rps; rc_Enabled := true |}
  end.

(** [Access] is [None] for an [access.EmptyProfile]. *)
Record Profile := {
  CustomDomains : AccountCustomDomains;
  DeviceIDs : gset string;
  p_FilterConfig : ConfigClient;
  p_Access : option ProfileConfig;
  AdultBlockingMode : option BlockingMode;
  p_BlockingMode : BlockingMode;
  SafeBrowsingBlockingMode : option BlockingMode;
  p_Ratelimiter : Ratelimiter;
  p_ID : string;
  FilteredResponseTTL : Z;
  AccountID : Z;
  AutoDevicesEnabled : bool;
  BlockChromePrefetch : bool;
  BlockFirefoxCanary : bool;
  BlockPrivateRelay : bool;
  Deleted : bool;
  p_FilteringEnabled : bool;
  IPLogEnabled : bool;
  QueryLogEnabled : bool;
  QueryLogStream : bool;
}.

(** [p.DeviceIDs = ids]. *)
Definition with_DeviceIDs (p : Profile) (ids : gset string) : Profile := {|
  CustomDomains := CustomDomains p; DeviceIDs := ids; p_FilterConfig := p_FilterConfig p; p_Access := p_Access p;
  AdultBlockingMode := AdultBlockingMode p; p_BlockingMode := p_BlockingMode p;
  SafeBrowsingBlockingMode := SafeBrowsingBlockingMode p; p_Ratelimiter := p_Ratelimiter p; p_ID := p_ID p;
  FilteredResponseTTL := FilteredResponseTTL p; AccountID := AccountID p;
  AutoDevicesEnabled := AutoDevicesEnabled p; BlockChromePrefetch := BlockChromePrefetch p;
  BlockFirefoxCanary := BlockFirefoxCanary p; BlockPrivateRelay := BlockPrivateRelay p;
  Deleted := Deleted p; p_FilteringEnabled := p_FilteringEnabled p;
  IPLogEnabled := IPLogEnabled p; QueryLogEnabled := QueryLogEnabled p;
  QueryLogStream := QueryLogStream p;
|}.

#[export] Instance Authenticator_eq_dec : EqDecision Authenticator.
Proof. solve_decision. Defined.
#[export] Instance AuthSettings_eq_dec : EqDecision AuthSettings.
Proof. solve_decision. Defined.
#[export] Instance Device_eq_dec : EqDecision Device.
Proof. solve_decision. Defined.

(** A configuration in which nothing is filtered. *)
Definition unfiltered_config : ConfigClient := {|
  cfc_CustomFilter := {| ccf_Filter := None; ccf_Enabled := false |};
  cfc_CustomRuleList := {| crl_IDs := []; crl_Enabled := false |};
  cfc_Parental := {| cp_Categories := {| cg_IDs := []; cg_Enabled := false |}; cp_PauseSchedule := None;
                     cp_BlockedServices := []; cp_Enabled := false; cp_AdultBlockingEnabled := false;
                     cp_SafeSearchGeneralEnabled := false; cp_SafeSearchYouTubeEnabled := false |};
  cfc_RuleList := {| cr_IDs := []; cr_Enabled := false |};
  cfc_SafeBrowsing := {| csb_Typosquatting := None; csb_Enabled := false; csb_DangerousDomainsEnabled := false;
                         csb_NewlyRegisteredDomainsEnabled := false |};
|}.

Definition null_ip_mode : BlockingMode := BlockingModeNullIP.

(** ** Servers *)

Record PrefixNetAddr := { pna_Prefix : Prefix; pna_Port : Z }.

Record ServerBindData := {
  PrefixAddr : option PrefixNetAddr;
  bd_AddrPort : AddrPort;
}.

Record Server := {
  s_Name : string;
  bindData : list ServerBindData;
  s_Protocol : Z;
  LinkedIPEnabled : bool;
}.

Definition is_nil {A} (o : option A) : bool := match o with None => true | Some _ => false end.

Definition SetBindData (s : Server) (data : list ServerBindData) : outcome Server :=
  let set := {| s_Name := s_Name s; bindData := data; s_Protocol := s_Protocol s;
                LinkedIPEnabled := LinkedIPEnabled s |} in
  match data with
  | [] => Panic "empty bind data"
  | [_] => Ret set
  | bd :: rest =>
      let firstIsAddrPort := is_nil (PrefixAddr bd) in
      if existsb (fun bd => negb (Bool.eqb (is_nil (PrefixAddr bd)) firstIsAddrPort)) rest
      then Panic "at index %d: inconsistent type of bind data"
      else Ret set
  end.

(** [Prefix.IsSingleIP]. *)
Definition IsSingleIP (p : Prefix) : bool := prefix_valid p && (p_bits p =? BitLen (p_ip p)).

Definition bd_has_addr (addr : AddrPort) (bd : ServerBindData) : bool :=
  match PrefixAddr bd with
  | None => bool_decide (bd_AddrPort bd = addr)
  | Some pa =>
      IsSingleIP (pna_Prefix pa) && bool_decide (p_ip (pna_Prefix pa) = ap_addr addr)
      && (pna_Port pa =? ap_port addr)
  end.

Definition HasAddr (s : Server) (addr : AddrPort) : bool := existsb (bd_has_addr addr) (bindData s).

Definition HasIPv6 (s : Server) : bool :=
  existsb (fun bd => Is6 (ap_addr (bd_AddrPort bd))) (bindData s).

Definition BindsToInterfaces (s : Server) : bool :=
  match bindData s with
  | [] => false
  | bd :: _ => negb (is_nil (PrefixAddr bd))
  end.

Definition BindDataPrefixes (s : Server) : list Prefix :=
  map (fun bd =>
    match PrefixAddr bd with
    | None => let addr := ap_addr (bd_AddrPort bd) in PrefixFrom addr (BitLen addr)
    | Some pa => pna_Prefix pa
    end) (bindData s).

(** ** Device results; [None] is a nil result. *)

Inductive DeviceResult :=
  | DeviceResultAuthenticationFailure (err : error)
  | DeviceResultError (err : error)
  | DeviceResultOK (dev : Device) (prof : Profile)
  | DeviceResultUnknownDedicated (err : error).

(** ** filteringgroup.go and context.go *)

Record FilteringGroup := {
  fg_FilterConfig : ConfigGroup;
  fg_ID : string;
  fg_BlockChromePrefetch : bool;
  fg_BlockFirefoxCanary : bool;
  fg_BlockPrivateRelay : bool;
}.

(** The client subnet of a request: [dnsmsg.ECS]. *)
Record ECS := {
  ecs_Location : option GeoLocation;
  ecs_Subnet : Prefix;
  ecs_Scope : Z;
}.

Record RequestServerInfo := {
  rsi_GroupName : string;
  rsi_Name : string;
  rsi_DeviceDomains : list string;
  rsi_Protocol : Z;
  rsi_ProfilesEnabled : bool;
}.

Record RequestInfo := {
  ri_DeviceResult : option DeviceResult;
  ri_Location : option GeoLocation;
  ri_ECS : option ECS;
  ri_FilteringGroup : FilteringGroup;
  ri_Messages : Constructor;
  ri_ServerInfo : RequestServerInfo;
  ri_RemoteIP : Addr;
  ri_Host : string;
  ri_QType : Z;
  ri_QClass : Z;
}.

(** The profile and the device, if both are known. *)
Definition DeviceData (ri : RequestInfo) : option (Profile * Device) :=
  match ri_DeviceResult ri with
  | Some (DeviceResultOK d p) => Some (p, d)
  | _ => None
  end.

(** ** Facts *)

Section facts.
Context `{Netutil} `{!NetutilSpec} `{UnicodeCase}.

(** A valid device ID: a hostname label of at most eight bytes. *)
Lemma NewDeviceID_Ok s id :
  NewDeviceID s = Ok id <-> id = s /\ 1 <= len s <= 8 /\ valid_label (bytes s).
Proof.
  unfold NewDeviceID. rewrite annotate_Ok.
  destruct (Inclusion _ _ _ _) eqn:Ei.
  { split; [done|]. intros (_ & Hl & _).
    assert (Inclusion (len s) MinDeviceIDLen MaxDeviceIDLen UnitByte = None) by by apply Inclusion_None.
    congruence. }
  apply Inclusion_None in Ei. unfold MinDeviceIDLen, MaxDeviceIDLen in Ei.
  destruct (ValidateHostnameLabel s) as [err|] eqn:Ev.
  - pose proof (label_error_wraps _ _ Ev) as Hw. destruct (Unwrap err); [|done].
    split; [done|]. intros (_ & _ & Hv). apply label_ok in Hv. congruence.
  - apply label_ok in Ev. split; [intros [= <-]; done|]. by intros (-> & _).
Qed.

Lemma NewProfileID_Ok s id : NewProfileID s = Ok id -> id = s /\ len s <= 8.
Proof.
  unfold NewProfileID. destruct (Inclusion _ _ _ _) eqn:Ei; [done|].
  apply Inclusion_None in Ei. destruct (FirstNonIDRune s false); [done|].
  unfold MaxProfileIDLen in Ei. intros [= <-]. split; [done|lia].
Qed.

Lemma fold_index_range s l i j : fold_index s l i = Some j -> i <= j < i + Z.of_nat (length l).
Proof.
  revert i. induction l as [|x l IH]; intros i; simpl; [done|].
  case_if; [intros [= <-]; lia|]. intros Hj. apply IH in Hj. lia.
Qed.

End facts.

Section device_type_facts.
Context `{UnicodeCase}.

(** Device types survive the round trip through their names in the DNS API:
    each of the nine types is parsed back from its own name, in lower and in
    upper case, a parsed type is never "none" or out of range, and the name of
    "none" is not accepted. *)
Theorem DeviceType_roundtrip :
  (forall dt, 1 <= dt <= 9 -> DeviceTypeFromDNS (DeviceType_String dt) = Ok dt) /\
  (forall s dt, DeviceTypeFromDNS s = Ok dt -> 1 <= dt <= 9 /\ len s = 3) /\
  DeviceTypeFromDNS "WIN"%string = Ok 1 /\
  (exists err, DeviceTypeFromDNS (DeviceType_String DeviceTypeNone) = Err err).
Proof.
  split_and!.
  - intros dt Hdt.
    assert (dt = 1 \/ dt = 2 \/ dt = 3 \/ dt = 4 \/ dt = 5 \/ dt = 6 \/ dt = 7 \/ dt = 8 \/ dt = 9)
      as Hcases by lia.
    destruct_or! Hcases; subst dt; reflexivity.
  - intros s dt. unfold DeviceTypeFromDNS. rewrite annotate_Ok.
    destruct (Inclusion _ _ _ _) eqn:Ei; [done|]. apply Inclusion_None in Ei.
    destruct (fold_index _ _ _) as [i|] eqn:Ef; [|done]. apply fold_index_range in Ef.
    simpl in Ef. intros [= <-]. lia.
  - reflexivity.
  - by eexists.
Qed.

End device_type_facts.
