(* ===== verification/ProfileDB.v ===== *)
(** The profile database of internal/profiledb (default.go): the maps of
    profiles and devices, full and partial synchronization with the storage,
    the file cache, the creation of automatic devices, the four lookups, and
    the goroutines that lookups start to remove stale links.

    The storage, the file cache and the clock are arguments of the operations;
    the custom-domain database is an interface ([CustomDomainDBOps]).  The
    errors given to the error collector are kept in the state; logs and metrics
    are left out. *)

From S2P Require Import Prelude GoStd NetIP Agd.

Open Scope Z_scope.

Definition ErrDeviceNotFound : string := "device not found".
Definition ErrProfileNotFound : string := "profile not found".
Definition CacheVersionError : string := "unsuitable cache version".

Definition FileCacheVersion : Z := 19.

Definition syncTimeFull : Z := 0.

(** ** Interfaces *)

Record CustomDomainDBOps (C : Type) := {
  cdb_AddCertificate : C -> string -> list string -> CustomDomainStateCurrent -> C;
  cdb_DeleteAllWellKnownPaths : C -> C;
  cdb_SetWellKnownPath : C -> CustomDomainStatePending -> C;
}.
Arguments cdb_AddCertificate {C} _ _ _ _ _.
Arguments cdb_DeleteAllWellKnownPaths {C} _ _.
Arguments cdb_SetWellKnownPath {C} _ _ _.

Record StorageDeviceChange := {
  DeletedDeviceIDs : list string;
  IsPartial : bool;
}.

Record StorageProfilesResponse := {
  sr_SyncTime : Z;
  DeviceChanges : gmap string StorageDeviceChange;
  sr_Profiles : list Profile;
  sr_Devices : list Device;
}.

Record FileCache := {
  fc_SyncTime : Z;
  fc_Profiles : list Profile;
  fc_Devices : list Device;
  fc_Version : Z;
}.

(** The request of [Storage.CreateAutoDevice]. *)
Record StorageCreateAutoDeviceRequest := {
  req_ProfileID : string;
  req_HumanID : string;
  req_DeviceType : Z;
}.

(** ** State *)

(** The maps that mapsMu protects. *)
Record Maps := {
  profiles : gmap string Profile;
  devices : gmap string Device;
  dedicatedIPToDeviceID : gmap Addr string;
  deviceIDToProfileID : gmap string string;
  humanIDToDeviceID : gmap (string * string) string;  (* lower, profile *)
  linkedIPToDeviceID : gmap Addr string;
}.

Definition empty_maps : Maps := {|
  profiles := ∅; devices := ∅; dedicatedIPToDeviceID := ∅; deviceIDToProfileID := ∅;
  humanIDToDeviceID := ∅; linkedIPToDeviceID := ∅;
|}.

(** The assignments [m[k] = v] of a loop, in order. *)
Definition put_all {K V} `{Countable K} (m : gmap K V) (l : list (K * V)) : gmap K V :=
  foldl (fun m kv => <[kv.1:=kv.2]> m) m l.

(** A goroutine that removes a link. *)
Inductive removal :=
  | removeDevice (id : string)
  | removeDedicatedIP (ip : Addr)
  | removeHumanID (k : string * string)
  | removeLinkedIP (ip : Addr).

Section db.
Context {C : Type} (cdb : CustomDomainDBOps C).

Record Default := {
  maps : Maps;
  customDomainDB : C;
  syncTime : Z;
  lastCacheSync : Z;
  lastFullSync : Z;
  lastFullSyncError : Z;
  cacheIvl : Z;
  fullSyncIvl : Z;
  fullSyncRetryIvl : Z;
  collected : list error;      (* what the error collector was given *)
}.

(** ** Updates of the maps *)

(** The profile is changed in place; it is not shared yet. *)
Definition applyChanges (m : Maps) (p : Profile) (devChg : option StorageDeviceChange)
    : Profile * Maps :=
  match devChg with
  | None => (p, m)
  | Some chg =>
      if negb (IsPartial chg) then (p, m)
      else match profiles m !! p_ID p with
      | None => (p, m)
      | Some prev =>
          (with_DeviceIDs p
             (foldl (fun ids id => ids ∖ {[id]}) (DeviceIDs p ∪ DeviceIDs prev)
                (DeletedDeviceIDs chg)),
           {| profiles := profiles m; devices := devices m;
              dedicatedIPToDeviceID := dedicatedIPToDeviceID m;
              deviceIDToProfileID :=
                foldl (fun dp id => delete id dp) (deviceIDToProfileID m) (DeletedDeviceIDs chg);
              humanIDToDeviceID := humanIDToDeviceID m;
              linkedIPToDeviceID := linkedIPToDeviceID m |})
      end
  end.

(** [db.profiles[p.ID] = p] and the loop over the device IDs. *)
Definition put_profile (m : Maps) (p : Profile) : Maps := {|
  profiles := <[p_ID p := p]> (profiles m);
  devices := devices m;
  dedicatedIPToDeviceID := dedicatedIPToDeviceID m;
  deviceIDToProfileID :=
    put_all (deviceIDToProfileID m) ((fun id => (id, p_ID p)) <$> elements (DeviceIDs p));
  humanIDToDeviceID := humanIDToDeviceID m;
  linkedIPToDeviceID := linkedIPToDeviceID m;
|}.

Definition setProfileCerts (c : C) (p : Profile) : C * option error :=
  let cd := CustomDomains p in
  if negb (cd_Enabled cd) then (c, None)
  else
    let '(c, errs) :=
      foldl (fun '(c, errs) conf =>
        match State conf with
        | StateCurrent s => (cdb_AddCertificate cdb c (p_ID p) (cdc_Domains conf) s, errs)
        | StatePending s => (cdb_SetWellKnownPath cdb c s, errs)
        | StateOther => (c, errs ++ [ErrConst "custom domains: at index %d: bad type %T(%[2]v)"])
        end) (c, []) (cd_Domains cd) in
    (c, Join errs).

(** The errors for the collector; [format] wraps them. *)
Definition collect (format : string) (err : option error) (errs : list error) : list error :=
  match err with
  | Some e => errs ++ [ErrWrap format e]
  | None => errs
  end.

(** The body of the loop of [setDevices]. *)
Definition setDevice (m : Maps) (d : Device) : Maps :=
  let devID := d_ID d in
  {| profiles := profiles m;
     devices := <[devID := d]> (devices m);
     dedicatedIPToDeviceID :=
       put_all (dedicatedIPToDeviceID m) ((fun ip => (ip, devID)) <$> DedicatedIPs d);
     deviceIDToProfileID := deviceIDToProfileID m;
     humanIDToDeviceID :=
       if bool_decide (HumanIDLower d = EmptyString) then humanIDToDeviceID m
       else match deviceIDToProfileID m !! devID with
            | None => humanIDToDeviceID m
            | Some profID => <[(HumanIDLower d, profID) := devID]> (humanIDToDeviceID m)
            end;
     linkedIPToDeviceID :=
       if bool_decide (LinkedIP d = AddrZero) then linkedIPToDeviceID m
       else <[LinkedIP d := devID]> (linkedIPToDeviceID m) |}.

Definition setDevices (m : Maps) (ds : list Device) : Maps := foldl setDevice m ds.

(** The body of the loop of [setProfiles]. *)
Definition setProfile (devChanges : gmap string StorageDeviceChange)
    (s : Maps * C * list error) (p : Profile) : Maps * C * list error :=
  let '(m, c, errs) := s in
  let '(p, m) := applyChanges m p (devChanges !! p_ID p) in
  let '(c, err) := setProfileCerts c p in
  (put_profile m p, c, collect "profile %q: %w" err errs).

Definition setProfiles (s : Maps * C * list error) (ps : list Profile) (ds : list Device)
    (devChanges : gmap string StorageDeviceChange) : Maps * C * list error :=
  let '(m, c, errs) := foldl (setProfile devChanges) s ps in
  (setDevices m ds, c, errs).

(** The body of the loop of [setProfilesFull]. *)
Definition setProfileFull (s : Maps * C * list error) (p : Profile) : Maps * C * list error :=
  let '(m, c, errs) := s in
  let '(c, err) := setProfileCerts c p in
  (put_profile m p, c, collect "profiles: at index %d: %w" err errs).

(** The maps are cleared first. *)
Definition setProfilesFull (c : C) (errs : list error) (ps : list Profile) (ds : list Device)
    : Maps * C * list error :=
  let '(m, c, errs) :=
    foldl setProfileFull (empty_maps, cdb_DeleteAllWellKnownPaths cdb c, errs) ps in
  (setDevices m ds, c, errs).

(** The database with the result of an update. *)
Definition with_data (db : Default) (s : Maps * C * list error) : Default := {|
  maps := s.1.1; customDomainDB := s.1.2; syncTime := syncTime db;
  lastCacheSync := lastCacheSync db; lastFullSync := lastFullSync db;
  lastFullSyncError := lastFullSyncError db; cacheIvl := cacheIvl db;
  fullSyncIvl := fullSyncIvl db; fullSyncRetryIvl := fullSyncRetryIvl db; collected := s.2;
|}.

Definition data (db : Default) : Maps * C * list error :=
  (maps db, customDomainDB db, collected db).

(** The four synchronization times. *)
Definition with_times (db : Default) (sync lastCache lastFull lastErr : Z) : Default := {|
  maps := maps db; customDomainDB := customDomainDB db; syncTime := sync;
  lastCacheSync := lastCache; lastFullSync := lastFull; lastFullSyncError := lastErr;
  cacheIvl := cacheIvl db; fullSyncIvl := fullSyncIvl db;
  fullSyncRetryIvl := fullSyncRetryIvl db; collected := collected db;
|}.

(** ** Refreshes *)

(** What a refresh calls: the storage, the file cache, and the times that the
    clock shows: when the decision for a full sync is made, when the data have
    been received, and when the cache has been stored. *)
Record Env := {
  env_Profiles : Z -> result error StorageProfilesResponse;
  env_Store : FileCache -> option error;
  env_now_check : Z;
  env_now_fetched : Z;
  env_now_stored : Z;
}.

(** The order of the values of a Go map is not specified. *)
Definition file_cache (db : Default) : FileCache := {|
  fc_SyncTime := syncTime db;
  fc_Profiles := (map_to_list (profiles (maps db))).*2;
  fc_Devices := (map_to_list (devices (maps db))).*2;
  fc_Version := FileCacheVersion;
|}.

Definition storeCache (env : Env) (db : Default) : option error * Default :=
  match env_Store env (file_cache db) with
  | Some e => (Some (ErrWrap "saving cache: %w" e), db)
  | None =>
      (None, with_times db (syncTime db) (env_now_stored env) (lastFullSync db) (lastFullSyncError db))
  end.

Definition requestSyncTime (db : Default) (isFullSync : bool) : Z :=
  if negb isFullSync then syncTime db else syncTimeFull.

Definition fetchProfiles (env : Env) (db : Default) (isFullSync : bool)
    : result error StorageProfilesResponse * Default :=
  match env_Profiles env (requestSyncTime db isFullSync) with
  | Err e => (Err (ErrWrap "updating profiles: %w" e), db)
  | Ok sr =>
      (Ok sr, with_times db (sr_SyncTime sr) (lastCacheSync db) (lastFullSync db) (lastFullSyncError db))
  end.

Definition needsFullSync (now : Z) (db : Default) : bool :=
  let sinceFull := Sub now (lastFullSync db) in
  if IsZero (lastFullSyncError db) then fullSyncIvl db <=? sinceFull
  else fullSyncRetryIvl db <=? Sub now (lastFullSyncError db).

(** The deferred function that annotates and collects the error. *)
Definition finish (r : option error * Default) : option error * Default :=
  match r with
  | (None, db) => (None, db)
  | (Some e, db) =>
      let e := ErrWrap "req %s: %w" e in
      (Some e, with_data db (maps db, customDomainDB db, collected db ++ [e]))
  end.

Definition refreshFull (env : Env) (db : Default) : option error * Default :=
  finish
    match fetchProfiles env db true with
    | (Err e, db) =>
        (Some (ErrWrap "fetching profiles: full sync: %w" e),
         with_times db (syncTime db) (lastCacheSync db) (lastFullSync db) (env_now_fetched env))
    | (Ok resp, db) =>
        let db := with_data db
          (setProfilesFull (customDomainDB db) (collected db) (sr_Profiles resp) (sr_Devices resp)) in
        let db := with_times db (syncTime db) (lastCacheSync db) (env_now_fetched env) 0 in
        storeCache env db
    end.

Definition Refresh (env : Env) (db : Default) : option error * Default :=
  if needsFullSync (env_now_check env) db then refreshFull env db
  else finish
    match fetchProfiles env db false with
    | (Err e, db) => (Some (ErrWrap "fetching profiles: %w" e), db)
    | (Ok resp, db) =>
        let db := with_data db
          (setProfiles (data db) (sr_Profiles resp) (sr_Devices resp) (DeviceChanges resp)) in
        if cacheIvl db <=? Sub (env_now_fetched env) (lastCacheSync db) then storeCache env db
        else (None, db)
    end.

(** ** Start *)

(** [load] is the result of [cache.Load]; [Ok None] means that there is no cache. *)
Definition loadFileCache (load : result error (option FileCache)) (db : Default)
    : option error * Default :=
  match load with
  | Err e => if Is e CacheVersionError then (None, db) else (Some e, db)
  | Ok None => (None, db)
  | Ok (Some c) =>
      if (length (fc_Profiles c) =? 0)%nat || (length (fc_Devices c) =? 0)%nat then (None, db)
      else
        let db := with_data db
          (setProfilesFull (customDomainDB db) (collected db) (fc_Profiles c) (fc_Devices c)) in
        (None, with_times db (fc_SyncTime c) (fc_SyncTime c) (fc_SyncTime c) (lastFullSyncError db))
  end.

(** An error of the cache is only logged. *)
Definition New (c : C) (cacheIvl fullSyncIvl fullSyncRetryIvl : Z)
    (load : result error (option FileCache)) : Default :=
  (loadFileCache load {|
    maps := empty_maps; customDomainDB := c; syncTime := 0; lastCacheSync := 0;
    lastFullSync := 0; lastFullSyncError := 0; cacheIvl := cacheIvl;
    fullSyncIvl := fullSyncIvl; fullSyncRetryIvl := fullSyncRetryIvl; collected := [];
  |}).2.

(** ** Automatic devices *)

(** The second critical section of [CreateAutoDevice]. *)
Definition storeAutoDevice (db : Default) (d : Device) : Default :=
  with_data db (setDevices (maps db) [d], customDomainDB db, collected db).

(** [create] is [Storage.CreateAutoDevice].  This is the whole call if nothing happens
    between its two critical sections. *)
Definition CreateAutoDevice (create : StorageCreateAutoDeviceRequest -> result error Device)
    (db : Default) (id humanID : string) (devType : Z) : result error (Profile * Device) * Default :=
  match profiles (maps db) !! id with
  | None => (Err (ErrConst ErrProfileNotFound), db)
  | Some p =>
      if negb (AutoDevicesEnabled p) then (Err (ErrConst ErrProfileNotFound), db)
      else
        match create {| req_ProfileID := id; req_HumanID := humanID; req_DeviceType := devType |} with
        | Err e => (Err e, db)
        | Ok d => (Ok (p, d), storeAutoDevice db d)
        end
  end.

End db.

(** ** Lookups *)

(** The result and the goroutines that have been started. *)
Notation lookup_result := (result error (Profile * Device) * list removal)%type.

Definition profileByDeviceID (m : Maps) (id : string) : lookup_result :=
  match deviceIDToProfileID m !! id with
  | None => (Err (ErrConst ErrDeviceNotFound), [])
  | Some profID =>
      match profiles m !! profID with
      | None => (Err (ErrConst ErrProfileNotFound), [removeDevice id])
      | Some p =>
          match (if bool_decide (id ∈ DeviceIDs p) then devices m !! id else None) with
          | None =>
              (Err (ErrWrap "rechecking devices: %w" (ErrConst ErrDeviceNotFound)),
               if negb (AutoDevicesEnabled p) then [removeDevice id] else [])
          | Some d => (Ok (p, d), [])
          end
      end
  end.

Definition ProfileByDeviceID (m : Maps) (id : string) : lookup_result := profileByDeviceID m id.

(** The part that three lookups share: an error of [profileByDeviceID] is
    wrapped, and if it is "device not found", the link is removed. *)
Definition checked (r : lookup_result) (errPrefix : string) (rm : removal)
    (recheck : Profile -> Device -> lookup_result) : lookup_result :=
  match r with
  | (Err err, rms) =>
      (Err (ErrWrap errPrefix err), if Is err ErrDeviceNotFound then rms ++ [rm] else rms)
  | (Ok (p, d), rms) => let '(r, rms') := recheck p d in (r, rms ++ rms')
  end.

Definition ProfileByDedicatedIP (m : Maps) (ip : Addr) : lookup_result :=
  match dedicatedIPToDeviceID m !! ip with
  | None => (Err (ErrConst ErrDeviceNotFound), [])
  | Some id =>
      checked (profileByDeviceID m id) "profile by device dedicated ip: %w" (removeDedicatedIP ip)
        (fun p d =>
           if negb (bool_decide (ip ∈ DedicatedIPs d))
           then (Err (ErrWrap "profile by device dedicated ip: rechecking dedicated ips: %w"
                        (ErrConst ErrDeviceNotFound)), [removeDedicatedIP ip])
           else (Ok (p, d), []))
  end.

Definition ProfileByHumanID (m : Maps) (id humanID : string) : lookup_result :=
  match profiles m !! id with
  | None => (Err (ErrConst ErrProfileNotFound), [])
  | Some _ =>
      let k := (humanID, id) in
      match humanIDToDeviceID m !! k with
      | None => (Err (ErrConst ErrDeviceNotFound), [])
      | Some devID =>
          checked (profileByDeviceID m devID) "profile by human id: %w" (removeHumanID k)
            (fun p d =>
               if negb (bool_decide (humanID = HumanIDLower d))
               then (Err (ErrWrap "profile by human id: rechecking human id: %w"
                            (ErrConst ErrDeviceNotFound)), [removeHumanID k])
               else (Ok (p, d), []))
      end
  end.

Definition ProfileByLinkedIP (m : Maps) (ip : Addr) : lookup_result :=
  match linkedIPToDeviceID m !! ip with
  | None => (Err (ErrConst ErrDeviceNotFound), [])
  | Some id =>
      checked (profileByDeviceID m id) "profile by device linked ip: %w" (removeLinkedIP ip)
        (fun p d =>
           if bool_decide (LinkedIP d = AddrZero)
           then (Err (ErrWrap "profile by device linked ip: device does not have linked ip: %w"
                        (ErrConst ErrDeviceNotFound)), [])
           else if negb (bool_decide (LinkedIP d = ip))
           then (Err (ErrWrap "profile by device linked ip: %q does not match: %w"
                        (ErrConst ErrDeviceNotFound)), [removeLinkedIP ip])
           else (Ok (p, d), []))
  end.

(** What the goroutine does when it runs. *)
Definition do_removal (m : Maps) (r : removal) : Maps := {|
  profiles := profiles m;
  devices := devices m;
  dedicatedIPToDeviceID :=
    match r with removeDedicatedIP ip => delete ip | _ => id end (dedicatedIPToDeviceID m);
  deviceIDToProfileID :=
    match r with removeDevice id => delete id | _ => id end (deviceIDToProfileID m);
  humanIDToDeviceID :=
    match r with removeHumanID k => delete k | _ => id end (humanIDToDeviceID m);
  linkedIPToDeviceID :=
    match r with removeLinkedIP ip => delete ip | _ => id end (linkedIPToDeviceID m);
|}.

(** ** Facts on the updates *)

Section put_all.
Context {K V : Type} `{Countable K}.
Implicit Types (m : gmap K V) (l : list (K * V)).

Lemma put_all_app m l l' : put_all m (l ++ l') = put_all (put_all m l) l'.
Proof. unfold put_all. by rewrite foldl_app. Qed.

Lemma put_all_other m l k : k ∉ l.*1 -> put_all m l !! k = m !! k.
Proof.
  revert m. induction l as [|[k' v] l IH]; intros m Hk; simpl; [done|].
  rewrite IH by set_solver. apply lookup_insert_ne. set_solver.
Qed.

Lemma put_all_Some m l k v :
  put_all m l !! k = Some v -> (k, v) ∈ l \/ (k ∉ l.*1 /\ m !! k = Some v).
Proof.
  revert m. induction l as [|[k' v'] l IH]; intros m Hk; simpl in *; [right; set_solver|].
  apply IH in Hk as [Hk|[Hk Hm]]; [left; by constructor|].
  apply lookup_insert_Some in Hm as [[-> ->]|[Hne Hm]]; [left; constructor|].
  right. set_solver.
Qed.

(** A key with one value gets this value. *)
Lemma put_all_unique m l k v :
  (k, v) ∈ l -> (forall v', (k, v') ∈ l -> v' = v) -> put_all m l !! k = Some v.
Proof.
  revert m. induction l as [|[k' v'] l IH]; intros m Hin Hu; [by apply elem_of_nil in Hin|].
  simpl. destruct (decide (k ∈ l.*1)) as [Hk|Hk].
  - apply list_elem_of_fmap in Hk as ([k1 v1] & E & Hk). simpl in E. subst k1.
    assert (v1 = v) as -> by (apply Hu; by constructor).
    apply IH; [done|]. intros v2 Hv2. apply Hu. by constructor.
  - rewrite put_all_other by done. apply elem_of_cons in Hin as [Hin|Hin].
    + injection Hin as <- <-. apply lookup_insert_eq.
    + destruct Hk. apply list_elem_of_fmap. by exists (k, v).
Qed.
End put_all.

(** The assignments that [setDevices] makes, map by map. *)
Definition ded_puts (ds : list Device) : list (Addr * string) :=
  ds ≫= fun d => (fun ip => (ip, d_ID d)) <$> DedicatedIPs d.

Definition link_puts (ds : list Device) : list (Addr * string) :=
  ds ≫= fun d => if bool_decide (LinkedIP d = AddrZero) then [] else [(LinkedIP d, d_ID d)].

Definition human_puts (dp : gmap string string) (ds : list Device) : list (string * string * string) :=
  ds ≫= fun d =>
    if bool_decide (HumanIDLower d = EmptyString) then []
    else match dp !! d_ID d with
         | None => []
         | Some profID => [((HumanIDLower d, profID), d_ID d)]
         end.

Lemma setDevices_spec m ds :
  setDevices m ds = {|
    profiles := profiles m;
    devices := put_all (devices m) ((fun d => (d_ID d, d)) <$> ds);
    dedicatedIPToDeviceID := put_all (dedicatedIPToDeviceID m) (ded_puts ds);
    deviceIDToProfileID := deviceIDToProfileID m;
    humanIDToDeviceID := put_all (humanIDToDeviceID m) (human_puts (deviceIDToProfileID m) ds);
    linkedIPToDeviceID := put_all (linkedIPToDeviceID m) (link_puts ds);
  |}.
Proof.
  unfold setDevices. revert m. induction ds as [|d ds IH]; intros m; [by destruct m|].
  simpl. rewrite IH. simpl. rewrite !put_all_app. f_equal.
  - case_bool_decide; simpl; [done|]. by destruct (deviceIDToProfileID m !! d_ID d).
  - by case_bool_decide.
Qed.

Definition owner_puts (ps : list Profile) : list (string * string) :=
  ps ≫= fun p => (fun id => (id, p_ID p)) <$> elements (DeviceIDs p).

Definition put_profiles (m : Maps) (ps : list Profile) : Maps := {|
  profiles := put_all (profiles m) ((fun p => (p_ID p, p)) <$> ps);
  devices := devices m;
  dedicatedIPToDeviceID := dedicatedIPToDeviceID m;
  deviceIDToProfileID := put_all (deviceIDToProfileID m) (owner_puts ps);
  humanIDToDeviceID := humanIDToDeviceID m;
  linkedIPToDeviceID := linkedIPToDeviceID m;
|}.

Lemma put_profiles_spec m ps : foldl put_profile m ps = put_profiles m ps.
Proof.
  revert m. induction ps as [|p ps IH]; intros m; [by destruct m|].
  simpl. rewrite IH. unfold put_profiles. simpl. by rewrite put_all_app.
Qed.

Lemma setProfilesFull_maps {C} (cdb : CustomDomainDBOps C) c errs ps ds :
  (setProfilesFull cdb c errs ps ds).1.1 = setDevices (put_profiles empty_maps ps) ds.
Proof.
  unfold setProfilesFull. rewrite <- put_profiles_spec.
  generalize (cdb_DeleteAllWellKnownPaths cdb c), errs, empty_maps.
  induction ps as [|p ps IH]; intros c' errs' m; [done|].
  simpl. destruct (setProfileCerts cdb c' p) as [c1 e1]. apply IH.
Qed.

Lemma elem_of_ded_puts ds ip id :
  (ip, id) ∈ ded_puts ds <-> exists d, d ∈ ds /\ ip ∈ DedicatedIPs d /\ d_ID d = id.
Proof.
  unfold ded_puts. rewrite list_elem_of_bind. setoid_rewrite list_elem_of_fmap. naive_solver.
Qed.

Lemma elem_of_link_puts ds ip id :
  (ip, id) ∈ link_puts ds <-> exists d, d ∈ ds /\ LinkedIP d = ip /\ ip <> AddrZero /\ d_ID d = id.
Proof.
  unfold link_puts. rewrite list_elem_of_bind. split.
  - intros (d & Hin & Hd). case_bool_decide; [by apply elem_of_nil in Hin|].
    apply list_elem_of_singleton in Hin as [= -> ->]. eauto.
  - intros (d & Hd & <- & Hz & <-). exists d. split; [|done].
    rewrite bool_decide_eq_false_2 by done. by apply list_elem_of_singleton.
Qed.

Lemma elem_of_human_puts dp ds h k id :
  (h, k, id) ∈ human_puts dp ds <->
  exists d, d ∈ ds /\ HumanIDLower d = h /\ h <> EmptyString /\ d_ID d = id /\ dp !! id = Some k.
Proof.
  unfold human_puts. rewrite list_elem_of_bind. split.
  - intros (d & Hin & Hd). case_bool_decide; [by apply elem_of_nil in Hin|].
    destruct (dp !! d_ID d) eqn:E; [|by apply elem_of_nil in Hin].
    apply list_elem_of_singleton in Hin as [= -> -> ->]. eauto 10.
  - intros (d & Hd & <- & Hz & <- & E). exists d. split; [|done].
    rewrite bool_decide_eq_false_2 by done. rewrite E. by apply list_elem_of_singleton.
Qed.

Lemma elem_of_owner_puts ps id k :
  (id, k) ∈ owner_puts ps <-> exists p, p ∈ ps /\ id ∈ DeviceIDs p /\ p_ID p = k.
Proof.
  unfold owner_puts. rewrite list_elem_of_bind. setoid_rewrite list_elem_of_fmap.
  setoid_rewrite elem_of_elements. naive_solver.
Qed.

(** ** What the database promises after a full synchronization *)

(** The data that the storage has: profiles and devices with unique IDs, no
    device in two profiles, and no address or name of two devices. *)
Record consistent (ps : list Profile) (ds : list Device) : Prop := {
  con_profiles p q : p ∈ ps -> q ∈ ps -> p_ID p = p_ID q -> p = q;
  con_devices d e : d ∈ ds -> e ∈ ds -> d_ID d = d_ID e -> d = e;
  con_owner p q id : p ∈ ps -> q ∈ ps -> id ∈ DeviceIDs p -> id ∈ DeviceIDs q -> p = q;
  con_dedicated d e ip : d ∈ ds -> e ∈ ds -> ip ∈ DedicatedIPs d -> ip ∈ DedicatedIPs e -> d = e;
  con_linked d e : d ∈ ds -> e ∈ ds -> LinkedIP d = LinkedIP e -> LinkedIP d <> AddrZero -> d = e;
  con_human p d e : p ∈ ps -> d ∈ ds -> e ∈ ds -> d_ID d ∈ DeviceIDs p -> d_ID e ∈ DeviceIDs p ->
    HumanIDLower d = HumanIDLower e -> HumanIDLower d <> EmptyString -> d = e;
}.

(** The specification: a device of a profile. *)
Definition attached (ps : list Profile) (ds : list Device) (p : Profile) (d : Device) : Prop :=
  p ∈ ps /\ d ∈ ds /\ d_ID d ∈ DeviceIDs p.

(** What the four lookups are to find. *)
Definition finds (m : Maps) (ps : list Profile) (ds : list Device) : Prop :=
  (forall id p d, (ProfileByDeviceID m id).1 = Ok (p, d) <->
     attached ps ds p d /\ d_ID d = id) /\
  (forall ip p d, (ProfileByDedicatedIP m ip).1 = Ok (p, d) <->
     attached ps ds p d /\ ip ∈ DedicatedIPs d) /\
  (forall ip p d, (ProfileByLinkedIP m ip).1 = Ok (p, d) <->
     attached ps ds p d /\ LinkedIP d = ip /\ ip <> AddrZero) /\
  (forall id h p d, (ProfileByHumanID m id h).1 = Ok (p, d) <->
     attached ps ds p d /\ p_ID p = id /\ HumanIDLower d = h /\ h <> EmptyString).

(** *** The lookups in terms of [profileByDeviceID] *)

Lemma checked_Ok r pre rm rc p d :
  (checked r pre rm rc).1 = Ok (p, d) <->
  exists p' d', r.1 = Ok (p', d') /\ (rc p' d').1 = Ok (p, d).
Proof.
  unfold checked. destruct r as [[[p' d']|e] rms]; simpl; [|naive_solver].
  destruct (rc p' d') as [r' rms'] eqn:E. simpl. split.
  - intros ->. exists p', d'. by rewrite E.
  - intros (? & ? & [= <- <-] & Hr). by rewrite E in Hr.
Qed.

Lemma ProfileByDedicatedIP_Ok m ip p d :
  (ProfileByDedicatedIP m ip).1 = Ok (p, d) <->
  exists id, dedicatedIPToDeviceID m !! ip = Some id /\
    (profileByDeviceID m id).1 = Ok (p, d) /\ ip ∈ DedicatedIPs d.
Proof.
  unfold ProfileByDedicatedIP. destruct (dedicatedIPToDeviceID m !! ip) as [id|]; [|naive_solver].
  rewrite checked_Ok. split.
  - intros (p' & d' & E & Hr). case_bool_decide; simpl in Hr; naive_solver.
  - intros (? & [= <-] & E & Hin). exists p, d. by rewrite bool_decide_eq_true_2.
Qed.

Lemma ProfileByLinkedIP_Ok m ip p d :
  (ProfileByLinkedIP m ip).1 = Ok (p, d) <->
  exists id, linkedIPToDeviceID m !! ip = Some id /\
    (profileByDeviceID m id).1 = Ok (p, d) /\ LinkedIP d = ip /\ ip <> AddrZero.
Proof.
  unfold ProfileByLinkedIP. destruct (linkedIPToDeviceID m !! ip) as [id|]; [|naive_solver].
  rewrite checked_Ok. split.
  - intros (p' & d' & E & Hr). repeat case_bool_decide; simpl in Hr; naive_solver.
  - intros (? & [= <-] & E & Hl & Hz). exists p, d.
    rewrite bool_decide_eq_false_2 by congruence. by rewrite bool_decide_eq_true_2.
Qed.

Lemma ProfileByHumanID_Ok m k h p d :
  (ProfileByHumanID m k h).1 = Ok (p, d) <->
  is_Some (profiles m !! k) /\
  exists id, humanIDToDeviceID m !! (h, k) = Some id /\
    (profileByDeviceID m id).1 = Ok (p, d) /\ HumanIDLower d = h.
Proof.
  unfold ProfileByHumanID. destruct (profiles m !! k) as [q|] eqn:Eq.
  2:{ split; [done|]. by intros [[? ?] _]. }
  destruct (humanIDToDeviceID m !! (h, k)) as [id|]; [|naive_solver].
  rewrite checked_Ok. split.
  - intros (p' & d' & E & Hr). case_bool_decide; simpl in Hr; naive_solver.
  - intros (_ & ? & [= <-] & E & Hl). exists p, d. by rewrite bool_decide_eq_true_2.
Qed.

Section full_sync.
Context (ps : list Profile) (ds : list Device) (Hcon : consistent ps ds).

Definition full_maps : Maps := setDevices (put_profiles empty_maps ps) ds.

Lemma full_profiles k p : profiles full_maps !! k = Some p <-> p ∈ ps /\ p_ID p = k.
Proof.
  unfold full_maps. rewrite setDevices_spec. simpl. split.
  - intros E. apply put_all_Some in E as [E|[_ E]]; [|by rewrite lookup_empty in E].
    apply list_elem_of_fmap in E as (q & [= -> ->] & Hq). done.
  - intros [Hp <-]. apply put_all_unique; [apply list_elem_of_fmap; eauto|].
    intros q (q' & [= E ->] & Hq)%list_elem_of_fmap. by eapply con_profiles.
Qed.

Lemma full_devices k d : devices full_maps !! k = Some d <-> d ∈ ds /\ d_ID d = k.
Proof.
  unfold full_maps. rewrite setDevices_spec. simpl. split.
  - intros E. apply put_all_Some in E as [E|[_ E]]; [|by rewrite lookup_empty in E].
    apply list_elem_of_fmap in E as (q & [= -> ->] & Hq). done.
  - intros [Hp <-]. apply put_all_unique; [apply list_elem_of_fmap; eauto|].
    intros q (q' & [= E ->] & Hq)%list_elem_of_fmap. by eapply con_devices.
Qed.

Lemma full_owner id k :
  deviceIDToProfileID full_maps !! id = Some k <-> exists p, p ∈ ps /\ id ∈ DeviceIDs p /\ p_ID p = k.
Proof.
  unfold full_maps. rewrite setDevices_spec. simpl. rewrite <- elem_of_owner_puts. split.
  - intros E. by apply put_all_Some in E as [E|[_ E]]; [|rewrite lookup_empty in E].
  - intros E. apply put_all_unique; [done|].
    apply elem_of_owner_puts in E as (p & Hp & Hid & <-).
    intros k' (q & Hq & Hid' & <-)%elem_of_owner_puts. f_equal. by eapply con_owner.
Qed.

Lemma full_dedicated ip id :
  dedicatedIPToDeviceID full_maps !! ip = Some id <->
  exists d, d ∈ ds /\ ip ∈ DedicatedIPs d /\ d_ID d = id.
Proof.
  unfold full_maps. rewrite setDevices_spec. simpl. rewrite <- elem_of_ded_puts. split.
  - intros E. by apply put_all_Some in E as [E|[_ E]]; [|rewrite lookup_empty in E].
  - intros E. apply put_all_unique; [done|].
    apply elem_of_ded_puts in E as (d & Hd & Hin & <-).
    intros k' (e & He & Hin' & <-)%elem_of_ded_puts. f_equal. by eapply con_dedicated.
Qed.

Lemma full_linked ip id :
  linkedIPToDeviceID full_maps !! ip = Some id <->
  exists d, d ∈ ds /\ LinkedIP d = ip /\ ip <> AddrZero /\ d_ID d = id.
Proof.
  unfold full_maps. rewrite setDevices_spec. simpl. rewrite <- elem_of_link_puts. split.
  - intros E. by apply put_all_Some in E as [E|[_ E]]; [|rewrite lookup_empty in E].
  - intros E. apply put_all_unique; [done|].
    apply elem_of_link_puts in E as (d & Hd & Hl & Hz & <-).
    intros k' (e & He & Hl' & _ & <-)%elem_of_link_puts. f_equal.
    symmetry. eapply con_linked; [done..| |]; congruence.
Qed.

Lemma full_human h k id :
  humanIDToDeviceID full_maps !! (h, k) = Some id <->
  exists p d, attached ps ds p d /\ p_ID p = k /\ HumanIDLower d = h /\ h <> EmptyString /\ d_ID d = id.
Proof.
  assert (deviceIDToProfileID (put_profiles empty_maps ps) = deviceIDToProfileID full_maps) as Edp.
  { unfold full_maps. by rewrite setDevices_spec. }
  unfold full_maps. rewrite setDevices_spec. cbn [humanIDToDeviceID]. rewrite Edp.
  assert ((h, k, id) ∈ human_puts (deviceIDToProfileID full_maps) ds <->
    exists p d, attached ps ds p d /\ p_ID p = k /\ HumanIDLower d = h /\ h <> EmptyString /\ d_ID d = id)
    as <-.
  { rewrite elem_of_human_puts. setoid_rewrite full_owner. unfold attached. naive_solver. }
  split.
  - intros E. by apply put_all_Some in E as [E|[_ E]].
  - intros E. apply put_all_unique; [done|].
    apply elem_of_human_puts in E as (d & Hd & Hh & Hz & <- & (p & Hp & Hin & Hk)%full_owner).
    intros id' (e & He & Hh' & _ & <- & (q & Hq & Hin' & Hk')%full_owner)%elem_of_human_puts.
    assert (p = q) as <- by (apply (con_profiles _ _ Hcon); congruence).
    f_equal. symmetry. eapply con_human; [done|exact Hp|..]; try done; congruence.
Qed.

Lemma full_by_id id p d :
  (profileByDeviceID full_maps id).1 = Ok (p, d) <-> attached ps ds p d /\ d_ID d = id.
Proof.
  unfold profileByDeviceID, attached. split.
  - destruct (deviceIDToProfileID full_maps !! id) as [k|] eqn:Ek; [|done].
    destruct (profiles full_maps !! k) as [p'|] eqn:Ep; [|done].
    case_bool_decide as Hin; [|done]. destruct (devices full_maps !! id) as [d'|] eqn:Ed; [|done].
    intros [= -> ->]. apply full_profiles in Ep as [Hp _]. apply full_devices in Ed as [Hd <-]. done.
  - intros [(Hp & Hd & Hin) <-].
    assert (deviceIDToProfileID full_maps !! d_ID d = Some (p_ID p)) as -> by (apply full_owner; eauto).
    assert (profiles full_maps !! p_ID p = Some p) as -> by by apply full_profiles.
    rewrite bool_decide_eq_true_2 by done.
    assert (devices full_maps !! d_ID d = Some d) as -> by by apply full_devices. done.
Qed.

Lemma full_finds : finds full_maps ps ds.
Proof.
  unfold finds. split_and!.
  - apply full_by_id.
  - intros ip p d. rewrite ProfileByDedicatedIP_Ok. setoid_rewrite full_dedicated.
    setoid_rewrite full_by_id. split.
    + naive_solver.
    + intros [Ha Hin]. exists (d_ID d). split; [|done]. destruct Ha as (_ & Hd & _). eauto.
  - intros ip p d. rewrite ProfileByLinkedIP_Ok. setoid_rewrite full_linked.
    setoid_rewrite full_by_id. split.
    + naive_solver.
    + intros (Ha & Hl & Hz). exists (d_ID d). destruct Ha as (? & Hd & ?).
      split; [eauto|]. unfold attached. naive_solver.
  - intros k h p d. rewrite ProfileByHumanID_Ok. setoid_rewrite full_human.
    setoid_rewrite full_by_id. split.
    + intros (_ & id & (q & e & He & Hq & Hh & Hz & Hid) & (Ha & Hid') & Hh').
      assert (d = e) as ->.
      { destruct Ha as (_ & Hd & _), He as (_ & He & _). eapply con_devices; [done..|congruence]. }
      assert (p = q) as ->.
      { destruct Ha as (Hp & _ & Hi), He as (Hq' & _ & Hi'). by eapply con_owner. }
      done.
    + intros (Ha & <- & Hh & Hz). split.
      { exists p. apply full_profiles. by destruct Ha as (? & _ & _). }
      exists (d_ID d). split; [|done]. by exists p, d.
Qed.

End full_sync.

(** C1. After a full synchronization with consistent data the database answers
    exactly like the data it received: each of the four lookups succeeds with
    [(p, d)] iff [d] is a device of the profile [p] and has the requested ID,
    dedicated IP address, linked IP address, or profile and human-readable ID.
    Nothing from before the synchronization is left. *)
Theorem full_sync_refines {C} (cdb : CustomDomainDBOps C) c errs ps ds :
  consistent ps ds -> finds (setProfilesFull cdb c errs ps ds).1.1 ps ds.
Proof. intros Hcon. rewrite setProfilesFull_maps. by apply full_finds. Qed.

(** ** The running database *)

(** The database with the removal goroutines that have not run yet. *)
Section running.
Context {C : Type} (cdb : CustomDomainDBOps C).

Record sys := { s_db : Default (C := C); pending : list removal }.

Inductive query :=
  | ByDeviceID (id : string)
  | ByDedicatedIP (ip : Addr)
  | ByHumanID (id humanID : string)
  | ByLinkedIP (ip : Addr).

Definition lookup (m : Maps) (q : query) : lookup_result :=
  match q with
  | ByDeviceID id => ProfileByDeviceID m id
  | ByDedicatedIP ip => ProfileByDedicatedIP m ip
  | ByHumanID id h => ProfileByHumanID m id h
  | ByLinkedIP ip => ProfileByLinkedIP m ip
  end.

Inductive event :=
  | EvRefresh (env : Env)
  | EvRefreshFull (env : Env)
  | EvCreate (create : StorageCreateAutoDeviceRequest -> result error Device)
      (id humanID : string) (devType : Z)
  | EvStoreDevice (d : Device)   (* the end of a creation that began earlier *)
  | EvLookup (q : query)
  | EvRemoval (i : nat).   (* the goroutine at this position runs *)

Definition with_maps (db : Default (C := C)) (m : Maps) : Default :=
  with_data db (m, customDomainDB db, collected db).

Definition exec (s : sys) (e : event) : sys :=
  match e with
  | EvRefresh env => {| s_db := (Refresh cdb env (s_db s)).2; pending := pending s |}
  | EvRefreshFull env => {| s_db := (refreshFull cdb env (s_db s)).2; pending := pending s |}
  | EvCreate create id h t =>
      {| s_db := (CreateAutoDevice create (s_db s) id h t).2; pending := pending s |}
  | EvStoreDevice d => {| s_db := storeAutoDevice (s_db s) d; pending := pending s |}
  | EvLookup q => {| s_db := s_db s; pending := pending s ++ (lookup (maps (s_db s)) q).2 |}
  | EvRemoval i =>
      match pending s !! i with
      | None => s
      | Some r =>
          {| s_db := with_maps (s_db s) (do_removal (maps (s_db s)) r);
             pending := take i (pending s) ++ drop (S i) (pending s) |}
      end
  end.

Definition start (c : C) (cIvl fIvl rIvl : Z) (load : result error (option FileCache)) : sys :=
  {| s_db := New cdb c cIvl fIvl rIvl load; pending := [] |}.

(** *** The invariant *)

Record maps_ok (m : Maps) : Prop := {
  ok_profile k p : profiles m !! k = Some p -> p_ID p = k;
  ok_device k d : devices m !! k = Some d -> d_ID d = k;
  ok_dedicated ip id : dedicatedIPToDeviceID m !! ip = Some id -> is_Some (devices m !! id);
  ok_linked ip id : linkedIPToDeviceID m !! ip = Some id -> is_Some (devices m !! id);
  ok_human k id : humanIDToDeviceID m !! k = Some id -> is_Some (devices m !! id);
}.

Lemma maps_ok_empty : maps_ok empty_maps.
Proof. split; intros; simpl in *; by rewrite lookup_empty in *. Qed.

Lemma maps_ok_put_profile m p : maps_ok m -> maps_ok (put_profile m p).
Proof.
  intros [Hp Hd H1 H2 H3]. split; simpl; try done.
  intros k q [[<- <-]|[_ Hq]]%lookup_insert_Some; eauto.
Qed.

Lemma maps_ok_applyChanges m p chg : maps_ok m ->
  p_ID (applyChanges m p chg).1 = p_ID p /\ maps_ok (applyChanges m p chg).2.
Proof.
  intros Hok. unfold applyChanges. destruct chg as [chg|]; [|done].
  destruct (negb (IsPartial chg)); [done|]. destruct (profiles m !! p_ID p); [|done].
  split; [done|]. by destruct Hok.
Qed.

Lemma maps_ok_setDevice m d : maps_ok m -> maps_ok (setDevice m d).
Proof.
  intros [Hp Hd H1 H2 H3].
  assert (forall id, is_Some (devices m !! id) -> is_Some (<[d_ID d:=d]> (devices m) !! id)) as Hmono.
  { intros id [e He]. destruct (decide (id = d_ID d)) as [->|].
    - rewrite lookup_insert_eq. eauto.
    - rewrite lookup_insert_ne by done. eauto. }
  assert (is_Some (<[d_ID d:=d]> (devices m) !! d_ID d)) as Hself by (rewrite lookup_insert_eq; eauto).
  split; simpl; try done.
  - intros k e [[<- <-]|[_ Hq]]%lookup_insert_Some; eauto.
  - intros ip id E. apply put_all_Some in E as [E|[_ E]]; [|eauto].
    apply list_elem_of_fmap in E as (? & [= _ ->] & _). done.
  - intros ip id. case_bool_decide; [eauto|]. intros [[_ <-]|[_ E]]%lookup_insert_Some; eauto.
  - intros k id. case_bool_decide; [eauto|]. destruct (deviceIDToProfileID m !! d_ID d); [|eauto].
    intros [[_ <-]|[_ E]]%lookup_insert_Some; eauto.
Qed.

Lemma maps_ok_setDevices m ds : maps_ok m -> maps_ok (setDevices m ds).
Proof. intros Hok. unfold setDevices. apply foldl_inv; [done|]. eauto using maps_ok_setDevice. Qed.

Lemma maps_ok_setProfiles s ps ds chg : maps_ok s.1.1 -> maps_ok (setProfiles cdb s ps ds chg).1.1.
Proof.
  intros Hok. unfold setProfiles.
  assert (maps_ok (foldl (setProfile cdb chg) s ps).1.1) as H.
  { apply (foldl_inv _ (fun s => maps_ok s.1.1)); [done|].
    intros [[m c] errs] p _ Hm. unfold setProfile.
    destruct (maps_ok_applyChanges m p (chg !! p_ID p) Hm) as [_ Hm'].
    destruct (applyChanges m p _) as [p' m']. destruct (setProfileCerts cdb c p').
    by apply maps_ok_put_profile. }
  destruct (foldl _ s ps) as [[m c] errs]. by apply maps_ok_setDevices.
Qed.

Lemma maps_ok_full c errs ps ds : maps_ok (setProfilesFull cdb c errs ps ds).1.1.
Proof.
  rewrite setProfilesFull_maps. apply maps_ok_setDevices. rewrite <- put_profiles_spec.
  apply foldl_inv; [apply maps_ok_empty|]. eauto using maps_ok_put_profile.
Qed.

Lemma maps_ok_removal m r : maps_ok m -> maps_ok (do_removal m r).
Proof.
  intros [Hp Hd H1 H2 H3]. split; simpl; try done.
  - intros ip id E. destruct r; try by eapply H1. apply lookup_delete_Some in E as [_ E]. eauto.
  - intros ip id E. destruct r; try by eapply H2. apply lookup_delete_Some in E as [_ E]. eauto.
  - intros k id E. destruct r; try by eapply H3. apply lookup_delete_Some in E as [_ E]. eauto.
Qed.

Lemma finish_maps r : maps (finish (C := C) r).2 = maps r.2.
Proof. by destruct r as [[]]. Qed.

Lemma storeCache_maps env db : maps (storeCache (C := C) env db).2 = maps db.
Proof. unfold storeCache. by destruct (env_Store env _). Qed.

Lemma maps_ok_refreshFull env db : maps_ok (maps db) -> maps_ok (maps (refreshFull cdb env db).2).
Proof.
  intros Hok. unfold refreshFull. rewrite finish_maps. unfold fetchProfiles.
  destruct (env_Profiles env _) as [sr|e]; [|done]. rewrite storeCache_maps. apply maps_ok_full.
Qed.

Lemma maps_ok_Refresh env db : maps_ok (maps db) -> maps_ok (maps (Refresh cdb env db).2).
Proof.
  intros Hok. unfold Refresh. destruct (needsFullSync _ db); [by apply maps_ok_refreshFull|].
  rewrite finish_maps. unfold fetchProfiles. destruct (env_Profiles env _) as [sr|e]; [|done].
  set (db' := with_data _ _). assert (maps_ok (maps db')) by by apply maps_ok_setProfiles.
  destruct (cacheIvl db' <=? _); [by rewrite storeCache_maps|done].
Qed.

Lemma maps_ok_New c cIvl fIvl rIvl load : maps_ok (maps (New cdb c cIvl fIvl rIvl load)).
Proof.
  unfold New, loadFileCache. destruct load as [[fc|]|e].
  - case_if; [apply maps_ok_empty|apply maps_ok_full].
  - apply maps_ok_empty.
  - case_if; apply maps_ok_empty.
Qed.

Lemma exec_maps_ok s e : maps_ok (maps (s_db s)) -> maps_ok (maps (s_db (exec s e))).
Proof.
  intros Hok. destruct e as [env|env|create id h t|d|q|i]; simpl.
  - by apply maps_ok_Refresh.
  - by apply maps_ok_refreshFull.
  - unfold CreateAutoDevice. destruct (profiles _ !! id) as [p|]; [|done].
    destruct (negb (AutoDevicesEnabled p)); [done|]. destruct (create _) as [d|]; [|done].
    by apply maps_ok_setDevices.
  - by apply (maps_ok_setDevices _ [d]).
  - done.
  - destruct (pending s !! i); [|done]. by apply maps_ok_removal.
Qed.

(** The profile and the device are in the database, the device is attached to
    the profile and registered with it. *)
Definition belongs (m : Maps) (p : Profile) (d : Device) : Prop :=
  profiles m !! p_ID p = Some p /\ devices m !! d_ID d = Some d /\
  d_ID d ∈ DeviceIDs p /\ deviceIDToProfileID m !! d_ID d = Some (p_ID p).

Lemma profileByDeviceID_sound m id p d : maps_ok m ->
  (profileByDeviceID m id).1 = Ok (p, d) -> belongs m p d /\ d_ID d = id.
Proof.
  intros Hok. unfold profileByDeviceID.
  destruct (deviceIDToProfileID m !! id) as [k|] eqn:Ek; [|done].
  destruct (profiles m !! k) as [p'|] eqn:Ep; [|done].
  case_bool_decide as Hin; [|done]. destruct (devices m !! id) as [d'|] eqn:Ed; [|done].
  intros [= -> ->]. pose proof (ok_profile _ Hok _ _ Ep) as <-.
  pose proof (ok_device _ Hok _ _ Ed) as <-. done.
Qed.

(** C15. Whatever sequence of refreshes, failed refreshes, device creations,
    lookups and delayed removals has been executed, in any interleaving, a
    lookup that succeeds returns a device that is in the database under its own
    ID, is attached to the returned profile, and has the ID, the dedicated
    address, the nonempty linked address or the human-readable ID that was asked
    for. *)
Theorem lookups_sound c cIvl fIvl rIvl load evs q p d :
  let m := maps (s_db (foldl exec (start c cIvl fIvl rIvl load) evs)) in
  (lookup m q).1 = Ok (p, d) ->
  belongs m p d /\
  match q with
  | ByDeviceID id => d_ID d = id
  | ByDedicatedIP ip => ip ∈ DedicatedIPs d
  | ByHumanID _ h => HumanIDLower d = h
  | ByLinkedIP ip => LinkedIP d = ip /\ ip <> AddrZero
  end.
Proof.
  intros m. assert (maps_ok m) as Hok.
  { apply (foldl_inv _ (fun s => maps_ok (maps (s_db s)))); [apply maps_ok_New|].
    eauto using exec_maps_ok. }
  destruct q as [id|ip|k h|ip]; simpl.
  - by apply profileByDeviceID_sound.
  - intros (id & _ & E & Hin)%ProfileByDedicatedIP_Ok.
    by apply profileByDeviceID_sound in E as [? _].
  - intros (_ & id & _ & E & Hh)%ProfileByHumanID_Ok.
    by apply profileByDeviceID_sound in E as [? _].
  - intros (id & _ & E & Hin)%ProfileByLinkedIP_Ok.
    by apply profileByDeviceID_sound in E as [? _].
Qed.

End running.

(** ** Removals *)

(** The lookup that the removal is about does not succeed. *)
Definition stale (m : Maps) (r : removal) : Prop :=
  match r with
  | removeDevice id => forall x, (profileByDeviceID m id).1 <> Ok x
  | removeDedicatedIP ip => forall x, (ProfileByDedicatedIP m ip).1 <> Ok x
  | removeHumanID k => forall x, (ProfileByHumanID m k.2 k.1).1 <> Ok x
  | removeLinkedIP ip => forall x, (ProfileByLinkedIP m ip).1 <> Ok x
  end.

Lemma profileByDeviceID_removals m id r :
  r ∈ (profileByDeviceID m id).2 -> r = removeDevice id /\ stale m r.
Proof.
  intros Hr. assert (r = removeDevice id /\ (profileByDeviceID m id).2 <> []) as [-> Hne].
  { unfold profileByDeviceID in *. repeat (case_match; simpl in *); set_solver. }
  split; [done|]. intros x E. unfold profileByDeviceID in *. repeat (case_match; simpl in *); done.
Qed.

(** A removal of a lookup is that of [profileByDeviceID] or the lookup's own,
    and then the lookup has failed. *)
Lemma checked_removals m id pre rm rc r :
  (forall p d r, r ∈ (rc p d).2 -> r = rm /\ forall x, (rc p d).1 <> Ok x) ->
  r ∈ (checked (profileByDeviceID m id) pre rm rc).2 ->
  stale m r \/ (r = rm /\ forall x, (checked (profileByDeviceID m id) pre rm rc).1 <> Ok x).
Proof.
  intros Hrc Hr. pose proof (profileByDeviceID_removals m id r) as Hp. unfold checked in *.
  destruct (profileByDeviceID m id) as [[[p d]|e] rms]; simpl in *.
  - specialize (Hrc p d r). destruct (rc p d) as [res rms']. simpl in *. set_solver.
  - case_match; set_solver.
Qed.

Lemma lookup_removals m q r : r ∈ (lookup m q).2 -> stale m r.
Proof.
  destruct q as [id|ip|k h|ip]; simpl.
  - apply profileByDeviceID_removals.
  - intros Hr. assert (r ∈ (ProfileByDedicatedIP m ip).2) as Hr' by done. revert Hr'.
    unfold ProfileByDedicatedIP at 1. destruct (dedicatedIPToDeviceID m !! ip) as [id|] eqn:E; [|set_solver].
    intros Hc. apply checked_removals in Hc as [Hc|[-> Hc]]; [done| |].
    + intros x. unfold ProfileByDedicatedIP. rewrite E. apply Hc.
    + intros p' d' r' Hin. case_bool_decide; simpl in *; set_solver.
  - intros Hr. assert (r ∈ (ProfileByHumanID m k h).2) as Hr' by done. revert Hr'.
    unfold ProfileByHumanID at 1. destruct (profiles m !! k) eqn:Ek; [|set_solver].
    destruct (humanIDToDeviceID m !! (h, k)) as [id|] eqn:E; [|set_solver].
    intros Hc. apply checked_removals in Hc as [Hc|[-> Hc]]; [done| |].
    + intros x. simpl. unfold ProfileByHumanID. rewrite Ek, E. apply Hc.
    + intros p' d' r' Hin. case_bool_decide; simpl in *; set_solver.
  - intros Hr. assert (r ∈ (ProfileByLinkedIP m ip).2) as Hr' by done. revert Hr'.
    unfold ProfileByLinkedIP at 1. destruct (linkedIPToDeviceID m !! ip) as [id|] eqn:E; [|set_solver].
    intros Hc. apply checked_removals in Hc as [Hc|[-> Hc]]; [done| |].
    + intros x. unfold ProfileByLinkedIP. rewrite E. apply Hc.
    + intros p' d' r' Hin. repeat case_bool_decide; simpl in *; set_solver.
Qed.

Lemma profileByDeviceID_removal m r id x : stale m r ->
  (profileByDeviceID (do_removal m r) id).1 = Ok x <-> (profileByDeviceID m id).1 = Ok x.
Proof.
  intros Hs. destruct r as [id'|ip|k|ip]; try done.
  destruct (decide (id = id')) as [->|Hne].
  - split; [|intros E; by destruct (Hs x)]. unfold profileByDeviceID at 1. simpl.
    by rewrite lookup_delete_eq.
  - unfold profileByDeviceID. simpl. by rewrite lookup_delete_ne.
Qed.

(** A link that is removed is one that does not lead to a device. *)
Lemma delete_link {K} `{Countable K} (m : gmap K string) (k k' : K) (P : string -> Prop) :
  (k = k' -> forall id, m !! k = Some id -> ~ P id) ->
  (exists id, delete k' m !! k = Some id /\ P id) <-> (exists id, m !! k = Some id /\ P id).
Proof.
  intros Hk. split; intros (id & Hid & HP); exists id.
  - by apply lookup_delete_Some in Hid as [_ Hid].
  - split; [|done]. apply lookup_delete_Some. split; [|done]. intros ->. by eapply Hk.
Qed.

(** A removal goroutine is harmless if nothing happens between the lookup
    that starts it and its execution: afterwards exactly the same lookups
    succeed, with the same results, as before. *)
Theorem removal_keeps_results m q r q' p d :
  r ∈ (lookup m q).2 ->
  (lookup (do_removal m r) q').1 = Ok (p, d) <-> (lookup m q').1 = Ok (p, d).
Proof.
  intros Hr%lookup_removals. destruct q' as [id|ip|k h|ip]; simpl.
  - by apply profileByDeviceID_removal.
  - rewrite !ProfileByDedicatedIP_Ok. setoid_rewrite (profileByDeviceID_removal m r); [|done].
    destruct r as [id'|ip'|k'|ip']; try done. apply delete_link.
    intros <- id E [Hp Hin]. apply (Hr (p, d)), ProfileByDedicatedIP_Ok. eauto.
  - rewrite !ProfileByHumanID_Ok. setoid_rewrite (profileByDeviceID_removal m r); [|done].
    destruct r as [id'|ip'|k'|ip']; try done.
    destruct (decide (is_Some (profiles m !! k))) as [Hk|Hk]; [|simpl; tauto].
    apply and_iff_compat_l, delete_link. intros <- id E [Hp Hh].
    apply (Hr (p, d)), ProfileByHumanID_Ok. eauto.
  - rewrite !ProfileByLinkedIP_Ok. setoid_rewrite (profileByDeviceID_removal m r); [|done].
    destruct r as [id'|ip'|k'|ip']; try done. apply delete_link.
    intros <- id E [Hp Hin]. apply (Hr (p, d)), ProfileByLinkedIP_Ok. eauto.
Qed.

(** ** Partial synchronization *)

Section partial.
Context {C : Type} (cdb : CustomDomainDBOps C) (chg : gmap string StorageDeviceChange).

(** The profile as it is to be stored: on a partial change of a known profile
    the previous devices are kept, except for the deleted ones. *)
Definition merged (m : Maps) (p : Profile) : Profile :=
  match chg !! p_ID p, profiles m !! p_ID p with
  | Some c, Some prev =>
      if IsPartial c
      then with_DeviceIDs p ((DeviceIDs p ∪ DeviceIDs prev) ∖ list_to_set (DeletedDeviceIDs c))
      else p
  | _, _ => p
  end.

Lemma foldl_difference (X : gset string) l :
  foldl (fun ids id => ids ∖ {[id]}) X l = X ∖ list_to_set l.
Proof. revert X. induction l as [|x l IH]; intros X; simpl; [set_solver|]. rewrite IH. set_solver. Qed.

Lemma applyChanges_merged m p : (applyChanges m p (chg !! p_ID p)).1 = merged m p.
Proof.
  unfold applyChanges, merged. destruct (chg !! p_ID p) as [c|]; [|done].
  destruct (IsPartial c), (profiles m !! p_ID p); simpl; by rewrite ?foldl_difference.
Qed.

(** The maps after one profile. *)
Definition update_maps (m : Maps) (p : Profile) : Maps :=
  put_profile (applyChanges m p (chg !! p_ID p)).2 (merged m p).

(** The devices that a partial change of a known profile deletes. *)
Definition deleted (m : Maps) (p : Profile) : list string :=
  match chg !! p_ID p, profiles m !! p_ID p with
  | Some c, Some _ => if IsPartial c then DeletedDeviceIDs c else []
  | _, _ => []
  end.

Lemma setProfiles_maps s ps ds :
  (setProfiles cdb s ps ds chg).1.1 = setDevices (foldl update_maps s.1.1 ps) ds.
Proof.
  unfold setProfiles.
  assert ((foldl (setProfile cdb chg) s ps).1.1 = foldl update_maps s.1.1 ps) as <-.
  { revert s. induction ps as [|p ps IH]; intros [[m c] errs]; [done|]. simpl. rewrite IH.
    f_equal. unfold update_maps. rewrite <- applyChanges_merged. destruct (applyChanges m p _) as [p' m'].
    by destruct (setProfileCerts cdb c p'). }
  by destruct (foldl _ s ps) as [[m c] errs].
Qed.

Lemma merged_ID m p : p_ID (merged m p) = p_ID p.
Proof. unfold merged, applyChanges. by repeat case_match. Qed.

Lemma merged_profiles m m' p : profiles m !! p_ID p = profiles m' !! p_ID p ->
  merged m p = merged m' p /\ deleted m p = deleted m' p.
Proof. intros E. unfold merged, deleted. by rewrite E. Qed.

Lemma update_maps_profiles m p : profiles (update_maps m p) = <[p_ID p := merged m p]> (profiles m).
Proof.
  unfold update_maps. simpl. rewrite merged_ID. f_equal. unfold applyChanges. by repeat case_match.
Qed.

Lemma update_maps_devices m p : devices (update_maps m p) = devices m.
Proof. unfold update_maps, applyChanges. by repeat case_match. Qed.

Lemma foldl_update_devices m ps : devices (foldl update_maps m ps) = devices m.
Proof.
  revert m. induction ps as [|p ps IH]; intros m; [done|]. simpl. by rewrite IH, update_maps_devices.
Qed.

Lemma delete_all (l : list string) (dp : gmap string string) id :
  foldl (fun dp id => delete id dp) dp l !! id = if bool_decide (id ∈ l) then None else dp !! id.
Proof.
  revert dp. induction l as [|x l IH]; intros dp; simpl; [done|]. rewrite IH.
  destruct (decide (id = x)) as [->|Hx].
  - rewrite (bool_decide_eq_true_2 (x ∈ x :: l)) by left. rewrite lookup_delete_eq. by case_bool_decide.
  - rewrite lookup_delete_ne by done. erewrite (bool_decide_ext (id ∈ x :: l)); [done|]. rewrite elem_of_cons. naive_solver.
Qed.

Lemma update_maps_owner m p id : id ∈ DeviceIDs (merged m p) ->
  deviceIDToProfileID (update_maps m p) !! id = Some (p_ID p).
Proof.
  intros Hin. unfold update_maps. simpl. rewrite merged_ID. apply put_all_unique.
  - apply list_elem_of_fmap. exists id. split; [done|]. by apply elem_of_elements.
  - intros k (id' & [= _ ->] & _)%list_elem_of_fmap. done.
Qed.

Lemma update_maps_owner_other m p id : id ∉ DeviceIDs (merged m p) ->
  deviceIDToProfileID (update_maps m p) !! id =
  if bool_decide (id ∈ deleted m p) then None else deviceIDToProfileID m !! id.
Proof.
  intros Hin. unfold update_maps. simpl. rewrite put_all_other.
  - unfold applyChanges, deleted. destruct (chg !! p_ID p) as [c|]; [|done]. simpl.
    destruct (IsPartial c), (profiles m !! p_ID p); simpl; try done. by rewrite delete_all.
  - intros ([? ?] & E & (id' & [= -> ->] & Hid)%list_elem_of_fmap)%list_elem_of_fmap.
    simpl in E. subst. by apply elem_of_elements in Hid.
Qed.

(** *** The database after a partial synchronization *)

(** The owner of a device: the last profile of the response that mentions the device
    says it, and otherwise the previous one stays. *)
Definition synced_owner (m : Maps) (ps : list Profile) (id : string) : option string :=
  match last (filter (fun q => id ∈ DeviceIDs (merged m q) \/ id ∈ deleted m q) ps) with
  | Some q => if bool_decide (id ∈ DeviceIDs (merged m q)) then Some (p_ID q) else None
  | None => deviceIDToProfileID m !! id
  end.

(** A profile of the response is merged with the previous one; the others stay. *)
Definition synced_profile (m : Maps) (ps : list Profile) (k : string) : option Profile :=
  match last (filter (fun q => p_ID q = k) ps) with
  | Some q => Some (merged m q)
  | None => profiles m !! k
  end.

(** A device of the response, the last one if there are several, or the previous. *)
Definition synced_device (m : Maps) (ds : list Device) (id : string) : option Device :=
  match last (filter (fun d => d_ID d = id) ds) with
  | Some d => Some d
  | None => devices m !! id
  end.

Lemma filter_snoc {A} (P : A -> Prop) `{!forall x, Decision (P x)} l x :
  filter P (l ++ [x]) = filter P l ++ (if decide (P x) then [x] else []).
Proof. by rewrite filter_app, filter_cons. Qed.

Lemma put_all_last m ds id :
  put_all (devices m) ((fun d => (d_ID d, d)) <$> ds) !! id = synced_device m ds id.
Proof.
  unfold synced_device. induction ds as [|d ds IH] using rev_ind; [done|].
  rewrite fmap_app, put_all_app, filter_snoc. simpl. case_decide as Hd.
  - rewrite last_snoc. subst. apply lookup_insert_eq.
  - rewrite app_nil_r, <- IH. by apply lookup_insert_ne.
Qed.

Lemma foldl_update_profiles m ps k : NoDup (p_ID <$> ps) ->
  profiles (foldl update_maps m ps) !! k = synced_profile m ps k.
Proof.
  unfold synced_profile. revert k. induction ps as [|p ps IH] using rev_ind; intros k; [done|].
  rewrite fmap_app. intros (Hnd & Hp & _)%NoDup_app. rewrite foldl_app, filter_snoc. cbn [foldl].
  rewrite update_maps_profiles. case_decide as Hk.
  - subst k. rewrite last_snoc, lookup_insert_eq. f_equal. apply merged_profiles. rewrite IH by done.
    destruct (filter _ ps) as [|q l] eqn:Ef; [done|]. exfalso.
    assert (q ∈ filter (fun q => p_ID q = p_ID p) ps) as [Eq Hq]%list_elem_of_filter by (rewrite Ef; left).
    apply (Hp (p_ID p)); [|by left]. rewrite <- Eq. by apply list_elem_of_fmap_2.
  - rewrite app_nil_r, lookup_insert_ne by done. by apply IH.
Qed.

Lemma merged_later m ps p : NoDup (p_ID <$> (ps ++ [p])) ->
  merged (foldl update_maps m ps) p = merged m p /\ deleted (foldl update_maps m ps) p = deleted m p.
Proof.
  rewrite fmap_app. intros (Hnd & Hp & _)%NoDup_app. apply merged_profiles. rewrite foldl_update_profiles by done.
  unfold synced_profile. destruct (filter _ ps) as [|q l] eqn:Ef; [done|]. exfalso.
  assert (q ∈ filter (fun q => p_ID q = p_ID p) ps) as [Eq Hq]%list_elem_of_filter by (rewrite Ef; left).
  apply (Hp (p_ID p)); [|by left]. rewrite <- Eq. by apply list_elem_of_fmap_2.
Qed.

Lemma foldl_update_owner m ps id : NoDup (p_ID <$> ps) ->
  deviceIDToProfileID (foldl update_maps m ps) !! id = synced_owner m ps id.
Proof.
  unfold synced_owner. induction ps as [|p ps IH] using rev_ind; [done|]. intros Hnd.
  pose proof (merged_later m ps p Hnd) as [Hm Hd].
  rewrite foldl_app, filter_snoc. cbn [foldl]. rewrite fmap_app in Hnd. apply NoDup_app in Hnd as (Hnd & _).
  case_decide as Hp.
  - rewrite last_snoc. case_bool_decide as Hin; [apply update_maps_owner; by rewrite Hm|].
    rewrite update_maps_owner_other by (by rewrite Hm). rewrite Hd, bool_decide_eq_true_2; [done|]. by destruct Hp.
  - rewrite app_nil_r, update_maps_owner_other by (rewrite Hm; naive_solver).
    rewrite Hd, bool_decide_eq_false_2 by naive_solver. by apply IH.
Qed.

(** C33. What a partial synchronization does to the lookups by device ID, for a
    response with one record per profile.  The record of a profile is merged with the
    previous one: on a partial change of a known profile it keeps the previous
    devices except for those that are deleted.  A lookup then succeeds exactly if the
    device has an owner and a record and the owner's record has the device, and it
    returns these two: the owner is the last profile of the response whose merged
    record has the device, unless a later one deletes it, and for a device that no
    profile of the response mentions it is the previous one; the owner's record is
    the merged one, or the previous one if the response does not have the owner; and
    the device's record is the last of the response, or the previous one if the
    response does not have the device. *)
Theorem partial_sync_devices s ps ds id p d :
  let m := s.1.1 in
  let m' := (setProfiles cdb s ps ds chg).1.1 in
  NoDup (p_ID <$> ps) ->
  (ProfileByDeviceID m' id).1 = Ok (p, d) <->
  exists k, synced_owner m ps id = Some k /\ synced_profile m ps k = Some p /\ id ∈ DeviceIDs p /\
    synced_device m ds id = Some d.
Proof.
  intros m m' Hnd. unfold m'. rewrite setProfiles_maps, setDevices_spec. fold m.
  unfold ProfileByDeviceID, profileByDeviceID. cbn [deviceIDToProfileID profiles devices].
  rewrite foldl_update_devices, foldl_update_owner, put_all_last by done.
  destruct (synced_owner m ps id) as [k|]; [|naive_solver].
  rewrite foldl_update_profiles by done. destruct (synced_profile m ps k) as [q|] eqn:Eq; [|naive_solver].
  case_bool_decide; [|naive_solver]. destruct (synced_device m ds id); naive_solver.
Qed.

End partial.

(** ** The file cache *)

Lemma consistent_ext ps ds ps' ds' :
  (forall p, p ∈ ps <-> p ∈ ps') -> (forall d, d ∈ ds <-> d ∈ ds') ->
  consistent ps ds -> consistent ps' ds'.
Proof.
  intros Hp Hd [H1 H2 H3 H4 H5 H6].
  split; setoid_rewrite <- Hp || idtac; setoid_rewrite <- Hd || idtac; eauto.
Qed.

Lemma finds_ext m ps ds ps' ds' :
  (forall p, p ∈ ps <-> p ∈ ps') -> (forall d, d ∈ ds <-> d ∈ ds') ->
  finds m ps ds -> finds m ps' ds'.
Proof. intros Hp Hd. unfold finds, attached. setoid_rewrite Hp. by setoid_rewrite Hd. Qed.

Lemma finds_lookup m m' ps ds q p d : finds m ps ds -> finds m' ps ds ->
  (lookup m q).1 = Ok (p, d) <-> (lookup m' q).1 = Ok (p, d).
Proof.
  intros (A1 & A2 & A3 & A4) (B1 & B2 & B3 & B4). destruct q; simpl.
  - by rewrite A1, B1.
  - by rewrite A2, B2.
  - by rewrite A4, B4.
  - by rewrite A3, B3.
Qed.

Lemma elem_of_values {K V} `{Countable K} (m : gmap K V) v :
  v ∈ (map_to_list m).*2 <-> exists k, m !! k = Some v.
Proof.
  rewrite list_elem_of_fmap. split.
  - intros ([k v'] & -> & Hin). apply elem_of_map_to_list in Hin. eauto.
  - intros [k Hk]. exists (k, v). split; [done|]. by apply elem_of_map_to_list.
Qed.

(** The file cache restores the database: when the data of a full
    synchronization are stored in the file cache, in any order, a database
    that is started from this cache finds exactly the same profiles and devices,
    and continues with partial synchronization from the stored time. *)
Theorem file_cache_roundtrip {C} (cdb : CustomDomainDBOps C) db0 ps ds c c' cIvl fIvl rIvl errs fc :
  let db := with_data db0 (setProfilesFull cdb c errs ps ds) in
  let db' := New cdb c' cIvl fIvl rIvl (Ok (Some fc)) in
  consistent ps ds -> ps <> [] -> ds <> [] ->
  fc_Profiles fc ≡ₚ fc_Profiles (file_cache db) -> fc_Devices fc ≡ₚ fc_Devices (file_cache db) ->
  fc_SyncTime fc = fc_SyncTime (file_cache db) ->
  (forall q p d, (lookup (maps db') q).1 = Ok (p, d) <-> (lookup (maps db) q).1 = Ok (p, d)) /\
  syncTime db' = syncTime db /\ requestSyncTime db' false = syncTime db.
Proof.
  intros db db' Hcon Hps Hds Ep Ed Et.
  assert (maps db = full_maps ps ds) as Edb by apply setProfilesFull_maps.
  assert (forall p, p ∈ ps <-> p ∈ fc_Profiles fc) as Hp.
  { intros p. rewrite Ep. unfold file_cache. cbn [fc_Profiles]. rewrite elem_of_values, Edb.
    setoid_rewrite full_profiles; [|done]. naive_solver. }
  assert (forall d, d ∈ ds <-> d ∈ fc_Devices fc) as Hd.
  { intros d. rewrite Ed. unfold file_cache. cbn [fc_Devices]. rewrite elem_of_values, Edb.
    setoid_rewrite full_devices; [|done]. naive_solver. }
  assert (fc_Profiles fc <> [] /\ fc_Devices fc <> []) as [Hn1 Hn2].
  { split; intros E.
    - destruct ps as [|p ps]; [done|]. pose proof (proj1 (Hp p) ltac:(constructor)). rewrite E in *. set_solver.
    - destruct ds as [|d ds]; [done|]. pose proof (proj1 (Hd d) ltac:(constructor)). rewrite E in *. set_solver. }
  unfold db', New, loadFileCache.
  destruct ((length (fc_Profiles fc) =? 0)%nat || _) eqn:El.
  { exfalso. apply orb_true_iff in El as [El|El]; bool_simp;
      [destruct (fc_Profiles fc)|destruct (fc_Devices fc)]; done. }
  split_and!; [|done|done].
  intros q p d. apply (finds_lookup _ _ ps ds).
  - apply (finds_ext _ (fc_Profiles fc) (fc_Devices fc)); [naive_solver..|].
    simpl. rewrite setProfilesFull_maps. apply full_finds. by eapply consistent_ext.
  - rewrite Edb. by apply full_finds.
Qed.

(** ** When full synchronizations happen *)

(** A refresh asks the storage for all data exactly when a full sync is due.
    After a successful full sync at time [t] the next one is due when the full
    interval has passed; after a failed one, which returns an error and leaves
    the data and the partial-sync time as they were, when the retry interval has
    passed. *)
Theorem full_sync_schedule {C} (cdb : CustomDomainDBOps C) env db t' :
  let t := env_now_fetched env in
  let '(err, db') := refreshFull cdb env db in
  0 < t -> t <= t' < t + 2 ^ 63 ->
  (needsFullSync (env_now_check env) db = true -> Refresh cdb env db = (err, db')) /\
  match env_Profiles env syncTimeFull with
  | Ok sr =>
      syncTime db' = sr_SyncTime sr /\
      needsFullSync t' db' = (fullSyncIvl db <=? t' - t)
  | Err e =>
      (exists e', err = Some e') /\ maps db' = maps db /\ syncTime db' = syncTime db /\
      needsFullSync t' db' = (fullSyncRetryIvl db <=? t' - t)
  end.
Proof.
  intros t. destruct (refreshFull cdb env db) as [err db'] eqn:E. intros Ht Ht'. split.
  { intros Hn. unfold Refresh. by rewrite Hn. }
  assert (Sub t' t = t' - t) as Hsub by (unfold Sub, maxDuration, minDuration; lia).
  unfold refreshFull, fetchProfiles in E.
  change (requestSyncTime db true) with syncTimeFull in E.
  destruct (env_Profiles env syncTimeFull) as [sr|e].
  - unfold storeCache, finish in E. unfold needsFullSync.
    destruct (env_Store env _); injection E as <- <-; simpl; fold t; by rewrite Hsub.
  - unfold finish in E. injection E as <- <-. unfold needsFullSync. simpl. fold t. rewrite Hsub.
    split_and!; try done; [eauto|]. unfold IsZero. case_if; [lia|done].
Qed.

(** ** Scenarios *)

Definition EmptyCustomDomainDB : CustomDomainDBOps unit := {|
  cdb_AddCertificate _ _ _ _ := tt;
  cdb_DeleteAllWellKnownPaths _ := tt;
  cdb_SetWellKnownPath _ _ := tt;
|}.

Definition some_profile (id : string) (devs : gset string) : Profile := {|
  CustomDomains := {| cd_Domains := []; cd_Enabled := false |};
  DeviceIDs := devs; p_FilterConfig := unfiltered_config; p_Access := None; AdultBlockingMode := None;
  p_BlockingMode := null_ip_mode; SafeBrowsingBlockingMode := None; p_Ratelimiter := GlobalRatelimiter;
  p_ID := id; FilteredResponseTTL := 10; AccountID := 1;
  AutoDevicesEnabled := false; BlockChromePrefetch := false; BlockFirefoxCanary := false;
  BlockPrivateRelay := false; Deleted := false; p_FilteringEnabled := true;
  IPLogEnabled := false; QueryLogEnabled := false; QueryLogStream := false;
|}.

Definition some_device (id human : string) (ips : list Addr) : Device := {|
  Auth := {| PasswordHash := AllowAuthenticator; auth_Enabled := false; DoHAuthOnly := false |};
  d_ID := id; LinkedIP := AddrZero; d_Name := EmptyString; HumanIDLower := human;
  DedicatedIPs := ips; d_FilteringEnabled := true;
|}.

(** A device that was in profile A and has been moved to profile B. *)
Definition moved : Device := some_device "dev1" "phone" [].

Definition before_move : Maps * unit * list error :=
  setProfilesFull EmptyCustomDomainDB tt [] [some_profile "A" {["dev1"]}; some_profile "B" ∅] [moved].

Definition move_changes : gmap string StorageDeviceChange :=
  <["A" := {| DeletedDeviceIDs := ["dev1"]; IsPartial := true |}]>
  (<["B" := {| DeletedDeviceIDs := []; IsPartial := true |}]> ∅).

Definition profile_A : Profile := some_profile "A" ∅.
Definition profile_B : Profile := some_profile "B" {["dev1"]}.

(** After a partial synchronization that moves a device from profile A to
    profile B, a lookup by the ID of profile A and the human-readable ID of the
    device succeeds and returns profile B: [ProfileByHumanID] does not check that
    the profile that it has found is the one that was asked for. *)
Theorem human_id_of_other_profile :
  let m := (setProfiles EmptyCustomDomainDB before_move [profile_A; profile_B] [moved] move_changes).1.1 in
  exists p, (ProfileByHumanID m "A" "phone").1 = Ok (p, moved) /\ p_ID p = "B"%string.
Proof. eexists. split; vm_compute; reflexivity. Qed.

(** The outcome of a partial synchronization depends on the order of the
    profiles in the response.  If the profile that has got a device comes before
    the profile that has lost it, [applyChanges] for the latter deletes the new
    link and the device is not found at all, although both profiles and the
    device are in the response; in the other order it is found in profile B. *)
Theorem moved_device_lost :
  let sync ps := (setProfiles EmptyCustomDomainDB before_move ps [moved] move_changes).1.1 in
  (exists p, (ProfileByDeviceID (sync [profile_A; profile_B]) "dev1").1 = Ok (p, moved) /\
     p_ID p = "B"%string) /\
  (ProfileByDeviceID (sync [profile_B; profile_A]) "dev1").1 = Err (ErrConst ErrDeviceNotFound).
Proof. split; [eexists; split|]; vm_compute; reflexivity. Qed.

(** A storage that answers with one response. *)
Definition env_of (ps : list Profile) (ds : list Device) : Env := {|
  env_Profiles _ := Ok {| sr_SyncTime := 1; DeviceChanges := ∅; sr_Profiles := ps; sr_Devices := ds |};
  env_Store _ := None;
  env_now_check := 1; env_now_fetched := 1; env_now_stored := 1;
|}.

(** A removal goroutine that runs late removes a link that is valid again.
    The dedicated address moves from the device dev1 to dev2; a lookup between
    the two updates finds the link stale and starts its removal, which runs
    after the second update: the address is then not found although dev2 is in
    the database, attached to its profile, and has the address. *)
Theorem late_removal_loses_link :
  let ip := Addr4 1 in
  let p := some_profile "A" {["dev1"; "dev2"]} in
  let evs := [
    EvRefreshFull (env_of [p] [some_device "dev1" EmptyString [ip]; some_device "dev2" EmptyString []]);
    EvRefresh (env_of [] [some_device "dev1" EmptyString []]);
    EvLookup (ByDedicatedIP ip);
    EvRefresh (env_of [] [some_device "dev2" EmptyString [ip]]);
    EvRemoval 0] in
  let m := maps (s_db (foldl (exec EmptyCustomDomainDB)
    (start EmptyCustomDomainDB tt 1000 1000 1000 (Ok None)) evs)) in
  (ProfileByDeviceID m "dev2").1 = Ok (p, some_device "dev2" EmptyString [ip]) /\
  (ProfileByDedicatedIP m ip).1 = Err (ErrConst ErrDeviceNotFound).
Proof. split; vm_compute; reflexivity. Qed.

(** ** The theorems on concrete inputs *)

Definition some_ps : list Profile := [some_profile "A" {["dev1"]}; some_profile "B" {["dev2"]}].
Definition some_ds : list Device :=
  [some_device "dev1" "phone" [Addr4 1]; some_device "dev2" "phone" [Addr4 2]].

Lemma some_consistent : consistent some_ps some_ds.
Proof.
  assert (forall p, p ∈ some_ps -> p = some_profile "A" {["dev1"]} \/ p = some_profile "B" {["dev2"]})
    as Hp by (unfold some_ps; set_solver).
  assert (forall d, d ∈ some_ds -> d = some_device "dev1" "phone" [Addr4 1] \/
    d = some_device "dev2" "phone" [Addr4 2]) as Hd by (unfold some_ds; set_solver).
  split.
  - by intros p q [->| ->]%Hp [->| ->]%Hp.
  - by intros d e [->| ->]%Hd [->| ->]%Hd.
  - intros p q id [->| ->]%Hp [->| ->]%Hp; simpl; set_solver.
  - intros d e ip [->| ->]%Hd [->| ->]%Hd; simpl; set_solver.
  - by intros d e [->| ->]%Hd [->| ->]%Hd.
  - intros p d e [->| ->]%Hp [->| ->]%Hd [->| ->]%Hd; simpl; set_solver.
Qed.

Lemma full_sync_refines_witness :
  let m := (setProfilesFull EmptyCustomDomainDB tt [] some_ps some_ds).1.1 in
  (ProfileByHumanID m "B" "phone").1 =
    Ok (some_profile "B" {["dev2"]}, some_device "dev2" "phone" [Addr4 2]).
Proof.
  intros m. destruct (full_sync_refines EmptyCustomDomainDB tt [] _ _ some_consistent)
    as (_ & _ & _ & H).
  apply H. unfold attached, some_ps, some_ds. simpl. set_solver.
Defined.

Lemma lookups_sound_witness :
  exists evs p d,
    let m := maps (s_db (foldl (exec EmptyCustomDomainDB)
      (start EmptyCustomDomainDB tt 1000 1000 1000 (Ok None)) evs)) in
    (lookup m (ByDedicatedIP (Addr4 2))).1 = Ok (p, d) /\ belongs m p d /\ Addr4 2 ∈ DedicatedIPs d.
Proof.
  exists [EvRefreshFull (env_of some_ps some_ds)], (some_profile "B" {["dev2"]}),
    (some_device "dev2" "phone" [Addr4 2]).
  intros m. assert ((lookup m (ByDedicatedIP (Addr4 2))).1 =
    Ok (some_profile "B" {["dev2"]}, some_device "dev2" "phone" [Addr4 2])) as E
    by (vm_compute; reflexivity).
  split; [done|].
  apply (lookups_sound EmptyCustomDomainDB tt 1000 1000 1000 (Ok None)
    [EvRefreshFull (env_of some_ps some_ds)] (ByDedicatedIP (Addr4 2))). exact E.
Defined.

Lemma removal_keeps_results_witness :
  let m := do_removal before_move.1.1 (removeDedicatedIP (Addr4 1)) in
  let m' := (setProfiles EmptyCustomDomainDB (m, tt, []) [profile_A] [] ∅).1.1 in
  removeDevice "dev1" ∈ (lookup m' (ByDeviceID "dev1")).2 /\
  forall p d, (lookup (do_removal m' (removeDevice "dev1")) (ByHumanID "A" "phone")).1 = Ok (p, d) <->
    (lookup m' (ByHumanID "A" "phone")).1 = Ok (p, d).
Proof.
  intros m m'. assert (removeDevice "dev1" ∈ (lookup m' (ByDeviceID "dev1")).2) as Hin.
  { vm_compute. constructor. }
  split; [done|]. intros p d. exact (removal_keeps_results m' (ByDeviceID "dev1") _ _ p d Hin).
Defined.

(** The device moves; another device, which only its previous record has, stays. *)
Definition before_sync : Maps * unit * list error :=
  setProfilesFull EmptyCustomDomainDB tt [] [some_profile "A" {["dev1"; "dev2"]}; some_profile "B" ∅]
    [moved; some_device "dev2" EmptyString []].

Lemma partial_sync_devices_witness :
  let m := (setProfiles EmptyCustomDomainDB before_sync [profile_A; profile_B] [moved] move_changes).1.1 in
  (ProfileByDeviceID m "dev1").1 = Ok (profile_B, moved) /\
  (ProfileByDeviceID m "dev2").1 = Ok (merged move_changes before_sync.1.1 profile_A, some_device "dev2" EmptyString []).
Proof.
  assert (NoDup (p_ID <$> [profile_A; profile_B])) as Hnd by (repeat constructor; set_solver).
  assert (bool_decide ("dev2" ∈ DeviceIDs (merged move_changes before_sync.1.1 profile_A)) = true) as E2%bool_decide_eq_true_1
    by (vm_compute; reflexivity).
  intros m. split.
  - apply (partial_sync_devices EmptyCustomDomainDB move_changes before_sync [profile_A; profile_B] [moved]); [exact Hnd|].
    exists "B"%string. split; [vm_compute; reflexivity|]. split; [vm_compute; reflexivity|]. split; [set_solver|]. reflexivity.
  - apply (partial_sync_devices EmptyCustomDomainDB move_changes before_sync [profile_A; profile_B] [moved]); [exact Hnd|].
    exists "A"%string. split; [vm_compute; reflexivity|]. split; [vm_compute; reflexivity|]. split; [exact E2|]. reflexivity.
Defined.

Lemma file_cache_roundtrip_witness :
  let db0 := New EmptyCustomDomainDB tt 1 1 1 (Ok None) in
  let db := with_data db0 (setProfilesFull EmptyCustomDomainDB tt [] some_ps some_ds) in
  let db' := New EmptyCustomDomainDB tt 1 1 1 (Ok (Some (file_cache db))) in
  is_ok (lookup (maps db) (ByDeviceID "dev1")).1 = true /\
  (forall q p d, (lookup (maps db') q).1 = Ok (p, d) <-> (lookup (maps db) q).1 = Ok (p, d)).
Proof.
  intros db0 db db'. split; [reflexivity|].
  apply (file_cache_roundtrip EmptyCustomDomainDB db0 some_ps some_ds tt tt 1 1 1 []);
    [apply some_consistent|discriminate|discriminate|reflexivity..].
Defined.

Lemma full_sync_schedule_witness :
  let db := New EmptyCustomDomainDB tt 1 100 10 (Ok None) in
  let env := {| env_Profiles _ := Err (ErrConst "unavailable"); env_Store _ := None;
                env_now_check := 1; env_now_fetched := 1; env_now_stored := 1 |} in
  needsFullSync 11 (refreshFull EmptyCustomDomainDB env db).2 = true.
Proof.
  intros db env.
  destruct (full_sync_schedule EmptyCustomDomainDB env db 11) as (_ & _ & _ & _ & H);
    [reflexivity|simpl; lia|]. exact H.
Defined.
