(* ===== verification/DeviceFinder.v ===== *)
(** The default device finder of internal/dnssvc/internal/devicefinder: which
    profile and device a request belongs to (devicefinder.go, device.go), the
    extraction of device data from the request (devicedata.go, humanid.go), and
    the authentication of devices.

    The profile database is an interface ([ProfileDBInterface]) with its
    promises ([ProfileDBPromises]); the last part of the file shows that the
    database of ProfileDB.v keeps them.  Logs and metrics are left out. *)

From S2P Require Import Prelude GoStd Utf8 NetIP HumanID Agd ProfileDB.

Open Scope Z_scope.

(** ** Interfaces *)

(** profiledb.Interface over the state [S] of a database. *)
Record ProfileDBInterface (S : Type) := {
  db_CreateAutoDevice : S -> string -> string -> Z -> result error (Profile * Device) * S;
  db_ProfileByDedicatedIP : S -> Addr -> result error (Profile * Device) * S;
  db_ProfileByDeviceID : S -> string -> result error (Profile * Device) * S;
  db_ProfileByHumanID : S -> string -> string -> result error (Profile * Device) * S;
  db_ProfileByLinkedIP : S -> Addr -> result error (Profile * Device) * S;
}.
Arguments db_CreateAutoDevice {S} _ _ _ _ _.
Arguments db_ProfileByDedicatedIP {S} _ _ _.
Arguments db_ProfileByDeviceID {S} _ _ _.
Arguments db_ProfileByHumanID {S} _ _ _ _.
Arguments db_ProfileByLinkedIP {S} _ _ _.

(** What the finder may expect of a database in a state that satisfies [ok]. *)
Class ProfileDBPromises {S} (db : ProfileDBInterface S) (ok : S -> Prop) : Prop := {
  promise_id s id p d s' : ok s -> db_ProfileByDeviceID db s id = (Ok (p, d), s') ->
    d_ID d = id /\ id ∈ DeviceIDs p;
  promise_dedicated s ip p d s' : ok s -> db_ProfileByDedicatedIP db s ip = (Ok (p, d), s') ->
    ip ∈ DedicatedIPs d /\ d_ID d ∈ DeviceIDs p;
  promise_linked s ip p d s' : ok s -> db_ProfileByLinkedIP db s ip = (Ok (p, d), s') ->
    LinkedIP d = ip /\ d_ID d ∈ DeviceIDs p;
  promise_human s id h p d s' : ok s -> db_ProfileByHumanID db s id h = (Ok (p, d), s') ->
    HumanIDLower d = h /\ d_ID d ∈ DeviceIDs p;
  promise_human_ok s id h : ok s -> ok (db_ProfileByHumanID db s id h).2;
  promise_create s id h t p d s' : ok s -> db_CreateAutoDevice db s id h t = (Ok (p, d), s') ->
    p_ID p = id /\ AutoDevicesEnabled p = true;
}.

(** netutil.IsImmediateSubdomain. *)
Class DomainMatcher := IsImmediateSubdomain : string -> string -> bool.

Definition immediate_subdomain (sub top : string) : Prop :=
  exists label, label <> EmptyString /\ CountByte label "."%char = 0%nat /\
    sub = label +:+ String "."%char top.

Class DomainMatcherSpec `{DomainMatcher} : Prop :=
  immediate_subdomain_ok sub top : IsImmediateSubdomain sub top = true -> immediate_subdomain sub top.

(** The finder's CustomDomainDB: the matched domain and the profile IDs, nil if
    there is no match. *)
Definition Matcher := string -> string * option (list string).

(** What the interface documents: without a match both are empty; a match is the
    name itself or a wildcard for its parent domain. *)
Definition matcher_ok (mt : Matcher) : Prop :=
  forall name,
    (mt name).1 = EmptyString /\ (mt name).2 = None \/
    exists ids, (mt name).2 = Some ids /\
      ((mt name).1 = name \/
       exists top label, (mt name).1 = ("*." +:+ top)%string /\ CountByte label "."%char = 0%nat /\
         name = label +:+ String "."%char top).

(** ** Requests *)

(** url.Userinfo: the user name, and the password if it is set. *)
Record Userinfo := { Username : string; Password : option string }.

(** dnsserver.RequestInfo. *)
Record RequestInfo := {
  TLS : option string;               (* the server name of the TLS state *)
  ri_Userinfo : option Userinfo;
  URL_Path : string;
}.

(** An EDNS0 option: its code, and the data of a local option. *)
Inductive EDNS0 :=
  | EDNS0_LOCAL (code : Z) (data : string)
  | EDNS0_other (code : Z).

Definition opt_Option (o : EDNS0) : Z :=
  match o with EDNS0_LOCAL c _ => c | EDNS0_other c => c end.

(** ** humanid.go and devicedata.go *)

Inductive deviceData :=
  | deviceDataExtHumanID (humanID profileID : string) (deviceType : Z)
  | deviceDataID (id : string)
  | deviceDataCustomDomain (dd : deviceData) (domain : string) (profileIDs : list string).

Definition newDeviceDataError (orig : error) (typ : string) : error :=
  ErrWrap (typ +:+ " device id check: %s")%string orig.

Definition DnsmasqCPEIDOption : Z := 65074.

Definition PathDoH : string := "/dns-query".
Definition PathJSON : string := "/resolve".

Section device_data.
Context `{Netutil} `{UnicodeCase} `{DomainMatcher}.

Definition isLikelyExtHumanID (s : string) : bool := (2 <=? CountByte s "-"%char)%nat.

Definition parseExtHumanID (s : string) : outcome (result error deviceData) :=
  let format := "parsing %q: %w"%string in
  match SplitNByte 3 s "-"%char with
  | [typeStr; profStr; humanStr] =>
      match DeviceTypeFromDNS typeStr with
      | Err err => Ret (Err (ErrWrap format err))
      | Ok dt =>
          match NewProfileID (ToLower profStr) with
          | Err err => Ret (Err (ErrWrap format err))
          | Ok profID =>
              let! r := ParseNormalized humanStr in
              Ret match r with
                  | Err err => Err (ErrWrap format err)
                  | Ok humanID => Ok (deviceDataExtHumanID humanID profID dt)
                  end
          end
      end
  | _ => Ret (Err (ErrWrap format (ErrConst "not a valid ext human id")))
  end.

Definition parseDeviceData (s : string) : outcome (result error deviceData) :=
  if isLikelyExtHumanID s then parseExtHumanID s
  else Ret match NewDeviceID (ToLower s) with
           | Err err => Err err
           | Ok id => Ok (deviceDataID id)
           end.

Definition deviceIDFromENDSOPT (opt : EDNS0) : result error string :=
  if negb (opt_Option opt =? DnsmasqCPEIDOption) then Ok EmptyString
  else match opt with
       | EDNS0_other _ => Ok EmptyString
       | EDNS0_LOCAL _ data =>
           match NewDeviceID data with
           | Err err => Err (newDeviceDataError err "edns option")
           | Ok id => Ok id
           end
       end.

(** The loop over the options. *)
Fixpoint deviceIDFromOptions (opts : list EDNS0) : result error string :=
  match opts with
  | [] => Ok EmptyString
  | opt :: opts =>
      match deviceIDFromENDSOPT opt with
      | Err err => Err err
      | Ok id => if bool_decide (id = EmptyString) then deviceIDFromOptions opts else Ok id
      end
  end.

(** [None] is a request without EDNS0 data. *)
Definition deviceIDFromEDNS (req : option (list EDNS0)) : result error string :=
  match req with
  | None => Ok EmptyString
  | Some opts => deviceIDFromOptions opts
  end.

Definition pathElements (urlPath : string) : outcome (result error (list string)) :=
  let elems := SplitByte (path_Clean urlPath) "/"%char in
  let! e0 := index elems 0 in
  let elems := if bool_decide (e0 = EmptyString) then drop 1 elems else elems in
  Ret (annotate "bad path %q: %w"
    match elems with
    | [] => Err (ErrWrap "path elems: %w" (ErrConst "no value"))
    | e :: _ =>
        if bool_decide (e = EmptyString) then Err (ErrWrap "path elems: %w" (ErrConst "no value"))
        else if (2 <? length elems)%nat then Err (ErrConst "%d extra path elems")
        else if negb (HasSuffix PathDoH e) && negb (HasSuffix PathJSON e)
        then Err (ErrConst "not a dns path")
        else Ok elems
    end).

(** [None] is nil device data. *)
Definition deviceDataFromDoHURL (urlPath : string) : outcome (result error (option deviceData)) :=
  let! r := pathElements urlPath in
  match r with
  | Err err => Ret (Err err)
  | Ok elems =>
      match elems with
      | [_; e] =>
          let! dd := parseDeviceData e in
          Ret match dd with Err err => Err err | Ok dd => Ok (Some dd) end
      | _ => Ret (Ok None)
      end
  end.

Definition deviceDataForDoH (ri : RequestInfo) : outcome (result error (option deviceData)) :=
  match ri_Userinfo ri with
  | Some ui =>
      Ret match NewDeviceID (Username ui) with
          | Err err => Err (newDeviceDataError err "basic auth")
          | Ok id => Ok (Some (deviceDataID id))
          end
  | None =>
      let! r := deviceDataFromDoHURL (URL_Path ri) in
      Ret match r with
          | Err err => Err (newDeviceDataError err "http url path")
          | Ok dd => Ok dd
          end
  end.

Definition matchDomain (sub : string) (domains : list string) : string :=
  let sub := ToLower sub in
  default EmptyString (first_such (IsImmediateSubdomain sub) domains).

(** [s[:n]] for an [int] index. *)
Definition slice_to (s : string) (n : Z) : outcome string :=
  if (0 <=? n) && (n <=? len s) then Ret (str_take (Z.to_nat n) s)
  else Panic "slice bounds out of range".

Definition deviceDataFromCliSrvName (deviceDomains : list string) (cliSrvName customDomain : string)
    : outcome (result error (option deviceData)) :=
  if bool_decide (cliSrvName = EmptyString) then Ret (Ok None)
  else
    let matchedDomain :=
      if bool_decide (customDomain = EmptyString) then matchDomain cliSrvName deviceDomains
      else customDomain in
    if bool_decide (matchedDomain = EmptyString) then Ret (Ok None)
    else
      let! idStr := slice_to cliSrvName (len cliSrvName - len matchedDomain - 1) in
      let! dd := parseDeviceData idStr in
      Ret match dd with Err err => Err err | Ok dd => Ok (Some dd) end.

(** The configuration of the finder. *)
Record Finder := {
  srv : Server;
  deviceDomains : list string;
  customDomainDB_Match : Matcher;
}.

Definition deviceDataFromSrvReqInfo (f : Finder) (ri : RequestInfo) (customDomain cliSrvName : string)
    : outcome (result error (option deviceData)) :=
  let from_tls : outcome (result error (option deviceData)) :=
    if (length (deviceDomains f) =? 0)%nat && bool_decide (customDomain = EmptyString)
    then Ret (Ok None)
    else if negb (bool_decide (customDomain = EmptyString)) && negb (HasPrefix customDomain "*.")
    then Ret (Ok None)
    else
      let! r := deviceDataFromCliSrvName (deviceDomains f) cliSrvName (TrimPrefix customDomain "*.") in
      Ret match r with
          | Err err => Err (newDeviceDataError err "tls server name")
          | Ok dd => Ok dd
          end in
  if s_Protocol (srv f) =? ProtoDoH then
    let! r := deviceDataForDoH ri in
    match r with
    | Ok None => from_tls
    | r => Ret r
    end
  else from_tls.

Definition wrapCustomDomain (dd : option deviceData) (matchedDomain : string)
    (requiredProfileIDs : option (list string)) : outcome (result error (option deviceData)) :=
  match requiredProfileIDs with
  | None => Ret (Ok dd)
  | Some ids =>
      match dd with
      | None => Ret (Ok None)
      | Some (deviceDataExtHumanID _ profileID _ as d) =>
          if negb (bool_decide (profileID ∈ ids)) then
            Ret (Err (newDeviceDataError
              (ErrConst "profile id in ext id: %s: not contained by expected values") "custom domain"))
          else Ret (Ok (Some (deviceDataCustomDomain d matchedDomain ids)))
      | Some (deviceDataID _ as d) => Ret (Ok (Some (deviceDataCustomDomain d matchedDomain ids)))
      | Some (deviceDataCustomDomain _ _ _) => Panic "wrapping custom domain: device data: %w: %T(%[2]v)"
      end
  end.

Definition deviceDataFromEncrypted (f : Finder) (ri : RequestInfo)
    : outcome (result error (option deviceData)) :=
  let cliSrvName := default EmptyString (TLS ri) in
  let '(customDomain, requiredProfileIDs) :=
    if bool_decide (cliSrvName = EmptyString) then (EmptyString, None)
    else customDomainDB_Match f (ToLower cliSrvName) in
  let! r := deviceDataFromSrvReqInfo f ri customDomain cliSrvName in
  match r with
  | Err err => Ret (Err (ErrWrap "extracting device data: %w" err))
  | Ok dd =>
      let! r := wrapCustomDomain dd customDomain requiredProfileIDs in
      Ret (annotate "wrapping custom domains: %w" r)
  end.

Definition finder_deviceData (f : Finder) (req : option (list EDNS0)) (ri : RequestInfo)
    : outcome (result error (option deviceData)) :=
  if IsStdEncrypted (s_Protocol (srv f)) then deviceDataFromEncrypted f ri
  else Ret match deviceIDFromEDNS req with
           | Err err => Err err
           | Ok id => if bool_decide (id = EmptyString) then Ok None else Ok (Some (deviceDataID id))
           end.

End device_data.

(** ** device.go *)

Definition ErrAuthenticationFailed : string := "basic authentication failed".
Definition ErrNoPassword : string := "no password".
Definition ErrNoUserInfo : string := "no userinfo".
Definition ErrNotDoH : string := "not doh".

Definition errorIsOpt (err : error) (target : string) : bool :=
  if is_const err target then true
  else match Unwrap err with
       | None => false
       | Some unwrapped => is_const unwrapped target || Is unwrapped target
       end.

Definition isProfileDBNotFound (err : error) : bool :=
  errorIsOpt err ErrDeviceNotFound || errorIsOpt err ErrProfileNotFound.

(** [Ok None] stands for nil profile, device and error. *)
Definition newDeviceResult (r : result error (option (Profile * Device))) : option DeviceResult :=
  match r with
  | Ok None => None
  | Ok (Some (p, d)) => Some (DeviceResultOK d p)
  | Err err => if isProfileDBNotFound err then None else Some (DeviceResultError err)
  end.

Definition found (r : result error (Profile * Device)) : result error (option (Profile * Device)) :=
  match r with Ok x => Ok (Some x) | Err e => Err e end.

Definition supportsDeviceID (p : Z) : bool :=
  (p =? ProtoDNS) || (p =? ProtoDoH) || (p =? ProtoDoQ) || (p =? ProtoDoT).

Section finder.
Context `{Netutil} `{UnicodeCase} `{DomainMatcher} `{Bcrypt}.
Context {S : Type} (db : ProfileDBInterface S).

Definition deviceByExtID (s : S) (humanID profID : string) (deviceType : Z)
    : result error (option (Profile * Device)) * S :=
  match db_ProfileByHumanID db s profID (HumanIDToLower humanID) with
  | (Ok x, s) => (Ok (Some x), s)
  | (Err err, s) =>
      if errorIsOpt err ErrProfileNotFound then (Ok None, s)
      else if errorIsOpt err ErrDeviceNotFound then
        match db_CreateAutoDevice db s profID humanID deviceType with
        | (Ok x, s) => (Ok (Some x), s)
        | (Err err, s) =>
            if errorIsOpt err ErrProfileNotFound then (Ok None, s)
            else (Err (ErrWrap "creating autodevice: %w" err), s)
        end
      else (Err (ErrWrap "querying profile db by human id: %w" err), s)
  end.

Definition deviceResultByCustomDomain (s : S) (dd : deviceData) (profileIDs : list string)
    : outcome (option DeviceResult * S) :=
  match dd with
  | deviceDataID id =>
      let '(r, s) := db_ProfileByDeviceID db s id in
      match r with
      | Err _ => Ret (newDeviceResult (found r), s)
      | Ok (p, d) =>
          if bool_decide (p_ID p ∈ profileIDs) then Ret (newDeviceResult (found r), s)
          else Ret (None, s)
      end
  | deviceDataExtHumanID humanID profileID deviceType =>
      let '(r, s) := deviceByExtID s humanID profileID deviceType in
      Ret (newDeviceResult r, s)
  | deviceDataCustomDomain _ _ _ => Panic "custom-domain device data: %w: %T(%[2]v)"
  end.

Definition deviceByLocalAddr (s : S) (localIP : Addr) : option DeviceResult * S :=
  match db_ProfileByDedicatedIP db s localIP with
  | (Ok (p, d), s) => (Some (DeviceResultOK d p), s)
  | (Err err, s) =>
      if negb (isProfileDBNotFound err)
      then (Some (DeviceResultError (ErrWrap "looking up by dedicated ip: %w" err)), s)
      else (Some (DeviceResultUnknownDedicated err), s)
  end.

Definition deviceByAddrs (f : Finder) (s : S) (laddr : AddrPort) (remoteIP : Addr)
    : option DeviceResult * S :=
  if BindsToInterfaces (srv f) && negb (HasAddr (srv f) laddr) then deviceByLocalAddr s (ap_addr laddr)
  else if negb (LinkedIPEnabled (srv f)) then (None, s)
  else let '(r, s) := db_ProfileByLinkedIP db s remoteIP in (newDeviceResult (found r), s).

Definition deviceFromDB (f : Finder) (s : S) (laddr : AddrPort) (remoteIP : Addr)
    (dd : option deviceData) : outcome (option DeviceResult * S) :=
  match dd with
  | None =>
      if s_Protocol (srv f) =? ProtoDNS then Ret (deviceByAddrs f s laddr remoteIP) else Ret (None, s)
  | Some (deviceDataID id) =>
      let '(r, s) := db_ProfileByDeviceID db s id in Ret (newDeviceResult (found r), s)
  | Some (deviceDataExtHumanID humanID profileID deviceType) =>
      let '(r, s) := deviceByExtID s humanID profileID deviceType in Ret (newDeviceResult r, s)
  | Some (deviceDataCustomDomain dd _ profileIDs) => deviceResultByCustomDomain s dd profileIDs
  end.

Definition findDevice (f : Finder) (s : S) (laddr : AddrPort) (remoteIP : Addr)
    (dd : option deviceData) : outcome (option DeviceResult * S) :=
  let! r := deviceFromDB f s laddr remoteIP dd in
  match r with
  | (Some (DeviceResultOK d p), s) => if Deleted p then Ret (None, s) else Ret r
  | r => Ret r
  end.

Definition authenticate (f : Finder) (ri : RequestInfo) (dev : Device) : option error :=
  let conf := Auth dev in
  if negb (auth_Enabled conf) then None
  else if negb (s_Protocol (srv f) =? ProtoDoH) then
    if DoHAuthOnly conf then Some (ErrConst ErrNotDoH) else None
  else match ri_Userinfo ri with
  | None => if DoHAuthOnly conf then Some (ErrConst ErrNoUserInfo) else None
  | Some ui =>
      match Password ui with
      | None => Some (ErrConst ErrNoPassword)
      | Some password =>
          if negb (Authenticate (PasswordHash conf) password)
          then Some (ErrConst ErrAuthenticationFailed) else None
      end
  end.

Definition authenticatedResult (f : Finder) (ri : RequestInfo) (dev : Device) (prof : Profile)
    : DeviceResult :=
  match authenticate f ri dev with
  | Some err => DeviceResultAuthenticationFailure err
  | None => DeviceResultOK dev prof
  end.

Definition Find (f : Finder) (s : S) (req : option (list EDNS0)) (ri : RequestInfo)
    (raddr laddr : AddrPort) : outcome (option DeviceResult * S) :=
  if negb (supportsDeviceID (s_Protocol (srv f))) then Ret (None, s)
  else
    let! r := finder_deviceData f req ri in
    match r with
    | Err err => Ret (Some (DeviceResultError err), s)
    | Ok dd =>
        let! r := findDevice f s laddr (ap_addr raddr) dd in
        match r with
        | (Some (DeviceResultOK d p), s) => Ret (Some (authenticatedResult f ri d p), s)
        | r => Ret r
        end
    end.

End finder.

(** ** Facts on errors *)

(** [errorIsOpt] agrees with [errors.Is] on every error that is not itself a
    joined error. *)
Theorem errorIsOpt_Is e target :
  (forall errs, e <> ErrJoin errs) -> errorIsOpt e target = Is e target.
Proof.
  intros Hj. unfold errorIsOpt. destruct e as [m|f inner|errs]; simpl.
  - by case_bool_decide.
  - destruct inner as [m|f' inner|errs]; simpl; [by case_bool_decide|done..].
  - by destruct (Hj errs).
Qed.

(** ** Facts on the extraction of device data *)

Section device_data_facts.
Context `{Netutil} `{!NetutilSpec} `{UnicodeCase} `{DomainMatcher} `{!DomainMatcherSpec}.

Lemma ParseNormalized_total s : exists r, ParseNormalized s = Ret r.
Proof. destruct (ParseNormalized_cases s) as [[_ ->]|[(? & -> & _)|(? & ? & ? & -> & _)]]; eauto. Qed.

Definition simple_data (dd : deviceData) : Prop :=
  match dd with deviceDataCustomDomain _ _ _ => False | _ => True end.

Lemma parseExtHumanID_total s :
  exists r, parseExtHumanID s = Ret r /\ forall dd, r = Ok dd -> simple_data dd.
Proof.
  unfold parseExtHumanID.
  destruct (SplitNByte 3 s "-") as [|t [|p [|h [|x l]]]]; try by eexists.
  destruct (DeviceTypeFromDNS t); [|by eexists]. destruct (NewProfileID (ToLower p)); [|by eexists].
  destruct (ParseNormalized_total h) as [r ->]. simpl. eexists. split; [done|].
  destruct r; [|done]. by intros dd [= <-].
Qed.

Lemma parseDeviceData_total s :
  exists r, parseDeviceData s = Ret r /\ forall dd, r = Ok dd -> simple_data dd.
Proof.
  unfold parseDeviceData. case_if; [apply parseExtHumanID_total|].
  eexists. split; [done|]. destruct (NewDeviceID (ToLower s)); [|done]. by intros dd [= <-].
Qed.

Definition simple_result (o : outcome (result error (option deviceData))) : Prop :=
  exists r, o = Ret r /\ forall dd, r = Ok (Some dd) -> simple_data dd.

Lemma simple_result_map_err o f : simple_result o ->
  simple_result (let! r := o in Ret match r with Err err => Err (f err) | Ok dd => Ok dd end).
Proof.
  intros (r & -> & Hr). simpl. eexists. split; [done|]. intros dd E. apply Hr. by destruct r.
Qed.

Lemma simple_parse s :
  simple_result (let! dd := parseDeviceData s in
    Ret match dd with Err err => Err err | Ok dd => Ok (Some dd) end).
Proof.
  destruct (parseDeviceData_total s) as (r & -> & Hr). simpl. eexists. split; [done|].
  intros dd. destruct r; [|done]. intros [= <-]. by apply Hr.
Qed.

Lemma SplitByte_index s c : exists e, index (SplitByte s c) 0 = Ret e.
Proof. destruct (SplitByte s c) eqn:E; [by apply SplitByte_not_nil in E|]. by eexists. Qed.

Lemma simple_DoHURL path : simple_result (deviceDataFromDoHURL path).
Proof.
  unfold deviceDataFromDoHURL, pathElements.
  destruct (SplitByte_index (path_Clean path) "/") as [e ->]. simpl.
  destruct (annotate _ _) as [elems|err]; [|by eexists].
  destruct elems as [|x [|y [|z l]]]; try by eexists. apply simple_parse.
Qed.

Lemma simple_DoH ri : simple_result (deviceDataForDoH ri).
Proof.
  unfold deviceDataForDoH. destruct (ri_Userinfo ri) as [ui|].
  - eexists. split; [done|]. destruct (NewDeviceID _); [|done]. by intros dd [= <-].
  - apply simple_result_map_err, simple_DoHURL.
Qed.

(** A name of the form [label.domain] is long enough to cut off the domain. *)
Lemma slice_subdomain name domain : is_ascii name = true ->
  (exists label, ToLower name = label +:+ String "."%char domain) ->
  exists s, slice_to name (len name - len domain - 1) = Ret s.
Proof.
  intros Ha [label E]. unfold slice_to.
  assert (len name = len label + 1 + len domain) as Hlen.
  { unfold ToLower in E. rewrite Ha in E. unfold len.
    rewrite <- (length_ascii_lower name), E, length_append. simpl. lia. }
  assert (0 <= len label) by (unfold len; lia). assert (0 <= len domain) by (unfold len; lia).
  case_if; [by eexists|]. apply andb_false_iff in E0. rewrite !Z.leb_gt in E0. lia.
Qed.

(** The custom domain that the name matched, without the wildcard. *)
Definition custom_ok (name customDomain : string) : Prop :=
  customDomain = EmptyString \/
  exists label, ToLower name = label +:+ String "."%char customDomain.

Lemma simple_CliSrvName domains name customDomain :
  is_ascii name = true -> custom_ok name customDomain ->
  simple_result (deviceDataFromCliSrvName domains name customDomain).
Proof.
  intros Ha Hc. unfold deviceDataFromCliSrvName.
  case_bool_decide as Hn; [by eexists|].
  set (md := if bool_decide (customDomain = EmptyString) then _ else _).
  case_bool_decide as Hm; [by eexists|].
  assert (exists label, ToLower name = label +:+ String "."%char md) as Hl.
  { subst md. case_bool_decide as He; [|by destruct Hc as [Hc|Hc]].
    unfold matchDomain in *. destruct (first_such _ domains) as [d|] eqn:Ef; [|done].
    apply first_such_Some in Ef as [_ Hd]. apply immediate_subdomain_ok in Hd as (label & _ & _ & E).
    by exists label. }
  destruct (slice_subdomain _ _ Ha Hl) as [s ->]. apply simple_parse.
Qed.

Lemma simple_SrvReqInfo f ri customDomain name :
  is_ascii name = true ->
  custom_ok name (TrimPrefix customDomain "*.") \/ HasPrefix customDomain "*." = false ->
  simple_result (deviceDataFromSrvReqInfo f ri customDomain name).
Proof.
  intros Ha Hc. unfold deviceDataFromSrvReqInfo.
  set (from_tls := if (length (deviceDomains f) =? 0)%nat && _ then _ else _).
  assert (simple_result from_tls) as Htls.
  { subst from_tls. case_if; [by eexists|]. case_if; [by eexists|].
    apply simple_result_map_err, simple_CliSrvName; [done|].
    destruct Hc as [Hc|Hc]; [done|]. rewrite Hc in *.
    destruct (bool_decide (customDomain = EmptyString)) eqn:Ee; bool_simp; [|done].
    left. subst. reflexivity. }
  case_if; [|done]. destruct (simple_DoH ri) as (r & -> & Hr). simpl.
  destruct r as [[dd|]|err]; [|done|by eexists]. eexists. split; [done|]. intros dd' [= <-]. by apply Hr.
Qed.

Lemma matcher_custom_ok mt name : matcher_ok mt ->
  custom_ok name (TrimPrefix (mt (ToLower name)).1 "*.") \/ HasPrefix (mt (ToLower name)).1 "*." = false.
Proof.
  intros Hmt. destruct (Hmt (ToLower name)) as [[-> _]|(ids & _ & [->|(top & label & -> & _ & E)])].
  - by right.
  - destruct (HasPrefix (ToLower name) "*.") eqn:E; [|by right]. left. right.
    apply HasPrefix_spec in E as [t E]. exists "*"%string. rewrite E. by rewrite TrimPrefix_append.
  - left. right. rewrite TrimPrefix_append. by exists label.
Qed.

(** The data of a request: it can be had without a panic, and a custom domain
    is wrapped at most once. *)
Lemma finder_deviceData_total f req ri :
  matcher_ok (customDomainDB_Match f) -> is_ascii (default EmptyString (TLS ri)) = true ->
  exists r, finder_deviceData f req ri = Ret r /\
    forall dd, r = Ok (Some dd) ->
      match dd with deviceDataCustomDomain dd' _ _ => simple_data dd' | _ => True end.
Proof.
  intros Hmt Ha. unfold finder_deviceData. case_if.
  2:{ eexists. split; [done|]. destruct (deviceIDFromEDNS req); [|done].
      case_bool_decide; [done|]. by intros dd [= <-]. }
  unfold deviceDataFromEncrypted. set (name := default EmptyString (TLS ri)) in *.
  destruct (if bool_decide (name = EmptyString) then _ else _) as [dom ids] eqn:Em.
  assert (custom_ok name (TrimPrefix dom "*.") \/ HasPrefix dom "*." = false) as Hc.
  { case_bool_decide; [injection Em as <- _; by right|].
    pose proof (matcher_custom_ok _ name Hmt) as Hc. by rewrite Em in Hc. }
  destruct (simple_SrvReqInfo f ri dom name Ha Hc) as (r & -> & Hr). simpl.
  destruct r as [dd|err]; [|by eexists]. unfold wrapCustomDomain.
  destruct ids as [ids|]; [|eexists; split; [done|]; simpl; intros dd' [= ->];
    specialize (Hr dd' eq_refl); by destruct dd'].
  destruct dd as [dd|]; [|by eexists]. specialize (Hr dd eq_refl).
  destruct dd as [h p t|id|]; [|eexists; split; [done|]; by intros dd' [= <-]|done].
  case_if; eexists; (split; [done|]); by intros dd' [= <-].
Qed.

End device_data_facts.

(** ** Facts on the finder *)

Lemma newDeviceResult_OK r d p :
  newDeviceResult r = Some (DeviceResultOK d p) <-> r = Ok (Some (p, d)).
Proof.
  unfold newDeviceResult. destruct r as [[[p' d']|]|e]; [|done|case_if]; naive_solver.
Qed.

Section finder_facts.
Context `{Netutil} `{!NetutilSpec} `{UnicodeCase} `{DomainMatcher} `{!DomainMatcherSpec} `{Bcrypt}.
Context {S : Type} (db : ProfileDBInterface S) (ok : S -> Prop) `{!ProfileDBPromises db ok}.

(** [Find] never panics: for any request with an ASCII server name and any
    custom-domain database that keeps its contract, neither the slicing of the
    server name nor one of the checks for impossible device data fails. *)
Theorem Find_total f s req ri raddr laddr :
  matcher_ok (customDomainDB_Match f) -> is_ascii (default EmptyString (TLS ri)) = true ->
  exists r s', Find db f s req ri raddr laddr = Ret (r, s').
Proof.
  intros Hmt Ha. unfold Find. case_if; [by eexists _, _|].
  destruct (finder_deviceData_total f req ri Hmt Ha) as (r & -> & Hr). simpl.
  destruct r as [dd|err]; [|by eexists _, _].
  assert (exists r s', deviceFromDB db f s laddr (ap_addr raddr) dd = Ret (r, s')) as (r & s' & Hd).
  { unfold deviceFromDB. destruct dd as [dd|].
    - specialize (Hr dd eq_refl). destruct dd as [h p t|id|dd dom ids].
      + destruct (deviceByExtID _ _ _ _ _). by eexists _, _.
      + destruct (db_ProfileByDeviceID _ _ _). by eexists _, _.
      + destruct dd as [h p t|id|]; [..|done]; simpl.
        * destruct (deviceByExtID _ _ _ _ _). by eexists _, _.
        * destruct (db_ProfileByDeviceID _ _ _) as [[[p d]|e] s']; [case_if|]; by eexists _, _.
    - case_if; [|by eexists _, _]. destruct (deviceByAddrs _ _ _ _ _). by eexists _, _. }
  unfold findDevice. rewrite Hd. simpl.
  destruct r as [[]|]; simpl; try by eexists _, _. case_if; by eexists _, _.
Qed.

(** Where the device of an extended human-readable ID comes from. *)
Lemma deviceByExtID_OK s h pid t p d s' :
  deviceByExtID db s h pid t = (Ok (Some (p, d)), s') ->
  db_ProfileByHumanID db s pid (HumanIDToLower h) = (Ok (p, d), s') \/
  (exists err s1, db_ProfileByHumanID db s pid (HumanIDToLower h) = (Err err, s1) /\
     errorIsOpt err ErrDeviceNotFound = true /\
     db_CreateAutoDevice db s1 pid h t = (Ok (p, d), s')).
Proof.
  unfold deviceByExtID.
  destruct (db_ProfileByHumanID _ _ _ _) as [[x|err] s1]; [intros [= -> ->]; by left|].
  case_if; [done|]. case_if; [|done].
  destruct (db_CreateAutoDevice _ _ _ _ _) as [[x|err2] s2] eqn:Ec.
  - intros [= -> ->]. right. eauto.
  - case_if; done.
Qed.

(** The result before the check for deleted profiles and authentication. *)
Lemma Find_OK f s req ri raddr laddr d p s' :
  Find db f s req ri raddr laddr = Ret (Some (DeviceResultOK d p), s') ->
  Deleted p = false /\ authenticate f ri d = None /\
  exists dd, finder_deviceData f req ri = Ret (Ok dd) /\
    deviceFromDB db f s laddr (ap_addr raddr) dd = Ret (Some (DeviceResultOK d p), s').
Proof.
  unfold Find. case_if; [done|]. destruct (finder_deviceData f req ri) as [[dd|err]|]; simpl; [|done..].
  unfold findDevice. destruct (deviceFromDB _ _ _ _ _ _) as [[r s1]|] eqn:Ed; simpl; [|done].
  destruct r as [[e|e|d' p'|e]|]; simpl; try done.
  destruct (Deleted p') eqn:Edel; simpl; [done|]. unfold authenticatedResult.
  destruct (authenticate f ri d') eqn:Ea; [done|]. intros [= -> -> ->]. eauto.
Qed.

(** With DoH and userinfo the device data are the ID from the userinfo. *)
Lemma deviceData_userinfo f req ri ui dd :
  s_Protocol (srv f) = ProtoDoH -> ri_Userinfo ri = Some ui ->
  finder_deviceData f req ri = Ret (Ok dd) ->
  dd = Some (deviceDataID (Username ui)) \/
  exists dom ids, dd = Some (deviceDataCustomDomain (deviceDataID (Username ui)) dom ids).
Proof.
  intros Hp Hu. unfold finder_deviceData. rewrite Hp. simpl.
  unfold deviceDataFromEncrypted. destruct (if bool_decide _ then _ else _) as [dom ids].
  unfold deviceDataFromSrvReqInfo, deviceDataForDoH. rewrite Hp, Hu. simpl.
  destruct (NewDeviceID (Username ui)) as [id|err] eqn:En; simpl; [|done].
  apply NewDeviceID_Ok in En as [-> _].
  destruct ids as [ids|]; simpl; intros [= <-]; eauto.
Qed.

(** A device found by its ID has this ID, also behind a custom domain. *)
Lemma deviceFromDB_id f s laddr rip id dd d p s' : ok s ->
  dd = Some (deviceDataID id) \/
    (exists dom ids, dd = Some (deviceDataCustomDomain (deviceDataID id) dom ids)) ->
  deviceFromDB db f s laddr rip dd = Ret (Some (DeviceResultOK d p), s') ->
  d_ID d = id /\ id ∈ DeviceIDs p.
Proof.
  intros Hok [->|(dom & ids & ->)]; simpl;
    destruct (db_ProfileByDeviceID db s id) as [r s1] eqn:E.
  - intros [= En ->]. apply newDeviceResult_OK in En. destruct r as [[p' d']|]; simplify_eq/=.
    by eapply promise_id.
  - intros Hd. assert (r = Ok (p, d) /\ s1 = s') as [-> ->]; [|by eapply promise_id].
    destruct r as [[p' d']|e]; [case_bool_decide|]; injection Hd as Hd ->; [|done|].
    + by simplify_eq/=.
    + apply (newDeviceResult_OK (Err e)) in Hd. done.
Qed.

(** C2. A device that requires authentication is only ever returned as found
    when it has authenticated.  If authentication is enabled for DoH only, the
    request came over DoH with the device's own ID as the user name and a
    password that the device's hash accepts; and whenever a DoH request carries
    userinfo, the returned device is the one that the user name names and its
    password, if enabled, has been checked: the device found and the device
    authenticated cannot differ.  A deleted profile is never returned. *)
Theorem Find_authenticated f s req ri raddr laddr d p s' :
  ok s ->
  Find db f s req ri raddr laddr = Ret (Some (DeviceResultOK d p), s') ->
  Deleted p = false /\
  (auth_Enabled (Auth d) = true -> DoHAuthOnly (Auth d) = true ->
     s_Protocol (srv f) = ProtoDoH /\ ri_Userinfo ri <> None) /\
  (forall ui, s_Protocol (srv f) = ProtoDoH -> ri_Userinfo ri = Some ui ->
     d_ID d = Username ui /\
     (auth_Enabled (Auth d) = true ->
      exists pw, Password ui = Some pw /\ Authenticate (PasswordHash (Auth d)) pw = true)).
Proof.
  intros Hok (Hdel & Ha & dd & Hdd & Hdb)%Find_OK. split; [done|]. unfold authenticate in Ha. split.
  - intros He Ho. rewrite He, Ho in Ha. simpl in Ha.
    destruct (s_Protocol (srv f) =? ProtoDoH) eqn:Ep; [|done]. bool_simp.
    by destruct (ri_Userinfo ri).
  - intros ui Hp Hu. split.
    + eapply deviceFromDB_id; [done| |done]. by eapply deviceData_userinfo.
    + intros He. rewrite He, Hp, Hu in Ha. simpl in Ha.
      destruct (Password ui) as [pw|]; [|done].
      exists pw. split; [done|]. by destruct (Authenticate _ pw).
Qed.

(** C34. On an encrypted server, a request whose server name belongs to a custom
    domain is only ever resolved to a profile that owns this domain, provided
    that the database answers a query for a profile and a human-readable ID with
    that profile. *)
Theorem Find_custom_domain f s req ri raddr laddr name dom ids d p s' :
  ok s ->
  (forall id h p d s', db_ProfileByHumanID db s id h = (Ok (p, d), s') -> p_ID p = id) ->
  IsStdEncrypted (s_Protocol (srv f)) = true ->
  TLS ri = Some name -> name <> EmptyString ->
  customDomainDB_Match f (ToLower name) = (dom, Some ids) ->
  Find db f s req ri raddr laddr = Ret (Some (DeviceResultOK d p), s') ->
  p_ID p ∈ ids.
Proof.
  intros Hok Hhuman He Ht Hn Hm (_ & _ & dd & Hdd & Hdb)%Find_OK.
  unfold finder_deviceData, deviceDataFromEncrypted in Hdd. rewrite He, Ht in Hdd. simpl in Hdd.
  rewrite bool_decide_eq_false_2, Hm in Hdd by done.
  destruct (deviceDataFromSrvReqInfo f ri dom name) as [[dd0|e]|]; simpl in Hdd; [|done..].
  destruct dd0 as [[h pid t|id|]|]; simpl in Hdd; [| |done|].
  - case_bool_decide as Hin; simpl in Hdd; [|done]. injection Hdd as <-. simpl in Hdb.
    destruct (deviceByExtID db s h pid t) as [r s1] eqn:E.
    injection Hdb as En ->. apply newDeviceResult_OK in En as ->.
    apply deviceByExtID_OK in E as [E|(err & s1 & E & _ & Ec)].
    + apply Hhuman in E as ->. done.
    + pose proof (promise_human_ok (db := db) s pid (HumanIDToLower h) Hok) as Hok1. rewrite E in Hok1.
      apply (promise_create (ok := ok)) in Ec as [-> _]; done.
  - injection Hdd as <-. simpl in Hdb. destruct (db_ProfileByDeviceID db s id) as [[[p' d']|e] s1].
    + case_bool_decide; [|done]. by simplify_eq/=.
    + injection Hdb as Hdb ->. by apply (newDeviceResult_OK (Err e)) in Hdb.
  - injection Hdd as <-. simpl in Hdb. destruct (s_Protocol (srv f) =? ProtoDNS) eqn:Ep; [|done].
    bool_simp. by rewrite Ep in He.
Qed.

End finder_facts.

(** ** Extended human-readable IDs *)

Section ext_human_id.
Context `{Netutil} `{!NetutilSpec} `{UnicodeCase}.

(** Every valid device type, lowercase profile ID without hyphens, and
    human-readable ID can be written as one label, type-profile-name, from which
    [parseDeviceData] recovers exactly these three values, whatever hyphens the
    name itself contains. *)
Theorem ext_human_id_roundtrip dt prof h :
  1 <= dt <= 9 -> newHumanID h = Ok h ->
  NewProfileID prof = Ok prof -> ToLower prof = prof -> CountByte prof "-"%char = 0%nat ->
  parseDeviceData (DeviceType_String dt +:+ String "-"%char (prof +:+ String "-"%char h)) =
  Ret (Ok (deviceDataExtHumanID h prof dt)).
Proof.
  intros Hdt Hh Hp Hlow Hc.
  assert (CountByte (DeviceType_String dt) "-"%char = 0%nat /\
    DeviceTypeFromDNS (DeviceType_String dt) = Ok dt) as [Hct Hdns].
  { assert (dt = 1 \/ dt = 2 \/ dt = 3 \/ dt = 4 \/ dt = 5 \/ dt = 6 \/ dt = 7 \/ dt = 8 \/ dt = 9)
      as Hcases by lia.
    destruct_or! Hcases; subst dt; split; reflexivity. }
  unfold parseDeviceData, isLikelyExtHumanID.
  assert ((2 <=? CountByte (DeviceType_String dt +:+ String "-" (prof +:+ String "-" h)) "-")%nat
    = true) as ->.
  { apply Nat.leb_le. rewrite CountByte_append. simpl. rewrite CountByte_append. simpl. lia. }
  unfold parseExtHumanID. cbn [SplitNByte].
  rewrite Cut_byte by done. rewrite Cut_byte by done.
  rewrite Hdns, Hlow, Hp. unfold ParseNormalized. by rewrite Hh.
Qed.

End ext_human_id.

(** ** The database of ProfileDB.v keeps the promises *)

Section implementation.
Context {C : Type} (cdb : CustomDomainDBOps C).
Context (create : StorageCreateAutoDeviceRequest -> result error Device).

Definition query_op (s : sys (C := C)) (q : query) : result error (Profile * Device) * sys :=
  ((lookup (maps (s_db s)) q).1, exec cdb s (EvLookup q)).

Definition profiledb_interface : ProfileDBInterface (sys (C := C)) := {|
  db_CreateAutoDevice s id h t :=
    ((CreateAutoDevice create (s_db s) id h t).1, exec cdb s (EvCreate create id h t));
  db_ProfileByDedicatedIP s ip := query_op s (ByDedicatedIP ip);
  db_ProfileByDeviceID s id := query_op s (ByDeviceID id);
  db_ProfileByHumanID s id h := query_op s (ByHumanID id h);
  db_ProfileByLinkedIP s ip := query_op s (ByLinkedIP ip);
|}.

Definition sys_ok (s : sys (C := C)) : Prop := maps_ok (maps (s_db s)).

#[export] Instance profiledb_promises : ProfileDBPromises profiledb_interface sys_ok.
Proof.
  split; unfold sys_ok; simpl.
  - intros s id p d s' Hok [= E _]. by apply profileByDeviceID_sound in E as [(_ & _ & Hin & _) <-].
  - intros s ip p d s' Hok [= E _]. apply ProfileByDedicatedIP_Ok in E as (id & _ & E & Hip).
    by apply profileByDeviceID_sound in E as [(_ & _ & Hin & _) _].
  - intros s ip p d s' Hok [= E _]. apply ProfileByLinkedIP_Ok in E as (id & _ & E & Hip & _).
    by apply profileByDeviceID_sound in E as [(_ & _ & Hin & _) _].
  - intros s id h p d s' Hok [= E _]. apply ProfileByHumanID_Ok in E as (_ & did & _ & E & Hh).
    by apply profileByDeviceID_sound in E as [(_ & _ & Hin & _) _].
  - done.
  - intros s id h t p d s' Hok [= E _]. unfold CreateAutoDevice in E.
    destruct (profiles (maps (s_db s)) !! id) as [q|] eqn:Eq; [|done].
    destruct (AutoDevicesEnabled q) eqn:Ea; simpl in E; [|done].
    destruct (create _); simplify_eq/=. split; [by eapply ok_profile|done].
Qed.

End implementation.

(** ** Which device is found *)

Section found.
Context `{Netutil} `{UnicodeCase} `{DomainMatcher} `{Bcrypt}.
Context {C : Type} (cdb : CustomDomainDBOps C).
Context (create : StorageCreateAutoDeviceRequest -> result error Device).

(** The profile and the device are in the maps, and belong to each other. *)
Definition by_ext_id (m : Maps) (h pid : string) (t : Z) (p : Profile) (d : Device) : Prop :=
  (belongs m p d /\ HumanIDLower d = HumanIDToLower h) \/
  ((exists err, (ProfileByHumanID m pid (HumanIDToLower h)).1 = Err err /\ errorIsOpt err ErrDeviceNotFound = true) /\
   profiles m !! pid = Some p /\ AutoDevicesEnabled p = true /\
   create {| req_ProfileID := pid; req_HumanID := h; req_DeviceType := t |} = Ok d).

Lemma deviceByExtID_found s h pid t p d s' : sys_ok s ->
  deviceByExtID (profiledb_interface cdb create) s h pid t = (Ok (Some (p, d)), s') ->
  by_ext_id (maps (s_db s)) h pid t p d.
Proof.
  intros Hok [E|(err & s1 & E & Hn & Ec)]%deviceByExtID_OK.
  - injection E as E _. left. apply ProfileByHumanID_Ok in E as (_ & id & _ & E & Hh).
    by apply profileByDeviceID_sound in E as [? _].
  - right. injection E as E <-. split; [by exists err|]. injection Ec as Ec _. simpl in Ec. unfold CreateAutoDevice in Ec.
    destruct (profiles _ !! pid) as [q|]; [|done]. destruct (AutoDevicesEnabled q) eqn:Ea; simpl in Ec; [|done].
    destruct (create _) as [d'|]; by simplify_eq/=.
Qed.

Lemma result_found r (s1 : sys (C := C)) d p s' :
  Ret (newDeviceResult r, s1) = Ret (Some (DeviceResultOK d p), s') -> r = Ok (Some (p, d)) /\ s1 = s'.
Proof. intros [= En ->]. by apply newDeviceResult_OK in En. Qed.

Lemma found_Ok r p d : found r = Ok (Some (p, d)) -> r = Ok (p, d).
Proof. by destruct r as [[]|]; intros [=]; subst. Qed.

(** C13. Which device [Find] returns, over the profile database after any sequence of
    refreshes, creations, lookups and removals.  The data of the request decide: a
    device ID gives the device with this ID; without data, which is only looked at
    on plain DNS, it is the device with the local address as a dedicated one, if the
    server is bound to interfaces and the address is not its own, and otherwise the
    one with the remote address as its linked one, if the server allows these; behind
    a custom domain the profile of a device ID is an owner of the domain.  In each case
    the returned profile and device are in the database, and the profile's list of
    devices has the device.  An extended human-readable ID gives such a device with
    this human-readable ID; or, if the profile of the ID has no device with it and
    has automatic devices enabled, that profile with the device that the storage has
    created just now for this very ID. *)
Theorem Find_attached c cIvl fIvl rIvl load evs f req ri raddr laddr d p s' :
  let s := foldl (exec cdb) (start cdb c cIvl fIvl rIvl load) evs in
  let m := maps (s_db s) in
  Find (profiledb_interface cdb create) f s req ri raddr laddr = Ret (Some (DeviceResultOK d p), s') ->
  exists dd, finder_deviceData f req ri = Ret (Ok dd) /\
  match dd with
  | Some (deviceDataID id) => belongs m p d /\ d_ID d = id
  | Some (deviceDataExtHumanID h pid t) => by_ext_id m h pid t p d
  | Some (deviceDataCustomDomain (deviceDataID id) _ ids) => belongs m p d /\ d_ID d = id /\ p_ID p ∈ ids
  | Some (deviceDataCustomDomain (deviceDataExtHumanID h pid t) _ _) => by_ext_id m h pid t p d
  | Some (deviceDataCustomDomain (deviceDataCustomDomain _ _ _) _ _) => False
  | None =>
      s_Protocol (srv f) = ProtoDNS /\ belongs m p d /\
      if BindsToInterfaces (srv f) && negb (HasAddr (srv f) laddr)
      then ap_addr laddr ∈ DedicatedIPs d
      else LinkedIPEnabled (srv f) = true /\ LinkedIP d = ap_addr raddr /\ ap_addr raddr <> AddrZero
  end.
Proof.
  intros s m (_ & _ & dd & Hdd & Hdb)%Find_OK. exists dd. split; [done|].
  assert (sys_ok s) as Hok.
  { apply (foldl_inv _ (fun s => maps_ok (maps (s_db s)))); [apply maps_ok_New|]. eauto using exec_maps_ok. }
  destruct dd as [[h pid t|id|[h pid t|id|] dom ids]|]; simpl in Hdb.
  - destruct (deviceByExtID _ _ _ _ _) as [r s1] eqn:E. apply result_found in Hdb as [-> ->].
    by eapply deviceByExtID_found.
  - apply result_found in Hdb as [E%found_Ok _]. by apply profileByDeviceID_sound in E.
  - destruct (deviceByExtID _ _ _ _ _) as [r s1] eqn:E. apply result_found in Hdb as [-> ->].
    by eapply deviceByExtID_found.
  - destruct (ProfileByDeviceID _ id).1 as [[p' d']|e] eqn:El; [case_bool_decide as Hin|]; try done.
    2: { by apply (result_found (Err e)) in Hdb as [? _]. }
    injection Hdb as -> -> _. apply profileByDeviceID_sound in El as [? ?]; [by split_and!|done].
  - done.
  - destruct (s_Protocol (srv f) =? ProtoDNS) eqn:Ep; [|done]. bool_simp. split; [done|].
    unfold deviceByAddrs in Hdb. destruct (BindsToInterfaces (srv f) && negb (HasAddr (srv f) laddr)).
    + unfold deviceByLocalAddr in Hdb. simpl in Hdb. unfold query_op in Hdb. simpl in Hdb.
      destruct (ProfileByDedicatedIP _ _).1 as [[p' d']|e] eqn:E; [|by case_match].
      injection Hdb as -> -> _. apply ProfileByDedicatedIP_Ok in E as (id & _ & E & Hin).
      by apply profileByDeviceID_sound in E as [? _].
    + destruct (LinkedIPEnabled (srv f)); simpl in Hdb; [|done].
      apply result_found in Hdb as [El%found_Ok _].
      apply ProfileByLinkedIP_Ok in El as (id & _ & E & Hl & Hz). apply profileByDeviceID_sound in E as [? _]; [by split_and!|done].
Qed.

End found.

(** ** Scenarios and concrete inputs *)

#[local] Existing Instance ref_netutil.
#[local] Existing Instance ref_netutil_spec.
#[local] Existing Instance ref_unicode.

#[local] Instance plain_matcher : DomainMatcher := fun sub top =>
  let label := str_take (String.length sub - String.length top - 1) sub in
  negb (bool_decide (label = EmptyString)) && (CountByte label "."%char =? 0)%nat
  && bool_decide (sub = label +:+ String "."%char top).

#[local] Instance plain_matcher_spec : DomainMatcherSpec.
Proof.
  intros sub top E. unfold IsImmediateSubdomain, plain_matcher in E. bool_simp. by eexists.
Qed.

#[local] Instance plain_bcrypt : Bcrypt := fun hash pw => bool_decide (hash = pw).

(** The profile ID of an extended human-readable ID can be empty, although
    the device data require it not to be: [NewProfileID] accepts the empty
    string. *)
Theorem empty_profile_id_accepted :
  parseDeviceData "win--phone" = Ret (Ok (deviceDataExtHumanID "phone" EmptyString 1)).
Proof. reflexivity. Qed.

(** [pathElements] takes the path of any suffix of a DNS path for a DNS
    path, since it tests whether the constant ends in the path element: [/y] and
    [/query/abcd] are accepted like [/dns-query] and [/dns-query/abcd]. *)
Theorem path_suffixes_accepted :
  pathElements "/y" = Ret (Ok ["y"%string]) /\
  pathElements "/query/abcd" = Ret (Ok ["query"; "abcd"]%string) /\
  pathElements "/dns-query/abcd" = Ret (Ok ["dns-query"; "abcd"]%string) /\
  deviceDataFromDoHURL "/y/abcd" = Ret (Ok (Some (deviceDataID "abcd"))).
Proof. repeat split. Qed.

Definition doh_finder (mt : Matcher) : Finder := {|
  srv := {| s_Name := "doh"; bindData := []; s_Protocol := ProtoDoH; LinkedIPEnabled := false |};
  deviceDomains := ["d.example.com"%string];
  customDomainDB_Match := mt;
|}.

Definition no_match : Matcher := fun _ => (EmptyString, None).

(** The device [dev1] of profile [A] has a password. *)
Definition secret_device : Device := {|
  Auth := {| PasswordHash := PasswordHashBcrypt "secret"; auth_Enabled := true; DoHAuthOnly := true |};
  d_ID := "dev1"; LinkedIP := AddrZero; d_Name := EmptyString; HumanIDLower := "phone";
  DedicatedIPs := []; d_FilteringEnabled := true;
|}.

Definition some_sys : sys (C := unit) :=
  exec EmptyCustomDomainDB (start EmptyCustomDomainDB tt 1000 1000 1000 (Ok None))
    (EvRefreshFull (env_of [some_profile "A" {["dev1"]}] [secret_device])).

Lemma some_sys_ok : sys_ok some_sys.
Proof. apply exec_maps_ok, maps_ok_New. Qed.

Definition some_db := profiledb_interface EmptyCustomDomainDB (fun _ => Err (ErrConst "no storage")).

Definition auth_request : RequestInfo := {|
  TLS := Some "example.com"%string;
  ri_Userinfo := Some {| Username := "dev1"; Password := Some "secret"%string |};
  URL_Path := "/dns-query";
|}.

Definition addr0 : AddrPort := {| ap_addr := Addr4 1; ap_port := 1 |}.

Lemma errorIsOpt_Is_witness :
  errorIsOpt (ErrWrap "a: %w" (ErrWrap "b: %w" (ErrConst ErrDeviceNotFound))) ErrDeviceNotFound = true.
Proof.
  exact (errorIsOpt_Is (ErrWrap "a: %w" (ErrWrap "b: %w" (ErrConst ErrDeviceNotFound)))
    ErrDeviceNotFound (fun _ => ltac:(discriminate))).
Defined.

Lemma Find_total_witness :
  exists r s', Find some_db (doh_finder no_match) some_sys None auth_request addr0 addr0 = Ret (r, s').
Proof.
  apply (Find_total some_db (doh_finder no_match)); [|reflexivity]. intros name. by left.
Defined.

Lemma Find_authenticated_witness :
  exists s' p, Find some_db (doh_finder no_match) some_sys None auth_request addr0 addr0 =
    Ret (Some (DeviceResultOK secret_device p), s') /\ Deleted p = false.
Proof.
  assert (exists s' p, Find some_db (doh_finder no_match) some_sys None auth_request addr0 addr0 =
    Ret (Some (DeviceResultOK secret_device p), s')) as (s' & p & E).
  { eexists _, _. vm_compute. reflexivity. }
  exists s', p. split; [exact E|].
  exact (proj1 (Find_authenticated some_db sys_ok _ _ _ _ _ _ _ _ _ some_sys_ok E)).
Defined.

Definition label_request (name : string) : RequestInfo := {|
  TLS := Some name; ri_Userinfo := None; URL_Path := "/dns-query";
|}.

Definition open_sys : sys (C := unit) :=
  exec EmptyCustomDomainDB (start EmptyCustomDomainDB tt 1000 1000 1000 (Ok None))
    (EvRefreshFull (env_of some_ps some_ds)).

Definition open_events : list event := [EvRefreshFull (env_of some_ps some_ds)].

Lemma Find_attached_witness :
  exists s' p d,
    Find some_db (doh_finder no_match) open_sys None (label_request "DEV2.d.example.com") addr0 addr0 =
      Ret (Some (DeviceResultOK d p), s') /\ belongs (maps (s_db open_sys)) p d /\ d_ID d = "dev2"%string.
Proof.
  assert (exists s' p d,
    Find some_db (doh_finder no_match) open_sys None (label_request "DEV2.d.example.com") addr0 addr0 =
      Ret (Some (DeviceResultOK d p), s')) as (s' & p & d & E).
  { eexists _, _, _. vm_compute. reflexivity. }
  exists s', p, d. split; [exact E|].
  destruct (Find_attached EmptyCustomDomainDB (fun _ => Err (ErrConst "no storage")) tt 1000 1000 1000 (Ok None) open_events
    (doh_finder no_match) None (label_request "DEV2.d.example.com") addr0 addr0 d p s' E) as (dd & Hdd & Hb).
  vm_compute in Hdd. injection Hdd as <-. exact Hb.
Defined.

Definition custom_match : Matcher := fun name =>
  if bool_decide (name = "dev2.my.example"%string) then ("*.my.example"%string, Some ["B"%string])
  else (EmptyString, None).

Lemma open_sys_human id h p d s' :
  db_ProfileByHumanID some_db open_sys id h = (Ok (p, d), s') -> p_ID p = id.
Proof.
  intros Hq. assert ((ProfileByHumanID (maps (s_db open_sys)) id h).1 = Ok (p, d)) as E
    by (injection Hq; done).
  assert (maps (s_db open_sys) = full_maps some_ps some_ds) as Em by apply setProfilesFull_maps.
  rewrite Em in E. destruct (full_finds _ _ some_consistent) as (_ & _ & _ & Hh).
  by apply Hh in E as (_ & -> & _).
Qed.

Lemma Find_custom_domain_witness :
  exists s' p d, Find some_db (doh_finder custom_match) open_sys None (label_request "dev2.my.example")
    addr0 addr0 = Ret (Some (DeviceResultOK d p), s') /\ p_ID p ∈ ["B"%string].
Proof.
  assert (sys_ok open_sys) as Hok by (apply exec_maps_ok, maps_ok_New).
  assert (exists s' p d, Find some_db (doh_finder custom_match) open_sys None
    (label_request "dev2.my.example") addr0 addr0 = Ret (Some (DeviceResultOK d p), s'))
    as (s' & p & d & E).
  { eexists _, _, _. vm_compute; reflexivity. }
  exists s', p, d. split; [exact E|].
  exact (Find_custom_domain some_db sys_ok (doh_finder custom_match) open_sys None
    (label_request "dev2.my.example") addr0 addr0 "dev2.my.example"%string "*.my.example"%string
    ["B"%string] d p s' Hok open_sys_human eq_refl eq_refl ltac:(discriminate) eq_refl E).
Defined.

Lemma ext_human_id_roundtrip_witness :
  parseDeviceData "otr-abcd-my-phone" = Ret (Ok (deviceDataExtHumanID "my-phone" "abcd" 9)).
Proof.
  apply (ext_human_id_roundtrip 9 "abcd"%string "my-phone"%string);
    [lia|reflexivity..].
Defined.
