(* ===== verification/MainMW.v ===== *)
(** The main DNS middleware: internal/dnssvc/internal/mainmw (mainmw.go,
    filter.go, record.go, debug.go, error.go).

    A request is filtered, resolved by the next handler, the response is filtered,
    and what has happened is written to the client, the rule statistics, the
    billing statistics and the query log.  These effects are the result of the
    handler.  The filters come from a storage, which is an interface here
    ([FilterObj]); the pools and the disposal of messages only concern memory. *)

From S2P Require Import Prelude GoStd NetIP HumanID DnsMsg Filter FilterConfig Access Agd.

Open Scope Z_scope.

(** [filter.Interface].  A response without a message is one whose message is
    nil. *)
Record FilterObj := {
  fo_Request : Request -> outcome (result error (option Result));
  fo_Response : option Msg -> Addr -> string -> outcome (result error (option Result));
}.

(** *** Effects *)

Record BillRecord := {
  bl_DeviceID : string;
  bl_Country : string;
  bl_ASN : Z;
  bl_Start : Z;
  bl_Protocol : Z;
}.

(** querylog/entry.go. *)
Record Entry := {
  en_RemoteIP : Addr;
  en_RequestResult : option Result;
  en_ResponseResult : option Result;
  en_Time : Z;
  en_ProfileID : string;
  en_DeviceID : string;
  en_ClientCountry : string;
  en_ResponseCountry : string;
  en_DomainFQDN : string;
  en_Elapsed : Z;
  en_ClientASN : Z;
  en_RequestType : Z;
  en_ResponseCode : Z;
  en_AccountID : Z;
  en_Protocol : Z;
  en_DNSSEC : bool;
  en_Stream : bool;
}.

(** What the handler has done: the messages it has written, the rules, the bills
    and the log entries it has recorded, and the errors it has collected. *)
Record Effects := {
  ef_Written : list (Msg * option Msg);
  ef_Rules : list (string * string);
  ef_Bills : list BillRecord;
  ef_Logs : list Entry;
  ef_Errors : list error;
}.

Definition no_effects : Effects :=
  {| ef_Written := []; ef_Rules := []; ef_Bills := []; ef_Logs := []; ef_Errors := [] |}.

Definition collected (errs : list error) : Effects :=
  {| ef_Written := []; ef_Rules := []; ef_Bills := []; ef_Logs := []; ef_Errors := errs |}.

(** One effect after another. *)
Definition effects_app (a b : Effects) : Effects := {|
  ef_Written := ef_Written a ++ ef_Written b; ef_Rules := ef_Rules a ++ ef_Rules b;
  ef_Bills := ef_Bills a ++ ef_Bills b; ef_Logs := ef_Logs a ++ ef_Logs b;
  ef_Errors := ef_Errors a ++ ef_Errors b;
|}.

(** ** filter.go *)

Record filteringContext := {
  originalRequest : Msg;
  modifiedRequest : option Msg;
  originalResponse : option Msg;
  filteredResponse : option Msg;
  requestResult : option Result;
  responseResult : option Result;
  isDebug : bool;
}.

Definition set_qclass (m : Msg) (cl : Z) : outcome Msg :=
  let! q := index (m_Question m) 0 in
  let! qs := set_index (m_Question m) 0 {| q_Name := q_Name q; q_Qtype := q_Qtype q; q_Qclass := cl |} in
  Ret (set_Question m qs).

Definition newFilteringContext (req : Msg) : outcome filteringContext :=
  let! q := index (m_Question req) 0 in
  let debug := q_Qclass q =? ClassCHAOS in
  let! req := if debug then set_qclass req ClassINET else Ret req in
  Ret {| originalRequest := req; modifiedRequest := None; originalResponse := None; filteredResponse := None;
         requestResult := None; responseResult := None; isDebug := debug |}.

Definition client_name (ri : RequestInfo) : string :=
  match DeviceData ri with Some (_, d) => d_Name d | None => EmptyString end.

Definition reqInfoToFltReq (req : Msg) (ri : RequestInfo) : Request := {|
  f_DNS := req; f_Messages := ri_Messages ri; f_RemoteIP := ri_RemoteIP ri; f_ClientName := client_name ri;
  f_Host := ri_Host ri; f_QType := ri_QType ri; f_QClass := ri_QClass ri;
|}.

(** The second result are the collected errors. *)
Definition filterRequest (fctx : filteringContext) (f : FilterObj) (ri : RequestInfo)
    : outcome (filteringContext * list error) :=
  let! r := fo_Request f (reqInfoToFltReq (originalRequest fctx) ri) in
  let '(reqRes, errs) :=
    match r with
    | Ok reqRes => (reqRes, [])
    | Err err => (None, [ErrWrap "filtering request: %w" err])
    end in
  Ret ({| originalRequest := originalRequest fctx;
          modifiedRequest := match reqRes with
                             | Some (ResultModifiedRequest msg _ _) => Some msg
                             | _ => modifiedRequest fctx
                             end;
          originalResponse := originalResponse fctx; filteredResponse := filteredResponse fctx;
          requestResult := reqRes; responseResult := responseResult fctx; isDebug := isDebug fctx |}, errs).

Definition IDAdultBlocking : string := "adult_blocking".
Definition IDSafeBrowsing : string := "safe_browsing".
Definition IDTyposquatting : string := "typosquatting".

Definition is_adult_id (fltID : string) : bool :=
  bool_decide (fltID = IDAdultBlocking) || bool_decide (fltID = IDBlockedService) || bool_decide (fltID = IDCategory).

Definition is_browsing_id (fltID : string) : bool :=
  bool_decide (fltID = IDSafeBrowsing) || bool_decide (fltID = IDTyposquatting).

(** [cmp.Or] of two interface values, the second of which is not nil. *)
Definition mode_or (m : option BlockingMode) (def : BlockingMode) : BlockingMode := default def m.

Definition resultBlockingMode (ri : RequestInfo) (res : Result) : option BlockingMode :=
  match DeviceData ri with
  | None => None
  | Some (profile, _) =>
      let fltID := (MatchedRule res).1 in
      Some (if is_adult_id fltID then mode_or (AdultBlockingMode profile) (p_BlockingMode profile)
            else if is_browsing_id fltID then mode_or (SafeBrowsingBlockingMode profile) (p_BlockingMode profile)
            else p_BlockingMode profile)
  end.

Definition filterBlockingMode (ri : RequestInfo) (res : Result) : option BlockingMode :=
  match DeviceData ri with
  | None => None
  | Some (profile, _) =>
      let fltID := (MatchedRule res).1 in
      if is_adult_id fltID then AdultBlockingMode profile
      else if is_browsing_id fltID then SafeBrowsingBlockingMode profile
      else None
  end.

Definition resultData (res : option Result) : string * string * bool :=
  match res with
  | None => (IDNone, EmptyString, false)
  | Some res =>
      let '(id, text) := MatchedRule res in
      (id, text, match res with ResultAllowed _ _ => false | _ => true end)
  end.

Definition filteringData (fctx : filteringContext) : string * string * bool :=
  match requestResult fctx with
  | Some r => resultData (Some r)
  | None => resultData (responseResult fctx)
  end.

Section mainmw.
Context `{MiekgDNS} `{UnicodeCase}.

(** Environment: the filter storage, the next handler, the GeoIP database and the
    conversion of addresses of golibs; the writer's, the query log's and the
    context's errors. *)
Record MwEnv := {
  me_storage : FilterConfig -> outcome FilterObj;
  me_next : RequestInfo -> Msg -> outcome (result error (option Msg));
  me_geo : string -> Addr -> option GeoLocation * option error;
  me_to_addr : Addr -> Z -> result error Addr;
  me_start : Z;
  me_now : Z;
  me_ctx : option error;
  me_write : option error;
  me_querylog : option error;
  me_raddr : Addr;
  me_laddr : Addr;
}.

Record Middleware := { mw_messages : Constructor; mw_nodeName : string }.

Context (mw : Middleware) (env : MwEnv).

Definition with_response (fctx : filteringContext) (resp : option Msg) : filteringContext := {|
  originalRequest := originalRequest fctx; modifiedRequest := modifiedRequest fctx; originalResponse := resp;
  filteredResponse := filteredResponse fctx; requestResult := requestResult fctx;
  responseResult := responseResult fctx; isDebug := isDebug fctx;
|}.

Definition with_filtered (fctx : filteringContext) (resp : option Msg) : filteringContext := {|
  originalRequest := originalRequest fctx; modifiedRequest := modifiedRequest fctx;
  originalResponse := originalResponse fctx; filteredResponse := resp; requestResult := requestResult fctx;
  responseResult := responseResult fctx; isDebug := isDebug fctx;
|}.

Definition with_respResult (fctx : filteringContext) (r : option Result) : filteringContext := {|
  originalRequest := originalRequest fctx; modifiedRequest := modifiedRequest fctx;
  originalResponse := originalResponse fctx; filteredResponse := filteredResponse fctx;
  requestResult := requestResult fctx; responseResult := r; isDebug := isDebug fctx;
|}.

Definition filterResponse (fctx : filteringContext) (f : FilterObj) (ri : RequestInfo)
    : outcome (filteringContext * list error) :=
  match modifiedRequest fctx with
  | Some modReq =>
      match originalResponse fctx with
      | None => Panic "nil pointer dereference"
      | Some origResp =>
          let origReq := originalRequest fctx in
          let! q := index (m_Question origReq) 0 in
          let! qs := set_index (m_Question origResp) 0 q in
          let! mq := index (m_Question modReq) 0 in
          let! rr := NewAnswerCNAME (ri_Messages ri) origReq (q_Name mq) in
          let origResp := set_Question (set_Id origResp (m_Id origReq)) qs in
          Ret (with_response fctx (Some (set_Answer origResp (rr :: m_Answer origResp))), [])
      end
  | None =>
      let! r := fo_Response f (originalResponse fctx) (ri_RemoteIP ri) (client_name ri) in
      Ret match r with
          | Ok respRes => (with_respResult fctx respRes, [])
          | Err err => (with_respResult fctx None, [ErrWrap "filtering response: %w" err])
          end
  end.

Definition setFilteredResponseFromBlockingMode (fctx : filteringContext) (ri : RequestInfo)
    (mode : option BlockingMode) : outcome (filteringContext * list error) :=
  let! r := NewBlockedResp (ri_Messages ri) (originalRequest fctx) mode in
  Ret match r with
      | Ok resp => (with_filtered fctx (Some resp), [])
      | Err err => (with_filtered fctx (originalResponse fctx),
                    [ErrWrap "creating blocked resp for filtered req: %w" err])
      end.

Definition setFilteredResponseNoReq (fctx : filteringContext) (ri : RequestInfo)
    : outcome (filteringContext * list error) :=
  match responseResult fctx with
  | None | Some (ResultAllowed _ _) => Ret (with_filtered fctx (originalResponse fctx), [])
  | Some (ResultBlocked l t) =>
      let! r := NewBlockedResp (ri_Messages ri) (originalRequest fctx)
                  (resultBlockingMode ri (ResultBlocked l t)) in
      Ret match r with
          | Ok resp => (with_filtered fctx (Some resp), [])
          | Err err => (with_filtered fctx (originalResponse fctx),
                        [ErrWrap "creating blocked resp for filtered resp: %w" err])
          end
  | Some _ => Panic "unexpected type %T"
  end.

Definition setFilteredResponse (fctx : filteringContext) (ri : RequestInfo)
    : outcome (filteringContext * list error) :=
  match requestResult fctx with
  | None => setFilteredResponseNoReq fctx ri
  | Some (ResultBlocked l t) =>
      setFilteredResponseFromBlockingMode fctx ri (resultBlockingMode ri (ResultBlocked l t))
  | Some (ResultAllowed _ _) => Ret (with_filtered fctx (originalResponse fctx), [])
  | Some (ResultModifiedRequest msg l t) =>
      match filterBlockingMode ri (ResultModifiedRequest msg l t) with
      | Some mode => setFilteredResponseFromBlockingMode fctx ri (Some mode)
      | None => Ret (with_filtered fctx (originalResponse fctx), [])
      end
  | Some (ResultModifiedResponse msg l t) =>
      match filterBlockingMode ri (ResultModifiedResponse msg l t) with
      | Some mode => setFilteredResponseFromBlockingMode fctx ri (Some mode)
      | None => Ret (with_filtered fctx (Some msg), [])
      end
  end.

(** ** record.go *)

Definition CountryNone : string := EmptyString.
Definition CountryNotApplicable : string := "QN".

Definition ipFromHTTPSRRKV (kv : SVCBKeyValue) : Z * Addr :=
  match kv with
  | SVCBIPv4Hint (ip :: _) => (AddrFamilyIPv4, ip)
  | SVCBIPv6Hint (ip :: _) => (AddrFamilyIPv6, ip)
  | _ => (AddrFamilyNone, AddrZero)
  end.

(** The loop: the first value with a family. *)
Fixpoint first_hint (value : list SVCBKeyValue) : Z * Addr :=
  match value with
  | [] => (AddrFamilyNone, AddrZero)
  | v :: value => let '(fam, ip) := ipFromHTTPSRRKV v in
                  if negb (fam =? AddrFamilyNone) then (fam, ip) else first_hint value
  end.

(** A nil slice is the zero address. *)
Definition converted (format : string) (ip : Addr) (fam : Z) : result error Addr :=
  if bool_decide (ip = AddrZero) then Ok AddrZero
  else match me_to_addr env ip fam with
       | Err err => Err (ErrWrap format err)
       | Ok ip => Ok ip
       end.

Definition ipFromHTTPSRR (value : list SVCBKeyValue) : result error Addr :=
  let '(fam, ip) := first_hint value in converted "converting https rr %s hint data: %w" ip fam.

Fixpoint ipFromAnswer (answer : list RR) : result error Addr :=
  match answer with
  | [] => Ok AddrZero
  | rr :: answer =>
      match rr_Data rr with
      | RD_A ip => converted "converting %s resp data: %w" ip AddrFamilyIPv4
      | RD_AAAA ip => converted "converting %s resp data: %w" ip AddrFamilyIPv6
      | RD_HTTPS _ _ value => ipFromHTTPSRR value
      | _ => ipFromAnswer answer
      end
  end.

(** The last result are the collected errors. *)
Definition responseData (resp : option Msg) : Z * Addr * bool * list error :=
  match resp with
  | None => (255, AddrZero, false, [])
  | Some resp =>
      let '(ip, errs) := match ipFromAnswer (m_Answer resp) with
                         | Ok ip => (ip, [])
                         | Err err => (AddrZero, [ErrWrap "getting response data: %w" err])
                         end in
      (m_Rcode resp mod 2 ^ 16, ip, m_AuthenticatedData resp, errs)
  end.

Definition country (host : string) (ip : Addr) : string * list error :=
  let '(l, err) := me_geo env host ip in
  (match l with Some l => Country l | None => CountryNone end,
   match err with Some err => [ErrWrap "getting geoip data: %w" err] | None => [] end).

Definition is_unspecified (ip : Addr) : bool :=
  match ip with
  | Addr4 n => n =? 0
  | Addr6 n zone => (n =? 0) && bool_decide (zone = EmptyString)
  | AddrZero => false
  end.

Definition responseCountry (fctx : filteringContext) (host : string) (respIP : Addr) (rcode : Z)
    : outcome (string * list error) :=
  if negb (rcode =? RcodeSuccess) || bool_decide (respIP = AddrZero) || is_unspecified respIP
  then Ret (CountryNotApplicable, [])
  else
    let! host :=
      match modifiedRequest fctx with
      | Some modReq => let! q := index (m_Question modReq) 0 in Ret (NormalizeDomain (q_Name q))
      | None => Ret host
      end in
    Ret (country host respIP).

Definition ErrCanceled : string := "context canceled".
Definition ErrDeadlineExceeded : string := "context deadline exceeded".

(** The entry is logged when the query log accepts it. *)
Definition writeQueryLogEntry (fctx : filteringContext) (ri : RequestInfo) (prof : Profile) (dev : Device)
    (reqCtry : string) (reqASN : Z) (blocked logIP : bool) : outcome Effects :=
  let! q := index (m_Question (originalRequest fctx)) 0 in
  let '(rcode, respIP, dnssec, errs1) := responseData (filteredResponse fctx) in
  let '(respIP, errs2) :=
    if blocked then let '(_, ip, _, errs) := responseData (originalResponse fctx) in (ip, errs)
    else (respIP, []) in
  let! c := responseCountry fctx (ri_Host ri) respIP rcode in
  let '(ctry, errs3) := c in
  let e := {|
    en_RemoteIP := if logIP then ri_RemoteIP ri else AddrZero;
    en_RequestResult := requestResult fctx; en_ResponseResult := responseResult fctx; en_Time := me_start env;
    en_ProfileID := p_ID prof; en_DeviceID := d_ID dev; en_ClientCountry := reqCtry; en_ResponseCountry := ctry;
    en_DomainFQDN := q_Name q; en_Elapsed := Sub (me_now env) (me_start env); en_ClientASN := reqASN;
    en_RequestType := ri_QType ri; en_ResponseCode := rcode; en_AccountID := AccountID prof;
    en_Protocol := rsi_Protocol (ri_ServerInfo ri); en_DNSSEC := dnssec; en_Stream := QueryLogStream prof;
  |} in
  let errs4 := match me_querylog env with
               | Some err => if Is err ErrCanceled || Is err ErrDeadlineExceeded then []
                             else [ErrWrap "writing query log: %w" err]
               | None => []
               end in
  Ret {| ef_Written := []; ef_Rules := []; ef_Bills := []; ef_Logs := [e];
         ef_Errors := errs1 ++ errs2 ++ errs3 ++ errs4 |}.

Definition recordQueryInfo (fctx : filteringContext) (ri : RequestInfo) : outcome Effects :=
  let '(id, text, blocked) := filteringData fctx in
  let rules := {| ef_Written := []; ef_Rules := [(id, text)]; ef_Bills := []; ef_Logs := []; ef_Errors := [] |} in
  match DeviceData ri with
  | None => Ret rules
  | Some (prof, dev) =>
      let '(reqCtry, reqASN) := match ri_Location ri with
                                | Some loc => (Country loc, ASN loc)
                                | None => (EmptyString, 0)
                                end in
      let bill := {| ef_Written := []; ef_Rules := [(id, text)];
                     ef_Bills := [{| bl_DeviceID := d_ID dev; bl_Country := reqCtry; bl_ASN := reqASN;
                                     bl_Start := me_start env; bl_Protocol := rsi_Protocol (ri_ServerInfo ri) |}];
                     ef_Logs := []; ef_Errors := [] |} in
      if negb (QueryLogEnabled prof) then Ret bill
      else
        let! logged := writeQueryLogEntry fctx ri prof dev reqCtry reqASN blocked (IPLogEnabled prof) in
        Ret (effects_app bill logged)
  end.

(** ** debug.go *)

Definition hdrDomain : string := "adguard-dns.com.".

(** [strings.Join(strs, ".")] *)
Definition debug_name (prefix suffix : string) : string :=
  if bool_decide (prefix = EmptyString) then suffix +:+ "." +:+ hdrDomain
  else prefix +:+ "." +:+ suffix +:+ "." +:+ hdrDomain.

Definition setQuestionName (req : Msg) (prefix suffix : string) : outcome Msg :=
  let! q := index (m_Question req) 0 in
  let! qs := set_index (m_Question req) 0
               {| q_Name := debug_name prefix suffix; q_Qtype := q_Qtype q; q_Qclass := q_Qclass q |} in
  Ret (set_Question req qs).

(** One debug record: the name is set in the debug request, and the text is
    appended to the response.  The state of the debug request is its question,
    which every step sets. *)
Definition append_debug (debugReq : Msg) (resp : Msg) (prefix suffix text format : string)
    : outcome (result error Msg) :=
  let! req := setQuestionName debugReq prefix suffix in
  let! r := AppendDebugExtra (mw_messages mw) req resp text in
  Ret match r with
      | Err err => Err (ErrWrap format err)
      | Ok resp => Ok resp
      end.

(** A sequence of steps that stops at the first error. *)
Fixpoint append_all (debugReq : Msg) (l : list (string * string * string * string)) (resp : Msg)
    : outcome (result error Msg) :=
  match l with
  | [] => Ret (Ok resp)
  | (prefix, suffix, text, format) :: l =>
      let! r := append_debug debugReq resp prefix suffix text format in
      match r with
      | Err err => Ret (Err err)
      | Ok resp => append_all debugReq l resp
      end
  end.

Definition fmt_extra : string := "adding %s extra: %w".

(** The records of [appendDebugExtraFromDevice]. *)
Definition device_records (dev : option Device) : list (string * string * string * string) :=
  match dev with
  | None => []
  | Some dev =>
      (EmptyString, "device-id", d_ID dev, fmt_extra)%string ::
      (if bool_decide (HumanIDLower dev = EmptyString) then []
       else [(EmptyString, "human-id", HumanIDLower dev, fmt_extra)%string])
  end.

(** The records of [appendDebugExtraFromLocation]. *)
Definition location_records (loc : GeoLocation) : list (string * string * string * string) :=
  [(EmptyString, "country", Country loc, fmt_extra)%string; (EmptyString, "asn", itoa (ASN loc), fmt_extra)%string] ++
  (if bool_decide (TopSubdivision loc = EmptyString) then []
   else [(EmptyString, "subdivision", TopSubdivision loc, fmt_extra)%string]).

(** The records of [appendDebugExtraFromContext]. *)
Definition context_records (ri : RequestInfo) : list (string * string * string * string) :=
  device_records (snd <$> DeviceData ri) ++
  match DeviceData ri with
  | Some (prof, _) => [(EmptyString, "profile-id", p_ID prof, fmt_extra)%string]
  | None => []
  end ++
  match ri_Location ri with Some loc => location_records loc | None => [] end.

(** The records of [debugResponse] and [addDebugExtraFromFiltering]. *)
Definition result_records (res : option Result) (applyTo : string) : list (string * string * string * string) :=
  match res with
  | None => [(applyTo, "res-type", "normal", fmt_extra)%string]
  | Some res =>
      let '(fltID, rule) := MatchedRule res in
      let state := match res with
                   | ResultAllowed _ _ => "allowed"
                   | ResultBlocked _ _ => "blocked"
                   | ResultModifiedResponse _ _ _ | ResultModifiedRequest _ _ _ => "modified"
                   end%string in
      [(applyTo, "res-type", state, "adding %s debug extra for %s response: %w")%string;
       (applyTo, "rule", rule, "adding %s debug extra: %w")%string;
       (applyTo, "rule-list-id", fltID, "adding %s debug extra: %w")%string]
  end.

Definition debug_records (fctx : filteringContext) (ri : RequestInfo) : list (string * string * string * string) :=
  [(EmptyString, "client-ip", IP_String (me_raddr env), fmt_extra)%string;
   (EmptyString, "server-ip", IP_String (me_laddr env), fmt_extra)%string;
   (EmptyString, "node-name", mw_nodeName mw, fmt_extra)%string] ++
  context_records ri ++
  match requestResult fctx with
  | None => result_records (responseResult fctx) "resp"
  | Some r => result_records (Some r) "req"
  end.

(** [rw.WriteMsg]. *)
Definition write (req : Msg) (resp : option Msg) : option error * Effects :=
  match me_write env with
  | Some err => (Some err, no_effects)
  | None => (None, {| ef_Written := [(req, resp)]; ef_Rules := []; ef_Bills := []; ef_Logs := []; ef_Errors := [] |})
  end.

Definition writeDebugResponse (fctx : filteringContext) (ri : RequestInfo) : outcome (option error * Effects) :=
  match filteredResponse fctx with
  | None => Panic "nil pointer dereference"
  | Some resp =>
      let! resp := set_qclass resp ClassCHAOS in
      let! debugReq := set_qclass (originalRequest fctx) ClassCHAOS in
      let! q := index (m_Question debugReq) 0 in
      let! qs := set_index (m_Question debugReq) 0
                   {| q_Name := q_Name q; q_Qtype := TypeTXT; q_Qclass := q_Qclass q |} in
      let! r := append_all (set_Question debugReq qs) (debug_records fctx ri) resp in
      match r with
      | Err err => Ret (Some (ErrWrap "debug: %w" err), no_effects)
      | Ok resp =>
          let '(err, ef) := write (originalRequest fctx) (Some resp) in
          Ret (ErrWrap "debug: %w" <$> err, ef)
      end
  end.

(** ** mainmw.go *)

Definition mw_filter (ri : RequestInfo) : outcome FilterObj :=
  match DeviceData ri with
  | None => me_storage env (ConfigOfGroup (fg_FilterConfig (ri_FilteringGroup ri)))
  | Some (p, d) =>
      if p_FilteringEnabled p && d_FilteringEnabled d then me_storage env (ConfigOfClient (p_FilterConfig p))
      else me_storage env ConfigNil
  end.

Definition with_host (ri : RequestInfo) (host : string) : RequestInfo := {|
  ri_DeviceResult := ri_DeviceResult ri; ri_Location := ri_Location ri; ri_ECS := ri_ECS ri;
  ri_FilteringGroup := ri_FilteringGroup ri; ri_Messages := ri_Messages ri; ri_ServerInfo := ri_ServerInfo ri;
  ri_RemoteIP := ri_RemoteIP ri; ri_Host := host; ri_QType := ri_QType ri; ri_QClass := ri_QClass ri;
|}.

Definition nextParams (fctx : filteringContext) (ri : RequestInfo) : outcome (RequestInfo * Msg) :=
  match modifiedRequest fctx with
  | None => Ret (ri, originalRequest fctx)
  | Some modReq =>
      let! q := index (m_Question modReq) 0 in
      Ret (with_host ri (NormalizeDomain (q_Name q)), modReq)
  end.

(** What the handler does once the next handler has responded. *)
Definition respond (fctx : filteringContext) (flt : FilterObj) (ri : RequestInfo)
    : outcome (option error * Effects) :=
  let! fe := filterResponse fctx flt ri in
  let '(fctx, errs1) := fe in
  let! fe := setFilteredResponse fctx ri in
  let '(fctx, errs2) := fe in
  if isDebug fctx then
    let! r := writeDebugResponse fctx ri in
    Ret (r.1, effects_app (collected (errs1 ++ errs2)) r.2)
  else
    match write (originalRequest fctx) (filteredResponse fctx) with
    | (Some err, ef) => Ret (Some err, effects_app (collected (errs1 ++ errs2)) ef)
    | (None, ef) =>
        let! recorded := recordQueryInfo fctx ri in
        Ret (None, effects_app (collected (errs1 ++ errs2)) (effects_app ef recorded))
    end.

(** What it does once the request has been filtered. *)
Definition resolve (fctx : filteringContext) (flt : FilterObj) (ri : RequestInfo)
    : outcome (option error * Effects) :=
  match me_ctx env with
  | Some err => Ret (Some (ErrWrap "after filtering: %s" err), no_effects)
  | None =>
      let! p := nextParams fctx ri in
      let! resp := me_next env p.1 p.2 in
      match resp with
      | Err err => Ret (Some err, no_effects)
      | Ok resp => respond (with_response fctx resp) flt ri
      end
  end.

Definition main_ServeDNS (ri : RequestInfo) (req : Msg) : outcome (option error * Effects) :=
  let annotated (r : outcome (option error * Effects)) :=
    let! r := r in Ret (ErrWrap "main mw: %w" <$> r.1, r.2) in
  annotated (
    let! fctx := newFilteringContext req in
    let! flt := mw_filter ri in
    let! fe := filterRequest fctx flt ri in
    let '(fctx, errs) := fe in
    let! r := resolve fctx flt ri in
    Ret (r.1, effects_app (collected errs) r.2)).

End mainmw.

(** * Facts *)

Section facts.
Context `{MiekgDNS} `{!MiekgDNSSpec} `{UnicodeCase}.
Context (mw : Middleware) (env : MwEnv).

(** ** Recording *)

(** What may be recorded about a request: nothing about an unknown device; the log
    only with the consent of the profile, and the address only with a further
    one. *)
Record recorded_ok (ri : RequestInfo) (name : string) (n : nat) (ef : Effects) : Prop := {
  rec_rules : length (ef_Rules ef) = n;
  rec_bills : length (ef_Bills ef) = if DeviceData ri then n else 0%nat;
  rec_logs : length (ef_Logs ef) =
    match DeviceData ri with Some (p, _) => if QueryLogEnabled p then n else 0%nat | None => 0%nat end;
  rec_bill b : b ∈ ef_Bills ef -> exists p d, DeviceData ri = Some (p, d) /\ bl_DeviceID b = d_ID d;
  rec_log e : e ∈ ef_Logs ef -> exists p d, DeviceData ri = Some (p, d) /\ QueryLogEnabled p = true /\
    en_ProfileID e = p_ID p /\ en_DeviceID e = d_ID d /\ en_AccountID e = AccountID p /\ en_DomainFQDN e = name /\
    en_RemoteIP e = if IPLogEnabled p then ri_RemoteIP ri else AddrZero;
}.

Lemma recordQueryInfo_ok fctx ri ef q qs : m_Question (originalRequest fctx) = q :: qs ->
  recordQueryInfo env fctx ri = Ret ef -> ef_Written ef = [] /\ recorded_ok ri (q_Name q) 1 ef.
Proof.
  intros Hq. unfold recordQueryInfo. destruct (filteringData fctx) as [[id text] blocked].
  destruct (DeviceData ri) as [[p d]|] eqn:Ed.
  - destruct (match ri_Location ri with Some _ => _ | None => _ end) as [ctry asn].
    destruct (QueryLogEnabled p) eqn:El; simpl.
    + unfold writeQueryLogEntry. rewrite Hq. simpl.
      destruct (responseData env (filteredResponse fctx)) as [[[rcode ip] dnssec] errs1].
      destruct (if blocked then _ else _) as [ip' errs2].
      destruct (responseCountry env fctx (ri_Host ri) ip' rcode) as [[c errs3]|]; simpl; [|done]. intros [= <-].
      split; [done|]. split; simpl; rewrite ?Ed, ?El; try done.
      * intros b ->%list_elem_of_singleton. by exists p, d.
      * intros e ->%list_elem_of_singleton. exists p, d. by split_and!.
    + intros [= <-]. split; [done|]. split; simpl; rewrite ?Ed, ?El; try done.
      * intros b ->%list_elem_of_singleton. by exists p, d.
      * by intros e []%elem_of_nil.
  - intros [= <-]. split; [done|]. split; simpl; rewrite ?Ed; try done.
    + by intros e []%elem_of_nil.
    + by intros e []%elem_of_nil.
Qed.

(** No records at all. *)
Definition unrecorded (ef : Effects) : Prop := ef_Rules ef = [] /\ ef_Bills ef = [] /\ ef_Logs ef = [].

Lemma unrecorded_ok ri name ef : unrecorded ef -> recorded_ok ri name 0 ef.
Proof.
  intros (Hr & Hb & Hl). split; rewrite ?Hr, ?Hb, ?Hl; try done.
  - by destruct (DeviceData ri).
  - destruct (DeviceData ri) as [[p d]|]; [by destruct (QueryLogEnabled p)|done].
  - by intros b []%elem_of_nil.
  - by intros b []%elem_of_nil.
Qed.

(** The records and messages of the effects [ef] of answering a request. *)
Definition answer_effects (ri : RequestInfo) (name : string) (debug : bool) (ef : Effects) : Prop :=
  (length (ef_Written ef) <= 1)%nat /\
  recorded_ok ri name (if debug then 0%nat else length (ef_Written ef)) ef.

Lemma answer_effects_collected ri name debug errs ef : answer_effects ri name debug ef ->
  answer_effects ri name debug (effects_app (collected errs) ef).
Proof. intros [Hw [R1 R2 R3 R4 R5]]. split; [done|]. by split. Qed.

Lemma answer_effects_none ri name debug : answer_effects ri name debug no_effects.
Proof. split; [simpl; lia|]. destruct debug; by apply unrecorded_ok. Qed.

Lemma setFilteredResponse_keeps fctx ri fctx' errs : setFilteredResponse fctx ri = Ret (fctx', errs) ->
  originalRequest fctx' = originalRequest fctx /\ isDebug fctx' = isDebug fctx /\
  requestResult fctx' = requestResult fctx /\ responseResult fctx' = responseResult fctx.
Proof.
  unfold setFilteredResponse, setFilteredResponseNoReq, setFilteredResponseFromBlockingMode.
  intros E. repeat (case_match; simpl in E; try done);
    repeat match type of E with outcome_bind ?x _ = _ => destruct x; simpl in E; [|done] end;
    repeat (case_match; simpl in E); by simplify_eq.
Qed.

Lemma filterResponse_keeps fctx f ri fctx' errs : filterResponse fctx f ri = Ret (fctx', errs) ->
  originalRequest fctx' = originalRequest fctx /\ isDebug fctx' = isDebug fctx.
Proof.
  unfold filterResponse. intros E. repeat (case_match; simpl in E; try done);
    repeat match type of E with outcome_bind ?x _ = _ => destruct x; simpl in E; [|done] end;
    repeat (case_match; simpl in E); by simplify_eq.
Qed.

Lemma respond_effects fctx flt ri err ef q qs : m_Question (originalRequest fctx) = q :: qs ->
  respond mw env fctx flt ri = Ret (err, ef) -> answer_effects ri (q_Name q) (isDebug fctx) ef.
Proof.
  intros Hq. unfold respond. destruct (filterResponse fctx flt ri) as [[f1 errs1]|] eqn:E1; simpl; [|done].
  destruct (setFilteredResponse f1 ri) as [[f2 errs2]|] eqn:E2; simpl; [|done].
  apply filterResponse_keeps in E1 as [Ho1 Hd1]. apply setFilteredResponse_keeps in E2 as (Ho2 & Hd2 & _).
  rewrite <- Ho1, <- Ho2 in Hq. rewrite <- Hd1, <- Hd2. destruct (isDebug f2).
  - destruct (writeDebugResponse mw env f2 ri) as [r|] eqn:Ew; simpl; [|done]. intros [= <- <-].
    apply answer_effects_collected. unfold writeDebugResponse in Ew.
    repeat (case_match; simpl in Ew; try done);
      repeat match type of Ew with outcome_bind ?x _ = _ => destruct x; simpl in Ew; [|done] end;
      repeat (case_match; simpl in Ew); simplify_eq; simpl; unfold write in *; repeat case_match; simplify_eq;
      first [apply answer_effects_none|split; [simpl; lia|by apply unrecorded_ok]].
  - unfold write. destruct (me_write env) as [e|].
    + intros [= <- <-]. apply answer_effects_collected, answer_effects_none.
    + destruct (recordQueryInfo env f2 ri) as [rec|] eqn:Er; simpl; [|done]. intros [= <- <-].
      apply answer_effects_collected. apply (recordQueryInfo_ok _ _ _ _ _ Hq) in Er as [Hw Hr].
      split; simpl; rewrite Hw; [done|]. destruct Hr as [R1 R2 R3 R4 R5]. by split.
Qed.

Lemma set_qclass_name m cl m' q qs : m_Question m = q :: qs -> set_qclass m cl = Ret m' ->
  exists q', m_Question m' = q' :: qs /\ q_Name q' = q_Name q.
Proof. intros Hq. unfold set_qclass. rewrite Hq. simpl. intros [= <-]. by eexists. Qed.

Lemma resolve_effects fctx flt ri err ef q qs : m_Question (originalRequest fctx) = q :: qs ->
  resolve mw env fctx flt ri = Ret (err, ef) -> answer_effects ri (q_Name q) (isDebug fctx) ef.
Proof.
  intros Hq. unfold resolve. destruct (me_ctx env); [intros [= <- <-]; apply answer_effects_none|].
  destruct (nextParams fctx ri) as [p|]; simpl; [|done].
  destruct (me_next env p.1 p.2) as [[resp|e]|]; simpl; [|intros [= <- <-]; apply answer_effects_none|done].
  by apply (respond_effects (with_response fctx resp) _ _ _ _ _ qs).
Qed.

(** C9. What is recorded about a request, and with whose consent.  Whatever the
    filters, the next handler and the writer do, at most one message is written.
    Exactly if it is not a debug request and the message has been written, one
    matched rule is counted; then one bill is recorded for the device if it is
    known, and one entry is logged if its profile has the query log enabled; the
    entry has the IDs of this profile and this device and the name that was asked
    for, and it has the client's address only if the profile allows that. *)
Theorem recorded_with_consent ri req err ef q qs :
  m_Question req = q :: qs -> main_ServeDNS mw env ri req = Ret (err, ef) ->
  answer_effects ri (q_Name q) (q_Qclass q =? ClassCHAOS) ef.
Proof.
  intros Hq. unfold main_ServeDNS, newFilteringContext. rewrite Hq. simpl.
  destruct (if q_Qclass q =? ClassCHAOS then _ else _) as [req'|] eqn:Ec; simpl; [|done].
  assert (exists q', m_Question req' = q' :: qs /\ q_Name q' = q_Name q) as Hq'.
  { destruct (q_Qclass q =? ClassCHAOS); [by eapply set_qclass_name|]. injection Ec as <-. by exists q. }
  destruct (mw_filter env ri) as [f|]; simpl; [|done]. unfold filterRequest. simpl.
  destruct (fo_Request f _) as [r0|]; simpl; [|done].
  destruct (match r0 with Ok _ => _ | Err _ => _ end) as [reqRes errs]. simpl.
  destruct (resolve mw env _ f ri) as [[e ef']|] eqn:Er; simpl; [|done]. intros [= <- <-].
  apply answer_effects_collected. destruct Hq' as (q' & Hq' & <-). by eapply resolve_effects in Er; [|exact Hq'].
Qed.

(** ** The answer *)

(** The result of a filter; if it fails, the error is collected and there is none. *)
Definition passed (r : result error (option Result)) : option Result :=
  match r with Ok r => r | Err _ => None end.

(** What the next handler is asked: the request, or the one by which a filter has
    replaced it. *)
Definition asks_next (ri : RequestInfo) (req : Msg) (reqRes : option Result) (ri' : RequestInfo) (req' : Msg) : Prop :=
  match reqRes with
  | Some (ResultModifiedRequest msg _ _) =>
      exists mq mqs, m_Question msg = mq :: mqs /\ ri' = with_host ri (NormalizeDomain (q_Name mq)) /\ req' = msg
  | _ => ri' = ri /\ req' = req
  end.

(** A request that is resolved: the filters return, the next handler responds with
    a message, and nothing interrupts the handler. *)
Record resolved (ri : RequestInfo) (req : Msg) (q : Question) (flt : FilterObj) (reqRes : option Result) (up : Msg)
    (respRes : option Result) : Prop := {
  rv_question : exists qs, m_Question req = q :: qs;
  rv_not_debug : q_Qclass q <> ClassCHAOS;
  rv_filter : mw_filter env ri = Ret flt;
  rv_request : exists r, fo_Request flt (reqInfoToFltReq req ri) = Ret r /\ passed r = reqRes;
  rv_ctx : me_ctx env = None;
  rv_write : me_write env = None;
  rv_next : exists ri' req', asks_next ri req reqRes ri' req' /\ me_next env ri' req' = Ret (Ok (Some up));
  rv_up : m_Question up <> [];
  rv_response : exists r, fo_Response flt (Some up) (ri_RemoteIP ri) (client_name ri) = Ret r /\ passed r = respRes;
  rv_resp_final : forall r, respRes = Some r -> modified r = false;
}.

(** All blocking modes in play are valid. *)
Definition modes_ok (ri : RequestInfo) : Prop :=
  valid_mode (blockingMode (ri_Messages ri)) /\
  forall p d, DeviceData ri = Some (p, d) -> valid_mode (p_BlockingMode p) /\
    (forall m, AdultBlockingMode p = Some m -> valid_mode m) /\
    (forall m, SafeBrowsingBlockingMode p = Some m -> valid_mode m).

(** A blocked response in the given mode, or else in that of the constructor. *)
Definition blocked_with (ri : RequestInfo) (req : Msg) (q : Question) (mode : option BlockingMode) (a : Msg) : Prop :=
  blocked_shape (ri_Messages ri) req q (default (blockingMode (ri_Messages ri)) mode) a.

(** The response [up] for the name that [msg] asks about, given back under the name
    that was asked. *)
Definition rewritten (req : Msg) (q : Question) (msg up a : Msg) : Prop :=
  m_Id a = m_Id req /\ head (m_Question a) = Some q /\ m_Rcode a = m_Rcode up /\
  exists mq hdr, head (m_Question msg) = Some mq /\ rh_Name hdr = q_Name q /\
    m_Answer a = {| rr_Hdr := hdr; rr_Data := RD_CNAME (Fqdn (q_Name mq)) |} :: m_Answer up.

Definition answer_ok (ri : RequestInfo) (req : Msg) (q : Question) (reqRes : option Result) (up : Msg)
    (respRes : option Result) (a : Msg) : Prop :=
  match reqRes with
  | Some (ResultAllowed _ _) => a = up
  | Some (ResultBlocked l t) => blocked_with ri req q (resultBlockingMode ri (ResultBlocked l t)) a
  | Some (ResultModifiedResponse msg l t) =>
      match filterBlockingMode ri (ResultModifiedResponse msg l t) with
      | Some mode => blocked_with ri req q (Some mode) a
      | None => a = msg
      end
  | Some (ResultModifiedRequest msg l t) =>
      match filterBlockingMode ri (ResultModifiedRequest msg l t) with
      | Some mode => blocked_with ri req q (Some mode) a
      | None => rewritten req q msg up a
      end
  | None =>
      match respRes with
      | Some (ResultBlocked l t) => blocked_with ri req q (resultBlockingMode ri (ResultBlocked l t)) a
      | _ => a = up
      end
  end.

Lemma result_mode_valid ri r : modes_ok ri -> valid_mode (default (blockingMode (ri_Messages ri)) (resultBlockingMode ri r)).
Proof.
  intros [Hc Hp]. unfold resultBlockingMode. destruct (DeviceData ri) as [[p d]|] eqn:E; simpl; [|done].
  destruct (Hp p d eq_refl) as (Hm & Ha & Hs). unfold mode_or. repeat case_if; [| |done].
  - destruct (AdultBlockingMode p); [by apply Ha|done].
  - destruct (SafeBrowsingBlockingMode p); [by apply Hs|done].
Qed.

Lemma filter_mode_valid ri r m : modes_ok ri -> filterBlockingMode ri r = Some m -> valid_mode m.
Proof.
  intros [Hc Hp]. unfold filterBlockingMode. destruct (DeviceData ri) as [[p d]|] eqn:E; simpl; [|done].
  destruct (Hp p d eq_refl) as (Hm & Ha & Hs). repeat case_if; [apply Ha|apply Hs|done].
Qed.

(** The blocked response for a request is always made. *)
Lemma blocked_made ri fctx q qs mode : m_Question (originalRequest fctx) = q :: qs ->
  valid_mode (default (blockingMode (ri_Messages ri)) mode) ->
  exists a, NewBlockedResp (ri_Messages ri) (originalRequest fctx) mode = Ret (Ok a) /\
    blocked_with ri (originalRequest fctx) q mode a.
Proof. intros Hq Hm. by apply (NewBlockedResp_ok _ _ _ _ qs). Qed.

Lemma recordQueryInfo_total fctx ri q qs : m_Question (originalRequest fctx) = q :: qs ->
  (forall m, modifiedRequest fctx = Some m -> m_Question m <> []) -> exists ef, recordQueryInfo env fctx ri = Ret ef.
Proof.
  intros Hq Hm. unfold recordQueryInfo. destruct (filteringData fctx) as [[id text] blocked].
  destruct (DeviceData ri) as [[p d]|]; [|by eexists].
  destruct (match ri_Location ri with Some _ => _ | None => _ end) as [ctry asn]. case_if; [by eexists|].
  unfold writeQueryLogEntry. rewrite Hq. simpl.
  destruct (responseData env (filteredResponse fctx)) as [[[rcode ip] dnssec] errs1].
  destruct (if blocked then _ else _) as [ip' errs2]. unfold responseCountry. case_if; [by eexists|].
  destruct (modifiedRequest fctx) as [m|]; simpl; [|destruct (country _ _ _); by eexists].
  specialize (Hm m eq_refl). destruct (m_Question m); [done|]. simpl. destruct (country _ _ _). by eexists.
Qed.

(** The two filtering steps of a response. *)
Lemma filtered_answer fctx flt ri q qs up r respRes :
  m_Question (originalRequest fctx) = q :: qs -> originalResponse fctx = Some up -> m_Question up <> [] ->
  modes_ok ri -> responseResult fctx = None ->
  modifiedRequest fctx = match requestResult fctx with Some (ResultModifiedRequest m _ _) => Some m | _ => None end ->
  (forall m, modifiedRequest fctx = Some m -> m_Question m <> []) ->
  fo_Response flt (Some up) (ri_RemoteIP ri) (client_name ri) = Ret r -> passed r = respRes ->
  (forall r, respRes = Some r -> modified r = false) ->
  exists f1 f2 a errs, filterResponse fctx flt ri = Ret (f1, errs) /\ setFilteredResponse f1 ri = Ret (f2, []) /\
    filteredResponse f2 = Some a /\ modifiedRequest f2 = modifiedRequest fctx /\
    answer_ok ri (originalRequest fctx) q (requestResult fctx) up respRes a.
Proof.
  intros Hq Ho Hup Hmodes Hr0 Hmod Hmq Hresp Hpass Hfin. unfold filterResponse. rewrite Hmod.
  assert (forall f1 mode, originalRequest f1 = originalRequest fctx ->
    valid_mode (default (blockingMode (ri_Messages ri)) mode) ->
    exists f2 a, setFilteredResponseFromBlockingMode f1 ri mode = Ret (f2, []) /\ filteredResponse f2 = Some a /\
      modifiedRequest f2 = modifiedRequest f1 /\ blocked_with ri (originalRequest fctx) q mode a) as Hblock.
  { intros f1 mode E Hm. destruct (blocked_made ri fctx q qs mode Hq Hm) as (a & Ea & Ha).
    unfold setFilteredResponseFromBlockingMode. rewrite E, Ea. simpl. by eexists _, a. }
  assert (forall f1, originalRequest f1 = originalRequest fctx -> requestResult f1 = requestResult fctx ->
    modifiedRequest f1 = modifiedRequest fctx ->
    (forall l t m, requestResult fctx = Some (ResultModifiedRequest m l t) -> exists a, originalResponse f1 = Some a /\
      rewritten (originalRequest fctx) q m up a) ->
    ((forall l t m, requestResult fctx <> Some (ResultModifiedRequest m l t)) ->
      originalResponse f1 = Some up /\ responseResult f1 = respRes) ->
    exists f2 a, setFilteredResponse f1 ri = Ret (f2, []) /\ filteredResponse f2 = Some a /\
      modifiedRequest f2 = modifiedRequest fctx /\
      answer_ok ri (originalRequest fctx) q (requestResult fctx) up respRes a) as Hset.
  { intros f1 Ho1 Hr1 Hm1 Hrw Hno. unfold setFilteredResponse, answer_ok. rewrite Hr1.
    destruct (requestResult fctx) as [[l t|l t|m l t|m l t]|].
    - destruct Hno as [Hup1 _]; [done|]. by eexists _, up.
    - edestruct Hblock as (f2 & a & -> & ? & Hm2 & ?); [exact Ho1|by apply result_mode_valid|].
      exists f2, a. by rewrite Hm2.
    - destruct (filterBlockingMode ri _) as [mode|] eqn:Em.
      + edestruct (Hblock f1 (Some mode)) as (f2 & a & -> & ? & Hm2 & ?); [exact Ho1|by eapply filter_mode_valid|].
        exists f2, a. by rewrite Hm2.
      + by eexists _, m.
    - destruct (filterBlockingMode ri _) as [mode|] eqn:Em.
      + edestruct (Hblock f1 (Some mode)) as (f2 & a & -> & ? & Hm2 & ?); [exact Ho1|by eapply filter_mode_valid|].
        exists f2, a. by rewrite Hm2.
      + destruct (Hrw l t m eq_refl) as (a & Ea & ?). by eexists _, a.
    - destruct Hno as [Hup1 Hres]; [done|]. unfold setFilteredResponseNoReq. rewrite Hres.
      destruct respRes as [[l t|l t|m l t|m l t]|]; try (by specialize (Hfin _ eq_refl)); try (by eexists _, up).
      rewrite Ho1. edestruct (blocked_made ri fctx q qs (resultBlockingMode ri (ResultBlocked l t)) Hq) as (a & -> & Ha);
        [by apply result_mode_valid|]. simpl. by eexists _, a. }
  destruct (match requestResult fctx with Some (ResultModifiedRequest m _ _) => Some m | _ => None end) as [m|] eqn:Em.
  - rewrite Hmod in Hmq. specialize (Hmq m eq_refl).
    destruct (m_Question m) as [|mq mqs] eqn:Emq; [done|]. destruct (m_Question up) as [|uq uqs] eqn:Euq; [done|].
    rewrite Ho, Hq. simpl. rewrite Euq. simpl. unfold NewAnswerCNAME, with_hdr, newHdr. rewrite Hq. simpl.
    match goal with |- context [with_response fctx (Some ?x)] => set (a := x) end.
    destruct (Hset (with_response fctx (Some a))) as (f2 & a' & E2 & Ha' & Hm2 & Hans); try done.
    + intros l t m' E. rewrite E in Em. injection Em as ->. exists a. split; [done|].
      split_and!; try done. eexists mq, _. rewrite Emq. split; [done|]. split; [|reflexivity]. done.
    + intros Hno. destruct (requestResult fctx) as [[l t|l t|x l t|x l t]|]; simplify_eq. by destruct (Hno l t m).
    + eexists _, f2, a', _. split; [done|]. split_and!; try done. rewrite Hm2. done.
  - rewrite Ho, Hresp. simpl. destruct (Hset (with_respResult fctx respRes)) as (f2 & a & E2 & Ha & Hm2 & Hans); try done.
    + intros l t m' E. by rewrite E in Em.
    + assert (exists errs, match r with Ok x => (with_respResult fctx x, []) | Err err => (with_respResult fctx None,
        [ErrWrap "filtering response: %w" err]) end = (with_respResult fctx respRes, errs)) as [errs ->]
        by (subst respRes; destruct r; by eexists).
      eexists _, f2, a, errs. split; [done|]. split_and!; try done. by rewrite Hm2.
Qed.

(** The request after it has been filtered. *)
Lemma request_filtered ri req q qs flt r : m_Question req = q :: qs -> q_Qclass q <> ClassCHAOS ->
  mw_filter env ri = Ret flt -> fo_Request flt (reqInfoToFltReq req ri) = Ret r ->
  exists errs,
    let fctx := {| originalRequest := req;
                   modifiedRequest := match passed r with Some (ResultModifiedRequest m _ _) => Some m | _ => None end;
                   originalResponse := None; filteredResponse := None; requestResult := passed r;
                   responseResult := None; isDebug := false |} in
    main_ServeDNS mw env ri req =
      let! x := resolve mw env fctx flt ri in
      Ret (ErrWrap "main mw: %w" <$> x.1, effects_app (collected errs) x.2).
Proof.
  intros Hq Hnd Hflt Hreq. unfold main_ServeDNS, newFilteringContext. rewrite Hq. simpl.
  destruct (Z.eqb_spec (q_Qclass q) ClassCHAOS) as [|_]; [done|]. simpl. rewrite Hflt. simpl.
  unfold filterRequest. cbn [originalRequest]. rewrite Hreq. simpl.
  destruct r as [r|err]; simpl; eexists; (destruct (resolve mw env _ flt ri) as [x|] eqn:E; [reflexivity|]); reflexivity.
Qed.

Lemma main_answer_aux ri req q flt reqRes up respRes :
  resolved ri req q flt reqRes up respRes -> modes_ok ri ->
  exists a ef, main_ServeDNS mw env ri req = Ret (None, ef) /\ ef_Written ef = [(req, Some a)] /\
    answer_ok ri req q reqRes up respRes a.
Proof.
  intros [(qs & Hq) Hnd Hflt (r & Hreq & Hr) Hctx Hwr (ri' & req' & Has & Hnext) Hup (rr & Hresp & Hrr) Hfin] Hmodes.
  destruct (request_filtered ri req q qs flt r Hq Hnd Hflt Hreq) as [errs E]. simpl in E. rewrite E. clear E. rewrite Hr.
  set (fctx := {| originalRequest := req; modifiedRequest := _; originalResponse := _; filteredResponse := _;
                  requestResult := _; responseResult := _; isDebug := _ |}).
  assert (forall m, modifiedRequest fctx = Some m -> m_Question m <> []) as Hmq.
  { subst fctx. simpl. intros m Em. destruct reqRes as [[| | |x]|]; simplify_eq.
    destruct Has as (mq & mqs & -> & _). done. }
  unfold resolve. rewrite Hctx.
  assert (nextParams fctx ri = Ret (ri', req')) as ->.
  { unfold nextParams. subst fctx. simpl. destruct reqRes as [[| | |x]|]; try (by destruct Has as [-> ->]).
    by destruct Has as (mq & mqs & -> & -> & ->). }
  simpl. rewrite Hnext. simpl. unfold respond.
  destruct (filtered_answer (with_response fctx (Some up)) flt ri q qs up rr respRes)
    as (f1 & f2 & a & errs' & E1 & E2 & Ha & Hm2 & Hans); try done.
  rewrite E1. simpl. rewrite E2. simpl.
  apply filterResponse_keeps in E1 as [Ho1 Hd1]. apply setFilteredResponse_keeps in E2 as (Ho2 & Hd2 & _).
  assert (originalRequest f2 = req) as Hreq2 by (by rewrite Ho2, Ho1).
  assert (isDebug f2 = false) as -> by (by rewrite Hd2, Hd1).
  unfold write. rewrite Hwr. destruct (recordQueryInfo_total f2 ri q qs) as [rec Er].
  { by rewrite Hreq2. }
  { rewrite Hm2. exact Hmq. }
  rewrite Er. simpl. exists a. eexists. split; [done|]. split; [|done]. simpl.
  apply (recordQueryInfo_ok _ _ _ q qs) in Er as [-> _]; [|by rewrite Hreq2]. by rewrite Hreq2, Ha.
Qed.

(** A response that the handler could not write, or that there is not. *)
Lemma main_fails ri req q qs flt r ri' req' nr :
  m_Question req = q :: qs -> q_Qclass q <> ClassCHAOS -> mw_filter env ri = Ret flt ->
  fo_Request flt (reqInfoToFltReq req ri) = Ret r -> modes_ok ri ->
  asks_next ri req (passed r) ri' req' -> me_next env ri' req' = Ret nr ->
  (forall up, nr = Ok (Some up) -> m_Question up <> [] /\
     exists x, fo_Response flt (Some up) (ri_RemoteIP ri) (client_name ri) = Ret x /\
       forall y, passed x = Some y -> modified y = false) ->
  nr <> Ok None -> is_Some (me_ctx env) \/ is_Some (me_write env) \/ (exists err, nr = Err err) ->
  exists err ef, main_ServeDNS mw env ri req = Ret (Some err, ef) /\ ef_Written ef = [].
Proof.
  intros Hq Hnd Hflt Hreq Hmodes Has Hnext Hup Hnil Hfail.
  destruct (request_filtered ri req q qs flt r Hq Hnd Hflt Hreq) as [errs E]. simpl in E. rewrite E. clear E.
  set (fctx := {| originalRequest := req; modifiedRequest := _; originalResponse := _; filteredResponse := _;
                  requestResult := _; responseResult := _; isDebug := _ |}).
  unfold resolve. destruct (me_ctx env) as [err|]; [by eexists _, _|].
  assert (nextParams fctx ri = Ret (ri', req')) as ->.
  { unfold nextParams. subst fctx. simpl. destruct (passed r) as [[| | |x]|]; try (by destruct Has as [-> ->]).
    by destruct Has as (mq & mqs & -> & -> & ->). }
  simpl. rewrite Hnext. simpl. destruct nr as [[up|]|err]; [|done|by eexists _, _].
  destruct (Hup up eq_refl) as (Hupq & x & Hresp & Hfin).
  destruct Hfail as [[? [=]]|[[werr Hwr]|(? & [=])]].
  assert (forall m, modifiedRequest fctx = Some m -> m_Question m <> []) as Hmq.
  { subst fctx. simpl. intros m Em. destruct (passed r) as [[| | |y]|]; simplify_eq.
    destruct Has as (mq & mqs & -> & _). done. }
  unfold respond. destruct (filtered_answer (with_response fctx (Some up)) flt ri q qs up x (passed x))
    as (f1 & f2 & a & errs' & E1 & E2 & Ha & Hm2 & Hans); try done.
  rewrite E1. simpl. rewrite E2. simpl.
  apply filterResponse_keeps in E1 as [Ho1 Hd1]. apply setFilteredResponse_keeps in E2 as (Ho2 & Hd2 & _).
  assert (isDebug f2 = false) as -> by (by rewrite Hd2, Hd1). unfold write. rewrite Hwr. by eexists _, _.
Qed.

(** C5. What the client is answered.  Take any request but a debug request (one of the
    CHAOS class), where the blocking modes are valid and neither the filters nor the next
    handler panic; a filter that fails is like one without a result.  The next handler is
    asked for the request, or for the one by which a filter has replaced it.  If it
    responds with a message that has a question, and the filter of the response only
    blocks or allows (another result makes the code panic), then the handler succeeds and
    writes exactly one message, unless the context or the writer fails: a blocked response
    in the mode of the profile that fits the filter, if the request or else the response
    is blocked; the filter's own response, if the request is answered by a filter that
    has no mode of its own; the answer for the other name behind a CNAME record, if the
    request is rewritten; and the unchanged response of the next handler otherwise.  In
    particular, the response to a blocked request never reaches the client.  If the next
    handler, the context or the writer fails, nothing is written and an error is
    returned. *)
Theorem main_answer ri req q qs flt r ri' req' nr :
  m_Question req = q :: qs -> q_Qclass q <> ClassCHAOS -> mw_filter env ri = Ret flt ->
  fo_Request flt (reqInfoToFltReq req ri) = Ret r -> modes_ok ri ->
  asks_next ri req (passed r) ri' req' -> me_next env ri' req' = Ret nr ->
  (forall up, nr = Ok (Some up) -> m_Question up <> [] /\
     exists x, fo_Response flt (Some up) (ri_RemoteIP ri) (client_name ri) = Ret x /\
       forall y, passed x = Some y -> modified y = false) ->
  nr <> Ok None ->
  exists err ef, main_ServeDNS mw env ri req = Ret (err, ef) /\
    match me_ctx env, me_write env, nr with
    | None, None, Ok (Some up) => err = None /\
        exists x a, fo_Response flt (Some up) (ri_RemoteIP ri) (client_name ri) = Ret x /\
          ef_Written ef = [(req, Some a)] /\ answer_ok ri req q (passed r) up (passed x) a
    | _, _, _ => err <> None /\ ef_Written ef = []
    end.
Proof.
  intros Hq Hnd Hflt Hreq Hmodes Has Hnext Hup Hnil.
  pose proof (main_fails ri req q qs flt r ri' req' nr Hq Hnd Hflt Hreq Hmodes Has Hnext Hup Hnil) as Hfail.
  assert (is_Some (me_ctx env) \/ is_Some (me_write env) \/ (exists err, nr = Err err) ->
    exists err ef, main_ServeDNS mw env ri req = Ret (err, ef) /\ err <> None /\ ef_Written ef = []) as Hf.
  { intros Hx. destruct (Hfail Hx) as (err & ef & ? & ?). by eexists _, _. }
  destruct (me_ctx env) eqn:Ec; [apply Hf; eauto|]. destruct (me_write env) eqn:Ew; [apply Hf; eauto|].
  destruct nr as [[up|]|err]; [|done|apply Hf; eauto].
  destruct (Hup up eq_refl) as (Hupq & x & Hresp & Hfin).
  destruct (main_answer_aux ri req q flt (passed r) up (passed x)) as (a & ef & E & Hw & Ha); [|done|].
  - split; eauto.
  - exists None, ef. split; [done|]. split; [done|]. by exists x, a.
Qed.

End facts.

(** ** Concrete inputs *)

#[local] Existing Instance ref_miekg.
#[local] Existing Instance ref_miekg_spec.
#[local] Existing Instance ref_unicode.

(** A filter that blocks every request. *)
Definition block_all : FilterObj := {|
  fo_Request _ := Ret (Ok (Some (ResultBlocked "list" "||example.org^")));
  fo_Response _ _ _ := Ret (Ok None);
|}.

(** A next handler that answers with an empty response. *)
Definition some_env : MwEnv := {|
  me_storage _ := Ret block_all; me_next _ req := Ret (Ok (Some (NewResp req))); me_geo _ _ := (None, None);
  me_to_addr ip _ := Ok ip; me_start := 5; me_now := 7; me_ctx := None; me_write := None; me_querylog := None;
  me_raddr := Addr4 1; me_laddr := Addr4 2;
|}.

Definition some_mw : Middleware := {| mw_messages := some_constructor; mw_nodeName := "node" |}.

Definition some_group : FilteringGroup := {|
  fg_FilterConfig := {| cfg_Parental := cfc_Parental unfiltered_config; cfg_RuleList := cfc_RuleList unfiltered_config;
                        cfg_SafeBrowsing := cfc_SafeBrowsing unfiltered_config |};
  fg_ID := "default"; fg_BlockChromePrefetch := false; fg_BlockFirefoxCanary := false; fg_BlockPrivateRelay := false;
|}.

(** A request of a device whose profile has the query log without addresses. *)
Definition some_ri : RequestInfo := {|
  ri_DeviceResult := Some (DeviceResultOK
    {| Auth := {| PasswordHash := AllowAuthenticator; auth_Enabled := false; DoHAuthOnly := false |};
       d_ID := "dev1"; LinkedIP := AddrZero; d_Name := "phone"; HumanIDLower := EmptyString; DedicatedIPs := [];
       d_FilteringEnabled := true |}
    {| CustomDomains := {| cd_Domains := []; cd_Enabled := false |}; DeviceIDs := {["dev1"%string]};
       p_FilterConfig := unfiltered_config; p_Access := None; AdultBlockingMode := None;
       p_BlockingMode := BlockingModeREFUSED; SafeBrowsingBlockingMode := None; p_Ratelimiter := GlobalRatelimiter;
       p_ID := "prof1"; FilteredResponseTTL := 10; AccountID := 1; AutoDevicesEnabled := false;
       BlockChromePrefetch := false; BlockFirefoxCanary := false; BlockPrivateRelay := false; Deleted := false;
       p_FilteringEnabled := true; IPLogEnabled := false; QueryLogEnabled := true; QueryLogStream := false |});
  ri_Location := None; ri_ECS := None; ri_FilteringGroup := some_group; ri_Messages := some_constructor;
  ri_ServerInfo := {| rsi_GroupName := "group"; rsi_Name := "srv"; rsi_DeviceDomains := []; rsi_Protocol := ProtoDNS;
                      rsi_ProfilesEnabled := true |};
  ri_RemoteIP := Addr4 1; ri_Host := "www.example.org"; ri_QType := TypeA; ri_QClass := ClassINET;
|}.

Lemma main_answer_witness :
  exists a ef, main_ServeDNS some_mw some_env some_ri some_request = Ret (None, ef) /\
    ef_Written ef = [(some_request, Some a)] /\ m_Rcode a = RcodeRefused.
Proof.
  destruct (main_answer some_mw some_env some_ri some_request some_question [] block_all
    (Ok (Some (ResultBlocked "list" "||example.org^"))) some_ri some_request (Ok (Some (NewResp some_request))))
    as (err & ef & E & -> & x & a & _ & Hw & Ha).
  - reflexivity.
  - discriminate.
  - reflexivity.
  - reflexivity.
  - split; [done|]. intros p d [= <- <-]. by split_and!.
  - by split.
  - reflexivity.
  - intros up [= <-]. split; [discriminate|]. exists (Ok None). by split.
  - discriminate.
  - exists a, ef. split; [exact E|]. split; [exact Hw|]. destruct Ha as (_ & _ & _ & -> & _). reflexivity.
Defined.

Lemma recorded_with_consent_witness :
  exists ef e, main_ServeDNS some_mw some_env some_ri some_request = Ret (None, ef) /\
    ef_Logs ef = [e] /\ en_RemoteIP e = AddrZero.
Proof.
  destruct (main_ServeDNS some_mw some_env some_ri some_request) as [[err ef]|] eqn:E; [|by vm_compute in E].
  destruct (recorded_with_consent some_mw some_env some_ri some_request err ef some_question [] eq_refl E) as [_ Hr].
  pose proof E as E'. vm_compute in E'. injection E' as <- <-. eexists _, _. split; [reflexivity|]. split; [reflexivity|].
  edestruct (rec_log _ _ _ _ Hr) as (p & d & [= <- <-] & _ & _ & _ & _ & _ & Hip); [by left|]. exact Hip.
Defined.
