(* ===== verification/RatelimitMW.v ===== *)
(** The middleware that lets requests in: internal/dnssvc/internal/ratelimitmw
    (ratelimitmw.go, access.go, limit.go, requestinfo.go), and the rate limiters
    of profiles (internal/agd/ratelimit.go).

    It makes the information about a request, which all later handlers use, and
    decides whether the next handler is called: not for spoofed addresses, bad
    client subnets, unknown dedicated addresses, clients without access, nor
    above the rate limits.  The device finder, the global limiter, the GeoIP
    database and the next handler are interfaces.  The counters of the profiles'
    limiters are shared, so they are kept in a heap. *)

From S2P Require Import Prelude GoStd NetIP HumanID DnsMsg Filter FilterConfig RuleList Access Refreshable MsgConfig.
From S2P Require Import RateLimit Agd.

Open Scope Z_scope.

(** ** agd/ratelimit.go *)

Inductive RatelimitResult := RatelimitResultPass | RatelimitResultDrop | RatelimitResultUseGlobal.

(** [dns.Msg.Len]. *)
Class MsgLen := msg_Len : Msg -> Z.

Section profile_limiters.
Context `{RingBuffer}.

Notation heap := (gmap nat RequestCounter).

(** The new limiter, and the heap with its counter at the address [ptr]. *)
Definition NewDefaultRatelimiter (h : heap) (ptr : nat) (conf : RatelimitConfig) (respSzEst : Z)
    : Ratelimiter * heap :=
  (DefaultRatelimiter ptr (rc_ClientSubnets conf) respSzEst (rc_RPS conf),
   <[ptr := NewRequestCounter (rc_RPS conf) second]> h).

Definition Check (now : Z) (h : heap) (r : Ratelimiter) (remoteIP : Addr) : outcome (RatelimitResult * heap) :=
  match r with
  | GlobalRatelimiter => Ret (RatelimitResultUseGlobal, h)
  | DefaultRatelimiter ptr nets _ _ =>
      if (0 <? length nets)%nat && negb (existsb (fun n => prefix_contains n remoteIP) nets)
      then Ret (RatelimitResultUseGlobal, h)
      else match h !! ptr with
      | None => Panic "nil pointer dereference"
      | Some c =>
          let '(above, c) := Add c now in
          Ret (if above then RatelimitResultDrop else RatelimitResultPass, <[ptr := c]> h)
      end
  end.

(** [n] calls of [Check] whose results are ignored. *)
Fixpoint repeat_check (n : nat) (now : Z) (h : heap) (r : Ratelimiter) (ip : Addr) : outcome heap :=
  match n with
  | O => Ret h
  | S n => let! p := Check now h r ip in repeat_check n now p.2 r ip
  end.

Definition profile_CountResponses (now : Z) (h : heap) (r : Ratelimiter) (respLen : Z) (remoteIP : Addr)
    : outcome heap :=
  match r with
  | GlobalRatelimiter => Ret h
  | DefaultRatelimiter _ _ est _ =>
      if est =? 0 then Panic "integer divide by zero"
      else repeat_check (Z.to_nat (u64 respLen / est)) now h r remoteIP
  end.

End profile_limiters.

(** ** The middleware *)

Section ratelimitmw.
Context `{MiekgDNS} `{IPConv} `{UnicodeCase} `{Urlfilter} `{SdeEncoding} `{MsgLen} `{RingBuffer}.
Context {S D : Type}.

(** [rm_finder], [rm_limiter], [rm_geo] and [rm_next] are the interfaces;
    [rm_next] returns its error and the message that it has written, if any.
    [rm_std] is the standard blocker of the profiles' access managers, and
    [rm_write] the error of the response writer. *)
Record RlEnv := {
  rm_finder : D -> Msg -> AddrPort -> AddrPort -> outcome (option DeviceResult * D);
  rm_limiter : RateLimitInterface S;
  rm_geo : string -> Addr -> option GeoLocation * option error;
  rm_next : RequestInfo -> Msg -> outcome (option error * option Msg);
  rm_std : StandardBlocker;
  rm_write : option error;
  rm_now : Z;
}.

Record RlMiddleware := {
  rm_messages : Constructor;
  rm_FilteringGroup : FilteringGroup;
  rm_ServerInfo : RequestServerInfo;
  rm_sdeConf : option StructuredDNSErrorsConfig;
  rm_access : Global;
  rm_protos : list Z;
  rm_edeEnabled : bool;
}.

(** The state that requests share. *)
Record RlState := {
  rs_limiter : S;
  rs_finder : D;
  rs_counters : gmap nat RequestCounter;
}.

(** What is done for a request: the calls of the next handler, the messages that
    are written, the errors that are collected. *)
Record RlEffects := {
  re_Called : list RequestInfo;
  re_Written : list Msg;
  re_Errors : list error;
}.

Context (mw : RlMiddleware) (env : RlEnv).

(** *** requestinfo.go *)

Definition locationData (ip : Addr) (typ : string) : option GeoLocation * list error :=
  let '(l, err) := rm_geo env EmptyString ip in
  (l, ErrWrap ("getting data for " +:+ typ +:+ " ip: %w") <$> option_list err).

Definition location (req : Msg) (remoteIP : Addr)
    : option GeoLocation * result error (option ECS) * list error :=
  let '(loc, errs) := locationData remoteIP "client" in
  match ECSFromMsg req with
  | Err err => (loc, Err (ErrWrap "getting ecs info: %w" err), errs)
  | Ok (subnet, scope) =>
      if bool_decide (subnet = prefix_zero) then (loc, Ok None, errs)
      else
        let '(eloc, errs') := locationData (p_ip subnet) "ecs" in
        (loc, Ok (Some {| ecs_Location := eloc; ecs_Subnet := subnet; ecs_Scope := scope |}), errs ++ errs')
  end.

(** The constructor for the messages of a request of this device. *)
Definition profile_messages (r : option DeviceResult) : outcome (Constructor * list error) :=
  match r with
  | Some (DeviceResultOK _ p) =>
      let! c := NewConstructor {|
        cc_Cloner := true; cc_StructuredErrors := rm_sdeConf mw; cc_BlockingMode := Some (p_BlockingMode p);
        cc_FilteredResponseTTL := FilteredResponseTTL p; cc_EDEEnabled := rm_edeEnabled mw |} in
      Ret match c with
          | Ok c => (c, [])
          | Err err => (rm_messages mw, [ErrWrap "creating constructor for profile %q: %w" err])
          end
  | _ => Ret (rm_messages mw, [])
  end.

Definition newRequestInfo (st : RlState) (req : Msg) (laddr raddr : AddrPort)
    : outcome (RequestInfo * RlState * list error) :=
  let! q := index (m_Question req) 0 in
  let! r := rm_finder env (rs_finder st) req raddr laddr in
  let! m := profile_messages r.1 in
  Ret ({| ri_DeviceResult := r.1; ri_Location := None; ri_ECS := None;
          ri_FilteringGroup := rm_FilteringGroup mw; ri_Messages := m.1; ri_ServerInfo := rm_ServerInfo mw;
          ri_RemoteIP := ap_addr raddr; ri_Host := NormalizeDomain (q_Name q); ri_QType := q_Qtype q;
          ri_QClass := q_Qclass q |},
       {| rs_limiter := rs_limiter st; rs_finder := r.2; rs_counters := rs_counters st |}, m.2).

Definition with_location (ri : RequestInfo) (loc : option GeoLocation) (ecs : option ECS) : RequestInfo := {|
  ri_DeviceResult := ri_DeviceResult ri; ri_Location := loc; ri_ECS := ecs;
  ri_FilteringGroup := ri_FilteringGroup ri; ri_Messages := ri_Messages ri; ri_ServerInfo := ri_ServerInfo ri;
  ri_RemoteIP := ri_RemoteIP ri; ri_Host := ri_Host ri; ri_QType := ri_QType ri; ri_QClass := ri_QClass ri;
|}.

(** *** access.go *)

(** [Access.IsBlocked]: the rules of a profile are compiled at their first use,
    which changes no decision ([Access.access_decision]), so that a fresh manager
    of the profile's configuration stands for its manager. *)
Definition profile_blocked (p : Profile) (req : Msg) (raddr : AddrPort) (l : option GeoLocation) : outcome bool :=
  match p_Access p with
  | None => Ret false
  | Some conf => let! b := access_IsBlocked (access_New conf) (rm_std env) req raddr l in Ret b.1
  end.

Definition isBlockedByAccess (ri : RequestInfo) (req : Msg) (raddr : AddrPort) : outcome bool :=
  if IsBlockedIP (rm_access mw) (ap_addr raddr) then Ret true
  else if IsBlockedHost (rm_access mw) (ri_Host ri) (ri_QType ri) then Ret true
  else match DeviceData ri with
  | None => Ret false
  | Some (p, _) => profile_blocked p req raddr (ri_Location ri)
  end.

(** *** limit.go *)

Definition no_effects : RlEffects := {| re_Called := []; re_Written := []; re_Errors := [] |}.

Definition with_limiter (st : RlState) (l : S) : RlState :=
  {| rs_limiter := l; rs_finder := rs_finder st; rs_counters := rs_counters st |}.

Definition with_counters (st : RlState) (h : gmap nat RequestCounter) : RlState :=
  {| rs_limiter := rs_limiter st; rs_finder := rs_finder st; rs_counters := h |}.

(** The next handler with the caller's response writer. *)
Definition call_next (st : RlState) (ri : RequestInfo) (req : Msg) : outcome (RlState * RlEffects * option error) :=
  let! r := rm_next env ri req in
  Ret (st, {| re_Called := [ri]; re_Written := option_list r.2; re_Errors := [] |}, r.1).

Definition serveWithGlobalRatelimiting (st : RlState) (req : Msg) (ri : RequestInfo)
    : outcome (RlState * RlEffects * option error) :=
  let! r := rl_IsRateLimited (rm_limiter env) (rm_now env) (rs_limiter st) (m_Question req) (ri_RemoteIP ri) in
  let st := with_limiter st r.2 in
  match r.1 with
  | Err err => Ret (st, no_effects, Some (ErrWrap "checking global ratelimit: %w" err))
  | Ok (true, _) => Ret (st, no_effects, None)
  | Ok (false, true) => call_next st ri req
  | Ok (false, false) =>
      let! n := rm_next env ri req in
      match n with
      | (Some err, _) => Ret (st, {| re_Called := [ri]; re_Written := []; re_Errors := [] |}, Some err)
      | (None, None) => Ret (st, {| re_Called := [ri]; re_Written := []; re_Errors := [] |}, None)
      | (None, Some resp) =>
          let! l := rl_CountResponses (rm_limiter env) (rm_now env) (rs_limiter st) (msg_Len resp)
                      (m_Question resp) (ri_RemoteIP ri) in
          Ret (with_limiter st l, {| re_Called := [ri]; re_Written := [resp]; re_Errors := [] |}, rm_write env)
      end
  end.

Definition serveWithProfileRatelimiting (st : RlState) (req : Msg) (ri : RequestInfo)
    : outcome (RlState * RlEffects * bool * option error) :=
  match DeviceData ri with
  | None => Ret (st, no_effects, false, None)
  | Some (prof, _) =>
      let! r := Check (rm_now env) (rs_counters st) (p_Ratelimiter prof) (ri_RemoteIP ri) in
      let st := with_counters st r.2 in
      match r.1 with
      | RatelimitResultDrop => Ret (st, no_effects, true, None)
      | RatelimitResultUseGlobal => Ret (st, no_effects, false, None)
      | RatelimitResultPass =>
          let! n := rm_next env ri req in
          match n with
          | (Some err, _) =>
              Ret (st, {| re_Called := [ri]; re_Written := []; re_Errors := [] |}, true, Some (ErrWrap "serving: %w" err))
          | (None, None) => Ret (st, {| re_Called := [ri]; re_Written := []; re_Errors := [] |}, true, None)
          | (None, Some resp) =>
              let! h := profile_CountResponses (rm_now env) (rs_counters st) (p_Ratelimiter prof) (msg_Len resp)
                          (ri_RemoteIP ri) in
              Ret (with_counters st h, {| re_Called := [ri]; re_Written := [resp]; re_Errors := [] |}, true,
                   wrap_opt "writing resp: %w" (rm_write env))
          end
      end
  end.

Definition serveWithRatelimiting (st : RlState) (req : Msg) (ri : RequestInfo)
    : outcome (RlState * RlEffects * option error) :=
  if negb (bool_decide (rsi_Protocol (ri_ServerInfo ri) ∈ rm_protos mw)) then call_next st ri req
  else
    let! r := serveWithProfileRatelimiting st req ri in
    let '(st, ef, shouldReturn, err) := r in
    match err with
    | Some err => Ret (st, ef, Some (ErrWrap "profile ratelimit: %w" err))
    | None => if (shouldReturn : bool) then Ret (st, ef, None) else serveWithGlobalRatelimiting st req ri
    end.

(** *** ratelimitmw.go *)

(** [errors.As] for a [dnsmsg.BadECSError], which [ECSFromMsg] makes. *)
Fixpoint is_bad_ecs (e : error) : bool :=
  match e with
  | ErrConst _ => false
  | ErrWrap f inner => bool_decide (f = "bad ecs: %s"%string) || is_bad_ecs inner
  | ErrJoin errs => existsb is_bad_ecs errs
  end.

Definition processLocationErr (req : Msg) (origErr : error) : list Msg * error :=
  if negb (is_bad_ecs origErr) then ([], origErr)
  else
    ([NewRespRCode (rm_messages mw) req RcodeFormatError],
     match rm_write env with
     | None => origErr
     | Some err => ErrJoin [origErr; ErrWrap "writing formerr resp: %w" err]
     end).

Definition handleDeviceResult (res : option DeviceResult) : bool * option error :=
  match res with
  | Some (DeviceResultUnknownDedicated _) => (false, None)
  | Some (DeviceResultError err) => (false, Some err)
  | _ => (true, None)
  end.

(** The handler, without the annotation of its error. *)
Definition rl_serve (st : RlState) (req : Msg) (raddr laddr : AddrPort)
    : outcome (RlState * RlEffects * option error) :=
  if ap_port raddr =? 0 then Ret (st, no_effects, None)
  else
    let '(loc, ecs, errs) := location req (ap_addr raddr) in
    match ecs with
    | Err err =>
        let '(written, err) := processLocationErr req err in
        Ret (st, {| re_Called := []; re_Written := written; re_Errors := errs |}, Some err)
    | Ok ecs =>
        let! i := newRequestInfo st req laddr raddr in
        let '(ri, st, errs') := i in
        let errs := errs ++ errs' in
        let dropped := {| re_Called := []; re_Written := []; re_Errors := errs |} in
        match handleDeviceResult (ri_DeviceResult ri) with
        | (false, err) => Ret (st, dropped, err)
        | (true, _) =>
            let ri := with_location ri loc ecs in
            let! b := isBlockedByAccess ri req raddr in
            if b then Ret (st, dropped, None)
            else
              let! r := serveWithRatelimiting st req ri in
              let '(st, ef, err) := r in
              Ret (st, {| re_Called := re_Called ef; re_Written := re_Written ef; re_Errors := errs ++ re_Errors ef |}, err)
        end
    end.

Definition rl_ServeDNS (st : RlState) (req : Msg) (raddr laddr : AddrPort)
    : outcome (RlState * RlEffects * option error) :=
  let! r := rl_serve st req raddr laddr in
  Ret (r.1, wrap_opt "ratelimit mw: %w" r.2).

End ratelimitmw.

(** * Facts *)

#[local] Arguments Add : simpl never.

(** Whether a client is under the limit of a profile. *)
Definition limited_net (nets : list Prefix) (ip : Addr) : bool :=
  negb ((0 <? length nets)%nat && negb (existsb (fun n => prefix_contains n ip) nets)).

Lemma Check_default `{RingBuffer} now h ptr nets est rps ip c : h !! ptr = Some c ->
  Check now h (DefaultRatelimiter ptr nets est rps) ip =
  if limited_net nets ip
  then Ret (if (Add c now).1 then RatelimitResultDrop else RatelimitResultPass, <[ptr := (Add c now).2]> h)
  else Ret (RatelimitResultUseGlobal, h).
Proof. intros Hc. unfold Check, limited_net. rewrite Hc. by destruct (_ && _), (Add c now). Qed.

#[local] Arguments Check : simpl never.

(** ** Who is let in *)

Section gate.
Context `{MiekgDNS} `{IPConv} `{UnicodeCase} `{Urlfilter} `{SdeEncoding} `{MsgLen} `{RingBuffer}.
Context {S D : Type} (mw : RlMiddleware) (env : RlEnv (S := S) (D := D)).

Implicit Types (st : RlState (S := S) (D := D)) (req : Msg) (ri : RequestInfo) (ef : RlEffects).

(** The information about a request: that of the server, the question, the client
    and the device; the messages of a known profile are made with its settings,
    if these are valid. *)
Record request_info req (q : Question) (raddr : AddrPort) (dr : option DeviceResult) ri : Prop := {
  if_device : ri_DeviceResult ri = dr;
  if_client : ri_RemoteIP ri = ap_addr raddr;
  if_question : ri_Host ri = NormalizeDomain (q_Name q) /\ ri_QType ri = q_Qtype q /\ ri_QClass ri = q_Qclass q;
  if_server : ri_ServerInfo ri = rm_ServerInfo mw /\ ri_FilteringGroup ri = rm_FilteringGroup mw;
  if_location : ri_Location ri = (rm_geo env EmptyString (ap_addr raddr)).1;
  if_ecs subnet scope : ECSFromMsg req = Ok (subnet, scope) ->
    match ri_ECS ri with
    | Some ecs => ecs_Subnet ecs = subnet /\ ecs_Scope ecs = scope /\
        ecs_Location ecs = (rm_geo env EmptyString (p_ip subnet)).1
    | None => subnet = prefix_zero
    end;
  if_messages : match dr with
    | Some (DeviceResultOK _ p) => forall sd, rm_sdeConf mw = Some sd ->
        sde_ok sd (rm_edeEnabled mw) -> 0 <= FilteredResponseTTL p ->
        blockingMode (ri_Messages ri) = p_BlockingMode p /\ fltRespTTL (ri_Messages ri) = FilteredResponseTTL p
    | _ => ri_Messages ri = rm_messages mw
    end;
}.

(** The interfaces return, in particular the next handler for this request; the
    limiter of the found profile, if it has its own, has been made by
    [NewDefaultRatelimiter] with a non-zero estimate. *)
Record interfaces_return st req (q : Question) (raddr : AddrPort) (dr : option DeviceResult) : Prop := {
  ir_next ri : request_info req q raddr dr ri -> exists r, rm_next env ri req = Ret r;
  ir_limiter s qs ip : exists r, rl_IsRateLimited (rm_limiter env) (rm_now env) s qs ip = Ret r;
  ir_count s len qs ip : exists s', rl_CountResponses (rm_limiter env) (rm_now env) s len qs ip = Ret s';
  ir_counter d p ptr nets est rps : dr = Some (DeviceResultOK d p) ->
    p_Ratelimiter p = DefaultRatelimiter ptr nets est rps -> is_Some (rs_counters st !! ptr) /\ est <> 0;
  ir_sde : rm_sdeConf mw <> None;
}.

(** The global limiter lets the request through. *)
Definition global_passes (s : S) (qs : list Question) (ip : Addr) : Prop :=
  exists a s', rl_IsRateLimited (rm_limiter env) (rm_now env) s qs ip = Ret (Ok (false, a), s').

(** The limiter of the profile, or else the global one, lets the request through. *)
Definition limits_pass st (dr : option DeviceResult) (qs : list Question) (ip : Addr) : Prop :=
  match dr with
  | Some (DeviceResultOK _ p) =>
      match Check (rm_now env) (rs_counters st) (p_Ratelimiter p) ip with
      | Ret (RatelimitResultPass, _) => True
      | Ret (RatelimitResultUseGlobal, _) => global_passes (rs_limiter st) qs ip
      | _ => False
      end
  | _ => global_passes (rs_limiter st) qs ip
  end.

(** The next handler has been called with [ri], and what it has answered with is
    written. *)
Definition served req ri ef : Prop :=
  re_Called ef = [ri] /\ (length (re_Written ef) <= 1)%nat /\
  (forall m, m ∈ re_Written ef -> exists e, rm_next env ri req = Ret (e, Some m)) /\
  (forall m, rm_next env ri req = Ret (None, Some m) -> re_Written ef = [m]).

(** A handler that calls the next one exactly if [P] holds, and otherwise does
    nothing. *)
Definition gated (P : Prop) req ri (o : outcome (RlState (S := S) (D := D) * RlEffects * option error)) : Prop :=
  exists st' ef err, o = Ret (st', ef, err) /\
    (P /\ served req ri ef \/ ~ P /\ re_Called ef = [] /\ re_Written ef = []).

Lemma served_none req ri e errs : rm_next env ri req = Ret (e, None) ->
  served req ri {| re_Called := [ri]; re_Written := []; re_Errors := errs |}.
Proof. intros E. split_and!; simpl; [done|lia|by intros m []%elem_of_nil|]. intros m E'. congruence. Qed.

Lemma served_err req ri e m errs : rm_next env ri req = Ret (Some e, m) ->
  served req ri {| re_Called := [ri]; re_Written := []; re_Errors := errs |}.
Proof. intros E. split_and!; simpl; [done|lia|by intros m' []%elem_of_nil|]. intros m' E'. congruence. Qed.

Lemma served_some req ri e m errs : rm_next env ri req = Ret (e, Some m) ->
  served req ri {| re_Called := [ri]; re_Written := [m]; re_Errors := errs |}.
Proof.
  intros E. split_and!; simpl; [done|lia|by intros m' ->%list_elem_of_singleton; eauto|].
  intros m' E'. congruence.
Qed.

Ltac solve_served := first [by eapply served_some | by eapply served_none | by eapply served_err].

Lemma call_next_gated st ri req : (exists r, rm_next env ri req = Ret r) -> gated True req ri (call_next env st ri req).
Proof.
  intros [[e m] E]. unfold gated, call_next. rewrite E. eexists _, _, _. split; [done|]. left. split; [done|].
  destruct m; solve_served.
Qed.

Lemma global_gated st ri req q raddr dr : interfaces_return st req q raddr dr ->
  (exists r, rm_next env ri req = Ret r) ->
  gated (global_passes (rs_limiter st) (m_Question req) (ri_RemoteIP ri)) req ri
    (serveWithGlobalRatelimiting env st req ri).
Proof.
  intros Hi [[e m] En]. unfold gated, serveWithGlobalRatelimiting, global_passes.
  destruct (ir_limiter _ _ _ _ _ Hi (rs_limiter st) (m_Question req) (ri_RemoteIP ri)) as [[r s'] E].
  rewrite E. destruct r as [[[] a]|err]; simpl.
  - eexists _, _, _. split; [done|]. right. split; [by intros (a' & s'' & [=])|done].
  - unfold call_next. rewrite En. simpl.
    assert (exists a' s'', Ret (Ok (false, a), s') = Ret (Ok (E := error) (false, a'), s'')) by by eexists _, _.
    destruct a; [|destruct e as [e|]; [|destruct m as [m|]; simpl;
      [destruct (ir_count _ _ _ _ _ Hi s' (msg_Len m) (m_Question m) (ri_RemoteIP ri)) as [l ->]; simpl|]]];
      (eexists _, _, _; split; [done|]; left; split; [done|]; try destruct m; solve_served).
  - eexists _, _, _. split; [done|]. right. split; [by intros (a' & s'' & [=])|done].
Qed.

Lemma repeat_check_returns ptr nets est rps now ip n h :
  is_Some (h !! ptr) -> exists h', repeat_check n now h (DefaultRatelimiter ptr nets est rps) ip = Ret h'.
Proof.
  revert h. induction n as [|n IH]; intros h [c Hc]; [by eexists|]. simpl.
  rewrite (Check_default _ _ _ _ _ _ _ _ Hc). case_if; simpl; [|by apply IH; eexists].
  apply IH. rewrite lookup_insert. by case_decide; eexists.
Qed.

Lemma count_returns ptr nets est rps now len ip h : is_Some (h !! ptr) -> est <> 0 ->
  exists h', profile_CountResponses now h (DefaultRatelimiter ptr nets est rps) len ip = Ret h'.
Proof. intros Hc He. simpl. case_if; [lia|]. by apply repeat_check_returns. Qed.

Lemma limited_gated st ri req q raddr : interfaces_return st req q raddr (ri_DeviceResult ri) ->
  (exists r, rm_next env ri req = Ret r) ->
  gated (rsi_Protocol (ri_ServerInfo ri) ∈ rm_protos mw ->
         limits_pass st (ri_DeviceResult ri) (m_Question req) (ri_RemoteIP ri)) req ri
    (serveWithRatelimiting mw env st req ri).
Proof.
  intros Hi Hnext. unfold serveWithRatelimiting. case_bool_decide as Hp; simpl.
  2:{ destruct (call_next_gated st ri req Hnext) as (st' & ef & err & E & Hs).
      exists st', ef, err. split; [done|]. left. split; [done|]. naive_solver. }
  assert (forall P Q o, (P <-> Q) -> gated P req ri o -> gated Q req ri o) as Hiff.
  { clear. intros P Q o HPQ (st' & ef & err & E & Hs). exists st', ef, err. split; [done|]. by rewrite <- HPQ. }
  apply (Hiff (limits_pass st (ri_DeviceResult ri) (m_Question req) (ri_RemoteIP ri))); [tauto|].
  unfold serveWithProfileRatelimiting, limits_pass, DeviceData.
  pose proof (global_gated st ri req q raddr (ri_DeviceResult ri) Hi Hnext) as Hg.
  destruct (ri_DeviceResult ri) as [[| |d p|]|] eqn:Ed; simpl; try exact Hg.
  destruct (p_Ratelimiter p) as [|ptr nets est rps] eqn:Er; [exact Hg|].
  destruct (ir_counter _ _ _ _ _ Hi d p ptr nets est rps eq_refl Er) as [[c Hc] Hest].
  rewrite (Check_default _ _ _ _ _ _ _ _ Hc).
  destruct (limited_net nets (ri_RemoteIP ri)); [|exact Hg].
  destruct (Add c (rm_now env)) as [[] c'] eqn:Ea; simpl.
  { eexists _, _, _. split; [done|]. right. split; [tauto|done]. }
  destruct Hnext as [[e m] En]. rewrite En. simpl.
  destruct e as [e|]; [|destruct m as [m|]]; simpl; [| |eexists _, _, _; split; [done|]; left; split; [done|]; solve_served].
  { eexists _, _, _. split; [done|]. left. split; [done|]. solve_served. }
  destruct (count_returns ptr nets est rps (rm_now env) (msg_Len m) (ri_RemoteIP ri) (<[ptr:=c']> (rs_counters st)))
    as [h' E']; [rewrite lookup_insert; by case_decide; eexists|done|].
  simpl in E'. rewrite E'. simpl. destruct (rm_write env); simpl; eexists _, _, _; (split; [done|]); left; (split; [done|]); solve_served.
Qed.

(** Every error of the client subnet is a [BadECSError]. *)
Lemma ECSFromMsg_bad req err : ECSFromMsg req = Err err -> is_bad_ecs err = true.
Proof.
  unfold ECSFromMsg. destruct (IsEdns0 req) as [opt|]; [|done].
  induction (opt_options opt) as [|o opts IH]; [done|]. simpl. destruct o; try exact IH.
  destruct (ecsData _ _ _ _) as [[subnet sc]|e]; [|by intros [= <-]]. by destruct (bool_decide _).
Qed.

(** The requests that are let in, by the result [dr] of the device finder and the
    configuration [std] of the standard blocker. *)
Definition let_in st req (q : Question) (raddr : AddrPort) (dr : option DeviceResult)
    (std : StandardBlockerConfig) : Prop :=
  ap_port raddr <> 0 /\ (exists ecs, ECSFromMsg req = Ok ecs) /\
  (forall err, dr <> Some (DeviceResultUnknownDedicated err) /\ dr <> Some (DeviceResultError err)) /\
  IsBlockedIP (rm_access mw) (ap_addr raddr) = false /\
  IsBlockedHost (rm_access mw) (NormalizeDomain (q_Name q)) (q_Qtype q) = false /\
  (forall d p conf, dr = Some (DeviceResultOK d p) -> p_Access p = Some conf ->
     ~ profile_blocks conf std q (ap_addr raddr) (rm_geo env EmptyString (ap_addr raddr)).1) /\
  (rsi_Protocol (rm_ServerInfo mw) ∈ rm_protos mw -> limits_pass st dr (m_Question req) (ap_addr raddr)).

Lemma profile_messages_ok dr : rm_sdeConf mw <> None ->
  exists m errs, profile_messages mw dr = Ret (m, errs) /\
    match dr with
    | Some (DeviceResultOK _ p) => forall sd, rm_sdeConf mw = Some sd ->
        sde_ok sd (rm_edeEnabled mw) -> 0 <= FilteredResponseTTL p ->
        blockingMode m = p_BlockingMode p /\ fltRespTTL m = FilteredResponseTTL p
    | _ => m = rm_messages mw
    end.
Proof.
  intros Hsd. unfold profile_messages. destruct dr as [[| |d p|]|]; try by eexists _, _.
  destruct (rm_sdeConf mw) as [sd|] eqn:Es; [|done]. set (conf := {| cc_Cloner := _ |}).
  destruct (NewConstructor_total conf sd eq_refl) as (r & -> & Hiff & Hr). simpl.
  destruct r as [c|e].
  - eexists _, _. split; [done|]. intros ? [= <-] _ _. destruct (Hr c eq_refl) as ([= ->] & -> & _). done.
  - eexists _, _. split; [done|]. intros ? [= <-] Hok Ht. destruct Hiff as [_ Hiff].
    destruct Hiff as [c [=]]. by split_and!.
Qed.

Lemma access_gate ri req raddr q qs std : rm_std env = SetConfig std -> m_Question req = q :: qs ->
  exists b, isBlockedByAccess mw env ri req raddr = Ret b /\
    (b = false <-> IsBlockedIP (rm_access mw) (ap_addr raddr) = false /\
      IsBlockedHost (rm_access mw) (ri_Host ri) (ri_QType ri) = false /\
      forall d p conf, ri_DeviceResult ri = Some (DeviceResultOK d p) -> p_Access p = Some conf ->
        ~ profile_blocks conf std q (ap_addr raddr) (ri_Location ri)).
Proof.
  intros Hstd Hq. unfold isBlockedByAccess, profile_blocked, DeviceData. rewrite Hstd.
  destruct (IsBlockedIP _ _); [exists true; naive_solver|].
  destruct (IsBlockedHost _ _ _); [exists true; naive_solver|].
  destruct (ri_DeviceResult ri) as [[| |d p|]|]; try (exists false; naive_solver).
  destruct (p_Access p) as [conf|] eqn:Ea; [|exists false; naive_solver].
  destruct (access_IsBlocked_spec conf (access_New conf) std req raddr (ri_Location ri) q qs (profile_of_New conf) Hq)
    as (b & p' & -> & _ & Hb). exists b. split; [done|]. destruct b; naive_solver.
Qed.

(** The part of the handler after the client subnet has been read. *)
Lemma inner_gate st req raddr laddr q qs dr fs std loc ecs errs :
  m_Question req = q :: qs -> rm_finder env (rs_finder st) req raddr laddr = Ret (dr, fs) ->
  interfaces_return st req q raddr dr -> rm_std env = SetConfig std ->
  ap_port raddr <> 0 -> location env req (ap_addr raddr) = (loc, Ok ecs, errs) ->
  exists st' ef err, rl_serve mw env st req raddr laddr = Ret (st', ef, err) /\
    (~ let_in st req q raddr dr std /\ re_Called ef = [] /\ re_Written ef = [] \/
     exists ri, request_info req q raddr dr ri /\ let_in st req q raddr dr std /\ served req ri ef).
Proof.
  intros Hq Hf Hi Hstd Hport Hl. unfold rl_serve. case_if; [lia|]. rewrite Hl. unfold newRequestInfo.
  rewrite (index_0 _ _ _ Hq), Hf. simpl. destruct (profile_messages_ok dr (ir_sde _ _ _ _ _ Hi)) as (m & errs' & -> & Hm). simpl.
  set (ri0 := {| ri_DeviceResult := dr |}).
  assert (request_info req q raddr dr (with_location ri0 loc ecs) /\ exists e, ECSFromMsg req = Ok e) as [Hri Hecs].
  { clear -Hl Hm. revert Hl. unfold location, locationData.
    destruct (rm_geo env EmptyString (ap_addr raddr)) as [l1 e1] eqn:El1.
    destruct (ECSFromMsg req) as [[subnet sc]|] eqn:Ee; [|done].
    destruct (rm_geo env EmptyString (p_ip subnet)) as [l2 e2] eqn:El2.
    case_bool_decide as Hz; intros [= <- <- _]; (split; [|by eexists]);
      split; simpl; rewrite ?El1; try done; intros s' sc' E'; rewrite ?Ee in E'; simplify_eq; try done; by rewrite El2. }
  destruct (handleDeviceResult dr) as [cont err] eqn:Eh. destruct cont.
  2:{ eexists _, _, _. split; [done|]. left. split; [|done]. intros (_ & _ & Hd & _).
      destruct dr as [[|e| |e]|]; try done; destruct (Hd e); congruence. }
  assert (forall err, dr <> Some (DeviceResultUnknownDedicated err) /\ dr <> Some (DeviceResultError err)) as Hdr.
  { intros e. split; intros ->; discriminate. }
  set (ri := with_location ri0 loc ecs) in *.
  destruct (access_gate ri req raddr q qs std Hstd Hq) as (b & -> & Hb). simpl.
  pose proof (ir_next _ _ _ _ _ Hi ri Hri) as Hnext. destruct Hri as [Hi1 Hi2 (Hi3 & Hi4 & Hi5) [Hi6 Hi7] Hi8 Hi9 Hi10].
  rewrite Hi1, Hi3, Hi4, Hi8 in Hb. destruct b.
  { eexists _, _, _. split; [done|]. left. split; [|done]. intros (_ & _ & _ & Ha1 & Ha2 & Ha3 & _).
    destruct Hb as [_ Hb]. discriminate Hb. by split_and!. }
  destruct Hb as [Hb _]. destruct (Hb eq_refl) as (Hb1 & Hb2 & Hb3).
  set (st0 := {| rs_limiter := rs_limiter st |}).
  assert (interfaces_return st0 req q raddr (ri_DeviceResult ri)) as Hi' by (destruct Hi; by split).
  destruct (limited_gated st0 ri req q raddr Hi' Hnext) as (st' & ef & err' & -> & Hg). simpl.
  eexists _, _, _. split; [done|]. destruct Hg as [[HP Hs]|[HP Hs]].
  - right. exists ri. split; [by split|]. split; [by split_and!|]. done.
  - left. split; [|done]. intros (_ & _ & _ & _ & _ & _ & H7). by apply HP.
Qed.

Lemma requests_gate st req raddr laddr q qs dr fs std :
  m_Question req = q :: qs -> rm_finder env (rs_finder st) req raddr laddr = Ret (dr, fs) ->
  interfaces_return st req q raddr dr -> rm_std env = SetConfig std ->
  exists st' ef err, rl_ServeDNS mw env st req raddr laddr = Ret (st', ef, err) /\
    (~ let_in st req q raddr dr std /\ re_Called ef = [] /\
       (forall m, m ∈ re_Written ef -> m = NewRespRCode (rm_messages mw) req RcodeFormatError /\
          exists e, ECSFromMsg req = Err e) \/
     exists ri, request_info req q raddr dr ri /\ let_in st req q raddr dr std /\ served req ri ef).
Proof.
  intros Hq Hf Hi Hstd. unfold rl_ServeDNS.
  destruct (Z.eqb_spec (ap_port raddr) 0) as [Hp|Hp].
  { unfold rl_serve. rewrite Hp. simpl. eexists _, _, _. split; [done|]. left. split; [by intros [? _]|].
    split; [done|]. by intros m []%elem_of_nil. }
  destruct (location env req (ap_addr raddr)) as [[loc ecs] errs] eqn:El. destruct ecs as [ecs|err].
  - destruct (inner_gate st req raddr laddr q qs dr fs std loc ecs errs Hq Hf Hi Hstd Hp El)
      as (st' & ef & err & -> & Hg). simpl. eexists _, _, _. split; [done|].
    destruct Hg as [(Hn & Hc & Hw)|Hg]; [left|by right]. split; [done|]. split; [done|].
    rewrite Hw. by intros m []%elem_of_nil.
  - unfold rl_serve. case_if; [lia|]. rewrite El.
    assert (exists e, ECSFromMsg req = Err e /\ err = ErrWrap "getting ecs info: %w" e) as (e & Ee & ->).
    { clear -El. revert El. unfold location. destruct (locationData env _ _).
      destruct (ECSFromMsg req) as [[]|e]; [|intros [= _ <- _]; by eexists].
      case_bool_decide; [done|]. by destruct (locationData env _ _). }
    unfold processLocationErr. simpl. rewrite (ECSFromMsg_bad req e Ee). simpl.
    eexists _, _, _. split; [done|]. left. split; [intros (_ & [? Hok] & _); congruence|]. split; [done|].
    intros m ->%list_elem_of_singleton. eauto.
Qed.

(** C17. Who is let in.  Whatever the state, if the interfaces return, the middleware
    does not panic, and it calls the next handler, once, exactly for the requests
    that have a remote port and a well-formed client subnet, are not dropped by
    the device finder, are not blocked by the global settings on the address or
    the host nor by the access settings of the profile, and pass the rate limit
    of the profile, or the global one if there is no such limit for the client,
    if the protocol is limited.  The handler gets the information about this very
    request, and its response is written; for other requests nothing is written,
    except for a format error if the client subnet is bad. *)
Theorem requests_let_in st req raddr laddr q qs dr fs std :
  m_Question req = q :: qs -> rm_finder env (rs_finder st) req raddr laddr = Ret (dr, fs) ->
  interfaces_return st req q raddr dr -> rm_std env = SetConfig std ->
  exists st' ef err, rl_ServeDNS mw env st req raddr laddr = Ret (st', ef, err) /\
    (~ let_in st req q raddr dr std /\ re_Called ef = [] /\
       (forall m, m ∈ re_Written ef -> m = NewRespRCode (rm_messages mw) req RcodeFormatError /\
          exists e, ECSFromMsg req = Err e) \/
     exists ri, request_info req q raddr dr ri /\ let_in st req q raddr dr std /\ served req ri ef).
Proof. apply requests_gate. Qed.

End gate.

(** ** The limiter of a profile *)

Section window.
Context `{RingBuffer} `{!RingBufferSpec}.

(** Uses of one limiter: a request is checked, or a response is counted. *)
Inductive limit_event :=
  | LimCheck (now : Z) (ip : Addr)
  | LimCount (now : Z) (respLen : Z) (ip : Addr).

Definition limit_exec (r : Ratelimiter) (h : gmap nat RequestCounter) (e : limit_event)
    : outcome (gmap nat RequestCounter) :=
  match e with
  | LimCheck now ip => let! p := Check now h r ip in Ret p.2
  | LimCount now len ip => profile_CountResponses now h r len ip
  end.

(** The times at which an event counts: a request counts once, a response as many
    times as the estimated size of a response fits into its length, and clients
    outside of the subnets do not count. *)
Definition limit_times (nets : list Prefix) (est : Z) (e : limit_event) : list Z :=
  match e with
  | LimCheck now ip => if limited_net nets ip then [now] else []
  | LimCount now len ip => if limited_net nets ip then replicate (Z.to_nat (u64 len / est)) now else []
  end.

Section one_limiter.
Context (ptr : nat) (nets : list Prefix) (est rps : Z) (Hest : est <> 0).

Notation limiter := (DefaultRatelimiter ptr nets est rps).

Lemma Check_counts h xs now ip : h !! ptr = Some (counter_of rps second xs) ->
  exists res h', Check now h limiter ip = Ret (res, h') /\
    h' !! ptr = Some (counter_of rps second (xs ++ limit_times nets est (LimCheck now ip))).
Proof.
  intros Hh. rewrite (Check_default _ _ _ _ _ _ _ _ Hh). unfold limit_times. case_if.
  - eexists _, _. split; [done|]. by rewrite lookup_insert_eq, <- counter_of_snoc.
  - eexists _, _. split; [done|]. by rewrite app_nil_r.
Qed.

Lemma repeat_check_counts n h xs now ip : h !! ptr = Some (counter_of rps second xs) ->
  exists h', repeat_check n now h limiter ip = Ret h' /\
    h' !! ptr = Some (counter_of rps second (xs ++ if limited_net nets ip then replicate n now else [])).
Proof.
  revert h xs. induction n as [|n IH]; intros h xs Hh; simpl.
  { eexists. split; [done|]. destruct (limited_net nets ip); by rewrite app_nil_r. }
  destruct (Check_counts h xs now ip Hh) as (res & h1 & -> & H1). simpl in *.
  destruct (IH h1 _ H1) as (h' & -> & Hh'). exists h'. split; [done|]. rewrite Hh'.
  destruct (limited_net nets ip); [by rewrite <- (assoc_L (++))|by rewrite !app_nil_r].
Qed.

Lemma limit_exec_counts h xs e : h !! ptr = Some (counter_of rps second xs) ->
  exists h', limit_exec limiter h e = Ret h' /\
    h' !! ptr = Some (counter_of rps second (xs ++ limit_times nets est e)).
Proof.
  intros Hh. destruct e as [now ip|now len ip]; simpl.
  - destruct (Check_counts h xs now ip Hh) as (res & h' & -> & H'). by exists h'.
  - case_if; [done|]. by apply repeat_check_counts.
Qed.

Lemma limit_run_counts evs h xs : h !! ptr = Some (counter_of rps second xs) ->
  exists h', for_each (limit_exec limiter) h evs = Ret h' /\
    h' !! ptr = Some (counter_of rps second (xs ++ concat (limit_times nets est <$> evs))).
Proof.
  revert h xs. induction evs as [|e evs IH]; intros h xs Hh; simpl.
  { exists h. by rewrite app_nil_r. }
  destruct (limit_exec_counts h xs e Hh) as (h1 & -> & H1). simpl.
  destruct (IH h1 _ H1) as (h' & -> & Hh'). exists h'. split; [done|]. by rewrite Hh', (assoc_L (++)).
Qed.

End one_limiter.

(** The limiter of a profile.  After any ordered history of its requests and
    responses, a request from the limited subnets, or from anywhere if there are
    none, is dropped exactly if more than the configured number of requests,
    itself and the estimated responses included, fall into the last second; a
    request from elsewhere is left to the global limiter. *)
Theorem profile_limit_window h ptr conf est evs t ip :
  let nets := rc_ClientSubnets conf in
  let '(r, h0) := NewDefaultRatelimiter h ptr conf est in
  let times := concat (limit_times nets est <$> evs) ++ [t] in
  est <> 0 -> 0 <= rc_RPS conf < 2 ^ 32 -> times_ok times ->
  exists h', for_each (limit_exec r) h0 evs = Ret h' /\
    exists res h'', Check t h' r ip = Ret (res, h'') /\
      (res = RatelimitResultUseGlobal <-> limited_net nets ip = false) /\
      (res = RatelimitResultDrop <->
         limited_net nets ip = true /\ rc_RPS conf < Z.of_nat (window second t times)).
Proof.
  simpl. intros Hest Hrps Ht.
  destruct (limit_run_counts ptr (rc_ClientSubnets conf) est (rc_RPS conf) Hest evs
    (<[ptr:=NewRequestCounter (rc_RPS conf) second]> h) []) as (h' & -> & Hh'); [by rewrite lookup_insert_eq|].
  exists h'. split; [done|]. rewrite (Check_default _ _ _ _ _ _ _ _ Hh').
  set (xs := concat _) in *. pose proof (RequestCounter_window_aux (rc_RPS conf) second xs t ltac:(lia) Ht) as Hw.
  destruct (limited_net _ ip); (eexists _, _; split; [done|]); [|naive_solver].
  rewrite <- Hw. destruct (Add _ t).1; naive_solver.
Qed.

End window.

(** ** Concrete inputs *)

#[local] Existing Instance ref_miekg.
#[local] Existing Instance ref_unicode.
#[local] Existing Instance plain_urlfilter.
#[local] Existing Instance list_ring.
#[local] Existing Instance list_ring_spec.
#[local] Instance some_ipconv : IPConv := fun s fam => Ok (Addr4 256).
#[local] Instance some_len : MsgLen := fun m => 100.

Definition some_limit : RatelimitConfig := {| rc_ClientSubnets := []; rc_RPS := 2; rc_Enabled := true |}.

Lemma profile_limit_window_witness :
  let evs := [LimCheck (second + 1) (Addr4 1); LimCount (second + 2) 250 (Addr4 1)] in
  let '(r, h0) := NewDefaultRatelimiter ∅ 7 some_limit 100 in
  exists h', for_each (limit_exec r) h0 evs = Ret h' /\
    exists res h'', Check (second + 3) h' r (Addr4 1) = Ret (res, h'') /\ res = RatelimitResultDrop.
Proof.
  intros evs.
  destruct (profile_limit_window ∅ 7 some_limit 100 evs (second + 3) (Addr4 1)) as (h' & E & res & h'' & Ec & _ & Hd).
  - lia.
  - simpl. lia.
  - split; [repeat (constructor; try (vm_compute; done))|repeat (constructor; [vm_compute; done|])]. constructor.
  - exists h'. split; [exact E|]. exists res, h''. split; [exact Ec|]. apply Hd. by vm_compute.
Defined.

(** A server that limits plain DNS globally, with a finder that knows no device. *)
Definition gate_mw : RlMiddleware := {|
  rm_messages := some_constructor;
  rm_FilteringGroup := {|
    fg_FilterConfig := {| cfg_Parental := cfc_Parental unfiltered_config; cfg_RuleList := cfc_RuleList unfiltered_config;
                          cfg_SafeBrowsing := cfc_SafeBrowsing unfiltered_config |};
    fg_ID := "default"; fg_BlockChromePrefetch := false; fg_BlockFirefoxCanary := false; fg_BlockPrivateRelay := false |};
  rm_ServerInfo := {| rsi_GroupName := "group"; rsi_Name := "srv"; rsi_DeviceDomains := []; rsi_Protocol := ProtoDNS;
                      rsi_ProfilesEnabled := true |};
  rm_sdeConf := Some some_sde;
  rm_access := NewGlobal [] [{| p_ip := Addr4 0x0a000000; p_bits := 8 |}];
  rm_protos := [ProtoDNS]; rm_edeEnabled := true;
|}.

(** The limiter drops all requests above a count. *)
Definition gate_env : RlEnv (S := nat) (D := unit) := {|
  rm_finder d _ _ _ := Ret (None, d);
  rm_limiter := {| rl_IsRateLimited _ n _ _ := Ret (Ok ((3 <? n)%nat, false), S n);
                   rl_CountResponses _ n _ _ _ := Ret n |};
  rm_geo _ _ := (None, None); rm_next _ req := Ret (None, Some (NewResp req));
  rm_std := SetConfig {| sc_AllowedNets := []; sc_BlockedNets := []; sc_AllowedASN := []; sc_BlockedASN := [];
                         sc_BlocklistDomainRules := [] |};
  rm_write := None; rm_now := 1;
|}.

Definition gate_state (n : nat) : RlState (S := nat) (D := unit) :=
  {| rs_limiter := n; rs_finder := (); rs_counters := ∅ |}.

(** The same request is let in, and dropped when the limiter has counted enough. *)
Lemma requests_let_in_witness :
  let raddr := {| ap_addr := Addr4 0x0b000001; ap_port := 53 |} in
  (exists st' ef err, rl_ServeDNS gate_mw gate_env (gate_state 0) DnsMsg.some_request raddr raddr = Ret (st', ef, err) /\
     re_Written ef = [NewResp DnsMsg.some_request]) /\
  (exists st' ef err, rl_ServeDNS gate_mw gate_env (gate_state 9) DnsMsg.some_request raddr raddr = Ret (st', ef, err) /\
     re_Called ef = []).
Proof.
  intros raddr.
  assert (forall n, interfaces_return gate_mw gate_env (gate_state n) DnsMsg.some_request DnsMsg.some_question raddr None) as Hi
    by (intros n; split; try done; try (intros; by eexists)).
  split.
  - destruct (requests_let_in gate_mw gate_env (gate_state 0) DnsMsg.some_request raddr raddr DnsMsg.some_question [] None () _
      eq_refl eq_refl (Hi 0%nat) eq_refl) as (st' & ef & err & E & [(Hn & _)|(ri & _ & _ & _ & _ & _ & Hw)]).
    + exfalso. apply Hn. split_and!; try done; [by eexists|]. intros _. by exists false, 1%nat.
    + exists st', ef, err. split; [exact E|]. by apply Hw.
  - destruct (requests_let_in gate_mw gate_env (gate_state 9) DnsMsg.some_request raddr raddr DnsMsg.some_question [] None () _
      eq_refl eq_refl (Hi 9%nat) eq_refl) as (st' & ef & err & E & [(_ & Hc & _)|(ri & _ & Hl & _)]).
    + by exists st', ef, err.
    + exfalso. destruct Hl as (_ & _ & _ & _ & _ & _ & Hl). destruct (Hl ltac:(by left)) as (a & s' & [=]).
Defined.
