(* ===== verification/InitialMW.v ===== *)
(** The initial middleware: internal/dnssvc/internal/initial (initial.go,
    specialdomain.go).

    It answers the queries for some special domains itself, and sets the AD bit of
    the requests and the responses that it passes on. *)

From S2P Require Import Prelude GoStd NetIP HumanID DnsMsg Filter FilterConfig Access MsgConfig Agd.

Open Scope Z_scope.

(** [dnsserver.Handler]: the error of a call and the message that it has written,
    if any.  A panic is one of the handler. *)
Definition Handler : Type := RequestInfo -> Msg -> outcome (option error * option Msg).

(** [netutil.IsSubdomain]. *)
Class IsSubdomainFn := IsSubdomain : string -> string -> bool.

(** [s] is below the domain name [top]. *)
Definition below (s top : string) : Prop := exists l, l <> EmptyString /\ s = l +:+ "." +:+ top.

Class IsSubdomainSpec `{IsSubdomainFn} : Prop :=
  is_subdomain_spec s top : IsSubdomain s top = true <-> below s top.

(** ** specialdomain.go *)

Definition ResolverARPADomain : string := "resolver.arpa".
Definition DDRLabel : string := "_dns".
Definition DDRDomain : string := DDRLabel +:+ "." +:+ ResolverARPADomain.
Definition ChromePrefetchHost : string := "dns-tunnel-check.googlezip.net".
Definition FirefoxCanaryHost : string := "use-application-dns.net".
Definition ApplePrivateRelayMaskHost : string := "mask.icloud.com".
Definition ApplePrivateRelayMaskH2Host : string := "mask-h2.icloud.com".
Definition ApplePrivateRelayMaskCanaryHost : string := "mask-canary.icloud.com".

(** A template is an SVCB record. *)
Record SVCBTemplate := { sv_Hdr : RR_Header; sv_Priority : Z; sv_Target : string; sv_Value : list SVCBKeyValue }.

Record DDRConfig := {
  ddr_DeviceTargets : gset string;
  ddr_PublicTargets : gset string;
  ddr_DeviceRecordTemplates : list SVCBTemplate;
  ddr_PublicRecordTemplates : list SVCBTemplate;
  ddr_Enabled : bool;
}.

(** The special handlers. *)
Inductive special :=
  | HandleDDR
  | HandleDDRNoData
  | HandleBadResolverARPA
  | HandlePrivateRelay
  | HandleChromePrefetch
  | HandleFirefoxCanary.

Definition is_address_type (qt : Z) : bool := (qt =? TypeA) || (qt =? TypeAAAA).

Definition shouldBlockChromePrefetch (ri : RequestInfo) : bool :=
  if negb (is_address_type (ri_QType ri)) then false
  else if negb (bool_decide (ri_Host ri = ChromePrefetchHost)) then false
  else match DeviceData ri with
  | Some (prof, _) => BlockChromePrefetch prof
  | None => fg_BlockChromePrefetch (ri_FilteringGroup ri)
  end.

Definition shouldBlockFirefoxCanary (ri : RequestInfo) : bool :=
  if negb (is_address_type (ri_QType ri)) then false
  else if negb (bool_decide (ri_Host ri = FirefoxCanaryHost)) then false
  else match DeviceData ri with
  | Some (prof, _) => BlockFirefoxCanary prof
  | None => fg_BlockFirefoxCanary (ri_FilteringGroup ri)
  end.

Definition relay_hosts : list string :=
  [ApplePrivateRelayMaskHost; ApplePrivateRelayMaskH2Host; ApplePrivateRelayMaskCanaryHost].

Definition shouldBlockPrivateRelay (ri : RequestInfo) : bool :=
  if negb (bool_decide (ri_Host ri ∈ relay_hosts)) then false
  else match DeviceData ri with
  | Some (prof, _) => BlockPrivateRelay prof
  | None => fg_BlockPrivateRelay (ri_FilteringGroup ri)
  end.

Definition specialDomainHandler (ri : RequestInfo) : option special :=
  if shouldBlockPrivateRelay ri then Some HandlePrivateRelay
  else if shouldBlockChromePrefetch ri then Some HandleChromePrefetch
  else if shouldBlockFirefoxCanary ri then Some HandleFirefoxCanary
  else None.

Section initial.
Context `{MiekgDNS} `{IsSubdomainFn} (ddr : DDRConfig).

Definition isDDRDomain (ri : RequestInfo) (host : string) : bool :=
  let '(firstLabel, resolverDomain, cut) := Cut host "." in
  if negb cut || negb (bool_decide (firstLabel = DDRLabel)) then false
  else if bool_decide (resolverDomain ∈ ddr_PublicTargets ddr) then true
  else match DeviceData ri with
  | None => false
  | Some (_, dev) =>
      let '(firstLabel, resolverDomain, cut) := Cut resolverDomain "." in
      if cut && bool_decide (firstLabel = d_ID dev) then bool_decide (resolverDomain ∈ ddr_DeviceTargets ddr)
      else false
  end.

Definition isDDRRequest (ri : RequestInfo) : bool :=
  if negb (ri_QType ri =? TypeSVCB) then false
  else if bool_decide (ri_Host ri = DDRDomain) then true
  else isDDRDomain ri (ri_Host ri).

Definition reqInfoSpecialHandler (ri : RequestInfo) : option special :=
  if negb (ri_QClass ri =? ClassINET) then None
  else if isDDRRequest ri then
    match ri_DeviceResult ri with
    | Some (DeviceResultAuthenticationFailure _) => Some HandleDDRNoData
    | _ =>
        match DeviceData ri with
        | Some (_, dev) =>
            if auth_Enabled (Auth dev) && DoHAuthOnly (Auth dev) then Some HandleDDRNoData else Some HandleDDR
        | None => Some HandleDDR
        end
    end
  else if IsSubdomain (ri_Host ri) ResolverARPADomain then Some HandleBadResolverARPA
  else specialDomainHandler ri.

(** A copy of a template for the name, and with a prefix of the target. *)
Definition ddr_record (name prefix : string) (t : SVCBTemplate) : RR := {|
  rr_Hdr := {| rh_Name := name; rh_Rrtype := rh_Rrtype (sv_Hdr t); rh_Class := rh_Class (sv_Hdr t);
               rh_Ttl := rh_Ttl (sv_Hdr t) |};
  rr_Data := RD_SVCB (sv_Priority t) (prefix +:+ sv_Target t) (sv_Value t);
|}.

Definition newRespDDR (req : Msg) (ri : RequestInfo) : outcome Msg :=
  let resp := NewResp req in
  let! q := index (m_Question req) 0 in
  Ret match DeviceData ri with
      | Some (_, dev) =>
          set_Answer resp (m_Answer resp ++
            (ddr_record (q_Name q) (d_ID dev +:+ ".") <$> ddr_DeviceRecordTemplates ddr))
      | None =>
          set_Answer resp (m_Answer resp ++
            (ddr_record (q_Name q) EmptyString <$> ddr_PublicRecordTemplates ddr))
      end.

(** The handlers: the format by which they annotate an error, and their responses. *)
Definition handleDDR (req : Msg) (ri : RequestInfo) : string * outcome Msg :=
  ("writing ddr resp for %q: %w",
   if ddr_Enabled ddr then newRespDDR req ri else Ret (NewRespRCode (ri_Messages ri) req RcodeNameError))%string.

Definition handleDDRNoData (req : Msg) (ri : RequestInfo) : string * outcome Msg :=
  ("writing ddr resp for %q: %w",
   if ddr_Enabled ddr then Ret (NewRespRCode (ri_Messages ri) req RcodeSuccess)
   else Ret (NewRespRCode (ri_Messages ri) req RcodeNameError))%string.

Definition handleBadResolverARPA (req : Msg) (ri : RequestInfo) : string * outcome Msg :=
  ("writing nodata resp for %q: %w", Ret (NewRespRCode (ri_Messages ri) req RcodeSuccess))%string.

Definition handleChromePrefetch (req : Msg) (ri : RequestInfo) : string * outcome Msg :=
  ("writing chrome prefetch resp: %w", Ret (NewRespRCode (ri_Messages ri) req RcodeNameError))%string.

Definition handleFirefoxCanary (req : Msg) (ri : RequestInfo) : string * outcome Msg :=
  ("writing firefox canary resp: %w", Ret (NewRespRCode (ri_Messages ri) req RcodeRefused))%string.

Definition handlePrivateRelay (req : Msg) (ri : RequestInfo) : string * outcome Msg :=
  ("writing private relay resp: %w", Ret (NewRespRCode (ri_Messages ri) req RcodeNameError))%string.

(** The handler that [reqInfoSpecialHandler] returns. *)
Definition run_special (h : special) : Msg -> RequestInfo -> string * outcome Msg :=
  match h with
  | HandleDDR => handleDDR
  | HandleDDRNoData => handleDDRNoData
  | HandleBadResolverARPA => handleBadResolverARPA
  | HandlePrivateRelay => handlePrivateRelay
  | HandleChromePrefetch => handleChromePrefetch
  | HandleFirefoxCanary => handleFirefoxCanary
  end.

(** ** initial.go *)

(** [werr] is the error of the response writer.  The deferred function annotates
    every error. *)
Definition init_ServeDNS (next : Handler) (werr : option error) : Handler := fun ri req =>
  let reqAD := m_AuthenticatedData req in
  let reqDO := IsDO req in
  let req := set_AuthenticatedData req true in
  let! r :=
    match reqInfoSpecialHandler ri with
    | Some h =>
        let '(format, r) := run_special h req ri in
        let! resp := r in Ret (wrap_opt format werr, Some resp)
    | None =>
        let! n := next ri req in
        match n with
        | (Some err, _) => Ret (Some err, None)
        | (None, None) => Panic "nil pointer dereference"
        | (None, Some resp) =>
            Ret (wrap_opt "writing resp: %w" werr,
                 Some (set_AuthenticatedData resp (m_AuthenticatedData resp && (reqAD || reqDO))))
        end
    end in
  Ret (wrap_opt "init mw: %w" r.1, r.2).

End initial.

(** * Facts *)

Section facts.
Context `{MiekgDNS} `{!MiekgDNSSpec} `{IsSubdomainFn} `{!IsSubdomainSpec} (ddr : DDRConfig).

(** ** The AD bit *)

(** The AD bit, by RFC 6840.  A request that is passed on has its AD bit set, and
    is otherwise the request of the client; the response is that of the next
    handler, except that its AD bit is cleared if the client has set neither the
    AD bit nor the DO bit. *)
Theorem AD_bit next ri req up :
  reqInfoSpecialHandler ddr ri = None ->
  next ri (set_AuthenticatedData req true) = Ret (None, Some up) ->
  exists resp, init_ServeDNS ddr next None ri req = Ret (None, Some resp) /\
    (m_AuthenticatedData resp = true <->
       m_AuthenticatedData up = true /\ (m_AuthenticatedData req = true \/ IsDO req = true)) /\
    set_AuthenticatedData resp (m_AuthenticatedData up) = up.
Proof.
  intros Hs Hn. unfold init_ServeDNS. rewrite Hs, Hn. eexists. split; [done|]. simpl.
  rewrite andb_true_iff, orb_true_iff. split; [done|]. by destruct up.
Qed.

(** ** Special domains *)

(** A setting of the profile, or of the filtering group if there is none. *)
Definition setting (f : Profile -> bool) (g : FilteringGroup -> bool) (ri : RequestInfo) : bool :=
  match DeviceData ri with Some (p, _) => f p | None => g (ri_FilteringGroup ri) end.

(** The hosts that browsers and systems use to check whether they may bypass the
    server, with the code of the response that forbids it. *)
Definition bypass_query (ri : RequestInfo) (rcode : Z) : Prop :=
  (ri_Host ri ∈ relay_hosts /\ rcode = RcodeNameError /\
     setting BlockPrivateRelay fg_BlockPrivateRelay ri = true) \/
  (ri_Host ri = ChromePrefetchHost /\ is_address_type (ri_QType ri) = true /\ rcode = RcodeNameError /\
     setting BlockChromePrefetch fg_BlockChromePrefetch ri = true) \/
  (ri_Host ri = FirefoxCanaryHost /\ is_address_type (ri_QType ri) = true /\ rcode = RcodeRefused /\
     setting BlockFirefoxCanary fg_BlockFirefoxCanary ri = true).

(** The names by which a client discovers the resolver. *)
Definition ddr_name (ri : RequestInfo) : Prop :=
  ri_Host ri = DDRDomain \/
  (exists t, t ∈ ddr_PublicTargets ddr /\ ri_Host ri = DDRLabel +:+ "." +:+ t) \/
  (exists p d t, DeviceData ri = Some (p, d) /\ t ∈ ddr_DeviceTargets ddr /\
     ri_Host ri = DDRLabel +:+ "." +:+ d_ID d +:+ "." +:+ t).

(** A client that may not be told how to reach the resolver by other protocols: one
    that has failed to authenticate, or a device that may only use DNS-over-HTTPS
    with authentication. *)
Definition undisclosed (ri : RequestInfo) : Prop :=
  (exists err, ri_DeviceResult ri = Some (DeviceResultAuthenticationFailure err)) \/
  (exists p d, DeviceData ri = Some (p, d) /\ auth_Enabled (Auth d) = true /\ DoHAuthOnly (Auth d) = true).

(** A label has no dots. *)
Definition dotless (s : string) : Prop := CountByte s "." = 0%nat.

Lemma Cut_dot s : match Cut s "." with
  | (a, b, true) => s = a +:+ "." +:+ b /\ dotless a
  | (_, _, false) => forall a b, dotless a -> s <> a +:+ "." +:+ b
  end.
Proof.
  destruct (Cut s ".") as [[a b] []] eqn:E; [by apply Cut_byte_inv in E|].
  intros a' b' Ha ->. change ("." +:+ b') with (String "." b') in E. by rewrite (Cut_byte a' b' ".") in E.
Qed.

Lemma dot_inj a b a' b' : dotless a -> dotless a' -> a +:+ "." +:+ b = a' +:+ "." +:+ b' -> a = a' /\ b = b'.
Proof.
  intros Ha Ha' E. pose proof (Cut_byte a b "." Ha) as E1. pose proof (Cut_byte a' b' "." Ha') as E2.
  change (String "." b) with ("." +:+ b) in E1. change (String "." b') with ("." +:+ b') in E2. rewrite E in E1. split; congruence.
Qed.

Lemma dotless_DDRLabel : dotless DDRLabel.
Proof. done. Qed.

Lemma isDDRDomain_spec ri host : (forall p d, DeviceData ri = Some (p, d) -> dotless (d_ID d)) ->
  isDDRDomain ddr ri host = true <->
  (exists t, t ∈ ddr_PublicTargets ddr /\ host = DDRLabel +:+ "." +:+ t) \/
  (exists p d t, DeviceData ri = Some (p, d) /\ t ∈ ddr_DeviceTargets ddr /\
     host = DDRLabel +:+ "." +:+ d_ID d +:+ "." +:+ t).
Proof.
  intros Hd. unfold isDDRDomain. pose proof (Cut_dot host) as Hc. destruct (Cut host ".") as [[l r] []]; simpl.
  2:{ split; [done|]. intros [(t & _ & E)|(p & d & t & _ & _ & E)]; by destruct (Hc _ _ dotless_DDRLabel E). }
  destruct Hc as [-> Hl]. case_bool_decide as E1; simpl.
  2:{ split; [done|]. intros [(t & _ & E)|(p & d & t & _ & _ & E)];
      destruct (dot_inj _ _ _ _ Hl dotless_DDRLabel E); congruence. }
  subst l. case_bool_decide as E2; [naive_solver|].
  assert (forall t, DDRLabel +:+ "." +:+ r = DDRLabel +:+ "." +:+ t -> r = t) as Hr.
  { intros t E. by destruct (dot_inj _ _ _ _ dotless_DDRLabel dotless_DDRLabel E). }
  destruct (DeviceData ri) as [[p d]|] eqn:Ed.
  2:{ split; [done|]. intros [(t & Ht & E%Hr)|(? & ? & ? & ? & _)]; by subst. }
  specialize (Hd p d eq_refl). pose proof (Cut_dot r) as Hc'. destruct (Cut r ".") as [[l' r'] []]; simpl.
  2:{ split; [done|]. intros [(t & Ht & E%Hr)|(? & ? & t & [= <- <-] & _ & E%Hr)]; [by subst|].
      by destruct (Hc' _ _ Hd E). }
  destruct Hc' as [-> Hl']. case_bool_decide as E3.
  - subst l'. rewrite bool_decide_eq_true. split; [intros Ht; right; by exists p, d, r'|].
    intros [(t & Ht & E%Hr)|(? & ? & t & [= <- <-] & Ht & E%Hr)]; [by subst|].
    by destruct (dot_inj _ _ _ _ Hd Hd E) as [_ ->].
  - split; [done|]. intros [(t & Ht & E%Hr)|(? & ? & t & [= <- <-] & Ht & E%Hr)]; [by subst|].
    by destruct (dot_inj _ _ _ _ Hl' Hd E).
Qed.

Lemma isDDRRequest_spec ri : (forall p d, DeviceData ri = Some (p, d) -> dotless (d_ID d)) ->
  isDDRRequest ddr ri = true <-> ri_QType ri = TypeSVCB /\ ddr_name ri.
Proof.
  intros Hd. unfold isDDRRequest, ddr_name. destruct (Z.eqb_spec (ri_QType ri) TypeSVCB); simpl; [|naive_solver].
  case_bool_decide; [naive_solver|]. rewrite (isDDRDomain_spec ri (ri_Host ri) Hd). naive_solver.
Qed.

(** What the initial middleware answers itself, for the handler [h]. *)
Definition special_of (ri : RequestInfo) (h : option special) : Prop :=
  match h with
  | Some HandleDDR => ri_QType ri = TypeSVCB /\ ddr_name ri /\ ~ undisclosed ri
  | Some HandleDDRNoData => ri_QType ri = TypeSVCB /\ ddr_name ri /\ undisclosed ri
  | Some HandleBadResolverARPA => below (ri_Host ri) ResolverARPADomain /\ ~ (ri_QType ri = TypeSVCB /\ ddr_name ri)
  | Some HandleFirefoxCanary => bypass_query ri RcodeRefused
  | Some _ => bypass_query ri RcodeNameError
  | None => ri_QClass ri <> ClassINET \/
      (~ (ri_QType ri = TypeSVCB /\ ddr_name ri) /\ ~ below (ri_Host ri) ResolverARPADomain /\
       forall rc, ~ bypass_query ri rc)
  end.

Lemma specialDomainHandler_spec ri :
  match specialDomainHandler ri with
  | Some HandleFirefoxCanary => bypass_query ri RcodeRefused
  | Some (HandlePrivateRelay | HandleChromePrefetch) => bypass_query ri RcodeNameError
  | Some _ => False
  | None => forall rc, ~ bypass_query ri rc
  end.
Proof.
  unfold specialDomainHandler, shouldBlockPrivateRelay, shouldBlockChromePrefetch, shouldBlockFirefoxCanary,
    bypass_query, setting.
  destruct (is_address_type (ri_QType ri)); repeat case_bool_decide; simpl;
    try (destruct (DeviceData ri) as [[p d]|]; repeat case_match; simplify_eq; naive_solver);
    naive_solver.
Qed.

Lemma reqInfoSpecialHandler_spec ri : (forall p d, DeviceData ri = Some (p, d) -> dotless (d_ID d)) ->
  special_of ri (reqInfoSpecialHandler ddr ri).
Proof.
  intros Hd. unfold reqInfoSpecialHandler. destruct (Z.eqb_spec (ri_QClass ri) ClassINET); simpl; [|by left].
  pose proof (isDDRRequest_spec ri Hd) as Hr. destruct (isDDRRequest ddr ri).
  - destruct Hr as [Hr _]. destruct (Hr eq_refl) as [Ht Hn].
    assert (undisclosed ri <-> match ri_DeviceResult ri with
      | Some (DeviceResultAuthenticationFailure _) => True
      | Some (DeviceResultOK d _) => auth_Enabled (Auth d) && DoHAuthOnly (Auth d) = true
      | _ => False end) as Hu.
    { unfold undisclosed, DeviceData. destruct (ri_DeviceResult ri) as [[err| |d p|]|]; rewrite ?andb_true_iff; naive_solver. }
    unfold DeviceData. destruct (ri_DeviceResult ri) as [[err| |d p|]|]; simpl; rewrite ?Hu; try tauto.
    destruct (_ && _); simpl; rewrite Hu; naive_solver.
  - assert (~ (ri_QType ri = TypeSVCB /\ ddr_name ri)) as Hr' by (rewrite <- Hr; done).
    pose proof (is_subdomain_spec (ri_Host ri) ResolverARPADomain) as Hs.
    destruct (IsSubdomain _ _); [split; [by apply Hs|done]|].
    pose proof (specialDomainHandler_spec ri) as Hsp. destruct (specialDomainHandler ri) as [[]|]; try done.
    right. split_and!; [done| |done]. intros Hb. by apply Hs in Hb.
Qed.

(** A response without records in the answer section. *)
Definition no_data (m : Msg) (rcode : Z) : Prop := m_Rcode m = rcode /\ m_Answer m = [].

Lemma NewRespRCode_no_data c req rc : no_data (NewRespRCode c req rc) rc.
Proof. split; [done|]. unfold NewRespRCode, NewResp. simpl. by rewrite reply_Answer. Qed.

(** The designated resolvers that a client is told: under the name that it has
    asked for, and, for a device, under targets with its own ID. *)
Definition designated (ri : RequestInfo) (q : Question) : list RR :=
  match DeviceData ri with
  | Some (_, dev) => ddr_record (q_Name q) (d_ID dev +:+ ".") <$> ddr_DeviceRecordTemplates ddr
  | None => ddr_record (q_Name q) EmptyString <$> ddr_PublicRecordTemplates ddr
  end.

(** Special domains, for any next handler, which they do not reach.  A query for
    the designated resolvers gets them, with the ID of no other device, unless the
    feature is off or the client may not be told, and then it gets no records;
    every other query under resolver.arpa gets no records; the hosts by which
    browsers and systems check whether they may bypass the server are answered
    with the code that forbids it exactly if the profile, or else the filtering
    group, says so.  All other queries, and those of other classes, are passed
    on. *)
Theorem special_domains next ri req q qs :
  m_Question req = q :: qs -> (forall p d, DeviceData ri = Some (p, d) -> dotless (d_ID d)) ->
  special_of ri None /\
    init_ServeDNS ddr next None ri req =
      (let! n := next ri (set_AuthenticatedData req true) in
       match n with
       | (Some err, _) => Ret (Some (ErrWrap "init mw: %w" err), None)
       | (None, None) => Panic "nil pointer dereference"
       | (None, Some resp) =>
           Ret (None, Some (set_AuthenticatedData resp
             (m_AuthenticatedData resp && (m_AuthenticatedData req || IsDO req))))
       end) \/
  ri_QClass ri = ClassINET /\ exists m, init_ServeDNS ddr next None ri req = Ret (None, Some m) /\
    ((ri_QType ri = TypeSVCB /\ ddr_name ri /\
        (if ddr_Enabled ddr then m_Rcode m = RcodeSuccess /\
           (undisclosed ri /\ m_Answer m = [] \/ ~ undisclosed ri /\ m_Answer m = designated ri q)
         else no_data m RcodeNameError)) \/
     (below (ri_Host ri) ResolverARPADomain /\ ~ (ri_QType ri = TypeSVCB /\ ddr_name ri) /\ no_data m RcodeSuccess) \/
     (exists rc, bypass_query ri rc /\ no_data m rc)).
Proof.
  intros Hq Hd. pose proof (reqInfoSpecialHandler_spec ri Hd) as Hs. unfold init_ServeDNS.
  assert (reqInfoSpecialHandler ddr ri <> None -> ri_QClass ri = ClassINET) as Hcl.
  { unfold reqInfoSpecialHandler. by destruct (Z.eqb_spec (ri_QClass ri) ClassINET). }
  destruct (reqInfoSpecialHandler ddr ri) as [h|] eqn:Eh.
  2:{ left. split; [exact Hs|]. destruct (next ri _) as [[[e|] [m|]]|]; done. }
  right. split; [by apply Hcl|].
  pose proof (fun rc => NewRespRCode_no_data (ri_Messages ri) (set_AuthenticatedData req true) rc) as Hnd.
  destruct h; simpl in *; try (eexists; split; [done|]; eauto 6).
  - unfold newRespDDR, designated. simpl. rewrite (index_0 _ _ _ Hq). simpl.
    destruct Hs as (Ht & Hn & Hu), (ddr_Enabled ddr); simpl; (eexists; split; [done|]); left.
    + destruct (DeviceData ri) as [[p d]|]; (split_and!; [done..| |right; split; [done|]]); simpl;
        unfold NewResp; by rewrite ?reply_Rcode, ?reply_Answer.
    + split_and!; [done..|]. apply Hnd.
  - destruct Hs as (Ht & Hn & Hu), (Hnd RcodeSuccess), (Hnd RcodeNameError), (ddr_Enabled ddr); simpl;
      (eexists; split; [done|]); left; (split; [done|]); (split; [done|]); [split; [done|]; by left|by split].
  - right. left. destruct Hs. split_and!; [done..|]. apply Hnd.
Qed.

End facts.

(** ** Concrete inputs *)

#[local] Existing Instance ref_miekg.
#[local] Existing Instance ref_miekg_spec.

#[local] Instance ref_subdomain_fn : IsSubdomainFn := fun s top =>
  HasSuffix s ("." +:+ top) && negb (bool_decide (s = "." +:+ top)).

#[local] Instance ref_subdomain_spec : IsSubdomainSpec.
Proof.
  intros s top. unfold IsSubdomain, ref_subdomain_fn, below.
  rewrite andb_true_iff, HasSuffix_spec, negb_true_iff, bool_decide_eq_false. split.
  - intros [[l ->] Hne]. exists l. split; [|done]. by intros ->.
  - intros (l & Hl & ->). split; [by exists l|]. intros E. apply Hl.
    assert (String.length (l +:+ "." +:+ top) = String.length ("." +:+ top)) as E' by (by rewrite E).
    rewrite (length_append l) in E'. destruct l; [done|]. simpl in E'. lia.
Qed.

Definition some_ddr : DDRConfig := {|
  ddr_DeviceTargets := {["d.dns.example"%string]}; ddr_PublicTargets := {["dns.example"%string]};
  ddr_DeviceRecordTemplates :=
    [{| sv_Hdr := {| rh_Name := ""; rh_Rrtype := TypeSVCB; rh_Class := ClassINET; rh_Ttl := 60 |}; sv_Priority := 1;
        sv_Target := "d.dns.example."; sv_Value := [SVCBPort 853] |}];
  ddr_PublicRecordTemplates := []; ddr_Enabled := true;
|}.

Definition svcb_question (name : string) : Question :=
  {| q_Name := name; q_Qtype := TypeSVCB; q_Qclass := ClassINET |}.

(** A request for the DDR name by a device, which may be one that only uses
    DNS-over-HTTPS. *)
Definition ddr_ri (dohOnly : bool) (host : string) : RequestInfo := {|
  ri_DeviceResult := Some (DeviceResultOK
    {| Auth := {| PasswordHash := AllowAuthenticator; auth_Enabled := dohOnly; DoHAuthOnly := dohOnly |};
       d_ID := "dev1"; LinkedIP := AddrZero; d_Name := "phone"; HumanIDLower := EmptyString; DedicatedIPs := [];
       d_FilteringEnabled := true |}
    {| CustomDomains := {| cd_Domains := []; cd_Enabled := false |}; DeviceIDs := {["dev1"%string]};
       p_FilterConfig := unfiltered_config; p_Access := None; AdultBlockingMode := None;
       p_BlockingMode := BlockingModeREFUSED; SafeBrowsingBlockingMode := None; p_Ratelimiter := GlobalRatelimiter;
       p_ID := "prof1"; FilteredResponseTTL := 10; AccountID := 1; AutoDevicesEnabled := false;
       BlockChromePrefetch := false; BlockFirefoxCanary := false; BlockPrivateRelay := false; Deleted := false;
       p_FilteringEnabled := true; IPLogEnabled := false; QueryLogEnabled := true; QueryLogStream := false |});
  ri_Location := None; ri_ECS := None;
  ri_FilteringGroup := {|
    fg_FilterConfig := {| cfg_Parental := cfc_Parental unfiltered_config; cfg_RuleList := cfc_RuleList unfiltered_config;
                          cfg_SafeBrowsing := cfc_SafeBrowsing unfiltered_config |};
    fg_ID := "default"; fg_BlockChromePrefetch := false; fg_BlockFirefoxCanary := false; fg_BlockPrivateRelay := false |};
  ri_Messages := some_constructor;
  ri_ServerInfo := {| rsi_GroupName := "group"; rsi_Name := "srv"; rsi_DeviceDomains := []; rsi_Protocol := ProtoDNS;
                      rsi_ProfilesEnabled := true |};
  ri_RemoteIP := Addr4 1; ri_Host := host; ri_QType := TypeSVCB; ri_QClass := ClassINET;
|}.

Definition ddr_request : Msg := set_Question some_request [svcb_question "_dns.dev1.d.dns.example."].

Definition no_next : Handler := fun _ _ => Panic "called".

(** The device is told of the resolver under its own ID, unless it may only use
    DNS-over-HTTPS. *)
Lemma special_domains_witness :
  (exists m, init_ServeDNS some_ddr no_next None (ddr_ri false "_dns.dev1.d.dns.example") ddr_request = Ret (None, Some m) /\
     length (m_Answer m) = 1%nat) /\
  (exists m, init_ServeDNS some_ddr no_next None (ddr_ri true "_dns.dev1.d.dns.example") ddr_request = Ret (None, Some m) /\
     m_Answer m = []).
Proof.
  assert (forall b host p d, DeviceData (ddr_ri b host) = Some (p, d) -> dotless (d_ID d)) as Hd
    by (intros b host p d [= <- <-]; reflexivity).
  split.
  - destruct (special_domains some_ddr no_next (ddr_ri false "_dns.dev1.d.dns.example") ddr_request
      (svcb_question "_dns.dev1.d.dns.example.") [] eq_refl (Hd _ _)) as [[_ E]|(_ & m & E & Hm)];
      [vm_compute in E; discriminate|].
    exists m. split; [exact E|]. vm_compute in E. injection E as <-. reflexivity.
  - destruct (special_domains some_ddr no_next (ddr_ri true "_dns.dev1.d.dns.example") ddr_request
      (svcb_question "_dns.dev1.d.dns.example.") [] eq_refl (Hd _ _)) as [[_ E]|(_ & m & E & Hm)];
      [vm_compute in E; discriminate|].
    exists m. split; [exact E|]. vm_compute in E. injection E as <-. reflexivity.
Defined.

(** A request without EDNS. *)
Definition plain_request : Msg := set_AuthenticatedData (set_Extra some_request []) false.

(** The AD bit of a response is cleared for a client that has not asked for it. *)
Lemma AD_bit_witness :
  let next : Handler := fun _ req => Ret (None, Some (set_AuthenticatedData (NewResp req) true)) in
  exists resp, init_ServeDNS some_ddr next None (ddr_ri false "www.example") plain_request = Ret (None, Some resp) /\
    m_AuthenticatedData resp = false.
Proof.
  intros next.
  destruct (AD_bit some_ddr next (ddr_ri false "www.example") plain_request
    (set_AuthenticatedData (NewResp (set_AuthenticatedData plain_request true)) true)) as (resp & E & Had & _).
  - reflexivity.
  - reflexivity.
  - exists resp. split; [exact E|]. destruct (m_AuthenticatedData resp); [|reflexivity].
    destruct Had as [Had _]. destruct (Had eq_refl) as [_ [Hf|Hf]]; vm_compute in Hf; discriminate.
Defined.
