(* ===== verification/PreMW.v ===== *)
(** The middlewares before the main one and before the upstreams:
    internal/dnssvc/internal/preservice and internal/dnssvc/internal/preupstream.

    The first one answers the queries for hash prefixes and the DNS checks; the
    second one records anonymous statistics, and replaces the random names of the
    Android metric domains. *)

From S2P Require Import Prelude GoStd NetIP HumanID HashPrefix DnsMsg Filter FilterConfig Access MsgConfig Agd InitialMW.

Open Scope Z_scope.

(** ** preservice.go *)

Section preservice.
Context `{MiekgDNS} (messages : Constructor).

(** The hash matcher and the DNS check. *)
Context (matcher : string -> outcome (result error (list string * bool))).
Context (checker : Msg -> RequestInfo -> outcome (result error (option Msg))).

Definition respondWithHashes (next : Handler) (werr : option error) (ri : RequestInfo) (req : Msg)
    : outcome (option error * option Msg) :=
  let! r := matcher (ri_Host ri) in
  match r with
  | Err _ => Ret (wrap_opt "writing refused response: %w" werr, Some (NewRespRCode messages req RcodeRefused))
  | Ok (_, false) => next ri req
  | Ok (hashes, true) =>
      let! resp := NewRespTXT messages req hashes in
      Ret match resp with
          | Err err => (Some (ErrWrap "creating safe browsing result: %w" err), None)
          | Ok resp => (wrap_opt "writing safe browsing response: %w" werr, Some resp)
          end
  end.

(** [werr] is the error of the response writer. *)
Definition presvc_ServeDNS (next : Handler) (werr : option error) : Handler := fun ri req =>
  let! r :=
    if ri_QType ri =? TypeTXT then respondWithHashes next werr ri req
    else
      let! c := checker req ri in
      match c with
      | Err err => Ret (Some (ErrWrap "calling dnscheck: %w" err), None)
      | Ok None => next ri req
      | Ok (Some resp) => Ret (wrap_opt "writing dnscheck response: %w" werr, Some resp)
      end in
  Ret (wrap_opt "presvcmw: %w" r.1, r.2).

End preservice.

(** ** preupstream.go *)

Section preupstream.
Context `{MiekgDNS} `{UnicodeCase}.

Definition rename (name : string) (rr : RR) : RR :=
  if bool_decide (AndroidMetricDomainReplacement (rh_Name (rr_Hdr rr)) = EmptyString) then rr
  else {| rr_Hdr := {| rh_Name := name; rh_Rrtype := rh_Rrtype (rr_Hdr rr); rh_Class := rh_Class (rr_Hdr rr);
                       rh_Ttl := rh_Ttl (rr_Hdr rr) |};
          rr_Data := rr_Data rr |}.

Definition replaceResp (name : string) (resp : Msg) : Msg := set_Answer resp (rename name <$> m_Answer resp).

(** The last result is what is given to the DNS database. *)
Definition serveAndroidMetric (next : Handler) (werr : option error) (ri : RequestInfo) (origReq : Msg)
    (replName : string) : outcome (option error * option Msg) :=
  let! q := index (m_Question origReq) 0 in
  let! qs := set_index (m_Question origReq) 0 {| q_Name := replName; q_Qtype := q_Qtype q; q_Qclass := q_Qclass q |} in
  let! n := next ri (set_Question origReq qs) in
  match n with
  | (Some err, _) => Ret (Some (ErrWrap "android metrics: %w" err), None)
  | (None, None) => Panic "nil pointer dereference"
  | (None, Some resp) =>
      Ret (wrap_opt "android metrics: %w" (wrap_opt "writing response: %w" werr),
           Some (replaceResp (q_Name q) (SetReply resp origReq)))
  end.

(** The last result is what is given to the DNS database. *)
Definition preup_ServeDNS (next : Handler) (werr : option error) (ri : RequestInfo) (req : Msg)
    : outcome (option error * option Msg * list (option Msg * RequestInfo)) :=
  let! q := index (m_Question req) 0 in
  let rn := AndroidMetricDomainReplacement (q_Name q) in
  let! r :=
    if negb (bool_decide (rn = EmptyString)) then
      let! r := serveAndroidMetric next werr ri req rn in Ret (r, [])
    else
      let! n := next ri req in
      Ret match n with
          | (Some err, _) => (Some err, None, [])
          | (None, resp) => (wrap_opt "writing response: %w" werr, resp, [(resp, ri)])
          end in
  Ret (wrap_opt "preupstreammw: %w" r.1.1, r.1.2, r.2).

End preupstream.

(** * Facts *)

(** ** Queries for hash prefixes *)

Section hashes.
Context `{Sha256} `{!Sha256Spec} `{MiekgDNS} `{!MiekgDNSSpec} (messages : Constructor).

Lemma Hashes_len suffix s' rest host hs : storage_ok s' ->
  MatchByPrefix ((suffix, s') :: rest) (host +:+ suffix) = Ret (Ok (hs, true)) ->
  existsb (fun s => MaxTXTStringLen <? len s) hs = false.
Proof.
  intros Hok. simpl. assert (HasSuffix (host +:+ suffix) suffix = true) as -> by (apply HasSuffix_spec; eauto).
  destruct (prefixesFromStr _) as [l|]; [|done]. rewrite Hashes_eq by done. intros [= <-].
  apply existsb_elem_false. intros h Hh. apply Z.ltb_ge. unfold hashes_spec in Hh.
  apply list_elem_of_bind in Hh as (p & Hh & Hp). apply list_elem_of_fmap in Hh as (suf & -> & Hsuf).
  destruct (hashSuffixes s' !! p) as [sufs|] eqn:E; [|by apply elem_of_nil in Hsuf].
  destruct (Hok _ _ _ E Hsuf) as [Hlp Hls]. unfold len, MaxTXTStringLen.
  rewrite length_hex_encode, length_append, Hlp, Hls. unfold PrefixLen, suffixLen, hashLen, PrefixLen. simpl. lia.
Qed.

(** A TXT query for a hash prefix under the suffix of a storage.  It is not passed
    on, and its answer is one record with the hashes of exactly those hosts of the
    list whose hash starts with the prefix; so a client learns whether its host is
    listed without naming it. *)
Theorem hash_query_answer checker next ri req q qs suffix s data n s' rest lines p :
  Reset s data = (Ok n, s') -> scan_lines data = Ok lines -> String.length p = PrefixLen ->
  m_Question req = q :: qs -> q_Qtype q = TypeTXT -> ri_QType ri = TypeTXT -> ri_Host ri = hex_encode p +:+ suffix ->
  exists resp hs, presvc_ServeDNS messages (MatchByPrefix ((suffix, s') :: rest)) checker next None ri req =
      Ret (None, Some resp) /\
    m_Rcode resp = RcodeSuccess /\ (rr_Data <$> m_Answer resp) = [RD_TXT hs] /\
    forall h, h ∈ hs <-> exists host, host ∈ hosts lines /\ pref_of (Sum256 host) = p /\ h = hex_encode (Sum256 host).
Proof.
  intros Hr Hs Hp Hq Ht Hri Hh. destruct (query_exact suffix s data n s' rest lines p Hr Hs Hp) as (hs & E & Hhs).
  pose proof (Hashes_len suffix s' rest (hex_encode p) hs (Reset_ok_storage _ _ _ _ Hr) E) as Hl.
  unfold presvc_ServeDNS, respondWithHashes. rewrite Hri, Hh, E. cbn [Z.eqb TypeTXT Pos.eqb outcome_bind].
  unfold NewRespTXT, NewAnswerTXT, with_hdr, newHdr. rewrite (index_0 _ _ _ Hq). simpl. rewrite Ht, Hl. simpl.
  eexists _, hs. split; [done|]. split_and!; simpl; [unfold NewResp; by rewrite reply_Rcode| |done].
  unfold NewResp. by rewrite reply_Answer.
Qed.

End hashes.

(** ** Android metric domains *)

Section android.
Context `{MiekgDNS} `{!MiekgDNSSpec} `{UnicodeCase}.

(** The names that are resolved for all metric domains. *)
Definition metric_name (rn : string) : Prop :=
  rn = "000000-dnsohttps-ds.metric.gstatic.com."%string \/ rn = "00000000-dnsotls-ds.metric.gstatic.com."%string.

Lemma replacement_name name : AndroidMetricDomainReplacement name <> EmptyString ->
  metric_name (AndroidMetricDomainReplacement name).
Proof. unfold AndroidMetricDomainReplacement, metric_name. repeat case_if; simpl; tauto. Qed.

(** The replacement names are their own replacements, so that a response that is
    cached under one is found again. *)
Lemma replacement_fixed rn : metric_name rn -> AndroidMetricDomainReplacement rn = rn.
Proof. by intros [-> | ->]; vm_compute. Qed.

(** A query for an Android metric domain.  The next handler is only asked for one
    of two fixed names, and its answer is given for the name that the client has
    asked for: the ID and the question are those of the request, the records keep
    their data, and those of a metric name get the client's name.  Nothing is
    recorded. *)
Theorem android_metric_answer next ri req q qs up :
  m_Question req = q :: qs -> AndroidMetricDomainReplacement (q_Name q) <> EmptyString ->
  let rn := AndroidMetricDomainReplacement (q_Name q) in
  let req' := set_Question req ({| q_Name := rn; q_Qtype := q_Qtype q; q_Qclass := q_Qclass q |} :: qs) in
  next ri req' = Ret (None, Some up) ->
  exists resp, preup_ServeDNS next None ri req = Ret (None, Some resp, []) /\ metric_name rn /\
    m_Id resp = m_Id req /\ m_Question resp = [q] /\
    rr_Data <$> m_Answer resp = rr_Data <$> m_Answer up /\
    forall i rr, m_Answer up !! i = Some rr -> exists rr', m_Answer resp !! i = Some rr' /\
      rh_Name (rr_Hdr rr') =
        if bool_decide (AndroidMetricDomainReplacement (rh_Name (rr_Hdr rr)) = EmptyString)
        then rh_Name (rr_Hdr rr) else q_Name q.
Proof.
  intros Hq Hrn rn req' Hn. unfold preup_ServeDNS, serveAndroidMetric. rewrite (index_0 _ _ _ Hq). simpl.
  rewrite bool_decide_eq_false_2 by done. rewrite Hq. simpl. unfold req', rn in Hn. rewrite Hn. simpl.
  eexists. split; [done|]. split; [by apply replacement_name|]. simpl. rewrite reply_Id, reply_Answer.
  split; [done|]. split; [destruct (reply_Question up req) as [-> | [E _]]; rewrite ?Hq in *; done|]. split.
  - rewrite <- list_fmap_compose. apply list_fmap_ext. intros i rr _. unfold compose, rename. by case_bool_decide.
  - intros i rr Hi. rewrite list_lookup_fmap, Hi. simpl. eexists. split; [done|]. unfold rename. by case_bool_decide.
Qed.

(** The response code is lost: [SetReply] resets it, so that a failure of the
    upstream is reported as a success without records. *)
Theorem android_rcode_lost next ri req q qs up :
  m_Question req = q :: qs -> AndroidMetricDomainReplacement (q_Name q) <> EmptyString ->
  (forall req', next ri req' = Ret (None, Some up)) -> m_Rcode up = RcodeServerFailure ->
  exists resp, preup_ServeDNS next None ri req = Ret (None, Some resp, []) /\ m_Rcode resp = RcodeSuccess.
Proof.
  intros Hq Hrn Hn _. unfold preup_ServeDNS, serveAndroidMetric. rewrite (index_0 _ _ _ Hq). simpl.
  rewrite bool_decide_eq_false_2 by done. rewrite Hq. simpl. rewrite Hn. simpl.
  eexists. split; [done|]. simpl. apply reply_Rcode.
Qed.

End android.

(** ** Concrete inputs *)

#[local] Existing Instance ref_miekg.
#[local] Existing Instance ref_miekg_spec.
#[local] Existing Instance ref_unicode.
#[local] Existing Instance toy_sha256.
#[local] Existing Instance toy_sha256_spec.

Definition txt_ri (host : string) : RequestInfo := {|
  ri_DeviceResult := None; ri_Location := None; ri_ECS := None;
  ri_FilteringGroup := ri_FilteringGroup (ddr_ri false host); ri_Messages := some_constructor;
  ri_ServerInfo := ri_ServerInfo (ddr_ri false host);
  ri_RemoteIP := Addr4 1; ri_Host := host; ri_QType := TypeTXT; ri_QClass := ClassINET;
|}.

Lemma hash_query_answer_witness :
  let req := set_Question some_request
    [{| q_Name := "6261.sb.example."; q_Qtype := TypeTXT; q_Qclass := ClassINET |}] in
  exists resp hs, presvc_ServeDNS some_constructor (MatchByPrefix [(".sb.example"%string, toy_storage)])
      (fun _ _ => Ret (Ok None)) no_next None (txt_ri "6261.sb.example") req = Ret (None, Some resp) /\
    (rr_Data <$> m_Answer resp) = [RD_TXT hs] /\ hex_encode (Sum256 "bad.example") ∈ hs.
Proof.
  intros req.
  destruct (scan_lines toy_data) as [lines|] eqn:El; [|by vm_compute in El].
  destruct (hash_query_answer some_constructor (fun _ _ => Ret (Ok None)) no_next (txt_ri "6261.sb.example") req
    {| q_Name := "6261.sb.example."; q_Qtype := TypeTXT; q_Qclass := ClassINET |} [] ".sb.example" _ _ _ _ [] lines "ba"
    toy_reset El eq_refl eq_refl eq_refl eq_refl eq_refl) as (resp & hs & E & _ & Ha & Hh).
  exists resp, hs. split; [exact E|]. split; [exact Ha|]. apply Hh. exists "bad.example"%string.
  vm_compute in El. injection El as <-. split; [by left|]. split; reflexivity.
Defined.

Definition metric_question : Question :=
  {| q_Name := "93f8a1-dnsotls-ds.metric.gstatic.com."; q_Qtype := TypeA; q_Qclass := ClassINET |}.
Definition metric_request : Msg := set_Question some_request [metric_question].

(** An upstream that answers with an address of the name that it is asked for. *)
Definition echo_next : Handler := fun ri req =>
  Ret (None, Some (set_Answer (NewResp req)
    ((fun q => {| rr_Hdr := {| rh_Name := q_Name q; rh_Rrtype := TypeA; rh_Class := ClassINET; rh_Ttl := 10 |};
                  rr_Data := RD_A (Addr4 7) |}) <$> m_Question req))).

Lemma android_metric_answer_witness :
  exists resp, preup_ServeDNS echo_next None (txt_ri "host") metric_request = Ret (None, Some resp, []) /\
    m_Question resp = [metric_question].
Proof.
  destruct (android_metric_answer echo_next (txt_ri "host") metric_request metric_question []
    (set_Answer (NewResp (set_Question some_request [{| q_Name := "00000000-dnsotls-ds.metric.gstatic.com.";
                                                        q_Qtype := TypeA; q_Qclass := ClassINET |}]))
       [{| rr_Hdr := {| rh_Name := "00000000-dnsotls-ds.metric.gstatic.com."; rh_Rrtype := TypeA; rh_Class := ClassINET;
                        rh_Ttl := 10 |}; rr_Data := RD_A (Addr4 7) |}]))
    as (resp & E & _ & _ & Hq & _).
  - reflexivity.
  - vm_compute. discriminate.
  - vm_compute. reflexivity.
  - exists resp. split; [exact E|exact Hq].
Defined.

Lemma android_rcode_lost_witness :
  exists resp, preup_ServeDNS (fun _ req => Ret (None, Some (set_Rcode (NewResp metric_request) RcodeServerFailure))) None
    (txt_ri "host") metric_request = Ret (None, Some resp, []) /\ m_Rcode resp = RcodeSuccess.
Proof.
  apply (android_rcode_lost _ (txt_ri "host") metric_request metric_question []
    (set_Rcode (NewResp metric_request) RcodeServerFailure)).
  - reflexivity.
  - vm_compute. discriminate.
  - intros req'. reflexivity.
  - reflexivity.
Defined.
