(* ===== verification/GeoIP.v ===== *)
(** The GeoIP database: internal/geoip (file.go, filescanner.go, location.go,
    country.go).

    The readers of the database files are parameters: what a lookup gives, and
    the networks in their order.  The locations that [Data] returns are shared
    with the caches, so they are kept in a heap, and [SubnetByLocation], which
    writes to the location it is given, works on it. *)

From S2P Require Import Prelude GoStd NetIP HumanID AgdProtobuf DnsMsg Filter RuleList Access.

Open Scope Z_scope.

(** ** location.go, country.go *)

Definition NewContinent (s : string) : result error string :=
  if existsb (String.eqb s) ["AF"; "AN"; "AS"; "EU"; "NA"; "OC"; "SA"; ""] then Ok s
  else Err (ErrConst "not a valid continent code").

(** A code of two letters: X followed by any, Q followed by M to Z (or more), and
    three more. *)
Definition isUserAssigned (s : string) : bool :=
  match bytes s with
  | [a; b] =>
      if (bval a =? 88) || ((bval a =? 81) && (77 <=? bval b)) then true
      else existsb (String.eqb s) ["AA"; "OO"; "ZZ"]
  | _ => false
  end.

(** The codes of the switch, the empty one included. *)
Definition countries : list string :=
  ["AD"; "AE"; "AF"; "AG"; "AI"; "AL"; "AM"; "AO"; "AQ"; "AR"; "AS"; "AT"; "AU"; "AW"; "AX"; "AZ"; "BA";
   "BB"; "BD"; "BE"; "BF"; "BG"; "BH"; "BI"; "BJ"; "BL"; "BM"; "BN"; "BO"; "BQ"; "BR"; "BS"; "BT"; "BV";
   "BW"; "BY"; "BZ"; "CA"; "CC"; "CD"; "CF"; "CG"; "CH"; "CI"; "CK"; "CL"; "CM"; "CN"; "CO"; "CR"; "CU";
   "CV"; "CW"; "CX"; "CY"; "CZ"; "DE"; "DJ"; "DK"; "DM"; "DO"; "DZ"; "EC"; "EE"; "EG"; "EH"; "ER"; "ES";
   "ET"; "FI"; "FJ"; "FK"; "FM"; "FO"; "FR"; "GA"; "GB"; "GD"; "GE"; "GF"; "GG"; "GH"; "GI"; "GL"; "GM";
   "GN"; "GP"; "GQ"; "GR"; "GS"; "GT"; "GU"; "GW"; "GY"; "HK"; "HM"; "HN"; "HR"; "HT"; "HU"; "ID"; "IE";
   "IL"; "IM"; "IN"; "IO"; "IQ"; "IR"; "IS"; "IT"; "JE"; "JM"; "JO"; "JP"; "KE"; "KG"; "KH"; "KI"; "KM";
   "KN"; "KP"; "KR"; "KW"; "KY"; "KZ"; "LA"; "LB"; "LC"; "LI"; "LK"; "LR"; "LS"; "LT"; "LU"; "LV"; "LY";
   "MA"; "MC"; "MD"; "ME"; "MF"; "MG"; "MH"; "MK"; "ML"; "MM"; "MN"; "MO"; "MP"; "MQ"; "MR"; "MS"; "MT";
   "MU"; "MV"; "MW"; "MX"; "MY"; "MZ"; "NA"; "NC"; "NE"; "NF"; "NG"; "NI"; "NL"; "NO"; "NP"; "NR"; "NU";
   "NZ"; "OM"; "PA"; "PE"; "PF"; "PG"; "PH"; "PK"; "PL"; "PM"; "PN"; "PR"; "PS"; "PT"; "PW"; "PY"; "QA";
   "RE"; "RO"; "RS"; "RU"; "RW"; "SA"; "SB"; "SC"; "SD"; "SE"; "SG"; "SH"; "SI"; "SJ"; "SK"; "SL"; "SM";
   "SN"; "SO"; "SR"; "SS"; "ST"; "SV"; "SX"; "SY"; "SZ"; "TC"; "TD"; "TF"; "TG"; "TH"; "TJ"; "TK"; "TL";
   "TM"; "TN"; "TO"; "TR"; "TT"; "TV"; "TW"; "TZ"; "UA"; "UG"; "UM"; "US"; "UY"; "UZ"; "VA"; "VC"; "VE";
   "VG"; "VI"; "VN"; "VU"; "WF"; "WS"; "YE"; "YT"; "ZA"; "ZM"; "ZW"; ""].

Definition CountryNone : string := EmptyString.

Definition NewCountry (s : string) : result error string :=
  if isUserAssigned s then Ok s
  else if existsb (String.eqb s) countries then Ok s
  else Err (ErrConst "not a valid iso 3166-1 alpha-2 country code").

(** ** Readers

    A network of a file: the data, the bytes of its address, and the prefix that
    [netutil.IPNetToPrefixNoMapped] makes of it. *)

Record countryResult := {
  cr_Continent : string;
  cr_Country : string;
  cr_Subdivisions : list string;
}.

Record network := {
  nw_asn : result error Z;
  nw_country : result error countryResult;
  nw_IP : string;
  nw_Prefix : result error Prefix;
}.

(** [Lookup] for the two kinds of data, [Networks] without aliased networks, and
    [Networks.Err] after them. *)
Record Reader := {
  rd_asn : string -> result error Z;
  rd_country : string -> result error countryResult;
  rd_Networks : list network;
  rd_Err : option error;
}.

(** ** filescanner.go *)

Definition desiredIPv4SubnetLength : Z := 24.
Definition desiredIPv6SubnetLength : Z := 56.

Definition dist (a b : Z) : outcome Z :=
  if (a <? 0) || (b <? 0) then Panic "dist: bad parameters %d and %d"
  else Ret (if a - b <? 0 then - (a - b) else a - b).

Definition replaceSubnet `{Countable K} (subnets : gmap K Prefix) (key : K) (subnet : Prefix) (desiredLength : Z)
    : outcome (gmap K Prefix) :=
  match subnets !! key with
  | None => Ret (if desiredLength <? p_bits subnet then subnets else <[key := subnet]> subnets)
  | Some prev =>
      let! d1 := dist (p_bits prev) desiredLength in
      let! d2 := dist (p_bits subnet) desiredLength in
      Ret (if d1 <? d2 then subnets else <[key := subnet]> subnets)
  end.

(** The country, the top subdivision and the autonomous system. *)
Notation locationKey := (string * string * Z)%type.

Definition newLocationKey (asn : Z) (ctry subdiv : string) : locationKey :=
  if existsb (String.eqb ctry) ["RU"; "US"; "CN"; "IN"] then (ctry, subdiv, asn)
  else (EmptyString, EmptyString, asn).

(** The loop that both mappings end with. *)
Definition widen (desiredLength : Z) (n : Prefix) : Prefix :=
  if p_bits n <? desiredLength then PrefixFrom (p_ip n) desiredLength else n.

Definition subnetReplacementsIPv4 : list (locationKey * Prefix) :=
  [(newLocationKey 25159 CountryNone EmptyString, {| p_ip := Addr4 2997897216; p_bits := 24 |});
   (newLocationKey 212238 CountryNone EmptyString, {| p_ip := Addr4 3115805440; p_bits := 24 |})].

Definition subnetReplacementsIPv6 : list (locationKey * Prefix) := [].

(** The second argument tells whether the family is IPv4. *)
Definition applyCountrySubnetHacks (subnets : gmap string Prefix) (v4 : bool) : gmap string Prefix :=
  widen (if v4 then desiredIPv4SubnetLength else desiredIPv6SubnetLength) <$> subnets.

Definition applyLocationSubnetHacks (subnets : gmap locationKey Prefix) (v4 : bool) : gmap locationKey Prefix :=
  let repl := if v4 then subnetReplacementsIPv4 else subnetReplacementsIPv6 in
  let subnets := foldl (fun m kv => <[kv.1 := kv.2]> m) subnets repl in
  widen (if v4 then desiredIPv4SubnetLength else desiredIPv6SubnetLength) <$> subnets.

(** [netip.Prefix{}]. *)
Definition PrefixZero : Prefix := {| p_ip := AddrZero; p_bits := -1 |}.

Definition subnetCountryData (n : network) : result error (string * Prefix) :=
  let? res := annotate "getting subnet and country: %w" (nw_country n) in
  let? subnet := annotate "converting subnet: %w" (nw_Prefix n) in
  if bool_decide (cr_Country res = EmptyString) then Ok (CountryNone, PrefixZero)
  else
    let? c := annotate "converting country: %w" (NewCountry (cr_Country res)) in
    Ok (c, subnet).

Definition subnetLocationData (n : network) (countryReader : Reader) : result error (locationKey * Prefix) :=
  let? asn := annotate "getting subnet and location: %w" (nw_asn n) in
  let? subnet := annotate "converting subnet: %w" (nw_Prefix n) in
  let? ctryRes := annotate "looking up country: %w" (rd_country countryReader (nw_IP n)) in
  let? ctry := annotate "converting country: %w" (NewCountry (cr_Country ctryRes)) in
  let subdiv := default EmptyString (head (cr_Subdivisions ctryRes)) in
  Ok (newLocationKey asn ctry subdiv, subnet).

(** One step of the scans: the subnet goes to the map of its family. *)
Definition replace_family `{Countable K} (ms : gmap K Prefix * gmap K Prefix) (key : K) (subnet : Prefix)
    : outcome (gmap K Prefix * gmap K Prefix) :=
  if Is4 (p_ip subnet) then
    let! m := replaceSubnet ms.1 key subnet desiredIPv4SubnetLength in Ret (m, ms.2)
  else
    let! m := replaceSubnet ms.2 key subnet desiredIPv6SubnetLength in Ret (ms.1, m).

Fixpoint scan_countries (nets : list network) (ms : gmap string Prefix * gmap string Prefix)
    : outcome (result error (gmap string Prefix * gmap string Prefix)) :=
  match nets with
  | [] => Ret (Ok ms)
  | n :: nets =>
      match subnetCountryData n with
      | Err err => Ret (Err err)
      | Ok (c, subnet) =>
          if bool_decide (c = CountryNone) then scan_countries nets ms
          else let! ms := replace_family ms c subnet in scan_countries nets ms
      end
  end.

Definition resetCountrySubnets (r : Reader) : outcome (result error (gmap string Prefix * gmap string Prefix)) :=
  let! res := scan_countries (rd_Networks r) (∅, ∅) in
  match res with
  | Err err => Ret (Err err)
  | Ok ms =>
      match rd_Err r with
      | Some err => Ret (Err (ErrWrap "reading: %w" err))
      | None => Ret (Ok (applyCountrySubnetHacks ms.1 true, applyCountrySubnetHacks ms.2 false))
      end
  end.

Section file.
(** [AllTopASNs] and [CountryTopASNs] of the configuration, and
    [netutil.ZeroPrefix]. *)
Variable allTopASNs : gset Z.
Variable countryTopASNs : gmap string Z.
Variable ZeroPrefix : Z -> Prefix.

Fixpoint scan_locations (country : Reader) (nets : list network)
    (ms : gmap locationKey Prefix * gmap locationKey Prefix)
    : outcome (result error (gmap locationKey Prefix * gmap locationKey Prefix)) :=
  match nets with
  | [] => Ret (Ok ms)
  | n :: nets =>
      match subnetLocationData n country with
      | Err err => Ret (Err err)
      | Ok (key, subnet) =>
          if negb (bool_decide (key.2 ∈ allTopASNs)) then scan_locations country nets ms
          else let! ms := replace_family ms key subnet in scan_locations country nets ms
      end
  end.

Definition resetLocationSubnets (asn country : Reader)
    : outcome (result error (gmap locationKey Prefix * gmap locationKey Prefix)) :=
  let! res := scan_locations country (rd_Networks asn) (∅, ∅) in
  match res with
  | Err err => Ret (Err err)
  | Ok ms =>
      match rd_Err asn with
      | Some err => Ret (Err (ErrWrap "reading: %w" err))
      | None => Ret (Ok (applyLocationSubnetHacks ms.1 true, applyLocationSubnetHacks ms.2 false))
      end
  end.

(** ** file.go *)

Context `{!AgdCache string nat}.

(** The locations at their addresses.  A host cache of [None] is an
    [agdcache.Empty]. *)
Record File := {
  f_asn : option Reader;
  f_country : option Reader;
  ipv4CountrySubnets : gmap string Prefix;
  ipv6CountrySubnets : gmap string Prefix;
  ipv4LocationSubnets : gmap locationKey Prefix;
  ipv6LocationSubnets : gmap locationKey Prefix;
  f_ipCache : Filter.cache;
  f_hostCache : option Filter.cache;
  f_locs : gmap nat GeoLocation;
}.

Definition NewFile (HostCacheCount : Z) : File := {|
  f_asn := None; f_country := None;
  ipv4CountrySubnets := ∅; ipv6CountrySubnets := ∅; ipv4LocationSubnets := ∅; ipv6LocationSubnets := ∅;
  f_ipCache := cempty; f_hostCache := if HostCacheCount =? 0 then None else Some cempty;
  f_locs := ∅ |}.

(** The first three bytes of an IPv4 address or the first seven of an IPv6 one;
    [As16] of the zero address panics. *)
Definition ipToCacheKey (ip : Addr) : outcome string :=
  match ip with
  | Addr4 n => Ret (be_bytes 3 (n / 2 ^ 8))
  | Addr6 n _ => Ret (be_bytes 7 (n / 2 ^ 72))
  | AddrZero => Panic "As16 called on zero Addr"
  end.

Definition with_ASN (l : GeoLocation) (asn : Z) : GeoLocation :=
  {| Country := Country l; Continent := Continent l; TopSubdivision := TopSubdivision l; ASN := asn |}.

(** The prefix for the location, and the location as it is after the call: the
    second lookup writes its autonomous system. *)
Definition SubnetByLocation (f : File) (l : GeoLocation) (fam : Z) : outcome (Prefix * GeoLocation) :=
  let! subnets :=
    if fam =? AddrFamilyIPv4 then Ret (ipv4CountrySubnets f, ipv4LocationSubnets f)
    else if fam =? AddrFamilyIPv6 then Ret (ipv6CountrySubnets f, ipv6LocationSubnets f)
    else Panic "geoip: unsupported addr fam %s" in
  let '(ctrySubnets, locSubnets) := subnets in
  let locKey := newLocationKey (ASN l) (Country l) (TopSubdivision l) in
  let by_country (l : GeoLocation) :=
    match ctrySubnets !! Country l with
    | Some n => Ret (n, l)
    | None => Ret (ZeroPrefix fam, l)
    end in
  match locSubnets !! locKey with
  | Some n => Ret (n, l)
  | None =>
      let l' := with_ASN l (default 0 (countryTopASNs !! Country l)) in
      match countryTopASNs !! Country l with
      | None => by_country l'
      | Some asn =>
          match locSubnets !! newLocationKey asn CountryNone EmptyString with
          | Some n => Ret (n, l')
          | None => by_country l'
          end
      end
  end.

(** [SubnetByLocation] with a pointer. *)
Definition SubnetByLocation_ptr (f : File) (ptr : nat) (fam : Z) : outcome (Prefix * File) :=
  match f_locs f !! ptr with
  | None => Panic "invalid memory address or nil pointer dereference"
  | Some l =>
      let! r := SubnetByLocation f l fam in
      Ret (r.1, {| f_asn := f_asn f; f_country := f_country f; ipv4CountrySubnets := ipv4CountrySubnets f;
                   ipv6CountrySubnets := ipv6CountrySubnets f; ipv4LocationSubnets := ipv4LocationSubnets f;
                   ipv6LocationSubnets := ipv6LocationSubnets f; f_ipCache := f_ipCache f;
                   f_hostCache := f_hostCache f; f_locs := <[ptr := r.2]> (f_locs f) |})
  end.

Definition with_caches (f : File) (ipc : Filter.cache) (hc : option Filter.cache) (locs : gmap nat GeoLocation)
    : File :=
  {| f_asn := f_asn f; f_country := f_country f; ipv4CountrySubnets := ipv4CountrySubnets f;
     ipv6CountrySubnets := ipv6CountrySubnets f; ipv4LocationSubnets := ipv4LocationSubnets f;
     ipv6LocationSubnets := ipv6LocationSubnets f; f_ipCache := ipc; f_hostCache := hc; f_locs := locs |}.

Definition dataByHost (f : File) (host : string) : option nat * File :=
  match f_hostCache f with
  | None => (None, f)
  | Some c => let '(item, c) := cget c host in (item, with_caches f (f_ipCache f) (Some c) (f_locs f))
  end.

Definition lookupASN (f : File) (ip : Addr) : outcome (result error Z) :=
  match f_asn f with
  | None => Panic "invalid memory address or nil pointer dereference"
  | Some r => Ret (annotate "looking up asn: %w" (rd_asn r (AsSlice ip)))
  end.

Definition setCtry (f : File) (loc : GeoLocation) (ip : Addr) : outcome (result error GeoLocation) :=
  match f_country f with
  | None => Panic "invalid memory address or nil pointer dereference"
  | Some r =>
      Ret (let? res := annotate "looking up country: %w" (rd_country r (AsSlice ip)) in
           let? country := annotate "converting country: %w" (NewCountry (cr_Country res)) in
           let? continent := annotate "converting continent: %w" (NewContinent (cr_Continent res)) in
           Ok {| Country := country; Continent := continent;
                 TopSubdivision := default (TopSubdivision loc) (head (cr_Subdivisions res)); ASN := ASN loc |})
  end.

Definition setCaches (f : File) (host key : string) (ptr : nat) (l : GeoLocation) : File :=
  with_caches f (cset (f_ipCache f) key ptr)
    (if bool_decide (host = EmptyString) then f_hostCache f else (fun c => cset c host ptr) <$> f_hostCache f)
    (<[ptr := l]> (f_locs f)).

(** [Addr.Is4In6], and the IPv4 address. *)
Definition unmap (ip : Addr) : Addr :=
  match ip with
  | Addr6 n _ => if n / 2 ^ 32 =? 65535 then Addr4 (n mod 2 ^ 32) else ip
  | _ => ip
  end.

(** A pointer to the location; [None] is nil. *)
Definition Data (f : File) (host : string) (ip : Addr) : outcome (result error (option nat) * File) :=
  if bool_decide (ip = AddrZero) then let '(item, f) := dataByHost f host in Ret (Ok item, f)
  else
    let ip := unmap ip in
    let! cacheKey := ipToCacheKey ip in
    let '(item, c) := cget (f_ipCache f) cacheKey in
    let f := with_caches f c (f_hostCache f) (f_locs f) in
    match item with
    | Some ptr => Ret (Ok (Some ptr), f)
    | None =>
        let! asn := lookupASN f ip in
        match annotate "looking up asn: %w" asn with
        | Err err => Ret (Err err, f)
        | Ok asn =>
            let l := {| Country := EmptyString; Continent := EmptyString; TopSubdivision := EmptyString; ASN := asn |} in
            let! l := setCtry f l ip in
            match l with
            | Err err => Ret (Err err, f)
            | Ok l =>
                let ptr := fresh (dom (f_locs f)) in
                Ret (Ok (Some ptr), setCaches f host cacheKey ptr l)
            end
        end
    end.

(** The two goroutines write different fields, whatever their order; a failed
    scan leaves a nil map. *)
Definition resetSubnetMappings (f : File) (asn country : Reader) : outcome (option error * File) :=
  let! locs := resetLocationSubnets asn country in
  let! ctries := resetCountrySubnets country in
  let '(locs, locErr) := match locs with Ok ms => (ms, None) | Err e => ((∅, ∅), Some (ErrWrap "location subnet data: %w" e)) end in
  let '(ctries, ctryErr) := match ctries with Ok ms => (ms, None) | Err e => ((∅, ∅), Some (ErrWrap "country subnet data: %w" e)) end in
  Ret (wrap_opt "refreshing: %w" (Join (omap id [ctryErr; locErr])),
       {| f_asn := f_asn f; f_country := f_country f;
          ipv4CountrySubnets := ctries.1; ipv6CountrySubnets := ctries.2;
          ipv4LocationSubnets := locs.1; ipv6LocationSubnets := locs.2;
          f_ipCache := f_ipCache f; f_hostCache := f_hostCache f; f_locs := f_locs f |}).

(** [asn] and [country] are the results of [geoIPFromFile]. *)
Definition Refresh (f : File) (asn country : result error Reader) : outcome (option error * File) :=
  match asn, country with
  | Ok asn, Ok country =>
      let! r := resetSubnetMappings f asn country in
      let '(err, f) := r in
      match err with
      | Some err => Ret (Some (ErrWrap "resetting geoip: %w" err), f)
      | None =>
          Ret (None, {| f_asn := Some asn; f_country := Some country;
                        ipv4CountrySubnets := ipv4CountrySubnets f; ipv6CountrySubnets := ipv6CountrySubnets f;
                        ipv4LocationSubnets := ipv4LocationSubnets f; ipv6LocationSubnets := ipv6LocationSubnets f;
                        f_ipCache := cclear (f_ipCache f); f_hostCache := cclear <$> f_hostCache f;
                        f_locs := f_locs f |})
      end
  | _, _ =>
      Ret (Join (omap id [match asn with Err e => Some (ErrWrap "reading asn geoip: %w" e) | _ => None end;
                          match country with Err e => Some (ErrWrap "reading country geoip: %w" e) | _ => None end]), f)
  end.

End file.

(** * Facts *)

(** ** The choice of subnets *)

Section choice.
Context `{Countable K}.

Fixpoint fold_replace (ms : gmap K Prefix * gmap K Prefix) (es : list (K * Prefix))
    : outcome (gmap K Prefix * gmap K Prefix) :=
  match es with
  | [] => Ret ms
  | (k, n) :: es => let! ms := replace_family ms k n in fold_replace ms es
  end.

(** The subnets of a key, of one family. *)
Definition cands (v4 : bool) (k : K) (es : list (K * Prefix)) : list Prefix :=
  (filter (fun e => e.1 = k /\ Is4 (p_ip e.2) = v4) es).*2.

(** The chosen subnet is one of the candidates, and none of the candidates that
    are broad enough is closer to the desired length; there is no choice only if
    no candidate is broad enough. *)
Definition best (desired : Z) (cs : list Prefix) (r : option Prefix) : Prop :=
  match r with
  | None => Forall (fun s => desired < p_bits s) cs
  | Some s =>
      s ∈ cs /\ Forall (fun s' => p_bits s' <= desired -> Z.abs (p_bits s - desired) <= Z.abs (p_bits s' - desired)) cs
  end.

Definition bits_ok (e : K * Prefix) : Prop := 0 <= p_bits e.2.

Lemma dist_abs a b : 0 <= a -> 0 <= b -> dist a b = Ret (Z.abs (a - b)).
Proof.
  intros Ha Hb. unfold dist. destruct ((a <? 0) || (b <? 0)) eqn:E; [lia|].
  destruct (a - b <? 0) eqn:E'; f_equal; lia.
Qed.

Lemma best_replace desired cs (m : gmap K Prefix) k n :
  0 <= desired -> Forall (fun s => 0 <= p_bits s) cs -> 0 <= p_bits n -> best desired cs (m !! k) ->
  exists m', replaceSubnet m k n desired = Ret m' /\ best desired (cs ++ [n]) (m' !! k) /\
    forall k', k' <> k -> m' !! k' = m !! k'.
Proof.
  intros Hd Hcs Hn Hb. unfold replaceSubnet. destruct (m !! k) as [prev|] eqn:Em.
  - destruct Hb as [Hin Hall]. rewrite Forall_forall in Hcs. pose proof (Hcs _ Hin) as Hp.
    rewrite !dist_abs by done. cbn [outcome_bind]. eexists. split; [reflexivity|].
    destruct (Z.abs (p_bits prev - desired) <? Z.abs (p_bits n - desired)) eqn:E.
    + split; [|done]. rewrite Em. split; [set_solver|]. apply Forall_app. split; [done|]. repeat constructor. lia.
    + split; [|intros; by rewrite lookup_insert_ne]. rewrite lookup_insert_eq. split; [set_solver|].
      apply Forall_app. split; [|repeat constructor; lia]. eapply Forall_impl; [exact Hall|].
      intros s Hs Hle. specialize (Hs Hle). lia.
  - eexists. split; [reflexivity|]. destruct (desired <? p_bits n) eqn:E.
    + split; [|done]. rewrite Em. apply Forall_app. split; [done|]. repeat constructor. lia.
    + split; [|intros; by rewrite lookup_insert_ne]. rewrite lookup_insert_eq. split; [set_solver|].
      apply Forall_app. split; [|repeat constructor; lia]. eapply Forall_impl; [exact Hb|]. cbn. lia.
Qed.

Definition chosen (es : list (K * Prefix)) (ms : gmap K Prefix * gmap K Prefix) : Prop :=
  forall k, best desiredIPv4SubnetLength (cands true k es) (ms.1 !! k) /\
            best desiredIPv6SubnetLength (cands false k es) (ms.2 !! k).

Lemma cands_app v4 k (es : list (K * Prefix)) e :
  cands v4 k (es ++ [e]) = cands v4 k es ++ (if decide (e.1 = k /\ Is4 (p_ip e.2) = v4) then [e.2] else []).
Proof. unfold cands. rewrite filter_app, fmap_app, filter_cons, filter_nil. by case_decide. Qed.

Lemma cands_bits v4 k (es : list (K * Prefix)) : Forall bits_ok es -> Forall (fun s => 0 <= p_bits s) (cands v4 k es).
Proof.
  intros Hes. apply Forall_forall. intros s Hs. apply list_elem_of_fmap in Hs as (e & -> & He).
  apply list_elem_of_filter in He as [_ He]. rewrite Forall_forall in Hes. by apply Hes.
Qed.

Lemma replace_chosen (es : list (K * Prefix)) ms k n : Forall bits_ok es -> 0 <= p_bits n -> chosen es ms ->
  exists ms', replace_family ms k n = Ret ms' /\ chosen (es ++ [(k, n)]) ms'.
Proof.
  intros Hes Hn Hc. unfold replace_family. destruct (Is4 (p_ip n)) eqn:E4.
  - destruct (best_replace desiredIPv4SubnetLength (cands true k es) ms.1 k n) as (m' & -> & Hb & Hne);
      [done|by apply cands_bits|done|apply Hc|]. cbn [outcome_bind]. eexists. split; [reflexivity|]. intros k'. cbn [fst snd].
    rewrite !cands_app. cbn [fst snd]. rewrite E4. split.
    + case_decide as Ek; [by destruct Ek as [<- _]|]. rewrite app_nil_r.
      rewrite Hne by (intros ->; naive_solver). apply Hc.
    + rewrite decide_False by naive_solver. rewrite app_nil_r. apply Hc.
  - destruct (best_replace desiredIPv6SubnetLength (cands false k es) ms.2 k n) as (m' & -> & Hb & Hne);
      [done|by apply cands_bits|done|apply Hc|]. cbn [outcome_bind]. eexists. split; [reflexivity|]. intros k'. cbn [fst snd].
    rewrite !cands_app. cbn [fst snd]. rewrite E4. split.
    + rewrite decide_False by naive_solver. rewrite app_nil_r. apply Hc.
    + case_decide as Ek; [by destruct Ek as [<- _]|]. rewrite app_nil_r.
      rewrite Hne by (intros ->; naive_solver). apply Hc.
Qed.

Lemma fold_chosen (es : list (K * Prefix)) : Forall bits_ok es -> exists ms, fold_replace (∅, ∅) es = Ret ms /\ chosen es ms.
Proof.
  assert (forall es seen ms, Forall bits_ok seen -> Forall bits_ok es -> chosen seen ms ->
    exists ms', fold_replace ms es = Ret ms' /\ chosen (seen ++ es) ms') as Hgen.
  { clear es. induction es as [|[k n] es IH]; intros seen ms Hs He Hc; cbn [fold_replace].
    { exists ms. by rewrite app_nil_r. }
    apply Forall_cons in He as [Hn He]. destruct (replace_chosen seen ms k n Hs Hn Hc) as (ms1 & -> & Hc1).
    cbn [outcome_bind]. destruct (IH (seen ++ [(k, n)]) ms1) as (ms' & -> & Hc'); [|done..|].
    - apply Forall_app. split; [done|]. by repeat constructor.
    - exists ms'. split; [done|]. by rewrite <- app_assoc in Hc'. }
  intros He. apply (Hgen es [] (∅, ∅)); [constructor|done|]. intros k. cbn. rewrite !lookup_empty. split; constructor.
Qed.

End choice.

(** ** The subnets of the countries *)

Definition country_entry (n : network) : option (string * Prefix) :=
  match subnetCountryData n with
  | Ok (c, s) => if decide (c = CountryNone) then None else Some (c, s)
  | Err _ => None
  end.

(** The networks of a file are valid, and so are its codes of countries. *)
Definition network_ok (n : network) : Prop :=
  is_ok (subnetCountryData n) = true /\
  match nw_Prefix n with Ok p => prefix_ok p /\ 0 <= p_bits p | Err _ => True end.

(** What is found for a country: a network of the file, cut to the desired
    length if it is broader; no network that is broad enough is closer to this
    length. *)
Definition subnet_for (desired : Z) (nets : list Prefix) (r : option Prefix) : Prop :=
  match r with
  | None => Forall (fun n => desired < p_bits n) nets
  | Some p => exists n, n ∈ nets /\ p = widen desired n /\ prefix_contains n (p_ip p) = true /\ desired <= p_bits p /\
      Forall (fun n' => p_bits n' <= desired -> Z.abs (p_bits n - desired) <= Z.abs (p_bits n' - desired)) nets
  end.

Lemma prefix_contains_self p : prefix_ok p -> 0 <= p_bits p -> prefix_contains p (p_ip p) = true.
Proof.
  intros (Ha & Hv & Hz & Hb) H0. unfold prefix_contains, prefix_valid. rewrite Hz.
  destruct (0 <=? p_bits p) eqn:E; [|lia]. cbn. destruct (p_ip p) as [|n|n z]; [done|..].
  - by rewrite Z.lxor_nilpotent, Z.shiftr_0_l.
  - by rewrite Z.lxor_nilpotent, Z.land_0_l.
Qed.

Lemma widen_in desired n : prefix_ok n -> 0 <= p_bits n -> desired <= BitLen (p_ip n) ->
  prefix_contains n (p_ip (widen desired n)) = true /\ desired <= p_bits (widen desired n).
Proof.
  intros Hok H0 Hd. unfold widen. destruct (p_bits n <? desired) eqn:E; [|split; [by apply prefix_contains_self|lia]].
  pose proof Hok as (Ha & Hv & Hz & Hb). unfold PrefixFrom. cbn [p_ip p_bits]. rewrite Hv.
  assert (withoutZone (p_ip n) = p_ip n) as ->
    by (destruct (p_ip n) as [| |m zone]; [done..|apply negb_false_iff, bool_decide_eq_true in Hz as ->; done]).
  split; [by apply prefix_contains_self|].
  destruct (0 <=? desired) eqn:E1, (desired <=? BitLen (p_ip n)) eqn:E2; simpl; lia.
Qed.

Lemma best_subnet_for desired cs r :
  Forall (fun n => prefix_ok n /\ 0 <= p_bits n /\ desired <= BitLen (p_ip n)) cs ->
  best desired cs r -> subnet_for desired cs (widen desired <$> r).
Proof.
  intros Hcs Hb. destruct r as [n|]; [|done]. destruct Hb as [Hin Hall]. rewrite Forall_forall in Hcs.
  destruct (Hcs _ Hin) as (Hok & H0 & Hl). destruct (widen_in desired n Hok H0 Hl). by exists n.
Qed.

Lemma scan_entries nets ms :
  Forall (fun n => is_ok (subnetCountryData n) = true) nets ->
  scan_countries nets ms = let! r := fold_replace ms (omap country_entry nets) in Ret (Ok r).
Proof.
  intros Hn. revert ms. induction Hn as [|n nets Hn _ IH]; intros ms; [done|].
  cbn [scan_countries omap list_omap]. unfold country_entry at 1.
  destruct (subnetCountryData n) as [[c s]|]; [|done].
  destruct (decide (c = CountryNone)) as [->|Hc].
  - rewrite bool_decide_eq_true_2 by done. apply IH.
  - rewrite bool_decide_eq_false_2 by done. cbn [fold_replace].
    destruct (replace_family ms c s); [|done]. cbn [outcome_bind]. apply IH.
Qed.

Lemma entry_prefix n c s : country_entry n = Some (c, s) -> nw_Prefix n = Ok s.
Proof.
  unfold country_entry, subnetCountryData.
  destruct (nw_country n) as [res|]; [|done]. cbn [annotate result_bind].
  destruct (nw_Prefix n) as [p|]; [|done]. cbn [annotate result_bind].
  destruct (bool_decide (cr_Country res = EmptyString)).
  - by rewrite decide_True.
  - destruct (NewCountry (cr_Country res)) as [c'|]; [|done]. cbn [annotate result_bind].
    case_decide; [done|]. by intros [= <- <-].
Qed.

Lemma entries_ok nets v4 c : Forall network_ok nets ->
  Forall (fun n => prefix_ok n /\ 0 <= p_bits n /\
    (if v4 : bool then desiredIPv4SubnetLength else desiredIPv6SubnetLength) <= BitLen (p_ip n))
    (cands v4 c (omap country_entry nets)).
Proof.
  intros Hn. apply Forall_forall. intros s Hs. apply list_elem_of_fmap in Hs as ([c' s'] & -> & He).
  apply list_elem_of_filter in He as [[_ H4] He]. apply list_elem_of_omap in He as (n & Hin & En).
  rewrite Forall_forall in Hn. apply Hn in Hin as [_ Hp]. rewrite (entry_prefix _ _ _ En) in Hp.
  destruct Hp as [Hok H0]. split_and!; [done..|]. cbn [snd] in *. destruct Hok as (_ & Hv & _).
  destruct (p_ip s'), v4; done.
Qed.

(** For each country, the subnet that stands for it is a network of the file
    in that country, cut to the desired length if it is broader, so that it
    begins inside the network; of the networks that are broad enough none is
    closer to the desired length.  A country has no subnet only if no network
    of it is broad enough.  The scan of a valid file does not panic. *)
Theorem country_subnets r :
  Forall network_ok (rd_Networks r) -> rd_Err r = None ->
  exists m4 m6, resetCountrySubnets r = Ret (Ok (m4, m6)) /\
    forall c, subnet_for desiredIPv4SubnetLength (cands true c (omap country_entry (rd_Networks r))) (m4 !! c) /\
              subnet_for desiredIPv6SubnetLength (cands false c (omap country_entry (rd_Networks r))) (m6 !! c).
Proof.
  intros Hn He. unfold resetCountrySubnets.
  rewrite scan_entries by (eapply Forall_impl; [exact Hn|by intros n []]).
  destruct (fold_chosen (omap country_entry (rd_Networks r))) as (ms & -> & Hc).
  { apply Forall_forall. intros [c s] Hs. apply list_elem_of_omap in Hs as (n & Hin & En).
    rewrite Forall_forall in Hn. apply Hn in Hin as [_ Hp]. rewrite (entry_prefix _ _ _ En) in Hp. apply Hp. }
  cbn [outcome_bind]. rewrite He. do 2 eexists. split; [reflexivity|]. intros c.
  unfold applyCountrySubnetHacks. rewrite !lookup_fmap.
  split; apply best_subnet_for, Hc; [apply (entries_ok _ true)|apply (entries_ok _ false)]; done.
Qed.

(** ** Lookups *)

Section lookups.
Context (allTopASNs : gset Z) (countryTopASNs : gmap string Z) (ZeroPrefix : Z -> Prefix).
Context `{!AgdCache string nat} `{!AgdCacheSpec string nat}.

(** What the files say of an address. *)
Definition location_of (asn country : Reader) (ip : Addr) : result error GeoLocation :=
  let? n := rd_asn asn (AsSlice ip) in
  let? res := rd_country country (AsSlice ip) in
  let? ctry := NewCountry (cr_Country res) in
  let? cont := NewContinent (cr_Continent res) in
  Ok {| Country := ctry; Continent := cont; TopSubdivision := default EmptyString (head (cr_Subdivisions res)); ASN := n |}.

(** The location with the autonomous system that [SubnetByLocation] writes: the top one
    of the country, and zero if there is none. *)
Definition with_top_ASN (l : GeoLocation) : GeoLocation := with_ASN l (default 0 (countryTopASNs !! Country l)).

(** Whether a location that [Data] has returned is passed to [SubnetByLocation]. *)
Variable written : bool.

(** The location at [ptr] is that of an address that satisfies [P], or it has been
    written to. *)
Definition current (f : File) (P : Addr -> Prop) (ptr : nat) : Prop :=
  exists asn country ip l0 l, f_asn f = Some asn /\ f_country f = Some country /\ f_locs f !! ptr = Some l /\
    location_of asn country ip = Ok l0 /\ (l = l0 \/ written = true /\ l = with_top_ASN l0) /\ P ip.

Definition file_inv (f : File) : Prop :=
  cache_ok (fun key ptr => current f (fun ip => ipToCacheKey ip = Ret key) ptr) (f_ipCache f) /\
  from_option (cache_ok (fun _ ptr => current f (fun _ => True) ptr)) True (f_hostCache f).

(** Calls, in any order: the files of a refresh may be good or bad; the subnet of a
    location is looked up for a location of the caller's own, or for one that [Data] has
    returned. *)
Inductive geo_event :=
  | GeoData (host : string) (ip : Addr)
  | GeoRefresh (asn country : result error Reader)
  | GeoSubnet (l : GeoLocation) (fam : Z)
  | GeoSubnetPtr (ptr : nat) (fam : Z).

Definition geo_exec (f : File) (e : geo_event) : outcome File :=
  match e with
  | GeoData host ip => let! r := Data f host ip in Ret r.2
  | GeoRefresh asn country => let! r := Refresh allTopASNs f asn country in Ret r.2
  | GeoSubnet l fam => let! _ := SubnetByLocation countryTopASNs ZeroPrefix f l fam in Ret f
  | GeoSubnetPtr ptr fam => let! r := SubnetByLocation_ptr countryTopASNs ZeroPrefix f ptr fam in Ret r.2
  end.

Definition writes_cached (e : geo_event) : bool := match e with GeoSubnetPtr _ _ => true | _ => false end.

Lemma current_weaken f f' P Q ptr :
  (forall ip, P ip -> Q ip) -> f_asn f' = f_asn f -> f_country f' = f_country f ->
  (forall l, f_locs f !! ptr = Some l -> f_locs f' !! ptr = Some l) -> current f P ptr -> current f' Q ptr.
Proof.
  intros HPQ Ha Hc Hl (asn & country & ip & l0 & l & ? & ? & ? & ? & ? & ?).
  exists asn, country, ip, l0, l. rewrite Ha, Hc. split_and!; auto.
Qed.

Lemma cache_ok_impl (P Q : string -> nat -> Prop) c :
  (forall k v, P k v -> Q k v) -> cache_ok P c -> cache_ok Q c.
Proof. intros HPQ Hc k v Hv. by apply HPQ, Hc. Qed.

Lemma Data_inv f host ip r f' : file_inv f -> Data f host ip = Ret (r, f') ->
  file_inv f' /\ forall ptr, r = Ok (Some ptr) ->
    current f' (fun ip' => ip <> AddrZero -> ipToCacheKey ip' = ipToCacheKey (unmap ip)) ptr.
Proof.
  intros [Hip Hhost] E. unfold Data in E. destruct (bool_decide (ip = AddrZero)) eqn:Ez.
  { apply bool_decide_eq_true in Ez as ->. unfold dataByHost in E.
    destruct (f_hostCache f) as [hc|] eqn:Ehc; [|injection E as <- <-; split; [by split; rewrite ?Ehc|done]].
    destruct (cget hc host) as [item c] eqn:Eg. injection E as <- <-. cbn [from_option] in Hhost.
    destruct (cache_ok_get _ _ _ _ _ Hhost Eg) as [Hc Hv]. split; [split; [exact Hip|exact Hc]|].
    intros ptr [= ->]. eapply current_weaken; [..|exact (Hv ptr eq_refl)]; done. }
  destruct (ipToCacheKey (unmap ip)) as [key|] eqn:Ek; [|done]. cbn [outcome_bind] in E.
  destruct (cget (f_ipCache f) key) as [item c] eqn:Eg. destruct (cache_ok_get _ _ _ _ _ Hip Eg) as [Hc Hv].
  destruct item as [ptr|].
  { injection E as <- <-. split; [split; [exact Hc|exact Hhost]|]. intros ptr' [= <-].
    eapply current_weaken; [..|exact (Hv ptr eq_refl)]; done. }
  unfold lookupASN, setCtry in E. cbn [with_caches f_asn f_country] in E.
  destruct (f_asn f) as [asn|] eqn:Ea; [|done]. cbn [outcome_bind] in E.
  destruct (rd_asn asn (AsSlice (unmap ip))) as [n|e] eqn:En; cbn [annotate] in E;
    [|injection E as <- <-; split; [split; [exact Hc|exact Hhost]|done]].
  destruct (f_country f) as [country|] eqn:Ec; [|done]. cbn [outcome_bind] in E.
  match type of E with (match ?x with _ => _ end) = _ => destruct x as [l|e] eqn:El end;
    [|injection E as <- <-; split; [split; [exact Hc|exact Hhost]|done]].
  injection E as <- <-.
  assert (location_of asn country (unmap ip) = Ok l) as Hl.
  { unfold location_of. rewrite En. cbn [result_bind].
    destruct (rd_country country _) as [res|]; [|done]. cbn [annotate result_bind] in *.
    destruct (NewCountry _) as [ctry|]; [|done]. cbn [annotate result_bind] in *.
    destruct (NewContinent _) as [cont|]; [|done]. cbn [annotate result_bind] in *. by injection El as <-. }
  set (ptr := fresh (dom (f_locs f))). set (f' := setCaches _ _ _ _ _).
  assert (f_locs f !! ptr = None) as Hfresh by (apply not_elem_of_dom, is_fresh).
  assert (forall p l', f_locs f !! p = Some l' -> f_locs f' !! p = Some l') as Hkeep.
  { intros p l' Hp. unfold f', setCaches. cbn [f_locs with_caches]. rewrite lookup_insert_ne; [done|].
    intros <-. fold ptr in Hp. congruence. }
  assert (forall P : Addr -> Prop, P (unmap ip) -> current f' P ptr) as Hnew.
  { intros P HP. exists asn, country, (unmap ip), l, l. split_and!; try done; [|by left].
    unfold f', setCaches. cbn [f_locs with_caches]. by rewrite lookup_insert_eq. }
  assert (forall P p, current f P p -> current f' P p) as Hmono.
  { intros P p. by apply current_weaken; [..|apply Hkeep]. }
  split; [split|].
  - apply cache_ok_set; [|by apply Hnew]. eapply cache_ok_impl; [|exact Hc]. intros k v. apply Hmono.
  - unfold f', setCaches. cbn [with_caches f_hostCache]. fold f'.
    assert (from_option (cache_ok (fun _ p => current f' (fun _ => True) p)) True (f_hostCache f)) as Hh.
    { destruct (f_hostCache f) as [hc|]; [|done]. eapply cache_ok_impl; [|exact Hhost]. intros k v. apply Hmono. }
    destruct (bool_decide (host = EmptyString)); [exact Hh|]. destruct (f_hostCache f) as [hc|]; [|done].
    cbn [fmap option_fmap option_map from_option] in *. apply cache_ok_set; [exact Hh|by apply Hnew].
  - intros p [= <-]. by apply Hnew.
Qed.

Lemma Refresh_inv f asn country err f' :
  file_inv f -> Refresh allTopASNs f asn country = Ret (err, f') -> file_inv f'.
Proof.
  intros Hinv. unfold Refresh. destruct asn as [asn|], country as [country|];
    [|by intros [= <- <-]..]. unfold resetSubnetMappings.
  destruct (resetLocationSubnets allTopASNs asn country) as [locs|]; [|done]. cbn [outcome_bind].
  destruct (resetCountrySubnets country) as [ctries|]; [|done]. cbn [outcome_bind].
  destruct locs as [locs|e1], ctries as [ctries|e2]; cbn [outcome_bind wrap_opt Join omap list_omap option_fmap fmap];
    intros E; cbn in E; injection E as <- <-; try exact Hinv.
  split; cbn [f_ipCache f_hostCache]; [apply cache_ok_clear|].
  destruct (f_hostCache f); [apply cache_ok_clear|done].
Qed.

Lemma SubnetByLocation_writes f l fam r : SubnetByLocation countryTopASNs ZeroPrefix f l fam = Ret r ->
  r.2 = l \/ r.2 = with_top_ASN l.
Proof.
  unfold SubnetByLocation. destruct (if fam =? AddrFamilyIPv4 then _ else _) as [[cs ls]|]; [|done]. cbn [outcome_bind].
  fold (with_top_ASN l). intros E. repeat (case_match; simplify_eq/=; auto).
Qed.

Lemma current_written f ptr l' : written = true -> (forall l, f_locs f !! ptr = Some l -> l' = l \/ l' = with_top_ASN l) ->
  forall P p, current f P p -> current (with_caches f (f_ipCache f) (f_hostCache f) (<[ptr := l']> (f_locs f))) P p.
Proof.
  intros Hw Hl P p (asn & country & ip & l0 & l & Ha & Hc & Hp & Hloc & Hcur & HP).
  destruct (decide (p = ptr)) as [->|Hne].
  - exists asn, country, ip, l0, l'. cbn [with_caches f_asn f_country f_locs]. rewrite lookup_insert_eq.
    split_and!; try done. destruct (Hl l Hp) as [-> | ->]; [done|]. right. split; [done|].
    by destruct Hcur as [-> |[_ ->]].
  - exists asn, country, ip, l0, l. cbn [with_caches f_asn f_country f_locs]. rewrite lookup_insert_ne by done. done.
Qed.

Lemma SubnetByLocation_inv f ptr fam r f' : written = true -> file_inv f ->
  SubnetByLocation_ptr countryTopASNs ZeroPrefix f ptr fam = Ret (r, f') -> file_inv f'.
Proof.
  intros Hw [Hip Hhost]. unfold SubnetByLocation_ptr. destruct (f_locs f !! ptr) as [l|] eqn:El; [|done].
  destruct (SubnetByLocation _ _ f l fam) as [[n l']|] eqn:Es; [|done]. cbn [outcome_bind fst snd]. intros [= <- <-].
  apply SubnetByLocation_writes in Es. cbn [snd] in Es.
  pose proof (current_written f ptr l' Hw) as Hcur. unfold with_caches in Hcur.
  assert (forall x, f_locs f !! ptr = Some x -> l' = x \/ l' = with_top_ASN x) as Hx
    by (intros x Hx; rewrite El in Hx; by injection Hx as <-).
  specialize (Hcur Hx). split; cbn [f_ipCache f_hostCache].
  - eapply cache_ok_impl; [|exact Hip]. intros k v. apply Hcur.
  - destruct (f_hostCache f) as [hc|]; [|done]. eapply cache_ok_impl; [|exact Hhost]. intros k v. apply Hcur.
Qed.

Lemma geo_exec_inv evs : forall f0 f, (existsb writes_cached evs = true -> written = true) -> file_inv f0 ->
  for_each geo_exec f0 evs = Ret f -> file_inv f.
Proof.
  induction evs as [|e evs IH]; intros f0 f Hw Hf E; cbn [for_each] in E; [by injection E as <-|].
  destruct (geo_exec f0 e) as [f1|] eqn:E1; [|done]. cbn [outcome_bind existsb] in E, Hw.
  eapply IH; [intros Hx; apply Hw; rewrite Hx; apply orb_true_r| |exact E].
  destruct e as [host ip|asn country|l fam|ptr fam]; cbn [geo_exec] in E1.
  - destruct (Data f0 host ip) as [[r f2]|] eqn:Ed; [|done]. injection E1 as <-. by eapply Data_inv in Ed as [? _].
  - destruct (Refresh allTopASNs f0 asn country) as [[r f2]|] eqn:Ed; [|done]. injection E1 as <-.
    by eapply Refresh_inv.
  - destruct (SubnetByLocation _ _ f0 l fam); [|done]. by injection E1 as <-.
  - destruct (SubnetByLocation_ptr _ _ f0 ptr fam) as [[r f2]|] eqn:Ed; [|done]. injection E1 as <-.
    by eapply SubnetByLocation_inv; [apply Hw|..].
Qed.

Lemma NewFile_inv count : file_inv (NewFile count).
Proof. split; cbn; [apply cache_ok_empty|]. destruct (count =? 0); [done|]. apply cache_ok_empty. Qed.

End lookups.

Section data.
Context (allTopASNs : gset Z) (countryTopASNs : gmap string Z) (ZeroPrefix : Z -> Prefix).
Context `{!AgdCache string nat} `{!AgdCacheSpec string nat}.


End data.

(** ** Examples *)

#[local] Instance loc_cache : AgdCache string nat := fun_cache _ _.
#[local] Instance loc_cache_spec : AgdCacheSpec string nat := fun_cache_spec _ _.

Definition some_network (ip bits : Z) (ctry : string) : network := {|
  nw_asn := Ok 64500; nw_country := Ok {| cr_Continent := "EU"; cr_Country := ctry; cr_Subdivisions := [] |};
  nw_IP := be_bytes 4 ip; nw_Prefix := Ok {| p_ip := Addr4 ip; p_bits := bits |} |}.

Definition some_reader (nets : list network) : Reader := {|
  rd_asn _ := Ok 64500; rd_country _ := Ok {| cr_Continent := "EU"; cr_Country := "NL"; cr_Subdivisions := [] |};
  rd_Networks := nets; rd_Err := None |}.

Definition some_nets : list network := [some_network 167772160 16 "NL"; some_network 184549376 20 "NL"; some_network 0 8 ""].

Lemma country_subnets_witness :
  exists m4 m6, resetCountrySubnets (some_reader some_nets) = Ret (Ok (m4, m6)) /\
    m4 !! "NL"%string = Some {| p_ip := Addr4 184549376; p_bits := 24 |} /\
    subnet_for 24 (cands true "NL"%string (omap country_entry some_nets)) (m4 !! "NL"%string).
Proof.
  destruct (country_subnets (some_reader some_nets)) as (m4 & m6 & E & Hall).
  { repeat constructor; try (vm_compute; reflexivity); try (vm_compute; discriminate);
      try (intros X; vm_compute in X; discriminate X). }
  { reflexivity. }
  exists m4, m6. split; [exact E|]. split; [|exact (proj1 (Hall "NL"%string))].
  assert (match resetCountrySubnets (some_reader some_nets) with Ret (Ok ms) => ms.1 !! "NL"%string | _ => None end
    = Some {| p_ip := Addr4 184549376; p_bits := 24 |}) as Em by (vm_compute; reflexivity).
  rewrite E in Em. exact Em.
Defined.

Definition no_zero (fam : Z) : Prefix := PrefixZero.

Definition geo_evs : list geo_event :=
  [GeoRefresh (Ok (some_reader [])) (Ok (some_reader [])); GeoData "a.example" (Addr4 167772161);
   GeoSubnet {| Country := "NL"; Continent := "EU"; TopSubdivision := ""; ASN := 64500 |} AddrFamilyIPv4].


(** A subnet of a country may be narrower than the desired length: once a broad
    network has been seen, a single address, whose length is closer to the
    desired one, replaces it, and the last step only cuts broader ones. *)
Theorem narrow_subnet_kept :
  exists m6, resetCountrySubnets (some_reader [some_network 167772160 8 "NL"; some_network 184549377 32 "NL"])
    = Ret (Ok ({["NL"%string := {| p_ip := Addr4 184549377; p_bits := 32 |}]}, m6)).
Proof. eexists. vm_compute. reflexivity. Qed.

(** Looking up the subnet of a location that [Data] has returned changes it in the
    cache: a later [Data] for the same network gives the autonomous system with
    number zero, when the country has no top autonomous system, although the
    file says otherwise. *)
Theorem subnet_lookup_corrupts_cache :
  (let! f := Refresh ∅ (NewFile 0) (Ok (some_reader [])) (Ok (some_reader [])) in
   let! d1 := Data f.2 "" (Addr4 167772161) in
   let! s := SubnetByLocation_ptr ∅ (fun _ => PrefixZero) d1.2 0 AddrFamilyIPv4 in
   let! d2 := Data s.2 "" (Addr4 167772162) in
   Ret (d1.1, ASN <$> f_locs d1.2 !! 0%nat, d2.1, ASN <$> f_locs d2.2 !! 0%nat))
  = Ret (Ok (Some 0%nat), Some 64500, Ok (Some 0%nat), Some 0) /\
  rd_asn (some_reader []) (AsSlice (Addr4 167772162)) = Ok 64500.
Proof. split; vm_compute; reflexivity. Qed.

(** A refresh that fails while it scans the file of countries loses the subnets
    that were in use. *)
Theorem failed_refresh_drops_subnets :
  let bad := {| rd_asn _ := Ok 64500; rd_country _ := Err (ErrConst "bad file"); rd_Networks := []; rd_Err := Some (ErrConst "bad file") |} in
  (let! r1 := Refresh ∅ (NewFile 0) (Ok (some_reader [])) (Ok (some_reader some_nets)) in
   let! r2 := Refresh ∅ r1.2 (Ok (some_reader [])) (Ok bad) in
   Ret (r1.1, bool_decide (is_Some (ipv4CountrySubnets r1.2 !! "NL"%string)),
        bool_decide (is_Some r2.1), bool_decide (is_Some (ipv4CountrySubnets r2.2 !! "NL"%string))))
  = Ret (None, true, true, false).
Proof. vm_compute. reflexivity. Qed.
