(* ===== verification/Http.v ===== *)
(** What the handlers use of net/http: requests, and the recorded response that a
    handler builds. *)

From S2P Require Import Prelude GoStd.

Open Scope Z_scope.

Record Request := {
  r_Method : string;
  r_Path : string;
  r_Host : string;
  r_RemoteAddr : string;
  r_Header : gmap string (list string);
}.

Definition set_Header (r : Request) (h : gmap string (list string)) : Request :=
  {| r_Method := r_Method r; r_Path := r_Path r; r_Host := r_Host r; r_RemoteAddr := r_RemoteAddr r; r_Header := h |}.

(** [Header.Set], [Header.Del] and [Header.Get] with canonical names. *)
Definition hdr_Set (h : gmap string (list string)) (k v : string) : gmap string (list string) := <[k := [v]]> h.
Definition hdr_Del (h : gmap string (list string)) (k : string) : gmap string (list string) := delete k h.
Definition hdr_Get (h : gmap string (list string)) (k : string) : string :=
  default EmptyString (default [] (h !! k) !! 0%nat).

(** A recorded response: the status code is fixed by the first write. *)
Record ResponseWriter := {
  rw_Code : Z;
  rw_Wrote : bool;
  rw_Header : gmap string (list string);
  rw_Body : string;
}.

Definition StatusOK : Z := 200.
Definition StatusFound : Z := 302.
Definition StatusNotFound : Z := 404.
Definition StatusTooManyRequests : Z := 429.
Definition StatusInternalServerError : Z := 500.

(** [httptest.NewRecorder]. *)
Definition NewRecorder : ResponseWriter :=
  {| rw_Code := StatusOK; rw_Wrote := false; rw_Header := ∅; rw_Body := EmptyString |}.

Definition set_rw_Header (w : ResponseWriter) (h : gmap string (list string)) : ResponseWriter :=
  {| rw_Code := rw_Code w; rw_Wrote := rw_Wrote w; rw_Header := h; rw_Body := rw_Body w |}.

Definition WriteHeader (w : ResponseWriter) (code : Z) : ResponseWriter :=
  if rw_Wrote w then w
  else {| rw_Code := code; rw_Wrote := true; rw_Header := rw_Header w; rw_Body := rw_Body w |}.

Definition Write (w : ResponseWriter) (b : string) : ResponseWriter :=
  let w := WriteHeader w StatusOK in
  {| rw_Code := rw_Code w; rw_Wrote := rw_Wrote w; rw_Header := rw_Header w; rw_Body := rw_Body w +:+ b |}.

(** Names of headers. *)
Definition ContentType : string := "Content-Type".
Definition ContentEncoding : string := "Content-Encoding".
Definition AcceptEncoding : string := "Accept-Encoding".
Definition AccessControlAllowOrigin : string := "Access-Control-Allow-Origin".
Definition ServerHdr : string := "Server".
Definition UserAgentHdr : string := "User-Agent".
Definition Location : string := "Location".

(** [http.Error] and [http.NotFound]. *)
Definition http_Error (w : ResponseWriter) (msg : string) (code : Z) : ResponseWriter :=
  let h := hdr_Del (rw_Header w) "Content-Length" in
  let h := hdr_Set h ContentType "text/plain; charset=utf-8" in
  let h := hdr_Set h "X-Content-Type-Options" "nosniff" in
  Write (WriteHeader (set_rw_Header w h) code) (msg +:+ String (ascii_of_nat 10) EmptyString).

Definition NotFound (w : ResponseWriter) : ResponseWriter := http_Error w "404 page not found" StatusNotFound.

(** ** internal/agdhttp *)

Definition HdrValApplicationJSON : string := "application/json".
Definition HdrValApplicationOctetStream : string := "application/octet-stream".
Definition HdrValGzip : string := "gzip".
Definition HdrValTextHTML : string := "text/html".
Definition HdrValTextPlain : string := "text/plain".
Definition HdrValWildcard : string := "*".

Definition RobotsDisallowAll : string :=
  "User-agent: *" +:+ String (ascii_of_nat 10) ("Disallow: /" +:+ String (ascii_of_nat 10) EmptyString).

(** ** net/http/httputil: the headers that a proxy removes *)

(** The bytes of a token of RFC 7230. *)
Definition is_token_byte (c : ascii) : bool :=
  let b := bval c in
  ((48 <=? b) && (b <=? 57)) || ((65 <=? b) && (b <=? 90)) || ((97 <=? b) && (b <=? 122)) ||
  bool_decide (b ∈ [33; 35; 36; 37; 38; 39; 42; 43; 45; 46; 94; 95; 96; 124; 126]).

Definition upper_byte (c : ascii) : ascii :=
  if (97 <=? bval c) && (bval c <=? 122) then byte_of (bval c - 32) else c.

Fixpoint str_forallb (p : ascii -> bool) (s : string) : bool :=
  match s with EmptyString => true | String c s => p c && str_forallb p s end.

(** [textproto.CanonicalMIMEHeaderKey]: [up] says that the next letter is the
    first one of a word. *)
Fixpoint canonical_loop (up : bool) (s : string) : string :=
  match s with
  | EmptyString => EmptyString
  | String c s => String (if up then upper_byte c else lower_byte c) (canonical_loop (bool_decide (c = "-"%char)) s)
  end.

Definition CanonicalHeaderKey (s : string) : string :=
  if str_forallb is_token_byte s then canonical_loop true s else s.

(** [textproto.TrimString]. *)
Definition is_http_space (c : ascii) : bool := bool_decide (bval c ∈ [32; 9; 10; 13]).

Fixpoint trim_left (s : string) : string :=
  match s with String c s' => if is_http_space c then trim_left s' else s | EmptyString => EmptyString end.

Fixpoint trim_right (s : string) : string :=
  match s with
  | EmptyString => EmptyString
  | String c s =>
      let t := trim_right s in
      if is_http_space c && bool_decide (t = EmptyString) then EmptyString else String c t
  end.

Definition TrimString (s : string) : string := trim_right (trim_left s).

(** The options of the Connection header. *)
Definition Connection : string := "Connection".
Definition connection_options (h : gmap string (list string)) : list string :=
  filter (fun o => o <> EmptyString)
    (TrimString <$> mjoin ((fun v => SplitByte v ","%char) <$> default [] (h !! Connection))).

Definition hopHeaders : list string :=
  ["Connection"; "Proxy-Connection"; "Keep-Alive"; "Proxy-Authenticate"; "Proxy-Authorization"; "Te"; "Trailer";
   "Transfer-Encoding"; "Upgrade"]%string.

Definition removeHopByHopHeaders (h : gmap string (list string)) : gmap string (list string) :=
  foldl hdr_Del h ((CanonicalHeaderKey <$> connection_options h) ++ hopHeaders).

(** [upgradeType], and the headers of the outgoing request, up to the call of the
    function that rewrites it. *)
Definition values_contain (h : gmap string (list string)) (k tok : string) : bool :=
  existsb (fun v => existsb (fun o => bool_decide (ascii_lower (TrimString o) = tok)) (SplitByte v ","%char))
    (default [] (h !! k)).

Definition upgradeType (h : gmap string (list string)) : string :=
  if values_contain h Connection "upgrade" then hdr_Get h "Upgrade" else EmptyString.

Definition proxy_out_header (h : gmap string (list string)) : gmap string (list string) :=
  let up := upgradeType h in
  let out := removeHopByHopHeaders h in
  let out := if values_contain h "Te" "trailers" then hdr_Set out "Te" "trailers" else out in
  let out := if bool_decide (up = EmptyString) then out
             else hdr_Set (hdr_Set out Connection "Upgrade") "Upgrade" up in
  hdr_Del (hdr_Del (hdr_Del (hdr_Del out "Forwarded") "X-Forwarded-For") "X-Forwarded-Host") "X-Forwarded-Proto".

(** [singleJoiningSlash]. *)
Definition singleJoiningSlash (a b : string) : string :=
  match HasSuffix a "/", HasPrefix b "/" with
  | true, true => a +:+ str_drop 1 b
  | false, false => a +:+ "/" +:+ b
  | _, _ => a +:+ b
  end.

(** * Facts *)

Lemma foldl_hdr_Del ks : forall h k,
  foldl hdr_Del h ks !! k = if bool_decide (k ∈ ks) then None else h !! k.
Proof.
  induction ks as [|x ks IH]; intros h k; [done|]. cbn [foldl]. rewrite IH. unfold hdr_Del.
  destruct (decide (k = x)) as [->|Hne].
  - rewrite lookup_delete_eq. rewrite (bool_decide_eq_true_2 (x ∈ x :: ks)) by left. by destruct (bool_decide _).
  - rewrite lookup_delete_ne by done.
    by rewrite (bool_decide_ext (k ∈ x :: ks) (k ∈ ks)) by (rewrite elem_of_cons; naive_solver).
Qed.

(** What the proxy leaves of a header that has no meaning of its own for it. *)
Lemma proxy_out_header_lookup h k :
  k ∉ hopHeaders -> k ∉ ["Forwarded"; "X-Forwarded-For"; "X-Forwarded-Host"; "X-Forwarded-Proto"]%string ->
  proxy_out_header h !! k =
    if bool_decide (k ∈ CanonicalHeaderKey <$> connection_options h) then None else h !! k.
Proof.
  intros Hh Hf. rewrite !not_elem_of_cons in Hf. destruct Hf as (? & ? & ? & ? & _).
  unfold hopHeaders in Hh. rewrite !not_elem_of_cons in Hh. destruct Hh as (? & ? & ? & ? & ? & ? & ? & ? & ? & _).
  unfold proxy_out_header, hdr_Del at 1 2 3 4. rewrite !lookup_delete_ne by done.
  assert (removeHopByHopHeaders h !! k =
    if bool_decide (k ∈ CanonicalHeaderKey <$> connection_options h) then None else h !! k) as <-.
  { unfold removeHopByHopHeaders. rewrite foldl_hdr_Del.
    assert (k ∉ hopHeaders) by (unfold hopHeaders; rewrite !not_elem_of_cons; set_solver).
    assert (bool_decide (k ∈ (CanonicalHeaderKey <$> connection_options h) ++ hopHeaders) =
      bool_decide (k ∈ CanonicalHeaderKey <$> connection_options h)) as -> by (apply bool_decide_ext; set_solver). done. }
  destruct (bool_decide _), (values_contain _ _ _); unfold hdr_Set, Connection; by rewrite ?lookup_insert_ne by done.
Qed.
