(* ===== verification/DnsCheck.v ===== *)
(** Checks of the DNS settings of clients: internal/dnscheck (dnscheck.go,
    remotekv.go), and the key-value storages that it uses (internal/remotekv:
    remotekv.go, cachekv.go, keynamespace.go).

    A DNS request for a name with a random identifier is recorded under this
    identifier, and an HTTP request for the same name gets the record.  The
    remote storage is an interface; the encoding of records, the names of
    protocols and TLS curves, and the expiring cache are parameters. *)

From S2P Require Import Prelude GoStd Utf8 NetIP HumanID DnsMsg Filter FilterConfig RuleList Access Agd InitialMW PreMW.
From S2P Require Import Http.

Open Scope Z_scope.

(** ** remotekv.go *)

(** A storage with its state. *)
Record KV := {
  kv_state : Type;
  kv_Get : kv_state -> string -> result error (option string) * kv_state;
  kv_Set : kv_state -> string -> string -> option error * kv_state;
}.

(** keynamespace.go *)
Definition KeyNamespace (prefix : string) (kv : KV) : KV := {|
  kv_state := kv_state kv;
  kv_Get s key := kv_Get kv s (prefix +:+ key);
  kv_Set s key val := kv_Set kv s (prefix +:+ key) val;
|}.

(** cachekv.go *)
Definition CacheKV `{!AgdCache string string} : KV := {|
  kv_state := Filter.cache;
  kv_Get c key := let '(val, c) := cget c key in (Ok val, c);
  kv_Set c key val := (None, cset c key val);
|}.

(** ** Parameters *)

(** [go-cache]: the time is an argument. *)
Class GoCache := {
  gc : Type;
  gc_New : Z -> gc;
  gc_exp : gc -> Z;
  gc_Get : Z -> gc -> string -> option string;
  gc_SetDefault : Z -> gc -> string -> string -> gc;
}.

(** A value that has been set is there until it expires, unless it is set again. *)
Class GoCacheSpec `{GoCache} : Prop := {
  gc_exp_new d : gc_exp (gc_New d) = d;
  gc_exp_set now c k v : gc_exp (gc_SetDefault now c k v) = gc_exp c;
  gc_get_set now c k v t : now <= t <= now + gc_exp c -> gc_Get t (gc_SetDefault now c k v) k = Some v;
  gc_get_other now c k k' v t : k' <> k -> gc_Get t (gc_SetDefault now c k v) k' = gc_Get t c k';
}.

(** ** dnscheck.go *)

Definition isValidRandomIDRune (r : Z) : bool :=
  ((97 <=? r) && (r <=? 122)) || ((65 <=? r) && (r <=? 90)) || ((48 <=? r) && (r <=? 57)) || (r =? 45).

Section check.
Context `{Netutil}.

Definition validateRandomID (id : string) : option error :=
  wrap_opt "id %q: %w"
    match Inclusion (len id) 4 MaxDomainLabelLen UnitByte with
    | Some err => Some err
    | None =>
        if forallb isValidRandomIDRune (runes id) then None
        else Some (ErrConst "bad id: bad char %q at index %d")
    end.

Definition extractRandomID (name suf : string) : outcome (option string) :=
  if negb (HasSuffix name suf) then Ret None
  else
    let hyphenIdx := len name - len suf - 1 in
    if hyphenIdx <? 0 then Panic "index out of range"
    else
      let! c := index (bytes name) (Z.to_nat hyphenIdx) in
      if negb (bval c =? 45) then Ret None
      else
        let id := str_take (Z.to_nat hyphenIdx) name in
        if Contains id "." then Ret None else Ret (Some id).

(** [None] is a name that does not match; the identifier is empty if the name is
    one of the suffixes. *)
Fixpoint randomIDFromDomain (name : string) (suf : list string) : outcome (result error (option string)) :=
  match suf with
  | [] => Ret (Ok None)
  | s :: suf =>
      if bool_decide (name = s) then Ret (Ok (Some EmptyString))
      else
        let! r := extractRandomID name s in
        match r with
        | Some id =>
            match validateRandomID id with
            | Some err => Ret (Err err)
            | None => Ret (Ok (Some id))
            end
        | None => randomIDFromDomain name suf
        end
  end.

(** ** remotekv.go *)

Record info := {
  in_ClientIP : Addr;
  in_DeviceID : string;
  in_ProfileID : string;
  in_ServerGroupName : string;
  in_ServerName : string;
  in_ServerType : string;
  in_NodeLocation : string;
  in_NodeName : string;
  in_Protocol : string;
  in_TLSCurveID : string;
}.

(** [dnsserver.Protocol.String]. *)
Definition Protocol_String (p : Z) : string :=
  if p =? ProtoDNS then "dns"
  else if p =? ProtoDoH then "doh"
  else if p =? ProtoDoQ then "doq"
  else if p =? ProtoDoT then "dot"
  else if p =? ProtoDNSCrypt then "dnscrypt"
  else "!bad_protocol_" +:+ itoa p.

Context `{MiekgDNS} `{GoCache}.
(** [json.Marshal] of a record, [tls.CurveID.String], and [netutil.SplitHost]. *)
Variable json_Marshal : info -> result error string.
Variable CurveID_String : Z -> string.
Variable SplitHost : string -> result error string.
Variable kv : KV.

Record RemoteKV := {
  dc_cache : gc;
  dc_kv : kv_state kv;
  dc_messages : Constructor;
  dc_domains : list string;
  dc_nodeLocation : string;
  dc_nodeName : string;
  dc_ipv4 : list Addr;
  dc_ipv6 : list Addr;
}.

Definition defaultCacheExp : Z := 60 * second.

Definition NewRemoteKV (s : kv_state kv) (m : Constructor) (domains : list string) (loc name : string)
    (v4 v6 : list Addr) : RemoteKV :=
  {| dc_cache := gc_New defaultCacheExp; dc_kv := s; dc_messages := m; dc_domains := domains;
     dc_nodeLocation := loc; dc_nodeName := name; dc_ipv4 := v4; dc_ipv6 := v6 |}.

Definition with_state (dc : RemoteKV) (c : gc) (s : kv_state kv) : RemoteKV :=
  {| dc_cache := c; dc_kv := s; dc_messages := dc_messages dc; dc_domains := dc_domains dc;
     dc_nodeLocation := dc_nodeLocation dc; dc_nodeName := dc_nodeName dc; dc_ipv4 := dc_ipv4 dc;
     dc_ipv6 := dc_ipv6 dc |}.

(** The curve of the connection; [None] is a connection without TLS. *)
Definition tlsCurveID (tls : option Z) : string :=
  match tls with
  | None => EmptyString
  | Some c => if c =? 0 then EmptyString else CurveID_String c
  end.

Definition newInfo (dc : RemoteKV) (tls : option Z) (ri : RequestInfo) : info :=
  let srvInfo := ri_ServerInfo ri in
  {| in_ClientIP := ri_RemoteIP ri;
     in_DeviceID := match DeviceData ri with Some (_, d) => d_ID d | None => EmptyString end;
     in_ProfileID := match DeviceData ri with Some (p, _) => p_ID p | None => EmptyString end;
     in_ServerGroupName := rsi_GroupName srvInfo;
     in_ServerName := rsi_Name srvInfo;
     in_ServerType := if rsi_ProfilesEnabled srvInfo then "private" else "public";
     in_NodeLocation := dc_nodeLocation dc;
     in_NodeName := dc_nodeName dc;
     in_Protocol := Protocol_String (rsi_Protocol srvInfo);
     in_TLSCurveID := tlsCurveID tls |}.

Definition dc_resp (dc : RemoteKV) (ri : RequestInfo) (req : Msg) : outcome (result error Msg) :=
  let qt := ri_QType ri in
  if negb (qt =? TypeA) && negb (qt =? TypeAAAA) then Ret (Ok (NewRespRCode (ri_Messages ri) req RcodeSuccess))
  else if qt =? TypeA then NewRespIP (dc_messages dc) req (dc_ipv4 dc)
  else NewRespIP (dc_messages dc) req (dc_ipv6 dc).

(** The response, the new state, and the errors that have been collected. *)
Definition dc_Check (now : Z) (tls : option Z) (dc : RemoteKV) (req : Msg) (ri : RequestInfo)
    : outcome (result error (option Msg) * RemoteKV * list error) :=
  let respond (dc : RemoteKV) (errs : list error) :=
    let! r := dc_resp dc ri req in
    Ret (match r with Ok m => Ok (Some m) | Err e => Err e end, dc, errs) in
  let! r := randomIDFromDomain (ri_Host ri) (dc_domains dc) in
  match r with
  | Err err => Ret (Err err, dc, [])
  | Ok None => Ret (Ok None, dc, [])
  | Ok (Some randomID) =>
      if bool_decide (randomID = EmptyString) then respond dc []
      else
        match json_Marshal (newInfo dc tls ri) with
        | Err err => Ret (Err (ErrWrap "encoding value for key %q for remote kv: %w" err), dc, [])
        | Ok b =>
            let c := gc_SetDefault now (dc_cache dc) randomID b in
            let '(err, s) := kv_Set kv (dc_kv dc) randomID b in
            respond (with_state dc c s) (match err with Some e => [e] | None => [] end)
        end
  end.

Definition dc_info (now : Z) (dc : RemoteKV) (randomID : string)
    : result error (option string) * RemoteKV * list error :=
  match gc_Get now (dc_cache dc) randomID with
  | Some inf => (Ok (Some inf), dc, [])
  | None =>
      let '(r, s) := kv_Get kv (dc_kv dc) randomID in
      let dc := with_state dc (dc_cache dc) s in
      match r with
      | Err err => (Err (ErrWrap "getting from remote kv: %w" err), dc, [err])
      | Ok inf => (Ok inf, dc, [])
      end
  end.

(** [err.Error()] of the response is a parameter. *)
Variable error_text : error -> string.

Definition ErrRateLimited : string := "rate limited".

Definition serveCheckTest (now : Z) (dc : RemoteKV) (w : ResponseWriter) (r : Request)
    : outcome (ResponseWriter * RemoteKV * list error) :=
  match SplitHost (r_Host r) with
  | Err _ => Ret (NotFound w, dc, [])
  | Ok host =>
      let! id := randomIDFromDomain host (dc_domains dc) in
      match id with
      | Err _ | Ok None => Ret (NotFound w, dc, [])
      | Ok (Some randomID) =>
          if bool_decide (randomID = EmptyString) then Ret (NotFound w, dc, [])
          else
            let '(inf, dc, errs) := dc_info now dc randomID in
            Ret match inf with
                | Err err =>
                    (http_Error w (error_text err)
                       (if Is err ErrRateLimited then StatusTooManyRequests else StatusInternalServerError), dc, errs)
                | Ok None => (NotFound w, dc, errs)
                | Ok (Some inf) =>
                    let h := hdr_Set (rw_Header w) ContentType HdrValApplicationJSON in
                    let h := hdr_Set h AccessControlAllowOrigin HdrValWildcard in
                    (Write (set_rw_Header w h) inf, dc, errs)
                end
      end
  end.

Definition dc_ServeHTTP (now : Z) (dc : RemoteKV) (w : ResponseWriter) (r : Request)
    : outcome (ResponseWriter * RemoteKV * list error) :=
  if bool_decide (r_Path r = "/dnscheck/test"%string) then serveCheckTest now dc w r
  else Ret (NotFound w, dc, []).

End check.

(** * Facts *)

Section facts.
Context `{!Netutil} `{!MiekgDNS} `{!GoCache} `{!GoCacheSpec}.
Variable json_Marshal : info -> result error string.
Variable CurveID_String : Z -> string.
Variable SplitHost : string -> result error string.
Variable kv : KV.
Variable error_text : error -> string.

(** ** Identifiers *)

Lemma HasSuffix_split name suf : HasSuffix name suf = true -> name <> suf ->
  exists p c, name = p +:+ String c suf.
Proof.
  intros (t & ->)%HasSuffix_spec Hne. destruct (decide (t = EmptyString)) as [->|Ht]; [done|].
  assert (exists l x, bytes t = l ++ [x]) as (l & x & El).
  { assert (bytes t <> []) as Hn by (intros E; apply Ht, bytes_inj; by rewrite E).
    destruct (exists_last Hn) as (l & x & E). by exists l, x. }
  exists (of_bytes l), x. apply bytes_inj. rewrite !bytes_append, El, bytes_of_bytes, <- app_assoc. done.
Qed.

Lemma extractRandomID_spec name suf : name <> suf ->
  exists r, extractRandomID name suf = Ret r /\
    forall id, r = Some id <-> name = id +:+ "-" +:+ suf /\ Contains id "." = false.
Proof.
  intros Hne. unfold extractRandomID. destruct (HasSuffix name suf) eqn:Es; cbn [negb].
  2:{ exists None. split; [done|]. intros id. split; [done|]. intros [-> _]. exfalso.
      enough (HasSuffix (id +:+ "-" +:+ suf) suf = true) by congruence. apply HasSuffix_spec.
      exists (id +:+ "-"). by rewrite append_assoc. }
  destruct (HasSuffix_split _ _ Es Hne) as (p & c & ->).
  assert (len (p +:+ String c suf) - len suf - 1 = len p) as ->
    by (unfold len; rewrite length_append; cbn [String.length]; lia).
  pose proof (len_nonneg p). destruct (len p <? 0) eqn:E0; [lia|]. unfold len. rewrite Nat2Z.id.
  rewrite (index_Some _ _ c).
  2:{ rewrite bytes_append, <- length_bytes. rewrite lookup_app_r by done. by rewrite Nat.sub_diag. }
  cbn [outcome_bind]. rewrite str_take_append.
  assert (forall id, p +:+ String c suf = id +:+ "-" +:+ suf -> p = id /\ c = "-"%char) as Hinj.
  { intros id E. apply (f_equal bytes) in E. rewrite !bytes_append in E. cbn in E.
    change (bytes p ++ [c] ++ bytes suf = bytes id ++ ["-"%char] ++ bytes suf) in E.
    rewrite !app_assoc in E. apply app_inj_2 in E as [E _]; [|done]. apply app_inj_2 in E as [E1 E2]; [|done].
    split; [by apply bytes_inj|]. by injection E2. }
  destruct (bval c =? 45) eqn:Ec; cbn [negb].
  - assert (c = "-"%char) as -> by (apply bval_inj; apply Z.eqb_eq in Ec; rewrite Ec; reflexivity).
    destruct (Contains p ".") eqn:Ed; (eexists; split; [reflexivity|]); intros id; split.
    + done.
    + intros [E Hd]. apply Hinj in E as [-> _]. congruence.
    + intros [= <-]. done.
    + intros [E Hd]. by apply Hinj in E as [-> _].
  - eexists. split; [reflexivity|]. intros id. split; [done|]. intros [E _]. apply Hinj in E as [_ ->]. done.
Qed.

Lemma randomIDFromDomain_spec name suf :
  exists r, randomIDFromDomain name suf = Ret r /\
    forall id, r = Ok (Some id) -> id <> EmptyString ->
      exists s, s ∈ suf /\ name = id +:+ "-" +:+ s /\ Contains id "." = false /\ validateRandomID id = None.
Proof.
  induction suf as [|s suf (r & Er & Hr)]; cbn [randomIDFromDomain]; [by eexists|].
  destruct (bool_decide (name = s)) eqn:Ens.
  { eexists. split; [reflexivity|]. by intros id [= <-]. }
  apply bool_decide_eq_false in Ens. destruct (extractRandomID_spec name s Ens) as (x & -> & Hx). cbn [outcome_bind].
  destruct x as [id|].
  - destruct (validateRandomID id) as [e|] eqn:Ev; (eexists; split; [reflexivity|]); [done|].
    intros id' [= <-] _. destruct (proj1 (Hx id) eq_refl) as [-> Hd]. exists s. split_and!; [by left|done..].
  - exists r. split; [done|]. intros id E Hid. destruct (Hr id E Hid) as (s' & ? & ?). exists s'. by split; [right|].
Qed.

(** ** The record of a request *)

Notation RemoteKV := (RemoteKV kv).
Notation Check := (dc_Check json_Marshal CurveID_String kv).
Notation ServeHTTP := (dc_ServeHTTP SplitHost kv error_text).

Inductive dc_event :=
  | DcCheck (now : Z) (tls : option Z) (req : Msg) (ri : RequestInfo)
  | DcHTTP (now : Z) (r : Request).

Definition dc_exec (dc : RemoteKV) (e : dc_event) : outcome RemoteKV :=
  match e with
  | DcCheck now tls req ri => let! r := Check now tls dc req ri in Ret r.1.2
  | DcHTTP now r => let! r := ServeHTTP now dc NewRecorder r in Ret r.1.2
  end.

(** The event does not record another request under the identifier. *)
Definition other_id (domains : list string) (id : string) (e : dc_event) : Prop :=
  match e with
  | DcCheck _ _ _ ri => randomIDFromDomain (ri_Host ri) domains <> Ret (Ok (Some id))
  | DcHTTP _ _ => True
  end.

(** What both kinds of events keep. *)
Definition keeps (id : string) (dc dc' : RemoteKV) : Prop :=
  dc_domains kv dc' = dc_domains kv dc /\ forall t, gc_Get t (dc_cache kv dc') id = gc_Get t (dc_cache kv dc) id.

Lemma dc_exec_keeps id dc e dc' :
  other_id (dc_domains kv dc) id e -> dc_exec dc e = Ret dc' -> keeps id dc dc'.
Proof.
  destruct e as [now tls req ri|now r]; cbn [other_id dc_exec]; intros Ho E.
  - unfold dc_Check in E. destruct (randomIDFromDomain _ _) as [[[id'|]|]|] eqn:Er; [| |by injection E as <-|done].
    2:{ by injection E as <-. }
    cbn [outcome_bind] in E. destruct (bool_decide (id' = EmptyString)).
    { destruct (dc_resp kv dc ri req); [|done]. by injection E as <-. }
    destruct (json_Marshal _) as [b|]; [|by injection E as <-].
    destruct (kv_Set kv (dc_kv kv dc) id' b) as [err s]. destruct (dc_resp kv _ ri req); [|done]. injection E as <-.
    split; [done|]. intros t. cbn. apply gc_get_other. congruence.
  - unfold dc_ServeHTTP in E. destruct (bool_decide _); [|by injection E as <-]. unfold serveCheckTest in E.
    destruct (SplitHost (r_Host r)) as [host|]; [|by injection E as <-].
    destruct (randomIDFromDomain _ _) as [[[id'|]|]|]; [|by injection E as <-..|done]. cbn [outcome_bind] in E.
    destruct (bool_decide (id' = EmptyString)); [by injection E as <-|]. unfold dc_info in E.
    destruct (gc_Get now (dc_cache kv dc) id'); [by injection E as <-|].
    destruct (kv_Get kv (dc_kv kv dc) id') as [[[x|]|] s]; by injection E as <-.
Qed.

(** C30. A client that asks for a check name over DNS and then, within a minute,
    for the same name over HTTP gets the record of its DNS request, whatever the
    remote storage does and whatever other checks are made in between: the
    status is 200 and the body is the encoded record. *)
Theorem check_is_reported now tls dc req ri id b dc1 res errs evs dc2 t r :
  gc_exp (dc_cache kv dc) = defaultCacheExp ->
  randomIDFromDomain (ri_Host ri) (dc_domains kv dc) = Ret (Ok (Some id)) -> id <> EmptyString ->
  json_Marshal (newInfo CurveID_String kv dc tls ri) = Ok b ->
  Check now tls dc req ri = Ret (res, dc1, errs) ->
  Forall (other_id (dc_domains kv dc) id) evs -> for_each dc_exec dc1 evs = Ret dc2 ->
  now <= t <= now + defaultCacheExp ->
  r_Path r = "/dnscheck/test"%string -> SplitHost (r_Host r) = Ok (ri_Host ri) ->
  exists w, ServeHTTP t dc2 NewRecorder r = Ret (w, dc2, []) /\ rw_Code w = StatusOK /\ rw_Body w = b.
Proof.
  intros Hexp Hid Hne Hb E Hevs Hrun Ht Hpath Hhost.
  assert (gc_Get t (dc_cache kv dc1) id = Some b /\ dc_domains kv dc1 = dc_domains kv dc) as [G1 G2].
  { unfold dc_Check in E. rewrite Hid in E. cbn [outcome_bind] in E. rewrite bool_decide_eq_false_2 in E by done.
    rewrite Hb in E. destruct (kv_Set kv (dc_kv kv dc) id b) as [err s]. destruct (dc_resp kv _ ri req); [|done].
    injection E as _ <- _. split; [|done]. cbn. apply gc_get_set. by rewrite Hexp. }
  assert (gc_Get t (dc_cache kv dc2) id = Some b /\ dc_domains kv dc2 = dc_domains kv dc) as [G3 G4].
  { clear E Hexp Hid Hb. revert dc1 G1 G2 Hrun.
    induction Hevs as [|e evs Ho _ IH]; intros dc1 G1 G2 Hrun; cbn [for_each] in Hrun; [by injection Hrun as <-|].
    destruct (dc_exec dc1 e) as [dc'|] eqn:Ee; [|done]. cbn [outcome_bind] in Hrun.
    rewrite <- G2 in Ho. destruct (dc_exec_keeps _ _ _ _ Ho Ee) as [Hd Hg].
    apply (IH dc'); [by rewrite Hg|by rewrite Hd|done]. }
  unfold dc_ServeHTTP. rewrite bool_decide_eq_true_2 by done. unfold serveCheckTest. rewrite Hhost, G4, Hid.
  cbn [outcome_bind]. rewrite bool_decide_eq_false_2 by done. unfold dc_info. rewrite G3.
  eexists. split; [reflexivity|]. done.
Qed.

End facts.

(** ** Examples *)

#[local] Existing Instance ref_miekg.
#[local] Existing Instance ref_netutil.

(** A map with the times at which the values expire. *)
#[local] Instance ref_gc : GoCache := {|
  gc := Z * gmap string (Z * string);
  gc_New d := (d, ∅);
  gc_exp c := c.1;
  gc_Get t c k := match c.2 !! k with Some (e, v) => if t <=? e then Some v else None | None => None end;
  gc_SetDefault now c k v := (c.1, <[k := (now + c.1, v)]> c.2);
|}.
#[local] Instance ref_gc_spec : GoCacheSpec.
Proof.
  split; [done|done| |].
  - intros now c k v t Ht. cbn in *. rewrite lookup_insert_eq. by destruct (t <=? now + c.1) eqn:E; [|lia].
  - intros now c k k' v t Hk. cbn. by rewrite lookup_insert_ne.
Qed.

(** A storage that fails. *)
Definition failing_kv : KV := {|
  kv_state := unit;
  kv_Get _ _ := (Err (ErrConst ErrRateLimited), tt);
  kv_Set _ _ _ := (Some (ErrConst ErrRateLimited), tt);
|}.

Definition some_check : RemoteKV failing_kv :=
  NewRemoteKV failing_kv tt some_constructor ["dnscheck.example"] "ams" "node1" [Addr4 1] [].

Definition check_ri (host : string) : RequestInfo := {|
  ri_DeviceResult := None; ri_Location := None; ri_ECS := None;
  ri_FilteringGroup := ri_FilteringGroup (txt_ri host); ri_Messages := some_constructor;
  ri_ServerInfo := ri_ServerInfo (txt_ri host);
  ri_RemoteIP := Addr4 167772161; ri_Host := host; ri_QType := TypeTXT; ri_QClass := ClassINET |}.

(** A record as the address of the client. *)
Definition address_json (i : info) : result error string := Ok (IP_String (in_ClientIP i)).

Definition some_http_request : Request :=
  {| r_Method := "GET"; r_Path := "/dnscheck/test"; r_Host := "1234-abcd-dnscheck.example"; r_RemoteAddr := "10.0.0.1:1234";
     r_Header := ∅ |}.

Notation check_run := (dc_Check address_json itoa failing_kv 100 None some_check some_request
  (check_ri "1234-abcd-dnscheck.example")).

Definition checked : RemoteKV failing_kv := match check_run with Ret (_, dc, _) => dc | Panic _ => some_check end.

Definition other_check : list dc_event := [DcCheck 200 None some_request (check_ri "9999-dnscheck.example")].

Definition checked_later : RemoteKV failing_kv :=
  match for_each (dc_exec address_json itoa Ok failing_kv (fun _ => EmptyString)) checked other_check with
  | Ret dc => dc
  | Panic _ => some_check
  end.

Lemma check_is_reported_witness :
  exists res errs w, check_run = Ret (res, checked, errs) /\
    for_each (dc_exec address_json itoa Ok failing_kv (fun _ => EmptyString)) checked other_check = Ret checked_later /\
    dc_ServeHTTP Ok failing_kv (fun _ => EmptyString) (100 + 60 * second) checked_later NewRecorder some_http_request
      = Ret (w, checked_later, []) /\
    rw_Code w = StatusOK /\ rw_Body w = "10.0.0.1"%string.
Proof.
  assert (exists res errs, check_run = Ret (res, checked, errs)) as (res & errs & E)
    by (do 2 eexists; reflexivity).
  assert (for_each (dc_exec address_json itoa Ok failing_kv (fun _ => EmptyString)) checked other_check = Ret checked_later)
    as E2 by reflexivity.
  destruct (check_is_reported address_json itoa Ok failing_kv (fun _ => EmptyString) 100 None some_check some_request
    (check_ri "1234-abcd-dnscheck.example") "1234-abcd" "10.0.0.1" checked res errs
    other_check checked_later (100 + 60 * second) some_http_request)
    as (w & Hw & Hc & Hb); try reflexivity.
  { intros X. discriminate X. }
  { exact E. }
  { constructor; [|constructor]. intros X. vm_compute in X. discriminate X. }
  { unfold second, defaultCacheExp, second. lia. }
  exists res, errs, w. split; [exact E|]. split; [exact E2|]. split; [exact Hw|]. split; [exact Hc|exact Hb].
Defined.
