(* ===== verification/WebSvc.v ===== *)
(** The web service: internal/websvc (linkip.go, nondoh.go, blockpage.go,
    static.go, websvc.go).

    The handlers build recorded responses.  The proxied backend, the validator of
    well-known requests, the DNS checks, gzip and the files are parameters.  The
    metrics and the logs are left out. *)

From S2P Require Import Prelude GoStd Filter Http.

Open Scope Z_scope.

(** ** linkip.go *)

Definition shouldProxyGet (parts : list string) : bool :=
  let l := length parts in
  bool_decide (parts !! 0%nat = Some "linkip"%string) &&
  ((l =? 3)%nat || ((l =? 4)%nat && bool_decide (parts !! 3%nat = Some "status"%string))).

Definition shouldProxyPost (parts : list string) : bool :=
  let l := length parts in
  (bool_decide (parts !! 0%nat = Some "ddns"%string) && (l =? 4)%nat) ||
  (bool_decide (parts !! 0%nat = Some "linkip"%string) && (l =? 3)%nat).

Definition slash : ascii := "/"%char.

Definition shouldProxyRequest (r : Request) : bool :=
  let parts := SplitNByte 5 (TrimPrefix (r_Path r) "/") slash in
  let l := length parts in
  if (l <? 3)%nat || (4 <? l)%nat then false
  else if bool_decide (r_Method r = "GET"%string) then shouldProxyGet parts
  else if bool_decide (r_Method r = "POST"%string) then shouldProxyPost parts
  else false.

Definition CFConnectingIP : string := "Cf-Connecting-Ip".
Definition Forwarded : string := "Forwarded".
Definition TrueClientIP : string := "True-Client-Ip".
Definition XRealIP : string := "X-Real-Ip".
Definition XConnectingIP : string := "X-Connecting-Ip".
Definition XForwardedFor : string := "X-Forwarded-For".
Definition XForwardedHost : string := "X-Forwarded-Host".
Definition XForwardedProto : string := "X-Forwarded-Proto".

Section handlers.
(** [agdhttp.UserAgent]; [netutil.SplitHost], which is [net.SplitHostPort] (the
    function that [SetXForwarded] calls) without the port; the answer of the backend to a
    request, or the error of the round trip; [err.Error]. *)
Variable UserAgent : string.
Variable SplitHost : string -> result error string.
Variable backend : Request -> result error ResponseWriter.
Variable error_text : error -> string.

Record linkedIPHandler := {
  (** the host and the path of [targetURL] *)
  lh_targetHost : string;
  lh_targetPath : string;
  (** [IsValidWellKnownRequest], if not nil *)
  lh_certValidator : option (Request -> bool);
}.

(** The outgoing request of [httputil.ReverseProxy], which has removed the
    hop-by-hop and forwarding headers, as [rewrite] changes it.  The paths have
    no escaped form of their own. *)
Definition rewrite (prx : linkedIPHandler) (isTLS : bool) (r : Request) : Request :=
  let h := proxy_out_header (r_Header r) in
  let h := hdr_Set h UserAgentHdr UserAgent in
  let h := match SplitHost (r_RemoteAddr r) with
           | Ok ip => hdr_Set h XForwardedFor ip
           | Err _ => hdr_Del h XForwardedFor
           end in
  let h := hdr_Set h XForwardedHost (r_Host r) in
  let h := hdr_Set h XForwardedProto (if isTLS then "https" else "http") in
  {| r_Method := r_Method r; r_Path := singleJoiningSlash (lh_targetPath prx) (r_Path r);
     r_Host := lh_targetHost prx; r_RemoteAddr := r_RemoteAddr r; r_Header := h |}.

Definition modifyResponse (resp : ResponseWriter) : ResponseWriter :=
  set_rw_Header resp (hdr_Set (hdr_Del (rw_Header resp) ServerHdr) AccessControlAllowOrigin HdrValWildcard).

(** The response of the backend, which switches no protocols, is copied to the
    writer without its hop-by-hop headers; [copyHeader] appends the values.  The
    error handler writes nothing. *)
Definition httpProxy_ServeHTTP (prx : linkedIPHandler) (isTLS : bool) (w : ResponseWriter) (r : Request)
    : ResponseWriter * list error :=
  match backend (rewrite prx isTLS r) with
  | Err err => (w, [ErrWrap "proxying: %w" err])
  | Ok resp =>
      let resp := modifyResponse (set_rw_Header resp (removeHopByHopHeaders (rw_Header resp))) in
      let h := map_imap (fun k vs => Some (default [] (rw_Header w !! k) ++ vs)) (rw_Header resp) ∪ rw_Header w in
      (Write (WriteHeader (set_rw_Header w h) (rw_Code resp)) (rw_Body resp), [])
  end.

(** The response, the request that the backend has got, and the collected errors. *)
Definition proxyRequest (prx : linkedIPHandler) (isTLS : bool) (w : ResponseWriter) (r : Request)
    : ResponseWriter * option Request * list error :=
  let hdr := hdr_Del (hdr_Del (hdr_Del (hdr_Del (r_Header r) CFConnectingIP) Forwarded) TrueClientIP) XRealIP in
  match SplitHost (r_RemoteAddr r) with
  | Err err =>
      let err := ErrWrap "websvc: linked ip proxy: getting ip: %w" err in
      (http_Error w (error_text err) StatusInternalServerError, None, [err])
  | Ok ip =>
      let r := set_Header r (hdr_Set hdr XConnectingIP ip) in
      let '(w, errs) := httpProxy_ServeHTTP prx isTLS w r in
      (w, Some (rewrite prx isTLS r), errs)
  end.

(** ** nondoh.go: robots.txt *)

Definition serveRobotsDisallow (w : ResponseWriter) : ResponseWriter :=
  Write (set_rw_Header w (hdr_Set (rw_Header w) ContentType HdrValTextPlain)) RobotsDisallowAll.

Definition linkedIP_ServeHTTP (prx : linkedIPHandler) (isTLS : bool) (w : ResponseWriter) (r : Request)
    : ResponseWriter * option Request * list error :=
  let w := set_rw_Header w (hdr_Set (rw_Header w) ServerHdr UserAgent) in
  let shouldProxy := match lh_certValidator prx with Some v => v r | None => shouldProxyRequest r end in
  if shouldProxy then proxyRequest prx isTLS w r
  else if bool_decide (r_Path r = "/robots.txt"%string) then (serveRobotsDisallow w, None, [])
  else (NotFound w, None, []).

(** ** static.go *)

Record StaticFile := { sf_Headers : gmap string (list string); sf_Content : string }.

Definition StaticContent_ServeHTTP (sc : gmap string StaticFile) (w : ResponseWriter) (r : Request) : ResponseWriter :=
  match sc !! r_Path r with
  | None => NotFound w
  | Some f => Write (WriteHeader (set_rw_Header w (sf_Headers f ∪ rw_Header w)) StatusOK) (sf_Content f)
  end.

(** ** nondoh.go *)

(** [None] for the proxy is [http.NotFoundHandler]; an empty [error404] or
    [error500] is not set. *)
Record Service := {
  svc_certValidator : Request -> bool;
  svc_dnsCheck : ResponseWriter -> Request -> ResponseWriter;
  svc_staticContent : gmap string StaticFile;
  svc_wellKnownProxy : option linkedIPHandler;
  svc_rootRedirectURL : string;
  svc_error404 : string;
  svc_error500 : string;
}.

(** [http.Redirect]: the body for a GET request is a parameter. *)
Variable redirect_body : string -> string.

Definition Redirect (w : ResponseWriter) (r : Request) (url : string) (code : Z) : ResponseWriter :=
  let hadCT := bool_decide (is_Some (rw_Header w !! ContentType)) in
  let h := hdr_Set (rw_Header w) Location url in
  if negb hadCT && (bool_decide (r_Method r = "GET"%string) || bool_decide (r_Method r = "HEAD"%string)) then
    let w := WriteHeader (set_rw_Header w (hdr_Set h ContentType "text/html; charset=utf-8")) code in
    if bool_decide (r_Method r = "GET"%string) then Write w (redirect_body url) else w
  else WriteHeader (set_rw_Header w h) code.

Definition wellKnownProxy_ServeHTTP (svc : Service) (isTLS : bool) (w : ResponseWriter) (r : Request)
    : ResponseWriter * option Request * list error :=
  match svc_wellKnownProxy svc with
  | None => (NotFound w, None, [])
  | Some prx => linkedIP_ServeHTTP prx isTLS w r
  end.

Definition serveDefaultNonDoH (svc : Service) (isTLS : bool) (rec : ResponseWriter) (r : Request)
    : ResponseWriter * option Request * list error :=
  let rec := StaticContent_ServeHTTP (svc_staticContent svc) rec r in
  let '(rec, sent, errs) :=
    if negb (rw_Code rec =? StatusNotFound) then (rec, None, [])
    else if svc_certValidator svc r then wellKnownProxy_ServeHTTP svc isTLS NewRecorder r
    else (rec, None, []) in
  let rec :=
    if bool_decide (hdr_Get (rw_Header rec) ContentType = HdrValApplicationOctetStream)
    then set_rw_Header rec (hdr_Set (rw_Header rec) ContentType HdrValTextPlain) else rec in
  (rec, sent, errs).

Definition svc_serveHTTP (svc : Service) (isTLS : bool) (rec : ResponseWriter) (r : Request)
    : ResponseWriter * option Request * list error :=
  if bool_decide (r_Path r = "/dnscheck/test"%string) then (svc_dnsCheck svc rec r, None, [])
  else if bool_decide (r_Path r = "/robots.txt"%string) then (serveRobotsDisallow rec, None, [])
  else if bool_decide (r_Path r = "/"%string) then
    if bool_decide (svc_rootRedirectURL svc = EmptyString) then (NotFound rec, None, [])
    else (Redirect rec r (svc_rootRedirectURL svc) StatusFound, None, [])
  else serveDefaultNonDoH svc isTLS rec r.

(** The headers and the body. *)
Definition processRec (svc : Service) (respHdr : gmap string (list string)) (rec : ResponseWriter)
    : gmap string (list string) * string :=
  let page (body : string) :=
    if negb (bool_decide (body = EmptyString)) then (hdr_Set respHdr ContentType HdrValTextHTML, body)
    else (respHdr, rw_Body rec) in
  if rw_Code rec =? StatusNotFound then page (svc_error404 svc)
  else if rw_Code rec =? StatusInternalServerError then page (svc_error500 svc)
  else (rw_Header rec ∪ respHdr, rw_Body rec).

Definition svc_ServeHTTP (svc : option Service) (isTLS : bool) (w : ResponseWriter) (r : Request)
    : ResponseWriter * option Request * list error :=
  match svc with
  | None => (NotFound w, None, [])
  | Some svc =>
      let '(rec, sent, errs) := svc_serveHTTP svc isTLS NewRecorder r in
      let '(h, body) := processRec svc (rw_Header w) rec in
      (Write (WriteHeader (set_rw_Header w h) (rw_Code rec)) body, sent, errs)
  end.

(** ** blockpage.go *)

Variable mustGzip : string -> string.

Record blockPageServer := { bp_content : string; bp_gzipContent : string }.

(** [file] is the result of reading the file. *)
Definition bp_Refresh (srv : option blockPageServer) (file : result error string)
    : option error * option blockPageServer :=
  match srv with
  | None => (None, None)
  | Some srv =>
      match file with
      | Err err => (Some (ErrWrap "block page server %q: reading block page file: %w" err), Some srv)
      | Ok content => (None, Some {| bp_content := content; bp_gzipContent := mustGzip content |})
      end
  end.

Definition bp_serve (srv : blockPageServer) (w : ResponseWriter) (r : Request) : ResponseWriter :=
  let h := hdr_Set (rw_Header w) ContentType HdrValTextHTML in
  let '(h, content) :=
    if Contains (hdr_Get (r_Header r) AcceptEncoding) HdrValGzip
    then (hdr_Set h ContentEncoding HdrValGzip, bp_gzipContent srv) else (h, bp_content srv) in
  Write (WriteHeader (set_rw_Header w h) StatusInternalServerError) content.

Definition blockPageHandler (srv : blockPageServer) (w : ResponseWriter) (r : Request) : ResponseWriter :=
  if bool_decide (r_Path r = "/favicon.ico"%string) then NotFound w
  else if bool_decide (r_Path r = "/robots.txt"%string) then serveRobotsDisallow w
  else bp_serve srv w r.

(** ** websvc.go *)

(** The results of shutting down the servers of a group. *)
Definition shutdownServers (srvs : list (option error)) : option error :=
  Join (ErrWrap "server group %s: server at index %d: %w" <$> omap id srvs).

(** The error, and the groups whose servers have been shut down. *)
Fixpoint Shutdown_groups (groups : list (string * list (option error))) : option error * list string :=
  match groups with
  | [] => (None, [])
  | (g, srvs) :: groups =>
      match shutdownServers srvs with
      | Some err => (Some err, [g])
      | None => let '(err, gs) := Shutdown_groups groups in (err, g :: gs)
      end
  end.

(** The three block-page servers are all refreshed; a server that is nil has no
    error. *)
Definition svc_Refresh (bps : list (option blockPageServer * result error string))
    : option error * list (option blockPageServer) :=
  let rs := (fun b => bp_Refresh b.1 b.2) <$> bps in
  (Join (ErrWrap "refreshing %s block page server: %w" <$> omap fst rs), rs.*2).

End handlers.

(** * Facts *)

(** ** The paths that are proxied *)

Lemma SplitNByte_spec n s c :
  ((length (SplitByte s c) <= S n)%nat -> SplitNByte (S n) s c = SplitByte s c) /\
  ((S n < length (SplitByte s c))%nat -> length (SplitNByte (S n) s c) = S n).
Proof.
  revert s. induction n as [|n IH]; intros s.
  { cbn [SplitNByte length]. split; [|done]. rewrite SplitByte_length. intros Hl. rewrite SplitByte_none; [done|lia]. }
  change (SplitNByte (S (S n)) s c) with
    (match Cut s (String c EmptyString) with
     | (before, after, true) => before :: SplitNByte (S n) after c | (_, _, false) => [s] end).
  destruct (Cut s (String c EmptyString)) as [[a b] ok] eqn:Ec. destruct ok.
  - apply Cut_byte_inv in Ec as (-> & Ha). rewrite SplitByte_app, (SplitByte_none a) by done. cbn [app length].
    destruct (IH b) as [IH1 IH2]. split; intros Hl; [by rewrite IH1 by lia|]. cbn [length]. rewrite IH2; lia.
  - assert (CountByte s c = 0%nat) as Hz.
    { unfold Cut in Ec. destruct (Index s (String c EmptyString)) as [i|] eqn:Ei; [done|].
      assert (Contains s (String c EmptyString) = false) as Hn by (unfold Contains; by rewrite Ei).
      destruct (decide (CountByte s c = 0%nat)) as [|Hnz]; [done|]. exfalso.
      enough (Contains s (String c EmptyString) = true) by congruence. apply Contains_spec.
      clear -Hnz. induction s as [|x s IH]; [done|]. cbn [CountByte] in Hnz. destruct (decide (x = c)) as [->|].
      - by exists EmptyString, s.
      - destruct IH as (p & t & ->); [lia|]. by exists (String x p), t. }
    rewrite (SplitByte_none s c Hz). cbn. split; [done|lia].
Qed.

(** The documented forms: the method and the parts of the path between slashes. *)
Definition proxied_form (method : string) (parts : list string) : Prop :=
  match parts with
  | [first; _; _] => first = "linkip"%string /\ (method = "GET"%string \/ method = "POST"%string)
  | [first; _; _; last] =>
      (first = "linkip"%string /\ last = "status"%string /\ method = "GET"%string) \/
      (first = "ddns"%string /\ method = "POST"%string)
  | _ => False
  end.

(** A request is proxied to the backend of linked addresses exactly if it has
    one of the documented forms: GET or POST of /linkip/device/data, GET of
    /linkip/device/data/status, and POST of /ddns/device/data/domain, where the
    parts contain no slash. *)
Theorem proxied_exactly r :
  shouldProxyRequest r = true <->
  exists parts, Forall (fun p => CountByte p slash = 0%nat) parts /\
    TrimPrefix (r_Path r) "/" = JoinByte parts slash /\ proxied_form (r_Method r) parts.
Proof.
  unfold shouldProxyRequest. set (s := TrimPrefix (r_Path r) "/").
  destruct (SplitNByte_spec 4 s slash) as [Hle Hgt].
  assert (forall parts, shouldProxyGet parts = true /\ r_Method r = "GET"%string \/
      shouldProxyPost parts = true /\ r_Method r = "POST"%string <-> proxied_form (r_Method r) parts) as Hform.
  { intros parts. unfold shouldProxyGet, shouldProxyPost, proxied_form.
    destruct parts as [|a [|b [|c [|d [|e parts]]]]]; cbn;
      repeat rewrite ?andb_true_iff, ?orb_true_iff, ?bool_decide_eq_true; intuition congruence. }
  split.
  - intros Hs. destruct (decide (length (SplitByte s slash) <= 5)%nat) as [Hl|Hl].
    + rewrite (Hle Hl) in Hs. exists (SplitByte s slash). split_and!.
      * apply Forall_forall. intros p. apply SplitByte_count.
      * by rewrite JoinByte_SplitByte.
      * apply Hform. destruct ((_ <? 3)%nat || _); [done|]. destruct (bool_decide (r_Method r = "GET"%string)) eqn:Eg.
        { apply bool_decide_eq_true in Eg. by left. }
        destruct (bool_decide (r_Method r = "POST"%string)) eqn:Ep; [|done]. apply bool_decide_eq_true in Ep. by right.
    + rewrite Hgt in Hs by lia. done.
  - intros (parts & Hp & Es & Hf). assert (length parts = 3%nat \/ length parts = 4%nat) as Hl.
    { destruct parts as [|a [|b [|c [|d [|e parts]]]]]; cbn in Hf; try done; auto. }
    assert (SplitByte s slash = parts) as Eparts.
    { rewrite Es. apply SplitByte_JoinByte; [intros ->; cbn in Hl; lia|]. by apply Forall_forall. }
    rewrite Hle, Eparts by (rewrite Eparts; lia).
    assert ((length parts <? 3)%nat || (4 <? length parts)%nat = false) as -> by (destruct Hl as [-> | ->]; reflexivity).
    apply Hform in Hf as [[Hg ->]|[Hg ->]]; done.
Qed.

(** ** What the backend gets *)

Section proxy.
Variable UserAgent : string.
Variable SplitHost : string -> result error string.
Variable backend : Request -> result error ResponseWriter.
Variable error_text : error -> string.

(** C31. The backend of linked addresses is never given an address that the client
    chose: in the request that is sent to it, X-Forwarded-For is the address of
    the connection, X-Connecting-Ip is this address or, only if the client names
    it in its Connection header, missing, and the other headers with which a
    client could claim an address are removed; and only requests of the
    documented forms, or validation requests, are sent. *)
Theorem proxied_address prx isTLS w r w' req errs :
  linkedIP_ServeHTTP UserAgent SplitHost backend error_text prx isTLS w r = (w', Some req, errs) ->
  exists ip, SplitHost (r_RemoteAddr r) = Ok ip /\
    match lh_certValidator prx with Some v => v r = true | None => shouldProxyRequest r = true end /\
    r_Method req = r_Method r /\ r_Path req = singleJoiningSlash (lh_targetPath prx) (r_Path r) /\
    r_Host req = lh_targetHost prx /\ r_Header req !! XForwardedFor = Some [ip] /\
    r_Header req !! XConnectingIP =
      (if bool_decide (XConnectingIP ∈ CanonicalHeaderKey <$> connection_options (r_Header r)) then None else Some [ip]) /\
    Forall (fun h => r_Header req !! h = None) [CFConnectingIP; Forwarded; TrueClientIP; XRealIP].
Proof.
  unfold linkedIP_ServeHTTP. intros E.
  destruct (match lh_certValidator prx with Some v => v r | None => shouldProxyRequest r end) eqn:Es.
  2:{ by destruct (bool_decide _). }
  unfold proxyRequest in E. destruct (SplitHost (r_RemoteAddr r)) as [ip|] eqn:Eip; [|done].
  destruct (httpProxy_ServeHTTP _ _ _ _ _ _ _) as [w1 errs1]. injection E as _ <- _. exists ip.
  split; [done|]. split; [by destruct (lh_certValidator prx)|].
  unfold rewrite. cbn [r_Method r_Path r_Host r_Header set_Header r_RemoteAddr]. rewrite Eip.
  cbv zeta; unfold hdr_Set. split_and!; [done..| | |].
  - rewrite !lookup_insert_ne by done. by rewrite lookup_insert_eq.
  - rewrite !lookup_insert_ne by done. rewrite proxy_out_header_lookup by (vm_compute; set_solver).
    rewrite lookup_insert_eq.
    unfold connection_options, hdr_Del. rewrite lookup_insert_ne by done. by rewrite !lookup_delete_ne by done.
  - apply Forall_forall. intros k Hk. rewrite !elem_of_cons in Hk.
    assert (k ∉ XConnectingIP :: XForwardedProto :: XForwardedHost :: XForwardedFor :: UserAgentHdr :: hopHeaders) as Hn
      by (destruct Hk as [->|[->|[->|[->|Hk%elem_of_nil]]]]; [vm_compute; set_solver..|done]).
    rewrite !lookup_insert_ne by (intros <-; apply Hn; set_solver).
    destruct (decide (k = Forwarded)) as [->|Hf].
    { unfold proxy_out_header, hdr_Del. rewrite !lookup_delete_ne by done. by rewrite lookup_delete_eq. }
    unfold Forwarded in Hf. rewrite proxy_out_header_lookup by set_solver.
    destruct (bool_decide _); [done|]. unfold hdr_Del. rewrite lookup_insert_ne by set_solver.
    destruct Hk as [->|[->|[->|[->|Hk%elem_of_nil]]]]; [..|done];
      repeat first [rewrite lookup_delete_ne by done | rewrite lookup_delete_eq]; done.
Qed.

(** A client that names X-Connecting-Ip in its Connection header makes the proxy
    drop the address that the handler has just set. *)
Theorem connecting_ip_dropped prx isTLS w r ip :
  r_Header r !! Connection = Some ["x-connecting-ip"%string] -> shouldProxyRequest r = true ->
  lh_certValidator prx = None -> SplitHost (r_RemoteAddr r) = Ok ip ->
  exists w' req errs, linkedIP_ServeHTTP UserAgent SplitHost backend error_text prx isTLS w r = (w', Some req, errs) /\
    r_Header req !! XConnectingIP = None.
Proof.
  intros Hc Hs Hv Hip.
  destruct (linkedIP_ServeHTTP UserAgent SplitHost backend error_text prx isTLS w r) as [[w' sent] errs] eqn:E.
  unfold linkedIP_ServeHTTP in E. rewrite Hv, Hs in E. unfold proxyRequest in E. rewrite Hip in E.
  destruct (httpProxy_ServeHTTP _ _ _ _ _ _ _) as [w1 errs1]. injection E as <- <- <-. do 3 eexists. split; [done|].
  unfold rewrite. cbn [r_Header set_Header r_RemoteAddr]. rewrite Hip. cbv zeta; unfold hdr_Set.
  rewrite !lookup_insert_ne by done. rewrite proxy_out_header_lookup by (vm_compute; set_solver).
  rewrite bool_decide_eq_true_2; [done|]. unfold connection_options, hdr_Del.
  rewrite lookup_insert_ne, !lookup_delete_ne by done. rewrite Hc. vm_compute. left.
Qed.

(** The response to a request that cannot be proxied, because the backend fails,
    is a success without a body: the error handler writes nothing. *)
Theorem proxy_failure_is_success prx isTLS r ip err :
  shouldProxyRequest r = true -> lh_certValidator prx = None -> SplitHost (r_RemoteAddr r) = Ok ip ->
  (forall req, backend req = Err err) ->
  let '(w, _, errs) := linkedIP_ServeHTTP UserAgent SplitHost backend error_text prx isTLS NewRecorder r in
  rw_Code w = StatusOK /\ rw_Body w = EmptyString /\ errs = [ErrWrap "proxying: %w" err].
Proof.
  intros Hs Hv Hip Hb. unfold linkedIP_ServeHTTP. rewrite Hv, Hs. unfold proxyRequest. rewrite Hip.
  unfold httpProxy_ServeHTTP. rewrite Hb. done.
Qed.

(** ** Error pages *)

Variable redirect_body : string -> string.

(** Every page that is not found, or that fails, is answered with the page of
    the service for this code, with the type of HTML, if there is one; the code
    is that of the handler; and static files have priority over the proxy. *)
Theorem error_pages svc isTLS w r w' sent errs :
  rw_Wrote w = false -> rw_Body w = EmptyString ->
  svc_ServeHTTP UserAgent SplitHost backend error_text redirect_body (Some svc) isTLS w r = (w', sent, errs) ->
  exists rec, svc_serveHTTP UserAgent SplitHost backend error_text redirect_body svc isTLS NewRecorder r = (rec, sent, errs) /\
    rw_Code w' = rw_Code rec /\
    (rw_Code rec = StatusNotFound -> svc_error404 svc <> EmptyString ->
       rw_Body w' = svc_error404 svc /\ rw_Header w' !! ContentType = Some [HdrValTextHTML]) /\
    (rw_Code rec = StatusInternalServerError -> svc_error500 svc <> EmptyString ->
       rw_Body w' = svc_error500 svc /\ rw_Header w' !! ContentType = Some [HdrValTextHTML]) /\
    (rw_Code rec <> StatusNotFound -> rw_Code rec <> StatusInternalServerError ->
       rw_Body w' = rw_Body rec /\ forall h vs, rw_Header rec !! h = Some vs -> rw_Header w' !! h = Some vs) /\
    (is_Some (svc_staticContent svc !! r_Path r) -> sent = None).
Proof.
  intros Hw Hb. unfold svc_ServeHTTP.
  destruct (svc_serveHTTP _ _ _ _ _ svc isTLS NewRecorder r) as [[rec sent'] errs'] eqn:Er.
  destruct (processRec svc (rw_Header w) rec) as [h body] eqn:Ep. intros [= <- <- <-].
  exists rec. split; [done|]. unfold Write, WriteHeader, set_rw_Header. cbn [rw_Wrote rw_Code rw_Header rw_Body].
  rewrite Hw. cbn [rw_Wrote rw_Code rw_Header rw_Body]. rewrite Hb. cbn [String.append].
  split; [done|]. unfold processRec in Ep. split_and!.
  - intros Hc He. rewrite Hc in Ep. cbn in Ep. rewrite bool_decide_eq_false_2 in Ep by done. injection Ep as <- <-.
    split; [done|]. by rewrite lookup_insert_eq.
  - intros Hc He. rewrite Hc in Ep. cbn in Ep. rewrite bool_decide_eq_false_2 in Ep by done. injection Ep as <- <-.
    split; [done|]. by rewrite lookup_insert_eq.
  - intros H1 H2. apply Z.eqb_neq in H1, H2. rewrite H1, H2 in Ep. injection Ep as <- <-. split; [done|].
    intros k vs Hk. by apply lookup_union_Some_l.
  - intros [f Hf]. unfold svc_serveHTTP in Er. repeat (destruct (bool_decide _); [by injection Er|]).
    destruct (bool_decide (r_Path r = "/"%string)).
    { destruct (bool_decide _); by injection Er. }
    unfold serveDefaultNonDoH, StaticContent_ServeHTTP in Er. rewrite Hf in Er. cbn in Er.
    by destruct (bool_decide _); injection Er.
Qed.
End proxy.

(** * Witnesses *)

Section witnesses.
Let prx : linkedIPHandler := {| lh_targetHost := "backend.example"; lh_targetPath := "/api/"; lh_certValidator := None |}.
Let req : Request :=
  {| r_Method := "GET"; r_Path := "/linkip/dev1234/abcd"; r_Host := "link.example"; r_RemoteAddr := "192.0.2.7:5555";
     r_Header := <["X-Connecting-Ip" := ["203.0.113.1"]]> (<["Cf-Connecting-Ip" := ["203.0.113.1"]]>
       (<["Connection" := ["close, x-foo"]]> ∅)) |}%string.
Let split (s : string) : result error string := Ok "192.0.2.7"%string.
Let answer (r : Request) : result error ResponseWriter := Ok (Write NewRecorder "linked").
Let text (e : error) : string := "error".
Let sent : option Request :=
  (linkedIP_ServeHTTP "AdGuardDNS/1" split answer text prx true NewRecorder req).1.2.

Lemma proxied_address_witness :
  match sent with
  | Some r => r_Header r !! XConnectingIP = Some ["192.0.2.7"%string] /\ r_Path r = "/api/linkip/dev1234/abcd"%string
  | None => False
  end.
Proof.
  destruct (proxied_address "AdGuardDNS/1" split answer text prx true NewRecorder req _ _ _
    (eq_refl : linkedIP_ServeHTTP "AdGuardDNS/1" split answer text prx true NewRecorder req = (_, Some _, _)))
    as (ip & Hip & _ & _ & Hpath & _ & _ & Hx & _).
  split; [|exact Hpath]. rewrite Hx. injection Hip as <-. vm_compute. reflexivity.
Defined.

Let svc : Service :=
  {| svc_certValidator := fun _ => false; svc_dnsCheck := fun w _ => w;
     svc_staticContent := <["/a.txt"%string := {| sf_Headers := ∅; sf_Content := "a" |}]> ∅;
     svc_wellKnownProxy := Some prx; svc_rootRedirectURL := ""; svc_error404 := "<h1>404</h1>"; svc_error500 := "" |}.

Lemma error_pages_witness :
  rw_Body (svc_ServeHTTP "AdGuardDNS/1" split answer text (fun u => u) (Some svc) true NewRecorder req).1.1 = "<h1>404</h1>"%string.
Proof.
  destruct (error_pages "AdGuardDNS/1" split answer text (fun u => u) svc true NewRecorder req _ _ _ eq_refl eq_refl
    (eq_refl : svc_ServeHTTP "AdGuardDNS/1" split answer text (fun u => u) (Some svc) true NewRecorder req = (_, _, _)))
    as (rec & Er & _ & H404 & _).
  apply (f_equal (fun x => rw_Code x.1.1)) in Er. cbn [fst] in Er.
  apply H404; [|done]. rewrite <- Er. vm_compute. reflexivity.
Defined.
End witnesses.
