(* ===== verification/EcsCache.v ===== *)
(** The ECS-aware cache of responses: internal/ecscache (ecscache.go, cache.go,
    msg.go).

    A response is cached for the subnet of the client's location if it depends on
    the client's subnet, and for all clients otherwise.  The messages are values,
    so that cloning is the identity; the two caches are those of [AgdCache].  The
    generated list of domains (ecsblocklist.go) is a parameter. *)

From S2P Require Import Prelude GoStd NetIP HumanID DnsMsg Filter FilterConfig Access AgdCache MsgConfig Agd InitialMW.

Open Scope Z_scope.

(** ** Messages: msg.go *)

(** [Msg.SetEdns0] appends an OPT record; [SetUDPSize] sets the class of one. *)
Class MiekgEdns := SetEdns0 : Msg -> Z -> bool -> Msg.
Class MiekgEdnsSpec `{MiekgEdns} : Prop :=
  set_edns0 m size d : exists opt, is_OPT opt = true /\ opt_options opt = [] /\ UDPSize opt = size /\ Do opt = d /\
    SetEdns0 m size d = set_Extra m (m_Extra m ++ [opt]).

Definition SetUDPSize (rr : RR) (size : Z) : RR := {|
  rr_Hdr := {| rh_Name := rh_Name (rr_Hdr rr); rh_Rrtype := rh_Rrtype (rr_Hdr rr); rh_Class := size;
               rh_Ttl := rh_Ttl (rr_Hdr rr) |};
  rr_Data := rr_Data rr;
|}.

Definition TypeSIG : Z := 24.
Definition TypeDS : Z := 43.
Definition TypeRRSIG : Z := 46.
Definition TypeNSEC : Z := 47.
Definition TypeDNSKEY : Z := 48.
Definition TypeNSEC3 : Z := 50.

(** The Go type of a record without a constructor of its own is that of its
    type. *)
Definition isDNSSEC (rr : RR) : bool :=
  match rr_Data rr with
  | RD_Other _ => bool_decide (rh_Rrtype (rr_Hdr rr) ∈ [TypeNSEC; TypeNSEC3; TypeDS; TypeRRSIG; TypeSIG; TypeDNSKEY])
  | _ => false
  end.

Definition isNotEDE (o : EDNSOption) : bool := match o with EDNS0_EDE _ _ => false | _ => true end.

Definition filterRR (rr : RR) (except : Z) (reqDo : bool) : option RR :=
  match rr_Data rr with
  | RD_OPT opts =>
      match filter (fun o => isNotEDE o = false) opts with
      | [] => None
      | opts => Some {| rr_Hdr := rr_Hdr rr; rr_Data := RD_OPT opts |}
      end
  | _ => if reqDo || negb (isDNSSEC rr) || (rh_Rrtype (rr_Hdr rr) =? except) then Some rr else None
  end.

Definition rmHopToHopRRs (rrs : list RR) (reqDO : bool) (exc : Z) : list RR :=
  omap (fun rr => filterRR rr exc reqDO) rrs.

Definition rmHopToHopData (resp : Msg) (qt : Z) (reqDO : bool) : Msg :=
  set_Extra (set_Ns (set_Answer resp (rmHopToHopRRs (m_Answer resp) reqDO qt))
    (rmHopToHopRRs (m_Ns resp) reqDO TypeNone)) (rmHopToHopRRs (m_Extra resp) reqDO TypeNone).

Definition setRespAD (resp : Msg) (reqAD reqDO : bool) : Msg :=
  set_AuthenticatedData resp (m_AuthenticatedData resp && (reqAD || reqDO)).

Definition addrToNetIP (ip : Addr) (fam : Z) : outcome (result error string) :=
  if fam =? AddrFamilyIPv4 then
    match ip with
    | Addr6 _ _ => Ret (Err (ErrConst "cannot convert %s to ipv4"))
    | Addr4 n => Ret (Ok (be_bytes 4 n))
    | AddrZero => Panic "As4 called on IP zero value"
    end
  else if fam =? AddrFamilyIPv6 then
    match ip with
    | Addr4 _ => Ret (Err (ErrConst "bad ipv4 addr %s for ipv6 addr fam"))
    | Addr6 n _ => Ret (Ok (be_bytes 16 n))
    | AddrZero => Ret (Ok EmptyString)
    end
  else Ret (Err (ErrConst "unsupported addr fam %s")).

Definition DefaultEDNSUDPSize : Z := 4096.

(** The loop that replaces the first client subnet; [None] if there is none. *)
Fixpoint replace_subnet (opts : list EDNSOption) (mask scope : Z) (ip : string) : option (list EDNSOption) :=
  match opts with
  | [] => None
  | EDNS0_SUBNET fam _ _ _ :: opts => Some (EDNS0_SUBNET fam mask scope ip :: opts)
  | o :: opts => cons o <$> replace_subnet opts mask scope ip
  end.

Section ecscache.
Context `{MiekgDNS} `{MiekgEdns} `{IPConv}.

(** The conversion of the prefix length to uint8. *)
Definition setECS (msg : Msg) (subnet : Prefix) (ecsFam : Z) (isResp : bool) : outcome (result error Msg) :=
  let! ip := addrToNetIP (p_ip subnet) ecsFam in
  match ip with
  | Err err => Ret (Err (ErrWrap "checking subnet ip: %w" err))
  | Ok ip =>
      let prefixLen := p_bits subnet mod 256 in
      let scope := if isResp then prefixLen else 0 in
      let sub := EDNS0_SUBNET ecsFam prefixLen scope ip in
      match find_OPT (m_Extra msg) with
      | None =>
          let msg := SetEdns0 msg DefaultEDNSUDPSize (negb isResp || m_AuthenticatedData msg) in
          Ret (Ok (set_Extra msg (append_option (m_Extra msg) (length (m_Extra msg) - 1) sub)))
      | Some i =>
          let edit rr :=
            let rr := SetUDPSize rr DefaultEDNSUDPSize in
            {| rr_Hdr := rr_Hdr rr;
               rr_Data := RD_OPT (default (opt_options rr ++ [sub])
                            (replace_subnet (opt_options rr) prefixLen scope ip)) |} in
          Ret (Ok (set_Extra msg (alter edit i (m_Extra msg))))
      end
  end.

(** The answer section of a NOERROR response: [Some b] if the loop returns [b]. *)
Fixpoint cacheable_answer (qt : Z) (rrs : list RR) : option bool :=
  match rrs with
  | [] => None
  | rr :: rrs =>
      let t := rh_Rrtype (rr_Hdr rr) in
      if t =? qt then Some true
      else if (t =? TypeCNAME) || (t =? TypeSIG) then cacheable_answer qt rrs
      else Some false
  end.

Definition is_SOA (rr : RR) : bool := match rr_Data rr with RD_SOA _ _ _ _ _ _ _ => true | _ => false end.

Definition isCacheableNOERROR (resp : Msg) : bool :=
  match m_Question resp with
  | [] => false
  | q :: _ =>
      match cacheable_answer (q_Qtype q) (m_Answer resp) with
      | Some b => b
      | None => existsb is_SOA (m_Ns resp)
      end
  end.

Definition isCacheable (msg : Msg) : bool :=
  if m_Truncated msg || negb (length (m_Question msg) =? 1)%nat then false
  else if m_Rcode msg =? RcodeSuccess then isCacheableNOERROR msg
  else (m_Rcode msg =? RcodeNameError) || (m_Rcode msg =? RcodeServerFailure).

(** ** cache.go *)

Record cacheRequest := {
  cr_host : string;
  cr_subnet : Prefix;
  cr_qType : Z;
  cr_qClass : Z;
  cr_reqDO : bool;
  cr_isECSDeclined : bool;
}.

(** [cacheKey] has the same fields; the zero prefix stands for an unset one. *)
Record cacheKey := {
  key_host : string;
  key_subnet : Prefix;
  key_qType : Z;
  key_qClass : Z;
  key_reqDO : bool;
  key_isECSDeclined : bool;
}.

Definition newCacheKey (cr : cacheRequest) (respIsECSDependent : bool) : cacheKey := {|
  key_host := cr_host cr;
  key_subnet := if respIsECSDependent then cr_subnet cr else prefix_zero;
  key_qType := cr_qType cr;
  key_qClass := cr_qClass cr;
  key_reqDO := cr_reqDO cr;
  key_isECSDeclined := if respIsECSDependent then false else cr_isECSDeclined cr;
|}.

Record cacheItem := { ci_when : Z; ci_msg : Msg }.

Definition roundDiv (num denom : Z) : Z :=
  if Bool.eqb (num <? 0) (denom <? 0) then Z.quot (num + Z.quot denom 2) denom
  else Z.quot (num - Z.quot denom 2) denom.

Definition set_ttls (m : Msg) (ttl : Z) : Msg :=
  let f := fmap (fun rr => with_Ttl rr ttl) in
  set_Extra (set_Ns (set_Answer m (f (m_Answer m))) (f (m_Ns m))) (f (m_Extra m)).

(** The TTL of an item after the time that has passed. *)
Definition left_ttl (now : Z) (item : cacheItem) : Z :=
  let timeLeft := FindLowestTTL (ci_msg item) * second - Sub now (ci_when item) in
  if 0 <? timeLeft then roundDiv timeLeft second else 0.

Definition fromCacheItem (now : Z) (item : cacheItem) (req : Msg) (reqDO : bool) : Msg :=
  let resp := set_Rcode (SetReply (ci_msg item) req) (m_Rcode (ci_msg item)) in
  set_ttls (setRespAD resp (m_AuthenticatedData req) reqDO) (left_ttl now item).

Context `{L : Lru cacheKey (entry cacheItem)}.

Record EcsMiddleware := { em_cacheMinTTL : Z; em_overrideTTL : bool }.

Record EcsState := {
  es_cache : DefaultCache cacheKey cacheItem;
  es_ecsCache : DefaultCache cacheKey cacheItem;
}.

Definition ecs_get (now : Z) (st : EcsState) (req : Msg) (cr : cacheRequest) : option (Msg * bool) * EcsState :=
  match cache_Get now (es_cache st) (newCacheKey cr false) with
  | (Some item, c) =>
      (Some (fromCacheItem now item req (cr_reqDO cr), false), {| es_cache := c; es_ecsCache := es_ecsCache st |})
  | (None, c) =>
      let st := {| es_cache := c; es_ecsCache := es_ecsCache st |} in
      if cr_isECSDeclined cr then (None, st)
      else match cache_Get now (es_ecsCache st) (newCacheKey cr true) with
      | (Some item, e) =>
          (Some (fromCacheItem now item req (cr_reqDO cr), true), {| es_cache := es_cache st; es_ecsCache := e |})
      | (None, e) => (None, {| es_cache := es_cache st; es_ecsCache := e |})
      end
  end.

(** How long a response is cached, and the response with its TTLs overridden, which
    [set] does in place. *)
Definition cache_form (mw : EcsMiddleware) (resp : Msg) : Z * Msg :=
  let exp := FindLowestTTL resp * second in
  if em_overrideTTL mw && negb (m_Rcode resp =? RcodeServerFailure) then
    let exp := Z.max exp (em_cacheMinTTL mw) in (exp, SetMinTTL resp (exp / second mod 2 ^ 32))
  else (exp, resp).

Definition ecs_set (now : Z) (mw : EcsMiddleware) (st : EcsState) (resp : Msg) (cr : cacheRequest)
    (respIsECSDependent : bool) : Msg * EcsState :=
  if (FindLowestTTL resp =? 0) || negb (isCacheable resp) then (resp, st)
  else
    let '(exp, resp) := cache_form mw resp in
    let key := newCacheKey cr respIsECSDependent in
    let item := {| ci_when := now; ci_msg := resp |} in
    (resp,
     if respIsECSDependent
     then {| es_cache := es_cache st; es_ecsCache := cache_SetWithExpire now (es_ecsCache st) key item exp |}
     else {| es_cache := cache_SetWithExpire now (es_cache st) key item exp; es_ecsCache := es_ecsCache st |}).

(** ** ecscache.go *)

(** [geoip.Interface.SubnetByLocation], [netutil.ZeroPrefix], and the generated
    set of domain names. *)
Context (subnetByLocation : GeoLocation -> Z -> result error Prefix).
Context (ZeroPrefix : Z -> Prefix) (FakeECSFQDNs : gset string).

Definition respIsECSDependent (scope : Z) (fqdn : string) : bool :=
  if scope =? 0 then false else negb (bool_decide (fqdn ∈ FakeECSFQDNs)).

Definition ecsFamFromReq (ri : RequestInfo) : Z :=
  let addr := match ri_ECS ri with Some ecs => p_ip (ecs_Subnet ecs) | None => ri_RemoteIP ri end in
  if Is4 addr then AddrFamilyIPv4 else AddrFamilyIPv6.

Definition locFromReq (ri : RequestInfo) : GeoLocation :=
  let '(ctry, subdiv, asn) :=
    match ri_ECS ri ≫= ecs_Location with
    | Some l => (Country l, TopSubdivision l, ASN l)
    | None => (EmptyString, EmptyString, 0)
    end in
  let '(ctry, asn) :=
    match ri_Location ri with
    | Some l => if bool_decide (ctry = EmptyString) then (Country l, ASN l) else (ctry, asn)
    | None => (ctry, asn)
    end in
  {| Country := ctry; Continent := EmptyString; TopSubdivision := subdiv; ASN := asn |}.

Definition writeCachedResponse (werr : option error) (resp : Msg) (ecs : option ECS) (ecsFam : Z)
    : outcome (option error * option Msg) :=
  match ecs with
  | None => Ret (wrap_opt "writing cached resp: %w" werr, Some resp)
  | Some ecs =>
      let! r := setECS resp (ecs_Subnet ecs) ecsFam true in
      Ret match r with
          | Err err => (Some (ErrWrap "setting ecs for cached resp: %w" err), None)
          | Ok resp => (wrap_opt "writing cached resp: %w" werr, Some resp)
          end
  end.

Definition with_subnet (cr : cacheRequest) (subnet : Prefix) : cacheRequest := {|
  cr_host := cr_host cr; cr_subnet := subnet; cr_qType := cr_qType cr; cr_qClass := cr_qClass cr;
  cr_reqDO := cr_reqDO cr; cr_isECSDeclined := cr_isECSDeclined cr;
|}.

Definition writeUpstreamResponse (now : Z) (mw : EcsMiddleware) (werr : option error) (st : EcsState) (req resp : Msg)
    (ri : RequestInfo) (cr : cacheRequest) (ecsFam : Z) : outcome (option error * option Msg * EcsState) :=
  match ECSFromMsg resp with
  | Err err => Ret (Some (ErrWrap "getting ecs from resp: %w" err), None, st)
  | Ok (_, scope) =>
      let resp := rmHopToHopData resp (ri_QType ri) (cr_reqDO cr) in
      let! q := index (m_Question req) 0 in
      let respIsECS := respIsECSDependent scope (q_Name q) in
      let cr := if respIsECS then cr else with_subnet cr (ZeroPrefix ecsFam) in
      let '(resp, st) := ecs_set now mw st resp cr respIsECS in
      let resp := setRespAD resp (m_AuthenticatedData req) (cr_reqDO cr) in
      match ri_ECS ri with
      | None => Ret (wrap_opt "writing upstream resp: %w" werr, Some resp, st)
      | Some ecs =>
          let! r := setECS resp (ecs_Subnet ecs) ecsFam true in
          Ret match r with
              | Err err => (Some (ErrWrap "responding with ecs: %w" err), None, st)
              | Ok resp => (wrap_opt "writing upstream resp: %w" werr, Some resp, st)
              end
      end
  end.

Definition isECSDeclined (ri : RequestInfo) : bool :=
  match ri_ECS ri with Some ecs => p_bits (ecs_Subnet ecs) =? 0 | None => false end.

(** The subnet by which a request is cached and resolved. *)
Definition subnet_for (ri : RequestInfo) : result error Prefix :=
  if isECSDeclined ri then Ok (ZeroPrefix (ecsFamFromReq ri))
  else match subnetByLocation (locFromReq ri) (ecsFamFromReq ri) with
       | Err err => Err (ErrWrap "getting subnet for country %s (family: %d): %w" err)
       | Ok p => Ok p
       end.

Definition cacheRequest_of (ri : RequestInfo) (req : Msg) (subnet : Prefix) : cacheRequest := {|
  cr_host := ri_Host ri; cr_subnet := subnet; cr_qType := ri_QType ri; cr_qClass := ri_QClass ri;
  cr_reqDO := IsDO req; cr_isECSDeclined := isECSDeclined ri;
|}.

Definition ecs_ServeDNS (now : Z) (mw : EcsMiddleware) (next : Handler) (werr : option error) (st : EcsState)
    (ri : RequestInfo) (req : Msg) : outcome (option error * option Msg * EcsState) :=
  let ecsFam := ecsFamFromReq ri in
  let! r :=
    match subnet_for ri with
    | Err err => Ret (Some err, None, st)
    | Ok subnet =>
        let cr := cacheRequest_of ri req subnet in
        match ecs_get now st req cr with
        | (Some (resp, _), st) =>
            let! r := writeCachedResponse werr resp (ri_ECS ri) ecsFam in Ret (r, st)
        | (None, st) =>
            let! ecsReq := setECS req subnet ecsFam false in
            match ecsReq with
            | Err err => Ret (Some (ErrWrap "setting ecs for upstream req: %w" err), None, st)
            | Ok ecsReq =>
                let! n := next ri ecsReq in
                match n with
                | (Some err, _) => Ret (Some (ErrWrap "requesting upstream: %w" err), None, st)
                | (None, None) => Ret (None, None, st)
                | (None, Some resp) => writeUpstreamResponse now mw werr st req resp ri cr ecsFam
                end
            end
        end
    end in
  Ret (wrap_opt "ecs-cache: %w" r.1.1, r.1.2, r.2).

End ecscache.

(** * Facts *)

(** ** The client subnet *)

(** [netutil.IPToAddr] on the bytes of an address. *)
Class IPConvSpec `{IPConv} : Prop := {
  ip_to_addr_4 n : 0 <= n < 2 ^ 32 -> IPToAddr (be_bytes 4 n) AddrFamilyIPv4 = Ok (Addr4 n);
  ip_to_addr_6 n : 0 <= n < 2 ^ 128 -> IPToAddr (be_bytes 16 n) AddrFamilyIPv6 = Ok (Addr6 n EmptyString);
}.

(** A proper subnet of a family: valid and masked. *)
Definition subnet_ok (p : Prefix) (fam : Z) : Prop :=
  addr_ok (p_ip p) /\ 0 <= p_bits p <= BitLen (p_ip p) /\ Masked p = p /\
  match p_ip p with
  | Addr4 _ => fam = AddrFamilyIPv4
  | Addr6 _ z => fam = AddrFamilyIPv6 /\ z = EmptyString
  | AddrZero => False
  end.

(** The first client subnet among the options, if any, has the family. *)
Definition family_agrees (opts : list EDNSOption) (fam : Z) : Prop :=
  forall f m s a, first_such subnet_option opts = Some (EDNS0_SUBNET f m s a) -> f = fam.

Section subnets.
Context `{MiekgDNS} `{!MiekgDNSSpec} `{MiekgEdns} `{!MiekgEdnsSpec} `{IPConv} `{!IPConvSpec}.

Lemma subnet_bytes p fam : subnet_ok p fam ->
  exists ip, addrToNetIP (p_ip p) fam = Ret (Ok ip) /\ IPToAddr ip fam = Ok (p_ip p) /\
    fam ∈ [AddrFamilyIPv4; AddrFamilyIPv6].
Proof.
  intros (Ha & _ & _ & Hf). destruct (p_ip p) as [|n|n z]; [done| |].
  - subst fam. eexists. split; [done|]. split; [by apply ip_to_addr_4|by left].
  - destruct Hf as [-> ->]. eexists. split; [done|]. split; [by apply ip_to_addr_6|by right; left].
Qed.

Lemma subnet_ecsData p fam scope ip : subnet_ok p fam -> IPToAddr ip fam = Ok (p_ip p) ->
  fam ∈ [AddrFamilyIPv4; AddrFamilyIPv6] -> ecsData fam (p_bits p mod 256) scope ip = Ok (p, scope).
Proof.
  intros (Ha & Hb & Hm & Hf) Hip Hfam. unfold ecsData.
  assert (negb (fam =? AddrFamilyIPv4) && negb (fam =? AddrFamilyIPv6) = false) as ->.
  { rewrite !elem_of_cons in Hfam. destruct Hfam as [-> |[-> |[]%elem_of_nil]]; done. }
  rewrite Hip.
  assert (PrefixFrom (p_ip p) (p_bits p mod 256) = p) as ->.
  { destruct p as [a b]. simpl in *. unfold PrefixFrom. rewrite Z.mod_small by (destruct a; simpl in *; lia).
    assert (withoutZone a = a) as -> by (destruct a; simpl; [done..|by destruct Hf as [_ ->]]).
    assert (IsValid a && (0 <=? b) && (b <=? BitLen a) = true) as ->; [|done].
    rewrite !andb_true_iff, !Z.leb_le. destruct a; [done|simpl in *; lia..]. }
  unfold prefix_valid. assert (0 <=? p_bits p = true) as -> by lia. simpl.
  by rewrite bool_decide_eq_true_2.
Qed.

Lemma subnet_nonzero p fam : subnet_ok p fam -> p <> prefix_zero.
Proof. intros (_ & _ & _ & Hf) ->. done. Qed.

(** Options before the first client subnet do not matter. *)
Lemma ecs_options_replaced opts p fam scope ip opts' : subnet_ok p fam -> IPToAddr ip fam = Ok (p_ip p) ->
  fam ∈ [AddrFamilyIPv4; AddrFamilyIPv6] -> family_agrees opts fam ->
  replace_subnet opts (p_bits p mod 256) scope ip = Some opts' -> ecs_options opts' = Ok (p, scope).
Proof.
  intros Hp Hip Hfam. revert opts'. induction opts as [|o opts IH]; intros opts' Hag; [done|].
  destruct o as [c t|f m s a|c d]; simpl.
  - intros (l & E & ->)%fmap_Some. apply (IH l); [|done]. intros ? ? ? ? Hf. by apply (Hag _ _ _ _ Hf).
  - intros [= <-]. simpl. assert (f = fam) as -> by (by apply (Hag f m s a)).
    rewrite (subnet_ecsData p fam scope ip Hp Hip Hfam). rewrite bool_decide_eq_false_2; [done|].
    by eapply subnet_nonzero.
  - intros (l & E & ->)%fmap_Some. apply (IH l); [|done]. intros ? ? ? ? Hf. by apply (Hag _ _ _ _ Hf).
Qed.

Lemma ecs_options_appended opts p fam scope ip mask sc : subnet_ok p fam -> IPToAddr ip fam = Ok (p_ip p) ->
  fam ∈ [AddrFamilyIPv4; AddrFamilyIPv6] -> replace_subnet opts mask sc ip = None ->
  ecs_options (opts ++ [EDNS0_SUBNET fam (p_bits p mod 256) scope ip]) = Ok (p, scope).
Proof.
  intros Hp Hip Hfam. induction opts as [|o opts IH]; simpl.
  - intros _. rewrite (subnet_ecsData p fam scope ip Hp Hip Hfam). rewrite bool_decide_eq_false_2; [done|].
    by eapply subnet_nonzero.
  - destruct o; [intros E%fmap_None; by apply IH|done|intros E%fmap_None; by apply IH].
Qed.

(** Two messages that only differ in their additional sections. *)
Definition same_but_extra (m m' : Msg) : Prop := set_Extra m [] = set_Extra m' [].

Lemma same_but_extra_set m x : same_but_extra m (set_Extra m x).
Proof. done. Qed.

(** The records of a section without the OPT records. *)
Definition plain_records (l : list RR) : list RR := filter (fun rr => is_OPT rr = false) l.

Lemma plain_alter l i f rr : l !! i = Some rr -> is_OPT rr = true -> is_OPT (f rr) = true ->
  plain_records (alter f i l) = plain_records l.
Proof.
  unfold plain_records. revert i. induction l as [|x l IH]; intros [|i] Hi Ho Hf; try done; simpl in Hi.
  - injection Hi as ->. change (alter f 0%nat (rr :: l)) with (f rr :: l). rewrite !filter_cons. repeat case_decide; congruence.
  - change (alter f (S i) (x :: l)) with (x :: alter f i l). rewrite !filter_cons, IH by done. done.
Qed.

Lemma find_single_OPT l opt : (forall rr, rr ∈ l -> is_OPT rr = false) -> is_OPT opt = true ->
  find_OPT (l ++ [opt]) = Some (length l).
Proof.
  intros Hl Ho. destruct (find_OPT (l ++ [opt])) as [i|] eqn:E.
  - apply find_OPT_Some in E as (rr & Hi & Hrr). destruct (decide (i < length l)%nat) as [Hlt|].
    + rewrite lookup_app_l in Hi by done. apply list_elem_of_lookup_2, Hl in Hi. congruence.
    + apply lookup_lt_Some in Hi. rewrite length_app in Hi. simpl in Hi. f_equal. lia.
  - pose proof (find_OPT_None _ E opt) as Hno. rewrite Hno in Ho; [done|]. set_solver.
Qed.

Definition other_options (opt : RR) : list EDNSOption := filter (fun o => subnet_option o = false) (opt_options opt).

Lemma replace_subnet_others opts mask scope ip opts' : replace_subnet opts mask scope ip = Some opts' ->
  filter (fun o => subnet_option o = false) opts' = filter (fun o => subnet_option o = false) opts.
Proof.
  revert opts'. induction opts as [|o opts IH]; intros opts'; [done|]. destruct o as [c t|f m s a|c d]; simpl.
  - intros (l & E & ->)%fmap_Some. rewrite !filter_cons_True by done. by rewrite (IH l E).
  - intros [= <-]. by rewrite !filter_cons_False by done.
  - intros (l & E & ->)%fmap_Some. rewrite !filter_cons_True by done. by rewrite (IH l E).
Qed.

(** The message [msg'] is [msg] with another client subnet, [p], and scope: the header
    and all other sections are the same, and of the additional section all records but
    the OPT record are; the OPT record has the default size for UDP, the same DO bit and
    the same other options; if there was none, there is a new one with the DO bit [d]. *)
Record with_ecs (p : Prefix) (scope : Z) (d : bool) (msg msg' : Msg) : Prop := {
  we_subnet : ECSFromMsg msg' = Ok (p, scope);
  we_same : same_but_extra msg msg';
  we_plain : plain_records (m_Extra msg') = plain_records (m_Extra msg);
  we_opt : exists opt', IsEdns0 msg' = Some opt' /\ UDPSize opt' = DefaultEDNSUDPSize /\
    match IsEdns0 msg with
    | Some opt => Do opt' = Do opt /\ other_options opt' = other_options opt
    | None => Do opt' = d /\ other_options opt' = []
    end;
}.

(** Setting the client subnet succeeds for a proper one, changes nothing but the
    OPT record, and the subnet is read back; the scope of a request is zero. *)
Lemma setECS_reads msg p fam isResp : subnet_ok p fam ->
  (forall opt, IsEdns0 msg = Some opt -> family_agrees (opt_options opt) fam) ->
  exists msg', setECS msg p fam isResp = Ret (Ok msg') /\
    with_ecs p (if isResp then p_bits p mod 256 else 0) (negb isResp || m_AuthenticatedData msg) msg msg'.
Proof.
  intros Hp Hag. unfold setECS. destruct (subnet_bytes p fam Hp) as (ip & -> & Hip & Hfam). simpl.
  set (scope := if isResp then _ else 0). destruct (find_OPT (m_Extra msg)) as [i|] eqn:Ef.
  - match goal with |- context [alter ?f i _] => set (edit := f) end. eexists. split; [done|].
    destruct (find_OPT_Some _ _ Ef) as (opt & Hi & Ho).
    assert (IsEdns0 msg = Some opt) as Hopt by (unfold IsEdns0; by rewrite Ef).
    assert (IsEdns0 (set_Extra msg (alter edit i (m_Extra msg))) = Some (edit opt)) as Hopt'.
    { unfold IsEdns0. cbn [m_Extra set_Extra]. rewrite (find_OPT_ext _ (m_Extra msg)), Ef.
      2:{ apply list_eq. intros j. rewrite !list_lookup_fmap. destruct (decide (i = j)) as [<-|Hne].
          - rewrite list_lookup_alter_eq, Hi. simpl. by rewrite Ho.
          - by rewrite list_lookup_alter_ne. }
      simpl. by rewrite list_lookup_alter_eq, Hi. }
    split; [|done|by apply (plain_alter _ _ _ opt)|].
    + unfold ECSFromMsg. rewrite Hopt'. unfold edit. simpl.
      change (opt_options (SetUDPSize opt _)) with (opt_options opt).
      destruct (replace_subnet (opt_options opt) _ scope ip) as [opts'|] eqn:Er; simpl.
      * eapply ecs_options_replaced; [done..|by apply Hag|done].
      * by eapply ecs_options_appended.
    + exists (edit opt). split; [done|]. split; [done|]. rewrite Hopt. split; [done|]. unfold other_options, edit. simpl.
      change (opt_options (SetUDPSize opt _)) with (opt_options opt).
      destruct (replace_subnet (opt_options opt) _ scope ip) as [opts'|] eqn:Er; simpl; [by eapply replace_subnet_others|].
      etrans; [apply filter_app|]. by rewrite filter_cons_False, filter_nil, app_nil_r by done.
  - destruct (set_edns0 msg DefaultEDNSUDPSize (negb isResp || m_AuthenticatedData msg)) as (opt & Ho & Hopts & Hsz & Hdo & ->).
    eexists. split; [done|]. cbn [m_Extra set_Extra].
    set (opt' := {| rr_Hdr := rr_Hdr opt; rr_Data := RD_OPT [EDNS0_SUBNET fam (p_bits p mod 256) scope ip] |}).
    assert (append_option (m_Extra msg ++ [opt]) (length (m_Extra msg ++ [opt]) - 1)
      (EDNS0_SUBNET fam (p_bits p mod 256) scope ip) = m_Extra msg ++ [opt']) as ->.
    { unfold append_option. rewrite length_app. simpl. replace (length _ + 1 - 1)%nat with (length (m_Extra msg) + 0)%nat by lia.
      rewrite alter_app_r. simpl. by rewrite Hopts. }
    assert (forall x, IsEdns0 (set_Extra (set_Extra msg x) (m_Extra msg ++ [opt'])) = Some opt') as Hopt'.
    { intros x. unfold IsEdns0. cbn [m_Extra set_Extra]. rewrite find_single_OPT; [|by apply find_OPT_None|done]. simpl.
      rewrite lookup_app_r by lia. by rewrite Nat.sub_diag. }
    split; [|done| |].
    + unfold ECSFromMsg. rewrite Hopt'. apply (ecs_options_appended [] p fam scope ip 0 0 Hp Hip Hfam eq_refl).
    + cbn [m_Extra set_Extra]. unfold plain_records. by rewrite filter_app, filter_cons_False, filter_nil, app_nil_r by done.
    + exists opt'. split; [done|]. split; [exact Hsz|]. unfold IsEdns0. rewrite Ef. simpl. split; [exact Hdo|].
      by unfold other_options.
Qed.

End subnets.

#[export] Instance cacheKey_eq_dec : EqDecision cacheKey.
Proof. solve_decision. Defined.

Section serving.
Context `{MiekgDNS} `{!MiekgDNSSpec} `{MiekgEdns} `{!MiekgEdnsSpec} `{IPConv}.
Context `{L : Lru cacheKey (entry cacheItem)} `{!LruSpec cacheKey (entry cacheItem)}.
Context (subnetByLocation : GeoLocation -> Z -> result error Prefix).
Context (ZeroPrefix : Z -> Prefix) (FakeECSFQDNs : gset string).
Context (mw : EcsMiddleware).

Notation serve := (ecs_ServeDNS subnetByLocation ZeroPrefix FakeECSFQDNs).
Notation subnet_of := (subnet_for subnetByLocation ZeroPrefix).


(** ** What is in the caches *)

(** A request in the past, at a time, with what the next handler has returned. *)
Record ecs_event := {
  ev_now : Z;
  ev_ri : RequestInfo;
  ev_req : Msg;
  ev_up : outcome (option error * option Msg);
}.

Definition ecs_exec (st : EcsState) (ev : ecs_event) : outcome EcsState :=
  let! r := serve (ev_now ev) mw (fun _ _ => ev_up ev) None st (ev_ri ev) (ev_req ev) in Ret r.2.

(** The response as it is cached, but for overridden TTLs. *)
Definition filtered (ri : RequestInfo) (req up : Msg) : Msg := rmHopToHopData up (ri_QType ri) (IsDO req).

(** The item [it] under the key [k] of one of the caches, valid until [exp], is the
    response of the event. *)
Definition stored_by (ecs : bool) (k : cacheKey) (it : cacheItem) (exp : Z) (ev : ecs_event) : Prop :=
  exists up subnet subnet' scope q qs,
    ev_up ev = Ret (None, Some up) /\ subnet_of (ev_ri ev) = Ok subnet /\ ECSFromMsg up = Ok (subnet', scope) /\
    m_Question (ev_req ev) = q :: qs /\ ecs = respIsECSDependent FakeECSFQDNs scope (q_Name q) /\
    k = newCacheKey (cacheRequest_of (ev_ri ev) (ev_req ev) subnet) ecs /\
    isCacheable (filtered (ev_ri ev) (ev_req ev) up) = true /\
    FindLowestTTL (filtered (ev_ri ev) (ev_req ev) up) <> 0 /\
    it = {| ci_when := ev_now ev; ci_msg := (cache_form mw (filtered (ev_ri ev) (ev_req ev) up)).2 |} /\
    exp = i64 (ev_now ev + (cache_form mw (filtered (ev_ri ev) (ev_req ev) up)).1).

(** Every element of a cache is stored by one of the events. *)
Definition provenance (ecs : bool) (c : DefaultCache cacheKey cacheItem) (evs : list ecs_event) : Prop :=
  forall k e, (lru_Get (dc_cache c) k).1 = Some e ->
    exists ev, ev ∈ evs /\ stored_by ecs k (e_val e) (e_expiration e) ev.

Definition ecs_inv (st : EcsState) (evs : list ecs_event) : Prop :=
  provenance false (es_cache st) evs /\ provenance true (es_ecsCache st) evs.

Lemma provenance_weaken ecs c evs ev : provenance ecs c evs -> provenance ecs c (evs ++ [ev]).
Proof. intros Hp k e E. destruct (Hp k e E) as (ev' & Hin & Hs). exists ev'. split; [set_solver|done]. Qed.

Lemma provenance_get ecs now c k evs : provenance ecs c evs -> provenance ecs (cache_Get now c k).2 evs.
Proof. intros Hp k' e E%cache_Get_keeps. by apply Hp. Qed.

Lemma provenance_set ecs now c k it d evs ev : provenance ecs c evs ->
  stored_by ecs k it (i64 (now + d)) ev -> provenance ecs (cache_SetWithExpire now c k it d) (evs ++ [ev]).
Proof.
  intros Hp Hs k' e. simpl. destruct (decide (k = k')) as [<-|Hne].
  - rewrite lru_add_eq. intros [= <-]. exists ev. split; [set_solver|done].
  - intros E%lru_add_ne; [|done]. destruct (Hp k' e E) as (ev' & Hin & Hs'). exists ev'. split; [set_solver|done].
Qed.

Lemma ecs_get_inv now st req cr evs : ecs_inv st evs -> ecs_inv (ecs_get now st req cr).2 evs.
Proof.
  intros [Hp1 Hp2]. unfold ecs_get.
  pose proof (provenance_get false now (es_cache st) (newCacheKey cr false) evs Hp1) as G1.
  pose proof (provenance_get true now (es_ecsCache st) (newCacheKey cr true) evs Hp2) as G2.
  destruct (cache_Get now (es_cache st) _) as [[it|] c]; simpl in *; [by split|].
  destruct (cr_isECSDeclined cr); [by split|]. simpl.
  destruct (cache_Get now (es_ecsCache st) _) as [[it|] c']; simpl in *; by split.
Qed.

Lemma ecs_set_inv now st resp cr ecs evs ev : ecs_inv st evs ->
  (FindLowestTTL resp <> 0 -> isCacheable resp = true ->
   stored_by ecs (newCacheKey cr ecs) {| ci_when := now; ci_msg := (cache_form mw resp).2 |}
     (i64 (now + (cache_form mw resp).1)) ev) ->
  ecs_inv (ecs_set now mw st resp cr ecs).2 (evs ++ [ev]).
Proof.
  intros [Hp1 Hp2] Hs. unfold ecs_set.
  destruct (Z.eqb_spec (FindLowestTTL resp) 0) as [|Hne]; simpl; [split; by apply provenance_weaken|].
  destruct (isCacheable resp); simpl; [|split; by apply provenance_weaken]. specialize (Hs Hne eq_refl).
  destruct (cache_form mw resp) as [exp resp']. simpl in *.
  destruct ecs; split; simpl; (by apply provenance_weaken) || (by apply provenance_set).
Qed.

Lemma newCacheKey_subnet cr p : newCacheKey (with_subnet cr p) false = newCacheKey cr false.
Proof. done. Qed.

Lemma ecs_exec_inv st evs ev st' : ecs_inv st evs -> ecs_exec st ev = Ret st' -> ecs_inv st' (evs ++ [ev]).
Proof.
  intros Hinv. unfold ecs_exec, ecs_ServeDNS.
  assert (forall s, ecs_inv s evs -> ecs_inv s (evs ++ [ev])) as Hw
    by (intros s [? ?]; split; by apply provenance_weaken).
  destruct (subnet_of (ev_ri ev)) as [subnet|err] eqn:Es; [|intros [= <-]; by apply Hw].
  set (cr := cacheRequest_of _ _ _). pose proof (ecs_get_inv (ev_now ev) st (ev_req ev) cr evs Hinv) as Hg.
  destruct (ecs_get _ _ _ cr) as [[[resp e]|] st1]; simpl in Hg.
  { destruct (writeCachedResponse _ _ _ _) as [r|]; simpl; [|done]. intros [= <-]. by apply Hw. }
  destruct (setECS (ev_req ev) subnet _ false) as [[req'|err]|]; simpl; [|intros [= <-]; by apply Hw|done].
  destruct (ev_up ev) as [[[err|] [up|]]|] eqn:Eu; simpl; try (intros [= <-]; by apply Hw).
  unfold writeUpstreamResponse. destruct (ECSFromMsg up) as [[sub scope]|err] eqn:Ee; [|intros [= <-]; by apply Hw].
  destruct (m_Question (ev_req ev)) as [|q qs] eqn:Eq; [done|]. simpl.
  set (ecs := respIsECSDependent FakeECSFQDNs scope (q_Name q)).
  set (cr' := if ecs then cr else _). change (rmHopToHopData up _ _) with (filtered (ev_ri ev) (ev_req ev) up).
  assert (newCacheKey cr' ecs = newCacheKey cr ecs) as Hk by (unfold cr'; destruct ecs; done).
  pose proof (ecs_set_inv (ev_now ev) st1 (filtered (ev_ri ev) (ev_req ev) up) cr' ecs evs ev Hg) as Hset.
  destruct (ecs_set _ _ _ _ _ _) as [resp2 st2]. simpl in Hset.
  assert (ecs_inv st2 (evs ++ [ev])) as Hfin.
  { apply Hset. intros Ht Hc. rewrite Hk. by exists up, subnet, sub, scope, q, qs. }
  destruct (ri_ECS (ev_ri ev)); [|by intros [= <-]].
  destruct (setECS _ _ _ true) as [[r|r]|]; simpl; [by intros [= <-]..|done].
Qed.

Lemma ecs_history_inv evs st0 st : ecs_inv st0 [] -> for_each ecs_exec st0 evs = Ret st -> ecs_inv st evs.
Proof.
  assert (forall evs st0 st past, ecs_inv st0 past -> for_each ecs_exec st0 evs = Ret st -> ecs_inv st (past ++ evs))
    as Hgen.
  { clear st0 st evs. intros evs. induction evs as [|ev evs IH]; intros st0 st past Hi E; simpl in E.
    - injection E as <-. by rewrite app_nil_r.
    - destruct (ecs_exec st0 ev) as [st1|] eqn:E1; [|done]. simpl in E.
      replace (past ++ ev :: evs) with ((past ++ [ev]) ++ evs) by (by rewrite <- app_assoc).
      by apply (IH st1); [eapply ecs_exec_inv|]. }
  apply (Hgen evs st0 st []).
Qed.

(** ** What is answered from the caches *)

Lemma left_ttl_near now it : ci_when it <= now -> now - ci_when it < 2 ^ 63 -> 0 <= FindLowestTTL (ci_msg it) ->
  0 <= left_ttl now it /\
  Z.abs (2 * left_ttl now it * second - 2 * Z.max 0 (FindLowestTTL (ci_msg it) * second - (now - ci_when it))) <= second.
Proof.
  intros Hw Hr Ht. unfold left_ttl.
  assert (Sub now (ci_when it) = now - ci_when it) as ->
    by (unfold Sub, maxDuration, minDuration; lia).
  set (tl := FindLowestTTL (ci_msg it) * second - _). destruct (Z.ltb_spec 0 tl); [|unfold second; lia].
  unfold roundDiv. replace (tl <? 0) with false by lia. change (second <? 0) with false. simpl.
  change (second ÷ 2) with 500000000. rewrite Z.quot_div_nonneg by (unfold second; lia).
  pose proof (Z.mul_div_le (tl + 500000000) second ltac:(unfold second; lia)) as Hle.
  pose proof (Z.mul_succ_div_gt (tl + 500000000) second ltac:(unfold second; lia)) as Hgt.
  split; [apply Z.div_pos; unfold second; lia|]. unfold second in *. lia.
Qed.

(** How long a response is to be kept: for its lowest TTL, or for the configured minimum
    if that is more and TTLs are overridden, except for server failures; and the response
    with its overridden TTLs. *)
Definition overrides (f : Msg) : bool := em_overrideTTL mw && negb (m_Rcode f =? RcodeServerFailure).

Definition lifetime (f : Msg) : Z :=
  if overrides f then Z.max (FindLowestTTL f * second) (em_cacheMinTTL mw) else FindLowestTTL f * second.

Definition kept (f : Msg) : Msg := if overrides f then SetMinTTL f (lifetime f / second mod 2 ^ 32) else f.

Lemma cache_form_kept f : cache_form mw f = (lifetime f, kept f).
Proof. unfold cache_form, kept, lifetime, overrides. by destruct (_ && _). Qed.

(** The age and the lifetime of what is answered. *)
Definition fresh (now : Z) (ev : ecs_event) (up : Msg) : Prop :=
  now <= ev_now ev + lifetime (filtered (ev_ri ev) (ev_req ev) up).

(** What is left of the lowest TTL of the response, in nanoseconds. *)
Definition time_left (now : Z) (ev : ecs_event) (up : Msg) : Z :=
  Z.max 0 (FindLowestTTL (kept (filtered (ev_ri ev) (ev_req ev) up)) * second - (now - ev_now ev)).

Definition ttls_ok (m : Msg) : Prop := Forall (fun rr => 0 <= rh_Ttl (rr_Hdr rr)) (m_Answer m ++ m_Ns m ++ m_Extra m).

(** Times are positive and below 2^62 ns, and TTLs are not negative, as their type
    demands. *)
Definition event_ok (ev : ecs_event) : Prop :=
  0 < ev_now ev < 2 ^ 62 /\ forall up, ev_up ev = Ret (None, Some up) -> ttls_ok up.

Lemma lowest_ttl_nonneg l x t : Forall (fun rr => 0 <= rh_Ttl (rr_Hdr rr)) l -> 0 <= x -> lowest_ttl l x = Some t -> 0 <= t.
Proof.
  intros Hl. revert x. induction Hl as [|rr l Hr Hl IH]; intros x Hx; simpl; [by intros [= <-]|].
  case_if; [done|]. apply IH. unfold getTTLIfLower. destruct (rr_Data rr); repeat case_if; lia.
Qed.

Lemma FindLowestTTL_nonneg m : ttls_ok m -> 0 <= FindLowestTTL m.
Proof.
  intros Hm. unfold FindLowestTTL. destruct (lowest_ttl _ _) as [t|] eqn:El; [|done].
  apply lowest_ttl_nonneg in El; [|done|unfold MaxUint32; lia]. repeat case_if; unfold ServFailMaxCacheTTL; lia.
Qed.

Lemma ttls_ok_filtered ri req m : ttls_ok m -> ttls_ok (filtered ri req m).
Proof.
  unfold ttls_ok, filtered, rmHopToHopData. cbn [set_Extra set_Ns set_Answer m_Answer m_Ns m_Extra].
  assert (forall l d e, Forall (fun rr => 0 <= rh_Ttl (rr_Hdr rr)) l ->
    Forall (fun rr => 0 <= rh_Ttl (rr_Hdr rr)) (rmHopToHopRRs l d e)) as Hl.
  { intros l d e Hf. apply Forall_forall. intros rr (x & Hx & E)%list_elem_of_omap. rewrite Forall_forall in Hf.
    specialize (Hf x Hx). unfold filterRR in E. destruct (rr_Data x); repeat case_match; by simplify_eq. }
  rewrite !Forall_app. intros (? & ? & ?). split_and!; by apply Hl.
Qed.

Lemma ttls_ok_kept m : ttls_ok m -> ttls_ok (kept m).
Proof.
  unfold kept. case_if; [|done]. unfold ttls_ok. cbn [SetMinTTL set_Answer m_Answer m_Ns m_Extra].
  rewrite !Forall_app, Forall_fmap. intros (Ha & ? & ?). split_and!; [|done..].
  eapply Forall_impl; [exact Ha|]. intros rr Hr. simpl in *. lia.
Qed.

Lemma FindLowestTTL_max m : FindLowestTTL m <= MaxUint32.
Proof.
  unfold FindLowestTTL.
  assert (forall l x t, lowest_ttl l x = Some t -> t <= x) as Hl.
  { induction l as [|rr l IH]; intros x t; simpl; [intros [= <-]; lia|]. case_if; [done|].
    intros Ht%IH. rewrite getTTLIfLower_effective in Ht. destruct (effective_ttl rr); lia. }
  destruct (lowest_ttl _ _) as [t|] eqn:El; [|unfold MaxUint32; lia]. apply Hl in El.
  repeat case_if; unfold ServFailMaxCacheTTL, MaxUint32 in *; lia.
Qed.

Lemma lifetime_bound m : 0 <= FindLowestTTL m -> em_cacheMinTTL mw < 2 ^ 62 -> 0 <= lifetime m < 2 ^ 62.
Proof.
  intros Ht Hm. pose proof (FindLowestTTL_max m). unfold lifetime, MaxUint32, second in *. case_if; lia.
Qed.

Lemma kept_same m : let m' := kept m in
  m_Rcode m' = m_Rcode m /\ m_AuthenticatedData m' = m_AuthenticatedData m /\ m_Ns m' = m_Ns m /\ m_Extra m' = m_Extra m /\
  forall t, (fun rr => with_Ttl rr t) <$> m_Answer m' = (fun rr => with_Ttl rr t) <$> m_Answer m.
Proof.
  simpl. unfold kept. case_if; [|done]. simpl. split_and!; [done..|]. intros t.
  rewrite <- list_fmap_compose. by apply list_fmap_ext.
Qed.

(** What an answer from the cache has of the earlier response [up], which is [f] without
    what is not to be passed on: all but the TTLs, which are [ttl], and the OPT record. *)
Record from_item (ttl : Z) (req up f : Msg) (resp : Msg) : Prop := {
  fi_id : m_Id resp = m_Id req;
  fi_rcode : m_Rcode resp = m_Rcode up;
  fi_ad : m_AuthenticatedData resp = m_AuthenticatedData up && (m_AuthenticatedData req || IsDO req);
  fi_answer : m_Answer resp = (fun rr => with_Ttl rr ttl) <$> m_Answer f;
  fi_ns : m_Ns resp = (fun rr => with_Ttl rr ttl) <$> m_Ns f;
  fi_extra : plain_records (m_Extra resp) = (fun rr => with_Ttl rr ttl) <$> plain_records (m_Extra f);
}.

Lemma plain_fmap t l : plain_records ((fun rr => with_Ttl rr t) <$> l) = (fun rr => with_Ttl rr t) <$> plain_records l.
Proof.
  unfold plain_records. induction l as [|rr l IH]; [done|]. rewrite fmap_cons, !filter_cons, IH.
  change (is_OPT (with_Ttl rr t)) with (is_OPT rr). by case_decide.
Qed.

Lemma fromCacheItem_gives now req ev up :
  let f := filtered (ev_ri ev) (ev_req ev) up in
  let it := {| ci_when := ev_now ev; ci_msg := kept f |} in
  from_item (left_ttl now it) req up f (fromCacheItem now it req (IsDO req)).
Proof.
  simpl. set (f := filtered _ _ _). destruct (kept_same f) as (Hr & Ha & Hn & He & Hans).
  split; simpl; rewrite ?reply_Id, ?reply_Answer, ?reply_Ns, ?reply_Extra, ?reply_AuthenticatedData; try done.
  - by rewrite Ha.
  - by rewrite Hn.
  - by rewrite plain_fmap, He.
Qed.

Lemma from_item_extra ttl req up f resp resp' : same_but_extra resp resp' ->
  plain_records (m_Extra resp') = plain_records (m_Extra resp) ->
  from_item ttl req up f resp -> from_item ttl req up f resp'.
Proof.
  intros E Ex [F1 F2 F3 F4 F5 F6]. unfold same_but_extra in E. split.
  - by rewrite <- F1; change (m_Id (set_Extra resp' []) = m_Id (set_Extra resp [])); rewrite E.
  - by rewrite <- F2; change (m_Rcode (set_Extra resp' []) = m_Rcode (set_Extra resp [])); rewrite E.
  - by rewrite <- F3; change (m_AuthenticatedData (set_Extra resp' []) = m_AuthenticatedData (set_Extra resp [])); rewrite E.
  - by rewrite <- F4; change (m_Answer (set_Extra resp' []) = m_Answer (set_Extra resp [])); rewrite E.
  - by rewrite <- F5; change (m_Ns (set_Extra resp' []) = m_Ns (set_Extra resp [])); rewrite E.
  - by rewrite Ex.
Qed.

Lemma setECS_extra m p fam isResp m' : setECS m p fam isResp = Ret (Ok m') ->
  same_but_extra m m' /\ plain_records (m_Extra m') = plain_records (m_Extra m).
Proof.
  unfold setECS. destruct (addrToNetIP _ _) as [[ip|]|]; simpl; [|done..].
  destruct (find_OPT (m_Extra m)) as [i|] eqn:Ef.
  - intros [= <-]. split; [done|]. destruct (find_OPT_Some _ _ Ef) as (opt & Hi & Ho). by apply (plain_alter _ _ _ opt).
  - destruct (set_edns0 m DefaultEDNSUDPSize (negb isResp || m_AuthenticatedData m)) as (opt & Ho & _ & _ & _ & ->).
    intros [= <-]. split; [done|]. cbn [m_Extra set_Extra]. unfold append_option. rewrite length_app. simpl.
    replace (length _ + 1 - 1)%nat with (length (m_Extra m) + 0)%nat by lia. rewrite alter_app_r. simpl.
    unfold plain_records. by rewrite filter_app, filter_cons_False, filter_nil, app_nil_r by done.
Qed.

(** The earlier request has the same question, and the same subnet if the response
    depends on it. *)
Definition same_request (ecs : bool) (ev : ecs_event) (ri : RequestInfo) (req : Msg) : Prop :=
  ri_Host (ev_ri ev) = ri_Host ri /\ ri_QType (ev_ri ev) = ri_QType ri /\ ri_QClass (ev_ri ev) = ri_QClass ri /\
  IsDO (ev_req ev) = IsDO req /\
  if ecs then isECSDeclined ri = false /\ subnet_of (ev_ri ev) = subnet_of ri
  else isECSDeclined (ev_ri ev) = isECSDeclined ri.

Definition depends (ev : ecs_event) (up : Msg) (ecs : bool) : Prop :=
  exists sub scope q qs, ECSFromMsg up = Ok (sub, scope) /\ m_Question (ev_req ev) = q :: qs /\
    ecs = respIsECSDependent FakeECSFQDNs scope (q_Name q).

Lemma ecs_get_found now st evs ri req subnet resp ecs st' :
  ecs_inv st evs -> Forall event_ok evs -> em_cacheMinTTL mw < 2 ^ 62 -> subnet_of ri = Ok subnet ->
  ecs_get now st req (cacheRequest_of ri req subnet) = (Some (resp, ecs), st') ->
  exists ev up, ev ∈ evs /\ ev_up ev = Ret (None, Some up) /\ same_request ecs ev ri req /\ depends ev up ecs /\
    fresh now ev up /\
    let f := filtered (ev_ri ev) (ev_req ev) up in
    from_item (left_ttl now {| ci_when := ev_now ev; ci_msg := kept f |}) req up f resp.
Proof.
  intros [Hp1 Hp2] Hok Hmin Hs. set (cr := cacheRequest_of ri req subnet).
  assert (forall b c it, provenance b c evs -> (cache_Get now c (newCacheKey cr b)).1 = Some it ->
    (b = true -> isECSDeclined ri = false) ->
    exists ev up, ev ∈ evs /\ ev_up ev = Ret (None, Some up) /\ same_request b ev ri req /\ depends ev up b /\
      fresh now ev up /\
      let f := filtered (ev_ri ev) (ev_req ev) up in
      from_item (left_ttl now {| ci_when := ev_now ev; ci_msg := kept f |}) req up f
        (fromCacheItem now it req (IsDO req))) as Hget.
  { intros b c it Hp (e & He & -> & Hexp)%cache_Get_spec Hd.
    destruct (Hp _ _ He) as (ev & Hin & up & sub0 & sub' & scope & q & qs & Hup & Hsub & Hecs & Hq & Hb & Hk & _ & _ & Hit & Hex).
    exists ev, up. split; [done|]. split; [done|].
    destruct (proj1 (Forall_forall _ _) Hok ev Hin) as [Hnow Httl]. specialize (Httl up Hup).
    apply (ttls_ok_filtered (ev_ri ev) (ev_req ev)), FindLowestTTL_nonneg in Httl.
    pose proof (lifetime_bound _ Httl Hmin) as Hce. rewrite cache_form_kept in Hit, Hex. simpl in Hit, Hex.
    rewrite Hex, i64_small in Hexp by lia.
    injection Hk as Hh Hsn Hqt Hqc Hdo Hde. split_and!.
    - unfold same_request. split_and!; try done. destruct b; [split; [by apply Hd|]|done]. rewrite Hsub, Hs. congruence.
    - by exists sub', scope, q, qs.
    - unfold fresh. lia.
    - rewrite Hit. by apply fromCacheItem_gives. }
  unfold ecs_get. destruct (cache_Get now (es_cache st) _) as [[it|] c] eqn:E1.
  { intros [= <- <- _]. apply (Hget false (es_cache st)); [done|by rewrite E1|done]. }
  destruct (cr_isECSDeclined cr) eqn:Ed; [done|]. simpl.
  destruct (cache_Get now (es_ecsCache st) _) as [[it|] c'] eqn:E2; [|done].
  intros [= <- <- _]. apply (Hget true (es_ecsCache st)); [done|by rewrite E2|done].
Qed.

(** C24. What is answered from the cache, where one clock that does not go back tells the
    times of the cache and the ages of its items, and all times and the configured minimum
    are below 2^62 ns.  After any history of requests, an answer that is given without
    asking the handler behind the cache is the answer which that handler has given to an
    earlier request: one for the same name, type, class and DO bit; from a client with
    the same subnet, if the answer depends on the subnet and then never to a client that
    has declined to give one; and otherwise from a client that has or has not declined
    likewise.  It has not expired.  Its code is that of the earlier answer, and its
    answer, authority and additional records are those of it, less what is not to be
    passed on, except for the OPT record; their TTLs are all the same, and are what is
    left of the lowest TTL (with overridden ones), to the nearest second. *)
Theorem cached_answer evs st0 st now ri req resp st' :
  ecs_inv st0 [] -> for_each ecs_exec st0 evs = Ret st -> Forall event_ok evs -> em_cacheMinTTL mw < 2 ^ 62 ->
  Forall (fun ev => ev_now ev <= now) evs -> now < 2 ^ 62 ->
  serve now mw (fun _ _ => Panic "called") None st ri req = Ret (None, Some resp, st') ->
  exists ev up ecs, ev ∈ evs /\ ev_up ev = Ret (None, Some up) /\ same_request ecs ev ri req /\ depends ev up ecs /\
    fresh now ev up /\
    exists ttl, from_item ttl req up (filtered (ev_ri ev) (ev_req ev) up) resp /\ 0 <= ttl /\
      Z.abs (2 * ttl * second - 2 * time_left now ev up) <= second.
Proof.
  intros H0' Hrun Hok Hmin Hpast Hnow'. pose proof (ecs_history_inv _ _ _ H0' Hrun) as Hinv. unfold ecs_ServeDNS.
  destruct (subnet_of ri) as [subnet|err] eqn:Es; [|done].
  destruct (ecs_get now st req (cacheRequest_of ri req subnet)) as [[[r ecs]|] st1] eqn:Eg.
  2:{ destruct (setECS req subnet _ false) as [[?|?]|]; done. }
  destruct (ecs_get_found _ _ _ _ _ _ _ _ _ Hinv Hok Hmin Es Eg) as (ev & up & Hin & Hup & Hsame & Hdep & Hf & Hit).
  intros E. exists ev, up, ecs. split_and!; try done. eexists. split.
  - revert E. unfold writeCachedResponse. destruct (ri_ECS ri) as [e|]; [|by intros [= <- _]].
    destruct (setECS r _ _ true) as [[r'|?]|] eqn:Ee; simpl; [|done..]. intros [= <- _].
    apply setECS_extra in Ee as [? ?]. by eapply from_item_extra.
  - destruct (proj1 (Forall_forall _ _) Hok ev Hin) as [Hnow Httl]. specialize (Httl up Hup).
    pose proof (proj1 (Forall_forall _ _) Hpast ev Hin) as Hp. simpl in Hp.
    apply left_ttl_near; simpl; [lia|lia|]. by apply FindLowestTTL_nonneg, ttls_ok_kept, ttls_ok_filtered.
Qed.

End serving.

(** ** Concrete inputs *)

#[local] Existing Instance ref_miekg.
#[local] Existing Instance ref_miekg_spec.

#[export] Instance cacheKey_countable : Countable cacheKey.
Proof.
  refine (inj_countable'
    (fun k => (key_host k, p_ip (key_subnet k), p_bits (key_subnet k), key_qType k, key_qClass k, key_reqDO k,
               key_isECSDeclined k))
    (fun '(h, ip, b, t, c, d, e) => {| key_host := h; key_subnet := {| p_ip := ip; p_bits := b |}; key_qType := t;
                                       key_qClass := c; key_reqDO := d; key_isECSDeclined := e |}) _).
  by intros [? [] ? ? ? ?].
Defined.

Definition ecs_lru : Lru cacheKey (entry cacheItem) := map_lru cacheKey (entry cacheItem).
#[local] Existing Instance ecs_lru.
#[local] Instance ecs_lru_spec : LruSpec cacheKey (entry cacheItem).
Proof. apply map_lru_spec. Qed.

#[local] Instance ref_edns : MiekgEdns := fun m size d => set_Extra m (m_Extra m ++ [newOPT size d]).
#[local] Instance ref_edns_spec : MiekgEdnsSpec.
Proof. intros m size d. exists (newOPT size d). split_and!; try done. by destruct d. Qed.

#[local] Instance ref_ipconv : IPConv := fun s fam =>
  if fam =? AddrFamilyIPv4 then Ok (Addr4 (be_value s)) else Ok (Addr6 (be_value s) EmptyString).
#[local] Instance ref_ipconv_spec : IPConvSpec.
Proof.
  split; intros n Hn; unfold IPToAddr, ref_ipconv; simpl Z.eqb; cbv iota; rewrite be_value_bytes; try done;
    simpl Z.of_nat; lia.
Qed.

Definition nl_subnet : Prefix := {| p_ip := Addr4 0x05010000; p_bits := 16 |}.
Definition nl_location (l : GeoLocation) (fam : Z) : result error Prefix := Ok nl_subnet.
Definition zero_prefix (fam : Z) : Prefix :=
  {| p_ip := if fam =? AddrFamilyIPv4 then Addr4 0 else Addr6 0 EmptyString; p_bits := 0 |}.

Definition ecs_mw : EcsMiddleware := {| em_cacheMinTTL := 0; em_overrideTTL := false |}.

Definition empty_ecs : EcsState := {| es_cache := {| dc_cache := ∅ |}; es_ecsCache := {| dc_cache := ∅ |} |}.

Definition ecs_request : Msg := set_Extra some_request [].

Definition ecs_ri : RequestInfo := {|
  ri_DeviceResult := None; ri_Location := None; ri_ECS := None;
  ri_FilteringGroup := ri_FilteringGroup (ddr_ri false "host"); ri_Messages := some_constructor;
  ri_ServerInfo := ri_ServerInfo (ddr_ri false "host");
  ri_RemoteIP := Addr4 0x05010203; ri_Host := "www.example.org"; ri_QType := TypeA; ri_QClass := ClassINET;
|}.

(** A response with one address and the options of an OPT record. *)
Definition ecs_response (ttl : Z) (opts : list EDNSOption) : Msg :=
  set_Extra (set_Answer (NewResp ecs_request)
    [{| rr_Hdr := {| rh_Name := "www.example.org."; rh_Rrtype := TypeA; rh_Class := ClassINET; rh_Ttl := ttl |};
        rr_Data := RD_A (Addr4 7) |}])
    [{| rr_Hdr := {| rh_Name := "."; rh_Rrtype := TypeOPT; rh_Class := 1232; rh_Ttl := 0 |}; rr_Data := RD_OPT opts |}].

Definition answered {A} (o : outcome (option error * option Msg * A)) : bool :=
  match o with Ret (None, Some _, _) => true | _ => false end.

(** The response to a request is given to the next one four seconds later. *)
Lemma cached_answer_witness :
  let ev := {| ev_now := 10 * second; ev_ri := ecs_ri; ev_req := ecs_request;
               ev_up := Ret (None, Some (ecs_response 60 [])) |} in
  exists st resp st', for_each (ecs_exec nl_location zero_prefix ∅ ecs_mw) empty_ecs [ev] = Ret st /\
    ecs_ServeDNS nl_location zero_prefix ∅ (14 * second) ecs_mw (fun _ _ => Panic "called") None st ecs_ri ecs_request =
      Ret (None, Some resp, st') /\
    exists up ecs ttl, ev_up ev = Ret (None, Some up) /\ same_request nl_location zero_prefix ecs ev ecs_ri ecs_request /\
      from_item ttl ecs_request up (filtered ecs_ri ecs_request up) resp /\ ttl = 56.
Proof.
  intros ev.
  assert (answered (let! st := for_each (ecs_exec nl_location zero_prefix ∅ ecs_mw) empty_ecs [ev] in
    ecs_ServeDNS nl_location zero_prefix ∅ (14 * second) ecs_mw (fun _ _ => Panic "called") None st ecs_ri ecs_request) = true)
    as Ha by (vm_compute; reflexivity).
  destruct (for_each (ecs_exec nl_location zero_prefix ∅ ecs_mw) empty_ecs [ev]) as [st|] eqn:Er; [|discriminate Ha].
  cbn [outcome_bind] in Ha.
  destruct (ecs_ServeDNS nl_location zero_prefix ∅ (14 * second) ecs_mw (fun _ _ => Panic "called") None st ecs_ri ecs_request)
    as [[[[err|] [resp|]] st']|] eqn:E; try discriminate Ha.
  exists st, resp, st'. split; [reflexivity|]. split; [exact E|].
  destruct (cached_answer nl_location zero_prefix ∅ ecs_mw [ev] empty_ecs st (14 * second) ecs_ri ecs_request resp st')
    as (ev' & up & ecs & Hin & Hup & Hsame & _ & _ & ttl & Hitem & H0 & Ht).
  - split; intros k e; simpl; rewrite lookup_empty; discriminate.
  - exact Er.
  - constructor; [|constructor]. split; [simpl; unfold second; lia|]. intros up [= <-]. repeat constructor; simpl; lia.
  - vm_compute. reflexivity.
  - constructor; [|constructor]. simpl. unfold second. lia.
  - unfold second. lia.
  - exact E.
  - apply list_elem_of_singleton in Hin as ->. exists up, ecs, ttl. split; [exact Hup|]. split; [exact Hsame|].
    split; [exact Hitem|]. injection Hup as <-.
    assert (time_left ecs_mw (14 * second) ev (ecs_response 60 []) = 56 * second) as Hl by (vm_compute; reflexivity).
    rewrite Hl in Ht. unfold second in Ht. lia.
Defined.


(** The DO bits of the OPT records that are written. *)
Definition written_DO {A} (o : outcome (option error * option Msg * A)) : list bool :=
  match o with Ret (_, Some m, _) => Do <$> filter (fun rr => is_OPT rr = true) (m_Extra m) | _ => [] end.

(** The flags of a cached OPT record are overwritten.  A response with an extended
    error keeps its OPT record, and [fromCacheItem] writes the TTL into the field
    which in an OPT record holds the extended code, the version and the flags: a
    client without EDNS is sent an OPT record with the DO bit set, because the TTL
    happens to have this bit. *)
Theorem cached_opt_flags :
  let ev := {| ev_now := 10 * second; ev_ri := ecs_ri; ev_req := ecs_request;
               ev_up := Ret (None, Some (ecs_response 40000 [EDNS0_EDE 22 EmptyString])) |} in
  IsDO (ecs_response 40000 [EDNS0_EDE 22 EmptyString]) = false /\ IsEdns0 ecs_request = None /\
  written_DO (let! st := for_each (ecs_exec nl_location zero_prefix ∅ ecs_mw) empty_ecs [ev] in
    ecs_ServeDNS nl_location zero_prefix ∅ (14 * second) ecs_mw (fun _ _ => Panic "called") None st ecs_ri ecs_request) =
  [true].
Proof. vm_compute. done. Qed.
