(* ===== verification/DnsCache.v ===== *)
(** The simple cache of responses: internal/dnsserver/cache.

    The functions on messages are copies of those of internal/dnsmsg and
    internal/ecscache.  The cache of bluele/gcache is a parameter. *)

From S2P Require Import Prelude GoStd NetIP HumanID DnsMsg Filter FilterConfig Access AgdCache MsgConfig Agd InitialMW EcsCache.

Open Scope Z_scope.

(** [gcache.Cache] with the policy LRU.  [gc_contents] is a value that may still be
    found with the time of its expiration. *)
Class Gcache (K V : Type) := {
  gcache : Type;
  gc_contents : gcache -> K -> option (V * Z);
  gc_New : Z -> gcache;
  gc_Get : Z -> gcache -> K -> option V * gcache;
  gc_SetWithExpire : Z -> gcache -> K -> V -> Z -> gcache;
}.

Class GcacheSpec (K V : Type) `{Gcache K V} : Prop := {
  gc_new n k : gc_contents (gc_New n) k = None;
  gc_get now c k v : (gc_Get now c k).1 = Some v -> exists exp, gc_contents c k = Some (v, exp) /\ now <= exp;
  gc_get_keeps now c k k' x : gc_contents (gc_Get now c k).2 k' = Some x -> gc_contents c k' = Some x;
  gc_set_eq now c k v d x : gc_contents (gc_SetWithExpire now c k v d) k = Some x -> x = (v, now + d);
  gc_set_ne now c k v d k' x : k <> k' ->
    gc_contents (gc_SetWithExpire now c k v d) k' = Some x -> gc_contents c k' = Some x;
}.

Section cache.
Context `{MiekgDNS} `{UnicodeCase}.

(** The copy of a string into a slice of zero bytes. *)
Fixpoint zero_bytes (n : nat) : string :=
  match n with O => EmptyString | S n => String (byte_of 0) (zero_bytes n) end.

Definition copied (n : nat) (s : string) : string := str_take n s +:+ zero_bytes (n - String.length s).

(** The key: the DO bit, the type and the class in big-endian order, the name in as
    many bytes as it has before it is lowered. *)
Definition toCacheKey (msg : Msg) : outcome string :=
  let! q := index (m_Question msg) 0 in
  let do_byte := if IsDO msg then byte_of 1 else byte_of 0 in
  Ret (String do_byte (be_bytes 2 (q_Qtype q) +:+ be_bytes 2 (q_Qclass q) +:+
         copied (String.length (q_Name q)) (ToLower (q_Name q)))).

Definition simple_findLowestTTL : Msg -> Z := FindLowestTTL.
Definition simple_setMinTTL : Msg -> Z -> Msg := SetMinTTL.
Definition simple_isCacheable : Msg -> bool := isCacheable.

Record simpleItem := { si_when : Z; si_msg : Msg }.

Definition toCacheItem (now : Z) (msg : Msg) : simpleItem := {| si_when := now; si_msg := msg |}.

(** [math.Round] of the seconds that are left: half a second is rounded away from
    zero.  The TTL of an item that has none left is not changed. *)
Definition simple_ttl (now : Z) (item : simpleItem) : Z :=
  let newTTL := simple_findLowestTTL (si_msg item) in
  let left := newTTL * second - Sub now (si_when item) in
  let rounded := (left + second / 2) / second in
  if 0 <? rounded then rounded else newTTL.

Definition simple_fromCacheItem (now : Z) (item : simpleItem) (req : Msg) : Msg :=
  let ci := si_msg item in
  let msg := SetReply empty_msg req in
  let ttl := simple_ttl now item in
  let copies := fmap (fun rr => with_Ttl rr ttl) in
  {| m_Id := m_Id msg; m_Response := m_Response msg; m_RecursionDesired := m_RecursionDesired msg;
     m_RecursionAvailable := m_RecursionAvailable ci; m_AuthenticatedData := m_AuthenticatedData ci;
     m_CheckingDisabled := m_CheckingDisabled msg; m_Truncated := m_Truncated msg; m_Opcode := m_Opcode msg; m_Rcode := m_Rcode ci;
     m_Compress := m_Compress ci; m_Question := m_Question msg;
     m_Answer := m_Answer msg ++ copies (m_Answer ci);
     m_Ns := m_Ns msg ++ copies (m_Ns ci);
     m_Extra := m_Extra msg ++
       copies (filter (fun rr => rh_Rrtype (rr_Hdr rr) <> TypeOPT) (m_Extra ci)) |}.

Context `{G : Gcache string simpleItem}.

Record SimpleMiddleware := { sm_cacheMinTTL : Z; sm_overrideTTL : bool }.

Definition simple_get (now : Z) (c : gcache) (req : Msg) : outcome (option Msg * gcache) :=
  let! key := toCacheKey req in
  Ret match gc_Get now c key with
      | (Some item, c) => (Some (simple_fromCacheItem now item req), c)
      | (None, c) => (None, c)
      end.

(** The message with its TTLs overridden in place, and how long it is cached. *)
Definition simple_form (m : SimpleMiddleware) (msg : Msg) : Z * Msg :=
  let exp := simple_findLowestTTL msg * second in
  if sm_overrideTTL m && negb (m_Rcode msg =? RcodeServerFailure) then
    let exp := Z.max exp (sm_cacheMinTTL m) in (exp, simple_setMinTTL msg (exp / second mod 2 ^ 32))
  else (exp, msg).

Definition simple_set (now : Z) (m : SimpleMiddleware) (c : gcache) (msg : Msg) : outcome (Msg * gcache) :=
  if (simple_findLowestTTL msg =? 0) || negb (simple_isCacheable msg) then Ret (msg, c)
  else
    let '(exp, msg) := simple_form m msg in
    let! key := toCacheKey msg in
    Ret (msg, gc_SetWithExpire now c key (toCacheItem now msg) exp).

Definition simple_ServeDNS (now : Z) (m : SimpleMiddleware) (next : Handler) (werr : option error) (c : gcache)
    (ri : RequestInfo) (req : Msg) : outcome (option error * option Msg * gcache) :=
  let! g := simple_get now c req in
  let! r :=
    match g with
    | (Some resp, c) => Ret (wrap_opt "writing cached response: %w" werr, Some resp, c)
    | (None, c) =>
        let! n := next ri req in
        match n with
        | (Some err, _) => Ret (Some (ErrWrap "request processing: %w" err), None, c)
        | (None, None) => Ret (None, None, c)
        | (None, Some resp) =>
            let! s := simple_set now m c resp in
            Ret (wrap_opt "writing response: %w" werr, Some s.1, s.2)
        end
    end in
  Ret (wrap_opt "cache: %w" r.1.1, r.1.2, r.2).

End cache.

(** * Facts *)

(** ** Keys *)

Section keys.
Context `{MiekgDNS} `{UnicodeCase}.

(** The questions of two messages that a cache may not tell apart. *)
Definition same_question (a b : Msg) : Prop :=
  exists p q ps qs, m_Question a = p :: ps /\ m_Question b = q :: qs /\
    q_Qtype p = q_Qtype q /\ q_Qclass p = q_Qclass q /\ ToLower (q_Name p) = ToLower (q_Name q) /\ IsDO a = IsDO b.

(** The fields of a question have their width, and the name keeps its length when
    it is lowered, as any ASCII name does. *)
Definition regular_question (m : Msg) : Prop :=
  forall q, q ∈ m_Question m -> 0 <= q_Qtype q < 2 ^ 16 /\ 0 <= q_Qclass q < 2 ^ 16 /\
    String.length (ToLower (q_Name q)) = String.length (q_Name q).

Lemma copied_same s : copied (String.length s) s = s.
Proof.
  unfold copied. rewrite Nat.sub_diag. simpl. rewrite append_nil_r.
  pose proof (str_take_append s EmptyString) as E. by rewrite append_nil_r in E.
Qed.

Lemma key_parts q : 0 <= q_Qtype q < 2 ^ 16 /\ 0 <= q_Qclass q < 2 ^ 16 /\
    String.length (ToLower (q_Name q)) = String.length (q_Name q) ->
  copied (String.length (q_Name q)) (ToLower (q_Name q)) = ToLower (q_Name q).
Proof. intros (_ & _ & <-). apply copied_same. Qed.

Lemma Ret_String_inj c c' s s' : Ret (String c s) = Ret (String c' s') -> c = c' /\ s = s'.
Proof. by intros [= -> ->]. Qed.

Lemma toCacheKey_inj a b k : regular_question a -> regular_question b ->
  toCacheKey a = Ret k -> toCacheKey b = Ret k -> same_question a b.
Proof.
  intros Ha Hb. unfold toCacheKey. destruct (m_Question a) as [|p ps] eqn:Ea; [done|].
  destruct (m_Question b) as [|q qs] eqn:Eb; [done|]. cbn [index lookup list_lookup outcome_bind].
  assert (Hp : p ∈ m_Question a) by (rewrite Ea; by left). assert (Hq : q ∈ m_Question b) by (rewrite Eb; by left).
  specialize (Ha p Hp). specialize (Hb q Hq). rewrite !key_parts by done.
  intros E1 E2. rewrite <- E1 in E2. apply Ret_String_inj in E2 as [E2 E3].
  apply append_inj_length in E3 as [E3 E4]; [|by rewrite !be_bytes_length].
  apply append_inj_length in E4 as [E4 E5]; [|by rewrite !be_bytes_length].
  apply be_bytes_inj in E3; [|simpl; lia..]. apply be_bytes_inj in E4; [|simpl; lia..].
  exists p, q, ps, qs. split_and!; try done. by destruct (IsDO a), (IsDO b).
Qed.

End keys.

(** ** What is answered from the cache *)

Section history.
Context `{M : MiekgDNS} `{!MiekgDNSSpec} `{UnicodeCase} `{G : Gcache string simpleItem} `{!GcacheSpec string simpleItem}.
Variable m : SimpleMiddleware.

(** A request, and what the handler behind the cache would write. *)
Record simple_event := {
  se_now : Z; se_ri : RequestInfo; se_req : Msg; se_up : outcome (option error * option Msg) }.

Definition simple_exec (c : gcache) (ev : simple_event) : outcome gcache :=
  let! r := simple_ServeDNS (se_now ev) m (fun _ _ => se_up ev) None c (se_ri ev) (se_req ev) in Ret r.2.

(** An item of the cache is the form of a cacheable response to some request. *)
Definition item_of (ev : simple_event) (up : Msg) (k : string) (item : simpleItem) (exp : Z) : Prop :=
  se_up ev = Ret (None, Some up) /\ simple_isCacheable up = true /\ simple_findLowestTTL up <> 0 /\
  toCacheKey up = Ret k /\ item = toCacheItem (se_now ev) (simple_form m up).2 /\
  exp = se_now ev + (simple_form m up).1.

Definition simple_inv (c : gcache) (evs : list simple_event) : Prop :=
  forall k item exp, gc_contents c k = Some (item, exp) -> exists ev up, ev ∈ evs /\ item_of ev up k item exp.

Lemma simple_form_key up : toCacheKey (simple_form m up).2 = toCacheKey up.
Proof. unfold simple_form. by case_if. Qed.

Lemma simple_inv_weaken c evs ev : simple_inv c evs -> simple_inv c (evs ++ [ev]).
Proof.
  intros Hc k item exp Hk. destruct (Hc _ _ _ Hk) as (e & up & He & Hi). exists e, up.
  split; [|done]. apply elem_of_app. by left.
Qed.

Lemma simple_get_inv now c req r c' evs :
  simple_inv c evs -> simple_get now c req = Ret (r, c') -> simple_inv c' evs.
Proof.
  intros Hc. unfold simple_get. destruct (toCacheKey req) as [k|]; simpl; [|done].
  pose proof (gc_get_keeps now c k) as Hk. destruct (gc_Get now c k) as [[it|] c1]; intros [= <- <-];
    intros k' item exp E; by apply Hc, Hk.
Qed.

Lemma simple_set_inv c evs ev up r :
  simple_inv c evs -> se_up ev = Ret (None, Some up) -> simple_set (se_now ev) m c up = Ret r ->
  simple_inv r.2 (evs ++ [ev]).
Proof.
  intros Hc Hup. unfold simple_set. destruct (_ || _) eqn:E; [intros [= <-]; by apply simple_inv_weaken|].
  apply orb_false_iff in E as [Ht Hca]. pose proof (simple_form_key up) as Hkey.
  destruct (simple_form m up) as [exp msg] eqn:Ef. simpl in Hkey. rewrite Hkey.
  destruct (toCacheKey up) as [k|] eqn:Ek; simpl; [|done]. intros [= <-]. simpl. intros k' item e He.
  destruct (decide (k = k')) as [<-|Hne].
  - apply gc_set_eq in He as [= -> ->]. exists ev, up. split; [apply elem_of_app; right; by left|].
    unfold item_of. rewrite Ef. split_and!; try done; [by apply negb_false_iff|by apply Z.eqb_neq].
  - apply gc_set_ne in He; [|done]. by apply (simple_inv_weaken c evs ev Hc).
Qed.

Lemma simple_exec_inv c evs ev c' : simple_inv c evs -> simple_exec c ev = Ret c' -> simple_inv c' (evs ++ [ev]).
Proof.
  intros Hc. unfold simple_exec, simple_ServeDNS.
  destruct (simple_get (se_now ev) c (se_req ev)) as [[r c1]|] eqn:Eg; simpl; [|done].
  pose proof (simple_get_inv _ _ _ _ _ _ Hc Eg) as Hc1.
  destruct r as [resp|]; simpl; [intros [= <-]; by apply simple_inv_weaken|].
  destruct (se_up ev) as [[[err|] [up|]]|] eqn:Eu; simpl; try done; try (intros [= <-]; by apply simple_inv_weaken).
  destruct (simple_set (se_now ev) m c1 up) as [s|] eqn:Es; simpl; [|done]. intros [= <-]. by eapply simple_set_inv.
Qed.

Lemma simple_history_inv evs n c : for_each simple_exec (gc_New n) evs = Ret c -> simple_inv c evs.
Proof.
  assert (forall done c0, simple_inv c0 done -> for_each simple_exec c0 evs = Ret c -> simple_inv c (done ++ evs)) as Hg.
  { induction evs as [|ev evs IH]; intros dn c0 Hc0; simpl; [intros [= <-]; by rewrite app_nil_r|].
    destruct (simple_exec c0 ev) as [c1|] eqn:Ee; simpl; [|done]. intros Hr.
    rewrite (cons_middle ev dn evs), app_assoc. eapply IH; [|done]. by eapply simple_exec_inv. }
  intros Hr. apply (Hg [] (gc_New n)); [|done]. intros k item exp. by rewrite gc_new.
Qed.

(** What is made of a cached response. *)
Record served_from (now : Z) (req up : Msg) (item : simpleItem) (resp : Msg) : Prop := {
  sf_id : m_Id resp = m_Id req;
  sf_rcode : m_Rcode resp = m_Rcode up;
  sf_ad : m_AuthenticatedData resp = m_AuthenticatedData up;
  sf_answer : m_Answer resp = (fun rr => with_Ttl rr (simple_ttl now item)) <$> m_Answer up;
  sf_ns : m_Ns resp = (fun rr => with_Ttl rr (simple_ttl now item)) <$> m_Ns up;
  sf_opt rr : rr ∈ m_Extra resp -> rh_Rrtype (rr_Hdr rr) <> TypeOPT;
}.

Lemma fromCacheItem_served now req ev up :
  served_from now req up (toCacheItem (se_now ev) (simple_form m up).2)
    (simple_fromCacheItem now (toCacheItem (se_now ev) (simple_form m up).2) req).
Proof.
  assert (forall t, let f := (simple_form m up).2 in m_Rcode f = m_Rcode up /\
    m_AuthenticatedData f = m_AuthenticatedData up /\ m_Ns f = m_Ns up /\
    (fun rr => with_Ttl rr t) <$> m_Answer f = (fun rr => with_Ttl rr t) <$> m_Answer up) as Hf.
  { intros t. unfold simple_form. case_if; simpl; split_and!; try done. rewrite <- list_fmap_compose.
    by apply list_fmap_ext. }
  destruct (Hf (simple_ttl now (toCacheItem (se_now ev) (simple_form m up).2))) as (F1 & F2 & F3 & F4).
  split; simpl; rewrite ?reply_Id, ?reply_Answer, ?reply_Ns, ?reply_Extra, ?F1, ?F2, ?F3; try done.
  intros rr. simpl. intros (rr' & -> & [Hr _]%list_elem_of_filter)%list_elem_of_fmap. done.
Qed.

(** What is answered from the simple cache.  After any history of requests, an
    answer that is given without asking the handler behind the cache is the answer
    which that handler has given to an earlier request, and which has the same name,
    type, class and DO bit as this request; it could be cached and has not expired
    since; its records are the same but for their TTLs, and no OPT record is sent. *)
Theorem simple_cached_answer evs n c now ri req resp c' :
  for_each simple_exec (gc_New n) evs = Ret c ->
  regular_question req ->
  (forall ev up, ev ∈ evs -> se_up ev = Ret (None, Some up) -> regular_question up) ->
  simple_ServeDNS now m (fun _ _ => Panic "called") None c ri req = Ret (None, Some resp, c') ->
  exists ev up, ev ∈ evs /\ se_up ev = Ret (None, Some up) /\ same_question up req /\
    simple_isCacheable up = true /\ now <= se_now ev + (simple_form m up).1 /\
    served_from now req up (toCacheItem (se_now ev) (simple_form m up).2) resp.
Proof.
  intros Hrun Hreq Hups. pose proof (simple_history_inv _ _ _ Hrun) as Hinv. unfold simple_ServeDNS, simple_get.
  destruct (toCacheKey req) as [k|] eqn:Ek; simpl; [|done].
  pose proof (gc_get now c k) as Hg. destruct (gc_Get now c k) as [[item|] c1]; simpl; [|done].
  destruct (Hg item eq_refl) as (exp & Hc & Hexp).
  destruct (Hinv _ _ _ Hc) as (ev & up & Hin & Hup & Hca & Hne & Hk & -> & ->). intros [= <- <-].
  exists ev, up. split_and!; try done; [|apply fromCacheItem_served].
  by eapply toCacheKey_inj; [by eapply Hups|done..].
Qed.

End history.

(** ** Concrete inputs *)

#[local] Existing Instance ref_miekg.
#[local] Existing Instance ref_miekg_spec.
#[local] Existing Instance ref_unicode.

(** A cache that never evicts. *)
#[local] Instance map_gcache (V : Type) : Gcache string V := {|
  gcache := gmap string (V * Z);
  gc_contents c k := c !! k;
  gc_New _ := ∅;
  gc_Get now c k :=
    (match c !! k with Some (v, exp) => if now <=? exp then Some v else None | None => None end, c);
  gc_SetWithExpire now c k v d := <[k := (v, now + d)]> c;
|}.

#[local] Instance map_gcache_spec V : GcacheSpec string V.
Proof.
  split; simpl.
  - intros _ k. apply lookup_empty.
  - intros now c k v. destruct (c !! k) as [[v' exp]|]; [|done]. destruct (now <=? exp) eqn:E; [|done]. intros [= ->].
    exists exp. split; [done|]. by apply Z.leb_le.
  - done.
  - intros now c k v d x. rewrite lookup_insert_eq. by intros [= <-].
  - intros now c k v d k' x Hne. by rewrite lookup_insert_ne.
Qed.

Definition simple_mw : SimpleMiddleware := {| sm_cacheMinTTL := 0; sm_overrideTTL := false |}.

Definition simple_ev (ttl : Z) : simple_event := {|
  se_now := 10 * second; se_ri := ecs_ri; se_req := ecs_request; se_up := Ret (None, Some (ecs_response ttl [])) |}.

Definition written_ttls {A} (o : outcome (option error * option Msg * A)) : list Z :=
  match o with Ret (_, Some m, _) => (fun rr => rh_Ttl (rr_Hdr rr)) <$> m_Answer m | _ => [] end.

Lemma simple_cached_answer_witness :
  exists c resp c', for_each (simple_exec simple_mw) (gc_New 10) [simple_ev 60] = Ret c /\
    simple_ServeDNS (14 * second) simple_mw (fun _ _ => Panic "called") None c ecs_ri ecs_request =
      Ret (None, Some resp, c') /\
    exists up, se_up (simple_ev 60) = Ret (None, Some up) /\ same_question up ecs_request.
Proof.
  assert (answered (let! c := for_each (simple_exec simple_mw) (gc_New 10) [simple_ev 60] in
    simple_ServeDNS (14 * second) simple_mw (fun _ _ => Panic "called") None c ecs_ri ecs_request) = true)
    as Ha by (vm_compute; reflexivity).
  destruct (for_each (simple_exec simple_mw) (gc_New 10) [simple_ev 60]) as [c|] eqn:Er; [|discriminate Ha].
  cbn [outcome_bind] in Ha.
  destruct (simple_ServeDNS (14 * second) simple_mw (fun _ _ => Panic "called") None c ecs_ri ecs_request)
    as [[[[err|] [resp|]] c']|] eqn:E; try discriminate Ha.
  exists c, resp, c'. split; [reflexivity|]. split; [exact E|].
  assert (forall q, q ∈ m_Question ecs_request -> q = some_question) as Hq
    by (intros q Hq; by apply list_elem_of_singleton in Hq).
  destruct (simple_cached_answer simple_mw [simple_ev 60] 10 c (14 * second) ecs_ri ecs_request resp c')
    as (ev' & up & Hin & Hup & Hsame & _).
  - exact Er.
  - intros q ->%Hq. split; [vm_compute; split; done|]. split; [vm_compute; split; done|]. reflexivity.
  - intros ev up ->%list_elem_of_singleton [= <-] q ->%Hq.
    split; [vm_compute; split; done|]. split; [vm_compute; split; done|]. reflexivity.
  - exact E.
  - apply list_elem_of_singleton in Hin as ->. exists up. split; [exact Hup|exact Hsame].
Defined.

(** The TTL of an item that is about to expire.  Four seconds after a response with
    a TTL of sixty has been cached its records are sent with fifty-six seconds, but
    in the last half of the last second with the full sixty again, and not with zero:
    such an answer is used for nearly twice the time it is valid. *)
Theorem last_half_second :
  let serve ttl now := written_ttls (let! c := for_each (simple_exec simple_mw) (gc_New 10) [simple_ev ttl] in
    simple_ServeDNS now simple_mw (fun _ _ => Panic "called") None c ecs_ri ecs_request) in
  serve 60 (14 * second) = [56] /\ serve 60 (69 * second) = [1] /\ serve 60 (70 * second - 1) = [60].
Proof. vm_compute. done. Qed.
