(* ===== verification/Forward.v ===== *)
(** Forwarding of requests to upstreams: internal/dnsserver/forward.

    Sockets, and the packing of messages by miekg/dns, are parameters.  A packet or a
    stream is a string of bytes; the buffer which is used to pack a request and to
    read the response is a string that reads overwrite from its beginning. *)

From S2P Require Import Prelude GoStd HumanID ConnPool DnsMsg EcsCache DnsCache.

Open Scope Z_scope.

(** * Networks *)

Definition NetworkAny : string := EmptyString.
Definition NetworkUDP : string := "udp".
Definition NetworkTCP : string := "tcp".

Definition NewNetwork (networkStr : string) : result error string :=
  if bool_decide (networkStr ∈ [NetworkAny; NetworkUDP; NetworkTCP]) then Ok networkStr
  else Err (ErrWrap "networkStr: %w: %q" (ErrConst "bad enum value")).

(** * Parameters *)

(** [dns.Msg.Len], [dns.Msg.PackBuffer] with what is in the given buffer afterwards,
    [dns.Msg.Unpack].  [wire] is the packed message. *)
Class MiekgWire := {
  msg_Len : Msg -> Z;
  wire : Msg -> string;
  PackBuffer : Msg -> string -> option error * string;
  Unpack : string -> result error Msg;
}.

(** A message is packed into the given buffer if it is large enough. *)
Class MiekgWireSpec `{MiekgWire} : Prop := {
  pack_length m buf : String.length (PackBuffer m buf).2 = String.length buf;
  pack_in_place m buf : m_Compress m = false -> msg_Len m < len buf -> (PackBuffer m buf).1 = None ->
    len (wire m) = msg_Len m /\ (PackBuffer m buf).2 = wire m +:+ str_drop (String.length (wire m)) buf;
}.

(** Connections: making one over a network, closing it, its deadline, writing,
    [Read] with the size of the buffer, [io.ReadFull].  The constant errors which are
    a [net.Error] are known. *)
Class NetIO := {
  net : Type;
  net_Dial : string -> net -> result error Z * net;
  net_Close : Z -> net -> option error * net;
  net_SetDeadline : Z -> net -> option error * net;
  net_Write : Z -> string -> net -> option error * net;
  net_Read : Z -> nat -> net -> string * option error * net;
  net_ReadFull : Z -> nat -> net -> string * option error * net;
  is_net_error : string -> bool;
}.

(** [errors.As] with a [net.Error]. *)
Fixpoint as_net `{NetIO} (err : error) : bool :=
  match err with
  | ErrConst m => is_net_error m
  | ErrWrap _ inner => as_net inner
  | ErrJoin errs => existsb as_net errs
  end.

Definition EOF : string := "EOF".

Section plain.
Context `{MiekgWire} `{NetIO} `{DeferredErrors} `{UnicodeCase}.

(** * upstreamplain.go *)

Definition poolMaxCapacity : nat := 1024.
Definition poolIdleTimeout : Z := 30 * second.
Definition minDNSMessageSize : Z := 12 + 5.
Definition MaxMsgSize : Z := 65535.
Definition udpBufSize : nat := 4096.
Definition tcpBufSize : nat := Z.to_nat MaxMsgSize.
Definition tcpLengthPrefixSize : nat := 2.

(** The pools of buffers only save allocations; the buffers of a call are given with
    it. *)
Record UpstreamPlain := {
  u_connsPoolUDP : Pool;
  u_connsPoolTCP : Pool;
  u_network : string;
  u_timeout : Z;
}.

Definition NewUpstreamPlain (network : string) (timeout : Z) : UpstreamPlain := {|
  u_connsPoolUDP := NewPool poolMaxCapacity poolIdleTimeout;
  u_connsPoolTCP := NewPool poolMaxCapacity poolIdleTimeout;
  u_network := network; u_timeout := timeout;
|}.

(** An operation of an upstream, which may panic: it changes the pools and the world. *)
Definition io (A : Type) : Type := UpstreamPlain * net -> outcome (A * (UpstreamPlain * net)).

Definition io_ret {A} (a : A) : io A := fun s => Ret (a, s).
Definition io_bind {A B} (m : io A) (f : A -> io B) : io B :=
  fun s => let! r := m s in f r.1 r.2.
Definition io_lift {A} (o : outcome A) : io A := fun s => let! a := o in Ret (a, s).
Definition io_net {A} (f : net -> A * net) : io A := fun s => let '(a, w) := f s.2 in Ret (a, (s.1, w)).

End plain.

Notation "'letio' x ':=' m 'in' k" := (io_bind m (fun x => k))
  (at level 200, x pattern, m at level 100, k at level 200, right associativity).

Section upstream.
Context `{Wm : MiekgWire} `{N : NetIO} `{De : DeferredErrors} `{Uc : UnicodeCase}.

Definition pool_of (u : UpstreamPlain) (network : string) : Pool :=
  if bool_decide (network = NetworkTCP) then u_connsPoolTCP u else u_connsPoolUDP u.

Definition with_pool (u : UpstreamPlain) (network : string) (p : Pool) : UpstreamPlain :=
  if bool_decide (network = NetworkTCP)
  then {| u_connsPoolUDP := u_connsPoolUDP u; u_connsPoolTCP := p; u_network := u_network u; u_timeout := u_timeout u |}
  else {| u_connsPoolUDP := p; u_connsPoolTCP := u_connsPoolTCP u; u_network := u_network u; u_timeout := u_timeout u |}.

Definition up_Get (now : Z) (network : string) : io (result error Conn) := fun '(u, w) =>
  let '(r, p, w) := pool_Get (net_Dial network) net_Close now (pool_of u network) w in
  Ret (r, (with_pool u network p, w)).

Definition up_Create (now : Z) (network : string) : io (result error Conn) :=
  io_net (pool_Create (net_Dial network) now).

Definition up_Put (network : string) (conn : Conn) : io (option error) := fun '(u, w) =>
  let! r := pool_Put net_Close (pool_of u network) conn w in
  Ret (r.1.1, (with_pool u network r.1.2, r.2)).

(** [isExpectedConnErr] of an error that is not nil. *)
Definition isExpectedConnErr (err : error) : bool := as_net err || Is err EOF.

(** The number of the bytes is checked against the size of the buffer.  The result is
    the number of bytes to send and the buffer. *)
Definition packReq (network buf : string) (req : Msg) : result error nat * string :=
  let reqLen := msg_Len req in
  let pack (n : Z) (prefix : string) :=
    let '(err, packed) := PackBuffer req (str_drop (String.length prefix) buf) in
    (match err with Some err => Err err | None => Ok (Z.to_nat n) end, prefix +:+ packed) in
  if MaxMsgSize <? reqLen then (Err (ErrConst "dns: buffer size too small"), buf)
  else if bool_decide (network = NetworkTCP) then
    if len buf - Z.of_nat tcpLengthPrefixSize <? reqLen then (Err (ErrConst "dns: buffer size too small"), buf)
    else pack (reqLen + Z.of_nat tcpLengthPrefixSize) (be_bytes 2 reqLen)
  else if len buf <? reqLen then (Err (ErrConst "dns: buffer size too small"), buf)
  else pack reqLen EmptyString.

(** A read into the beginning of a buffer. *)
Definition overwrite (buf data : string) : string := data +:+ str_drop (String.length data) buf.

Definition unpackMsg (n : nat) (buf : string) : result error Msg :=
  if Z.of_nat n <? minDNSMessageSize then Err (ErrWrap "invalid msg: %w" (ErrConst "dns: short read"))
  else match Unpack (str_take n buf) with
       | Err err => Err (ErrWrap "unpacking msg: %w" err)
       | Ok res => Ok res
       end.

Definition readMsg (network : string) (conn : Conn) (buf : string) : io (result error Msg * string) :=
  if bool_decide (network = NetworkTCP) then
    letio (data, err) := io_net (net_ReadFull (c_Conn conn) tcpLengthPrefixSize) in
    let buf := overwrite buf data in
    match err with
    | Some err => io_ret (Err (ErrWrap "reading binary data: %w" err), buf)
    | None =>
        let length := Z.to_nat (be_value (str_take tcpLengthPrefixSize buf)) in
        if (String.length buf <? length)%nat then io_lift (Panic "slice bounds out of range")
        else
          letio (data, err) := io_net (net_ReadFull (c_Conn conn) length) in
          let buf := overwrite buf data in
          match err with
          | Some err => io_ret (Err (ErrWrap "reading full: %w" err), buf)
          | None => io_ret (unpackMsg (String.length data) buf, buf)
          end
    end
  else
    letio (data, err) := io_net (net_Read (c_Conn conn) (String.length buf)) in
    let buf := overwrite buf data in
    match err with
    | Some err => io_ret (Err (ErrWrap "udp network reading: %w" err), buf)
    | None => io_ret (unpackMsg (String.length data) buf, buf)
    end.

Definition ErrQuestion : error := ErrConst "response has invalid question section".
Definition ErrId : error := ErrConst "dns: id mismatch".

Definition validatePlainResponse (req resp : Msg) : outcome (option error) :=
  if negb (m_Id req =? m_Id resp) then Ret (Some ErrId)
  else match m_Question resp with
  | [respQ] =>
      let! reqQ := index (m_Question req) 0 in
      Ret (if negb (q_Qtype reqQ =? q_Qtype respQ) then Some (ErrWrap "%w: mismatched type %s" ErrQuestion)
           else if negb (EqualFold (q_Name reqQ) (q_Name respQ)) then Some (ErrWrap "%w: mismatched name %q" ErrQuestion)
           else None)
  | _ => Ret (Some (ErrWrap "%w: only 1 question allowed; got %d" ErrQuestion))
  end.

Definition readValidMsg (req : Msg) (network : string) (conn : Conn) (buf : string)
    : io (option Msg * option error * string) :=
  letio (res, buf) := readMsg network conn buf in
  match res with
  | Err err => io_ret (None, Some err, buf)
  | Ok resp =>
      letio err := io_lift (validatePlainResponse req resp) in
      io_ret (Some resp, wrap_opt "validating %s response: %w" err, buf)
  end.

(** Before the deferred call.  [hasDeadline] says that the context has a deadline. *)
Definition processConn_body (hasDeadline : bool) (conn : Conn) (network : string) (req : Msg) (buf : string)
    (bufReqLen : nat) : io (option Msg * option error * string) :=
  letio err :=
    if hasDeadline || bool_decide (network = NetworkUDP) then io_net (net_SetDeadline (c_Conn conn)) else io_ret None in
  match err with
  | Some err => io_ret (None, Some (ErrWrap "setting deadline: %w" err), buf)
  | None =>
      letio err := io_net (net_Write (c_Conn conn) (str_take bufReqLen buf)) in
      match err with
      | Some err => io_ret (None, Some (ErrWrap "writing request: %w" err), buf)
      | None => readValidMsg req network conn buf
      end
  end.

Definition processConn (hasDeadline : bool) (conn : Conn) (network : string) (req : Msg) (buf : string)
    (bufReqLen : nat) : io (option Msg * option error * string) :=
  letio (resp, err, buf) := processConn_body hasDeadline conn network req buf bufReqLen in
  match err with
  | Some err =>
      letio closeErr := io_net (net_Close (c_Conn conn)) in
      io_ret (resp, Some (WithDeferred err closeErr), buf)
  | None =>
      letio err := up_Put network conn in
      io_ret (resp, err, buf)
  end.

(** [buf] is what the buffer of the pool holds. *)
Definition exchangeNet (now : Z) (hasDeadline : bool) (req : Msg) (network buf : string)
    : io (option Msg * option error) :=
  match packReq network buf req with
  | (Err err, _) => io_ret (None, Some (ErrWrap "packing request: %w" err))
  | (Ok bufReqLen, buf) =>
      letio conn := up_Get now network in
      match conn with
      | Err err => io_ret (None, Some (ErrWrap "getting connection: %w" err))
      | Ok conn =>
          letio (resp, err, buf) := processConn hasDeadline conn network req buf bufReqLen in
          match err with
          | None => io_ret (resp, None)
          | Some err =>
              if isExpectedConnErr err then
                letio conn := up_Create now network in
                match conn with
                | Err err => io_ret (None, Some (ErrWrap "creating connection: %w" err))
                | Ok conn =>
                    letio (resp, err, _) := processConn hasDeadline conn network req buf bufReqLen in
                    io_ret (resp, err)
                end
              else io_ret (resp, Some err)
          end
      end
  end.

(** The context of a call: whether it has a deadline, and the network which overrides
    that of the upstream. *)
Record fctx := { cx_deadline : bool; cx_override : option string }.

(** What the buffers for UDP and for TCP hold. *)
Record buffers := { b_udp : string; b_tcp : string }.

Definition Exchange (now : Z) (bufs : buffers) (ctx : fctx) (req : Msg) : io (option Msg * string * option error) :=
  fun '(u, w) =>
  (let hasDeadline := cx_deadline ctx || (0 <? u_timeout u) in
   let nw := default (u_network u) (cx_override ctx) in
   let isUDPOnly := bool_decide (nw = NetworkUDP) in
   let doUDP := isUDPOnly || bool_decide (nw = NetworkAny) in
   letio (resp, err, nw, doTCP) :=
     if doUDP then
       letio (resp, err) := exchangeNet now hasDeadline req NetworkUDP (b_udp bufs) in
       io_ret (resp, err, NetworkUDP,
               match err with
               | Some err => negb (isExpectedConnErr err)
               | None => negb isUDPOnly && match resp with Some resp => m_Truncated resp | None => false end
               end)
     else io_ret (None, None, nw, bool_decide (nw = NetworkTCP)) in
   letio (resp, err, nw) :=
     if (doTCP : bool) then
       letio (resp, err) := exchangeNet now hasDeadline req NetworkTCP (b_tcp bufs) in io_ret (resp, err, NetworkTCP)
     else io_ret (resp, err, nw) in
   io_ret (resp, nw, wrap_opt "upstreamplain: %w" err)) (u, w).

Definition up_Close : io (option error) := fun '(u, w) =>
  let '(e1, p1, w) := pool_Close net_Close (u_connsPoolUDP u) w in
  let '(e2, p2, w) := pool_Close net_Close (u_connsPoolTCP u) w in
  Ret (wrap_opt "closing upstream: %w" (Join (omap id [e1; e2])),
       ({| u_connsPoolUDP := p1; u_connsPoolTCP := p2; u_network := u_network u; u_timeout := u_timeout u |}, w)).

End upstream.

(** * forward.go and healthcheck.go *)

Record upstreamStatus := {
  us_upstream : nat;
  us_lastFailedHealthcheck : Z;
}.

Record FwdHandler := {
  fh_hcDomainTmpl : string;
  fh_hcNetworkOverride : string;
  fh_upstreams : list upstreamStatus;
  fh_activeUpstreams : list nat;
  fh_fallbacks : list nat;
  fh_hcBackoff : Z;
}.

Record HealthcheckConfig := {
  hc_DomainTemplate : string;
  hc_NetworkOverride : string;
  hc_BackoffDuration : Z;
  hc_InitDuration : Z;
  hc_Enabled : bool;
}.

Definition ErrNoResponse : error := ErrConst "no response".

Section handler.
Context `{N : NetIO} `{M : MiekgDNS}.

(** The interface [Upstream]: upstreams are named by numbers, and change the state of
    all of them. *)
Context {W : Type}.
Variable exchange : nat -> Z -> fctx -> Msg -> W -> outcome (option Msg * string * option error * W).
Variable close_upstream : nat -> W -> option error * W.

(** [rand.IntN] with the number that the source gives. *)
Definition IntN (rnd n : nat) : nat := (rnd mod n)%nat.

Definition pickActiveUpstream (rnd : nat) (h : FwdHandler) : option nat :=
  match fh_activeUpstreams h with
  | [] => None
  | active => active !! IntN rnd (length active)
  end.

(** The error of type [*Error], as [errors.As] and [errors.Is] see it. *)
Definition fwd_annotate (err : option error) : option error := wrap_opt "forwarding to %s with fallback %s: %s" err.

(** The end of [ServeDNS]; [werr] is what writing the response returns. *)
Definition fwd_write (werr : option error) (resp : option Msg) (err : option error) : option error * option Msg :=
  match err, resp with
  | Some err, _ => (fwd_annotate (Some (ErrWrap "forwarding: %w" err)), None)
  | None, None => (fwd_annotate (Some ErrNoResponse), None)
  | None, Some resp => (fwd_annotate (wrap_opt "writing response: %w" werr), Some resp)
  end.

Definition fwd_ServeDNS (now : Z) (rnd rnd' : nat) (ctx : fctx) (h : FwdHandler) (werr : option error) (req : Msg) (w : W)
    : outcome (option error * option Msg * W) :=
  let ups := pickActiveUpstream rnd h in
  let! main :=
    match ups with
    | None => Ret (None, None, true, w)
    | Some u =>
        let! r := exchange u now ctx req w in
        let '(resp, _, err, w) := r in
        Ret (resp, err, match err with Some err => as_net err | None => false end, w)
    end in
  let '(resp, err, useFallbacks, w) := main in
  let! r :=
    match fh_fallbacks h with
    | [] => Ret (resp, err, w)
    | fallbacks =>
        if (useFallbacks : bool) then
          let! u := index fallbacks (IntN rnd' (length fallbacks)) in
          let! r := exchange u now ctx req w in
          let '(resp, _, err, w) := r in Ret (resp, err, w)
        else Ret (resp, err, w)
    end in
  let '(resp, err, w) := r in
  Ret (fwd_write werr resp err, w).

Definition randomPlaceholder : string := "${RANDOM}".

(** [id] is the value of [dns.Id]. *)
Definition newProbeReq (id : Z) (domain : string) : Msg := {|
  m_Id := id; m_Response := false; m_RecursionDesired := true; m_RecursionAvailable := false;
  m_AuthenticatedData := false; m_CheckingDisabled := false; m_Truncated := false; m_Opcode := 0; m_Rcode := 0; m_Compress := false;
  m_Question := [{| q_Name := Fqdn domain; q_Qtype := TypeA; q_Qclass := ClassINET |}];
  m_Answer := []; m_Ns := []; m_Extra := [];
|}.

Definition checkUpstream (now : Z) (ctx : fctx) (ups : nat) (req : Msg) (w : W) : outcome (option error * W) :=
  let! r := exchange ups now ctx req w in
  let '(resp, _, err, w) := r in
  Ret (match err, resp with
       | Some err, _ => Some err
       | None, None => Some ErrNoResponse
       | None, Some resp =>
           if m_Rcode resp =? RcodeSuccess then None else Some (ErrConst "non-success rcode: %v")
       end, w).

(** The status afterwards is the last component but one. *)
Definition healthcheckUpstream (now backoff : Z) (ctx : fctx) (status : upstreamStatus) (req : Msg) (w : W)
    : outcome (bool * option error * upstreamStatus * W) :=
  if Sub now (us_lastFailedHealthcheck status) <? backoff then Ret (true, None, status, w)
  else
    let! r := checkUpstream now ctx (us_upstream status) req w in
    let '(err, w) := r in
    let status := {| us_upstream := us_upstream status;
                     us_lastFailedHealthcheck := match err with Some _ => now | None => 0 end |} in
    Ret (false, wrap_opt "%s: upstream is down: %w" err, status, w).

(** The loop of [healthcheck]: the statuses, the active upstreams and the errors. *)
Fixpoint check_all (now backoff : Z) (ctx : fctx) (req : Msg) (statuses : list upstreamStatus) (w : W)
    : outcome (list upstreamStatus * list nat * list error * W) :=
  match statuses with
  | [] => Ret ([], [], [], w)
  | status :: rest =>
      let! r := healthcheckUpstream now backoff ctx status req w in
      let '(inBackoff, ckErr, status', w) := r in
      let! rr := check_all now backoff ctx req rest w in
      let '(rest', active, errs, w) := rr in
      Ret (status' :: rest',
           match inBackoff, ckErr with false, None => us_upstream status :: active | _, _ => active end,
           match inBackoff, ckErr with false, Some err => err :: errs | _, _ => errs end, w)
  end.

(** [id] and [rnd] are random. *)
Definition healthcheck (now id rnd : Z) (ctx : fctx) (h : FwdHandler) (w : W) : outcome (option error * FwdHandler * W) :=
  let domain :=
    if Contains (fh_hcDomainTmpl h) randomPlaceholder
    then ReplaceAll (fh_hcDomainTmpl h) randomPlaceholder (FormatHex rnd) else fh_hcDomainTmpl h in
  let req := newProbeReq id domain in
  let ctx :=
    if bool_decide (fh_hcNetworkOverride h = NetworkAny) then ctx
    else {| cx_deadline := cx_deadline ctx; cx_override := Some (fh_hcNetworkOverride h) |} in
  let! r := check_all now (fh_hcBackoff h) ctx req (fh_upstreams h) w in
  let '(statuses, active, errs, w) := r in
  let h := {| fh_hcDomainTmpl := fh_hcDomainTmpl h; fh_hcNetworkOverride := fh_hcNetworkOverride h;
              fh_upstreams := statuses; fh_activeUpstreams := active; fh_fallbacks := fh_fallbacks h;
              fh_hcBackoff := fh_hcBackoff h |} in
  Ret (wrap_opt "healthcheck: querying %q: %w"
         match active with
         | [] => Join (errs ++ [ErrConst "all main upstreams are down"])
         | _ => None
         end, h, w).

Definition fwd_Refresh (now id rnd : Z) (ctx : fctx) (h : FwdHandler) (w : W) : outcome (option error * FwdHandler * W) :=
  match fh_fallbacks h with
  | [] => Ret (None, h, w)
  | _ => let! r := healthcheck now id rnd ctx h w in Ret (wrap_opt "forward: %w" r.1.1, r.1.2, r.2)
  end.

(** The main upstreams get the first numbers, the fallbacks the following. *)
Definition NewHandler (now id rnd : Z) (hc : option HealthcheckConfig) (mains fallbacks : nat) (w : W) : outcome (FwdHandler * W) :=
  let hcConf := default {| hc_DomainTemplate := EmptyString; hc_NetworkOverride := NetworkAny; hc_BackoffDuration := 0;
                           hc_InitDuration := 0; hc_Enabled := false |} hc in
  let en := hc_Enabled hcConf in
  let h := {|
    fh_hcDomainTmpl := if en then hc_DomainTemplate hcConf else EmptyString;
    fh_hcNetworkOverride := if en then hc_NetworkOverride hcConf else NetworkAny;
    fh_upstreams := (fun i => {| us_upstream := i; us_lastFailedHealthcheck := 0 |}) <$> seq 0 mains;
    fh_activeUpstreams := seq 0 mains;
    fh_fallbacks := seq mains fallbacks;
    fh_hcBackoff := if en then hc_BackoffDuration hcConf else 0 |} in
  if en && (0 <? hc_InitDuration hcConf) then
    let! r := fwd_Refresh now id rnd {| cx_deadline := true; cx_override := None |} h w in Ret (r.1.2, r.2)
  else Ret (h, w).

Fixpoint close_upstreams (ups : list nat) (w : W) : list error * W :=
  match ups with
  | [] => ([], w)
  | u :: ups =>
      let '(err, w) := close_upstream u w in
      let '(errs, w) := close_upstreams ups w in
      (match err with Some err => err :: errs | None => errs end, w)
  end.

Definition fwd_Close (h : FwdHandler) (w : W) : option error * W :=
  let '(errs, w) := close_upstreams ((us_upstream <$> fh_upstreams h) ++ fh_fallbacks h) w in
  (wrap_opt "closing forward handler: %w" (Join errs), w).

End handler.

(** * Facts *)

(** ** What is sent and what is accepted *)

Section validity.
Context `{Wm : MiekgWire} `{N : NetIO} `{De : DeferredErrors} `{Uc : UnicodeCase}.

(** A response to a request: the same ID, and one question, of the same type and
    with the same name but for the case. *)
Definition responds (req resp : Msg) : Prop :=
  m_Id resp = m_Id req /\
  exists q qs q', m_Question req = q :: qs /\ m_Question resp = [q'] /\ q_Qtype q' = q_Qtype q /\
    EqualFold (q_Name q) (q_Name q') = true.

Lemma validate_responds req resp : validatePlainResponse req resp = Ret None -> responds req resp.
Proof.
  unfold validatePlainResponse. destruct (m_Id req =? m_Id resp) eqn:Ei; simpl; [|done].
  destruct (m_Question resp) as [|q' [|? ?]] eqn:Er; [done| |done].
  destruct (m_Question req) as [|q qs] eqn:Eq; simpl; [done|].
  destruct (q_Qtype q =? q_Qtype q') eqn:Et; simpl; [|done]. destruct (EqualFold _ _) eqn:Ef; simpl; [|done].
  intros _. split; [lia|]. exists q, qs, q'. split_and!; try done. lia.
Qed.

(** An operation gives a response without an error only if it responds to a request. *)
Definition accepts {A} (resp : A -> option Msg) (err : A -> option error) (req : Msg) (m : io A) : Prop :=
  forall s a s' r, m s = Ret (a, s') -> err a = None -> resp a = Some r -> responds req r.

Lemma accepts_ret_none {A} resp err req (a : A) : resp a = None -> accepts resp err req (io_ret a).
Proof. intros Ha s a' s' r [= <- <-] _. by rewrite Ha. Qed.

Lemma accepts_ret_err {A} resp err req (a : A) : is_Some (err a) -> accepts resp err req (io_ret a).
Proof. intros [e He] s a' s' r [= <- <-]. by rewrite He. Qed.

Lemma accepts_bind {A B} resp err req (m : io A) (k : A -> io B) :
  (forall a, accepts resp err req (k a)) -> accepts resp err req (io_bind m k).
Proof.
  intros Hk s b s' r. unfold io_bind. destruct (m s) as [[a s1]|]; simpl; [|done]. apply Hk.
Qed.

Lemma accepts_bind_from {A B} resp err respA errA req (m : io A) (k : A -> io B) :
  accepts respA errA req m ->
  (forall a, (errA a = None -> forall r, respA a = Some r -> responds req r) -> accepts resp err req (k a)) ->
  accepts resp err req (io_bind m k).
Proof.
  intros Hm Hk s b s' r. unfold io_bind. destruct (m s) as [[a s1]|] eqn:Em; simpl; [|done].
  apply Hk. intros He r' Hr. by eapply Hm.
Qed.

Lemma accepts_ret {A} resp err req (a : A) :
  (err a = None -> forall r, resp a = Some r -> responds req r) -> accepts resp err req (io_ret a).
Proof. intros Ha s a' s' r [= <- <-] He Hr. by eapply Ha. Qed.

Lemma readValidMsg_accepts req network conn buf :
  accepts (fun a => a.1.1) (fun a => a.1.2) req (readValidMsg req network conn buf).
Proof.
  unfold readValidMsg. apply accepts_bind. intros [[resp|err] b]; [|by apply accepts_ret_none].
  intros s a s' r. unfold io_bind, io_lift. destruct (validatePlainResponse req resp) as [err|] eqn:Ev; simpl; [|done].
  intros [= <- <-]. simpl. destruct err as [err|]; [done|]. intros _ [= <-]. by apply validate_responds.
Qed.

Lemma processConn_accepts d conn network req buf n :
  accepts (fun a => a.1.1) (fun a => a.1.2) req (processConn d conn network req buf n).
Proof.
  unfold processConn. eapply (accepts_bind_from _ _ (fun a => a.1.1) (fun a => a.1.2)).
  - unfold processConn_body. apply accepts_bind. intros [err|]; [by apply accepts_ret_none|].
    apply accepts_bind. intros [err|]; [by apply accepts_ret_none|]. apply readValidMsg_accepts.
  - intros [[resp [err|]] b] Ha; simpl in *.
    + apply accepts_bind. intros c. apply accepts_ret_err. by eexists.
    + apply accepts_bind. intros c. apply accepts_ret. simpl. auto.
Qed.

Lemma exchangeNet_accepts now d req network buf :
  accepts fst snd req (exchangeNet now d req network buf).
Proof.
  unfold exchangeNet. destruct (packReq network buf req) as [[n|err] b]; [|by apply accepts_ret_none].
  apply accepts_bind. intros [conn|err]; [|by apply accepts_ret_none].
  eapply accepts_bind_from; [apply processConn_accepts|]. intros [[resp [err|]] b'] Ha; simpl in *; [|by apply accepts_ret].
  destruct (isExpectedConnErr err); [|apply accepts_ret_err; by eexists].
  apply accepts_bind. intros [conn'|err']; [|by apply accepts_ret_none].
  eapply accepts_bind_from; [apply processConn_accepts|]. intros [[resp' err'] b''] Ha'; simpl in *. by apply accepts_ret.
Qed.

Lemma Exchange_accepts now bufs ctx req :
  accepts (fun a => a.1.1) snd req (Exchange now bufs ctx req).
Proof.
  intros [u w]. unfold Exchange. revert w. intros w a s' r Hx. revert a s' r Hx. 
  match goal with |- forall a s' r, ?m ?s = _ -> _ => cut (accepts (fun a => a.1.1) snd req m); [intros Hc; apply (Hc s)|] end.
  eapply (accepts_bind_from _ _ (fun a => a.1.1.1) (fun a => a.1.1.2)).
  - destruct (_ || _); [|by apply accepts_ret_none]. eapply accepts_bind_from; [apply exchangeNet_accepts|].
    intros [resp err] Ha. by apply accepts_ret.
  - intros [[[resp err] nw] doTCP] Ha. simpl in Ha.
    eapply (accepts_bind_from _ _ (fun a => a.1.1) (fun a => a.1.2)).
    + destruct doTCP; [|by apply accepts_ret]. eapply accepts_bind_from; [apply exchangeNet_accepts|].
      intros [resp' err'] Ha'. by apply accepts_ret.
    + intros [[resp' err'] nw'] Ha'. apply accepts_ret. simpl in *. destruct err'; simpl; [done|auto].
Qed.

End validity.

(** ** Plain upstreams behind the handler *)

Section composed.
Context `{Wm : MiekgWire} `{N : NetIO} `{De : DeferredErrors} `{Uc : UnicodeCase}.

(** All upstreams of a handler, over one network.  [bufs] gives the buffers. *)
Definition plain_exchange (bufs : nat -> buffers) (i : nat) (now : Z) (ctx : fctx) (req : Msg) (w : list UpstreamPlain * net)
    : outcome (option Msg * string * option error * (list UpstreamPlain * net)) :=
  let! u := index w.1 i in
  let! r := Exchange now (bufs i) ctx req (u, w.2) in
  Ret (r.1, (<[i := r.2.1]> w.1, r.2.2)).

(** What a handler may assume of its upstreams. *)
Definition upstream_contract {W} (exchange : nat -> Z -> fctx -> Msg -> W -> outcome (option Msg * string * option error * W))
    : Prop :=
  forall i now ctx req w resp nw w', exchange i now ctx req w = Ret (Some resp, nw, None, w') -> responds req resp.

Lemma plain_contract bufs : upstream_contract (plain_exchange bufs).
Proof.
  intros i now ctx req w resp nw w'. unfold plain_exchange. destruct (index w.1 i) as [u|]; cbn [outcome_bind]; [|done].
  destruct (Exchange now (bufs i) ctx req (u, w.2)) as [[a s]|] eqn:Ex; simpl; [|done]. intros [= Ha _].
  subst a. by eapply (Exchange_accepts _ _ _ _ _ _ _ _ Ex).
Qed.

Lemma fwd_write_Some werr resp0 err0 err resp {W} (w w' : W) :
  Ret (fwd_write werr resp0 err0, w) = Ret (err, Some resp, w') -> err0 = None /\ resp0 = Some resp.
Proof. destruct err0, resp0; try done. by intros [= _ -> _]. Qed.

Lemma serve_responds {W} exchange : upstream_contract exchange -> forall now r1 r2 ctx h werr req (w : W) err resp w',
  fwd_ServeDNS exchange now r1 r2 ctx h werr req w = Ret (err, Some resp, w') -> responds req resp.
Proof.
  intros Hc now r1 r2 ctx h werr req w err resp w'. unfold fwd_ServeDNS.
  assert (forall w1 resp1 err1 (uf : bool),
    (err1 = None -> resp1 = Some resp -> responds req resp) ->
    (let! r := match fh_fallbacks h with
               | [] => Ret (resp1, err1, w1)
               | fallbacks =>
                   if uf then
                     let! u := index fallbacks (IntN r2 (length fallbacks)) in
                     let! r := exchange u now ctx req w1 in
                     let '(resp, _, err, w) := r in Ret (resp, err, w)
                   else Ret (resp1, err1, w1)
               end in
     let '(resp, err, w) := r in Ret (fwd_write werr resp err, w)) = Ret (err, Some resp, w') -> responds req resp) as Hend.
  { intros w1 resp1 err1 uf H1. destruct (fh_fallbacks h) as [|f fs].
    { cbn [outcome_bind]. intros [? ?]%fwd_write_Some. by apply H1. }
    destruct uf; [|cbn [outcome_bind]; intros [? ?]%fwd_write_Some; by apply H1].
    cbv zeta. destruct (index (f :: fs) _) as [u2|]; cbn [outcome_bind]; [|done].
    destruct (exchange u2 now ctx req w1) as [[[[resp2 nw2] err2] w2]|] eqn:E2; cbn [outcome_bind]; [|done].
    intros [-> ->]%fwd_write_Some. by eapply Hc. }
  destruct (pickActiveUpstream r1 h) as [u|]; [|apply Hend; done].
  destruct (exchange u now ctx req w) as [[[[resp1 nw1] err1] w1]|] eqn:E1; cbn [outcome_bind]; [|done].
  apply Hend. intros -> ->. by eapply Hc.
Qed.

(** C18. Only responses to the request are passed on.  Whatever an upstream or an attacker
    sends, over UDP or TCP and over new or reused connections, the handler writes a
    message only if it has the ID of the request and one question, of the type of the
    request's question and with its name but for the case. *)
Theorem forwarded_response bufs now r1 r2 ctx h werr req w err resp w' :
  fwd_ServeDNS (plain_exchange bufs) now r1 r2 ctx h werr req w = Ret (err, Some resp, w') -> responds req resp.
Proof. apply serve_responds, plain_contract. Qed.

(** ** What is sent *)

(** A request that fits is sent as it is packed, over TCP after its length. *)
Lemma packReq_frame `{!MiekgWireSpec} network buf req n buf' :
  m_Compress req = false -> 0 <= msg_Len req ->
  msg_Len req + (if bool_decide (network = NetworkTCP) then 2 else 0) < len buf ->
  packReq network buf req = (Ok n, buf') ->
  str_take n buf' = (if bool_decide (network = NetworkTCP) then be_bytes 2 (msg_Len req) else EmptyString) +:+ wire req /\
  String.length buf' = String.length buf.
Proof.
  intros Hc H0 Hl. unfold packReq. cbv zeta. destruct (MaxMsgSize <? msg_Len req); [done|].
  assert (forall prefix k, (String.length prefix <= String.length buf)%nat ->
    msg_Len req < len (str_drop (String.length prefix) buf) -> k = msg_Len req + len prefix ->
    (let '(err, packed) := PackBuffer req (str_drop (String.length prefix) buf) in
     (match err with Some err => Err err | None => Ok (Z.to_nat k) end, prefix +:+ packed)) = (Ok n, buf') ->
    str_take n buf' = prefix +:+ wire req /\ String.length buf' = String.length buf) as Hp.
  { intros prefix k Hpl Hlen ->. destruct (PackBuffer req _) as [err packed] eqn:Ep.
    destruct err as [e|]; [done|]. intros [= <- <-].
    destruct (pack_in_place req _ Hc Hlen) as [Hw Hb]; [by rewrite Ep|]. rewrite Ep in Hb. simpl in Hb.
    pose proof (pack_length req (str_drop (String.length prefix) buf)) as Hk. rewrite Ep in Hk. simpl in Hk.
    split.
    - rewrite Hb, <- append_assoc. rewrite <- (str_take_append (prefix +:+ wire req) (str_drop (String.length (wire req)) (str_drop (String.length prefix) buf))) at 2.
      f_equal. rewrite length_append. unfold len in *. lia.
    - rewrite length_append, Hk, length_str_drop. lia. }
  destruct (bool_decide (network = NetworkTCP)).
  - destruct (len buf - _ <? _); [done|]. intros E.
    apply (Hp (be_bytes 2 (msg_Len req)) (msg_Len req + Z.of_nat tcpLengthPrefixSize)); [..|exact E].
    + change (String.length (be_bytes 2 (msg_Len req))) with 2%nat. unfold len in Hl. lia.
    + unfold len in *. change (String.length (be_bytes 2 (msg_Len req))) with 2%nat. rewrite length_str_drop. lia.
    + done.
  - destruct (len buf <? _); [done|]. intros E. apply (Hp EmptyString (msg_Len req)); [..|exact E]; unfold len in *; simpl; lia.
Qed.

End composed.

(** ** Health checks *)

Section health.
Context `{N : NetIO} `{M : MiekgDNS} {W : Type}.

Notation exchanger := (nat -> Z -> fctx -> Msg -> W -> outcome (option Msg * string * option error * W)).

(** The same upstreams, of which one must not be used. *)
Definition forbid (i : nat) (exchange : exchanger) : exchanger :=
  fun j now ctx req w => if decide (j = i) then Panic "used" else exchange j now ctx req w.

Variable exchange : exchanger.

Inductive fwd_event :=
  | FServe (now : Z) (r1 r2 : nat) (ctx : fctx) (req : Msg)
  | FRefresh (now id rnd : Z) (ctx : fctx).

Definition fwd_exec (s : FwdHandler * W) (ev : fwd_event) : outcome (FwdHandler * W) :=
  match ev with
  | FServe now r1 r2 ctx req => let! r := fwd_ServeDNS exchange now r1 r2 ctx s.1 None req s.2 in Ret (s.1, r.2)
  | FRefresh now id rnd ctx => let! r := fwd_Refresh exchange now id rnd ctx s.1 s.2 in Ret (r.1.2, r.2)
  end.

Definition in_backoff (now backoff : Z) (st : upstreamStatus) : bool :=
  Sub now (us_lastFailedHealthcheck st) <? backoff.

(** What a round of checks does: an upstream that is not active afterwards is in its
    backoff or has failed, and the other way around. *)
Record hc_round (now backoff : Z) (sts sts' : list upstreamStatus) (active : list nat) : Prop := {
  ck_ids : us_upstream <$> sts' = us_upstream <$> sts;
  ck_active i : i ∈ active -> i ∈ us_upstream <$> sts;
  ck_failed st : st ∈ sts' -> us_lastFailedHealthcheck st <> 0 -> us_upstream st ∉ active;
  ck_backoff st : st ∈ sts -> in_backoff now backoff st = true -> st ∈ sts' /\ us_upstream st ∉ active;
}.

Lemma check_all_checked ex now backoff ctx req sts (w : W) sts' active errs w' :
  NoDup (us_upstream <$> sts) ->
  check_all ex now backoff ctx req sts w = Ret (sts', active, errs, w') -> hc_round now backoff sts sts' active.
Proof.
  revert w sts' active errs w'. induction sts as [|st sts IH]; intros w sts' active errs w' Hn; simpl.
  { intros [= <- <- _ _]. split; [done|..]; intros x Hx; by apply not_elem_of_nil in Hx. }
  rewrite fmap_cons in Hn. apply NoDup_cons in Hn as [Hnin Hn].
  destruct (healthcheckUpstream ex now backoff ctx st req w) as [[[[ib ck] st'] w1]|] eqn:Eh; simpl; [|done].
  destruct (check_all ex now backoff ctx req sts w1) as [[[[rest' act'] errs'] w2]|] eqn:Ea; simpl; [|done].
  intros [= <- <- _ _]. destruct (IH _ _ _ _ _ Hn Ea) as [C1 C2 C3 C4].
  assert (us_upstream st ∉ act') as Hna by (intros ?%C2; done).
  assert (us_upstream st' = us_upstream st /\
    ((in_backoff now backoff st = true /\ ib = true /\ st' = st) \/
     (in_backoff now backoff st = false /\ ib = false /\ (ck = None -> us_lastFailedHealthcheck st' = 0)))) as [Hid Hst].
  { revert Eh. unfold healthcheckUpstream, in_backoff. destruct (_ <? _).
    - intros [= <- _ <- _]. split; [done|]. by left.
    - destruct (checkUpstream _ _ _ _ _ _) as [[err wx]|]; simpl; [|done]. intros [= <- <- <- _].
      split; [done|]. right. split_and!; try done. by destruct err. }
  set (active := match ib, ck with false, None => us_upstream st :: act' | _, _ => act' end).
  assert (forall i, i ∈ active -> i = us_upstream st \/ i ∈ act') as Hact.
  { intros i. unfold active. destruct ib, ck; try (by right). intros Hi. apply elem_of_cons in Hi as [->|?]; auto. }
  assert (forall i, i <> us_upstream st -> i ∉ act' -> i ∉ active) as Hout.
  { intros i H1 H2 Hi%Hact. by destruct Hi. }
  assert (forall s, s ∈ sts -> us_upstream s <> us_upstream st) as Hne.
  { intros s Hs E. apply Hnin. rewrite <- E. by apply list_elem_of_fmap_2. }
  split.
  - by rewrite !fmap_cons, Hid, C1.
  - intros i [->|Hi]%Hact; rewrite fmap_cons; [by left|right; by apply C2].
  - intros s Hs Hf. apply elem_of_cons in Hs as [->|Hs].
    + rewrite Hid. unfold active. destruct Hst as [(_ & -> & _)|(_ & -> & Hc)]; [done|]. destruct ck; [done|]. by rewrite Hc in Hf.
    + apply Hout; [|by apply C3]. assert (us_upstream s ∈ us_upstream <$> rest') as Hx by (by apply list_elem_of_fmap_2).
      rewrite C1 in Hx. intros E. rewrite E in Hx. done.
  - intros s Hs Hb. apply elem_of_cons in Hs as [->|Hs].
    + destruct Hst as [(_ & Ei & ->)|(E & _)]; [|by rewrite E in Hb]. split; [by left|]. unfold active. by rewrite Ei.
    + destruct (C4 s Hs Hb). split; [by right|]. apply Hout; auto.
Qed.

Definition fwd_inv (h : FwdHandler) : Prop :=
  NoDup (us_upstream <$> fh_upstreams h) /\
  (forall st, st ∈ fh_upstreams h -> us_lastFailedHealthcheck st <> 0 -> us_upstream st ∉ fh_activeUpstreams h) /\
  (forall st, st ∈ fh_upstreams h -> us_upstream st ∉ fh_fallbacks h).

Lemma refresh_checked ex now id rnd ctx h (w : W) err h' w' : fwd_inv h ->
  fwd_Refresh ex now id rnd ctx h w = Ret (err, h', w') -> fh_fallbacks h <> [] ->
  hc_round now (fh_hcBackoff h) (fh_upstreams h) (fh_upstreams h') (fh_activeUpstreams h') /\
  fh_fallbacks h' = fh_fallbacks h.
Proof.
  intros (Hn & _) E Hne. revert E. unfold fwd_Refresh. destruct (fh_fallbacks h) as [|f fs] eqn:Ef; [done|].
  unfold healthcheck. destruct (check_all _ _ _ _ _ _ _) as [[[[sts act] errs] w1]|] eqn:Ec; simpl; [|done].
  intros [= _ <- _]. simpl. rewrite Ef. split; [|done]. by eapply check_all_checked.
Qed.

Lemma refresh_inv ex now id rnd ctx h (w : W) err h' w' : fwd_inv h ->
  fwd_Refresh ex now id rnd ctx h w = Ret (err, h', w') -> fwd_inv h'.
Proof.
  intros Hi E. destruct (decide (fh_fallbacks h = [])) as [Ef|Hne].
  { revert E. unfold fwd_Refresh. rewrite Ef. by intros [= _ <- _]. }
  destruct (refresh_checked _ _ _ _ _ _ _ _ _ _ Hi E Hne) as [[C1 C2 C3 C4] Ef]. destruct Hi as (Hn & Hf & Hb).
  split_and!; [by rewrite C1|done|]. intros st Hst. rewrite Ef.
  assert (us_upstream st ∈ us_upstream <$> fh_upstreams h) as (st0 & E0 & Hst0)%list_elem_of_fmap.
  { rewrite <- C1. by apply list_elem_of_fmap_2. }
  rewrite E0. by apply Hb.
Qed.

Lemma fwd_exec_inv s ev s' : fwd_inv s.1 -> fwd_exec s ev = Ret s' -> fwd_inv s'.1.
Proof.
  intros Hi. destruct ev as [now r1 r2 ctx req|now id rnd ctx]; simpl.
  - destruct (fwd_ServeDNS _ _ _ _ _ _ _ _ _) as [r|]; simpl; [|done]. by intros [= <-].
  - destruct (fwd_Refresh _ _ _ _ _ _ _) as [[[err h'] w']|] eqn:E; simpl; [|done]. intros [= <-]. by eapply refresh_inv.
Qed.

Lemma new_inv now pid rnd hc mains fallbacks (w : W) h w' :
  NewHandler exchange now pid rnd hc mains fallbacks w = Ret (h, w') -> fwd_inv h.
Proof.
  unfold NewHandler. set (h0 := {| fh_upstreams := _ |}).
  assert (fwd_inv h0) as H0'.
  { assert (forall st, st ∈ fh_upstreams h0 -> us_lastFailedHealthcheck st = 0 /\ (us_upstream st < mains)%nat) as Hs.
    { intros st (i & -> & Hi)%list_elem_of_fmap. apply elem_of_seq in Hi. simpl. lia. }
    split_and!.
    - unfold h0. simpl. rewrite <- list_fmap_compose. rewrite (list_fmap_ext _ id) by done. rewrite list_fmap_id. apply NoDup_seq.
    - intros st [E _]%Hs. by rewrite E.
    - intros st [_ E]%Hs. unfold h0. simpl. rewrite elem_of_seq. lia. }
  destruct (_ && _); [|by intros [= <- _]].
  destruct (fwd_Refresh _ _ _ _ _ _ _) as [[[err h'] w1]|] eqn:E; simpl; [|done]. intros [= <- _]. by eapply refresh_inv.
Qed.

(** Forbidding an upstream that is not to be used changes nothing. *)
Lemma check_all_forbid i now backoff ctx req sts (w : W) :
  (forall st, st ∈ sts -> us_upstream st = i -> in_backoff now backoff st = true) ->
  check_all (forbid i exchange) now backoff ctx req sts w = check_all exchange now backoff ctx req sts w.
Proof.
  revert w. induction sts as [|st sts IH]; intros w Hb; simpl; [done|].
  assert (healthcheckUpstream (forbid i exchange) now backoff ctx st req w =
          healthcheckUpstream exchange now backoff ctx st req w) as ->.
  { unfold healthcheckUpstream. destruct (Sub now _ <? backoff) eqn:E; [done|]. unfold checkUpstream, forbid.
    rewrite decide_False; [done|]. intros Hi. specialize (Hb st (list_elem_of_here _ _) Hi).
    unfold in_backoff in Hb. by rewrite E in Hb. }
  destruct (healthcheckUpstream _ _ _ _ _ _ _) as [[[[ib ck] st'] w1]|]; cbn [outcome_bind]; [|done].
  rewrite IH; [done|]. intros s Hs. apply Hb. by right.
Qed.

Lemma serve_forbid i now r1 r2 ctx h werr req (w : W) :
  i ∉ fh_activeUpstreams h -> i ∉ fh_fallbacks h ->
  fwd_ServeDNS (forbid i exchange) now r1 r2 ctx h werr req w = fwd_ServeDNS exchange now r1 r2 ctx h werr req w.
Proof.
  intros Ha Hf. unfold fwd_ServeDNS.
  assert (forall u (w1 : W), u <> i -> forbid i exchange u now ctx req w1 = exchange u now ctx req w1) as Hu.
  { intros u w1 Hne. unfold forbid. by rewrite decide_False. }
  assert (forall u, pickActiveUpstream r1 h = Some u -> u <> i) as Hp.
  { intros u Hu' ->. apply Ha. unfold pickActiveUpstream in Hu'. destruct (fh_activeUpstreams h) eqn:E; [done|].
    by apply list_elem_of_lookup_2 in Hu'. }
  destruct (pickActiveUpstream r1 h) as [u|]; [rewrite (Hu u w) by auto; destruct (exchange u now ctx req w) as [[[[? ?] ?] w1]|]|];
    cbn [outcome_bind]; try done; destruct (fh_fallbacks h) as [|f fs] eqn:Ef; try done; cbv zeta;
    (destruct (index (f :: fs) _) as [u'|] eqn:Ei; [|done]); cbn [outcome_bind]; rewrite Hu; try done;
    intros ->; apply Hf; unfold index in Ei; destruct (_ !! _) eqn:El; try done; injection Ei as ->;
    by eapply list_elem_of_lookup_2.
Qed.

Lemma check_all_recovers i now backoff ctx req sts (w : W) sts' active errs w' st :
  st ∈ sts -> us_upstream st = i -> in_backoff now backoff st = false ->
  (forall w, exists resp nw w', exchange i now ctx req w = Ret (Some resp, nw, None, w') /\ m_Rcode resp = RcodeSuccess) ->
  check_all exchange now backoff ctx req sts w = Ret (sts', active, errs, w') -> i ∈ active.
Proof.
  intros Hst Hi Hb Hx. revert w sts' active errs w'.
  induction sts as [|s sts IH]; intros w sts' active errs w'; [by apply not_elem_of_nil in Hst|]. cbn [check_all].
  destruct (healthcheckUpstream exchange now backoff ctx s req w) as [[[[ib ck] s'] w1]|] eqn:Eh; cbn [outcome_bind]; [|done].
  destruct (check_all exchange now backoff ctx req sts w1) as [[[[rest' act'] errs'] w2]|] eqn:Ea; cbn [outcome_bind]; [|done].
  intros [= _ <- _ _]. apply elem_of_cons in Hst as [->|Hst].
  - revert Eh. unfold healthcheckUpstream, in_backoff in *. rewrite Hb. unfold checkUpstream. rewrite Hi.
    destruct (Hx w) as (resp & nw & w3 & -> & Hr). simpl. rewrite Hr. simpl. intros [= <- <- _ _]. by left.
  - specialize (IH Hst _ _ _ _ _ Ea). destruct ib, ck; try done. by right.
Qed.

(** A failed upstream rests and comes back.  After any history of requests and health
    checks, an upstream whose last check has failed is not used for requests, and is
    not even checked until its backoff has passed, during which it stays so; a check
    after that, which it answers, makes it active again.  Here a handler uses an
    upstream if forbidding its use changes anything. *)
Theorem failed_upstream_rests now0 id0 rnd0 hc mains fallbacks w0 h0 w1 evs h w st :
  NewHandler exchange now0 id0 rnd0 hc mains fallbacks w0 = Ret (h0, w1) ->
  for_each fwd_exec (h0, w1) evs = Ret (h, w) ->
  st ∈ fh_upstreams h -> us_lastFailedHealthcheck st <> 0 ->
  let i := us_upstream st in
  (forall now r1 r2 ctx werr req, fwd_ServeDNS (forbid i exchange) now r1 r2 ctx h werr req w =
     fwd_ServeDNS exchange now r1 r2 ctx h werr req w) /\
  (forall now id rnd ctx, in_backoff now (fh_hcBackoff h) st = true ->
     fwd_Refresh (forbid i exchange) now id rnd ctx h w = fwd_Refresh exchange now id rnd ctx h w /\
     forall err h' w', fwd_Refresh exchange now id rnd ctx h w = Ret (err, h', w') ->
       st ∈ fh_upstreams h' /\ (fh_fallbacks h <> [] -> i ∉ fh_activeUpstreams h')) /\
  (forall now id rnd ctx err h' w', in_backoff now (fh_hcBackoff h) st = false -> fh_fallbacks h <> [] ->
     (forall ctx req w, exists resp nw w', exchange i now ctx req w = Ret (Some resp, nw, None, w') /\
        m_Rcode resp = RcodeSuccess) ->
     fwd_Refresh exchange now id rnd ctx h w = Ret (err, h', w') -> i ∈ fh_activeUpstreams h').
Proof.
  intros Hnew Hrun Hst Hf i.
  assert (fwd_inv h) as Hi.
  { apply new_inv in Hnew. revert Hnew Hrun. generalize h0 w1. induction evs as [|ev evs IH]; intros h1 w2 Hi; simpl;
      [by intros [= <- <-]|]. destruct (fwd_exec (h1, w2) ev) as [[h2 w3]|] eqn:Ee; simpl; [|done].
    apply IH. by eapply (fwd_exec_inv (h1, w2) ev (h2, w3)). }
  pose proof Hi as (Hn & Hact & Hfb). split_and!.
  - intros. apply serve_forbid; [by apply Hact|by apply Hfb].
  - intros now id rnd ctx Hb. split.
    + unfold fwd_Refresh, healthcheck. destruct (fh_fallbacks h); [done|]. rewrite check_all_forbid; [done|].
      intros s Hs E. assert (s = st) as ->; [|done].
      apply list_elem_of_lookup in Hs as [k Hk]. apply list_elem_of_lookup in Hst as [k' Hk'].
      assert (k = k') as <-; [|congruence]. eapply NoDup_lookup; [exact Hn|by rewrite list_lookup_fmap, Hk|].
      rewrite list_lookup_fmap, Hk'. simpl. by rewrite E.
    + intros err h' w' E. destruct (decide (fh_fallbacks h = [])) as [Ef|Hne].
      * revert E. unfold fwd_Refresh. rewrite Ef. by intros [= _ <- _].
      * destruct (refresh_checked _ _ _ _ _ _ _ _ _ _ Hi E Hne) as [[_ _ _ C4] _]. by destruct (C4 st Hst Hb).
  - intros now id rnd ctx err h' w' Hb Hne Hx. unfold fwd_Refresh. destruct (fh_fallbacks h); [done|].
    unfold healthcheck. destruct (check_all _ _ _ _ _ _ _) as [[[[sts act] errs] w2]|] eqn:Ec; simpl; [|done].
    intros [= _ <- _]. simpl. by eapply check_all_recovers.
Qed.

End health.

(** ** Concrete inputs *)

#[local] Existing Instance ref_miekg.
#[local] Existing Instance ref_unicode.

(** A network with a script of what is read; what is written is recorded. *)
Record script := { sc_reads : list (string * option error); sc_writes : list string; sc_next : Z }.

Definition script_read (c : Z) (n : nat) (w : script) : string * option error * script :=
  match sc_reads w with
  | [] => (EmptyString, Some (ErrConst "timeout"), w)
  | (data, err) :: rest => (str_take n data, err, {| sc_reads := rest; sc_writes := sc_writes w; sc_next := sc_next w |})
  end.

#[local] Instance script_net : NetIO := {|
  net := script;
  net_Dial _ w := (Ok (sc_next w), {| sc_reads := sc_reads w; sc_writes := sc_writes w; sc_next := sc_next w + 1 |});
  net_Close _ w := (None, w);
  net_SetDeadline _ w := (None, w);
  net_Write _ data w := (None, {| sc_reads := sc_reads w; sc_writes := sc_writes w ++ [data]; sc_next := sc_next w |});
  net_Read := script_read;
  net_ReadFull := script_read;
  is_net_error m := bool_decide (m = "timeout"%string);
|}.

#[local] Instance first_error : DeferredErrors := fun err _ => err.

(** Every message is packed alike, and what is long enough is the response to
    [ecs_request]. *)
Definition packed : string := "12345678901234567890".

#[local] Instance fixed_wire : MiekgWire := {|
  msg_Len _ := 20;
  wire _ := packed;
  PackBuffer _ buf := (None, str_take (String.length buf) (packed +:+ str_drop 20 buf));
  Unpack _ := Ok (ecs_response 60 []);
|}.

Definition zero_bufs : buffers := {| b_udp := zero_bytes 64; b_tcp := zero_bytes 100 |}.

Definition a_handler : FwdHandler := {|
  fh_hcDomainTmpl := EmptyString; fh_hcNetworkOverride := NetworkAny;
  fh_upstreams := [{| us_upstream := 0; us_lastFailedHealthcheck := 0 |}];
  fh_activeUpstreams := [0%nat]; fh_fallbacks := []; fh_hcBackoff := 0 |}.

Definition a_ctx : fctx := {| cx_deadline := false; cx_override := None |}.

Lemma forwarded_response_witness :
  exists err resp w',
    fwd_ServeDNS (plain_exchange (fun _ => zero_bufs)) 5 0 0 a_ctx a_handler None ecs_request
      ([NewUpstreamPlain NetworkAny 0], {| sc_reads := [(packed, None)]; sc_writes := []; sc_next := 0 |}) =
    Ret (err, Some resp, w') /\ responds ecs_request resp.
Proof.
  set (r := fwd_ServeDNS _ _ _ _ _ _ _ _ _).
  assert (answered r = true) as Ha by (vm_compute; reflexivity).
  destruct r as [[[[err|] [resp|]] w']|] eqn:E; try discriminate Ha.
  exists None, resp, w'. split; [reflexivity|].
  apply (forwarded_response (N := script_net) (fun _ => zero_bufs) 5 0 0 a_ctx a_handler None ecs_request
    ([NewUpstreamPlain NetworkAny 0], {| sc_reads := [(packed, None)]; sc_writes := []; sc_next := 0 |}) None resp w').
  exact E.
Defined.

Definition written {A} (o : outcome (A * (UpstreamPlain * script))) : list string :=
  match o with Ret (_, (_, w)) => sc_writes w | _ => [] end.

(** A retry sends what was read.  The buffer with the request is also the buffer for
    the response: when a server sends the two bytes of a length and then closes the
    connection, the second attempt sends the request with that length instead of its
    own. *)
Theorem retry_sends_read_bytes :
  written (Exchange 5 zero_bufs {| cx_deadline := false; cx_override := Some NetworkTCP |} ecs_request
    (NewUpstreamPlain NetworkAny 0,
     {| sc_reads := [(be_bytes 2 64, None); (EmptyString, Some (ErrConst EOF))]; sc_writes := []; sc_next := 0 |})) =
  [be_bytes 2 20 +:+ packed; be_bytes 2 64 +:+ packed].
Proof. vm_compute. reflexivity. Qed.

(** A network of upstreams which answer or do not. *)
Definition toy_exchange (i : nat) (now : Z) (ctx : fctx) (req : Msg) (up : nat -> bool)
    : outcome (option Msg * string * option error * (nat -> bool)) :=
  Ret (if up i then Some (NewResp req) else None, NetworkUDP, if up i then None else Some (ErrConst "timeout"), up).

Definition toy_hc : HealthcheckConfig := {|
  hc_DomainTemplate := "${RANDOM}.example.org"; hc_NetworkOverride := NetworkUDP; hc_BackoffDuration := 30 * second;
  hc_InitDuration := second; hc_Enabled := true |}.

Definition toy_up (i : nat) : bool := negb (bool_decide (i = 0%nat)).

Lemma failed_upstream_rests_witness :
  exists h st, NewHandler toy_exchange (100 * second) 7 10 (Some toy_hc) 2 1 toy_up = Ret (h, toy_up) /\
    st ∈ fh_upstreams h /\ us_upstream st = 0%nat /\ us_lastFailedHealthcheck st = 100 * second /\
    forall now r1 r2 ctx werr req, fwd_ServeDNS (forbid 0 toy_exchange) now r1 r2 ctx h werr req toy_up =
      fwd_ServeDNS toy_exchange now r1 r2 ctx h werr req toy_up.
Proof.
  set (st := {| us_upstream := 0; us_lastFailedHealthcheck := 100 * second |}).
  set (h := {| fh_hcDomainTmpl := "${RANDOM}.example.org"; fh_hcNetworkOverride := NetworkUDP;
               fh_upstreams := [st; {| us_upstream := 1; us_lastFailedHealthcheck := 0 |}];
               fh_activeUpstreams := [1%nat]; fh_fallbacks := [2%nat]; fh_hcBackoff := 30 * second |}).
  exists h, st. assert (NewHandler toy_exchange (100 * second) 7 10 (Some toy_hc) 2 1 toy_up = Ret (h, toy_up)) as E
    by (vm_compute; reflexivity).
  split; [exact E|]. split; [left|]. split; [reflexivity|]. split; [reflexivity|].
  apply (failed_upstream_rests toy_exchange (100 * second) 7 10 (Some toy_hc) 2 1 toy_up h toy_up [] h toy_up st).
  - exact E.
  - reflexivity.
  - left.
  - vm_compute. discriminate.
Defined.
