(* ===== verification/DnsServer.v ===== *)
(** The base of the DNS servers: internal/dnsserver: normalisation of responses
    (normalize.go), TTLs (ttl.go), and the serving of a message (serverbase.go, msg.go).

    [Msg.Truncate] of miekg/dns is a parameter.  The response in the code is changed in
    place; here its OPT record is found again by [IsEdns0]. *)

From S2P Require Import Prelude GoStd NetIP HumanID DnsMsg Agd InitialMW EcsCache Forward.

Open Scope Z_scope.

(** [dns.Msg.Truncate]. *)
Class MiekgTruncate := msg_Truncate : Msg -> Z -> Msg.

(** The length of a message when it is compressed. *)
Definition clen `{MiekgWire} (m : Msg) : Z := msg_Len (set_Compress m true).

(** Truncation makes a message fit, if it is given at least 512 bytes; it keeps the OPT
    record, may move it, and sets the flag if it leaves anything out.  The length does not depend on
    the flag, and a message without answers is not longer. *)
Class MiekgTruncateSpec `{MiekgDNS} `{MiekgWire} `{MiekgTruncate} : Prop := {
  truncate_fits m size : 512 <= size -> clen (msg_Truncate m size) <= size;
  truncate_header m size : m_Id (msg_Truncate m size) = m_Id m /\ m_Rcode (msg_Truncate m size) = m_Rcode m /\
    m_Response (msg_Truncate m size) = m_Response m /\ m_Question (msg_Truncate m size) = m_Question m;
  truncate_flag m size : m_Truncated (msg_Truncate m size) = false ->
    m_Truncated m = false /\ m_Answer (msg_Truncate m size) = m_Answer m /\ m_Ns (msg_Truncate m size) = m_Ns m /\
    m_Extra (msg_Truncate m size) ≡ₚ m_Extra m;
  truncate_edns m size : IsEdns0 (msg_Truncate m size) = IsEdns0 m;
  no_answers_shorter m : clen (set_Answer m []) <= clen m;
}.

Definition MinMsgSize : Z := 512.
Definition EDNS0NSID : Z := 3.
Definition EDNS0EXPIRE : Z := 9.
Definition EDNS0TCPKEEPALIVE : Z := 11.
Definition EDNS0PADDING : Z := 12.

(** [EDNS0.Option]. *)
Definition option_code (o : EDNSOption) : Z :=
  match o with EDNS0_EDE _ _ => 15 | EDNS0_SUBNET _ _ _ _ => 8 | EDNS0_Other code _ => code end.

(** * normalize.go *)

Definition responsePaddingMaxSize : Z := 32.

(** [opt.SetUDPSize], [opt.SetVersion], [opt.SetDo]. *)
Definition with_hdr (rr : RR) (name : string) (ty class ttl : Z) : RR :=
  {| rr_Hdr := {| rh_Name := name; rh_Rrtype := ty; rh_Class := class; rh_Ttl := ttl |}; rr_Data := rr_Data rr |}.

Definition SetVersion (ttl v : Z) : Z := Z.lor (Z.land ttl 0xFF00FFFF) (Z.shiftl v 16).
Definition SetDo (ttl : Z) : Z := Z.lor ttl 0x8000.

Definition maxDNSSize (network : string) (ednsUDPSize maxMsgSize : Z) : Z :=
  if negb (bool_decide (network = NetworkUDP)) then MaxMsgSize
  else Z.max (Z.min ednsUDPSize maxMsgSize) MinMsgSize.

Definition filterUnsupportedOptions (o : list EDNSOption) : list EDNSOption :=
  filter (fun opt => option_code opt = EDNS0NSID \/ option_code opt = EDNS0EXPIRE) o.

(** [findOption] by the type of the option, which is its code. *)
Definition findOption (code : Z) (rr : RR) : bool :=
  existsb (fun o => option_code o =? code) (opt_options rr).

Definition zero_padding (n : nat) : string := of_bytes (replicate n (byte_of 0)).

(** The first option with a code is replaced. *)
Fixpoint replace_option (code : Z) (new : EDNSOption) (opts : list EDNSOption) : list EDNSOption :=
  match opts with
  | [] => []
  | o :: opts => if option_code o =? code then new :: opts else o :: replace_option code new opts
  end.

Definition set_option (code : Z) (new : EDNSOption) (rr : RR) : RR := {|
  rr_Hdr := rr_Hdr rr;
  rr_Data := RD_OPT (if findOption code rr then replace_option code new (opt_options rr) else opt_options rr ++ [new]) |}.

(** [rnd] is the value of [rand.IntN(responsePaddingMaxSize - 1)]. *)
Definition padAnswer (rnd : Z) (reqOpt respOpt : RR) : RR :=
  if negb (findOption EDNS0PADDING reqOpt) then respOpt
  else set_option EDNS0PADDING (EDNS0_Other EDNS0PADDING (zero_padding (Z.to_nat (rnd + 1)))) respOpt.

Section normalize.
Context `{MiekgDNS} `{MiekgTruncate}.

Definition truncate (resp : Msg) (size : Z) : Msg :=
  let resp := msg_Truncate resp size in
  if m_Truncated resp then set_Answer resp [] else resp.

(** A change of the OPT record. *)
Definition update_opt (f : RR -> RR) (m : Msg) : Msg :=
  match find_OPT (m_Extra m) with
  | Some i => set_Extra m (alter f i (m_Extra m))
  | None => m
  end.

(** The OPT record of the response: it has the size and the DO bit of the request, or
    is a new one with the supported options. *)
Definition reflect_opt (reqOpt : RR) (resp : Msg) : Msg :=
  match IsEdns0 resp with
  | Some _ =>
      update_opt (fun respOpt =>
        let ttl := Z.land (SetVersion (rh_Ttl (rr_Hdr respOpt)) 0) 0xff00 in
        with_hdr respOpt "." TypeOPT (UDPSize reqOpt) (if Do reqOpt then SetDo ttl else ttl)) resp
  | None =>
      set_Extra resp (m_Extra resp ++
        [{| rr_Hdr := {| rh_Name := "."; rh_Rrtype := TypeOPT; rh_Class := 0; rh_Ttl := 0 |};
            rr_Data := RD_OPT (filterUnsupportedOptions (opt_options reqOpt)) |}])
  end.

Definition normalize (rnd : Z) (network : string) (proto : Z) (req resp : Msg) (maxMsgSize : Z) : Msg :=
  match IsEdns0 req with
  | None => set_Compress (truncate resp (maxDNSSize network 0 maxMsgSize)) true
  | Some reqOpt =>
      let resp := reflect_opt reqOpt resp in
      let resp := set_Compress (truncate resp (maxDNSSize network (UDPSize reqOpt) maxMsgSize)) true in
      if IsStdEncrypted proto then update_opt (padAnswer rnd reqOpt) resp else resp
  end.

Definition normalizeTCP (rnd proto : Z) (req resp : Msg) : Msg := normalize rnd NetworkTCP proto req resp MaxMsgSize.

(** * tcpresponsewriter.go *)

(** The timeout in units of 100 milliseconds. *)
Definition keepAliveTimeout (idleTimeout : Z) : Z := Z.quot (Z.quot idleTimeout 1000000) 100 mod 2 ^ 16.

Definition addTCPKeepAlive (idleTimeout : Z) (req resp : Msg) : Msg :=
  match IsEdns0 req, IsEdns0 resp with
  | Some reqOpt, Some _ =>
      if findOption EDNS0TCPKEEPALIVE reqOpt
      then update_opt (set_option EDNS0TCPKEEPALIVE
                         (EDNS0_Other EDNS0TCPKEEPALIVE (be_bytes 2 (keepAliveTimeout idleTimeout)))) resp
      else resp
  | _, _ => resp
  end.

(** What is packed and written over TCP. *)
Definition tcp_WriteMsg (rnd proto idleTimeout : Z) (req resp : Msg) : Msg :=
  addTCPKeepAlive idleTimeout req (normalizeTCP rnd proto req resp).

(** * ttl.go *)

Definition minimalDefaultTTL : Z := 5 * second.
Definition maximumDefaultTTL : Z := 3600 * second.

Definition isEmptyMessage (m : Msg) : bool :=
  match m_Answer m, m_Ns m with
  | [], [] =>
      match m_Extra m with
      | [] => true
      | [rr] => rh_Rrtype (rr_Hdr rr) =? TypeOPT
      | _ => false
      end
  | _, _ => false
  end.

Definition minimalTTLMsgRRs (m : Msg) : Z :=
  let lower (t : Z) (rr : RR) := Z.min t (rh_Ttl (rr_Hdr rr)) in
  let t := maximumDefaultTTL / second in
  let t := foldl lower t (m_Answer m) in
  let t := foldl lower t (m_Ns m) in
  let t := foldl (fun t rr => if rh_Rrtype (rr_Hdr rr) =? TypeOPT then t else lower t rr) t (m_Extra m) in
  t * second.

Definition minimalTTL (m : Msg) : Z :=
  if negb (m_Rcode m =? RcodeSuccess) && negb (m_Rcode m =? RcodeNameError) then minimalDefaultTTL
  else if isEmptyMessage m then minimalDefaultTTL
  else minimalTTLMsgRRs m.

(** * msg.go *)

(** [Msg.SetRcode] sets the reply and then the code. *)
Definition genErrorResponse (req : Msg) (code : Z) : Msg := set_Rcode (SetReply empty_msg req) code.

(** * serverbase.go *)

Definition OpcodeQuery : Z := 0.
Definition OpcodeNotify : Z := 4.
Definition RcodeNotImplemented : Z := 4.
Definition ExtendedErrorCodeNetworkError : Z := 23.

Inductive MsgAcceptAction := MsgAccept | MsgReject | MsgIgnore | MsgRejectNotImplemented.

Definition acceptMsg (msg : Msg) : MsgAcceptAction :=
  if m_Response msg then MsgIgnore
  else if negb (m_Opcode msg =? OpcodeQuery) && negb (m_Opcode msg =? OpcodeNotify) then MsgRejectNotImplemented
  else if negb (length (m_Question msg) =? 1)%nat then MsgReject
  else if (1 <? length (m_Answer msg))%nat then MsgReject
  else if (1 <? length (m_Ns msg))%nat then MsgReject
  else MsgAccept.

(** What the errors of handlers are: one of type [*dns.Error], or a network error that
    is a timeout. *)
Context (as_dns_error isNonCriticalNetError : error -> bool) `{MiekgEdns}.

Definition addEDE (req resp : Msg) (code : Z) (text : string) : Msg :=
  match IsEdns0 req with
  | None => resp
  | Some reqOpt =>
      let resp := match IsEdns0 resp with
                  | None => SetEdns0 resp (UDPSize reqOpt) (Do reqOpt)
                  | Some _ => resp
                  end in
      update_opt (fun rr => {| rr_Hdr := rr_Hdr rr; rr_Data := RD_OPT (opt_options rr ++ [EDNS0_EDE code text]) |}) resp
  end.

(** The response which [respondWithError] writes. *)
Definition respondWithError (req : Msg) (reportedError : error) : Msg :=
  let rcode := if as_dns_error reportedError then RcodeFormatError else RcodeServerFailure in
  let resp := genErrorResponse req rcode in
  if isNonCriticalNetError reportedError then addEDE req resp ExtendedErrorCodeNetworkError EmptyString else resp.

(** What the handler returns: its error and what it has passed to the recorder, in
    order, even if it could not be written; the recorder keeps the last one and passes
    on all.  The result is what is written to the client, in order. *)
Definition serveDNS (handler : Msg -> outcome (option error * list Msg)) (req : Msg) : outcome (list Msg) :=
  match acceptMsg req with
  | MsgReject => Ret [genErrorResponse req RcodeFormatError]
  | MsgRejectNotImplemented => Ret [genErrorResponse req RcodeNotImplemented]
  | MsgIgnore => Ret []
  | MsgAccept =>
      let! r := handler req in
      let '(err, written) := r in
      Ret match err, last written with
          | Some err, None => written ++ [respondWithError req err]
          | _, _ => written
          end
  end.

(** [serveDNSMsg] says if anything was written. *)
Definition serveDNSMsg (handler : Msg -> outcome (option error * list Msg)) (req : Msg) : outcome (bool * list Msg) :=
  let! l := serveDNS handler req in Ret (match last l with Some _ => true | None => false end, l).

End normalize.

(** * Facts *)

(** ** Sizes *)

Section sizes.
Context `{M : MiekgDNS} `{Wm : MiekgWire} `{T : MiekgTruncate} `{!MiekgDNSSpec} `{!MiekgTruncateSpec}.

Lemma truncate_clen resp size : 512 <= size -> clen (truncate resp size) <= size.
Proof.
  intros Hs. unfold truncate. pose proof (truncate_fits resp size Hs). case_if; [|done].
  pose proof (no_answers_shorter (msg_Truncate resp size)). lia.
Qed.

Lemma truncate_keeps resp size : let r := truncate resp size in
  m_Id r = m_Id resp /\ m_Rcode r = m_Rcode resp /\ m_Question r = m_Question resp /\
  ((m_Truncated r = true /\ m_Answer r = []) \/
   (m_Truncated r = false /\ m_Answer r = m_Answer resp /\ m_Ns r = m_Ns resp /\ m_Extra r ≡ₚ m_Extra resp)).
Proof.
  simpl. unfold truncate. destruct (truncate_header resp size) as (Hi & Hr & _ & Hq).
  destruct (m_Truncated (msg_Truncate resp size)) eqn:Et; simpl; split_and!; try done; [by left|].
  right. by destruct (truncate_flag _ _ Et) as (_ & ? & ? & ?).
Qed.

Lemma reflect_opt_sections reqOpt resp : let r := reflect_opt reqOpt resp in
  m_Id r = m_Id resp /\ m_Rcode r = m_Rcode resp /\ m_Question r = m_Question resp /\ m_Answer r = m_Answer resp /\
  m_Ns r = m_Ns resp /\ plain_records (m_Extra r) = plain_records (m_Extra resp).
Proof.
  simpl. unfold reflect_opt, update_opt. destruct (IsEdns0 resp).
  - destruct (find_OPT (m_Extra resp)) as [i|] eqn:Ef; [|done]. split_and!; try done. cbn [m_Extra set_Extra].
    destruct (find_OPT_Some _ _ Ef) as (rr & Hrr & Ho). apply (plain_alter _ _ _ rr); [done|done|].
    by unfold is_OPT in *.
  - split_and!; try done. cbn [m_Extra set_Extra]. unfold plain_records. rewrite filter_app, filter_cons_False by discriminate.
    by rewrite filter_nil, app_nil_r.
Qed.

(** The size of the payload which a client has announced. *)
Definition announced (req : Msg) : Z := match IsEdns0 req with Some opt => UDPSize opt | None => 0 end.

(** C21. Responses over UDP.  However large the response is, what is packed fits into the
    size which the client has announced and the server allows, and into 512 bytes if
    that is more; the response keeps its ID, code and question; and it is either marked
    as truncated and without any answers, or not marked and whole: the answers and the
    authority records are those of the response, and so are the additional ones, up to
    their order, except for OPT records. *)
Theorem udp_response_fits rnd req resp maxSize :
  let r := normalize rnd NetworkUDP ProtoDNS req resp maxSize in
  msg_Len r <= Z.max 512 (Z.min (announced req) maxSize) /\
  m_Id r = m_Id resp /\ m_Rcode r = m_Rcode resp /\ m_Question r = m_Question resp /\
  ((m_Truncated r = true /\ m_Answer r = []) \/
   (m_Truncated r = false /\ m_Answer r = m_Answer resp /\ m_Ns r = m_Ns resp /\
    filter (fun rr => is_OPT rr = false) (m_Extra r) ≡ₚ filter (fun rr => is_OPT rr = false) (m_Extra resp))).
Proof.
  simpl. unfold normalize, announced.
  assert (forall size, maxDNSSize NetworkUDP size maxSize = Z.max 512 (Z.min size maxSize)) as Hm
    by (intros size; unfold maxDNSSize; simpl; unfold MinMsgSize; lia).
  assert (forall r size, msg_Len (set_Compress (truncate r (maxDNSSize NetworkUDP size maxSize)) true) <=
    Z.max 512 (Z.min size maxSize)) as Hl.
  { intros r size. rewrite <- Hm. apply (truncate_clen r). rewrite Hm. lia. }
  assert (forall m size, m_Id m = m_Id resp -> m_Rcode m = m_Rcode resp -> m_Question m = m_Question resp ->
    m_Answer m = m_Answer resp -> m_Ns m = m_Ns resp -> plain_records (m_Extra m) = plain_records (m_Extra resp) ->
    let r := set_Compress (truncate m size) true in
    m_Id r = m_Id resp /\ m_Rcode r = m_Rcode resp /\ m_Question r = m_Question resp /\
    ((m_Truncated r = true /\ m_Answer r = []) \/
     (m_Truncated r = false /\ m_Answer r = m_Answer resp /\ m_Ns r = m_Ns resp /\
      plain_records (m_Extra r) ≡ₚ plain_records (m_Extra resp)))) as Hk.
  { intros m size E1 E2 E3 E4 E5 E6 r. destruct (truncate_keeps m size) as (K1 & K2 & K3 & K4).
    unfold r. cbn [m_Id m_Rcode m_Question m_Truncated m_Answer m_Ns m_Extra set_Compress].
    split_and!; [congruence..|]. destruct K4 as [?|(? & ? & ? & Hx)]; [by left|right]. split_and!; [congruence..|].
    rewrite <- E6. unfold plain_records. by rewrite Hx. }
  destruct (IsEdns0 req) as [reqOpt|]; (split; [apply Hl|]); [|by apply Hk].
  destruct (reflect_opt_sections reqOpt resp) as (R1 & R2 & R3 & R4 & R5 & R6). by apply Hk.
Qed.

End sizes.

(** ** The OPT record *)

Section opt.
Context `{M : MiekgDNS} `{!MiekgDNSSpec}.

Lemma find_alter (l : list RR) i f : find_OPT l = Some i -> (forall rr, is_OPT (f rr) = is_OPT rr) ->
  find_OPT (alter f i l) = Some i.
Proof.
  intros Hf Hk. rewrite <- Hf. apply find_OPT_ext. apply list_eq. intros j. rewrite !list_lookup_fmap.
  destruct (decide (i = j)) as [<-|Hne].
  - rewrite list_lookup_alter_eq. destruct (l !! i); simpl; [by rewrite Hk|done].
  - by rewrite list_lookup_alter_ne.
Qed.

(** What a new OPT record is, and what becomes of one that the response has. *)
Lemma opt_changed f resp opt : (forall rr, is_OPT (f rr) = is_OPT rr) -> IsEdns0 resp = Some opt ->
  IsEdns0 (update_opt f resp) = Some (f opt).
Proof.
  intros Hk. unfold IsEdns0, update_opt. destruct (find_OPT (m_Extra resp)) as [i|] eqn:Ef; simpl; [|done].
  intros Hl. rewrite (find_alter _ _ _ Ef Hk). simpl. by rewrite list_lookup_alter_eq, Hl.
Qed.

Lemma testbit_land_ff00 x i : 0 <= i -> Z.testbit (Z.land x 0xff00) i = Z.testbit x i && (8 <=? i) && (i <=? 15).
Proof.
  intros Hi. rewrite Z.land_spec. change 0xff00 with (Z.shiftl (Z.ones 8) 8).
  rewrite Z.shiftl_spec by lia. destruct (decide (i < 8)).
  - rewrite (Z.testbit_neg_r _ (i - 8)) by lia. rewrite (proj2 (Z.leb_gt 8 i)) by lia. by rewrite !andb_false_r.
  - rewrite (proj2 (Z.leb_le 8 i)) by lia. rewrite andb_true_r. destruct (decide (i <= 15)).
    + rewrite Z.ones_spec_low by lia. rewrite (proj2 (Z.leb_le i 15)) by lia. done.
    + rewrite Z.ones_spec_high by lia. rewrite (proj2 (Z.leb_gt i 15)) by lia. done.
Qed.

(** The OPT record of a response to a request with EDNS.  One that the response has
    gets the payload size of the request, version and extended code zero, and the DO
    bit if it or the request has it: a DO bit of the response is kept.  A new one has
    neither the payload size nor the DO bit of the request. *)
Theorem opt_reflected reqOpt resp :
  (forall opt, IsEdns0 resp = Some opt ->
     exists opt', IsEdns0 (reflect_opt reqOpt resp) = Some opt' /\ UDPSize opt' = UDPSize reqOpt /\
       Do opt' = Do reqOpt || Do opt /\ Z.shiftr (rh_Ttl (rr_Hdr opt')) 16 = 0 /\ opt_options opt' = opt_options opt) /\
  (IsEdns0 resp = None ->
     exists opt', last (m_Extra (reflect_opt reqOpt resp)) = Some opt' /\ UDPSize opt' = 0 /\ Do opt' = false /\
       forall o, o ∈ opt_options opt' <-> o ∈ opt_options reqOpt /\ (option_code o = EDNS0NSID \/ option_code o = EDNS0EXPIRE)).
Proof.
  split.
  - intros opt Ho. unfold reflect_opt. rewrite Ho.
    match goal with |- context [update_opt ?f resp] => rewrite (opt_changed f resp opt) by done end.
    eexists. split; [done|]. split; [done|]. unfold Do. cbn [with_hdr rr_Hdr rh_Ttl opt_options rr_Data].
    set (t := Z.land _ _). assert (forall i, 0 <= i -> Z.testbit t i = Z.testbit (rh_Ttl (rr_Hdr opt)) i && (8 <=? i) && (i <=? 15)) as Ht.
    { intros i Hi. unfold t. rewrite testbit_land_ff00 by done. unfold SetVersion. rewrite Z.lor_spec, Z.land_spec.
      change (Z.shiftl 0 16) with 0. rewrite Z.bits_0, orb_false_r.
      destruct (8 <=? i) eqn:E8; [|by rewrite !andb_false_r]. destruct (i <=? 15) eqn:E15; [|by rewrite !andb_false_r].
      assert (Z.testbit 0xFF00FFFF i = true) as ->; [|by rewrite andb_true_r].
      assert (i = 8 \/ i = 9 \/ i = 10 \/ i = 11 \/ i = 12 \/ i = 13 \/ i = 14 \/ i = 15) as Hc by lia.
      by destruct Hc as [-> |[-> |[-> |[-> |[-> |[-> |[-> | ->]]]]]]]. }
    split_and!; [| |done].
    + destruct (Z.testbit (rh_Ttl (rr_Hdr reqOpt)) 15); unfold SetDo; [rewrite Z.lor_spec; simpl; by rewrite orb_true_r|].
      rewrite Ht by lia. simpl. by rewrite !andb_true_r.
    + apply Z.bits_inj'. intros n Hn. rewrite Z.shiftr_spec, Z.bits_0 by done.
      assert (Z.testbit t (n + 16) = false) as Hb.
      { rewrite Ht by lia. rewrite (proj2 (Z.leb_gt (n + 16) 15)) by lia. by rewrite andb_false_r. }
      destruct (Z.testbit _ 15); [|done]. unfold SetDo. rewrite Z.lor_spec, Hb.
      change 0x8000 with (2 ^ 15). rewrite Z.pow2_bits_false by lia. done.
  - intros Hn. unfold reflect_opt. rewrite Hn. eexists. cbn [set_Extra m_Extra]. rewrite last_snoc. split; [done|].
    split; [done|]. split; [done|]. intros o. cbn [opt_options rr_Data]. unfold filterUnsupportedOptions. rewrite list_elem_of_filter. tauto.
Qed.

End opt.

(** The timeouts that [newServerDNS] allows are announced as they are. *)
Definition MaxTCPIdleTimeout : Z := 65535 * 100 * 1000000.

Lemma keepAliveTimeout_exact t : 0 <= t <= MaxTCPIdleTimeout -> keepAliveTimeout t = t / (100 * 1000000).
Proof.
  unfold MaxTCPIdleTimeout, keepAliveTimeout. intros Ht.
  rewrite !Z.quot_div_nonneg by (try apply Z.quot_pos; lia). rewrite Z.div_div by lia.
  rewrite Z.mod_small; [f_equal; lia|]. split; [apply Z.div_pos; lia|]. apply Z.div_lt_upper_bound; lia.
Qed.

(** ** Freshness *)

Lemma foldl_min_le (l : list RR) t : foldl (fun t rr => Z.min t (rh_Ttl (rr_Hdr rr))) t l <= t /\
  forall rr, rr ∈ l -> foldl (fun t rr => Z.min t (rh_Ttl (rr_Hdr rr))) t l <= rh_Ttl (rr_Hdr rr).
Proof.
  revert t. induction l as [|x l IH]; intros t; simpl; [split; [lia|]; intros rr Hr; by apply not_elem_of_nil in Hr|].
  destruct (IH (Z.min t (rh_Ttl (rr_Hdr x)))) as [H1 H2]. split; [lia|].
  intros rr Hr. apply elem_of_cons in Hr as [->|Hr]; [lia|by apply H2].
Qed.

(** The freshness of a response over HTTPS is at most an hour and at most the TTL of
    each of its records, unless the response is an error or has no records. *)
Lemma minimalTTL_bound m : minimalTTL m <= maximumDefaultTTL /\
  forall rr, (rr ∈ m_Answer m \/ rr ∈ m_Ns m) -> m_Rcode m = RcodeSuccess \/ m_Rcode m = RcodeNameError ->
    minimalTTL m <= rh_Ttl (rr_Hdr rr) * second.
Proof.
  assert (forall l t, foldl (fun t rr => if rh_Rrtype (rr_Hdr rr) =? TypeOPT then t else Z.min t (rh_Ttl (rr_Hdr rr))) t l <= t) as Hx.
  { induction l as [|x l IH]; intros t; simpl; [lia|]. specialize (IH (if rh_Rrtype (rr_Hdr x) =? TypeOPT then t else Z.min t (rh_Ttl (rr_Hdr x)))).
    destruct (_ =? _); lia. }
  set (a := foldl (fun t rr => Z.min t (rh_Ttl (rr_Hdr rr))) 3600 (m_Answer m)).
  set (b := foldl (fun t rr => Z.min t (rh_Ttl (rr_Hdr rr))) a (m_Ns m)).
  assert (minimalTTLMsgRRs m <= b * second) as Hb.
  { unfold minimalTTLMsgRRs. change (maximumDefaultTTL / second) with 3600. fold a. fold b.
    specialize (Hx (m_Extra m) b). unfold second. lia. }
  destruct (foldl_min_le (m_Answer m) 3600) as [A1 A2]. fold a in A1, A2.
  destruct (foldl_min_le (m_Ns m) a) as [B1 B2]. fold b in B1, B2.
  unfold minimalTTL, maximumDefaultTTL, minimalDefaultTTL. split.
  - destruct (_ && _); [unfold second; lia|]. destruct (isEmptyMessage m); unfold second in *; lia.
  - intros rr Hr Hc. destruct (_ && _) eqn:E; [lia|]. assert (isEmptyMessage m = false) as ->.
    { unfold isEmptyMessage. destruct Hr as [Hr|Hr]; [destruct (m_Answer m)|destruct (m_Answer m), (m_Ns m)]; try done;
        by apply not_elem_of_nil in Hr. }
    assert (b <= rh_Ttl (rr_Hdr rr)) by (destruct Hr as [Hr%A2|Hr%B2]; lia). unfold second in *. lia.
Qed.

(** ** Serving *)

Section serving.
Context `{M : MiekgDNS} `{!MiekgDNSSpec} `{Ed : MiekgEdns} `{!MiekgEdnsSpec} (as_dns_error isNonCritical : error -> bool).

(** What a handler may assume of a request. *)
Definition acceptable (req : Msg) : Prop :=
  m_Response req = false /\ (m_Opcode req = OpcodeQuery \/ m_Opcode req = OpcodeNotify) /\
  (exists q, m_Question req = [q]) /\ (length (m_Answer req) <= 1)%nat /\ (length (m_Ns req) <= 1)%nat.

Lemma acceptMsg_acceptable req : acceptMsg req = MsgAccept <-> acceptable req.
Proof.
  unfold acceptMsg, acceptable. destruct (m_Response req); [naive_solver|].
  destruct (m_Opcode req =? OpcodeQuery) eqn:E1; destruct (m_Opcode req =? OpcodeNotify) eqn:E2; simpl;
    [..|split; [done|]; intros (_ & Hor & _); lia].
  all: destruct (m_Question req) as [|q [|? ?]] eqn:Eq; simpl; try (split; [done|]; intros (_ & _ & (q' & ?) & _); done).
  all: destruct (1 <? length (m_Answer req))%nat eqn:Ea; [split; [done|]; intros (_ & _ & _ & ? & _); apply Nat.ltb_lt in Ea; lia|].
  all: destruct (1 <? length (m_Ns req))%nat eqn:En; [split; [done|]; intros (_ & _ & _ & _ & ?); apply Nat.ltb_lt in En; lia|].
  all: apply Nat.ltb_ge in Ea, En; split; [|done]; intros _; split; [done|]; split; [lia|]; split; [by exists q|]; lia.
Qed.

Lemma error_response_header req err :
  let m := respondWithError as_dns_error isNonCritical req err in
  m_Id m = m_Id req /\ m_Response m = true /\ m_Rcode m = if as_dns_error err then RcodeFormatError else RcodeServerFailure.
Proof.
  simpl. unfold respondWithError.
  set (rcode := if as_dns_error err then RcodeFormatError else RcodeServerFailure).
  set (g := genErrorResponse req rcode).
  assert (m_Id g = m_Id req /\ m_Response g = true /\ m_Rcode g = rcode) as Hg
    by (unfold g, genErrorResponse; simpl; by rewrite reply_Id, reply_Response).
  destruct (isNonCritical err); [|done]. unfold addEDE. destruct (IsEdns0 req) as [ro|]; [|done].
  assert (forall f m, m_Id (update_opt f m) = m_Id m /\ m_Response (update_opt f m) = m_Response m /\
    m_Rcode (update_opt f m) = m_Rcode m) as Hu.
  { intros f m. unfold update_opt. by destruct (find_OPT (m_Extra m)). }
  match goal with |- context [update_opt ?f ?m] => destruct (Hu f m) as (-> & -> & ->) end.
  destruct (IsEdns0 g); [done|]. destruct (set_edns0 g (UDPSize ro) (Do ro)) as (opt & _ & _ & _ & _ & ->). done.
Qed.

(** The code of a message that is refused. *)
Definition refusal (req : Msg) : Z :=
  if (m_Opcode req =? OpcodeQuery) || (m_Opcode req =? OpcodeNotify) then RcodeFormatError else RcodeNotImplemented.

(** C28. What a client is sent.  The handler is only called with a query or notification
    that has one question and at most one answer and one authority record.  Of the
    other messages, a response is not answered, and each other one is answered with one
    error with its ID: not implemented if it is neither a query nor a notification, and a
    bad format otherwise.  For the former, the client is sent exactly what the handler
    writes; only if the handler writes nothing and fails, one error with the ID of the
    request is sent in its place, whose code is that of a bad format for an error of the
    DNS library and that of a failure of the server for another.  So a client gets at
    most one response unless the handler itself writes more, and nothing is added to
    what the handler has written.  (Sent is what is passed to the writer of the
    connection, which may fail; a panic of the handler is left aside.) *)
Theorem served_once handler req l :
  serveDNS as_dns_error isNonCritical handler req = Ret l ->
  (acceptable req \/ (forall handler', serveDNS as_dns_error isNonCritical handler' req = Ret l)) /\
  (m_Response req = true -> l = []) /\
  (m_Response req = false -> ~ acceptable req -> exists m, l = [m] /\ m_Id m = m_Id req /\ m_Rcode m = refusal req) /\
  (acceptable req -> exists err written, handler req = Ret (err, written) /\ 
     match err, written with
     | Some err, [] => exists m, l = [m] /\ m_Id m = m_Id req /\ m_Response m = true /\
         m_Rcode m = if as_dns_error err then RcodeFormatError else RcodeServerFailure
     | _, _ => l = written
     end /\ (length l <= Nat.max 1 (length written))%nat).
Proof.
  unfold serveDNS. rewrite <- acceptMsg_acceptable. destruct (acceptMsg req) eqn:Ea.
  - destruct (handler req) as [[err ws]|] eqn:Eh; simpl; [|done]. intros [= <-].
    assert (m_Response req = false) as Hr by (revert Ea; unfold acceptMsg; by destruct (m_Response req)).
    split; [by left|]. split; [by rewrite Hr|]. split; [done|]. intros _. exists err, ws. split; [done|].
    destruct err as [err|]; [|by split; [|lia]]. destruct ws as [|w ws]; simpl.
    + split; [|lia]. eexists. split; [done|]. apply error_response_header.
    + destruct (last (w :: ws)) eqn:El; [by split; [|simpl; lia]|]. by apply last_None in El.
  - intros [= <-]. assert (m_Response req = false /\ refusal req = RcodeFormatError) as [Hr Hc].
    { revert Ea. unfold acceptMsg, refusal. destruct (m_Response req); [done|].
      by destruct (m_Opcode req =? OpcodeQuery), (m_Opcode req =? OpcodeNotify). }
    rewrite Hr. split; [by right|]. split; [done|]. split; [|done]. intros _ _. eexists. split; [done|].
    simpl. by rewrite reply_Id.
  - intros [= <-]. assert (m_Response req = true) as Hr.
    { revert Ea. unfold acceptMsg. destruct (m_Response req); [done|]. destruct (_ && _); [done|]. repeat (case_if; [done|]). done. }
    rewrite Hr. split; [by right|]. split; [done|]. by split.
  - intros [= <-]. assert (m_Response req = false /\ refusal req = RcodeNotImplemented) as [Hr Hc].
    { revert Ea. unfold acceptMsg, refusal. destruct (m_Response req); [done|].
      destruct (m_Opcode req =? OpcodeQuery), (m_Opcode req =? OpcodeNotify); simpl; repeat (case_if; [done|]); done. }
    rewrite Hr. split; [by right|]. split; [done|]. split; [|done]. intros _ _. eexists. split; [done|].
    simpl. by rewrite reply_Id.
Qed.

End serving.

(** ** Concrete inputs *)

#[local] Existing Instance ref_miekg.
#[local] Existing Instance ref_miekg_spec.

(** A message has a header of 12 bytes and 100 bytes for every answer; a message that
    does not fit loses all of them. *)
#[local] Instance counted_wire : MiekgWire := {|
  msg_Len m := 12 + 100 * Z.of_nat (length (m_Answer m));
  wire _ := EmptyString; PackBuffer _ buf := (None, buf); Unpack _ := Err ErrNoResponse |}.

Definition cut_off (m : Msg) : Msg := {|
  m_Id := m_Id m; m_Response := m_Response m; m_RecursionDesired := m_RecursionDesired m;
  m_RecursionAvailable := m_RecursionAvailable m; m_AuthenticatedData := m_AuthenticatedData m;
  m_CheckingDisabled := m_CheckingDisabled m; m_Truncated := true; m_Opcode := m_Opcode m; m_Rcode := m_Rcode m;
  m_Compress := m_Compress m; m_Question := m_Question m; m_Answer := []; m_Ns := m_Ns m; m_Extra := m_Extra m |}.

#[local] Instance counted_truncate : MiekgTruncate := fun m size => if clen m <=? size then m else cut_off m.

#[local] Instance counted_truncate_spec : MiekgTruncateSpec.
Proof.
  split; unfold msg_Truncate, counted_truncate; intros m.
  - intros size Hs. destruct (clen m <=? size) eqn:E; [lia|]. unfold clen. simpl. lia.
  - intros size. by destruct (clen m <=? size).
  - intros size. by destruct (clen m <=? size).
  - intros size. by destruct (clen m <=? size).
  - unfold clen. simpl. lia.
Qed.

Definition big_response : Msg :=
  let a := {| rr_Hdr := {| rh_Name := "www.example.org."; rh_Rrtype := TypeA; rh_Class := ClassINET; rh_Ttl := 10 |};
              rr_Data := RD_A (Addr4 7) |} in
  set_Answer (NewResp some_request) (replicate 10 a).

Lemma udp_response_fits_witness :
  let r := normalize 3 NetworkUDP ProtoDNS some_request big_response 1000 in
  msg_Len big_response = 1012 /\ msg_Len r <= Z.max 512 (Z.min (announced some_request) 1000).
Proof. split; [reflexivity|]. apply (udp_response_fits 3 some_request big_response 1000). Defined.

Definition opt_of (ttl : Z) (opts : list EDNSOption) : RR :=
  {| rr_Hdr := {| rh_Name := "."; rh_Rrtype := TypeOPT; rh_Class := 1232; rh_Ttl := ttl |}; rr_Data := RD_OPT opts |}.

Lemma opt_reflected_witness :
  let resp := set_Extra (NewResp some_request) [opt_of 0x81020304 []] in
  exists opt', IsEdns0 (reflect_opt (opt_of 0x8000 []) resp) = Some opt' /\ UDPSize opt' = 1232 /\ Do opt' = true.
Proof.
  intros resp. destruct (opt_reflected (opt_of 0x8000 []) resp) as [Ho _].
  destruct (Ho (opt_of 0x81020304 []) eq_refl) as (opt' & E & Hu & Hd & _).
  exists opt'. split; [exact E|]. split; [exact Hu|exact Hd].
Defined.

#[local] Instance ref_edns_server : MiekgEdns := fun m size d => set_Extra m (m_Extra m ++ [newOPT size d]).
#[local] Instance ref_edns_server_spec : MiekgEdnsSpec.
Proof. intros m size d. exists (newOPT size d). split_and!; try done. by destruct d. Qed.

Definition is_timeout (err : error) : bool := Is err "timeout".

Lemma served_once_witness :
  exists l, serveDNS (fun _ => false) is_timeout (fun _ => Ret (Some (ErrConst "timeout"), [])) some_request = Ret l /\
    exists m, l = [m] /\ m_Id m = m_Id some_request /\ m_Response m = true.
Proof.
  eexists. split; [reflexivity|].
  destruct (served_once (fun _ => false) is_timeout (fun _ => Ret (Some (ErrConst "timeout"), [])) some_request _ eq_refl)
    as (_ & _ & _ & He).
  destruct (He ltac:(apply acceptMsg_acceptable; reflexivity)) as (err & ws & [= <- <-] & (m & Hl & Hi & Hr & _) & _).
  exists m. split; [exact Hl|]. split; [exact Hi|exact Hr].
Defined.
