(* ===== verification/Transports.v ===== *)
(** The transports of the DNS servers: internal/dnsserver: messages on TCP and QUIC
    streams (serverdnstcp.go, serverquic.go, msg.go, tcpresponsewriter.go), the limits on
    concurrent requests, DNSCrypt (serverdnscrypt.go), and DNS over HTTPS with its JSON
    form (serverhttps.go, serverhttpsjson.go).

    Sockets are streams of bytes that end with an error; HTTP, URL and base64 parsing are
    parameters. *)

From S2P Require Import Prelude GoStd NetIP HumanID DnsMsg Agd InitialMW EcsCache DnsCache Forward DnsServer.

Open Scope Z_scope.

(** * Streams *)

(** What is still to come, and the error after it: [io.EOF] or a timeout. *)
Record stream := { st_data : string; st_end : error }.

(** [io.ReadFull]. *)
Definition ReadFull (s : stream) (n : nat) : result error string * stream :=
  if (n <=? String.length (st_data s))%nat
  then (Ok (str_take n (st_data s)), {| st_data := str_drop n (st_data s); st_end := st_end s |})
  else (Err (if negb (bool_decide (st_data s = EmptyString)) && Is (st_end s) EOF
             then ErrConst "unexpected EOF" else st_end s),
        {| st_data := EmptyString; st_end := st_end s |}).

Section framing.
Context `{Wm : MiekgWire}.

(** * msg.go: packWithPrefix *)

Definition packWithPrefix (m : Msg) (buf : string) : result error string :=
  match (PackBuffer m buf).1 with
  | Some err => Err (ErrWrap "packing buffer: %w" err)
  | None =>
      let l := len (wire m) in
      if MaxMsgSize <? l then Err (ErrConst "buffer too large: %d bytes")
      else Ok (be_bytes 2 l +:+ wire m)
  end.

(** * serverdnstcp.go: readTCPMsg *)

Definition readTCPMsg (s : stream) : result error Msg * stream :=
  match ReadFull s 2 with
  | (Err err, s) => (Err (ErrWrap "reading length: %w" err), s)
  | (Ok prefix, s) =>
      match ReadFull s (Z.to_nat (be_value prefix)) with
      | (Err err, s) => (Err (ErrWrap "reading message: %w" err), s)
      | (Ok data, s) =>
          (match Unpack data with
           | Err err => Err (ErrWrap "unpacking message: %w" err)
           | Ok req => Ok req
           end, s)
      end
  end.

(** The loop of [serveTCPConn]: the messages in order, and the error that ends it.  The
    fuel is the number of iterations; every message takes two bytes. *)
Fixpoint tcp_messages (fuel : nat) (s : stream) : option (list Msg * error) :=
  match fuel with
  | O => None
  | S fuel =>
      match readTCPMsg s with
      | (Err err, _) => Some ([], ErrWrap "reading tcp message: %w" err)
      | (Ok req, s) => match tcp_messages fuel s with Some (l, err) => Some (req :: l, err) | None => None end
      end
  end.

(** * serverquic.go *)

Definition quicBytePoolSize : nat := Z.to_nat MaxMsgSize.
Definition DNSHeaderSize : nat := 12.

(** [readAll] with what the calls of [Read] return, none of which is longer than the
    rest of the buffer.  [acc] is what has been read. *)
Fixpoint readAll (size : nat) (reads : list (string * option error)) (acc : string) : string * option error :=
  if (String.length acc =? size)%nat then (acc, Some (ErrConst "short buffer"))
  else match reads with
  | [] => (acc, Some (ErrConst "timeout"))
  | (data, err) :: reads =>
      let acc := acc +:+ str_take (size - String.length acc) data in
      match err with
      | Some err => (acc, if is_const err EOF then None else Some err)
      | None => readAll size reads acc
      end
  end.

Definition validQUICMsg `{MiekgDNS} (req : Msg) : bool :=
  match IsEdns0 req with
  | Some opt => negb (existsb (fun o => option_code o =? EDNS0TCPKEEPALIVE) (opt_options opt))
  | None => true
  end.

Definition ErrProtocol : error := ErrConst "dnsserver: protocol error".

(** [buf] is what the buffer of the pool holds. *)
Definition readQUICMsg `{MiekgDNS} (buf : string) (reads : list (string * option error)) : result error Msg :=
  let '(data, err) := readAll (String.length buf) reads EmptyString in
  let buf := overwrite buf data in
  let n := String.length data in
  if (n <? DNSHeaderSize)%nat then
    Err (match err with
         | Some err => ErrWrap "reading into buffer: %w" err
         | None => ErrConst "dns: short read"
         end)
  else
    let packetLen := be_value (str_take 2 buf) in
    let wantLen := (Z.of_nat n - 2) mod 2 ^ 16 in
    match (if packetLen =? wantLen then Unpack (str_drop 2 buf) else Err (ErrConst "bad buffer size %d, want %d")) with
    | Err err => Err (ErrWrap "unpacking quic message: %w" err)
    | Ok req => if validQUICMsg req then Ok req else Err ErrProtocol
    end.

(** [requiresValidation] of a UDP address with the validator's cache. *)
Definition requiresValidation `{Gcache string bool} (now ttl : Z) (c : gcache) (ip : string) : bool * gcache :=
  match gc_Get now c ip with
  | (Some _, c) => (false, c)
  | (None, c) => (true, gc_SetWithExpire now c ip true ttl)
  end.

End framing.

(** * serverdnstcp.go: the limits on requests *)

(** The semaphore of the server, that of the connection, and the running requests of the
    connection. *)
Record semas := { active_used : nat; pipe_used : nat; running : nat }.

(** [callOnError] for a call that has not panicked: deferred calls see the error that
    the function returns. *)
Definition callOnError {S} (f : S -> S) (err : option error) (s : S) : S :=
  match err with Some _ => f s | None => s end.

Definition release_active (s : semas) : semas :=
  {| active_used := active_used s - 1; pipe_used := pipe_used s; running := running s |}.
Definition release_pipe (s : semas) : semas :=
  {| active_used := active_used s; pipe_used := pipe_used s - 1; running := running s |}.

(** [acceptTCPMsg] after the message is read, with how acquiring the two semaphores and
    submitting the task end. *)
Definition acceptTCPMsg (acquire_active acquire_pipe submit : option error) (s : semas) : option error * semas :=
  match acquire_active with
  | Some _ => (None, s)
  | None =>
      let s := {| active_used := active_used s + 1; pipe_used := pipe_used s; running := running s |} in
      match acquire_pipe with
      | Some _ => let err := None in (err, callOnError release_active err s)
      | None =>
          let s := {| active_used := active_used s; pipe_used := pipe_used s + 1; running := running s |} in
          let err := submit in
          let s := match err with
                   | None => {| active_used := active_used s; pipe_used := pipe_used s; running := running s + 1 |}
                   | Some _ => s
                   end in
          (err, callOnError release_active err (callOnError release_pipe err s))
      end
  end.

(** The deferred calls of the task. *)
Definition task_done (s : semas) : semas :=
  release_active (release_pipe {| active_used := active_used s; pipe_used := pipe_used s; running := running s - 1 |}).

Section proto.
Context `{M : MiekgDNS} `{Ed : MiekgEdns} `{T : MiekgTruncate} (as_dns_error isNonCriticalNetError : error -> bool).
Variable handler : Msg -> outcome (option error * list Msg).

(** * serverdnscrypt.go *)

Definition dnscrypt_error (req : Msg) (err : error) : Msg :=
  let resp := genErrorResponse req RcodeServerFailure in
  if isNonCriticalNetError err then addEDE req resp ExtendedErrorCodeNetworkError EmptyString else resp.

(** What is written to the client; [acquire] is how acquiring the semaphore ends.  The
    writer which is passed to the handler keeps the last message written. *)
Definition dnscrypt_ServeDNS (rnd : Z) (network : string) (acquire : option error) (req : Msg) : outcome Msg :=
  match acquire with
  | Some err => Ret (dnscrypt_error req err)
  | None =>
      let! l := serveDNS as_dns_error isNonCriticalNetError handler req in
      Ret match last l with
          | None => genErrorResponse req RcodeServerFailure
          | Some msg => normalize rnd network ProtoDNSCrypt req msg MaxMsgSize
          end
  end.

(** * serverhttpsjson.go *)

Record JSONQuestion := { jq_Name : string; jq_Type : Z }.
Record JSONAnswer := { ja_Name : string; ja_Data : string; ja_TTL : Z; ja_Type : Z; ja_Class : Z }.
Record JSONMsg := {
  jm_Question : list JSONQuestion;
  jm_Answer : list JSONAnswer;
  jm_Extra : list JSONAnswer;
  jm_Truncated : bool;
  jm_RecursionDesired : bool;
  jm_RecursionAvailable : bool;
  jm_AuthenticatedData : bool;
  jm_CheckingDisabled : bool;
  jm_Status : Z;
}.

(** [strings.TrimLeft(s, " ")]. *)
Fixpoint TrimLeftSpace (s : string) : string :=
  match s with
  | String " " s => TrimLeftSpace s
  | _ => s
  end.

(** [RR.String] and [RR_Header.String]. *)
Context (rr_String : RR -> string) (hdr_String : RR_Header -> string).

Definition rrToJSON (rr : RR) : JSONAnswer := {|
  ja_Name := rh_Name (rr_Hdr rr);
  ja_Data := TrimLeftSpace (TrimPrefix (rr_String rr) (hdr_String (rr_Hdr rr)));
  ja_TTL := rh_Ttl (rr_Hdr rr);
  ja_Type := rh_Rrtype (rr_Hdr rr);
  ja_Class := rh_Class (rr_Hdr rr) |}.

Definition DNSMsgToJSONMsg (m : Msg) : JSONMsg := {|
  jm_Question := (fun q => {| jq_Name := q_Name q; jq_Type := q_Qtype q |}) <$> m_Question m;
  jm_Answer := rrToJSON <$> m_Answer m;
  jm_Extra := rrToJSON <$> m_Extra m;
  jm_Truncated := m_Truncated m;
  jm_RecursionDesired := m_RecursionDesired m;
  jm_RecursionAvailable := m_RecursionAvailable m;
  jm_AuthenticatedData := m_AuthenticatedData m;
  jm_CheckingDisabled := m_CheckingDisabled m;
  jm_Status := m_Rcode m |}.

(** [strings.ToUpper], [strconv.ParseUint(s, 10, 16)], [dns.StringToType],
    [dns.StringToClass]. *)
Context (ToUpper : string -> string) (ParseUint16 : string -> option Z).
Context (StringToType StringToClass : string -> option Z).

Definition ErrInvalidArgument : error := ErrConst "dnsserver: invalid argument".

(** The parsed query of a URL. *)
Definition Values : Type := string -> list string.
Definition values_Get (q : Values) (name : string) : string := match q name with [] => EmptyString | v :: _ => v end.

Definition urlQueryParameterToUint16 (q : Values) (name : string) (defaultValue : Z) (names : string -> option Z)
    : result error Z :=
  let strValue := values_Get q name in
  if bool_decide (strValue = EmptyString) then Ok defaultValue
  else match ParseUint16 strValue with
  | Some v => Ok v
  | None =>
      match names (ToUpper strValue) with
      | Some v => Ok v
      | None => Err (ErrWrap "parameter %q: %w" ErrInvalidArgument)
      end
  end.

Definition urlQueryParameterToBoolean (q : Values) (name : string) (defaultValue : bool) : result error bool :=
  let strValue := values_Get q name in
  if bool_decide (strValue ∈ ["1"; "true"; "True"]%string) then Ok true
  else if bool_decide (strValue ∈ ["0"; "false"; "False"]%string) then Ok false
  else if bool_decide (strValue = EmptyString) then Ok defaultValue
  else Err ErrInvalidArgument.

Definition setEDNSFromQuery (req : Msg) (do_ sde : bool) : Msg :=
  if negb do_ && negb sde then req
  else
    let req := SetEdns0 req MaxMsgSize do_ in
    if sde then
      set_Extra req (alter (fun rr => {| rr_Hdr := rr_Hdr rr; rr_Data := RD_OPT (opt_options rr ++ [EDNS0_EDE 0 EmptyString]) |})
                       0%nat (m_Extra req))
    else req.

Definition json_question (id : Z) (name : string) (qt qc : Z) (cd : bool) : Msg := {|
  m_Id := id; m_Response := false; m_RecursionDesired := true; m_RecursionAvailable := false;
  m_AuthenticatedData := false; m_CheckingDisabled := cd; m_Truncated := false; m_Opcode := 0; m_Rcode := 0; m_Compress := false;
  m_Question := [{| q_Name := Fqdn name; q_Qtype := qt; q_Qclass := qc |}];
  m_Answer := []; m_Ns := []; m_Extra := [] |}.

(** The message that [httpRequestToMsgJSON] packs; [id] is the value of [dns.Id]. *)
Definition jsonRequest (id : Z) (q : Values) : result error Msg :=
  let name := values_Get q "name" in
  if bool_decide (name = EmptyString) then Err ErrInvalidArgument
  else
    let? qt := urlQueryParameterToUint16 q "type" TypeA StringToType in
    let? qc := urlQueryParameterToUint16 q "qc" ClassINET StringToClass in
    let? cd := urlQueryParameterToBoolean q "cd" false in
    let? do_ := urlQueryParameterToBoolean q "do" false in
    let? sde := urlQueryParameterToBoolean q "sde" false in
    Ok (setEDNSFromQuery (json_question id name qt qc cd) do_ sde).

(** * serverhttps.go *)

Definition MimeTypeDoH : string := "application/dns-message".
Definition MimeTypeJSON : string := "application/x-javascript".
Definition http_PathDoH : string := "/dns-query".
Definition http_PathJSON : string := "/resolve".

(** [hr_Body] is what reading at most the given number of bytes of the body and closing
    it returns. *)
Record http_request := {
  hr_Method : string;
  hr_Path : string;
  hr_Query : Values;
  hr_Body : Z -> result error string;
}.

(** The first element of the path, whose leading slash is cut. *)
Definition first_part (path : string) : string :=
  match SplitByte (path_Clean path) "/" with
  | EmptyString :: p :: _ => p
  | p :: _ => p
  | [] => EmptyString
  end.

Definition isDoH (r : http_request) : bool * bool * string :=
  let part := first_part (hr_Path r) in
  if bool_decide (part = EmptyString) then (false, false, EmptyString)
  else if HasSuffix http_PathDoH part then (true, false, MimeTypeDoH)
  else if HasSuffix http_PathJSON part then
    if bool_decide (values_Get (hr_Query r) "ct" = MimeTypeDoH) then (true, true, MimeTypeDoH) else (true, true, MimeTypeJSON)
  else (false, false, EmptyString).

Context `{Wm : MiekgWire} (base64_url : string -> result error string) (msg_Pack : Msg -> result error string).
Context (json_Marshal : JSONMsg -> result error string).

Definition httpRequestToMsgGet (r : http_request) : result error string :=
  match hr_Query r "dns" with
  | [] => Err (ErrConst "no 'dns' query parameter found")
  | [b64] => base64_url b64
  | _ => Err (ErrConst "multiple 'dns' query values found")
  end.

Definition httpRequestToMsg (id : Z) (r : http_request) : result error string :=
  let '(_, isJSON, _) := isDoH r in
  if isJSON then let? m := jsonRequest id (hr_Query r) in msg_Pack m
  else if bool_decide (hr_Method r = "GET"%string) then httpRequestToMsgGet r
  else if bool_decide (hr_Method r = "POST"%string) then hr_Body r MaxMsgSize
  else Err (ErrConst "method not allowed: %s").

(** A response: its status, content type, freshness and body. *)
Record http_response := { hs_Status : Z; hs_ContentType : string; hs_MaxAge : option Z; hs_Body : string }.

Definition http_error (code : Z) : http_response :=
  {| hs_Status := code; hs_ContentType := "text/plain; charset=utf-8"; hs_MaxAge := None; hs_Body := EmptyString |}.

Definition writeResponse (rnd : Z) (req resp : Msg) (r : http_request) : result error http_response :=
  let resp := normalizeTCP rnd ProtoDoH req resp in
  let '(isDNS, _, ct) := isDoH r in
  if negb isDNS then Err (ErrConst "invalid request path: %s")
  else
    let? buf := if bool_decide (ct = MimeTypeDoH) then msg_Pack resp
                else if bool_decide (ct = MimeTypeJSON) then json_Marshal (DNSMsgToJSONMsg resp)
                else Err (ErrConst "invalid content type: %q") in
    Ok {| hs_Status := 200; hs_ContentType := ct; hs_MaxAge := Some (minimalTTL resp); hs_Body := buf |}.

Definition serveDoH (id rnd : Z) (acquire : option error) (r : http_request) : outcome http_response :=
  match httpRequestToMsg id r with
  | Err _ => Ret (http_error 400)
  | Ok buf =>
      match Unpack buf with
      | Err _ => Ret (http_error 400)
      | Ok req =>
          match acquire with
          | Some _ => Ret (http_error 500)
          | None =>
              let! l := serveDNS as_dns_error isNonCriticalNetError handler req in
              Ret match last l with
                  | None => http_error 500
                  | Some resp => match writeResponse rnd req resp r with Ok hr => hr | Err _ => http_error 500 end
                  end
          end
      end
  end.

(** [ServeHTTP]; [nonDNS] is the handler of other requests. *)
Definition ServeHTTP (id rnd : Z) (acquire : option error) (nonDNS : option (http_request -> http_response)) (r : http_request)
    : outcome http_response :=
  if (isDoH r).1.1 then serveDoH id rnd acquire r
  else Ret match nonDNS with Some h => h r | None => http_error 404 end.

End proto.

(** * Facts *)

(** ** Frames *)

Section frames.
Context `{Wm : MiekgWire}.

Fixpoint concat_strings (l : list string) : string :=
  match l with [] => EmptyString | s :: l => s +:+ concat_strings l end.

Lemma ReadFull_append n a b e : String.length a = n ->
  ReadFull {| st_data := a +:+ b; st_end := e |} n = (Ok a, {| st_data := b; st_end := e |}).
Proof.
  intros <-. unfold ReadFull. simpl. rewrite length_append, (proj2 (Nat.leb_le _ _)) by lia.
  by rewrite str_take_append, str_drop_append.
Qed.

Lemma readTCPMsg_frame m buf frame rest e :
  Unpack (wire m) = Ok m -> packWithPrefix m buf = Ok frame ->
  readTCPMsg {| st_data := frame +:+ rest; st_end := e |} = (Ok m, {| st_data := rest; st_end := e |}).
Proof.
  intros Hu. unfold packWithPrefix. destruct (PackBuffer m buf) as [[err|] b]; cbn [fst]; [done|]. cbv zeta.
  destruct (MaxMsgSize <? len (wire m)) eqn:El; [done|]. intros E.
  assert (be_bytes 2 (len (wire m)) +:+ wire m = frame) as <- by congruence. clear E.
  unfold readTCPMsg. rewrite append_assoc, ReadFull_append by apply be_bytes_length.
  rewrite be_value_bytes by (unfold MaxMsgSize, len in *; change (256 ^ Z.of_nat 2) with 65536; lia).
  rewrite ReadFull_append by (unfold len; by rewrite Nat2Z.id). by rewrite Hu.
Qed.

Lemma readTCPMsg_shorter s m s' : readTCPMsg s = (Ok m, s') -> (String.length (st_data s') < String.length (st_data s))%nat.
Proof.
  unfold readTCPMsg, ReadFull. destruct (2 <=? String.length (st_data s))%nat eqn:E2; [|done]. cbn [st_data st_end].
  apply Nat.leb_le in E2. set (n := Z.to_nat _). destruct (n <=? String.length (str_drop 2 (st_data s)))%nat; [|done].
  destruct (Unpack _); [|done]. intros E. assert (s' = {| st_data := str_drop n (str_drop 2 (st_data s)); st_end := st_end s |}) as -> by congruence.
  cbn [st_data]. rewrite !length_str_drop. lia.
Qed.

Lemma tcp_messages_total fuel s : (String.length (st_data s) < fuel)%nat -> exists r, tcp_messages fuel s = Some r.
Proof.
  revert s. induction fuel as [|fuel IH]; intros s Hf; [lia|]. cbn [tcp_messages].
  destruct (readTCPMsg s) as [[req|err] s'] eqn:E; [|by eexists]. apply readTCPMsg_shorter in E.
  destruct (IH s') as ([l err] & ->); [lia|]. by eexists.
Qed.

(** C22. The loop over the messages of a connection ends.  For every stream the number of
    iterations is bounded by the number of bytes, and the result does not depend on how
    many more iterations are allowed. *)
Theorem tcp_serving_ends s : exists r, forall fuel, (String.length (st_data s) < fuel)%nat -> tcp_messages fuel s = Some r.
Proof.
  destruct (tcp_messages_total (S (String.length (st_data s))) s) as [r Hr]; [lia|]. exists r. intros fuel Hf.
  assert (forall k s r, tcp_messages k s = Some r -> forall fuel, (k <= fuel)%nat -> tcp_messages fuel s = Some r) as Hmono.
  { clear. induction k as [|k IH]; intros s r; [done|]. intros Hr [|fuel] Hf; [lia|]. revert Hr. cbn [tcp_messages].
    destruct (readTCPMsg s) as [[req|err] s']; [|done]. destruct (tcp_messages k s') as [[l err]|] eqn:E; [|done].
    intros [= <-]. by rewrite (IH _ _ E) by lia. }
  eapply Hmono; [exact Hr|lia].
Qed.

(** C23. Messages over TCP.  Packed messages that are written to a stream one after another
    are read from it one after another, the same messages in the same order, and nothing
    else; then the error at the end of the stream ends the loop. *)
Theorem tcp_stream_roundtrip ms frames buf e fuel :
  Forall (fun m => Unpack (wire m) = Ok m) ms ->
  Forall2 (fun m frame => packWithPrefix m buf = Ok frame) ms frames ->
  (length ms < fuel)%nat ->
  tcp_messages fuel {| st_data := concat_strings frames; st_end := e |} =
  Some (ms, ErrWrap "reading tcp message: %w" (ErrWrap "reading length: %w" e)).
Proof.
  intros Hu Hp. revert Hu fuel. induction Hp as [|m frame ms frames Hf Hp IH]; intros Hu [|fuel] Hl; simpl in Hl; [lia| |lia|];
    [by simpl|].
  apply Forall_cons in Hu as [Hm Hu]. cbn [tcp_messages concat_strings]. rewrite (readTCPMsg_frame m buf) by done.
  rewrite IH by (done || lia). done.
Qed.

End frames.

(** ** QUIC *)

Section quic.
Context `{Wm : MiekgWire} `{M : MiekgDNS}.

Lemma append_take_drop_prefix data buf : (2 <= String.length data)%nat ->
  str_take 2 (data +:+ buf) = str_take 2 data /\ str_drop 2 (data +:+ buf) = str_drop 2 data +:+ buf.
Proof. destruct data as [|a [|b data]]; simpl; [lia|lia|]. done. Qed.

(** What a QUIC message is made of.  A message of the announced length is unpacked from
    the whole buffer of the pool and not from the bytes that were received: after them
    come those which the buffer holds from an earlier message. *)
Theorem quic_unpacks_stale_bytes buf data :
  (DNSHeaderSize <= String.length data < String.length buf)%nat -> len data < 2 ^ 16 ->
  be_value (str_take 2 data) = len data - 2 ->
  readQUICMsg buf [(data, Some (ErrConst EOF))] =
  match Unpack (str_drop 2 data +:+ str_drop (String.length data) buf) with
  | Err err => Err (ErrWrap "unpacking quic message: %w" err)
  | Ok req => if validQUICMsg req then Ok req else Err ErrProtocol
  end.
Proof.
  intros [Hn Hb] Hlt Hv. unfold readQUICMsg. cbn [readAll String.length].
  assert ((0 =? String.length buf)%nat = false) as -> by (apply Nat.eqb_neq; lia). rewrite Nat.sub_0_r.
  assert (forall s n, (String.length s <= n)%nat -> str_take n s = s) as Htake.
  { induction s as [|c s IH]; intros [|n] Hl; simpl in *; try done; [lia|]. f_equal. apply IH. lia. }
  cbn [String.append]. rewrite Htake by lia. cbn [is_const]. rewrite bool_decide_true by done. unfold overwrite.
  assert ((String.length data <? DNSHeaderSize)%nat = false) as -> by (apply Nat.ltb_ge; lia).
  destruct (append_take_drop_prefix data (str_drop (String.length data) buf)) as [-> ->]; [unfold DNSHeaderSize in Hn; lia|].
  rewrite Hv. unfold len in *. unfold DNSHeaderSize in Hn. rewrite (Z.mod_small (Z.of_nat (String.length data) - 2)) by lia.
  by rewrite Z.eqb_refl.
Qed.

End quic.

(** ** Limits on requests *)

Inductive sema_op :=
  | SMsg (submit_err : option error)
  | SDone.

(** A semaphore with room is acquired; one without room is waited for in vain. *)
Definition acquire (used cap : nat) : option error :=
  if (used <? cap)%nat then None else Some (ErrConst "context deadline exceeded").

Definition sema_step (cap pipe : nat) (s : semas) (o : sema_op) : semas :=
  match o with
  | SMsg submit_err => (acceptTCPMsg (acquire (active_used s) cap) (acquire (pipe_used s) pipe) submit_err s).2
  | SDone => match running s with O => s | _ => task_done s end
  end.

Definition sema_run (cap pipe : nat) : semas -> list sema_op -> semas := foldl (sema_step cap pipe).

Definition no_semas : semas := {| active_used := 0; pipe_used := 0; running := 0 |}.

(** The limits hold, and every running request has its permits. *)
Lemma limits_hold cap pipe ops : let s := sema_run cap pipe no_semas ops in
  (running s <= active_used s <= cap)%nat /\ (running s = pipe_used s)%nat /\ (pipe_used s <= pipe)%nat.
Proof.
  simpl. unfold sema_run. assert (forall s, ((running s <= active_used s <= cap)%nat /\ (running s = pipe_used s)%nat /\ (pipe_used s <= pipe)%nat) ->
    forall o, (running (sema_step cap pipe s o) <= active_used (sema_step cap pipe s o) <= cap)%nat /\
      (running (sema_step cap pipe s o) = pipe_used (sema_step cap pipe s o))%nat /\ (pipe_used (sema_step cap pipe s o) <= pipe)%nat) as Hstep.
  { intros s (H1 & H2 & H3) [submit|]; simpl.
    - unfold acquire. destruct (active_used s <? cap)%nat eqn:Ea; simpl; [|lia]. apply Nat.ltb_lt in Ea.
      destruct (pipe_used s <? pipe)%nat eqn:Ep; simpl; [|lia]. apply Nat.ltb_lt in Ep.
      destruct submit; simpl; lia.
    - destruct (running s) eqn:Er; simpl; lia. }
  assert (forall l s, ((running s <= active_used s <= cap)%nat /\ (running s = pipe_used s)%nat /\ (pipe_used s <= pipe)%nat) ->
    let s' := foldl (sema_step cap pipe) s l in
    (running s' <= active_used s' <= cap)%nat /\ (running s' = pipe_used s')%nat /\ (pipe_used s' <= pipe)%nat) as Hall.
  { induction l as [|o l IH]; intros s Hs; simpl; [done|]. apply IH, Hstep, Hs. }
  apply (Hall ops no_semas). simpl. lia.
Qed.

Lemma leak_messages cap k a : (a + k <= cap)%nat -> (1 <= a)%nat ->
  sema_run cap 1 {| active_used := a; pipe_used := 1; running := 1 |} (replicate k (SMsg None)) =
  {| active_used := a + k; pipe_used := 1; running := 1 |}.
Proof.
  revert a. induction k as [|k IH]; intros a Hk Ha; [by rewrite Nat.add_0_r|]. cbn [replicate sema_run foldl sema_step].
  unfold acquire at 1. simpl active_used. rewrite (proj2 (Nat.ltb_lt a cap)) by lia. simpl.
  rewrite (IH (a + 1)%nat) by lia. f_equal. lia.
Qed.

(** A request that waits in vain for the limit of its connection takes a permit of the
    server and never gives it back: [acceptTCPMsg] returns nil, so that the deferred call
    does not release it.  One connection can so leave a server whose limit is [cap] with
    a single permit, when no request is running. *)
Theorem pipeline_timeout_leaks cap : (1 <= cap)%nat ->
  sema_run cap 1 no_semas ([SMsg None] ++ replicate (cap - 1) (SMsg None) ++ [SDone]) =
  {| active_used := cap - 1; pipe_used := 0; running := 0 |}.
Proof.
  intros Hc. unfold sema_run. rewrite !foldl_app. simpl. unfold acquire. rewrite (proj2 (Nat.ltb_lt 0 cap)) by lia. simpl.
  change (foldl (sema_step cap 1)) with (sema_run cap 1). rewrite leak_messages by lia. unfold task_done, release_active, release_pipe. simpl. f_equal. lia.
Qed.

Lemma pipeline_timeout_leaks_witness :
  sema_run 3 1 no_semas ([SMsg None] ++ replicate 2 (SMsg None) ++ [SDone]) =
  {| active_used := 2; pipe_used := 0; running := 0 |}.
Proof. apply (pipeline_timeout_leaks 3). lia. Defined.

(** ** DNS over HTTPS *)

Section https.
Context `{M : MiekgDNS} `{!MiekgDNSSpec} `{Ed : MiekgEdns} `{!MiekgEdnsSpec} `{T : MiekgTruncate} `{Wm : MiekgWire}.
Context (as_dns_error isNonCritical : error -> bool) (handler : Msg -> outcome (option error * list Msg)).
Context (rr_String : RR -> string) (hdr_String : RR_Header -> string) (ToUpper : string -> string).
Context (ParseUint16 StringToType StringToClass : string -> option Z).
Context (base64_url : string -> result error string) (msg_Pack : Msg -> result error string).
Context (json_Marshal : JSONMsg -> result error string).

Notation to_msg := (httpRequestToMsg ToUpper ParseUint16 StringToType StringToClass base64_url msg_Pack).
Notation serve := (ServeHTTP as_dns_error isNonCritical handler rr_String hdr_String ToUpper ParseUint16 StringToType
                     StringToClass base64_url msg_Pack json_Marshal).

(** What is answered over HTTPS.  A request whose path is one for DNS is answered with
    status 200, 400 or 500.  With 200 only if it carries a message that can be unpacked
    and to which there is a response; then the body is the last such response, normalised for an
    encrypted protocol, in the wire format or in JSON as the path and the parameter ct
    ask, and it may be kept for no longer than the TTL of any of its answers, if it is
    not an error. *)
Theorem doh_answer id rnd acq nonDNS r hr :
  (isDoH r).1.1 = true -> serve id rnd acq nonDNS r = Ret hr ->
  (hs_Status hr = 200 \/ hs_Status hr = 400 \/ hs_Status hr = 500) /\
  (hs_Status hr = 200 ->
   exists buf req l resp, to_msg id r = Ok buf /\ Unpack buf = Ok req /\
     serveDNS as_dns_error isNonCritical handler req = Ret l /\ last l = Some resp /\
     let resp' := normalizeTCP rnd ProtoDoH req resp in
     hs_ContentType hr = (isDoH r).2 /\
     Ok (hs_Body hr) = (if bool_decide ((isDoH r).2 = MimeTypeDoH) then msg_Pack resp'
                        else json_Marshal (DNSMsgToJSONMsg rr_String hdr_String resp')) /\
     forall age rr, hs_MaxAge hr = Some age -> rr ∈ m_Answer resp' ->
       m_Rcode resp' = RcodeSuccess \/ m_Rcode resp' = RcodeNameError -> age <= rh_Ttl (rr_Hdr rr) * second) /\
  (forall err, to_msg id r = Err err -> hs_Status hr = 400).
Proof.
  intros Hd. unfold ServeHTTP. rewrite Hd. unfold serveDoH.
  destruct (to_msg id r) as [buf|err] eqn:Em; [|intros [= <-]; simpl; split; [auto|]; split; [done|done]].
  destruct (Unpack buf) as [req|err] eqn:Eu; [|intros [= <-]; simpl; split; [auto|]; split; done].
  destruct acq as [err|]; [intros [= <-]; simpl; split; [auto|]; split; done|].
  destruct (serveDNS as_dns_error isNonCritical handler req) as [l|] eqn:Es; cbn [outcome_bind]; [|done].
  destruct (last l) as [resp|] eqn:El; [|intros [= <-]; simpl; split; [auto|]; split; done].
  unfold writeResponse. destruct (isDoH r) as [[isd isj] ct]. simpl in Hd. subst isd. cbn [negb snd fst].
  set (resp' := normalizeTCP rnd ProtoDoH req resp).
  assert (forall body, let hr := {| hs_Status := 200; hs_ContentType := ct; hs_MaxAge := Some (minimalTTL resp'); hs_Body := body |} in
    forall age rr, hs_MaxAge hr = Some age -> rr ∈ m_Answer resp' ->
      m_Rcode resp' = RcodeSuccess \/ m_Rcode resp' = RcodeNameError -> age <= rh_Ttl (rr_Hdr rr) * second) as Hage.
  { intros body hr0 age rr [= <-] Hr Hc. apply (proj2 (minimalTTL_bound resp')); auto. }
  destruct (bool_decide (ct = MimeTypeDoH)) eqn:Ect.
  - destruct (msg_Pack resp') as [body|err] eqn:Ep; cbn [result_bind]; intros [= <-]; cbn [hs_Status];
      (split; [auto|]); (split; [|done]); [|done].
    intros _. exists buf, req, l, resp. split_and!; try done. by apply (Hage body).
  - destruct (bool_decide (ct = MimeTypeJSON)) eqn:Ej; cbn [result_bind]; [|intros [= <-]; cbn [hs_Status http_error]; split; [auto|]; split; done].
    destruct (json_Marshal _) as [body|err] eqn:Ep; cbn [result_bind]; intros [= <-]; cbn [hs_Status];
      (split; [auto|]); (split; [|done]); [|done].
    intros _. exists buf, req, l, resp. split_and!; try done. by apply (Hage body).
Qed.

(** The message of a JSON request.  A request is refused if it has no name or a bad
    parameter; otherwise it becomes a query for this name, in the class and of the type
    that are given or by default for the addresses, with the checking-disabled and the DO
    bit as asked. *)
Lemma json_request id q m : jsonRequest ToUpper ParseUint16 StringToType StringToClass id q = Ok m ->
  values_Get q "name" <> EmptyString /\ m_RecursionDesired m = true /\ m_Response m = false /\
  (exists qt qc, m_Question m = [{| q_Name := Fqdn (values_Get q "name"); q_Qtype := qt; q_Qclass := qc |}] /\
     urlQueryParameterToUint16 ToUpper ParseUint16 q "type" TypeA StringToType = Ok qt /\
     urlQueryParameterToUint16 ToUpper ParseUint16 q "qc" ClassINET StringToClass = Ok qc) /\
  urlQueryParameterToBoolean q "cd" false = Ok (m_CheckingDisabled m) /\
  exists d sde, urlQueryParameterToBoolean q "do" false = Ok d /\ urlQueryParameterToBoolean q "sde" false = Ok sde /\
    (d = false -> sde = false -> m_Extra m = []) /\
    (d = true \/ sde = true -> exists opt, m_Extra m = [opt] /\ Do opt = d /\ UDPSize opt = MaxMsgSize /\
       opt_options opt = if sde then [EDNS0_EDE 0 EmptyString] else []).
Proof.
  unfold jsonRequest. destruct (bool_decide (values_Get q "name" = EmptyString)) eqn:En; [done|].
  apply bool_decide_eq_false in En. destruct (urlQueryParameterToUint16 _ _ q "type" _ _) as [qt|] eqn:Et; cbn [result_bind]; [|done].
  destruct (urlQueryParameterToUint16 _ _ q "qc" _ _) as [qc|] eqn:Ec; cbn [result_bind]; [|done].
  destruct (urlQueryParameterToBoolean q "cd" false) as [cd|] eqn:Ecd; cbn [result_bind]; [|done].
  destruct (urlQueryParameterToBoolean q "do" false) as [d|] eqn:Ed'; cbn [result_bind]; [|done].
  destruct (urlQueryParameterToBoolean q "sde" false) as [sde|] eqn:Esde; cbn [result_bind]; [|done].
  intros E. assert (m = setEDNSFromQuery (json_question id (values_Get q "name") qt qc cd) d sde) as -> by congruence. clear E.
  unfold setEDNSFromQuery. set (m0 := json_question _ _ _ _ _).
  destruct (negb d && negb sde) eqn:Eb.
  - split_and!; try done; [by exists qt, qc|]. exists d, sde. split_and!; try done.
    intros [-> | ->]; [done|by rewrite andb_false_r in Eb].
  - destruct (set_edns0 m0 MaxMsgSize d) as (opt & Ho1 & Ho2 & Ho3 & Ho4 & Ho5). rewrite Ho5.
    destruct sde; cbn [set_Extra m_Extra m0 json_question app].
    + split_and!; try done; [by exists qt, qc|]. exists d, true. split_and!; try done. intros _. eexists. split; [done|].
      split; [exact Ho4|]. split; [exact Ho3|]. change (opt_options opt ++ [EDNS0_EDE 0 EmptyString] = [EDNS0_EDE 0 EmptyString]).
      by rewrite Ho2.
    + split_and!; try done; [by exists qt, qc|]. exists d, false. split_and!; try done; [by intros -> _|].
      intros _. exists opt. by split_and!.
Qed.

End https.

(** ** Concrete inputs *)

#[local] Existing Instance ref_miekg.
#[local] Existing Instance ref_miekg_spec.

(** Two messages with their packed forms. *)
Definition small_msgs (s : string) : result error Msg :=
  if bool_decide (s = "request one!"%string) then Ok ecs_request
  else if HasPrefix s "response" then Ok (ecs_response 60 [])
  else Err (ErrConst "dns: overflow unpacking").

#[local] Instance small_wire : MiekgWire := {|
  msg_Len _ := 12;
  wire m := if m_Response m then "response"%string else "request one!"%string;
  PackBuffer m buf := (None, buf); Unpack := small_msgs |}.

Lemma tcp_stream_roundtrip_witness :
  exists frames, Forall2 (fun m frame => packWithPrefix m EmptyString = Ok frame) [ecs_request; ecs_response 60 []] frames /\
    tcp_messages 3 {| st_data := concat_strings frames; st_end := ErrConst EOF |} =
    Some ([ecs_request; ecs_response 60 []], ErrWrap "reading tcp message: %w" (ErrWrap "reading length: %w" (ErrConst EOF))).
Proof.
  exists [be_bytes 2 12 +:+ "request one!"; be_bytes 2 8 +:+ "response"].
  assert (Forall2 (fun m frame => packWithPrefix m EmptyString = Ok frame) [ecs_request; ecs_response 60 []]
    [be_bytes 2 12 +:+ "request one!"; be_bytes 2 8 +:+ "response"]) as Hf by (repeat constructor).
  split; [exact Hf|]. apply (tcp_stream_roundtrip _ _ EmptyString).
  - repeat constructor.
  - exact Hf.
  - simpl. lia.
Defined.

Lemma quic_unpacks_stale_bytes_witness :
  let data := be_bytes 2 14 +:+ "response 1 2 3" in
  readQUICMsg (zero_bytes 20) [(data, Some (ErrConst EOF))] =
  match Unpack (str_drop 2 data +:+ str_drop (String.length data) (zero_bytes 20)) with
  | Err err => Err (ErrWrap "unpacking quic message: %w" err)
  | Ok req => if validQUICMsg req then Ok req else Err ErrProtocol
  end.
Proof. intros data. apply quic_unpacks_stale_bytes; vm_compute; repeat constructor. Defined.

#[local] Instance https_edns : MiekgEdns := fun m size d => set_Extra m (m_Extra m ++ [newOPT size d]).
#[local] Instance https_edns_spec : MiekgEdnsSpec.
Proof. intros m size d. exists (newOPT size d). split_and!; try done. by destruct d. Qed.
#[local] Instance no_truncate : MiekgTruncate := fun m _ => m.

Definition a_get : http_request := {|
  hr_Method := "GET"; hr_Path := "/dns-query/dev1234";
  hr_Query := fun k => if bool_decide (k = "dns"%string) then ["request one!"%string] else [];
  hr_Body := fun _ => Err (ErrConst "no body") |}.

Definition serve_get : outcome http_response :=
  ServeHTTP (fun _ => false) (fun _ => false) (fun _ => Ret (None, [ecs_response 60 []]))
    (fun _ => EmptyString) (fun _ => EmptyString) id (fun _ => None) (fun _ => None) (fun _ => None) Ok
    (fun _ => Ok "response"%string) (fun _ => Err (ErrConst "no json")) 1 2 None None a_get.

Lemma doh_answer_witness :
  exists hr, serve_get = Ret hr /\ hs_Status hr = 200 /\ hs_ContentType hr = MimeTypeDoH /\ hs_Body hr = "response"%string.
Proof.
  assert (exists hr, serve_get = Ret hr /\ hs_Status hr = 200) as (hr & E & Hs).
  { eexists. split; [vm_compute; reflexivity|reflexivity]. }
  exists hr. split; [exact E|]. split; [exact Hs|].
  destruct (doh_answer (fun _ => false) (fun _ => false) (fun _ => Ret (None, [ecs_response 60 []]))
    (fun _ => EmptyString) (fun _ => EmptyString) id (fun _ => None) (fun _ => None) (fun _ => None) Ok
    (fun _ => Ok "response"%string) (fun _ => Err (ErrConst "no json")) 1 2 None None a_get hr eq_refl E) as (_ & H2 & _).
  destruct (H2 Hs) as (buf & req & l & resp & _ & _ & _ & _ & Hct & Hb & _). split; [exact Hct|].
  assert (Ok (hs_Body hr) = Ok "response"%string :> result error string) as Hb' by exact Hb. injection Hb' as ->. reflexivity.
Defined.
