(* ===== verification/BindToDevice.v ===== *)
(** Listeners bound to a network device: internal/bindtodevice (connindex_linux.go,
    chanlistener_linux.go, chanpacketconn_linux.go, manager_linux.go,
    interfacelistener_linux.go, the conversion of addresses of socket_linux.go).

    One socket listens on a whole device; its connections and datagrams are sent
    over channels to the listener of the narrowest subnet with the destination.
    The listeners and packet connections are in stores, because they are shared by
    the index and by the servers, and so are the buffers of datagrams, which go
    back to a pool when a response has been written.  The system calls, the network
    interfaces and the moment at which a timer fires are inputs; an operation that
    waits for a channel has no result. *)

From S2P Require Import Prelude GoStd Slices NetIP DnsMsg.

Open Scope Z_scope.

(** ** connindex_linux.go *)

(** [Addr.Compare]. *)
Definition Addr_Compare (a b : Addr) : comparison :=
  match BitLen a ?= BitLen b with
  | Eq =>
      match a, b with
      | Addr4 x, Addr4 y => x ?= y
      | Addr6 x zx, Addr6 y zy => match x ?= y with Eq => String.compare zx zy | c => c end
      | _, _ => Eq
      end
  | c => c
  end.

Definition subnetCompare (a b : Prefix) : comparison :=
  if p_bits b <? p_bits a then Lt
  else if p_bits a <? p_bits b then Gt
  else Addr_Compare (p_ip a) (p_ip b).

(** The subnet of a listener, which does not change, is kept with its pointer. *)
Record connIndex := {
  packetConns : list (Prefix * nat);
  listeners : list (Prefix * nat);
}.

Definition add_conn (format : string) (conns : list (Prefix * nat)) (c : Prefix * nat)
    : result error (list (Prefix * nat)) :=
  let '(newIdx, ok) := BinarySearchFunc (fun a b => subnetCompare a.1 b.1) conns c in
  if ok : bool then Err (ErrConst format) else Ok (slice_insert conns newIdx c).

Definition addPacketConn (idx : connIndex) (c : Prefix * nat) : result error connIndex :=
  let? conns := add_conn "packetconn channel for subnet %s already registered" (packetConns idx) c in
  Ok {| packetConns := conns; listeners := listeners idx |}.

Definition addListener (idx : connIndex) (l : Prefix * nat) : result error connIndex :=
  let? conns := add_conn "listener channel for subnet %s already registered" (listeners idx) l in
  Ok {| packetConns := packetConns idx; listeners := conns |}.

Definition first_containing (conns : list (Prefix * nat)) (laddr : Addr) : option nat :=
  snd <$> head (filter (fun c => prefix_contains c.1 laddr = true) conns).

Definition packetConn (idx : connIndex) (laddr : Addr) : option nat := first_containing (packetConns idx) laddr.
Definition listener (idx : connIndex) (laddr : Addr) : option nat := first_containing (listeners idx) laddr.

(** ** Channels *)

Definition ErrClosed : string := "use of closed network connection".
Definition ErrDeadlineExceeded : string := "i/o timeout".

(** A channel with its buffer. *)
Record chan (A : Type) := { ch_buf : list A; ch_cap : nat; ch_closed : bool }.
Arguments ch_buf {A} _.
Arguments ch_cap {A} _.
Arguments ch_closed {A} _.

Definition make_chan {A} (cap : nat) : chan A := {| ch_buf := []; ch_cap := cap; ch_closed := false |}.

(** [None] when the operation waits. *)
Definition chan_send {A} (c : chan A) (v : A) : option (chan A) :=
  if (length (ch_buf c) <? ch_cap c)%nat
  then Some {| ch_buf := ch_buf c ++ [v]; ch_cap := ch_cap c; ch_closed := ch_closed c |} else None.

Definition chan_receive {A} (c : chan A) : option (option A * chan A) :=
  match ch_buf c with
  | v :: vs => Some (Some v, {| ch_buf := vs; ch_cap := ch_cap c; ch_closed := ch_closed c |})
  | [] => if ch_closed c then Some (None, c) else None
  end.

Definition chan_close {A} (c : chan A) : chan A :=
  {| ch_buf := ch_buf c; ch_cap := ch_cap c; ch_closed := true |}.

(** ** Data *)

(** A connection, by its number, with its local address. *)
Record TCPConn := { tc_id : nat; tc_laddr : Addr }.

(** The body of a session is the first [ps_len] bytes of the buffer [ps_buf]. *)
Record packetSession := {
  ps_id : nat;
  ps_laddr : AddrPort;
  ps_raddr : AddrPort;
  ps_buf : nat;
  ps_len : nat;
  ps_respOOB : string;
}.

Record packetConnWriteReq := {
  wr_respCh : nat;
  wr_session : option packetSession;
  wr_raddr : option AddrPort;
  wr_deadline : Z;
  wr_body : string;
}.

(** The closed flag of a listener is the one of its channel: both are set in the
    same critical section. *)
Record chanPacketConn := {
  pc_sessions : chan packetSession;
  pc_iface : string;
  pc_readDeadline : Z;
  pc_writeDeadline : Z;
}.

Record interfaceListener := {
  il_conns : connIndex;
  il_ifaceName : string;
  il_port : Z;
  il_bodyPool : list nat;
  il_writeRequests : chan packetConnWriteReq;
}.

Record Manager := {
  m_ifaceListeners : gmap string interfaceListener;
  m_chanBufSize : nat;
  m_done : bool;
  (** the stores *)
  m_lsnrs : gmap nat (chan TCPConn);
  m_pconns : gmap nat chanPacketConn;
  m_bodies : gmap nat string;
  m_resps : gmap nat (Z * option error);
  m_next : nat;
}.

Definition NewManager (chanBufSize : nat) : Manager := {|
  m_ifaceListeners := ∅; m_chanBufSize := chanBufSize; m_done := false;
  m_lsnrs := ∅; m_pconns := ∅; m_bodies := ∅; m_resps := ∅; m_next := 0 |}.

Definition set_iface (m : Manager) (id : string) (l : interfaceListener) : Manager := {|
  m_ifaceListeners := <[id := l]> (m_ifaceListeners m); m_chanBufSize := m_chanBufSize m; m_done := m_done m;
  m_lsnrs := m_lsnrs m; m_pconns := m_pconns m; m_bodies := m_bodies m; m_resps := m_resps m; m_next := m_next m |}.

Definition set_lsnr (m : Manager) (p : nat) (l : chan TCPConn) : Manager := {|
  m_ifaceListeners := m_ifaceListeners m; m_chanBufSize := m_chanBufSize m; m_done := m_done m;
  m_lsnrs := <[p := l]> (m_lsnrs m); m_pconns := m_pconns m; m_bodies := m_bodies m; m_resps := m_resps m;
  m_next := m_next m |}.

Definition set_pconn (m : Manager) (p : nat) (c : chanPacketConn) : Manager := {|
  m_ifaceListeners := m_ifaceListeners m; m_chanBufSize := m_chanBufSize m; m_done := m_done m;
  m_lsnrs := m_lsnrs m; m_pconns := <[p := c]> (m_pconns m); m_bodies := m_bodies m; m_resps := m_resps m;
  m_next := m_next m |}.

Definition set_body (m : Manager) (p : nat) (b : string) : Manager := {|
  m_ifaceListeners := m_ifaceListeners m; m_chanBufSize := m_chanBufSize m; m_done := m_done m;
  m_lsnrs := m_lsnrs m; m_pconns := m_pconns m; m_bodies := <[p := b]> (m_bodies m); m_resps := m_resps m;
  m_next := m_next m |}.

Definition set_resp (m : Manager) (p : nat) (r : Z * option error) : Manager := {|
  m_ifaceListeners := m_ifaceListeners m; m_chanBufSize := m_chanBufSize m; m_done := m_done m;
  m_lsnrs := m_lsnrs m; m_pconns := m_pconns m; m_bodies := m_bodies m; m_resps := <[p := r]> (m_resps m);
  m_next := m_next m |}.

(** A new pointer. *)
Definition alloc (m : Manager) : nat * Manager :=
  (m_next m, {| m_ifaceListeners := m_ifaceListeners m; m_chanBufSize := m_chanBufSize m; m_done := m_done m;
    m_lsnrs := m_lsnrs m; m_pconns := m_pconns m; m_bodies := m_bodies m; m_resps := m_resps m; m_next := S (m_next m) |}).

Definition with_conns (l : interfaceListener) (idx : connIndex) : interfaceListener := {|
  il_conns := idx; il_ifaceName := il_ifaceName l; il_port := il_port l; il_bodyPool := il_bodyPool l;
  il_writeRequests := il_writeRequests l |}.

Definition with_pool (l : interfaceListener) (pool : list nat) : interfaceListener := {|
  il_conns := il_conns l; il_ifaceName := il_ifaceName l; il_port := il_port l; il_bodyPool := pool;
  il_writeRequests := il_writeRequests l |}.

Definition with_requests (l : interfaceListener) (reqs : chan packetConnWriteReq) : interfaceListener := {|
  il_conns := il_conns l; il_ifaceName := il_ifaceName l; il_port := il_port l; il_bodyPool := il_bodyPool l;
  il_writeRequests := reqs |}.

(** ** manager_linux.go *)

Section manager.
(** [InterfaceStorage.InterfaceByName], with the subnets of the interface;
    [unix.PktInfo4] and [unix.PktInfo6]. *)
Variable InterfaceByName : string -> result error (result error (list Prefix)).
Variable PktInfo4 : Z -> string.
Variable PktInfo6 : Z -> Z -> string.

Definition newInterfaceListener (m : Manager) (ifaceName : string) (port : Z) : interfaceListener := {|
  il_conns := {| packetConns := []; listeners := [] |}; il_ifaceName := ifaceName; il_port := port;
  il_bodyPool := []; il_writeRequests := make_chan (m_chanBufSize m) |}.

(** The listeners are visited in the order of their identifiers. *)
Fixpoint add_conflict (id ifaceName : string) (port : Z) (ls : list (string * interfaceListener)) : option error :=
  match ls with
  | [] => None
  | (lsnrID, lsnr) :: ls =>
      if bool_decide (lsnrID = id) then Some (ErrConst "listener for interface with id %q already exists: %s:%d")
      else if bool_decide (il_ifaceName lsnr = ifaceName) && (il_port lsnr =? port)
      then Some (ErrConst "listener for %s:%d already exists with id %q")
      else add_conflict id ifaceName port ls
  end.

Definition id_le (a b : string * interfaceListener) : Prop := String.leb a.1 b.1 = true.
#[global] Instance id_le_dec a b : Decision (id_le a b).
Proof. unfold id_le. apply _. Defined.

Definition m_Add (m : Manager) (id ifaceName : string) (port : Z) : option error * Manager :=
  let fail (err : error) := (Some (ErrWrap "adding interface listener with id %q: %w" err), m) in
  match InterfaceByName ifaceName with
  | Err err => fail (ErrWrap "looking up interface %q: %w" err)
  | Ok _ =>
      match add_conflict id ifaceName port (merge_sort id_le (map_to_list (m_ifaceListeners m))) with
      | Some err => fail err
      | None => (None, set_iface m id (newInterfaceListener m ifaceName port))
      end
  end.

Definition validateIfaceSubnet (ifaceName : string) (subnet : Prefix) : option error :=
  if negb (bool_decide (subnet = Masked subnet)) then Some (ErrConst "subnet not masked (expected %s)")
  else match InterfaceByName ifaceName with
  | Err err => Some err
  | Ok (Err err) => Some (ErrWrap "getting subnets: %w" err)
  | Ok (Ok subnets) =>
      if existsb (fun s => prefix_contains s (p_ip subnet) && (p_bits s <=? p_bits subnet)) subnets then None
      else Some (ErrConst "interface %s does not contain subnet %s")
  end.

(** The listener and the packet connection of the configuration. *)
Definition m_ListenConfig (m : Manager) (id : string) (subnet : Prefix) : result error (nat * nat) * Manager :=
  let fail (err : error) (m : Manager) :=
    (Err (ErrWrap "creating listen config for subnet %s and listener with id %q: %w" err), m) in
  match m_ifaceListeners m !! id with
  | None => fail (ErrConst "no interface listener found") m
  | Some l =>
      match validateIfaceSubnet (il_ifaceName l) subnet with
      | Some err => fail err m
      | None =>
          let '(lsnr, m1) := alloc m in
          match addListener (il_conns l) (subnet, lsnr) with
          | Err err => fail (ErrWrap "adding tcp conn: %w" err) m
          | Ok idx1 =>
              let m2 := set_iface (set_lsnr m1 lsnr (make_chan (m_chanBufSize m))) id (with_conns l idx1) in
              let '(pConn, m3) := alloc m2 in
              match addPacketConn idx1 (subnet, pConn) with
              | Err err => fail (ErrWrap "adding udp conn: %w" err) m2
              | Ok idx2 =>
                  (Ok (lsnr, pConn),
                   set_iface (set_pconn m3 pConn {| pc_sessions := make_chan (m_chanBufSize m); pc_iface := id;
                                                    pc_readDeadline := 0; pc_writeDeadline := 0 |})
                     id (with_conns l idx2))
              end
          end
      end
  end.

Definition m_Shutdown (m : Manager) : option error * Manager :=
  if m_done m then (Some (ErrConst ErrClosed), m)
  else (None, {| m_ifaceListeners := m_ifaceListeners m; m_chanBufSize := m_chanBufSize m; m_done := true;
    m_lsnrs := m_lsnrs m; m_pconns := m_pconns m; m_bodies := m_bodies m; m_resps := m_resps m; m_next := m_next m |}).

(** ** chanlistener_linux.go *)

Definition cl_Accept (l : chan TCPConn) : option (result error TCPConn * chan TCPConn) :=
  '(r, l) ← chan_receive l;
  Some (match r with
        | Some c => Ok c
        | None => Err (ErrWrap "bindtodevice: %s %s: %s: %w" (ErrConst ErrClosed))
        end, l).

Definition cl_Close (l : chan TCPConn) : option error * chan TCPConn :=
  if ch_closed l then (Some (ErrWrap "bindtodevice: %s %s: %s: %w" (ErrConst ErrClosed)), l)
  else (None, chan_close l).

(** While [send] waits, it holds the lock of the listener. *)
Definition cl_send (l : chan TCPConn) (conn : TCPConn) : option (bool * chan TCPConn) :=
  if ch_closed l then Some (false, l) else l ← chan_send l conn; Some (true, l).

(** ** interfacelistener_linux.go: connections *)

(** What becomes of a connection: it is sent to the listener at a pointer, it is
    not sent because that listener is closed, or there is no listener, and it is
    closed. *)
Inductive conn_fate := ConnSent (p : nat) | ConnChannelClosed (p : nat) | ConnClosed.

Definition processConn (m : Manager) (id : string) (conn : TCPConn) : option (conn_fate * Manager) :=
  l ← m_ifaceListeners m !! id;
  match listener (il_conns l) (tc_laddr conn) with
  | None => Some (ConnClosed, m)
  | Some p =>
      lsnr ← m_lsnrs m !! p;
      '(ok, lsnr) ← cl_send lsnr conn;
      Some (if ok : bool then ConnSent p else ConnChannelClosed p, set_lsnr m p lsnr)
  end.

(** ** chanpacketconn_linux.go *)

(** [Some false]: no timer; [Some true]: a timer that has not fired at [now]. *)
Definition timerFromDeadline (now deadline : Z) : result error bool :=
  if deadline =? 0 then Ok false
  else if deadline - now <=? 0 then Err (ErrConst ErrDeadlineExceeded)
  else Ok true.

(** [fires] says that the timer fires before the channel is ready. *)
Definition receiveWithTimer {A} (c : chan A) (timer fires : bool) : option (result error A * chan A) :=
  if timer && fires then Some (Err (ErrConst ErrDeadlineExceeded), c)
  else '(r, c) ← chan_receive c;
       Some (match r with Some v => Ok v | None => Err (ErrConst ErrClosed) end, c).

Definition with_sessions (c : chanPacketConn) (ch : chan packetSession) : chanPacketConn := {|
  pc_sessions := ch; pc_iface := pc_iface c; pc_readDeadline := pc_readDeadline c;
  pc_writeDeadline := pc_writeDeadline c |}.

Definition pc_Close (c : chanPacketConn) : option error * chanPacketConn :=
  if ch_closed (pc_sessions c) then (Some (ErrWrap "bindtodevice: %s %s: %s: %w" (ErrConst ErrClosed)), c)
  else (None, with_sessions c (chan_close (pc_sessions c))).

Definition pc_SetDeadline (c : chanPacketConn) (t : Z) : chanPacketConn := {|
  pc_sessions := pc_sessions c; pc_iface := pc_iface c; pc_readDeadline := t; pc_writeDeadline := t |}.
Definition pc_SetReadDeadline (c : chanPacketConn) (t : Z) : chanPacketConn := {|
  pc_sessions := pc_sessions c; pc_iface := pc_iface c; pc_readDeadline := t;
  pc_writeDeadline := pc_writeDeadline c |}.
Definition pc_SetWriteDeadline (c : chanPacketConn) (t : Z) : chanPacketConn := {|
  pc_sessions := pc_sessions c; pc_iface := pc_iface c; pc_readDeadline := pc_readDeadline c;
  pc_writeDeadline := t |}.

(** The bytes that are copied to a slice of [size] bytes, and the session. *)
Definition readFromSession (m : Manager) (now : Z) (p : nat) (size : nat) (fires : bool)
    : option (result error (string * packetSession) * Manager) :=
  c ← m_pconns m !! p;
  let fail (err : error) (m : Manager) := Some (Err (ErrWrap "bindtodevice: %s %s: %s: %w" err), m) in
  match timerFromDeadline now (pc_readDeadline c) with
  | Err err => fail (ErrWrap "setting deadline: %w" err) m
  | Ok timer =>
      '(r, ch) ← receiveWithTimer (pc_sessions c) timer fires;
      let m := set_pconn m p (with_sessions c ch) in
      match r with
      | Err err => fail (ErrWrap "receiving: %w" err) m
      | Ok sess =>
          Some (Ok (str_take size (str_take (ps_len sess) (default EmptyString (m_bodies m !! ps_buf sess))), sess), m)
      end
  end.

(** The first half of [writeToSession]: the request is sent.  The result is the
    response channel, or the error. *)
Definition writeToSession_send (m : Manager) (now : Z) (p : nat) (b : string) (s : option packetSession)
    (raddr : option AddrPort) (fires : bool) : option (result error nat * Manager) :=
  c ← m_pconns m !! p;
  l ← m_ifaceListeners m !! pc_iface c;
  let fail (err : error) := Some (Err (ErrWrap "bindtodevice: %s %s: %s: %w" err), m) in
  match timerFromDeadline now (pc_writeDeadline c) with
  | Err err => fail (ErrWrap "setting deadline: %w" err)
  | Ok timer =>
      if timer && fires then fail (ErrWrap "sending write request: %w" (ErrConst ErrDeadlineExceeded))
      else
        let '(resp, m) := alloc m in
        ch ← chan_send (il_writeRequests l)
               {| wr_respCh := resp; wr_session := s; wr_raddr := raddr; wr_deadline := pc_writeDeadline c; wr_body := b |};
        Some (Ok resp, set_iface m (pc_iface c) (with_requests l ch))
  end.

(** The second half: the response is received, or the timer fires. *)
Definition writeToSession_receive (m : Manager) (resp : nat) (fires : bool) : option (Z * option error) :=
  if fires then
    Some (0, Some (ErrWrap "bindtodevice: %s %s: %s: %w"
      (ErrWrap "receiving write response: %w" (ErrConst ErrDeadlineExceeded))))
  else m_resps m !! resp.

Definition pc_send (c : chanPacketConn) (sess : packetSession) : option (bool * chanPacketConn) :=
  if ch_closed (pc_sessions c) then Some (false, c)
  else ch ← chan_send (pc_sessions c) sess; Some (true, with_sessions c ch).

(** ** socket_linux.go *)

Inductive Sockaddr := SockaddrInet4 (addr port : Z) | SockaddrInet6 (addr port zoneID : Z) | SockaddrOther.

Definition sockAddrData (sockAddr : Sockaddr) : result error (AddrPort * string) :=
  match sockAddr with
  | SockaddrInet4 addr port => Ok ({| ap_addr := Addr4 addr; ap_port := port |}, PktInfo4 addr)
  | SockaddrInet6 addr port zoneID =>
      Ok ({| ap_addr := Addr6 addr EmptyString; ap_port := port |}, PktInfo6 addr zoneID)
  | SockaddrOther => Err (ErrConst "bad orig dst sockaddr type %T")
  end.

(** What [ReadMsgUDP] returns: the datagram, the remote address, and the parsed
    control messages, each with its original destination. *)
Definition msg_read : Type :=
  result error (string * AddrPort * result error (list (result error Sockaddr))).

(** The new content of the buffer, and the session. *)
Definition readPacketSession (id : nat) (read : msg_read) (buf : nat) (body : string)
    : string * result error packetSession :=
  match read with
  | Err err => (body, Err (ErrWrap "reading: %w" err))
  | Ok (data, raddr, ctrlMsgs) =>
      let n := Nat.min (String.length data) (String.length body) in
      let body := str_take n data +:+ str_drop n body in
      (body,
       let? ctrlMsgs := annotate "parsing ctrl messages: %w" ctrlMsgs in
       match ctrlMsgs with
       | [ctrlMsg] =>
           let? origDstSockAddr := annotate "parsing orig dst: %w" ctrlMsg in
           let? orig := sockAddrData origDstSockAddr in
           Ok {| ps_id := id; ps_laddr := orig.1; ps_raddr := raddr; ps_buf := buf; ps_len := n;
                 ps_respOOB := orig.2 |}
       | _ => Err (ErrConst "expected 1 ctrl message, got %d")
       end)
  end.

(** ** interfacelistener_linux.go: datagrams *)

Definition DefaultMsgSize : nat := 4096.

Fixpoint zero_bytes (n : nat) : string :=
  match n with O => EmptyString | S n => String (ascii_of_nat 0) (zero_bytes n) end.

(** The buffer at the position [pick] of the pool, or a new one. *)
Definition pool_Get (m : Manager) (id : string) (l : interfaceListener) (pick : nat) : nat * interfaceListener * Manager :=
  match il_bodyPool l !! pick with
  | Some b => let l := with_pool l (delete pick (il_bodyPool l)) in (b, l, set_iface m id l)
  | None => let '(b, m) := alloc m in (b, l, set_body m b (zero_bytes DefaultMsgSize))
  end.

Definition pool_Put (m : Manager) (id : string) (b : nat) : Manager :=
  match m_ifaceListeners m !! id with
  | Some l => set_iface m id (with_pool l (b :: il_bodyPool l))
  | None => m
  end.

(** The error, and the packet connection to which the session was sent. *)
Definition readUDP (m : Manager) (id : string) (read : msg_read) (pick : nat)
    : option (option error * option (nat * packetSession) * Manager) :=
  l ← m_ifaceListeners m !! id;
  let '(buf, l, m) := pool_Get m id l pick in
  let '(sid, m) := alloc m in
  let '(body, res) := readPacketSession sid read buf (default EmptyString (m_bodies m !! buf)) in
  let m := set_body m buf body in
  match res with
  | Err err => Some (Some (ErrWrap "reading session: %w" err), None, pool_Put m id buf)
  | Ok sess =>
      match packetConn (il_conns l) (ap_addr (ps_laddr sess)) with
      | None => Some (None, None, pool_Put m id buf)
      | Some p =>
          c ← m_pconns m !! p;
          '(ok, c) ← pc_send c sess;
          Some (None, if ok : bool then Some (p, sess) else None,
                if ok then set_pconn m p c else pool_Put (set_pconn m p c) id buf)
      end
  end.

(** What the system calls of [writeUDP] return: the errors of setting and of
    resetting the deadline, and the result of the write. *)
Record write_calls := { wc_set : option error; wc_write : Z * option error; wc_reset : option error }.

(** [errors.WithDeferred]. *)
Definition WithDeferred_opt (returned deferred : option error) : option error :=
  match returned, deferred with
  | e, None => e
  | None, Some d => Some (ErrWrap "deferred: %w" d)
  | Some e, Some d => Some (ErrJoin [e; d])
  end.

(** The next request is handled; what is written to the socket is the
    destination, the out-of-band data and the body. *)
Definition writeUDP (m : Manager) (id : string) (calls : write_calls)
    : option (option (option AddrPort * string * string) * Manager) :=
  l ← m_ifaceListeners m !! id;
  '(r, ch) ← chan_receive (il_writeRequests l);
  req ← r;
  let m := set_iface m id (with_requests l ch) in
  let release m := match wr_session req with Some s => pool_Put m id (ps_buf s) | None => m end in
  match wc_set calls with
  | Some err => Some (None, release (set_resp m (wr_respCh req) (0, Some err)))
  | None =>
      let sent :=
        match wr_session req with
        | Some s => (Some (ps_raddr s), ps_respOOB s, wr_body req)
        | None => (wr_raddr req, EmptyString, wr_body req)
        end in
      let resp := (fst (wc_write calls), WithDeferred_opt (snd (wc_write calls)) (wc_reset calls)) in
      Some (Some sent, set_resp (release m) (wr_respCh req) resp)
  end.

End manager.

(** * Facts *)

(** ** The order of subnets *)

#[export] Instance subnet_ordered : Ordered Prefix := subnetCompare.

Definition addr_key (a : Addr) : Z * (Z * string) :=
  match a with
  | AddrZero => (0, (0, EmptyString))
  | Addr4 x => (32, (x, EmptyString))
  | Addr6 x z => (128, (x, z))
  end.

Lemma Addr_Compare_key a b : Addr_Compare a b = cmp (addr_key a) (addr_key b).
Proof.
  destruct a as [|x|x zx], b as [|y|y zy]; try done;
    cbv [Addr_Compare addr_key cmp prod_ordered Z_ordered string_ordered fst snd BitLen]; cbn; by destruct (x ?= y).
Qed.

#[export] Instance subnet_ordered_spec : OrderedSpec Prefix.
Proof.
  refine (keyed_ordered_spec (fun p => (- p_bits p, addr_key (p_ip p))) _ _).
  - intros [a x] [b y]. cbn. intros [= Hb Ha]. f_equal; [|lia].
    destruct a, b; cbn in Ha; congruence.
  - intros a b. unfold cmp at 1, subnet_ordered, subnetCompare. rewrite Addr_Compare_key.
    change (cmp (- p_bits a, addr_key (p_ip a)) (- p_bits b, addr_key (p_ip b))) with
      (match - p_bits a ?= - p_bits b with Eq => cmp (addr_key (p_ip a)) (addr_key (p_ip b)) | c => c end).
    destruct (Z.compare_spec (- p_bits a) (- p_bits b)) as [E|E|E].
    + by rewrite !(proj2 (Z.ltb_ge _ _)) by lia.
    + by rewrite (proj2 (Z.ltb_lt _ _)) by lia.
    + rewrite (proj2 (Z.ltb_ge _ _)) by lia. by rewrite (proj2 (Z.ltb_lt _ _)) by lia.
Qed.

(** ** The index *)

(** A subnet as [validateIfaceSubnet] lets it pass. *)
Definition subnet_ok (p : Prefix) : Prop := addr_prefix (p_ip p) (p_bits p) = Some p /\ IsValid (p_ip p) = true /\ addr_ok (p_ip p).

Lemma subnet_ok_bits p : subnet_ok p -> 0 <= p_bits p <= BitLen (p_ip p).
Proof.
  intros (E & Hv & _). unfold addr_prefix in E. destruct (p_bits p <? 0) eqn:Eb; [done|]. bool_simp.
  destruct p as [[|x|x z] b]; cbn in *; [done| |]; destruct (_ <? b) eqn:El; try done; bool_simp; lia.
Qed.

(** Two subnets of the same size that have an address in common are the same. *)
Lemma subnet_unique p q ip : subnet_ok p -> subnet_ok q -> addr_ok ip -> p_bits p = p_bits q ->
  prefix_contains p ip = true -> prefix_contains q ip = true -> p = q.
Proof.
  intros Hp Hq Hip Eb Cp Cq. pose proof (subnet_ok_bits p Hp). pose proof (subnet_ok_bits q Hq).
  destruct Hp as (Ep & _ & Op), Hq as (Eq & _ & Oq).
  apply prefix_contains_spec in Cp as (_ & _ & Sp); [|done|done|lia].
  apply prefix_contains_spec in Cq as (_ & _ & Sq); [|done|done|lia].
  assert (same_network (p_ip p) (p_ip q) (p_bits p)) as Hs.
  { rewrite Eb in Sp |- *. destruct (p_ip p), (p_ip q), ip; cbn in *; try done; congruence. }
  assert (addr_prefix (p_ip p) (p_bits p) = addr_prefix (p_ip q) (p_bits p)) as E.
  { destruct (p_ip p) as [|x|x zx] eqn:Ex, (p_ip q) as [|y|y zy] eqn:Ey; try done.
    - apply addr_prefix_4; cbn in *; try done; lia.
    - apply addr_prefix_6; cbn in *; try done; lia. }
  rewrite Ep, Eb, Eq in E. congruence.
Qed.

Record conns_ok (conns : list (Prefix * nat)) : Prop := {
  conns_sorted : StronglySorted lt_key conns.*1;
  conns_subnets : Forall (fun c => subnet_ok c.1) conns;
}.

Lemma add_conn_ok format conns c : conns_ok conns -> subnet_ok c.1 ->
  match add_conn format conns c with
  | Ok conns' => c.1 ∉ conns.*1 /\ conns_ok conns' /\ (forall d, d ∈ conns' <-> d = c \/ d ∈ conns)
  | Err _ => c.1 ∈ conns.*1
  end.
Proof.
  intros [Hs Hf] Hc. unfold add_conn.
  change subnetCompare with (cmp (K := Prefix)).
  rewrite (BinarySearchFunc_map fst (cmp (K := Prefix)) conns c).
  destruct (BinarySearchFunc_spec conns.*1 c.1 Hs) as (i & has & -> & Hsp & _ & Hhas).
  destruct has; [by apply Hhas|]. assert (c.1 ∉ conns.*1) as Hn by (rewrite <- Hhas; done).
  split; [done|]. split; [|intros d; apply elem_of_slice_insert]. split.
  - rewrite fmap_slice_insert. by apply slice_insert_sorted.
  - apply Forall_forall. intros d [->|Hd]%elem_of_slice_insert; [done|].
    rewrite Forall_forall in Hf. by apply Hf.
Qed.

Lemma lt_key_bits p q : lt_key p q -> p_bits q <= p_bits p.
Proof.
  unfold lt_key, cmp, subnet_ordered, subnetCompare. destruct (p_bits q <? p_bits p) eqn:E1; bool_simp; [lia|].
  destruct (p_bits p <? p_bits q) eqn:E2; bool_simp; [done|lia].
Qed.

(** The connections of an index, as the abstract longest-prefix match. *)
Definition longest_match (conns : list (Prefix * nat)) (laddr : Addr) (p : nat) : Prop :=
  exists s, (s, p) ∈ conns /\ prefix_contains s laddr = true /\
    forall s' p', (s', p') ∈ conns -> prefix_contains s' laddr = true -> p_bits s' <= p_bits s.

Lemma first_containing_longest conns laddr p : conns_ok conns -> addr_ok laddr ->
  first_containing conns laddr = Some p <-> longest_match conns laddr p.
Proof.
  intros [Hs Hf] Ha. unfold first_containing.
  assert (forall c, head (filter (fun c => prefix_contains c.1 laddr = true) conns) = Some c ->
    c ∈ conns /\ prefix_contains c.1 laddr = true /\
    forall s' p', (s', p') ∈ conns -> prefix_contains s' laddr = true -> p_bits s' <= p_bits c.1) as Hhead.
  { clear Hf. induction conns as [|d conns IH]; [done|]. intros c. rewrite fmap_cons in Hs.
    apply StronglySorted_cons in Hs as [Hd Hs]. rewrite filter_cons. destruct (decide _) as [Hd'|Hd'].
    - intros [= <-]. split_and!; [left|done|]. intros s' p' [<-|Hin]%elem_of_cons _; [cbn; lia|].
      apply lt_key_bits. rewrite Forall_forall in Hd. apply Hd. apply list_elem_of_fmap. by exists (s', p').
    - intros Hc. destruct (IH Hs c Hc) as (H1 & H2 & H3). split_and!; [by right|done|].
      intros s' p' [<-|Hin]%elem_of_cons Hs'; [done|]. by eapply H3. }
  split.
  - destruct (head _) as [[s q]|] eqn:E; [|done]. intros [= ->]. destruct (Hhead _ eq_refl) as (H1 & H2 & H3).
    by exists s.
  - intros (s & Hin & Hc & Hmax). destruct (head (filter _ conns)) as [[s' q]|] eqn:E.
    2:{ destruct (filter (fun c => prefix_contains c.1 laddr = true) conns) as [|] eqn:Ef; [|done].
        apply (filter_nil_not_elem_of _ _ (s, p)) in Ef; [|done]. done. }
    destruct (Hhead _ eq_refl) as (H1 & H2 & H3). cbn in *. f_equal. rewrite Forall_forall in Hf.
    assert (s' = s) as ->.
    { apply (subnet_unique _ _ laddr); [by apply (Hf _ H1)|by apply (Hf _ Hin)|done| |done|done].
      pose proof (H3 _ _ Hin Hc). pose proof (Hmax _ _ H1 H2). lia. }
    apply list_elem_of_lookup in H1 as [i Hi], Hin as [j Hj].
    destruct (decide (i = j)) as [->|Hne]; [congruence|]. exfalso.
    assert (conns.*1 !! i = Some s) as Hi' by (rewrite list_lookup_fmap, Hi; done).
    assert (conns.*1 !! j = Some s) as Hj' by (rewrite list_lookup_fmap, Hj; done).
    apply (lt_key_irrefl s). destruct (decide (i < j)%nat).
    + by apply (StronglySorted_lookup_lt lt_key conns.*1 i j).
    + apply (StronglySorted_lookup_lt lt_key conns.*1 j i); [done|lia|done|done].
Qed.

(** ** The system

    The calls of the servers and the goroutines of the manager, one at a time.  A
    server responds to a session at most once: the sessions that it has read and
    not yet responded to are held.  The logs record the connections that are sent
    to a listener and accepted, and the datagrams that are sent to a packet
    connection and read. *)

#[export] Instance AddrPort_eq : EqDecision AddrPort := _.
#[export] Instance packetSession_eq_dec : EqDecision packetSession.
Proof. solve_decision. Defined.

(** With the datagram, the packet connections among which its destination was
    looked up. *)
Record sent_datagram := {
  sd_id : string;
  sd_conn : nat;
  sd_session : packetSession;
  sd_data : string;
  sd_conns : list (Prefix * nat);
}.
Record read_datagram := { rd_conn : nat; rd_size : nat; rd_data : string; rd_session : packetSession }.

Record sys := {
  sy_m : Manager;
  sy_held : list packetSession;
  sy_routed : list (nat * TCPConn);
  sy_accepted : list (nat * TCPConn);
  sy_sent : list sent_datagram;
  sy_read : list read_datagram;
}.

Definition sys0 (chanBufSize : nat) : sys :=
  {| sy_m := NewManager chanBufSize; sy_held := []; sy_routed := []; sy_accepted := []; sy_sent := []; sy_read := [] |}.

Definition with_m (s : sys) (m : Manager) : sys :=
  {| sy_m := m; sy_held := sy_held s; sy_routed := sy_routed s; sy_accepted := sy_accepted s; sy_sent := sy_sent s;
     sy_read := sy_read s |}.

Inductive event :=
  | EAdd (id ifaceName : string) (port : Z)
  | EListen (id : string) (subnet : Prefix)
  | EConn (id : string) (conn : TCPConn)
  | EAccept (p : nat)
  | ECloseListener (p : nat)
  | ERead (id : string) (read : msg_read) (pick : nat)
  | EReadSession (now : Z) (p size : nat) (fires : bool)
  | EWrite (now : Z) (p : nat) (b : string) (sess : packetSession) (fires : bool)
  | EWriteUDP (id : string) (calls : write_calls)
  | EClosePacketConn (p : nat)
  | ESetDeadline (p : nat) (t : Z)
  | EShutdown.

Section system.
Variable InterfaceByName : string -> result error (result error (list Prefix)).
Variable PktInfo4 : Z -> string.
Variable PktInfo6 : Z -> Z -> string.

Definition datagram_of (read : msg_read) : string :=
  match read with Ok (data, _, _) => data | Err _ => EmptyString end.

Definition new_sent (m : Manager) (id : string) (p : nat) (sess : packetSession) (read : msg_read) : sent_datagram := {|
  sd_id := id; sd_conn := p; sd_session := sess; sd_data := datagram_of read;
  sd_conns := from_option (fun l => packetConns (il_conns l)) [] (m_ifaceListeners m !! id) |}.

Definition bd_exec (s : sys) (ev : event) : option sys :=
  let m := sy_m s in
  match ev with
  | EAdd id ifaceName port => Some (with_m s (m_Add InterfaceByName m id ifaceName port).2)
  | EListen id subnet => Some (with_m s (m_ListenConfig InterfaceByName m id subnet).2)
  | EConn id conn =>
      '(fate, m) ← processConn m id conn;
      Some {| sy_m := m; sy_held := sy_held s;
              sy_routed := match fate with ConnSent p => sy_routed s ++ [(p, conn)] | _ => sy_routed s end;
              sy_accepted := sy_accepted s; sy_sent := sy_sent s; sy_read := sy_read s |}
  | EAccept p =>
      l ← m_lsnrs m !! p;
      '(r, l) ← cl_Accept l;
      Some {| sy_m := set_lsnr m p l; sy_held := sy_held s; sy_routed := sy_routed s;
              sy_accepted := match r with Ok c => sy_accepted s ++ [(p, c)] | Err _ => sy_accepted s end;
              sy_sent := sy_sent s; sy_read := sy_read s |}
  | ECloseListener p => l ← m_lsnrs m !! p; Some (with_m s (set_lsnr m p (cl_Close l).2))
  | ERead id read pick =>
      let m0 := m in
      '(_, sent, m) ← readUDP PktInfo4 PktInfo6 m id read pick;
      Some {| sy_m := m; sy_held := sy_held s; sy_routed := sy_routed s; sy_accepted := sy_accepted s;
              sy_sent := match sent with
                         | Some (p, sess) =>
                             sy_sent s ++ [new_sent m0 id p sess read]
                         | None => sy_sent s
                         end;
              sy_read := sy_read s |}
  | EReadSession now p size fires =>
      '(r, m) ← readFromSession m now p size fires;
      Some (match r with
            | Ok (data, sess) =>
                {| sy_m := m; sy_held := sess :: sy_held s; sy_routed := sy_routed s; sy_accepted := sy_accepted s;
                   sy_sent := sy_sent s;
                   sy_read := sy_read s ++ [{| rd_conn := p; rd_size := size; rd_data := data; rd_session := sess |}] |}
            | Err _ => with_m s m
            end)
  | EWrite now p b sess fires =>
      if bool_decide (sess ∈ sy_held s) then
        '(r, m) ← writeToSession_send m now p b (Some sess) None fires;
        Some (match r with
              | Ok _ =>
                  {| sy_m := m; sy_held := filter (fun h => h <> sess) (sy_held s); sy_routed := sy_routed s;
                     sy_accepted := sy_accepted s; sy_sent := sy_sent s; sy_read := sy_read s |}
              | Err _ => with_m s m
              end)
      else None
  | EWriteUDP id calls => '(_, m) ← writeUDP m id calls; Some (with_m s m)
  | EClosePacketConn p => c ← m_pconns m !! p; Some (with_m s (set_pconn m p (pc_Close c).2))
  | ESetDeadline p t => c ← m_pconns m !! p; Some (with_m s (set_pconn m p (pc_SetDeadline c t)))
  | EShutdown => Some (with_m s (m_Shutdown m).2)
  end.

Fixpoint bd_run (s : sys) (evs : list event) : option sys :=
  match evs with
  | [] => Some s
  | ev :: evs => s ← bd_exec s ev; bd_run s evs
  end.

(** The inputs are in the ranges of their types. *)
Definition event_ok (ev : event) : Prop :=
  match ev with
  | EListen _ subnet => addr_ok (p_ip subnet)
  | _ => True
  end.

(** *** Connections and their order *)

Record idx_inv (m : Manager) : Prop := {
  inv_conns id l : m_ifaceListeners m !! id = Some l ->
    conns_ok (packetConns (il_conns l)) /\ conns_ok (listeners (il_conns l)) /\
    (forall c, c ∈ packetConns (il_conns l) -> is_Some (m_pconns m !! c.2)) /\
    (forall c, c ∈ listeners (il_conns l) -> is_Some (m_lsnrs m !! c.2));
  inv_ptrs p : (m_next m <= p)%nat -> m_lsnrs m !! p = None /\ m_pconns m !! p = None /\ m_bodies m !! p = None;
}.

(** A change that keeps the index of every interface and forgets no pointer. *)
Lemma idx_inv_update m m' :
  idx_inv m -> (m_next m <= m_next m')%nat ->
  (forall id l', m_ifaceListeners m' !! id = Some l' ->
     il_conns l' = {| packetConns := []; listeners := [] |} \/
     exists l, m_ifaceListeners m !! id = Some l /\ il_conns l' = il_conns l) ->
  (forall p, is_Some (m_pconns m !! p) -> is_Some (m_pconns m' !! p)) ->
  (forall p, is_Some (m_lsnrs m !! p) -> is_Some (m_lsnrs m' !! p)) ->
  (forall p, (m_next m' <= p)%nat -> m_lsnrs m' !! p = None /\ m_pconns m' !! p = None /\ m_bodies m' !! p = None) ->
  idx_inv m'.
Proof.
  intros [Hc Hp] Hn Hif Hpc Hls Hptr. split; [|done]. intros id l' E.
  destruct (Hif id l' E) as [-> | (l & El & ->)].
  - cbn. split_and!; [by split; constructor..| |]; intros c []%elem_of_nil.
  - destruct (Hc id l El) as (H1 & H2 & H3 & H4). split_and!; [done|done| |]; intros c Hin; [apply Hpc, H3|apply Hls, H4]; done.
Qed.

Lemma validateIfaceSubnet_ok iface subnet :
  validateIfaceSubnet InterfaceByName iface subnet = None -> addr_ok (p_ip subnet) -> subnet_ok subnet.
Proof.
  unfold validateIfaceSubnet. intros E Ha. destruct (bool_decide (subnet = Masked subnet)) eqn:Em; [|done].
  apply bool_decide_eq_true in Em. cbn [negb] in E. destruct (InterfaceByName iface) as [[subnets|]|]; [|done..].
  destruct (existsb _ subnets) eqn:Ee; [|done]. apply existsb_exists in Ee as (s & _ & [Hs _]%andb_prop).
  assert (IsValid (p_ip subnet) = true) as Hv.
  { unfold prefix_contains in Hs. destruct (p_ip subnet); [|done..]. destruct (_ || _), (p_ip s); done. }
  split; [|done]. unfold Masked in Em. destruct (addr_prefix _ _) as [q|] eqn:E'; [by rewrite Em at 1|].
  cbn in Em. rewrite Em in Hv. done.
Qed.

Lemma ListenConfig_idx m id subnet : idx_inv m -> addr_ok (p_ip subnet) ->
  idx_inv (m_ListenConfig InterfaceByName m id subnet).2.
Proof.
  intros Hi Ha. unfold m_ListenConfig. destruct (m_ifaceListeners m !! id) as [l|] eqn:El; [|done].
  destruct (validateIfaceSubnet _ _ _) eqn:Ev; [done|]. cbn [alloc].
  pose proof (validateIfaceSubnet_ok _ _ Ev Ha) as Hs. destruct Hi as [Hc Hp].
  destruct (Hc id l El) as (H1 & H2 & H3 & H4). unfold addListener.
  pose proof (add_conn_ok "listener channel for subnet %s already registered" _ (subnet, m_next m) H2 Hs) as Ha1.
  destruct (add_conn _ (listeners (il_conns l)) _) as [ls|]; [|by split]. destruct Ha1 as (_ & Hls & Hin1).
  cbn [result_bind]. unfold addPacketConn. cbn [packetConns listeners].
  pose proof (add_conn_ok "packetconn channel for subnet %s already registered" _ (subnet, S (m_next m)) H1 Hs) as Ha2.
  destruct (add_conn _ (packetConns (il_conns l)) _) as [ps|]; cbn -[make_chan].
  1: destruct Ha2 as (_ & Hps & Hin2).
  all: split; cbn; [|intros p Hle; rewrite !lookup_insert_ne by lia; apply Hp; lia].
  all: intros id' l' [(<- & <-)|(Hne & E)]%lookup_insert_Some; cbn.
  - split_and!; [done..| |]; setoid_rewrite lookup_insert_is_Some'.
    + intros c [->|Hc']%Hin2; eauto.
    + intros c [->|Hc']%Hin1; eauto.
  - rewrite lookup_insert_ne in E by done. destruct (Hc id' l' E) as (G1 & G2 & G3 & G4).
    setoid_rewrite lookup_insert_is_Some'. split_and!; [done..| |]; naive_solver.
  - split_and!; [done..|]. setoid_rewrite lookup_insert_is_Some'. intros c [->|Hc']%Hin1; eauto.
  - destruct (Hc id' l' E) as (G1 & G2 & G3 & G4). setoid_rewrite lookup_insert_is_Some'. split_and!; [done..| |]; naive_solver.
Qed.

(** *** The owners of the buffers *)

Inductive owner := InPool (id : string) | InRequests (id : string) | InQueue (p : nat) | InHeld.

#[global] Instance owner_eq_dec : EqDecision owner.
Proof. solve_decision. Defined.

Definition req_bufs (reqs : list packetConnWriteReq) : list nat := omap (fun r => ps_buf <$> wr_session r) reqs.

Definition queue_at (m : Manager) (p : nat) : list packetSession :=
  from_option (fun c => ch_buf (pc_sessions c)) [] (m_pconns m !! p).
Definition conns_at (m : Manager) (p : nat) : list TCPConn := from_option ch_buf [] (m_lsnrs m !! p).

Definition bufs_at (m : Manager) (held : list packetSession) (o : owner) : list nat :=
  match o with
  | InPool id => from_option il_bodyPool [] (m_ifaceListeners m !! id)
  | InRequests id => from_option (fun l => req_bufs (ch_buf (il_writeRequests l))) [] (m_ifaceListeners m !! id)
  | InQueue p => ps_buf <$> queue_at m p
  | InHeld => ps_buf <$> held
  end.

(** Every buffer has at most one owner, and is there once. *)
Record exclusive (B : owner -> list nat) : Prop := {
  excl_nodup o : NoDup (B o);
  excl_owner o o' b : b ∈ B o -> b ∈ B o' -> o = o';
}.

Lemma exclusive_same B B' : exclusive B -> (forall o, B' o = B o) -> exclusive B'.
Proof. intros [H1 H2] E. split; intros o; rewrite E; [done|]. intros o' b. rewrite E. apply H2. Qed.

Lemma exclusive_take B B' src b :
  exclusive B -> B src ≡ₚ b :: B' src -> (forall o, o <> src -> B' o = B o) -> exclusive B' /\ forall o, b ∉ B' o.
Proof.
  intros [H1 H2] Es Eo.
  assert (forall o x, x ∈ B' o -> x ∈ B o /\ x <> b) as Hsub.
  { intros o x Hx. destruct (decide (o = src)) as [->|Hne].
    - split; [rewrite Es; by right|]. intros ->. pose proof (H1 src) as Hn. rewrite Es in Hn.
      by apply NoDup_cons in Hn as [? _].
    - rewrite Eo in Hx by done. split; [done|]. intros ->. apply Hne, (H2 _ _ b Hx). rewrite Es. left. }
  split; [|intros o Hb; by destruct (Hsub o b Hb)]. split.
  - intros o. destruct (decide (o = src)) as [->|Hne]; [|by rewrite Eo].
    pose proof (H1 src) as Hn. rewrite Es in Hn. by apply NoDup_cons in Hn as [_ ?].
  - intros o o' x Hx Hx'. apply (H2 o o' x); by apply Hsub.
Qed.

Lemma exclusive_add B B' dst b :
  exclusive B -> (forall o, b ∉ B o) -> B' dst ≡ₚ b :: B dst -> (forall o, o <> dst -> B' o = B o) -> exclusive B'.
Proof.
  intros [H1 H2] Hb Es Eo. split.
  - intros o. destruct (decide (o = dst)) as [->|Hne]; [|by rewrite Eo]. rewrite Es. by apply NoDup_cons.
  - assert (forall o x, x ∈ B' o -> (x = b /\ o = dst) \/ x ∈ B o) as Hsub.
    { intros o x Hx. destruct (decide (o = dst)) as [->|Hne].
      - rewrite Es in Hx. apply elem_of_cons in Hx as [->|Hx]; auto.
      - rewrite Eo in Hx by done. auto. }
    intros o o' x [[-> ->]|Hx]%Hsub [[E ->]|Hx']%Hsub; [done|by destruct (Hb _ Hx')|by subst; destruct (Hb _ Hx)|by eapply H2].
Qed.

Lemma exclusive_drop B B' src b :
  exclusive B -> B src ≡ₚ b :: B' src -> (forall o, o <> src -> B' o = B o) -> exclusive B'.
Proof. intros HB Es Eo. by eapply exclusive_take. Qed.

Definition bodies_ok (m : Manager) (held : list packetSession) : Prop :=
  forall o b, b ∈ bufs_at m held o -> exists body, m_bodies m !! b = Some body /\ String.length body = DefaultMsgSize.

(** *** The invariant *)

Definition body_of (m : Manager) (sess : packetSession) : string :=
  str_take (ps_len sess) (default EmptyString (m_bodies m !! ps_buf sess)).

(** A session that waits in a queue, and one that has been read, for a datagram. *)
Definition waiting (m : Manager) (sess : packetSession) (d : sent_datagram) : Prop :=
  sess = sd_session d /\ body_of m sess = str_take DefaultMsgSize (sd_data d).
Definition delivered (r : read_datagram) (d : sent_datagram) : Prop :=
  rd_session r = sd_session d /\ rd_data r = str_take (rd_size r) (str_take DefaultMsgSize (sd_data d)).

Definition reads_at (s : sys) (p : nat) : list read_datagram := filter (fun r => rd_conn r = p) (sy_read s).
Definition sent_to (s : sys) (p : nat) : list sent_datagram := filter (fun d => sd_conn d = p) (sy_sent s).
Definition accepted_from (s : sys) (p : nat) : list TCPConn := (filter (fun c => c.1 = p) (sy_accepted s)).*2.
Definition routed_to (s : sys) (p : nat) : list TCPConn := (filter (fun c => c.1 = p) (sy_routed s)).*2.

Record bd_inv (s : sys) : Prop := {
  bi_idx : idx_inv (sy_m s);
  bi_excl : exclusive (bufs_at (sy_m s) (sy_held s));
  bi_bodies : bodies_ok (sy_m s) (sy_held s);
  bi_tcp p : routed_to s p = accepted_from s p ++ conns_at (sy_m s) p;
  bi_udp p : exists done pending, sent_to s p = done ++ pending /\ Forall2 delivered (reads_at s p) done /\
    Forall2 (waiting (sy_m s)) (queue_at (sy_m s) p) pending;
}.

(** A change of the manager that moves no buffer, connection or session. *)
Lemma bd_inv_frame s m' :
  bd_inv s -> idx_inv m' -> (forall o, bufs_at m' (sy_held s) o = bufs_at (sy_m s) (sy_held s) o) ->
  m_bodies m' = m_bodies (sy_m s) -> (forall p, conns_at m' p = conns_at (sy_m s) p) ->
  (forall p, queue_at m' p = queue_at (sy_m s) p) -> bd_inv (with_m s m').
Proof.
  intros [H1 H2 H3 H4 H5] Hi Hb Hbo Hc Hq. split; cbn; [done|by eapply exclusive_same| | |].
  - intros o b Hin. rewrite Hb in Hin. rewrite Hbo. by eapply H3.
  - intros p. rewrite Hc. apply H4.
  - intros p. rewrite Hq. destruct (H5 p) as (dn & pe & ? & ? & Hw). exists dn, pe. split_and!; [done|done|].
    eapply Forall2_impl; [exact Hw|]. intros x d [? E]. split; [done|]. unfold body_of in *. by rewrite Hbo.
Qed.

(** A lookup in a map in which one value was replaced by one with the same data. *)
Lemma from_option_insert `{Countable K} {V A} (f : V -> A) (a : A) (k : K) (v v' : V) (mp : gmap K V) j :
  mp !! k = Some v -> f v' = f v -> from_option f a (<[k := v']> mp !! j) = from_option f a (mp !! j).
Proof.
  intros E Ef. destruct (decide (k = j)) as [<-|]; [by rewrite lookup_insert_eq, E|by rewrite lookup_insert_ne].
Qed.

Lemma from_option_insert_None `{Countable K} {V A} (f : V -> A) (a : A) (k : K) (v' : V) (mp : gmap K V) j :
  mp !! k = None -> f v' = a -> from_option f a (<[k := v']> mp !! j) = from_option f a (mp !! j).
Proof.
  intros E Ef. destruct (decide (k = j)) as [<-|]; [by rewrite lookup_insert_eq, E|by rewrite lookup_insert_ne].
Qed.

(** *** Preservation: connections, listeners and settings *)

Lemma add_conflict_id id ifaceName port ls l : (id, l) ∈ ls -> add_conflict id ifaceName port ls <> None.
Proof.
  induction ls as [|[id' l'] ls IH]; [by intros ?%elem_of_nil|]. intros [[= <- <-]|Hin]%elem_of_cons; cbn.
  - by rewrite bool_decide_eq_true_2.
  - destruct (bool_decide (id' = id)); [done|]. destruct (_ && _); [done|]. by apply IH.
Qed.

Lemma add_inv s id ifaceName port : bd_inv s -> bd_inv (with_m s (m_Add InterfaceByName (sy_m s) id ifaceName port).2).
Proof.
  intros Hs. unfold m_Add. destruct (InterfaceByName ifaceName); [|by destruct s]. destruct (add_conflict _ _ _ _) eqn:Ec; [by destruct s|].
  assert (m_ifaceListeners (sy_m s) !! id = None) as En.
  { destruct (m_ifaceListeners (sy_m s) !! id) as [l|] eqn:El; [|done]. exfalso. apply (add_conflict_id id ifaceName port _ l) in Ec; [done|].
    rewrite merge_sort_Permutation. by apply elem_of_map_to_list. }
  apply bd_inv_frame; [done| |..]; cbn; try done.
  - apply (idx_inv_update (sy_m s)); cbn; [apply Hs|done| |done|done|apply Hs].
    intros id' l' [(<- & <-)|(Hne & E)]%lookup_insert_Some; [by left|]. right. by exists l'.
  - intros [id'|id'|p|]; cbn; [by apply from_option_insert_None..|done|done].
Qed.

Lemma listen_inv s id subnet : bd_inv s -> addr_ok (p_ip subnet) ->
  bd_inv (with_m s (m_ListenConfig InterfaceByName (sy_m s) id subnet).2).
Proof.
  intros Hs Ha. pose proof (ListenConfig_idx (sy_m s) id subnet (bi_idx _ Hs) Ha) as Hi. revert Hi.
  destruct (inv_ptrs _ (bi_idx _ Hs) (m_next (sy_m s)) ltac:(lia)) as (E1 & _ & _).
  destruct (inv_ptrs _ (bi_idx _ Hs) (S (m_next (sy_m s))) ltac:(lia)) as (_ & E2 & _).
  unfold m_ListenConfig. destruct (m_ifaceListeners (sy_m s) !! id) as [l|] eqn:El; [|by destruct s].
  destruct (validateIfaceSubnet _ _ _); [by destruct s|]. cbn [alloc].
  destruct (addListener _ _) as [idx1|]; [|by destruct s]. destruct (addPacketConn _ _) as [idx2|]; cbn -[make_chan]; intros Hi.
  - apply bd_inv_frame; [done|done|..]; cbn -[make_chan].
    + intros [id'|id'|p|]; cbn -[make_chan]; [..|done].
      1, 2: rewrite insert_insert_eq; by apply (from_option_insert _ _ _ l).
      unfold queue_at. cbn -[make_chan]. f_equal. by apply from_option_insert_None.
    + done.
    + intros p. unfold conns_at. cbn -[make_chan]. by apply from_option_insert_None.
    + intros p. unfold queue_at. cbn -[make_chan]. by apply from_option_insert_None.
  - apply bd_inv_frame; [done|done|..]; cbn -[make_chan]; try done.
    + intros [id'|id'|p|]; cbn -[make_chan]; [by apply (from_option_insert _ _ _ l)..|done|done].
    + intros p. unfold conns_at. cbn -[make_chan]. by apply from_option_insert_None.
Qed.

(** A change of the connections of one listener. *)
Lemma lsnr_idx m p l l' : idx_inv m -> m_lsnrs m !! p = Some l -> idx_inv (set_lsnr m p l').
Proof.
  intros Hi El. apply (idx_inv_update m); cbn; [done|done| |done| |].
  - intros id' l0 E. right. by exists l0.
  - intros q Hq. apply lookup_insert_is_Some'. auto.
  - intros q Hle. destruct (inv_ptrs m Hi q Hle) as (E & ? & ?). split_and!; [|done..].
    rewrite lookup_insert_ne; [done|]. intros ->. congruence.
Qed.

Lemma conn_inv s id conn s' : bd_inv s -> bd_exec s (EConn id conn) = Some s' -> bd_inv s'.
Proof.
  intros Hs E. cbn in E. apply bind_Some in E as ([fate m] & E & [= <-]). unfold processConn in E.
  apply bind_Some in E as (l & El & E). destruct (listener _ _) as [p|].
  2:{ injection E as <- <-. by destruct s, Hs. }
  apply bind_Some in E as (lsnr & Els & E). apply bind_Some in E as ([ok lsnr'] & Esend & [= <- <-]).
  destruct Hs as [H1 H2 H3 H4 H5]. split; cbn; [by eapply lsnr_idx| |done| |done].
  { eapply exclusive_same; [exact H2|]. by intros []. }
  unfold cl_send in Esend. destruct (ch_closed lsnr) eqn:Ecl.
  - injection Esend as <- <-. intros q. specialize (H4 q). unfold routed_to, accepted_from, conns_at in *. cbn.
    by rewrite (from_option_insert _ _ _ lsnr).
  - apply bind_Some in Esend as (lsnr1 & Es & [= <- <-]). unfold chan_send in Es. destruct (_ <? _)%nat; [|done].
    injection Es as <-. intros q. specialize (H4 q). unfold routed_to, accepted_from, conns_at in *. cbn.
    rewrite filter_app, fmap_app, H4. destruct (decide (p = q)) as [<-|Hne].
    + rewrite filter_cons_True by done. rewrite lookup_insert_eq, Els. cbn. by rewrite <- app_assoc.
    + rewrite filter_cons_False by done. rewrite lookup_insert_ne by done. cbn. by rewrite app_nil_r.
Qed.

Lemma accept_inv s p s' : bd_inv s -> bd_exec s (EAccept p) = Some s' -> bd_inv s'.
Proof.
  intros Hs E. cbn in E. apply bind_Some in E as (lsnr & Els & E). apply bind_Some in E as ([r lsnr'] & Ea & [= <-]).
  destruct Hs as [H1 H2 H3 H4 H5]. split; cbn; [by eapply lsnr_idx| |done| |done].
  { eapply exclusive_same; [exact H2|]. by intros []. }
  unfold cl_Accept, chan_receive in Ea. intros q. specialize (H4 q). unfold routed_to, accepted_from, conns_at in *. cbn.
  destruct (ch_buf lsnr) as [|c cs] eqn:Eb.
  - destruct (ch_closed lsnr); [|done]. cbn in Ea. injection Ea as <- <-. by rewrite (from_option_insert _ _ _ lsnr).
  - cbn in Ea. injection Ea as <- <-. rewrite H4, filter_app, fmap_app, <- app_assoc. f_equal.
    destruct (decide (p = q)) as [<-|Hne].
    + rewrite filter_cons_True by done. rewrite lookup_insert_eq, Els. cbn. by rewrite Eb.
    + rewrite filter_cons_False by done. by rewrite lookup_insert_ne.
Qed.

Lemma closeListener_inv s p s' :
  bd_inv s -> bd_exec s (ECloseListener p) = Some s' -> bd_inv s'.
Proof.
  intros Hs E. cbn in E. apply bind_Some in E as (l & El & [= <-]). apply bd_inv_frame; [done|eapply lsnr_idx; [apply Hs|done]|..]; cbn; try done.
  intros q. unfold conns_at. cbn. apply (from_option_insert _ _ _ l); [done|]. unfold cl_Close. by destruct (ch_closed l).
Qed.

(** *** Preservation: datagrams *)

(** A change of one packet connection. *)
Lemma pconn_idx m p c c' : idx_inv m -> m_pconns m !! p = Some c -> idx_inv (set_pconn m p c').
Proof.
  intros Hi El. apply (idx_inv_update m); cbn; [done|done| | |done|].
  - intros id' l0 E. right. by exists l0.
  - intros q Hq. apply lookup_insert_is_Some'. auto.
  - intros q Hle. destruct (inv_ptrs m Hi q Hle) as (? & E & ?). split_and!; [done| |done].
    rewrite lookup_insert_ne; [done|]. intros ->. congruence.
Qed.

(** A change of the pool or of the requests of one interface. *)
Lemma iface_idx m id l l' : idx_inv m -> m_ifaceListeners m !! id = Some l -> il_conns l' = il_conns l ->
  idx_inv (set_iface m id l').
Proof.
  intros Hi El Ec. apply (idx_inv_update m); cbn; [done|done| |done|done|apply Hi].
  intros id' l0 [(<- & <-)|(Hne & E)]%lookup_insert_Some; right; eauto.
Qed.

Lemma set_body_idx m b body : idx_inv m -> (b < m_next m)%nat -> idx_inv (set_body m b body).
Proof.
  intros Hi Hb. apply (idx_inv_update m); cbn; [done|done| |done|done|].
  - intros id' l0 E. right. by exists l0.
  - intros q Hle. destruct (inv_ptrs m Hi q Hle) as (? & ? & E). split_and!; [done..|]. rewrite lookup_insert_ne by lia. done.
Qed.

Lemma alloc_idx m : idx_inv m -> idx_inv (alloc m).2.
Proof.
  intros Hi. apply (idx_inv_update m); cbn; [done|lia| |done|done|].
  - intros id' l0 E. right. by exists l0.
  - intros q Hle. apply (inv_ptrs m Hi). lia.
Qed.

(** What a buffer that has just been taken from the pool, or made, is: free, of
    the right size, and nothing else has changed. *)
Record taken (m : Manager) (held : list packetSession) (id : string) (l : interfaceListener) (m' : Manager) (buf : nat) : Prop := {
  tk_idx : idx_inv m';
  tk_iface : m_ifaceListeners m' !! id = Some l;
  tk_excl : exclusive (bufs_at m' held);
  tk_free o : buf ∉ bufs_at m' held o;
  tk_bodies : bodies_ok m' held;
  tk_body : exists body, m_bodies m' !! buf = Some body /\ String.length body = DefaultMsgSize;
  tk_others b : b <> buf -> m_bodies m' !! b = m_bodies m !! b;
  tk_queues p : queue_at m' p = queue_at m p;
  tk_conns p : conns_at m' p = conns_at m p;
}.

Lemma zero_bytes_length n : String.length (zero_bytes n) = n.
Proof. induction n as [|n IH]; [done|]. cbn [zero_bytes String.length]. by rewrite IH. Qed.

Lemma pool_Get_taken m held id l pick buf l' m' :
  idx_inv m -> exclusive (bufs_at m held) -> bodies_ok m held -> m_ifaceListeners m !! id = Some l ->
  pool_Get m id l pick = (buf, l', m') -> il_conns l' = il_conns l /\ taken m held id l' m' buf.
Proof.
  intros Hi He Hb El. unfold pool_Get. destruct (il_bodyPool l !! pick) as [b|] eqn:Ep.
  - intros [= <- <- <-]. split; [done|].
    assert (bufs_at m held (InPool id) ≡ₚ
      b :: bufs_at (set_iface m id (with_pool l (delete pick (il_bodyPool l)))) held (InPool id)) as Hsrc.
    { cbn. rewrite El, lookup_insert_eq. cbn. by apply delete_Permutation. }
    assert (forall o, o <> InPool id ->
      bufs_at (set_iface m id (with_pool l (delete pick (il_bodyPool l)))) held o = bufs_at m held o) as Hoth.
    { intros [id'|id'|p|] Hne; cbn; [|by apply (from_option_insert _ _ _ l)|done..].
      rewrite lookup_insert_ne; [done|]. intros ->. done. }
    destruct (exclusive_take _ _ _ _ He Hsrc Hoth) as [He' Hfree]. split; try done.
    + by eapply iface_idx.
    + cbn. apply lookup_insert_eq.
    + intros o x Hx. cbn [m_bodies set_iface]. destruct (decide (o = InPool id)) as [->|Hne].
      * eapply Hb. rewrite Hsrc. by right.
      * rewrite Hoth in Hx by done. by eapply Hb.
    + cbn [m_bodies set_iface]. eapply Hb. rewrite Hsrc. left.
  - cbn [alloc]. intros [= <- <- <-]. split; [done|].
    assert (forall o b, b ∈ bufs_at m held o -> b <> m_next m) as Hne.
    { intros o b Hin ->. destruct (Hb _ _ Hin) as (body & E & _).
      destruct (inv_ptrs m Hi (m_next m) ltac:(lia)) as (_ & _ & E'). congruence. }
    split; try done.
    + apply set_body_idx; [by apply alloc_idx|cbn; lia].
    + intros o Hin. apply (Hne o (m_next m)); [|done]. by destruct o.
    + intros o b Hin. assert (b ∈ bufs_at m held o) as Hin' by by destruct o. cbn. rewrite lookup_insert_ne; [by eapply Hb|].
      intros E. by apply (Hne _ _ Hin').
    + exists (zero_bytes DefaultMsgSize). cbn [m_bodies set_body]. split; [apply lookup_insert_eq|apply zero_bytes_length].
    + intros b Hb'. cbn. by rewrite lookup_insert_ne.
Qed.

Lemma taken_set_body m held id l m' buf body :
  taken m held id l m' buf -> String.length body = DefaultMsgSize -> taken m held id l (set_body m' buf body) buf.
Proof.
  intros [T1 T2 T3 T4 T5 T6 T7 T8 T9] Hl. split; try done.
  - apply set_body_idx; [done|]. destruct T6 as (b0 & E & _). destruct (decide (buf < m_next m')%nat); [done|].
    destruct (inv_ptrs m' T1 buf ltac:(lia)) as (_ & _ & E'). congruence.
  - intros o b Hin. assert (b ∈ bufs_at m' held o) as Hin' by by destruct o. cbn. rewrite lookup_insert_ne; [by eapply T5|].
    intros ->. by apply (T4 o).
  - exists body. cbn. by rewrite lookup_insert_eq.
  - intros b Hb. cbn. rewrite lookup_insert_ne by done. by apply T7.
Qed.

Lemma taken_alloc m held id l m' buf : taken m held id l m' buf -> taken m held id l (alloc m').2 buf.
Proof. intros [T1 T2 T3 T4 T5 T6 T7 T8 T9]. split; try done. by apply alloc_idx. Qed.

Lemma waiting_mono m m' q pe :
  Forall2 (waiting m) q pe -> (forall x, x ∈ q -> m_bodies m' !! ps_buf x = m_bodies m !! ps_buf x) ->
  Forall2 (waiting m') q pe.
Proof.
  intros Hw Hb. induction Hw as [|x d q pe [E1 E2] Hw IH]; constructor.
  - split; [done|]. unfold body_of in *. rewrite Hb by left. done.
  - apply IH. intros y Hy. apply Hb. by right.
Qed.

(** What waits in the queues is not touched when a free buffer is written. *)
Lemma taken_waiting s m id l buf p pe :
  taken (sy_m s) (sy_held s) id l m buf -> Forall2 (waiting (sy_m s)) (queue_at (sy_m s) p) pe ->
  Forall2 (waiting m) (queue_at m p) pe.
Proof.
  intros T Hw. rewrite (tk_queues _ _ _ _ _ _ T). apply (waiting_mono _ _ _ _ Hw). intros x Hx.
  apply (tk_others _ _ _ _ _ _ T). intros E. apply (tk_free _ _ _ _ _ _ T (InQueue p)). cbn.
  rewrite (tk_queues _ _ _ _ _ _ T), <- E. by apply list_elem_of_fmap_2.
Qed.

(** The buffer of a failed or unclaimed datagram goes back to the pool. *)
Lemma pool_Put_inv s m id l buf : bd_inv s -> taken (sy_m s) (sy_held s) id l m buf -> bd_inv (with_m s (pool_Put m id buf)).
Proof.
  intros [H1 H2 H3 H4 H5] T. destruct (T) as [T1 T2 T3 T4 T5 T6 T7 T8 T9]. unfold pool_Put. rewrite T2.
  assert (forall o, o <> InPool id -> bufs_at (set_iface m id (with_pool l (buf :: il_bodyPool l))) (sy_held s) o = bufs_at m (sy_held s) o) as Hoth.
  { intros [id'|id'|p|] Hne; cbn; [|by apply (from_option_insert _ _ _ l)|done..].
    rewrite lookup_insert_ne; [done|]. intros ->. done. }
  assert (bufs_at (set_iface m id (with_pool l (buf :: il_bodyPool l))) (sy_held s) (InPool id) = buf :: bufs_at m (sy_held s) (InPool id)) as Hdst.
  { cbn. by rewrite lookup_insert_eq, T2. }
  split; cbn -[bufs_at].
  - by eapply iface_idx.
  - eapply (exclusive_add _ _ (InPool id)); [exact T3|done|by rewrite Hdst|done].
  - intros o b Hin. cbn [m_bodies set_iface]. destruct (decide (o = InPool id)) as [->|Hne].
    + rewrite Hdst in Hin. apply elem_of_cons in Hin as [->|Hin]; [done|by eapply T5].
    + rewrite Hoth in Hin by done. by eapply T5.
  - intros p. rewrite (T9 p : conns_at (set_iface m id _) p = _). apply H4.
  - intros p. destruct (H5 p) as (dn & pe & ? & ? & Hw). exists dn, pe. split_and!; [done|done|].
    by eapply (taken_waiting s m id l buf p).
Qed.

Lemma str_take_ge n t : (String.length t <= n)%nat -> str_take n t = t.
Proof.
  revert t. induction n as [|n IH]; intros [|c t] Hn; cbn [String.length] in Hn; try done; [lia|].
  cbn [str_take]. by rewrite IH by lia.
Qed.

Lemma readPacketSession_spec sid read buf body body' res :
  readPacketSession PktInfo4 PktInfo6 sid read buf body = (body', res) ->
  String.length body' = String.length body /\
  forall sess, res = Ok sess ->
    ps_buf sess = buf /\ str_take (ps_len sess) body' = str_take (String.length body) (datagram_of read) /\
    exists data sa, read = Ok (data, ps_raddr sess, Ok [Ok sa]) /\
      sockAddrData PktInfo4 PktInfo6 sa = Ok (ps_laddr sess, ps_respOOB sess).
Proof.
  unfold readPacketSession. destruct read as [[[data raddr] ctrls]|err]; intros [= <- <-]; [|done].
  set (n := Nat.min (String.length data) (String.length body)).
  assert (String.length (str_take n data) = n) as Hn by (rewrite length_str_take_min; lia).
  split; [rewrite length_append, Hn, length_str_drop; lia|]. intros sess.
  destruct ctrls as [[|c [|? ?]]|]; cbn; try done. destruct c as [sa|]; cbn; [|done].
  destruct (sockAddrData _ _ sa) as [[la oob]|] eqn:Es; cbn; [|done]. intros [= <-]. cbn.
  split_and!; [done| |].
  - rewrite <- Hn at 1. rewrite str_take_append. unfold n. destruct (decide (String.length data <= String.length body)%nat).
    + rewrite Nat.min_l by done. rewrite !str_take_ge by lia. done.
    + by rewrite Nat.min_r by lia.
  - by exists data, sa.
Qed.

Lemma read_inv s id read pick s' : bd_inv s -> bd_exec s (ERead id read pick) = Some s' -> bd_inv s'.
Proof.
  intros Hs E. cbn in E. apply bind_Some in E as ([[err sent] m'] & E & [= <-]). unfold readUDP in E.
  apply bind_Some in E as (l & El & E). destruct (pool_Get _ _ _ _) as [[buf l'] m1] eqn:Eg.
  destruct (pool_Get_taken _ (sy_held s) _ _ _ _ _ _ (bi_idx _ Hs) (bi_excl _ Hs) (bi_bodies _ Hs) El Eg) as [Ec T].
  cbn [alloc] in E. apply taken_alloc in T. cbn [alloc snd] in T. set (m2 := {| m_next := S (m_next m1) |}) in *.
  destruct (tk_body _ _ _ _ _ _ T) as (body & Eb & Hlb). rewrite Eb in E.
  change (default EmptyString (Some body)) with body in E.
  destruct (readPacketSession _ _ _ _ _ _) as [body' res] eqn:Er. apply readPacketSession_spec in Er as [Hl' Hres].
  apply (taken_set_body _ _ _ _ _ _ body') in T; [|congruence].
  destruct res as [sess|err0].
  2:{ injection E as <- <- <-. exact (pool_Put_inv s _ id l' buf Hs T). }
  destruct (packetConn _ _) as [p|].
  2:{ injection E as <- <- <-. exact (pool_Put_inv s _ id l' buf Hs T). }
  apply bind_Some in E as (c & Epc & E). apply bind_Some in E as ([ok c'] & Esend & [= <- <- <-]). unfold pc_send in Esend.
  destruct (Hres sess eq_refl) as (Ebuf & Ebody & _). clear Hres.
  destruct (ch_closed (pc_sessions c)).
  { injection Esend as <- <-. replace (set_pconn (set_body m2 buf body') p c) with (set_body m2 buf body')
      by (unfold set_pconn; cbn; f_equal; by rewrite insert_id). exact (pool_Put_inv s _ id l' buf Hs T). }
  apply bind_Some in Esend as (ch & Ech & [= <- <-]). unfold chan_send in Ech. destruct (_ <? _)%nat; [|done]. injection Ech as <-.
  set (m3 := set_body m2 buf body') in *. assert (m_bodies m3 !! buf = Some body') as Em3 by apply lookup_insert_eq.
  clearbody m3. clear Eb. destruct Hs as [H1 H2 H3 H4 H5]. destruct (T) as [T1 T2 T3 T4 T5 T6 T7 T8 T9].
  set (ch' := {| ch_buf := ch_buf (pc_sessions c) ++ [sess] |}).
  assert (forall q, queue_at (set_pconn m3 p (with_sessions c ch')) q = if decide (q = p) then queue_at m3 p ++ [sess] else queue_at m3 q) as Hq.
  { intros q. unfold queue_at. cbn. destruct (decide (q = p)) as [->|]; [by rewrite lookup_insert_eq, Epc|by rewrite lookup_insert_ne]. }
  assert (forall o, o <> InQueue p -> bufs_at (set_pconn m3 p (with_sessions c ch')) (sy_held s) o = bufs_at m3 (sy_held s) o) as Hoth.
  { intros [| |q|] Hne; cbn; try done. rewrite Hq. destruct (decide (q = p)) as [->|]; done. }
  assert (bufs_at (set_pconn m3 p (with_sessions c ch')) (sy_held s) (InQueue p) ≡ₚ buf :: bufs_at m3 (sy_held s) (InQueue p)) as Hdst.
  { cbn. rewrite Hq, decide_True by done. rewrite fmap_app. cbn. rewrite Ebuf. by rewrite <- Permutation_cons_append. }
  split; cbn -[bufs_at].
  - by eapply pconn_idx.
  - by eapply (exclusive_add _ _ (InQueue p)).
  - intros o b Hin. change (m_bodies (set_pconn m3 p (with_sessions c ch'))) with (m_bodies m3).
    destruct (decide (o = InQueue p)) as [->|Hne].
    + rewrite Hdst in Hin. apply elem_of_cons in Hin as [->|Hin]; [done|by eapply T5].
    + rewrite Hoth in Hin by done. by eapply T5.
  - intros q. rewrite (T9 q : conns_at (set_pconn m3 p _) q = _). apply H4.
  - intros q. destruct (H5 q) as (dn & pe & E1 & E2 & Hw). apply (taken_waiting s m3 id l' buf q) in Hw; [|done].
    unfold sent_to, reads_at in *. cbn [sy_sent sy_read]. rewrite filter_app, E1. rewrite Hq. destruct (decide (q = p)) as [->|Hne].
    + rewrite filter_cons_True by done. exists dn, (pe ++ [new_sent (sy_m s) id p sess read]).
      split_and!; [by rewrite <- app_assoc|done|]. apply Forall2_app; [done|]. repeat constructor.
      unfold body_of. cbn -[DefaultMsgSize]. rewrite Ebuf, Em3. cbn -[DefaultMsgSize]. by rewrite Ebody, Hlb.
    + rewrite filter_cons_False by done. exists dn, pe. rewrite filter_nil, app_nil_r. done.
Qed.

Lemma readSession_inv s now p size fires s' :
  bd_inv s -> bd_exec s (EReadSession now p size fires) = Some s' -> bd_inv s'.
Proof.
  intros Hs E. cbn in E. apply bind_Some in E as ([r m] & E & [= <-]). unfold readFromSession in E.
  apply bind_Some in E as (c & Epc & E). destruct (timerFromDeadline _ _) as [timer|].
  2:{ injection E as <- <-. by destruct s, Hs. }
  assert (bd_inv (with_m s (set_pconn (sy_m s) p (with_sessions c (pc_sessions c))))) as Hfail.
  { apply bd_inv_frame; [done|eapply pconn_idx; [apply Hs|done]|..]; cbn; try done.
    - intros [| |q|]; cbn; try done. unfold queue_at. cbn. f_equal. by apply (from_option_insert _ _ _ c).
    - intros q. unfold queue_at. cbn. by apply (from_option_insert _ _ _ c). }
  apply bind_Some in E as ([r0 ch] & Er & E). unfold receiveWithTimer in Er. destruct (timer && fires).
  { injection Er as <- <-. injection E as <- <-. apply Hfail. }
  apply bind_Some in Er as ([v ch'] & Er & [= <- <-]). unfold chan_receive in Er.
  destruct (ch_buf (pc_sessions c)) as [|sess q] eqn:Eq.
  { destruct (ch_closed _); [|done]. injection Er as <- <-. injection E as <- <-. apply Hfail. }
  clear Hfail. injection Er as <- <-. injection E as <- <-. set (c' := with_sessions c _).
  destruct Hs as [H1 H2 H3 H4 H5].
  assert (queue_at (sy_m s) p = sess :: q) as Eqp by (unfold queue_at; by rewrite Epc).
  assert (forall x, queue_at (set_pconn (sy_m s) p c') x = if decide (x = p) then q else queue_at (sy_m s) x) as Hq.
  { intros x. unfold queue_at. cbn. destruct (decide (x = p)) as [->|]; [by rewrite lookup_insert_eq|by rewrite lookup_insert_ne]. }
  assert (exclusive (bufs_at (set_pconn (sy_m s) p c') (sy_held s)) /\
    forall o, ps_buf sess ∉ bufs_at (set_pconn (sy_m s) p c') (sy_held s) o) as [He Hfree].
  { apply (exclusive_take (bufs_at (sy_m s) (sy_held s)) _ (InQueue p)); [done| |].
    - cbn. rewrite Hq, decide_True by done. by rewrite Eqp.
    - intros [| |x|] Hne; cbn; try done. rewrite Hq. by destruct (decide (x = p)) as [->|]. }
  split; cbn -[bufs_at].
  - by eapply pconn_idx.
  - eapply (exclusive_add _ _ InHeld); [exact He|exact Hfree|done|]. by intros [].
  - intros o b Hin. change (m_bodies (set_pconn (sy_m s) p c')) with (m_bodies (sy_m s)).
    assert (b = ps_buf sess \/ b ∈ bufs_at (sy_m s) (sy_held s) o) as [-> | Hb].
    { destruct o as [| |x|]; cbn in Hin; auto.
      - rewrite Hq in Hin. destruct (decide (x = p)) as [->|]; [|auto]. right. cbn. rewrite Eqp. cbn. by right.
      - apply elem_of_cons in Hin as [->|Hin]; auto. }
    + apply (H3 (InQueue p)). cbn. rewrite Eqp. left.
    + by apply (H3 o).
  - done.
  - intros x. destruct (H5 x) as (dn & pe & E1 & E2 & Hw). unfold sent_to, reads_at in *. cbn [sy_sent sy_read].
    rewrite Hq, filter_app. destruct (decide (x = p)) as [->|Hne].
    + rewrite Eqp in Hw. apply Forall2_cons_inv_l in Hw as (d & pe' & [Hd1 Hd2] & Hw & ->).
      rewrite filter_cons_True by done. exists (dn ++ [d]), pe'. split_and!; [by rewrite <- app_assoc| |done].
      apply Forall2_app; [done|]. repeat constructor; cbn -[DefaultMsgSize]; [done|]. f_equal. exact Hd2.
    + rewrite filter_cons_False by done. exists dn, pe. rewrite filter_nil, app_nil_r. done.
Qed.

Lemma write_inv s now p b sess fires s' :
  bd_inv s -> bd_exec s (EWrite now p b sess fires) = Some s' -> bd_inv s'.
Proof.
  intros Hs E. cbn in E. destruct (bool_decide (sess ∈ sy_held s)) eqn:Eh; [|done]. apply bool_decide_eq_true in Eh.
  apply bind_Some in E as ([r m] & E & [= <-]). unfold writeToSession_send in E.
  apply bind_Some in E as (c & Epc & E). apply bind_Some in E as (l & El & E).
  destruct (timerFromDeadline _ _) as [timer|]; [|injection E as <- <-; by destruct s, Hs].
  destruct (timer && fires); [injection E as <- <-; by destruct s, Hs|]. cbn [alloc] in E.
  apply bind_Some in E as (ch & Ech & [= <- <-]). unfold chan_send in Ech. destruct (_ <? _)%nat; [|done]. injection Ech as <-.
  destruct Hs as [H1 H2 H3 H4 H5]. set (id := pc_iface c) in *. set (m1 := {| m_next := S (m_next (sy_m s)) |}).
  set (ch' := {| ch_buf := _ ++ _ |}). set (held' := filter _ _).
  assert (ps_buf <$> sy_held s ≡ₚ ps_buf sess :: (ps_buf <$> held')) as Hheld.
  { destruct (list_elem_of_split_l _ _ Eh) as (h1 & h2 & Eheld & Hn1). pose proof (excl_nodup _ H2 InHeld) as Hnd. cbn in Hnd.
    assert (sess ∉ h2) as Hn2.
    { intros Hin. rewrite Eheld, fmap_app in Hnd. cbn in Hnd. apply NoDup_app in Hnd as (_ & _ & Hnd).
      apply NoDup_cons in Hnd as [Hnd _]. apply Hnd. by apply list_elem_of_fmap_2. }
    assert (forall h : list packetSession, sess ∉ h -> filter (fun x => x <> sess) h = h) as Hfilter.
    { intros h Hh. induction h as [|y h IH]; [done|]. apply not_elem_of_cons in Hh as [? ?]. rewrite filter_cons_True by done.
      by rewrite IH. }
    unfold held'. rewrite Eheld, filter_app, filter_cons_False by tauto. rewrite !Hfilter by done.
    rewrite !fmap_app. cbn. by rewrite Permutation_middle. }
  assert (exclusive (bufs_at (sy_m s) held') /\ forall o, ps_buf sess ∉ bufs_at (sy_m s) held' o) as [He Hfree].
  { apply (exclusive_take (bufs_at (sy_m s) (sy_held s)) _ InHeld); [done|done|]. by intros []. }
  assert (forall o, o <> InRequests id -> bufs_at (set_iface m1 id (with_requests l ch')) held' o = bufs_at (sy_m s) held' o) as Hoth.
  { intros [id'|id'|x|] Hne; cbn; [by apply (from_option_insert _ _ _ l)| |done..].
    rewrite lookup_insert_ne; [done|]. intros ->. done. }
  assert (bufs_at (set_iface m1 id (with_requests l ch')) held' (InRequests id) ≡ₚ
    ps_buf sess :: bufs_at (sy_m s) held' (InRequests id)) as Hdst.
  { cbn. rewrite lookup_insert_eq, El. cbn. unfold req_bufs. rewrite omap_app. cbn. by rewrite <- Permutation_cons_append. }
  split; cbn -[bufs_at].
  - eapply (iface_idx m1 id l); [|done|done]. apply (alloc_idx (sy_m s) H1).
  - eapply (exclusive_add _ _ (InRequests id)); [exact He|exact Hfree|exact Hdst|exact Hoth].
  - intros o x Hin. change (m_bodies (set_iface m1 id (with_requests l ch'))) with (m_bodies (sy_m s)).
    assert (forall o, x ∈ bufs_at (sy_m s) held' o -> x ∈ bufs_at (sy_m s) (sy_held s) o) as Hsub.
    { intros o' Hx. destruct o'; try done. cbn in *. rewrite Hheld. by right. }
    destruct (decide (o = InRequests id)) as [->|Hne].
    + rewrite Hdst in Hin. apply elem_of_cons in Hin as [->|Hin]; [|by eapply H3, Hsub].
      apply (H3 InHeld). cbn. rewrite Hheld. left.
    + rewrite Hoth in Hin by done. by eapply H3, Hsub.
  - done.
  - done.
Qed.

Lemma writeUDP_inv s id calls s' : bd_inv s -> bd_exec s (EWriteUDP id calls) = Some s' -> bd_inv s'.
Proof.
  intros Hs E. cbn in E. apply bind_Some in E as ([sent m] & E & [= <-]). unfold writeUDP in E.
  apply bind_Some in E as (l & El & E). apply bind_Some in E as ([r ch] & Er & E). apply bind_Some in E as (req & -> & E).
  unfold chan_receive in Er. destruct (ch_buf (il_writeRequests l)) as [|req' reqs] eqn:Eb; [by destruct (ch_closed _)|].
  injection Er as -> <-. set (ch' := {| ch_buf := reqs |}) in *.
  set (m1 := set_iface (sy_m s) id (with_requests l ch')) in *.
  assert (m_ifaceListeners m1 !! id = Some (with_requests l ch')) as El1 by apply lookup_insert_eq.
  assert (forall o, o <> InRequests id -> bufs_at m1 (sy_held s) o = bufs_at (sy_m s) (sy_held s) o) as Hoth.
  { intros [id'|id'|x|] Hne; cbn; [by apply (from_option_insert _ _ _ l)| |done..].
    rewrite lookup_insert_ne; [done|]. intros ->. done. }
  assert (bufs_at (sy_m s) (sy_held s) (InRequests id) = req_bufs [req] ++ bufs_at m1 (sy_held s) (InRequests id)) as Hsrc.
  { cbn. rewrite El, lookup_insert_eq. cbn. rewrite Eb. unfold req_bufs. cbn. by destruct (ps_buf <$> wr_session req). }
  assert (forall resp m', bd_inv (with_m s m') -> bd_inv (with_m s (set_resp m' (wr_respCh req) resp))) as Hresp.
  { intros resp m' Hm. apply (bd_inv_frame (with_m s m') (set_resp m' (wr_respCh req) resp)); [done|..]; cbn; try done.
    apply (idx_inv_update m'); cbn; [apply Hm|done| |done|done|apply Hm]. intros id' l' E'. right. by exists l'. }
  assert (bd_inv (with_m s (match wr_session req with Some x => pool_Put m1 id (ps_buf x) | None => m1 end))) as Hrel.
  { destruct (wr_session req) as [x|] eqn:Ex.
    - assert (req_bufs [req] = [ps_buf x]) as Er by (unfold req_bufs; cbn; by rewrite Ex). rewrite Er in Hsrc.
      destruct (exclusive_take (bufs_at (sy_m s) (sy_held s)) (bufs_at m1 (sy_held s)) (InRequests id) (ps_buf x)) as [He Hfree];
        [apply Hs|by rewrite Hsrc|done|].
      apply (pool_Put_inv s m1 id (with_requests l ch')); [done|]. split; try done.
      + eapply iface_idx; [apply Hs|done|done].
      + intros o b Hin. apply (bi_bodies _ Hs o). destruct (decide (o = InRequests id)) as [->|Hne].
        * rewrite Hsrc. by right.
        * by rewrite <- Hoth.
      + apply (bi_bodies _ Hs (InRequests id)). rewrite Hsrc. left.
    - assert (req_bufs [req] = []) as Er by (unfold req_bufs; cbn; by rewrite Ex). rewrite Er in Hsrc.
      apply bd_inv_frame; try done; [eapply iface_idx; [apply Hs|done|done]|].
      intros o. destruct (decide (o = InRequests id)) as [->|Hne]; [done|by apply Hoth]. }
  destruct (wc_set calls) as [err|]; injection E as <- <-; [|by apply Hresp].
  assert (forall x rsp, pool_Put (set_resp m1 (wr_respCh req) rsp) id x = set_resp (pool_Put m1 id x) (wr_respCh req) rsp) as Hcomm.
  { intros x rsp. unfold pool_Put. cbn [m_ifaceListeners set_resp]. by rewrite El1. }
  destruct (wr_session req); rewrite ?Hcomm; by apply Hresp.
Qed.

Lemma bd_exec_inv s ev s' : bd_inv s -> event_ok ev -> bd_exec s ev = Some s' -> bd_inv s'.
Proof.
  intros Hs Hev. destruct ev.
  - intros [= <-]. by apply add_inv.
  - intros [= <-]. by apply listen_inv.
  - by apply conn_inv.
  - by apply accept_inv.
  - by apply closeListener_inv.
  - by apply read_inv.
  - by apply readSession_inv.
  - by apply write_inv.
  - by apply writeUDP_inv.
  - cbn. intros (c & E & [= <-])%bind_Some. apply bd_inv_frame; [done|eapply pconn_idx; [apply Hs|done]|..]; cbn; try done.
    + intros [| |q|]; cbn; try done. unfold queue_at. cbn. f_equal. apply (from_option_insert _ _ _ c); [done|].
      unfold pc_Close. by destruct (ch_closed _).
    + intros q. unfold queue_at. cbn. apply (from_option_insert _ _ _ c); [done|]. unfold pc_Close. by destruct (ch_closed _).
  - cbn. intros (c & E & [= <-])%bind_Some. apply bd_inv_frame; [done|eapply pconn_idx; [apply Hs|done]|..]; cbn; try done.
    + intros [| |q|]; cbn; try done. unfold queue_at. cbn. f_equal. by apply (from_option_insert _ _ _ c).
    + intros q. unfold queue_at. cbn. by apply (from_option_insert _ _ _ c).
  - intros [= <-]. unfold m_Shutdown. destruct (m_done (sy_m s)); [by destruct s, Hs|].
    apply bd_inv_frame; try done; cbn. apply (idx_inv_update (sy_m s)); cbn; [apply Hs|done| |done|done|apply Hs].
    intros id' l' E. right. by exists l'.
Qed.

Lemma bd_inv_sys0 n : bd_inv (sys0 n).
Proof.
  split; cbn.
  - split; cbn; [|done]. intros id l E. by rewrite lookup_empty in E.
  - split; intros []; cbn; try constructor; try (intros o b []%elem_of_nil).
  - intros [] b; cbn; by intros ?%elem_of_nil.
  - done.
  - intros p. exists [], []. split_and!; [done|constructor|constructor].
Qed.

(** Where a datagram that was sent to a packet connection comes from. *)
Definition from_event (evs : list event) (d : sent_datagram) : Prop :=
  exists raddr sa pick, ERead (sd_id d) (Ok (sd_data d, raddr, Ok [Ok sa])) pick ∈ evs /\
    ps_raddr (sd_session d) = raddr /\
    sockAddrData PktInfo4 PktInfo6 sa = Ok (ps_laddr (sd_session d), ps_respOOB (sd_session d)) /\
    (addr_ok (ap_addr (ps_laddr (sd_session d))) ->
     longest_match (sd_conns d) (ap_addr (ps_laddr (sd_session d))) (sd_conn d)).

Lemma bd_exec_sent s ev s' : bd_inv s -> bd_exec s ev = Some s' ->
  forall d, d ∈ sy_sent s' -> d ∈ sy_sent s \/ from_event [ev] d.
Proof.
  intros Hs. destruct ev; cbn; try (intros [= <-]; by left).
  - intros ([fate m] & E & [= <-])%bind_Some. by left.
  - intros (l & E & ([r l'] & E' & [= <-])%bind_Some)%bind_Some. by left.
  - intros (l & E & [= <-])%bind_Some. by left.
  - intros ([[err sent] m'] & E & [= <-])%bind_Some d. cbn. destruct sent as [[p sess]|]; [|by left].
    rewrite elem_of_app, list_elem_of_singleton. intros [?|Ed]; [by left|right]. subst d. unfold readUDP in E.
    apply bind_Some in E as (l & El & E). destruct (pool_Get _ _ _ _) as [[buf l'] m1] eqn:Eg.
    destruct (pool_Get_taken _ (sy_held s) _ _ _ _ _ _ (bi_idx _ Hs) (bi_excl _ Hs) (bi_bodies _ Hs) El Eg) as [Ec _].
    cbn [alloc] in E. destruct (readPacketSession _ _ _ _ _ _) as [body' res] eqn:Er.
    apply readPacketSession_spec in Er as [_ Hres]. destruct res as [sess0|]; [|done].
    destruct (packetConn _ _) as [p0|] eqn:Ep; [|done]. apply bind_Some in E as (c & _ & E).
    apply bind_Some in E as ([ok c'] & _ & E). destruct ok; [|done]. injection E as _ -> -> _.
    destruct (Hres sess eq_refl) as (_ & _ & data & sa & -> & Hsa).
    exists (ps_raddr sess), sa, pick. cbn. split_and!; [left|done|done|]. rewrite El. cbn.
    destruct (inv_conns _ (bi_idx _ Hs) id l El) as (Hok & _). rewrite Ec in Ep.
    intros Ha. by apply first_containing_longest.
  - intros ([r m] & E & [= <-])%bind_Some. destruct r as [[]|]; by left.
  - destruct (bool_decide _); [|done]. intros ([r m] & E & [= <-])%bind_Some. destruct r; by left.
  - intros ([r m] & E & [= <-])%bind_Some. by left.
  - intros (c & E & [= <-])%bind_Some. by left.
  - intros (c & E & [= <-])%bind_Some. by left.
Qed.

Lemma from_event_mono evs evs' d : evs ⊆ evs' -> from_event evs d -> from_event evs' d.
Proof. intros Hsub (ra & sa & pick & Hin & H). exists ra, sa, pick. split; [by apply Hsub|done]. Qed.

Lemma bd_run_inv evs : forall s s', bd_inv s -> Forall event_ok evs -> bd_run s evs = Some s' ->
  bd_inv s' /\ forall d, d ∈ sy_sent s' -> d ∈ sy_sent s \/ from_event evs d.
Proof.
  induction evs as [|ev evs IH]; intros s s' Hs Hev; cbn.
  { intros [= <-]. split; [done|]. by left. }
  apply Forall_cons in Hev as [Hev Hevs]. intros (s1 & E1 & E)%bind_Some.
  destruct (IH s1 s' (bd_exec_inv _ _ _ Hs Hev E1) Hevs E) as [Hs' Hd]. split; [done|].
  intros d [Hd1|Hd1]%Hd.
  - destruct (bd_exec_sent s ev s1 Hs E1 d Hd1) as [?|Hf]; [by left|right].
    eapply from_event_mono; [|exact Hf]. set_solver.
  - right. eapply from_event_mono; [|exact Hd1]. set_solver.
Qed.

(** C36. Datagrams arrive where they should, as they were sent: whatever the calls
    and their order, with each session answered at most once, as the DNS server
    does, a packet connection reads the datagrams that were sent to it, each once
    and in order, with the bytes that were received although their
    buffers are reused; and each is one that was received on its interface, with
    the addresses of its session, and with a destination for which the packet
    connection is that of the narrowest subnet. *)
Theorem datagrams_intact n evs s p :
  Forall event_ok evs -> bd_run (sys0 n) evs = Some s ->
  Forall2 delivered (reads_at s p) (take (length (reads_at s p)) (sent_to s p)) /\
  sd_session <$> sent_to s p = (rd_session <$> reads_at s p) ++ queue_at (sy_m s) p /\
  Forall (from_event evs) (sent_to s p).
Proof.
  intros Hev E. destruct (bd_run_inv evs _ _ (bd_inv_sys0 n) Hev E) as [Hs Hd].
  destruct (bi_udp _ Hs p) as (dn & pe & Es & Hdn & Hpe). rewrite Es. split_and!.
  - by rewrite (Forall2_length _ _ _ Hdn), take_app_length.
  - rewrite fmap_app. f_equal.
    + clear -Hdn. induction Hdn as [|r d rs ds [Hr _] _ IH]; [done|]. cbn. by rewrite Hr, IH.
    + clear -Hpe. induction Hpe as [|x d rs ds [Hr _] _ IH]; [done|]. cbn. by rewrite Hr, IH.
  - rewrite <- Es. apply Forall_forall. intros d Hin. apply list_elem_of_filter in Hin as [_ Hin].
    destruct (Hd d Hin) as [Hn%elem_of_nil|?]; done.
Qed.

(** Connections arrive where they should: in every reachable state a
    connection goes to the listener of the narrowest subnet with its local address,
    and is closed exactly if no subnet contains it; and a listener accepts the
    connections that were sent to it, each once and in order. *)
Theorem connections_routed n evs s :
  Forall event_ok evs -> bd_run (sys0 n) evs = Some s ->
  (forall p, routed_to s p = accepted_from s p ++ conns_at (sy_m s) p) /\
  forall id l conn fate m', m_ifaceListeners (sy_m s) !! id = Some l -> addr_ok (tc_laddr conn) ->
    processConn (sy_m s) id conn = Some (fate, m') ->
    match fate with
    | ConnSent p | ConnChannelClosed p => longest_match (listeners (il_conns l)) (tc_laddr conn) p
    | ConnClosed => forall subnet p, (subnet, p) ∈ listeners (il_conns l) -> prefix_contains subnet (tc_laddr conn) = false
    end.
Proof.
  intros Hev E. destruct (bd_run_inv evs _ _ (bd_inv_sys0 n) Hev E) as [Hs _]. split; [apply Hs|].
  intros id l conn fate m' El Ha Ep. unfold processConn in Ep. rewrite El in Ep. cbn in Ep.
  destruct (inv_conns _ (bi_idx _ Hs) id l El) as (_ & Hok & _).
  destruct (listener (il_conns l) (tc_laddr conn)) as [p|] eqn:Elk.
  - apply bind_Some in Ep as (lsnr & _ & Ep). apply bind_Some in Ep as ([ok lsnr'] & _ & [= <- _]).
    apply (first_containing_longest _ _ _ Hok Ha) in Elk. by destruct ok.
  - injection Ep as <- _. intros subnet p Hin. destruct (prefix_contains _ _) eqn:Ec; [|done]. exfalso.
    unfold listener, first_containing in Elk. destruct (filter _ _) as [|c cs] eqn:Ef; [|done].
    apply (filter_nil_not_elem_of _ _ (subnet, p)) in Ef; [done|]. exact Ec.
Qed.
End system.

(** ** Examples *)

(** An interface with a network of sixteen bits, of which two subnets have
    listeners. *)
Definition some_iface (name : string) : result error (result error (list Prefix)) :=
  Ok (Ok [{| p_ip := Addr4 0x0a000000; p_bits := 16 |}]).
Definition wide : Prefix := {| p_ip := Addr4 0x0a000000; p_bits := 16 |}.
Definition narrow : Prefix := {| p_ip := Addr4 0x0a000100; p_bits := 24 |}.
Definition some_dgram (data : string) (dst : Z) : msg_read :=
  Ok (data, {| ap_addr := Addr4 0x01020304; ap_port := 5353 |}, Ok [Ok (SockaddrInet4 dst 53)]).

Definition set_up : list event := [EAdd "eth0" "eth0" 53; EListen "eth0" wide; EListen "eth0" narrow].

(** Two datagrams; the first is read and answered, its buffer is used for the
    third, and the second is then read. *)
Definition some_events : list event := set_up ++
  [ERead "eth0" (some_dgram "query one" 0x0a000105) 0; ERead "eth0" (some_dgram "query two" 0x0a000205) 0;
   EReadSession 0 3 512 false;
   EWrite 0 3 "answer" {| ps_id := 5; ps_laddr := {| ap_addr := Addr4 0x0a000105; ap_port := 53 |};
     ps_raddr := {| ap_addr := Addr4 0x01020304; ap_port := 5353 |}; ps_buf := 4; ps_len := 9; ps_respOOB := "oob" |} false;
   EWriteUDP "eth0" {| wc_set := None; wc_write := (6, None); wc_reset := None |};
   ERead "eth0" (some_dgram "query three" 0x0a000206) 0; EReadSession 0 1 512 false].

Definition some_run (evs : list event) : option sys :=
  bd_run some_iface (fun _ => "oob"%string) (fun _ _ => "oob"%string) (sys0 4) evs.

Definition texts_read (s : option sys) (p : nat) : option (list string) :=
  s ← s; Some (rd_data <$> reads_at s p).

(** The buffer of the first datagram is indeed used again. *)
Example buffers_reused :
  texts_read (some_run some_events) 3 = Some ["query one"%string] /\
  texts_read (some_run some_events) 1 = Some ["query two"%string] /\
  (s ← some_run some_events; Some (ps_buf ∘ sd_session <$> sy_sent s)) = Some [4; 6; 4]%nat.
Proof. vm_compute. done. Qed.

Lemma datagrams_intact_witness :
  exists s, some_run some_events = Some s /\ rd_data <$> reads_at s 1 = ["query two"%string] /\
    Forall2 delivered (reads_at s 1) (take 1 (sent_to s 1)) /\
    Forall (from_event (fun _ => "oob"%string) (fun _ _ => "oob"%string) some_events) (sent_to s 1).
Proof.
  destruct (some_run some_events) as [s|] eqn:E; [|vm_compute in E; discriminate E].
  assert (rd_data <$> reads_at s 1 = ["query two"%string]) as Er.
  { pose proof (f_equal (fun x => texts_read x 1) E) as Ht. cbn [texts_read] in Ht. vm_compute in Ht. injection Ht as ->. reflexivity. }
  exists s. split; [reflexivity|]. split; [exact Er|].
  destruct (datagrams_intact some_iface (fun _ => "oob"%string) (fun _ _ => "oob"%string) 4 some_events s 1) as (H1 & _ & H3);
    [|exact E|].
  { repeat (apply Forall_cons; split); try exact I; [vm_compute; split; [discriminate|reflexivity]..|constructor]. }
  apply (f_equal length) in Er. rewrite length_fmap in Er. rewrite Er in H1. split; [exact H1|exact H3].
Defined.

Definition some_conn : TCPConn := {| tc_id := 1; tc_laddr := Addr4 0x0a000107 |}.

Lemma connections_routed_witness :
  exists s l m', some_run set_up = Some s /\ m_ifaceListeners (sy_m s) !! "eth0"%string = Some l /\
    processConn (sy_m s) "eth0" some_conn = Some (ConnSent 2, m') /\
    longest_match (listeners (il_conns l)) (tc_laddr some_conn) 2.
Proof.
  destruct (some_run set_up) as [s|] eqn:E; [|vm_compute in E; discriminate E].
  destruct (connections_routed some_iface (fun _ => "oob"%string) (fun _ _ => "oob"%string) 4 set_up s) as [_ H2];
    [|exact E|].
  { repeat (apply Forall_cons; split); try exact I; [vm_compute; split; [discriminate|reflexivity]..|constructor]. }
  vm_compute in E. injection E as <-. do 3 eexists. split; [reflexivity|]. split; [reflexivity|]. split; [reflexivity|].
  eapply (H2 "eth0"%string _ some_conn (ConnSent 2)); [reflexivity|vm_compute; split; [discriminate|reflexivity]|reflexivity].
Defined.

(** A connection to a listener that has been closed is neither delivered nor
    closed. *)
Theorem closed_listener_leaks_conn :
  (s ← some_run (set_up ++ [ECloseListener 2; EConn "eth0" some_conn]);
   '(fate, _) ← processConn (sy_m s) "eth0" some_conn; Some (fate, conns_at (sy_m s) 2)) =
  Some (ConnChannelClosed 2, []).
Proof. vm_compute. done. Qed.
