(* ===== verification/Recorders.v ===== *)
(** What is recorded about queries: internal/billstat, internal/rulestat, internal/dnsdb
    and internal/querylog.

    The uploads and the files are outside: an upload is an event that succeeds or fails. *)

From S2P Require Import Prelude GoStd NetIP HumanID DnsMsg Filter FilterConfig Agd MainMW.

Open Scope Z_scope.

(** Arithmetic of int32. *)
Definition i32 (z : Z) : Z := (z + 2 ^ 31) mod 2 ^ 32 - 2 ^ 31.

Lemma i32_small z : 0 <= z < 2 ^ 31 -> i32 z = z.
Proof. intros Hz. unfold i32. rewrite Z.mod_small; lia. Qed.

(** * billstat *)

Record BillRec := {
  br_Time : Z;
  br_Country : string;
  br_ASN : Z;
  br_Queries : Z;
  br_Proto : Z;
}.

Notation Records := (gmap string BillRec).

Definition bill_Record (records : Records) (r : BillRecord) : Records :=
  let queries := match records !! bl_DeviceID r with None => 1 | Some rec => i32 (br_Queries rec + 1) end in
  <[bl_DeviceID r := {| br_Time := bl_Start r; br_Country := bl_Country r; br_ASN := bl_ASN r; br_Queries := queries;
                        br_Proto := bl_Protocol r |}]> records.

(** The records that are to be uploaded, and the new ones. *)
Definition resetRecords (records : Records) : Records * Records := (records, ∅).

(** What [remergeRecords] does to one device; the order of the devices does not matter. *)
Definition remerge_one (curr prev : option BillRec) : option BillRec :=
  match curr, prev with
  | Some curr, Some prev =>
      Some {| br_Time := br_Time curr; br_Country := br_Country curr; br_ASN := br_ASN curr;
              br_Queries := i32 (br_Queries curr + br_Queries prev); br_Proto := br_Proto curr |}
  | Some curr, None => Some curr
  | None, prev => prev
  end.

Definition remergeRecords (records prev : Records) : Records := merge remerge_one records prev.

(** A query is recorded; a refresh begins, and ends with the error of the upload. *)
Inductive bill_event :=
  | BillQuery (r : BillRecord)
  | BillBegin
  | BillEnd (err : option error).

(** The recorder, the records of a running refresh, and what has been uploaded. *)
Record bill_state := { bs_records : Records; bs_uploading : option Records; bs_uploaded : list Records }.

(** [RuntimeRecorder.Refresh] in its two halves, between which queries are recorded.  The
    refreshes run one after another. *)
Definition bill_step (s : bill_state) (ev : bill_event) : bill_state :=
  match ev with
  | BillQuery r => {| bs_records := bill_Record (bs_records s) r; bs_uploading := bs_uploading s; bs_uploaded := bs_uploaded s |}
  | BillBegin =>
      match bs_uploading s with
      | Some _ => s
      | None =>
          let '(records, new) := resetRecords (bs_records s) in
          {| bs_records := new; bs_uploading := Some records; bs_uploaded := bs_uploaded s |}
      end
  | BillEnd err =>
      match bs_uploading s with
      | None => s
      | Some records =>
          match err with
          | None => {| bs_records := bs_records s; bs_uploading := None; bs_uploaded := records :: bs_uploaded s |}
          | Some _ => {| bs_records := remergeRecords (bs_records s) records; bs_uploading := None; bs_uploaded := bs_uploaded s |}
          end
      end
  end.

Definition bill_run : list bill_event -> bill_state :=
  foldl bill_step {| bs_records := ∅; bs_uploading := None; bs_uploaded := [] |}.

(** ** Facts *)

Definition queries_in (id : string) (m : Records) : Z := match m !! id with Some r => br_Queries r | None => 0 end.

Definition queries_of (id : string) (evs : list bill_event) : list BillRecord :=
  omap (fun ev => match ev with BillQuery r => if decide (bl_DeviceID r = id) then Some r else None | _ => None end) evs.

Definition uploaded_for (id : string) (l : list Records) : Z := foldr (fun m z => queries_in id m + z) 0 l.

(** A record says what the query says. *)
Definition describes (b : BillRec) (r : BillRecord) : Prop :=
  br_Time b = bl_Start r /\ br_Country b = bl_Country r /\ br_ASN b = bl_ASN r /\ br_Proto b = bl_Protocol r.

(** The record of a device which is not uploaded yet. *)
Definition not_uploaded (id : string) (s : bill_state) : option BillRec :=
  match bs_records s !! id with
  | Some b => Some b
  | None => bs_uploading s ≫= (.!! id)
  end.

Definition uploading_for (id : string) (s : bill_state) : Z :=
  match bs_uploading s with Some m => queries_in id m | None => 0 end.

Definition bill_inv (id : string) (s : bill_state) (qs : list BillRecord) : Prop :=
  0 <= queries_in id (bs_records s) /\ 0 <= uploading_for id s /\ 0 <= uploaded_for id (bs_uploaded s) /\
  uploaded_for id (bs_uploaded s) + uploading_for id s + queries_in id (bs_records s) = Z.of_nat (length qs) /\
  forall b, not_uploaded id s = Some b -> exists r, last qs = Some r /\ describes b r.

Lemma bill_step_inv id s qs ev : bill_inv id s qs -> Z.of_nat (length (qs ++ queries_of id [ev])) < 2 ^ 31 ->
  bill_inv id (bill_step s ev) (qs ++ queries_of id [ev]).
Proof.
  intros (H1 & H2 & H3 & H4 & H5) Hb. unfold bill_inv, uploading_for, not_uploaded in *.
  destruct ev as [r| |err]; unfold queries_of in *; cbn [omap list_omap] in *.
  - cbn [bill_step bs_records bs_uploading bs_uploaded]. unfold bill_Record, queries_in in *.
    destruct (decide (bl_DeviceID r = id)) as [<-|Hne].
    + rewrite lookup_insert_eq. cbn [br_Queries]. rewrite length_app in *. simpl length in *.
      assert (match bs_records s !! bl_DeviceID r with Some rec => i32 (br_Queries rec + 1) | None => 1 end =
        match bs_records s !! bl_DeviceID r with Some rec => br_Queries rec | None => 0 end + 1) as Hq.
      { destruct (bs_records s !! bl_DeviceID r) as [rec|]; [|done]. apply i32_small. lia. }
      rewrite Hq. split_and!; try lia. intros b [= <-]. exists r. by rewrite last_snoc.
    + rewrite lookup_insert_ne, app_nil_r by done. by split_and!.
  - rewrite app_nil_r in *. unfold bill_step, queries_in in *.
    destruct (bs_uploading s) as [m|] eqn:Eu; [by rewrite Eu; split_and!|]. cbn [resetRecords bs_records bs_uploading bs_uploaded].
    rewrite lookup_empty. split_and!; try lia. intros b Hb'. apply H5. simpl in Hb'. by rewrite Hb'.
  - rewrite app_nil_r in *. unfold bill_step.
    destruct (bs_uploading s) as [m|] eqn:Eu; [|by rewrite Eu; split_and!].
    destruct err as [err|]; cbn [bs_records bs_uploading bs_uploaded].
    + set (u := uploaded_for id (bs_uploaded s)) in *. clearbody u. unfold queries_in, remergeRecords in *. rewrite lookup_merge. cbn [option_bind mbind] in H5.
      destruct (bs_records s !! id) as [c|], (m !! id) as [p|]; simpl in *; split_and!; try lia; try (rewrite i32_small; lia); try exact H5.
      intros b [= <-]. destruct (H5 c eq_refl) as (r & Hl & Hd). by exists r.
    + change (uploaded_for id (m :: bs_uploaded s)) with (queries_in id m + uploaded_for id (bs_uploaded s)). split_and!; try lia. intros b Hb'. apply H5. by destruct (bs_records s !! id).
Qed.

Lemma bill_history id evs : Z.of_nat (length (queries_of id evs)) < 2 ^ 31 -> bill_inv id (bill_run evs) (queries_of id evs).
Proof.
  unfold bill_run. induction evs as [|ev evs IH] using rev_ind; intros Hb.
  { unfold bill_inv, queries_in, uploading_for, not_uploaded. simpl. rewrite lookup_empty. by split_and!. }
  assert (queries_of id (evs ++ [ev]) = queries_of id evs ++ queries_of id [ev]) as E by apply omap_app.
  rewrite E in *. rewrite foldl_app. apply bill_step_inv; [|done]. apply IH. rewrite length_app in Hb. lia.
Qed.

(** C26. Billing.  After any history of queries and of uploads that succeed or fail, with
    queries recorded while an upload runs, every query of a device has been counted once:
    in a successful upload, in the running one, or among the records that wait; and the
    record that waits, or else the one being uploaded, has the time, the place and the
    protocol of the device's latest query.  A device may not have made two to the power of
    31 queries. *)
Theorem bills_conserved id evs : Z.of_nat (length (queries_of id evs)) < 2 ^ 31 ->
  let s := bill_run evs in
  uploaded_for id (bs_uploaded s) + uploading_for id s + queries_in id (bs_records s) =
    Z.of_nat (length (queries_of id evs)) /\
  forall b, not_uploaded id s = Some b -> exists r, last (queries_of id evs) = Some r /\ describes b r.
Proof. intros Hb. destruct (bill_history id evs Hb) as (_ & _ & _ & H4 & H5). done. Qed.

Definition a_bill (t : Z) : BillRecord :=
  {| bl_DeviceID := "dev1234"; bl_Country := "NL"; bl_ASN := 42; bl_Start := t; bl_Protocol := 8 |}.

Definition bill_events : list bill_event :=
  [BillQuery (a_bill 1); BillBegin; BillQuery (a_bill 2); BillEnd (Some (ErrConst "timeout")); BillQuery (a_bill 3); BillBegin;
   BillEnd None; BillQuery (a_bill 4)].

Lemma bills_conserved_witness :
  uploaded_for "dev1234" (bs_uploaded (bill_run bill_events)) + uploading_for "dev1234" (bill_run bill_events) +
    queries_in "dev1234" (bs_records (bill_run bill_events)) = 4.
Proof. apply (bills_conserved "dev1234" bill_events). vm_compute. reflexivity. Defined.

(** * rulestat *)

Definition IDAdGuardDNS : string := "adguard_dns_filter".
Definition statFilterListLegacyID : string := "15".

Record RuleStats := { rst_stats : gmap string (gmap string Z); rst_recordedHits : Z }.

Definition NewHTTP : RuleStats := {| rst_stats := ∅; rst_recordedHits := 0 |}.

Definition Collect (s : RuleStats) (id text : string) : RuleStats :=
  if negb (bool_decide (id = IDAdGuardDNS)) then s
  else
    let id := statFilterListLegacyID in
    {| rst_recordedHits := i64 (rst_recordedHits s + 1);
       rst_stats :=
         match rst_stats s !! id with
         | Some texts => <[id := <[text := u64 (default 0 (texts !! text) + 1)]> texts]> (rst_stats s)
         | None => <[id := {[text := 1]}]> (rst_stats s)
         end |}.

Definition replaceStats (s : RuleStats) : gmap string (gmap string Z) * RuleStats := (rst_stats s, NewHTTP).

(** [refresh]: what is sent, and the collector afterwards, however the upload ends. *)
Definition stat_refresh := replaceStats.

(** ** Facts *)

Definition hits (s : RuleStats) (text : string) : Z :=
  default 0 (rst_stats s !! statFilterListLegacyID ≫= (.!! text)).

Definition collected (text : string) (l : list (string * string)) : nat :=
  length (filter (fun p => p = (IDAdGuardDNS, text)) l).

(** The statistics count the rules of the main list, and nothing else. *)
Lemma rule_hits l text : Z.of_nat (length l) < 2 ^ 63 ->
  let s := foldl (fun s p => Collect s p.1 p.2) NewHTTP l in
  hits s text = Z.of_nat (collected text l) /\ rst_recordedHits s = Z.of_nat (length (filter (fun p => p.1 = IDAdGuardDNS) l)).
Proof.
  simpl. induction l as [|[id t] l IH] using rev_ind; intros Hl; [done|]. rewrite length_app in Hl. simpl in Hl.
  destruct IH as [IH1 IH2]; [lia|]. rewrite foldl_app. simpl foldl. set (s := foldl _ NewHTTP l) in *.
  unfold collected in *. rewrite !filter_app, !length_app.
  pose proof (length_filter (fun p => p = (IDAdGuardDNS, text)) l). pose proof (length_filter (fun p => p.1 = IDAdGuardDNS) l).
  unfold Collect. destruct (bool_decide (id = IDAdGuardDNS)) eqn:Ei; cbn [negb].
  - apply bool_decide_eq_true in Ei as ->. unfold hits in *. cbn [rst_stats rst_recordedHits]. split.
    + assert (forall x, 0 <= x < 2 ^ 63 -> u64 (x + 1) = x + 1) as Hu
        by (intros x Hx; unfold u64, modulus64; rewrite Z.mod_small; lia).
      destruct (rst_stats s !! statFilterListLegacyID) as [texts|] eqn:Es; rewrite lookup_insert_eq; cbn [mbind option_bind] in *.
      * destruct (decide (t = text)) as [->|Hne].
        -- rewrite lookup_insert_eq. cbn [default]. rewrite IH1, Hu by lia. rewrite filter_cons_True by done. simpl. lia.
        -- rewrite lookup_insert_ne by done. rewrite IH1, filter_cons_False by congruence. simpl. lia.
      * destruct (decide (t = text)) as [->|Hne].
        -- rewrite lookup_singleton_eq. cbn [default] in *. rewrite filter_cons_True by done. simpl. lia.
        -- rewrite lookup_singleton_ne by done. cbn [default] in *. rewrite filter_cons_False by congruence. simpl. lia.
    + rewrite filter_cons_True by done. simpl. rewrite IH2, i64_small; lia.
  - apply bool_decide_eq_false in Ei. rewrite !filter_cons_False by (simpl; congruence). simpl. rewrite IH1, IH2. lia.
Qed.

(** * dnsdb *)

Record recordAnswer := { ra_value : string; ra_rrType : Z; ra_rcode : Z }.

#[export] Instance recordAnswer_eq_dec : EqDecision recordAnswer.
Proof. solve_decision. Defined.
#[export] Instance recordAnswer_countable : Countable recordAnswer.
Proof.
  refine (inj_countable' (fun a => (ra_value a, ra_rrType a, ra_rcode a))
    (fun '(v, t, c) => {| ra_value := v; ra_rrType := t; ra_rcode := c |}) _). by intros [].
Defined.

(** The key is the host and the type of the question. *)
Record recordValue := { rv_answers : gset recordAnswer; rv_hits : Z }.

Record buffer := { bu_entries : gmap (string * Z) recordValue; bu_maxSize : Z }.

Record dbRecord := { dr_target : string; dr_answer : string; dr_hits : Z; dr_rrType : Z; dr_rcode : Z }.

Section dnsdb.
(** [net.IP.String]. *)
Context (ip_String : Addr -> string) `{UnicodeCase}.

Definition answerString (rr : RR) : string :=
  match rr_Data rr with
  | RD_A ip | RD_AAAA ip => ip_String ip
  | RD_CNAME target => TrimSuffix target "."
  | _ => EmptyString
  end.

Definition toAnswerSet (answers : list RR) (rc : Z) : gset recordAnswer :=
  list_to_set (omap (fun a =>
    let ansStr := answerString a in
    if bool_decide (ansStr = EmptyString) then None
    else Some {| ra_value := ansStr; ra_rrType := rh_Rrtype (rr_Hdr a); ra_rcode := rc |}) answers).

(** The number of records, and whether one was added. *)
Definition buffer_add (b : buffer) (target : string) (answers : list RR) (qt rc : Z) : Z * bool * buffer :=
  let count := Z.of_nat (size (bu_entries b)) in
  if bu_maxSize b <=? count then (count, false, b)
  else match bu_entries b !! (target, qt) with
  | Some prev =>
      (count, false,
       {| bu_entries := <[(target, qt) := {| rv_answers := rv_answers prev; rv_hits := u64 (rv_hits prev + 1) |}]> (bu_entries b);
          bu_maxSize := bu_maxSize b |})
  | None =>
      (count + 1, true,
       {| bu_entries := <[(target, qt) := {| rv_answers := toAnswerSet answers rc; rv_hits := 1 |}]> (bu_entries b);
          bu_maxSize := bu_maxSize b |})
  end.

(** The records of an entry. *)
Definition entry_records (e : string * Z * recordValue) : list dbRecord :=
  let '(target, qt, val) := e in
  if bool_decide (rv_answers val = ∅)
  then [{| dr_target := target; dr_answer := EmptyString; dr_hits := rv_hits val; dr_rrType := qt; dr_rcode := 0 |}]
  else (fun a => {| dr_target := target; dr_answer := ra_value a; dr_hits := rv_hits val; dr_rrType := ra_rrType a;
                    dr_rcode := ra_rcode a |}) <$> elements (rv_answers val).

Definition buffer_all (b : buffer) : list dbRecord := map_to_list (bu_entries b) ≫= entry_records.

Definition isIgnoredMessage (m : option Msg) : bool :=
  match m with
  | None => true
  | Some m => negb (m_Response m) || negb (length (m_Question m) =? 1)%nat || negb (m_Rcode m =? RcodeSuccess)
  end.

Definition isIgnoredQuestion (q : Question) : bool :=
  (negb (q_Qtype q =? TypeA) && negb (q_Qtype q =? TypeAAAA)) ||
  negb (bool_decide (AndroidMetricDomainReplacement (q_Name q) = EmptyString)).

Definition new_buffer (maxSize : Z) : buffer := {| bu_entries := ∅; bu_maxSize := maxSize |}.

Definition db_Record (b : buffer) (m : option Msg) (host : string) : buffer :=
  if isIgnoredMessage m then b
  else match m with
  | Some m =>
      match m_Question m with
      | q :: _ => if isIgnoredQuestion q then b else (buffer_add b host (m_Answer m) (q_Qtype q) (m_Rcode m)).2
      | [] => b
      end
  | None => b
  end.

(** [reset]: the records, and the database with a new buffer. *)
Definition db_reset (b : buffer) : list dbRecord * buffer := (buffer_all b, new_buffer (bu_maxSize b)).

(** [dns.TypeToString] and [dns.RcodeToString]. *)
Definition record_csv (TypeToString RcodeToString : Z -> string) (r : dbRecord) : list string :=
  [dr_target r; TypeToString (dr_rrType r); RcodeToString (dr_rcode r); dr_answer r; itoa (dr_hits r)].

(** ** Facts *)

(** Responses that are added to the buffer. *)
Record db_add := { da_target : string; da_answers : list RR; da_qt : Z; da_rc : Z }.

Definition db_run (maxSize : Z) : list db_add -> buffer :=
  foldl (fun b a => (buffer_add b (da_target a) (da_answers a) (da_qt a) (da_rc a)).2) (new_buffer maxSize).

Definition adds_for (key : string * Z) (l : list db_add) : list db_add :=
  filter (fun a => (da_target a, da_qt a) = key) l.

Definition db_inv (maxSize : Z) (b : buffer) (l : list db_add) : Prop :=
  bu_maxSize b = maxSize /\ Z.of_nat (size (bu_entries b)) <= maxSize /\
  (Z.of_nat (size (bu_entries b)) < maxSize ->
   forall key, match adds_for key l with
               | [] => bu_entries b !! key = None
               | a :: rest => bu_entries b !! key =
                   Some {| rv_answers := toAnswerSet (da_answers a) (da_rc a); rv_hits := Z.of_nat (length (a :: rest)) |}
               end).

Lemma db_add_inv maxSize b l a : db_inv maxSize b l -> Z.of_nat (length l) + 1 < 2 ^ 64 ->
  db_inv maxSize (buffer_add b (da_target a) (da_answers a) (da_qt a) (da_rc a)).2 (l ++ [a]).
Proof.
  intros (Hm & Hs & Hk) Hl. unfold buffer_add. rewrite Hm.
  destruct (maxSize <=? Z.of_nat (size (bu_entries b))) eqn:Ef; [split_and!; try done; simpl; lia|].
  assert (Z.of_nat (size (bu_entries b)) < maxSize) as Hlt by lia. specialize (Hk Hlt). clear Ef.
  set (k := (da_target a, da_qt a)). pose proof (Hk k) as Ha.
  assert (forall key, adds_for key (l ++ [a]) = adds_for key l ++ if decide (k = key) then [a] else []) as Hadd.
  { intros key. unfold adds_for. rewrite filter_app. f_equal. }
  destruct (adds_for k l) as [|a0 rest] eqn:Er; rewrite Ha; cbn [snd].
  - split; [done|]. cbn [bu_entries bu_maxSize]. rewrite map_size_insert_None by done. split; [lia|]. intros _ key. rewrite Hadd.
    destruct (decide (k = key)) as [<-|Hne]; [by rewrite Er, lookup_insert_eq|].
    rewrite lookup_insert_ne, app_nil_r by done. apply Hk.
  - split; [done|]. cbn [bu_entries bu_maxSize]. rewrite map_size_insert_Some by by eexists. split; [lia|]. intros _ key. rewrite Hadd.
    destruct (decide (k = key)) as [<-|Hne].
    + rewrite Er, lookup_insert_eq. simpl app. cbn iota. cbn [rv_answers rv_hits]. do 2 f_equal.
      assert (length (a0 :: rest) <= length l)%nat as Hle by (rewrite <- Er; apply length_filter).
      unfold u64, modulus64. rewrite Z.mod_small by lia. simpl. rewrite length_app. simpl. lia.
    + rewrite lookup_insert_ne, app_nil_r by done. apply Hk.
Qed.

Lemma db_history maxSize l : 0 <= maxSize -> Z.of_nat (length l) < 2 ^ 64 -> db_inv maxSize (db_run maxSize l) l.
Proof.
  intros Hm. unfold db_run. induction l as [|a l IH] using rev_ind; intros Hl.
  - split; [done|]. simpl. rewrite map_size_empty. split; [lia|]. intros _ key. simpl. apply lookup_empty.
  - rewrite length_app in Hl. simpl in Hl. rewrite foldl_app. apply db_add_inv; [apply IH|]; lia.
Qed.

(** The DNS database.  The buffer never has more records than its size allows; and while
    it has fewer, it has for every host and type that was asked for the number of the
    responses and the answers of the first one, and nothing else. *)
Theorem dnsdb_counts maxSize l : 0 <= maxSize -> Z.of_nat (length l) < 2 ^ 64 ->
  let b := db_run maxSize l in
  Z.of_nat (size (bu_entries b)) <= maxSize /\
  (Z.of_nat (size (bu_entries b)) < maxSize -> forall key,
     match adds_for key l with
     | [] => bu_entries b !! key = None
     | a :: rest => bu_entries b !! key =
         Some {| rv_answers := toAnswerSet (da_answers a) (da_rc a); rv_hits := Z.of_nat (length (a :: rest)) |}
     end).
Proof. intros Hm Hl. by destruct (db_history maxSize l Hm Hl) as (_ & ? & ?). Qed.

(** A full buffer does not count.  The documentation says that a buffer which has reached
    its size can only increase the hits of its records; it does not do that either. *)
Theorem full_buffer_frozen b target answers qt rc : bu_maxSize b <= Z.of_nat (size (bu_entries b)) ->
  (buffer_add b target answers qt rc).2 = b.
Proof. intros Hf. unfold buffer_add. by rewrite (proj2 (Z.leb_le _ _) Hf). Qed.

End dnsdb.

Definition one_add : db_add := {| da_target := "example.org"; da_answers := []; da_qt := TypeA; da_rc := 0 |}.

Lemma dnsdb_counts_witness :
  bu_entries (db_run (fun _ => EmptyString) 3 [one_add; one_add]) !! ("example.org"%string, TypeA) =
  Some {| rv_answers := toAnswerSet (fun _ => EmptyString) [] 0; rv_hits := 2 |}.
Proof.
  refine (proj2 (dnsdb_counts (fun _ => EmptyString) 3 [one_add; one_add] _ _) _ ("example.org"%string, TypeA)).
  - lia.
  - vm_compute. reflexivity.
  - vm_compute. reflexivity.
Defined.

Lemma full_buffer_frozen_witness :
  let b := db_run (fun _ => EmptyString) 1 [one_add] in
  (buffer_add (fun _ => EmptyString) b "example.org" [] TypeA 0).2 = b.
Proof. intros b. apply full_buffer_frozen. vm_compute. discriminate. Defined.

(** * querylog *)

Definition resultCodeNone : Z := 1.
Definition resultCodeReqBlocked : Z := 2.
Definition resultCodeRespBlocked : Z := 3.
Definition resultCodeReqAllowed : Z := 4.
Definition resultCodeRespAllowed : Z := 5.
Definition resultCodeModified : Z := 6.

Definition toResultCode (r : option Result) (resp : bool) : Z :=
  match r with
  | None => resultCodeNone
  | Some (ResultAllowed _ _) => if resp then resultCodeRespAllowed else resultCodeReqAllowed
  | Some (ResultBlocked _ _) => if resp then resultCodeRespBlocked else resultCodeReqBlocked
  | Some (ResultModifiedResponse _ _ _) | Some (ResultModifiedRequest _ _ _) => resultCodeModified
  end.

Definition resultData (req resp : option Result) : Z * string * string :=
  match req with
  | None =>
      let '(id, r) := match resp with Some resp => MatchedRule resp | None => (EmptyString, EmptyString) end in
      (toResultCode resp true, id, r)
  | Some r0 => let '(id, r) := MatchedRule r0 in (toResultCode req false, id, r)
  end.

(** [Duration.Milliseconds] truncates. *)
Definition convertElapsed (elapsed : Z) : Z :=
  let elapsedMs64 := Z.quot elapsed 1000000 in
  if elapsedMs64 <? 0 then 0
  else if MaxUint32 <? elapsedMs64 then MaxUint32
  else elapsedMs64.

Record jsonlEntry := {
  jl_RemoteIP : option Addr;
  jl_ProfileID : string;
  jl_DeviceID : string;
  jl_ClientCountry : string;
  jl_ResponseCountry : string;
  jl_DomainFQDN : string;
  jl_FilterListID : string;
  jl_FilterRule : string;
  jl_Timestamp : Z;
  jl_ClientASN : Z;
  jl_Elapsed : Z;
  jl_AccountID : Z;
  jl_RequestType : Z;
  jl_ResponseCode : Z;
  jl_Random : Z;
  jl_ResultCode : Z;
  jl_DNSSEC : Z;
  jl_Stream : Z;
  jl_Protocol : Z;
}.

Definition BoolToNumber (b : bool) : Z := if b then 1 else 0.

(** The entry which [FileSystem.Write] serializes.  [unixMilli] is [Time.UnixMilli], [rnd]
    the random number, and [is_zero] compares with the zero address. *)
Definition jsonl_of (unixMilli : Z -> Z) (rnd : Z) (is_zero : Addr -> bool) (e : Entry) : jsonlEntry :=
  let '(c, id, r) := resultData (en_RequestResult e) (en_ResponseResult e) in {|
    jl_RemoteIP := if is_zero (en_RemoteIP e) then None else Some (en_RemoteIP e);
    jl_ProfileID := en_ProfileID e; jl_DeviceID := en_DeviceID e; jl_ClientCountry := en_ClientCountry e;
    jl_ResponseCountry := en_ResponseCountry e; jl_DomainFQDN := en_DomainFQDN e; jl_FilterListID := id; jl_FilterRule := r;
    jl_Timestamp := unixMilli (en_Time e); jl_ClientASN := en_ClientASN e; jl_Elapsed := convertElapsed (en_Elapsed e);
    jl_AccountID := en_AccountID e; jl_RequestType := en_RequestType e; jl_ResponseCode := en_ResponseCode e;
    jl_Random := rnd mod 2 ^ 16; jl_ResultCode := c; jl_DNSSEC := BoolToNumber (en_DNSSEC e);
    jl_Stream := BoolToNumber (en_Stream e); jl_Protocol := en_Protocol e |}.

(** The lines that are in the file after a write: [open_err], [encode] and [write_err] are
    what opening, encoding and writing return, and [acquire_err] what the semaphore does. *)
Definition log_Write (acquire_err open_err write_err : option error) (encode : jsonlEntry -> result error string)
    (file : list string) (ent : jsonlEntry) : option error * list string :=
  match acquire_err, open_err with
  | Some err, _ => (Some (ErrWrap "acquiring semaphore: %w" err), file)
  | None, Some err => (Some (ErrWrap "opening query log file: %w" err), file)
  | None, None =>
      match encode ent with
      | Err err => (Some (ErrWrap "writing log: %w" err), file)
      | Ok line =>
          match write_err with
          | Some err => (Some (ErrWrap "writing log: %w" err), file)
          | None => (None, file ++ [line])
          end
      end
  end.

(** ** Facts *)

(** The elapsed time always fits into the 32 bits of its field, and is exact when it can
    be. *)
Lemma convertElapsed_fits t : 0 <= convertElapsed t <= MaxUint32 /\
  (0 <= t <= MaxUint32 * 1000000 -> convertElapsed t = t / 1000000).
Proof.
  unfold convertElapsed, MaxUint32. split.
  - set (ms := Z.quot t 1000000). destruct (ms <? 0) eqn:E1; [lia|]. destruct (_ <? ms) eqn:E2; lia.
  - intros Ht. rewrite Z.quot_div_nonneg by lia. assert (0 <= t / 1000000 <= 2 ^ 32 - 1).
    { split; [apply Z.div_pos; lia|]. apply Z.lt_succ_r. apply Z.div_lt_upper_bound; lia. }
    set (ms := t / 1000000) in *. destruct (ms <? 0) eqn:E1; [lia|]. destruct (_ <? ms) eqn:E2; lia.
Qed.

(** What is logged of the filtering: the result for the request comes before the one for
    the response, and a rule is named if and only if there is a result. *)
Lemma logged_result unixMilli rnd is_zero e : let j := jsonl_of unixMilli rnd is_zero e in
  match en_RequestResult e, en_ResponseResult e with
  | Some r, _ => jl_ResultCode j = toResultCode (Some r) false /\ (jl_FilterListID j, jl_FilterRule j) = MatchedRule r
  | None, Some r => jl_ResultCode j = toResultCode (Some r) true /\ (jl_FilterListID j, jl_FilterRule j) = MatchedRule r
  | None, None => jl_ResultCode j = resultCodeNone /\ jl_FilterListID j = EmptyString /\ jl_FilterRule j = EmptyString
  end.
Proof.
  simpl. unfold jsonl_of, resultData. destruct (en_RequestResult e) as [r|]; [by destruct (MatchedRule r)|].
  destruct (en_ResponseResult e) as [r|]; [by destruct (MatchedRule r)|done].
Qed.
