(* ===== verification/Pipeline.v ===== *)
(** The chain of handlers of the DNS service: NewHandlers of internal/dnssvc.

    The middlewares are composed in the order of the code: rate limiting and
    access, initial, pre-service, main, pre-upstream, and then the cache or the
    upstreams, which are a handler given from outside.  The inner middlewares
    answer into a buffer, so that their writers do not fail. *)

From S2P Require Import Prelude GoStd NetIP HumanID Schedule HashPrefix Levenshtein DnsMsg Filter FilterConfig RuleList.
From S2P Require Import Composite Access Refreshable MsgConfig RuleListStorage DomainFilters FilterStorage RateLimit Agd.
From S2P Require Import MainMW RatelimitMW InitialMW PreMW.

Open Scope Z_scope.

Section pipeline.
Context `{Sha256} `{PublicSuffixList} `{Subdomains} `{MiekgDNS} `{SvcbParsers} `{UnicodeCase} `{Urlfilter}.
Context `{RC : AgdCache CacheKey (option DNSResult)} `{FC : AgdCache CacheKey (option Result)}.
Context `{IsSubdomainFn}.
Context (newID : Z) (rows : string -> string -> uints * uints * uints) (hint_string : SVCBKeyValue -> string).

(** *** The filter storage for the main middleware *)

Definition filter_obj (f : FilterInterface) : FilterObj := {|
  fo_Request := iface_FilterRequest f;
  fo_Response resp ip name :=
    match f, resp with
    | FilterEmpty, _ => Ret (Ok None)
    | FilterOf _, Some m =>
        iface_FilterResponse hint_string f {| fr_DNS := m; fr_RemoteIP := ip; fr_ClientName := name |}
    | FilterOf _, None => Panic "nil pointer dereference"
    end;
|}.

Definition storage_obj (s : FilterStorage) (rls : RuleListStorage) (now : Z) (c : FilterConfig) : outcome FilterObj :=
  let! f := ForConfig newID rows s rls now c in Ret (filter_obj f).

(** *** Handlers *)

(** The main middleware over a storage and a handler; [env] gives the rest of its
    environment. *)
Definition main_env (env : MwEnv) (storage : FilterConfig -> outcome FilterObj) (next : Handler) : MwEnv := {|
  me_storage := storage;
  me_next ri req := let! r := next ri req in Ret (match r with (Some err, _) => Err err | (None, m) => Ok m end);
  me_geo := me_geo env; me_to_addr := me_to_addr env; me_start := me_start env; me_now := me_now env;
  me_ctx := me_ctx env; me_write := None; me_querylog := me_querylog env; me_raddr := me_raddr env;
  me_laddr := me_laddr env;
|}.

(** The message that has been written last. *)
Definition last_written (ef : Effects) : option Msg := m ← last (ef_Written ef); m.2.

Definition main_handler (mw : Middleware) (env : MwEnv) (storage : FilterConfig -> outcome FilterObj) (next : Handler)
    : Handler := fun ri req =>
  let! r := main_ServeDNS mw (main_env env storage next) ri req in Ret (r.1, last_written r.2).

Definition preup_handler (next : Handler) : Handler := fun ri req =>
  let! r := preup_ServeDNS next None ri req in Ret r.1.

(** What [NewHandlers] needs of the service.  [hc_Handler] are the upstreams, behind the
    cache that the configuration asks for, if any; the middleware of a plugin is a
    function on handlers. *)
Record HandlersConfig := {
  hc_main : Middleware;
  hc_env : MwEnv;
  hc_storage : FilterStorage;
  hc_lists : RuleListStorage;
  hc_now : Z;
  hc_messages : Constructor;
  hc_matcher : string -> outcome (result error (list string * bool));
  hc_checker : Msg -> RequestInfo -> outcome (result error (option Msg));
  hc_ddr : DDRConfig;
  hc_PostInitialMiddleware : option (Handler -> Handler);
  hc_Handler : Handler;
}.

Definition wrapPreUpstreamMw (c : HandlersConfig) : Handler := preup_handler (hc_Handler c).

(** The handler that the middleware for rate limiting and access wraps. *)
Definition NewHandlers (c : HandlersConfig) : Handler :=
  let handler := wrapPreUpstreamMw c in
  let handler := main_handler (hc_main c) (hc_env c) (storage_obj (hc_storage c) (hc_lists c) (hc_now c)) handler in
  let handler := presvc_ServeDNS (hc_messages c) (hc_matcher c) (hc_checker c) handler None in
  let handler := match hc_PostInitialMiddleware c with Some wrap => wrap handler | None => handler end in
  init_ServeDNS (hc_ddr c) handler None.

End pipeline.

(** * Facts *)

Section facts.
Context `{Sha256} `{PublicSuffixList} `{Subdomains} `{MiekgDNS} `{!MiekgDNSSpec} `{SvcbParsers} `{UnicodeCase} `{Urlfilter}.
Context `{RC : AgdCache CacheKey (option DNSResult)} `{FC : AgdCache CacheKey (option Result)}.
Context `{IsSubdomainFn}.
Context (newID : Z) (rows : string -> string -> uints * uints * uints) (hint_string : SVCBKeyValue -> string).

Implicit Types (c : HandlersConfig) (ri : RequestInfo) (req : Msg).

(** An ordinary request: not of the CHAOS class nor for TXT records (which may be hash
    queries), with no special domain, not a DNS check, and not a metric domain; the
    context does not end and no plugin wraps the chain. *)
Record ordinary c ri req (q : Question) : Prop := {
  or_question : exists qs, m_Question req = q :: qs;
  or_class : q_Qclass q <> ClassCHAOS;
  or_type : ri_QType ri <> TypeTXT;
  or_special : reqInfoSpecialHandler (hc_ddr c) ri = None;
  or_check : hc_checker c (set_AuthenticatedData req true) ri = Ret (Ok None);
  or_metric : AndroidMetricDomainReplacement (q_Name q) = EmptyString;
  or_ctx : me_ctx (hc_env c) = None;
  or_plugin : hc_PostInitialMiddleware c = None;
}.

(** The filter of a request. *)
Definition the_filter c ri : outcome FilterObj :=
  mw_filter (main_env (hc_env c) (storage_obj newID rows hint_string (hc_storage c) (hc_lists c) (hc_now c))
    (wrapPreUpstreamMw c)) ri.

(** The chain of handlers on an ordinary request that is not rewritten.  The
    handler behind the chain is asked for the client's question with the AD bit
    set; its answer, or the one by which the filters of the request's
    configuration replace it, is given to the client, with the AD bit as the
    client has asked for it. *)
Lemma chain_answer c ri req q flt reqRes up respRes :
  let req' := set_AuthenticatedData req true in
  ordinary c ri req q -> modes_ok ri ->
  the_filter c ri = Ret flt ->
  fo_Request flt (reqInfoToFltReq req' ri) = Ret (Ok reqRes) ->
  (forall m l t, reqRes <> Some (ResultModifiedRequest m l t)) ->
  hc_Handler c ri req' = Ret (None, Some up) -> m_Question up <> [] ->
  fo_Response flt (Some up) (ri_RemoteIP ri) (client_name ri) = Ret (Ok respRes) ->
  (forall r, respRes = Some r -> modified r = false) ->
  exists a, answer_ok ri req' q reqRes up respRes a /\
    NewHandlers newID rows hint_string c ri req =
      Ret (None, Some (set_AuthenticatedData a (m_AuthenticatedData a && (m_AuthenticatedData req || IsDO req)))).
Proof.
  intros req' [(qs & Hq) Hc Ht Hs Hk Hm Hx Hpl] Hmodes Hf Hreq Hnm Hup Hupq Hresp Hfin.
  set (menv := main_env (hc_env c) (storage_obj newID rows hint_string (hc_storage c) (hc_lists c) (hc_now c))
    (wrapPreUpstreamMw c)).
  assert (me_next menv ri req' = Ret (Ok (Some up))) as Hn.
  { simpl. unfold wrapPreUpstreamMw, preup_handler, preup_ServeDNS, req'. simpl. rewrite (index_0 _ _ _ Hq). simpl.
    rewrite Hm. simpl. fold req'. by rewrite Hup. }
  destruct (main_answer_aux (hc_main c) menv ri req' q flt reqRes up respRes) as (a & ef & E & Hw & Ha).
  { split; try done; [by exists qs|by exists (Ok reqRes)| |by exists (Ok respRes)]. exists ri, req'. split; [|done].
    destruct reqRes as [[| | |m l t]|]; try done. by destruct (Hnm m l t). }
  { done. }
  exists a. split; [done|]. unfold NewHandlers, init_ServeDNS. rewrite Hs, Hpl. unfold presvc_ServeDNS at 1.
  destruct (Z.eqb_spec (ri_QType ri) TypeTXT) as [|_]; [done|]. rewrite Hk. simpl. unfold main_handler.
  fold menv req'. rewrite E. simpl. unfold last_written. by rewrite Hw.
Qed.

(** Without filtering, for the device or for the whole profile, the chain passes
    the question on and gives the answer back, up to the AD bit. *)
Lemma chain_unfiltered c ri req q p d up :
  let req' := set_AuthenticatedData req true in
  ordinary c ri req q -> modes_ok ri -> DeviceData ri = Some (p, d) ->
  p_FilteringEnabled p = false \/ d_FilteringEnabled d = false ->
  hc_Handler c ri req' = Ret (None, Some up) -> m_Question up <> [] ->
  NewHandlers newID rows hint_string c ri req =
    Ret (None, Some (set_AuthenticatedData up (m_AuthenticatedData up && (m_AuthenticatedData req || IsDO req)))).
Proof.
  intros req' Ho Hm Hd Hoff Hup Hq.
  destruct (chain_answer c ri req q (filter_obj hint_string FilterEmpty) None up None) as (a & Ha & E); try done.
  - unfold the_filter, mw_filter. rewrite Hd.
    assert (p_FilteringEnabled p && d_FilteringEnabled d = false) as -> by (apply andb_false_iff; tauto). done.
  - rewrite E. unfold answer_ok in Ha. by rewrite Ha.
Qed.

Context `{IPConv} `{SdeEncoding} `{MsgLen} `{RingBuffer} {S D : Type}.
Context (mw : RlMiddleware) (env : RlEnv (S := S) (D := D)).

(** C7. From the socket to the answer, without filtering.  Take a request of a known
    device that is let in by the access settings and the limits.  Let it be ordinary: it
    is not for TXT records nor of the CHAOS class, its domain is not one of the special
    ones (discovery of resolvers, canary domains and the like), of the DNS checks nor of
    the metrics that are replaced, the blocking modes are valid, the context does not
    end and no plugin adds a middleware.  If filtering is off for the device or for its profile, and the handler behind
    the chain responds, then exactly one message is written: the response of this
    handler to the request with the AD bit set, in which only the AD bit is cleared if
    the client has not asked for it. *)
Theorem unfiltered_end_to_end st c req raddr laddr q qs d p fs std up :
  let dr := Some (DeviceResultOK d p) in
  rm_next env = NewHandlers newID rows hint_string c ->
  m_Question req = q :: qs -> rm_finder env (rs_finder st) req raddr laddr = Ret (dr, fs) ->
  interfaces_return mw env st req q raddr dr -> rm_std env = SetConfig std ->
  let_in mw env st req q raddr dr std ->
  p_FilteringEnabled p = false \/ d_FilteringEnabled d = false ->
  (forall ri, request_info mw env req q raddr dr ri ->
     ordinary c ri req q /\ modes_ok ri /\ hc_Handler c ri (set_AuthenticatedData req true) = Ret (None, Some up)) ->
  m_Question up <> [] ->
  exists st' ef err, rl_ServeDNS mw env st req raddr laddr = Ret (st', ef, err) /\
    re_Written ef = [set_AuthenticatedData up (m_AuthenticatedData up && (m_AuthenticatedData req || IsDO req))].
Proof.
  intros dr Hnext Hq Hf Hi Hstd Hin Hoff Hri Hup.
  destruct (requests_gate mw env st req raddr laddr q qs dr fs std Hq Hf Hi Hstd)
    as (st' & ef & err & E & [[Hno _]|(ri & Hinfo & _ & _ & _ & _ & Hw)]); [done|].
  exists st', ef, err. split; [done|]. apply Hw. rewrite Hnext. destruct (Hri ri Hinfo) as (Ho & Hm & Hh).
  apply (chain_unfiltered c ri req q p d up); try done.
  unfold DeviceData. by rewrite (if_device _ _ _ _ _ _ _ Hinfo).
Qed.

End facts.

(** ** The chain with the profile's configuration *)

Section configured.
Context `{Sha256} `{PublicSuffixList} `{Subdomains} `{MiekgDNS} `{!MiekgDNSSpec} `{SvcbParsers} `{UnicodeCase}.
Context `{Urlfilter} `{!UrlfilterSpec} `{UrlLib} `{IndexDecoders} `{StorageDecoders}.
Context `{RC : AgdCache CacheKey (option DNSResult)} `{FC : AgdCacheSpec CacheKey (option Result)}.
Context `{IsSubdomainFn}.
Context (newID : Z) (rows : string -> string -> uints * uints * uints) (hint_string : SVCBKeyValue -> string).
Context (Hrows : rows_ok rows).

(** C6. The chain of handlers with the filter storage, for a device of a profile, both
    with filtering on.  Take storages as any history of refreshes and requests has left
    them, and an ordinary request: it is not for TXT records nor of the CHAOS class, its
    domain is not one of the special ones, of the DNS checks nor of the metrics that are
    replaced, its registrable domain is ASCII, the blocking modes are valid, the context
    does not end and no plugin adds a middleware.  Then the filter of the profile's configuration is made.  If the
    rules that match the request and the names of the response are told apart by their
    pointers, and no rule list has the reserved ID of the blocked services, this filter
    gives a result for the request, and one for the response of the handler behind the
    chain, without an error or a panic, and the rules that the results name are enabled by
    the profile's configuration.  If the request is not rewritten, the chain returns
    without an error and answers with what these two results ask for: a blocked response
    in the mode of the profile, the filter's own response, or the response of the handler
    behind the chain; with the AD bit as the client has asked for it. *)
Theorem configured_end_to_end (c : HandlersConfig) (ri : RequestInfo) (req : Msg) (q : Question) p d up :
  let req' := set_AuthenticatedData req true in
  let freq := reqInfoToFltReq req' ri in
  let fresp := {| fr_DNS := up; fr_RemoteIP := ri_RemoteIP ri; fr_ClientName := client_name ri |} in
  ordinary c ri req q -> modes_ok ri -> DeviceData ri = Some (p, d) ->
  p_FilteringEnabled p = true -> d_FilteringEnabled d = true ->
  fs_reached rows (hc_storage c) -> lists_reached (hc_lists c) -> schedule_ok (cfc_Parental (p_FilterConfig p)) ->
  host_ok freq -> hc_Handler c ri req' = Ret (None, Some up) -> m_Question up <> [] ->
  exists f, forClient newID rows (hc_storage c) (hc_lists c) (hc_now c) (p_FilterConfig p) = Ret f /\
  (entries_ok (all_entries f freq) ->
   (forall n, n ∈ m_Answer up ≫= answer_names hint_string -> entries_ok (answer_entries f fresp n)) ->
   exists reqRes respRes,
     FilterRequest f freq = Ret (Ok reqRes) /\ FilterResponse hint_string f fresp = Ret respRes /\
     (forall r, reqRes = Some r \/ respRes = Some r ->
        client_allows (hc_storage c) (hc_now c) (p_FilterConfig p) (MatchedRule r)) /\
     ((forall m l t, reqRes <> Some (ResultModifiedRequest m l t)) ->
      exists a, answer_ok ri req' q reqRes up respRes a /\
        NewHandlers newID rows hint_string c ri req =
          Ret (None, Some (set_AuthenticatedData a (m_AuthenticatedData a && (m_AuthenticatedData req || IsDO req)))))).
Proof.
  intros req' freq fresp Ho Hm Hd Hp Hdev Hs%(fs_reached_ok _ Hrows) Hl%lists_reached_ok Hsch Hh Hup Hq.
  destruct (config_filter newID rows Hrows (hc_storage c) (hc_lists c) (hc_now c) (p_FilterConfig p) freq Hs Hl Hsch Hh)
    as (f & Ef & Hf). exists f. split; [done|]. intros He Hrsp. destruct (Hf He) as (ro & Er & Hro).
  destruct (config_response newID rows Hrows _ _ _ _ _ hint_string fresp Hs Hl Hsch Ef Hrsp) as (ro' & Er' & Hro').
  exists ro, ro'. split; [done|]. split; [done|]. split; [intros r [?|?]; [by apply Hro|by apply Hro']|]. intros Hnm.
  apply (chain_answer newID rows hint_string c ri req q (filter_obj hint_string (FilterOf f))); try done.
  - unfold the_filter, mw_filter. rewrite Hd, Hp, Hdev. simpl. unfold storage_obj. simpl. by rewrite Ef.
  - simpl. fold fresp. by rewrite Er'.
  - intros r Hr. by apply Hro'.
Qed.

End configured.

(** ** Concrete inputs *)

#[local] Existing Instance ref_miekg.
#[local] Existing Instance ref_miekg_spec.
#[local] Existing Instance ref_unicode.
#[local] Existing Instance toy_sha256.
#[local] Existing Instance tld_list.
#[local] Existing Instance ref_subdomains.
#[local] Existing Instance plain_urlfilter.
#[local] Existing Instance plain_urlfilter_spec.
#[local] Existing Instance no_svcb_params.
#[local] Existing Instance http_urls.
#[local] Existing Instance letter_index.
#[local] Existing Instance list_cache.
#[local] Existing Instance filter_cache.
#[local] Existing Instance filter_cache_spec.
#[local] Existing Instance one_category.
#[local] Existing Instance ref_subdomain_fn.
#[local] Existing Instance list_ring.
#[local] Existing Instance some_ipconv.
#[local] Existing Instance some_len.

Definition the_device : Device := {|
  Auth := {| PasswordHash := AllowAuthenticator; auth_Enabled := false; DoHAuthOnly := false |};
  d_ID := "dev1"; LinkedIP := AddrZero; d_Name := "phone"; HumanIDLower := EmptyString; DedicatedIPs := [];
  d_FilteringEnabled := true;
|}.

(** A profile that blocks listed hosts with its own mode for them, if its filtering
    is enabled. *)
Definition the_profile (filtering : bool) : Profile := {|
  CustomDomains := {| cd_Domains := []; cd_Enabled := false |}; DeviceIDs := {["dev1"%string]};
  p_FilterConfig := some_client true; p_Access := None; AdultBlockingMode := None;
  p_BlockingMode := BlockingModeREFUSED; SafeBrowsingBlockingMode := Some BlockingModeNXDOMAIN; p_Ratelimiter := GlobalRatelimiter;
  p_ID := "prof1"; FilteredResponseTTL := 10; AccountID := 1; AutoDevicesEnabled := false;
  BlockChromePrefetch := false; BlockFirefoxCanary := false; BlockPrivateRelay := false; Deleted := false;
  p_FilteringEnabled := filtering; IPLogEnabled := false; QueryLogEnabled := true; QueryLogStream := false;
|}.

Definition bad_question : Question := {| q_Name := "bad.example."; q_Qtype := TypeA; q_Qclass := ClassINET |}.
Definition bad_request : Msg := set_Question (set_Extra DnsMsg.some_request []) [bad_question].

Definition bad_ri (filtering : bool) : RequestInfo := {|
  ri_DeviceResult := Some (DeviceResultOK the_device (the_profile filtering)); ri_Location := None; ri_ECS := None;
  ri_FilteringGroup := some_group; ri_Messages := some_constructor; ri_ServerInfo := rm_ServerInfo gate_mw;
  ri_RemoteIP := Addr4 1; ri_Host := "bad.example"; ri_QType := TypeA; ri_QClass := ClassINET;
|}.

(** The handler behind the chain answers with an empty response. *)
Definition some_handlers : HandlersConfig := {|
  hc_main := some_mw; hc_env := some_env; hc_storage := some_filter_storage; hc_lists := some_rl_storage; hc_now := 0;
  hc_messages := some_constructor; hc_matcher := MatchByPrefix []; hc_checker _ _ := Ret (Ok None);
  hc_ddr := some_ddr; hc_PostInitialMiddleware := None; hc_Handler ri req := Ret (None, Some (NewResp req));
|}.

Definition no_hint (kv : SVCBKeyValue) : string := EmptyString.

Lemma bad_ordinary : ordinary some_handlers (bad_ri true) bad_request bad_question.
Proof. split; try done; first [by eexists|by vm_compute]. Qed.

Definition written_rcode (o : outcome (option error * option Msg)) : option Z :=
  match o with Ret (_, Some m) => Some (m_Rcode m) | _ => None end.

(** A listed host is answered in the mode of the profile for it. *)
Lemma configured_end_to_end_witness :
  exists m, NewHandlers 1 empty_rows no_hint some_handlers (bad_ri true) bad_request = Ret (None, Some m) /\
    m_Rcode m = RcodeNameError.
Proof.
  destruct (configured_end_to_end 1 empty_rows no_hint) with (c := some_handlers) (ri := bad_ri true) (req := bad_request)
    (q := bad_question) (p := the_profile true) (d := the_device)
    (up := NewResp (set_AuthenticatedData bad_request true)) as (f & E & Hf).
  - intros a b. repeat split; unfold uints_ok; simpl; lia.
  - apply bad_ordinary.
  - split; [exact I|]. intros p d [= <- <-]. split_and!; [exact I| |]; intros m [= <-]; exact I.
  - reflexivity.
  - reflexivity.
  - reflexivity.
  - apply some_filter_storage_reached.
  - apply some_rl_storage_reached.
  - by intros p [=].
  - split; [split; [eexists _, _; by split|exact I]|]. split; reflexivity.
  - reflexivity.
  - discriminate.
  - assert (f = composite_New {| cc_SafeBrowsing := None; cc_AdultBlocking := Some (hash_filter_fn 1 new_hash_filter);
        cc_NewRegisteredDomains := None; cc_Typosquatting := None; cc_GeneralSafeSearch := None;
        cc_YouTubeSafeSearch := None; cc_Custom := None; cc_CategoryFilters := []; cc_CustomRuleLists := [];
        cc_RuleLists := []; cc_ServiceLists := [] |}) as -> by (injection E as <-; reflexivity).
    destruct Hf as (reqRes & respRes & Er & _ & _ & Ha).
    + apply entries_ok_nil.
    + intros n Hn. by apply not_elem_of_nil in Hn.
    + destruct Ha as (a & _ & En).
      { intros m l t ->. vm_compute in Er. discriminate. }
      eexists. split; [exact En|].
      assert (written_rcode (NewHandlers 1 empty_rows no_hint some_handlers (bad_ri true) bad_request) =
        Some RcodeNameError) as Hr by (vm_compute; reflexivity).
      rewrite En in Hr. injection Hr as Hr. exact Hr.
Defined.

Definition chain_env (filtering : bool) : RlEnv (S := nat) (D := unit) := {|
  rm_finder d _ _ _ := Ret (Some (DeviceResultOK the_device (the_profile filtering)), d);
  rm_limiter := rm_limiter gate_env; rm_geo _ _ := (None, None);
  rm_next := NewHandlers 1 empty_rows no_hint some_handlers;
  rm_std := rm_std gate_env; rm_write := None; rm_now := 1;
|}.

Definition chain_addr : AddrPort := {| ap_addr := Addr4 0x0b000001; ap_port := 53 |}.

Lemma bad_request_info ri :
  request_info gate_mw (chain_env false) bad_request bad_question chain_addr
    (Some (DeviceResultOK the_device (the_profile false))) ri ->
  ordinary some_handlers ri bad_request bad_question /\ modes_ok ri /\
  DeviceData ri = Some (the_profile false, the_device).
Proof.
  intros [Hd _ (Hh & Ht & Hc) _ _ _ Hm]. destruct ri as [dr loc ecs fg ms si ip host qt qc]. simpl in *. subst.
  split; [split; try done; first [by eexists|by vm_compute]|]. split; [|reflexivity].
  assert (sde_ok some_sde true) as Hs by (apply sde_validate_None; vm_compute; reflexivity).
  destruct (Hm some_sde eq_refl Hs ltac:(lia)) as [Hb _]. split; simpl; [by rewrite Hb|].
  intros p d [= <- <-]. split_and!; [exact I| |]; intros m [= <-]; exact I.
Qed.

(** The same request, without filtering. *)
Lemma unfiltered_end_to_end_witness :
  exists st' ef err,
    rl_ServeDNS gate_mw (chain_env false) (gate_state 0) bad_request chain_addr chain_addr = Ret (st', ef, err) /\
    m_Rcode <$> re_Written ef = [RcodeSuccess].
Proof.
  destruct (unfiltered_end_to_end 1 empty_rows no_hint gate_mw (chain_env false) (gate_state 0) some_handlers bad_request
    chain_addr chain_addr bad_question [] the_device (the_profile false) () {| sc_AllowedNets := []; sc_BlockedNets := [];
      sc_AllowedASN := []; sc_BlockedASN := []; sc_BlocklistDomainRules := [] |}
    (NewResp (set_AuthenticatedData bad_request true))) as (st' & ef & err & E & Hw).
  - reflexivity.
  - reflexivity.
  - reflexivity.
  - split; [|intros; by eexists|intros; by eexists| |discriminate].
    2:{ intros d p ptr nets est rps Hd Hr. assert (p = the_profile false) as -> by congruence. discriminate Hr. }
    intros ri (Ho & Hm & Hd)%bad_request_info. eexists.
    apply (chain_unfiltered 1 empty_rows no_hint some_handlers ri bad_request bad_question _ _
      (NewResp (set_AuthenticatedData bad_request true)) Ho Hm Hd); [by left|reflexivity|discriminate].
  - reflexivity.
  - split; [discriminate|]. split; [eexists; reflexivity|]. split; [intros err'; split; discriminate|].
    split; [reflexivity|]. split; [vm_compute; reflexivity|]. split.
    + intros d p conf Hd Hacc. assert (p = the_profile false) as -> by congruence. discriminate Hacc.
    + intros _. exists false, 1%nat. reflexivity.
  - by left.
  - intros ri (Ho & Hm & Hd)%bad_request_info. split; [exact Ho|]. split; [exact Hm|reflexivity].
  - discriminate.
  - exists st', ef, err. split; [exact E|]. rewrite Hw. reflexivity.
Defined.
