(* ===== verification/FileCachePB.v ===== *)
(** The profile cache on disk: internal/profiledb/filecacheopb (profile.go,
    devices.go, filecacheopb.go, storage.go) and internal/profiledb/internal/fcpb.

    The messages are those of fc.proto; a field of a message type is an [option],
    and a one-of field is an [option] of its cases.  The encoding of messages as
    bytes, the time-zone database and the well-known types are parameters.  The
    counters of the rate limiters that loading makes are kept in a heap. *)

From stdpp Require Import sorting.
From S2P Require Import Prelude GoStd Utf8 NetIP HumanID AgdProtobuf Schedule FilterConfig DnsMsg Filter RuleList Access.
From S2P Require Import RateLimit Agd ProfileDB RatelimitMW.

Open Scope Z_scope.

(** ** fc.proto *)

Record pbDayInterval := { pb_start : Z; pb_end : Z }.

Record pbWeeklySchedule := {
  pb_mon : option pbDayInterval; pb_tue : option pbDayInterval; pb_wed : option pbDayInterval;
  pb_thu : option pbDayInterval; pb_fri : option pbDayInterval; pb_sat : option pbDayInterval;
  pb_sun : option pbDayInterval;
}.

Record pbSchedule := { pb_week : option pbWeeklySchedule; pb_time_zone : string }.

(** The messages [RuleList], [CustomRuleList] and [CategoryFilter]. *)
Record pbIDs := { pb_ids : list string; pb_ids_enabled : bool }.

Record pbCustom := { pb_rules : list string; pb_custom_enabled : bool }.

Record pbParental := {
  pb_pause_schedule : option pbSchedule;
  pb_parental_category_filter : option pbIDs;
  pb_blocked_services : list string;
  pb_parental_enabled : bool;
  pb_adult_blocking_enabled : bool;
  pb_safe_search_general_enabled : bool;
  pb_safe_search_youtube_enabled : bool;
}.

Record pbSafeBrowsing := {
  pb_typosquatting : option bool;
  pb_sb_enabled : bool;
  pb_dangerous_domains_enabled : bool;
  pb_newly_registered_domains_enabled : bool;
}.

Record pbFilterConfig := {
  pb_custom : option pbCustom;
  pb_parental : option pbParental;
  pb_rule_list : option pbIDs;
  pb_safe_browsing : option pbSafeBrowsing;
  pb_category_filter : option pbIDs;
  pb_custom_rule_list : option pbIDs;
}.

Inductive pbBlockingMode :=
  | pbModeCustomIP (ipv4 ipv6 : list string)
  | pbModeNXDOMAIN
  | pbModeNullIP
  | pbModeREFUSED.

Record pbCidrRange := { pb_address : string; pb_prefix : Z }.

Record pbAccess := {
  pb_allowlist_asn : list Z;
  pb_allowlist_cidr : list pbCidrRange;
  pb_blocklist_asn : list Z;
  pb_blocklist_cidr : list pbCidrRange;
  pb_blocklist_domain_rules : list string;
  pb_standard_enabled : bool;
}.

Record pbRatelimiter := { pb_client_cidr : list pbCidrRange; pb_rps : Z; pb_rl_enabled : bool }.

(** [None] is a password hash that is not set. *)
Record pbAuthenticationSettings := { pb_doh_auth_only : bool; pb_password_hash_bcrypt : option string }.

Record pbDevice := {
  pb_authentication : option pbAuthenticationSettings;
  pb_device_id : string;
  pb_device_name : string;
  pb_human_id_lower : string;
  pb_linked_ip : string;
  pb_dedicated_ips : list string;
  pb_dev_filtering_enabled : bool;
}.

Section messages.
Context `{WellKnownTypes}.

Inductive pbDomainState :=
  | pbStateCurrent (not_before not_after : option Timestamp) (cert_name : string) (enabled : bool)
  | pbStatePending (expire : option Timestamp) (well_known_path : string).

Record pbCustomDomainConfig := { pb_state : option pbDomainState; pb_domains : list string }.

Record pbAccountCustomDomains := { pb_acd_domains : list pbCustomDomainConfig; pb_acd_enabled : bool }.

Record pbProfile := {
  pb_custom_domains : option pbAccountCustomDomains;
  pb_filter_config : option pbFilterConfig;
  pb_access : option pbAccess;
  pb_blocking_mode : option pbBlockingMode;
  pb_ratelimiter : option pbRatelimiter;
  pb_account_id : string;
  pb_profile_id : string;
  pb_account_id_int : Z;
  pb_device_ids : list string;
  pb_filtered_response_ttl : option Duration;
  pb_auto_devices_enabled : bool;
  pb_block_chrome_prefetch : bool;
  pb_block_firefox_canary : bool;
  pb_block_private_relay : bool;
  pb_deleted : bool;
  pb_filtering_enabled : bool;
  pb_ip_log_enabled : bool;
  pb_query_log_enabled : bool;
  pb_query_log_stream : bool;
  pb_adult_blocking_mode : option pbBlockingMode;
  pb_safe_browsing_blocking_mode : option pbBlockingMode;
}.

Record pbFileCache := {
  pb_sync_time : option Timestamp;
  pb_profiles : list pbProfile;
  pb_devices : list pbDevice;
  pb_version : Z;
}.

End messages.

(** ** Parameters *)

(** [time.LoadLocation]. *)
Class TimeZones := LoadLocation : string -> result error Location.

(** [proto.Marshal] and [proto.Unmarshal] for the messages of the cache. *)
Class ProtoEncoding `{WellKnownTypes} := {
  proto_Marshal : pbFileCache -> result error string;
  proto_Unmarshal : string -> result error pbFileCache;
}.

Class ProtoEncodingSpec `{ProtoEncoding} : Prop :=
  proto_roundtrip fc b : proto_Marshal fc = Ok b -> proto_Unmarshal b = Ok fc.

(** ** Getters of messages that may be nil *)

Definition get {M A} (d : A) (f : M -> A) (m : option M) : A := match m with Some m => f m | None => d end.

(** The case of a one-of field. *)
Definition GetCustomIp (m : option pbBlockingMode) : option (list string * list string) :=
  match m with Some (pbModeCustomIP v4 v6) => Some (v4, v6) | _ => None end.
Definition IsNxdomain (m : option pbBlockingMode) : bool :=
  match m with Some pbModeNXDOMAIN => true | _ => false end.
Definition IsNullIp (m : option pbBlockingMode) : bool :=
  match m with Some pbModeNullIP => true | _ => false end.
Definition IsRefused (m : option pbBlockingMode) : bool :=
  match m with Some pbModeREFUSED => true | _ => false end.

(** ** fcpb.go *)

Fixpoint CIDRRangesToPrefixes (cidrs : list pbCidrRange) : outcome (list Prefix) :=
  match cidrs with
  | [] => Ret []
  | c :: cidrs =>
      match AddrFromSlice (pb_address c) with
      | None => Panic "bad address: %v"
      | Some addr =>
          let! out := CIDRRangesToPrefixes cidrs in
          Ret (PrefixFrom addr (pb_prefix c) :: out)
      end
  end.

Section conversions.
Context `{WellKnownTypes} `{TimeZones} `{RingBuffer}.

Notation heap := (gmap nat RequestCounter).

(** ** profile.go: from messages *)

Definition newAccountIDFromProtobuf (pbProf : pbProfile) : result error Z :=
  if negb (pb_account_id_int pbProf =? 0) then NewAccountID (pb_account_id_int pbProf)
  else NewAccountIDFromString (pb_account_id pbProf).

(** The code of the three functions below; [bad] is the text of the error. *)
Definition modeToInternal (bad : string) (m : option pbBlockingMode) : result error (option BlockingMode) :=
  match m with
  | None => Ok None
  | Some _ =>
      match GetCustomIp m with
      | Some (v4, v6) =>
          let? ipv4 := annotate "bad v4 custom ips: %w" (ByteSlicesToIPs v4) in
          let? ipv6 := annotate "bad v6 custom ips: %w" (ByteSlicesToIPs v6) in
          Ok (Some (BlockingModeCustomIP ipv4 ipv6))
      | None =>
          if IsNxdomain m then Ok (Some BlockingModeNXDOMAIN)
          else if IsNullIp m then Ok (Some BlockingModeNullIP)
          else if IsRefused m then Ok (Some BlockingModeREFUSED)
          else Err (ErrConst bad)
      end
  end.

Definition blockingModeToInternal (pb : pbProfile) : result error (option BlockingMode) :=
  modeToInternal "bad pb blocking mode" (pb_blocking_mode pb).
Definition adultBlockingModeToInternal (pb : pbProfile) : result error (option BlockingMode) :=
  modeToInternal "bad pb adult blocking mode" (pb_adult_blocking_mode pb).
Definition safeBrowsingBlockingModeToInternal (pb : pbProfile) : result error (option BlockingMode) :=
  modeToInternal "bad pb safe browsing blocking mode" (pb_safe_browsing_blocking_mode pb).

Definition blockingModesToInternal (pb : pbProfile)
    : result error (option BlockingMode * option BlockingMode * option BlockingMode) :=
  let? bmAdult := annotate "adult blocking mode: %w" (adultBlockingModeToInternal pb) in
  let? bmSafeBrowsing := annotate "safe browsing blocking mode: %w" (safeBrowsingBlockingModeToInternal pb) in
  let? bm := annotate "blocking mode: %w" (blockingModeToInternal pb) in
  Ok (bmAdult, bmSafeBrowsing, bm).

(** The conversions to uint16 keep the low bits. *)
Definition dayIntervalToInternal (i : option pbDayInterval) : option DayInterval :=
  match i with
  | None => None
  | Some i => Some {| di_Start := pb_start i mod 2 ^ 16; di_End := pb_end i mod 2 ^ 16 |}
  end.

(** The days of the week are numbered from Sunday. *)
Definition filterConfigScheduleToInternal (s : option pbSchedule) : result error (option ConfigSchedule) :=
  match s with
  | None => Ok None
  | Some s =>
      let? loc := annotate "time zone: %w" (LoadLocation (pb_time_zone s)) in
      let day f := dayIntervalToInternal (get None f (pb_week s)) in
      Ok (Some {| Week := [day pb_sun; day pb_mon; day pb_tue; day pb_wed; day pb_thu; day pb_fri; day pb_sat];
                  TimeZone := loc |})
  end.

Definition configTyposquattingToInternal (x : option bool) : ConfigTyposquatting :=
  match x with None => {| ct_Enabled := false |} | Some e => {| ct_Enabled := e |} end.

(** [GetParental().GetCategoryFilter()] of the configuration, or the deprecated
    field of the configuration itself. *)
Definition categoryFilterToInternal (c : option pbFilterConfig) : ConfigCategories :=
  let from ids := {| cg_IDs := pb_ids ids; cg_Enabled := pb_ids_enabled ids |} in
  match get None pb_parental_category_filter (get None pb_parental c) with
  | Some f => from f
  | None =>
      match get None pb_category_filter c with
      | None => {| cg_IDs := []; cg_Enabled := false |}
      | Some f => from f
      end
  end.

Definition configParentalToInternal (c : option pbFilterConfig) (schedule : option ConfigSchedule)
    : ConfigParental :=
  let parental := get None pb_parental c in
  {| cp_Categories := categoryFilterToInternal c;
     cp_PauseSchedule := schedule;
     cp_BlockedServices := get [] pb_blocked_services parental;
     cp_Enabled := get false pb_parental_enabled parental;
     cp_AdultBlockingEnabled := get false pb_adult_blocking_enabled parental;
     cp_SafeSearchGeneralEnabled := get false pb_safe_search_general_enabled parental;
     cp_SafeSearchYouTubeEnabled := get false pb_safe_search_youtube_enabled parental |}.

Definition configClientToInternal (pb : pbProfile) : result error ConfigClient :=
  let c := pb_filter_config pb in
  let? schedule := annotate "pause schedule: %w"
                     (filterConfigScheduleToInternal (get None pb_pause_schedule (get None pb_parental c))) in
  let rules := get [] pb_rules (get None pb_custom c) in
  let flt := if (0 <? length rules)%nat then Some rules else None in
  let safeBrowsing := get None pb_safe_browsing c in
  Ok {| cfc_CustomFilter :=
          {| ccf_Filter := flt; ccf_Enabled := get false pb_custom_enabled (get None pb_custom c) |};
        cfc_CustomRuleList :=
          {| crl_IDs := get [] pb_ids (get None pb_custom_rule_list c);
             crl_Enabled := get false pb_ids_enabled (get None pb_custom_rule_list c) |};
        cfc_Parental := configParentalToInternal c schedule;
        cfc_RuleList :=
          {| cr_IDs := get [] pb_ids (get None pb_rule_list c);
             cr_Enabled := get false pb_ids_enabled (get None pb_rule_list c) |};
        cfc_SafeBrowsing :=
          {| csb_Typosquatting := Some (configTyposquattingToInternal (get None pb_typosquatting safeBrowsing));
             csb_Enabled := get false pb_sb_enabled safeBrowsing;
             csb_DangerousDomainsEnabled := get false pb_dangerous_domains_enabled safeBrowsing;
             csb_NewlyRegisteredDomainsEnabled := get false pb_newly_registered_domains_enabled safeBrowsing |} |}.

Definition customDomainConfigToInternal (c : pbCustomDomainConfig) : result error CustomDomainConfig :=
  let? state :=
    match pb_state c with
    | Some (pbStateCurrent nb na name e) =>
        Ok (StateCurrent {| NotBefore := AsTime nb; NotAfter := AsTime na; CertName := name; cur_Enabled := e |})
    | Some (pbStatePending expire path) =>
        Ok (StatePending {| Expire := AsTime expire; WellKnownPath := path |})
    | None => Err (ErrWrap "pb unknown domain state: %w" (ErrConst "bad enum value"))
    end in
  Ok {| State := state; cdc_Domains := pb_domains c |}.

Fixpoint customDomainConfsToInternal (cs : list pbCustomDomainConfig) : result error (list CustomDomainConfig) :=
  match cs with
  | [] => Ok []
  | c :: cs =>
      let? c := annotate "at index %d: %w" (customDomainConfigToInternal c) in
      let? confs := customDomainConfsToInternal cs in
      Ok (c :: confs)
  end.

Definition fc_customDomainsToInternal (pb : pbProfile) : result error AccountCustomDomains :=
  let? confs := annotate "custom domain configs: %w"
                  (customDomainConfsToInternal (get [] pb_acd_domains (pb_custom_domains pb))) in
  Ok {| cd_Domains := confs; cd_Enabled := get false pb_acd_enabled (pb_custom_domains pb) |}.

(** The counter of the new limiter gets an address that is not in use. *)
Definition rateLimiterToInternal (h : heap) (pb : option pbRatelimiter) (respSzEst : Z)
    : outcome (Ratelimiter * heap) :=
  if negb (get false pb_rl_enabled pb) then Ret (GlobalRatelimiter, h)
  else
    let! nets := CIDRRangesToPrefixes (get [] pb_client_cidr pb) in
    Ret (NewDefaultRatelimiter h (fresh (dom h))
           {| rc_ClientSubnets := nets; rc_RPS := get 0 pb_rps pb; rc_Enabled := get false pb_rl_enabled pb |}
           respSzEst).

Definition accessToInternal (pb : option pbAccess) : outcome (option ProfileConfig) :=
  match pb with
  | None => Ret None
  | Some a =>
      let! allowed := CIDRRangesToPrefixes (pb_allowlist_cidr a) in
      let! blocked := CIDRRangesToPrefixes (pb_blocklist_cidr a) in
      Ret (Some {| pc_AllowedNets := allowed; pc_BlockedNets := blocked;
                   pc_AllowedASN := pb_allowlist_asn a; pc_BlockedASN := pb_blocklist_asn a;
                   pc_BlocklistDomainRules := pb_blocklist_domain_rules a;
                   pc_StandardEnabled := pb_standard_enabled a |})
  end.

(** A bad account ID is logged.  A nil blocking mode, for which no type switch
    has a case, is [BlockingModeOther]. *)
Definition profileToInternal (h : heap) (pb : pbProfile) (respSzEst : Z)
    : outcome (result error (Profile * heap)) :=
  let accID := match newAccountIDFromProtobuf pb with Ok id => id | Err _ => AccountIDEmpty end in
  match (let? bms := blockingModesToInternal pb in
         let? customDomains := fc_customDomainsToInternal pb in
         let? fltConf := configClientToInternal pb in
         Ok (bms, customDomains, fltConf)) with
  | Err err => Ret (Err err)
  | Ok (bmAdult, bmSafeBrowsing, bm, customDomains, fltConf) =>
      let! acc := accessToInternal (pb_access pb) in
      let! rl := rateLimiterToInternal h (pb_ratelimiter pb) respSzEst in
      Ret (Ok ({|
        CustomDomains := customDomains;
        DeviceIDs := list_to_set (pb_device_ids pb);
        p_FilterConfig := fltConf;
        p_Access := acc;
        AdultBlockingMode := bmAdult;
        p_BlockingMode := default BlockingModeOther bm;
        SafeBrowsingBlockingMode := bmSafeBrowsing;
        p_Ratelimiter := rl.1;
        p_ID := pb_profile_id pb;
        FilteredResponseTTL := AsDuration (pb_filtered_response_ttl pb);
        AccountID := accID;
        AutoDevicesEnabled := pb_auto_devices_enabled pb;
        BlockChromePrefetch := pb_block_chrome_prefetch pb;
        BlockFirefoxCanary := pb_block_firefox_canary pb;
        BlockPrivateRelay := pb_block_private_relay pb;
        Deleted := pb_deleted pb;
        p_FilteringEnabled := pb_filtering_enabled pb;
        IPLogEnabled := pb_ip_log_enabled pb;
        QueryLogEnabled := pb_query_log_enabled pb;
        QueryLogStream := pb_query_log_stream pb;
      |}, rl.2))
  end.

Fixpoint profilesToInternal (h : heap) (pbs : list pbProfile) (respSzEst : Z)
    : outcome (result error (list Profile * heap)) :=
  match pbs with
  | [] => Ret (Ok ([], h))
  | pb :: pbs =>
      let! r := profileToInternal h pb respSzEst in
      match r with
      | Err err => Ret (Err (ErrWrap "profile at index %d: %w" err))
      | Ok (prof, h) =>
          let! r := profilesToInternal h pbs respSzEst in
          Ret (let? ph := r in Ok (prof :: ph.1, ph.2))
      end
  end.

(** ** devices.go *)

Definition fc_dohPasswordToInternal (pbp : pbAuthenticationSettings) : Authenticator :=
  match pb_password_hash_bcrypt pbp with
  | None => AllowAuthenticator
  | Some hash => PasswordHashBcrypt hash
  end.

Definition authToInternal (pbAuth : option pbAuthenticationSettings) : AuthSettings :=
  match pbAuth with
  | None => {| PasswordHash := AllowAuthenticator; auth_Enabled := false; DoHAuthOnly := false |}
  | Some a =>
      {| PasswordHash := fc_dohPasswordToInternal a; auth_Enabled := true; DoHAuthOnly := pb_doh_auth_only a |}
  end.

Definition deviceToInternal (d : pbDevice) : result error Device :=
  let? linkedIP := annotate "linked ip: %w" (UnmarshalBinary (pb_linked_ip d)) in
  let? dedicatedIPs := annotate "dedicated ips: %w" (ByteSlicesToIPs (pb_dedicated_ips d)) in
  Ok {| Auth := authToInternal (pb_authentication d);
        d_ID := pb_device_id d; LinkedIP := linkedIP; d_Name := pb_device_name d;
        HumanIDLower := pb_human_id_lower d; DedicatedIPs := dedicatedIPs;
        d_FilteringEnabled := pb_dev_filtering_enabled d |}.

Fixpoint devicesFromProtobuf (ds : list pbDevice) : result error (list Device) :=
  match ds with
  | [] => Ok []
  | d :: ds =>
      let? d := annotate "device: at index %d: %w" (deviceToInternal d) in
      let? devices := devicesFromProtobuf ds in
      Ok (d :: devices)
  end.

Definition dohPasswordToProtobuf (p : Authenticator) : option string :=
  match p with AllowAuthenticator => None | PasswordHashBcrypt hash => Some hash end.

Definition authToProtobuf (s : AuthSettings) : option pbAuthenticationSettings :=
  if negb (auth_Enabled s) then None
  else Some {| pb_doh_auth_only := DoHAuthOnly s;
               pb_password_hash_bcrypt := dohPasswordToProtobuf (PasswordHash s) |}.

Definition deviceToProtobuf (d : Device) : pbDevice :=
  {| pb_authentication := authToProtobuf (Auth d); pb_device_id := d_ID d; pb_device_name := d_Name d;
     pb_human_id_lower := HumanIDLower d; pb_linked_ip := IPToBytes (LinkedIP d);
     pb_dedicated_ips := IPsToByteSlices (DedicatedIPs d); pb_dev_filtering_enabled := d_FilteringEnabled d |}.

Definition devicesToProtobuf (ds : list Device) : list pbDevice := deviceToProtobuf <$> ds.

(** ** profile.go: to messages *)

Definition customDomainStateToProtobuf (s : CustomDomainState) : outcome pbDomainState :=
  match s with
  | StateCurrent s =>
      Ret (pbStateCurrent (Some (timestamppb_New (NotBefore s))) (Some (timestamppb_New (NotAfter s)))
             (CertName s) (cur_Enabled s))
  | StatePending s => Ret (pbStatePending (Some (timestamppb_New (Expire s))) (WellKnownPath s))
  | StateOther => Panic "at index %d: custom domain state: %T(%[2]v): %w"
  end.

Fixpoint customDomainConfigsToProtobuf (confs : list CustomDomainConfig) : outcome (list pbCustomDomainConfig) :=
  match confs with
  | [] => Ret []
  | c :: confs =>
      let! s := customDomainStateToProtobuf (State c) in
      let! pbConfs := customDomainConfigsToProtobuf confs in
      Ret ({| pb_state := Some s; pb_domains := cdc_Domains c |} :: pbConfs)
  end.

Definition customDomainsToProtobuf (acd : AccountCustomDomains) : outcome pbAccountCustomDomains :=
  let! ds := customDomainConfigsToProtobuf (cd_Domains acd) in
  Ret {| pb_acd_domains := ds; pb_acd_enabled := cd_Enabled acd |}.

Definition dayIntervalToProtobuf (i : option DayInterval) : option pbDayInterval :=
  match i with
  | None => None
  | Some i => Some {| pb_start := di_Start i; pb_end := di_End i |}
  end.

Definition scheduleToProtobuf (c : option ConfigSchedule) : outcome (option pbSchedule) :=
  match c with
  | None => Ret None
  | Some c =>
      let! mon := index (Week c) 1 in
      let! tue := index (Week c) 2 in
      let! wed := index (Week c) 3 in
      let! thu := index (Week c) 4 in
      let! fri := index (Week c) 5 in
      let! sat := index (Week c) 6 in
      let! sun := index (Week c) 0 in
      Ret (Some {|
        pb_week := Some {|
          pb_mon := dayIntervalToProtobuf mon; pb_tue := dayIntervalToProtobuf tue;
          pb_wed := dayIntervalToProtobuf wed; pb_thu := dayIntervalToProtobuf thu;
          pb_fri := dayIntervalToProtobuf fri; pb_sat := dayIntervalToProtobuf sat;
          pb_sun := dayIntervalToProtobuf sun |};
        pb_time_zone := loc_String (TimeZone c) |})
  end.

Definition typosquattingToProtobuf (c : option ConfigTyposquatting) : outcome bool :=
  match c with
  | None => Panic "invalid memory address or nil pointer dereference"
  | Some c => Ret (ct_Enabled c)
  end.

Definition filterConfigToProtobuf (c : ConfigClient) : outcome pbFilterConfig :=
  let custom := cfc_CustomFilter c in
  let parental := cfc_Parental c in
  let safeBrowsing := cfc_SafeBrowsing c in
  let! rules :=
    if ccf_Enabled custom then
      match ccf_Filter custom with
      | None => Panic "invalid memory address or nil pointer dereference"
      | Some rules => Ret rules
      end
    else Ret [] in
  let! schedule := scheduleToProtobuf (cp_PauseSchedule parental) in
  let! typosquatting := typosquattingToProtobuf (csb_Typosquatting safeBrowsing) in
  Ret {|
    pb_custom := Some {| pb_rules := rules; pb_custom_enabled := ccf_Enabled custom |};
    pb_parental := Some {|
      pb_pause_schedule := schedule;
      pb_parental_category_filter :=
        Some {| pb_ids := cg_IDs (cp_Categories parental); pb_ids_enabled := cg_Enabled (cp_Categories parental) |};
      pb_blocked_services := cp_BlockedServices parental;
      pb_parental_enabled := cp_Enabled parental;
      pb_adult_blocking_enabled := cp_AdultBlockingEnabled parental;
      pb_safe_search_general_enabled := cp_SafeSearchGeneralEnabled parental;
      pb_safe_search_youtube_enabled := cp_SafeSearchYouTubeEnabled parental |};
    pb_rule_list := Some {| pb_ids := cr_IDs (cfc_RuleList c); pb_ids_enabled := cr_Enabled (cfc_RuleList c) |};
    pb_safe_browsing := Some {|
      pb_typosquatting := Some typosquatting;
      pb_sb_enabled := csb_Enabled safeBrowsing;
      pb_dangerous_domains_enabled := csb_DangerousDomainsEnabled safeBrowsing;
      pb_newly_registered_domains_enabled := csb_NewlyRegisteredDomainsEnabled safeBrowsing |};
    pb_category_filter := None;
    pb_custom_rule_list :=
      Some {| pb_ids := crl_IDs (cfc_CustomRuleList c); pb_ids_enabled := crl_Enabled (cfc_CustomRuleList c) |} |}.

(** The conversion of the number of bits to uint32 keeps the low bits. *)
Definition prefixesToProtobuf (nets : list Prefix) : list pbCidrRange :=
  (fun n => {| pb_address := AsSlice (p_ip n); pb_prefix := p_bits n mod 2 ^ 32 |}) <$> nets.

Definition accessToProtobuf (c : option ProfileConfig) : option pbAccess :=
  match c with
  | None => None
  | Some c =>
      Some {| pb_allowlist_asn := pc_AllowedASN c; pb_allowlist_cidr := prefixesToProtobuf (pc_AllowedNets c);
              pb_blocklist_asn := pc_BlockedASN c; pb_blocklist_cidr := prefixesToProtobuf (pc_BlockedNets c);
              pb_blocklist_domain_rules := pc_BlocklistDomainRules c;
              pb_standard_enabled := pc_StandardEnabled c |}
  end.

(** [Ratelimiter.Config] is never nil. *)
Definition ratelimiterToProtobuf (c : RatelimitConfig) : option pbRatelimiter :=
  Some {| pb_client_cidr := prefixesToProtobuf (rc_ClientSubnets c); pb_rps := rc_RPS c;
          pb_rl_enabled := rc_Enabled c |}.

Definition setMode (bad : string) (m : BlockingMode) : outcome pbBlockingMode :=
  match m with
  | BlockingModeCustomIP v4 v6 => Ret (pbModeCustomIP (IPsToByteSlices v4) (IPsToByteSlices v6))
  | BlockingModeNXDOMAIN => Ret pbModeNXDOMAIN
  | BlockingModeNullIP => Ret pbModeNullIP
  | BlockingModeREFUSED => Ret pbModeREFUSED
  | BlockingModeOther => Panic bad
  end.

(** The one-of fields of the builder. *)
Definition setBlockingMode (m : BlockingMode) : outcome (option pbBlockingMode) :=
  let! pb := setMode "bad blocking mode %T(%[1]v)" m in Ret (Some pb).

Definition setAdultBlockingMode (m : option BlockingMode) : outcome (option pbBlockingMode) :=
  match m with
  | None => Ret None
  | Some m => let! pb := setMode "bad adult blocking mode %T(%[1]v)" m in Ret (Some pb)
  end.

Definition setSafeBrowsingBlockingMode (m : option BlockingMode) : outcome (option pbBlockingMode) :=
  match m with
  | None => Ret None
  | Some m => let! pb := setMode "bad safe browsing blocking mode %T(%[1]v)" m in Ret (Some pb)
  end.

(** The order of strings. *)
Definition str_le (s t : string) : Prop := String.leb s t = true.
#[export] Instance str_le_dec s t : Decision (str_le s t) := decide (String.leb s t = true).

(** [int32(p.AccountID)] is the identity: the type is already an int32.  The
    deferred function repeats a panic with the ID of the profile. *)
Definition profileToProtobuf (p : Profile) : outcome pbProfile :=
  let deviceIDs := merge_sort str_le (elements (DeviceIDs p)) in
  let! customDomains := customDomainsToProtobuf (CustomDomains p) in
  let! filterConfig := filterConfigToProtobuf (p_FilterConfig p) in
  let! bm := setBlockingMode (p_BlockingMode p) in
  let! bmAdult := setAdultBlockingMode (AdultBlockingMode p) in
  let! bmSafeBrowsing := setSafeBrowsingBlockingMode (SafeBrowsingBlockingMode p) in
  Ret {|
    pb_custom_domains := Some customDomains;
    pb_filter_config := Some filterConfig;
    pb_access := accessToProtobuf (p_Access p);
    pb_blocking_mode := bm;
    pb_ratelimiter := ratelimiterToProtobuf (Ratelimiter_Config (p_Ratelimiter p));
    pb_account_id := EmptyString;
    pb_profile_id := p_ID p;
    pb_account_id_int := AccountID p;
    pb_device_ids := deviceIDs;
    pb_filtered_response_ttl := Some (durationpb_New (FilteredResponseTTL p));
    pb_auto_devices_enabled := AutoDevicesEnabled p;
    pb_block_chrome_prefetch := BlockChromePrefetch p;
    pb_block_firefox_canary := BlockFirefoxCanary p;
    pb_block_private_relay := BlockPrivateRelay p;
    pb_deleted := Deleted p;
    pb_filtering_enabled := p_FilteringEnabled p;
    pb_ip_log_enabled := IPLogEnabled p;
    pb_query_log_enabled := QueryLogEnabled p;
    pb_query_log_stream := false;
    pb_adult_blocking_mode := bmAdult;
    pb_safe_browsing_blocking_mode := bmSafeBrowsing;
  |}.

Fixpoint profilesToProtobuf (ps : list Profile) : outcome (list pbProfile) :=
  match ps with
  | [] => Ret []
  | p :: ps =>
      let! pb := profileToProtobuf p in
      let! pbs := profilesToProtobuf ps in
      Ret (pb :: pbs)
  end.

(** ** filecacheopb.go *)

Definition fileCacheToInternal (h : heap) (fc : pbFileCache) (respSzEst : Z)
    : outcome (result error (FileCache * heap)) :=
  let! r := profilesToInternal h (pb_profiles fc) respSzEst in
  Ret (let? ph := annotate "converting profiles: %w" r in
       let? devices := annotate "converting devices: %w" (devicesFromProtobuf (pb_devices fc)) in
       Ok ({| fc_SyncTime := AsTime (pb_sync_time fc); fc_Profiles := ph.1; fc_Devices := devices;
              fc_Version := pb_version fc |}, ph.2)).

(** The slices are sorted in place by ID; any sort will do. *)
Definition profile_le (a b : Profile) : Prop := str_le (p_ID a) (p_ID b).
#[export] Instance profile_le_dec a b : Decision (profile_le a b) := decide (str_le (p_ID a) (p_ID b)).
Definition device_le (a b : Device) : Prop := str_le (d_ID a) (d_ID b).
#[export] Instance device_le_dec a b : Decision (device_le a b) := decide (str_le (d_ID a) (d_ID b)).

Definition fileCacheToProtobuf (c : FileCache) : outcome pbFileCache :=
  let! ps := profilesToProtobuf (merge_sort profile_le (fc_Profiles c)) in
  Ret {| pb_sync_time := Some (timestamppb_New (fc_SyncTime c));
         pb_profiles := ps;
         pb_devices := devicesToProtobuf (merge_sort device_le (fc_Devices c));
         pb_version := fc_Version c |}.

(** ** storage.go

    [file] is the file of the cache: its contents, or the error of reading it;
    [None] is a file that does not exist.  [write] is the result of writing. *)

Context `{!ProtoEncoding}.

Definition Load (h : heap) (file : result error (option string)) (respSzEst : Z)
    : outcome (result error (option (FileCache * heap))) :=
  match file with
  | Err err => Ret (Err err)
  | Ok None => Ret (Ok None)
  | Ok (Some b) =>
      match annotate "decoding protobuf: %w" (proto_Unmarshal b) with
      | Err err => Ret (Err err)
      | Ok fc =>
          if negb (pb_version fc =? FileCacheVersion) then
            Ret (Err (ErrWrap "%w: version %d is different from %d" (ErrConst "unsuitable cache version")))
          else
            let! r := fileCacheToInternal h fc respSzEst in
            Ret (let? ch := r in Ok (Some ch))
      end
  end.

(** The size of the file that has been written, and the file. *)
Definition Store (c : FileCache) (old : option string) (write : option error)
    : outcome (result error Z * option string) :=
  let! fc := fileCacheToProtobuf c in
  match annotate "encoding protobuf: %w" (proto_Marshal fc) with
  | Err err => Ret (Err err, old)
  | Ok b =>
      match write with
      | Some err => Ret (Err (ErrWrap "writing file: %w" err), old)
      | None => Ret (Ok (len b), Some b)
      end
  end.

End conversions.

(** * Facts *)

Section facts.
Context `{!WellKnownTypes} `{!WellKnownTypesSpec} `{!TimeZones} `{!RingBuffer}.

Notation heap := (gmap nat RequestCounter).

(** ** What is stored *)

Definition mode_ok (m : BlockingMode) : Prop :=
  match m with
  | BlockingModeCustomIP v4 v6 => Forall addr_ok v4 /\ Forall addr_ok v6
  | BlockingModeOther => False
  | _ => True
  end.

Definition interval_ok (i : DayInterval) : Prop := 0 <= di_Start i < 2 ^ 16 /\ 0 <= di_End i < 2 ^ 16.

(** The time zone has been loaded by its name. *)
Definition schedule_ok (s : ConfigSchedule) : Prop :=
  length (Week s) = 7%nat /\ Forall (from_option interval_ok True) (Week s) /\
  LoadLocation (loc_String (TimeZone s)) = Ok (TimeZone s).

Definition config_ok (c : ConfigClient) : Prop :=
  from_option schedule_ok True (cp_PauseSchedule (cfc_Parental c)) /\
  (ccf_Enabled (cfc_CustomFilter c) = true -> is_Some (ccf_Filter (cfc_CustomFilter c))) /\
  is_Some (csb_Typosquatting (cfc_SafeBrowsing c)).

Definition state_ok (s : CustomDomainState) : Prop := match s with StateOther => False | _ => True end.

Definition access_ok (c : ProfileConfig) : Prop :=
  Forall prefix_ok (pc_AllowedNets c) /\ Forall prefix_ok (pc_BlockedNets c).

Definition profile_ok (p : Profile) : Prop :=
  mode_ok (p_BlockingMode p) /\ from_option mode_ok True (AdultBlockingMode p) /\
  from_option mode_ok True (SafeBrowsingBlockingMode p) /\
  config_ok (p_FilterConfig p) /\ Forall (fun c => state_ok (State c)) (cd_Domains (CustomDomains p)) /\
  from_option access_ok True (p_Access p) /\
  Forall prefix_ok (rc_ClientSubnets (Ratelimiter_Config (p_Ratelimiter p))) /\
  0 <= AccountID p < 2 ^ 31 /\ minDuration <= FilteredResponseTTL p <= maxDuration.

Definition device_ok (d : Device) : Prop := addr_ok (LinkedIP d) /\ Forall addr_ok (DedicatedIPs d).

Definition cache_ok (c : FileCache) : Prop :=
  Forall profile_ok (fc_Profiles c) /\ Forall device_ok (fc_Devices c) /\ fc_Version c = FileCacheVersion.

(** ** What is loaded *)

(** The rules of a custom filter are kept if it is enabled; a filter without
    rules becomes nil. *)
Definition reload_config (c : ConfigClient) : ConfigClient := {|
  cfc_CustomFilter := {|
    ccf_Filter :=
      if ccf_Enabled (cfc_CustomFilter c) then
        match ccf_Filter (cfc_CustomFilter c) with Some [] => None | f => f end
      else None;
    ccf_Enabled := ccf_Enabled (cfc_CustomFilter c) |};
  cfc_CustomRuleList := cfc_CustomRuleList c; cfc_Parental := cfc_Parental c;
  cfc_RuleList := cfc_RuleList c; cfc_SafeBrowsing := cfc_SafeBrowsing c |}.

Definition reload (p : Profile) (rl : Ratelimiter) : Profile := {|
  CustomDomains := CustomDomains p; DeviceIDs := DeviceIDs p;
  p_FilterConfig := reload_config (p_FilterConfig p); p_Access := p_Access p;
  AdultBlockingMode := AdultBlockingMode p; p_BlockingMode := p_BlockingMode p;
  SafeBrowsingBlockingMode := SafeBrowsingBlockingMode p; p_Ratelimiter := rl; p_ID := p_ID p;
  FilteredResponseTTL := FilteredResponseTTL p; AccountID := AccountID p;
  AutoDevicesEnabled := AutoDevicesEnabled p; BlockChromePrefetch := BlockChromePrefetch p;
  BlockFirefoxCanary := BlockFirefoxCanary p; BlockPrivateRelay := BlockPrivateRelay p;
  Deleted := Deleted p; p_FilteringEnabled := p_FilteringEnabled p; IPLogEnabled := IPLogEnabled p;
  QueryLogEnabled := QueryLogEnabled p; QueryLogStream := false |}.

(** Settings of authentication that is not enabled are not kept. *)
Definition reload_device (d : Device) : Device := {|
  Auth := if auth_Enabled (Auth d) then Auth d
          else {| PasswordHash := AllowAuthenticator; auth_Enabled := false; DoHAuthOnly := false |};
  d_ID := d_ID d; LinkedIP := LinkedIP d; d_Name := d_Name d; HumanIDLower := HumanIDLower d;
  DedicatedIPs := DedicatedIPs d; d_FilteringEnabled := d_FilteringEnabled d |}.

(** The limiter has the configuration of the stored one, and its counter is a
    new one at an address that was not used in the heap [h]. *)
Definition limiter_reloaded (h : heap) (respSzEst : Z) (old new : Ratelimiter) (h' : heap) : Prop :=
  match old with
  | GlobalRatelimiter => new = GlobalRatelimiter /\ h' = h
  | DefaultRatelimiter _ nets _ rps =>
      exists ptr, h !! ptr = None /\ new = DefaultRatelimiter ptr nets respSzEst rps /\
        h' = <[ptr := NewRequestCounter rps second]> h
  end.

(** ** One profile *)

Lemma modeToInternal_set bad bad' m : mode_ok m ->
  exists pb, setMode bad m = Ret pb /\ modeToInternal bad' (Some pb) = Ok (Some m).
Proof.
  destruct m as [v4 v6| | | |]; intros Hm; try (by eexists; split; reflexivity); [|done].
  destruct Hm as [H4 H6]. eexists. split; [reflexivity|]. cbn [modeToInternal GetCustomIp].
  by rewrite !ByteSlicesToIPs_roundtrip.
Qed.

Lemma CIDRRangesToPrefixes_roundtrip nets :
  Forall prefix_ok nets -> CIDRRangesToPrefixes (prefixesToProtobuf nets) = Ret nets.
Proof.
  induction 1 as [|[ip bits] nets (Ha & Hv & Hz & Hb) _ IH]; [done|]. cbn [p_ip p_bits] in *.
  cbn [prefixesToProtobuf fmap list_fmap CIDRRangesToPrefixes pb_address pb_prefix p_ip p_bits].
  rewrite AddrFromSlice_AsSlice by done. fold (prefixesToProtobuf nets). rewrite IH. cbn [outcome_bind].
  repeat f_equal. unfold PrefixFrom. f_equal.
  - by destruct ip as [| |n zone]; [..|apply negb_false_iff, bool_decide_eq_true in Hz as ->].
  - rewrite Hv. destruct (decide (bits = -1)) as [->|].
    { change (-1 mod 2 ^ 32) with (2 ^ 32 - 1). by destruct ip. }
    rewrite Z.mod_small by (destruct ip; simpl in *; lia).
    destruct (0 <=? bits) eqn:E1, (bits <=? BitLen ip) eqn:E2; try done; lia.
Qed.

Lemma dayInterval_roundtrip i :
  from_option interval_ok True i -> dayIntervalToInternal (dayIntervalToProtobuf i) = i.
Proof.
  destruct i as [[s e]|]; [|done]. intros [Hs He]. cbn in *.
  by rewrite !Z.mod_small by lia.
Qed.

Lemma schedule_roundtrip s : from_option schedule_ok True s ->
  exists pb, scheduleToProtobuf s = Ret pb /\ filterConfigScheduleToInternal pb = Ok s.
Proof.
  destruct s as [[week loc]|]; [|by eexists]. intros (Hl & Hi & Hz). cbn [Week TimeZone] in *.
  destruct week as [|w0 [|w1 [|w2 [|w3 [|w4 [|w5 [|w6 [|]]]]]]]]; try done.
  eexists. split; [reflexivity|]. unfold filterConfigScheduleToInternal. cbn [pb_time_zone TimeZone].
  rewrite Hz. cbn [annotate result_bind get pb_week pb_sun pb_mon pb_tue pb_wed pb_thu pb_fri pb_sat].
  rewrite !Forall_cons in Hi. destruct Hi as (? & ? & ? & ? & ? & ? & ? & _).
  by rewrite !dayInterval_roundtrip.
Qed.

Lemma config_roundtrip c : config_ok c ->
  exists fc, filterConfigToProtobuf c = Ret fc /\
    forall pb, pb_filter_config pb = Some fc -> configClientToInternal pb = Ok (reload_config c).
Proof.
  destruct c as [[flt en] [ids2 en2] [[cids cen] sched bs pe ab sg sy] [ids en1] [typo sbe dd nrd]].
  intros (Hs & Hf & Ht). cbn in Hs, Hf, Ht. destruct Ht as [[te] ->].
  destruct (schedule_roundtrip sched Hs) as (pbs & Es & Es').
  unfold filterConfigToProtobuf. cbn [cfc_CustomFilter ccf_Enabled ccf_Filter cfc_Parental cp_PauseSchedule].
  assert (exists rules, (if en then match flt with None => Panic "invalid memory address or nil pointer dereference" | Some rules => Ret rules end
      else Ret []) = Ret rules /\
    (if (0 <? length rules)%nat then Some rules else None) =
      (if en then match flt with Some [] => None | f => f end else None)) as (rules & Er & Er').
  { destruct en; [|by eexists]. destruct (Hf eq_refl) as [[|r rs] ->]; by eexists. }
  rewrite Er, Es. eexists. split; [reflexivity|]. intros pb Epb. unfold configClientToInternal. rewrite Epb.
  match goal with |- context[filterConfigScheduleToInternal ?x] => change x with pbs end. rewrite Es'.
  cbn [annotate result_bind]. match goal with |- context[length ?x] => change x with rules end.
  rewrite Er'. destruct en; [destruct flt as [[|]|]|]; reflexivity.
Qed.

Lemma customDomains_roundtrip cs : Forall (fun c => state_ok (State c)) cs ->
  exists pbs, customDomainConfigsToProtobuf cs = Ret pbs /\ customDomainConfsToInternal pbs = Ok cs.
Proof.
  induction 1 as [|[st ds] cs Hs _ (pbs & E1 & E2)]; [by eexists|].
  destruct st as [[nb na name e]|[ex path]|]; [| |done]; cbn; rewrite E1; eexists; (split; [reflexivity|]);
    cbn; rewrite E2, !as_time_new; done.
Qed.

Lemma access_roundtrip c : from_option access_ok True c -> accessToInternal (accessToProtobuf c) = Ret c.
Proof.
  destruct c as [[an bn aa ba rs se]|]; [|done]. intros [Ha Hb]. cbn in *.
  by rewrite !CIDRRangesToPrefixes_roundtrip.
Qed.

Lemma limiter_roundtrip h est rl : Forall prefix_ok (rc_ClientSubnets (Ratelimiter_Config rl)) ->
  exists new h', rateLimiterToInternal h (ratelimiterToProtobuf (Ratelimiter_Config rl)) est = Ret (new, h') /\
    limiter_reloaded h est rl new h'.
Proof.
  destruct rl as [|ptr nets e rps]; intros Hn; [by do 2 eexists|]. cbn in Hn |- *.
  unfold rateLimiterToInternal. cbn [get pb_rl_enabled negb pb_client_cidr pb_rps].
  rewrite CIDRRangesToPrefixes_roundtrip by done. do 2 eexists. split; [reflexivity|].
  eexists. split_and!; [|reflexivity..]. apply not_elem_of_dom, is_fresh.
Qed.

Lemma profile_roundtrip h est p : profile_ok p ->
  exists pb rl h', profileToProtobuf p = Ret pb /\
    profileToInternal h pb est = Ret (Ok (reload p rl, h')) /\
    limiter_reloaded h est (p_Ratelimiter p) rl h'.
Proof.
  intros (Hm & Hma & Hms & Hc & Hd & Ha & Hr & Hid & Ht).
  destruct (modeToInternal_set "bad blocking mode %T(%[1]v)" "bad pb blocking mode" _ Hm) as (bm & Em & Em').
  assert (exists bm, setAdultBlockingMode (AdultBlockingMode p) = Ret bm /\
    modeToInternal "bad pb adult blocking mode" bm = Ok (AdultBlockingMode p)) as (bma & Ea & Ea').
  { destruct (AdultBlockingMode p) as [m|]; [|by eexists]. cbn [setAdultBlockingMode].
    destruct (modeToInternal_set "bad adult blocking mode %T(%[1]v)" "bad pb adult blocking mode" m Hma) as (x & -> & ?).
    by eexists. }
  assert (exists bm, setSafeBrowsingBlockingMode (SafeBrowsingBlockingMode p) = Ret bm /\
    modeToInternal "bad pb safe browsing blocking mode" bm = Ok (SafeBrowsingBlockingMode p)) as (bms & Es & Es').
  { destruct (SafeBrowsingBlockingMode p) as [m|]; [|by eexists]. cbn [setSafeBrowsingBlockingMode].
    destruct (modeToInternal_set "bad safe browsing blocking mode %T(%[1]v)" "bad pb safe browsing blocking mode" m Hms) as (x & -> & ?).
    by eexists. }
  destruct (customDomains_roundtrip _ Hd) as (pbd & Ed & Ed').
  destruct (config_roundtrip _ Hc) as (fc & Efc & Efc').
  destruct (limiter_roundtrip h est _ Hr) as (rl & h' & El & Hl).
  unfold profileToProtobuf, customDomainsToProtobuf, setBlockingMode. rewrite Ed, Efc, Em, Ea, Es. cbn [outcome_bind].
  eexists _, rl, h'. split; [reflexivity|]. split; [|done].
  unfold profileToInternal, blockingModesToInternal, adultBlockingModeToInternal,
    safeBrowsingBlockingModeToInternal, blockingModeToInternal, fc_customDomainsToInternal.
  cbn [pb_blocking_mode pb_adult_blocking_mode pb_safe_browsing_blocking_mode pb_custom_domains get pb_acd_domains].
  rewrite Em', Ea', Es', Ed'. cbn [annotate result_bind].
  rewrite Efc' by done. cbn [result_bind pb_access pb_ratelimiter].
  rewrite access_roundtrip by done. rewrite El. cbn [outcome_bind fst snd]. unfold reload.
  do 3 f_equal. cbn [pb_device_ids pb_filtered_response_ttl get pb_acd_enabled default]. f_equal.
  - by destruct (CustomDomains p).
  - apply leibniz_equiv. rewrite merge_sort_Permutation. by rewrite list_to_set_elements.
  - by apply as_duration_new.
  - unfold newAccountIDFromProtobuf. cbn [pb_account_id_int pb_account_id].
    destruct (AccountID p =? 0) eqn:E0; cbn [negb]; [by apply Z.eqb_eq in E0 as ->|].
    unfold NewAccountID. destruct (AccountID p <=? 0) eqn:E1; [lia|done].
Qed.

(** ** The whole cache *)

(** A limiter with the same configuration and the size estimate [est]. *)
Definition same_limiter (est : Z) (old new : Ratelimiter) : Prop :=
  match old, new with
  | GlobalRatelimiter, GlobalRatelimiter => True
  | DefaultRatelimiter _ nets _ rps, DefaultRatelimiter _ nets' est' rps' => nets' = nets /\ est' = est /\ rps' = rps
  | _, _ => False
  end.

Definition reloaded (est : Z) (p p' : Profile) : Prop :=
  p' = reload p (p_Ratelimiter p') /\ same_limiter est (p_Ratelimiter p) (p_Ratelimiter p').

Definition limiter_ptr (p : Profile) : option nat :=
  match p_Ratelimiter p with GlobalRatelimiter => None | DefaultRatelimiter ptr _ _ _ => Some ptr end.

(** The addresses of the counters of loaded profiles: all different, and none of
    them in use before. *)
Definition own_counters (h : heap) (ps : list Profile) (h' : heap) : Prop :=
  h ⊆ h' /\ NoDup (omap limiter_ptr ps) /\
  Forall (fun ptr => h !! ptr = None /\ is_Some (h' !! ptr)) (omap limiter_ptr ps).

Lemma own_counters_cons h est p rl h1 ps h' :
  limiter_reloaded h est (p_Ratelimiter p) rl h1 -> own_counters h1 ps h' -> own_counters h (reload p rl :: ps) h'.
Proof.
  intros Hl (Hsub & Hnd & Hall). rewrite Forall_forall in Hall.
  unfold limiter_reloaded in Hl. destruct (p_Ratelimiter p) as [|q nets e rps].
  { destruct Hl as [-> ->]. unfold own_counters. cbn [omap list_omap limiter_ptr reload p_Ratelimiter].
    split_and!; [done..|]. by apply Forall_forall. }
  destruct Hl as (ptr & Hptr & -> & ->). unfold own_counters.
  cbn [omap list_omap limiter_ptr reload p_Ratelimiter].
  assert (h ⊆ <[ptr:=NewRequestCounter rps second]> h) as Hins by by apply insert_subseteq.
  split_and!.
  - by etrans.
  - constructor; [|done]. intros Hin. apply Hall in Hin as [Hn _]. by rewrite lookup_insert_eq in Hn.
  - constructor.
    + split; [done|]. exists (NewRequestCounter rps second). eapply lookup_weaken; [|done]. by rewrite lookup_insert_eq.
    + apply Forall_forall. intros x Hx. apply Hall in Hx as [Hn Hs]. split; [|done].
      destruct (decide (x = ptr)) as [->|]; [done|]. by rewrite lookup_insert_ne in Hn by done.
Qed.

Lemma profiles_roundtrip est ps : Forall profile_ok ps -> forall h,
  exists pbs ps' h', profilesToProtobuf ps = Ret pbs /\
    profilesToInternal h pbs est = Ret (Ok (ps', h')) /\ Forall2 (reloaded est) ps ps' /\ own_counters h ps' h'.
Proof.
  induction 1 as [|p ps Hp _ IH]; intros h.
  { exists [], [], h. split_and!; [done|done|constructor|]. split_and!; [done|constructor|constructor]. }
  destruct (profile_roundtrip h est p Hp) as (pb & rl & h1 & E1 & E2 & Hl).
  destruct (IH h1) as (pbs & ps' & h' & E3 & E4 & Hf & Ho).
  exists (pb :: pbs), (reload p rl :: ps'), h'. cbn [profilesToProtobuf profilesToInternal].
  rewrite E1, E3. cbn [outcome_bind]. split; [done|]. rewrite E2. cbn [outcome_bind]. rewrite E4.
  split; [done|]. split; [|by eapply own_counters_cons].
  constructor; [|done]. split; [done|]. unfold limiter_reloaded in Hl.
  destruct (p_Ratelimiter p); [by destruct Hl as [-> _]|]. by destruct Hl as (q & _ & -> & _).
Qed.

Lemma devices_roundtrip ds : Forall device_ok ds ->
  devicesFromProtobuf (devicesToProtobuf ds) = Ok (reload_device <$> ds).
Proof.
  induction 1 as [|[[ph en doh] id lip name hid dips fe] ds [Hl Hd] _ IH]; [done|].
  cbn [devicesToProtobuf fmap list_fmap devicesFromProtobuf]. fold (devicesToProtobuf ds).
  unfold deviceToInternal, deviceToProtobuf. cbn [LinkedIP DedicatedIPs] in Hl, Hd.
  cbn [pb_linked_ip pb_dedicated_ips LinkedIP DedicatedIPs].
  rewrite UnmarshalBinary_IPToBytes, ByteSlicesToIPs_roundtrip by done. cbn [annotate result_bind].
  rewrite IH. cbn [result_bind]. do 2 f_equal. unfold reload_device.
  destruct en; [|done]. by destruct ph.
Qed.

Context `{!ProtoEncoding} `{!ProtoEncodingSpec}.

Lemma store_load_ok c old h est : cache_ok c ->
  exists pb, fileCacheToProtobuf c = Ret pb /\
    (forall err, exists e, Store c old (Some err) = Ret (Err e, old)) /\
    forall b, proto_Marshal pb = Ok b ->
      Store c old None = Ret (Ok (len b), Some b) /\
      exists c' h', Load h (Ok (Some b)) est = Ret (Ok (Some (c', h'))) /\
        fc_SyncTime c' = fc_SyncTime c /\ fc_Version c' = FileCacheVersion /\
        Forall2 (reloaded est) (merge_sort profile_le (fc_Profiles c)) (fc_Profiles c') /\
        fc_Devices c' = reload_device <$> merge_sort device_le (fc_Devices c) /\
        own_counters h (fc_Profiles c') h'.
Proof.
  intros (Hp & Hd & Hv).
  assert (Forall profile_ok (merge_sort profile_le (fc_Profiles c))) as Hp'
    by (by rewrite merge_sort_Permutation).
  assert (Forall device_ok (merge_sort device_le (fc_Devices c))) as Hd'
    by (by rewrite merge_sort_Permutation).
  destruct (profiles_roundtrip est _ Hp' h) as (pbs & ps' & h' & E1 & E2 & Hf & Ho).
  unfold fileCacheToProtobuf at 1. rewrite E1. cbn [outcome_bind]. eexists. split; [reflexivity|].
  unfold Store, fileCacheToProtobuf. rewrite E1. cbn [outcome_bind]. split.
  { intros err. destruct (proto_Marshal _); cbn [annotate]; by eexists. }
  intros b Eb. rewrite Eb. cbn [annotate]. split; [done|].
  unfold Load. rewrite (proto_roundtrip _ _ Eb). cbn [annotate pb_version]. rewrite Hv, Z.eqb_refl. cbn [negb].
  unfold fileCacheToInternal. cbn [pb_profiles pb_devices pb_sync_time pb_version]. rewrite E2.
  cbn [outcome_bind annotate result_bind]. rewrite devices_roundtrip by done.
  do 2 eexists. split; [reflexivity|]. cbn [fc_SyncTime fc_Version fc_Profiles fc_Devices fst snd].
  rewrite as_time_new. done.
Qed.

(** C8. A cache of profiles and devices can be stored if their modes and the states of
    their domains are of the known kinds, their addresses, networks and account
    identifiers are valid, the intervals and durations are in range, the time zones are
    those of their names, and a custom filter that is enabled is not nil.  Then it is
    stored, an error of writing leaves the file as it was, and what is loaded from the
    file is the same time; the same devices, sorted by ID, except that the settings of
    authentication that is not enabled are reset; and the same profiles, sorted by ID,
    except that the flag of the streamed query log is reset, that the filter of a custom
    filter that is not enabled or has no rules becomes nil, and that the rate limiter is
    a new one of the same configuration, with the given estimate of the size of
    responses and a counter that it shares with no other. *)
Theorem store_load c old h est : cache_ok c ->
  exists pb, fileCacheToProtobuf c = Ret pb /\
    (forall err, exists e, Store c old (Some err) = Ret (Err e, old)) /\
    forall b, proto_Marshal pb = Ok b ->
      Store c old None = Ret (Ok (len b), Some b) /\
      exists c' h', Load h (Ok (Some b)) est = Ret (Ok (Some (c', h'))) /\
        fc_SyncTime c' = fc_SyncTime c /\ fc_Version c' = FileCacheVersion /\
        Forall2 (reloaded est) (merge_sort profile_le (fc_Profiles c)) (fc_Profiles c') /\
        fc_Devices c' = reload_device <$> merge_sort device_le (fc_Devices c) /\
        own_counters h (fc_Profiles c') h'.
Proof. apply store_load_ok. Qed.
End facts.

(** ** Examples *)

#[local] Instance ref_types : WellKnownTypes := {|
  Timestamp := Z; Duration := Z; timestamppb_New t := t; AsTime := default 0; durationpb_New d := d; AsDuration d := Z.max minDuration (Z.min maxDuration (default 0 d)) |}.
#[local] Instance ref_types_spec : WellKnownTypesSpec.
Proof.
  split; [done|..].
  - intros d Hd. cbn. unfold minDuration, maxDuration in *. lia.
  - intros [d|]; cbn; unfold minDuration, maxDuration; lia.
Qed.

#[local] Instance ref_zones : TimeZones := fun name => Ok {| loc_String := name; zone_offset _ := 0 |}.

#[local] Instance ref_ring : RingBuffer := {| ring := list Z; NewRingBuffer _ := []; Push r x := x :: r; Current r := 0 |}.

Definition some_profile (stream : bool) : Profile := {|
  CustomDomains := {|
    cd_Domains := [{| State := StateCurrent {| NotBefore := 1; NotAfter := 2; CertName := "cert"; cur_Enabled := true |};
                      cdc_Domains := ["a.example"] |}]; cd_Enabled := true |};
  DeviceIDs := {["dev2"; "dev1"]};
  p_FilterConfig := {|
    cfc_CustomFilter := {| ccf_Filter := Some ["||ads.example^"]; ccf_Enabled := true |};
    cfc_CustomRuleList := {| crl_IDs := []; crl_Enabled := false |};
    cfc_Parental := {|
      cp_Categories := {| cg_IDs := ["games"]; cg_Enabled := true |};
      cp_PauseSchedule := Some {| Week := replicate 7 (Some {| di_Start := 60; di_End := 120 |});
                                  TimeZone := {| loc_String := "UTC"; zone_offset _ := 0 |} |};
      cp_BlockedServices := ["s1"]; cp_Enabled := true; cp_AdultBlockingEnabled := true;
      cp_SafeSearchGeneralEnabled := false; cp_SafeSearchYouTubeEnabled := false |};
    cfc_RuleList := {| cr_IDs := ["list1"]; cr_Enabled := true |};
    cfc_SafeBrowsing := {| csb_Typosquatting := Some {| ct_Enabled := true |}; csb_Enabled := true;
                           csb_DangerousDomainsEnabled := true; csb_NewlyRegisteredDomainsEnabled := false |} |};
  p_Access := Some {| pc_AllowedNets := [{| p_ip := Addr4 16909060; p_bits := 32 |}]; pc_BlockedNets := [];
                      pc_AllowedASN := [1]; pc_BlockedASN := []; pc_BlocklistDomainRules := ["||bad.example^"];
                      pc_StandardEnabled := true |};
  AdultBlockingMode := None;
  p_BlockingMode := BlockingModeCustomIP [Addr4 1] [Addr6 1 EmptyString];
  SafeBrowsingBlockingMode := Some BlockingModeREFUSED;
  p_Ratelimiter := DefaultRatelimiter 5 [{| p_ip := Addr6 0 EmptyString; p_bits := 64 |}] 1000 10;
  p_ID := "prof1"; FilteredResponseTTL := 10 * second; AccountID := 1234;
  AutoDevicesEnabled := true; BlockChromePrefetch := true; BlockFirefoxCanary := true; BlockPrivateRelay := true;
  Deleted := false; p_FilteringEnabled := true; IPLogEnabled := true; QueryLogEnabled := true;
  QueryLogStream := stream;
|}.

Definition some_device : Device := {|
  Auth := {| PasswordHash := PasswordHashBcrypt "hash"; auth_Enabled := true; DoHAuthOnly := true |};
  d_ID := "dev1"; LinkedIP := Addr4 1; d_Name := "My device"; HumanIDLower := EmptyString;
  DedicatedIPs := [Addr6 7 EmptyString]; d_FilteringEnabled := true |}.

Definition some_cache : FileCache := {|
  fc_SyncTime := 100; fc_Profiles := [some_profile true]; fc_Devices := [some_device]; fc_Version := FileCacheVersion |}.

Lemma some_cache_ok : cache_ok some_cache.
Proof.
  repeat split; try (repeat constructor; done); try done.
Qed.

(** ** Equality of messages *)

#[local] Instance pbDayInterval_eq_dec : EqDecision pbDayInterval.
Proof. solve_decision. Defined.
#[local] Instance pbWeeklySchedule_eq_dec : EqDecision pbWeeklySchedule.
Proof. solve_decision. Defined.
#[local] Instance pbSchedule_eq_dec : EqDecision pbSchedule.
Proof. solve_decision. Defined.
#[local] Instance pbIDs_eq_dec : EqDecision pbIDs.
Proof. solve_decision. Defined.
#[local] Instance pbCustom_eq_dec : EqDecision pbCustom.
Proof. solve_decision. Defined.
#[local] Instance pbParental_eq_dec : EqDecision pbParental.
Proof. solve_decision. Defined.
#[local] Instance pbSafeBrowsing_eq_dec : EqDecision pbSafeBrowsing.
Proof. solve_decision. Defined.
#[local] Instance pbFilterConfig_eq_dec : EqDecision pbFilterConfig.
Proof. solve_decision. Defined.
#[local] Instance pbBlockingMode_eq_dec : EqDecision pbBlockingMode.
Proof. solve_decision. Defined.
#[local] Instance pbCidrRange_eq_dec : EqDecision pbCidrRange.
Proof. solve_decision. Defined.
#[local] Instance pbAccess_eq_dec : EqDecision pbAccess.
Proof. solve_decision. Defined.
#[local] Instance pbRatelimiter_eq_dec : EqDecision pbRatelimiter.
Proof. solve_decision. Defined.
#[local] Instance pbAuthenticationSettings_eq_dec : EqDecision pbAuthenticationSettings.
Proof. solve_decision. Defined.
#[local] Instance pbDevice_eq_dec : EqDecision pbDevice.
Proof. solve_decision. Defined.
#[local] Instance timestamp_eq_dec : EqDecision Timestamp := Z.eq_dec.
#[local] Instance duration_eq_dec : EqDecision Duration := Z.eq_dec.
#[local] Instance pbDomainState_eq_dec : EqDecision pbDomainState.
Proof. solve_decision. Defined.
#[local] Instance pbCustomDomainConfig_eq_dec : EqDecision pbCustomDomainConfig.
Proof. solve_decision. Defined.
#[local] Instance pbAccountCustomDomains_eq_dec : EqDecision pbAccountCustomDomains.
Proof. solve_decision. Defined.
#[local] Instance pbProfile_eq_dec : EqDecision pbProfile.
Proof. solve_decision. Defined.
#[local] Instance pbFileCache_eq_dec : EqDecision pbFileCache.
Proof. solve_decision. Defined.

#[local] Instance outcome_cache_eq_dec : EqDecision (outcome pbFileCache).
Proof. solve_decision. Defined.

(** An encoding of one message. *)
Definition message_encoding (m : outcome pbFileCache) : ProtoEncoding := {|
  proto_Marshal fc := if decide (m = Ret fc) then Ok "cache" else Err (ErrConst "other message");
  proto_Unmarshal b :=
    match m with
    | Ret fc => if decide (b = "cache"%string) then Ok fc else Err (ErrConst "bad")
    | Panic msg => Err (ErrConst msg)
    end |}.

Lemma message_encoding_spec m : @ProtoEncodingSpec _ (message_encoding m).
Proof.
  intros fc b. unfold proto_Marshal, proto_Unmarshal, message_encoding.
  destruct (decide (m = Ret fc)) as [->|]; [|done]. by intros [= <-].
Qed.

Lemma message_encoded m fc : m = Ret fc -> @proto_Marshal _ (message_encoding m) fc = Ok "cache".
Proof. intros E. unfold proto_Marshal, message_encoding. by destruct (decide (m = Ret fc)). Qed.

#[local] Instance ref_encoding : ProtoEncoding := message_encoding (fileCacheToProtobuf some_cache).
#[local] Instance ref_encoding_spec : ProtoEncodingSpec := message_encoding_spec _.

Lemma store_load_witness :
  exists pb, fileCacheToProtobuf some_cache = Ret pb /\ proto_Marshal pb = Ok "cache" /\
    Store some_cache None None = Ret (Ok 5, Some "cache"%string) /\
    exists c' h', Load ∅ (Ok (Some "cache"%string)) 1000 = Ret (Ok (Some (c', h'))) /\
      Forall2 (reloaded 1000) [some_profile true] (fc_Profiles c').
Proof.
  destruct (store_load some_cache None ∅ 1000 some_cache_ok) as (pb & E & _ & Hall).
  exists pb. split; [exact E|]. pose proof (message_encoded _ _ E) as Em.
  split; [exact Em|]. destruct (Hall _ Em) as (Hs & c' & h' & El & _ & _ & Hf & _).
  split; [exact Hs|]. exists c', h'. split; [exact El|]. exact Hf.
Defined.

(** The flag of the streamed query log is lost: storing and loading a profile
    with it gives the profile without it, although the message has a field for
    it, which loading reads. *)
Theorem query_log_stream_lost :
  exists pb p' h', profileToProtobuf (some_profile true) = Ret pb /\
    profileToInternal ∅ pb 1000 = Ret (Ok (p', h')) /\ QueryLogStream p' = false /\
    profileToProtobuf (some_profile false) = Ret pb.
Proof. do 3 eexists. split_and!; reflexivity. Qed.

(** The rules of a custom filter that is enabled but has none are loaded as a nil
    filter, and storing the loaded profile panics. *)
Definition no_rules : ConfigClient := {|
  cfc_CustomFilter := {| ccf_Filter := Some []; ccf_Enabled := true |};
  cfc_CustomRuleList := cfc_CustomRuleList (p_FilterConfig (some_profile true));
  cfc_Parental := cfc_Parental (p_FilterConfig (some_profile true));
  cfc_RuleList := cfc_RuleList (p_FilterConfig (some_profile true));
  cfc_SafeBrowsing := cfc_SafeBrowsing (p_FilterConfig (some_profile true)) |}.

Theorem reloaded_without_rules_panics :
  (exists fc, filterConfigToProtobuf no_rules = Ret fc) /\
  exists m, filterConfigToProtobuf (reload_config no_rules) = Panic m.
Proof. split; eexists; reflexivity. Qed.
