(* ===== verification/BackendPB.v ===== *)
(** Profiles and devices from the backend: internal/backendgrpc/dnspb (profile.go,
    device.go, devicechange.go, access.go, dnspb.go) and
    internal/backendgrpc/profilestorage.go.

    The messages are those of dns.proto.  Most conversions skip what is not
    valid and report it to the error collector: they return the errors they
    report, in order.  The time-zone database, the well-known types, the set of
    the addresses the servers are bound to, and the conversion of floating-point
    numbers that do not fit are parameters. *)

From S2P Require Import Prelude GoStd Utf8 NetIP HumanID AgdProtobuf Schedule FilterConfig DnsMsg Filter RuleList Access.
From S2P Require Import RateLimit Agd ProfileDB RatelimitMW FileCachePB.

Open Scope Z_scope.

(** ** dns.proto

    The messages [CidrRange] and [AuthenticationSettings] have the same fields
    as in the file cache. *)

Inductive DNSProfile_BlockingMode :=
  | DNSProfile_BlockingModeCustomIp (Ipv4 Ipv6 : string)
  | DNSProfile_BlockingModeNxdomain
  | DNSProfile_BlockingModeNullIp
  | DNSProfile_BlockingModeRefused.

Record DeviceSettings := {
  x_Authentication : option pbAuthenticationSettings;
  x_Id : string;
  x_Name : string;
  x_HumanIdLower : string;
  x_LinkedIp : string;
  x_DedicatedIps : list string;
  x_dev_FilteringEnabled : bool;
}.

Inductive DeviceSettingsChange :=
  | DeviceSettingsChange_Deleted (DeviceId : string)
  | DeviceSettingsChange_Upserted (Device : option DeviceSettings)
  | DeviceSettingsChange_None.

(** [RuleListsSettings], [CustomRuleListsSettings] and [CategoryFilterSettings]. *)
Record IDsSettings := { x_Ids : list string; x_ids_Enabled : bool }.

Record SafeBrowsingSettings := {
  x_Typosquatting : option bool;
  x_BlockDangerousDomains : bool;
  x_BlockNrd : bool;
  x_sb_Enabled : bool;
}.

Record AccessSettings := {
  x_AllowlistCidr : list pbCidrRange;
  x_BlocklistCidr : list pbCidrRange;
  x_AllowlistAsn : list Z;
  x_BlocklistAsn : list Z;
  x_BlocklistDomainRules : list string;
  x_acc_Enabled : bool;
}.

Record RateLimitSettings := { x_rl_Enabled : bool; x_Rps : Z; x_ClientCidr : list pbCidrRange }.

Section messages.
Context `{WellKnownTypes}.

Record DayRange := { x_Start : option Duration; x_End : option Duration }.

Record WeeklyRange := {
  x_Mon : option DayRange; x_Tue : option DayRange; x_Wed : option DayRange; x_Thu : option DayRange;
  x_Fri : option DayRange; x_Sat : option DayRange; x_Sun : option DayRange;
}.

Record ScheduleSettings := { x_Tmz : string; x_WeeklyRange : option WeeklyRange }.

Record ParentalSettings := {
  x_par_Enabled : bool;
  x_BlockAdult : bool;
  x_GeneralSafeSearch : bool;
  x_YoutubeSafeSearch : bool;
  x_BlockedServices : list string;
  x_Schedule : option ScheduleSettings;
}.

Inductive CustomDomain_State :=
  | CustomDomain_Pending (WellKnownPath : string) (Expire : option Timestamp)
  | CustomDomain_Current (CertName : string) (NotBefore NotAfter : option Timestamp) (Enabled : bool).

Record CustomDomain := { x_dom_Domains : list string; x_State : option CustomDomain_State }.

Record CustomDomainSettings := { x_Domains : list CustomDomain; x_cd_Enabled : bool }.

Record DNSProfile := {
  x_SafeBrowsing : option SafeBrowsingSettings;
  x_Parental : option ParentalSettings;
  x_RuleLists : option IDsSettings;
  x_CustomRuleLists : option IDsSettings;
  x_FilteredResponseTtl : option Duration;
  x_Access : option AccessSettings;
  x_RateLimit : option RateLimitSettings;
  x_CustomDomain : option CustomDomainSettings;
  x_CategoryFilter : option IDsSettings;
  x_BlockingMode : option DNSProfile_BlockingMode;
  x_AdultBlockingMode : option DNSProfile_BlockingMode;
  x_SafeBrowsingBlockingMode : option DNSProfile_BlockingMode;
  x_DnsId : string;
  x_Devices : list DeviceSettings;
  x_DeviceChanges : list DeviceSettingsChange;
  x_CustomRules : list string;
  x_AccountIdInt : Z;
  x_AutoDevicesEnabled : bool;
  x_BlockChromePrefetch : bool;
  x_BlockFirefoxCanary : bool;
  x_BlockPrivateRelay : bool;
  x_Deleted : bool;
  x_FilteringEnabled : bool;
  x_IpLogEnabled : bool;
  x_QueryLogEnabled : bool;
  x_QueryLogStream : bool;
  x_StandardAccessSettingsEnabled : bool;
}.

End messages.

(** ** Parameters *)

(** The conversion to uint16 of a number of minutes, as a floating-point number,
    that is out of range depends on the implementation. *)
Class FloatToUint16 := float_to_uint16_other : Z -> Z.

Definition uint16_of_minutes `{FloatToUint16} (ns : Z) : Z :=
  if (- minute <? ns) && (ns <? 2 ^ 16 * minute) then Z.quot ns minute
  else float_to_uint16_other ns mod 2 ^ 16.

(** The converted values, and the errors of those that are skipped. *)
Fixpoint convert_all {A B} (format : string) (f : A -> result error B) (l : list A) : list B * list error :=
  match l with
  | [] => ([], [])
  | a :: l =>
      let '(bs, errs) := convert_all format f l in
      match f a with
      | Ok b => (b :: bs, errs)
      | Err err => (bs, ErrWrap format err :: errs)
      end
  end.

(** ** dnspb.go *)

Definition CIDRRangeToInternal (cidrs : list pbCidrRange) : list Prefix * list error :=
  convert_all "%w"
    (fun c => match AddrFromSlice (pb_address c) with
              | Some addr => Ok (PrefixFrom addr (pb_prefix c))
              | None => Err (ErrConst "bad cidr at index %d: %v")
              end) cidrs.

(** ** access.go *)

Definition asnToInternal (asns : list Z) : list Z := asns.

(** [None] is an [access.EmptyProfile]. *)
Definition AccessSettings_toInternal (x : option AccessSettings) (standardEnabled : bool)
    : option ProfileConfig * list error :=
  match x with
  | None => (None, [])
  | Some x =>
      if negb (x_acc_Enabled x) then (None, [])
      else
        let '(allowed, errs1) := CIDRRangeToInternal (x_AllowlistCidr x) in
        let '(blocked, errs2) := CIDRRangeToInternal (x_BlocklistCidr x) in
        (Some {| pc_AllowedNets := allowed; pc_BlockedNets := blocked;
                 pc_AllowedASN := asnToInternal (x_AllowlistAsn x);
                 pc_BlockedASN := asnToInternal (x_BlocklistAsn x);
                 pc_BlocklistDomainRules := x_BlocklistDomainRules x;
                 pc_StandardEnabled := standardEnabled |}, errs1 ++ errs2)
  end.

Definition ToStandardConfig (x : option AccessSettings) : option StandardBlockerConfig * list error :=
  match x with
  | None => (None, [])
  | Some x =>
      if negb (x_acc_Enabled x) then (None, [])
      else
        let '(allowed, errs1) := CIDRRangeToInternal (x_AllowlistCidr x) in
        let '(blocked, errs2) := CIDRRangeToInternal (x_BlocklistCidr x) in
        (Some {| sc_AllowedNets := allowed; sc_BlockedNets := blocked;
                 sc_AllowedASN := asnToInternal (x_AllowlistAsn x);
                 sc_BlockedASN := asnToInternal (x_BlocklistAsn x);
                 sc_BlocklistDomainRules := x_BlocklistDomainRules x |}, errs1 ++ errs2)
  end.

(** ** device.go *)

Section devices.
Context `{Netutil} `{UnicodeCase}.
(** [netutil.SubnetSet.Contains] for the addresses of the servers. *)
Variable bindSet : Addr -> bool.

Definition AuthenticationSettings_toInternal (x : option pbAuthenticationSettings) : AuthSettings :=
  match x with
  | None => {| PasswordHash := AllowAuthenticator; auth_Enabled := false; DoHAuthOnly := false |}
  | Some x =>
      {| PasswordHash := match pb_password_hash_bcrypt x with
                         | None => AllowAuthenticator
                         | Some hash => PasswordHashBcrypt hash
                         end;
         auth_Enabled := true; DoHAuthOnly := pb_doh_auth_only x |}
  end.

Definition dedicatedIPsToInternal (x : DeviceSettings) : result error (list Addr) :=
  let? ips := ByteSlicesToIPs (x_DedicatedIps x) in
  if forallb bindSet ips then Ok ips else Err (ErrConst "at index %d: %q is not in bind data").

Definition DeviceSettings_ToInternal (x : option DeviceSettings) : result error Device :=
  match x with
  | None => Err (ErrConst "device is nil")
  | Some x =>
      let? linkedIP := annotate "linked ip: %w" (UnmarshalBinary (x_LinkedIp x)) in
      let? dedicatedIPs := annotate "dedicated ips: %w" (dedicatedIPsToInternal x) in
      let auth := AuthenticationSettings_toInternal (x_Authentication x) in
      let? id := annotate "device id: %w" (NewDeviceID (x_Id x)) in
      let? name := annotate "device name: %w" (NewDeviceName (x_Name x)) in
      let? humanID := if bool_decide (x_HumanIdLower x = EmptyString) then Ok EmptyString
                      else annotate "lowercase human id: %w" (NewHumanIDLower (x_HumanIdLower x)) in
      Ok {| Auth := auth; d_ID := id; LinkedIP := linkedIP; d_Name := name; HumanIDLower := humanID;
            DedicatedIPs := dedicatedIPs; d_FilteringEnabled := x_dev_FilteringEnabled x |}
  end.

(** The number of bad devices is the number of errors. *)
Definition devicesToInternal (ds : list DeviceSettings) : list Device * list string * list error :=
  let '(devices, errs) :=
    convert_all "bad settings for device with id %q: %w" (fun d => DeviceSettings_ToInternal (Some d)) ds in
  (devices, d_ID <$> devices, errs).

(** ** devicechange.go *)

Definition deviceChangeToInternal (c : DeviceSettingsChange) : outcome (result error (Device + string)) :=
  match c with
  | DeviceSettingsChange_Deleted id =>
      Ret (let? id := annotate "deleted device: %w" (NewDeviceID id) in Ok (inr id))
  | DeviceSettingsChange_Upserted pbd =>
      match DeviceSettings_ToInternal pbd with
      | Ok d => Ret (Ok (inl d))
      | Err err =>
          match pbd with
          | None => Panic "invalid memory address or nil pointer dereference"
          | Some _ => Ret (Err (ErrWrap "upserted device with id %q: %w" err))
          end
      end
  | DeviceSettingsChange_None => Ret (Err (ErrWrap "device change: %w: %T(%[2]v)" (ErrConst "bad enum value")))
  end.

(** The upserted devices, the identifiers of the deleted ones, and the errors. *)
Fixpoint deviceChangesToInternal (cs : list DeviceSettingsChange)
    : outcome (list Device * list string * list error) :=
  match cs with
  | [] => Ret ([], [], [])
  | c :: cs =>
      let! r := deviceChangeToInternal c in
      let! rest := deviceChangesToInternal cs in
      let '(upserted, deleted, errs) := rest in
      Ret match r with
          | Ok (inl d) => (d :: upserted, deleted, errs)
          | Ok (inr id) =>
              if bool_decide (id = EmptyString) then
                (upserted, deleted, ErrConst "device_changes: at index %d: %w" :: errs)
              else (upserted, id :: deleted, errs)
          | Err err => (upserted, deleted, ErrWrap "device_changes: at index %d: %w" err :: errs)
          end
  end.

End devices.

(** ** profile.go *)

Section profile.
Context `{WellKnownTypes} `{TimeZones} `{FloatToUint16} `{RingBuffer} `{Netutil} `{UnicodeCase}.

Notation heap := (gmap nat RequestCounter).

Definition BlockingModeCustomIP_toInternal (Ipv4 Ipv6 : string) : result error BlockingMode :=
  let? ipv4Addr := annotate "bad custom ipv4: %w" (UnmarshalBinary Ipv4) in
  let ipv4 := if IsValid ipv4Addr then [ipv4Addr] else [] in
  let? ipv6Addr := annotate "bad custom ipv6: %w" (UnmarshalBinary Ipv6) in
  let ipv6 := if IsValid ipv6Addr then [ipv6Addr] else [] in
  if (length ipv4 + length ipv6 =? 0)%nat then Err (ErrConst "no valid custom ips found")
  else Ok (BlockingModeCustomIP ipv4 ipv6).

(** The cases that the three functions below share. *)
Definition backend_mode (m : DNSProfile_BlockingMode) : result error BlockingMode :=
  match m with
  | DNSProfile_BlockingModeCustomIp v4 v6 => BlockingModeCustomIP_toInternal v4 v6
  | DNSProfile_BlockingModeNxdomain => Ok BlockingModeNXDOMAIN
  | DNSProfile_BlockingModeNullIp => Ok BlockingModeNullIP
  | DNSProfile_BlockingModeRefused => Ok BlockingModeREFUSED
  end.

Definition be_blockingModeToInternal (m : option DNSProfile_BlockingMode) : result error BlockingMode :=
  match m with None => Ok BlockingModeNullIP | Some m => backend_mode m end.

(** [adultBlockingModeToInternal] and [safeBrowsingBlockingModeToInternal]. *)
Definition be_otherModeToInternal (m : option DNSProfile_BlockingMode) : result error (option BlockingMode) :=
  match m with None => Ok None | Some m => let? m := backend_mode m in Ok (Some m) end.

Definition be_blockingModesToInternal (p : DNSProfile)
    : result error (BlockingMode * option BlockingMode * option BlockingMode) :=
  let? m := annotate "blocking mode: %w" (be_blockingModeToInternal (x_BlockingMode p)) in
  let? adult := annotate "adult blocking mode: %w" (be_otherModeToInternal (x_AdultBlockingMode p)) in
  let? safeBrowsing := annotate "safe browsing blocking mode: %w" (be_otherModeToInternal (x_SafeBrowsingBlockingMode p)) in
  Ok (m, adult, safeBrowsing).

Definition CategoryFilterSettings_toInternal (x : option IDsSettings) : ConfigCategories * list error :=
  match x with
  | None => ({| cg_IDs := []; cg_Enabled := false |}, [])
  | Some x =>
      let '(ids, errs) := convert_all "at index %d: %w" NewCategoryID (x_Ids x) in
      ({| cg_IDs := ids; cg_Enabled := x_ids_Enabled x |}, errs)
  end.

Definition blockedServicesToInternal (ids : list string) : list string * list error :=
  convert_all "at index %d: %w" NewBlockedServiceID ids.

Definition rulesToInternal (rules : list string) : list string * list error :=
  convert_all "at index %d: %w" NewRuleText rules.

Definition ruleListSettingsData (s : IDsSettings) : bool * list string * list error :=
  let '(ids, errs) := convert_all "converting %s filter ids: at index %d: %w" NewID (x_Ids s) in
  (x_ids_Enabled s, ids, errs).

Definition CustomRuleListsSettings_toInternal (x : option IDsSettings) : ConfigCustomRuleList * list error :=
  match x with
  | None => ({| crl_IDs := []; crl_Enabled := false |}, [])
  | Some x => let '(enabled, ids, errs) := ruleListSettingsData x in
              ({| crl_IDs := ids; crl_Enabled := enabled |}, errs)
  end.

Definition RuleListsSettings_toInternal (x : option IDsSettings) : ConfigRuleList * list error :=
  match x with
  | None => ({| cr_IDs := []; cr_Enabled := false |}, [])
  | Some x => let '(enabled, ids, errs) := ruleListSettingsData x in
              ({| cr_IDs := ids; cr_Enabled := enabled |}, errs)
  end.

Definition SafeBrowsingSettings_toInternal (x : option SafeBrowsingSettings) : ConfigSafeBrowsing :=
  match x with
  | None => {| csb_Typosquatting := Some {| ct_Enabled := false |}; csb_Enabled := false;
               csb_DangerousDomainsEnabled := false; csb_NewlyRegisteredDomainsEnabled := false |}
  | Some x =>
      {| csb_Typosquatting := Some {| ct_Enabled := default false (x_Typosquatting x) |};
         csb_Enabled := x_sb_Enabled x;
         csb_DangerousDomainsEnabled := x_BlockDangerousDomains x;
         csb_NewlyRegisteredDomainsEnabled := x_BlockNrd x |}
  end.

(** The loop over the days of the week, from Sunday. *)
Fixpoint days_toInternal (days : list (option DayRange)) : result error (list (option DayInterval)) :=
  match days with
  | [] => Ok []
  | None :: days => let? week := days_toInternal days in Ok (None :: week)
  | Some d :: days =>
      let ivl := {| di_Start := uint16_of_minutes (AsDuration (x_Start d));
                    di_End := uint16_of_minutes (AsDuration (x_End d) + minute) |} in
      match Validate (Some ivl) with
      | Some err => Err (ErrWrap "weekday %s: %w" err)
      | None => let? week := days_toInternal days in Ok (Some ivl :: week)
      end
  end.

Definition ScheduleSettings_toInternal (x : option ScheduleSettings) : outcome (result error (option ConfigSchedule)) :=
  match x with
  | None => Ret (Ok None)
  | Some x =>
      match annotate "loading timezone: %w" (LoadLocation (x_Tmz x)) with
      | Err err => Ret (Err err)
      | Ok loc =>
          match x_WeeklyRange x with
          | None => Panic "invalid memory address or nil pointer dereference"
          | Some w =>
              Ret (let? week := days_toInternal [x_Sun w; x_Mon w; x_Tue w; x_Wed w; x_Thu w; x_Fri w; x_Sat w] in
                   Ok (Some {| Week := week; TimeZone := loc |}))
          end
      end
  end.

Definition ParentalSettings_toInternal (x : option ParentalSettings) (s : option IDsSettings)
    : outcome (result error ConfigParental * list error) :=
  let '(categories, errs) := CategoryFilterSettings_toInternal s in
  match x with
  | None =>
      Ret (Ok {| cp_Categories := categories; cp_PauseSchedule := None; cp_BlockedServices := []; cp_Enabled := false;
                 cp_AdultBlockingEnabled := false; cp_SafeSearchGeneralEnabled := false;
                 cp_SafeSearchYouTubeEnabled := false |}, errs)
  | Some x =>
      let '(services, errs') := blockedServicesToInternal (x_BlockedServices x) in
      let! schedule := ScheduleSettings_toInternal (x_Schedule x) in
      Ret (let? schedule := annotate "pause schedule: %w" schedule in
           Ok {| cp_Categories := categories; cp_PauseSchedule := schedule; cp_BlockedServices := services;
                 cp_Enabled := x_par_Enabled x; cp_AdultBlockingEnabled := x_BlockAdult x;
                 cp_SafeSearchGeneralEnabled := x_GeneralSafeSearch x;
                 cp_SafeSearchYouTubeEnabled := x_YoutubeSafeSearch x |}, errs ++ errs')
  end.

Definition newFilterConfig (p : DNSProfile) : outcome (result error ConfigClient * list error) :=
  let! r := ParentalSettings_toInternal (x_Parental p) (x_CategoryFilter p) in
  let '(parental, errs) := r in
  match annotate "parental: %w" parental with
  | Err err => Ret (Err err, errs)
  | Ok parental =>
      let '(customRules, errs1) := rulesToInternal (x_CustomRules p) in
      let customEnabled := (0 <? length customRules)%nat in
      let '(customLists, errs2) := CustomRuleListsSettings_toInternal (x_CustomRuleLists p) in
      let '(lists, errs3) := RuleListsSettings_toInternal (x_RuleLists p) in
      Ret (Ok {|
        cfc_CustomFilter := {| ccf_Filter := if customEnabled then Some customRules else None;
                               ccf_Enabled := customEnabled |};
        cfc_CustomRuleList := customLists;
        cfc_Parental := parental;
        cfc_RuleList := lists;
        cfc_SafeBrowsing := SafeBrowsingSettings_toInternal (x_SafeBrowsing p) |}, errs ++ errs1 ++ errs2 ++ errs3)
  end.

Definition CustomDomain_toInternal (x : CustomDomain) : result error CustomDomainConfig :=
  if (length (x_dom_Domains x) =? 0)%nat then Err (ErrWrap "domains: %w" (ErrConst "empty value"))
  else
    let? state :=
      match x_State x with
      | Some (CustomDomain_Current name nb na e) =>
          let? certName := annotate "certificate name: %q: %w" (NewCertificateName name) in
          let st := {| NotBefore := AsTime nb; NotAfter := AsTime na; CertName := certName; cur_Enabled := e |} in
          if (NotAfter st <? NotBefore st) || (NotAfter st =? NotBefore st) then
            Err (ErrConst "current custom domain: cert %q: NotBefore=%s is not before NotAfter=%s")
          else Ok (StateCurrent st)
      | Some (CustomDomain_Pending path expire) =>
          let st := {| Expire := AsTime expire; WellKnownPath := path |} in
          if bool_decide (path = EmptyString) then Err (ErrWrap "well_known_path: %w" (ErrConst "empty value"))
          else Ok (StatePending st)
      | None => Err (ErrConst "bad pb custom domain state %T(%[1]v)")
      end in
    Ok {| State := state; cdc_Domains := x_dom_Domains x |}.

Definition customDomainsToInternal (ds : list CustomDomain) : list CustomDomainConfig * list error :=
  convert_all "custom domains: at index %d: %w" CustomDomain_toInternal ds.

Definition CustomDomainSettings_toInternal (x : option CustomDomainSettings) : AccountCustomDomains * list error :=
  if negb (get false x_cd_Enabled x) then ({| cd_Domains := []; cd_Enabled := false |}, [])
  else
    let '(domains, errs) := customDomainsToInternal (get [] x_Domains x) in
    ({| cd_Domains := domains; cd_Enabled := get false x_cd_Enabled x |}, errs).

Definition RateLimitSettings_toInternal (h : heap) (x : option RateLimitSettings) (respSzEst : Z)
    : Ratelimiter * heap * list error :=
  match x with
  | None => (GlobalRatelimiter, h, [])
  | Some x =>
      if negb (x_rl_Enabled x) then (GlobalRatelimiter, h, [])
      else
        let '(nets, errs) := CIDRRangeToInternal (x_ClientCidr x) in
        let '(r, h) := NewDefaultRatelimiter h (fresh (dom h))
          {| rc_ClientSubnets := nets; rc_RPS := x_Rps x; rc_Enabled := x_rl_Enabled x |} respSzEst in
        (r, h, errs)
  end.

(** The devices, their identifiers, the change of the devices, and the errors. *)
Definition DNSProfile_devicesToInternal (bindSet : Addr -> bool) (x : DNSProfile) (isFullSync : bool)
    : outcome (StorageDeviceChange * list string * list Device * list error) :=
  if negb (length (x_Devices x) =? 0)%nat then
    let '(devices, ids, errs) := devicesToInternal bindSet (x_Devices x) in
    Ret ({| DeletedDeviceIDs := []; IsPartial := false |}, ids, devices, errs)
  else if negb (length (x_DeviceChanges x) =? 0)%nat then
    let! r := deviceChangesToInternal bindSet (x_DeviceChanges x) in
    let '(devices, deleted, errs) := r in
    Ret ({| DeletedDeviceIDs := deleted; IsPartial := true |}, d_ID <$> devices, devices, errs)
  else Ret ({| DeletedDeviceIDs := []; IsPartial := negb isFullSync |}, [], [], []).

Record ProfileResult := {
  pr_Profile : Profile;
  pr_DeviceChange : StorageDeviceChange;
  pr_Devices : list Device;
}.

(** The result, the number of bad devices, the errors that have been reported,
    and the heap.  The assignments of [set] are part of it. *)
Definition DNSProfile_ToInternal (bindSet : Addr -> bool) (h : heap) (x : DNSProfile) (respSzEst : Z)
    (isFullSync : bool) : outcome (result error ProfileResult * nat * list error * heap) :=
  match be_blockingModesToInternal x with
  | Err err => Ret (Err err, 0%nat, [], h)
  | Ok (bm, abm, sbbm) =>
      let! dev := DNSProfile_devicesToInternal bindSet x isFullSync in
      let '(devChg, deviceIDs, devices, devErrs) := dev in
      let numBad := length devErrs in
      match annotate "id: %w" (NewProfileID (x_DnsId x)) with
      | Err err => Ret (Err err, numBad, devErrs, h)
      | Ok id =>
          let! flt := newFilterConfig x in
          let '(fltConf, fltErrs) := flt in
          match (let? c := annotate "filter config: %w" fltConf in
                 let? accID := annotate "account id: %w" (NewAccountID (x_AccountIdInt x)) in
                 Ok (c, accID)) with
          | Err err => Ret (Err err, numBad, devErrs ++ fltErrs, h)
          | Ok (fltConf, accID) =>
              let '(customDomains, errs1) := CustomDomainSettings_toInternal (x_CustomDomain x) in
              let '(acc, errs2) := AccessSettings_toInternal (x_Access x) (x_StandardAccessSettingsEnabled x) in
              let '(rl, h, errs3) := RateLimitSettings_toInternal h (x_RateLimit x) respSzEst in
              Ret (Ok {|
                pr_Profile := {|
                  CustomDomains := customDomains;
                  DeviceIDs := list_to_set deviceIDs;
                  p_FilterConfig := fltConf;
                  p_Access := acc;
                  AdultBlockingMode := abm;
                  p_BlockingMode := bm;
                  SafeBrowsingBlockingMode := sbbm;
                  p_Ratelimiter := rl;
                  p_ID := id;
                  FilteredResponseTTL := AsDuration (x_FilteredResponseTtl x);
                  AccountID := accID;
                  AutoDevicesEnabled := x_AutoDevicesEnabled x;
                  BlockChromePrefetch := x_BlockChromePrefetch x;
                  BlockFirefoxCanary := x_BlockFirefoxCanary x;
                  BlockPrivateRelay := x_BlockPrivateRelay x;
                  Deleted := x_Deleted x;
                  p_FilteringEnabled := x_FilteringEnabled x;
                  IPLogEnabled := x_IpLogEnabled x;
                  QueryLogEnabled := x_QueryLogEnabled x;
                  QueryLogStream := x_QueryLogStream x;
                |};
                pr_DeviceChange := devChg;
                pr_Devices := devices;
              |}, numBad, devErrs ++ fltErrs ++ errs1 ++ errs2 ++ errs3, h)
          end
      end
  end.

(** ** profilestorage.go *)

(** [exceeds numBad total] is the comparison of floating-point numbers
    [float64(numBad) > float64(total)*maxInvalidRatio]. *)
Record ProfileStorage := {
  ps_bindSet : Addr -> bool;
  ps_respSzEst : Z;
  ps_maxProfSize : Z;
  ps_exceeds : Z -> Z -> bool;
}.

Definition checkBadProfilesRatio (s : ProfileStorage) (numBad numGood : Z) : option error :=
  if numBad =? 0 then None
  else
    let total := numBad + numGood in
    if ps_exceeds s numBad total then Some (ErrConst "too many invalid profiles: %d out of %d") else None.

(** The response under construction, the number of bad profiles, the errors that
    have been reported, the number of bad devices, and the heap. *)
Record recv_state := {
  rs_resp : StorageProfilesResponse;
  rs_numBad : nat;
  rs_badDevices : nat;
  rs_errs : list error;
  rs_heap : heap;
}.

Definition addProfileToResp (s : ProfileStorage) (isFullSync : bool) (st : recv_state) (p : DNSProfile)
    : outcome recv_state :=
  let! r := DNSProfile_ToInternal (ps_bindSet s) (rs_heap st) p (ps_maxProfSize s) isFullSync in
  let '(res, numBadDevice, errs, h) := r in
  Ret match res with
      | Err err =>
          {| rs_resp := rs_resp st; rs_numBad := S (rs_numBad st);
             rs_badDevices := rs_badDevices st + numBadDevice; rs_errs := rs_errs st ++ errs ++ [err]; rs_heap := h |}
      | Ok res =>
          {| rs_resp := {|
               sr_SyncTime := sr_SyncTime (rs_resp st);
               DeviceChanges := <[p_ID (pr_Profile res) := pr_DeviceChange res]> (DeviceChanges (rs_resp st));
               sr_Profiles := sr_Profiles (rs_resp st) ++ [pr_Profile res];
               sr_Devices := sr_Devices (rs_resp st) ++ pr_Devices res |};
             rs_numBad := rs_numBad st; rs_badDevices := rs_badDevices st + numBadDevice;
             rs_errs := rs_errs st ++ errs; rs_heap := h |}
      end.

(** The first instant of the Unix time. *)
Definition unixEpoch : Z := 62135596800 * second.

(** The product of the milliseconds is that of int64. *)
Definition syncTimeFromTrailer (st : list string) : result error Z :=
  match st with
  | [] => Err (ErrConst "empty value")
  | v :: _ =>
      let? ms := annotate "bad value: %w" (ParseInt v 64) in
      Ok (unixEpoch + i64 (ms * 1000000))
  end.

(** What the stream gives: the profiles, and then its end, with the values of
    the trailer, or an error. *)
Record profile_stream := { str_profiles : list DNSProfile; str_end : result error (list string) }.

Definition readProfilesFromStream (s : ProfileStorage) (h : heap) (stream : profile_stream) (isFullSync : bool)
    : outcome (result error StorageProfilesResponse * recv_state) :=
  let init := {| rs_resp := {| sr_SyncTime := 0; DeviceChanges := ∅; sr_Profiles := []; sr_Devices := [] |};
                 rs_numBad := 0; rs_badDevices := 0; rs_errs := []; rs_heap := h |} in
  let! st := for_each (addProfileToResp s isFullSync) init (str_profiles stream) in
  match str_end stream with
  | Err err => Ret (Err (ErrWrap "receiving profile #%d: %w" err), st)
  | Ok trailer =>
      match checkBadProfilesRatio s (Z.of_nat (rs_numBad st)) (Z.of_nat (length (sr_Profiles (rs_resp st)))) with
      | Some err => Ret (Err err, st)
      | None =>
          Ret (let? t := annotate "retrieving sync_time: %w" (syncTimeFromTrailer trailer) in
               Ok {| sr_SyncTime := t; DeviceChanges := DeviceChanges (rs_resp st);
                     sr_Profiles := sr_Profiles (rs_resp st); sr_Devices := sr_Devices (rs_resp st) |}, st)
      end
  end.

End profile.

(** * Facts *)

(** A time zone is loaded again by its name. *)
Class TimeZonesSpec `{TimeZones} : Prop :=
  load_location_name name loc : LoadLocation name = Ok loc -> LoadLocation (loc_String loc) = Ok loc.

Lemma convert_all_Forall {A B} format (f : A -> result error B) (P : B -> Prop) l :
  (forall a b, a ∈ l -> f a = Ok b -> P b) -> Forall P (convert_all format f l).1.
Proof.
  induction l as [|a l IH]; intros Hf; [constructor|]. cbn [convert_all].
  assert (Forall P (convert_all format f l).1) as Hl by (apply IH; intros; eapply Hf; [by right|done]).
  destruct (convert_all format f l) as [bs errs]. destruct (f a) as [b|e] eqn:E; [|done].
  constructor; [|done]. eapply Hf; [by left|done].
Qed.

(** Every value is converted or has an error. *)
Lemma convert_all_length {A B} format (f : A -> result error B) l :
  (length (convert_all format f l).1 + length (convert_all format f l).2 = length l)%nat.
Proof.
  induction l as [|a l IH]; [done|]. cbn [convert_all]. destruct (convert_all format f l) as [bs errs].
  destruct (f a); cbn in *; lia.
Qed.

Lemma CIDRRangeToInternal_ok cidrs : Forall prefix_ok (CIDRRangeToInternal cidrs).1.
Proof.
  apply convert_all_Forall. intros c p _ E. destruct (AddrFromSlice (pb_address c)) as [a|] eqn:Ea; [|done].
  injection E as <-. apply AddrFromSlice_ok in Ea as (? & ? & ?). by apply PrefixFrom_ok.
Qed.

Lemma annotate_inv {A} format (r : result error A) a : annotate format r = Ok a -> r = Ok a.
Proof. by destruct r. Qed.

Section facts.
Context `{!WellKnownTypes} `{!WellKnownTypesSpec} `{!TimeZones} `{!TimeZonesSpec} `{!FloatToUint16} `{!RingBuffer}.
Context `{!Netutil} `{!UnicodeCase}.

Notation heap := (gmap nat RequestCounter).

(** ** What a converted profile is *)

Lemma uint16_of_minutes_range ns : 0 <= uint16_of_minutes ns < 2 ^ 16.
Proof.
  unfold uint16_of_minutes. destruct ((- minute <? ns) && (ns <? 2 ^ 16 * minute)) eqn:E; [|apply Z.mod_pos_bound; lia].
  apply andb_true_iff in E as [E1%Z.ltb_lt E2%Z.ltb_lt]. assert (0 < minute) by (unfold minute; lia).
  destruct (decide (0 <= ns)).
  - split; [by apply Z.quot_pos; lia|]. apply Z.quot_lt_upper_bound; lia.
  - replace (Z.quot ns minute) with 0; [lia|].
    rewrite <- (Z.opp_involutive ns), Z.quot_opp_l by lia. rewrite Z.quot_small; lia.
Qed.

Lemma days_toInternal_ok days week :
  days_toInternal days = Ok week -> length week = length days /\ Forall (from_option interval_ok True) week.
Proof.
  revert week. induction days as [|[d|] days IH]; intros week E; cbn [days_toInternal result_bind] in E; [by injection E as <-| |].
  - destruct (Validate (Some _)) as [e|]; [done|]. destruct (days_toInternal days) as [w|]; [|done]. injection E as <-.
    destruct (IH _ eq_refl) as [Hl Hf]. split; [cbn; lia|]. constructor; [|done].
    split; apply uint16_of_minutes_range.
  - destruct (days_toInternal days) as [w|]; [|done]. injection E as <-.
    destruct (IH _ eq_refl) as [Hl Hf]. split; [cbn; lia|]. by constructor.
Qed.

Lemma ScheduleSettings_ok x s :
  ScheduleSettings_toInternal x = Ret (Ok s) -> from_option schedule_ok True s.
Proof.
  destruct x as [[tmz w]|]; cbn [ScheduleSettings_toInternal x_Tmz x_WeeklyRange]; [|by intros [= <-]].
  destruct (LoadLocation tmz) as [loc|] eqn:El; [|done]. cbn [annotate]. destruct w as [w|]; [|done].
  destruct (days_toInternal _) as [week|] eqn:Ed; [|done]. intros [= <-].
  apply days_toInternal_ok in Ed as [Hl Hf]. cbn [from_option]. split_and!; [done|done|].
  cbn [TimeZone]. by eapply load_location_name.
Qed.

Lemma newFilterConfig_ok p c errs : newFilterConfig p = Ret (Ok c, errs) -> config_ok c /\ reload_config c = c.
Proof.
  unfold newFilterConfig, ParentalSettings_toInternal. intros E.
  destruct (CategoryFilterSettings_toInternal _) as [cats e0].
  assert (forall parental, from_option schedule_ok True (cp_PauseSchedule parental) -> forall es,
    (let '(customRules, errs1) := rulesToInternal (x_CustomRules p) in
      let customEnabled := (0 <? length customRules)%nat in
      let '(customLists, errs2) := CustomRuleListsSettings_toInternal (x_CustomRuleLists p) in
      let '(lists, errs3) := RuleListsSettings_toInternal (x_RuleLists p) in
      Ret (Ok (E:=error) {|
        cfc_CustomFilter := {| ccf_Filter := if customEnabled then Some customRules else None;
                               ccf_Enabled := customEnabled |};
        cfc_CustomRuleList := customLists; cfc_Parental := parental; cfc_RuleList := lists;
        cfc_SafeBrowsing := SafeBrowsingSettings_toInternal (x_SafeBrowsing p) |}, es ++ errs1 ++ errs2 ++ errs3))
      = Ret (Ok c, errs) -> config_ok c /\ reload_config c = c) as Hgen.
  { intros parental Hs es. destruct (rulesToInternal _) as [rules e1], (CustomRuleListsSettings_toInternal _) as [cl e2],
      (RuleListsSettings_toInternal _) as [rl e3]. intros [= <- _].
    split; [split_and!; cbn|].
    - done.
    - destruct rules; [done|by eexists].
    - by destruct (x_SafeBrowsing p); eexists.
    - unfold reload_config. cbn. repeat f_equal. destruct rules as [|r rs]; done. }
  destruct (x_Parental p) as [x|].
  - destruct (blockedServicesToInternal _) as [svcs e1].
    destruct (ScheduleSettings_toInternal (x_Schedule x)) as [s|m] eqn:Es; [|done]. cbn [outcome_bind] in E.
    destruct s as [s|e]; [|done]. cbn [annotate result_bind] in E. eapply Hgen; [|exact E].
    by eapply ScheduleSettings_ok.
  - cbn [outcome_bind annotate] in E. by eapply Hgen; [|exact E].
Qed.

Lemma backend_mode_ok m m' : backend_mode m = Ok m' -> mode_ok m'.
Proof.
  destruct m as [v4 v6| | |]; cbn [backend_mode]; try (by intros [= <-]).
  unfold BlockingModeCustomIP_toInternal.
  destruct (UnmarshalBinary v4) as [a4|] eqn:E4; [|done]. cbn [annotate result_bind].
  destruct (UnmarshalBinary v6) as [a6|] eqn:E6; [|done]. cbn [annotate result_bind].
  destruct (_ =? 0)%nat; [done|]. intros [= <-]. apply UnmarshalBinary_ok in E4, E6.
  split; destruct (IsValid _); repeat constructor; done.
Qed.

Lemma modes_ok x bm abm sbbm : be_blockingModesToInternal x = Ok (bm, abm, sbbm) ->
  mode_ok bm /\ from_option mode_ok True abm /\ from_option mode_ok True sbbm.
Proof.
  unfold be_blockingModesToInternal. intros E.
  assert (forall o m, be_otherModeToInternal o = Ok m -> from_option mode_ok True m) as Hother.
  { intros [o|] m; cbn; [|by intros [= <-]]. destruct (backend_mode o) eqn:Eb; [|done]. intros [= <-].
    by eapply backend_mode_ok. }
  destruct (be_blockingModeToInternal _) as [m1|] eqn:E1; [|done]. cbn [annotate result_bind] in E.
  destruct (be_otherModeToInternal (x_AdultBlockingMode x)) as [m2|] eqn:E2; [|done]. cbn [annotate result_bind] in E.
  destruct (be_otherModeToInternal (x_SafeBrowsingBlockingMode x)) as [m3|] eqn:E3; [|done]. cbn [annotate result_bind] in E.
  injection E as <- <- <-. split_and!; [|by eapply Hother..].
  destruct (x_BlockingMode x) as [m|]; cbn in E1; [by eapply backend_mode_ok|by injection E1 as <-].
Qed.

Lemma CustomDomainSettings_ok x : Forall (fun c => state_ok (State c)) (cd_Domains (CustomDomainSettings_toInternal x).1).
Proof.
  unfold CustomDomainSettings_toInternal. destruct (negb _); [constructor|]. unfold customDomainsToInternal.
  assert (Forall (fun c => state_ok (State c))
    (convert_all "custom domains: at index %d: %w" CustomDomain_toInternal (get [] x_Domains x)).1) as Hf.
  { apply convert_all_Forall. intros a b _ E. unfold CustomDomain_toInternal in E.
    destruct (_ =? 0)%nat; [done|]. destruct (x_State a) as [[path ex|name nb na e]|]; [| |done].
    - destruct (bool_decide _); [done|]. by injection E as <-.
    - destruct (NewCertificateName name); [|done]. cbn in E. destruct (_ || _); [done|]. by injection E as <-. }
  by destruct (convert_all _ _ _).
Qed.

Lemma DeviceSettings_ok bindSet x d : DeviceSettings_ToInternal bindSet x = Ok d ->
  device_ok d /\ Forall (fun a => bindSet a = true) (DedicatedIPs d) /\ reload_device d = d.
Proof.
  destruct x as [x|]; [|done]. cbn [DeviceSettings_ToInternal]. unfold dedicatedIPsToInternal. intros E.
  destruct (UnmarshalBinary _) as [lip|] eqn:E1; [|done]. cbn [annotate result_bind] in E.
  destruct (ByteSlicesToIPs _) as [ips|] eqn:E2; [|done]. cbn [result_bind] in E.
  destruct (forallb bindSet ips) eqn:E3; [|done]. cbn [annotate result_bind] in E.
  destruct (NewDeviceID _) as [id|] eqn:E4; [|done]. cbn [annotate result_bind] in E.
  destruct (NewDeviceName _) as [name|]; [|done]. cbn [annotate result_bind] in E.
  destruct (if bool_decide _ then _ else _) as [hid|]; [|done]. cbn [annotate result_bind] in E.
  injection E as <-. cbn [d_ID DedicatedIPs]. apply UnmarshalBinary_ok in E1. apply ByteSlicesToIPs_ok in E2.
  split; [done|]. split; [|by destruct (x_Authentication x)].
  apply Forall_forall. intros a Ha. rewrite forallb_forall in E3. apply E3. by apply list_elem_of_In.
Qed.

(** A device that can be stored without a loss, with addresses of the servers. *)
Definition bound (bindSet : Addr -> bool) (d : Device) : Prop :=
  device_ok d /\ Forall (fun a => bindSet a = true) (DedicatedIPs d) /\ reload_device d = d.

Lemma deviceChanges_ok bindSet cs ds del errs :
  deviceChangesToInternal bindSet cs = Ret (ds, del, errs) -> Forall (bound bindSet) ds.
Proof.
  revert ds del errs. induction cs as [|c cs IH]; intros ds del errs E; cbn [deviceChangesToInternal] in E.
  { by injection E as <- _ _. }
  destruct (deviceChangeToInternal bindSet c) as [r|] eqn:Ec; [|done]. cbn [outcome_bind] in E.
  destruct (deviceChangesToInternal bindSet cs) as [[[ds' del'] errs']|] eqn:Ecs; [|done]. cbn [outcome_bind] in E.
  specialize (IH _ _ _ eq_refl). destruct r as [[d|id]|e].
  - injection E as <- _ _. constructor; [|done]. destruct c as [id|x|]; cbn in Ec.
    + by destruct (NewDeviceID id).
    + destruct (DeviceSettings_ToInternal bindSet x) as [d'|] eqn:Ed; [|by destruct x].
      injection Ec as <-. by eapply DeviceSettings_ok.
    + done.
  - destruct (bool_decide _); by injection E as <- _ _.
  - by injection E as <- _ _.
Qed.

Lemma devicesToInternal_ok bindSet x full chg ids ds errs :
  DNSProfile_devicesToInternal bindSet x full = Ret (chg, ids, ds, errs) ->
  ids = d_ID <$> ds /\ Forall (bound bindSet) ds.
Proof.
  unfold DNSProfile_devicesToInternal, devicesToInternal. destruct (negb (length (x_Devices x) =? 0)%nat).
  - assert (Forall (bound bindSet) (convert_all "bad settings for device with id %q: %w"
      (fun d => DeviceSettings_ToInternal bindSet (Some d)) (x_Devices x)).1) as Hf
      by (apply convert_all_Forall; intros a b _; apply DeviceSettings_ok).
    destruct (convert_all _ _ _) as [ds' errs']. by intros [= <- <- <- <-].
  - destruct (negb (length (x_DeviceChanges x) =? 0)%nat); [|by intros [= <- <- <- <-]].
    destruct (deviceChangesToInternal _ _) as [[[ds' del'] errs']|] eqn:E; [|done]. cbn [outcome_bind].
    intros [= <- <- <- <-]. split; [done|]. by eapply deviceChanges_ok.
Qed.

Lemma RateLimitSettings_ok h x est rl h' errs :
  RateLimitSettings_toInternal h x est = (rl, h', errs) ->
  Forall prefix_ok (rc_ClientSubnets (Ratelimiter_Config rl)) /\
  match rl with GlobalRatelimiter => True | DefaultRatelimiter _ _ est' _ => est' = est end.
Proof.
  destruct x as [x|]; cbn; [|by intros [= <- _ _]]. destruct (x_rl_Enabled x); cbn [negb]; [|by intros [= <- _ _]].
  pose proof (CIDRRangeToInternal_ok (x_ClientCidr x)) as Hn.
  destruct (CIDRRangeToInternal _) as [nets es]. cbn. by intros [= <- _ _].
Qed.

Lemma AccessSettings_ok x std : from_option access_ok True (AccessSettings_toInternal x std).1.
Proof.
  destruct x as [x|]; cbn; [|done]. destruct (x_acc_Enabled x); cbn [negb]; [|done].
  pose proof (CIDRRangeToInternal_ok (x_AllowlistCidr x)). pose proof (CIDRRangeToInternal_ok (x_BlocklistCidr x)).
  by destruct (CIDRRangeToInternal (x_AllowlistCidr x)), (CIDRRangeToInternal (x_BlocklistCidr x)).
Qed.

(** What is known of a converted profile. *)
Definition converted (bindSet : Addr -> bool) (est : Z) (x : DNSProfile) (res : ProfileResult) : Prop :=
  let p := pr_Profile res in
  profile_ok p /\ Forall (bound bindSet) (pr_Devices res) /\
  reload_config (p_FilterConfig p) = p_FilterConfig p /\
  DeviceIDs p = list_to_set (d_ID <$> pr_Devices res) /\
  NewProfileID (x_DnsId x) = Ok (p_ID p) /\ QueryLogStream p = x_QueryLogStream x /\
  match p_Ratelimiter p with GlobalRatelimiter => True | DefaultRatelimiter _ _ est' _ => est' = est end.

Lemma ToInternal_converted bindSet h x est full res n errs h' :
  x_AccountIdInt x < 2 ^ 31 ->
  DNSProfile_ToInternal bindSet h x est full = Ret (Ok res, n, errs, h') -> converted bindSet est x res.
Proof.
  intros Hacc. unfold DNSProfile_ToInternal. destruct (be_blockingModesToInternal x) as [[[bm abm] sbbm]|] eqn:Em; [|done].
  apply modes_ok in Em as (Hm1 & Hm2 & Hm3).
  destruct (DNSProfile_devicesToInternal bindSet x full) as [[[[chg ids] ds] derrs]|] eqn:Ed; [|done]. cbn [outcome_bind].
  apply devicesToInternal_ok in Ed as [-> Hd].
  destruct (NewProfileID (x_DnsId x)) as [id|] eqn:Eid; [|done]. cbn [annotate].
  destruct (newFilterConfig x) as [[[c|] ferrs]|] eqn:Ef; [|done..]. cbn [outcome_bind annotate result_bind].
  apply newFilterConfig_ok in Ef as [Hc1 Hc2].
  destruct (NewAccountID (x_AccountIdInt x)) as [accID|] eqn:Ea; [|done]. cbn [annotate result_bind].
  pose proof (CustomDomainSettings_ok (x_CustomDomain x)) as Hcd.
  destruct (CustomDomainSettings_toInternal (x_CustomDomain x)) as [cd errs1].
  pose proof (AccessSettings_ok (x_Access x) (x_StandardAccessSettingsEnabled x)) as Hac.
  destruct (AccessSettings_toInternal _ _) as [acc errs2].
  destruct (RateLimitSettings_toInternal h (x_RateLimit x) est) as [[rl h1] errs3] eqn:Er.
  apply RateLimitSettings_ok in Er as [Hr1 Hr2]. intros [= <- _ _ _].
  unfold converted. cbn [pr_Profile pr_Devices p_FilterConfig DeviceIDs p_ID QueryLogStream p_Ratelimiter].
  split_and!; try done. unfold profile_ok.
  cbn [p_BlockingMode AdultBlockingMode SafeBrowsingBlockingMode p_FilterConfig CustomDomains p_Access p_Ratelimiter
       AccountID FilteredResponseTTL].
  unfold NewAccountID in Ea. destruct (x_AccountIdInt x <=? 0) eqn:E0; [done|]. injection Ea as <-.
  split_and!; try done; [lia|apply as_duration_range..].
Qed.

(** ** The stream *)

Lemma add_all s full l : Forall (fun x => x_AccountIdInt x < 2 ^ 31) l -> forall st st',
  for_each (addProfileToResp s full) st l = Ret st' ->
  exists xs rs, xs `sublist_of` l /\ Forall2 (converted (ps_bindSet s) (ps_maxProfSize s)) xs rs /\
    sr_Profiles (rs_resp st') = sr_Profiles (rs_resp st) ++ (pr_Profile <$> rs) /\
    sr_Devices (rs_resp st') = sr_Devices (rs_resp st) ++ concat (pr_Devices <$> rs) /\
    (rs_numBad st' + length xs = rs_numBad st + length l)%nat.
Proof.
  induction 1 as [|x l Hx _ IH]; intros st st' E; cbn [for_each] in E.
  { injection E as <-. exists [], []. cbn. rewrite !app_nil_r. split_and!; try done; constructor. }
  destruct (addProfileToResp s full st x) as [st1|] eqn:E1; [|done]. cbn [outcome_bind] in E.
  destruct (IH _ _ E) as (xs & rs & Hsub & Hc & Hp & Hd & Hn). unfold addProfileToResp in E1.
  destruct (DNSProfile_ToInternal _ _ _ _ _) as [[[[res n] errs] h]|] eqn:Ec; [|done]. cbn [outcome_bind] in E1.
  destruct res as [r|e]; injection E1 as <-; cbn [rs_resp rs_numBad sr_Profiles sr_Devices] in Hp, Hd, Hn.
  - exists (x :: xs), (r :: rs). cbn. rewrite Hp, Hd, <- !app_assoc. split_and!; [by constructor| |done..|lia].
    constructor; [|done]. by eapply ToInternal_converted.
  - exists xs, rs. split_and!; [by constructor|done..|cbn; lia].
Qed.

Lemma response_converted s h stream full resp st :
  Forall (fun x => x_AccountIdInt x < 2 ^ 31) (str_profiles stream) ->
  readProfilesFromStream s h stream full = Ret (Ok resp, st) ->
  exists xs rs, xs `sublist_of` str_profiles stream /\
    Forall2 (converted (ps_bindSet s) (ps_maxProfSize s)) xs rs /\
    sr_Profiles resp = pr_Profile <$> rs /\ sr_Devices resp = concat (pr_Devices <$> rs) /\
    let bad := (length (str_profiles stream) - length xs)%nat in
    (bad = 0%nat \/ ps_exceeds s (Z.of_nat bad) (Z.of_nat (length (str_profiles stream))) = false).
Proof.
  intros Hacc. unfold readProfilesFromStream.
  destruct (for_each _ _ (str_profiles stream)) as [st1|] eqn:Ef; [|done]. cbn [outcome_bind].
  destruct (str_end stream) as [trailer|]; [|done].
  destruct (checkBadProfilesRatio _ _ _) as [e|] eqn:Er; [done|].
  destruct (syncTimeFromTrailer trailer) as [t|]; [|done]. cbn [annotate result_bind]. intros [= <- <-].
  destruct (add_all _ _ _ Hacc _ _ Ef) as (xs & rs & Hsub & Hc & Hp & Hd & Hn).
  cbn [rs_resp rs_numBad sr_Profiles sr_Devices app] in *. exists xs, rs. split_and!; [done..|].
  pose proof (Forall2_length _ _ _ Hc) as Hl. unfold checkBadProfilesRatio in Er. rewrite Hp, length_fmap in Er.
  destruct (Z.of_nat (rs_numBad st1) =? 0) eqn:E0; [left; lia|right].
  apply Z.eqb_neq in E0. destruct (ps_exceeds _ _ _) eqn:Ee in Er; [done|].
  rewrite <- Ee. f_equal; lia.
Qed.

(** The profile as it is after a restart: all but the flag of the streamed query
    log is as before, and the rate limiter has the same configuration. *)
Definition restarted (est : Z) (p p' : Profile) : Prop :=
  p_FilterConfig p' = p_FilterConfig p /\ p' = reload p (p_Ratelimiter p') /\
  same_limiter est (p_Ratelimiter p) (p_Ratelimiter p').

Context `{!ProtoEncoding} `{!ProtoEncodingSpec}.

Lemma converted_cache_ok bindSet est xs rs t :
  Forall2 (converted bindSet est) xs rs ->
  cache_ok {| fc_SyncTime := t; fc_Profiles := pr_Profile <$> rs; fc_Devices := concat (pr_Devices <$> rs);
              fc_Version := FileCacheVersion |} /\
  Forall (fun p => reload_config (p_FilterConfig p) = p_FilterConfig p) (pr_Profile <$> rs) /\
  Forall (fun d => reload_device d = d) (concat (pr_Devices <$> rs)).
Proof.
  intros Hc. unfold cache_ok. cbn [fc_Profiles fc_Devices fc_Version].
  induction Hc as [|x r xs rs (Hp & Hd & Hr & _) _ ((IH1 & IH2 & _) & IH3 & IH4)]; [by repeat constructor|].
  cbn. split_and!; try done; try by constructor.
  - apply Forall_app. split; [|done]. eapply Forall_impl; [exact Hd|]. by intros d (? & _ & ?).
  - apply Forall_app. split; [|done]. eapply Forall_impl; [exact Hd|]. by intros d (? & _ & ?).
Qed.

(** C19. What the backend sends survives a restart: when a response with profiles
    has been received, whose account identifiers fit into 31 bits, writing its profiles
    and devices to the cache does not panic; and if the message can be encoded, the
    devices that are then loaded are exactly those of the response, sorted, and the
    profiles are those of the response, sorted, but for the flag of the streamed query
    log, which is lost, and for the rate limiters, which are new ones with the same
    settings and the estimate of the size of responses that is given to the loading. *)
Theorem backend_survives_restart s h stream full resp st old h1 est :
  Forall (fun x => x_AccountIdInt x < 2 ^ 31) (str_profiles stream) ->
  readProfilesFromStream s h stream full = Ret (Ok resp, st) ->
  let c := {| fc_SyncTime := sr_SyncTime resp; fc_Profiles := sr_Profiles resp; fc_Devices := sr_Devices resp;
              fc_Version := FileCacheVersion |} in
  exists pb, fileCacheToProtobuf c = Ret pb /\
    forall b, proto_Marshal pb = Ok b ->
      Store c old None = Ret (Ok (len b), Some b) /\
      exists c' h2, Load h1 (Ok (Some b)) est = Ret (Ok (Some (c', h2))) /\
        fc_SyncTime c' = sr_SyncTime resp /\
        Forall2 (restarted est) (sorting.merge_sort profile_le (sr_Profiles resp)) (fc_Profiles c') /\
        fc_Devices c' = sorting.merge_sort device_le (sr_Devices resp).
Proof.
  intros Hacc E c. destruct (response_converted _ _ _ _ _ _ Hacc E) as (xs & rs & _ & Hc & Hp & Hd & _).
  destruct (converted_cache_ok _ _ _ _ (sr_SyncTime resp) Hc) as (Hok & Hr & Hrd). rewrite <- Hp, <- Hd in Hok.
  destruct (store_load_ok c old h1 est Hok) as (pb & Epb & _ & Hall). exists pb. split; [done|].
  intros b Eb. destruct (Hall b Eb) as (Es & c' & h2 & El & Ht & _ & Hf & Hds & _). split; [done|].
  exists c', h2. split_and!; [done..| |].
  - unfold c in Hf. cbn [fc_Profiles] in Hf. rewrite <- Hp in Hr.
    rewrite <- (sorting.merge_sort_Permutation profile_le) in Hr. revert Hr Hf.
    generalize (sorting.merge_sort profile_le (sr_Profiles resp)). intros ps Hr Hf.
    induction Hf as [|p p' ps ps' [Hre Hs] Hf IH]; [constructor|]. apply Forall_cons in Hr as [Hr1 Hr2].
    constructor; [|by apply IH]. split_and!; [|done..]. rewrite Hre. cbn [reload p_FilterConfig]. done.
  - rewrite Hds. unfold c. cbn [fc_Devices]. rewrite <- Hd, <- (sorting.merge_sort_Permutation device_le) in Hrd.
    clear -Hrd. induction Hrd as [|d ds Hd' _ IH]; [done|]. rewrite fmap_cons. by rewrite Hd', IH.
Qed.

(** C20. What the backend sends is well formed once it is read: the profiles of a
    response come, in their order, from the messages that could be converted,
    of which there are not too few; the address ranges, sizes, identifiers and
    modes of each profile are in range, its devices are exactly those that it
    names, and every dedicated address of a device is one that the servers
    listen on. *)
Theorem response_well_formed s h stream full resp st :
  Forall (fun x => x_AccountIdInt x < 2 ^ 31) (str_profiles stream) ->
  readProfilesFromStream s h stream full = Ret (Ok resp, st) ->
  exists xs rs, xs `sublist_of` str_profiles stream /\
    Forall2 (converted (ps_bindSet s) (ps_maxProfSize s)) xs rs /\
    sr_Profiles resp = pr_Profile <$> rs /\ sr_Devices resp = concat (pr_Devices <$> rs) /\
    let bad := (length (str_profiles stream) - length xs)%nat in
    (bad = 0%nat \/ ps_exceeds s (Z.of_nat bad) (Z.of_nat (length (str_profiles stream))) = false).
Proof. apply response_converted. Qed.

(** The rate limiter of a profile counts large responses by the wrong
    estimate: every limiter of a response has the maximum size of the profiles'
    message as its estimate of the size of a DNS response. *)
Theorem limiter_estimate_is_message_limit s h stream full resp st ptr nets est rps p :
  Forall (fun x => x_AccountIdInt x < 2 ^ 31) (str_profiles stream) ->
  readProfilesFromStream s h stream full = Ret (Ok resp, st) ->
  p ∈ sr_Profiles resp -> p_Ratelimiter p = DefaultRatelimiter ptr nets est rps -> est = ps_maxProfSize s.
Proof.
  intros Hacc E Hp Er. destruct (response_converted _ _ _ _ _ _ Hacc E) as (xs & rs & _ & Hc & Hps & _).
  rewrite Hps in Hp. apply list_elem_of_fmap in Hp as (r & -> & Hr). destruct (proj1 (list_elem_of_lookup _ _) Hr) as [i Hi].
  destruct (Forall2_lookup_r _ _ _ _ _ Hc Hi) as (x & _ & _ & _ & _ & _ & _ & _ & Hest).
  by rewrite Er in Hest.
Qed.
End facts.

(** ** Examples *)

#[local] Existing Instance ref_types.
#[local] Existing Instance ref_types_spec.
#[local] Existing Instance ref_zones.
#[local] Existing Instance ref_ring.
#[local] Existing Instance ref_netutil.
#[local] Existing Instance ref_unicode.
#[local] Instance ref_floats : FloatToUint16 := fun _ => 0.
#[local] Instance ref_zones_spec : TimeZonesSpec.
Proof. intros name loc E. injection E as <-. reflexivity. Qed.

Definition some_dns_device : DeviceSettings := {|
  x_Authentication := Some {| pb_doh_auth_only := true; pb_password_hash_bcrypt := Some "hash"%string |};
  x_Id := "dev1"; x_Name := "My device"; x_HumanIdLower := EmptyString; x_LinkedIp := be_bytes 4 1;
  x_DedicatedIps := [be_bytes 16 7]; x_dev_FilteringEnabled := true |}.

Definition some_dns_profile (week : option WeeklyRange) : DNSProfile := {|
  x_SafeBrowsing := None;
  x_Parental := Some {| x_par_Enabled := true; x_BlockAdult := true; x_GeneralSafeSearch := false; x_YoutubeSafeSearch := false;
                        x_BlockedServices := ["svc1"; ""]; x_Schedule := Some {| x_Tmz := "UTC"; x_WeeklyRange := week |} |};
  x_RuleLists := Some {| x_Ids := ["list1"]; x_ids_Enabled := true |};
  x_CustomRuleLists := None; x_FilteredResponseTtl := Some (10 * second : @Duration ref_types); x_Access := None;
  x_RateLimit := Some {| x_rl_Enabled := true; x_Rps := 10; x_ClientCidr := [{| pb_address := be_bytes 4 1; pb_prefix := 24 |}] |};
  x_CustomDomain := None; x_CategoryFilter := None;
  x_BlockingMode := Some (DNSProfile_BlockingModeCustomIp (be_bytes 4 1) EmptyString);
  x_AdultBlockingMode := None; x_SafeBrowsingBlockingMode := Some DNSProfile_BlockingModeRefused;
  x_DnsId := "prof1"; x_Devices := [some_dns_device]; x_DeviceChanges := []; x_CustomRules := ["||ads.example^"];
  x_AccountIdInt := 1; x_AutoDevicesEnabled := true; x_BlockChromePrefetch := true; x_BlockFirefoxCanary := true;
  x_BlockPrivateRelay := true; x_Deleted := false; x_FilteringEnabled := true; x_IpLogEnabled := true;
  x_QueryLogEnabled := true; x_QueryLogStream := true; x_StandardAccessSettingsEnabled := false |}.

Definition some_week : WeeklyRange :=
  let d : option DayRange :=
    Some {| x_Start := Some (60 * minute : @Duration ref_types); x_End := Some (119 * minute : @Duration ref_types) |} in
  {| x_Mon := d; x_Tue := d; x_Wed := d; x_Thu := d; x_Fri := d; x_Sat := None; x_Sun := None |}.

Definition some_storage : ProfileStorage := {|
  ps_bindSet _ := true; ps_respSzEst := 1000; ps_maxProfSize := 8000000; ps_exceeds bad total := total <? 2 * bad |}.

Definition some_stream : profile_stream := {|
  str_profiles := [some_dns_profile (Some some_week)]; str_end := Ok ["1700000000000"%string] |}.

Definition received : outcome (result error StorageProfilesResponse * recv_state) :=
  readProfilesFromStream some_storage ∅ some_stream true.

Lemma response_well_formed_witness :
  exists resp st xs rs, received = Ret (Ok resp, st) /\ Forall2 (converted (fun _ => true) 8000000) xs rs /\
    sr_Profiles resp = pr_Profile <$> rs /\ length rs = 1%nat.
Proof.
  destruct received as [[[resp|] st]|] eqn:E; [|vm_compute in E; discriminate E..].
  destruct (response_well_formed some_storage ∅ some_stream true resp st) as (xs & rs & _ & Hc & Hp & _).
  { constructor; [vm_compute; reflexivity|constructor]. }
  { exact E. }
  exists resp, st, xs, rs. split; [reflexivity|]. split; [exact Hc|]. split; [exact Hp|].
  apply (f_equal length) in Hp. rewrite length_fmap in Hp. rewrite <- Hp. vm_compute in E. injection E as <- _. reflexivity.
Defined.

Lemma limiter_estimate_is_message_limit_witness :
  exists resp st p ptr nets rps, received = Ret (Ok resp, st) /\ p ∈ sr_Profiles resp /\
    p_Ratelimiter p = DefaultRatelimiter ptr nets 8000000 rps /\ 8000000 = ps_maxProfSize some_storage /\
    8000000 <> ps_respSzEst some_storage.
Proof.
  destruct received as [[[resp|] st]|] eqn:E; [|vm_compute in E; discriminate E..].
  assert (exists p ptr nets rps, p ∈ sr_Profiles resp /\ p_Ratelimiter p = DefaultRatelimiter ptr nets 8000000 rps)
    as (p & ptr & nets & rps & Hp & Er).
  { vm_compute in E. injection E as <- _. do 4 eexists. split; [left|reflexivity]. }
  exists resp, st, p, ptr, nets, rps. split; [reflexivity|]. split; [exact Hp|]. split; [exact Er|].
  split; [|vm_compute; discriminate].
  refine (limiter_estimate_is_message_limit some_storage ∅ some_stream true resp st ptr nets 8000000 rps p _ E Hp Er).
  constructor; [vm_compute; reflexivity|constructor].
Defined.

Definition received_cache : FileCache :=
  match received with
  | Ret (Ok resp, _) => {| fc_SyncTime := sr_SyncTime resp; fc_Profiles := sr_Profiles resp;
                           fc_Devices := sr_Devices resp; fc_Version := FileCacheVersion |}
  | _ => some_cache
  end.

#[local] Instance ref_backend_encoding : ProtoEncoding := message_encoding (fileCacheToProtobuf received_cache).
#[local] Instance ref_backend_encoding_spec : ProtoEncodingSpec := message_encoding_spec _.

Lemma backend_survives_restart_witness :
  exists resp st pb, received = Ret (Ok resp, st) /\ length (sr_Profiles resp) = 1%nat /\
    fileCacheToProtobuf received_cache = Ret pb /\ proto_Marshal pb = Ok "cache" /\
    Store received_cache None None = Ret (Ok 5, Some "cache"%string) /\
    exists c' h2, Load ∅ (Ok (Some "cache"%string)) 1000 = Ret (Ok (Some (c', h2))) /\
      Forall2 (restarted 1000) (sorting.merge_sort profile_le (sr_Profiles resp)) (fc_Profiles c').
Proof.
  destruct received as [[[resp|] st]|] eqn:E; [|vm_compute in E; discriminate E..].
  assert (received_cache = {| fc_SyncTime := sr_SyncTime resp; fc_Profiles := sr_Profiles resp;
    fc_Devices := sr_Devices resp; fc_Version := FileCacheVersion |}) as Ec by (unfold received_cache; rewrite E; reflexivity).
  destruct (backend_survives_restart some_storage ∅ some_stream true resp st None ∅ 1000) as (pb & Epb & Hall).
  { constructor; [vm_compute; reflexivity|constructor]. }
  { exact E. }
  rewrite <- Ec in Epb, Hall. pose proof (message_encoded _ _ Epb) as Em.
  exists resp, st, pb. split; [reflexivity|]. split; [vm_compute in E; injection E as <- _; reflexivity|].
  split; [exact Epb|]. split; [exact Em|].
  destruct (Hall _ Em) as (Hs & c' & h2 & El & _ & Hf & _). split; [exact Hs|].
  exists c', h2. split; [exact El|]. exact Hf.
Defined.

(** A schedule without a weekly range panics: the range is used without a check. *)
Theorem schedule_without_week_panics :
  exists m, readProfilesFromStream some_storage ∅
    {| str_profiles := [some_dns_profile None]; str_end := Ok [] |} true = Panic m.
Proof. eexists. vm_compute. reflexivity. Qed.
