(* ===== verification/TLSManager.v ===== *)
(** TLS certificates of internal/tlsconfig: the sorted map (sortedmap.go), the
    certificate index (certindex.go) and the manager (defaultmanager.go).

    Reading certificates from files and the check of a certificate against a
    Client Hello message are arguments; session tickets, clones of the TLS
    configuration, logs and metrics are left out. *)

From S2P Require Import Prelude GoStd Slices NetIP.

Open Scope Z_scope.

(** ** sortedmap.go *)

Record sortedMap (K V : Type) `{Countable K} := { vals : gmap K V; keys : list K }.
Arguments vals {K V _ _} _.
Arguments keys {K V _ _} _.

Section sorted_map.
Context {K V : Type} `{Countable K} `{Ordered K}.
Implicit Types (m : sortedMap K V).

Definition newSortedMap : sortedMap K V := {| vals := ∅; keys := [] |}.

Definition sm_set m (key : K) (val : V) : sortedMap K V :=
  let '(i, has) := BinarySearchFunc cmp (keys m) key in
  {| vals := <[key := val]> (vals m);
     keys := if has then <[i := key]> (keys m) else slice_insert (keys m) i key |}.

Definition sm_get m (key : K) : option V := vals m !! key.

Definition sm_del m (key : K) : sortedMap K V :=
  match vals m !! key with
  | None => m
  | Some _ =>
      let '(i, _) := BinarySearchFunc cmp (keys m) key in
      {| vals := delete key (vals m); keys := slice_delete (keys m) i |}
  end.

Definition sm_clear m : sortedMap K V := {| vals := ∅; keys := [] |}.

(** [f] updates a state and says whether to continue; [zero] is the value of a
    missing key. *)
Fixpoint range_keys {S} (zero : V) m (f : S -> K -> V -> S * bool) (s : S) (ks : list K) : S :=
  match ks with
  | [] => s
  | k :: ks =>
      let '(s, cont) := f s k (default zero (vals m !! k)) in
      if cont then range_keys zero m f s ks else s
  end.

Definition sm_rangeFn {S} (zero : V) m (f : S -> K -> V -> S * bool) (s : S) : S :=
  range_keys zero m f s (keys m).

Definition sm_len m : nat := size (vals m).

End sorted_map.

(** ** certindex.go *)

Record certData (T : Type) := {
  cert : T;
  certPath : string;
  keyPath : string;
  isCustom : bool;
}.
Arguments cert {T} _.
Arguments certPath {T} _.
Arguments keyPath {T} _.
Arguments isCustom {T} _.

Record bindData := { pref : Prefix; bd_name : string }.

#[export] Instance bindData_eq_dec : EqDecision bindData.
Proof. solve_decision. Defined.

Section cert_index.
(** [T] is the type of certificates. *)
Context {T : Type}.

Record certIndex := {
  certs : sortedMap string (certData T);
  bound : list bindData;
}.

Definition newCertIndex : certIndex := {| certs := newSortedMap; bound := [] |}.

Definition ci_add (s : certIndex) (name : string) (cd : certData T) : certIndex :=
  {| certs := sm_set (certs s) name cd; bound := bound s |}.

Definition ci_bind (s : certIndex) (name : string) (p : Prefix) : bool * certIndex :=
  if existsb (fun b => bool_decide (bd_name b = name) && bool_decide (pref b = p)) (bound s)
  then (false, s)
  else (true, {| certs := certs s; bound := bound s ++ [{| pref := p; bd_name := name |}] |}).

Definition ci_contains (s : certIndex) (name : string) : bool :=
  match sm_get (certs s) name with Some _ => true | None => false end.

Definition ci_count (s : certIndex) : nat := sm_len (certs s).

(** The loop over the bindings; [supports] is [chi.SupportsCertificate]. *)
Fixpoint cert_loop (s : certIndex) (supports : T -> option error) (ip : Addr)
    (bs : list bindData) (errs : list error) : outcome (result error T) :=
  match bs with
  | [] =>
      Ret (Err match errs with
               | [] => ErrConst "no certificate found for %s"
               | _ => ErrJoin errs
               end)
  | b :: bs =>
      if negb (prefix_contains (pref b) ip) then cert_loop s supports ip bs errs
      else match sm_get (certs s) (bd_name b) with
      | None => Panic "certificate %q: no value"
      | Some cd =>
          match supports (cert cd) with
          | None => Ret (Ok (cert cd))
          | Some err => cert_loop s supports ip bs (errs ++ [err])
          end
      end
  end.

Definition certFor (s : certIndex) (supports : T -> option error) (ip : Addr)
    : outcome (result error T) :=
  if bool_decide (ip = AddrZero) then Ret (Err (ErrConst "no local address"))
  else cert_loop s supports ip (bound s) [].

Definition ci_remove (s : certIndex) (name : string) : certIndex :=
  {| certs := sm_del (certs s) name;
     bound := filter (fun b => bd_name b <> name) (bound s) |}.

(** The certificate data are changed in place. *)
Definition ci_update (s : certIndex) (name : string) (c : T) : bool * certIndex :=
  match sm_get (certs s) name with
  | None => (false, s)
  | Some cd =>
      (true, {| certs := {| vals := <[name := {| cert := c; certPath := certPath cd;
                                                 keyPath := keyPath cd; isCustom := isCustom cd |}]>
                                      (vals (certs s));
                            keys := keys (certs s) |};
                bound := bound s |})
  end.

Definition ci_stored (s : certIndex) : list T :=
  omap (fun k => cert <$> vals (certs s) !! k) (keys (certs s)).

(** ** defaultmanager.go *)

Record AddParams := {
  ap_Name : string;
  ap_CertPath : string;
  ap_KeyPath : string;
  ap_IsCustom : bool;
}.

(** [tls.LoadX509KeyPair] of the two paths. *)
Context (LoadX509KeyPair : string -> string -> result error T).

Definition load (p : AddParams) : result error T :=
  annotate "loading certificate: %w" (LoadX509KeyPair (ap_CertPath p) (ap_KeyPath p)).

Definition manager_Add (s : certIndex) (p : AddParams) : option error * certIndex :=
  if ci_contains s (ap_Name p) then (None, s)
  else match load p with
  | Err err => (Some (ErrWrap "adding certificate: %w" err), s)
  | Ok c =>
      (None, ci_add s (ap_Name p)
        {| cert := c; certPath := ap_CertPath p; keyPath := ap_KeyPath p; isCustom := ap_IsCustom p |})
  end.

Definition manager_Bind (s : certIndex) (name : string) (p : Prefix) : certIndex := (ci_bind s name p).2.

Definition manager_Remove (s : certIndex) (name : string) : certIndex := ci_remove s name.

Definition getCertificate (s : certIndex) (supports : T -> option error) (ip : Addr)
    : outcome (result error T) :=
  if (ci_count s =? 0)%nat then Ret (Err (ErrConst "no certificates"))
  else certFor s supports ip.

(** The body of the loop of [Refresh]; the data are those of the index when the
    loop visits them. *)
Definition refresh_step (st : certIndex * list error) (name : string) : certIndex * list error :=
  let '(s, errs) := st in
  match sm_get (certs s) name with
  | None => st
  | Some cd =>
      match load {| ap_Name := name; ap_CertPath := certPath cd; ap_KeyPath := keyPath cd;
                    ap_IsCustom := isCustom cd |} with
      | Err err => (s, errs ++ [err])
      | Ok c => ((ci_update s name c).2, errs)
      end
  end.

Definition manager_Refresh (s : certIndex) : option error * certIndex :=
  let '(s', errs) := foldl refresh_step (s, []) (keys (certs s)) in
  (ErrWrap "refreshing tls certificates: %w" <$> Join errs, s').

End cert_index.
Arguments certIndex : clear implicits.

(** ** Facts about sorted maps *)

Section sorted_facts.
Context {K V : Type} `{Countable K} `{!Ordered K} `{!OrderedSpec K}.
Implicit Types (m : sortedMap K V).

(** *** The invariant of the sorted map *)

Record sm_ok m : Prop := {
  sm_sorted : StronglySorted lt_key (keys m);
  sm_keys k : k ∈ keys m <-> is_Some (vals m !! k);
}.

Lemma sm_set_ok m k v : sm_ok m ->
  sm_ok (sm_set m k v) /\ vals (sm_set m k v) = <[k := v]> (vals m).
Proof.
  intros [Hs Hk]. unfold sm_set.
  destruct (BinarySearchFunc_spec (keys m) k Hs) as (i & has & -> & Hsp & Hi & Hhas).
  split; [|done]. destruct has; split; simpl.
  - rewrite list_insert_id; [done|by apply Hi].
  - intros k'. rewrite list_insert_id by by apply Hi. rewrite Hk, lookup_insert_is_Some.
    assert (is_Some (vals m !! k)) by (apply Hk, Hhas; done).
    destruct (decide (k = k')) as [<-|]; naive_solver.
  - apply slice_insert_sorted; [done..|]. rewrite <- Hhas. done.
  - intros k'. unfold slice_insert. rewrite lookup_insert_is_Some, elem_of_app, elem_of_cons.
    specialize (Hk k'). rewrite <- (take_drop i (keys m)), elem_of_app in Hk. destruct (decide (k = k')) as [<-|]; [naive_solver|].
    rewrite <- Hk. naive_solver.
Qed.

Lemma sm_del_ok m k : sm_ok m ->
  sm_ok (sm_del m k) /\ vals (sm_del m k) = delete k (vals m).
Proof.
  intros [Hs Hk]. unfold sm_del. destruct (vals m !! k) as [v|] eqn:Ev.
  2:{ split; [done|]. by rewrite delete_id. }
  destruct (BinarySearchFunc_spec (keys m) k Hs) as (i & has & -> & Hsp & Hi & Hhas).
  assert (keys m !! i = Some k) as Eik by (apply Hi, Hhas, Hk; eauto).
  assert (keys m = take i (keys m) ++ k :: drop (S i) (keys m)) as Ekeys
    by (by rewrite take_drop_middle).
  rewrite Ekeys in Hs. apply StronglySorted_app in Hs as (Hc & H1 & [Hck H2]%StronglySorted_cons).
  split; [|done]. unfold slice_delete. split; simpl.
  - apply StronglySorted_app. split_and!; [|done|done]. intros a b Ha Hb. apply Hc; [done|by constructor].
  - intros k'. rewrite lookup_delete_is_Some, <- Hk. rewrite Ekeys at 3.
    rewrite !elem_of_app, elem_of_cons. rewrite Forall_forall in Hck.
    assert (forall a, a ∈ take i (keys m) -> k <> a) as Hne1.
    { intros a Ha <-. apply (lt_key_irrefl k), Hc; [done|by constructor]. }
    assert (forall a, a ∈ drop (S i) (keys m) -> k <> a) as Hne2.
    { intros a Ha <-. by apply (lt_key_irrefl k), Hck. }
    naive_solver.
Qed.

(** What iterating over the map gives. *)
Definition entries m : list (K * V) := omap (fun k => pair k <$> vals m !! k) (keys m).

Lemma entries_fst m : sm_ok m -> (entries m).*1 = keys m.
Proof.
  intros [_ Hk]. unfold entries.
  assert (forall k, k ∈ keys m -> is_Some (vals m !! k)) as Hall by (intros; by apply Hk).
  revert Hall. generalize (keys m). intros ks Hall. induction ks as [|k ks IH]; [done|].
  simpl. destruct (Hall k) as [v ->]; [constructor|]. simpl. f_equal. apply IH.
  intros k' Hk'. apply Hall. by constructor.
Qed.

Lemma elem_of_entries m k v : sm_ok m -> (k, v) ∈ entries m <-> vals m !! k = Some v.
Proof.
  intros [_ Hk]. unfold entries. rewrite list_elem_of_omap. split.
  - intros (k' & _ & E). destruct (vals m !! k') eqn:E'; by simplify_eq/=.
  - intros E. exists k. rewrite E. split; [|done]. apply Hk. eauto.
Qed.

Lemma range_entries {S} zero m (f : S -> K -> V -> S) s : sm_ok m ->
  sm_rangeFn zero m (fun s k v => (f s k v, true)) s =
  foldl (fun s kv => f s kv.1 kv.2) s (entries m).
Proof.
  intros [_ Hk]. unfold sm_rangeFn, entries.
  assert (forall k, k ∈ keys m -> is_Some (vals m !! k)) as Hall by (intros; by apply Hk).
  revert s Hall. generalize (keys m). intros ks. induction ks as [|k ks IH]; intros s Hall; [done|].
  simpl. destruct (Hall k) as [v ->]; [constructor|]. simpl. apply IH.
  intros k' Hk'. apply Hall. by constructor.
Qed.

Lemma NoDup_sorted_lt x : StronglySorted lt_key x -> NoDup x.
Proof.
  induction 1 as [|k x Hs IH Hk]; [constructor|]. constructor; [|done].
  intros Hin. rewrite Forall_forall in Hk. by apply (lt_key_irrefl k), Hk.
Qed.

(** *** Refinement to a finite map *)

Inductive sm_op :=
  | OpSet (k : K) (v : V)
  | OpDel (k : K)
  | OpClear.

Definition sm_apply m (o : sm_op) : sortedMap K V :=
  match o with
  | OpSet k v => sm_set m k v
  | OpDel k => sm_del m k
  | OpClear => sm_clear m
  end.

Definition map_apply (a : gmap K V) (o : sm_op) : gmap K V :=
  match o with
  | OpSet k v => <[k := v]> a
  | OpDel k => delete k a
  | OpClear => ∅
  end.

Lemma sm_apply_all ops m : sm_ok m ->
  sm_ok (foldl sm_apply m ops) /\ vals (foldl sm_apply m ops) = foldl map_apply (vals m) ops.
Proof.
  revert m. induction ops as [|o ops IH]; intros m Hm; [done|]. simpl.
  assert (sm_ok (sm_apply m o) /\ vals (sm_apply m o) = map_apply (vals m) o) as [Ho Ev].
  { destruct o as [k v|k|]; simpl; [by apply sm_set_ok|by apply sm_del_ok|].
    split; [|done]. split; [constructor|]. intros k. simpl. rewrite lookup_empty, is_Some_alt.
    by rewrite elem_of_nil. }
  rewrite <- Ev. by apply IH.
Qed.

Lemma sm_ok_new : sm_ok (newSortedMap (K := K) (V := V)).
Proof.
  split; [constructor|]. intros k. simpl. rewrite lookup_empty, is_Some_alt. by rewrite elem_of_nil.
Qed.

(** The sorted map is a finite map with an ordered iteration: after any
    sequence of sets, deletions and clears it has exactly the bindings of a plain
    map after the same operations, its length is their number, and iterating
    visits each binding once, in increasing order of the keys. *)
Theorem sortedMap_refines ops :
  let m := foldl sm_apply (newSortedMap (K := K) (V := V)) ops in
  let a := foldl map_apply ∅ ops in
  (forall k, sm_get m k = a !! k) /\ sm_len m = size a /\
  (forall zero, sm_rangeFn zero m (fun s k v => (s ++ [(k, v)], true)) [] = entries m) /\
  StronglySorted lt_key (entries m).*1 /\ entries m ≡ₚ map_to_list a.
Proof.
  intros m a. destruct (sm_apply_all ops newSortedMap sm_ok_new) as [Hok Ev].
  fold m in Hok, Ev. change (vals newSortedMap) with (∅ : gmap K V) in Ev. fold a in Ev. split_and!.
  - intros k. unfold sm_get. by rewrite Ev.
  - unfold sm_len. by rewrite Ev.
  - intros zero. rewrite (range_entries zero m (fun s k v => s ++ [(k, v)])) by done.
    assert (forall s, foldl (fun s kv => s ++ [(kv.1, kv.2)]) s (entries m) = s ++ entries m) as Hf.
    { generalize (entries m). intros l. induction l as [|[k v] l IH]; intros s; simpl.
      - by rewrite app_nil_r.
      - by rewrite IH, <- app_assoc. }
    apply Hf.
  - rewrite entries_fst by done. apply Hok.
  - apply NoDup_Permutation.
    + apply (NoDup_fmap_1 fst). rewrite entries_fst by done. eapply NoDup_sorted_lt; apply Hok.
    + apply NoDup_map_to_list.
    + intros [k v]. by rewrite elem_of_entries, elem_of_map_to_list, Ev.
Qed.

End sorted_facts.

Definition some_ops : list (sm_op (K := string) (V := Z)) :=
  [OpSet "b"%string 1; OpSet "a"%string 2; OpSet "b"%string 3; OpSet "c"%string 4; OpDel "c"%string].

Lemma sortedMap_refines_witness :
  let m := foldl sm_apply newSortedMap some_ops in
  entries m = [("a"%string, 2); ("b"%string, 3)] /\
  (forall k, sm_get m k = foldl map_apply (∅ : gmap string Z) some_ops !! k).
Proof. intros m. split; [reflexivity|]. apply (sortedMap_refines some_ops). Defined.

(** ** The manager *)

Section manager_facts.
Context {T : Type}.

(** Only certificates that are present are bound. *)
Record ci_ok (s : certIndex T) : Prop := {
  ci_sorted : sm_ok (certs s);
  ci_bound b : b ∈ bound s -> is_Some (vals (certs s) !! bd_name b);
}.

(** Calls of the manager; those that read files have what the files hold then. *)
Inductive manager_op :=
  | MAdd (files : string -> string -> result error T) (p : AddParams)
  | MBind (name : string) (p : Prefix)
  | MRemove (name : string)
  | MRefresh (files : string -> string -> result error T).

Definition manager_exec (s : certIndex T) (o : manager_op) : certIndex T :=
  match o with
  | MAdd files p => (manager_Add files s p).2
  | MBind name p => manager_Bind s name p
  | MRemove name => manager_Remove s name
  | MRefresh files => (manager_Refresh files s).2
  end.

(** [MBind] is used for certificates that are present. *)
Definition bind_present (s : certIndex T) (o : manager_op) : Prop :=
  match o with MBind name _ => ci_contains s name = true | _ => True end.

Lemma ci_contains_true (s : certIndex T) name :
  ci_contains s name = true <-> is_Some (vals (certs s) !! name).
Proof. unfold ci_contains, sm_get. destruct (vals (certs s) !! name); rewrite ?is_Some_alt; naive_solver. Qed.

Lemma ci_ok_add s name cd : ci_ok s -> ci_ok (ci_add s name cd).
Proof.
  intros [Hs Hb]. destruct (sm_set_ok (certs s) name cd Hs) as [Hs' Ev].
  split; [done|]. intros b Hin. change (certs (ci_add s name cd)) with (sm_set (certs s) name cd).
  rewrite Ev, lookup_insert_is_Some. destruct (decide (name = bd_name b)); eauto.
Qed.

Lemma ci_ok_bind s name p : ci_ok s -> ci_contains s name = true -> ci_ok (ci_bind s name p).2.
Proof.
  intros [Hs Hb] Hc. unfold ci_bind. case_if; [done|]. split; simpl; [done|].
  intros b [Hin|Hin]%elem_of_app; [by apply Hb|].
  apply list_elem_of_singleton in Hin as ->. by apply ci_contains_true.
Qed.

Lemma ci_ok_remove s name : ci_ok s -> ci_ok (ci_remove s name).
Proof.
  intros [Hs Hb]. destruct (sm_del_ok (certs s) name Hs) as [Hs' Ev].
  split; [done|]. intros b [Hne Hin]%list_elem_of_filter.
  change (certs (ci_remove s name)) with (sm_del (certs s) name). rewrite Ev, lookup_delete_is_Some. eauto.
Qed.

Lemma ci_ok_update s name c : ci_ok s -> ci_ok (ci_update s name c).2.
Proof.
  intros [[Hsort Hk] Hb]. unfold ci_update, sm_get.
  destruct (vals (certs s) !! name) as [cd|] eqn:E; [|done].
  assert (forall k, is_Some (vals (certs s) !! k) ->
    is_Some (<[name := {| cert := c; certPath := certPath cd; keyPath := keyPath cd;
                          isCustom := isCustom cd |}]> (vals (certs s)) !! k)) as Hmono.
  { intros k Hsome. rewrite lookup_insert_is_Some. destruct (decide (name = k)); eauto. }
  split; simpl; [|by eauto]. split; simpl; [done|]. intros k. rewrite Hk. split; [apply Hmono|].
  rewrite lookup_insert_is_Some. intros [<-|[_ ?]]; eauto.
Qed.

Lemma manager_exec_ok s o : ci_ok s -> bind_present s o -> ci_ok (manager_exec s o).
Proof.
  intros Hok Hb. destruct o as [files p|name p|name|files]; simpl.
  - unfold manager_Add. case_if; [done|]. destruct (load _ p); [by apply ci_ok_add|done].
  - by apply ci_ok_bind.
  - by apply ci_ok_remove.
  - unfold manager_Refresh.
    assert (ci_ok (foldl (refresh_step files) (s, []) (keys (certs s))).1) as Hf.
    { apply (foldl_inv _ (fun st => ci_ok st.1)); [done|]. intros [s' errs] k _ Hs'. unfold refresh_step.
      destruct (sm_get (certs s') k); [|done]. destruct (load _ _); [by apply ci_ok_update|done]. }
    by destruct (foldl _ (s, []) _).
Qed.

Lemma cert_loop_spec (s : certIndex T) supports ip bs errs :
  (forall b, b ∈ bs -> is_Some (vals (certs s) !! bd_name b)) ->
  (exists err, cert_loop s supports ip bs errs = Ret (Err err) /\
     forall b cd, b ∈ bs -> prefix_contains (pref b) ip = true ->
       vals (certs s) !! bd_name b = Some cd -> supports (cert cd) <> None) \/
  (exists bs1 b bs2 cd, bs = bs1 ++ b :: bs2 /\ cert_loop s supports ip bs errs = Ret (Ok (cert cd)) /\
     prefix_contains (pref b) ip = true /\ vals (certs s) !! bd_name b = Some cd /\
     supports (cert cd) = None /\
     forall b' cd', b' ∈ bs1 -> prefix_contains (pref b') ip = true ->
       vals (certs s) !! bd_name b' = Some cd' -> supports (cert cd') <> None).
Proof.
  revert errs. induction bs as [|b bs IH]; intros errs Hb; simpl.
  { left. eexists. split; [done|]. intros b cd Hin. by apply elem_of_nil in Hin. }
  assert (forall b, b ∈ bs -> is_Some (vals (certs s) !! bd_name b)) as Hb'.
  { intros b' Hin. apply Hb. by constructor. }
  destruct (prefix_contains (pref b) ip) eqn:Ep; simpl.
  2:{ destruct (IH errs Hb') as [(err & E & Hall)|(bs1 & b1 & bs2 & cd & -> & E & Hp & Hc & Hs & Hall)].
      - left. exists err. split; [done|]. intros b' cd [->|Hin]%elem_of_cons; [congruence|by apply Hall].
      - right. exists (b :: bs1), b1, bs2, cd. split_and!; try done.
        intros b' cd' [->|Hin]%elem_of_cons; [congruence|by apply Hall]. }
  destruct (Hb b) as [cd Hcd]; [constructor|]. unfold sm_get. rewrite Hcd.
  destruct (supports (cert cd)) as [err|] eqn:Es.
  - destruct (IH (errs ++ [err]) Hb') as [(err' & E & Hall)|(bs1 & b1 & bs2 & cd' & -> & E & Hp & Hc & Hs & Hall)].
    + left. exists err'. split; [done|]. intros b' cd' [->|Hin]%elem_of_cons; [congruence|by apply Hall].
    + right. exists (b :: bs1), b1, bs2, cd'. split_and!; try done.
      intros b' cd'' [->|Hin]%elem_of_cons; [congruence|by apply Hall].
  - right. exists [], b, bs, cd. split_and!; try done. intros b' cd' Hin. by apply elem_of_nil in Hin.
Qed.

Lemma ci_ok_new : ci_ok newCertIndex.
Proof. split; [apply sm_ok_new|]. intros b Hin. by apply elem_of_nil in Hin. Qed.

(** *** What the manager holds

    The specification: the certificates that are present, by name, and the bindings
    in the order of the calls that made them. *)

Definition held : Type := gmap string (certData T) * list bindData.

(** The certificate after its files have been read again. *)
Definition reloaded (files : string -> string -> result error T) (cd : certData T) : certData T :=
  match files (certPath cd) (keyPath cd) with
  | Ok c => {| cert := c; certPath := certPath cd; keyPath := keyPath cd; isCustom := isCustom cd |}
  | Err _ => cd
  end.

Definition held_exec (h : held) (o : manager_op) : held :=
  match o with
  | MAdd files p =>
      match h.1 !! ap_Name p, files (ap_CertPath p) (ap_KeyPath p) with
      | None, Ok c =>
          (<[ap_Name p := {| cert := c; certPath := ap_CertPath p; keyPath := ap_KeyPath p; isCustom := ap_IsCustom p |}]> h.1,
           h.2)
      | _, _ => h
      end
  | MBind name p =>
      let b := {| pref := p; bd_name := name |} in
      if bool_decide (b ∈ h.2) then h else (h.1, h.2 ++ [b])
  | MRemove name => (delete name h.1, filter (fun b => bd_name b <> name) h.2)
  | MRefresh files => (reloaded files <$> h.1, h.2)
  end.

(** Bindings are only made for present certificates. *)
Fixpoint binds_present (h : held) (ops : list manager_op) : Prop :=
  match ops with
  | [] => True
  | o :: ops =>
      match o with MBind name _ => is_Some (h.1 !! name) | _ => True end /\ binds_present (held_exec h o) ops
  end.

Definition mgr_holds (s : certIndex T) (h : held) : Prop := ci_ok s /\ vals (certs s) = h.1 /\ bound s = h.2.

Lemma refresh_step_vals files s errs k :
  vals (certs (refresh_step files (s, errs) k).1) = alter (reloaded files) k (vals (certs s)) /\
  keys (certs (refresh_step files (s, errs) k).1) = keys (certs s) /\
  bound (refresh_step files (s, errs) k).1 = bound s.
Proof.
  unfold refresh_step, sm_get. destruct (vals (certs s) !! k) as [cd|] eqn:E.
  2: { split; [|done]. apply map_eq. intros k'.
       destruct (decide (k' = k)) as [->|Hk]; [by rewrite lookup_alter_eq, E|by rewrite lookup_alter_ne]. }
  unfold load. cbn. destruct (files (certPath cd) (keyPath cd)) as [c|err] eqn:El; cbn.
  - unfold ci_update, sm_get. rewrite E. cbn. split; [|done]. apply map_eq. intros k'.
    destruct (decide (k' = k)) as [->|Hk]; [|by rewrite lookup_insert_ne, lookup_alter_ne].
    rewrite lookup_insert_eq, lookup_alter_eq, E. cbn. unfold reloaded. by rewrite El.
  - split; [|done]. apply map_eq. intros k'.
    destruct (decide (k' = k)) as [->|Hk]; [|by rewrite lookup_alter_ne].
    rewrite lookup_alter_eq, E. cbn. unfold reloaded. by rewrite El.
Qed.

Lemma refresh_vals files ks s errs : NoDup ks ->
  let s' := (foldl (refresh_step files) (s, errs) ks).1 in
  bound s' = bound s /\
  forall k, vals (certs s') !! k = if bool_decide (k ∈ ks) then reloaded files <$> vals (certs s) !! k else vals (certs s) !! k.
Proof.
  revert s errs. induction ks as [|k0 ks IH]; intros s errs; cbn [foldl]; [done|]. intros [Hk0 Hn]%NoDup_cons.
  pose proof (refresh_step_vals files s errs k0) as (Ev & _ & Eb).
  destruct (refresh_step files (s, errs) k0) as [s1 errs1]. cbn in Ev, Eb.
  destruct (IH s1 errs1 Hn) as [Hb Hv]. split; [congruence|]. intros k. rewrite Hv, Ev.
  destruct (decide (k = k0)) as [->|Hk].
  - rewrite bool_decide_eq_false_2 by done. rewrite bool_decide_eq_true_2 by left. by rewrite lookup_alter_eq.
  - rewrite lookup_alter_ne by done. erewrite (bool_decide_ext (k ∈ k0 :: ks)); [done|].
    rewrite elem_of_cons. naive_solver.
Qed.

Lemma manager_exec_holds s h o : mgr_holds s h ->
  match o with MBind name _ => is_Some (h.1 !! name) | _ => True end -> mgr_holds (manager_exec s o) (held_exec h o).
Proof.
  intros (Hok & Ev & Eb) Ho. split.
  { apply manager_exec_ok; [done|]. destruct o; try done. cbn. apply ci_contains_true. by rewrite Ev. }
  destruct o as [files p|name p|name|files]; cbn.
  - unfold manager_Add, ci_contains, sm_get, load. rewrite Ev. destruct (h.1 !! ap_Name p); [done|].
    destruct (files _ _) as [c|]; cbn; [|done]. split; [|done]. rewrite <- Ev. by apply sm_set_ok, Hok.
  - unfold manager_Bind, ci_bind. rewrite Eb. case_bool_decide as Hin.
    + rewrite (proj2 (existsb_exists _ _)); [done|]. eexists. split; [by apply list_elem_of_In|]. cbn.
      by rewrite !bool_decide_eq_true_2.
    + destruct (existsb _ _) eqn:E; [|done]. exfalso. apply existsb_exists in E as ([pr n] & Hb%list_elem_of_In & E).
      apply andb_true_iff in E as [E1%bool_decide_eq_true E2%bool_decide_eq_true]. cbn in *. by subst.
  - split; [|by rewrite <- Eb]. rewrite <- Ev. by apply sm_del_ok, Hok.
  - unfold manager_Refresh. destruct Hok as [[Hs Hk] _].
    destruct (refresh_vals files (keys (certs s)) s [] (NoDup_sorted_lt _ Hs)) as [Hb Hv].
    destruct (foldl _ (s, []) _) as [s' errs]. cbn in *. split; [|by rewrite Hb]. apply map_eq. intros k.
    rewrite Hv, lookup_fmap, <- Ev. case_bool_decide as Hin; [done|].
    destruct (vals (certs s) !! k) eqn:E; [|done]. exfalso. apply Hin, Hk. by rewrite E.
Qed.

Lemma manager_run_holds ops s h : mgr_holds s h -> binds_present h ops ->
  mgr_holds (foldl manager_exec s ops) (foldl held_exec h ops).
Proof.
  revert s h. induction ops as [|o ops IH]; intros s h Hh; [done|]. cbn [binds_present foldl]. intros [Ho Hops].
  apply IH; [|done]. by apply manager_exec_holds.
Qed.

(** C40. As long as only present certificates are bound, looking up a certificate
    never panics, whatever sequence of additions, bindings, removals and
    refreshes came before, and whatever the files held then.  It returns the
    certificate of the first binding, in the order of the Bind calls, whose prefix
    contains the local address and whose certificate the client supports, and an
    error if there is none or if there is no local address.  The bindings are those
    that were made, without those of certificates that were removed afterwards; a
    certificate is as it was in the files when it was added or when it was last
    refreshed without an error. *)
Theorem getCertificate_first ops supports ip :
  binds_present (∅, []) ops ->
  let s := foldl manager_exec newCertIndex ops in
  let '(present, bindings) := foldl held_exec (∅, []) ops in
  (exists err, getCertificate s supports ip = Ret (Err err) /\
     (ip = AddrZero \/
      forall b cd, b ∈ bindings -> prefix_contains (pref b) ip = true ->
        present !! bd_name b = Some cd -> supports (cert cd) <> None)) \/
  (exists bs1 b bs2 cd, bindings = bs1 ++ b :: bs2 /\
     getCertificate s supports ip = Ret (Ok (cert cd)) /\ ip <> AddrZero /\
     prefix_contains (pref b) ip = true /\ present !! bd_name b = Some cd /\
     supports (cert cd) = None /\
     forall b' cd', b' ∈ bs1 -> prefix_contains (pref b') ip = true ->
       present !! bd_name b' = Some cd' -> supports (cert cd') <> None).
Proof.
  intros Hops s. assert (mgr_holds s (foldl held_exec (∅, []) ops)) as Hh.
  { apply manager_run_holds; [|done]. split; [apply ci_ok_new|done]. }
  destruct (foldl held_exec (∅, []) ops) as [present bindings]. destruct Hh as ([Hs Hb] & E1 & E2). cbn in E1, E2. subst present bindings.
  unfold getCertificate. case_if; bool_simp.
  { left. eexists. split; [done|]. right. intros b cd Hin _ Hcd.
    unfold ci_count, sm_len in *. apply map_size_empty_inv in E. by rewrite E, lookup_empty in Hcd. }
  unfold certFor. case_bool_decide; [left; eexists; split; [done|by left]|].
  destruct (cert_loop_spec s supports ip (bound s) [] Hb) as [(err & E1 & Hall)|Hfound].
  - left. exists err. split; [done|]. by right.
  - right. destruct Hfound as (bs1 & b & bs2 & cd & ? & ? & ? & ? & ? & ?). exists bs1, b, bs2, cd. by split_and!.
Qed.

End manager_facts.

(** ** Scenarios *)

Definition any_prefix : Prefix := PrefixFrom (Addr4 0) 0.

Definition params (name : string) : AddParams :=
  {| ap_Name := name; ap_CertPath := name; ap_KeyPath := name; ap_IsCustom := true |}.

Definition load_name (c k : string) : result error string := Ok c.

(** [Bind] does not check that the certificate is present.  Adding and binding
    are separate calls, so a removal of the certificate by another goroutine can
    come in between; after that, every handshake that reaches the binding makes
    the lookup panic, although other certificates could serve it. *)
Theorem bind_after_remove_panics :
  let s := foldl manager_exec newCertIndex
    [MAdd load_name (params "custom"); MRemove "custom"; MBind "custom" any_prefix;
     MAdd load_name (params "default"); MBind "default" any_prefix] in
  getCertificate s (fun _ => None) (Addr4 1) = Panic "certificate %q: no value".
Proof. vm_compute. reflexivity. Qed.

Definition bind_run : list manager_op :=
  [MAdd load_name (params "a"); MBind "a" any_prefix; MAdd load_name (params "default"); MBind "default" any_prefix;
   MRemove "a"; MRefresh load_name].

Lemma getCertificate_first_witness :
  binds_present (∅, []) bind_run /\
  getCertificate (foldl manager_exec newCertIndex bind_run) (fun _ => None) (Addr4 1) = Ret (Ok "default"%string).
Proof.
  assert (binds_present (∅, []) bind_run) as Hr by (vm_compute; eauto 10).
  split; [exact Hr|].
  destruct (getCertificate_first bind_run (fun _ => None) (Addr4 1) Hr)
    as [(err & _ & [Hz|Hno])|(bs1 & b & bs2 & cd & _ & E & _)].
  - done.
  - exfalso. apply (Hno {| pref := any_prefix; bd_name := "default" |}
      {| cert := "default"; certPath := "default"; keyPath := "default"; isCustom := true |})%string;
      vm_compute; try constructor; reflexivity.
  - vm_compute. reflexivity.
Defined.
