(* ===== verification/Tickets.v ===== *)
(** TLS session tickets: internal/tlsconfig/ticket.go, ticketdb.go, the rotation in
    defaultmanager.go, and the storage of the backend in
    internal/backendgrpc/ticketstorage.go with internal/backendgrpc/dnspb/sessionticket.go.

    The tickets of the backend are written to files of a cache directory, with an
    index of their names, and the rotation reads the files and sets the keys of all
    TLS configurations.  The response of the backend and the errors of the system
    calls are inputs; JSON and SHA-256 are parameters; metrics are left out. *)

From S2P Require Import Prelude GoStd Utf8 RuleListStorage DnsMsg FileCachePB.

Open Scope Z_scope.

(** ** ticket.go *)

Definition SessionTicketLen : nat := 32.

(** A ticket is the string of its bytes. *)
Definition NewSessionTicket (data : string) : result error string :=
  if (String.length data <? SessionTicketLen)%nat then Err (ErrWrap "length: %w" (ErrConst "out of range"))
  else Ok (str_take SessionTicketLen data).

(** [utf8.ValidString]. *)
Fixpoint valid_utf8 (fuel : nat) (s : list ascii) : bool :=
  match fuel, s with
  | S fuel, _ :: _ =>
      let '(r, sz) := DecodeRune s in
      negb ((r =? RuneError) && (sz =? 1)%nat) && valid_utf8 fuel (drop sz s)
  | _, _ => true
  end.

Definition ValidString (s : string) : bool := valid_utf8 (String.length s) (bytes s).

Definition NewSessionTicketName (str : string) : result error string :=
  match NotEmpty "str" str with
  | Some err => Err err
  | None =>
      match Index str "/" with
      | Some _ => Err (ErrConst "str: at index %d: bad rune %q")
      | None => if ValidString str then Ok str else Err (ErrConst "str: not a valid label value: %q")
      end
  end.

(** ** dnspb/sessionticket.go *)

(** The message; missing fields are empty. *)
Record pbSessionTicket := { st_Name : string; st_Data : string }.

Definition zero_ticket : string := of_bytes (replicate SessionTicketLen (ascii_of_nat 0)).

Record TicketResult := { tr_Error : option error; tr_Ticket : string }.

Definition ticket_toInternal (x : pbSessionTicket) (idx : nat) : string * TicketResult :=
  let '(name, errs) :=
    match NewSessionTicketName (st_Name x) with
    | Ok name => (name, [])
    | Err err => ("bad_ticket_name_" +:+ itoa (Z.of_nat idx), [err])
    end in
  let '(ticket, errs) :=
    match NewSessionTicket (st_Data x) with
    | Ok t => (t, errs)
    | Err err => (zero_ticket, errs ++ [ErrWrap "ticket: %w" err])
    end in
  (name, {| tr_Error := wrap_opt "loading session ticket: at index %d: %w" (Join errs); tr_Ticket := ticket |}).

(** The results by their names, in which a later ticket replaces an earlier one of
    the same name. *)
Definition TicketsToInternal (pbTickets : list pbSessionTicket) : gmap string TicketResult * option error :=
  match pbTickets with
  | [] => (∅, Some (ErrWrap "received" (ErrConst "empty value")))
  | _ =>
      let rs := imap (fun i x => ticket_toInternal x i) pbTickets in
      (foldl (fun m r => <[r.1 := r.2]> m) ∅ rs, Join (omap (fun r => tr_Error r.2) rs))
  end.

(** ** ticketstorage.go *)

(** [resp] is the response of the backend, or the fixed gRPC error. *)
Definition Tickets (resp : result error (list pbSessionTicket)) : gmap string string * option error :=
  match resp with
  | Err err => (∅, Some (ErrWrap "loading session tickets: %w" err))
  | Ok pbTickets =>
      let '(results, err) := TicketsToInternal pbTickets in
      (omap (fun r => match tr_Error r with Some _ => None | None => Some (tr_Ticket r) end) results,
       wrap_opt "converting: %w" err)
  end.

(** [sha256] gives 32 bytes.  The first six of them as an integer, which a float
    represents exactly. *)
Definition calcTicketsHash (sha256 : string -> string) (tickets : gmap string string) : Z :=
  if bool_decide (tickets = ∅) then 0
  else
    let data := foldr (fun name acc => name +:+ default zero_ticket (tickets !! name) +:+ acc) EmptyString
                  (merge_sort str_le (elements (dom tickets))) in
    be_value (str_take 6 (sha256 data)).

(** ** ticketdb.go *)

(** The encoding of the index, the times of update by the names. *)
Class IndexJSON := {
  json_encode : gmap string Z * Z -> result error string;
  json_decode : string -> result error (gmap string Z * Z);
}.

(** What was encoded is decoded. *)
Class IndexJSONSpec `{IndexJSON} : Prop := {
  json_roundtrip x s : json_encode x = Ok s -> json_decode s = Ok x;
}.

Definition TicketIndexVersion : Z := 1.

(** The files, by their paths. *)
Notation files := (gmap string string).

Record RemoteTicketDB := {
  db_index : gmap string Z;
  db_indexFileName : string;
  db_cacheDir : string;
}.

Definition set_index_map (db : RemoteTicketDB) (i : gmap string Z) : RemoteTicketDB :=
  {| db_index := i; db_indexFileName := db_indexFileName db; db_cacheDir := db_cacheDir db |}.

(** [filepath.Join] of a clean directory other than the root, and a name without
    separators that is neither a dot nor two. *)
Definition filepath_Join (dir name : string) : string := dir +:+ "/" +:+ name.

Section tickets.
Context `{IndexJSON}.

(** [renameio.WriteFile] with the error of the system. *)
Definition WriteFile (fs : files) (path data : string) (werr : string -> option error) : option error * files :=
  match werr path with Some err => (Some err, fs) | None => (None, <[path := data]> fs) end.

Definition updateIndex (werr : string -> option error) (db : RemoteTicketDB) (fs : files) (tickets : gmap string Z)
    : option error * RemoteTicketDB * files :=
  let db := set_index_map db tickets in
  match json_encode (tickets, TicketIndexVersion) with
  | Err err => (Some (ErrWrap "encoding index file: %w" err), db, fs)
  | Ok b =>
      let '(err, fs) := WriteFile fs (filepath_Join (db_cacheDir db) (db_indexFileName db)) b werr in
      (wrap_opt "writing index file: %w" err, db, fs)
  end.

(** [open] is the error of opening the file, apart from its absence. *)
Definition initTicketIndex (werr : string -> option error) (open close : option error) (db : RemoteTicketDB) (fs : files)
    : option error * RemoteTicketDB * files :=
  match open, fs !! filepath_Join (db_cacheDir db) (db_indexFileName db) with
  | Some err, _ => (Some (ErrWrap "opening index file: %w" err), db, fs)
  | None, None => updateIndex werr db fs ∅
  | None, Some b =>
      match json_decode b with
      | Err err => (Some (ErrWrap "decoding index file %q: %w" err), db, fs)
      | Ok (tickets, version) =>
          if negb (version =? TicketIndexVersion)
          then (Some (ErrWrap "invalid schema version: %w" (ErrConst "out of range")), db, fs)
          else (wrap_opt "deferred: %w" close, set_index_map db tickets, fs)
      end
  end.

(** [mkdir] is the error of making the directory. *)
Definition NewRemoteTicketDB (werr : string -> option error) (mkdir open close : option error) (cacheDir indexFileName : string)
    (fs : files) : result error RemoteTicketDB * files :=
  match mkdir with
  | Some err => (Err (ErrWrap "creating cache directory %q: %w" err), fs)
  | None =>
      let db := {| db_index := ∅; db_indexFileName := indexFileName; db_cacheDir := cacheDir |} in
      match initTicketIndex werr open close db fs with
      | (Some err, _, fs) => (Err (ErrWrap "initializing ticket index: %w" err), fs)
      | (None, db, fs) => (Ok db, fs)
      end
  end.

Definition writeTicketFile (now : Z) (werr : string -> option error) (db : RemoteTicketDB) (fs : files) (name ticket : string)
    : result error Z * files :=
  if bool_decide (name = db_indexFileName db)
  then (Err (ErrWrap "name: %w: %q; reserved for index" (ErrConst "bad enum value")), fs)
  else
    match WriteFile fs (filepath_Join (db_cacheDir db) name) ticket werr with
    | (Some err, fs) => (Err (ErrWrap "writing ticket file %q: %w" err), fs)
    | (None, fs) => (Ok now, fs)
    end.

(** The loop of [refresh]. *)
Fixpoint write_all (now : Z) (werr : string -> option error) (db : RemoteTicketDB) (tickets : list (string * string))
    (index : gmap string Z) (errs : list error) (fs : files) : gmap string Z * list error * files :=
  match tickets with
  | [] => (index, errs, fs)
  | (name, ticket) :: tickets =>
      match writeTicketFile now werr db fs name ticket with
      | (Err err, fs) => write_all now werr db tickets index (errs ++ [ErrWrap "writing ticket %q: %w" err]) fs
      | (Ok indexed, fs) => write_all now werr db tickets (<[name := indexed]> index) errs fs
      end
  end.

Definition ticketdb_refresh (now : Z) (werr : string -> option error) (strg : gmap string string * option error)
    (db : RemoteTicketDB) (fs : files) : option error * RemoteTicketDB * files :=
  match strg with
  | (_, Some err) => (Some (ErrWrap "retrieving tickets: %w" err), db, fs)
  | (tickets, None) =>
      if bool_decide (tickets = ∅) then (Some (ErrWrap "received tickets: %w" (ErrConst "empty value")), db, fs)
      else
        let '(index, errs, fs) := write_all now werr db (map_to_list tickets) ∅ [] fs in
        if bool_decide (index = ∅) then (Join errs, db, fs)
        else
          let '(err, db, fs) := updateIndex werr db fs index in
          (Join (errs ++ match err with Some e => [ErrWrap "updating index: %w" e] | None => [] end), db, fs)
  end.

Definition Paths (now : Z) (werr : string -> option error) (strg : gmap string string * option error)
    (db : RemoteTicketDB) (fs : files) : list string * option error * RemoteTicketDB * files :=
  let '(err, db, fs) := ticketdb_refresh now werr strg db fs in
  (filepath_Join (db_cacheDir db) <$> merge_sort str_le (elements (dom (db_index db))),
   wrap_opt "refreshing ticket database: %w" err, db, fs).

(** ** defaultmanager.go *)

(** [read] is the content of a file. *)
Definition readSessionTicketFile (read : string -> result error string) (filePath : string) : result error string :=
  match read filePath with
  | Err err => Err (ErrWrap "reading session ticket: %w" err)
  | Ok b => annotate "session ticket in %q: %w" (NewSessionTicket b)
  end.

Fixpoint read_all (read : string -> result error string) (paths : list string) : result error (list string) :=
  match paths with
  | [] => Ok []
  | p :: paths =>
      let? t := annotate "reading session ticket: %w" (readSessionTicketFile read p) in
      let? ts := read_all read paths in
      Ok (t :: ts)
  end.

(** The keys of the configurations that the manager has made, the collected
    errors, and the result.  A configuration starts without keys. *)
Definition rotate_with (read : string -> result error string) (paths : list string) (perr : option error)
    (confs : list (list string)) : list (list string) * list error * option error :=
  let errs := match perr with Some err => [ErrWrap "rotating tickets: %w" err] | None => [] end in
  match paths with
  | [] => (confs, errs, None)
  | _ =>
      match read_all read paths with
      | Err err => (confs, errs ++ [ErrWrap "ticket rotation failed: %w" err], Some err)
      | Ok tickets => ((fun _ => tickets) <$> confs, errs, None)
      end
  end.

(** [os.ReadFile] with the error of the system. *)
Definition ReadFile (rerr : string -> option error) (fs : files) (path : string) : result error string :=
  match rerr path, fs !! path with
  | Some err, _ => Err err
  | None, Some b => Ok b
  | None, None => Err (ErrConst "file does not exist")
  end.

Definition RotateTickets (now : Z) (werr : string -> option error) (rerr : string -> option error)
    (strg : gmap string string * option error) (db : RemoteTicketDB) (fs : files) (confs : list (list string))
    : list (list string) * list error * option error * RemoteTicketDB * files :=
  let '(paths, perr, db, fs) := Paths now werr strg db fs in
  let '(confs, errs, err) := rotate_with (ReadFile rerr fs) paths perr confs in
  (confs, errs, err, db, fs).
End tickets.

(** * Facts *)

(** What the backend should send. *)
Definition pb_valid (x : pbSessionTicket) : Prop :=
  NewSessionTicketName (st_Name x) = Ok (st_Name x) /\ (SessionTicketLen <= String.length (st_Data x))%nat.

(** The tickets by their names; the last of a name counts. *)
Definition ticket_map (pbs : list pbSessionTicket) : gmap string string :=
  foldl (fun m x => <[st_Name x := str_take SessionTicketLen (st_Data x)]> m) ∅ pbs.

(** The keys in the order of the names, the first of which encrypts. *)
Definition sorted_keys (tickets : gmap string string) : list string :=
  (fun n => default zero_ticket (tickets !! n)) <$> merge_sort str_le (elements (dom tickets)).

Lemma ticket_toInternal_valid x i : pb_valid x ->
  ticket_toInternal x i = (st_Name x, {| tr_Error := None; tr_Ticket := str_take SessionTicketLen (st_Data x) |}).
Proof.
  intros [Hn Hl]. unfold ticket_toInternal, NewSessionTicket. rewrite Hn.
  by rewrite (proj2 (Nat.ltb_ge _ _)) by exact Hl.
Qed.

Lemma Tickets_valid pbs : pbs <> [] -> Forall pb_valid pbs -> Tickets (Ok pbs) = (ticket_map pbs, None).
Proof.
  intros Hne Hv. unfold Tickets, TicketsToInternal. destruct pbs as [|x0 pbs0] eqn:Ep; [done|]. rewrite <- Ep in *. clear Ep.
  assert (imap (fun i x => ticket_toInternal x i) pbs =
    (fun x => (st_Name x, {| tr_Error := None; tr_Ticket := str_take SessionTicketLen (st_Data x) |})) <$> pbs) as ->.
  { clear Hne. apply list_eq. intros i. rewrite list_lookup_imap, list_lookup_fmap. destruct (pbs !! i) as [x|] eqn:E; [|done].
    cbn. f_equal. apply ticket_toInternal_valid. rewrite Forall_forall in Hv. apply Hv. by eapply list_elem_of_lookup_2. }
  assert (Join (omap (fun r : string * TicketResult => tr_Error r.2)
    ((fun x => (st_Name x, {| tr_Error := None; tr_Ticket := str_take SessionTicketLen (st_Data x) |})) <$> pbs)) = None) as ->.
  { clear. assert (omap (fun r : string * TicketResult => tr_Error r.2)
      ((fun x => (st_Name x, {| tr_Error := None; tr_Ticket := str_take SessionTicketLen (st_Data x) |})) <$> pbs) = []) as ->; [|done].
    by induction pbs as [|x pbs IH]. }
  cbn [wrap_opt fmap option_fmap option_map]. f_equal. clear Hne Hv. unfold ticket_map.
  assert (forall pbs (m1 : gmap string TicketResult) (m2 : gmap string string),
    omap (fun r => match tr_Error r with Some _ => None | None => Some (tr_Ticket r) end) m1 = m2 ->
    omap (fun r => match tr_Error r with Some _ => None | None => Some (tr_Ticket r) end)
      (foldl (fun m r => <[r.1 := r.2]> m) m1
        ((fun x => (st_Name x, {| tr_Error := None; tr_Ticket := str_take SessionTicketLen (st_Data x) |})) <$> pbs)) =
    foldl (fun m x => <[st_Name x := str_take SessionTicketLen (st_Data x)]> m) m2 pbs) as Hall.
  { clear. intros pbs. induction pbs as [|x pbs IH]; intros m1 m2 E; [done|]. cbn -[str_take]. apply IH.
    erewrite omap_insert_Some; [|reflexivity]. by rewrite E. }
  apply Hall. apply omap_empty.
Qed.

Section facts.
Context `{IndexJSONSpec}.

(** The cache has exactly the given tickets. *)
Definition db_synced (tickets : gmap string string) (db : RemoteTicketDB) (fs : files) : Prop :=
  dom (db_index db) = dom tickets /\ tickets <> ∅ /\
  forall n t, tickets !! n = Some t -> fs !! filepath_Join (db_cacheDir db) n = Some t /\ String.length t = SessionTicketLen.

Lemma filepath_Join_inj dir n m : filepath_Join dir n = filepath_Join dir m -> n = m.
Proof.
  unfold filepath_Join. intros E. induction dir as [|c dir IH]; cbn in E; [congruence|]. apply IH. cbn. congruence.
Qed.

(** The rotation reads the tickets back. *)
Lemma rotate_synced rerr tickets db fs perr confs :
  (forall p, rerr p = None) -> db_synced tickets db fs ->
  rotate_with (ReadFile rerr fs)
    (filepath_Join (db_cacheDir db) <$> merge_sort str_le (elements (dom (db_index db)))) perr confs =
  ((fun _ => sorted_keys tickets) <$> confs,
   match perr with Some err => [ErrWrap "rotating tickets: %w" err] | None => [] end, None).
Proof.
  intros Hr (Hd & Hne & Hf). rewrite Hd. unfold rotate_with, sorted_keys.
  assert (forall ns, (forall n, n ∈ ns -> n ∈ dom tickets) ->
    read_all (ReadFile rerr fs) (filepath_Join (db_cacheDir db) <$> ns) = Ok ((fun n => default zero_ticket (tickets !! n)) <$> ns)) as Hread.
  { intros ns. induction ns as [|n ns IH]; intros Hin; [done|]. cbn [fmap list_fmap read_all].
    destruct (proj1 (elem_of_dom tickets n) (Hin n ltac:(left))) as [t Ht]. destruct (Hf n t Ht) as [Hfile Hlen].
    unfold readSessionTicketFile.
    assert (ReadFile rerr fs (filepath_Join (db_cacheDir db) n) = Ok t) as -> by (unfold ReadFile; by rewrite Hr, Hfile).
    unfold NewSessionTicket. rewrite (proj2 (Nat.ltb_ge _ _)) by lia. cbn [annotate result_bind].
    rewrite IH by (intros; apply Hin; by right). cbn [result_bind]. rewrite Ht. cbn [default]. f_equal. f_equal.
    clear -Hlen. revert Hlen. generalize SessionTicketLen. intros k <-. induction t as [|c t IH]; [done|]. cbn. by rewrite IH. }
  rewrite (Hread (merge_sort str_le (elements (dom tickets)))).
  2:{ intros n Hn. rewrite merge_sort_Permutation in Hn. by apply elem_of_elements. }
  destruct (merge_sort str_le (elements (dom tickets))) as [|n ns] eqn:Es; [|done]. exfalso. apply Hne.
  assert (elements (dom tickets) = []) as Ee.
  { apply Permutation_nil. rewrite <- Es. apply merge_sort_Permutation. }
  apply elements_empty_iff in Ee. apply (dom_empty_inv_L tickets). set_solver.
Qed.

Lemma write_all_ok now werr db l : forall index errs fs,
  (forall p, werr p = None) -> NoDup l.*1 -> (forall n t, (n, t) ∈ l -> n <> db_indexFileName db) ->
  exists fs', write_all now werr db l index errs fs = (foldl (fun m x => <[x.1 := now]> m) index l, errs, fs') /\
    (forall n t, (n, t) ∈ l -> fs' !! filepath_Join (db_cacheDir db) n = Some t) /\
    (forall n, n ∉ l.*1 -> fs' !! filepath_Join (db_cacheDir db) n = fs !! filepath_Join (db_cacheDir db) n).
Proof.
  induction l as [|[n t] l IH]; intros index errs fs Hw Hnd Hi; cbn [write_all foldl fmap list_fmap].
  { exists fs. split_and!; [done| |done]. intros n t []%elem_of_nil. }
  apply NoDup_cons in Hnd as [Hn Hnd]. unfold writeTicketFile. rewrite bool_decide_eq_false_2 by (eapply Hi; left).
  unfold WriteFile. rewrite Hw.
  destruct (IH (<[n := now]> index) errs (<[filepath_Join (db_cacheDir db) n := t]> fs) Hw Hnd) as (fs' & -> & H1 & H2).
  { intros n' t' Hin. eapply Hi. right. exact Hin. }
  exists fs'. split_and!; [done| |].
  - intros n' t' [[= -> ->]|Hin]%elem_of_cons; [|by apply H1]. rewrite H2 by done. apply lookup_insert_eq.
  - intros n' [Hne Hin]%not_elem_of_cons. rewrite H2 by done. apply lookup_insert_ne. intros E.
    apply filepath_Join_inj in E. by subst.
Qed.

Lemma dom_insert_all {A} (now : Z) (l : list (string * A)) : forall index : gmap string Z,
  dom (foldl (fun m x => <[x.1 := now]> m) index l) = list_to_set l.*1 ∪ dom index.
Proof.
  induction l as [|x l IH]; intros index; cbn; [set_solver|]. rewrite IH, dom_insert_L. set_solver.
Qed.

(** A refresh with tickets, when the files can be written. *)
Lemma refresh_synced now werr tickets db fs b :
  (forall p, werr p = None) -> tickets <> ∅ -> tickets !! db_indexFileName db = None ->
  (forall n t, tickets !! n = Some t -> String.length t = SessionTicketLen) ->
  let index := foldl (fun m x => <[x.1 := now]> m) ∅ (map_to_list tickets) in
  json_encode (index, TicketIndexVersion) = Ok b ->
  exists fs', ticketdb_refresh now werr (tickets, None) db fs = (None, set_index_map db index, fs') /\
    fs' !! filepath_Join (db_cacheDir db) (db_indexFileName db) = Some b /\ db_synced tickets (set_index_map db index) fs'.
Proof.
  intros Hw Hne Hi Hl index Eb. unfold ticketdb_refresh. rewrite bool_decide_eq_false_2 by done.
  destruct (write_all_ok now werr db (map_to_list tickets) ∅ [] fs Hw) as (fs' & -> & H1 & H2).
  { apply NoDup_fst_map_to_list. }
  { intros n t Hin%elem_of_map_to_list ->. congruence. }
  fold index. assert (dom index = dom tickets) as Hdom.
  { unfold index. rewrite dom_insert_all. apply set_eq. intros n. rewrite elem_of_union, elem_of_list_to_set, dom_empty_L.
    rewrite list_elem_of_fmap, elem_of_dom. split.
    - intros [([n' t] & -> & Hin%elem_of_map_to_list)|?]; [by exists t|set_solver].
    - intros [t Ht]. left. exists (n, t). split; [done|]. by apply elem_of_map_to_list. }
  rewrite bool_decide_eq_false_2.
  2:{ intros E. rewrite E, dom_empty_L in Hdom. apply Hne. by apply dom_empty_inv_L. }
  unfold updateIndex. rewrite Eb. unfold WriteFile. cbn [db_cacheDir db_indexFileName set_index_map]. rewrite Hw.
  eexists. split; [done|]. split; [apply lookup_insert_eq|]. split_and!; [done|done|].
  intros n t Ht. cbn [db_cacheDir set_index_map]. rewrite lookup_insert_ne.
  - split; [|by eapply Hl]. apply H1. by apply elem_of_map_to_list.
  - intros E%filepath_Join_inj. subst. congruence.
Qed.

Lemma ticket_map_ok index pbs n t : Forall pb_valid pbs -> index ∉ st_Name <$> pbs ->
  ticket_map pbs !! n = Some t -> String.length t = SessionTicketLen /\ n <> index.
Proof.
  intros Hv Hi. unfold ticket_map. assert (forall n t, (∅ : gmap string string) !! n = Some t ->
    String.length t = SessionTicketLen /\ n <> index) as Hm by (intros ? ?; by rewrite lookup_empty).
  revert Hm. generalize (∅ : gmap string string). induction pbs as [|x pbs IH]; intros m Hm E; [by eapply Hm|]. cbn [foldl] in E.
  apply Forall_cons in Hv as [[_ Hl] Hv]. apply not_elem_of_cons in Hi as [Hi1 Hi2].
  eapply IH; [done|done| |exact E]. intros n' t' [(<- & <-)|(? & ?)]%lookup_insert_Some; [|by eapply Hm]. split; [|done].
  rewrite length_str_take_min. lia.
Qed.

(** C35. The tickets that the backend sends become the keys: when all tickets of a
    response are valid, and the files can be written and read, the rotation sets
    them, in the order of their names, as the keys of every TLS configuration;
    and after a restart with the same files, while the backend cannot be reached,
    a rotation sets the same keys and reports the error. *)
Theorem tickets_rotated now now' werr rerr pbs db fs confs confs' err b :
  pbs <> [] -> Forall pb_valid pbs -> db_indexFileName db ∉ st_Name <$> pbs ->
  (forall p, werr p = None) -> (forall p, rerr p = None) ->
  json_encode (foldl (fun m x => <[x.1 := now]> m) ∅ (map_to_list (ticket_map pbs)), TicketIndexVersion) = Ok b ->
  exists db' fs',
    RotateTickets now werr rerr (Tickets (Ok pbs)) db fs confs =
      ((fun _ => sorted_keys (ticket_map pbs)) <$> confs, [], None, db', fs') /\
    NewRemoteTicketDB werr None None None (db_cacheDir db) (db_indexFileName db) fs' = (Ok db', fs') /\
    exists errs, errs <> [] /\ RotateTickets now' werr rerr (Tickets (Err err)) db' fs' confs' =
      ((fun _ => sorted_keys (ticket_map pbs)) <$> confs', errs, None, db', fs').
Proof.
  intros Hne Hv Hi Hw Hr Eb.
  assert (forall n t, ticket_map pbs !! n = Some t -> String.length t = SessionTicketLen /\ n <> db_indexFileName db) as Hm.
  { intros n t. by apply ticket_map_ok. }
  assert (ticket_map pbs <> ∅) as Hmne.
  { destruct pbs as [|x pbs] using rev_ind; [done|]. unfold ticket_map. rewrite foldl_app. cbn [foldl]. apply insert_non_empty. }
  destruct (refresh_synced now werr (ticket_map pbs) db fs b Hw Hmne) as (fs' & Er & Eidx & Hs); [|by intros; eapply Hm|done|].
  { destruct (ticket_map pbs !! db_indexFileName db) as [t|] eqn:E; [|done]. by destruct (Hm _ _ E). }
  set (index := foldl _ ∅ _) in *. exists (set_index_map db index), fs'.
  pose proof (fun perr c => rotate_synced rerr _ _ _ perr c Hr Hs) as Hrot.
  rewrite Tickets_valid by done. split_and!.
  - unfold RotateTickets, Paths. rewrite Er. by rewrite Hrot.
  - unfold NewRemoteTicketDB, initTicketIndex. cbn [db_cacheDir db_indexFileName]. rewrite Eidx, (json_roundtrip _ _ Eb).
    by rewrite Z.eqb_refl.
  - eexists. split; [|unfold RotateTickets, Paths; cbn [Tickets ticketdb_refresh]; rewrite Hrot; reflexivity].
    done.
Qed.
End facts.

(** ** Examples *)

Definition some_ticket (n : nat) : string := of_bytes (replicate 40 (ascii_of_nat n)).
Definition some_pbs : list pbSessionTicket :=
  [{| st_Name := "ticket_2"; st_Data := some_ticket 50 |}; {| st_Name := "ticket_1"; st_Data := some_ticket 49 |}].

(** An encoding of one index. *)
#[local] Instance some_json : IndexJSON := {|
  json_encode x := if bool_decide (x = (<["ticket_1"%string := 5]> (<["ticket_2"%string := 5]> ∅), 1)) then Ok "index"%string
                   else Err (ErrConst "bad index");
  json_decode s := if bool_decide (s = "index"%string) then Ok (<["ticket_1"%string := 5]> (<["ticket_2"%string := 5]> ∅), 1)
                   else Err (ErrConst "bad json") |}.
#[local] Instance some_json_spec : IndexJSONSpec.
Proof.
  split. intros x s. unfold json_encode, json_decode, some_json. destruct (bool_decide (x = _)) eqn:E; [|done].
  apply bool_decide_eq_true in E. intros [= <-]. by rewrite bool_decide_eq_true_2, E.
Qed.

Definition some_db : RemoteTicketDB := {| db_index := ∅; db_indexFileName := "index.json"; db_cacheDir := "cache" |}.

Lemma tickets_rotated_witness :
  exists db' fs', RotateTickets 5 (fun _ => None) (fun _ => None) (Tickets (Ok some_pbs)) some_db ∅ [[]; []] =
    ([[str_take 32 (some_ticket 49); str_take 32 (some_ticket 50)]; [str_take 32 (some_ticket 49); str_take 32 (some_ticket 50)]],
     [], None, db', fs').
Proof.
  destruct (tickets_rotated 5 6 (fun _ => None) (fun _ => None) some_pbs some_db ∅ [[]; []] [[]] (ErrConst "timeout") "index")
    as (db' & fs' & Hr & _); [discriminate| | |reflexivity|reflexivity|vm_compute; reflexivity|].
  - constructor; [|constructor; [|constructor]]; split; [vm_compute; reflexivity|vm_compute; lia|vm_compute; reflexivity|vm_compute; lia].
  - cbn. rewrite !not_elem_of_cons. split; [discriminate|]. split; [discriminate|]. apply not_elem_of_nil.
  - exists db', fs'. rewrite Hr. vm_compute. reflexivity.
Defined.

(** One bad ticket makes the refresh ignore the good ones: the storage returns them
    together with an error, as its interface allows, but the refresh returns at the
    error. *)
Theorem good_tickets_ignored :
  let resp := Tickets (Ok (some_pbs ++ [{| st_Name := "short"; st_Data := "x" |}])) in
  resp.1 = ticket_map some_pbs /\ is_Some resp.2 /\
  (ticketdb_refresh 5 (fun _ => None) resp some_db ∅).1.2 = some_db.
Proof. vm_compute. split; [reflexivity|]. split; [eexists; reflexivity|reflexivity]. Qed.
