(* ===== verification/CustomDomains.v ===== *)
(** Custom domains of internal/tlsconfig: the index of certificates by domain
    (customdomainindex.go) and the database with its well-known paths,
    certificate refreshes and retries (customdomaindb.go).

    The file system, the TLS manager, the storage of certificates and the X.509
    and PEM functions are given by a [World] over a state of their own.  The
    errors given to the error collector are kept; logs and metrics are left
    out. *)

From S2P Require Import Prelude GoStd NetIP Agd Schedule TLSManager ProfileDB DeviceFinder.

Open Scope Z_scope.

Definition ErrCertificateNotFound : string := "certificate not found".
Definition ErrNotExist : string := "file does not exist".

(** ** customdomainindex.go *)

Record customDomainIndexItem := {
  it_notBefore : Z;
  it_notAfter : Z;
  it_profileID : string;
  it_certName : string;
  it_domain : string;
}.

Record customDomainRetry := {
  sched : ExponentialSchedule;
  next_retry : Z;
}.

(** [changed] is the sorted set of certificate names. *)
Record customDomainIndex := {
  changed : gset string;
  retries : gmap string customDomainRetry;
  idx_data : gmap string (list customDomainIndexItem);
}.

Definition newCustomDomainIndex : customDomainIndex :=
  {| changed := ∅; retries := ∅; idx_data := ∅ |}.

(** The results are [matches] and [isWC]. *)
Definition item_match (item : customDomainIndexItem) (cliSrvName : string) (now : Z) : bool * bool :=
  if (it_notAfter item <? now) || (now <? it_notBefore item) then (false, false)
  else if bool_decide (it_domain item = cliSrvName) then (true, false)
  else if HasPrefix (it_domain item) "*." && bool_decide (str_drop 2 (it_domain item) = cliSrvName)
  then (true, true)
  else (false, false).

Definition sameID (item other : customDomainIndexItem) : bool :=
  bool_decide (it_certName item = it_certName other) &&
  bool_decide (it_domain item = it_domain other) &&
  bool_decide (it_profileID item = it_profileID other).

Definition addItem (idx : customDomainIndex) (item : customDomainIndexItem) : bool * customDomainIndex :=
  let domainSuffix := TrimPrefix (it_domain item) "*." in
  let prev := default [] (idx_data idx !! domainSuffix) in
  let put items := {| changed := changed idx; retries := retries idx;
                      idx_data := <[domainSuffix := items]> (idx_data idx) |} in
  if (length prev =? 0)%nat then (true, put [item])
  else if existsb (fun prevItem => sameID prevItem item) prev then (false, idx)
  else (true, put (prev ++ [item])).

Definition new_item (profID : string) (state : CustomDomainStateCurrent) (domain : string)
    : customDomainIndexItem := {|
  it_notAfter := NotAfter state; it_notBefore := NotBefore state; it_profileID := profID;
  it_certName := CertName state; it_domain := domain;
|}.

Definition idx_add (idx : customDomainIndex) (profID : string) (domains : list string)
    (state : CustomDomainStateCurrent) : customDomainIndex :=
  let '(ch, idx) :=
    foldl (fun '(ch, idx) domain =>
      let '(added, idx) := addItem idx (new_item profID state domain) in (ch || added, idx))
      (false, idx) domains in
  if ch : bool then
    {| changed := {[CertName state]} ∪ changed idx; retries := retries idx; idx_data := idx_data idx |}
  else idx.

Definition idx_match (idx : customDomainIndex) (cliSrvName : string) (now : Z)
    : string * option (list string) :=
  let exact := it_profileID <$> filter (fun item => item_match item cliSrvName now = (true, false))
    (default [] (idx_data idx !! cliSrvName)) in
  if negb (length exact =? 0)%nat then (cliSrvName, Some exact)
  else match Cut cliSrvName "." with
  | (_, _, false) => (EmptyString, None)
  | (_, suf, true) =>
      foldl (fun '(matched, profIDs) item =>
        if bool_decide (item_match item suf now = (true, true))
        then (it_domain item, Some (default [] profIDs ++ [it_profileID item]))
        else (matched, profIDs))
        (EmptyString, None) (default [] (idx_data idx !! suf))
  end.

(** The body of the loop of [remove]. *)
Definition remove_domain (certName profID : string) (idx : customDomainIndex) (domain : string)
    : customDomainIndex :=
  let item := {| it_notBefore := 0; it_notAfter := 0; it_profileID := profID;
                 it_certName := certName; it_domain := domain |} in
  let domainSuffix := TrimPrefix domain "*." in
  let prev := default [] (idx_data idx !! domainSuffix) in
  if (length prev =? 0)%nat then idx
  else {| changed := changed idx; retries := retries idx;
          idx_data := <[domainSuffix := filter (fun it => sameID item it = false) prev]> (idx_data idx) |}.

Definition idx_remove (idx : customDomainIndex) (certName profID : string) (domains : list string)
    : customDomainIndex :=
  let idx := foldl (remove_domain certName profID) idx domains in
  {| changed := changed idx ∖ {[certName]}; retries := delete certName (retries idx);
     idx_data := idx_data idx |}.

(** ** customdomaindb.go *)

Record World (M : Type) := {
  w_Stat : M -> string -> option error;
  w_RemoveFile : M -> string -> option error * M;
  w_WriteFile : M -> string -> string -> option error * M;
  w_Add : M -> AddParams -> option error * M;
  w_Bind : M -> string -> Prefix -> option error * M;
  w_Remove : M -> string -> option error * M;
  w_CertificateData : M -> string -> result error (string * string);
  w_ParseCertificates : string -> result error (list string);
  w_pem : string -> string -> string;                   (* block type, bytes *)
  w_X509KeyPair : string -> string -> option error;
}.
Arguments w_Stat {M} _ _ _.
Arguments w_RemoveFile {M} _ _ _.
Arguments w_WriteFile {M} _ _ _ _.
Arguments w_Add {M} _ _ _.
Arguments w_Bind {M} _ _ _ _.
Arguments w_Remove {M} _ _ _.
Arguments w_CertificateData {M} _ _ _.
Arguments w_ParseCertificates {M} _ _.
Arguments w_pem {M} _ _ _.
Arguments w_X509KeyPair {M} _ _ _.

Record CustomDomainDB := {
  wellKnownPathToExpire : gmap string Z;
  customCerts : customDomainIndex;
  cacheDir : string;
  bindPrefixes : list Prefix;
  initRetryIvl : Z;
  maxRetryIvl : Z;
  cd_collected : list error;
}.

Definition with_paths (db : CustomDomainDB) (m : gmap string Z) : CustomDomainDB := {|
  wellKnownPathToExpire := m; customCerts := customCerts db; cacheDir := cacheDir db;
  bindPrefixes := bindPrefixes db; initRetryIvl := initRetryIvl db; maxRetryIvl := maxRetryIvl db;
  cd_collected := cd_collected db;
|}.

Definition with_certs (db : CustomDomainDB) (idx : customDomainIndex) : CustomDomainDB := {|
  wellKnownPathToExpire := wellKnownPathToExpire db; customCerts := idx; cacheDir := cacheDir db;
  bindPrefixes := bindPrefixes db; initRetryIvl := initRetryIvl db; maxRetryIvl := maxRetryIvl db;
  cd_collected := cd_collected db;
|}.

Definition cd_collect (db : CustomDomainDB) (format : string) (err : option error) : CustomDomainDB :=
  match err with
  | None => db
  | Some e => {|
      wellKnownPathToExpire := wellKnownPathToExpire db; customCerts := customCerts db;
      cacheDir := cacheDir db; bindPrefixes := bindPrefixes db; initRetryIvl := initRetryIvl db;
      maxRetryIvl := maxRetryIvl db; cd_collected := cd_collected db ++ [ErrWrap format e] |}
  end.

(** *** Well-known paths *)

Definition DeleteAllWellKnownPaths (db : CustomDomainDB) : CustomDomainDB := with_paths db ∅.

Definition SetWellKnownPath (now : Z) (db : CustomDomainDB) (s : CustomDomainStatePending)
    : CustomDomainDB :=
  if Expire s <? now then with_paths db (delete (WellKnownPath s) (wellKnownPathToExpire db))
  else with_paths db (<[WellKnownPath s := Expire s]> (wellKnownPathToExpire db)).

(** The request is plain HTTP or not, and has a method and a path.  The second
    result is the path that a goroutine has been started to remove. *)
Definition IsValidWellKnownRequest (now : Z) (db : CustomDomainDB) (isTLS : bool) (method path : string)
    : bool * option string :=
  if isTLS || negb (bool_decide (method = "GET"%string)) then (false, None)
  else match wellKnownPathToExpire db !! path with
  | None => (false, None)
  | Some exp => if exp <? now then (false, Some path) else (true, None)
  end.

Definition removeWellKnownPath (db : CustomDomainDB) (path : string) : CustomDomainDB :=
  with_paths db (delete path (wellKnownPathToExpire db)).

(** *** Certificates *)

Definition CustomDomainCertExt : string := ".crt.pem".
Definition CustomDomainKeyExt : string := ".key.pem".

(** [filepath.Join] of a nonempty directory. *)
Definition cachePaths (db : CustomDomainDB) (name : string) : string * string :=
  (path_Clean (cacheDir db +:+ String "/"%char (name +:+ CustomDomainCertExt)),
   path_Clean (cacheDir db +:+ String "/"%char (name +:+ CustomDomainKeyExt))).

Definition Match (now : Z) (db : CustomDomainDB) (cliSrvName : string) : string * option (list string) :=
  idx_match (customCerts db) cliSrvName now.

Section effects.
Context {M : Type} (W : World M).

(** An error of a file removal, unless the file does not exist. *)
Definition remove_error (format : string) (err : option error) : list error :=
  match err with
  | Some e => if Is e ErrNotExist then [] else [ErrWrap format e]
  | None => []
  end.

Definition removeCertData (st : CustomDomainDB * M) (certName profID : string) (domains : list string)
    : CustomDomainDB * M :=
  let '(db, w) := st in
  let db := with_certs db (idx_remove (customCerts db) certName profID domains) in
  let '(certPath, keyPath) := cachePaths db certName in
  let '(e1, w) := w_Remove W w certName in
  let '(e2, w) := w_RemoveFile W w certPath in
  let '(e3, w) := w_RemoveFile W w keyPath in
  let errs := match e1 with Some e => [ErrWrap "removing from manager: %w" e] | None => [] end ++
    remove_error "removing cert file: %w" e2 ++ remove_error "removing key file: %w" e3 in
  (cd_collect db "removing cert %q: %w" (Join errs), w).

Definition AddCertificate (now : Z) (st : CustomDomainDB * M) (profID : string) (domains : list string)
    (state : CustomDomainStateCurrent) : CustomDomainDB * M :=
  if negb (cur_Enabled state) then removeCertData st (CertName state) profID domains
  else if NotAfter state <? now then removeCertData st (CertName state) profID domains
  else (with_certs st.1 (idx_add (customCerts st.1) profID domains state), st.2).

(** The result, and the errors for the collector. *)
Definition needsRefresh (w : M) (certPath keyPath : string) : bool * list error :=
  let e1 := w_Stat W w certPath in
  match e1 with
  | Some e =>
      if Is e ErrNotExist then (true, [])
      else
        let errs := [ErrWrap "checking cert file: %w" e] in
        match w_Stat W w keyPath with
        | None => (true, errs)
        | Some e => if Is e ErrNotExist then (true, errs)
                    else (true, errs ++ [ErrWrap "checking key file: %w" e])
        end
  | None =>
      match w_Stat W w keyPath with
      | None => (false, [])
      | Some e => if Is e ErrNotExist then (true, []) else (true, [ErrWrap "checking key file: %w" e])
      end
  end.

Definition cd_bind (w : M) (prefs : list Prefix) (certName : string) : option error * M :=
  let '(errs, w) :=
    foldl (fun '(errs, w) p =>
      let '(err, w) := w_Bind W w certName p in
      (match err with Some e => errs ++ [ErrWrap "binding cert %q: %w" e] | None => errs end, w))
      ([], w) prefs in
  (ErrWrap "binding cert %q: %w" <$> Join errs, w).

Definition certDataToPEM (certDER keyData : string) : result error (string * string) :=
  match w_ParseCertificates W certDER with
  | Err e => Err (ErrWrap "parsing certificates: %w" e)
  | Ok certs =>
      Ok (foldl (fun acc c => acc +:+ w_pem W "CERTIFICATE" c) EmptyString certs,
          w_pem W "PRIVATE KEY" keyData)
  end.

(** Adding to the manager and binding. *)
Definition add_and_bind (db : CustomDomainDB) (w : M) (certName format : string) : option error * M :=
  let '(certPath, keyPath) := cachePaths db certName in
  match w_Add W w {| ap_Name := certName; ap_CertPath := certPath; ap_KeyPath := keyPath;
                     ap_IsCustom := true |} with
  | (Some e, w) => (Some (ErrWrap format e), w)
  | (None, w) => cd_bind w (bindPrefixes db) certName
  end.

Definition saveCertData (db : CustomDomainDB) (w : M) (certName certData keyData : string)
    : option error * M :=
  let '(certPath, keyPath) := cachePaths db certName in
  match certDataToPEM certData keyData with
  | Err e => (Some (ErrWrap "encoding pem: %w" e), w)
  | Ok (certsPEM, keyPEM) =>
      match w_X509KeyPair W certsPEM keyPEM with
      | Some e => (Some (ErrWrap "parsing pair: %w" e), w)
      | None =>
          match w_WriteFile W w certPath certsPEM with
          | (Some e, w) => (Some (ErrWrap "writing cert to fs: %w" e), w)
          | (None, w) =>
              match w_WriteFile W w keyPath keyPEM with
              | (Some e, w) => (Some (ErrWrap "writing key to fs: %w" e), w)
              | (None, w) => add_and_bind db w certName "adding to manager: %w"
              end
          end
      end
  end.

(** The results are [needsRetry] and [err]. *)
Definition refreshCert (st : CustomDomainDB * M) (certName : string)
    : bool * option error * (CustomDomainDB * M) :=
  let '(db, w) := st in
  let '(certPath, keyPath) := cachePaths db certName in
  let '(needs, errs) := needsRefresh w certPath keyPath in
  let db := cd_collect db "checking cert %q: %w" (Join errs) in
  if negb needs then
    let '(err, w) := add_and_bind db w certName "adding previous cert to manager: %w" in
    (false, err, (db, w))
  else match w_CertificateData W w certName with
  | Err e => (negb (Is e ErrCertificateNotFound), Some (ErrWrap "getting data: %w" e), (db, w))
  | Ok (certData, keyData) =>
      let '(err, w) := saveCertData db w certName certData keyData in
      (false, ErrWrap "saving cert %q: %w" <$> err, (db, w))
  end.

End effects.

(** The retry of a certificate is created if there is none. *)
Definition addRetry (initIvl maxIvl : Z) (rs : gmap string customDomainRetry) (certName : string) (now : Z)
    : gmap string customDomainRetry :=
  let s := match rs !! certName with
           | Some r => sched r
           | None => NewExponentialSchedule initIvl maxIvl 2
           end in
  let '(d, s) := UntilNext s in
  <[certName := {| sched := s; next_retry := now + d |}]> rs.

Section refresh.
Context {M : Type} (W : World M).

Definition resetIndexUpdates (db : CustomDomainDB)
    : list string * gmap string customDomainRetry * CustomDomainDB :=
  (elements (changed (customCerts db)), retries (customCerts db),
   with_certs db {| changed := ∅; retries := ∅; idx_data := idx_data (customCerts db) |}).

Definition staleIndexItems (now : Z) (db : CustomDomainDB) : list customDomainIndexItem :=
  filter (fun it => it_notAfter it < now) (concat (map_to_list (idx_data (customCerts db))).*2).

Definition removeStaleCerts (now : Z) (st : CustomDomainDB * M) : CustomDomainDB * M :=
  foldl (fun st it => removeCertData W st (it_certName it) (it_profileID it) [it_domain it])
    st (staleIndexItems now st.1).

(** The body of the loop over the updated certificates. *)
Definition refresh_updated (now : Z)
    (s : (CustomDomainDB * M) * gmap string customDomainRetry * list error) (certName : string)
    : (CustomDomainDB * M) * gmap string customDomainRetry * list error :=
  let '(st, rs, errs) := s in
  let '(needsRetry, err, st) := refreshCert W st certName in
  (st,
   if needsRetry : bool then addRetry (initRetryIvl st.1) (maxRetryIvl st.1) rs certName now else rs,
   match err with Some e => errs ++ [ErrWrap "refreshing cert %q: %w" e] | None => errs end).

(** The body of the loop of [performRetries]. *)
Definition retry_one (now : Z)
    (s : (CustomDomainDB * M) * gmap string customDomainRetry * list error)
    (kv : string * customDomainRetry)
    : (CustomDomainDB * M) * gmap string customDomainRetry * list error :=
  let '(st, rs, errs) := s in
  let '(certName, retry) := kv in
  if now <? next_retry retry then s
  else
    let '(needsRetry, err, st) := refreshCert W st certName in
    let '(rs, errs) :=
      match err with
      | Some e => (rs, errs ++ [ErrWrap "retrying refreshing cert %q: %w" e])
      | None => (delete certName rs, errs)
      end in
    (st, if needsRetry : bool then addRetry (initRetryIvl st.1) (maxRetryIvl st.1) rs certName now else rs,
     errs).

Definition performRetries (now : Z) (st : CustomDomainDB * M) (rs : gmap string customDomainRetry)
    : (CustomDomainDB * M) * gmap string customDomainRetry :=
  let '(st, rs, errs) := foldl (retry_one now) (st, rs, []) (map_to_list rs) in
  ((cd_collect st.1 "retrying certs: %w" (Join errs), st.2), rs).

(** The deferred assignment of the retries. *)
Definition set_retries (st : CustomDomainDB * M) (rs : gmap string customDomainRetry)
    : CustomDomainDB * M :=
  let idx := customCerts st.1 in
  (with_certs st.1 {| changed := changed idx; retries := rs; idx_data := idx_data idx |}, st.2).

Definition cd_Refresh (now : Z) (st : CustomDomainDB * M) : option error * (CustomDomainDB * M) :=
  let '(updated, rs, db) := resetIndexUpdates st.1 in
  let '(st, rs, errs) := foldl (refresh_updated now) ((db, st.2), rs, []) updated in
  let st := removeStaleCerts now st in
  match Join errs with
  | Some e =>
      let st := (cd_collect st.1 "%w" (Some e), st.2) in
      (Some (ErrWrap "refreshing certs: %w" e), set_retries st rs)
  | None =>
      let '(st, rs) := performRetries now st rs in
      (None, set_retries st rs)
  end.

End refresh.

(** ** Facts on the index *)

Definition in_index (idx : customDomainIndex) (it : customDomainIndexItem) : Prop :=
  exists k items, idx_data idx !! k = Some items /\ it ∈ items.

Definition valid_at (now : Z) (it : customDomainIndexItem) : Prop :=
  it_notBefore it <= now <= it_notAfter it.

(** Items are stored under their domain without the wildcard. *)
Definition idx_ok (idx : customDomainIndex) : Prop :=
  forall k items it, idx_data idx !! k = Some items -> it ∈ items ->
    TrimPrefix (it_domain it) "*." = k.

Lemma item_match_exact it name now :
  item_match it name now = (true, false) <-> valid_at now it /\ it_domain it = name.
Proof.
  unfold item_match, valid_at. destruct ((it_notAfter it <? now) || (now <? it_notBefore it)) eqn:E.
  { apply orb_true_iff in E as [E|E]; bool_simp; split; try done; lia. }
  bool_simp. case_bool_decide; [split; [|done]; intros _; split; [lia|done]|].
  split; [|naive_solver]. by case_if.
Qed.

Lemma item_match_wildcard it suf now :
  item_match it suf now = (true, true) <-> valid_at now it /\ it_domain it = ("*." +:+ suf)%string.
Proof.
  unfold item_match, valid_at. destruct ((it_notAfter it <? now) || (now <? it_notBefore it)) eqn:E.
  { apply orb_true_iff in E as [E|E]; bool_simp; split; try done; lia. }
  bool_simp. case_bool_decide as Hd.
  { split; [done|]. intros [_ E]. rewrite E in Hd. apply (f_equal String.length) in Hd.
    rewrite length_append in Hd. simpl in Hd. lia. }
  assert (HasPrefix (it_domain it) "*." && bool_decide (str_drop 2 (it_domain it) = suf) = true <->
    it_domain it = ("*." +:+ suf)%string) as Hw.
  { rewrite andb_true_iff, bool_decide_eq_true. split.
    - intros [[t Ht]%HasPrefix_spec Hsuf]. rewrite Ht in *. by rewrite <- Hsuf.
    - intros ->. split; [apply HasPrefix_append|done]. }
  destruct (HasPrefix _ _ && _); (split; [intros ?; split; [lia|by apply Hw]|]); try done.
  intros [_ Ed]. by apply Hw in Ed.
Qed.

Lemma idx_ok_new : idx_ok newCustomDomainIndex.
Proof. intros k items it E. simpl in E. by rewrite lookup_empty in E. Qed.

Lemma idx_ok_addItem idx it : idx_ok idx -> idx_ok (addItem idx it).2.
Proof.
  intros Hok. unfold addItem. set (k := TrimPrefix (it_domain it) "*.").
  assert (forall it', it' ∈ default [] (idx_data idx !! k) -> TrimPrefix (it_domain it') "*." = k) as Hprev.
  { intros it' Hin. destruct (idx_data idx !! k) as [l|] eqn:E; [by eapply Hok|by apply elem_of_nil in Hin]. }
  case_if; [|case_if; [done|]]; intros k' items it' Hl Hin; simpl in Hl;
    (apply lookup_insert_Some in Hl as [[<- <-]|[_ Hl]]; [|by eapply Hok]).
  - by apply list_elem_of_singleton in Hin as ->.
  - apply elem_of_app in Hin as [Hin|Hin]; [by apply Hprev|]. by apply list_elem_of_singleton in Hin as ->.
Qed.

Lemma idx_ok_add idx profID domains state : idx_ok idx -> idx_ok (idx_add idx profID domains state).
Proof.
  intros Hok. unfold idx_add.
  set (f := fun '(ch, idx) domain => _).
  assert (idx_ok (foldl f (false, idx) domains).2) as Hf.
  { apply (foldl_inv _ (fun s => idx_ok s.2)); [done|]. intros [ch idx'] domain _ Hs. simpl.
    pose proof (idx_ok_addItem idx' (new_item profID state domain) Hs) as Ha.
    by destruct (addItem idx' _). }
  destruct (foldl f (false, idx) domains) as [[] idx']; done.
Qed.

Lemma idx_ok_remove idx certName profID domains : idx_ok idx -> idx_ok (idx_remove idx certName profID domains).
Proof.
  intros Hok. unfold idx_remove.
  assert (idx_ok (foldl (remove_domain certName profID) idx domains)) as Hf; [|done].
  apply foldl_inv; [done|]. intros idx' domain _ Hs. unfold remove_domain.
  set (k := TrimPrefix domain "*."). case_if; [done|].
  intros k' items it' Hl Hin. simpl in Hl.
  apply lookup_insert_Some in Hl as [[<- <-]|[_ Hl]]; [|by eapply Hs].
  apply list_elem_of_filter in Hin as [_ Hin].
  destruct (idx_data idx' !! k) as [l|] eqn:El; [by eapply Hs|by apply elem_of_nil in Hin].
Qed.

(** The items under the key that belong to the whole index. *)
Lemma in_index_key idx k (P : customDomainIndexItem -> Prop) it :
  idx_ok idx -> (P it -> TrimPrefix (it_domain it) "*." = k) ->
  (it ∈ default [] (idx_data idx !! k) /\ P it) <-> (in_index idx it /\ P it).
Proof.
  intros Hok HP. split.
  - intros [Hin Hp]. split; [|done]. destruct (idx_data idx !! k) as [l|] eqn:E; [|by apply elem_of_nil in Hin].
    by exists k, l.
  - intros [(k' & l & E & Hin) Hp]. split; [|done]. assert (k' = k) as ->.
    { rewrite <- (HP Hp). symmetry. by eapply Hok. }
    by rewrite E.
Qed.

(** The loop over the wildcard items. *)
Lemma wildcard_loop suf now l matched ids :
  let r := foldl (fun '(matched, profIDs) item =>
    if bool_decide (item_match item suf now = (true, true))
    then (it_domain item, Some (default [] profIDs ++ [it_profileID item]))
    else (matched, profIDs)) (matched, ids) l in
  let hits := filter (fun it => item_match it suf now = (true, true)) l in
  r = match hits with
      | [] => (matched, ids)
      | _ => (("*." +:+ suf)%string, Some (default [] ids ++ (it_profileID <$> hits)))
      end.
Proof.
  revert matched ids. induction l as [|it l IH]; intros matched ids; [done|]. simpl.
  case_bool_decide as Hm; rewrite IH.
  - rewrite filter_cons_True by done. apply item_match_wildcard in Hm as [_ Hd].
    destruct (filter _ l) as [|it' hits]; simpl; [by rewrite Hd|]. by rewrite <- app_assoc.
  - by rewrite filter_cons_False.
Qed.

Definition exact_hits (idx : customDomainIndex) (name : string) (now : Z) (p : string) : Prop :=
  exists it, in_index idx it /\ valid_at now it /\ it_domain it = name /\ it_profileID it = p.

(** Indexes that the database can have. *)
Inductive idx_reachable : customDomainIndex -> Prop :=
  | idx_new : idx_reachable newCustomDomainIndex
  | idx_adds idx profID domains state :
      idx_reachable idx -> idx_reachable (idx_add idx profID domains state)
  | idx_removes idx certName profID domains :
      idx_reachable idx -> idx_reachable (idx_remove idx certName profID domains)
  | idx_updates idx ch rs :
      idx_reachable idx -> idx_reachable {| changed := ch; retries := rs; idx_data := idx_data idx |}.

Lemma idx_reachable_ok idx : idx_reachable idx -> idx_ok idx.
Proof. induction 1; auto using idx_ok_new, idx_ok_add, idx_ok_remove. Qed.

(** *** What the index holds

    The calls on the index, the resets of the updates by a refresh included, and the
    certificates that are current after them, as a list: an addition adds those that
    are not there, a removal removes those with its identity. *)

Inductive idx_op :=
  | OAdd (profID : string) (domains : list string) (state : CustomDomainStateCurrent)
  | ORemove (certName profID : string) (domains : list string)
  | OUpdates (ch : gset string) (rs : gmap string customDomainRetry).

Definition idx_exec (idx : customDomainIndex) (o : idx_op) : customDomainIndex :=
  match o with
  | OAdd profID domains state => idx_add idx profID domains state
  | ORemove certName profID domains => idx_remove idx certName profID domains
  | OUpdates ch rs => {| changed := ch; retries := rs; idx_data := idx_data idx |}
  end.

Definition current_add (items : list customDomainIndexItem) (it : customDomainIndexItem) : list customDomainIndexItem :=
  if existsb (fun it' => sameID it' it) items then items else items ++ [it].

Definition current_remove (certName profID : string) (items : list customDomainIndexItem) (domain : string)
    : list customDomainIndexItem :=
  filter (fun it => ~ (it_certName it = certName /\ it_profileID it = profID /\ it_domain it = domain)) items.

Definition current_exec (items : list customDomainIndexItem) (o : idx_op) : list customDomainIndexItem :=
  match o with
  | OAdd profID domains state => foldl (fun items d => current_add items (new_item profID state d)) items domains
  | ORemove certName profID domains => foldl (current_remove certName profID) items domains
  | OUpdates _ _ => items
  end.

Lemma idx_run_reachable ops : idx_reachable (foldl idx_exec newCustomDomainIndex ops).
Proof.
  apply foldl_inv; [constructor|]. intros idx o _ Hi. destruct o; by constructor.
Qed.

Definition idx_holds (idx : customDomainIndex) (items : list customDomainIndexItem) : Prop :=
  idx_ok idx /\ forall it, in_index idx it <-> it ∈ items.

(** The item under the key is the item of the index. *)
Lemma holds_key idx items it : idx_holds idx items ->
  it ∈ items <-> it ∈ default [] (idx_data idx !! TrimPrefix (it_domain it) "*.").
Proof.
  intros [Hok Hi]. rewrite <- Hi.
  pose proof (in_index_key idx (TrimPrefix (it_domain it) "*.") (fun it' => it' = it) it Hok) as Hk.
  destruct Hk as [H1 H2]; [by intros|]. split; intros; [by apply H2|by apply H1].
Qed.

Lemma holds_put idx items items' k l ch rs : idx_holds idx items ->
  (forall it, it ∈ l -> TrimPrefix (it_domain it) "*." = k) ->
  (forall it, TrimPrefix (it_domain it) "*." = k -> it ∈ l <-> it ∈ items') ->
  (forall it, TrimPrefix (it_domain it) "*." <> k -> it ∈ items <-> it ∈ items') ->
  idx_holds {| changed := ch; retries := rs; idx_data := <[k := l]> (idx_data idx) |} items'.
Proof.
  intros Hh Hl Hk Ho. assert (idx_ok {| changed := ch; retries := rs; idx_data := <[k := l]> (idx_data idx) |}) as Hok'.
  { intros k' l' it E Hin. cbn in E. apply lookup_insert_Some in E as [[<- <-]|[_ E]]; [by apply Hl|].
    by eapply (proj1 Hh). }
  split; [done|]. intros it. set (idx' := {| changed := ch |}) in *.
  assert (in_index idx' it <-> it ∈ default [] (idx_data idx' !! TrimPrefix (it_domain it) "*.")) as ->.
  { pose proof (in_index_key idx' (TrimPrefix (it_domain it) "*.") (fun it' => it' = it) it Hok') as Hk'.
    destruct Hk' as [H1 H2]; [by intros|]. split; intros; [by apply H2|by apply H1]. }
  cbn. destruct (decide (TrimPrefix (it_domain it) "*." = k)) as [Ek|Ek].
  - rewrite Ek, lookup_insert_eq. cbn. by apply Hk.
  - rewrite lookup_insert_ne by done. rewrite <- (holds_key idx items it Hh). by apply Ho.
Qed.

Lemma sameID_domain a b : sameID a b = true -> it_domain a = it_domain b.
Proof. unfold sameID. rewrite !andb_true_iff, !bool_decide_eq_true. tauto. Qed.

Lemma existsb_ext_in {A} (f : A -> bool) l l' : (forall x, f x = true -> x ∈ l <-> x ∈ l') -> existsb f l = existsb f l'.
Proof.
  intros H. apply eq_bool_prop_intro. rewrite !Is_true_true, !existsb_exists.
  split; intros (x & Hx%list_elem_of_In & Hf); exists x; (split; [|done]); apply list_elem_of_In; by apply (H x).
Qed.

Lemma holds_addItem idx items it : idx_holds idx items -> idx_holds (addItem idx it).2 (current_add items it).
Proof.
  intros Hh. unfold addItem, current_add. set (k := TrimPrefix (it_domain it) "*.").
  set (prev := default [] (idx_data idx !! k)).
  assert (forall it', TrimPrefix (it_domain it') "*." = k -> it' ∈ prev <-> it' ∈ items) as Hp.
  { intros it' E. rewrite (holds_key idx items it' Hh). by rewrite E. }
  assert (forall it', it' ∈ prev -> TrimPrefix (it_domain it') "*." = k) as Hpk.
  { intros it' Hin. unfold prev in Hin. destruct (idx_data idx !! k) as [l|] eqn:E; [by eapply (proj1 Hh)|].
    by apply elem_of_nil in Hin. }
  rewrite <- (existsb_ext_in _ prev items); [|intros x Hx%sameID_domain; apply Hp; by rewrite Hx].
  assert (idx_holds {| changed := changed idx; retries := retries idx; idx_data := <[k := prev ++ [it]]> (idx_data idx) |}
            (items ++ [it])) as Hput.
  { apply (holds_put idx items); [done|..]; intros it'; rewrite ?elem_of_app, ?list_elem_of_singleton.
    - intros [Hin| ->]; [by apply Hpk|done].
    - intros E. by rewrite (Hp it' E).
    - intros E. split; [by left|]. intros [?| ->]; done. }
  destruct prev as [|x prev']; [done|]. cbn [length Nat.eqb]. by destruct (existsb _ _).
Qed.

Lemma holds_changed idx items ch rs : idx_holds idx items ->
  idx_holds {| changed := ch; retries := rs; idx_data := idx_data idx |} items.
Proof. by intros [? ?]. Qed.

Lemma holds_add idx items profID domains state : idx_holds idx items ->
  idx_holds (idx_add idx profID domains state) (current_exec items (OAdd profID domains state)).
Proof.
  intros Hh. unfold idx_add, current_exec. set (f := fun '(ch, idx) domain => _).
  assert (forall ch, idx_holds (foldl f (ch, idx) domains).2
    (foldl (fun items d => current_add items (new_item profID state d)) items domains)) as Hf.
  { revert idx items Hh. induction domains as [|d domains IH]; intros idx items Hh ch; [done|]. cbn [foldl].
    pose proof (holds_addItem idx items (new_item profID state d) Hh) as Ha. cbn [f].
    destruct (addItem idx (new_item profID state d)) as [added idx']. by apply IH. }
  specialize (Hf false). destruct (foldl f (false, idx) domains) as [[] idx']; [by apply holds_changed|done].
Qed.

Lemma holds_remove idx items certName profID domains : idx_holds idx items ->
  idx_holds (idx_remove idx certName profID domains) (current_exec items (ORemove certName profID domains)).
Proof.
  intros Hh. unfold idx_remove, current_exec. apply holds_changed.
  revert idx items Hh. induction domains as [|d domains IH]; intros idx items Hh; [done|]. cbn [foldl]. apply IH.
  unfold remove_domain, current_remove. set (k := TrimPrefix d "*."). set (prev := default [] (idx_data idx !! k)).
  assert (forall it', TrimPrefix (it_domain it') "*." = k -> it' ∈ prev <-> it' ∈ items) as Hp.
  { intros it' E. rewrite (holds_key idx items it' Hh). by rewrite E. }
  assert (forall it', it' ∈ prev -> TrimPrefix (it_domain it') "*." = k) as Hpk.
  { intros it' Hin. unfold prev in Hin. destruct (idx_data idx !! k) as [l|] eqn:E; [by eapply (proj1 Hh)|].
    by apply elem_of_nil in Hin. }
  assert (forall it', sameID {| it_notBefore := 0; it_notAfter := 0; it_profileID := profID; it_certName := certName;
    it_domain := d |} it' = false <-> ~ (it_certName it' = certName /\ it_profileID it' = profID /\ it_domain it' = d)) as Hs.
  { intros it'. unfold sameID. cbn. rewrite <- not_true_iff_false. rewrite !andb_true_iff, !bool_decide_eq_true.
    split; intros H1 H2; apply H1; destruct_and!; by subst. }
  destruct (length prev =? 0)%nat eqn:El.
  - destruct prev; [|done]. destruct Hh as [Hok Hi]. split; [done|]. intros it'. rewrite Hi, list_elem_of_filter.
    split; [|by intros [_ ?]]. intros Hin. split; [|done]. intros (_ & _ & E).
    assert (it' ∈ []) as Hn by (apply Hp; [by rewrite E|done]). by apply elem_of_nil in Hn.
  - apply (holds_put idx items); [done|..]; intros it'; rewrite !list_elem_of_filter.
    + intros [_ Hin]. by apply Hpk.
    + intros E. by rewrite Hs, Hp.
    + intros E. split; [|by intros [_ ?]]. intros Hin. split; [|done]. intros (_ & _ & E'). apply E. by rewrite E'.
Qed.

Lemma idx_run_holds ops :
  idx_holds (foldl idx_exec newCustomDomainIndex ops) (foldl current_exec [] ops).
Proof.
  induction ops as [|o ops IH] using rev_ind.
  - split; [apply idx_ok_new|]. intros it. split; [|by intros ?%elem_of_nil].
    intros (k & l & E & _). cbn in E. by rewrite lookup_empty in E.
  - rewrite !foldl_app. cbn [foldl]. destruct o; cbn [idx_exec];
      [by apply holds_add|by apply holds_remove|by apply holds_changed].
Qed.

Lemma wildcard_part idx suf now : idx_ok idx ->
  let r := foldl (fun '(matched, profIDs) item =>
    if bool_decide (item_match item suf now = (true, true))
    then (it_domain item, Some (default [] profIDs ++ [it_profileID item]))
    else (matched, profIDs)) (EmptyString, None) (default [] (idx_data idx !! suf)) in
  (r = (EmptyString, None) /\ forall p, ~ exact_hits idx ("*." +:+ suf) now p) \/
  (exists ids, r = (("*." +:+ suf)%string, Some ids) /\
     forall p, p ∈ ids <-> exact_hits idx ("*." +:+ suf) now p).
Proof.
  intros Hok r. subst r. rewrite wildcard_loop.
  assert (forall p, p ∈ it_profileID <$> filter (fun it => item_match it suf now = (true, true))
    (default [] (idx_data idx !! suf)) <-> exact_hits idx ("*." +:+ suf) now p) as Hp.
  { intros p. rewrite list_elem_of_fmap. unfold exact_hits. split.
    - intros (it & -> & [Hm Hin]%list_elem_of_filter). exists it. apply item_match_wildcard in Hm as [Hv Hd].
      split_and!; try done. apply (in_index_key idx suf (fun it => it_domain it = ("*." +:+ suf)%string)); [done| |done].
      intros ->. apply TrimPrefix_append.
    - intros (it & Hin & Hv & Hd & <-). exists it. split; [done|]. apply list_elem_of_filter.
      split; [by apply item_match_wildcard|].
      apply (in_index_key idx suf (fun it => it_domain it = ("*." +:+ suf)%string)); [done| |done].
      intros ->. apply TrimPrefix_append. }
  destruct (filter _ _) as [|it hits].
  - left. split; [done|]. intros p Hh. apply Hp in Hh. by apply elem_of_nil in Hh.
  - right. eexists. split; [done|]. apply Hp.
Qed.

Lemma exact_part idx name now p : idx_ok idx -> HasPrefix name "*." = false ->
  p ∈ it_profileID <$> filter (fun it => item_match it name now = (true, false))
    (default [] (idx_data idx !! name)) <-> exact_hits idx name now p.
Proof.
  intros Hok Hn. rewrite list_elem_of_fmap. unfold exact_hits. split.
  - intros (it & -> & [Hm Hin]%list_elem_of_filter). exists it. apply item_match_exact in Hm as [Hv Hd].
    split_and!; try done. apply (in_index_key idx name (fun it => it_domain it = name)); [done| |done].
    intros ->. by apply TrimPrefix_no.
  - intros (it & Hin & Hv & Hd & <-). exists it. split; [done|]. apply list_elem_of_filter.
    split; [by apply item_match_exact|].
    apply (in_index_key idx name (fun it => it_domain it = name)); [done| |done].
    intros ->. by apply TrimPrefix_no.
Qed.

(** The match in terms of the items that are stored. *)
Lemma idx_match_stored idx name now :
  idx_ok idx -> HasPrefix name "*." = false ->
  (exists ids, idx_match idx name now = (name, Some ids) /\ (exists p, exact_hits idx name now p) /\
     forall p, p ∈ ids <-> exact_hits idx name now p) \/
  ((forall p, ~ exact_hits idx name now p) /\
   ((exists label suf ids, name = label +:+ String "."%char suf /\ CountByte label "."%char = 0%nat /\
       idx_match idx name now = (("*." +:+ suf)%string, Some ids) /\
       (exists p, exact_hits idx ("*." +:+ suf) now p) /\
       forall p, p ∈ ids <-> exact_hits idx ("*." +:+ suf) now p) \/
    (idx_match idx name now = (EmptyString, None) /\
     forall label suf, name = label +:+ String "."%char suf -> CountByte label "."%char = 0%nat ->
       forall p, ~ exact_hits idx ("*." +:+ suf) now p))).
Proof.
  intros Hok Hn. unfold idx_match.
  pose proof (fun p => exact_part idx name now p Hok Hn) as Hp.
  destruct (it_profileID <$> _) as [|p0 ids] eqn:Eids; simpl.
  2:{ left. exists (p0 :: ids). split_and!; [done| |done]. exists p0. apply Hp. constructor. }
  right. split; [intros p Hh; apply Hp in Hh; by apply elem_of_nil in Hh|].
  destruct (Cut name ".") as [[label suf] [|]] eqn:Ec.
  - apply Cut_byte_inv in Ec as [Ename Hc].
    destruct (wildcard_part idx suf now Hok) as [[E Hno]|(ids & E & Hids)]; rewrite E.
    + right. split; [done|]. intros l2 s2 E2 Hc2.
      assert (s2 = suf) as ->; [|done].
      pose proof (Cut_byte label suf "." Hc) as C1. pose proof (Cut_byte l2 s2 "." Hc2) as C2.
      rewrite <- E2, Ename in C2. congruence.
    + left. exists label, suf, ids. split_and!; try done.
      destruct ids as [|p ids]; [|exists p; apply Hids; constructor].
      exfalso. clear Eids Hp. revert E. rewrite wildcard_loop. destruct (filter _ _); intros E;
        apply (f_equal snd) in E; by simplify_eq/=.
  - right. split; [done|]. intros l2 s2 E2 Hc2.
    pose proof (Cut_byte l2 s2 "." Hc2) as C2. rewrite <- E2 in C2. congruence.
Qed.

(** A certificate for the domain that is current and valid now has the profile. *)
Definition certified (items : list customDomainIndexItem) (now : Z) (domain p : string) : Prop :=
  exists it, it ∈ items /\ valid_at now it /\ it_domain it = domain /\ it_profileID it = p.

(** C16. Matching a server name against the index considers exactly the current
    certificates: after any calls on the index, those that were added, unless one for
    the same name, domain and profile was there, and not removed since.  For a name
    that is not a wildcard itself, if current certificates for the name are valid now,
    the match is the name with the profiles of all of these; otherwise, if current
    certificates for the wildcard of its parent domain, that is the name without its
    first label, are valid now, it is this wildcard with the profiles of all of these;
    otherwise there is no match. *)
Theorem idx_match_exact ops name now :
  let idx := foldl idx_exec newCustomDomainIndex ops in
  let hits := certified (foldl current_exec [] ops) now in
  HasPrefix name "*." = false ->
  (exists ids, idx_match idx name now = (name, Some ids) /\ (exists p, hits name p) /\
     forall p, p ∈ ids <-> hits name p) \/
  ((forall p, ~ hits name p) /\
   ((exists label suf ids, name = label +:+ String "."%char suf /\ CountByte label "."%char = 0%nat /\
       idx_match idx name now = (("*." +:+ suf)%string, Some ids) /\
       (exists p, hits ("*." +:+ suf)%string p) /\
       forall p, p ∈ ids <-> hits ("*." +:+ suf)%string p) \/
    (idx_match idx name now = (EmptyString, None) /\
     forall label suf, name = label +:+ String "."%char suf -> CountByte label "."%char = 0%nat ->
       forall p, ~ hits ("*." +:+ suf)%string p))).
Proof.
  intros idx hits Hn. destruct (idx_run_holds ops) as [Hok Hin].
  assert (forall d p, exact_hits idx d now p <-> hits d p) as Hh.
  { intros d p. unfold exact_hits, hits, certified. split; intros (it & H1 & H2); exists it; (split; [by apply Hin|done]). }
  destruct (idx_match_stored idx name now Hok Hn) as [(ids & E & [q Hq] & Hp)|[H1 [(l & suf & ids & E1 & E2 & E3 & [q Hq] & Hp)|[E H2]]]].
  - left. exists ids. split; [done|]. split; [exists q; by apply Hh|]. intros p. by rewrite Hp, Hh.
  - right. split; [intros p; rewrite <- Hh; apply H1|]. left. exists l, suf, ids. split_and!; try done.
    + exists q. by apply Hh.
    + intros p. by rewrite Hp, Hh.
  - right. split; [intros p; rewrite <- Hh; apply H1|]. right. split; [done|]. intros l suf E1 E2 p. rewrite <- Hh. by eapply H2.
Qed.

(** The database keeps the contract that the device finder relies on: the
    match is empty with no profiles, or the name itself, or the wildcard of the
    name's parent domain, with the profiles. *)
Theorem Match_contract now db : idx_reachable (customCerts db) -> matcher_ok (Match now db).
Proof.
  intros Hok%idx_reachable_ok name. unfold Match, idx_match.
  destruct (it_profileID <$> _) as [|p0 ids] eqn:Eids; simpl; [|right; eexists; split; [done|by left]].
  destruct (Cut name ".") as [[label suf] [|]] eqn:Ec; [|by left].
  apply Cut_byte_inv in Ec as [Ename Hc].
  destruct (wildcard_part (customCerts db) suf now Hok) as [[E Hno]|(ids & E & Hids)]; rewrite E; [by left|].
  right. exists ids. split; [done|]. right. by exists suf, label.
Qed.

(** ** Facts on retries *)

(** The retries of a certificate are delayed by the initial interval doubled
    with each failure, up to the maximum, counted from the time of the failed
    attempt. *)
Theorem retry_delays initIvl maxIvl certName ts t :
  0 < initIvl < 2 ^ 63 -> 0 < maxIvl < 2 ^ 63 ->
  exists s, foldl (fun rs now => addRetry initIvl maxIvl rs certName now) ∅ (ts ++ [t]) !! certName =
    Some {| sched := s; next_retry := t + Z.min (initIvl * 2 ^ Z.of_nat (length ts)) maxIvl |}.
Proof.
  intros Hi Hm. rewrite foldl_app. simpl.
  assert (match foldl (fun rs now => addRetry initIvl maxIvl rs certName now) ∅ ts !! certName with
    | Some r => sched r | None => NewExponentialSchedule initIvl maxIvl 2 end =
    after_calls (length ts) (NewExponentialSchedule initIvl maxIvl 2)) as Hs.
  { clear t. induction ts as [|t ts IH] using rev_ind; [done|].
    rewrite foldl_app, length_app, Nat.add_1_r, after_calls_S, <- IH. simpl. unfold addRetry at 1.
    destruct (UntilNext _) as [d s']. by rewrite lookup_insert_eq. }
  unfold addRetry at 1. rewrite Hs.
  pose proof (until_next_doubling initIvl maxIvl (length ts) Hi Hm) as E.
  destruct (UntilNext _) as [d s']. simpl in E. subst d. exists s'. by rewrite lookup_insert_eq.
Qed.

(** A certificate that the storage no longer has is retried at every refresh.
    When a due retry gets the error that the certificate was not found, the retry
    is neither removed nor postponed, so it is due again at any later time. *)
Theorem not_found_retry_stays {M} (W : World M) now st certName r e :
  w_Stat W st.2 (cachePaths st.1 certName).1 = Some (ErrConst ErrNotExist) ->
  w_CertificateData W st.2 certName = Err e -> Is e ErrCertificateNotFound = true ->
  next_retry r <= now ->
  exists st', performRetries W now st {[certName := r]} = (st', {[certName := r]}) /\ st'.2 = st.2.
Proof.
  intros Hs Hd He Hr. unfold performRetries. rewrite map_to_list_singleton. simpl.
  destruct st as [db w]. simpl in *. case_if; bool_simp; [lia|].
  unfold refreshCert. destruct (cachePaths db certName) as [cp kp]. simpl in Hs.
  unfold needsRefresh. rewrite Hs. simpl. rewrite Hd, He. simpl. eexists. split; [done|]. done.
Qed.

(** ** The profile database's interface *)

(** profiledb.CustomDomainDB at the time [now]. *)
Definition customdb_ops {M} (W : World M) (now : Z) : CustomDomainDBOps (CustomDomainDB * M) := {|
  cdb_AddCertificate st profID domains state := AddCertificate W now st profID domains state;
  cdb_DeleteAllWellKnownPaths st := (DeleteAllWellKnownPaths st.1, st.2);
  cdb_SetWellKnownPath st s := (SetWellKnownPath now st.1 s, st.2);
|}.

Section well_known.
Context {M : Type} (W : World M) (now : Z).

Definition pending_of (conf : CustomDomainConfig) : list CustomDomainStatePending :=
  match State conf with StatePending s => [s] | _ => [] end.

(** The pending states of the profiles that have custom domains enabled. *)
Definition pendings (ps : list Profile) : list CustomDomainStatePending :=
  ps ≫= fun p => if cd_Enabled (CustomDomains p) then cd_Domains (CustomDomains p) ≫= pending_of else [].

Definition set_path (m : gmap string Z) (s : CustomDomainStatePending) : gmap string Z :=
  if Expire s <? now then delete (WellKnownPath s) m else <[WellKnownPath s := Expire s]> m.

Lemma SetWellKnownPath_paths db s :
  wellKnownPathToExpire (SetWellKnownPath now db s) = set_path (wellKnownPathToExpire db) s.
Proof. unfold SetWellKnownPath, set_path. by case_if. Qed.

Lemma removeCertData_paths st c p ds :
  wellKnownPathToExpire (removeCertData W st c p ds).1 = wellKnownPathToExpire st.1.
Proof.
  unfold removeCertData. destruct st as [db w]. destruct (cachePaths _ c) as [cp kp].
  destruct (w_Remove W w c) as [e1 w1]. destruct (w_RemoveFile W w1 cp) as [e2 w2].
  destruct (w_RemoveFile W w2 kp) as [e3 w3]. simpl. by destruct (Join _).
Qed.

Lemma AddCertificate_paths st profID domains state :
  wellKnownPathToExpire (AddCertificate W now st profID domains state).1 = wellKnownPathToExpire st.1.
Proof. unfold AddCertificate. do 2 (case_if; [apply removeCertData_paths|]). done. Qed.

Lemma setProfileCerts_paths st p :
  wellKnownPathToExpire (setProfileCerts (customdb_ops W now) st p).1.1 =
  foldl set_path (wellKnownPathToExpire st.1)
    (if cd_Enabled (CustomDomains p) then cd_Domains (CustomDomains p) ≫= pending_of else []).
Proof.
  unfold setProfileCerts. destruct (cd_Enabled (CustomDomains p)); [|done]. simpl.
  set (f := fun '(c, errs) conf => _).
  assert (forall confs st errs, wellKnownPathToExpire (foldl f (st, errs) confs).1.1 =
    foldl set_path (wellKnownPathToExpire st.1) (confs ≫= pending_of)) as Hf.
  { intros confs. induction confs as [|conf confs IH]; intros st' errs; [done|].
    simpl. rewrite foldl_app. unfold pending_of at 1. destruct (State conf) as [s|s|]; simpl.
    - rewrite IH. by rewrite AddCertificate_paths.
    - rewrite IH. simpl. by rewrite SetWellKnownPath_paths.
    - by rewrite IH. }
  specialize (Hf (cd_Domains (CustomDomains p)) st []).
  by destruct (foldl f (st, []) _) as [c errs].
Qed.

Lemma setProfilesFull_paths st errs ps ds :
  wellKnownPathToExpire (setProfilesFull (customdb_ops W now) st errs ps ds).1.2.1 =
  foldl set_path ∅ (pendings ps).
Proof.
  unfold setProfilesFull.
  assert (forall s, wellKnownPathToExpire (foldl (setProfileFull (customdb_ops W now)) s ps).1.2.1 =
    foldl set_path (wellKnownPathToExpire s.1.2.1) (pendings ps)) as Hf.
  { induction ps as [|p ps IH]; intros [[m st'] es]; [done|]. simpl. rewrite IH.
    unfold pendings. simpl. rewrite foldl_app. f_equal.
    pose proof (setProfileCerts_paths st' p) as Hc. by destruct (setProfileCerts _ st' p). }
  specialize (Hf (empty_maps, cdb_DeleteAllWellKnownPaths (customdb_ops W now) st, errs)).
  destruct (foldl _ _ ps) as [[m st'] es]. done.
Qed.

Lemma set_path_lookup l m path :
  (forall s s', s ∈ l -> s' ∈ l -> WellKnownPath s = WellKnownPath s' -> Expire s = Expire s') ->
  (forall s, s ∈ l -> WellKnownPath s <> path) \/
  (exists s, s ∈ l /\ WellKnownPath s = path /\
    foldl set_path m l !! path = if Expire s <? now then None else Some (Expire s)).
Proof.
  intros Hu. induction l as [|s l IH] using rev_ind; [left; intros s Hs; by apply elem_of_nil in Hs|].
  rewrite foldl_app. simpl. destruct (decide (WellKnownPath s = path)) as [Hp|Hp].
  - right. exists s. split_and!; [set_solver|done|]. unfold set_path at 1. subst path.
    case_if; [apply lookup_delete_eq|apply lookup_insert_eq].
  - destruct IH as [IH|(s' & Hs' & Hp' & E)]; [set_solver| |].
    + left. intros s' [Hs'|Hs']%elem_of_app; [by apply IH|]. by apply list_elem_of_singleton in Hs' as ->.
    + right. exists s'. split_and!; [set_solver|done|]. rewrite <- E. unfold set_path at 1.
      case_if; [by rewrite lookup_delete_ne|by rewrite lookup_insert_ne].
Qed.

(** After a full synchronization of the profile database, a plain GET request
    for a well-known path is valid exactly when some profile with custom domains
    enabled has a pending domain with this path that has not expired; paths from
    before the synchronization are gone. *)
Theorem full_sync_well_known st errs ps ds path :
  (forall s s', s ∈ pendings ps -> s' ∈ pendings ps -> WellKnownPath s = WellKnownPath s' ->
     Expire s = Expire s') ->
  let db := (setProfilesFull (customdb_ops W now) st errs ps ds).1.2.1 in
  (IsValidWellKnownRequest now db false "GET" path).1 = true <->
  exists p conf s, p ∈ ps /\ cd_Enabled (CustomDomains p) = true /\
    conf ∈ cd_Domains (CustomDomains p) /\ State conf = StatePending s /\
    WellKnownPath s = path /\ now <= Expire s.
Proof.
  intros Hu db.
  assert ((exists p conf s, p ∈ ps /\ cd_Enabled (CustomDomains p) = true /\
    conf ∈ cd_Domains (CustomDomains p) /\ State conf = StatePending s /\
    WellKnownPath s = path /\ now <= Expire s) <->
    exists s, s ∈ pendings ps /\ WellKnownPath s = path /\ now <= Expire s) as ->.
  { unfold pendings. split.
    - intros (p & conf & s & Hp & He & Hc & Hs & ? & ?). exists s. split; [|done].
      apply list_elem_of_bind. exists p. split; [|done]. rewrite He.
      apply list_elem_of_bind. exists conf. split; [|done]. unfold pending_of. rewrite Hs.
      by apply list_elem_of_singleton.
    - intros (s & (p & Hin & Hp)%list_elem_of_bind & ? & ?).
      destruct (cd_Enabled (CustomDomains p)) eqn:He; [|by apply elem_of_nil in Hin].
      apply list_elem_of_bind in Hin as (conf & Hin & Hc). unfold pending_of in Hin.
      destruct (State conf) as [|s'|] eqn:Hs; [by apply elem_of_nil in Hin| |by apply elem_of_nil in Hin].
      apply list_elem_of_singleton in Hin as ->. by exists p, conf, s'. }
  unfold IsValidWellKnownRequest. simpl. unfold db. rewrite setProfilesFull_paths.
  destruct (set_path_lookup (pendings ps) ∅ path Hu) as [Hno|(s & Hs & Hp & ->)].
  - assert (foldl set_path ∅ (pendings ps) !! path = None) as ->.
    { apply (foldl_inv _ (fun m : gmap string Z => m !! path = None)); [done|].
      intros m s Hs Hm. unfold set_path. pose proof (Hno s Hs).
      case_if; [by rewrite lookup_delete_ne|by rewrite lookup_insert_ne]. }
    split; [done|]. intros (s & Hs & Hp & _). by destruct (Hno s).
  - destruct (Expire s <? now) eqn:E; bool_simp; simpl.
    + split; [done|]. intros (s' & Hs' & Hp' & Hle).
      assert (Expire s' = Expire s) by (apply Hu; congruence). lia.
    + case_if; bool_simp; [lia|]. split; [|done]. intros _. by exists s.
Qed.

End well_known.

(** ** Scenarios and concrete inputs *)

(** A world without files in which the storage always returns [e] and everything
    else succeeds. *)
Definition failing_world (e : error) : World unit := {|
  w_Stat _ _ := Some (ErrConst ErrNotExist);
  w_RemoveFile _ _ := (None, tt);
  w_WriteFile _ _ _ := (None, tt);
  w_Add _ _ := (None, tt);
  w_Bind _ _ _ := (None, tt);
  w_Remove _ _ := (None, tt);
  w_CertificateData _ _ := Err e;
  w_ParseCertificates _ := Ok [];
  w_pem _ b := b;
  w_X509KeyPair _ _ := None;
|}.

Definition empty_db : CustomDomainDB := {|
  wellKnownPathToExpire := ∅; customCerts := newCustomDomainIndex; cacheDir := "cache";
  bindPrefixes := []; initRetryIvl := 10; maxRetryIvl := 100; cd_collected := [];
|}.

Definition some_state (notAfter : Z) : CustomDomainStateCurrent :=
  {| NotBefore := 0; NotAfter := notAfter; CertName := "cert1"; cur_Enabled := true |}.

(** A certificate that a refresh removes because it has expired can keep its
    retry: the retries have been moved out of the index before the removal
    deletes them there, and are put back afterwards.  Here the certificate is
    gone from the index, and its retry is still scheduled. *)
Theorem stale_cert_keeps_retry :
  let W := failing_world (ErrConst "network") in
  let st := (with_certs empty_db (idx_add newCustomDomainIndex "prof1" ["a.example"%string] (some_state 50)), tt) in
  let st := (cd_Refresh W 40 st).2 in
  let st := (cd_Refresh W 60 st).2 in
  idx_data (customCerts st.1) !! "a.example"%string = Some [] /\
  is_Some (retries (customCerts st.1) !! "cert1"%string).
Proof. split; vm_compute; [reflexivity|eexists; reflexivity]. Qed.

Lemma idx_match_exact_witness :
  let idx := foldl idx_exec newCustomDomainIndex [OAdd "prof1" ["*.a.example"%string] (some_state 50)] in
  idx_match idx "dev.a.example" 10 = ("*.a.example"%string, Some ["prof1"%string]).
Proof.
  intros idx. destruct (idx_match_exact [OAdd "prof1" ["*.a.example"%string] (some_state 50)] "dev.a.example" 10)
    as [(ids & E & _)|[_ [H|[E _]]]]; [reflexivity|..]; vm_compute; reflexivity.
Defined.

Lemma Match_contract_witness : matcher_ok (Match 10 empty_db).
Proof. exact (Match_contract 10 empty_db idx_new). Defined.

Lemma retry_delays_witness :
  exists s, foldl (fun rs now => addRetry 10 100 rs "cert1" now) ∅ ([0; 10; 30] ++ [70]) !! "cert1"%string =
    Some {| sched := s; next_retry := 150 |}.
Proof. exact (retry_delays 10 100 "cert1"%string [0; 10; 30] 70 ltac:(lia) ltac:(lia)). Defined.

Lemma not_found_retry_stays_witness :
  let W := failing_world (ErrConst ErrCertificateNotFound) in
  let r := {| sched := NewExponentialSchedule 10 100 2; next_retry := 5 |} in
  exists st', performRetries W 7 (empty_db, tt) {["cert1"%string := r]} = (st', {["cert1"%string := r]}) /\
    st'.2 = tt.
Proof.
  intros W r. apply (not_found_retry_stays W 7 (empty_db, tt) "cert1"%string r (ErrConst ErrCertificateNotFound));
    [reflexivity|reflexivity|reflexivity|simpl; lia].
Defined.

(** A profile with a domain that awaits validation. *)
Definition pending_profile : Profile := {|
  CustomDomains := {|
    cd_Domains := [{| State := StatePending {| Expire := 20; WellKnownPath := "/x" |};
                      cdc_Domains := ["a.example"%string] |}];
    cd_Enabled := true |};
  DeviceIDs := ∅; p_FilterConfig := unfiltered_config; p_Access := None; AdultBlockingMode := None;
  p_BlockingMode := null_ip_mode; SafeBrowsingBlockingMode := None; p_Ratelimiter := GlobalRatelimiter;
  p_ID := "A"; FilteredResponseTTL := 10; AccountID := 1;
  AutoDevicesEnabled := false; BlockChromePrefetch := false; BlockFirefoxCanary := false;
  BlockPrivateRelay := false; Deleted := false; p_FilteringEnabled := true;
  IPLogEnabled := false; QueryLogEnabled := false; QueryLogStream := false;
|}.

Lemma full_sync_well_known_witness :
  let W := failing_world (ErrConst "network") in
  let db := (setProfilesFull (customdb_ops W 10) (empty_db, tt) [] [pending_profile] []).1.2.1 in
  (IsValidWellKnownRequest 10 db false "GET" "/x").1 = true.
Proof.
  intros W db.
  destruct (full_sync_well_known W 10 (empty_db, tt) [] [pending_profile] [] "/x"%string) as [_ H].
  - intros s s' Hs Hs'. apply list_elem_of_singleton in Hs as ->.
    by apply list_elem_of_singleton in Hs' as ->.
  - apply H. eexists pending_profile, _, _.
    split; [constructor|]. split; [reflexivity|]. split; [constructor|].
    split; [reflexivity|]. split; [reflexivity|]. simpl. lia.
Defined.
