(* ===== verification/BackendClients.v ===== *)
(** The clients of remote services: internal/backendgrpc (error.go, billstat.go,
    ratelimiter.go, remotekv.go, standardaccess.go, customdomain.go,
    filterindex.go, backendgrpc.go) with internal/backendgrpc/dnspb/filterindex.go,
    internal/consul/allowlist.go and internal/remotekv/consulkv.

    The answers of the services are inputs or parameters; metrics are left out. *)

From S2P Require Import Prelude GoStd NetIP Filter Access Refreshable DomainFilters RateLimit Recorders AgdProtobuf FileCachePB BackendPB CustomDomains DnsCheck Http.

Open Scope Z_scope.

(** ** error.go *)

Definition DeadlineExceeded : Z := 4.
Definition context_DeadlineExceeded : string := "context deadline exceeded".

(** The details of a gRPC status that the code knows, and the others. *)
Inductive Detail :=
  | AuthenticationFailedDetail (msg : string)
  | BadRequestDetail (msg : string)
  | DeviceQuotaExceededDetail (msg : string)
  | NotFoundDetail (msg : string)
  | RateLimitedDetail (msg : string) (retryDelay : Z)
  | OtherDetail.

(** An error of a call: a status with its code, its details and the error itself,
    or another error. *)
Inductive GRPCError := GRPCStatus (code : Z) (details : list Detail) (err : error) | NotGRPC (err : error).

Definition grpc_err (e : GRPCError) : error := match e with GRPCStatus _ _ err | NotGRPC err => err end.

(** The errors of profiledb, and the others. *)
Inductive AppError :=
  | AuthenticationFailedError (msg : string)
  | BadRequestError (msg : string)
  | DeviceQuotaExceededError (msg : string)
  | RateLimitedError (msg : string) (retryDelay : Z)
  | PlainError (err : error).

Fixpoint fix_details (ds : list Detail) (err : error) : AppError :=
  match ds with
  | [] => PlainError err
  | AuthenticationFailedDetail msg :: _ => AuthenticationFailedError msg
  | BadRequestDetail msg :: _ => BadRequestError msg
  | DeviceQuotaExceededDetail msg :: _ => DeviceQuotaExceededError msg
  | NotFoundDetail msg :: _ => PlainError (ErrWrap "%s: %w" (ErrConst ErrCertificateNotFound))
  | RateLimitedDetail msg delay :: _ => RateLimitedError msg delay
  | OtherDetail :: ds => fix_details ds err
  end.

Definition fixGRPCError (e : GRPCError) : AppError :=
  match e with
  | NotGRPC err => PlainError err
  | GRPCStatus code details err =>
      if code =? DeadlineExceeded
      then PlainError (ErrWrap "grpc: %w; original message: %s" (ErrConst context_DeadlineExceeded))
      else fix_details details err
  end.

(** As a plain error, for the callers that look for constants only. *)
Definition app_error (e : AppError) : error :=
  match e with
  | AuthenticationFailedError msg => ErrConst ("authentication failed: " +:+ msg)
  | BadRequestError msg => ErrConst ("bad request: " +:+ msg)
  | DeviceQuotaExceededError msg => ErrConst ("device quota exceeded: " +:+ msg)
  | RateLimitedError msg _ => ErrConst ("rate limited: " +:+ msg)
  | PlainError err => err
  end.

Definition fixed (e : GRPCError) : error := app_error (fixGRPCError e).

(** ** backendgrpc.go *)

Inductive Credentials := Insecure | TLSCredentials.

(** [dial] is the error of [grpc.NewClient]. *)
Definition newClient (apiURL : URL) (dial : option error) : result error Credentials :=
  let? creds :=
    if bool_decide (u_Scheme apiURL = "grpc"%string) then Ok Insecure
    else if bool_decide (u_Scheme apiURL = "grpcs"%string) then Ok TLSCredentials
    else Err (ErrConst "bad grpc url scheme %q") in
  match dial with Some err => Err (ErrWrap "dialing: %w" err) | None => Ok creds end.

(** The metadata of the outgoing context. *)
Definition ctxWithAuthentication (parent : list (string * string)) (apiKey : string) : list (string * string) :=
  if bool_decide (apiKey = EmptyString) then parent else [("authorization"%string, "Bearer " +:+ apiKey)].

(** ** billstat.go *)

Record DeviceBillingStat := {
  dbs_LastActivityTime : Z;
  dbs_DeviceId : string;
  dbs_ClientCountry : string;
  dbs_Proto : Z;
  dbs_Asn : Z;
  dbs_Queries : Z;
}.

Definition recordToProtobuf (r : BillRec) (devID : string) : DeviceBillingStat := {|
  dbs_LastActivityTime := br_Time r; dbs_DeviceId := devID; dbs_ClientCountry := br_Country r; dbs_Proto := br_Proto r;
  dbs_Asn := br_ASN r; dbs_Queries := Z.modulo (br_Queries r) (2 ^ 32) |}.

(** [send] is the error of sending the message with a number; a nil record is
    collected and skipped.  The error, the messages that were sent, and the
    collected errors. *)
Fixpoint upload_loop (send : nat -> option GRPCError) (records : list (string * option BillRec)) (n : nat)
    : option error * list DeviceBillingStat * list error :=
  match records with
  | [] => (None, [], [])
  | (deviceID, None) :: records =>
      let '(err, sent, errs) := upload_loop send records n in
      (err, sent, ErrWrap "uploading records: %w" (ErrConst "device %q: null record") :: errs)
  | (deviceID, Some record) :: records =>
      match send n with
      | Some sendErr => (Some (ErrWrap "uploading device %q record: %w" (fixed sendErr)), [], [])
      | None =>
          let '(err, sent, errs) := upload_loop send records (S n) in
          (err, recordToProtobuf record deviceID :: sent, errs)
      end
  end.

Definition Upload (open : option GRPCError) (send : nat -> option GRPCError) (close : option error)
    (records : gmap string (option BillRec)) : option error * list DeviceBillingStat * list error :=
  if bool_decide (records = ∅) then (None, [], [])
  else match open with
  | Some err => (Some (ErrWrap "opening stream: %w" (fixed err)), [], [])
  | None =>
      let '(err, sent, errs) := upload_loop send (map_to_list records) 0 in
      match err with
      | Some err => (Some err, sent, errs)
      | None =>
          (match close with
           | Some err => if Is err "EOF" then None else Some (ErrWrap "finishing stream: %w" err)
           | None => None
           end, sent, errs)
      end
  end.

(** ** ratelimiter.go *)

(** The allowlist of the rate limiter, and the collected errors. *)
Definition ratelimiter_Refresh (resp : result GRPCError (list pbCidrRange)) (l : DynamicAllowlist)
    : option error * DynamicAllowlist * list error :=
  match resp with
  | Err err => (Some (ErrWrap "loading backend rate limit settings: %w" (fixed err)), l, [])
  | Ok allowedSubnets =>
      let '(prefixes, errs) := CIDRRangeToInternal allowedSubnets in (None, Update l prefixes, errs)
  end.

(** ** remotekv.go *)

Inductive RemoteKVGetResponse := KVData (data : string) | KVEmpty | KVUnset.

(** A storage over a client with its state. *)
Definition BackendKV (state : Type) (get : state -> string -> result GRPCError RemoteKVGetResponse)
    (set : state -> string -> string -> result GRPCError state) : KV := {|
  kv_state := state;
  kv_Get s key :=
    (match get s key with
     | Err err => Err (ErrWrap "getting %q key: %w" (fixed err))
     | Ok (KVData data) => Ok (Some data)
     | Ok KVEmpty => Ok None
     | Ok KVUnset => Err (ErrWrap "getting %q key: response type: %w: %T(%[3]v)" (ErrConst "bad enum value"))
     end, s);
  kv_Set s key val :=
    match set s key val with
    | Err err => (Some (ErrWrap "setting %q key: %w" (fixed err)), s)
    | Ok s => (None, s)
    end |}.

(** ** standardaccess.go and customdomain.go *)

Definition StandardAccess_Config (resp : result GRPCError (option AccessSettings))
    : result error (option StandardBlockerConfig) * list error :=
  match resp with
  | Err err => (Err (ErrWrap "loading global access settings: %w" (fixed err)), [])
  | Ok standard => let '(c, errs) := ToStandardConfig standard in (Ok c, errs)
  end.

Definition CertificateData (resp : result GRPCError (string * string)) : result error (string * string) :=
  match resp with
  | Err err => Err (ErrWrap "getting cert data for name %q: %w" (fixed err))
  | Ok data => Ok data
  end.

(** ** dnspb/filterindex.go and filterindex.go *)

Section typosquatting.
Context `{PublicSuffixList}.

Definition validateETLDPlus1 (domain : string) : option error :=
  match EffectiveTLDPlusOne domain with
  | Err err => Some err
  | Ok etld => if bool_decide (domain = etld) then None else Some (ErrConst "not an etld+1 domain")
  end.

Record pbProtectedDomain := { x_pd_Domain : string; x_pd_Distance : Z }.

(** The domains, and the errors. *)
Definition protectedDomainsToInternal (pbDomains : list pbProtectedDomain) (errs : list error)
    : list TyposquattingProtectedDomain * list error :=
  ((fun x => {| pd_Domain := x_pd_Domain x; pd_Distance := x_pd_Distance x |}) <$> pbDomains,
   errs ++ mjoin ((fun x =>
     (if validateETLDPlus1 (x_pd_Domain x) is Some err then [ErrWrap "domains: at index %d: domain: %w" err] else []) ++
     (if x_pd_Distance x <=? 0 then [ErrWrap "domains: at index %d: %w" (ErrConst "distance: not positive")] else []))
     <$> pbDomains)).

Record pbTyposquattingIndex := { x_ti_Domains : list pbProtectedDomain; x_ti_Exceptions : list string }.

Definition typo_ToInternal (x : option pbTyposquattingIndex) : result error Typosquatting :=
  match x with
  | None => Err (ErrWrap "index" (ErrConst "no value"))
  | Some x =>
      let '(domains, errs) := protectedDomainsToInternal (x_ti_Domains x) [] in
      let '(exceptions, errs) :=
        foldl (fun acc d =>
          match validateETLDPlus1 d with
          | Some err => (acc.1, acc.2 ++ [ErrWrap "exceptions: at index %d: domain: %w" err])
          | None => (acc.1 ++ [d], acc.2)
          end) ([], errs) (x_ti_Exceptions x) in
      match Join errs with
      | Some err => Err err
      | None => Ok {| ty_Domains := domains; ty_Exceptions := exceptions |}
      end
  end.

Definition storage_Typosquatting (resp : result GRPCError (option pbTyposquattingIndex)) : result error Typosquatting :=
  match resp with
  | Err err => Err (ErrWrap "loading typosquatting filter index: %w" (fixed err))
  | Ok idx => annotate "converting typosquatting filter index: %w" (typo_ToInternal idx)
  end.
End typosquatting.

(** ** internal/agdhttp/error.go, internal/consul/allowlist.go *)

(** A response: the status, the body and the error of closing it. *)
Record HTTPResponse := { hr_StatusCode : Z; hr_Body : string; hr_Close : option error }.

Definition CheckStatus (resp : HTTPResponse) (expected : Z) : option error :=
  if hr_StatusCode resp =? expected then None else Some (ErrConst "server %q: status code error: expected %d, got %d").

(** The addresses of the records that the body encodes. *)
Definition loadConsul (decode : string -> result error (list Addr)) (resp : result error HTTPResponse)
    : result error (list Prefix) :=
  annotate "loading allowlist nets: %w"
    (match resp with
     | Err err => Err (ErrWrap "requesting: %w" err)
     | Ok resp =>
         with_deferred
           (match CheckStatus resp StatusOK with
            | Some err => Err err
            | None =>
                let? records := annotate "server %q: %s" (annotate "decoding: %w" (decode (hr_Body resp))) in
                foldr (fun a acc =>
                  let? nets := acc in
                  match addr_prefix a (BitLen a) with
                  | Some p => Ok (p :: nets)
                  | None => Err (ErrConst "converting addr at idx %d: err")
                  end) (Ok []) records
            end) (hr_Close resp)
     end).

Definition consul_Refresh (decode : string -> result error (list Addr)) (resp : result error HTTPResponse)
    (l : DynamicAllowlist) : option error * DynamicAllowlist :=
  match loadConsul decode resp with
  | Err err => (Some err, l)
  | Ok nets => (None, Update l nets)
  end.

(** ** internal/remotekv/consulkv *)

Definition validateConsulURL (u : option URL) : option error :=
  match u with
  | None => Some (ErrConst "nil consul url")
  | Some u =>
      let parts := SplitByte (u_Path u) "/"%char in
      let l := length parts in
      wrap_opt "consul url: path %q: %w"
        (if (l <? 2)%nat then Some (ErrConst "too few parts")
         else if negb (bool_decide (parts !! (l - 2)%nat = Some "kv"%string))
         then Some (ErrConst "next to last part is %q, want %q")
         else if bool_decide (parts !! (l - 1)%nat = Some EmptyString) then Some (ErrConst "last part is empty")
         else None)
  end.

(** A client of Consul: waiting for the limiter, reading a key, creating a session,
    and setting a key that the session acquires. *)
Record ConsulClient := {
  cc_state : Type;
  cc_Wait : cc_state -> option error * cc_state;
  cc_Get : cc_state -> string -> result error HTTPResponse;
  cc_PutSession : cc_state -> result error HTTPResponse * cc_state;
  cc_Put : cc_state -> string -> string -> string -> result error HTTPResponse * cc_state;
  (** the decoding of the limited response to a read, and of a session *)
  cc_decode : string -> result error (list (option string));
  cc_decodeSession : string -> result error string;
}.

Definition consul_ErrRateLimited : string := "rate limited".

(** [u.JoinPath] with a key without separators. *)
Definition key_path (u : URL) (key : string) : string := u_Path u +:+ "/" +:+ key.

(** The wrapping in [httpError] keeps the error. *)
Definition consul_Get (cc : ConsulClient) (u : URL) (s : cc_state cc) (key : string)
    : result error (option string) * cc_state cc :=
  match cc_Wait cc s with
  | (Some _, s) => (Err (ErrConst consul_ErrRateLimited), s)
  | (None, s) =>
      (match cc_Get cc s (key_path u key) with
       | Err err => Err (ErrWrap "getting key %q from consul: %w" err)
       | Ok resp =>
           with_deferred
             (if hr_StatusCode resp =? StatusNotFound then Ok None
              else match CheckStatus resp StatusOK with
              | Some err => Err (ErrWrap "response for key %q: %w" err)
              | None =>
                  let? items := annotate "decoding response for key %q from consul: %w" (cc_decode cc (hr_Body resp)) in
                  match items with
                  | Some val :: _ => Ok (Some val)
                  | _ => Err (ErrConst "response for key %q from consul has no items")
                  end
              end) (hr_Close resp)
       end, s)
  end.

(** The body of the response to the last request is not looked at. *)
Definition consul_Set (cc : ConsulClient) (u : URL) (s : cc_state cc) (key val : string) : option error * cc_state cc :=
  let close (r : HTTPResponse) (err : option error) : option error :=
    match with_deferred (match err with Some e => Err e | None => Ok tt end) (hr_Close r) with Err e => Some e | Ok _ => None end in
  match cc_PutSession cc s with
  | (Err err, s) => (Some (ErrWrap "getting session for key %q in consul: %w" err), s)
  | (Ok sessResp, s) =>
      match CheckStatus sessResp StatusOK with
      | Some err => (close sessResp (Some (ErrWrap "getting session for key %q: %w" err)), s)
      | None =>
          match cc_decodeSession cc (hr_Body sessResp) with
          | Err err => (close sessResp (Some (ErrWrap "decoding session id for key %q for consul: %w" err)), s)
          | Ok id =>
              match cc_Put cc s (key_path u key) id val with
              | (Err err, s) => (close sessResp (Some (ErrWrap "setting key %q in consul: %w" err)), s)
              | (Ok resp, s) =>
                  (close sessResp (close resp (wrap_opt "setting key %q: %w" (CheckStatus resp StatusOK))), s)
              end
          end
      end
  end.

Definition ConsulKV (cc : ConsulClient) (u : URL) : KV := {|
  kv_state := cc_state cc; kv_Get := consul_Get cc u; kv_Set := consul_Set cc u |}.

(** * Facts *)

(** ** Errors *)

(** The first detail that the code knows. *)
Fixpoint first_known (ds : list Detail) : option Detail :=
  match ds with
  | [] => None
  | OtherDetail :: ds => first_known ds
  | d :: _ => Some d
  end.

(** The custom domains are told that a certificate does not exist, so that they do
    not ask again, exactly if the backend says so: by the first detail that the
    code knows, of a status other than a timeout. *)
Theorem certificate_not_found e :
  (exists err, CertificateData (Err e) = Err err /\ Is err ErrCertificateNotFound = true) <->
  match e with
  | GRPCStatus code details err =>
      code <> DeadlineExceeded /\
      match first_known details with
      | Some (NotFoundDetail _) => True
      | Some _ => False
      | None => Is err ErrCertificateNotFound = true
      end
  | NotGRPC err => Is err ErrCertificateNotFound = true
  end.
Proof.
  unfold CertificateData, fixed, fixGRPCError. destruct e as [code details err|err]; cbn [Is].
  - destruct (Z.eqb_spec code DeadlineExceeded) as [->|Hc].
    + split; [|by intros []]. intros (x & [= <-] & E). vm_compute in E. done.
    + induction details as [|d ds IH]; cbn [fix_details first_known app_error].
      * split; [intros (x & [= <-] & E); done|]. intros [_ E]. by eexists.
      * destruct d as [msg|msg|msg|msg|msg delay|]; cbn [app_error]; [| | | | |apply IH].
        4:{ split; [done|]. intros _. eexists. split; [done|]. by vm_compute. }
        all: split; [intros (x & [= <-] & E)|by intros []]; vm_compute in E; done.
  - cbn [app_error]. split; [intros (x & [= <-] & E); done|]. intros E. by eexists.
Qed.

(** ** Billing statistics *)

Definition messages (records : gmap string (option BillRec)) : list DeviceBillingStat :=
  omap (fun x : string * option BillRec => (fun r => recordToProtobuf r x.1) <$> x.2) (map_to_list records).

(** A successful upload has sent every record once, and a failed one a part of
    them. *)
Theorem upload_complete open send close records err sent errs :
  Upload open send close records = (err, sent, errs) ->
  sent `prefix_of` messages records /\ (err = None -> sent = messages records).
Proof.
  unfold Upload, messages. case_bool_decide as Hr.
  { intros [= <- <- <-]. subst. rewrite map_to_list_empty. done. }
  destruct open as [e|]; [intros [= <- <- <-]; split; [apply prefix_nil|done]|].
  assert (forall l n, let '(err, sent, errs) := upload_loop send l n in
    sent `prefix_of` omap (fun x : string * option BillRec => (fun r => recordToProtobuf r x.1) <$> x.2) l /\
    (err = None -> sent = omap (fun x : string * option BillRec => (fun r => recordToProtobuf r x.1) <$> x.2) l)) as Hl.
  { induction l as [|[id r] l IH]; intros n; cbn [upload_loop]; [done|]. destruct r as [r|]; cbn.
    - destruct (send n); [split; [apply prefix_nil|done]|]. specialize (IH (S n)).
      destruct (upload_loop send l (S n)) as [[e s] es]. destruct IH as [IH1 IH2].
      split; [by apply prefix_cons|]. intros He. by rewrite IH2.
    - specialize (IH n). destruct (upload_loop send l n) as [[e s] es]. done. }
  specialize (Hl (map_to_list records) 0%nat). destruct (upload_loop send _ 0) as [[e s] es]. destruct Hl as [H1 H2].
  destruct e as [e|]; intros [= <- <- <-]; split; try done. intros _. by apply H2.
Qed.

(** ** The allowlist *)

Lemma single_prefix_contains a p ip : addr_ok a -> addr_ok ip ->
  addr_prefix a (BitLen a) = Some p -> prefix_contains p ip = true <-> ip = withoutZone a /\ IsValid a = true.
Proof.
  intros Ha Hip E. destruct a as [|x|x z]; cbn [BitLen] in E.
  - injection E as <-. cbn. split; [done|]. by intros [].
  - cbn in E. injection E as <-. assert (Z.land x (mask 32 32) = x) as ->.
    { rewrite land_mask by (cbn in Ha; lia). rewrite Z.sub_diag, Z.shiftr_0_r. apply Z.shiftl_0_r. }
    rewrite prefix_contains_spec; [|done|done|cbn; lia]. cbn. split.
    + intros (_ & _ & E). destruct ip as [|y|y zy]; try done. cbn in E. rewrite !Z.shiftr_0_r in E. by subst.
    + intros [-> _]. done.
  - cbn in E. injection E as <-. assert (Z.land x (mask 128 128) = x) as ->.
    { rewrite land_mask by (cbn in Ha; lia). rewrite Z.sub_diag, Z.shiftr_0_r. apply Z.shiftl_0_r. }
    rewrite prefix_contains_spec; [|done|done|cbn; lia]. cbn. split.
    + intros (_ & Hz & E). destruct ip as [|y|y zy]; try done. cbn in E, Hz. rewrite !Z.shiftr_0_r in E.
      destruct (bool_decide_reflect (zy = EmptyString)) as [->|]; [|done]. by subst.
    + intros [-> _]. done.
Qed.

(** After a successful refresh from Consul exactly the listed addresses, and those
    of the persistent subnets, are allowed; a failed one changes nothing. *)
Theorem consul_allowlist decode resp l err l' ip :
  (forall b addrs, decode b = Ok addrs -> Forall addr_ok addrs) -> addr_ok ip ->
  consul_Refresh decode resp l = (err, l') ->
  match err with
  | Some _ => l' = l
  | None => exists r addrs, resp = Ok r /\ hr_StatusCode r = StatusOK /\ decode (hr_Body r) = Ok addrs /\
      (IsAllowed l' ip = Ok true <->
       Exists (fun n => prefix_contains n ip = true) (persistent l) \/
       Exists (fun a => ip = withoutZone a /\ IsValid a = true) addrs)
  end.
Proof.
  intros Hdec Hip. unfold consul_Refresh, loadConsul. destruct resp as [r|e]; [|by intros [= <- <-]].
  unfold CheckStatus. destruct (Z.eqb_spec (hr_StatusCode r) StatusOK) as [Hs|Hs].
  2:{ destruct (hr_Close r); cbn; by intros [= <- <-]. }
  destruct (decode (hr_Body r)) as [addrs|e] eqn:Ed; cbn [annotate result_bind].
  2:{ destruct (hr_Close r); cbn; by intros [= <- <-]. }
  set (nets := foldr _ _ _).
  destruct nets as [ns|e] eqn:En; cbn [with_deferred].
  2:{ destruct (hr_Close r); cbn; by intros [= <- <-]. }
  destruct (hr_Close r); cbn [annotate]; intros [= <- <-]; [done|].
  exists r, addrs. split_and!; [done..|]. unfold IsAllowed, Update. cbn [persistent dynamic].
  assert (Exists (fun n => prefix_contains n ip = true) ns <-> Exists (fun a => ip = withoutZone a /\ IsValid a = true) addrs) as <-.
  { specialize (Hdec _ _ Ed). clear -Hdec En Hip. subst nets. revert ns En. induction addrs as [|a addrs IH]; intros ns En.
    - injection En as <-. by rewrite !Exists_nil.
    - cbn [foldr] in En. apply Forall_cons in Hdec as [Ha Hdec]. destruct (foldr _ _ addrs) as [ns'|]; [|done]. cbn [result_bind] in En.
      destruct (addr_prefix a (BitLen a)) as [p|] eqn:Ep; [|done]. injection En as <-.
      rewrite !Exists_cons, (IH Hdec ns' eq_refl). by rewrite (single_prefix_contains a p ip Ha Hip Ep). }
  rewrite !Exists_exists. destruct (existsb _ (persistent l)) eqn:E1.
  { apply existsb_exists in E1 as (n & Hn%list_elem_of_In & E). split; [|done]. intros _. left. by exists n. }
  destruct (existsb _ ns) eqn:E2.
  { apply existsb_exists in E2 as (n & Hn%list_elem_of_In & E). split; [|done]. intros _. right. by exists n. }
  split; [done|]. intros [(n & Hn%list_elem_of_In & E)|(n & Hn%list_elem_of_In & E)]; exfalso.
  - enough (existsb (fun n => prefix_contains n ip) (persistent l) = true) by congruence. apply existsb_exists. by exists n.
  - enough (existsb (fun n => prefix_contains n ip) ns = true) by congruence. apply existsb_exists. by exists n.
Qed.

(** ** Typosquatting *)

Section typo_facts.
Context `{PublicSuffixList}.

Definition valid_pd (x : pbProtectedDomain) : Prop := validateETLDPlus1 (x_pd_Domain x) = None /\ 0 < x_pd_Distance x.

Lemma exceptions_fold l acc errs :
  foldl (fun acc d =>
    match validateETLDPlus1 d with
    | Some err => (acc.1, acc.2 ++ [ErrWrap "exceptions: at index %d: domain: %w" err])
    | None => (acc.1 ++ [d], acc.2)
    end) (acc, errs) l =
  (acc ++ filter (fun d => validateETLDPlus1 d = None) l,
   errs ++ omap (fun d => ErrWrap "exceptions: at index %d: domain: %w" <$> validateETLDPlus1 d) l).
Proof.
  revert acc errs. induction l as [|d l IH]; intros acc errs; cbn [foldl]; [by rewrite filter_nil, !app_nil_r|].
  destruct (validateETLDPlus1 d) as [err|] eqn:E; rewrite IH; cbn [omap list_omap fst snd].
  - rewrite E, filter_cons_False by congruence. cbn. by rewrite <- app_assoc.
  - rewrite E, filter_cons_True by done. cbn. by rewrite <- app_assoc.
Qed.

Lemma filter_all {A} (P : A -> Prop) `{!forall x, Decision (P x)} (l : list A) : Forall P l -> filter P l = l.
Proof. induction 1 as [|x l Hx _ IH]; [done|]. by rewrite filter_cons_True, IH. Qed.

(** An index is accepted exactly if every domain and every exception is an eTLD
    plus one and every distance is positive, and then it is the same index. *)
Theorem typo_index_valid x idx :
  typo_ToInternal (Some x) = Ok idx <->
  Forall valid_pd (x_ti_Domains x) /\ Forall (fun d => validateETLDPlus1 d = None) (x_ti_Exceptions x) /\
  idx = {| ty_Domains := (fun d => {| pd_Domain := x_pd_Domain d; pd_Distance := x_pd_Distance d |}) <$> x_ti_Domains x;
           ty_Exceptions := x_ti_Exceptions x |}.
Proof.
  unfold typo_ToInternal. destruct (protectedDomainsToInternal (x_ti_Domains x) []) as [domains errs] eqn:Ep.
  unfold protectedDomainsToInternal in Ep. injection Ep as <- <-. rewrite exceptions_fold. cbn [app].
  set (e1 := mjoin _). set (e2 := omap _ _).
  assert (e1 = [] <-> Forall valid_pd (x_ti_Domains x)) as H1.
  { subst e1. induction (x_ti_Domains x) as [|d l IH]; cbn; [by rewrite Forall_nil|].
    rewrite app_nil, IH, Forall_cons, app_nil. unfold valid_pd at 2.
    destruct (validateETLDPlus1 (x_pd_Domain d)), (Z.leb_spec (x_pd_Distance d) 0); naive_solver lia. }
  assert (e2 = [] <-> Forall (fun d => validateETLDPlus1 d = None) (x_ti_Exceptions x)) as H2.
  { subst e2. induction (x_ti_Exceptions x) as [|d l IH]; cbn; [by rewrite Forall_nil|].
    rewrite Forall_cons, <- IH. destruct (validateETLDPlus1 d); cbn; naive_solver. }
  rewrite <- H1, <- H2. split.
  - destruct (e1 ++ e2) as [|e es] eqn:E; [|by cbn]. apply app_nil in E as [E1 E2]. cbn [Join].
    intros [= <-]. split_and!; [done..|]. f_equal. by apply filter_all, H2.
  - intros (E1 & E2 & ->). rewrite E1, E2. cbn [Join app]. do 2 f_equal.
    by apply filter_all, H2.
Qed.
End typo_facts.

(** ** Remote keys *)

(** The storage in the backend keeps what is set, if the backend does. *)
Theorem backend_kv_roundtrip (state : Type) get set (s s' : state) key val :
  (forall s s' k v, set s k v = Ok s' -> get s' k = Ok (KVData v)) ->
  kv_Set (BackendKV state get set) s key val = (None, s') ->
  kv_Get (BackendKV state get set) s' key = (Ok (Some val), s').
Proof.
  intros Hget. cbn. destruct (set s key val) as [s1|] eqn:E; [|done]. intros [= ->]. by rewrite (Hget _ _ _ _ E).
Qed.

(** Consul answers a request that acquires a key with the status 200 and the body
    "false" if another session holds the key; the body is not looked at, so that
    such a key is reported as set. *)
Theorem refused_key_is_set (cc : ConsulClient) u s key val sess s1 id resp s2 :
  cc_PutSession cc s = (Ok sess, s1) -> hr_StatusCode sess = StatusOK -> hr_Close sess = None ->
  cc_decodeSession cc (hr_Body sess) = Ok id ->
  cc_Put cc s1 (key_path u key) id val = (Ok resp, s2) -> hr_StatusCode resp = StatusOK -> hr_Close resp = None ->
  hr_Body resp = "false"%string ->
  kv_Set (ConsulKV cc u) s key val = (None, s2).
Proof.
  intros Es Hs Hc Hid Ep Hr Hrc _. cbn. unfold consul_Set. rewrite Es. unfold CheckStatus.
  rewrite Hs. cbn [Z.eqb]. rewrite Z.eqb_refl, Hid, Ep, Hr, Z.eqb_refl, Hrc, Hc. done.
Qed.
