(* ===== verification/Heap.v ===== *)
(** A separation logic for programs that pass a memory of cells: assertions on a
    part of the memory, as an affine logic in which cells may be forgotten, since
    the memory is collected; and the weakest precondition of a program over a
    memory and the assertion of an invariant that the memory keeps for the program.

    The cells are at integer addresses; the elements of an array are at consecutive
    ones, so that two slices of an array may overlap. *)

From iris.bi Require Import bi.
From iris.proofmode Require Import proofmode.
From S2P Require Import Prelude.

Open Scope Z_scope.

(** * Assertions *)

Section hprop.
Context {V : Type}.

Record hProp := HProp {
  holds : gmap Z V -> Prop;
  holds_mono h h' : holds h -> h ⊆ h' -> holds h';
}.

Local Instance hprop_equiv : Equiv hProp := fun P Q => forall h, holds P h <-> holds Q h.
Local Instance hprop_equivalence : Equivalence (≡@{hProp}).
Proof.
  split; [done|by intros P Q H h|].
  intros P Q R H1 H2 h. by rewrite (H1 h).
Qed.
Canonical Structure hPropO := discreteO hProp.

Inductive hprop_entails (P Q : hProp) : Prop := HEntails { entails_holds : forall h, holds P h -> holds Q h }.

Definition hprop_pure (φ : Prop) : hProp := HProp (fun _ => φ) (fun _ _ H _ => H).
Program Definition hprop_and (P Q : hProp) : hProp := HProp (fun h => holds P h /\ holds Q h) _.
Next Obligation. intros P Q h h' [HP HQ] Hs. split; by eapply holds_mono. Qed.
Program Definition hprop_or (P Q : hProp) : hProp := HProp (fun h => holds P h \/ holds Q h) _.
Next Obligation. intros P Q h h' [HP|HQ] Hs; [left|right]; by eapply holds_mono. Qed.
Program Definition hprop_impl (P Q : hProp) : hProp := HProp (fun h => forall h', h ⊆ h' -> holds P h' -> holds Q h') _.
Next Obligation. intros P Q h h' HPQ Hs h2 Hs2. apply HPQ. by etrans. Qed.
Program Definition hprop_forall {A} (Φ : A -> hProp) : hProp := HProp (fun h => forall a, holds (Φ a) h) _.
Next Obligation. intros A Φ h h' HΦ Hs a. by eapply holds_mono. Qed.
Program Definition hprop_exist {A} (Φ : A -> hProp) : hProp := HProp (fun h => exists a, holds (Φ a) h) _.
Next Obligation. intros A Φ h h' [a HΦ] Hs. exists a. by eapply holds_mono. Qed.
Program Definition hprop_sep (P Q : hProp) : hProp :=
  HProp (fun h => exists h1 h2, h1 ##ₘ h2 /\ h1 ∪ h2 ⊆ h /\ holds P h1 /\ holds Q h2) _.
Next Obligation. intros P Q h h' (h1 & h2 & Hd & Hs1 & HP & HQ) Hs. exists h1, h2. split_and!; [done|by etrans|done..]. Qed.
Program Definition hprop_wand (P Q : hProp) : hProp :=
  HProp (fun h => forall h', h ##ₘ h' -> holds P h' -> holds Q (h ∪ h')) _.
Next Obligation.
  intros P Q h h2 HPQ Hs h' Hd HP. eapply holds_mono; [apply HPQ; [by eapply map_disjoint_weaken_l|done]|].
  by apply map_union_mono_r.
Qed.
Definition hprop_persistently (P : hProp) : hProp := hprop_pure (hprop_entails (hprop_pure True) P).

Lemma hprop_bi_mixin :
  BiMixin hprop_entails (hprop_pure True) hprop_pure hprop_and hprop_or hprop_impl (@hprop_forall) (@hprop_exist) hprop_sep
    hprop_wand.
Proof.
  split.
  - split; [by intros P; constructor|]. intros P Q R [H1] [H2]. constructor. auto.
  - intros P Q. split.
    + intros H. split; constructor; intros h; apply H.
    + intros [[H1] [H2]] h. split; auto.
  - intros n φ ψ H h. apply H.
  - intros n P P' H1 Q Q' H2 h. cbn. by rewrite (H1 h) (H2 h).
  - intros n P P' H1 Q Q' H2 h. cbn. by rewrite (H1 h) (H2 h).
  - intros n P P' H1 Q Q' H2 h. cbn. split; intros H h' Hs HP%H1%H; by try apply H2.
  - intros A n Φ Ψ H h. cbn. split; intros HΦ a; apply H, HΦ.
  - intros A n Φ Ψ H h. cbn. split; intros [a Ha]; exists a; by apply H.
  - intros n P P' H1 Q Q' H2 h. cbn. split; intros (h1 & h2 & ? & ? & ? & ?); exists h1, h2; split_and!; try done;
      first [by apply H1|by apply H2].
  - intros n P P' H1 Q Q' H2 h. cbn. split; intros H h' Hd HP%H1%H; by try apply H2.
  - intros φ P H. by constructor.
  - intros φ P H. constructor. intros h Hφ. by apply (H Hφ).
  - intros P Q. constructor. by intros h [].
  - intros P Q. constructor. by intros h [].
  - intros P Q R [H1] [H2]. constructor. split; auto.
  - intros P Q. constructor. by left.
  - intros P Q. constructor. by right.
  - intros P Q R [H1] [H2]. constructor. intros h []; auto.
  - intros P Q R [H]. constructor. intros h HP h' Hs HQ. apply H. split; [by eapply holds_mono|done].
  - intros P Q R [H]. constructor. intros h [HP HQ]. by apply (H h HP).
  - intros A P Ψ H. constructor. intros h HP a. by apply (H a).
  - intros A Ψ a. constructor. intros h H. apply H.
  - intros A Ψ a. constructor. intros h H. by exists a.
  - intros A Φ Q H. constructor. intros h [a Ha]. by apply (H a).
  - intros P P' Q Q' [H1] [H2]. constructor. intros h (h1 & h2 & ? & ? & ? & ?). exists h1, h2. split_and!; auto.
  - intros P. constructor. intros h HP. exists ∅, h. split_and!; [apply map_disjoint_empty_l|by rewrite left_id_L|done..].
  - intros P. constructor. intros h (h1 & h2 & Hd & Hs & _ & HP). eapply holds_mono; [done|].
    etrans; [|exact Hs]. by apply map_union_subseteq_r.
  - intros P Q. constructor. intros h (h1 & h2 & Hd & Hs & HP & HQ). exists h2, h1.
    split_and!; [done| |done..]. by rewrite map_union_comm.
  - intros P Q R. constructor. intros h (h12 & h3 & Hd & Hs & (h1 & h2 & Hd2 & Hs2 & HP & HQ) & HR).
    assert (h1 ##ₘ h3) by (apply (map_disjoint_weaken_l _ h12); [done|]; etrans; [|exact Hs2]; by apply map_union_subseteq_l).
    assert (h2 ##ₘ h3) by (apply (map_disjoint_weaken_l _ h12); [done|]; etrans; [|exact Hs2]; by apply map_union_subseteq_r).
    exists h1, (h2 ∪ h3). split_and!; [by apply map_disjoint_union_r| |done|].
    + rewrite (assoc_L (∪)). etrans; [|exact Hs]. by apply map_union_mono_r.
    + by exists h2, h3.
  - intros P Q R [H]. constructor. intros h HP h' Hd HQ. apply H. by exists h, h'.
  - intros P Q R [H]. constructor. intros h (h1 & h2 & Hd & Hs & HP & HQ). eapply holds_mono; [|done]. by apply H.
Qed.

Lemma hprop_persistently_mixin :
  BiPersistentlyMixin hprop_entails (hprop_pure True) hprop_and (@hprop_exist) hprop_sep hprop_persistently.
Proof.
  eapply bi_persistently_mixin_discrete; [done| |done|exact hprop_bi_mixin].
  intros A Φ [H]. destruct (H ∅ I) as [a Ha]. exists a. constructor. intros h _.
  eapply holds_mono; [done|]. apply map_empty_subseteq.
Qed.

Lemma hprop_later_mixin :
  BiLaterMixin hprop_entails hprop_pure hprop_or hprop_impl (@hprop_forall) (@hprop_exist) hprop_sep hprop_persistently id.
Proof. eapply bi_later_mixin_id; [done|exact hprop_bi_mixin]. Qed.

Canonical Structure hPropI : bi := {|
  bi_ofe_mixin := ofe_mixin_of hProp; bi_bi_mixin := hprop_bi_mixin;
  bi_bi_persistently_mixin := hprop_persistently_mixin; bi_bi_later_mixin := hprop_later_mixin |}.

#[global] Instance hprop_affine : BiAffine hPropI.
Proof. intros P. constructor. by constructor. Qed.
End hprop.
Arguments hProp : clear implicits.
Arguments hPropI : clear implicits.

(** * Programs *)

(** A memory: the cells, the first address that was never used, the objects that
    are in the pools, each with its pool, and the choices of the pools, which may
    return any of their objects or a new one. *)
Record mem (V K : Type) := {
  m_heap : gmap Z V;
  m_next : Z;
  m_pool : list (K * Z);
  m_choice : list nat;
}.
Arguments m_heap {V K} _.
Arguments m_next {V K} _.
Arguments m_pool {V K} _.
Arguments m_choice {V K} _.

Definition M (V K A : Type) : Type := mem V K -> outcome (A * mem V K).

Section programs.
Context {V K : Type} `{EqDecision K}.
Notation M := (M V K).

Definition gret {A} (a : A) : M A := fun σ => Ret (a, σ).
Definition gbind {A B} (m : M A) (f : A -> M B) : M B := fun σ =>
  match m σ with Ret (a, σ') => f a σ' | Panic msg => Panic msg end.
Definition gpanic {A} (msg : string) : M A := fun _ => Panic msg.

Definition load (p : Z) : M V := fun σ =>
  match m_heap σ !! p with
  | Some c => Ret (c, σ)
  | None => Panic "invalid memory address or nil pointer dereference"
  end.

Definition store (p : Z) (c : V) : M unit := fun σ =>
  match m_heap σ !! p with
  | Some _ => Ret (tt, {| m_heap := <[p:=c]> (m_heap σ); m_next := m_next σ; m_pool := m_pool σ; m_choice := m_choice σ |})
  | None => Panic "invalid memory address or nil pointer dereference"
  end.

(** The cells of an array. *)
Fixpoint cells (p : Z) (l : list V) : gmap Z V :=
  match l with
  | [] => ∅
  | c :: l => <[p:=c]> (cells (p + 1) l)
  end.

Definition alloc (l : list V) : M Z := fun σ =>
  Ret (m_next σ, {| m_heap := cells (m_next σ) l ∪ m_heap σ; m_next := m_next σ + Z.of_nat (length l);
                    m_pool := m_pool σ; m_choice := m_choice σ |}).

(** The methods of a pool. *)
Definition pool_take (k : K) (σ : mem V K) : option Z * mem V K :=
  match m_choice σ with
  | [] => (None, σ)
  | i :: ch =>
      let σ' := {| m_heap := m_heap σ; m_next := m_next σ; m_pool := m_pool σ; m_choice := ch |} in
      match m_pool σ !! i with
      | Some (k', p) =>
          if decide (k' = k)
          then (Some p, {| m_heap := m_heap σ; m_next := m_next σ; m_pool := delete i (m_pool σ); m_choice := ch |})
          else (None, σ')
      | None => (None, σ')
      end
  end.

Definition Get (new : M Z) (k : K) : M Z := fun σ =>
  match pool_take k σ with
  | (Some p, σ) => Ret (p, σ)
  | (None, σ) => new σ
  end.

Definition Put (k : K) (p : Z) : M unit := fun σ =>
  Ret (tt, {| m_heap := m_heap σ; m_next := m_next σ; m_pool := (k, p) :: m_pool σ; m_choice := m_choice σ |}).
End programs.

Notation "'do' x '<-' m ; k" := (gbind m (fun x => k)) (at level 200, x binder, m at level 100, k at level 200, right associativity) : go_scope.
Notation "'do' ' p '<-' m ; k" := (gbind m (fun x => let p := x in k)) (at level 200, p strict pattern, m at level 100, k at level 200, right associativity) : go_scope.
Notation "m1 ;; m2" := (gbind m1 (fun _ : unit => m2)) (at level 100, m2 at level 200, right associativity) : go_scope.

(** * Weakest preconditions *)

Section wp.
Context {V K : Type} `{EqDecision K}.
(** What is owned by a pool with an object in it. *)
Variable shape : K -> Z -> hProp V.

Definition pool_inv (pool : list (K * Z)) : hProp V := ([∗ list] kp ∈ pool, shape kp.1 kp.2)%I.

Definition interp (σ : mem V K) (h : gmap Z V) : Prop :=
  exists hp, h ##ₘ hp /\ holds (pool_inv (m_pool σ)) hp /\ h ∪ hp ⊆ m_heap σ /\
    (forall a, is_Some (m_heap σ !! a) -> a < m_next σ).

Lemma interp_mono σ h h' : h ⊆ h' -> interp σ h' -> interp σ h.
Proof.
  intros Hs (hp & Hd & Hp & Hsub & Hn). exists hp. split_and!; [by eapply map_disjoint_weaken_l|done| |done].
  etrans; [|exact Hsub]. by apply map_union_mono_r.
Qed.

Program Definition wp {A} (m : M V K A) (Φ : A -> hProp V) : hProp V :=
  HProp (fun h => forall hf σ, h ##ₘ hf -> interp σ (h ∪ hf) ->
    exists a σ' h', m σ = Ret (a, σ') /\ h' ##ₘ hf /\ holds (Φ a) h' /\ interp σ' (h' ∪ hf)) _.
Next Obligation.
  intros A m Φ h h2 H Hs hf σ Hd Hi. apply (H hf σ); [by eapply map_disjoint_weaken_l|].
  eapply interp_mono; [|done]. by apply map_union_mono_r.
Qed.

Lemma wp_ret {A} (a : A) Φ : Φ a ⊢ wp (gret a) Φ.
Proof. constructor. intros h HΦ hf σ Hd Hi. by exists a, σ, h. Qed.

Lemma wp_bind {A B} (m : M V K A) (f : A -> M V K B) Φ : wp m (fun a => wp (f a) Φ) ⊢ wp (gbind m f) Φ.
Proof.
  constructor. intros h Hm hf σ Hd Hi. destruct (Hm hf σ Hd Hi) as (a & σ1 & h1 & E & Hd1 & Hf & Hi1).
  destruct (Hf hf σ1 Hd1 Hi1) as (b & σ2 & h2 & E2 & Hd2 & HΦ & Hi2). exists b, σ2, h2.
  split_and!; [|done..]. unfold gbind. by rewrite E.
Qed.

Lemma wp_wand {A} (m : M V K A) Φ Ψ : wp m Φ ⊢ (∀ a, Φ a -∗ Ψ a) -∗ wp m Ψ.
Proof.
  apply bi.wand_intro_r. constructor. intros h (h1 & h2 & Hd & Hs & Hm & HΦ) hf σ Hdf Hi.
  assert (interp σ ((h1 ∪ h2) ∪ hf)) as Hi2 by (apply (interp_mono _ _ (h ∪ hf)); [by apply map_union_mono_r|done]). clear Hi.
  apply (map_disjoint_weaken_l (h1 ∪ h2)) in Hdf; [|done].
  apply map_disjoint_union_l in Hdf as [Hd1 Hd2]. rewrite <- (assoc_L (∪)) in Hi2.
  destruct (Hm (h2 ∪ hf) σ) as (a & σ' & h' & E & Hd' & Ha & Hi'); [by apply map_disjoint_union_r|done|].
  apply map_disjoint_union_r in Hd' as [Hd'2 Hd'f].
  exists a, σ', (h2 ∪ h'). split_and!; [done|by apply map_disjoint_union_l| |].
  - apply (HΦ a h'); [done|]. done.
  - rewrite (map_union_comm h2 h'); [|done]. by rewrite <- (assoc_L (∪)).
Qed.

Program Definition pt (p : Z) (c : V) : hProp V := HProp (fun h => h !! p = Some c) _.
Next Obligation. intros p c h h' E Hs. cbn in *. by eapply lookup_weaken. Qed.

Definition arr (p : Z) (l : list V) : hProp V := ([∗ list] i ↦ c ∈ l, pt (p + Z.of_nat i) c)%I.

Lemma arr_nil p : arr p [] ⊣⊢ emp.
Proof. done. Qed.

Lemma arr_app p l1 l2 : arr p (l1 ++ l2) ⊣⊢ arr p l1 ∗ arr (p + Z.of_nat (length l1)) l2.
Proof.
  unfold arr. rewrite big_sepL_app. apply bi.sep_proper; [done|]. apply big_sepL_proper. intros i c _.
  by replace (p + Z.of_nat (length l1 + i)) with (p + Z.of_nat (length l1) + Z.of_nat i) by lia.
Qed.

Lemma arr_cons p c l : arr p (c :: l) ⊣⊢ pt p c ∗ arr (p + 1) l.
Proof. rewrite (arr_app p [c] l). unfold arr. cbn. by rewrite Z.add_0_r right_id. Qed.

(** ** The rules *)

Lemma cells_fresh p (l : list V) a : is_Some (cells p l !! a) <-> p <= a < p + Z.of_nat (length l).
Proof.
  revert p. induction l as [|c l IH]; intros p; cbn [cells length].
  { rewrite lookup_empty. split; [by intros []|lia]. }
  rewrite lookup_insert_is_Some' IH. lia.
Qed.

Lemma cells_arr p (l : list V) h : cells p l ⊆ h -> holds (arr p l) h.
Proof.
  intros Hs. eapply holds_mono; [|exact Hs]. clear. revert p. induction l as [|c l IH]; intros p; [done|].
  assert (pt p c ∗ arr (p + 1) l ⊢ arr p (c :: l)) as [H] by by rewrite arr_cons. apply H. clear H.
  exists {[p:=c]}, (cells (p + 1) l). assert (cells (p + 1) l !! p = None) as E.
  { apply eq_None_not_Some. rewrite cells_fresh. lia. }
  split_and!; [by apply map_disjoint_singleton_l| |by cbn; rewrite lookup_singleton_eq|apply IH].
  cbn [cells]. by rewrite insert_union_singleton_l.
Qed.

Lemma wp_load p c Φ : pt p c ⊢ (pt p c -∗ Φ c) -∗ wp (load p) Φ.
Proof.
  apply bi.wand_intro_r. constructor. intros h (h1 & h2 & Hd & Hs & E & HΦ) hf σ Hdf Hi. cbn in E.
  exists c, σ, h. split_and!; [|done| |done].
  - unfold load. destruct Hi as (hp & Hdp & _ & Hsub & _).
    assert (m_heap σ !! p = Some c) as ->; [|done]. eapply lookup_weaken; [|exact Hsub].
    apply lookup_union_Some_l, lookup_union_Some_l. eapply lookup_weaken; [|exact Hs]. by apply lookup_union_Some_l.
  - eapply holds_mono; [apply (HΦ h1); done|]. by rewrite map_union_comm.
Qed.

Lemma wp_store p c c' Φ : pt p c ⊢ (pt p c' -∗ Φ tt) -∗ wp (store p c') Φ.
Proof.
  apply bi.wand_intro_r. constructor. intros h (h1 & h2 & Hd & Hs & E & HΦ) hf σ Hdf Hi. cbn in E.
  assert (h !! p = Some c) as Eh by (eapply lookup_weaken; [|exact Hs]; by apply lookup_union_Some_l).
  destruct Hi as (hp & Hdp & Hp & Hsub & Hn).
  assert (m_heap σ !! p = Some c) as Ep.
  { eapply lookup_weaken; [|exact Hsub]. by apply lookup_union_Some_l, lookup_union_Some_l. }
  apply map_disjoint_union_l in Hdp as [Hdp1 Hdp2].
  assert (hf !! p = None /\ hp !! p = None) as [Hfp Hpp] by (split; by eapply (map_disjoint_Some_l h)).
  assert (h2 !! p = None) as H2p by by eapply (map_disjoint_Some_l h1).
  unfold store. rewrite Ep. eexists tt, _, (<[p:=c']> h). split; [done|]. split_and!.
  - by apply map_disjoint_insert_l.
  - eapply holds_mono; [apply (HΦ (<[p:=c']> h1)); [by apply map_disjoint_insert_r|by cbn; rewrite lookup_insert_eq]|].
    rewrite map_union_comm; [|by apply map_disjoint_insert_r]. rewrite <- insert_union_l. by apply insert_mono.
  - exists hp. cbn. split_and!; [|done| |].
    + rewrite map_disjoint_union_l map_disjoint_insert_l. done.
    + rewrite <- !insert_union_l. by apply insert_mono.
    + intros a. rewrite lookup_insert_is_Some'. intros [<-|H]; apply Hn; [by rewrite Ep|done].
Qed.

Lemma wp_alloc l Φ : (∀ p, arr p l -∗ Φ p) ⊢ wp (alloc l) Φ.
Proof.
  constructor. intros h HΦ hf σ Hdf (hp & Hdp & Hp & Hsub & Hn). unfold alloc.
  set (n := m_next σ). assert (cells n l ##ₘ m_heap σ) as Hc.
  { apply map_disjoint_spec. intros a x y Hx Hy. assert (a < n) by by apply Hn.
    assert (is_Some (cells n l !! a)) as Hx2%cells_fresh by done. lia. }
  assert (forall h', h' ⊆ m_heap σ -> cells n l ##ₘ h') as Hc' by (intros h' H; by eapply map_disjoint_weaken_r).
  apply map_disjoint_union_l in Hdp as [Hdp1 Hdp2].
  assert (cells n l ##ₘ (h ∪ hf) ∪ hp) as Hca by by apply Hc'.
  apply map_disjoint_union_r in Hca as [Hca Hcp]. apply map_disjoint_union_r in Hca as [Hch Hcf].
  exists n. eexists _, (h ∪ cells n l). split; [done|]. split_and!.
  - by apply map_disjoint_union_l.
  - apply (HΦ n); [done|]. by apply cells_arr.
  - exists hp. cbn. split_and!; [by rewrite !map_disjoint_union_l|done| |].
    + rewrite (map_union_comm h); [|done]. rewrite -!(assoc_L (∪)) (assoc_L (∪) h). by apply map_union_mono_l.
    + intros a. rewrite lookup_union_is_Some cells_fresh. intros [H|H%Hn]; lia.
Qed.

Lemma wp_put k p Φ : shape k p ⊢ Φ tt -∗ wp (Put k p) Φ.
Proof.
  apply bi.wand_intro_r. constructor. intros h (h1 & h2 & Hd & Hs & Hk & HΦ) hf σ Hdf (hp & Hdp & Hp & Hsub & Hn).
  exists tt. eexists _, h2. split; [done|]. apply map_disjoint_union_l in Hdp as [Hdp1 Hdp2].
  assert (h1 ⊆ h /\ h2 ⊆ h) as [Hs1 Hs2].
  { split; (etrans; [|exact Hs]); [by apply map_union_subseteq_l|by apply map_union_subseteq_r]. }
  split_and!; [by apply (map_disjoint_weaken_l _ h)|done|]. exists (h1 ∪ hp). cbn. split_and!; [| | |done].
  - rewrite map_disjoint_union_l !map_disjoint_union_r. split_and!; [done|by apply (map_disjoint_weaken_l _ h)| |done].
    symmetry. by apply (map_disjoint_weaken_l _ h).
  - exists h1, hp. split_and!; [by apply (map_disjoint_weaken_l _ h)|done..].
  - etrans; [|exact Hsub]. rewrite (map_union_comm h2 hf); [|by apply (map_disjoint_weaken_l _ h)].
    rewrite -(assoc_L (∪)) (assoc_L (∪) h2) (map_union_comm h2 h1); [|done]. rewrite (assoc_L (∪)) (map_union_comm hf).
    2:{ symmetry. by apply (map_disjoint_weaken_l _ h). }
    apply map_union_mono_r; [by apply map_disjoint_union_l|]. apply map_union_mono_r; [done|done].
Qed.

Lemma wp_get new k Φ : (⊢ wp new (shape k)) -> (∀ p, shape k p -∗ Φ p) ⊢ wp (Get new k) Φ.
Proof.
  intros Hnew. constructor. intros h HΦ hf σ Hdf Hi. unfold Get, pool_take.
  assert (forall ch, interp {| m_heap := m_heap σ; m_next := m_next σ; m_pool := m_pool σ; m_choice := ch |} (h ∪ hf)) as Hi'
    by done.
  assert (forall ch, exists p σ' h', new {| m_heap := m_heap σ; m_next := m_next σ; m_pool := m_pool σ; m_choice := ch |} = Ret (p, σ') /\
    h' ##ₘ hf /\ holds (Φ p) h' /\ interp σ' (h' ∪ hf)) as Hnew'.
  { intros ch. destruct Hnew as [Hnew]. destruct (Hnew ∅ I (h ∪ hf) {| m_heap := m_heap σ; m_next := m_next σ; m_pool := m_pool σ; m_choice := ch |})
      as (p & σ' & h1 & E & Hd1 & Hk & Hi1); [apply map_disjoint_empty_l|by rewrite left_id_L|].
    apply map_disjoint_union_r in Hd1 as [Hd1 Hd2]. exists p, σ', (h ∪ h1). split_and!; [done|by apply map_disjoint_union_l| |].
    - by apply (HΦ p).
    - rewrite (map_union_comm h); [|done]. by rewrite -(assoc_L (∪)). }
  destruct (m_choice σ) as [|i ch] eqn:Ech.
  { specialize (Hnew' []). by destruct σ; cbn in *; subst. }
  destruct (m_pool σ !! i) as [[k' p]|] eqn:Ei; [|apply Hnew'].
  destruct (decide (k' = k)) as [->|]; [|apply Hnew'].
  destruct Hi as (hp & Hdp & Hp & Hsub & Hn).
  assert (pool_inv (m_pool σ) ⊢ shape k p ∗ pool_inv (delete i (m_pool σ))) as Hsplit.
  { unfold pool_inv. rewrite delete_take_drop -{1}(take_drop_middle _ _ _ Ei) !big_sepL_app big_sepL_cons.
    iIntros "($ & $ & $)". }
  destruct Hsplit as [Hsplit]. apply Hsplit in Hp as (h1 & h2 & Hd & Hs & Hk & Hr).
  exists p. eexists _, (h ∪ h1). apply map_disjoint_union_l in Hdp as [Hdp1 Hdp2].
  assert (h1 ⊆ hp /\ h2 ⊆ hp) as [Hs1 Hs2].
  { split; (etrans; [|exact Hs]); [by apply map_union_subseteq_l|by apply map_union_subseteq_r]. }
  assert (h ##ₘ h1 /\ hf ##ₘ h1 /\ h ##ₘ h2 /\ hf ##ₘ h2) as (? & ? & ? & ?)
    by (split_and!; by apply (map_disjoint_weaken_r _ _ hp)).
  split; [done|]. split_and!; [by apply map_disjoint_union_l| |].
  - by apply (HΦ p).
  - exists h2. cbn. split_and!; [by rewrite !map_disjoint_union_l|done| |done].
    etrans; [|exact Hsub]. rewrite -(assoc_L (∪) h) (map_union_comm h1 hf); [|done].
    rewrite !(assoc_L (∪)) -(assoc_L (∪) _ h1). by apply map_union_mono_l.
Qed.
(** What a weakest precondition says of the runs of a program. *)
Lemma wp_adequate {A} (m : M V K A) Φ h σ : holds (wp m Φ) h -> interp σ h ->
  exists a σ' h', m σ = Ret (a, σ') /\ holds (Φ a) h' /\ interp σ' h'.
Proof.
  intros Hm Hi. destruct (Hm ∅ σ) as (a & σ' & h' & E & _ & HΦ & Hi'); [apply map_disjoint_empty_r|by rewrite right_id_L|].
  exists a, σ', h'. by rewrite right_id_L in Hi'.
Qed.

Definition mem_init (ch : list nat) : mem V K := {| m_heap := ∅; m_next := 1; m_pool := []; m_choice := ch |}.

Lemma interp_init ch : interp (mem_init ch) ∅.
Proof.
  exists ∅. split_and!; [apply map_disjoint_empty_l|by cbn|by rewrite left_id_L|]. intros a [c Hc]. done.
Qed.
End wp.
