(* ===== verification/Cloner.v ===== *)
(** The pools of internal/dnsmsg/cloner.go, httpscloner.go and optcloner.go, with
    the constructors of records of rrconstructor.go that they use and
    [appendIfNotNil] of dnsmsg.go.

    Messages are objects in a memory: structures with slices of arrays, which hold
    the pointers to the records and their values.  The pools hold the objects of
    disposed messages, whose arrays are used again.  The objects are the ones of
    miekg/dns; [dns.Copy] is a parameter.  Pointers in messages are not nil. *)

From iris.proofmode Require Import proofmode.
From S2P Require Import Prelude GoStd DnsMsg Heap.

Open Scope Z_scope.

(** * Objects *)

Inductive slice := Nil | Slice (ptr : Z) (len cap : nat).

(** The values of an HTTPS record, the options of an OPT record, the records and
    the messages, over the types of their sequences. *)
Inductive SVCB (Str Byt Cod Hin : Type) :=
  | KAlpn (alpn : Str)
  | KDoHPath (template : string)
  | KECHConfig (ech : Byt)
  | KIPv4Hint (hint : Hin)
  | KIPv6Hint (hint : Hin)
  | KLocal (keyCode : Z) (data : Byt)
  | KMandatory (code : Cod)
  | KPort (port : Z)
  | KNoDefaultAlpn
  | KOhttp
  | KOther (data : string).
Arguments KAlpn {_ _ _ _} _.
Arguments KDoHPath {_ _ _ _} _.
Arguments KECHConfig {_ _ _ _} _.
Arguments KIPv4Hint {_ _ _ _} _.
Arguments KIPv6Hint {_ _ _ _} _.
Arguments KLocal {_ _ _ _} _ _.
Arguments KMandatory {_ _ _ _} _.
Arguments KPort {_ _ _ _} _.
Arguments KNoDefaultAlpn {_ _ _ _}.
Arguments KOhttp {_ _ _ _}.
Arguments KOther {_ _ _ _} _.

Inductive EDNS (Byt : Type) :=
  | OCookie (code : Z) (cookie : string)
  | OEDE (infoCode : Z) (extraText : string)
  | OSubnet (code family sourceNetmask sourceScope : Z) (address : Byt)
  | OOther (data : string).
Arguments OCookie {_} _ _.
Arguments OEDE {_} _ _.
Arguments OSubnet {_} _ _ _ _ _.
Arguments OOther {_} _.

Inductive RRBody (Byt Str KVs Opts : Type) :=
  | BA (a : Byt)
  | BAAAA (aaaa : Byt)
  | BCNAME (target : string)
  | BHTTPS (priority : Z) (target : string) (value : KVs)
  | BMX (mx : string) (preference : Z)
  | BPTR (ptr : string)
  | BSRV (target : string) (priority weight port : Z)
  | BTXT (txt : Str)
  | BSOA (ns mbox : string) (serial refresh retry expire minttl : Z)
  | BOPT (option : Opts)
  | BOther (data : string).
Arguments BA {_ _ _ _} _.
Arguments BAAAA {_ _ _ _} _.
Arguments BCNAME {_ _ _ _} _.
Arguments BHTTPS {_ _ _ _} _ _ _.
Arguments BMX {_ _ _ _} _ _.
Arguments BPTR {_ _ _ _} _.
Arguments BSRV {_ _ _ _} _ _ _ _.
Arguments BTXT {_ _ _ _} _.
Arguments BSOA {_ _ _ _} _ _ _ _ _ _ _.
Arguments BOPT {_ _ _ _} _.
Arguments BOther {_ _ _ _} _.

Record MsgHdr := {
  mh_Id : Z;
  mh_Response : bool;
  mh_Opcode : Z;
  mh_Authoritative : bool;
  mh_Truncated : bool;
  mh_RecursionDesired : bool;
  mh_RecursionAvailable : bool;
  mh_Zero : bool;
  mh_AuthenticatedData : bool;
  mh_CheckingDisabled : bool;
  mh_Rcode : Z;
}.

Record MsgOf (Qs RRs : Type) := {
  mo_Hdr : MsgHdr;
  mo_Compress : bool;
  mo_Question : Qs;
  mo_Answer : RRs;
  mo_Ns : RRs;
  mo_Extra : RRs;
}.
Arguments mo_Hdr {_ _} _.
Arguments mo_Compress {_ _} _.
Arguments mo_Question {_ _} _.
Arguments mo_Answer {_ _} _.
Arguments mo_Ns {_ _} _.
Arguments mo_Extra {_ _} _.

(** The contents of values, options, records and messages; a nil slice is empty. *)
Notation kv_val := (SVCB (list string) (list Z) (list Z) (list (list Z))).
Notation opt_val := (EDNS (list Z)).
Notation rr_val := (RR_Header * RRBody (list Z) (list string) (list kv_val) (list opt_val))%type.
Notation msg_val := (MsgOf (list Question) (list rr_val)).

(** The cells of the memory: elements of arrays and structures.  An interface in an
    array is a pointer; the two values of an HTTPS record that are pointers to empty
    structures have no memory. *)
Inductive cell :=
  | CByte (b : Z)
  | CString (s : string)
  | CCode (z : Z)
  | CIP (ip : slice)
  | CQuestion (q : Question)
  | CPtr (p : Z)
  | CNoDefaultAlpn
  | COhttp
  | CMsg (m : MsgOf slice slice)
  | CRR (hdr : RR_Header) (rr : RRBody slice slice slice slice)
  | CKV (kv : SVCB slice slice slice slice)
  | COpt (o : EDNS slice).

(** * Pools *)

Inductive pool :=
  | PMsg | PA | PAAAA | PCNAME | PMX | PPTR | PSRV | PTXT | PHTTPS | PSOA | POPT
  | PAlpn | PDoHPath | PECHConfig | PIPv4Hint | PIPv6Hint | PLocal | PMandatory | PPort | PIP
  | PCookie | PEDE | PSubnet.
#[global] Instance pool_eq_dec : EqDecision pool.
Proof. solve_decision. Defined.

Notation prog := (M cell pool).

Definition zeroHdr : RR_Header := {| rh_Name := EmptyString; rh_Rrtype := 0; rh_Class := 0; rh_Ttl := 0 |}.
Definition zeroMsgHdr : MsgHdr := {|
  mh_Id := 0; mh_Response := false; mh_Opcode := 0; mh_Authoritative := false; mh_Truncated := false;
  mh_RecursionDesired := false; mh_RecursionAvailable := false; mh_Zero := false; mh_AuthenticatedData := false;
  mh_CheckingDisabled := false; mh_Rcode := 0 |}.
Definition zeroQuestion : Question := {| q_Name := EmptyString; q_Qtype := 0; q_Qclass := 0 |}.

(** The new objects of the pools. *)
Definition new (k : pool) : prog Z :=
  match k with
  | PMsg =>
      do q <- alloc [CQuestion zeroQuestion];
      alloc [CMsg {| mo_Hdr := zeroMsgHdr; mo_Compress := false; mo_Question := Slice q 1 1; mo_Answer := Nil;
                     mo_Ns := Nil; mo_Extra := Nil |}]
  | PA => alloc [CRR zeroHdr (BA Nil)]
  | PAAAA => alloc [CRR zeroHdr (BAAAA Nil)]
  | PCNAME => alloc [CRR zeroHdr (BCNAME EmptyString)]
  | PMX => alloc [CRR zeroHdr (BMX EmptyString 0)]
  | PPTR => alloc [CRR zeroHdr (BPTR EmptyString)]
  | PSRV => alloc [CRR zeroHdr (BSRV EmptyString 0 0 0)]
  | PTXT => alloc [CRR zeroHdr (BTXT Nil)]
  | PHTTPS => alloc [CRR zeroHdr (BHTTPS 0 EmptyString Nil)]
  | PSOA => alloc [CRR zeroHdr (BSOA EmptyString EmptyString 0 0 0 0 0)]
  | POPT => alloc [CRR zeroHdr (BOPT Nil)]
  | PAlpn => alloc [CKV (KAlpn Nil)]
  | PDoHPath => alloc [CKV (KDoHPath EmptyString)]
  | PECHConfig => alloc [CKV (KECHConfig Nil)]
  | PIPv4Hint => alloc [CKV (KIPv4Hint Nil)]
  | PIPv6Hint => alloc [CKV (KIPv6Hint Nil)]
  | PLocal => alloc [CKV (KLocal 0 Nil)]
  | PMandatory => alloc [CKV (KMandatory Nil)]
  | PPort => alloc [CKV (KPort 0)]
  | PIP => alloc (replicate 16 (CByte 0))
  | PCookie => alloc [COpt (OCookie 0 EmptyString)]
  | PEDE => alloc [COpt (OEDE 0 EmptyString)]
  | PSubnet =>
      do a <- alloc (replicate 16 (CByte 0));
      alloc [COpt (OSubnet 0 0 0 0 (Slice a 16 16))]
  end.

Definition get (k : pool) : prog Z := Get (new k) k.

(** * Slices *)

Fixpoint read_cells (p : Z) (n : nat) : prog (list cell) :=
  match n with
  | O => gret []
  | S n => do c <- load p; do l <- read_cells (p + 1) n; gret (c :: l)
  end.

Fixpoint write_cells (p : Z) (l : list cell) : prog unit :=
  match l with
  | [] => gret tt
  | c :: l => store p c;; write_cells (p + 1) l
  end.

Definition elems (s : slice) : prog (list cell) :=
  match s with Nil => gret [] | Slice p n _ => read_cells p n end.

(** [s[:0]]. *)
Definition reslice0 (s : slice) : slice := match s with Nil => Nil | Slice p _ c => Slice p 0 c end.

Section cloner.
(** How much more than needed [append] allocates. *)
Variable grow : nat -> nat.

(** A new array with some elements; the rest of it is never read. *)
Definition new_array (l : list cell) : prog slice :=
  do p <- alloc (l ++ replicate (grow (length l)) (CByte 0));
  gret (Slice p (length l) (length l + grow (length l))).

Definition append (s : slice) (l : list cell) : prog slice :=
  match s, l with
  | Nil, [] => gret Nil
  | Nil, _ => new_array l
  | Slice p n c, _ =>
      if (n + length l <=? c)%nat
      then write_cells (p + Z.of_nat n) l;; gret (Slice p (n + length l) c)
      else do old <- read_cells p n; new_array (old ++ l)
  end.

Definition appendIfNotNil (clones original : slice) : prog slice :=
  match original with
  | Nil => gret Nil
  | Slice _ O _ => gret (Slice 0 0 0)
  | Slice p n _ => do l <- read_cells p n; append clones l
  end.

(** The slice of an object. *)
Definition slice_of (c : cell) : slice :=
  match c with
  | CRR _ (BA s | BAAAA s | BTXT s | BHTTPS _ _ s | BOPT s) => s
  | CKV (KAlpn s | KECHConfig s | KIPv4Hint s | KIPv6Hint s | KLocal _ s | KMandatory s) => s
  | COpt (OSubnet _ _ _ _ s) => s
  | _ => Nil
  end.

Definition hdr_of (c : cell) : RR_Header := match c with CRR hdr _ => hdr | _ => zeroHdr end.

(** * Cloning *)

(** [dns.Copy]. *)
Variable dns_Copy : Z -> prog Z.

(** The constructors of records, without the headers. *)
Definition newANetIP (ip : slice) : prog Z :=
  do rr <- get PA; do old <- load rr; do a <- appendIfNotNil (reslice0 (slice_of old)) ip;
  store rr (CRR (hdr_of old) (BA a));; gret rr.

Definition newAAAANetIP (ip : slice) : prog Z :=
  do rr <- get PAAAA; do old <- load rr; do a <- appendIfNotNil (reslice0 (slice_of old)) ip;
  store rr (CRR (hdr_of old) (BAAAA a));; gret rr.

Definition newCNAME (target : string) : prog Z :=
  do rr <- get PCNAME; do old <- load rr; store rr (CRR (hdr_of old) (BCNAME target));; gret rr.

Definition newMX (mx : string) (pref : Z) : prog Z :=
  do rr <- get PMX; do old <- load rr; store rr (CRR (hdr_of old) (BMX mx pref));; gret rr.

Definition newPTR (ptr : string) : prog Z :=
  do rr <- get PPTR; do old <- load rr; store rr (CRR (hdr_of old) (BPTR ptr));; gret rr.

Definition newSRV (target : string) (prio weight port : Z) : prog Z :=
  do rr <- get PSRV; do old <- load rr; store rr (CRR (hdr_of old) (BSRV target prio weight port));; gret rr.

Definition newTXT (txt : slice) : prog Z :=
  do rr <- get PTXT; do old <- load rr; do t <- appendIfNotNil (reslice0 (slice_of old)) txt;
  store rr (CRR (hdr_of old) (BTXT t));; gret rr.

(** ** httpscloner.go *)

Fixpoint append_ips (ips : list cell) (hints : slice) : prog slice :=
  match ips with
  | [] => gret hints
  | origIP :: ips =>
      match origIP with
      | CIP s =>
          do ipArr <- get PIP;
          do l <- elems s;
          do ip <- append (Slice ipArr 0 16) l;
          do hints <- append hints [CIP ip];
          append_ips ips hints
      | _ => gpanic "not an address"
      end
  end.

Definition appendIPs (hints orig : slice) : prog slice :=
  match orig with
  | Nil => gret Nil
  | Slice _ O _ => gret (Slice 0 0 0)
  | Slice p n _ => do l <- read_cells p n; append_ips l hints
  end.

Definition cloneIfHint (orig : SVCB slice slice slice slice) : prog (option cell) :=
  match orig with
  | KIPv4Hint hint =>
      do v <- get PIPv4Hint; do old <- load v; do h <- appendIPs (reslice0 (slice_of old)) hint;
      store v (CKV (KIPv4Hint h));; gret (Some (CPtr v))
  | KIPv6Hint hint =>
      do v <- get PIPv6Hint; do old <- load v; do h <- appendIPs (reslice0 (slice_of old)) hint;
      store v (CKV (KIPv6Hint h));; gret (Some (CPtr v))
  | _ => gret None
  end.

Definition clone_kv (orig : SVCB slice slice slice slice) : prog (option cell) :=
  match orig with
  | KAlpn alpn =>
      do v <- get PAlpn; do old <- load v; do s <- appendIfNotNil (reslice0 (slice_of old)) alpn;
      store v (CKV (KAlpn s));; gret (Some (CPtr v))
  | KDoHPath _ => do v <- get PDoHPath; store v (CKV orig);; gret (Some (CPtr v))
  | KECHConfig ech =>
      do v <- get PECHConfig; do old <- load v; do s <- appendIfNotNil (reslice0 (slice_of old)) ech;
      store v (CKV (KECHConfig s));; gret (Some (CPtr v))
  | KLocal keyCode data =>
      do v <- get PLocal; do old <- load v; do s <- appendIfNotNil (reslice0 (slice_of old)) data;
      store v (CKV (KLocal keyCode s));; gret (Some (CPtr v))
  | KMandatory code =>
      do v <- get PMandatory; do old <- load v; do s <- appendIfNotNil (reslice0 (slice_of old)) code;
      store v (CKV (KMandatory s));; gret (Some (CPtr v))
  | KPort _ => do v <- get PPort; store v (CKV orig);; gret (Some (CPtr v))
  | _ => cloneIfHint orig
  end.

Definition cloneKV (orig : cell) : prog (option cell) :=
  match orig with
  | CNoDefaultAlpn | COhttp => gret (Some orig)
  | CPtr p =>
      do o <- load p;
      match o with CKV kv => clone_kv kv | _ => gpanic "not a value" end
  | _ => gpanic "not a value"
  end.

(** The loop over the values, and the one over the options: the new slice, or none
    if one of them is not known. *)
Fixpoint clone_each (clone : cell -> prog (option cell)) (origs : list cell) (res : slice) : prog (option slice) :=
  match origs with
  | [] => gret (Some res)
  | orig :: origs =>
      do c <- clone orig;
      match c with
      | None => gret None
      | Some c => do res <- append res [c]; clone_each clone origs res
      end
  end.

Definition https_clone (rr : Z) : prog (Z * bool) :=
  do o <- load rr;
  match o with
  | CRR hdr (BHTTPS priority target value) =>
      do clone <- get PHTTPS;
      match value with
      | Nil => store clone (CRR hdr (BHTTPS priority target Nil));; gret (clone, true)
      | Slice p n _ =>
          do old <- load clone;
          do l <- read_cells p n;
          do v <- clone_each cloneKV l (reslice0 (slice_of old));
          match v with
          | None => do copy <- dns_Copy rr; gret (copy, false)
          | Some v => store clone (CRR hdr (BHTTPS priority target v));; gret (clone, true)
          end
      end
  | _ => gpanic "not an https record"
  end.

(** ** optcloner.go *)

Definition clone_option (orig : cell) : prog (option cell) :=
  match orig with
  | CPtr p =>
      do o <- load p;
      match o with
      | COpt (OCookie _ _) => do opt <- get PCookie; store opt o;; gret (Some (CPtr opt))
      | COpt (OEDE _ _) => do opt <- get PEDE; store opt o;; gret (Some (CPtr opt))
      | COpt (OSubnet code family mask scope address) =>
          do opt <- get PSubnet; do old <- load opt; do l <- elems address;
          do a <- append (reslice0 (slice_of old)) l;
          store opt (COpt (OSubnet code family mask scope a));; gret (Some (CPtr opt))
      | COpt (OOther _) => gret None
      | _ => gpanic "not an option"
      end
  | _ => gpanic "not an option"
  end.

Definition opt_clone (rr : Z) : prog (Z * bool) :=
  do o <- load rr;
  match o with
  | CRR hdr (BOPT opts) =>
      do clone <- get POPT;
      match opts with
      | Nil => store clone (CRR hdr (BOPT Nil));; gret (clone, true)
      | Slice p n _ =>
          do old <- load clone;
          do l <- read_cells p n;
          do v <- clone_each clone_option l (reslice0 (slice_of old));
          match v with
          | None => do copy <- dns_Copy rr; gret (copy, false)
          | Some v => store clone (CRR hdr (BOPT v));; gret (clone, true)
          end
      end
  | _ => gpanic "not an opt record"
  end.

(** ** cloner.go *)

(** [*clone.Header() = *orig.Header()]. *)
Definition setHeader (clone : Z) (hdr : RR_Header) : prog (Z * bool) :=
  do c <- load clone;
  match c with
  | CRR _ body => store clone (CRR hdr body);; gret (clone, true)
  | _ => gpanic "not a record"
  end.

Definition cloneAnswerRR (orig : Z) : prog (Z * bool) :=
  do o <- load orig;
  match o with
  | CRR hdr body =>
      match body with
      | BA ip => do c <- newANetIP ip; setHeader c hdr
      | BAAAA ip => do c <- newAAAANetIP ip; setHeader c hdr
      | BCNAME target => do c <- newCNAME target; setHeader c hdr
      | BHTTPS _ _ _ => https_clone orig
      | BMX mx pref => do c <- newMX mx pref; setHeader c hdr
      | BPTR ptr => do c <- newPTR ptr; setHeader c hdr
      | BSRV target prio weight port => do c <- newSRV target prio weight port; setHeader c hdr
      | BTXT txt => do c <- newTXT txt; setHeader c hdr
      | _ => do c <- dns_Copy orig; gret (c, false)
      end
  | _ => gpanic "not a record"
  end.

Definition cloneNsRR (orig : Z) : prog (Z * bool) :=
  do o <- load orig;
  match o with
  | CRR _ (BSOA _ _ _ _ _ _ _) => do ns <- get PSOA; store ns o;; gret (ns, true)
  | CRR _ _ => do c <- dns_Copy orig; gret (c, false)
  | _ => gpanic "not a record"
  end.

Definition cloneExtraRR (orig : Z) : prog (Z * bool) :=
  do o <- load orig;
  match o with
  | CRR _ (BOPT _) => opt_clone orig
  | CRR _ _ => do c <- dns_Copy orig; gret (c, false)
  | _ => gpanic "not a record"
  end.

(** The loop that the three sections share. *)
Fixpoint append_rrs (cloneRR : Z -> prog (Z * bool)) (rrs : list cell) (clones : slice) (full : bool) : prog (slice * bool) :=
  match rrs with
  | [] => gret (clones, full)
  | CPtr orig :: rrs =>
      do r <- cloneRR orig;
      do clones <- append clones [CPtr (fst r)];
      append_rrs cloneRR rrs clones (full && snd r)
  | _ => gpanic "not a record"
  end.

Definition append_section (cloneRR : Z -> prog (Z * bool)) (clones original : slice) : prog (slice * bool) :=
  match original with
  | Nil => gret (Nil, true)
  | Slice p n _ => do l <- read_cells p n; append_rrs cloneRR l clones true
  end.

Definition appendAnswer : slice -> slice -> prog (slice * bool) := append_section cloneAnswerRR.
Definition appendNS : slice -> slice -> prog (slice * bool) := append_section cloneNsRR.
Definition appendExtra : slice -> slice -> prog (slice * bool) := append_section cloneExtraRR.

(** The clone, and whether it is full, which is the argument of [OnClone]. *)
Definition Clone (msg : option Z) : prog (option Z * bool) :=
  match msg with
  | None => gret (None, true)
  | Some msg =>
      do clone <- get PMsg;
      do om <- load msg;
      do oc <- load clone;
      match om, oc with
      | CMsg m, CMsg c =>
          do question <- appendIfNotNil (reslice0 (mo_Question c)) (mo_Question m);
          do ans <- appendAnswer (reslice0 (mo_Answer c)) (mo_Answer m);
          do ns <- appendNS (reslice0 (mo_Ns c)) (mo_Ns m);
          do ex <- appendExtra (reslice0 (mo_Extra c)) (mo_Extra m);
          store clone (CMsg {| mo_Hdr := mo_Hdr m; mo_Compress := mo_Compress m; mo_Question := question;
                               mo_Answer := fst ans; mo_Ns := fst ns; mo_Extra := fst ex |});;
          gret (Some clone, snd ans && snd ns && snd ex)
      | _, _ => gpanic "not a message"
      end
  end.

(** * Disposing *)

Fixpoint each (f : cell -> prog unit) (l : list cell) : prog unit :=
  match l with
  | [] => gret tt
  | c :: l => f c;; each f l
  end.

(** The conversion of [ip[:16]] to a pointer to an array. *)
Definition putIP (c : cell) : prog unit :=
  match c with
  | CIP (Slice p _ cap) => if (16 <=? cap)%nat then Put PIP p else gret tt
  | _ => gret tt
  end.

Definition putIPs (ips : slice) : prog unit := do l <- elems ips; each putIP l.

Definition putKV (c : cell) : prog unit :=
  match c with
  | CPtr p =>
      do o <- load p;
      match o with
      | CKV (KAlpn _) => Put PAlpn p
      | CKV (KDoHPath _) => Put PDoHPath p
      | CKV (KECHConfig _) => Put PECHConfig p
      | CKV (KIPv4Hint hint) => putIPs hint;; Put PIPv4Hint p
      | CKV (KIPv6Hint hint) => putIPs hint;; Put PIPv6Hint p
      | CKV (KLocal _ _) => Put PLocal p
      | CKV (KMandatory _) => Put PMandatory p
      | CKV (KPort _) => Put PPort p
      | _ => gret tt
      end
  | _ => gret tt
  end.

Definition put_option (c : cell) : prog unit :=
  match c with
  | CPtr p =>
      do o <- load p;
      match o with
      | COpt (OCookie _ _) => Put PCookie p
      | COpt (OSubnet _ _ _ _ _) => Put PSubnet p
      | COpt (OEDE _ _) => Put PEDE p
      | _ => gret tt
      end
  | _ => gret tt
  end.

Definition put_answer (c : cell) : prog unit :=
  match c with
  | CPtr p =>
      do o <- load p;
      match o with
      | CRR _ (BA _) => Put PA p
      | CRR _ (BAAAA _) => Put PAAAA p
      | CRR _ (BCNAME _) => Put PCNAME p
      | CRR _ (BHTTPS _ _ value) => do l <- elems value; each putKV l;; Put PHTTPS p
      | CRR _ (BMX _ _) => Put PMX p
      | CRR _ (BPTR _) => Put PPTR p
      | CRR _ (BSRV _ _ _ _) => Put PSRV p
      | CRR _ (BTXT _) => Put PTXT p
      | _ => gret tt
      end
  | _ => gret tt
  end.

Definition putAnswers (answers : slice) : prog unit := do l <- elems answers; each put_answer l.

Definition put_ns (c : cell) : prog unit :=
  match c with
  | CPtr p => do o <- load p; match o with CRR _ (BSOA _ _ _ _ _ _ _) => Put PSOA p | _ => gret tt end
  | _ => gret tt
  end.

Definition put_extra (c : cell) : prog unit :=
  match c with
  | CPtr p =>
      do o <- load p;
      match o with
      | CRR _ (BOPT opts) => do l <- elems opts; each put_option l;; Put POPT p
      | _ => gret tt
      end
  | _ => gret tt
  end.

Definition Dispose (resp : option Z) : prog unit :=
  match resp with
  | None => gret tt
  | Some resp =>
      do o <- load resp;
      match o with
      | CMsg m =>
          putAnswers (mo_Answer m);;
          (do l <- elems (mo_Ns m); each put_ns l);;
          (do l <- elems (mo_Extra m); each put_extra l);;
          Put PMsg resp
      | _ => gpanic "not a message"
      end
  end.

(** * Contents *)

Definition byte_of_cell (c : cell) : Z := match c with CByte b => b | _ => 0 end.
Definition string_of_cell (c : cell) : string := match c with CString s => s | _ => EmptyString end.
Definition code_of_cell (c : cell) : Z := match c with CCode z => z | _ => 0 end.
Definition question_of_cell (c : cell) : Question := match c with CQuestion q => q | _ => zeroQuestion end.

Fixpoint read_each {A} (f : cell -> prog A) (l : list cell) : prog (list A) :=
  match l with
  | [] => gret []
  | c :: l => do a <- f c; do r <- read_each f l; gret (a :: r)
  end.

Definition read_seq {A} (f : cell -> prog A) (s : slice) : prog (list A) := do l <- elems s; read_each f l.
Definition read_flat {A} (f : cell -> A) (s : slice) : prog (list A) := do l <- elems s; gret (f <$> l).

Definition read_ip (c : cell) : prog (list Z) :=
  match c with CIP s => read_flat byte_of_cell s | _ => gpanic "not an address" end.

Definition read_kv (c : cell) : prog kv_val :=
  match c with
  | CNoDefaultAlpn => gret KNoDefaultAlpn
  | COhttp => gret KOhttp
  | CPtr p =>
      do o <- load p;
      match o with
      | CKV (KAlpn s) => do l <- read_flat string_of_cell s; gret (KAlpn l)
      | CKV (KDoHPath t) => gret (KDoHPath t)
      | CKV (KECHConfig s) => do l <- read_flat byte_of_cell s; gret (KECHConfig l)
      | CKV (KIPv4Hint s) => do l <- read_seq read_ip s; gret (KIPv4Hint l)
      | CKV (KIPv6Hint s) => do l <- read_seq read_ip s; gret (KIPv6Hint l)
      | CKV (KLocal a s) => do l <- read_flat byte_of_cell s; gret (KLocal a l)
      | CKV (KMandatory s) => do l <- read_flat code_of_cell s; gret (KMandatory l)
      | CKV (KPort a) => gret (KPort a)
      | CKV (KOther a) => gret (KOther a)
      | _ => gpanic "not a value"
      end
  | _ => gpanic "not a value"
  end.

Definition read_opt (c : cell) : prog opt_val :=
  match c with
  | CPtr p =>
      do o <- load p;
      match o with
      | COpt (OCookie a b) => gret (OCookie a b)
      | COpt (OEDE a b) => gret (OEDE a b)
      | COpt (OSubnet a b c d s) => do l <- read_flat byte_of_cell s; gret (OSubnet a b c d l)
      | COpt (OOther a) => gret (OOther a)
      | _ => gpanic "not an option"
      end
  | _ => gpanic "not an option"
  end.

Definition read_rr (c : cell) : prog rr_val :=
  match c with
  | CPtr p =>
      do o <- load p;
      match o with
      | CRR hdr body =>
          match body with
          | BA s => do l <- read_flat byte_of_cell s; gret (hdr, BA l)
          | BAAAA s => do l <- read_flat byte_of_cell s; gret (hdr, BAAAA l)
          | BCNAME a => gret (hdr, BCNAME a)
          | BHTTPS a b s => do l <- read_seq read_kv s; gret (hdr, BHTTPS a b l)
          | BMX a b => gret (hdr, BMX a b)
          | BPTR a => gret (hdr, BPTR a)
          | BSRV a b c d => gret (hdr, BSRV a b c d)
          | BTXT s => do l <- read_flat string_of_cell s; gret (hdr, BTXT l)
          | BSOA a b c d e f g => gret (hdr, BSOA a b c d e f g)
          | BOPT s => do l <- read_seq read_opt s; gret (hdr, BOPT l)
          | BOther a => gret (hdr, BOther a)
          end
      | _ => gpanic "not a record"
      end
  | _ => gpanic "not a record"
  end.

Definition read_msg (p : Z) : prog msg_val :=
  do o <- load p;
  match o with
  | CMsg m =>
      do q <- read_flat question_of_cell (mo_Question m);
      do a <- read_seq read_rr (mo_Answer m);
      do n <- read_seq read_rr (mo_Ns m);
      do e <- read_seq read_rr (mo_Extra m);
      gret {| mo_Hdr := mo_Hdr m; mo_Compress := mo_Compress m; mo_Question := q; mo_Answer := a; mo_Ns := n; mo_Extra := e |}
  | _ => gpanic "not a message"
  end.

(** New messages with some contents, with an array for every slice. *)
Fixpoint new_each {A} (f : A -> prog cell) (l : list A) : prog (list cell) :=
  match l with
  | [] => gret []
  | a :: l => do c <- f a; do r <- new_each f l; gret (c :: r)
  end.

Definition new_seq {A} (f : A -> prog cell) (l : list A) : prog slice := do cs <- new_each f l; new_array cs.

Definition new_obj (c : cell) : prog cell := do p <- alloc [c]; gret (CPtr p).

Definition new_ip (ip : list Z) : prog cell := do s <- new_array (CByte <$> ip); gret (CIP s).

Definition new_kv (v : kv_val) : prog cell :=
  match v with
  | KNoDefaultAlpn => gret CNoDefaultAlpn
  | KOhttp => gret COhttp
  | KAlpn l => do s <- new_array (CString <$> l); new_obj (CKV (KAlpn s))
  | KDoHPath a => new_obj (CKV (KDoHPath a))
  | KECHConfig l => do s <- new_array (CByte <$> l); new_obj (CKV (KECHConfig s))
  | KIPv4Hint l => do s <- new_seq new_ip l; new_obj (CKV (KIPv4Hint s))
  | KIPv6Hint l => do s <- new_seq new_ip l; new_obj (CKV (KIPv6Hint s))
  | KLocal a l => do s <- new_array (CByte <$> l); new_obj (CKV (KLocal a s))
  | KMandatory l => do s <- new_array (CCode <$> l); new_obj (CKV (KMandatory s))
  | KPort a => new_obj (CKV (KPort a))
  | KOther a => new_obj (CKV (KOther a))
  end.

Definition new_opt (v : opt_val) : prog cell :=
  match v with
  | OCookie a b => new_obj (COpt (OCookie a b))
  | OEDE a b => new_obj (COpt (OEDE a b))
  | OSubnet a b c d l => do s <- new_array (CByte <$> l); new_obj (COpt (OSubnet a b c d s))
  | OOther a => new_obj (COpt (OOther a))
  end.

Definition new_rr (v : rr_val) : prog cell :=
  let hdr := fst v in
  match snd v with
  | BA l => do s <- new_array (CByte <$> l); new_obj (CRR hdr (BA s))
  | BAAAA l => do s <- new_array (CByte <$> l); new_obj (CRR hdr (BAAAA s))
  | BCNAME a => new_obj (CRR hdr (BCNAME a))
  | BHTTPS a b l => do s <- new_seq new_kv l; new_obj (CRR hdr (BHTTPS a b s))
  | BMX a b => new_obj (CRR hdr (BMX a b))
  | BPTR a => new_obj (CRR hdr (BPTR a))
  | BSRV a b c d => new_obj (CRR hdr (BSRV a b c d))
  | BTXT l => do s <- new_array (CString <$> l); new_obj (CRR hdr (BTXT s))
  | BSOA a b c d e f g => new_obj (CRR hdr (BSOA a b c d e f g))
  | BOPT l => do s <- new_seq new_opt l; new_obj (CRR hdr (BOPT s))
  | BOther a => new_obj (CRR hdr (BOther a))
  end.

Definition new_msg (v : msg_val) : prog Z :=
  do q <- new_array (CQuestion <$> mo_Question v);
  do a <- new_seq new_rr (mo_Answer v);
  do n <- new_seq new_rr (mo_Ns v);
  do e <- new_seq new_rr (mo_Extra v);
  alloc [CMsg {| mo_Hdr := mo_Hdr v; mo_Compress := mo_Compress v; mo_Question := q; mo_Answer := a; mo_Ns := n; mo_Extra := e |}].

(** A copy of a record with new memory, as [dns.Copy] makes one. *)
Definition copy_rr (p : Z) : prog Z :=
  do v <- read_rr (CPtr p);
  do c <- new_rr v;
  match c with CPtr p => gret p | _ => gpanic "not a record" end.

(** ** Runs *)

Inductive section := SAnswer | SNs | SExtra.

Definition get_sec {Qs RRs} (sec : section) (m : MsgOf Qs RRs) : RRs :=
  match sec with SAnswer => mo_Answer m | SNs => mo_Ns m | SExtra => mo_Extra m end.

Definition set_sec {Qs RRs} (sec : section) (m : MsgOf Qs RRs) (l : RRs) : MsgOf Qs RRs := {|
  mo_Hdr := mo_Hdr m; mo_Compress := mo_Compress m; mo_Question := mo_Question m;
  mo_Answer := match sec with SAnswer => l | _ => mo_Answer m end;
  mo_Ns := match sec with SNs => l | _ => mo_Ns m end;
  mo_Extra := match sec with SExtra => l | _ => mo_Extra m end |}.

(** What the users of a cloner do: they receive messages, clone and dispose of the
    ones they have, and write to them: to the header of a message, to that of a record
    in it, such as a TTL, to a byte of the address of a record, and they append a record
    to a section. *)
Inductive event :=
  | ENew (v : msg_val)
  | EClone (i : nat)
  | EDispose (i : nat)
  | ESetHdr (i : nat) (hdr : MsgHdr)
  | ESetRRHdr (i : nat) (sec : section) (j : nat) (hdr : RR_Header)
  | ESetByte (i : nat) (sec : section) (j k : nat) (b : Z)
  | EAppendRR (i : nat) (sec : section) (v : rr_val).

Definition set_mo_Hdr {Qs RRs} (m : MsgOf Qs RRs) (hdr : MsgHdr) : MsgOf Qs RRs := {|
  mo_Hdr := hdr; mo_Compress := mo_Compress m; mo_Question := mo_Question m; mo_Answer := mo_Answer m; mo_Ns := mo_Ns m;
  mo_Extra := mo_Extra m |}.

(** The message at an address, and the record [j] of a section of it. *)
Definition with_msg (p : Z) (f : MsgOf slice slice -> prog unit) : prog unit :=
  do o <- load p; match o with CMsg m => f m | _ => gpanic "not a message" end.

Definition with_rr (p : Z) (sec : section) (j : nat) (f : Z -> RR_Header -> RRBody slice slice slice slice -> prog unit)
    : prog unit :=
  with_msg p (fun m =>
    do l <- elems (get_sec sec m);
    match l !! j with
    | Some (CPtr rp) => do o <- load rp; match o with CRR hdr body => f rp hdr body | _ => gpanic "not a record" end
    | Some _ => gpanic "not a pointer"
    | None => gret tt
    end).

(** [s[k] = b] for a byte of an address; writes outside of it are left out. *)
Definition set_byte (k : nat) (b : Z) (s : slice) : prog unit :=
  match s with
  | Slice p n _ => if (k <? n)%nat then store (p + Z.of_nat k) (CByte b) else gret tt
  | Nil => gret tt
  end.

(** The writes to a message. *)
Definition write_event (ev : event) (p : Z) : prog unit :=
  match ev with
  | ESetHdr _ hdr => with_msg p (fun m => store p (CMsg (set_mo_Hdr m hdr)))
  | ESetRRHdr _ sec j hdr => with_rr p sec j (fun rp _ body => store rp (CRR hdr body))
  | ESetByte _ sec j k b =>
      with_rr p sec j (fun _ _ body => match body with BA s | BAAAA s => set_byte k b s | _ => gret tt end)
  | EAppendRR _ sec v =>
      do c <- new_rr v;
      with_msg p (fun m => do s <- append (get_sec sec m) [c]; store p (CMsg (set_sec sec m s)))
  | _ => gret tt
  end.

Definition exec_event (ev : event) (live : list (option Z)) : prog (list (option Z)) :=
  match ev with
  | ENew v => do p <- new_msg v; gret (live ++ [Some p])
  | EClone i =>
      match live !! i with
      | Some (Some p) => do r <- Clone (Some p); gret (live ++ [fst r])
      | _ => gret live
      end
  | EDispose i =>
      match live !! i with
      | Some (Some p) => Dispose (Some p);; gret (<[i:=None]> live)
      | _ => gret live
      end
  | ESetHdr i _ | ESetRRHdr i _ _ _ | ESetByte i _ _ _ _ | EAppendRR i _ _ =>
      match live !! i with
      | Some (Some p) => write_event ev p;; gret live
      | _ => gret live
      end
  end.

Fixpoint exec_events (evs : list event) (live : list (option Z)) : prog (list (option Z)) :=
  match evs with
  | [] => gret live
  | ev :: evs => do live <- exec_event ev live; exec_events evs live
  end.

(** The same on contents: a clone is another value, and nothing is shared. *)
Definition spec_byte (k : nat) (b : Z) (v : rr_val) : rr_val :=
  (v.1, match v.2 with BA l => BA (<[k:=b]> l) | BAAAA l => BAAAA (<[k:=b]> l) | body => body end).

Definition spec_write (ev : event) (v : msg_val) : msg_val :=
  match ev with
  | ESetHdr _ hdr => set_mo_Hdr v hdr
  | ESetRRHdr _ sec j hdr => set_sec sec v (alter (fun r => (hdr, r.2)) j (get_sec sec v))
  | ESetByte _ sec j k b => set_sec sec v (alter (spec_byte k b) j (get_sec sec v))
  | EAppendRR _ sec r => set_sec sec v (get_sec sec v ++ [r])
  | _ => v
  end.

Definition spec_event (ev : event) (live : list (option msg_val)) : list (option msg_val) :=
  match ev with
  | ENew v => live ++ [Some v]
  | EClone i => match live !! i with Some (Some v) => live ++ [Some v] | _ => live end
  | EDispose i => match live !! i with Some (Some _) => <[i:=None]> live | _ => live end
  | ESetHdr i _ | ESetRRHdr i _ _ _ | ESetByte i _ _ _ _ | EAppendRR i _ _ =>
      match live !! i with Some (Some v) => <[i:=Some (spec_write ev v)]> live | _ => live end
  end.

Definition spec_events (evs : list event) : list (option msg_val) := foldl (fun l ev => spec_event ev l) [] evs.

(** * Ownership *)

(** A slice owns its whole array, with the elements beyond its length. *)
Definition slice_cells (s : slice) (cs : list cell) : hProp cell :=
  match s with
  | Nil => ⌜cs = []⌝
  | Slice p n cap => ∃ junk, ⌜length cs = n /\ (n + length junk = cap)%nat⌝ ∗ arr p (cs ++ junk)
  end%I.

Definition slice_any (s : slice) : hProp cell := (∃ cs, slice_cells s cs)%I.

(** The elements of a slice with what they own. *)
Definition seq_at {A} (R : cell -> A -> hProp cell) (s : slice) (l : list A) : hProp cell :=
  (∃ cs, slice_cells s cs ∗ [∗ list] c;a ∈ cs;l, R c a)%I.

Definition ip_at (c : cell) (ip : list Z) : hProp cell := (∃ s, ⌜c = CIP s⌝ ∗ slice_cells s (CByte <$> ip))%I.

Definition kv_obj (o : SVCB slice slice slice slice) (v : kv_val) : hProp cell :=
  match o, v with
  | KAlpn s, KAlpn l => slice_cells s (CString <$> l)
  | KDoHPath a, KDoHPath b => ⌜a = b⌝
  | KECHConfig s, KECHConfig l => slice_cells s (CByte <$> l)
  | KIPv4Hint s, KIPv4Hint l => seq_at ip_at s l
  | KIPv6Hint s, KIPv6Hint l => seq_at ip_at s l
  | KLocal a s, KLocal b l => ⌜a = b⌝ ∗ slice_cells s (CByte <$> l)
  | KMandatory s, KMandatory l => slice_cells s (CCode <$> l)
  | KPort a, KPort b => ⌜a = b⌝
  | KOther a, KOther b => ⌜a = b⌝
  | _, _ => False
  end%I.

Definition kv_at (c : cell) (v : kv_val) : hProp cell :=
  match c, v with
  | CNoDefaultAlpn, KNoDefaultAlpn => True
  | COhttp, KOhttp => True
  | CPtr p, _ => ∃ o, pt p (CKV o) ∗ kv_obj o v
  | _, _ => False
  end%I.

Definition opt_obj (o : EDNS slice) (v : opt_val) : hProp cell :=
  match o, v with
  | OCookie a b, OCookie a' b' => ⌜a = a' /\ b = b'⌝
  | OEDE a b, OEDE a' b' => ⌜a = a' /\ b = b'⌝
  | OSubnet a b c d s, OSubnet a' b' c' d' l => ⌜a = a' /\ b = b' /\ c = c' /\ d = d'⌝ ∗ slice_cells s (CByte <$> l)
  | OOther a, OOther b => ⌜a = b⌝
  | _, _ => False
  end%I.

Definition opt_at (c : cell) (v : opt_val) : hProp cell :=
  (∃ p o, ⌜c = CPtr p⌝ ∗ pt p (COpt o) ∗ opt_obj o v)%I.

Definition rr_obj (o : RRBody slice slice slice slice)
    (v : RRBody (list Z) (list string) (list kv_val) (list opt_val)) : hProp cell :=
  match o, v with
  | BA s, BA l => slice_cells s (CByte <$> l)
  | BAAAA s, BAAAA l => slice_cells s (CByte <$> l)
  | BCNAME a, BCNAME b => ⌜a = b⌝
  | BHTTPS a b s, BHTTPS a' b' l => ⌜a = a' /\ b = b'⌝ ∗ seq_at kv_at s l
  | BMX a b, BMX a' b' => ⌜a = a' /\ b = b'⌝
  | BPTR a, BPTR b => ⌜a = b⌝
  | BSRV a b c d, BSRV a' b' c' d' => ⌜a = a' /\ b = b' /\ c = c' /\ d = d'⌝
  | BTXT s, BTXT l => slice_cells s (CString <$> l)
  | BSOA a b c d e f g, BSOA a' b' c' d' e' f' g' => ⌜(a, b, c, d, e, f, g) = (a', b', c', d', e', f', g')⌝
  | BOPT s, BOPT l => seq_at opt_at s l
  | BOther a, BOther b => ⌜a = b⌝
  | _, _ => False
  end%I.

Definition rr_at (p : Z) (v : rr_val) : hProp cell := (∃ o, pt p (CRR v.1 o) ∗ rr_obj o v.2)%I.
Definition rr_ref (c : cell) (v : rr_val) : hProp cell := (∃ p, ⌜c = CPtr p⌝ ∗ rr_at p v)%I.

Definition msg_at (p : Z) (v : msg_val) : hProp cell :=
  (∃ q a n e, pt p (CMsg {| mo_Hdr := mo_Hdr v; mo_Compress := mo_Compress v; mo_Question := q; mo_Answer := a;
                            mo_Ns := n; mo_Extra := e |}) ∗
    slice_cells q (CQuestion <$> mo_Question v) ∗ seq_at rr_ref a (mo_Answer v) ∗ seq_at rr_ref n (mo_Ns v) ∗
    seq_at rr_ref e (mo_Extra v))%I.

(** An object in a pool: its arrays hold anything. *)
Definition shape (k : pool) (p : Z) : hProp cell :=
  match k with
  | PMsg =>
      ∃ m, pt p (CMsg m) ∗ slice_any (mo_Question m) ∗ slice_any (mo_Answer m) ∗ slice_any (mo_Ns m) ∗ slice_any (mo_Extra m)
  | PIP => ∃ l, ⌜length l = 16%nat⌝ ∗ arr p l
  | _ => ∃ c, pt p c ∗ slice_any (slice_of c)
  end%I.

Notation WP m Φ := (wp shape m Φ).

(** * Rules *)

Ltac wp_bind := iApply wp_bind.

Lemma slice_any_nil : ⊢ slice_any Nil.
Proof. iExists []. done. Qed.

Lemma arr_single p (c : cell) : arr p [c] ⊣⊢ pt p c.
Proof. by rewrite arr_cons arr_nil right_id. Qed.

Lemma arr_split n p (l : list cell) : (n <= length l)%nat -> arr p l ⊢ arr p (take n l) ∗ arr (p + Z.of_nat n) (drop n l).
Proof.
  intros Hn. rewrite -{1}(take_drop n l) arr_app length_take. by replace (n `min` length l)%nat with n by lia.
Qed.

Lemma wp_alloc1 c Φ : (∀ p, pt p c -∗ Φ p) ⊢ WP (alloc [c]) Φ.
Proof. iIntros "HΦ". iApply wp_alloc. iIntros (p) "Hp". iApply "HΦ". by rewrite arr_single. Qed.

Lemma new_shape k : ⊢ WP (new k) (shape k).
Proof.
  destruct k; cbn [new shape].
  all: try by iApply wp_alloc1; iIntros (p) "Hp"; iExists _; iFrame "Hp"; iApply slice_any_nil.
  - wp_bind. iApply wp_alloc. iIntros (q) "Hq". iApply wp_alloc1. iIntros (p) "Hp". iExists _. iFrame "Hp". cbn.
    iSplitL "Hq"; [|by repeat iSplit; iApply slice_any_nil]. iExists [_]. cbn. iExists []. by iFrame "Hq".
  - iApply wp_alloc. iIntros (p) "Hp". iExists _. by iFrame "Hp".
  - wp_bind. iApply wp_alloc. iIntros (a) "Ha". iApply wp_alloc1. iIntros (p) "Hp". iExists _. iFrame "Hp". cbn [slice_of].
    iExists (replicate 16 (CByte 0)), []. rewrite app_nil_r. by iFrame "Ha".
Qed.

Lemma wp_getk k Φ : (∀ p, shape k p -∗ Φ p) ⊢ WP (get k) Φ.
Proof. apply wp_get, new_shape. Qed.

Lemma read_cells_spec p l Φ : arr p l ⊢ (arr p l -∗ Φ l) -∗ WP (read_cells p (length l)) Φ.
Proof.
  revert p Φ. induction l as [|c l IH]; intros p Φ; cbn [read_cells length].
  { iIntros "H HΦ". iApply wp_ret. by iApply "HΦ". }
  rewrite arr_cons. iIntros "[Hc Hl] HΦ". wp_bind. iApply (wp_load with "Hc"). iIntros "Hc".
  wp_bind. iApply (IH with "Hl"). iIntros "Hl". iApply wp_ret. iApply "HΦ". iFrame.
Qed.

Lemma write_cells_spec p l l' Φ : length l' = length l -> arr p l' ⊢ (arr p l -∗ Φ tt) -∗ WP (write_cells p l) Φ.
Proof.
  revert p l'. induction l as [|c l IH]; intros p [|c' l'] [=]; cbn [write_cells].
  { iIntros "H HΦ". iApply wp_ret. by iApply "HΦ". }
  rewrite !arr_cons. iIntros "[Hc Hl] HΦ". wp_bind. iApply (wp_store with "Hc"). iIntros "Hc".
  iApply (IH with "Hl"); [done|]. iIntros "Hl". iApply "HΦ". iFrame.
Qed.

Lemma elems_spec s cs Φ : slice_cells s cs ⊢ (slice_cells s cs -∗ Φ cs) -∗ WP (elems s) Φ.
Proof.
  destruct s as [|p n c]; cbn.
  - iIntros (->) "HΦ". iApply wp_ret. by iApply "HΦ".
  - iIntros "(%junk & [%Hn %Hc] & H) HΦ". subst n c. rewrite arr_app. iDestruct "H" as "[H Hj]".
    iApply (read_cells_spec with "H"). iIntros "H". iApply "HΦ". iExists junk. rewrite arr_app. by iFrame.
Qed.

Lemma slice_len p n c cs : slice_cells (Slice p n c) cs ⊢ ⌜length cs = n⌝.
Proof. by iIntros "(%junk & [%Hn _] & _)". Qed.

Lemma reslice0_cells s : slice_any s ⊢ slice_cells (reslice0 s) [].
Proof.
  iIntros "[%cs H]". destruct s as [|p n c]; cbn; [done|]. iDestruct "H" as (junk) "[[%Hn %Hc] H]".
  iExists (cs ++ junk). iFrame. iPureIntro. rewrite length_app. cbn. lia.
Qed.

Lemma new_array_spec l Φ : (∀ s, ⌜s <> Nil⌝ -∗ slice_cells s l -∗ Φ s) ⊢ WP (new_array l) Φ.
Proof.
  iIntros "HΦ". wp_bind. iApply wp_alloc. iIntros (p) "H". iApply wp_ret. iApply "HΦ"; [done|]. cbn.
  iExists _. iFrame. iPureIntro. by rewrite length_replicate.
Qed.

Lemma append_spec s cs l Φ :
  slice_cells s cs ⊢ (∀ s', ⌜l <> [] -> s' <> Nil⌝ -∗ slice_cells s' (cs ++ l) -∗ Φ s') -∗ WP (append s l) Φ.
Proof.
  destruct s as [|p n c]; cbn [append].
  - iIntros (->) "HΦ". destruct l as [|x l].
    + iApply wp_ret. by iApply "HΦ".
    + iApply new_array_spec. iIntros (s Hs) "H". by iApply "HΦ".
  - iIntros "(%junk & [%Hn %Hc] & H) HΦ". subst n c. destruct (Nat.leb_spec (length cs + length l) (length cs + length junk)) as [Hle|Hlt].
    + rewrite arr_app. iDestruct "H" as "[H Hj]". iDestruct (arr_split (length l) with "Hj") as "[Hj Hr]"; [lia|].
      assert (length (take (length l) junk) = length l) as El by (rewrite length_take; lia).
      wp_bind. iApply (write_cells_spec with "Hj"); [done|]. iIntros "Hl". iApply wp_ret. iApply "HΦ"; [done|]. cbn.
      iExists (drop (length l) junk). rewrite !arr_app length_app. iFrame "H Hl".
      rewrite Nat2Z.inj_add Z.add_assoc. iFrame "Hr". iPureIntro. rewrite length_drop. lia.
    + rewrite arr_app. iDestruct "H" as "[H Hj]". wp_bind. iApply (read_cells_spec with "H"). iIntros "H".
      iApply new_array_spec. iIntros (s Hs) "Hs". by iApply "HΦ".
Qed.

(** The clone of a slice of flat elements has the elements, and is nil if and only
    if the original is. *)
Lemma appendIfNotNil_spec old s cs Φ :
  slice_any old ⊢ slice_cells s cs -∗
  (∀ s', ⌜s' = Nil <-> s = Nil⌝ -∗ slice_cells s cs -∗ slice_cells s' cs -∗ Φ s') -∗
  WP (appendIfNotNil (reslice0 old) s) Φ.
Proof.
  rewrite reslice0_cells. iIntros "Ho Hs HΦ". destruct s as [|p [|n] c]; cbn [appendIfNotNil].
  - iApply wp_ret. iDestruct "Hs" as %->. by iApply "HΦ".
  - iApply wp_ret. iDestruct "Hs" as (junk) "[[%Hn %Hc] H]". destruct cs; [|done]. iApply ("HΦ" with "[] [H]"); cbn.
    + done.
    + iExists junk. by iFrame.
    + iExists []. by iSplit.
  - wp_bind. iApply (elems_spec (Slice p (S n) c) with "Hs"). iIntros "Hs". iApply (append_spec with "Ho").
    iIntros (s' Hs') "Hc". iDestruct (slice_len with "Hs") as %Hn. iApply ("HΦ" with "[] Hs Hc"). iPureIntro.
    split; [|done]. intros ->. destruct Hs'; [|done]. intros ->. done.
Qed.

(** ** Sequences *)

Lemma seq_append {A} (R : cell -> A -> hProp cell) s l c a Φ :
  seq_at R s l ⊢ R c a -∗ (∀ s', seq_at R s' (l ++ [a]) -∗ Φ s') -∗ WP (append s [c]) Φ.
Proof.
  iIntros "(%cs & Hs & Hl) Hc HΦ". iApply (append_spec with "Hs"). iIntros (s' _) "Hs". iApply "HΦ". iExists _. iFrame "Hs".
  iFrame "Hl". cbn. by iFrame.
Qed.

Lemma seq_reslice {A} (R : cell -> A -> hProp cell) s : slice_any s ⊢ seq_at R (reslice0 s) [].
Proof. rewrite reslice0_cells. iIntros "H". iExists []. by iFrame. Qed.

Lemma seq_nil {A} (R : cell -> A -> hProp cell) l : seq_at R Nil l ⊢ ⌜l = []⌝.
Proof. iIntros "(%cs & -> & H)". by iDestruct (big_sepL2_nil_inv_l with "H") as %->. Qed.

Lemma seq_any {A} (R : cell -> A -> hProp cell) s l : seq_at R s l ⊢ slice_any s.
Proof. iIntros "(%cs & H & _)". by iExists cs. Qed.

(** A loop that clones the elements, if it knows all of them. *)
Lemma clone_each_spec {A} (R : cell -> A -> hProp cell) (known : A -> bool) clone :
  (forall c a Ψ, R c a ⊢ (∀ r, R c a -∗ (if known a then ∃ c', ⌜r = Some c'⌝ ∗ R c' a else ⌜r = None⌝) -∗ Ψ r) -∗ WP (clone c) Ψ) ->
  forall cs l res acc Φ,
  ([∗ list] c;a ∈ cs;l, R c a) ⊢ seq_at R res acc -∗
  (∀ r, ([∗ list] c;a ∈ cs;l, R c a) -∗
     (if forallb known l then ∃ s, ⌜r = Some s⌝ ∗ seq_at R s (acc ++ l) else ⌜r = None⌝) -∗ Φ r) -∗
  WP (clone_each clone cs res) Φ.
Proof.
  intros Hclone cs. induction cs as [|c cs IH]; intros [|a l] res acc Φ; cbn [clone_each]; try by iIntros "[]".
  { iIntros "_ Hr HΦ". iApply wp_ret. iApply "HΦ"; [done|]. iExists res. rewrite app_nil_r. by iFrame. }
  iIntros "[Hc Hl] Hr HΦ". wp_bind. iApply (Hclone with "Hc"). iIntros (r) "Hc Hr'". cbn [forallb].
  destruct (known a); cbn [andb].
  - iDestruct "Hr'" as (c') "[-> Hc']". wp_bind. iApply (seq_append with "Hr Hc'"). iIntros (s') "Hs".
    iApply (IH with "Hl Hs"). iIntros (r) "Hl Hr". iApply ("HΦ" with "[$Hc $Hl]"). by rewrite -assoc.
  - iDestruct "Hr'" as %->. iApply wp_ret. iApply ("HΦ" with "[$Hc $Hl]"). done.
Qed.

(** ** HTTPS records *)

Lemma append_ips_spec cs l hints acc Φ :
  ([∗ list] c;ip ∈ cs;l, ip_at c ip) ⊢ seq_at ip_at hints acc -∗
  (∀ s, ([∗ list] c;ip ∈ cs;l, ip_at c ip) -∗ seq_at ip_at s (acc ++ l) -∗ Φ s) -∗
  WP (append_ips cs hints) Φ.
Proof.
  revert l hints acc. induction cs as [|c cs IH]; intros [|ip l] hints acc; cbn [append_ips]; try by iIntros "[]".
  { iIntros "_ Hh HΦ". iApply wp_ret. iApply "HΦ"; [done|]. by rewrite app_nil_r. }
  iIntros "[(%s & -> & Hs) Hl] Hh HΦ". wp_bind. iApply wp_getk. iIntros (p) "(%old & %Ho & Hp)".
  wp_bind. iApply (elems_spec with "Hs"). iIntros "Hs". wp_bind. iApply (append_spec _ [] with "[Hp]").
  { iExists old. by iFrame. }
  iIntros (ip' _) "Hip". wp_bind. iApply (seq_append with "Hh [Hip]"); [by iExists ip'; iFrame|]. iIntros (h') "Hh".
  iApply (IH with "Hl Hh"). iIntros (s') "Hl Hs'". iApply ("HΦ" with "[Hs $Hl]"); [by iExists s; iFrame|].
  by rewrite -assoc.
Qed.

Lemma appendIPs_spec old s l Φ :
  slice_any old ⊢ seq_at ip_at s l -∗ (∀ s', seq_at ip_at s l -∗ seq_at ip_at s' l -∗ Φ s') -∗
  WP (appendIPs (reslice0 old) s) Φ.
Proof.
  iIntros "Ho (%cs & Hs & Hl) HΦ". destruct s as [|p [|n] c]; cbn [appendIPs].
  - iApply wp_ret. iDestruct "Hs" as %->. iDestruct (big_sepL2_nil_inv_l with "Hl") as %->.
    iApply "HΦ"; iExists []; by iSplit.
  - iApply wp_ret. iDestruct (slice_len with "Hs") as %Hn. destruct cs; [|done].
    iDestruct (big_sepL2_nil_inv_l with "Hl") as %->. iApply ("HΦ" with "[Hs]"); iExists []; [by iFrame|].
    iSplit; [|done]. iExists []. by iSplit.
  - wp_bind. iApply (elems_spec (Slice p (S n) c) with "Hs"). iIntros "Hs".
    iApply (append_ips_spec with "Hl [Ho]"); [by iApply seq_reslice|]. iIntros (s') "Hl Hs'".
    iApply ("HΦ" with "[Hs Hl] Hs'"). iExists cs. iFrame.
Qed.

Definition known_kv (v : kv_val) : bool := match v with KOther _ => false | _ => true end.

(** ** Objects of the pools *)

Definition plain (k : pool) : bool := match k with PMsg | PIP => false | _ => true end.

Lemma shape_plain k p : plain k = true -> shape k p ⊣⊢ ∃ c, pt p c ∗ slice_any (slice_of c).
Proof. by destruct k. Qed.

Lemma wp_get_obj {A} k (f : Z -> prog A) Φ : plain k = true ->
  (∀ v old, pt v old -∗ slice_any (slice_of old) -∗ WP (f v) Φ) ⊢ WP (do v <- get k; f v) Φ.
Proof.
  intros Hk. iIntros "HΦ". wp_bind. iApply wp_getk. iIntros (v) "Hv". rewrite shape_plain //.
  iDestruct "Hv" as (old) "[Hv Ho]". by iApply ("HΦ" with "Hv Ho").
Qed.

(** An object of a pool whose array is used for the elements of a slice. *)
Lemma wp_get_append {A} k (f : Z -> cell -> slice -> prog A) s cs Φ : plain k = true ->
  slice_cells s cs ⊢
  (∀ v old s', pt v old -∗ slice_cells s cs -∗ slice_cells s' cs -∗ WP (f v old s') Φ) -∗
  WP (do v <- get k; do old <- load v; do s' <- appendIfNotNil (reslice0 (slice_of old)) s; f v old s') Φ.
Proof.
  intros Hk. iIntros "Hs HΦ". iApply wp_get_obj; [done|]. iIntros (v old) "Hv Ho". wp_bind. iApply (wp_load with "Hv").
  iIntros "Hv". wp_bind. iApply (appendIfNotNil_spec with "Ho Hs"). iIntros (s' _) "Hs Hs'".
  iApply ("HΦ" with "Hv Hs Hs'").
Qed.

Lemma wp_get_append_ips {A} k (f : Z -> cell -> slice -> prog A) s l Φ : plain k = true ->
  seq_at ip_at s l ⊢
  (∀ v old s', pt v old -∗ seq_at ip_at s l -∗ seq_at ip_at s' l -∗ WP (f v old s') Φ) -∗
  WP (do v <- get k; do old <- load v; do s' <- appendIPs (reslice0 (slice_of old)) s; f v old s') Φ.
Proof.
  intros Hk. iIntros "Hs HΦ". iApply wp_get_obj; [done|]. iIntros (v old) "Hv Ho". wp_bind. iApply (wp_load with "Hv").
  iIntros "Hv". wp_bind. iApply (appendIPs_spec with "Ho Hs"). iIntros (s') "Hs Hs'".
  iApply ("HΦ" with "Hv Hs Hs'").
Qed.

(** The last steps of the cloning of a value. *)
Lemma store_kv v old o a Φ :
  pt v old ⊢ kv_obj o a -∗ (∀ r, (∃ c', ⌜r = Some c'⌝ ∗ kv_at c' a) -∗ Φ r) -∗
  WP (store v (CKV o);; gret (Some (CPtr v))) Φ.
Proof.
  iIntros "Hv Ho HΦ". wp_bind. iApply (wp_store with "Hv"). iIntros "Hv". iApply wp_ret. iApply "HΦ". iExists _.
  iSplit; [done|]. destruct a; iExists o; by iFrame.
Qed.

Ltac kv_done a :=
  iApply (store_kv _ _ _ a with "Hv [Hs']"); [by cbn; iFrame|];
  iIntros (r) "Hr"; iApply ("HΦ" with "[-Hr] Hr"); iExists _; iFrame "Hp"; cbn; by try iFrame "Ho".

Lemma cloneKV_spec c v Φ :
  kv_at c v ⊢ (∀ r, kv_at c v -∗ (if known_kv v then ∃ c', ⌜r = Some c'⌝ ∗ kv_at c' v else ⌜r = None⌝) -∗ Φ r) -∗
  WP (cloneKV c) Φ.
Proof.
  iIntros "Hc HΦ". destruct c as [| | | | |p| | | | | |]; try by iDestruct "Hc" as %[]; cbn [cloneKV].
  2,3: destruct v; try by iDestruct "Hc" as %[].
  2,3: iApply wp_ret; iApply ("HΦ" with "[//]"); iExists _; by iSplit.
  cbn [cloneKV kv_at]. iDestruct "Hc" as (o) "[Hp Ho]". wp_bind. iApply (wp_load with "Hp"). iIntros "Hp".
  pose (a := v). destruct o, v; try by iDestruct "Ho" as %[]; cbn [clone_kv cloneIfHint known_kv kv_obj].
  1,3,7: iApply (wp_get_append with "Ho"); [done|]; iIntros (v old s') "Hv Ho Hs'"; kv_done a.
  2,3: iApply (wp_get_append_ips with "Ho"); [done|]; iIntros (v old s') "Hv Ho Hs'"; kv_done a.
  1,3: iDestruct "Ho" as %->; iApply wp_get_obj; [done|]; iIntros (v old) "Hv Hs'"; kv_done a.
  - iDestruct "Ho" as "[-> Ho]". iApply (wp_get_append with "Ho"); [done|]. iIntros (v old s') "Hv Ho Hs'". kv_done a.
  - iApply wp_ret. iApply ("HΦ" with "[Hp Ho]"); [|done]. iExists _. by iFrame.
Qed.
(** ** Options *)

Definition known_opt (v : opt_val) : bool := match v with OOther _ => false | _ => true end.

Lemma clone_option_spec c v Φ :
  opt_at c v ⊢ (∀ r, opt_at c v -∗ (if known_opt v then ∃ c', ⌜r = Some c'⌝ ∗ opt_at c' v else ⌜r = None⌝) -∗ Φ r) -∗
  WP (clone_option c) Φ.
Proof.
  iIntros "(%p & %o & -> & Hp & Ho) HΦ". cbn [clone_option]. wp_bind. iApply (wp_load with "Hp"). iIntros "Hp".
  destruct o, v; try by iDestruct "Ho" as %[]; cbn [known_opt opt_obj].
  1,2: iDestruct "Ho" as %[-> ->]; iApply wp_get_obj; [done|]; iIntros (v old) "Hv _"; wp_bind; iApply (wp_store with "Hv");
    iIntros "Hv"; iApply wp_ret; iApply ("HΦ" with "[Hp]"); [by iExists _, _; iFrame|];
    iExists _; iSplit; [done|]; iExists _, _; by iFrame.
  - iDestruct "Ho" as "[(-> & -> & -> & ->) Ho]". iApply wp_get_obj; [done|]. iIntros (v old) "Hv Hold". wp_bind.
    iApply (wp_load with "Hv"). iIntros "Hv". wp_bind. iApply (elems_spec with "Ho"). iIntros "Ho". wp_bind.
    rewrite reslice0_cells. iApply (append_spec with "Hold"). iIntros (s' _) "Hs'". wp_bind. iApply (wp_store with "Hv").
    iIntros "Hv". iApply wp_ret. iApply ("HΦ" with "[Hp Ho]"); [iExists _, _; iFrame "Hp"; cbn; by iFrame|].
    iExists _. iSplit; [done|]. iExists _, _. iFrame "Hv". cbn. by iFrame.
  - iApply wp_ret. iApply ("HΦ" with "[Hp Ho]"); [|done]. iExists _, _. by iFrame.
Qed.

(** ** Records *)

(** [dns.Copy] returns a deep copy of a record. *)
Hypothesis dns_Copy_spec : forall p v, rr_at p v ⊢ WP (dns_Copy p) (fun p' => rr_at p v ∗ rr_at p' v).

Lemma wp_copy {A} p v (f : Z -> prog A) Φ :
  rr_at p v ⊢ (∀ p', rr_at p v -∗ rr_at p' v -∗ WP (f p') Φ) -∗ WP (do c <- dns_Copy p; f c) Φ.
Proof.
  iIntros "H HΦ". wp_bind. iApply (wp_wand with "[H]"); [by iApply dns_Copy_spec|]. iIntros (p') "[H H']".
  iApply ("HΦ" with "H H'").
Qed.

Lemma wp_setHeader c h b hdr Φ : pt c (CRR h b) ⊢ (pt c (CRR hdr b) -∗ Φ (c, true)) -∗ WP (setHeader c hdr) Φ.
Proof.
  iIntros "H HΦ". wp_bind. iApply (wp_load with "H"). iIntros "H". wp_bind. iApply (wp_store with "H"). iIntros "H".
  iApply wp_ret. by iApply "HΦ".
Qed.

(** The pooled HTTPS and OPT records, whose arrays are used for the clones of the
    elements, if all of them are known. *)
Lemma wp_clone_elements {A} (R : cell -> A -> hProp cell) (known : A -> bool) (clone : cell -> prog (option cell))
    k s l p v Φ (mk : slice -> cell) :
  plain k = true ->
  (forall c a Ψ, R c a ⊢ (∀ r, R c a -∗ (if known a then ∃ c', ⌜r = Some c'⌝ ∗ R c' a else ⌜r = None⌝) -∗ Ψ r) -∗ WP (clone c) Ψ) ->
  seq_at R s l ⊢ (seq_at R s l -∗ rr_at p v) -∗
  (∀ r, rr_at p v -∗ (if forallb known l then ∃ s', pt r.1 (mk s') ∗ seq_at R s' l else rr_at r.1 v) -∗
    ⌜r.2 = forallb known l⌝ -∗ Φ r) -∗
  WP (do c <- get k;
      match s with
      | Nil => store c (mk Nil);; gret (c, true)
      | Slice q n _ =>
          do old <- load c; do l <- read_cells q n; do v <- clone_each clone l (reslice0 (slice_of old));
          match v with
          | None => do copy <- dns_Copy p; gret (copy, false)
          | Some v => store c (mk v);; gret (c, true)
          end
      end) Φ.
Proof.
  intros Hk Hclone. iIntros "Hs Hrr HΦ". iApply wp_get_obj; [done|]. iIntros (c old) "Hc Ho". destruct s as [|q n cap].
  - iDestruct (seq_nil with "Hs") as %->. wp_bind. iApply (wp_store with "Hc"). iIntros "Hc". iApply wp_ret.
    iDestruct ("Hrr" with "Hs") as "Hrr". iApply ("HΦ" with "Hrr [Hc]"); [|done]. iExists Nil. iFrame. iExists []. by iSplit.
  - wp_bind. iApply (wp_load with "Hc"). iIntros "Hc". wp_bind. iDestruct "Hs" as (cs) "[Hs Hl]".
    iApply (elems_spec (Slice q n cap) with "Hs"). iIntros "Hs". wp_bind.
    iApply (clone_each_spec R known clone with "Hl [Ho]"); [done|by iApply seq_reslice|]. iIntros (r) "Hl Hr".
    iDestruct ("Hrr" with "[Hs Hl]") as "Hrr"; [iExists cs; iFrame|]. destruct (forallb known l) eqn:Ek.
    + iDestruct "Hr" as (s') "[-> Hs']". wp_bind. iApply (wp_store with "Hc"). iIntros "Hc". iApply wp_ret.
      iApply ("HΦ" with "Hrr [Hc Hs']"); [|done]. iExists s'. iFrame.
    + iDestruct "Hr" as %->. iApply (wp_copy with "Hrr"). iIntros (p') "Hrr Hp'". iApply wp_ret.
      iApply ("HΦ" $! (p', false) with "Hrr Hp'"). done.
Qed.

Definition full_answer (v : rr_val) : bool :=
  match v.2 with
  | BHTTPS _ _ l => forallb known_kv l
  | BA _ | BAAAA _ | BCNAME _ | BMX _ _ | BPTR _ | BSRV _ _ _ _ | BTXT _ => true
  | _ => false
  end.
Definition full_ns (v : rr_val) : bool := match v.2 with BSOA _ _ _ _ _ _ _ => true | _ => false end.
Definition full_extra (v : rr_val) : bool := match v.2 with BOPT l => forallb known_opt l | _ => false end.

(** What the cloning of a record does. *)
Definition clones_rr (full : rr_val -> bool) (cloneRR : Z -> prog (Z * bool)) : Prop := forall p v Φ,
  rr_at p v ⊢ (∀ r, rr_at p v -∗ rr_at r.1 v -∗ ⌜r.2 = full v⌝ -∗ Φ r) -∗ WP (cloneRR p) Φ.

Lemma https_clone_spec p hdr a b l Φ :
  rr_at p (hdr, BHTTPS a b l) ⊢
  (∀ r, rr_at p (hdr, BHTTPS a b l) -∗ rr_at r.1 (hdr, BHTTPS a b l) -∗ ⌜r.2 = forallb known_kv l⌝ -∗ Φ r) -∗
  WP (https_clone p) Φ.
Proof.
  iIntros "(%o & Hp & Ho) HΦ". wp_bind. iApply (wp_load with "Hp"). iIntros "Hp". cbn.
  destruct o; try by iDestruct "Ho" as %[]. iDestruct "Ho" as "[[-> ->] Hs]".
  iApply (wp_clone_elements kv_at known_kv cloneKV PHTTPS _ l p (hdr, BHTTPS a b l) _ (fun s => CRR hdr (BHTTPS a b s)) with "Hs [Hp]");
    [done|intros; apply cloneKV_spec| |].
  - iIntros "Hs". iExists _. iFrame "Hp". cbn. by iFrame.
  - iIntros (r) "Hrr Hr %Hr". iApply ("HΦ" with "Hrr [Hr]"); [|done]. destruct (forallb known_kv l); [|done].
    iDestruct "Hr" as (s') "[Hc Hs]". iExists _. iFrame "Hc". cbn. by iFrame.
Qed.

Lemma opt_clone_spec p hdr l Φ :
  rr_at p (hdr, BOPT l) ⊢
  (∀ r, rr_at p (hdr, BOPT l) -∗ rr_at r.1 (hdr, BOPT l) -∗ ⌜r.2 = forallb known_opt l⌝ -∗ Φ r) -∗
  WP (opt_clone p) Φ.
Proof.
  iIntros "(%o & Hp & Ho) HΦ". wp_bind. iApply (wp_load with "Hp"). iIntros "Hp". cbn.
  destruct o; try by iDestruct "Ho" as %[].
  iApply (wp_clone_elements opt_at known_opt clone_option POPT _ l p (hdr, BOPT l) _ (fun s => CRR hdr (BOPT s)) with "Ho [Hp]");
    [done|intros; apply clone_option_spec| |].
  - iIntros "Hs". iExists _. iFrame "Hp". cbn. by iFrame.
  - iIntros (r) "Hrr Hr %Hr". iApply ("HΦ" with "Hrr [Hr]"); [|done]. destruct (forallb known_opt l); [|done].
    iDestruct "Hr" as (s') "[Hc Hs]". iExists _. iFrame "Hc". cbn. by iFrame.
Qed.

Lemma cloneAnswerRR_spec : clones_rr full_answer cloneAnswerRR.
Proof.
  intros p [hdr body] Φ. iIntros "(%o & Hp & Ho) HΦ". wp_bind. iApply (wp_load with "Hp"). iIntros "Hp". cbn [fst snd].
  pose (v0 := (hdr, body) : rr_val). destruct o, body; try by iDestruct "Ho" as %[]; cbn [rr_obj].
  all: unfold newANetIP, newAAAANetIP, newCNAME, newMX, newPTR, newSRV, newTXT.
  1,2,8: wp_bind; iApply (wp_get_append with "Ho"); [done|]; iIntros (v old s') "Hv Ho Hs"; wp_bind; iApply (wp_store with "Hv");
    iIntros "Hv"; iApply wp_ret; iApply (wp_setHeader with "Hv"); iIntros "Hv"; iApply ("HΦ" $! (_, _) with "[Hp Ho] [Hv Hs]");
    [iExists _; iFrame "Hp"; cbn; by iFrame|iExists _; iFrame "Hv"; cbn; by iFrame|done].
  2:{ iApply (https_clone_spec with "[Hp Ho]"); [iExists _; iFrame "Hp"; cbn; by iFrame|]. iIntros (r) "Hp Hr %Hr". by iApply ("HΦ" with "Hp Hr"). }
  1,2,3,4: iDestruct "Ho" as %Ho; wp_bind; iApply wp_get_obj; [done|]; iIntros (v old) "Hv _"; wp_bind;
    iApply (wp_load with "Hv"); iIntros "Hv"; wp_bind; iApply (wp_store with "Hv"); iIntros "Hv"; iApply wp_ret;
    iApply (wp_setHeader with "Hv"); iIntros "Hv"; iApply ("HΦ" $! (_, _) with "[Hp] [Hv]");
    [iExists _; by iFrame "Hp"|iExists _; by iFrame "Hv"|done].
  all: iApply (wp_copy p v0 with "[Hp Ho]"); [iExists _; iFrame "Hp"; iExact "Ho"|]; iIntros (p') "Hp Hp'"; iApply wp_ret;
    by iApply ("HΦ" $! (_, _) with "Hp Hp'").
Qed.

Lemma cloneNsRR_spec : clones_rr full_ns cloneNsRR.
Proof.
  intros p [hdr body] Φ. iIntros "(%o & Hp & Ho) HΦ". wp_bind. iApply (wp_load with "Hp"). iIntros "Hp". cbn [fst snd].
  pose (v0 := (hdr, body) : rr_val). destruct o, body; try by iDestruct "Ho" as %[].
  9:{ iDestruct "Ho" as %Ho. iApply wp_get_obj; [done|]. iIntros (v old) "Hv _". wp_bind. iApply (wp_store with "Hv"). iIntros "Hv".
      iApply wp_ret. iApply ("HΦ" $! (_, _) with "[Hp] [Hv]"); [iExists _; by iFrame "Hp"|iExists _; by iFrame "Hv"|done]. }
  all: iApply (wp_copy p v0 with "[Hp Ho]"); [iExists _; iFrame "Hp"; iExact "Ho"|]; iIntros (p') "Hp Hp'"; iApply wp_ret;
    by iApply ("HΦ" $! (_, _) with "Hp Hp'").
Qed.

Lemma cloneExtraRR_spec : clones_rr full_extra cloneExtraRR.
Proof.
  intros p [hdr body] Φ. iIntros "(%o & Hp & Ho) HΦ". wp_bind. iApply (wp_load with "Hp"). iIntros "Hp". cbn [fst snd].
  pose (v0 := (hdr, body) : rr_val). destruct o, body; try by iDestruct "Ho" as %[].
  10:{ iApply (opt_clone_spec with "[Hp Ho]"); [iExists _; iFrame "Hp"; cbn; by iFrame|]. iIntros (r) "Hp Hr %Hr".
       by iApply ("HΦ" with "Hp Hr"). }
  all: iApply (wp_copy p v0 with "[Hp Ho]"); [iExists _; iFrame "Hp"; iExact "Ho"|]; iIntros (p') "Hp Hp'"; iApply wp_ret;
    by iApply ("HΦ" $! (_, _) with "Hp Hp'").
Qed.

(** ** Messages *)

Lemma append_rrs_spec full cloneRR : clones_rr full cloneRR -> forall cs l s acc b Φ,
  ([∗ list] c;v ∈ cs;l, rr_ref c v) ⊢ seq_at rr_ref s acc -∗
  (∀ s', ([∗ list] c;v ∈ cs;l, rr_ref c v) -∗ seq_at rr_ref s' (acc ++ l) -∗ Φ (s', b && forallb full l)) -∗
  WP (append_rrs cloneRR cs s b) Φ.
Proof.
  intros Hc cs. induction cs as [|c cs IH]; intros [|v l] s acc b Φ; cbn [append_rrs]; try by iIntros "[]".
  { iIntros "_ Hs HΦ". iApply wp_ret. cbn. rewrite andb_true_r app_nil_r. by iApply "HΦ". }
  iIntros "[(%p & -> & Hp) Hl] Hs HΦ". wp_bind. iApply (Hc with "Hp"). iIntros (r) "Hp Hr %Hr". wp_bind.
  iApply (seq_append with "Hs [Hr]"); [by iExists _; iFrame|]. iIntros (s') "Hs". iApply (IH with "Hl Hs").
  iIntros (s2) "Hl Hs". cbn [forallb]. rewrite Hr andb_assoc. iApply ("HΦ" with "[$Hl Hp]"); [by iExists p; iFrame|].
  by rewrite -assoc.
Qed.

Lemma append_section_spec full cloneRR old s l Φ : clones_rr full cloneRR ->
  slice_any old ⊢ seq_at rr_ref s l -∗
  (∀ s', seq_at rr_ref s l -∗ seq_at rr_ref s' l -∗ Φ (s', forallb full l)) -∗
  WP (append_section cloneRR (reslice0 old) s) Φ.
Proof.
  intros Hc. iIntros "Ho Hs HΦ". destruct s as [|p n c]; cbn [append_section].
  - iDestruct (seq_nil with "Hs") as %->. iApply wp_ret. iApply ("HΦ" with "Hs"). iExists []. by iSplit.
  - iDestruct "Hs" as (cs) "[Hs Hl]". wp_bind. iApply (elems_spec (Slice p n c) with "Hs"). iIntros "Hs".
    iApply (append_rrs_spec with "Hl [Ho]"); [done|by iApply seq_reslice|]. iIntros (s') "Hl Hs'".
    iApply ("HΦ" with "[Hs Hl] Hs'"). iExists cs. iFrame.
Qed.

Definition full_msg (v : msg_val) : bool :=
  forallb full_answer (mo_Answer v) && forallb full_ns (mo_Ns v) && forallb full_extra (mo_Extra v).

(** A clone has the contents of the message and memory of its own. *)
Lemma Clone_spec p v Φ :
  msg_at p v ⊢ (∀ p', msg_at p v -∗ msg_at p' v -∗ Φ (Some p', full_msg v)) -∗ WP (Clone (Some p)) Φ.
Proof.
  iIntros "(%q & %a & %n & %e & Hp & Hq & Ha & Hn & He) HΦ". cbn [Clone]. wp_bind. iApply wp_getk.
  iIntros (c) "(%m & Hc & Hmq & Hma & Hmn & Hme)". wp_bind. iApply (wp_load with "Hp"). iIntros "Hp". wp_bind.
  iApply (wp_load with "Hc"). iIntros "Hc". cbn [mo_Question mo_Answer mo_Ns mo_Extra mo_Hdr mo_Compress]. wp_bind.
  iApply (appendIfNotNil_spec with "Hmq Hq"). iIntros (q' _) "Hq Hq'". wp_bind.
  iApply (append_section_spec with "Hma Ha"); [apply cloneAnswerRR_spec|]. iIntros (a') "Ha Ha'". wp_bind.
  iApply (append_section_spec with "Hmn Hn"); [apply cloneNsRR_spec|]. iIntros (n') "Hn Hn'". wp_bind.
  iApply (append_section_spec with "Hme He"); [apply cloneExtraRR_spec|]. iIntros (e') "He He'". wp_bind.
  iApply (wp_store with "Hc"). iIntros "Hc". iApply wp_ret. iApply ("HΦ" with "[Hp Hq Ha Hn He]").
  - iExists q, a, n, e. iFrame.
  - iExists q', a', n', e'. iFrame.
Qed.

(** ** Disposing *)

Lemma each_spec {A} (R : cell -> A -> hProp cell) f :
  (forall c a Ψ, R c a ⊢ Ψ tt -∗ WP (f c) Ψ) ->
  forall cs l Φ, ([∗ list] c;a ∈ cs;l, R c a) ⊢ Φ tt -∗ WP (each f cs) Φ.
Proof.
  intros Hf cs. induction cs as [|c cs IH]; intros [|a l] Φ; cbn [each]; try by iIntros "[]".
  { iIntros "_ HΦ". by iApply wp_ret. }
  iIntros "[Hc Hl] HΦ". wp_bind. iApply (Hf with "Hc"). iApply (IH with "Hl HΦ").
Qed.

(** The elements of a slice are put, and its array is kept. *)
Lemma each_elems_spec {A B} (R : cell -> A -> hProp cell) f s l (g : prog B) Φ :
  (forall c a Ψ, R c a ⊢ Ψ tt -∗ WP (f c) Ψ) ->
  seq_at R s l ⊢ (slice_any s -∗ WP g Φ) -∗ WP (do l <- elems s; each f l;; g) Φ.
Proof.
  intros Hf. iIntros "(%cs & Hs & Hl) HΦ". wp_bind. iApply (elems_spec with "Hs"). iIntros "Hs". wp_bind.
  iApply (each_spec with "Hl"); [done|]. iApply "HΦ". by iExists cs.
Qed.

Lemma putIP_spec c ip Φ : ip_at c ip ⊢ Φ tt -∗ WP (putIP c) Φ.
Proof.
  iIntros "(%s & -> & Hs) HΦ". destruct s as [|p n cap]; cbn [putIP]; [by iApply wp_ret|].
  destruct (Nat.leb_spec 16 cap) as [Hle|]; [|by iApply wp_ret]. iDestruct "Hs" as (junk) "[[%Hn %Hc] H]".
  iApply (wp_put with "[H] HΦ"). iDestruct (arr_split 16 with "H") as "[H _]"; [rewrite length_app; lia|].
  iExists _. iFrame. iPureIntro. rewrite length_take length_app. lia.
Qed.

Lemma each_all_spec {A} (R : cell -> A -> hProp cell) f s l Φ :
  (forall c a Ψ, R c a ⊢ Ψ tt -∗ WP (f c) Ψ) ->
  seq_at R s l ⊢ (slice_any s -∗ Φ tt) -∗ WP (do l <- elems s; each f l) Φ.
Proof.
  intros Hf. iIntros "(%cs & Hs & Hl) HΦ". wp_bind. iApply (elems_spec with "Hs"). iIntros "Hs".
  iApply (each_spec with "Hl"); [done|]. iApply "HΦ". by iExists cs.
Qed.

(** An object with its array goes to a pool of plain objects. *)
Lemma wp_put_plain k p c Φ : plain k = true -> pt p c ⊢ slice_any (slice_of c) -∗ Φ tt -∗ WP (Put k p) Φ.
Proof.
  intros Hk. iIntros "Hp Hs HΦ". iApply (wp_put with "[Hp Hs] HΦ"). rewrite shape_plain //. iExists c. iFrame.
Qed.

Lemma putKV_spec c v Φ : kv_at c v ⊢ Φ tt -∗ WP (putKV c) Φ.
Proof.
  iIntros "Hc HΦ". destruct c; cbn [putKV]; try by iApply wp_ret. iDestruct "Hc" as (o) "[Hp Ho]".
  wp_bind. iApply (wp_load with "Hp"). iIntros "Hp". destruct o, v; try by iDestruct "Ho" as %[]; cbn [kv_obj]; try by iApply wp_ret.
  1,3,7: iApply (wp_put_plain with "Hp [Ho] HΦ"); [done|]; by iExists _.
  2,3: wp_bind; iApply (each_all_spec with "Ho"); [apply putIP_spec|]; iIntros "Ho"; by iApply (wp_put_plain with "Hp Ho HΦ").
  1,3: iApply (wp_put_plain with "Hp [] HΦ"); [done|]; iApply slice_any_nil.
  iDestruct "Ho" as "[_ Ho]". iApply (wp_put_plain with "Hp [Ho] HΦ"); [done|]. by iExists _.
Qed.

Lemma put_option_spec c v Φ : opt_at c v ⊢ Φ tt -∗ WP (put_option c) Φ.
Proof.
  iIntros "(%p & %o & -> & Hp & Ho) HΦ". cbn [put_option]. wp_bind. iApply (wp_load with "Hp"). iIntros "Hp".
  destruct o, v; try by iDestruct "Ho" as %[]; cbn [opt_obj]; try by iApply wp_ret.
  1,2: iApply (wp_put_plain with "Hp [] HΦ"); [done|]; iApply slice_any_nil.
  iDestruct "Ho" as "[_ Ho]". iApply (wp_put_plain with "Hp [Ho] HΦ"); [done|]. by iExists _.
Qed.

Lemma put_answer_spec c v Φ : rr_ref c v ⊢ Φ tt -∗ WP (put_answer c) Φ.
Proof.
  destruct v as [hdr body]. iIntros "(%p & -> & %o & Hp & Ho) HΦ". cbn [put_answer fst snd]. wp_bind.
  iApply (wp_load with "Hp"). iIntros "Hp".
  destruct o, body; try by iDestruct "Ho" as %[]; cbn [rr_obj]; try by iApply wp_ret.
  1,2,8: iApply (wp_put_plain with "Hp [Ho] HΦ"); [done|]; by iExists _.
  2:{ iDestruct "Ho" as "[_ Ho]". iApply (each_elems_spec with "Ho"); [apply putKV_spec|]. iIntros "Ho".
      by iApply (wp_put_plain with "Hp Ho HΦ"). }
  5: iApply wp_ret; iExact "HΦ".
  all: iApply (wp_put_plain with "Hp [] HΦ"); [done|]; iApply slice_any_nil.
Qed.

Lemma put_ns_spec c v Φ : rr_ref c v ⊢ Φ tt -∗ WP (put_ns c) Φ.
Proof.
  iIntros "(%p & -> & %o & Hp & Ho) HΦ". cbn [put_ns]. wp_bind. iApply (wp_load with "Hp"). iIntros "Hp".
  destruct o; try by iApply wp_ret. iApply (wp_put_plain with "Hp [] HΦ"); [done|]; iApply slice_any_nil.
Qed.

Lemma put_extra_spec c v Φ : rr_ref c v ⊢ Φ tt -∗ WP (put_extra c) Φ.
Proof.
  destruct v as [hdr body]. iIntros "(%p & -> & %o & Hp & Ho) HΦ". cbn [put_extra fst snd]. wp_bind.
  iApply (wp_load with "Hp"). iIntros "Hp". destruct o; try by iApply wp_ret. destruct body; try by iDestruct "Ho" as %[].
  iApply (each_elems_spec with "Ho"); [apply put_option_spec|]. iIntros "Ho". by iApply (wp_put_plain with "Hp Ho HΦ").
Qed.

(** The whole memory of a message goes to the pools. *)
Lemma Dispose_spec p v Φ : msg_at p v ⊢ Φ tt -∗ WP (Dispose (Some p)) Φ.
Proof.
  iIntros "(%q & %a & %n & %e & Hp & Hq & Ha & Hn & He) HΦ". cbn [Dispose]. wp_bind. iApply (wp_load with "Hp"). iIntros "Hp".
  cbn [mo_Answer mo_Ns mo_Extra]. wp_bind. iApply (each_all_spec with "Ha"); [apply put_answer_spec|]. iIntros "Ha".
  wp_bind. iApply (each_all_spec with "Hn"); [apply put_ns_spec|]. iIntros "Hn".
  wp_bind. iApply (each_all_spec with "He"); [apply put_extra_spec|]. iIntros "He".
  iApply (wp_put with "[Hp Hq Ha Hn He] HΦ"). iExists _. iFrame "Hp". cbn. iFrame.
Qed.

(** ** Contents *)

Definition reads {A} (R : cell -> A -> hProp cell) (f : cell -> prog A) : Prop := forall c a Ψ,
  R c a ⊢ (R c a -∗ Ψ a) -∗ WP (f c) Ψ.

Lemma read_flat_spec {A} (f : cell -> A) (g : A -> cell) s l Φ : (forall a, f (g a) = a) ->
  slice_cells s (g <$> l) ⊢ (slice_cells s (g <$> l) -∗ Φ l) -∗ WP (read_flat f s) Φ.
Proof.
  intros Hfg. iIntros "Hs HΦ". wp_bind. iApply (elems_spec with "Hs"). iIntros "Hs". iApply wp_ret.
  rewrite -list_fmap_compose. rewrite (list_fmap_ext _ id); [|intros; cbn; apply Hfg]. rewrite list_fmap_id. by iApply "HΦ".
Qed.

Lemma read_each_spec {A} (R : cell -> A -> hProp cell) f cs l Φ : reads R f ->
  ([∗ list] c;a ∈ cs;l, R c a) ⊢ (([∗ list] c;a ∈ cs;l, R c a) -∗ Φ l) -∗ WP (read_each f cs) Φ.
Proof.
  intros Hf. revert l Φ. induction cs as [|c cs IH]; intros [|a l] Φ; cbn [read_each]; try by iIntros "[]".
  { iIntros "_ HΦ". iApply wp_ret. by iApply "HΦ". }
  iIntros "[Hc Hl] HΦ". wp_bind. iApply (Hf with "Hc"). iIntros "Hc". wp_bind. iApply (IH with "Hl"). iIntros "Hl".
  iApply wp_ret. iApply "HΦ". iFrame.
Qed.

Lemma read_seq_spec {A} (R : cell -> A -> hProp cell) f s l Φ : reads R f ->
  seq_at R s l ⊢ (seq_at R s l -∗ Φ l) -∗ WP (read_seq f s) Φ.
Proof.
  intros Hf. iIntros "(%cs & Hs & Hl) HΦ". wp_bind. iApply (elems_spec with "Hs"). iIntros "Hs".
  iApply (read_each_spec with "Hl"); [done|]. iIntros "Hl". iApply "HΦ". iExists cs. iFrame.
Qed.

Ltac flat_read := iApply (read_flat_spec with "Ho"); [done|]; iIntros "Ho".

Lemma read_ip_spec : reads ip_at read_ip.
Proof.
  intros c ip Ψ. iIntros "(%s & -> & Ho) HΦ". flat_read. iApply "HΦ". iExists s. by iFrame.
Qed.

Lemma read_kv_spec : reads kv_at read_kv.
Proof.
  intros c v Ψ. iIntros "Hc HΦ". destruct c; try by iDestruct "Hc" as %[]; cbn [read_kv].
  2,3: destruct v; try by iDestruct "Hc" as %[].
  2,3: iApply wp_ret; by iApply "HΦ".
  cbn [kv_at]. iDestruct "Hc" as (o) "[Hp Ho]". wp_bind. iApply (wp_load with "Hp"). iIntros "Hp".
  destruct o, v; try by iDestruct "Ho" as %[]; cbn [kv_obj].
  1,3,7: wp_bind; flat_read; iApply wp_ret; iApply "HΦ"; iExists _; iFrame "Hp"; cbn; by iFrame.
  2,3: wp_bind; iApply (read_seq_spec with "Ho"); [apply read_ip_spec|]; iIntros "Ho"; iApply wp_ret; iApply "HΦ"; iExists _;
    iFrame "Hp"; cbn; by iFrame.
  2:{ iDestruct "Ho" as "[-> Ho]". wp_bind. flat_read. iApply wp_ret. iApply "HΦ". iExists _. iFrame "Hp". cbn. by iFrame. }
  all: iDestruct "Ho" as %->; iApply wp_ret; iApply "HΦ"; iExists _; by iFrame "Hp".
Qed.

Lemma read_opt_spec : reads opt_at read_opt.
Proof.
  intros c v Ψ. iIntros "(%p & %o & -> & Hp & Ho) HΦ". cbn [read_opt]. wp_bind. iApply (wp_load with "Hp"). iIntros "Hp".
  destruct o, v; try by iDestruct "Ho" as %[]; cbn [opt_obj].
  1,2: iDestruct "Ho" as %[-> ->]; iApply wp_ret; iApply "HΦ"; iExists _, _; by iFrame "Hp".
  - iDestruct "Ho" as "[(-> & -> & -> & ->) Ho]". wp_bind. flat_read. iApply wp_ret. iApply "HΦ". iExists _, _. iFrame "Hp". cbn. by iFrame.
  - iDestruct "Ho" as %->. iApply wp_ret. iApply "HΦ". iExists _, _. by iFrame "Hp".
Qed.

Lemma read_rr_spec : reads rr_ref read_rr.
Proof.
  intros c [hdr body] Ψ. iIntros "(%p & -> & %o & Hp & Ho) HΦ". cbn [read_rr fst snd]. wp_bind. iApply (wp_load with "Hp").
  iIntros "Hp". destruct o, body; try by iDestruct "Ho" as %[]; cbn [rr_obj].
  1,2,8: wp_bind; flat_read; iApply wp_ret; iApply "HΦ"; iExists _; iSplit; [done|]; iExists _; iFrame "Hp"; cbn; by iFrame.
  2:{ iDestruct "Ho" as "[[-> ->] Ho]". wp_bind. iApply (read_seq_spec with "Ho"); [apply read_kv_spec|]. iIntros "Ho". iApply wp_ret.
      iApply "HΦ". iExists _; iSplit; [done|]; iExists _; iFrame "Hp"; cbn; by iFrame. }
  6:{ wp_bind. iApply (read_seq_spec with "Ho"); [apply read_opt_spec|]. iIntros "Ho". iApply wp_ret.
      iApply "HΦ". iExists _; iSplit; [done|]; iExists _; iFrame "Hp"; cbn; by iFrame. }
  all: iDestruct "Ho" as %Ho; destruct_and? Ho; simplify_eq; iApply wp_ret; iApply "HΦ"; iExists _; iSplit; [done|]; iExists _; by iFrame "Hp".
Qed.

Lemma read_msg_spec p v Φ : msg_at p v ⊢ (msg_at p v -∗ Φ v) -∗ WP (read_msg p) Φ.
Proof.
  iIntros "(%q & %a & %n & %e & Hp & Ho & Ha & Hn & He) HΦ". wp_bind. iApply (wp_load with "Hp"). iIntros "Hp". cbn. wp_bind.
  flat_read. wp_bind. iApply (read_seq_spec with "Ha"); [apply read_rr_spec|]. iIntros "Ha". wp_bind.
  iApply (read_seq_spec with "Hn"); [apply read_rr_spec|]. iIntros "Hn". wp_bind.
  iApply (read_seq_spec with "He"); [apply read_rr_spec|]. iIntros "He". iApply wp_ret. destruct v. iApply "HΦ".
  iExists q, a, n, e. iFrame.
Qed.

Definition makes {A} (R : cell -> A -> hProp cell) (f : A -> prog cell) : Prop := forall a Ψ,
  (∀ c, R c a -∗ Ψ c) ⊢ WP (f a) Ψ.

Lemma new_flat_spec {A} (g : A -> cell) l Φ : (∀ s, slice_cells s (g <$> l) -∗ Φ s) ⊢ WP (new_array (g <$> l)) Φ.
Proof. iIntros "HΦ". iApply new_array_spec. iIntros (s _) "Hs". by iApply "HΦ". Qed.

Lemma new_seq_spec {A} (R : cell -> A -> hProp cell) f l Φ : makes R f ->
  (∀ s, seq_at R s l -∗ Φ s) ⊢ WP (new_seq f l) Φ.
Proof.
  intros Hf. assert (forall Ψ, (∀ cs, ([∗ list] c;a ∈ cs;l, R c a) -∗ Ψ cs) ⊢ WP (new_each f l) Ψ) as Hl.
  { induction l as [|a l IH]; intros Ψ; cbn [new_each]; iIntros "HΨ"; [iApply wp_ret; by iApply "HΨ"|].
    wp_bind. iApply Hf. iIntros (c) "Hc". wp_bind. iApply IH. iIntros (cs) "Hl". iApply wp_ret. iApply "HΨ". iFrame. }
  iIntros "HΦ". wp_bind. iApply Hl. iIntros (cs) "Hl". iApply new_array_spec. iIntros (s _) "Hs". iApply "HΦ". iExists cs. iFrame.
Qed.

Lemma new_obj_spec c Φ : (∀ p, pt p c -∗ Φ (CPtr p)) ⊢ WP (new_obj c) Φ.
Proof. iIntros "HΦ". wp_bind. iApply wp_alloc1. iIntros (p) "Hp". iApply wp_ret. by iApply "HΦ". Qed.

Lemma new_ip_spec : makes ip_at new_ip.
Proof.
  intros ip Ψ. iIntros "HΦ". wp_bind. iApply new_flat_spec. iIntros (s) "Hs". iApply wp_ret. iApply "HΦ". iExists s. by iFrame.
Qed.

Lemma new_kv_spec : makes kv_at new_kv.
Proof.
  intros v Ψ. iIntros "HΦ". destruct v; cbn [new_kv].
  9,10: iApply wp_ret; by iApply "HΦ".
  1,3,6,7: wp_bind; iApply new_flat_spec; iIntros (s) "Hs"; iApply new_obj_spec; iIntros (p) "Hp"; iApply "HΦ"; iExists _;
    iFrame "Hp"; cbn; by iFrame.
  2,3: wp_bind; iApply new_seq_spec; [apply new_ip_spec|]; iIntros (s) "Hs"; iApply new_obj_spec; iIntros (p) "Hp"; iApply "HΦ";
    iExists _; iFrame "Hp"; cbn; by iFrame.
  all: iApply new_obj_spec; iIntros (p) "Hp"; iApply "HΦ"; iExists _; by iFrame "Hp".
Qed.

Lemma new_opt_spec : makes opt_at new_opt.
Proof.
  intros v Ψ. iIntros "HΦ". destruct v; cbn [new_opt].
  3: wp_bind; iApply new_flat_spec; iIntros (s) "Hs"; iApply new_obj_spec; iIntros (p) "Hp"; iApply "HΦ"; iExists _, _;
    iFrame "Hp"; cbn; by iFrame.
  all: iApply new_obj_spec; iIntros (p) "Hp"; iApply "HΦ"; iExists _, _; by iFrame "Hp".
Qed.

Lemma new_rr_spec : makes rr_ref new_rr.
Proof.
  intros [hdr body] Ψ. iIntros "HΦ". destruct body; cbn [new_rr fst snd].
  1,2,8: wp_bind; iApply new_flat_spec; iIntros (s) "Hs"; iApply new_obj_spec; iIntros (p) "Hp"; iApply "HΦ"; iExists p;
    iSplit; [done|]; iExists _; iFrame "Hp"; cbn; by iFrame.
  2: wp_bind; iApply new_seq_spec; [apply new_kv_spec|]; iIntros (s) "Hs"; iApply new_obj_spec; iIntros (p) "Hp"; iApply "HΦ";
    iExists p; iSplit; [done|]; iExists _; iFrame "Hp"; cbn; by iFrame.
  6: wp_bind; iApply new_seq_spec; [apply new_opt_spec|]; iIntros (s) "Hs"; iApply new_obj_spec; iIntros (p) "Hp"; iApply "HΦ";
    iExists p; iSplit; [done|]; iExists _; iFrame "Hp"; cbn; by iFrame.
  all: iApply new_obj_spec; iIntros (p) "Hp"; iApply "HΦ"; iExists p; iSplit; [done|]; iExists _; by iFrame "Hp".
Qed.

Lemma new_msg_spec v Φ : (∀ p, msg_at p v -∗ Φ p) ⊢ WP (new_msg v) Φ.
Proof.
  iIntros "HΦ". wp_bind. iApply new_flat_spec. iIntros (q) "Hq". wp_bind. iApply new_seq_spec; [apply new_rr_spec|]. iIntros (a) "Ha".
  wp_bind. iApply new_seq_spec; [apply new_rr_spec|]. iIntros (n) "Hn". wp_bind. iApply new_seq_spec; [apply new_rr_spec|].
  iIntros (e) "He". iApply wp_alloc1. iIntros (p) "Hp". iApply "HΦ". iExists q, a, n, e. iFrame.
Qed.

Lemma copy_rr_spec p v : rr_at p v ⊢ WP (copy_rr p) (fun p' => rr_at p v ∗ rr_at p' v).
Proof.
  iIntros "H". wp_bind. iApply (read_rr_spec (CPtr p) v with "[H]"); [by iExists p; iFrame|]. iIntros "(%p0 & %E & H)".
  injection E as <-. wp_bind. iApply new_rr_spec. iIntros (c) "(%p' & -> & H')". iApply wp_ret. iFrame.
Qed.

(** ** Runs *)

Definition own_msg (p : option Z) (v : option msg_val) : hProp cell :=
  match p, v with Some p, Some v => msg_at p v | None, None => True | _, _ => False end%I.

Definition own_all (live : list (option Z)) (vs : list (option msg_val)) : hProp cell := ([∗ list] p;v ∈ live;vs, own_msg p v)%I.

Lemma own_all_snoc live vs p v : own_all live vs ⊢ msg_at p v -∗ own_all (live ++ [Some p]) (vs ++ [Some v]).
Proof. iIntros "H Hp". iFrame "H". cbn. by iFrame. Qed.

Lemma own_all_take live vs i p : live !! i = Some (Some p) ->
  own_all live vs ⊢ ∃ v, ⌜vs !! i = Some (Some v)⌝ ∗ msg_at p v ∗ (∀ q w, own_msg q w -∗ own_all (<[i:=q]> live) (<[i:=w]> vs)).
Proof.
  iIntros (Hi) "H". iDestruct (big_sepL2_length with "H") as %Hlen.
  destruct (lookup_lt_is_Some_2 vs i) as [v Hv]; [rewrite -Hlen; by eapply lookup_lt_Some|].
  iDestruct (big_sepL2_insert_acc with "H") as "[Hp H]"; [done..|]. destruct v as [v|]; [|done]. iExists v. by iFrame.
Qed.

Lemma own_all_none live vs i : live !! i = Some None \/ live !! i = None ->
  own_all live vs ⊢ ⌜vs !! i = Some None \/ vs !! i = None⌝.
Proof.
  iIntros (Hi) "H". iDestruct (big_sepL2_length with "H") as %Hlen. destruct Hi as [Hi|Hi].
  - destruct (lookup_lt_is_Some_2 vs i) as [v Hv]; [rewrite -Hlen; by eapply lookup_lt_Some|].
    iDestruct (big_sepL2_lookup_acc with "H") as "[Hp _]"; [done..|]. destruct v; [done|]. by iLeft.
  - iRight. iPureIntro. apply lookup_ge_None. rewrite -Hlen. by apply lookup_ge_None.
Qed.

Lemma live_cases {A} (l : list (option A)) i :
  (exists a, l !! i = Some (Some a)) \/ (l !! i = Some None \/ l !! i = None).
Proof. destruct (l !! i) as [[a|]|]; eauto. Qed.

(** A section of a message, with a way back for another one. *)
Lemma msg_at_sec p v sec :
  msg_at p v ⊢ ∃ m, pt p (CMsg m) ∗ seq_at rr_ref (get_sec sec m) (get_sec sec v) ∗
    (∀ s l, pt p (CMsg (set_sec sec m s)) -∗ seq_at rr_ref s l -∗ msg_at p (set_sec sec v l)) ∧
    (∀ l, pt p (CMsg m) -∗ seq_at rr_ref (get_sec sec m) l -∗ msg_at p (set_sec sec v l)).
Proof.
  iIntros "(%q & %a & %n & %e & Hp & Hq & Ha & Hn & He)". iExists _. iFrame "Hp".
  destruct sec; cbn [get_sec set_sec mo_Hdr mo_Compress mo_Question mo_Answer mo_Ns mo_Extra];
    [iFrame "Ha"|iFrame "Hn"|iFrame "He"].
  all: iSplit; [iIntros (s l) "Hp Hs"|iIntros (l) "Hp Hs"].
  all: iExists _, _, _, _; cbn [set_sec mo_Hdr mo_Compress mo_Question mo_Answer mo_Ns mo_Extra]; iFrame.
Qed.

(** One record of a section. *)
Lemma seq_at_take s l j Φ :
  seq_at rr_ref s l ⊢ (∀ cs, ⌜length cs = length l⌝ -∗
    (match cs !! j, l !! j with
     | Some c, Some v => rr_ref c v ∗ (∀ w, rr_ref c w -∗ seq_at rr_ref s (<[j:=w]> l))
     | None, None => seq_at rr_ref s l
     | _, _ => False
     end) -∗ Φ cs) -∗ WP (elems s) Φ.
Proof.
  iIntros "(%cs & Hs & Hl) HΦ". iDestruct (big_sepL2_length with "Hl") as %Hlen.
  iApply (elems_spec with "Hs"). iIntros "Hs". iApply ("HΦ" with "[//]").
  destruct (cs !! j) as [c|] eqn:Ec, (l !! j) as [v|] eqn:Ev.
  - iDestruct (big_sepL2_insert_acc with "Hl") as "[Hc Hl]"; [done..|]. iFrame "Hc". iIntros (w) "Hc".
    iExists cs. iFrame "Hs". iDestruct ("Hl" with "Hc") as "Hl". by rewrite (list_insert_id cs).
  - apply lookup_lt_Some in Ec. apply lookup_ge_None in Ev. lia.
  - apply lookup_lt_Some in Ev. apply lookup_ge_None in Ec. lia.
  - iExists cs. iFrame.
Qed.

Lemma set_byte_spec k b s l Φ :
  slice_cells s (CByte <$> l) ⊢ (slice_cells s (CByte <$> <[k:=b]> l) -∗ Φ tt) -∗ WP (set_byte k b s) Φ.
Proof.
  destruct s as [|p n c]; cbn [slice_cells set_byte].
  - iIntros (E) "HΦ". apply fmap_nil_inv in E as ->. iApply wp_ret. by iApply "HΦ".
  - iIntros "(%junk & [%Hn %Hc] & H) HΦ". rewrite length_fmap in Hn. subst n c.
    destruct (Nat.ltb_spec k (length l)) as [Hk|Hk].
    + rewrite -{1}(take_drop_middle (CByte <$> l) k (CByte (l !!! k))); last first.
      { rewrite list_lookup_fmap (list_lookup_lookup_total_lt l k Hk). done. }
      rewrite -app_assoc arr_app -app_comm_cons arr_cons. iDestruct "H" as "(H1 & H2 & H3)".
      rewrite length_take length_fmap. replace (k `min` length l)%nat with k by lia.
      iApply (wp_store with "H2"). iIntros "H2". iApply "HΦ". iExists junk.
      iSplit; [iPureIntro; rewrite !length_fmap length_insert; done|].
      rewrite list_fmap_insert insert_take_drop; [|by rewrite length_fmap].
      rewrite -app_assoc (arr_app p) -app_comm_cons. rewrite arr_cons. rewrite length_take length_fmap.
      replace (k `min` length l)%nat with k by lia. iFrame.
    + iApply wp_ret. iApply "HΦ". rewrite list_insert_ge; [|done]. iExists junk. iFrame. by rewrite length_fmap.
Qed.

Lemma alter_lookup {A} (g : A -> A) (l : list A) (j : nat) :
  alter g j l = match l !! j with Some x => <[j:=g x]> l | None => l end.
Proof.
  revert j. induction l as [|x l IH]; intros [|j]; cbn; try done.
  change (list_alter g j l) with (alter g j l). rewrite IH. by destruct (l !! j).
Qed.

Lemma with_rr_spec p v sec j f g Φ :
  (forall rp r o Ψ, pt rp (CRR r.1 o) ⊢ rr_obj o r.2 -∗ (rr_at rp (g r) -∗ Ψ tt) -∗ WP (f rp r.1 o) Ψ) ->
  msg_at p v ⊢ (msg_at p (set_sec sec v (alter g j (get_sec sec v))) -∗ Φ tt) -∗ WP (with_rr p sec j f) Φ.
Proof.
  intros Hf. iIntros "H HΦ". iDestruct (msg_at_sec p v sec with "H") as (m) "(Hp & Hs & Hback)".
  iDestruct "Hback" as "[_ Hback]". wp_bind. iApply (wp_load with "Hp"). iIntros "Hp". wp_bind.
  iApply (seq_at_take _ _ j with "Hs"). iIntros (cs) "%Hlen Hj".
  destruct (cs !! j) as [c|] eqn:Ec, (get_sec sec v !! j) as [r|] eqn:Er; try done.
  - iDestruct "Hj" as "[(%rp & -> & %o & Hrp & Ho) Hj]". wp_bind. iApply (wp_load with "Hrp"). iIntros "Hrp".
    iApply (Hf with "Hrp Ho"). iIntros "Hr". iApply "HΦ". iApply ("Hback" with "Hp").
    rewrite alter_lookup Er. iApply "Hj". iExists rp. by iFrame.
  - iApply wp_ret. iApply "HΦ". rewrite alter_lookup Er. iApply ("Hback" with "Hp Hj").
Qed.

Lemma write_event_spec ev p v Φ :
  msg_at p v ⊢ (msg_at p (spec_write ev v) -∗ Φ tt) -∗ WP (write_event ev p) Φ.
Proof.
  destruct ev as [?|?|?|i hdr|i sec j hdr|i sec j k b|i sec r]; cbn [write_event spec_write].
  1-3: iIntros "H HΦ"; iApply wp_ret; by iApply "HΦ".
  - iIntros "(%q & %a & %n & %e & Hp & Hr) HΦ". wp_bind. iApply (wp_load with "Hp"). iIntros "Hp".
    iApply (wp_store with "Hp"). iIntros "Hp". iApply "HΦ". iExists q, a, n, e. iFrame.
  - apply with_rr_spec. iIntros (rp r o Ψ) "Hp Ho HΨ". iApply (wp_store with "Hp"). iIntros "Hp". iApply "HΨ".
    iExists o. iFrame.
  - apply with_rr_spec. iIntros (rp r o Ψ) "Hp Ho HΨ". unfold spec_byte.
    destruct o, r as [h []]; cbn; try done;
      first [iApply (set_byte_spec with "Ho"); iIntros "Ho"; iApply "HΨ"; iExists _; by iFrame
            |iApply wp_ret; iApply "HΨ"; iExists _; by iFrame].
  - iIntros "H HΦ". wp_bind. iApply new_rr_spec. iIntros (c) "Hc".
    iDestruct (msg_at_sec p v sec with "H") as (m) "(Hp & Hs & Hback)". iDestruct "Hback" as "[Hback _]".
    wp_bind. iApply (wp_load with "Hp"). iIntros "Hp". wp_bind. iApply (seq_append with "Hs Hc"). iIntros (s') "Hs".
    iApply (wp_store with "Hp"). iIntros "Hp". iApply "HΦ". iApply ("Hback" with "Hp Hs").
Qed.

(** The message of an event that is not a reception. *)
Definition target (ev : event) : option nat :=
  match ev with
  | ENew _ => None
  | EClone i | EDispose i | ESetHdr i _ | ESetRRHdr i _ _ _ | ESetByte i _ _ _ _ | EAppendRR i _ _ => Some i
  end.

(** An event on a message that is not live does nothing. *)
Lemma dead_event ev i live vs : target ev = Some i -> (live !! i = Some None \/ live !! i = None) ->
  (vs !! i = Some None \/ vs !! i = None) -> exec_event ev live = gret live /\ spec_event ev vs = vs.
Proof. destruct ev; cbn; intros [= ->] [E|E] [E2|E2]; by rewrite E E2. Qed.

Lemma exec_write_spec ev i p v live vs Φ : live !! i = Some (Some p) -> vs !! i = Some (Some v) ->
  msg_at p v ⊢ (∀ q w, own_msg q w -∗ own_all (<[i:=q]> live) (<[i:=w]> vs)) -∗
  (∀ live', own_all live' (<[i:=Some (spec_write ev v)]> vs) -∗ Φ live') -∗ WP (write_event ev p;; gret live) Φ.
Proof.
  iIntros (Hi Hv) "Hp H HΦ". wp_bind. iApply (write_event_spec with "Hp"). iIntros "Hp". iApply wp_ret. iApply "HΦ".
  iDestruct ("H" $! (Some p) (Some (spec_write ev v)) with "Hp") as "H". by rewrite list_insert_id.
Qed.

Lemma exec_event_spec ev live vs Φ :
  own_all live vs ⊢ (∀ live', own_all live' (spec_event ev vs) -∗ Φ live') -∗ WP (exec_event ev live) Φ.
Proof.
  iIntros "H HΦ". destruct (target ev) as [i|] eqn:Et.
  2:{ destruct ev; try done. wp_bind. iApply new_msg_spec. iIntros (p) "Hp". iApply wp_ret. iApply "HΦ".
      iApply (own_all_snoc with "H Hp"). }
  destruct (live_cases live i) as [[p Hi]|Hi].
  2:{ iDestruct (own_all_none with "H") as %Hv; [done|]. destruct (dead_event ev i live vs) as [-> ->]; [done..|].
      iApply wp_ret. by iApply "HΦ". }
  iDestruct (own_all_take with "H") as (v) "(%Hv & Hp & H)"; [done|].
  destruct ev; try done; injection Et as ->; cbn [exec_event spec_event]; rewrite Hi Hv.
  - wp_bind. iApply (Clone_spec with "Hp"). iIntros (p') "Hp Hp'". iApply wp_ret. iApply "HΦ".
    iDestruct ("H" $! (Some p) (Some v) with "Hp") as "H". rewrite !list_insert_id //. iApply (own_all_snoc with "H Hp'").
  - wp_bind. iApply (Dispose_spec with "Hp"). iApply wp_ret. iApply "HΦ". by iApply ("H" $! None None).
  - iApply (exec_write_spec with "Hp H HΦ"); done.
  - iApply (exec_write_spec with "Hp H HΦ"); done.
  - iApply (exec_write_spec with "Hp H HΦ"); done.
  - iApply (exec_write_spec with "Hp H HΦ"); done.
Qed.

Lemma exec_events_spec evs live vs Φ :
  own_all live vs ⊢ (∀ live', own_all live' (foldl (fun l ev => spec_event ev l) vs evs) -∗ Φ live') -∗
  WP (exec_events evs live) Φ.
Proof.
  revert live vs. induction evs as [|ev evs IH]; intros live vs; cbn [exec_events foldl]; iIntros "H HΦ".
  - iApply wp_ret. by iApply "HΦ".
  - wp_bind. iApply (exec_event_spec with "H"). iIntros (live') "H". iApply (IH with "H HΦ").
Qed.

(** C11. Messages are received in which every slice has an array of its own, cloned,
    disposed of and written to (their headers, the headers of their records, the bytes
    of addresses, and records that are appended), in any order.  Whichever objects the
    pools return, every message that is in use has the contents that it would have
    without pools: a clone has the contents of its original, and later writes, clones
    and disposals of other messages do not change it.  No step panics.  Messages whose
    slices share an array, such as the hints that a parser cuts from one buffer, are
    left out: for them, this does not hold. *)
Theorem cloner_refines evs ch :
  exists live σ, exec_events evs [] (mem_init ch) = Ret (live, σ) /\
    Forall2 (fun p v =>
      match p, v with
      | Some p, Some v => exists σ', read_msg p σ = Ret (v, σ')
      | None, None => True
      | _, _ => False
      end) live (spec_events evs).
Proof.
  destruct (wp_adequate shape (exec_events evs []) (fun live => own_all live (spec_events evs)) ∅ (mem_init ch))
    as (live & σ & h & E & Ho & Hi); [|apply interp_init|].
  { assert (⊢ WP (exec_events evs []) (fun live => own_all live (spec_events evs))) as [H]; [|by apply H].
    iApply (exec_events_spec _ [] []); [by unfold own_all|]. by iIntros (live') "H". }
  exists live, σ. split; [done|]. apply Forall2_same_length_lookup.
  assert (own_all live (spec_events evs) ⊢ ⌜length live = length (spec_events evs)⌝) as [Hlen] by apply big_sepL2_length.
  split; [by apply (Hlen h)|]. intros i p v Hp Hv.
  assert (own_all live (spec_events evs) ⊢ own_msg p v) as [Hown].
  { iIntros "H". by iDestruct (big_sepL2_lookup_acc with "H") as "[$ _]". }
  apply Hown in Ho. destruct p as [p|], v as [v|]; try done.
  assert (msg_at p v ⊢ WP (read_msg p) (fun v' => ⌜v' = v⌝)) as [Hread].
  { iIntros "H". iApply (read_msg_spec with "H"). by iIntros "_". }
  destruct (wp_adequate shape (read_msg p) (fun v' => ⌜v' = v⌝)%I h σ) as (v' & σ' & h' & Er & Hv' & _); [by apply Hread|done|].
  change (v' = v) in Hv'. subst v'. by exists σ'.
Qed.
End cloner.

(** * Shared arrays *)

(** A message whose five hints are slices of one array, as a parser that cuts one
    buffer makes them. *)
Definition some_hdr : RR_Header := {| rh_Name := "a."; rh_Rrtype := 65; rh_Class := 1; rh_Ttl := 10 |}.

Definition cut_msg : prog Z :=
  do b <- alloc (replicate 20 (CByte 1));
  do h <- alloc ((fun i => CIP (Slice (b + Z.of_nat (4 * i)) 4 (20 - 4 * i))) <$> seq 0 5);
  do kv <- alloc [CKV (KIPv4Hint (Slice h 5 5))];
  do vals <- alloc [CPtr kv];
  do rr <- alloc [CRR some_hdr (BHTTPS 1 "." (Slice vals 1 1))];
  do ans <- alloc [CPtr rr];
  alloc [CMsg {| mo_Hdr := zeroMsgHdr; mo_Compress := false; mo_Question := Nil; mo_Answer := Slice ans 1 1;
                 mo_Ns := Nil; mo_Extra := Nil |}].

Definition v6_msg : msg_val := {|
  mo_Hdr := zeroMsgHdr; mo_Compress := false; mo_Question := []; mo_Ns := []; mo_Extra := [];
  mo_Answer := [(some_hdr, BHTTPS 1 "." [KIPv6Hint [replicate 16 6; replicate 16 7]])] |}.

(** Disposing of such a message puts overlapping arrays into a pool: a later clone
    of a message with two other addresses may have one that is neither of them. *)
Theorem shared_hints_corrupt :
  exists ch v σ,
    (do m <- cut_msg; do o <- new_msg (fun _ => 0%nat) v6_msg; Dispose (Some m);;
     do c <- Clone (fun _ => 0%nat) (copy_rr (fun _ => 0%nat)) (Some o);
     match fst c with Some c => read_msg c | None => gpanic "nil" end) (mem_init ch) = Ret (v, σ) /\
    mo_Answer v = [(some_hdr, BHTTPS 1 "." [KIPv6Hint [replicate 12 7 ++ replicate 4 6; replicate 16 7]])].
Proof. exists [0; 0; 9; 1; 1]%nat. eexists _, _. split; [by vm_compute|]. by vm_compute. Qed.

(** * Witnesses *)

Definition some_events : list event := [
  ENew v6_msg; EClone 0; ESetHdr 1 {|
    mh_Id := 5; mh_Response := true; mh_Opcode := 0; mh_Authoritative := false; mh_Truncated := false;
    mh_RecursionDesired := false; mh_RecursionAvailable := false; mh_Zero := false; mh_AuthenticatedData := false;
    mh_CheckingDisabled := false; mh_Rcode := 0 |};
  ESetRRHdr 1 SAnswer 0 some_hdr; EAppendRR 1 SExtra (some_hdr, BA [1; 2; 3; 4]); ESetByte 1 SExtra 0 2 9;
  EDispose 0; EClone 1; EDispose 1; ENew v6_msg; EClone 2].

Lemma cloner_refines_witness :
  exists live σ, exec_events (fun n => n) (copy_rr (fun n => n)) some_events [] (mem_init [3; 0; 1; 0; 0; 2]%nat) = Ret (live, σ) /\
    Forall2 (fun p v =>
      match p, v with
      | Some p, Some v => exists σ', read_msg p σ = Ret (v, σ')
      | None, None => True
      | _, _ => False
      end) live (spec_events some_events).
Proof. apply (cloner_refines (fun n => n) (copy_rr (fun n => n))). apply copy_rr_spec. Defined.
