(* ===== verification/Config.v ===== *)
(** The configuration file of internal/cmd and its validation: ratelimit.go,
    cache.go, upstream.go, dns.go, dnsdb.go, backend.go, querylog.go, geoip.go,
    check.go, tls.go, websvc.go, safebrowsing.go, filter.go, filteringgroup.go,
    server.go, servergroup.go, ddr.go, dnscrypt.go, conncheck.go,
    ifacelistener.go, network.go, access.go, additional.go and config.go.

    A pointer that may be nil is an option.  Durations are nanoseconds, sizes are
    bytes.  The functions of golibs are classes with their documented laws; the
    decoding of YAML is not modelled. *)

From S2P Require Import Prelude GoStd NetIP Filter AgdProtobuf Refreshable Forward.

Open Scope Z_scope.

(** * Parameters *)

(** The functions of golibs/validate.  A value is given to [NotEmpty] by whether it
    is the zero value, a slice by its length. *)
Class Validators := {
  v_Positive : string -> Z -> option error;
  v_NotNegative : string -> Z -> option error;
  v_NoGreaterThan : string -> Z -> Z -> option error;
  v_NoLessThan : string -> Z -> Z -> option error;
  v_InRange : string -> Z -> Z -> Z -> option error;
  v_NotEmpty : string -> bool -> option error;
  v_NotNil : string -> bool -> option error;
  v_NotEmptySlice : string -> nat -> option error;
  v_EmptySlice : string -> nat -> option error;
}.

Class ValidatorsSpec `{Validators} : Prop := {
  positive_ok n v : v_Positive n v = None <-> 0 < v;
  not_negative_ok n v : v_NotNegative n v = None <-> 0 <= v;
  no_greater_ok n v m : v_NoGreaterThan n v m = None <-> v <= m;
  no_less_ok n v m : v_NoLessThan n v m = None <-> m <= v;
  in_range_ok n v a b : v_InRange n v a b = None <-> a <= v <= b;
  not_empty_ok n b : v_NotEmpty n b = None <-> b = false;
  not_nil_ok n b : v_NotNil n b = None <-> b = false;
  not_empty_slice_ok n l : v_NotEmptySlice n l = None <-> l <> 0%nat;
  empty_slice_ok n l : v_EmptySlice n l = None <-> l = 0%nat;
}.

(** [netutil.ValidateHostname] of golibs, [url.Parse] and [netip.ParseAddrPort] of
    the addresses of upstreams, and the label names of Prometheus. *)
Class ConfigParsers := {
  ValidateHostname : string -> option error;
  url_Parse : string -> result error URL;
  ParseAddrPort : string -> result error AddrPort;
  IsValidLabelName : string -> bool;
}.

Definition is_empty (s : string) : bool := bool_decide (s = EmptyString).
Definition is_nil_ptr {A} (o : option A) : bool := match o with None => true | Some _ => false end.

(** [errors.Join] of errors that may be nil. *)
Definition joinErrs (errs : list (option error)) : option error := Join (omap id errs).

Definition ErrNoValue : option error := Some (ErrConst "no value").
Definition ErrEmptyValue : option error := Some (ErrConst "empty value").
Definition ErrBadEnumValue (format : string) : option error := Some (ErrWrap format (ErrConst "bad enum value")).
Definition ErrDuplicated (format : string) : option error := Some (ErrWrap format (ErrConst "duplicated value")).

(** [validate.Append], and the errors of the items of a slice. *)
Definition v_Append (name : string) (err : option error) : option error := wrap_opt (name +:+ ": %w") err.
Definition v_Slice {A} (name : string) (f : A -> option error) (l : list A) : list (option error) :=
  (fun x => wrap_opt (name +:+ ": at index %d: %w") (f x)) <$> l.

Definition MaxInt : Z := 2 ^ 63 - 1.

(** The items of a map in the order of [slices.Sorted(maps.Keys(m))]; the loops over
    maps without it visit them in any order. *)
Definition key_le {A} (x y : string * A) : Prop := String.leb x.1 y.1 = true.
#[global] Instance key_le_dec {A} : RelDecision (@key_le A).
Proof. intros x y. unfold key_le. apply _. Defined.
Definition path_le (x y : string) : Prop := String.leb x y = true.
#[global] Instance path_le_dec : RelDecision path_le.
Proof. intros x y. unfold path_le. apply _. Defined.
Definition sorted_items {A} (m : gmap string A) : list (string * A) := merge_sort key_le (map_to_list m).

(** The errors of items that must be valid and have unique keys; an item that is
    not valid does not take its key. *)
Fixpoint unique_errs {A} (valid : A -> option error) (key : A -> string) (seen : gset string) (l : list A)
    : list (option error) :=
  match l with
  | [] => []
  | x :: l =>
      match valid x with
      | Some err => Some (ErrWrap "at index %d: %w" err) :: unique_errs valid key seen l
      | None =>
          if bool_decide (key x ∈ seen) then ErrDuplicated "at index %d: %w: %q" :: unique_errs valid key seen l
          else unique_errs valid key ({[key x]} ∪ seen) l
      end
  end.

Section config.
Context `{Validators} `{ConfigParsers}.

(** * Rate limiting *)

Record rateLimitOptions := { rlo_Count : Z; rlo_Interval : Z; rlo_SubnetKeyLen : Z }.

Definition rateLimitOptions_Validate (o : option rateLimitOptions) : option error :=
  match o with
  | None => ErrNoValue
  | Some o => joinErrs [
      v_Positive "count" (rlo_Count o); v_Positive "interval" (rlo_Interval o);
      v_Positive "subnet_key_len" (rlo_SubnetKeyLen o)]
  end.

Record allowListConfig := { alc_List : list Prefix; alc_RefreshIvl : Z }.

Definition allowListConfig_Validate (c : option allowListConfig) : option error :=
  match c with None => ErrNoValue | Some c => v_Positive "refresh_interval" (alc_RefreshIvl c) end.

Record activeReqLimitConfig := { arl_Max : Z; arl_Enabled : bool }.

Definition activeReqLimitConfig_Validate (c : option activeReqLimitConfig) : option error :=
  match c with
  | None => ErrNoValue
  | Some c => if negb (arl_Enabled c) then None else v_Positive "max" (arl_Max c)
  end.

Record connLimitConfig := { cl_Stop : Z; cl_Resume : Z; cl_Enabled : bool }.

Definition connLimitConfig_Validate (c : option connLimitConfig) : option error :=
  match c with
  | None => ErrNoValue
  | Some c =>
      if negb (cl_Enabled c) then None
      else joinErrs [
        v_Positive "stop" (cl_Stop c); v_Positive "resume" (cl_Resume c);
        v_NoGreaterThan "resume" (cl_Resume c) (cl_Stop c)]
  end.

Record ratelimitTCPConfig := { rt_MaxPipelineCount : Z; rt_Enabled : bool }.

Definition ratelimitTCPConfig_Validate (c : option ratelimitTCPConfig) : option error :=
  match c with None => ErrNoValue | Some c => v_Positive "max_pipeline_count" (rt_MaxPipelineCount c) end.

Record ratelimitQUICConfig := { rq_MaxStreamsPerPeer : Z; rq_Enabled : bool }.

Definition ratelimitQUICConfig_Validate (c : option ratelimitQUICConfig) : option error :=
  match c with None => ErrNoValue | Some c => v_Positive "max_streams_per_peer" (rq_MaxStreamsPerPeer c) end.

Record rateLimitConfig := {
  rl_ActiveRequestLimit : option activeReqLimitConfig;
  rl_Allowlist : option allowListConfig;
  rl_ConnectionLimit : option connLimitConfig;
  rl_IPv4 : option rateLimitOptions;
  rl_IPv6 : option rateLimitOptions;
  rl_QUIC : option ratelimitQUICConfig;
  rl_TCP : option ratelimitTCPConfig;
  rl_ResponseSizeEstimate : Z;
  rl_BackoffCount : Z;
  rl_BackoffDuration : Z;
  rl_BackoffPeriod : Z;
  rl_RefuseANY : bool;
}.

Definition rateLimitConfig_Validate (c : option rateLimitConfig) : option error :=
  match c with
  | None => ErrNoValue
  | Some c => joinErrs [
      v_Positive "backoff_count" (rl_BackoffCount c);
      v_Positive "backoff_duration" (rl_BackoffDuration c);
      v_Positive "backoff_period" (rl_BackoffPeriod c);
      v_Positive "response_size_estimate" (rl_ResponseSizeEstimate c);
      v_Append "active_request_limit" (activeReqLimitConfig_Validate (rl_ActiveRequestLimit c));
      v_Append "allowlist" (allowListConfig_Validate (rl_Allowlist c));
      v_Append "connection_limit" (connLimitConfig_Validate (rl_ConnectionLimit c));
      v_Append "ipv4" (rateLimitOptions_Validate (rl_IPv4 c));
      v_Append "ipv6" (rateLimitOptions_Validate (rl_IPv6 c));
      v_Append "quic" (ratelimitQUICConfig_Validate (rl_QUIC c));
      v_Append "tcp" (ratelimitTCPConfig_Validate (rl_TCP c))]
  end.

(** * The cache *)

Record ttlOverride := { to_Min : Z; to_Enabled : bool }.

Definition ttlOverride_Validate (c : option ttlOverride) : option error :=
  match c with None => ErrNoValue | Some c => v_Positive "min" (to_Min c) end.

Definition cacheTypeECS : string := "ecs".
Definition cacheTypeSimple : string := "simple".

Record cacheConfig := { cc_TTLOverride : option ttlOverride; cc_Type : string; cc_Size : Z; cc_ECSSize : Z }.

Definition cacheConfig_Validate (c : option cacheConfig) : option error :=
  match c with
  | None => ErrNoValue
  | Some c => joinErrs [
      v_NoGreaterThan "size" (cc_Size c) MaxInt;
      v_Append "ttl_override" (ttlOverride_Validate (cc_TTLOverride c));
      if bool_decide (cc_Type c = cacheTypeSimple) then None
      else if bool_decide (cc_Type c = cacheTypeECS) then v_InRange "ecs_size" (cc_ECSSize c) 1 MaxInt
      else ErrBadEnumValue "type: %w: %q, supported: %q"]
  end.

(** * Upstreams *)

(** The network, the address and the error of an address of an upstream. *)
Definition splitUpstreamURL (raw : string) : result error (string * AddrPort) :=
  let? x :=
    if Contains raw "://" then
        let? u := annotate "bad server url: %q: %w" (url_Parse raw) in
        let? n := annotate "bad server protocol: %w" (NewNetwork (u_Scheme u)) in
        Ok (n, u_Host u)
    else Ok (NetworkAny, raw) in
  let? a := annotate "bad server address %q: %w" (ParseAddrPort x.2) in
  Ok (x.1, a).

Record upstreamServerConfig := { us_Address : string; us_Timeout : Z }.

Definition upstreamServerConfig_Validate (c : option upstreamServerConfig) : option error :=
  match c with
  | None => ErrNoValue
  | Some c => joinErrs [
      v_Positive "timeout" (us_Timeout c);
      match splitUpstreamURL (us_Address c) with Err err => Some (ErrWrap "address: %w" err) | Ok _ => None end]
  end.

Record upstreamFallbackConfig := { uf_Servers : list (option upstreamServerConfig) }.

Definition upstreamFallbackConfig_Validate (c : option upstreamFallbackConfig) : option error :=
  match c with
  | None => ErrNoValue
  | Some c => joinErrs (v_NotEmptySlice "servers" (length (uf_Servers c)) ::
      v_Slice "servers" upstreamServerConfig_Validate (uf_Servers c))
  end.

Record upstreamHealthcheckConfig := {
  uh_DomainTemplate : string;
  uh_NetworkOverride : string;
  uh_Interval : Z;
  uh_Timeout : Z;
  uh_BackoffDuration : Z;
  uh_Enabled : bool;
}.

Definition upstreamHealthcheckConfig_Validate (c : option upstreamHealthcheckConfig) : option error :=
  match c with
  | None => ErrNoValue
  | Some c =>
      if negb (uh_Enabled c) then None
      else
        let netErr :=
          if is_empty (uh_NetworkOverride c) then None
          else match NewNetwork (uh_NetworkOverride c) with Err err => Some err | Ok _ => None end in
        joinErrs [
          wrap_opt "network_override: %w" netErr;
          v_NotEmpty "domain_template" (is_empty (uh_DomainTemplate c));
          v_Positive "backoff_duration" (uh_BackoffDuration c);
          v_Positive "interval" (uh_Interval c);
          v_Positive "timeout" (uh_Timeout c)]
  end.

Record upstreamConfig := {
  uc_Healthcheck : option upstreamHealthcheckConfig;
  uc_Fallback : option upstreamFallbackConfig;
  uc_Servers : list (option upstreamServerConfig);
}.

Definition upstreamConfig_Validate (c : option upstreamConfig) : option error :=
  match c with
  | None => ErrNoValue
  | Some c => joinErrs (v_NotEmptySlice "servers" (length (uc_Servers c)) ::
      v_Slice "servers" upstreamServerConfig_Validate (uc_Servers c) ++ [
      v_Append "fallback" (upstreamFallbackConfig_Validate (uc_Fallback c));
      v_Append "healthcheck" (upstreamHealthcheckConfig_Validate (uc_Healthcheck c))])
  end.

(** * The small sections *)

Definition MaxTCPIdleTimeout : Z := 65535 * 100000000.
Definition MaxMsgSize : Z := 65535.

Record dnsConfig := {
  dn_ReadTimeout : Z;
  dn_TCPIdleTimeout : Z;
  dn_WriteTimeout : Z;
  dn_HandleTimeout : Z;
  dn_MaxUDPResponseSize : Z;
}.

Definition dnsConfig_Validate (c : option dnsConfig) : option error :=
  match c with
  | None => ErrNoValue
  | Some c => joinErrs [
      v_Positive "read_timeout" (dn_ReadTimeout c);
      v_Positive "tcp_idle_timeout" (dn_TCPIdleTimeout c);
      v_NoGreaterThan "tcp_idle_timeout" (dn_TCPIdleTimeout c) MaxTCPIdleTimeout;
      v_Positive "write_timeout" (dn_WriteTimeout c);
      v_Positive "handle_timeout" (dn_HandleTimeout c);
      v_Positive "max_udp_response_size" (dn_MaxUDPResponseSize c);
      v_NoGreaterThan "max_udp_response_size" (dn_MaxUDPResponseSize c) MaxMsgSize]
  end.

Record dnsDBConfig := { dd_MaxSize : Z; dd_Enabled : bool }.

Definition dnsDBConfig_Validate (c : option dnsDBConfig) : option error :=
  match c with
  | None => ErrNoValue
  | Some c => if negb (dd_Enabled c) then None else v_Positive "max_size" (dd_MaxSize c)
  end.

Record backendConfig := {
  be_Timeout : Z;
  be_RefreshIvl : Z;
  be_FullRefreshIvl : Z;
  be_FullRefreshRetryIvl : Z;
  be_BillStatIvl : Z;
}.

Definition backendConfig_Validate (c : option backendConfig) : option error :=
  match c with
  | None => ErrNoValue
  | Some c => joinErrs [
      v_NotNegative "timeout" (be_Timeout c);
      v_Positive "refresh_interval" (be_RefreshIvl c);
      v_Positive "full_refresh_interval" (be_FullRefreshIvl c);
      v_Positive "full_refresh_retry_interval" (be_FullRefreshRetryIvl c);
      v_Positive "bill_stat_interval" (be_BillStatIvl c)]
  end.

Record queryLogConfig := { ql_File : option bool }.

Definition queryLogConfig_Validate (c : option queryLogConfig) : option error :=
  match c with None => ErrNoValue | Some c => v_NotNil "file" (is_nil_ptr (ql_File c)) end.

Record geoIPConfig := { gi_HostCacheSize : Z; gi_IPCacheSize : Z; gi_RefreshIvl : Z }.

Definition geoIPConfig_Validate (c : option geoIPConfig) : option error :=
  match c with
  | None => ErrNoValue
  | Some c => joinErrs [
      v_Positive "host_cache_size" (gi_HostCacheSize c);
      v_NoGreaterThan "host_cache_size" (gi_HostCacheSize c) MaxInt;
      v_Positive "ip_cache_size" (gi_IPCacheSize c);
      v_NoGreaterThan "ip_cache_size" (gi_IPCacheSize c) MaxInt;
      v_Positive "refresh_interval" (gi_RefreshIvl c)]
  end.

(** [checkProto] for the family. *)
Definition validateNonNilIPs (fam4 : bool) (ips : list Addr) : option error :=
  match ips with
  | [] => Some (ErrConst "no %s")
  | _ =>
      if forallb (fun ip => if fam4 then Is4 ip else Is6 ip) ips then None
      else Some (ErrConst "%s: address %q at index %d: incorrect protocol")
  end.

Record checkConfig := {
  ck_Domains : list string;
  ck_NodeLocation : string;
  ck_IPv4 : list Addr;
  ck_IPv6 : list Addr;
}.

Definition checkConfig_Validate (c : option checkConfig) : option error :=
  match c with
  | None => ErrNoValue
  | Some c => joinErrs [
      v_NotEmpty "node_location" (is_empty (ck_NodeLocation c));
      v_NotEmptySlice "domains" (length (ck_Domains c));
      validateNonNilIPs true (ck_IPv4 c);
      validateNonNilIPs false (ck_IPv6 c)]
  end.

Record safeBrowsingConfig := {
  sb_BlockHost : string;
  sb_CacheSize : Z;
  sb_CacheTTL : Z;
  sb_RefreshIvl : Z;
  sb_RefreshTimeout : Z;
}.

Definition safeBrowsingConfig_Validate (c : option safeBrowsingConfig) : option error :=
  match c with
  | None => ErrNoValue
  | Some c => joinErrs [
      v_NotEmpty "block_host" (is_empty (sb_BlockHost c));
      v_Positive "cache_size" (sb_CacheSize c);
      v_NoGreaterThan "cache_size" (sb_CacheSize c) MaxInt;
      v_Positive "cache_ttl" (sb_CacheTTL c);
      v_Positive "refresh_interval" (sb_RefreshIvl c);
      v_Positive "refresh_timeout" (sb_RefreshTimeout c)]
  end.

Record fltRuleListCache := { frc_Size : Z; frc_Enabled : bool }.

Definition fltRuleListCache_Validate (c : option fltRuleListCache) : option error :=
  match c with
  | None => ErrNoValue
  | Some c => joinErrs [v_Positive "size" (frc_Size c); v_NoGreaterThan "size" (frc_Size c) MaxInt]
  end.

Record filtersConfig := {
  fl_RuleListCache : option fltRuleListCache;
  fl_CustomFilterCacheSize : Z;
  fl_SafeSearchCacheSize : Z;
  fl_ResponseTTL : Z;
  fl_RefreshIvl : Z;
  fl_RefreshTimeout : Z;
  fl_IndexRefreshTimeout : Z;
  fl_RuleListRefreshTimeout : Z;
  fl_MaxSize : Z;
  fl_EDEEnabled : bool;
  fl_SDEEnabled : bool;
}.

Definition filtersConfig_Validate (c : option filtersConfig) : option error :=
  match c with
  | None => ErrNoValue
  | Some c => joinErrs [
      v_Positive "custom_filter_cache_size" (fl_CustomFilterCacheSize c);
      v_NoGreaterThan "custom_filter_cache_size" (fl_CustomFilterCacheSize c) MaxInt;
      v_Positive "safe_search_cache_size" (fl_SafeSearchCacheSize c);
      v_NoGreaterThan "safe_search_cache_size" (fl_SafeSearchCacheSize c) MaxInt;
      v_Positive "response_ttl" (fl_ResponseTTL c);
      v_Positive "refresh_interval" (fl_RefreshIvl c);
      v_Positive "refresh_timeout" (fl_RefreshTimeout c);
      v_Positive "index_refresh_timeout" (fl_IndexRefreshTimeout c);
      v_Positive "rule_list_refresh_timeout" (fl_RuleListRefreshTimeout c);
      v_Positive "max_size" (fl_MaxSize c);
      if negb (fl_EDEEnabled c) && fl_SDEEnabled c then Some (ErrConst "ede must be enabled to enable sde") else None;
      v_Append "rule_list_cache" (fltRuleListCache_Validate (fl_RuleListCache c))]
  end.

Record connCheckConfig := { cn_ProbeIPv4 : AddrPort; cn_ProbeIPv6 : AddrPort }.

Definition addrPort_zero (a : AddrPort) : bool := bool_decide (ap_addr a = AddrZero) && (ap_port a =? 0).

Definition connCheckConfig_Validate (c : option connCheckConfig) : option error :=
  match c with None => ErrNoValue | Some c => v_NotEmpty "probe_ipv4" (addrPort_zero (cn_ProbeIPv4 c)) end.

Record networkConfig := { nw_SndBufSize : Z; nw_RcvBufSize : Z }.

Definition maxBufSize : Z := 2 ^ 31 - 1.

Definition network_Validate (n : option networkConfig) : option error :=
  match n with
  | None => ErrNoValue
  | Some n => joinErrs [
      v_NoGreaterThan "so_sndbuf" (nw_SndBufSize n) maxBufSize; v_NoGreaterThan "so_rcvbuf" (nw_RcvBufSize n) maxBufSize]
  end.

Record interfaceListenerConfig := { il_Interface : string; il_Port : Z }.

Definition interfaceListener_Validate (l : option interfaceListenerConfig) : option error :=
  match l with
  | None => ErrNoValue
  | Some l => joinErrs [v_Positive "port" (il_Port l); v_NotEmpty "interface" (is_empty (il_Interface l))]
  end.

Record interfaceListenersConfig := { ilc_List : gmap string (option interfaceListenerConfig); ilc_ChannelBufferSize : Z }.

Definition interfaceListenersConfig_Validate (c : option interfaceListenersConfig) : option error :=
  match c with
  | None => None
  | Some c => joinErrs (
      v_Positive "channel_buffer_size" (ilc_ChannelBufferSize c) ::
      (if bool_decide (ilc_List c = ∅) then wrap_opt "list: %w" ErrEmptyValue else None) ::
      ((fun x => wrap_opt "interface %q: %w" (interfaceListener_Validate x.2)) <$> sorted_items (ilc_List c)))
  end.

Record accessConfig := { ac_BlockedQuestionDomains : list string; ac_BlockedClientSubnets : list Prefix }.

Definition accessConfig_Validate (c : option accessConfig) : option error :=
  match c with None => ErrNoValue | Some _ => None end.

Definition additionalInfo_Validate (c : gmap string string) : option error :=
  joinErrs ((fun x => if IsValidLabelName x.1 then None
    else Some (ErrConst "prometheus labels must match %s, got %q")) <$> sorted_items c).

(** * DDR *)

Record ddrRecord := {
  dr_DoHPath : string;
  dr_IPv4Hints : list Addr;
  dr_IPv6Hints : list Addr;
  dr_HTTPSPort : Z;
  dr_QUICPort : Z;
  dr_TLSPort : Z;
}.

Definition validatePorts (r : ddrRecord) : option error :=
  if negb (dr_HTTPSPort r =? 0) && (dr_HTTPSPort r =? dr_TLSPort r)
  then Some (ErrConst "https_port: cannot be same as tls_port, got %d")
  else if (dr_HTTPSPort r =? 0) && (dr_QUICPort r =? 0) && (dr_TLSPort r =? 0)
  then Some (ErrConst "all ports are zero")
  else None.

Definition ddrRecord_Validate (r : option ddrRecord) : option error :=
  match r with
  | None => ErrNoValue
  | Some r => joinErrs (
      (if negb (dr_HTTPSPort r =? 0) && is_empty (dr_DoHPath r)
       then Some (ErrConst "doh_path: cannot be empty if https_port is set") else None) ::
      ((fun a => if Is4 a then None else Some (ErrConst "ipv4_hints: at index %d: not an ipv4 addr")) <$> dr_IPv4Hints r) ++
      ((fun a => if Is6 a then None else Some (ErrConst "ipv6_hints: at index %d: not an ipv6 addr")) <$> dr_IPv6Hints r) ++
      [validatePorts r])
  end.

Definition ddrDeviceRecords_Validate (recs : gmap string (option ddrRecord)) : option error :=
  joinErrs (mjoin ((fun x : string * option ddrRecord =>
    if negb (HasPrefix x.1 "*.") then [Some (ErrConst "wildcard %q: not a wildcard")]
    else [wrap_opt "wildcard %q: %w" (ValidateHostname (str_drop 2 x.1)); wrap_opt "wildcard %q: %w" (ddrRecord_Validate x.2)])
    <$> map_to_list recs)).

Record ddrConfig := {
  dc_DeviceRecords : gmap string (option ddrRecord);
  dc_PublicRecords : gmap string (option ddrRecord);
  dc_Enabled : bool;
}.

Definition ddrConfig_Validate (c : option ddrConfig) : option error :=
  match c with
  | None => ErrNoValue
  | Some c => joinErrs (
      v_Append "device_records" (ddrDeviceRecords_Validate (dc_DeviceRecords c)) ::
      mjoin ((fun x : string * option ddrRecord =>
        [wrap_opt "public_records: domain %q: %w" (ValidateHostname x.1);
         wrap_opt "public_records: domain %q: %w" (ddrRecord_Validate x.2)]) <$> map_to_list (dc_PublicRecords c)))
  end.

(** * TLS *)

Record tlsCertificateConfig := { tc_CertificatePath : string; tc_KeyPath : string }.

Definition certificateGroupConfigs_Validate (c : gmap string (option tlsCertificateConfig)) : option error :=
  joinErrs (mjoin ((fun x : string * option tlsCertificateConfig =>
    match NewCertificateName x.1 with Err err => Some (ErrWrap "certificate group %q: %w" err) | Ok _ => None end ::
    match x.2 with
    | None => [wrap_opt "certificate group %q: %w" ErrNoValue]
    | Some cg => [
        wrap_opt "certificate group %q: %w" (v_NotEmpty "certificate" (is_empty (tc_CertificatePath cg)));
        wrap_opt "certificate group %q: %w" (v_NotEmpty "key" (is_empty (tc_KeyPath cg)))]
    end) <$> sorted_items c)).

Record tlsConfig := { tl_CertificateGroups : gmap string (option tlsCertificateConfig); tl_Enabled : bool }.

Inductive tlsState := tlsStateDisabled | tlsStateInvalid | tlsStateValid.

(** The state, and the error. *)
Definition tlsConfigValidator_Validate (c : option tlsConfig) : tlsState * option error :=
  match c with
  | None => (tlsStateInvalid, ErrNoValue)
  | Some c =>
      if negb (tl_Enabled c) then (tlsStateDisabled, None)
      else match certificateGroupConfigs_Validate (tl_CertificateGroups c) with
      | Some err => (tlsStateInvalid, Some err)
      | None => (tlsStateValid, None)
      end
  end.

(** The names of the groups; a nil slice is none, and so is a nil item, on which the
    validation panics. *)
Notation certGroups := (option (list (option string))).

Definition certGroups_list (c : certGroups) : list (option string) := default [] c.

Definition tls_groups (c : option tlsConfig) : outcome (gmap string (option tlsCertificateConfig)) :=
  match c with Some c => Ret (tl_CertificateGroups c) | None => Panic "nil pointer dereference" end.

Fixpoint certGroups_errs (known : outcome (gmap string (option tlsCertificateConfig))) (l : list (option string))
    : outcome (list (option error)) :=
  match l with
  | [] => Ret []
  | None :: _ => Panic "nil pointer dereference"
  | Some name :: l =>
      let! m := known in
      let! errs := certGroups_errs known l in
      Ret ((match m !! name with Some _ => None | None => ErrBadEnumValue "at index %d: %q: %w" end) :: errs)
  end.

Definition certGroups_validate (tlsConf : option tlsConfig) (c : certGroups) : outcome (option error) :=
  match c with
  | None => Ret ErrNoValue
  | Some [] => Ret ErrEmptyValue
  | Some l => let! errs := certGroups_errs (tls_groups tlsConf) l in Ret (joinErrs errs)
  end.

Record serverGroupTLSConfig := {
  st_CertificateGroups : certGroups;
  st_SessionKeys : list string;
  st_DeviceIDWildcards : list string;
}.

Fixpoint validateDeviceIDWildcards_loop (seen : gset string) (wildcards : list string) : option error :=
  match wildcards with
  | [] => None
  | w :: wildcards =>
      if negb (HasPrefix w "*.") then Some (ErrConst "at index %d: not a wildcard: %q")
      else if bool_decide (w ∈ seen) then ErrDuplicated "at index %d: wildcard: %w: %q"
      else validateDeviceIDWildcards_loop ({[w]} ∪ seen) wildcards
  end.

Definition validateDeviceIDWildcards : list string -> option error := validateDeviceIDWildcards_loop ∅.

Definition validateIfNecessary (c : option serverGroupTLSConfig) (needsTLS : bool) (tlsConf : option tlsConfig) (ts : tlsState)
    : outcome (option error) :=
  match c with
  | None => Ret (if needsTLS then Some (ErrConst "server group requires tls") else None)
  | Some c =>
      if negb needsTLS then Ret (Some (ErrConst "server group does not require tls"))
      else match ts with
      | tlsStateDisabled => Ret (Some (ErrConst "tls is disabled"))
      | _ =>
          let! certErr :=
            match ts with tlsStateValid => certGroups_validate tlsConf (st_CertificateGroups c) | _ => Ret None end in
          Ret (joinErrs [
            wrap_opt "certificate_groups: %w" certErr;
            wrap_opt "device_id_wildcards: %w" (validateDeviceIDWildcards (st_DeviceIDWildcards c))])
      end
  end.

(** * Filtering groups *)

Record fltGrpRuleLists := { fgr_IDs : list string; fgr_Enabled : bool }.

(** A duplicate is looked for before the identifier is checked. *)
Fixpoint ruleListIDs_errs (seen : gset string) (ids : list string) : list (option error) :=
  match ids with
  | [] => []
  | id :: ids =>
      if bool_decide (id ∈ seen) then ErrDuplicated "at index %d: id: %w: %q" :: ruleListIDs_errs seen ids
      else match NewID id with
      | Err err => Some (ErrWrap "rule_lists: at index %d: id: %w" err) :: ruleListIDs_errs seen ids
      | Ok _ => ruleListIDs_errs ({[id]} ∪ seen) ids
      end
  end.

Definition fltGrpRuleLists_Validate (c : option fltGrpRuleLists) : option error :=
  match c with None => ErrNoValue | Some c => joinErrs (ruleListIDs_errs ∅ (fgr_IDs c)) end.

Record fltGrpParental := {
  fgp_Enabled : bool;
  fgp_BlockAdult : bool;
  fgp_GeneralSafeSearch : bool;
  fgp_YoutubeSafeSearch : bool;
}.

Record fltGrpSafeBrowsing := {
  fgs_Enabled : bool;
  fgs_BlockDangerousDomains : bool;
  fgs_BlockNewlyRegisteredDomains : bool;
}.

Record filteringGroup := {
  fg_RuleLists : option fltGrpRuleLists;
  fg_Parental : option fltGrpParental;
  fg_SafeBrowsing : option fltGrpSafeBrowsing;
  fgc_ID : string;
  fgc_BlockChromePrefetch : bool;
  fgc_BlockFirefoxCanary : bool;
  fgc_BlockPrivateRelay : bool;
}.

Definition filteringGroup_Validate (g : option filteringGroup) : option error :=
  match g with
  | None => ErrNoValue
  | Some g => joinErrs [
      v_NotEmpty "id" (is_empty (fgc_ID g));
      v_NotNil "parental" (is_nil_ptr (fg_Parental g));
      v_NotNil "safe_browsing" (is_nil_ptr (fg_SafeBrowsing g));
      v_Append "rule_lists" (fltGrpRuleLists_Validate (fg_RuleLists g))]
  end.

(** The key of a nil item is never looked at. *)
Definition group_key {A} (key : A -> string) (x : option A) : string := match x with Some x => key x | None => EmptyString end.

Definition filteringGroups_Validate (groups : list (option filteringGroup)) : option error :=
  match groups with
  | [] => ErrEmptyValue
  | _ => joinErrs (unique_errs filteringGroup_Validate (group_key fgc_ID) ∅ groups)
  end.

(** * Servers *)

Definition srvProtoDNS : string := "dns".
Definition srvProtoDNSCrypt : string := "dnscrypt".
Definition srvProtoHTTPS : string := "https".
Definition srvProtoQUIC : string := "quic".
Definition srvProtoTLS : string := "tls".

Definition proto_needsTLS (p : string) : bool := bool_decide (p ∈ [srvProtoHTTPS; srvProtoQUIC; srvProtoTLS]).

Definition proto_Validate (p : string) : option error :=
  if bool_decide (p ∈ [srvProtoDNS; srvProtoDNSCrypt; srvProtoHTTPS; srvProtoQUIC; srvProtoTLS]) then None
  else ErrBadEnumValue "protocol: %w: %q".

Record ResolverConfig := {
  rc_ProviderName : string;
  rc_PublicKey : string;
  rc_PrivateKey : string;
  rc_EsVersion : Z;
}.

Definition XSalsa20Poly1305 : Z := 1.
Definition XChacha20Poly1305 : Z := 2.

Definition validateDNSCrypt (rc : ResolverConfig) : option error := joinErrs [
  v_NotEmpty "provider_name" (is_empty (rc_ProviderName rc));
  v_NotEmpty "public_key" (is_empty (rc_PublicKey rc));
  v_NotEmpty "private_key" (is_empty (rc_PrivateKey rc));
  if negb (rc_EsVersion rc =? XChacha20Poly1305) && negb (rc_EsVersion rc =? XSalsa20Poly1305)
  then ErrBadEnumValue "es_version: %w: %d" else None].

Record dnsCryptConfig := { dcc_Inline : option ResolverConfig; dcc_ConfigPath : string }.

Definition validateForProtocol (c : option dnsCryptConfig) (p : string) : option error :=
  let needsDC := bool_decide (p = srvProtoDNSCrypt) in
  match c with
  | None => if needsDC then Some (ErrConst "protocol %s requires dnscrypt") else None
  | Some c =>
      if negb needsDC then Some (ErrConst "protocol %s does not require dnscrypt")
      else if Bool.eqb (is_empty (dcc_ConfigPath c)) (is_nil_ptr (dcc_Inline c))
      then Some (ErrConst "must provide either config_path or inline")
      else match dcc_Inline c with Some rc => wrap_opt "inline: %w" (validateDNSCrypt rc) | None => None end
  end.

Record serverBindInterface := { bi_ID : string; bi_Subnets : list Prefix }.

Fixpoint subnets_errs (seen : list Prefix) (subnets : list Prefix) : list (option error) :=
  match subnets with
  | [] => []
  | p :: subnets =>
      if negb (prefix_valid p) then Some (ErrConst "subnets: at index %d: bad subnet") :: subnets_errs seen subnets
      else if bool_decide (p ∈ seen) then ErrDuplicated "subnets: at index %d: %w: %s" :: subnets_errs seen subnets
      else subnets_errs (p :: seen) subnets
  end.

Definition serverBindInterface_Validate (c : option serverBindInterface) : option error :=
  match c with
  | None => ErrNoValue
  | Some c => joinErrs (
      v_NotEmpty "id" (is_empty (bi_ID c)) :: v_NotEmptySlice "subnets" (length (bi_Subnets c)) ::
      subnets_errs [] (bi_Subnets c))
  end.

Record serverConfig := {
  sv_DNSCrypt : option dnsCryptConfig;
  sv_Name : string;
  sv_Protocol : string;
  sv_BindAddresses : list AddrPort;
  sv_BindInterfaces : list (option serverBindInterface);
  sv_LinkedIPEnabled : bool;
}.

Definition validateBindAddrs (addrs : list AddrPort) : option error :=
  joinErrs ((fun a => if IsValid (ap_addr a) then None else Some (ErrConst "bind_addresses: at index %d: invalid addr")) <$> addrs).

Definition validateBindData (s : serverConfig) : option error :=
  match sv_BindAddresses s, sv_BindInterfaces s with
  | _ :: _, _ :: _ => Some (ErrConst "bind_addresses and bind_interfaces cannot both be set")
  | _ :: _, [] => validateBindAddrs (sv_BindAddresses s)
  | [], [] => Some (ErrConst "neither bind_addresses nor bind_interfaces is set")
  | [], _ =>
      if negb (bool_decide (sv_Protocol s = srvProtoDNS))
      then Some (ErrConst "bind_interfaces: only supported for protocol %q, got %q")
      else joinErrs (v_Slice "bind_interfaces" serverBindInterface_Validate (sv_BindInterfaces s))
  end.

Definition server_Validate (s : option serverConfig) : option error :=
  match s with
  | None => ErrNoValue
  | Some s => joinErrs [
      v_NotEmpty "name" (is_empty (sv_Name s));
      validateBindData s;
      wrap_opt "protocol: %w" (proto_Validate (sv_Protocol s));
      wrap_opt "dnscrypt: %w" (validateForProtocol (sv_DNSCrypt s) (sv_Protocol s))]
  end.

(** Whether a server that is valid and not a duplicate needs TLS. *)
Fixpoint servers_needTLS (seen : gset string) (srvs : list (option serverConfig)) : bool :=
  match srvs with
  | [] => false
  | None :: srvs => servers_needTLS seen srvs
  | Some s :: srvs =>
      match server_Validate (Some s) with
      | Some _ => servers_needTLS seen srvs
      | None =>
          if bool_decide (sv_Name s ∈ seen) then servers_needTLS seen srvs
          else proto_needsTLS (sv_Protocol s) || servers_needTLS ({[sv_Name s]} ∪ seen) srvs
      end
  end.

Definition validateWithTLS (srvs : list (option serverConfig)) : bool * option error :=
  match srvs with
  | [] => (false, ErrEmptyValue)
  | _ => (servers_needTLS ∅ srvs, joinErrs (unique_errs server_Validate (group_key sv_Name) ∅ srvs))
  end.

Record serverGroup := {
  sg_DDR : option ddrConfig;
  sg_TLS : option serverGroupTLSConfig;
  sg_Name : string;
  sg_FilteringGroup : string;
  sg_Servers : list (option serverConfig);
  sg_ProfilesEnabled : bool;
}.

Definition serverGroup_validate (tlsConf : option tlsConfig) (ts : tlsState) (g : option serverGroup) : outcome (option error) :=
  match g with
  | None => Ret ErrNoValue
  | Some g =>
      let '(needsTLS, srvErr) := validateWithTLS (sg_Servers g) in
      let! tlsErr := validateIfNecessary (sg_TLS g) needsTLS tlsConf ts in
      Ret (joinErrs [
        v_NotEmpty "name" (is_empty (sg_Name g));
        v_NotEmpty "filtering_group" (is_empty (sg_FilteringGroup g));
        v_Append "ddr" (ddrConfig_Validate (sg_DDR g));
        wrap_opt "servers: %w" srvErr;
        wrap_opt "tls: %w" tlsErr])
  end.

(** [for] over items whose validation may panic. *)
Fixpoint outcomes {A B} (f : A -> outcome B) (l : list A) : outcome (list (A * B)) :=
  match l with
  | [] => Ret []
  | x :: l => let! y := f x in let! r := outcomes f l in Ret ((x, y) :: r)
  end.

Definition serverGroups_validate (tlsConf : option tlsConfig) (ts : tlsState) (srvGrps : list (option serverGroup))
    : outcome (option error) :=
  match srvGrps with
  | [] => Ret ErrEmptyValue
  | _ =>
      let! l := outcomes (serverGroup_validate tlsConf ts) srvGrps in
      Ret (joinErrs (unique_errs snd (fun x => group_key sg_Name x.1) ∅ l))
  end.

Definition collectSessTicketPaths (srvGrps : list serverGroup) : list string :=
  merge_sort path_le
    (elements (list_to_set (C:=gset string) (mjoin ((fun g => match sg_TLS g with Some t => st_SessionKeys t | None => [] end) <$> srvGrps)))).

(** * The web service *)

Record bindItem := { bt_Address : AddrPort; bt_CertificateGroups : certGroups }.

Definition bindItem_validate (tlsConf : option tlsConfig) (ts : tlsState) (i : option bindItem) : outcome (option error) :=
  match i with
  | None => Ret ErrNoValue
  | Some i =>
      let! tlsErr :=
        match ts with
        | tlsStateValid =>
            match bt_CertificateGroups i with
            | None => Ret None
            | Some _ => let! err := certGroups_validate tlsConf (bt_CertificateGroups i) in Ret (wrap_opt "certificate_groups: %w" err)
            end
        | tlsStateDisabled => Ret (v_EmptySlice "certificate_groups" (length (certGroups_list (bt_CertificateGroups i))))
        | tlsStateInvalid => Ret None
        end in
      Ret (joinErrs [v_NotEmpty "address" (addrPort_zero (bt_Address i)); tlsErr])
  end.

Definition bindData_validate (tlsConf : option tlsConfig) (ts : tlsState) (bd : list (option bindItem)) : outcome (option error) :=
  let! l := outcomes (bindItem_validate tlsConf ts) bd in
  Ret (joinErrs ((fun x => wrap_opt "at index %d: %w" x.2) <$> l)).

Definition linkedIPServer_validate (tlsConf : option tlsConfig) (ts : tlsState) (s : option (list (option bindItem)))
    : outcome (option error) :=
  match s with
  | None => Ret None
  | Some bind =>
      let! err := bindData_validate tlsConf ts bind in
      Ret (joinErrs [v_NotEmptySlice "bind" (length bind); wrap_opt "bind: %w" err])
  end.

Record blockPageServer := { bp_BlockPage : string; bp_Bind : list (option bindItem) }.

Definition blockPageServer_validate (tlsConf : option tlsConfig) (ts : tlsState) (s : option blockPageServer)
    : outcome (option error) :=
  match s with
  | None => Ret None
  | Some s =>
      let! err := bindData_validate tlsConf ts (bp_Bind s) in
      Ret (joinErrs [
        v_NotEmpty "block_page" (is_empty (bp_BlockPage s)); v_NotEmptySlice "bind" (length (bp_Bind s));
        wrap_opt "bind: %w" err])
  end.

Record staticFile := { sfc_Headers : gmap string (list string); sfc_Content : string }.

Definition staticFile_Validate (f : option staticFile) : option error := match f with None => ErrNoValue | Some _ => None end.

(** [path.IsAbs]. *)
Definition IsAbs (p : string) : bool := HasPrefix p "/".

(** The first bad file ends the loop. *)
Fixpoint staticContent_loop (items : list (string * option staticFile)) (errs : list (option error)) : option error :=
  match items with
  | [] => joinErrs errs
  | (p, f) :: items =>
      if negb (IsAbs p) then staticContent_loop items (errs ++ [Some (ErrConst "path %q: not absolute")])
      else match staticFile_Validate f with
      | Some err => Some (ErrWrap "path %q: %w" err)
      | None => staticContent_loop items errs
      end
  end.

Definition staticContent_Validate (sc : gmap string (option staticFile)) : option error := staticContent_loop (sorted_items sc) [].

Record webConfig := {
  wc_LinkedIP : option (list (option bindItem));
  wc_AdultBlocking : option blockPageServer;
  wc_GeneralBlocking : option blockPageServer;
  wc_SafeBrowsing : option blockPageServer;
  wc_RootRedirectURL : option URL;
  wc_StaticContent : gmap string (option staticFile);
  wc_Error404 : string;
  wc_Error500 : string;
  wc_NonDoHBind : list (option bindItem);
  wc_Timeout : Z;
}.

Definition webConfig_validate (tlsConf : option tlsConfig) (ts : tlsState) (c : option webConfig) : outcome (option error) :=
  match c with
  | None => Ret None
  | Some c =>
      let! e1 := linkedIPServer_validate tlsConf ts (wc_LinkedIP c) in
      let! e2 := blockPageServer_validate tlsConf ts (wc_AdultBlocking c) in
      let! e3 := blockPageServer_validate tlsConf ts (wc_GeneralBlocking c) in
      let! e4 := blockPageServer_validate tlsConf ts (wc_SafeBrowsing c) in
      let! e5 := bindData_validate tlsConf ts (wc_NonDoHBind c) in
      Ret (joinErrs [
        v_Positive "timeout" (wc_Timeout c);
        v_Append "static_content" (staticContent_Validate (wc_StaticContent c));
        v_Append "linked_ip" e1; v_Append "adult_blocking" e2; v_Append "general_blocking" e3;
        v_Append "safe_browsing" e4; v_Append "non_doh_bind" e5])
  end.

(** * The configuration *)

Record configuration := {
  cf_RateLimit : option rateLimitConfig;
  cf_Cache : option cacheConfig;
  cf_Upstream : option upstreamConfig;
  cf_DNSDB : option dnsDBConfig;
  cf_DNS : option dnsConfig;
  cf_Backend : option backendConfig;
  cf_QueryLog : option queryLogConfig;
  cf_GeoIP : option geoIPConfig;
  cf_Check : option checkConfig;
  cf_TLS : option tlsConfig;
  cf_Web : option webConfig;
  cf_SafeBrowsing : option safeBrowsingConfig;
  cf_AdultBlocking : option safeBrowsingConfig;
  cf_Filters : option filtersConfig;
  cf_ConnectivityCheck : option connCheckConfig;
  cf_InterfaceListeners : option interfaceListenersConfig;
  cf_Network : option networkConfig;
  cf_Access : option accessConfig;
  cf_AdditionalMetricsInfo : gmap string string;
  cf_FilteringGroups : list (option filteringGroup);
  cf_ServerGroups : list (option serverGroup);
}.

(** The state of TLS is set by its validation, before those that use it. *)
Definition configuration_Validate (c : option configuration) : outcome (option error) :=
  match c with
  | None => Ret ErrNoValue
  | Some c =>
      let '(ts, tlsErr) := tlsConfigValidator_Validate (cf_TLS c) in
      let! webErr := webConfig_validate (cf_TLS c) ts (cf_Web c) in
      let! grpErr := serverGroups_validate (cf_TLS c) ts (cf_ServerGroups c) in
      Ret (joinErrs [
        v_Append "ratelimit" (rateLimitConfig_Validate (cf_RateLimit c));
        v_Append "upstream" (upstreamConfig_Validate (cf_Upstream c));
        v_Append "cache" (cacheConfig_Validate (cf_Cache c));
        v_Append "dnsdb" (dnsDBConfig_Validate (cf_DNSDB c));
        v_Append "dns" (dnsConfig_Validate (cf_DNS c));
        v_Append "backend" (backendConfig_Validate (cf_Backend c));
        v_Append "query_log" (queryLogConfig_Validate (cf_QueryLog c));
        v_Append "geoip" (geoIPConfig_Validate (cf_GeoIP c));
        v_Append "check" (checkConfig_Validate (cf_Check c));
        v_Append "tls" tlsErr;
        v_Append "web" webErr;
        v_Append "safe_browsing" (safeBrowsingConfig_Validate (cf_SafeBrowsing c));
        v_Append "adult_blocking" (safeBrowsingConfig_Validate (cf_AdultBlocking c));
        v_Append "filters" (filtersConfig_Validate (cf_Filters c));
        v_Append "filtering_groups" (filteringGroups_Validate (cf_FilteringGroups c));
        v_Append "server_groups" grpErr;
        v_Append "connectivity_check" (connCheckConfig_Validate (cf_ConnectivityCheck c));
        v_Append "interface_listeners" (interfaceListenersConfig_Validate (cf_InterfaceListeners c));
        v_Append "network" (network_Validate (cf_Network c));
        v_Append "access" (accessConfig_Validate (cf_Access c));
        v_Append "additional_metrics_info" (additionalInfo_Validate (cf_AdditionalMetricsInfo c))])
  end.

(** A valid configuration has no nil groups. *)
Definition isProfilesEnabled (c : configuration) : bool :=
  existsb (fun g => match g with Some g => sg_ProfilesEnabled g | None => false end) (cf_ServerGroups c).
End config.

(** * Facts *)

Lemma joinErrs_None errs : joinErrs errs = None <-> Forall (fun e => e = None) errs.
Proof. apply Join_omap_None. Qed.

Lemma Forall_None_fmap {A} (f : A -> option error) l : Forall (fun e => e = None) (f <$> l) <-> Forall (fun x => f x = None) l.
Proof. apply Forall_fmap. Qed.

Lemma Forall_None_join {A} (f : A -> list (option error)) l :
  Forall (fun e => e = None) (mjoin (f <$> l)) <-> Forall (fun x => Forall (fun e => e = None) (f x)) l.
Proof. induction l as [|x l IH]; simpl; [by split|]. rewrite Forall_app, Forall_cons. naive_solver. Qed.

Lemma v_Slice_None {A} name (f : A -> option error) l : Forall (fun e => e = None) (v_Slice name f l) <-> Forall (fun x => f x = None) l.
Proof. unfold v_Slice. rewrite Forall_None_fmap. apply Forall_iff. intros x. apply wrap_opt_None. Qed.

Lemma unique_errs_None {A} (valid : A -> option error) key seen l :
  Forall (fun e => e = None) (unique_errs valid key seen l) <->
  Forall (fun x => valid x = None /\ key x ∉ seen) l /\ NoDup (key <$> l).
Proof.
  revert seen. induction l as [|x l IH]; intros seen; simpl; [naive_solver constructor|].
  rewrite !Forall_cons, NoDup_cons. destruct (valid x); [rewrite Forall_cons; naive_solver|].
  case_bool_decide as Hin.
  { rewrite Forall_cons. split; [by intros [? _]|]. intros [[[_ ?] _] _]. done. }
  rewrite IH, list_elem_of_fmap, !Forall_forall. split.
  - intros (Hf & Hn). split_and!; [done|done|set_solver| |done]. intros (y & Ey & Hy). destruct (Hf y Hy) as [_ []]. set_solver.
  - intros ((_ & Hf) & Hx & Hn). split; [|done]. intros y Hy. destruct (Hf y Hy). split; [done|]. set_solver.
Qed.

Lemma outcomes_Ret {A C} (f : A -> outcome C) l r : outcomes f l = Ret r -> r.*1 = l /\ Forall (fun x => f x.1 = Ret x.2) r.
Proof.
  revert r. induction l as [|x l IH]; simpl; intros r Hr; [by simplify_eq|].
  destruct (f x) eqn:Ef; [|done]. simpl in Hr. destruct (outcomes f l); [|done]. simplify_eq/=.
  destruct (IH _ eq_refl) as [-> ?]. by split; [|constructor].
Qed.

Lemma elem_of_sorted_items {A} (m : gmap string A) k x : (k, x) ∈ sorted_items m <-> m !! k = Some x.
Proof. unfold sorted_items. by rewrite merge_sort_Permutation, elem_of_map_to_list. Qed.

(** What a validator without errors says. *)
Ltac valid_simp :=
  repeat match goal with
  | H : joinErrs _ = None |- _ => rewrite joinErrs_None in H
  | H : wrap_opt _ _ = None |- _ => rewrite wrap_opt_None in H
  | H : v_Append _ _ = None |- _ => unfold v_Append in H
  | H : Forall _ (_ :: _) |- _ => apply Forall_cons in H; destruct H
  | H : Forall _ (_ ++ _) |- _ => apply Forall_app in H; destruct H
  | H : Forall _ [] |- _ => clear H
  | H : Forall (fun e => e = None) (v_Slice _ _ _) |- _ => rewrite v_Slice_None in H
  | H : Forall (fun e => e = None) (_ <$> _) |- _ => rewrite Forall_None_fmap in H
  | H : Forall (fun e => e = None) (mjoin (_ <$> _)) |- _ => rewrite Forall_None_join in H
  | H : v_Positive _ _ = None |- _ => rewrite positive_ok in H
  | H : v_NotNegative _ _ = None |- _ => rewrite not_negative_ok in H
  | H : v_NoGreaterThan _ _ _ = None |- _ => rewrite no_greater_ok in H
  | H : v_NoLessThan _ _ _ = None |- _ => rewrite no_less_ok in H
  | H : v_InRange _ _ _ _ = None |- _ => rewrite in_range_ok in H
  | H : v_NotEmpty _ _ = None |- _ => rewrite not_empty_ok in H
  | H : v_NotNil _ _ = None |- _ => rewrite not_nil_ok in H
  | H : v_NotEmptySlice _ _ = None |- _ => rewrite not_empty_slice_ok in H
  | H : v_EmptySlice _ _ = None |- _ => rewrite empty_slice_ok in H
  | H : outcome_bind ?c _ = Ret _ |- _ => destruct c eqn:?; simpl in H; [|discriminate H]
  | H : Ret _ = Ret _ |- _ => injection H as H
  end.

Section valid.
Context `{V : Validators} `{!ValidatorsSpec} `{P : ConfigParsers}.

(** The certificate groups are all defined. *)
Definition groups_known (tl : tlsConfig) (l : list (option string)) : Prop :=
  Forall (fun n => exists name, n = Some name /\ is_Some (tl_CertificateGroups tl !! name)) l.

Lemma certGroups_known tl c err : certGroups_validate (Some tl) c = Ret err -> err = None ->
  exists l, c = Some l /\ l <> [] /\ groups_known tl l.
Proof.
  unfold certGroups_validate. destruct c as [[|n l]|]; intros Hc ->; [done| |done]. valid_simp.
  exists (n :: l). split_and!; [done..|]. revert Heqo Hc. generalize (n :: l). clear n l. intros l. revert a.
  induction l as [|[name|] l IH]; intros errs He Hf; simpl in He; [by constructor| |done]. valid_simp. subst errs. valid_simp.
  constructor; [|by eapply IH]. exists name. split; [done|]. destruct (_ !! name); [by eexists|done].
Qed.

(** A valid TLS configuration is disabled, or has proper certificate groups. *)
Definition tls_groups_ok (tl : tlsConfig) : Prop := forall name conf, tl_CertificateGroups tl !! name = Some conf ->
  is_ok (NewCertificateName name) = true /\
  exists cg, conf = Some cg /\ is_empty (tc_CertificatePath cg) = false /\ is_empty (tc_KeyPath cg) = false.

Lemma tls_valid c ts : tlsConfigValidator_Validate c = (ts, None) ->
  exists tl, c = Some tl /\ ts = (if tl_Enabled tl then tlsStateValid else tlsStateDisabled) /\ (tl_Enabled tl = true -> tls_groups_ok tl).
Proof.
  unfold tlsConfigValidator_Validate. destruct c as [tl|]; [|done]. destruct (tl_Enabled tl) eqn:Ee; simpl.
  2:{ intros [= <-]. exists tl. by rewrite Ee. }
  destruct (certificateGroupConfigs_Validate _) eqn:Ec; [done|]. intros [= <-]. exists tl. rewrite Ee. split_and!; [done..|].
  intros _ name conf Hn. unfold certificateGroupConfigs_Validate in Ec. valid_simp.
  rewrite Forall_forall in Ec. specialize (Ec (name, conf)). rewrite elem_of_sorted_items in Ec. specialize (Ec Hn).
  simpl in Ec. valid_simp. split; [by destruct (NewCertificateName name)|].
  destruct conf as [cg|]; valid_simp; [by eauto|done].
Qed.

(** ** Servers *)

Record iface_valid (bi : serverBindInterface) : Prop := {
  iv_id : is_empty (bi_ID bi) = false;
  iv_some : bi_Subnets bi <> [];
  iv_prefixes : Forall (fun p => prefix_valid p = true) (bi_Subnets bi);
  iv_unique : NoDup (bi_Subnets bi);
}.

Record server_valid (s : serverConfig) : Prop := {
  sva_name : is_empty (sv_Name s) = false;
  sva_proto : sv_Protocol s ∈ [srvProtoDNS; srvProtoDNSCrypt; srvProtoHTTPS; srvProtoQUIC; srvProtoTLS];
  sva_bind :
    (sv_BindAddresses s <> [] /\ sv_BindInterfaces s = [] /\ Forall (fun a => IsValid (ap_addr a) = true) (sv_BindAddresses s)) \/
    (sv_BindAddresses s = [] /\ sv_BindInterfaces s <> [] /\ sv_Protocol s = srvProtoDNS /\
     Forall (fun i => exists bi, i = Some bi /\ iface_valid bi) (sv_BindInterfaces s));
  sva_dnscrypt : is_Some (sv_DNSCrypt s) <-> sv_Protocol s = srvProtoDNSCrypt;
}.

Lemma subnets_errs_None seen l : Forall (fun e => e = None) (subnets_errs seen l) ->
  Forall (fun p => prefix_valid p = true /\ p ∉ seen) l /\ NoDup l.
Proof.
  revert seen. induction l as [|p l IH]; intros seen; simpl; [by repeat constructor|].
  destruct (prefix_valid p) eqn:Ep; simpl; [|by intros [? _]%Forall_cons]. case_bool_decide as Hs; [by intros [? _]%Forall_cons|].
  intros [Hf Hn]%IH. rewrite Forall_forall in Hf. rewrite Forall_cons, NoDup_cons, Forall_forall. split_and!; [done|done| | |done].
  - intros q Hq. destruct (Hf q Hq). set_solver.
  - intros Hp. destruct (Hf p Hp) as [_ []]. set_solver.
Qed.

Lemma iface_valid_intro i : serverBindInterface_Validate i = None -> exists bi, i = Some bi /\ iface_valid bi.
Proof.
  destruct i as [bi|]; [|done]. simpl. intros Hv. valid_simp. exists bi. split; [done|].
  match goal with H : Forall _ (subnets_errs _ _) |- _ => apply subnets_errs_None in H as [Hf Hn] end.
  split; [done| |by eapply Forall_impl; [exact Hf|naive_solver]|done]. intros E. by rewrite E in *.
Qed.

Lemma server_valid_intro s : server_Validate s = None -> exists s', s = Some s' /\ server_valid s'.
Proof.
  destruct s as [s|]; [|done]. simpl. intros Hv. valid_simp. exists s. split; [done|]. split; [done| | |].
  - unfold proto_Validate in *. by repeat case_bool_decide.
  - unfold validateBindData, validateBindAddrs in *. destruct (sv_BindAddresses s) as [|a l], (sv_BindInterfaces s) as [|i l'] eqn:Ei; try done.
    + right. destruct (bool_decide (sv_Protocol s = srvProtoDNS)) eqn:Ep; [|done]. bool_simp. cbn [negb] in *. valid_simp.
      split_and!; [done..|]. constructor; [by apply iface_valid_intro|]. eapply Forall_impl; [eassumption|]. intros j. apply iface_valid_intro.
    + left. split_and!; [done..|]. rewrite joinErrs_None, Forall_None_fmap in *. eapply Forall_impl; [eassumption|].
      intros b. cbv beta. by destruct (IsValid _).
  - unfold validateForProtocol in *. rewrite is_Some_alt. destruct (sv_DNSCrypt s) as [dc|]; case_bool_decide; by split.
Qed.

Definition needs_tls (s : option serverConfig) : bool := match s with Some s => proto_needsTLS (sv_Protocol s) | None => false end.

Lemma servers_needTLS_valid seen srvs :
  Forall (fun s => server_Validate s = None /\ group_key sv_Name s ∉ seen) srvs -> NoDup (group_key sv_Name <$> srvs) ->
  servers_needTLS seen srvs = existsb needs_tls srvs.
Proof.
  revert seen. induction srvs as [|s srvs IH]; intros seen Hf Hn; [done|]. apply Forall_cons in Hf as [[Hs Hk] Hf].
  rewrite fmap_cons, NoDup_cons in Hn. destruct Hn as [Hx Hn]. destruct s as [s|]; [|done]. cbn [servers_needTLS existsb needs_tls].
  rewrite Hs. cbn [group_key] in *. rewrite bool_decide_eq_false_2 by done. f_equal. apply IH; [|done].
  rewrite Forall_forall in *. intros y Hy. destruct (Hf y Hy). split; [done|]. rewrite list_elem_of_fmap in Hx. set_solver.
Qed.

Lemma servers_valid srvs n : validateWithTLS srvs = (n, None) ->
  srvs <> [] /\ n = existsb needs_tls srvs /\
  Forall (fun s => exists s', s = Some s' /\ server_valid s') srvs /\ NoDup (group_key sv_Name <$> srvs).
Proof.
  intros Hv. assert (srvs <> []) as Hne by (by intros ->). split; [done|].
  assert (servers_needTLS ∅ srvs = n /\ joinErrs (unique_errs server_Validate (group_key sv_Name) ∅ srvs) = None) as [<- He].
  { destruct srvs; [done|]. by injection Hv. }
  valid_simp. apply unique_errs_None in He as [Hf Hn]. split_and!; [by apply servers_needTLS_valid| |done].
  eapply Forall_impl; [exact Hf|]. intros s [? _]. by apply server_valid_intro.
Qed.

(** ** Server groups *)

Record group_valid (tl : tlsConfig) (g : serverGroup) : Prop := {
  gv_name : is_empty (sg_Name g) = false;
  gv_ddr : exists d, sg_DDR g = Some d /\ ddrConfig_Validate (Some d) = None;
  gv_some : sg_Servers g <> [];
  gv_servers : Forall (fun s => exists s', s = Some s' /\ server_valid s') (sg_Servers g);
  gv_unique : NoDup (group_key sv_Name <$> sg_Servers g);
  gv_tls :
    match sg_TLS g with
    | None => Forall (fun s => needs_tls s = false) (sg_Servers g)
    | Some t => tl_Enabled tl = true /\ groups_known tl (certGroups_list (st_CertificateGroups t)) /\
        validateDeviceIDWildcards (st_DeviceIDWildcards t) = None
    end;
}.

Lemma group_valid_intro tl ts g err : ts = (if tl_Enabled tl then tlsStateValid else tlsStateDisabled) ->
  serverGroup_validate (Some tl) ts g = Ret err -> err = None -> exists g', g = Some g' /\ group_valid tl g'.
Proof.
  intros -> Hv ->. destruct g as [g|]; [|done]. unfold serverGroup_validate in Hv. destruct (validateWithTLS _) as [n srvErr] eqn:Es.
  valid_simp. subst. apply servers_valid in Es as (Hne & -> & Hf & Hn). exists g. split; [done|].
  split; [done| |done|done|done|].
  { destruct (sg_DDR g) as [d|] eqn:Ed; [by eauto|done]. }
  unfold validateIfNecessary in *. destruct (sg_TLS g) as [t|].
  - destruct (existsb _ _); [|done]. cbn [negb] in *. destruct (tl_Enabled tl); [|done]. valid_simp. subst.
    split_and!; [done| |done]. destruct (certGroups_known _ _ _ Heqo0 eq_refl) as (l & -> & _ & Hk). done.
  - destruct (existsb needs_tls (sg_Servers g)) eqn:Ee; [done|]. apply Forall_forall. intros s Hs. destruct (needs_tls s) eqn:En; [|done].
    rewrite <- Ee. symmetry. apply existsb_exists. exists s. split; [by apply list_elem_of_In|done].
Qed.

Lemma groups_valid tl ts l err : ts = (if tl_Enabled tl then tlsStateValid else tlsStateDisabled) ->
  serverGroups_validate (Some tl) ts l = Ret err -> err = None ->
  l <> [] /\ Forall (fun g => exists g', g = Some g' /\ group_valid tl g') l /\ NoDup (group_key sg_Name <$> l).
Proof.
  intros Ets Hv ->. assert (l <> []) as Hne by (by intros ->). split; [done|].
  assert (exists r, outcomes (serverGroup_validate (Some tl) ts) l = Ret r /\
    joinErrs (unique_errs snd (fun x => group_key sg_Name x.1) ∅ r) = None) as (r & Hr & He).
  { destruct l; [done|]. unfold serverGroups_validate in Hv. valid_simp. eexists. split; [done|]. by apply joinErrs_None. }
  apply outcomes_Ret in Hr as [<- Hr]. valid_simp. apply unique_errs_None in He as [Hf Hn].
  split; [|by rewrite <- list_fmap_compose].
  rewrite Forall_fmap. rewrite Forall_forall in *. intros x Hx. destruct (Hf x Hx) as [E _]. eapply group_valid_intro; [done|by apply Hr|done].
Qed.

(** ** The web service *)

Definition items_known (tl : tlsConfig) (bd : list (option bindItem)) : Prop :=
  Forall (fun i => exists i', i = Some i' /\ groups_known tl (certGroups_list (bt_CertificateGroups i'))) bd.

Lemma items_known_intro tl ts bd err : ts = (if tl_Enabled tl then tlsStateValid else tlsStateDisabled) ->
  bindData_validate (Some tl) ts bd = Ret err -> err = None -> items_known tl bd.
Proof.
  intros Ets Hv ->. unfold bindData_validate in Hv. valid_simp. apply outcomes_Ret in Heqo as [<- Hr]. unfold items_known.
  rewrite Forall_fmap. rewrite Forall_forall in *. intros [i e] Hx. specialize (Hr _ Hx). specialize (Hv _ Hx). simpl in *. valid_simp. subst e.
  destruct i as [i|]; [|done]. exists i. split; [done|]. simpl in Hr. valid_simp. subst. destruct (tl_Enabled tl).
  - destruct (bt_CertificateGroups i) as [l|] eqn:El; [|by constructor]. valid_simp. subst.
    by destruct (certGroups_known _ _ _ Heqo0 eq_refl) as (l' & [= ->] & _ & ?).
  - valid_simp. subst. valid_simp. destruct (certGroups_list _); [by constructor|done].
Qed.

Record web_valid (tl : tlsConfig) (c : webConfig) : Prop := {
  wv_linked bd : wc_LinkedIP c = Some bd -> items_known tl bd;
  wv_adult s : wc_AdultBlocking c = Some s -> items_known tl (bp_Bind s);
  wv_general s : wc_GeneralBlocking c = Some s -> items_known tl (bp_Bind s);
  wv_safe s : wc_SafeBrowsing c = Some s -> items_known tl (bp_Bind s);
  wv_bind : items_known tl (wc_NonDoHBind c);
  wv_static p f : wc_StaticContent c !! p = Some f -> is_Some f;
}.

Lemma staticContent_loop_None items errs : staticContent_loop items errs = None ->
  Forall (fun e => e = None) errs /\ Forall (fun x => IsAbs x.1 = true /\ is_Some x.2) items.
Proof.
  revert errs. induction items as [|[p f] items IH]; intros errs Hv; simpl in Hv; [by valid_simp|].
  destruct (IsAbs p) eqn:Ep; simpl in Hv.
  - destruct f as [f|]; [|done]. destruct (IH _ Hv). split; [done|]. constructor; [by eauto|done].
  - destruct (IH _ Hv) as [Hf _]. apply Forall_app in Hf as [_ [? _]%Forall_cons]. done.
Qed.

Lemma blockPage_known tl ts s err : ts = (if tl_Enabled tl then tlsStateValid else tlsStateDisabled) ->
  blockPageServer_validate (Some tl) ts s = Ret err -> err = None -> forall s', s = Some s' -> items_known tl (bp_Bind s').
Proof. intros Ets Hv -> s' ->. simpl in Hv. valid_simp. subst a. by eapply items_known_intro. Qed.

Lemma web_valid_intro tl ts c err : ts = (if tl_Enabled tl then tlsStateValid else tlsStateDisabled) ->
  webConfig_validate (Some tl) ts (Some c) = Ret err -> err = None -> web_valid tl c.
Proof.
  intros Ets Hv ->. simpl in Hv. valid_simp. subst. split.
  - intros bd E. rewrite E in *. simpl in *. valid_simp. subst. by eapply items_known_intro.
  - by eapply blockPage_known.
  - by eapply blockPage_known.
  - by eapply blockPage_known.
  - by eapply items_known_intro.
  - intros p f Hp. unfold staticContent_Validate in *.
    match goal with H : staticContent_loop _ _ = None |- _ => apply staticContent_loop_None in H as [_ Hf] end.
    rewrite Forall_forall in Hf. by apply (Hf (p, f)), elem_of_sorted_items.
Qed.

End valid.
