(* ===== verification/ConfigBuild.v ===== *)
(** What the configuration of internal/cmd becomes when the server starts: the
    conversions of ratelimit.go, cache.go, upstream.go, network.go, ddr.go,
    dnscrypt.go, tls.go, filteringgroup.go, ifacelistener.go, server.go,
    servergroup.go, websvc.go and conncheck.go, and the parts of builder.go that
    connect them to the components they configure.

    The conversions of servers and web servers change the TLS manager and the
    bindtodevice manager, so they pass on both.  A nil pointer that the code
    dereferences is a panic.  A loop over a map takes the list of its items, in
    the order of the loop. *)

From S2P Require Import Prelude GoStd Slices NetIP Schedule FilterConfig DnsMsg Filter RateLimit ConnLimiter Agd InitialMW Http WebSvc Forward Refreshable TLSManager BindToDevice Config.

Open Scope Z_scope.

Definition deref {A} (o : option A) : outcome A :=
  match o with Some a => Ret a | None => Panic "nil pointer dereference" end.

Fixpoint mapO {A B} (f : A -> outcome B) (l : list A) : outcome (list B) :=
  match l with [] => Ret [] | x :: l => let! y := f x in let! ys := mapO f l in Ret (y :: ys) end.

(** * Rate and connection limits *)

Definition rateLimit_toInternal (c : rateLimitConfig) (al : Addr -> result error bool) : outcome BackoffConfig :=
  let! v4 := deref (rl_IPv4 c) in
  let! v6 := deref (rl_IPv6 c) in
  Ret {| c_Allowlist := al; c_Period := rl_BackoffPeriod c; c_Duration := rl_BackoffDuration c; c_Count := rl_BackoffCount c;
         c_ResponseSizeEstimate := rl_ResponseSizeEstimate c;
         c_IPv4Count := rlo_Count v4; c_IPv4Interval := rlo_Interval v4; c_IPv4SubnetKeyLen := rlo_SubnetKeyLen v4;
         c_IPv6Count := rlo_Count v6; c_IPv6Interval := rlo_Interval v6; c_IPv6SubnetKeyLen := rlo_SubnetKeyLen v6;
         c_RefuseANY := rl_RefuseANY c |}.

Definition connLimit_toInternal (c : connLimitConfig) : ConnLimiter.Config := {| Stop := cl_Stop c; Resume := cl_Resume c |}.

(** No limiter if it is not enabled. *)
Definition initConnLimit (c : connLimitConfig) : option ConnLimiter.Config :=
  if negb (cl_Enabled c) then None else Some (connLimit_toInternal c).

(** The semaphore has as many places as requests may be active. *)
Definition initActiveReqSema (c : activeReqLimitConfig) : option Z := if arl_Enabled c then Some (arl_Max c) else None.

(** * The cache *)

Inductive CacheType := CacheTypeNone | CacheTypeSimple | CacheTypeECS.

Record CacheConfig := {
  cch_MinTTL : Z;
  cch_ECSCount : Z;
  cch_NoECSCount : Z;
  cch_Type : CacheType;
  cch_OverrideCacheTTL : bool;
}.

Definition cache_toInternal (c : cacheConfig) : outcome CacheConfig :=
  let typ := if cc_Size c =? 0 then CacheTypeNone
             else if bool_decide (cc_Type c = cacheTypeSimple) then CacheTypeSimple else CacheTypeECS in
  let! o := deref (cc_TTLOverride c) in
  Ret {| cch_MinTTL := to_Min o; cch_ECSCount := cc_ECSSize c; cch_NoECSCount := cc_Size c; cch_Type := typ;
         cch_OverrideCacheTTL := to_Enabled o |}.

(** * Upstreams *)

(** [errors.Must]. *)
Definition Must {A} (r : result error A) : outcome A := match r with Ok a => Ret a | Err _ => Panic "must" end.

Definition healthcheck_toInternal (c : upstreamHealthcheckConfig) : outcome HealthcheckConfig :=
  if negb (uh_Enabled c) then
    Ret {| hc_DomainTemplate := EmptyString; hc_NetworkOverride := EmptyString; hc_BackoffDuration := 0; hc_InitDuration := 0;
           hc_Enabled := false |}
  else
    let! n := Must (NewNetwork (uh_NetworkOverride c)) in
    Ret {| hc_DomainTemplate := uh_DomainTemplate c; hc_NetworkOverride := n; hc_BackoffDuration := uh_BackoffDuration c;
           hc_InitDuration := uh_Timeout c; hc_Enabled := true |}.

Record UpstreamPlainConfig := { up_Network : string; up_Address : AddrPort; up_Timeout : Z }.

Definition zeroAddrPort : AddrPort := {| ap_addr := AddrZero; ap_port := 0 |}.

Section conversions.
Context `{Validators} `{ConfigParsers} `{MiekgDNS}.

(** The network that [splitUpstreamURL] has got so far when it fails. *)
Definition upstream_network (raw : string) : string :=
  if Contains raw "://" then
    match url_Parse raw with
    | Ok u => match NewNetwork (u_Scheme u) with Ok n => n | Err _ => EmptyString end
    | Err _ => NetworkAny
    end
  else NetworkAny.

(** An error of the address is not looked at. *)
Definition toUpstreamConfig (c : option upstreamServerConfig) : outcome UpstreamPlainConfig :=
  let! c := deref c in
  let na := match splitUpstreamURL (us_Address c) with Ok na => na | Err _ => (upstream_network (us_Address c), zeroAddrPort) end in
  Ret {| up_Network := na.1; up_Address := na.2; up_Timeout := us_Timeout c |}.

Definition toUpstreamConfigs : list (option upstreamServerConfig) -> outcome (list UpstreamPlainConfig) := mapO toUpstreamConfig.

(** The main upstreams, the fallbacks and the healthcheck. *)
Definition upstream_toInternal (c : upstreamConfig)
    : outcome (list UpstreamPlainConfig * list UpstreamPlainConfig * HealthcheckConfig) :=
  let! fb := deref (uc_Fallback c) in
  let! hc := deref (uc_Healthcheck c) in
  let! hcConf := healthcheck_toInternal hc in
  let! ups := toUpstreamConfigs (uc_Servers c) in
  let! fbs := toUpstreamConfigs (uf_Servers fb) in
  Ret (ups, fbs, hcConf).

(** * Sizes of the buffers of sockets: [int] of an unsigned number. *)

Definition network_toInternal (n : networkConfig) : Z * Z := (i64 (nw_SndBufSize n), i64 (nw_RcvBufSize n)).

(** * DDR *)

Definition ALPN (p : Z) : list string :=
  if p =? ProtoDoT then ["dot"%string]
  else if p =? ProtoDoQ then ["doq"%string]
  else if p =? ProtoDoH then ["h3"; "h2"; "http/1.1"]%string
  else [].

Definition NewDDRTemplate (c : Constructor) (proto : Z) (resolverName dohPath : string) (ipv4Hints ipv6Hints : list Addr)
    (port prio : Z) : outcome SVCBTemplate :=
  if negb (IsStdEncrypted proto) then Panic "bad proto %s for ddr"
  else Ret {|
    sv_Hdr := newHdrWithClass c EmptyString TypeSVCB ClassINET;
    sv_Priority := prio; sv_Target := Fqdn resolverName;
    sv_Value := [SVCBAlpn (ALPN proto); SVCBPort port] ++
      (if (proto =? ProtoDoH) && negb (is_empty dohPath) then [SVCBDoHPath dohPath] else []) ++
      match ipv4Hints with [] => [] | _ => [SVCBIPv4Hint ipv4Hints] end ++
      match ipv6Hints with [] => [] | _ => [SVCBIPv6Hint ipv6Hints] end |}.

Fixpoint ddr_ports (msgs : Constructor) (r : ddrRecord) (target : string) (prio : Z) (ports : list (Z * Z))
    : outcome (list SVCBTemplate) :=
  match ports with
  | [] => Ret []
  | (proto, port) :: ports =>
      if port =? 0 then ddr_ports msgs r target prio ports
      else
        let prio := (prio + 1) mod 2 ^ 16 in
        let! rec := NewDDRTemplate msgs proto target (dr_DoHPath r) (dr_IPv4Hints r) (dr_IPv6Hints r) port prio in
        let! recs := ddr_ports msgs r target prio ports in
        Ret (rec :: recs)
  end.

Definition appendDDRSVCBTmpls (recs : list SVCBTemplate) (msgs : Constructor) (r : ddrRecord) (target : string)
    : outcome (list SVCBTemplate) :=
  let! new := ddr_ports msgs r target 0
    [(ProtoDoH, dr_HTTPSPort r); (ProtoDoT, dr_TLSPort r); (ProtoDoQ, dr_QUICPort r)] in
  Ret (recs ++ new).

Fixpoint ddrRecs_loop (msgs : Constructor) (targets : gset string) (tmpls : list SVCBTemplate)
    (records : list (string * option ddrRecord)) : outcome (gset string * list SVCBTemplate) :=
  match records with
  | [] => Ret (targets, tmpls)
  | (target, r) :: records =>
      let target := TrimPrefix target "*." in
      let! r := deref r in
      let! tmpls := appendDDRSVCBTmpls tmpls msgs r target in
      ddrRecs_loop msgs ({[target]} ∪ targets) tmpls records
  end.

Definition prio_le (a b : SVCBTemplate) : Prop := sv_Priority a <= sv_Priority b.
#[global] Instance prio_le_dec a b : Decision (prio_le a b).
Proof. unfold prio_le. apply _. Defined.

(** The sort of the library of the model is stable. *)
Definition ddrRecsToSVCBTmpls (msgs : Constructor) (records : list (string * option ddrRecord))
    : outcome (gset string * list SVCBTemplate) :=
  let! x := ddrRecs_loop msgs ∅ [] records in
  Ret (x.1, merge_sort prio_le x.2).

(** The records of devices and the public ones, in the order of the loops. *)
Definition ddr_toInternal (msgs : Constructor) (c : ddrConfig) (devRecs pubRecs : list (string * option ddrRecord)) : outcome DDRConfig :=
  let! d := ddrRecsToSVCBTmpls msgs devRecs in
  let! p := ddrRecsToSVCBTmpls msgs pubRecs in
  Ret {| ddr_Enabled := dc_Enabled c; ddr_DeviceTargets := d.1; ddr_DeviceRecordTemplates := d.2;
         ddr_PublicTargets := p.1; ddr_PublicRecordTemplates := p.2 |}.

(** * Filtering groups *)

Definition ruleLists_toInternal (c : fltGrpRuleLists) (ids : list string) : ConfigRuleList := {| cr_IDs := ids; cr_Enabled := fgr_Enabled c |}.

Definition parental_toInternal (c : fltGrpParental) : ConfigParental := {|
  cp_Categories := {| cg_IDs := []; cg_Enabled := false |}; cp_PauseSchedule := None; cp_BlockedServices := [];
  cp_Enabled := fgp_Enabled c; cp_AdultBlockingEnabled := fgp_BlockAdult c;
  cp_SafeSearchGeneralEnabled := fgp_GeneralSafeSearch c; cp_SafeSearchYouTubeEnabled := fgp_YoutubeSafeSearch c |}.

Definition groupSafeBrowsing_toInternal (c : fltGrpSafeBrowsing) : ConfigSafeBrowsing := {|
  csb_Typosquatting := Some {| ct_Enabled := false |}; csb_Enabled := fgs_Enabled c;
  csb_DangerousDomainsEnabled := fgs_BlockDangerousDomains c;
  csb_NewlyRegisteredDomainsEnabled := fgs_BlockNewlyRegisteredDomains c |}.

(** [hasListID] is the method of the interface of the rule-list storage. *)
Fixpoint filteringGroups_loop (hasListID : string -> bool) (fltGrps : gmap string FilteringGroup) (groups : list (option filteringGroup))
    : outcome (result error (gmap string FilteringGroup)) :=
  match groups with
  | [] => Ret (Ok fltGrps)
  | g :: groups =>
      let! g := deref g in
      let! rls := deref (fg_RuleLists g) in
      if negb (forallb hasListID (fgr_IDs rls)) then Ret (Err (ErrConst "filter list id %q is not in the index"))
      else
        let! p := deref (fg_Parental g) in
        let! sb := deref (fg_SafeBrowsing g) in
        filteringGroups_loop hasListID
          (<[fgc_ID g := {|
              fg_FilterConfig := {| cfg_Parental := parental_toInternal p; cfg_RuleList := ruleLists_toInternal rls (fgr_IDs rls);
                                    cfg_SafeBrowsing := groupSafeBrowsing_toInternal sb |};
              fg_ID := fgc_ID g; fg_BlockChromePrefetch := fgc_BlockChromePrefetch g;
              fg_BlockFirefoxCanary := fgc_BlockFirefoxCanary g; fg_BlockPrivateRelay := fgc_BlockPrivateRelay g |}]> fltGrps)
          groups
  end.

Definition filteringGroups_toInternal (hasListID : string -> bool) (groups : list (option filteringGroup))
    : outcome (result error (gmap string FilteringGroup)) := filteringGroups_loop hasListID ∅ groups.

End conversions.

(** * The managers *)

(** [T] is the type of certificates. *)
Record managers (T : Type) := { b_btd : option Manager; b_tls : certIndex T }.
Arguments Build_managers {T} _ _.
Arguments b_btd {T} _.
Arguments b_tls {T} _.

Definition B (T A : Type) : Type := managers T -> outcome (result error A * managers T).

Definition bret {T A} (a : A) : B T A := fun st => Ret (Ok a, st).
Definition bfail {T A} (err : error) : B T A := fun st => Ret (Err err, st).
Definition blift {T A} (o : outcome A) : B T A := fun st => let! a := o in Ret (Ok a, st).
Definition bbind {T A C} (m : B T A) (k : A -> B T C) : B T C := fun st =>
  let! r := m st in
  match r.1 with Ok a => k a r.2 | Err err => Ret (Err err, r.2) end.
Definition bannotate {T A} (format : string) (m : B T A) : B T A := fun st => let! r := m st in Ret (annotate format r.1, r.2).

Notation "'let&' x ':=' c 'in' k" := (bbind c (fun x => k))
  (at level 10, x name, c at level 100, k at level 200) : go_scope.

(** A loop that ends with the first error. *)
Fixpoint mapB {T A C} (f : A -> B T C) (l : list A) : B T (list C) :=
  match l with [] => bret [] | x :: l => let& y := f x in let& ys := mapB f l in bret (y :: ys) end.

(** The parameters: the interfaces of the system, the certificates, the files of
    DNSCrypt with the error of closing them, its certificates, and other files. *)
Class Startup (T D : Type) := {
  InterfaceByName : string -> result error (result error (list Prefix));
  LoadX509KeyPair : string -> string -> result error T;
  readDNSCryptConfig : string -> result error (result error ResolverConfig * option error);
  CreateCert : ResolverConfig -> result error D;
  ReadFile : string -> result error string;
}.

Section startup.
Context {T D : Type} `{Startup T D} `{Validators} `{ConfigParsers} `{MiekgDNS} `{SvcbParsers}.

(** ** tls.go *)

Fixpoint store_loop (s : certIndex T) (groups : list (string * option tlsCertificateConfig)) (errs : list (option error))
    : outcome (option error * certIndex T) :=
  match groups with
  | [] => Ret (joinErrs errs, s)
  | (name, conf) :: groups =>
      let! conf := deref conf in
      let '(err, s) := manager_Add LoadX509KeyPair s
        {| ap_Name := name; ap_CertPath := tc_CertificatePath conf; ap_KeyPath := tc_KeyPath conf; ap_IsCustom := false |} in
      store_loop s groups (errs ++ [wrap_opt "adding certificate %q: %w" err])
  end.

(** [groups] are the items of the map. *)
Definition tlsConfig_store (s : certIndex T) (groups : list (string * option tlsCertificateConfig))
    : outcome (option error * certIndex T) := store_loop s groups [].

Definition with_tls (st : managers T) (s : certIndex T) : managers T := {| b_btd := b_btd st; b_tls := s |}.

(** [Bind] has no errors. *)
Definition bind_name (p : Prefix) (st : managers T) (name : string) : managers T := with_tls st (manager_Bind (b_tls st) name p).

Definition certGroups_bind (c : list (option string)) (p : Prefix) : B T unit := fun st =>
  let! names := mapO deref c in Ret (Ok tt, foldl (bind_name p) st names).

Definition groupTLS_toInternal (c : option serverGroupTLSConfig) : outcome (list string * list string) :=
  match c with
  | None => Ret ([], [])
  | Some c =>
      let! certNames := mapO deref (certGroups_list (st_CertificateGroups c)) in
      Ret (certNames, (fun w => TrimPrefix w "*.") <$> st_DeviceIDWildcards c)
  end.

(** ** dnscrypt.go *)

Record DNSCryptConfig := { dnc_Cert : D; dnc_ProviderName : string }.

Definition dnscrypt_cert (rc : ResolverConfig) : result error DNSCryptConfig :=
  let? cert := annotate "creating dnscrypt cert: %w" (CreateCert rc) in
  Ok {| dnc_Cert := cert; dnc_ProviderName := rc_ProviderName rc |}.

Definition dnsCrypt_toInternal (c : option dnsCryptConfig) : result error (option DNSCryptConfig) :=
  match c with
  | None => Ok None
  | Some c =>
      match dcc_Inline c with
      | Some rc => let? conf := dnscrypt_cert rc in Ok (Some conf)
      | None =>
          let? f := annotate "opening dnscrypt config: %w" (readDNSCryptConfig (dcc_ConfigPath c)) in
          let r :=
            let? rc := annotate "decoding dnscrypt config: %w" f.1 in
            match validateDNSCrypt rc with
            | Some err => Err (ErrWrap "validating dnscrypt config: %w" err)
            | None => let? conf := dnscrypt_cert rc in Ok (Some conf)
            end in
          match WithDeferred_opt (match r with Err err => Some err | Ok _ => None end) f.2 with
          | Some err => Err err
          | None => r
          end
      end
  end.

(** ** ifacelistener.go *)

(** No manager without a configuration. *)
Fixpoint addListeners (m : Manager) (l : list (string * option interfaceListenerConfig)) : outcome (result error Manager) :=
  match l with
  | [] => Ret (Ok m)
  | (id, l0) :: l =>
      let! l0 := deref l0 in
      match m_Add InterfaceByName m id (il_Interface l0) (il_Port l0) with
      | (Some err, _) => Ret (Err (ErrWrap "adding listener %q: %w" err))
      | (None, m) => addListeners m l
      end
  end.

(** [make] panics on a channel of a negative size. *)
Definition interfaceListeners_toInternal (c : option interfaceListenersConfig) : outcome (result error (option Manager)) :=
  match c with
  | None => Ret (Ok None)
  | Some c =>
      let! r := addListeners (NewManager (Z.to_nat (ilc_ChannelBufferSize c))) (sorted_items (ilc_List c)) in
      Ret (let? m := r in Ok (Some m))
  end.

(** ** server.go *)

Definition proto_toInternal (p : string) : Z :=
  if bool_decide (p = srvProtoDNS) then ProtoDNS
  else if bool_decide (p = srvProtoDNSCrypt) then ProtoDNSCrypt
  else if bool_decide (p = srvProtoHTTPS) then ProtoDoH
  else if bool_decide (p = srvProtoQUIC) then ProtoDoQ
  else if bool_decide (p = srvProtoTLS) then ProtoDoT
  else ProtoInvalid.

(** One listener for a subnet of an interface; the manager is not nil. *)
Definition bind_subnet (id : string) (subnet : Prefix) : B T ServerBindData := fun st =>
  let! m := deref (b_btd st) in
  let '(r, m') := m_ListenConfig InterfaceByName m id subnet in
  Ret (let? _ := annotate "bind_interface at index %d: subnet at index %d: %w" r in
       Ok {| PrefixAddr := Some {| pna_Prefix := subnet; pna_Port := default 0 (il_port <$> m_ifaceListeners m !! id) |};
             bd_AddrPort := zeroAddrPort |},
       {| b_btd := Some m'; b_tls := b_tls st |}).

Definition bind_iface (iface : option serverBindInterface) : B T (list ServerBindData) :=
  let& iface := blift (deref iface) in mapB (bind_subnet (bi_ID iface)) (bi_Subnets iface).

Definition server_bindData (s : serverConfig) : B T (list ServerBindData) := fun st =>
  match sv_BindAddresses s with
  | _ :: _ => Ret (Ok ((fun addr => {| PrefixAddr := None; bd_AddrPort := addr |}) <$> sv_BindAddresses s), st)
  | [] =>
      match b_btd st with
      | None => Ret (Err (ErrConst "bind_interfaces are only supported when interface_listeners are set"), st)
      | Some _ => (let& l := mapB bind_iface (sv_BindInterfaces s) in bret (mjoin l)) st
      end
  end.

(** The application protocols and the device domains of a configuration of TLS. *)
Record tlsConf := { tlc_NextProtos : list string; tlc_deviceDomains : list string }.
Record TLSConfig := { tls_Default : tlsConf; tls_H3 : option tlsConf }.

Definition NextProtoDoH : list string := ["h2"; "http/1.1"]%string.
Definition NextProtoDoH3 : list string := ["h3"; "h2"; "http/1.1"]%string.
Definition NextProtoDoQ : list string := ["doq"; "doq-i00"; "doq-i02"; "doq-i03"; "dq"]%string.

Definition newTLSConfig (proto : Z) (deviceDomains : list string) : TLSConfig :=
  let clone protos := {| tlc_NextProtos := protos; tlc_deviceDomains := deviceDomains |} in
  if proto =? ProtoDoH then {| tls_Default := clone NextProtoDoH; tls_H3 := Some (clone NextProtoDoH3) |}
  else if proto =? ProtoDoQ then {| tls_Default := clone NextProtoDoQ; tls_H3 := None |}
  else {| tls_Default := clone []; tls_H3 := None |}.

(** The server of agd with its protocol-specific configuration. *)
Record dnsServer := {
  ds_Server : Server;
  ds_ReadTimeout : Z;
  ds_WriteTimeout : Z;
  ds_TCPConf : option (Z * Z * bool);
  ds_UDPMaxRespSize : option Z;
  ds_QUICConf : option (Z * bool);
  ds_TLS : option TLSConfig;
  ds_DNSCrypt : option DNSCryptConfig;
}.

Definition bindTLSNames (s : Server) (names : list string) : B T unit := fun st =>
  Ret (Ok tt, foldl (fun st p => foldl (bind_name p) st names) st (BindDataPrefixes s)).

(** The idle timeout, the pipeline count and whether it is limited. *)
Definition tcp_conf (dnsConf : dnsConfig) (rlConf : rateLimitConfig) : outcome (Z * Z * bool) :=
  let! tcp := deref (rl_TCP rlConf) in Ret (dn_TCPIdleTimeout dnsConf, rt_MaxPipelineCount tcp, rt_Enabled tcp).

Definition setProtoConfig (dnsSrv : Server) (s : serverConfig) (dnsConf : dnsConfig) (rlConf : rateLimitConfig)
    (certNames deviceDomains : list string) : B T dnsServer :=
  let mk tcp udp quic tls dc := {|
    ds_Server := dnsSrv; ds_ReadTimeout := dn_ReadTimeout dnsConf; ds_WriteTimeout := dn_WriteTimeout dnsConf;
    ds_TCPConf := tcp; ds_UDPMaxRespSize := udp; ds_QUICConf := quic; ds_TLS := tls; ds_DNSCrypt := dc |} in
  if s_Protocol dnsSrv =? ProtoDNS then
    let& tcp := blift (tcp_conf dnsConf rlConf) in
    bret (mk (Some tcp) (Some (dn_MaxUDPResponseSize dnsConf mod 2 ^ 16)) None None None)
  else if s_Protocol dnsSrv =? ProtoDNSCrypt then
    match dnsCrypt_toInternal (sv_DNSCrypt s) with
    | Err err => bfail (ErrWrap "dnscrypt: %w" err)
    | Ok dc => bret (mk None None None None dc)
    end
  else
    let& tcp := blift (tcp_conf dnsConf rlConf) in
    let& quic := blift (deref (rl_QUIC rlConf)) in
    let& _ := bindTLSNames dnsSrv certNames in
    bret (mk (Some tcp) None (Some (rq_MaxStreamsPerPeer quic, rq_Enabled quic))
      (Some (newTLSConfig (s_Protocol dnsSrv) deviceDomains)) None).

Definition server_toInternal (dnsConf : dnsConfig) (rlConf : rateLimitConfig) (certNames deviceDomains : list string)
    (s : option serverConfig) : B T dnsServer :=
  let& s := blift (deref s) in
  let& bd := server_bindData s in
  let& srv := blift (SetBindData {| s_Name := sv_Name s; Agd.bindData := []; s_Protocol := proto_toInternal (sv_Protocol s);
                                    LinkedIPEnabled := sv_LinkedIPEnabled s |} bd) in
  bannotate "setting protocol-specific configuration: %w" (setProtoConfig srv s dnsConf rlConf certNames deviceDomains).

Definition servers_toInternal (dnsConf : dnsConfig) (rlConf : rateLimitConfig) (certNames deviceDomains : list string)
    (srvs : list (option serverConfig)) : B T (list dnsServer) :=
  mapB (fun s => bannotate "server %q: at index %d: %w" (server_toInternal dnsConf rlConf certNames deviceDomains s)) srvs.

(** ** servergroup.go *)

Record ServerGroupConfig := {
  sgc_DDR : DDRConfig;
  sgc_DeviceDomains : list string;
  sgc_Name : string;
  sgc_FilteringGroup : string;
  sgc_Servers : list dnsServer;
  sgc_ProfilesEnabled : bool;
}.

(** The loops over the maps of records take the order [ord]. *)
Definition serverGroup_toInternal (msgs : Constructor) (ord : gmap string (option ddrRecord) -> list (string * option ddrRecord))
    (fltGrps : gmap string FilteringGroup) (rlConf : rateLimitConfig) (dnsConf : dnsConfig) (g : option serverGroup)
    : B T ServerGroupConfig :=
  let& g := blift (deref g) in
  match fltGrps !! sg_FilteringGroup g with
  | None => bfail (ErrConst "server group %q: unknown filtering group %q")
  | Some _ =>
      let& tls := blift (groupTLS_toInternal (sg_TLS g)) in
      let& ddr := blift (let! c := deref (sg_DDR g) in ddr_toInternal msgs c (ord (dc_DeviceRecords c)) (ord (dc_PublicRecords c))) in
      let& srvs := bannotate "server group %q: %w" (servers_toInternal dnsConf rlConf tls.1 tls.2 (sg_Servers g)) in
      bret {| sgc_DDR := ddr; sgc_DeviceDomains := tls.2; sgc_Name := sg_Name g; sgc_FilteringGroup := sg_FilteringGroup g;
              sgc_Servers := srvs; sgc_ProfilesEnabled := sg_ProfilesEnabled g |}
  end.

Definition serverGroups_toInternal (msgs : Constructor) (ord : gmap string (option ddrRecord) -> list (string * option ddrRecord))
    (fltGrps : gmap string FilteringGroup) (rlConf : rateLimitConfig) (dnsConf : dnsConfig) (l : list (option serverGroup))
    : B T (list ServerGroupConfig) :=
  mapB (serverGroup_toInternal msgs ord fltGrps rlConf dnsConf) l.

(** ** builder.go and conncheck.go *)

Definition customDomainPrefixes (grps : list ServerGroupConfig) : list Prefix :=
  mjoin ((fun g => mjoin ((fun s => BindDataPrefixes (ds_Server s)) <$> sgc_Servers g)) <$>
    filter (fun g => sgc_ProfilesEnabled g) grps).

(** The set to which the dedicated addresses must belong. *)
Definition serverBindSet (grps : list ServerGroupConfig) (ip : Addr) : bool :=
  let prefixes := mjoin ((fun g => mjoin ((fun s => BindDataPrefixes (ds_Server s)) <$> sgc_Servers g)) <$> grps) in
  if forallb IsSingleIP prefixes then IsValid ip else existsb (fun p => prefix_contains p ip) prefixes.

Definition requireIPv6ConnCheck (grps : list ServerGroupConfig) : bool :=
  existsb (fun g => existsb (fun s => HasIPv6 (ds_Server s)) (sgc_Servers g)) grps.

(** [dial] connects to an address of a network and returns the error of the closing. *)
Definition connectivityCheck (dial : string -> AddrPort -> result error (option error)) (grps : list ServerGroupConfig)
    (c : connCheckConfig) : option error :=
  match dial "tcp4"%string (cn_ProbeIPv4 c) with
  | Err err => Some (ErrWrap "connectivity check: ipv4: %w" err)
  | Ok close4 =>
      let err :=
        if negb (requireIPv6ConnCheck grps) then None
        else if addrPort_zero (cn_ProbeIPv6 c) then Some (ErrConst "connectivity check: no ipv6 probe address in config")
        else match dial "tcp6"%string (cn_ProbeIPv6 c) with
        | Err err => Some (ErrWrap "connectivity check: ipv6: %w" err)
        | Ok close6 => WithDeferred_opt None (wrap_opt "connectivity check: closing ipv6: %w" close6)
        end in
      WithDeferred_opt err (wrap_opt "connectivity check: closing ipv4: %w" close4)
  end.

(** ** websvc.go *)

Record webBindData := { wbd_TLS : bool; wbd_Address : AddrPort }.

Definition bindItem_toInternal (i : option bindItem) : B T webBindData :=
  let& i := blift (deref i) in
  match certGroups_list (bt_CertificateGroups i) with
  | [] => bret {| wbd_TLS := false; wbd_Address := bt_Address i |}
  | groups =>
      let addr := ap_addr (bt_Address i) in
      match addr_prefix addr (BitLen addr) with
      | None => bfail (ErrWrap "prefix: %w" (ErrConst "prefix length %d too large for IPv4/IPv6"))
      | Some pref =>
          let& _ := bannotate "certificates: %w" (certGroups_bind groups pref) in
          bret {| wbd_TLS := true; wbd_Address := bt_Address i |}
      end
  end.

Fixpoint bindData_loop (data : list webBindData) (errs : list error) (bd : list (option bindItem)) : B T (list webBindData) :=
  match bd with
  | [] => match Join errs with Some err => bfail err | None => bret data end
  | d :: bd => fun st =>
      let! r := bindItem_toInternal d st in
      match r.1 with
      | Err err => bindData_loop data (errs ++ [ErrWrap "bind data: at index %d: %w" err]) bd r.2
      | Ok datum => bindData_loop (data ++ [datum]) errs bd r.2
      end
  end.

Definition bindData_toInternal : list (option bindItem) -> B T (list webBindData) := bindData_loop [] [].

(** The addresses and the URL. *)
Definition linkedIP_toInternal (s : option (list (option bindItem))) (targetURL : option URL) : B T (option (list webBindData * URL)) :=
  match s with
  | None => bret None
  | Some bd =>
      let& b := bannotate "converting bind: %w" (bindData_toInternal bd) in
      match targetURL with
      | None => bfail (ErrConst "env variable LINKED_IP_TARGET_URL must be set for using linked_ip")
      | Some u => bret (Some (b, u))
      end
  end.

Definition blockPage_toInternal (s : option blockPageServer) : B T (option (string * list webBindData)) :=
  match s with
  | None => bret None
  | Some s => let& b := bannotate "converting bind: %w" (bindData_toInternal (bp_Bind s)) in bret (Some (bp_BlockPage s, b))
  end.

Definition readErrorPages (c : webConfig) : result error (string * string) :=
  let? e404 := if is_empty (wc_Error404 c) then Ok EmptyString
               else annotate "reading error_404 file: %w" (ReadFile (wc_Error404 c)) in
  let? e500 := if is_empty (wc_Error500 c) then Ok EmptyString
               else annotate "reading error_500 file: %w" (ReadFile (wc_Error500 c)) in
  Ok (e404, e500).

(** The headers are visited in the order of the list. *)
Definition staticFile_toInternal (f : staticFile) (headers : list (string * list string)) : result error StaticFile :=
  let h := foldl (fun h x => <[CanonicalHeaderKey x.1 := x.2]> h) (∅ : gmap string (list string)) headers in
  match base64_decode (sfc_Content f) with
  | None => Err (ErrWrap "content: %w" (ErrConst "illegal base64 data at input byte"))
  | Some content =>
      if is_empty (hdr_Get h "Content-Type") then Err (ErrConst "content: Content-Type header is required")
      else Ok {| sf_Headers := h; sf_Content := content |}
  end.

Fixpoint staticContent_build (fs : gmap string StaticFile) (items : list (string * option staticFile))
    : outcome (result error (gmap string StaticFile)) :=
  match items with
  | [] => Ret (Ok fs)
  | (p, f) :: items =>
      let! f := deref f in
      match staticFile_toInternal f (map_to_list (sfc_Headers f)) with
      | Err err => Ret (Err (ErrWrap "path %q: %w" err))
      | Ok file => staticContent_build (<[p := file]> fs) items
      end
  end.

Definition staticContent_toInternal (sc : gmap string (option staticFile)) : outcome (result error (gmap string StaticFile)) :=
  staticContent_build ∅ (map_to_list sc).

(** The handler of the directory, or the files. *)
Definition setStaticContent (dirEnabled : bool) (dir : string) (c : webConfig) : outcome (result error (string + gmap string StaticFile)) :=
  if dirEnabled then Ret (Ok (inl dir))
  else
    let! r := staticContent_toInternal (wc_StaticContent c) in
    Ret (let? sc := annotate "converting static_content: %w" r in Ok (inr sc)).

Record websvcConfig := {
  wsc_DNSCheck : bool;
  wsc_RootRedirectURL : option URL;
  wsc_LinkedIP : option (list webBindData * URL);
  wsc_AdultBlocking : option (string * list webBindData);
  wsc_GeneralBlocking : option (string * list webBindData);
  wsc_SafeBrowsing : option (string * list webBindData);
  wsc_Error404 : string;
  wsc_Error500 : string;
  wsc_NonDoHBind : list webBindData;
  wsc_StaticContent : string + gmap string StaticFile;
  wsc_Timeout : Z;
  wsc_CertificateValidator : bool;
}.

Definition blift_result {A} (r : result error A) : B T A := fun st => Ret (r, st).

(** [targetURL], [dirEnabled] and [dir] come from the environment; [isHandler] says
    whether the DNS check handles HTTP. *)
Definition web_toInternal (isHandler : bool) (targetURL : option URL) (dirEnabled : bool) (dir : string) (c : option webConfig)
    : B T (option websvcConfig) :=
  match c with
  | None => bret None
  | Some c =>
      let& linked := bannotate "converting linked_ip: %w" (linkedIP_toInternal (wc_LinkedIP c) targetURL) in
      let& adult := bannotate "%s: %w" (blockPage_toInternal (wc_AdultBlocking c)) in
      let& general := bannotate "%s: %w" (blockPage_toInternal (wc_GeneralBlocking c)) in
      let& safe := bannotate "%s: %w" (blockPage_toInternal (wc_SafeBrowsing c)) in
      let& pages := blift_result (readErrorPages c) in
      let& nonDoH := bannotate "converting non_doh_bind: %w" (bindData_toInternal (wc_NonDoHBind c)) in
      let& static := (fun st => let! r := setStaticContent dirEnabled dir c in Ret (r, st)) in
      bret (Some {|
        wsc_DNSCheck := isHandler; wsc_RootRedirectURL := wc_RootRedirectURL c; wsc_LinkedIP := linked;
        wsc_AdultBlocking := adult; wsc_GeneralBlocking := general; wsc_SafeBrowsing := safe;
        wsc_Error404 := pages.1; wsc_Error500 := pages.2; wsc_NonDoHBind := nonDoH; wsc_StaticContent := static;
        wsc_Timeout := wc_Timeout c; wsc_CertificateValidator := false |})
  end.

(** [initWeb] up to the creation of the service: the validator of certificates is
    set in the converted configuration. *)
Definition initWeb (isHandler : bool) (targetURL : option URL) (dirEnabled : bool) (dir : string) (c : option webConfig)
    : B T websvcConfig :=
  let& conf := bannotate "converting web configuration: %w" (web_toInternal isHandler targetURL dirEnabled dir c) in
  let& conf := blift (deref conf) in
  bret {|
    wsc_DNSCheck := wsc_DNSCheck conf; wsc_RootRedirectURL := wsc_RootRedirectURL conf; wsc_LinkedIP := wsc_LinkedIP conf;
    wsc_AdultBlocking := wsc_AdultBlocking conf; wsc_GeneralBlocking := wsc_GeneralBlocking conf;
    wsc_SafeBrowsing := wsc_SafeBrowsing conf; wsc_Error404 := wsc_Error404 conf; wsc_Error500 := wsc_Error500 conf;
    wsc_NonDoHBind := wsc_NonDoHBind conf; wsc_StaticContent := wsc_StaticContent conf; wsc_Timeout := wsc_Timeout conf;
    wsc_CertificateValidator := true |}.

End startup.

(** * Facts *)

(** ** Conversions that keep an invariant of the managers and do not panic *)

Section safety.
Context {T : Type} (I : managers T -> Prop).

Definition bsafe {A} (m : B T A) (Q : A -> Prop) : Prop := forall st, I st ->
  exists r st', m st = Ret (r, st') /\ I st' /\ (forall a, r = Ok a -> Q a).

Lemma bsafe_ret {A} (a : A) (Q : A -> Prop) : Q a -> bsafe (bret a) Q.
Proof. intros HQ st Hst. exists (Ok a), st. split_and!; [done..|]. by intros ? [= ->]. Qed.

Lemma bsafe_fail {A} err (Q : A -> Prop) : bsafe (bfail err) Q.
Proof. intros st Hst. by exists (Err err), st. Qed.

Lemma bsafe_lift {A} o (a : A) (Q : A -> Prop) : o = Ret a -> Q a -> bsafe (blift o) Q.
Proof. intros -> HQ. by apply bsafe_ret. Qed.

Lemma bsafe_lift_bind {A C} o (a : A) (k : A -> B T C) (Q : C -> Prop) : o = Ret a -> bsafe (k a) Q -> bsafe (bbind (blift o) k) Q.
Proof. by intros -> Hk. Qed.

Lemma bsafe_result {A} r (Q : A -> Prop) : (forall a, r = Ok a -> Q a) -> bsafe (fun st => Ret (r, st)) Q.
Proof. intros HQ st Hst. by exists r, st. Qed.

Lemma bsafe_bind {A C} (m : B T A) (k : A -> B T C) (Q : A -> Prop) R :
  bsafe m Q -> (forall a, Q a -> bsafe (k a) R) -> bsafe (bbind m k) R.
Proof.
  intros Hm Hk st Hst. destruct (Hm st Hst) as ([a|err] & st' & E & Hst' & HQ); unfold bbind; rewrite E; simpl.
  - apply (Hk a); auto.
  - by exists (Err err), st'.
Qed.

Lemma bsafe_annotate {A} f (m : B T A) (Q : A -> Prop) : bsafe m Q -> bsafe (bannotate f m) Q.
Proof.
  intros Hm st Hst. destruct (Hm st Hst) as (r & st' & E & Hst' & HQ). unfold bannotate. rewrite E. simpl.
  exists (annotate f r), st'. split_and!; [done..|]. destruct r; [done|by intros].
Qed.

Lemma bsafe_mapB {A C} (f : A -> B T C) (R : A -> C -> Prop) l :
  Forall (fun x => bsafe (f x) (R x)) l -> bsafe (mapB f l) (Forall2 R l).
Proof.
  induction 1 as [|x l Hx Hl IH]; simpl; [by apply bsafe_ret|].
  eapply bsafe_bind; [exact Hx|]. intros y Hy. eapply bsafe_bind; [exact IH|]. intros ys Hys. apply bsafe_ret. by constructor.
Qed.

Lemma bsafe_weaken {A} (m : B T A) (Q R : A -> Prop) : bsafe m Q -> (forall a, Q a -> R a) -> bsafe m R.
Proof. intros Hm HQ st Hst. destruct (Hm st Hst) as (r & st' & ? & ? & ?). exists r, st'. split_and!; [done..|]. auto. Qed.
End safety.

Lemma mapO_Forall2 {A C} (f : A -> outcome C) (R : A -> C -> Prop) l :
  Forall (fun x => exists y, f x = Ret y /\ R x y) l -> exists ys, mapO f l = Ret ys /\ Forall2 R l ys.
Proof.
  induction 1 as [|x l (y & Ey & Hy) Hl (ys & Eys & Hys)]; simpl; [by eauto|]. rewrite Ey. simpl. rewrite Eys. simpl.
  eexists. split; [done|]. by constructor.
Qed.

Section build_facts.
Context {T D : Type} `{Startup T D} `{Validators} `{!ValidatorsSpec} `{ConfigParsers} `{MiekgDNS} `{SvcbParsers}.

(** ** Certificates *)

(** Every certificate group is in the manager, and the interface listeners have
    their ports. *)
Record tls_inv (ports : string -> option Z) (tl : tlsConfig) (st : managers T) : Prop := {
  ti_ok : ci_ok (b_tls st);
  ti_known name : is_Some (tl_CertificateGroups tl !! name) -> ci_contains (b_tls st) name = true;
  ti_ports m id : b_btd st = Some m -> il_port <$> m_ifaceListeners m !! id = ports id;
}.

Lemma m_ListenConfig_ports m id subnet r m' : m_ListenConfig InterfaceByName m id subnet = (r, m') ->
  (forall i, il_port <$> m_ifaceListeners m' !! i = il_port <$> m_ifaceListeners m !! i) /\
  (is_ok r = true -> is_Some (m_ifaceListeners m !! id)).
Proof.
  assert (forall (ls : gmap string interfaceListener) l c1 i, ls !! id = Some l ->
    il_port <$> <[id := BindToDevice.with_conns l c1]> ls !! i = il_port <$> ls !! i) as Hp.
  { intros ls l c1 i El. destruct (decide (i = id)) as [->|]; [by rewrite lookup_insert_eq, El|by rewrite lookup_insert_ne]. }
  unfold m_ListenConfig. destruct (m_ifaceListeners m !! id) as [l|] eqn:El; [|by intros [= <- <-]].
  destruct (validateIfaceSubnet _ _ _); [by intros [= <- <-]|]. cbn.
  destruct (addListener _ _) as [idx1|]; [|by intros [= <- <-]]. cbn.
  destruct (addPacketConn _ _) as [idx2|]; intros [= <- <-]; cbn; (split; [|by eauto]); intros i.
  - rewrite insert_insert_eq. by apply Hp.
  - by apply Hp.
Qed.

Lemma bind_names_inv ports tl p names st : Forall (fun n => is_Some (tl_CertificateGroups tl !! n)) names ->
  tls_inv ports tl st -> tls_inv ports tl (foldl (bind_name p) st names) /\ b_btd (foldl (bind_name p) st names) = b_btd st.
Proof.
  revert st. induction names as [|n names IH]; intros st Hn [Hok Hk Hpt]; [done|]. apply Forall_cons in Hn as [Hn Hns]. simpl.
  destruct (IH (bind_name p st n)) as [? E]; [done| |by split; [|rewrite E]]. split; simpl.
  - exact (ci_ok_bind _ _ _ Hok (Hk _ Hn)).
  - intros m Hm. unfold manager_Bind, ci_bind. case_if; by apply Hk.
  - done.
Qed.

Lemma ci_contains_add (s : certIndex T) name cd n : ci_ok s -> ci_contains (ci_add s name cd) n = true <-> n = name \/ ci_contains s n = true.
Proof.
  intros Hok. rewrite !ci_contains_true. destruct (sm_set_ok (certs s) name cd) as [_ Ev]; [apply Hok|].
  change (certs (ci_add s name cd)) with (sm_set (certs s) name cd). rewrite Ev, lookup_insert_is_Some. split; [naive_solver|].
  destruct (decide (name = n)); naive_solver.
Qed.

Lemma store_loop_ok s groups errs s' : store_loop s groups errs = Ret (None, s') -> ci_ok s ->
  Forall (fun e => e = None) errs /\ ci_ok s' /\
  forall name, ci_contains s name = true \/ name ∈ groups.*1 -> ci_contains s' name = true.
Proof.
  revert s errs. induction groups as [|[name conf] groups IH]; intros s errs Hs Hok; simpl in Hs.
  { injection Hs as He ->. split_and!; [by apply joinErrs_None|done|]. intros n [?|[]%elem_of_nil]. done. }
  destruct conf as [conf|]; [|done]. simpl in Hs. set (p := {| ap_Name := name |}) in Hs.
  pose proof (manager_exec_ok s (MAdd LoadX509KeyPair p) Hok I) as Hok'. simpl in Hok'.
  destruct (manager_Add LoadX509KeyPair s p) as [err s1] eqn:Ea. simpl in Hok'.
  destruct (IH _ _ Hs Hok') as (Hf & Hok2 & Hc). apply Forall_app in Hf as [Hf [He _]%Forall_cons]. apply wrap_opt_None in He. subst err.
  split_and!; [done..|]. intros n Hn. apply Hc. unfold manager_Add in Ea. rewrite fmap_cons, elem_of_cons in Hn. simpl in Hn.
  revert Ea. destruct (ci_contains s (ap_Name p)) eqn:E; [intros [= <-]; naive_solver|].
  destruct (load _ p); [|done]. intros [= <-]. rewrite ci_contains_add by done. naive_solver.
Qed.
(** ** DDR *)

Lemma ddr_ports_spec msgs r target ports : Forall (fun x => IsStdEncrypted x.1 = true) ports ->
  forall prio, 0 <= prio -> prio + Z.of_nat (length ports) < 2 ^ 16 ->
  exists ts, ddr_ports msgs r target prio ports = Ret ts /\
    Forall (fun t => sv_Target t = Fqdn target /\ prio + 1 <= sv_Priority t <= prio + Z.of_nat (length ports)) ts /\
    (Exists (fun x => x.2 <> 0) ports -> Exists (fun t => sv_Priority t = prio + 1) ts).
Proof.
  induction 1 as [|[proto port] ports Hp Hps IH]; intros prio Hge Hb.
  { exists []. split_and!; [done..|]. intros Hx. by apply Exists_nil in Hx. }
  simpl in Hp. cbn [length] in Hb. cbn [ddr_ports]. destruct (port =? 0) eqn:E0; bool_simp.
  { destruct (IH prio) as (ts & -> & Hf & Hx); [lia..|]. exists ts. split_and!; [done| |].
    - eapply Forall_impl; [exact Hf|]. simpl. intros t. naive_solver lia.
    - rewrite Exists_cons. by intros [?|?]; auto. }
  rewrite Z.mod_small by lia. unfold NewDDRTemplate. rewrite Hp. cbn [negb outcome_bind].
  destruct (IH (prio + 1)) as (ts & -> & Hf & Hx); [lia..|]. cbn [outcome_bind]. eexists. split_and!; [done| |].
  - constructor; [cbn [sv_Target sv_Priority length]; split; [done|lia]|].
    eapply Forall_impl; [exact Hf|]. cbn [length]. intros t. naive_solver lia.
  - intros _. rewrite Exists_cons. by left.
Qed.

(** The targets and templates of the records. *)
Definition ddr_built (recs : list (string * option ddrRecord)) (targets : gset string) (tmpls : list SVCBTemplate) : Prop :=
  targets = list_to_set ((fun x => TrimPrefix x.1 "*.") <$> recs) /\
  Forall (fun t => 1 <= sv_Priority t <= 3 /\ exists target, target ∈ targets /\ sv_Target t = Fqdn target) tmpls /\
  (forall target, target ∈ targets -> exists t, t ∈ tmpls /\ sv_Target t = Fqdn target /\ sv_Priority t = 1).

Lemma ddr_record_spec msgs r target : validatePorts r = None -> exists ts,
  (forall recs, appendDDRSVCBTmpls recs msgs r target = Ret (recs ++ ts)) /\
  Forall (fun t => sv_Target t = Fqdn target /\ 1 <= sv_Priority t <= 3) ts /\ Exists (fun t => sv_Priority t = 1) ts.
Proof.
  intros Hv. destruct (ddr_ports_spec msgs r target
    [(ProtoDoH, dr_HTTPSPort r); (ProtoDoT, dr_TLSPort r); (ProtoDoQ, dr_QUICPort r)]) with (prio := 0) as (ts & E & Hf & Hx);
    [by repeat constructor|done|done|].
  exists ts. split_and!; [|done|].
  - intros recs. unfold appendDDRSVCBTmpls. by rewrite E.
  - apply Hx. unfold validatePorts in Hv. rewrite !Exists_cons. repeat case_if; bool_simp; try done. simpl.
    destruct (dr_HTTPSPort r =? 0) eqn:?, (dr_TLSPort r =? 0) eqn:?, (dr_QUICPort r =? 0) eqn:?; bool_simp; auto.
Qed.

Lemma ddrRecs_loop_spec msgs recs :
  Forall (fun x => exists r, x.2 = Some r /\ validatePorts r = None) recs ->
  forall done_recs targets tmpls, ddr_built done_recs targets tmpls ->
  exists targets' tmpls', ddrRecs_loop msgs targets tmpls recs = Ret (targets', tmpls') /\ ddr_built (done_recs ++ recs) targets' tmpls'.
Proof.
  induction 1 as [|[name r] recs (r' & Er & Hv) Hf IH]; intros dn targets tmpls (Ht & Hin & Hall); simpl in *.
  { exists targets, tmpls. by rewrite app_nil_r. }
  subst r. simpl. set (target := TrimPrefix name "*.").
  destruct (ddr_record_spec msgs r' target Hv) as (ts & Ea & Hts & Hone). rewrite Ea. simpl.
  destruct (IH (dn ++ [(name, Some r')]) ({[target]} ∪ targets) (tmpls ++ ts)) as (tg & tm & E & Hb).
  2:{ exists tg, tm. split; [done|]. by rewrite <- app_assoc in Hb. }
  split_and!.
  - subst targets. rewrite fmap_app, list_to_set_app_L. simpl. fold target. set_solver.
  - apply Forall_app. split.
    + eapply Forall_impl; [exact Hin|]. intros t (? & g & ? & ?). split; [done|]. exists g. set_solver.
    + eapply Forall_impl; [exact Hts|]. intros t (? & ?). split; [done|]. exists target. set_solver.
  - intros g [->%elem_of_singleton|Hg]%elem_of_union.
    + apply Exists_exists in Hone as (t & Htin & Hp). exists t. rewrite Forall_forall in Hts. destruct (Hts t Htin). rewrite elem_of_app. auto.
    + destruct (Hall g Hg) as (t & ? & ? & ?). exists t. rewrite elem_of_app. auto.
Qed.

(** What a valid configuration of DDR becomes. *)
Definition ddr_side_ok (recs : gmap string (option ddrRecord)) (targets : gset string) (tmpls : list SVCBTemplate) : Prop :=
  ddr_built (map_to_list recs) targets tmpls /\ Sorted prio_le tmpls.

Lemma ddr_built_perm l l' targets tmpls tmpls' : l ≡ₚ l' -> tmpls ≡ₚ tmpls' -> ddr_built l targets tmpls -> ddr_built l' targets tmpls'.
Proof.
  intros Hl Ht (-> & Hf & Hall). split_and!.
  - apply list_to_set_perm_L. by rewrite Hl.
  - by rewrite <- Ht.
  - intros g Hg. destruct (Hall g Hg) as (t & Hin & ?). exists t. by rewrite <- Ht.
Qed.

#[local] Instance prio_total : Total prio_le.
Proof. intros a b. unfold prio_le. lia. Qed.

Lemma ddrRecs_spec msgs recs l : l ≡ₚ map_to_list recs ->
  (forall name r, recs !! name = Some r -> exists r', r = Some r' /\ validatePorts r' = None) ->
  exists targets tmpls, ddrRecsToSVCBTmpls msgs l = Ret (targets, tmpls) /\ ddr_side_ok recs targets tmpls.
Proof.
  intros Hl Hv. destruct (ddrRecs_loop_spec msgs l) with (done_recs := @nil (string * option ddrRecord)) (targets := ∅ : gset string)
    (tmpls := @nil SVCBTemplate) as (tg & tm & E & Hb).
  - apply Forall_forall. intros [name r] Hin. rewrite Hl, elem_of_map_to_list in Hin. by apply (Hv name).
  - split_and!; [done..|]. intros g Hg. set_solver.
  - unfold ddrRecsToSVCBTmpls. rewrite E. simpl. eexists _, _. split; [done|]. split; [|apply Sorted_merge_sort, _].
    eapply ddr_built_perm; [exact Hl| |exact Hb]. symmetry. apply merge_sort_Permutation.
Qed.

Lemma ddrRecord_ports r : ddrRecord_Validate r = None -> exists r', r = Some r' /\ validatePorts r' = None.
Proof. destruct r as [r|]; [|done]. intros Hv. simpl in Hv. valid_simp. by eauto. Qed.

Lemma ddr_toInternal_spec msgs c ld lp : ddrConfig_Validate (Some c) = None ->
  ld ≡ₚ map_to_list (dc_DeviceRecords c) -> lp ≡ₚ map_to_list (dc_PublicRecords c) ->
  exists conf, ddr_toInternal msgs c ld lp = Ret conf /\ ddr_Enabled conf = dc_Enabled c /\
    ddr_side_ok (dc_DeviceRecords c) (ddr_DeviceTargets conf) (ddr_DeviceRecordTemplates conf) /\
    ddr_side_ok (dc_PublicRecords c) (ddr_PublicTargets conf) (ddr_PublicRecordTemplates conf).
Proof.
  intros Hv Hd Hp. simpl in Hv. unfold ddrDeviceRecords_Validate in Hv. valid_simp. rewrite Forall_forall in *.
  destruct (ddrRecs_spec msgs _ ld Hd) as (tg & tm & E & ?).
  { intros name r Hn. match goal with Hx : context [HasPrefix] |- _ => specialize (Hx (name, r)); rewrite elem_of_map_to_list in Hx; specialize (Hx Hn) end.
    cbn [fst snd] in *. destruct (HasPrefix name "*."); cbn [negb] in *; valid_simp; [by apply ddrRecord_ports|done]. }
  destruct (ddrRecs_spec msgs _ lp Hp) as (tg' & tm' & E' & ?).
  { intros name r Hn. match goal with Hx : forall x, x ∈ map_to_list (dc_PublicRecords c) -> _ |- _ => specialize (Hx (name, r)); rewrite elem_of_map_to_list in Hx; specialize (Hx Hn) end.
    cbn [fst snd] in *. valid_simp. by apply ddrRecord_ports. }
  unfold ddr_toInternal. rewrite E, E'. simpl. eauto.
Qed.
(** ** Servers *)

(** The addresses that a server of the configuration gets: its own ones with their
    ports, or the subnets of its interfaces with the ports of their listeners. *)
Definition bind_data (ports : string -> option Z) (s : serverConfig) : list ServerBindData :=
  match sv_BindAddresses s with
  | [] =>
      mjoin ((fun i => match i with
                       | Some bi => (fun subnet => {| PrefixAddr := Some {| pna_Prefix := subnet; pna_Port := default 0 (ports (bi_ID bi)) |};
                                                      bd_AddrPort := zeroAddrPort |}) <$> bi_Subnets bi
                       | None => []
                       end) <$> sv_BindInterfaces s)
  | addrs => (fun a => {| PrefixAddr := None; bd_AddrPort := a |}) <$> addrs
  end.

(** The listeners of the interfaces exist. *)
Definition ifaces_known (ports : string -> option Z) (s : serverConfig) : Prop :=
  sv_BindAddresses s = [] -> Forall (fun i => exists bi, i = Some bi /\ is_Some (ports (bi_ID bi))) (sv_BindInterfaces s).

Lemma bind_subnet_safe ports tl id subnet :
  bsafe (fun st => tls_inv ports tl st /\ is_Some (b_btd st)) (bind_subnet id subnet)
    (fun bd => bd = {| PrefixAddr := Some {| pna_Prefix := subnet; pna_Port := default 0 (ports id) |}; bd_AddrPort := zeroAddrPort |} /\
       is_Some (ports id)).
Proof.
  intros st [[Hok Hk Hpt] [m Em]]. unfold bind_subnet. rewrite Em. simpl. destruct (m_ListenConfig _ m id subnet) as [r m'] eqn:El.
  apply m_ListenConfig_ports in El as [Hp Hl].
  eexists _, _. split_and!; [done| |by eexists|].
  - split; [done|done|]. intros m'' i [= <-]. rewrite Hp. by apply Hpt.
  - intros bd. destruct r; [|done]. simpl. rewrite (Hpt m id Em). intros [= <-]. split; [done|].
    rewrite <- (Hpt m id Em). by apply fmap_is_Some, Hl.
Qed.

Lemma Forall2_eq_r {A C} (f : A -> C) (P : A -> Prop) l l' : Forall2 (fun x y => y = f x /\ P x) l l' -> l' = f <$> l /\ Forall P l.
Proof. induction 1 as [|x y l l' [-> ?] _ [-> ?]]; [done|]. split; [done|by constructor]. Qed.

Lemma server_bindData_safe ports tl s : server_valid s ->
  bsafe (tls_inv ports tl) (server_bindData s) (fun bd => bd = bind_data ports s /\ bd <> [] /\ ifaces_known ports s /\
    Forall (fun b => is_nil (PrefixAddr b) = match sv_BindAddresses s with [] => false | _ => true end) bd).
Proof.
  intros Hs st Hst. unfold server_bindData, bind_data, ifaces_known. destruct (sva_bind s Hs) as [(Ha & _ & _)|(-> & Hi & _ & Hf)].
  { destruct (sv_BindAddresses s) as [|a l]; [done|]. eexists _, _. split_and!; [done|done|]. intros bd Hbd.
    assert (bd = (fun addr => {| PrefixAddr := None; bd_AddrPort := addr |}) <$> a :: l) as -> by congruence.
    split_and!; [done..|]. apply Forall_fmap, Forall_true. done. }
  destruct (b_btd st) as [m|] eqn:Em; [|by eexists _, _]. revert Hi Hf. generalize (sv_BindInterfaces s) as ifs. intros ifs Hi Hf.
  set (data_of := fun i : option serverBindInterface => match i with
    | Some bi => (fun subnet => {| PrefixAddr := Some {| pna_Prefix := subnet; pna_Port := default 0 (ports (bi_ID bi)) |};
                                   bd_AddrPort := zeroAddrPort |}) <$> bi_Subnets bi
    | None => [] end).
  destruct (bsafe_mapB (fun st => tls_inv ports tl st /\ is_Some (b_btd st)) bind_iface
    (fun i data => data = data_of i /\ (data_of i <> [] /\ exists bi, i = Some bi /\ is_Some (ports (bi_ID bi)))) ifs) with (st := st)
    as (r & st' & E & [Hst' _] & HQ); [|by rewrite Em|].
  - eapply Forall_impl; [exact Hf|]. intros i (bi & -> & Hbi). unfold bind_iface.
    eapply bsafe_lift_bind; [done|]. eapply bsafe_weaken; [apply bsafe_mapB, Forall_true; intros p; apply bind_subnet_safe|].
    intros data [-> Hp]%Forall2_eq_r. cbn. destruct (bi_Subnets bi) as [|p ps] eqn:Eb; [by destruct (iv_some _ Hbi)|].
    apply Forall_cons in Hp as [Hp _]. split_and!; [done|done|]. by eexists.
  - unfold bbind. rewrite E. simpl. destruct r as [datas|err]; [|by eexists _, _]. eexists _, _. split_and!; [done|done|]. intros bd [= <-].
    destruct (Forall2_eq_r _ _ _ _ (HQ _ eq_refl)) as [-> Hk]. split_and!; [done| | |].
    + destruct ifs as [|i ifs]; [done|]. apply Forall_cons in Hk as [[Hn _] _]. cbn. by destruct (data_of i).
    + intros _. eapply Forall_impl; [exact Hk|]. by intros i [_ ?].
    + apply Forall_join, Forall_fmap. eapply Forall_impl; [exact Hk|]. intros i (_ & bi & -> & _). by apply Forall_fmap, Forall_true.
Qed.

Lemma SetBindData_ok s b data : data <> [] -> Forall (fun bd => is_nil (PrefixAddr bd) = b) data ->
  SetBindData s data = Ret {| s_Name := s_Name s; Agd.bindData := data; s_Protocol := s_Protocol s; LinkedIPEnabled := LinkedIPEnabled s |}.
Proof.
  intros Hne Hf. destruct data as [|bd [|bd' rest]]; [done|done|]. apply Forall_cons in Hf as [Hb Hf].
  unfold SetBindData. destruct (existsb _ _) eqn:Ee; [|done]. apply existsb_exists in Ee as (x & Hx & Hn).
  rewrite Forall_forall in Hf. rewrite (Hf x), Hb in Hn by (by apply list_elem_of_In). by destruct b.
Qed.

(** What a valid server of the configuration becomes. *)
Record built_server (ports : string -> option Z) (dn : dnsConfig) (rl : rateLimitConfig) (domains : list string) (s : serverConfig)
    (d : @dnsServer D) : Prop := {
  bs_name : s_Name (ds_Server d) = sv_Name s;
  bs_linked : LinkedIPEnabled (ds_Server d) = sv_LinkedIPEnabled s;
  bs_proto : s_Protocol (ds_Server d) = proto_toInternal (sv_Protocol s) /\ s_Protocol (ds_Server d) <> ProtoInvalid;
  bs_bind : Agd.bindData (ds_Server d) = bind_data ports s /\ Agd.bindData (ds_Server d) <> [] /\ ifaces_known ports s;
  bs_ifaces : BindsToInterfaces (ds_Server d) = true -> sv_Protocol s = srvProtoDNS;
  bs_timeouts : ds_ReadTimeout d = dn_ReadTimeout dn /\ ds_WriteTimeout d = dn_WriteTimeout dn;
  bs_tcp : ds_TCPConf d = if bool_decide (sv_Protocol s = srvProtoDNSCrypt) then None
    else (fun tcp => (dn_TCPIdleTimeout dn, rt_MaxPipelineCount tcp, rt_Enabled tcp)) <$> rl_TCP rl;
  bs_quic : ds_QUICConf d = if proto_needsTLS (sv_Protocol s)
    then (fun quic => (rq_MaxStreamsPerPeer quic, rq_Enabled quic)) <$> rl_QUIC rl else None;
  bs_udp : ds_UDPMaxRespSize d = if bool_decide (sv_Protocol s = srvProtoDNS) then Some (dn_MaxUDPResponseSize dn) else None;
  bs_tls : ds_TLS d = if proto_needsTLS (sv_Protocol s) then Some (newTLSConfig (proto_toInternal (sv_Protocol s)) domains) else None;
  bs_dnscrypt : if bool_decide (sv_Protocol s = srvProtoDNSCrypt)
    then is_Some (ds_DNSCrypt d) /\ dnsCrypt_toInternal (sv_DNSCrypt s) = Ok (ds_DNSCrypt d) else ds_DNSCrypt d = None;
}.

Lemma dnsCrypt_some c r : dnsCrypt_toInternal (Some c) = Ok r -> is_Some r.
Proof.
  unfold dnsCrypt_toInternal. destruct (dcc_Inline c) as [rc|].
  - destruct (dnscrypt_cert rc); simpl; [|done]. intros [= <-]. by eexists.
  - destruct (readDNSCryptConfig _) as [[f close]|]; simpl; [|done]. destruct f as [rc|]; simpl; [|by destruct close].
    destruct (validateDNSCrypt rc); simpl; [by destruct close|]. destruct (dnscrypt_cert rc); simpl; [|by destruct close].
    destruct close; simpl; [done|]. intros [= <-]. by eexists.
Qed.

Ltac tls_step :=
  lazymatch goal with
  | |- bsafe _ (bbind (blift _) _) _ => eapply bsafe_lift_bind; [done|]
  | |- bsafe _ (bbind (bindTLSNames _ _) _) _ => eapply bsafe_bind; [eassumption|]; intros _ _
  | |- bsafe _ (bret _) _ => apply bsafe_ret; cbn -[Z.pow]; split_and!; done
  end.

Lemma setProtoConfig_safe ports tl srv s dn rl names domains : server_valid s -> s_Protocol srv = proto_toInternal (sv_Protocol s) ->
  dnsConfig_Validate (Some dn) = None -> rateLimitConfig_Validate (Some rl) = None ->
  Forall (fun n => is_Some (tl_CertificateGroups tl !! n)) names ->
  bsafe (tls_inv ports tl) (setProtoConfig srv s dn rl names domains) (fun d => ds_Server d = srv /\
    (ds_ReadTimeout d = dn_ReadTimeout dn /\ ds_WriteTimeout d = dn_WriteTimeout dn) /\
    ds_TCPConf d = (if bool_decide (sv_Protocol s = srvProtoDNSCrypt) then None
      else (fun tcp => (dn_TCPIdleTimeout dn, rt_MaxPipelineCount tcp, rt_Enabled tcp)) <$> rl_TCP rl) /\
    ds_QUICConf d = (if proto_needsTLS (sv_Protocol s)
      then (fun quic => (rq_MaxStreamsPerPeer quic, rq_Enabled quic)) <$> rl_QUIC rl else None) /\
    ds_UDPMaxRespSize d = (if bool_decide (sv_Protocol s = srvProtoDNS) then Some (dn_MaxUDPResponseSize dn) else None) /\
    ds_TLS d = (if proto_needsTLS (sv_Protocol s) then Some (newTLSConfig (proto_toInternal (sv_Protocol s)) domains) else None) /\
    if bool_decide (sv_Protocol s = srvProtoDNSCrypt)
    then is_Some (ds_DNSCrypt d) /\ dnsCrypt_toInternal (sv_DNSCrypt s) = Ok (ds_DNSCrypt d) else ds_DNSCrypt d = None).
Proof.
  intros Hs Hp Hdn Hrl Hn. simpl in Hdn, Hrl. valid_simp. unfold setProtoConfig. rewrite Hp.
  destruct (rl_TCP rl) as [tcp|] eqn:Et; [|done]. destruct (rl_QUIC rl) as [quic|] eqn:Eq; [|done].
  assert (tcp_conf dn rl = Ret (dn_TCPIdleTimeout dn, rt_MaxPipelineCount tcp, rt_Enabled tcp)) as Etcp.
  { unfold tcp_conf. by rewrite Et. }
  assert (bsafe (tls_inv ports tl) (bindTLSNames srv names) (fun _ => True)) as Hbind.
  { intros st Hst. eexists _, _. split_and!; [done| |done]. apply (foldl_inv _ (tls_inv ports tl)); [done|].
    intros st' p _ Hst'. by apply bind_names_inv. }
  pose proof (sva_dnscrypt s Hs) as Hdc. pose proof (sva_proto s Hs) as Hpr.
  repeat (apply elem_of_cons in Hpr as [Hpr|Hpr]; [rewrite Hpr in *; cbn [proto_toInternal] in *|]); [..|by apply elem_of_nil in Hpr];
    vm_compute (proto_toInternal _); cbn [Z.eqb Pos.eqb ProtoDNS ProtoDNSCrypt].
  - eapply bsafe_lift_bind; [done|]. apply bsafe_ret. cbn -[Z.pow].
    rewrite Z.mod_small by (unfold MaxMsgSize in *; lia). by split_and!.
  - destruct (sv_DNSCrypt s) as [dc|]; [|by destruct (proj2 Hdc eq_refl)].
    destruct (dnsCrypt_toInternal (Some dc)) as [r|err] eqn:Er; [|apply bsafe_fail]. apply bsafe_ret. split_and!; try done.
    cbn. split; [by apply dnsCrypt_some in Er|done].
  - by repeat tls_step.
  - by repeat tls_step.
  - by repeat tls_step.
Qed.

Lemma server_toInternal_safe ports tl dn rl names domains s : server_valid s ->
  dnsConfig_Validate (Some dn) = None -> rateLimitConfig_Validate (Some rl) = None ->
  Forall (fun n => is_Some (tl_CertificateGroups tl !! n)) names ->
  bsafe (tls_inv ports tl) (server_toInternal dn rl names domains (Some s)) (built_server ports dn rl domains s).
Proof.
  intros Hs Hdn Hrl Hn. unfold server_toInternal. eapply bsafe_lift_bind; [done|].
  eapply bsafe_bind; [by apply server_bindData_safe|]. intros bd (-> & Hne & Hif & Hf). simpl.
  eapply bsafe_lift_bind; [by eapply SetBindData_ok|].
  apply bsafe_annotate. eapply bsafe_weaken; [by apply setProtoConfig_safe|]. intros d (Ed & Htm & Htcp & Hq & Hu & Ht & Hd).
  split; rewrite ?Ed; try done.
  - split; [done|]. simpl. pose proof (sva_proto s Hs) as Hpr. by repeat (apply elem_of_cons in Hpr as [->|Hpr]; [done|]); apply elem_of_nil in Hpr.
  - unfold BindsToInterfaces. cbn [Agd.bindData]. destruct (bind_data ports s) as [|bd0 bd]; [done|]. apply Forall_cons in Hf as [-> _].
    destruct (sva_bind s Hs) as [(Ha & _)|(_ & _ & -> & _)]; [|done]. by destruct (sv_BindAddresses s).
Qed.
(** ** Server groups *)

Lemma known_names tl l : groups_known tl l ->
  exists names, mapO deref l = Ret names /\ Forall (fun n => is_Some (tl_CertificateGroups tl !! n)) names.
Proof.
  intros Hk. destruct (mapO_Forall2 deref (fun _ n => is_Some (tl_CertificateGroups tl !! n)) l) as (names & E & Hf).
  { eapply Forall_impl; [exact Hk|]. intros n (name & -> & ?). by exists name. }
  exists names. split; [done|]. clear E Hk. by induction Hf; constructor.
Qed.

(** What a valid group of servers becomes. *)
Record built_group (ports : string -> option Z) (fltGrps : gmap string FilteringGroup) (dn : dnsConfig) (rl : rateLimitConfig) (g : serverGroup) (c : @ServerGroupConfig D) : Prop := {
  bg_name : sgc_Name c = sg_Name g;
  bg_filtering : sgc_FilteringGroup c = sg_FilteringGroup g /\ is_Some (fltGrps !! sg_FilteringGroup g);
  bg_profiles : sgc_ProfilesEnabled c = sg_ProfilesEnabled g;
  bg_servers : Forall2 (fun s d => exists s', s = Some s' /\ built_server ports dn rl (sgc_DeviceDomains c) s' d) (sg_Servers g) (sgc_Servers c);
  bg_ddr : exists d, sg_DDR g = Some d /\ ddr_Enabled (sgc_DDR c) = dc_Enabled d /\
    ddr_side_ok (dc_DeviceRecords d) (ddr_DeviceTargets (sgc_DDR c)) (ddr_DeviceRecordTemplates (sgc_DDR c)) /\
    ddr_side_ok (dc_PublicRecords d) (ddr_PublicTargets (sgc_DDR c)) (ddr_PublicRecordTemplates (sgc_DDR c));
}.

Lemma serverGroup_safe ports tl msgs ord fltGrps rl dn g : group_valid tl g -> (forall m, ord m ≡ₚ map_to_list m) ->
  dnsConfig_Validate (Some dn) = None -> rateLimitConfig_Validate (Some rl) = None ->
  bsafe (tls_inv ports tl) (serverGroup_toInternal msgs ord fltGrps rl dn (Some g)) (built_group ports fltGrps dn rl g).
Proof.
  intros [_ (d & Ed & Hd) _ Hsrv _ Htls] Hord Hdn Hrl. unfold serverGroup_toInternal. eapply bsafe_lift_bind; [done|].
  destruct (fltGrps !! sg_FilteringGroup g) eqn:Ef; [|apply bsafe_fail].
  assert (exists names domains, groupTLS_toInternal (sg_TLS g) = Ret (names, domains) /\
    Forall (fun n => is_Some (tl_CertificateGroups tl !! n)) names) as (names & domains & Et & Hn).
  { unfold groupTLS_toInternal. destruct (sg_TLS g) as [t|]; [|by exists [], []].
    destruct (known_names tl _ (proj1 (proj2 Htls))) as (names & -> & ?). simpl. by eauto. }
  eapply bsafe_lift_bind; [done|].
  destruct (ddr_toInternal_spec msgs d (ord (dc_DeviceRecords d)) (ord (dc_PublicRecords d)) Hd) as (conf & Ec & He & Hdev & Hpub); [done..|].
  eapply bsafe_lift_bind; [by rewrite Ed|]. simpl.
  eapply (bsafe_bind _ _ _ (Forall2 (fun s d => exists s', s = Some s' /\ built_server ports dn rl domains s' d) (sg_Servers g))).
  { apply bsafe_annotate, bsafe_mapB. eapply Forall_impl; [exact Hsrv|]. intros s (s' & -> & Hs). apply bsafe_annotate.
    eapply bsafe_weaken; [by apply server_toInternal_safe|]. eauto. }
  intros srvs Hsrvs. apply bsafe_ret. split; simpl; eauto 6.
Qed.

(** ** The web service *)

Lemma bindItem_safe ports tl i : groups_known tl (certGroups_list (bt_CertificateGroups i)) ->
  bsafe (tls_inv ports tl) (bindItem_toInternal (Some i)) (fun _ => True).
Proof.
  intros Hk. unfold bindItem_toInternal. eapply bsafe_lift_bind; [done|].
  destruct (certGroups_list _) as [|n l]; [by apply bsafe_ret|]. destruct (addr_prefix _ _) as [p|]; [|apply bsafe_fail].
  eapply (bsafe_bind _ _ _ (fun _ => True)); [|intros; by apply bsafe_ret]. apply bsafe_annotate. intros st Hst. unfold certGroups_bind.
  destruct (known_names tl (n :: l) Hk) as (names & -> & Hn). simpl. eexists _, _. split_and!; [done| |done]. by apply bind_names_inv.
Qed.

Lemma bindData_safe ports tl bd : items_known tl bd -> bsafe (tls_inv ports tl) (bindData_toInternal bd) (fun _ => True).
Proof.
  unfold bindData_toInternal. generalize (@nil webBindData), (@nil error). induction bd as [|i bd IH]; intros data errs Hk; simpl.
  { destruct (Join errs); [apply bsafe_fail|by apply bsafe_ret]. }
  apply Forall_cons in Hk as [(i' & -> & Hi) Hk]. intros st Hst.
  destruct (bindItem_safe ports tl i' Hi st Hst) as ([datum|err] & st' & E & Hst' & _); rewrite E; simpl; by apply IH.
Qed.

Lemma blockPage_safe ports tl s : (forall s', s = Some s' -> items_known tl (bp_Bind s')) ->
  bsafe (tls_inv ports tl) (blockPage_toInternal s) (fun _ => True).
Proof.
  intros Hs. destruct s as [s|]; [|by apply bsafe_ret]. eapply bsafe_bind; [by apply bsafe_annotate, bindData_safe, Hs|].
  intros ? _. by apply bsafe_ret.
Qed.

Lemma staticContent_total sc fs : (forall p f, (p, f) ∈ sc -> is_Some f) -> exists r, staticContent_build fs sc = Ret r.
Proof.
  revert fs. induction sc as [|[p f] sc IH]; intros fs Hf; simpl; [by eauto|].
  destruct (Hf p f) as [f' ->]; [by constructor|]. simpl. destruct (staticFile_toInternal _ _); [|by eauto].
  apply IH. intros p' f'' ?. apply (Hf p'). by constructor.
Qed.

Lemma web_safe ports tl isHandler url dirEnabled dir c : web_valid tl c ->
  bsafe (tls_inv ports tl) (web_toInternal isHandler url dirEnabled dir (Some c)) (fun conf => is_Some conf).
Proof.
  intros [Hl Ha Hg Hs Hb Hst]. unfold web_toInternal.
  eapply (bsafe_bind _ _ _ (fun _ => True)).
  { apply bsafe_annotate. destruct (wc_LinkedIP c) as [bd|]; [|by apply bsafe_ret]. unfold linkedIP_toInternal.
    eapply bsafe_bind; [by apply bsafe_annotate, bindData_safe, Hl|]. intros ? _. destruct url; [by apply bsafe_ret|apply bsafe_fail]. }
  intros ? _. eapply bsafe_bind; [by apply bsafe_annotate, blockPage_safe|]. intros ? _.
  eapply bsafe_bind; [by apply bsafe_annotate, blockPage_safe|]. intros ? _.
  eapply bsafe_bind; [by apply bsafe_annotate, blockPage_safe|]. intros ? _.
  eapply (bsafe_bind _ _ _ (fun _ => True)); [by apply bsafe_result|]. intros ? _.
  eapply bsafe_bind; [by apply bsafe_annotate, bindData_safe|]. intros ? _.
  eapply (bsafe_bind _ _ _ (fun _ => True)); [|intros; by apply bsafe_ret].
  assert (exists r, setStaticContent dirEnabled dir c = Ret r) as [r ->].
  { unfold setStaticContent, staticContent_toInternal. destruct dirEnabled; [by eauto|].
    destruct (staticContent_total (map_to_list (wc_StaticContent c)) ∅) as [r ->]; [|by eauto].
    intros p f. rewrite elem_of_map_to_list. apply Hst. }
  by apply bsafe_result.
Qed.
(** ** The whole configuration *)

Lemma getCertificate_total (s : certIndex T) supports ip : ci_ok s -> exists x, getCertificate s supports ip = Ret x.
Proof.
  intros [_ Hb]. unfold getCertificate. case_if; [by eauto|]. unfold certFor. case_bool_decide; [by eauto|].
  destruct (cert_loop_spec s supports ip (bound s) [] Hb) as [(err & -> & _)|(? & ? & ? & ? & _ & -> & _)]; by eauto.
Qed.

Lemma config_parts c tl : configuration_Validate (Some c) = Ret None -> cf_TLS c = Some tl ->
  (tl_Enabled tl = true -> tls_groups_ok tl) /\
  Forall (fun g => exists g', g = Some g' /\ group_valid tl g') (cf_ServerGroups c) /\ NoDup (group_key sg_Name <$> cf_ServerGroups c) /\
  (forall wc, cf_Web c = Some wc -> web_valid tl wc) /\
  rateLimitConfig_Validate (cf_RateLimit c) = None /\ dnsConfig_Validate (cf_DNS c) = None /\
  upstreamConfig_Validate (cf_Upstream c) = None /\ cacheConfig_Validate (cf_Cache c) = None /\ network_Validate (cf_Network c) = None.
Proof.
  intros Hv Etl. unfold configuration_Validate in Hv. destruct (tlsConfigValidator_Validate (cf_TLS c)) as [ts tlsErr] eqn:Et.
  valid_simp. subst. apply tls_valid in Et as (tl' & Etl' & Ets & Hgroups). assert (tl' = tl) as -> by congruence. rewrite Etl in *.
  destruct (groups_valid tl ts _ _ Ets Heqo0 eq_refl) as (_ & Hg & Hn). split_and!; try done.
  intros wc Ew. rewrite Ew in *. by eapply web_valid_intro.
Qed.

Lemma groups_safe ports tl msgs ord fltGrps rl dn l : Forall (fun g => exists g', g = Some g' /\ group_valid tl g') l ->
  (forall m, ord m ≡ₚ map_to_list m) -> dnsConfig_Validate (Some dn) = None -> rateLimitConfig_Validate (Some rl) = None ->
  bsafe (tls_inv ports tl) (serverGroups_toInternal msgs ord fltGrps rl dn l)
    (Forall2 (fun g grp => exists g', g = Some g' /\ built_group ports fltGrps dn rl g' grp) l).
Proof.
  intros Hg Hord Hdn Hrl. apply bsafe_mapB. eapply Forall_impl; [exact Hg|]. intros g (g' & -> & Hg').
  eapply bsafe_weaken; [by apply serverGroup_safe|]. eauto.
Qed.

Lemma built_names ports fltGrps dn rl l grps : Forall2 (fun g grp => exists g', g = Some g' /\ built_group ports fltGrps dn rl g' grp) l grps ->
  group_key sg_Name <$> l = sgc_Name <$> grps.
Proof. induction 1 as [|g grp l grps (g' & -> & Hb) _ IH]; [done|]. rewrite !fmap_cons, IH. simpl. by rewrite (bg_name _ _ _ _ _ _ Hb). Qed.

Lemma initWeb_safe ports tl isHandler url dirEnabled dir wc : web_valid tl wc ->
  bsafe (tls_inv ports tl) (initWeb isHandler url dirEnabled dir (Some wc)) (fun _ => True).
Proof.
  intros Hw. unfold initWeb. eapply bsafe_bind; [by apply bsafe_annotate, web_safe|]. intros conf [conf' ->].
  eapply bsafe_lift_bind; [done|]. by apply bsafe_ret.
Qed.


(** ** Filtering groups *)

Lemma filteringGroup_parts g : filteringGroup_Validate g = None ->
  exists g' rls p sb, g = Some g' /\ fg_RuleLists g' = Some rls /\ fg_Parental g' = Some p /\ fg_SafeBrowsing g' = Some sb.
Proof.
  destruct g as [g|]; [|done]. intros Hv. simpl in Hv. valid_simp.
  destruct (fg_RuleLists g) as [rls|] eqn:?, (fg_Parental g) as [p|] eqn:?, (fg_SafeBrowsing g) as [sb|] eqn:?; try done. eauto 10.
Qed.

(** A filtering group of the configuration and what it becomes. *)
Definition built_filtering (m : gmap string FilteringGroup) (g : option filteringGroup) : Prop :=
  exists g' rls p sb fg, g = Some g' /\ fg_RuleLists g' = Some rls /\ fg_Parental g' = Some p /\ fg_SafeBrowsing g' = Some sb /\
    m !! fgc_ID g' = Some fg /\ fg_ID fg = fgc_ID g' /\
    cfg_RuleList (fg_FilterConfig fg) = {| cr_IDs := fgr_IDs rls; cr_Enabled := fgr_Enabled rls |} /\
    cp_Enabled (cfg_Parental (fg_FilterConfig fg)) = fgp_Enabled p /\ csb_Enabled (cfg_SafeBrowsing (fg_FilterConfig fg)) = fgs_Enabled sb.

Lemma filteringGroups_loop_spec hasListID groups : Forall (fun g => filteringGroup_Validate g = None) groups ->
  NoDup (group_key fgc_ID <$> groups) -> forall m,
  (exists m', filteringGroups_loop hasListID m groups = Ret (Ok m') /\
     (forall id, id ∉ group_key fgc_ID <$> groups -> m' !! id = m !! id) /\ Forall (built_filtering m') groups) \/
  (exists err g rls id, filteringGroups_loop hasListID m groups = Ret (Err err) /\
     Some g ∈ groups /\ fg_RuleLists g = Some rls /\ id ∈ fgr_IDs rls /\ hasListID id = false).
Proof.
  induction 1 as [|g groups Hg Hgs IH]; intros Hn m; [left; exists m; split_and!; done|].
  destruct (filteringGroup_parts g Hg) as (g' & rls & p & sb & -> & Er & Ep & Es).
  rewrite fmap_cons, NoDup_cons in Hn. destruct Hn as [Hx Hn]. cbn [group_key] in *.
  cbn [filteringGroups_loop deref outcome_bind]. rewrite Er. cbn [deref outcome_bind]. destruct (forallb hasListID (fgr_IDs rls)) eqn:Ef; cbn [negb].
  - rewrite Ep, Es. cbn [deref outcome_bind].
    match goal with |- context [filteringGroups_loop _ (<[_ := ?x]> m) groups] => set (fg := x) end.
    destruct (IH Hn (<[fgc_ID g' := fg]> m)) as [(m' & E & Hout & Hf)|(err & g0 & rls0 & id & E & ? & ? & ? & ?)].
    + left. exists m'. split_and!; [exact E| |].
      * intros id Hid. rewrite fmap_cons, not_elem_of_cons in Hid. destruct Hid as [Hne Hid]. rewrite Hout by done. by apply lookup_insert_ne.
      * constructor; [|done]. exists g', rls, p, sb. eexists. rewrite Hout by done. by rewrite lookup_insert_eq.
    + right. exists err, g0, rls0, id. split_and!; [exact E|by constructor|done..].
  - right. eexists _, g', rls. assert (exists id, id ∈ fgr_IDs rls /\ hasListID id = false) as (id & ? & ?).
    { clear -Ef. induction (fgr_IDs rls) as [|id l IH]; [done|]. simpl in Ef. destruct (hasListID id) eqn:Eh.
      - destruct (IH Ef) as (i & ? & ?). exists i. split; [by constructor|done].
      - exists id. split; [by constructor|done]. }
    exists id. split_and!; [done|by constructor|done..].
Qed.

(** The filtering groups of a valid configuration are made without a panic: each of
    them, with its own settings, or an error if one of them has a rule list that is
    not in the index. *)
Theorem filteringGroups_built hasListID groups : filteringGroups_Validate groups = None ->
  (exists m, filteringGroups_toInternal hasListID groups = Ret (Ok m) /\ Forall (built_filtering m) groups) \/
  (exists err g rls id, filteringGroups_toInternal hasListID groups = Ret (Err err) /\
     Some g ∈ groups /\ fg_RuleLists g = Some rls /\ id ∈ fgr_IDs rls /\ hasListID id = false).
Proof.
  intros Hv. assert (joinErrs (unique_errs filteringGroup_Validate (group_key fgc_ID) ∅ groups) = None) as He by (by destruct groups).
  valid_simp. apply unique_errs_None in He as [Hf Hn].
  destruct (filteringGroups_loop_spec hasListID groups) with (m := ∅ : gmap string FilteringGroup) as [(m & ? & _ & ?)|]; [|done| |by right].
  - eapply Forall_impl; [exact Hf|]. naive_solver.
  - left. eauto.
Qed.

(** ** Limits and sizes *)

Lemma upstreams_total l : Forall (fun c => upstreamServerConfig_Validate c = None) l ->
  exists ups, toUpstreamConfigs l = Ret ups /\
    Forall2 (fun c u => exists c' n a, c = Some c' /\ splitUpstreamURL (us_Address c') = Ok (n, a) /\
      u = {| up_Network := n; up_Address := a; up_Timeout := us_Timeout c' |}) l ups.
Proof.
  intros Hl. apply mapO_Forall2. eapply Forall_impl; [exact Hl|]. intros [c|] Hc; [|done]. simpl in Hc. valid_simp.
  unfold toUpstreamConfig. simpl. destruct (splitUpstreamURL (us_Address c)) as [[n a]|] eqn:Es; [|done]. eauto 10.
Qed.

Lemma healthcheck_total hc : upstreamHealthcheckConfig_Validate (Some hc) = None ->
  exists conf, healthcheck_toInternal hc = Ret conf /\ is_ok (NewNetwork (hc_NetworkOverride conf)) = true.
Proof.
  unfold upstreamHealthcheckConfig_Validate, healthcheck_toInternal. destruct (uh_Enabled hc); simpl; [|by eauto].
  intros Hv. valid_simp. assert (NewNetwork (uh_NetworkOverride hc) = Ok (uh_NetworkOverride hc)) as E.
  { unfold is_empty in *. destruct (bool_decide (uh_NetworkOverride hc = EmptyString)) eqn:He; bool_simp; [by rewrite He|].
    unfold NewNetwork in *. by destruct (bool_decide (uh_NetworkOverride hc ∈ _)). }
  rewrite E. eexists. split; [done|]. simpl. by rewrite E.
Qed.

Lemma upstream_total up : upstreamConfig_Validate (Some up) = None ->
  exists ups fbs hc, upstream_toInternal up = Ret (ups, fbs, hc) /\ ups <> [] /\ fbs <> [] /\ is_ok (NewNetwork (hc_NetworkOverride hc)) = true /\
    Forall2 (fun c u => exists c' n a, c = Some c' /\ splitUpstreamURL (us_Address c') = Ok (n, a) /\
      u = {| up_Network := n; up_Address := a; up_Timeout := us_Timeout c' |}) (uc_Servers up) ups.
Proof.
  intros Hup. unfold upstreamConfig_Validate in Hup. valid_simp. unfold upstream_toInternal.
  destruct (uc_Fallback up) as [fb|]; [|done]. destruct (uc_Healthcheck up) as [hc|]; [|done]. unfold upstreamFallbackConfig_Validate in *. valid_simp.
  destruct (healthcheck_total hc) as (conf & Ec & Hn); [done|].
  destruct (upstreams_total (uc_Servers up)) as (ups & Eu & Hu); [done|]. destruct (upstreams_total (uf_Servers fb)) as (fbs & Ef & Hf); [done|].
  simpl. rewrite Ec. simpl. rewrite Eu. simpl. rewrite Ef. simpl. exists ups, fbs, conf.
  split_and!; [done| | |done|done]; intros ->; [apply Forall2_length in Hu|apply Forall2_length in Hf]; by simpl in *.
Qed.

(** The conversions of a valid configuration do not panic and lose nothing: the
    addresses of the upstreams are the ones written, and there is at least one; the
    network of healthchecks is known; the connection limiter gets limits that it
    can use; a cache that is on has a size that fits an int; the sizes of the
    buffers of sockets are the ones written; each rate limiter gets positive counts
    and intervals. *)
Theorem config_bounds c tl : configuration_Validate (Some c) = Ret None -> cf_TLS c = Some tl ->
  exists rl up cc nw, cf_RateLimit c = Some rl /\ cf_Upstream c = Some up /\ cf_Cache c = Some cc /\ cf_Network c = Some nw /\
  (exists ups fbs hc, upstream_toInternal up = Ret (ups, fbs, hc) /\ ups <> [] /\ fbs <> [] /\ is_ok (NewNetwork (hc_NetworkOverride hc)) = true /\
    Forall2 (fun c u => exists c' n a, c = Some c' /\ splitUpstreamURL (us_Address c') = Ok (n, a) /\
      u = {| up_Network := n; up_Address := a; up_Timeout := us_Timeout c' |}) (uc_Servers up) ups) /\
  (exists cl, rl_ConnectionLimit rl = Some cl /\ (is_u64 (cl_Stop cl) -> forall conf, initConnLimit cl = Some conf -> valid_config conf)) /\
  (exists conf, cache_toInternal cc = Ret conf /\ cch_NoECSCount conf <= MaxInt /\
    (0 <= cc_Size cc -> cch_Type conf <> CacheTypeNone -> 0 < cch_NoECSCount conf) /\ (cch_Type conf = CacheTypeECS -> 0 < cch_ECSCount conf <= MaxInt)) /\
  (0 <= nw_SndBufSize nw -> 0 <= nw_RcvBufSize nw -> network_toInternal nw = (nw_SndBufSize nw, nw_RcvBufSize nw)) /\
  (forall al, exists conf, rateLimit_toInternal rl al = Ret conf /\
    0 < c_IPv4Count conf /\ 0 < c_IPv4Interval conf /\ 0 < c_IPv6Count conf /\ 0 < c_IPv6Interval conf /\ 0 < c_ResponseSizeEstimate conf).
Proof.
  intros Hv Etl. destruct (config_parts c tl Hv Etl) as (_ & _ & _ & _ & Hrl & _ & Hup & Hcc & Hnw).
  destruct (cf_RateLimit c) as [rl|]; [|done]. destruct (cf_Upstream c) as [up|]; [|done].
  destruct (cf_Cache c) as [cc|]; [|done]. destruct (cf_Network c) as [nw|]; [|done].
  exists rl, up, cc, nw. split_and!; [done..| | | | |].
  - by apply upstream_total.
  - simpl in Hrl. valid_simp. destruct (rl_ConnectionLimit rl) as [cl|]; [|done]. exists cl. split; [done|]. intros Hu conf.
    unfold initConnLimit. simpl in *. destruct (cl_Enabled cl); simpl in *; [|done]. intros [= <-]. valid_simp.
    unfold is_u64 in Hu. split; simpl; lia.
  - simpl in Hcc. valid_simp. destruct (cc_TTLOverride cc) as [o|] eqn:Eo; [|done]. unfold cache_toInternal. rewrite Eo.
    eexists. split_and!; [done|done| |]; cbn [cch_NoECSCount cch_ECSCount cch_Type].
    + intros Hge Ht. destruct (cc_Size cc =? 0) eqn:E0; bool_simp; [done|lia].
    + destruct (cc_Size cc =? 0); [done|]. case_bool_decide; [done|]. intros _. case_bool_decide; [|done]. valid_simp. lia.
  - simpl in Hnw. valid_simp. intros Hs Hr. unfold network_toInternal, i64, maxBufSize, modulus64 in *.
    rewrite !Z.mod_small by lia. by rewrite !(proj2 (Z.ltb_lt _ _)) by lia.
  - simpl in Hrl. valid_simp. intros al. unfold rateLimit_toInternal. destruct (rl_IPv4 rl) as [v4|]; [|done]. destruct (rl_IPv6 rl) as [v6|]; [|done].
    simpl in *. valid_simp. eexists. split_and!; [done|..]; simpl; lia.
Qed.
End build_facts.

(** * A configuration *)

Definition check_that (b : bool) : option error := if b then None else Some (ErrConst "bad value").

#[local] Instance ref_validators : Validators := {|
  v_Positive _ v := check_that (0 <? v); v_NotNegative _ v := check_that (0 <=? v);
  v_NoGreaterThan _ v m := check_that (v <=? m); v_NoLessThan _ v m := check_that (m <=? v);
  v_InRange _ v a b := check_that ((a <=? v) && (v <=? b)); v_NotEmpty _ b := check_that (negb b); v_NotNil _ b := check_that (negb b);
  v_NotEmptySlice _ l := check_that (negb (l =? 0)%nat); v_EmptySlice _ l := check_that (l =? 0)%nat |}.

#[local] Instance ref_validators_spec : ValidatorsSpec.
Proof.
  assert (forall b, check_that b = None <-> b = true) as Hc by (by intros []).
  split; intros; cbn [v_Positive v_NotNegative v_NoGreaterThan v_NoLessThan v_InRange v_NotEmpty v_NotNil v_NotEmptySlice v_EmptySlice ref_validators];
    rewrite Hc, ?andb_true_iff, ?negb_true_iff, ?Z.ltb_lt, ?Z.leb_le, ?Nat.eqb_eq, ?Nat.eqb_neq; done.
Qed.

#[local] Instance ref_parsers : ConfigParsers := {|
  ValidateHostname _ := None; url_Parse _ := Err (ErrConst "parse"); ParseAddrPort _ := Ok {| ap_addr := Addr4 134744072; ap_port := 53 |};
  IsValidLabelName _ := true |}.

#[local] Existing Instance ref_miekg.
#[local] Instance ref_svcb : SvcbParsers := {| base64_decode s := Some s; ParseIP _ := None; ParseUint16 _ := None |}.

(** Certificates are named by their paths; there are no interfaces. *)
#[local] Instance ref_startup : Startup string string := {|
  InterfaceByName _ := Err (ErrConst "no such interface"); LoadX509KeyPair c k := Ok c;
  readDNSCryptConfig _ := Err (ErrConst "no such file"); CreateCert rc := Ok (rc_ProviderName rc); ReadFile p := Ok p |}.

Definition some_addr (n : Z) : Addr := Addr4 (2130706432 + n).

Definition some_limits (keyLen : Z) : rateLimitConfig := {|
  rl_ActiveRequestLimit := Some {| arl_Max := 10; arl_Enabled := true |};
  rl_Allowlist := Some {| alc_List := []; alc_RefreshIvl := 1 |};
  rl_ConnectionLimit := Some {| cl_Stop := 10; cl_Resume := 5; cl_Enabled := true |};
  rl_IPv4 := Some {| rlo_Count := 10; rlo_Interval := 1000; rlo_SubnetKeyLen := keyLen |};
  rl_IPv6 := Some {| rlo_Count := 10; rlo_Interval := 1000; rlo_SubnetKeyLen := 48 |};
  rl_QUIC := Some {| rq_MaxStreamsPerPeer := 100; rq_Enabled := true |};
  rl_TCP := Some {| rt_MaxPipelineCount := 100; rt_Enabled := true |};
  rl_ResponseSizeEstimate := 1024; rl_BackoffCount := 10; rl_BackoffDuration := 1000; rl_BackoffPeriod := 1000; rl_RefuseANY := true |}.

Definition some_dns : dnsConfig := {|
  dn_ReadTimeout := 1; dn_TCPIdleTimeout := 1; dn_WriteTimeout := 1; dn_HandleTimeout := 1; dn_MaxUDPResponseSize := 1024 |}.

Definition some_tls (enabled : bool) (group : option tlsCertificateConfig) : tlsConfig :=
  {| tl_CertificateGroups := {["default"%string := group]}; tl_Enabled := enabled |}.

Definition some_cert : tlsCertificateConfig := {| tc_CertificatePath := "cert.pem"; tc_KeyPath := "key.pem" |}.

Definition some_server (proto : string) (n : Z) : serverConfig := {|
  sv_DNSCrypt := None; sv_Name := proto; sv_Protocol := proto; sv_BindAddresses := [{| ap_addr := some_addr n; ap_port := 53 |}];
  sv_BindInterfaces := []; sv_LinkedIPEnabled := true |}.

Definition some_ddr : ddrConfig := {|
  dc_DeviceRecords := {["*.d.dns.example"%string := Some {|
    dr_DoHPath := "/dns-query{?dns}"; dr_IPv4Hints := [some_addr 1]; dr_IPv6Hints := []; dr_HTTPSPort := 443; dr_QUICPort := 853; dr_TLSPort := 853 |}]};
  dc_PublicRecords := {["dns.example"%string := Some {|
    dr_DoHPath := EmptyString; dr_IPv4Hints := []; dr_IPv6Hints := []; dr_HTTPSPort := 0; dr_QUICPort := 0; dr_TLSPort := 853 |}]};
  dc_Enabled := true |}.

Definition some_group (groups : option (list (option string))) (protos : list (string * Z)) : serverGroup := {|
  sg_DDR := Some some_ddr;
  sg_TLS := (fun l => {| st_CertificateGroups := Some l; st_SessionKeys := []; st_DeviceIDWildcards := ["*.d.dns.example"%string] |}) <$> groups;
  sg_Name := "main"; sg_FilteringGroup := "default"; sg_Servers := (fun x => Some (some_server x.1 x.2)) <$> protos;
  sg_ProfilesEnabled := true |}.

Definition some_web : webConfig := {|
  wc_LinkedIP := None; wc_AdultBlocking := None;
  wc_GeneralBlocking := None; wc_SafeBrowsing := None; wc_RootRedirectURL := None;
  wc_StaticContent := ∅; wc_Error404 := EmptyString; wc_Error500 := EmptyString;
  wc_NonDoHBind := [Some {| bt_Address := {| ap_addr := some_addr 3; ap_port := 443 |}; bt_CertificateGroups := Some [Some "default"%string] |}];
  wc_Timeout := 1 |}.

Definition some_sb : safeBrowsingConfig := {| sb_BlockHost := "block.example"; sb_CacheSize := 1; sb_CacheTTL := 1; sb_RefreshIvl := 1; sb_RefreshTimeout := 1 |}.

(** A configuration with some parts given. *)
Definition some_config (rl : rateLimitConfig) (tl : tlsConfig) (web : option webConfig) (g : serverGroup) : configuration := {|
  cf_RateLimit := Some rl;
  cf_Cache := Some {| cc_TTLOverride := Some {| to_Min := 1; to_Enabled := true |}; cc_Type := cacheTypeECS; cc_Size := 10; cc_ECSSize := 10 |};
  cf_Upstream := Some {|
    uc_Healthcheck := Some {| uh_DomainTemplate := "${RANDOM}.example"; uh_NetworkOverride := EmptyString; uh_Interval := 1; uh_Timeout := 1;
                              uh_BackoffDuration := 1; uh_Enabled := true |};
    uc_Fallback := Some {| uf_Servers := [Some {| us_Address := "8.8.8.8:53"; us_Timeout := 1 |}] |};
    uc_Servers := [Some {| us_Address := "8.8.8.8:53"; us_Timeout := 1 |}] |};
  cf_DNSDB := Some {| dd_MaxSize := 1; dd_Enabled := true |};
  cf_DNS := Some some_dns;
  cf_Backend := Some {| be_Timeout := 0; be_RefreshIvl := 1; be_FullRefreshIvl := 1; be_FullRefreshRetryIvl := 1; be_BillStatIvl := 1 |};
  cf_QueryLog := Some {| ql_File := Some true |};
  cf_GeoIP := Some {| gi_HostCacheSize := 1; gi_IPCacheSize := 1; gi_RefreshIvl := 1 |};
  cf_Check := Some {| ck_Domains := ["check.example"%string]; ck_NodeLocation := "ams"; ck_IPv4 := [some_addr 1]; ck_IPv6 := [Addr6 1 EmptyString] |};
  cf_TLS := Some tl; cf_Web := web; cf_SafeBrowsing := Some some_sb; cf_AdultBlocking := Some some_sb;
  cf_Filters := Some {|
    fl_RuleListCache := Some {| frc_Size := 1; frc_Enabled := true |}; fl_CustomFilterCacheSize := 1; fl_SafeSearchCacheSize := 1;
    fl_ResponseTTL := 1; fl_RefreshIvl := 1; fl_RefreshTimeout := 1; fl_IndexRefreshTimeout := 1; fl_RuleListRefreshTimeout := 1; fl_MaxSize := 1;
    fl_EDEEnabled := true; fl_SDEEnabled := true |};
  cf_ConnectivityCheck := Some {| cn_ProbeIPv4 := {| ap_addr := some_addr 1; ap_port := 53 |}; cn_ProbeIPv6 := zeroAddrPort |};
  cf_InterfaceListeners := None; cf_Network := Some {| nw_SndBufSize := 0; nw_RcvBufSize := 65536 |};
  cf_Access := Some {| ac_BlockedQuestionDomains := []; ac_BlockedClientSubnets := [] |}; cf_AdditionalMetricsInfo := ∅;
  cf_FilteringGroups := [Some {|
    fg_RuleLists := Some {| fgr_IDs := ["list"%string]; fgr_Enabled := true |};
    fg_Parental := Some {| fgp_Enabled := false; fgp_BlockAdult := false; fgp_GeneralSafeSearch := false; fgp_YoutubeSafeSearch := false |};
    fg_SafeBrowsing := Some {| fgs_Enabled := true; fgs_BlockDangerousDomains := true; fgs_BlockNewlyRegisteredDomains := false |};
    fgc_ID := "default"; fgc_BlockChromePrefetch := true; fgc_BlockFirefoxCanary := true; fgc_BlockPrivateRelay := false |}];
  cf_ServerGroups := [Some g] |}.

Definition full_config : configuration :=
  some_config (some_limits 24) (some_tls true (Some some_cert)) (Some some_web)
    (some_group (Some [Some "default"%string]) [(srvProtoDNS, 1); (srvProtoHTTPS, 1); (srvProtoQUIC, 1); (srvProtoTLS, 2)]).

Definition plain_group : serverGroup := some_group None [(srvProtoDNS, 1)].

Example full_config_valid : configuration_Validate (Some full_config) = Ret None.
Proof. vm_compute. reflexivity. Qed.

Definition some_filtering_groups : gmap string FilteringGroup :=
  match filteringGroups_toInternal (fun id => bool_decide (id = "list"%string)) (cf_FilteringGroups full_config) with Ret (Ok m) => m | _ => ∅ end.

Definition some_index : certIndex string :=
  match tlsConfig_store (T:=string) (D:=string) newCertIndex [("default"%string, Some some_cert)] with Ret (_, s) => s | Panic _ => newCertIndex end.


Example config_bounds_witness : exists rl up cc nw, cf_RateLimit full_config = Some rl /\ cf_Upstream full_config = Some up /\
  cf_Cache full_config = Some cc /\ cf_Network full_config = Some nw /\ network_toInternal nw = (0, 65536).
Proof.
  destruct (config_bounds full_config _ full_config_valid eq_refl) as (rl & up & cc & nw & Erl & Eup & Ecc & Enw & _ & _ & _ & Hn & _).
  exists rl, up, cc, nw. split_and!; [done..|]. injection Enw as <-. by apply Hn.
Defined.

(** ** Valid configurations that do not work *)

(** [subnet_key_len] has no upper bound: with 64 bits for IPv4 the configuration is
    valid, and each request of an IPv4 client that is not allowed panics. *)
Theorem long_subnet_key_panics :
  configuration_Validate (Some (some_config (some_limits 64) (some_tls true (Some some_cert)) (Some some_web) plain_group)) = Ret None /\
  exists conf, rateLimit_toInternal (some_limits 64) (fun _ => Ok false) = Ret conf /\
  forall `{RingBuffer} `{Cache} str now n qn, exists msg,
    IsRateLimited str now (NewBackoff conf) [{| q_Name := qn; q_Qtype := TypeA; q_Qclass := ClassINET |}] (Addr4 n) = Panic msg.
Proof.
  split; [vm_compute; reflexivity|]. eexists. split; [reflexivity|]. intros RB C str now n qn. by eexists.
Qed.

(** An empty item of [certificate_groups] is not reported: the validation panics. *)
Theorem nil_certificate_group_panics :
  configuration_Validate (Some (some_config (some_limits 24) (some_tls true (Some some_cert)) (Some some_web)
    (some_group (Some [None]) [(srvProtoTLS, 1)]))) = Panic "nil pointer dereference".
Proof. vm_compute. reflexivity. Qed.

(** The certificate groups are not validated if TLS is disabled, but they are loaded
    all the same: an empty one makes the start panic. *)
Theorem disabled_tls_panics :
  let tl := some_tls false None in
  configuration_Validate (Some (some_config (some_limits 24) tl None plain_group)) = Ret None /\
  tlsConfig_store (T:=string) (D:=string) newCertIndex (map_to_list (tl_CertificateGroups tl)) = Panic "nil pointer dereference".
Proof. split; vm_compute; reflexivity. Qed.

(** The section of the web service is optional, and its conversion gives nothing if
    there is none; the validator of certificates is set in that nothing. *)
Theorem no_web_panics :
  configuration_Validate (Some (some_config (some_limits 24) (some_tls true (Some some_cert)) None plain_group)) = Ret None /\
  forall isHandler url dirEnabled dir st, initWeb (T:=string) (D:=string) isHandler url dirEnabled dir None st = Panic "nil pointer dereference".
Proof. split; [vm_compute; reflexivity|done]. Qed.
