(* ===== verification/CmdEnv.v ===== *)
(** The environment of internal/cmd: env.go, the choice of the storages that depend
    on it in check.go and builder.go, and what the start takes from it.

    The decoding of the variables is not modelled, apart from the type of strict
    booleans.  The ratio of invalid profiles is a number of a type that the model
    does not look into. *)

From S2P Require Import Prelude GoStd NetIP HumanID Refreshable Config ConfigBuild.

Open Scope Z_scope.

(** The functions of golibs and of the system: the validation of URLs, which may be
    nil, the formats and levels of logs, [os.Stat] with whether the file is a
    directory, and the range of a floating-point number. *)
Class EnvChecks := {
  ValidateHTTPURL : option URL -> option error;
  ValidateGRPCURL : option URL -> option error;
  IsValidHTTPURLScheme : string -> bool;
  NewFormat : string -> option error;
  VerbosityToLevel : Z -> option error;
  os_Stat : string -> result error bool;
  ratio_InRange : string -> Z -> option error;
}.

(** No URL is not a valid one. *)
Class EnvChecksSpec `{EnvChecks} : Prop := {
  http_not_nil : ValidateHTTPURL None <> None;
  grpc_not_nil : ValidateGRPCURL None <> None;
}.

Definition kvModeBackend : string := "backend".
Definition kvModeCache : string := "cache".
Definition kvModeConsul : string := "consul".
Definition kvModeRedis : string := "redis".
Definition rlAllowlistTypeBackend : string := "backend".
Definition rlAllowlistTypeConsul : string := "consul".
Definition standardAccessOff : string := "off".
Definition standardAccessBackend : string := "backend".
Definition sessionTicketLocal : string := "local".
Definition sessionTicketRemote : string := "remote".
Definition profileCacheTypeNone : string := "none".
Definition profileCacheTypeOpaque : string := "opaque".
Definition SchemeFile : string := "file".

(** The lifetimes that the stores support, in nanoseconds. *)
Definition consulMinTTL : Z := 10 * 1000000000.
Definition consulMaxTTL : Z := 86400 * 1000000000.
Definition redisMinTTL : Z := 1000000.

(** The variable of the index of filters must not be empty. *)
Record environment := {
  ev_AdultBlockingURL : option URL;
  ev_BackendRateLimitURL : option URL;
  ev_BillStatURL : option URL;
  ev_BlockedServiceIndexURL : option URL;
  ev_CategoryFilterIndexURL : option URL;
  ev_ConsulAllowlistURL : option URL;
  ev_ConsulDNSCheckKVURL : option URL;
  ev_ConsulDNSCheckSessionURL : option URL;
  ev_CustomDomainsURL : option URL;
  ev_DNSCheckRemoteKVURL : option URL;
  ev_FilterIndexAPIURL : option URL;
  ev_FilterIndexURL : URL;
  ev_GeneralSafeSearchURL : option URL;
  ev_LinkedIPTargetURL : option URL;
  ev_NewRegDomainsURL : option URL;
  ev_ProfilesURL : option URL;
  ev_RuleStatURL : option URL;
  ev_SafeBrowsingURL : option URL;
  ev_SessionTicketURL : option URL;
  ev_StandardAccessURL : option URL;
  ev_YoutubeSafeSearchURL : option URL;
  ev_ListenAddr : Addr;
  ev_BackendRateLimitAPIKey : string;
  ev_BillStatAPIKey : string;
  ev_ConfPath : string;
  ev_CrashOutputDir : string;
  ev_CrashOutputPrefix : string;
  ev_CustomDomainsAPIKey : string;
  ev_CustomDomainsCachePath : string;
  ev_DNSCheckKVType : string;
  ev_DNSCheckRemoteKVAPIKey : string;
  ev_FilterCacheDir : string;
  ev_FilterIndexAPIKey : string;
  ev_GeoIPASNPath : string;
  ev_GeoIPCountryPath : string;
  ev_LogFormat : string;
  ev_NodeName : string;
  ev_ProfilesAPIKey : string;
  ev_ProfilesCachePath : string;
  ev_QueryLogPath : string;
  ev_RateLimitAllowlistType : string;
  ev_RedisKeyPrefix : string;
  ev_SSLKeyLogFile : string;
  ev_SentryDSN : string;
  ev_SessionTicketAPIKey : string;
  ev_SessionTicketCachePath : string;
  ev_SessionTicketIndexName : string;
  ev_SessionTicketType : string;
  ev_StandardAccessAPIKey : string;
  ev_StandardAccessType : string;
  ev_ProfilesCacheType : string;
  ev_WebStaticDir : string;
  ev_ProfilesMaxRespSize : Z;
  ev_ProfilesAPIRespMaxInvalidRatio : Z;
  ev_CustomDomainsRefreshIvl : Z;
  ev_DNSCheckKVTTL : Z;
  ev_FilterIndexAPIRefreshIvl : Z;
  ev_FilterRefreshIvl : Z;
  ev_ProfilesCacheIvl : Z;
  ev_SessionTicketRefreshIvl : Z;
  ev_StandardAccessRefreshIvl : Z;
  ev_StandardAccessTimeout : Z;
  ev_BlockProfileRateDenominator : Z;
  ev_DNSCheckCacheKVSize : Z;
  ev_TyposquattingCacheCount : Z;
  ev_MaxThreads : Z;
  ev_MutexProfileRateDenominator : Z;
  ev_QueryLogSemaphoreLimit : Z;
  ev_ListenPort : Z;
  ev_Verbosity : Z;
  ev_AdultBlockingEnabled : bool;
  ev_BlockedServiceEnabled : bool;
  ev_CategoryFilterEnabled : bool;
  ev_CrashOutputEnabled : bool;
  ev_CustomDomainsEnabled : bool;
  ev_GeneralSafeSearchEnabled : bool;
  ev_LogTimestamp : bool;
  ev_NewRegDomainsEnabled : bool;
  ev_QueryLogSemaphoreEnabled : bool;
  ev_SafeBrowsingEnabled : bool;
  ev_TyposquattingEnabled : bool;
  ev_YoutubeSafeSearchEnabled : bool;
  ev_WebStaticDirEnabled : bool;
}.

(** [strictBool.UnmarshalText]. *)
Definition strictBool_UnmarshalText (b : string) : result error bool :=
  if bool_decide (b = "0"%string) then Ok false
  else if bool_decide (b = "1"%string) then Ok true
  else Err (ErrConst "invalid value %q, supported: %q, %q").

Section environment.
Context `{Validators} `{EnvChecks} `{UnicodeCase}.

Definition validateFilters (e : environment) : list (option error) := [
  if negb (EqualFold (u_Scheme (ev_FilterIndexURL e)) SchemeFile) && negb (IsValidHTTPURLScheme (u_Scheme (ev_FilterIndexURL e)))
  then Some (ErrConst "%s: not a valid http(s) url or file uri") else None;
  v_Positive "FILTER_REFRESH_INTERVAL" (ev_FilterRefreshIvl e)].

(** A URL, and whether it is required. *)
Definition required_errs (validate : option URL -> option error) (urls : list (option URL * bool)) : list (option error) :=
  (fun x : option URL * bool => if negb x.2 then None else wrap_opt "env %s: %w" (validate x.1)) <$> urls.

Definition validateHTTPURLs (e : environment) : list (option error) := required_errs ValidateHTTPURL [
  (ev_AdultBlockingURL e, ev_AdultBlockingEnabled e);
  (ev_BlockedServiceIndexURL e, ev_BlockedServiceEnabled e);
  (ev_ConsulDNSCheckKVURL e, negb (is_nil_ptr (ev_ConsulDNSCheckKVURL e)));
  (ev_ConsulDNSCheckSessionURL e, negb (is_nil_ptr (ev_ConsulDNSCheckSessionURL e)));
  (ev_GeneralSafeSearchURL e, ev_GeneralSafeSearchEnabled e);
  (ev_LinkedIPTargetURL e, false);
  (ev_NewRegDomainsURL e, ev_NewRegDomainsEnabled e);
  (ev_RuleStatURL e, false);
  (ev_SafeBrowsingURL e, ev_SafeBrowsingEnabled e);
  (ev_YoutubeSafeSearchURL e, ev_YoutubeSafeSearchEnabled e)].

Definition validateCategoryFilterIndex (e : environment) : option error :=
  if negb (ev_CategoryFilterEnabled e) then None
  else match ev_CategoryFilterIndexURL e with
  | None => ErrNoValue
  | Some u =>
      if negb (EqualFold (u_Scheme u) SchemeFile) && negb (IsValidHTTPURLScheme (u_Scheme u))
      then Some (ErrConst "not a valid http(s) url or file uri") else None
  end.

Definition validateDir (dirPath : string) : option error :=
  match os_Stat dirPath with Err err => Some err | Ok isDir => if negb isDir then Some (ErrConst "not a directory") else None end.

Definition validateWebStaticDir (e : environment) : option error :=
  if negb (ev_WebStaticDirEnabled e) then None
  else if is_empty (ev_WebStaticDir e) then ErrEmptyValue
  else validateDir (ev_WebStaticDir e).

(** The directory is the one of the static content, as in the code. *)
Definition validateCrashOutput (e : environment) : list (option error) :=
  if negb (ev_CrashOutputEnabled e) then []
  else [
    if negb (is_empty (ev_WebStaticDir e)) then validateDir (ev_WebStaticDir e) else None;
    v_NotEmpty "CRASH_OUTPUT_DIR" (is_empty (ev_CrashOutputDir e));
    v_NotEmpty "CRASH_OUTPUT_PREFIX" (is_empty (ev_CrashOutputPrefix e))].

(** A gRPC URL that must be there. *)
Definition grpc_errs (name : string) (u : option URL) : option error :=
  match v_NotNil name (is_nil_ptr u) with
  | Some err => Some err
  | None => wrap_opt (name +:+ ": %w") (ValidateGRPCURL u)
  end.

Definition validateCustomDomains (e : environment) : list (option error) :=
  if negb (ev_CustomDomainsEnabled e) then []
  else [
    v_NotEmpty "env CUSTOM_DOMAINS_CACHE_PATH" (is_empty (ev_CustomDomainsCachePath e));
    v_Positive "env CUSTOM_DOMAINS_REFRESH_INTERVAL" (ev_CustomDomainsRefreshIvl e);
    grpc_errs "env CUSTOM_DOMAINS_URL" (ev_CustomDomainsURL e)].

Definition validateBackendKV (e : environment) : list (option error) :=
  [wrap_opt "env DNSCHECK_REMOTEKV_URL: %w" (ValidateGRPCURL (ev_DNSCheckRemoteKVURL e))].

Definition validateCache (e : environment) : list (option error) := [
  v_Positive "DNSCHECK_CACHE_KV_SIZE" (ev_DNSCheckCacheKVSize e);
  v_NoGreaterThan "DNSCHECK_CACHE_KV_SIZE" (ev_DNSCheckCacheKVSize e) MaxInt].

Definition validateDNSCheck (e : environment) : list (option error) :=
  let typ := ev_DNSCheckKVType e in
  let ttl := ev_DNSCheckKVTTL e in
  if bool_decide (typ = kvModeBackend) then validateBackendKV e ++ [v_Positive "env DNSCHECK_KV_TTL" ttl]
  else if bool_decide (typ = kvModeCache) then validateCache e
  else if bool_decide (typ = kvModeConsul) then [v_InRange "env DNSCHECK_KV_TTL" ttl consulMinTTL consulMaxTTL]
  else if bool_decide (typ = kvModeRedis) then [v_NoLessThan "env DNSCHECK_KV_TTL" ttl redisMinTTL]
  else [ErrBadEnumValue "env DNSCHECK_KV_TYPE: %w: %q"].

Definition validateQueryLogSemaphore (e : environment) : list (option error) :=
  if negb (ev_QueryLogSemaphoreEnabled e) then [] else [v_Positive "QUERYLOG_SEMAPHORE_LIMIT" (ev_QueryLogSemaphoreLimit e)].

Definition validateRateLimit (e : environment) : list (option error) :=
  if bool_decide (ev_RateLimitAllowlistType e ∈ [rlAllowlistTypeBackend; rlAllowlistTypeConsul]) then []
  else [ErrBadEnumValue "env RATELIMIT_ALLOWLIST_TYPE: %w: %q"].

Definition validateRateLimitURLs (e : environment) : list (option error) :=
  [wrap_opt "env %s: %w"
    (if bool_decide (ev_RateLimitAllowlistType e = rlAllowlistTypeConsul) then ValidateHTTPURL (ev_ConsulAllowlistURL e)
     else ValidateGRPCURL (ev_BackendRateLimitURL e))].

(** The first errors end the validation. *)
Definition validateSessionTickets (e : environment) : list (option error) :=
  match v_NotEmpty "env SESSION_TICKET_TYPE" (is_empty (ev_SessionTicketType e)) with
  | Some err => [Some err]
  | None =>
      match v_Positive "env SESSION_TICKET_REFRESH_INTERVAL" (ev_SessionTicketRefreshIvl e) with
      | Some err => [Some err]
      | None =>
          if bool_decide (ev_SessionTicketType e = sessionTicketLocal) then []
          else if bool_decide (ev_SessionTicketType e = sessionTicketRemote) then [
            v_NotEmpty "env SESSION_TICKET_API_KEY" (is_empty (ev_SessionTicketAPIKey e));
            v_NotEmpty "env SESSION_TICKET_CACHE_PATH" (is_empty (ev_SessionTicketCachePath e));
            v_NotEmpty "env SESSION_TICKET_INDEX_NAME" (is_empty (ev_SessionTicketIndexName e));
            grpc_errs "env SESSION_TICKET_URL" (ev_SessionTicketURL e)]
          else [ErrBadEnumValue "env SESSION_TICKET_TYPE: %w: %q"]
      end
  end.

Definition validateStandardAccess (e : environment) : list (option error) :=
  if bool_decide (ev_StandardAccessType e = standardAccessOff) then []
  else if bool_decide (ev_StandardAccessType e = standardAccessBackend) then [
    v_NotEmpty "env STANDARD_ACCESS_API_KEY" (is_empty (ev_StandardAccessAPIKey e));
    v_Positive "env STANDARD_ACCESS_REFRESH_INTERVAL" (ev_StandardAccessRefreshIvl e);
    v_Positive "env STANDARD_ACCESS_TIMEOUT" (ev_StandardAccessTimeout e);
    grpc_errs "env STANDARD_ACCESS_URL" (ev_StandardAccessURL e)]
  else [ErrBadEnumValue "env STANDARD_ACCESS_TYPE: %w: %q"].

Definition validateTyposquatting (e : environment) : list (option error) :=
  if negb (ev_TyposquattingEnabled e) then []
  else [
    v_Positive "env TYPOSQUATTING_CACHE_COUNT" (ev_TyposquattingCacheCount e);
    v_Positive "env FILTER_INDEX_API_REFRESH_INTERVAL" (ev_FilterIndexAPIRefreshIvl e);
    grpc_errs "env FILTER_INDEX_API_URL" (ev_FilterIndexAPIURL e)].

Definition environment_Validate (e : environment) : option error := joinErrs (
  v_NotNegative "MAX_THREADS" (ev_MaxThreads e) :: validateHTTPURLs e ++ [
  wrap_opt "CATEGORY_FILTER_INDEX_URL: %w" (validateCategoryFilterIndex e);
  wrap_opt "WEB_STATIC_DIR: %w" (validateWebStaticDir e);
  wrap_opt "LOG_FORMAT: %w" (NewFormat (ev_LogFormat e));
  wrap_opt "VERBOSE: %w" (VerbosityToLevel (ev_Verbosity e))] ++
  validateFilters e ++ validateCrashOutput e ++ validateCustomDomains e ++ validateDNSCheck e ++ validateQueryLogSemaphore e ++
  validateRateLimit e ++ validateRateLimitURLs e ++ validateSessionTickets e ++ validateStandardAccess e ++ validateTyposquatting e).

Definition validateProfilesURLs (e : environment) : list (option error) :=
  required_errs ValidateGRPCURL [(ev_BillStatURL e, true); (ev_ProfilesURL e, true)].

Definition validateProfilesConf (e : environment) (profilesEnabled : bool) : option error :=
  if negb profilesEnabled then None
  else joinErrs (validateProfilesURLs e ++ [
    v_NoGreaterThan "PROFILES_MAX_RESP_SIZE" (ev_ProfilesMaxRespSize e) MaxInt;
    v_NotEmpty "PROFILES_CACHE_TYPE" (is_empty (ev_ProfilesCacheType e));
    ratio_InRange "PROFILES_API_RESPONSE_MAX_INVALID_RATIO" (ev_ProfilesAPIRespMaxInvalidRatio e)] ++
    if bool_decide (ev_ProfilesCacheType e = profileCacheTypeNone) then []
    else if bool_decide (ev_ProfilesCacheType e = profileCacheTypeOpaque) then [
      v_Positive "PROFILES_CACHE_INTERVAL" (ev_ProfilesCacheIvl e);
      v_NotEmpty "PROFILES_CACHE_PATH" (is_empty (ev_ProfilesCachePath e))]
    else [ErrBadEnumValue "env PROFILES_CACHE_TYPE: %w: %q"]).

(** * What the start takes from the environment *)

(** ** check.go *)

Definition keyNamespaceCheck : string := "check".

Definition newRemoteKVPrefix (e : environment) (kvType : string) : outcome string :=
  if bool_decide (kvType ∈ [kvModeBackend; kvModeCache; kvModeConsul]) then Ret (kvType +:+ ":" +:+ keyNamespaceCheck +:+ ":")
  else if bool_decide (kvType = kvModeRedis) then Ret (ev_RedisKeyPrefix e +:+ ":" +:+ keyNamespaceCheck +:+ ":")
  else Panic "dnscheck kv type: %w: %q".

(** The stores, with the prefix of their keys. *)
Inductive kvStore :=
  | KVBackend (endpoint : URL) (apiKey : string) (ttl : Z) (prefix : string)
  | KVCache (count : Z)
  | KVConsul (url sessionURL : URL) (ttl : Z) (prefix : string)
  | KVEmpty (prefix : string)
  | KVRedis (ttl : Z) (prefix : string).

Definition newRemoteKV (e : environment) : outcome kvStore :=
  let typ := ev_DNSCheckKVType e in
  let ttl := ev_DNSCheckKVTTL e in
  if bool_decide (typ = kvModeBackend) then
    let! u := deref (ev_DNSCheckRemoteKVURL e) in
    let! p := newRemoteKVPrefix e typ in Ret (KVBackend u (ev_DNSCheckRemoteKVAPIKey e) ttl p)
  else if bool_decide (typ = kvModeCache) then Ret (KVCache (ev_DNSCheckCacheKVSize e))
  else if bool_decide (typ = kvModeRedis) then let! p := newRemoteKVPrefix e typ in Ret (KVRedis ttl p)
  else if bool_decide (typ = kvModeConsul) then
    let! p := newRemoteKVPrefix e typ in
    match ev_ConsulDNSCheckKVURL e, ev_ConsulDNSCheckSessionURL e with
    | Some u, Some s => Ret (KVConsul u s ttl p)
    | _, _ => Ret (KVEmpty p)
    end
  else Panic "env DNSCHECK_KV_TYPE: %w: %q".

(** ** builder.go: the URLs of the services

    A service that is not enabled is left out before its URL is looked at; the URL of
    one that is is dereferenced. *)

Definition when (b : bool) (u : option URL) : outcome (option URL) := if b then let! u := deref u in Ret (Some u) else Ret None.

Definition adultBlocking_url (e : environment) := when (ev_AdultBlockingEnabled e) (ev_AdultBlockingURL e).
Definition newRegDomains_url (e : environment) := when (ev_NewRegDomainsEnabled e) (ev_NewRegDomainsURL e).
Definition safeBrowsing_url (e : environment) := when (ev_SafeBrowsingEnabled e) (ev_SafeBrowsingURL e).
Definition filterIndexStorage_url (e : environment) := when (ev_TyposquattingEnabled e) (ev_FilterIndexAPIURL e).
Definition blockedServices_url (e : environment) := when (ev_BlockedServiceEnabled e) (ev_BlockedServiceIndexURL e).
Definition categoryFilter_url (e : environment) := when (ev_CategoryFilterEnabled e) (ev_CategoryFilterIndexURL e).
Definition newSafeSearchConfig_url (u : option URL) (enabled : bool) := when enabled u.
Definition customDomains_url (e : environment) (profilesEnabled : bool) :=
  when (ev_CustomDomainsEnabled e && profilesEnabled) (ev_CustomDomainsURL e).
Definition billStat_url (e : environment) (profilesEnabled : bool) := when profilesEnabled (ev_BillStatURL e).
Definition profiles_url (e : environment) (profilesEnabled : bool) := when profilesEnabled (ev_ProfilesURL e).

Definition allowlist_url (e : environment) : outcome (option URL) :=
  if bool_decide (ev_RateLimitAllowlistType e = rlAllowlistTypeBackend) then when true (ev_BackendRateLimitURL e)
  else when true (ev_ConsulAllowlistURL e).

Definition standardAccess_url (e : environment) : outcome (option URL) :=
  if bool_decide (ev_StandardAccessType e = standardAccessOff) then Ret None
  else if bool_decide (ev_StandardAccessType e = standardAccessBackend) then when true (ev_StandardAccessURL e)
  else Panic "env STANDARD_ACCESS_TYPE: %w: %q".

(** The default panics as well. *)
Definition ticketDB_url (e : environment) : outcome (option URL) :=
  if bool_decide (ev_SessionTicketType e = sessionTicketLocal) then Ret None
  else if bool_decide (ev_SessionTicketType e = sessionTicketRemote) then when true (ev_SessionTicketURL e)
  else Panic "env SESSION_TICKET_TYPE: %w: %q".

(** All of them, in the order of the start. *)
Definition startup_urls (e : environment) (profilesEnabled : bool) : list (outcome (option URL)) := [
  adultBlocking_url e; newRegDomains_url e; safeBrowsing_url e; filterIndexStorage_url e;
  blockedServices_url e; categoryFilter_url e;
  newSafeSearchConfig_url (ev_GeneralSafeSearchURL e) (ev_GeneralSafeSearchEnabled e);
  newSafeSearchConfig_url (ev_YoutubeSafeSearchURL e) (ev_YoutubeSafeSearchEnabled e);
  standardAccess_url e; ticketDB_url e; customDomains_url e profilesEnabled;
  billStat_url e profilesEnabled; profiles_url e profilesEnabled; allowlist_url e].

(** [errors.Check] of both validations. *)
Definition checked (e : environment) (profilesEnabled : bool) : Prop :=
  environment_Validate e = None /\ validateProfilesConf e profilesEnabled = None.

End environment.

(** * Facts *)

Section facts.
Context `{V : Validators} `{!ValidatorsSpec} `{E : EnvChecks} `{!EnvChecksSpec} `{U : UnicodeCase}.

Lemma when_total b u : (b = true -> is_Some u) -> exists x, when b u = Ret x.
Proof. unfold when. destruct b; [|by eauto]. intros Hu. destruct (Hu eq_refl) as [u' ->]. simpl. eauto. Qed.

Lemma required_errs_present (validate : option URL -> option error) urls : validate None <> None ->
  Forall (fun err => err = None) (required_errs validate urls) -> Forall (fun x : option URL * bool => x.2 = true -> is_Some x.1) urls.
Proof.
  intros Hn Hv. unfold required_errs in Hv. rewrite Forall_None_fmap in Hv. eapply Forall_impl; [exact Hv|].
  intros [u b] Hx Hb. simpl in *. subst b. simpl in Hx. apply wrap_opt_None in Hx. destruct u; [by eexists|done].
Qed.

Lemma grpc_errs_present name u : grpc_errs name u = None -> is_Some u.
Proof. unfold grpc_errs. destruct u; [by eexists|]. destruct (v_NotNil _ _) eqn:Ev; [done|]. by rewrite not_nil_ok in Ev. Qed.

Lemma grpc_present u : ValidateGRPCURL u = None -> is_Some u.
Proof. destruct u; [by eexists|]. intros Hn. by destruct grpc_not_nil. Qed.

(** The lifetime or the size that the store supports. *)
Definition kv_ok (kv : kvStore) : Prop :=
  match kv with
  | KVBackend _ _ ttl _ => 0 < ttl
  | KVCache count => 0 < count <= MaxInt
  | KVConsul _ _ ttl _ => consulMinTTL <= ttl <= consulMaxTTL
  | KVEmpty _ => True
  | KVRedis ttl _ => redisMinTTL <= ttl
  end.

Lemma newRemoteKV_total e : Forall (fun err => err = None) (validateDNSCheck e) -> exists kv, newRemoteKV e = Ret kv /\ kv_ok kv.
Proof.
  unfold validateDNSCheck, newRemoteKV, validateBackendKV, validateCache. intros Hv.
  destruct (bool_decide (ev_DNSCheckKVType e = kvModeBackend)) eqn:E1; bool_simp.
  { valid_simp. destruct (grpc_present (ev_DNSCheckRemoteKVURL e)) as [u ->]; [done|]. simpl. rewrite E1. eexists. by split. }
  destruct (bool_decide (ev_DNSCheckKVType e = kvModeCache)) eqn:E2; bool_simp; [valid_simp; eexists; split; [done|]; simpl; lia|].
  destruct (bool_decide (ev_DNSCheckKVType e = kvModeConsul)) eqn:E3; bool_simp.
  { valid_simp. rewrite E3. simpl. destruct (ev_ConsulDNSCheckKVURL e), (ev_ConsulDNSCheckSessionURL e); eexists; by split. }
  destruct (bool_decide (ev_DNSCheckKVType e = kvModeRedis)) eqn:E4; bool_simp; valid_simp; [|done]. rewrite E4. eexists. by split.
Qed.

Lemma allowlist_total e : Forall (fun err => err = None) (validateRateLimit e) -> Forall (fun err => err = None) (validateRateLimitURLs e) ->
  exists u, allowlist_url e = Ret u.
Proof.
  unfold validateRateLimit, validateRateLimitURLs, allowlist_url. intros Hr [Hu _]%Forall_cons. apply wrap_opt_None in Hu.
  destruct (bool_decide (_ ∈ _)) eqn:Et; [|by apply Forall_cons in Hr as [? _]].
  bool_simp. repeat (apply elem_of_cons in Et as [Et|Et]; [rewrite Et in *|]); [..|by apply elem_of_nil in Et]; cbn in Hu |- *.
  - destruct (grpc_present _ Hu) as [u ->]. simpl. eauto.
  - destruct (ev_ConsulAllowlistURL e) as [u|]; simpl; [by eauto|]. by destruct http_not_nil.
Qed.

(** If the environment passes its validation, the start finds each URL that it
    needs, for the features that are on and the types that are chosen, and the store
    of DNS checks is made with a lifetime or a size that it supports: none of the
    pointers that the start dereferences is nil, and no type is unknown. *)
Theorem environment_complete e profilesEnabled : checked e profilesEnabled ->
  Forall (fun o => exists u, o = Ret u) (startup_urls e profilesEnabled) /\ exists kv, newRemoteKV e = Ret kv /\ kv_ok kv.
Proof.
  intros [Hv Hp]. unfold environment_Validate in Hv. valid_simp.
  split; [|by apply newRemoteKV_total].
  assert (profilesEnabled = true -> is_Some (ev_BillStatURL e) /\ is_Some (ev_ProfilesURL e)) as Hprof.
  { intros ->. unfold validateProfilesConf in Hp. cbn [negb] in Hp. valid_simp. match goal with Hx : Forall _ (validateProfilesURLs e) |- _ => apply required_errs_present in Hx end;
      [|apply grpc_not_nil]. valid_simp. auto. }
  match goal with Hx : Forall _ (validateHTTPURLs e) |- _ => apply required_errs_present in Hx end; [|apply http_not_nil]. valid_simp. cbn [fst snd] in *.
  repeat constructor; unfold adultBlocking_url, newRegDomains_url, safeBrowsing_url, blockedServices_url, newSafeSearchConfig_url;
    try (apply when_total; assumption).
  - apply when_total. intros Hb. unfold validateTyposquatting in *. rewrite Hb in *. cbn [negb] in *. valid_simp. by eapply grpc_errs_present.
  - apply when_total. intros Hb. unfold validateCategoryFilterIndex in *. rewrite Hb in *. cbn [negb] in *.
    destruct (ev_CategoryFilterIndexURL e); [by eexists|done].
  - unfold validateStandardAccess, standardAccess_url in *. destruct (bool_decide (_ = standardAccessOff)); [by eauto|].
    destruct (bool_decide (_ = standardAccessBackend)); valid_simp; [|done]. apply when_total. intros _. by eapply grpc_errs_present.
  - unfold validateSessionTickets, ticketDB_url in *. destruct (v_NotEmpty _ _); [by valid_simp|]. destruct (v_Positive _ _); [by valid_simp|].
    destruct (bool_decide (_ = sessionTicketLocal)); [by eauto|].
    destruct (bool_decide (_ = sessionTicketRemote)); valid_simp; [|done]. apply when_total. intros _. by eapply grpc_errs_present.
  - apply when_total. intros [Hb _]%andb_prop. unfold validateCustomDomains in *. rewrite Hb in *. cbn [negb] in *. valid_simp.
    by eapply grpc_errs_present.
  - apply when_total. naive_solver.
  - apply when_total. naive_solver.
  - by apply allowlist_total.
Qed.

End facts.

(** * An environment *)

#[local] Existing Instance ref_validators.
#[local] Existing Instance ref_validators_spec.
#[local] Existing Instance ref_unicode.

(** Only the directory [static] exists. *)
#[local] Instance ref_checks : EnvChecks := {|
  ValidateHTTPURL u := check_that (negb (is_nil_ptr u)); ValidateGRPCURL u := check_that (negb (is_nil_ptr u));
  IsValidHTTPURLScheme s := bool_decide (s = "https"%string); NewFormat _ := None; VerbosityToLevel v := check_that (v <=? 2);
  os_Stat p := if bool_decide (p = "static"%string) then Ok true else Err (ErrConst "no such file or directory");
  ratio_InRange _ v := check_that (v =? 0) |}.

#[local] Instance ref_checks_spec : EnvChecksSpec.
Proof. by split. Qed.

Definition some_url : URL := {| u_Scheme := "https"; u_Host := "backend.example"; u_Path := "/" |}.

(** Every feature is on; the directory of crash reports does not exist. *)
Definition some_env (staticEnabled : bool) (staticDir : string) : environment := {|
  ev_AdultBlockingURL := Some some_url; ev_BackendRateLimitURL := Some some_url; ev_BillStatURL := Some some_url;
  ev_BlockedServiceIndexURL := Some some_url; ev_CategoryFilterIndexURL := Some some_url; ev_ConsulAllowlistURL := Some some_url;
  ev_ConsulDNSCheckKVURL := Some some_url; ev_ConsulDNSCheckSessionURL := Some some_url; ev_CustomDomainsURL := Some some_url;
  ev_DNSCheckRemoteKVURL := Some some_url; ev_FilterIndexAPIURL := Some some_url; ev_FilterIndexURL := some_url;
  ev_GeneralSafeSearchURL := Some some_url; ev_LinkedIPTargetURL := Some some_url; ev_NewRegDomainsURL := Some some_url;
  ev_ProfilesURL := Some some_url; ev_RuleStatURL := Some some_url; ev_SafeBrowsingURL := Some some_url;
  ev_SessionTicketURL := Some some_url; ev_StandardAccessURL := Some some_url; ev_YoutubeSafeSearchURL := Some some_url;
  ev_ListenAddr := Addr4 2130706433; ev_BackendRateLimitAPIKey := "x"; ev_BillStatAPIKey := "x"; ev_ConfPath := "x";
  ev_CrashOutputDir := "missing"; ev_CrashOutputPrefix := "x"; ev_CustomDomainsAPIKey := "x"; ev_CustomDomainsCachePath := "x";
  ev_DNSCheckKVType := kvModeConsul; ev_DNSCheckRemoteKVAPIKey := "x"; ev_FilterCacheDir := "x"; ev_FilterIndexAPIKey := "x";
  ev_GeoIPASNPath := "x"; ev_GeoIPCountryPath := "x"; ev_LogFormat := "x"; ev_NodeName := "x"; ev_ProfilesAPIKey := "x";
  ev_ProfilesCachePath := "x"; ev_QueryLogPath := "x"; ev_RateLimitAllowlistType := rlAllowlistTypeConsul; ev_RedisKeyPrefix := "x";
  ev_SSLKeyLogFile := "x"; ev_SentryDSN := "x"; ev_SessionTicketAPIKey := "x"; ev_SessionTicketCachePath := "x";
  ev_SessionTicketIndexName := "x"; ev_SessionTicketType := sessionTicketRemote; ev_StandardAccessAPIKey := "x";
  ev_StandardAccessType := standardAccessBackend; ev_ProfilesCacheType := profileCacheTypeOpaque; ev_WebStaticDir := staticDir;
  ev_ProfilesMaxRespSize := 20 * 1000000000; ev_ProfilesAPIRespMaxInvalidRatio := 0; ev_CustomDomainsRefreshIvl := 20 * 1000000000;
  ev_DNSCheckKVTTL := 20 * 1000000000; ev_FilterIndexAPIRefreshIvl := 20 * 1000000000; ev_FilterRefreshIvl := 20 * 1000000000;
  ev_ProfilesCacheIvl := 20 * 1000000000; ev_SessionTicketRefreshIvl := 20 * 1000000000; ev_StandardAccessRefreshIvl := 20 * 1000000000;
  ev_StandardAccessTimeout := 20 * 1000000000; ev_BlockProfileRateDenominator := 0; ev_DNSCheckCacheKVSize := 20 * 1000000000;
  ev_TyposquattingCacheCount := 20 * 1000000000; ev_MaxThreads := 0; ev_MutexProfileRateDenominator := 0;
  ev_QueryLogSemaphoreLimit := 20 * 1000000000; ev_ListenPort := 8181; ev_Verbosity := 0; ev_AdultBlockingEnabled := true;
  ev_BlockedServiceEnabled := true; ev_CategoryFilterEnabled := true; ev_CrashOutputEnabled := true; ev_CustomDomainsEnabled := true;
  ev_GeneralSafeSearchEnabled := true; ev_LogTimestamp := true; ev_NewRegDomainsEnabled := true; ev_QueryLogSemaphoreEnabled := true;
  ev_SafeBrowsingEnabled := true; ev_TyposquattingEnabled := true; ev_YoutubeSafeSearchEnabled := true;
  ev_WebStaticDirEnabled := staticEnabled |}.

Example environment_complete_witness : checked (some_env true "static") true /\
  Forall (fun o => exists u, o = Ret u) (startup_urls (some_env true "static") true) /\
  exists kv, newRemoteKV (some_env true "static") = Ret kv /\ kv_ok kv.
Proof.
  assert (checked (some_env true "static") true) as Hc by (split; vm_compute; reflexivity).
  split; [exact Hc|]. exact (environment_complete _ _ Hc).
Defined.

(** The validation of the crash output looks at the directory of the static content
    instead of its own: a missing directory of crash reports is accepted, and with
    static content off a path that nothing uses is refused. *)
Theorem crash_dir_not_checked :
  environment_Validate (some_env false EmptyString) = None /\
  is_ok (os_Stat (ev_CrashOutputDir (some_env false EmptyString))) = false /\
  environment_Validate (some_env false "unused") <> None.
Proof. split_and!; [vm_compute; reflexivity..|]. vm_compute. discriminate. Qed.
