(* ===== verification/DebugSvc.v ===== *)
(** The debug service: internal/debugsvc (cache.go, refresh.go, geoip.go, route.go,
    debugsvc.go) and the manager of named caches of internal/agdcache/manager.go.

    The manager holds references to caches, so that a cache may be under several
    names; the contents of the caches are a store.  JSON, the dispatch of requests to
    handlers and the servers themselves are not modelled. *)

From S2P Require Import Prelude GoStd Utf8 NetIP Access Http Config.

Open Scope Z_scope.

(** * [path.Match]

    A star matches bytes other than a slash, a question mark one rune other than a
    slash, a class one rune. *)

Inductive pattern_item :=
  | PStar
  | PAny
  | PClass (negated : bool) (ranges : list (Z * Z))
  | PByte (c : ascii).

Definition is_byte (s : string) (c : ascii) : bool := bool_decide (String c EmptyString = s).

(** A rune of a class, which may be escaped, and what follows; something must. *)
Definition getEsc (chunk : list ascii) : option (Z * list ascii) :=
  match chunk with
  | [] => None
  | c :: rest =>
      if is_byte "-" c || is_byte "]" c then None
      else
        chunk ← (if is_byte "\" c then match rest with [] => None | _ => Some rest end else Some chunk);
        let '(r, n) := DecodeRune chunk in
        if (r =? 65533) && (n =? 1)%nat then None
        else match drop n chunk with [] => None | rest => Some (r, rest) end
  end.

Fixpoint parse_class (fuel : nat) (ranges : list (Z * Z)) (chunk : list ascii) : option (list (Z * Z) * list ascii) :=
  match fuel with
  | O => None
  | S fuel =>
      match chunk, ranges with
      | c :: rest, _ :: _ => if is_byte "]" c then Some (rev ranges, rest) else None
      | _, _ => None
      end ∪
      ('(lo, rest) ← getEsc chunk;
       '(hi, rest) ← (match rest with
                      | c :: rest' => if is_byte "-" c then getEsc rest' else Some (lo, rest)
                      | [] => Some (lo, rest)
                      end);
       parse_class fuel ((lo, hi) :: ranges) rest)
  end.

(** [None] is a bad pattern. *)
Fixpoint parse_pattern (fuel : nat) (p : list ascii) : option (list pattern_item) :=
  match fuel, p with
  | _, [] => Some []
  | O, _ => None
  | S fuel, c :: p =>
      if is_byte "*" c then cons PStar <$> parse_pattern fuel p
      else if is_byte "?" c then cons PAny <$> parse_pattern fuel p
      else if is_byte "\" c then
        match p with [] => None | c :: p => cons (PByte c) <$> parse_pattern fuel p end
      else if is_byte "[" c then
        let '(negated, p) := match p with c :: p' => if is_byte "^" c then (true, p') else (false, p) | [] => (false, p) end in
        '(ranges, p) ← parse_class (S (length p)) [] p;
        cons (PClass negated ranges) <$> parse_pattern fuel p
      else cons (PByte c) <$> parse_pattern fuel p
  end.

Definition is_slash (c : ascii) : bool := is_byte "/" c.

Fixpoint match_items (ps : list pattern_item) (s : list ascii) : bool :=
  match ps with
  | [] => match s with [] => true | _ => false end
  | PStar :: ps =>
      (fix star (s : list ascii) : bool :=
         match_items ps s || match s with [] => false | c :: s => negb (is_slash c) && star s end) s
  | PAny :: ps => match s with [] => false | c :: _ => negb (is_slash c) && match_items ps (drop (DecodeRune s).2 s) end
  | PClass negated ranges :: ps =>
      match s with
      | [] => false
      | _ =>
          let '(r, n) := DecodeRune s in
          negb (Bool.eqb (existsb (fun x => (x.1 <=? r) && (r <=? x.2)) ranges) negated) && match_items ps (drop n s)
      end
  | PByte c :: ps => match s with [] => false | c' :: s => bool_decide (c = c') && match_items ps s end
  end.

Definition path_Match (pattern name : string) : option bool :=
  let p := bytes pattern in (fun items => match_items items (bytes name)) <$> parse_pattern (length p) p.

(** * agdcache: manager.go *)

Section manager.
(** What is in a cache. *)
Context {C : Type} (empty : C).

Record DefaultManager := { dm_caches : gmap string nat; dm_store : gmap nat C }.

Definition dm_Add (m : DefaultManager) (id : string) (cache : nat) : DefaultManager :=
  {| dm_caches := <[id := cache]> (dm_caches m); dm_store := dm_store m |}.

Definition findByID (m : DefaultManager) (id : string) : option nat := dm_caches m !! id.

Definition ClearByID (m : DefaultManager) (id : string) : DefaultManager :=
  match findByID m id with
  | None => m
  | Some p => {| dm_caches := dm_caches m; dm_store := alter (fun _ => empty) p (dm_store m) |}
  end.

Definition IDs (m : DefaultManager) : list string := merge_sort path_le (map fst (map_to_list (dm_caches m))).

(** * refresh.go and cache.go *)

Definition wildcard : string := "*".

Definition isWildcard (patterns : list string) : result error bool :=
  match patterns with
  | [] => Err (ErrConst "no ids")
  | [p] => Ok (bool_decide (p = wildcard))
  | _ => if bool_decide (wildcard ∈ patterns) then Err (ErrConst "* cannot be used with other ids") else Ok false
  end.

(** An error of a pattern is not looked at. *)
Definition pattern_matches (pattern id : string) : bool := default false (path_Match pattern id).

Definition matchPatterns (ids patterns : list string) : list string :=
  mjoin ((fun pattern => filter (fun id => pattern_matches pattern id = true) ids) <$> patterns).

Definition idsFromReq (ids patterns : list string) : result error (list string) :=
  let? ok := isWildcard patterns in Ok (if ok then ids else matchPatterns ids patterns).

(** [error] as text, and the encoding of the results. *)
Context (Error_String : error -> string) (encode : gmap string string -> string).

Definition StatusBadRequest : Z := 400.

Definition respond (w : ResponseWriter) (results : gmap string string) : ResponseWriter :=
  Write (set_rw_Header w (hdr_Set (rw_Header w) ContentType HdrValApplicationJSON)) (encode results).

(** The body is decoded, or an error. *)
Definition cache_ServeHTTP (m : DefaultManager) (w : ResponseWriter) (body : result error (list string)) : ResponseWriter * DefaultManager :=
  match (let? patterns := body in idsFromReq (IDs m) patterns) with
  | Err err => (http_Error w (Error_String err) StatusBadRequest, m)
  | Ok reqIDs => (respond w (list_to_map ((fun id => (id, "ok"%string)) <$> reqIDs)), foldl ClearByID m reqIDs)
  end.

(** Refreshers change the state [W] of the program; their identifiers come in the
    order of the map. *)
Context {W : Type} (refrs : gmap string (W -> option error * W)).

Definition refresh (st : W) (id : string) : string * W :=
  match refrs !! id with
  | None => ("error: refresher not found"%string, st)
  | Some r => let '(err, st) := r st in (match err with Some err => ("error: " +:+ Error_String err)%string | None => "ok"%string end, st)
  end.

Fixpoint refresh_all (st : W) (results : gmap string string) (ids : list string) : gmap string string * W :=
  match ids with
  | [] => (results, st)
  | id :: ids => let '(res, st) := refresh st id in refresh_all st (<[id := res]> results) ids
  end.

Definition refresh_ServeHTTP (w : ResponseWriter) (body : result error (list string)) (ids : list string) (st : W) : ResponseWriter * W :=
  match (let? patterns := body in idsFromReq ids patterns) with
  | Err err => (http_Error w (Error_String err) StatusBadRequest, st)
  | Ok reqIDs => let '(results, st) := refresh_all st ∅ reqIDs in (respond w results, st)
  end.

End manager.
Arguments DefaultManager : clear implicits.

(** * geoip.go *)

Section geoip.
Context {G : Type} (geo_Data : G -> Addr -> outcome (result error (option GeoLocation) * G))
  (geo_SubnetByLocation : G -> GeoLocation -> Z -> outcome (result error Prefix * GeoLocation * G)).

Record replacementSubnets := { rs_IPv4 : option Prefix; rs_IPv6 : option Prefix }.

Record geoIPResult := {
  gr_Error : option error;
  gr_ReplacementSubnets : option replacementSubnets;
  gr_Country : string;
  gr_Continent : string;
  gr_TopSubdivision : string;
  gr_ASN : Z;
}.

Definition isUnspecifiedPrefix (p : Prefix) : bool :=
  bool_decide (p_ip p = AddrZero) || bool_decide (p_ip p = Addr4 0) || bool_decide (p_ip p = Addr6 0 EmptyString).

Definition AddrFamilyIPv4 : Z := 1.
Definition AddrFamilyIPv6 : Z := 28.

Definition querySubnets (g : G) (loc : GeoLocation) : outcome (result error (option replacementSubnets) * GeoLocation * G) :=
  let! r4 := geo_SubnetByLocation g loc AddrFamilyIPv4 in
  let! r6 := geo_SubnetByLocation r4.2 r4.1.2 AddrFamilyIPv6 in
  let err_of (r : result error Prefix) := match r with Err err => [err] | Ok _ => [] end in
  Ret (match r4.1.1, r6.1.1 with
       | Ok p4, Ok p6 =>
           let keep p := if isUnspecifiedPrefix p then None else Some p in
           if isUnspecifiedPrefix p4 && isUnspecifiedPrefix p6 then Ok None else Ok (Some {| rs_IPv4 := keep p4; rs_IPv6 := keep p6 |})
       | a, b => Err (ErrWrap "querying subnets: %w" (ErrJoin (err_of a ++ err_of b)))
       end, r6.1.2, r6.2).

Definition failed (err : error) : geoIPResult := {|
  gr_Error := Some err; gr_ReplacementSubnets := None; gr_Country := EmptyString; gr_Continent := EmptyString;
  gr_TopSubdivision := EmptyString; gr_ASN := 0 |}.

Definition queryAddr (g : G) (addr : Addr) : outcome (geoIPResult * G) :=
  let! r := geo_Data g addr in
  match r.1 with
  | Err err => Ret (failed err, r.2)
  | Ok None => Panic "nil pointer dereference"
  | Ok (Some loc) =>
      let! s := querySubnets r.2 loc in
      match s.1.1 with
      | Err err => Ret (failed err, s.2)
      | Ok subnets =>
          let loc := s.1.2 in
          Ret ({| gr_Error := None; gr_ReplacementSubnets := subnets; gr_Country := Country loc; gr_Continent := Continent loc;
                  gr_TopSubdivision := TopSubdivision loc; gr_ASN := ASN loc |}, s.2)
      end
  end.

(** [netip.ParseAddr], and the encoding of the results. *)
Context (ParseAddr : string -> result error Addr) (Error_String : error -> string) (encode : list (Addr * geoIPResult) -> string).

Fixpoint parse_ips (ipStrs : list string) : list error * list Addr :=
  match ipStrs with
  | [] => ([], [])
  | s :: l =>
      let '(errs, ips) := parse_ips l in
      match ParseAddr s with
      | Err err => (ErrWrap "parsing ip address from query at index %d: %w" err :: errs, ips)
      | Ok addr => (errs, addr :: ips)
      end
  end.

Fixpoint query_all (g : G) (ips : list Addr) : outcome (list (Addr * geoIPResult) * G) :=
  match ips with
  | [] => Ret ([], g)
  | addr :: ips =>
      let! r := queryAddr g addr in
      let! rs := query_all r.2 ips in
      Ret ((addr, r.1) :: rs.1, rs.2)
  end.

(** [query] are the values of the parameter [ip]. *)
Definition geoip_ServeHTTP (g : G) (w : ResponseWriter) (query : list string) : outcome (ResponseWriter * G) :=
  let '(errs, ips) := parse_ips query in
  match Join errs with
  | Some err => Ret (http_Error w (Error_String err) StatusBadRequest, g)
  | None =>
      let! r := query_all g ips in
      Ret (Write (set_rw_Header w (hdr_Set (rw_Header w) ContentType HdrValApplicationJSON)) (encode r.1), r.2)
  end.
End geoip.

(** * debugsvc.go and route.go *)

Definition HandlerGroupAPI : string := "api".
Definition HandlerGroupDNSDB : string := "dnsdb".
Definition HandlerGroupPprof : string := "pprof".
Definition HandlerGroupPrometheus : string := "prometheus".

(** The patterns that a group adds to the mux; the ones of pprof are those of a
    library. *)
Definition route (pprof : list string) (gr : string) : list string :=
  if bool_decide (gr = HandlerGroupAPI) then
    ["GET /health-check"; "POST /debug/api/refresh"; "POST /debug/api/cache/clear"; "GET /debug/api/geoip"; "POST /debug/panic"]%string
  else if bool_decide (gr = HandlerGroupDNSDB) then ["POST /dnsdb/csv"]%string
  else if bool_decide (gr = HandlerGroupPrometheus) then ["GET /metrics"]%string
  else if bool_decide (gr = HandlerGroupPprof) then pprof
  else [].

Record debugAddrs := { da_API : AddrPort; da_DNSDB : AddrPort; da_Pprof : AddrPort; da_Prometheus : AddrPort }.

Definition debug_groups (c : debugAddrs) : list (AddrPort * string) := [
  (da_API c, HandlerGroupAPI); (da_DNSDB c, HandlerGroupDNSDB); (da_Pprof c, HandlerGroupPprof); (da_Prometheus c, HandlerGroupPrometheus)].

(** The groups of each address, in the order of the addresses. *)
Fixpoint add_group (servers : list (AddrPort * list string)) (addr : AddrPort) (gr : string) : list (AddrPort * list string) :=
  match servers with
  | [] => [(addr, [gr])]
  | (a, grs) :: servers => if bool_decide (a = addr) then (a, grs ++ [gr]) :: servers else (a, grs) :: add_group servers addr gr
  end.

Definition setupGroups (groups : list (AddrPort * string)) : list (AddrPort * list string) :=
  foldl (fun servers g => if addrPort_zero g.1 then servers else add_group servers g.1 g.2) [] groups.

(** The name of a server and its routes. *)
Definition initServer (pprof : list string) (grs : list string) : string * list string :=
  (foldl (fun name gr => if is_empty name then gr else (name +:+ ";" +:+ gr)%string) EmptyString grs, mjoin (route pprof <$> grs)).

(** * Facts *)

Example path_Match_examples :
  path_Match "filters/*" "filters/storage" = Some true /\ path_Match "*" "filters/storage" = Some false /\
  path_Match "filters/[a-s]?orage" "filters/storage" = Some true /\ path_Match "fil[^t]ers" "filters" = Some false /\
  path_Match "[" "[" = None /\ path_Match "\[" "[" = Some true.
Proof. vm_compute. split_and!; reflexivity. Qed.

(** A request selects an identifier if it is for all of them, or by a pattern. *)
Definition selects (patterns : list string) (id : string) : Prop :=
  patterns = [wildcard] \/ exists p, p ∈ patterns /\ pattern_matches p id = true.

Lemma elem_of_matchPatterns ids patterns id :
  id ∈ matchPatterns ids patterns <-> id ∈ ids /\ exists p, p ∈ patterns /\ pattern_matches p id = true.
Proof.
  unfold matchPatterns. rewrite list_elem_of_join. setoid_rewrite list_elem_of_fmap. split.
  - intros (l & Hin & p & -> & Hp). apply list_elem_of_filter in Hin as [? ?]. eauto.
  - intros (Hin & p & Hp & Hm). eexists. split; [|by exists p]. by apply list_elem_of_filter.
Qed.

Lemma idsFromReq_selects ids patterns l : idsFromReq ids patterns = Ok l -> forall id, id ∈ l <-> id ∈ ids /\ selects patterns id.
Proof.
  unfold idsFromReq. destruct (isWildcard patterns) as [b|] eqn:Ew; simpl; [|done]. intros [= <-] id. unfold selects.
  destruct patterns as [|p [|p' ps]]; simpl in Ew; [done| |].
  - injection Ew as <-. case_bool_decide as Hp.
    + subst p. split; [|by intros []]. auto.
    + rewrite elem_of_matchPatterns. split; [naive_solver|]. intros (? & [[= ->]|?]); done.
  - destruct (bool_decide _) in Ew; [done|]. injection Ew as <-. rewrite elem_of_matchPatterns. naive_solver.
Qed.

Section cache_facts.
Context {C : Type} (empty : C) (Error_String : error -> string) (encode : gmap string string -> string).

Lemma clear_all_store ids (m : DefaultManager C) :
  dm_caches (foldl (ClearByID empty) m ids) = dm_caches m /\
  forall p, dm_store (foldl (ClearByID empty) m ids) !! p =
    (if bool_decide (Exists (fun id => dm_caches m !! id = Some p) ids) then fun _ => empty else fun c => c) <$> dm_store m !! p.
Proof.
  revert m. induction ids as [|id ids IH]; intros m; simpl.
  { split; [done|]. intros p. by destruct (dm_store m !! p). }
  destruct (IH (ClearByID empty m id)) as [Ec Es].
  assert (dm_caches (ClearByID empty m id) = dm_caches m) as Em by (unfold ClearByID; by destruct (findByID m id)).
  rewrite Em in *. split; [done|]. intros p. rewrite Es. unfold ClearByID, findByID.
  destruct (dm_caches m !! id) as [q|] eqn:Eq; simpl.
  - destruct (decide (p = q)) as [->|Hne].
    + rewrite lookup_alter_eq. rewrite (bool_decide_eq_true_2 (Exists _ (id :: ids))) by (by left).
      destruct (dm_store m !! q); simpl; [|done]. by case_bool_decide.
    + rewrite lookup_alter_ne by done. f_equal. erewrite (bool_decide_ext _ (Exists _ (id :: ids))); [done|].
      rewrite Exists_cons. split; [by auto|]. intros [[= ?]|?]; [congruence|done].
  - f_equal. erewrite (bool_decide_ext _ (Exists _ (id :: ids))); [done|]. rewrite Exists_cons. split; [by auto|].
    intros [?|?]; [congruence|done].
Qed.

(** A request to clear caches empties exactly the caches that it selects by one of
    their names, reports each of these names, and leaves every other cache as it is;
    a bad request changes nothing. *)
Theorem caches_cleared (m : DefaultManager C) w patterns :
  let m' := (cache_ServeHTTP empty Error_String encode m w (Ok patterns)).2 in
  match isWildcard patterns with
  | Err _ => m' = m
  | Ok _ =>
      dm_caches m' = dm_caches m /\
      (forall id p, dm_caches m !! id = Some p -> selects patterns id -> dm_store m' !! p = (fun _ => empty) <$> dm_store m !! p) /\
      (forall p, (forall id, dm_caches m !! id = Some p -> ~ selects patterns id) -> dm_store m' !! p = dm_store m !! p)
  end.
Proof.
  unfold cache_ServeHTTP. cbn [result_bind].
  destruct (isWildcard patterns) as [b|] eqn:Ew; [|unfold idsFromReq; by rewrite Ew].
  destruct (idsFromReq (IDs m) patterns) as [ids|] eqn:Ei; [|unfold idsFromReq in Ei; by rewrite Ew in Ei].
  simpl. destruct (clear_all_store ids m) as [Ec Es]. split; [done|].
  assert (forall id p, dm_caches m !! id = Some p -> id ∈ IDs m) as Hids.
  { intros id p Hp. unfold IDs. rewrite merge_sort_Permutation. apply list_elem_of_fmap. exists (id, p). split; [done|]. by apply elem_of_map_to_list. }
  split.
  - intros id p Hp Hs. rewrite Es. rewrite bool_decide_eq_true_2; [done|]. apply Exists_exists. exists id. split; [|done].
    apply (idsFromReq_selects _ _ _ Ei). eauto.
  - intros p Hno. rewrite Es. rewrite bool_decide_eq_false_2; [by destruct (dm_store m !! p)|]. intros (id & Hid & Hp)%Exists_exists.
    apply (idsFromReq_selects _ _ _ Ei) in Hid as [_ Hs]. by apply (Hno id).
Qed.
End cache_facts.
