(* ===== verification/ErrColl.v ===== *)
(** Error collection: internal/errcoll (errcoll.go, sentry.go, writer.go), with the
    error types of the program that say whether they are to be reported
    (error.go of internal/dnsmsg, internal/profiledb, internal/remotekv/consulkv,
    internal/dnssvc/internal/devicefinder and mainmw) or that are told apart here
    (internal/dnsserver/error.go, internal/dnsserver/forward/error.go).

    Elsewhere an error is its constants and formats; here it has its dynamic type,
    for [errors.As].  What is sent to Sentry is a list of events. *)

From S2P Require Import Prelude GoStd Utf8 NetIP Filter Access Agd DnsCheck.

Open Scope Z_scope.

(** ** Errors with their types *)

(** The errors of quic-go that the code looks for. *)
Inductive quicError :=
  | StreamError (Remote : bool)
  | IdleTimeoutError
  | ApplicationError (ErrorCode : Z).

(** An error value that is not of a type of the program: its text, the constants
    that it is equal to or that its method [Is] accepts, the result of [Timeout]
    if it is a [net.Error], and whether it is an error of quic-go. *)
Record foreign := {
  fo_text : string;
  fo_is : list string;
  fo_net : option bool;
  fo_quic : option quicError;
}.

(** A foreign error has the errors that it wraps: one for [fmt.Errorf], several
    for [errors.Join]. *)
Inductive gerr :=
  | Foreign (f : foreign) (inner : list gerr)
  | forward_Error (err : gerr) (main fallback : option string)
  | WriteError (err : gerr) (protocol : string)
  | httpError (err : gerr)
  | afterFilteringError (err : gerr)
  | deviceDataError (err : gerr) (typ : string)
  | BadECSError (err : gerr)
  | QuotaExceededError (msg : string).

(** An upstream as [fmt] prints it. *)
Definition ups_text (u : option string) : string := default "%!s(<nil>)" u.

(** The methods [Error]. *)
Fixpoint err_text (e : gerr) : string :=
  match e with
  | Foreign f _ => fo_text f
  | forward_Error err main None => "forwarding to " +:+ ups_text main +:+ ": " +:+ err_text err
  | forward_Error err None (Some fb) => "forwarding to fallback " +:+ fb +:+ ": " +:+ err_text err
  | forward_Error err (Some main) (Some fb) =>
      "forwarding to " +:+ main +:+ " with fallback " +:+ fb +:+ ": " +:+ err_text err
  | WriteError err protocol => protocol +:+ ": writing message: " +:+ err_text err
  | httpError err => err_text err
  | afterFilteringError err => "after filtering: " +:+ err_text err
  | deviceDataError err typ => typ +:+ " device id check: " +:+ err_text err
  | BadECSError err => "bad ecs: " +:+ err_text err
  | QuotaExceededError msg => msg
  end.

(** The methods [Unwrap]. *)
Definition unwrap_all (e : gerr) : list gerr :=
  match e with
  | Foreign _ inner => inner
  | forward_Error err _ _ | WriteError err _ | httpError err | afterFilteringError err
  | deviceDataError err _ | BadECSError err => [err]
  | QuotaExceededError _ => []
  end.

(** [errors.Is]. *)
Fixpoint g_Is (target : string) (e : gerr) : bool :=
  match e with
  | Foreign f inner => bool_decide (target ∈ fo_is f) || existsb (g_Is target) inner
  | forward_Error err _ _ | WriteError err _ | httpError err | afterFilteringError err
  | deviceDataError err _ | BadECSError err => g_Is target err
  | QuotaExceededError _ => false
  end.

Fixpoint first_some {A B} (f : A -> option B) (l : list A) : option B :=
  match l with
  | [] => None
  | x :: l => match f x with Some b => Some b | None => first_some f l end
  end.

(** [errors.As]: the first error of the tree, in pre-order, that has the type that
    [view] recognises. *)
Fixpoint g_As {A} (view : gerr -> option A) (e : gerr) : option A :=
  match view e with
  | Some a => Some a
  | None =>
      match e with
      | Foreign _ inner => first_some (g_As view) inner
      | forward_Error err _ _ | WriteError err _ | httpError err | afterFilteringError err
      | deviceDataError err _ | BadECSError err => g_As view err
      | QuotaExceededError _ => None
      end
  end.

Definition context_Canceled : string := "context canceled".
Definition context_Deadline : string := "context deadline exceeded".
Definition consul_RateLimited : string := "rate limited".

(** The types that are [SentryReportableError]s, with what [IsSentryReportable]
    returns. *)
Definition as_sentry (e : gerr) : option bool :=
  match e with
  | httpError err =>
      Some (negb (g_Is consul_RateLimited err) && negb (g_Is context_Canceled err) && negb (g_Is context_Deadline err))
  | afterFilteringError err => Some (negb (g_Is context_Deadline err) && negb (g_Is context_Canceled err))
  | deviceDataError _ _ | BadECSError _ | QuotaExceededError _ => Some false
  | _ => None
  end.

Definition as_forward (e : gerr) : option gerr :=
  match e with forward_Error err _ _ => Some err | _ => None end.

Definition as_write (e : gerr) : option (gerr * string) :=
  match e with WriteError err p => Some (err, p) | _ => None end.

Definition as_net (e : gerr) : option bool := match e with Foreign f _ => fo_net f | _ => None end.

Definition as_quic {A} (pick : quicError -> option A) (e : gerr) : option A :=
  match e with Foreign f _ => fo_quic f ≫= pick | _ => None end.

Definition as_stream (q : quicError) : option bool := match q with StreamError r => Some r | _ => None end.
Definition as_idle (q : quicError) : option unit := match q with IdleTimeoutError => Some tt | _ => None end.
Definition as_app (q : quicError) : option Z := match q with ApplicationError c => Some c | _ => None end.

(** ** sentry.go: which errors are reported *)

Definition connectionBreaks : list string :=
  ["io.EOF"; "net.ErrClosed"; "os.ErrDeadlineExceeded"; "unix.ECONNREFUSED"; "unix.ECONNRESET";
   "unix.EHOSTUNREACH"; "unix.ENETUNREACH"; "unix.EPIPE"; "unix.ETIMEDOUT"].

Definition isConnectionBreak (err : gerr) : bool := existsb (fun t => g_Is t err) connectionBreaks.

Definition isReportableNetwork (err : gerr) : bool :=
  if isConnectionBreak err then false
  else match g_As as_net err with Some timeout => negb timeout | None => false end.

Definition isReportableWriteQUIC (err : gerr) : bool :=
  if isConnectionBreak err then false
  else if bool_decide (g_As as_net err = Some true) then false
  else if g_Is "quic.ErrServerClosed" err then false
  else match g_As (as_quic as_stream) err with
  | Some remote => negb remote
  | None =>
      if bool_decide (g_As (as_quic as_idle) err = Some tt) then false
      else if bool_decide (g_As (as_quic as_app) err = Some 0) then false
      else true
  end.

Definition isReportableWriteTCP (err : gerr) : bool :=
  if isConnectionBreak err then false
  else
    let errStr := err_text err in
    negb (Contains errStr "bad record MAC") && negb (Contains errStr "protocol version not supported")
    && negb (Contains errStr "local error: tls: record overflow").

Definition isReportableWriteUDP (err : gerr) : bool :=
  negb (existsb (fun t => g_Is t err) ["io.EOF"; "net.ErrClosed"; "os.ErrDeadlineExceeded"; "unix.ENETUNREACH"]).

Definition isReportable (err : gerr) : bool :=
  match g_As as_sentry err with
  | Some reportable => reportable
  | None =>
      match g_As as_forward err with
      | Some fwdErr => isReportableNetwork fwdErr
      | None =>
          match g_As as_write err with
          | Some (wErr, p) =>
              if bool_decide (p = "quic") then isReportableWriteQUIC wErr
              else if bool_decide (p = "tcp") then isReportableWriteTCP wErr
              else if bool_decide (p = "udp") then isReportableWriteUDP wErr
              else true
          | None => true
          end
      end
  end.

(** ** sentry.go: tags *)

(** [strconv.QuoteToASCII]. *)
Definition hex_of (digits : nat) (r : Z) : list ascii :=
  map (fun k => ip_hex_digit (Z.land (Z.shiftr r (4 * Z.of_nat k)) 15)) (rev (seq 0 digits)).

Definition appendEscapedRune (r : Z) : list ascii :=
  if (r =? 34) || (r =? 92) then ["\"%char; byte_of r]
  else if (32 <=? r) && (r <? 127) then [byte_of r]
  else if r =? 7 then bytes "\a"
  else if r =? 8 then bytes "\b"
  else if r =? 12 then bytes "\f"
  else if r =? 10 then bytes "\n"
  else if r =? 13 then bytes "\r"
  else if r =? 9 then bytes "\t"
  else if r =? 11 then bytes "\v"
  else if (r <? 32) || (r =? 127) then bytes "\x" ++ hex_of 2 r
  else if (1114111 <? r) || ((55296 <=? r) && (r <=? 57343)) then bytes "\u" ++ hex_of 4 RuneError
  else if r <? 65536 then bytes "\u" ++ hex_of 4 r
  else bytes "\U" ++ hex_of 8 r.

Fixpoint quote_body (fuel : nat) (s : list ascii) : list ascii :=
  match fuel, s with
  | S fuel, c :: _ =>
      let '(r, width) := DecodeRune s in
      (if (r =? RuneError) && (width =? 1)%nat then bytes "\x" ++ hex_of 2 (bval c) else appendEscapedRune r)
      ++ quote_body fuel (drop width s)
  | _, _ => []
  end.

Definition QuoteToASCII (s : string) : list ascii :=
  let quote := byte_of 34 in quote :: quote_body (String.length s) (bytes s) ++ [quote].

Definition toASCII (s : string) : string :=
  let ascii := QuoteToASCII s in
  let ascii := drop 1 (take (length ascii - 1) ascii) in
  if bool_decide (ascii = []) then "(empty)" else of_bytes ascii.

(** [url.URL] with its escaped path. *)
Record ctxURL := {
  cu_Scheme : string;
  cu_Opaque : string;
  cu_EscapedPath : string;
  cu_ForceQuery : bool;
  cu_RawQuery : string;
}.

(** [url.URL.RequestURI]. *)
Definition RequestURI (u : ctxURL) : string :=
  let result :=
    if bool_decide (cu_Opaque u = EmptyString) then
      if bool_decide (cu_EscapedPath u = EmptyString) then "/" else cu_EscapedPath u
    else if HasPrefix (cu_Opaque u) "//" then cu_Scheme u +:+ ":" +:+ cu_Opaque u
    else cu_Opaque u in
  if cu_ForceQuery u || bool_decide (cu_RawQuery u <> EmptyString) then result +:+ "?" +:+ cu_RawQuery u else result.

(** [dnsserver.ServerInfo], and what is used of [dnsserver.RequestInfo]. *)
Record ServerInfo := { si_Name : string; si_Addr : string; si_Proto : Z }.
Record srvRequestInfo := { sri_TLS_ServerName : option string; sri_URL : option ctxURL }.

(** The values that a context carries. *)
Record err_ctx := {
  ctx_ri : option RequestInfo;
  ctx_reqID : option string;
  ctx_si : option ServerInfo;
  ctx_srvReq : option srvRequestInfo;
}.

Section tags.
(** The revision that is compiled in. *)
Variable Revision : string.

Definition tagsFromCtx (ctx : err_ctx) : gmap string string :=
  let tags := {["git_revision" := Revision]} in
  let tags :=
    match ctx_ri ctx with
    | Some ri =>
        let tags := <["filtering_group_id" := fg_ID (ri_FilteringGroup ri)]> tags in
        match DeviceData ri with
        | Some (p, d) => <["device_id" := d_ID d]> (<["profile_id" := p_ID p]> tags)
        | None => tags
        end
    | None =>
        match ctx_reqID ctx with
        | Some reqID => <["request_id" := reqID]> tags
        | None => tags
        end
    end in
  let tags :=
    match ctx_si ctx with
    | Some si =>
        <["dns_server_proto" := Protocol_String (si_Proto si)]>
          (<["dns_server_addr" := si_Addr si]> (<["dns_server_name" := si_Name si]> tags))
    | None => tags
    end in
  match ctx_srvReq ctx with
  | Some ri =>
      let tags := <["dns_client_tls_server_name" := toASCII (default EmptyString (sri_TLS_ServerName ri))]> tags in
      match sri_URL ri with
      | Some u => <["dns_client_url_path" := RequestURI u]> tags
      | None => tags
      end
  | None => tags
  end.

(** ** Collectors *)

(** An event that is captured. *)
Definition event : Type := gerr * gmap string string.

Definition sentry_Collect (ctx : err_ctx) (sent : list event) (err : gerr) : list event :=
  if negb (isReportable err) then sent else sent ++ [(err, tagsFromCtx ctx)].

(** What [fmt.Errorf] with one wrapped error makes. *)
Definition Errorf (text : string) (err : gerr) : gerr :=
  Foreign {| fo_text := text; fo_is := []; fo_net := None; fo_quic := None |} [err].

(** [errcoll.Collect] with the collector of Sentry. *)
Definition errcoll_Collect (ctx : err_ctx) (sent : list event) (msg : string) (err : gerr) : list event :=
  sentry_Collect ctx sent (Errorf (msg +:+ ": " +:+ err_text err) err).

(** [RefreshErrorHandler.Handle]. *)
Definition refresh_Handle (ctx : err_ctx) (sent : list event) (err : gerr) : list event :=
  errcoll_Collect ctx sent "refreshing" err.

End tags.

Definition fmt_bool (b : bool) : string := if b then "true" else "false".

(** writer.go; the time comes as text. *)
Definition writer_Collect (now : string) (w : string) (err : gerr) : string :=
  let '(isIface, isRep) := match g_As as_sentry err with Some r => (true, r) | None => (false, false) end in
  w +:+ now +:+ ": caught error: " +:+ err_text err +:+ " (sentry iface: " +:+ fmt_bool isIface
    +:+ ", reportable: " +:+ fmt_bool isRep +:+ ")" +:+ String (byte_of 10) EmptyString.

(** ** Facts *)

(** An error of the tree. *)
Inductive within : gerr -> gerr -> Prop :=
  | within_refl e : within e e
  | within_unwrap e e1 e' : e1 ∈ unwrap_all e -> within e' e1 -> within e' e.

(** Induction over the trees of errors. *)
Lemma gerr_tree_ind (P : gerr -> Prop) :
  (forall e, (forall e1, e1 ∈ unwrap_all e -> P e1) -> P e) -> forall e, P e.
Proof.
  intros HP. fix IH 1. intros [f inner|err m fb|err p|err|err|err typ|err|msg]; apply HP; simpl;
    try (intros e1 ->%list_elem_of_singleton; apply IH); try (intros e1 []%not_elem_of_nil).
  revert inner. fix IHl 1. intros [|x l] e1; [intros []%not_elem_of_nil|].
  intros [->|Hl]%elem_of_cons; [apply IH|exact (IHl l e1 Hl)].
Qed.

Lemma g_As_unfold {A} (view : gerr -> option A) e :
  g_As view e = match view e with Some a => Some a | None => first_some (g_As view) (unwrap_all e) end.
Proof. destruct e; simpl; case_match; try done; by destruct (g_As view _). Qed.

Lemma g_Is_unfold t e :
  g_Is t e = match e with Foreign f _ => bool_decide (t ∈ fo_is f) | _ => false end || existsb (g_Is t) (unwrap_all e).
Proof. by destruct e; simpl; rewrite ?orb_false_r. Qed.

Lemma first_some_spec {A B} (f : A -> option B) l :
  match first_some f l with
  | Some b => exists x, x ∈ l /\ f x = Some b
  | None => forall x, x ∈ l -> f x = None
  end.
Proof.
  induction l as [|x l IH]; simpl; [by intros x []%not_elem_of_nil|].
  destruct (f x) eqn:E; [exists x; split; [by left|done]|].
  destruct (first_some f l) as [b|]; [destruct IH as (y & ? & ?); exists y; split; [by right|done]|].
  intros y [->|Hy]%elem_of_cons; auto.
Qed.

(** [errors.As] finds an error of the tree of the type, if there is one. *)
Lemma g_As_spec {A} (view : gerr -> option A) e :
  match g_As view e with
  | Some a => exists e', within e' e /\ view e' = Some a
  | None => forall e', within e' e -> view e' = None
  end.
Proof.
  induction e as [e IH] using gerr_tree_ind. rewrite g_As_unfold. destruct (view e) eqn:E.
  { exists e. split; [constructor|done]. }
  pose proof (first_some_spec (g_As view) (unwrap_all e)) as Hf. destruct (first_some _ _) as [a|].
  - destruct Hf as (x & Hx & Ha). specialize (IH x Hx). rewrite Ha in IH. destruct IH as (e' & ? & ?).
    exists e'. split; [by econstructor|done].
  - intros e' Hw. destruct Hw as [|e e1 e' H1 Hw]; [done|]. specialize (IH _ H1). rewrite (Hf _ H1) in IH. auto.
Qed.

(** [errors.Is] finds the target anywhere in the tree. *)
Lemma g_Is_spec t e : g_Is t e = true <-> exists f inner, within (Foreign f inner) e /\ t ∈ fo_is f.
Proof.
  induction e as [e IH] using gerr_tree_ind. rewrite g_Is_unfold, orb_true_iff, existsb_exists. split.
  - intros [Hf|(x & Hx%list_elem_of_In & Ht)].
    + destruct e; try done. bool_simp. eexists _, _. split; [constructor|done].
    + apply (IH _ Hx) in Ht as (f & inner & ? & ?). eexists _, _. split; [by econstructor|done].
  - intros (f & inner & Hw & Ht). inversion Hw as [e' E1|e1 e2 e3 H1 H2]; subst.
    + left. by apply bool_decide_eq_true.
    + right. exists e2. split; [by apply list_elem_of_In|]. apply IH; [done|]. eauto.
Qed.

(** A connection that breaks, or a timeout, is somewhere in the tree. *)
Definition broken (err : gerr) : Prop :=
  exists f inner, within (Foreign f inner) err /\ exists t, t ∈ connectionBreaks /\ t ∈ fo_is f.

Lemma isConnectionBreak_spec err : isConnectionBreak err = true <-> broken err.
Proof.
  unfold isConnectionBreak, broken. rewrite existsb_exists. split.
  - intros (t & Ht%list_elem_of_In & (f & inner & ? & ?)%g_Is_spec). eauto 10.
  - intros (f & inner & Hw & t & Ht & Hf). exists t. split; [by apply list_elem_of_In|]. apply g_Is_spec. eauto.
Qed.

Lemma network_reported err : isReportableNetwork err = true ->
  ~ broken err /\ exists f inner, within (Foreign f inner) err /\ fo_net f = Some false.
Proof.
  unfold isReportableNetwork. rewrite <- isConnectionBreak_spec. destruct (isConnectionBreak err); [done|].
  intros H. split; [done|]. pose proof (g_As_spec as_net err) as Hs. destruct (g_As as_net err) as [[]|]; try done.
  destruct Hs as ([f inner| | | | | | |] & ? & ?); naive_solver.
Qed.

Lemma write_reported err : isReportableWriteQUIC err = true \/ isReportableWriteTCP err = true -> ~ broken err.
Proof.
  rewrite <- isConnectionBreak_spec. unfold isReportableWriteQUIC, isReportableWriteTCP.
  destruct (isConnectionBreak err); [intros []|]; done.
Qed.

(** An error is reported only if an error of the tree says so, if forwarding has
    failed with an error of the network that is neither a timeout nor a broken
    connection, if a response was not written for another reason than a broken
    connection, or if nothing is known of it. *)
Theorem reported_errors e : isReportable e = true ->
  (exists e', within e' e /\ as_sentry e' = Some true) \/
  (exists err m fb, within (forward_Error err m fb) e /\ ~ broken err /\
     exists f inner, within (Foreign f inner) err /\ fo_net f = Some false) \/
  (exists err p, within (WriteError err p) e /\ (p ∈ ["quic"; "tcp"] -> ~ broken err)) \/
  (forall e', within e' e -> as_sentry e' = None /\ as_forward e' = None /\ as_write e' = None).
Proof.
  unfold isReportable. pose proof (g_As_spec as_sentry e) as Hs. destruct (g_As as_sentry e) as [r|].
  { intros ->. by left. }
  pose proof (g_As_spec as_forward e) as Hf. destruct (g_As as_forward e) as [err|].
  { intros H%network_reported. destruct Hf as (e' & Hw & Hv). destruct e'; try done. injection Hv as <-. right. left. eauto 10. }
  pose proof (g_As_spec as_write e) as Hw. destruct (g_As as_write e) as [[err p]|]; [|naive_solver].
  destruct Hw as (e' & Hw & Hv). destruct e'; try done. injection Hv as <- <-.
  intros H. right. right. left. eexists _, _. split; [done|].
  intros [->|[->|[]%not_elem_of_nil]%elem_of_cons]%elem_of_cons; apply write_reported; auto.
Qed.

(** What the helpers add to an error does not change whether it is reported. *)
Theorem collected_with_message rev ctx sent msg err :
  errcoll_Collect rev ctx sent msg err =
    if isReportable err
    then sent ++ [(Errorf (msg +:+ ": " +:+ err_text err) err, tagsFromCtx rev ctx)]
    else sent.
Proof.
  unfold errcoll_Collect, sentry_Collect.
  assert (isReportable (Errorf (msg +:+ ": " +:+ err_text err) err) = isReportable err) as ->; [|by destruct (isReportable err)].
  assert (forall A (view : gerr -> option A), view (Errorf (msg +:+ ": " +:+ err_text err) err) = None ->
            g_As view (Errorf (msg +:+ ": " +:+ err_text err) err) = g_As view err) as Hv.
  { intros A view Hn. rewrite g_As_unfold, Hn. simpl. by destruct (g_As view err). }
  unfold isReportable. by rewrite !Hv.
Qed.

(** *** Tags *)

Notation printable := (fun c : ascii => 32 <= bval c <= 126).

Lemma hex_of_printable n r : Forall printable (hex_of n r).
Proof.
  unfold hex_of. rewrite Forall_map. apply Forall_forall. intros k _. unfold ip_hex_digit.
  set (d := Z.land _ 15). assert (0 <= d < 16).
  { subst d. change 15 with (Z.ones 4). rewrite Z.land_ones by lia. apply Z.mod_pos_bound. lia. }
  unfold bval, ascii_of_nat. case_match; rewrite N_ascii_embedding; lia.
Qed.

Lemma appendEscapedRune_printable r : Forall printable (appendEscapedRune r).
Proof.
  assert (forall s l, Forall printable (bytes s) -> Forall printable l -> Forall printable (bytes s ++ l)) as Happ
    by (intros; by apply Forall_app).
  unfold appendEscapedRune. repeat case_match; bool_simp; try apply Happ; try apply hex_of_printable;
    try (by repeat constructor); repeat constructor; try done; rewrite bval_byte_of; lia.
Qed.

Lemma quote_body_printable fuel s : Forall printable (quote_body fuel s).
Proof.
  revert s. induction fuel as [|fuel IH]; intros [|c s]; try constructor.
  cbn [quote_body]. destruct (DecodeRune (c :: s)) as [r w]. apply Forall_app. split; [|apply IH].
  case_match; [|apply appendEscapedRune_printable]. apply Forall_app. split; [by repeat constructor|apply hex_of_printable].
Qed.

Lemma toASCII_body s :
  toASCII s = match quote_body (String.length s) (bytes s) with [] => "(empty)"%string | b => of_bytes b end.
Proof.
  unfold toASCII, QuoteToASCII. set (b := quote_body _ _). clearbody b.
  assert (drop 1 (take (length (byte_of 34 :: b ++ [byte_of 34]) - 1) (byte_of 34 :: b ++ [byte_of 34])) = b) as ->.
  { rewrite length_cons, length_app, Nat.sub_succ, Nat.sub_0_r. cbn [length]. rewrite Nat.add_1_r. simpl.
    by rewrite drop_0, take_app_length. }
  by destruct b.
Qed.

(** A server name that a client sends becomes a tag that is not empty and has only
    printable ASCII characters, whatever its bytes. *)
Theorem toASCII_printable s : toASCII s <> EmptyString /\ Forall printable (bytes (toASCII s)).
Proof.
  rewrite toASCII_body. pose proof (quote_body_printable (String.length s) (bytes s)) as Hp.
  destruct (quote_body _ _) as [|c b]; [split; [done|by repeat constructor]|]. split; [done|].
  by rewrite bytes_of_bytes.
Qed.

(** The tags name the profile and the device of a request exactly if these are
    known. *)
Theorem profile_tags rev ctx :
  let tags := tagsFromCtx rev ctx in
  let data := ctx_ri ctx ≫= DeviceData in
  tags !! "profile_id" = (fun pd => p_ID pd.1) <$> data /\ tags !! "device_id" = (fun pd => d_ID pd.2) <$> data.
Proof.
  cbv zeta. unfold tagsFromCtx.
  destruct (ctx_srvReq ctx) as [ri|]; [destruct (sri_URL ri)|]; (destruct (ctx_si ctx); simpl);
    (destruct (ctx_ri ctx) as [r|]; [destruct (DeviceData r) as [[p d]|] eqn:E|destruct (ctx_reqID ctx)]); split; simpl;
    repeat (rewrite lookup_insert_ne by done); rewrite ?lookup_insert_eq, ?lookup_singleton_ne by done;
    rewrite ?E; done.
Qed.

(** ** Runs *)

Definition errno (name : string) (timeout : bool) : gerr :=
  Foreign {| fo_text := name; fo_is := [name]; fo_net := Some timeout; fo_quic := None |} [].

(** A refused connection of an upstream is not reported, and another error of the
    network is. *)
Example refused_not_reported :
  isReportable (Errorf "x" (forward_Error (Errorf "dial" (errno "unix.ECONNREFUSED" false)) (Some "8.8.8.8:53") None)) = false /\
  isReportable (Errorf "x" (forward_Error (Errorf "dial" (errno "unix.EMFILE" false)) (Some "8.8.8.8:53") None)) = true.
Proof. by vm_compute. Qed.

Lemma reported_errors_witness :
  (exists e', within e' (Errorf "x" (httpError (errno "unix.EMFILE" false))) /\ as_sentry e' = Some true).
Proof.
  destruct (reported_errors (Errorf "x" (httpError (errno "unix.EMFILE" false)))) as [H|[H|[H|H]]]; [vm_compute; reflexivity|exact H| | |].
  - destruct H as (err & m & fb & Hw & _). exfalso. inversion Hw as [|? ? ? H1 H2]; subst.
    apply list_elem_of_singleton in H1 as ->. inversion H2 as [|? ? ? H1 H3]; subst.
    apply list_elem_of_singleton in H1 as ->. inversion H3 as [|? ? ? H1 H4]; subst. by apply not_elem_of_nil in H1.
  - destruct H as (err & m & Hw & _). exfalso. inversion Hw as [|? ? ? H1 H2]; subst.
    apply list_elem_of_singleton in H1 as ->. inversion H2 as [|? ? ? H1 H3]; subst.
    apply list_elem_of_singleton in H1 as ->. inversion H3 as [|? ? ? H1 H4]; subst. by apply not_elem_of_nil in H1.
  - destruct (H (httpError (errno "unix.EMFILE" false))) as [Hn _]; [|by vm_compute in Hn].
    eapply within_unwrap; [apply list_elem_of_singleton; reflexivity|constructor].
Defined.

Example quoted_name :
  toASCII (of_bytes [byte_of 97; byte_of 195; byte_of 164; byte_of 255; byte_of 10]) = "a\u00e4\xff\n"%string /\
  toASCII EmptyString = "(empty)"%string.
Proof. by vm_compute. Qed.
