(* ===== verification/RedisKV.v ===== *)
(** The key-value storage in Redis: internal/remotekv/rediskv.

    The pool of connections and the client library are a class; what the code
    relies on is the documented behaviour of the commands GET and SET and of the
    conversion of replies. *)

From stdpp Require Import pretty.
From S2P Require Import Prelude GoStd Filter Refreshable DnsCheck.

Open Scope Z_scope.

(** ** The client library *)

Inductive reply := RBulk (b : string) | RStatus (s : string) | RNil | RInt (n : Z).

(** [redis.ErrNil]. *)
Definition redis_ErrNil : string := "redigo: nil returned".

(** A pool with the state of the world: getting a connection, sending a command,
    and closing, which returns the connection; and [redis.Bytes]. *)
Class RedisPool := {
  rp_world : Type;
  rp_conn : Type;
  rp_Get : rp_world -> result error rp_conn * rp_world;
  rp_Do : rp_world -> rp_conn -> list string -> result error reply * rp_world;
  rp_Close : rp_world -> rp_conn -> option error * rp_world;
  redis_Bytes : result error reply -> result error string;
}.

Definition MinTTL : Z := 1000000.

(** [time.Duration.Milliseconds]. *)
Definition Milliseconds (d : Z) : Z := Z.quot d 1000000.

(** ** rediskv.go *)

Section redis.
Context `{RedisPool}.

(** The connection is closed before the error gets its key. *)
Definition redis_Get (w : rp_world) (key : string) : result error (option string) * rp_world :=
  match rp_Get w with
  | (Err err, w) => (annotate "getting %q: %w" (Err (ErrWrap "getting from pool: %w" err)), w)
  | (Ok c, w) =>
      let '(r, w) := rp_Do w c ["GET"; key] in
      let res :=
        match redis_Bytes r with
        | Ok val => Ok (Some val)
        | Err err => if Is err redis_ErrNil then Ok None else Err (ErrWrap "get command: %w" err)
        end in
      let '(closeErr, w) := rp_Close w c in
      (annotate "getting %q: %w" (with_deferred res closeErr), w)
  end.

Definition redis_Set (ttl : Z) (w : rp_world) (key val : string) : option error * rp_world :=
  match rp_Get w with
  | (Err err, w) => (Some (ErrWrap "setting %q: %w" (ErrWrap "getting from pool: %w" err)), w)
  | (Ok c, w) =>
      let '(r, w) := rp_Do w c ["SET"; key; val; "PX"; itoa (Milliseconds ttl)] in
      let res := match r with Ok _ => Ok tt | Err err => Err (ErrWrap "set command: %w" err) end in
      let '(closeErr, w) := rp_Close w c in
      (match annotate "setting %q: %w" (with_deferred res closeErr) with Ok _ => None | Err err => Some err end, w)
  end.

(** The implementation of the storage. *)
Definition RedisKV (ttl : Z) : KV := {|
  kv_state := rp_world;
  kv_Get := redis_Get;
  kv_Set := redis_Set ttl;
|}.

End redis.

(** ** What Redis promises

    The server holds values with the time that they have left, in milliseconds.
    Commands may fail; those that succeed do what the documentation says, and an
    expiration time that is not positive is refused. *)

Class RedisSpec `{RedisPool} := {
  rs_bytes_err err : redis_Bytes (Err err) = Err err;
  rs_bytes_bulk b : redis_Bytes (Ok (RBulk b)) = Ok b;
  rs_bytes_nil : redis_Bytes (Ok RNil) = Err (ErrConst redis_ErrNil);
  rs_value : rp_world -> string -> option (string * Z);
  rs_open : rp_world -> Z;
  rs_get w r w' : rp_Get w = (r, w') ->
    rs_open w' = rs_open w + (match r with Ok _ => 1 | Err _ => 0 end) /\ forall k, rs_value w' k = rs_value w k;
  rs_close w c e w' : rp_Close w c = (e, w') -> rs_open w' = rs_open w - 1 /\ forall k, rs_value w' k = rs_value w k;
  rs_do_open w c cmd r w' : rp_Do w c cmd = (r, w') -> rs_open w' = rs_open w;
  rs_do_get w c key r w' : rp_Do w c ["GET"; key] = (r, w') ->
    (forall k, rs_value w' k = rs_value w k) /\
    match r with
    | Ok rep => rep = match rs_value w key with Some (v, _) => RBulk v | None => RNil end
    | Err err => Is err redis_ErrNil = false
    end;
  rs_do_set w c key val ms r w' : rp_Do w c ["SET"; key; val; "PX"; itoa ms] = (r, w') ->
    match r with
    | Ok _ => 1 <= ms /\ rs_value w' key = Some (val, ms) /\ forall k, k <> key -> rs_value w' k = rs_value w k
    | Err _ => True
    end;
}.

(** ** Theorems *)

Section facts.
Context `{RedisSpec}.

(** A read returns what the server holds, changes nothing and gives its connection
    back on every path. *)
Theorem redis_Get_spec w key r w' : redis_Get w key = (r, w') ->
  rs_open w' = rs_open w /\ (forall k, rs_value w' k = rs_value w k) /\
  forall o, r = Ok o -> o = fst <$> rs_value w key.
Proof.
  unfold redis_Get. intros E. destruct (rp_Get w) as [[c|err] w1] eqn:E1; apply rs_get in E1 as [O1 V1].
  2: { injection E as <- <-. split; [lia|done]. }
  destruct (rp_Do w1 c _) as [rep w2] eqn:E2. pose proof (rs_do_open _ _ _ _ _ E2) as O2.
  apply rs_do_get in E2 as [V2 R2]. destruct (rp_Close w2 c) as [e w3] eqn:E3. apply rs_close in E3 as [O3 V3].
  injection E as <- <-. split; [lia|]. split; [intros k; by rewrite V3, V2, V1|].
  intros o Ho. apply annotate_Ok in Ho. rewrite V1 in R2.
  destruct rep as [rep|err]; simpl in Ho.
  - subst rep. destruct (rs_value w key) as [[v ms]|]; rewrite ?rs_bytes_bulk, ?rs_bytes_nil in Ho; simpl in Ho;
      destruct e; simpl in Ho; by simplify_eq.
  - rewrite rs_bytes_err, R2 in Ho. by destruct e.
Qed.

(** A write that succeeds leaves exactly the value under the key for the lifetime in
    whole milliseconds, which is at least the least that the storage allows, and
    every path gives the connection back. *)
Theorem redis_Set_spec ttl w key val e w' : redis_Set ttl w key val = (e, w') ->
  rs_open w' = rs_open w /\
  (e = None -> MinTTL <= ttl /\ rs_value w' key = Some (val, Milliseconds ttl) /\
     forall k, k <> key -> rs_value w' k = rs_value w k).
Proof.
  unfold redis_Set. intros E. destruct (rp_Get w) as [[c|err] w1] eqn:E1; apply rs_get in E1 as [O1 V1].
  2: { injection E as <- <-. split; [lia|done]. }
  destruct (rp_Do w1 c _) as [rep w2] eqn:E2. pose proof (rs_do_open _ _ _ _ _ E2) as O2.
  apply rs_do_set in E2. destruct (rp_Close w2 c) as [e3 w3] eqn:E3. apply rs_close in E3 as [O3 V3].
  injection E as <- <-. split; [lia|]. intros Hn.
  destruct rep as [rep|err]; [|by destruct e3].
  destruct E2 as (Hms & Hv & Ho). split; [|split; [by rewrite V3|]].
  - unfold Milliseconds, MinTTL in *. destruct (Z_lt_le_dec ttl 1000000); [|lia].
    pose proof (Z.quot_lt_upper_bound ttl 1000000 1). destruct (Z_lt_le_dec ttl 0); [|lia].
    pose proof (Z.quot_opp_l (- ttl) 1000000). pose proof (Z.quot_pos (- ttl) 1000000). rewrite Z.opp_involutive in *. lia.
  - intros k Hk. by rewrite V3, Ho, V1.
Qed.

(** A value that has been set is read back, and one under another key is not
    touched: what the checks rely on. *)
Theorem redis_roundtrip ttl w key val w1 key' r w2 :
  kv_Set (RedisKV ttl) w key val = (None, w1) -> kv_Get (RedisKV ttl) w1 key' = (Ok r, w2) ->
  r = (if bool_decide (key' = key) then Some val else fst <$> rs_value w key').
Proof.
  intros (_ & Hs)%redis_Set_spec (_ & _ & Hg)%redis_Get_spec. destruct (Hs eq_refl) as (_ & Hv & Ho).
  rewrite (Hg r eq_refl). case_bool_decide; subst; [by rewrite Hv|]. by rewrite Ho.
Qed.

End facts.

(** ** A server in memory *)

(** The values, the number of connections in use, and whether the server is up. *)
Record mem_redis := { mr_values : gmap string (string * Z); mr_open : Z; mr_up : bool }.

Definition mem_open (w : mem_redis) (d : Z) : mem_redis :=
  {| mr_values := mr_values w; mr_open := mr_open w + d; mr_up := mr_up w |}.

(** Parsing a number that [itoa] has made: the only text of the number. *)
Definition mem_ms (s : string) (bound : nat) : option Z :=
  Z.of_nat <$> find (fun n => bool_decide (itoa (Z.of_nat n) = s)) (seq 1 bound).

(** Expiration times of up to 100 milliseconds. *)
Definition mem_Do (w : mem_redis) (c : unit) (cmd : list string) : result error reply * mem_redis :=
  if negb (mr_up w) then (Err (ErrConst "connection refused"), w)
  else match cmd with
  | ["GET"; key] => (Ok (match mr_values w !! key with Some (v, _) => RBulk v | None => RNil end), w)
  | ["SET"; key; val; "PX"; ms] =>
      match mem_ms ms 100 with
      | Some ms =>
          (Ok (RStatus "OK"), {| mr_values := <[key := (val, ms)]> (mr_values w); mr_open := mr_open w; mr_up := mr_up w |})
      | None => (Err (ErrConst "ERR invalid expire time"), w)
      end
  | _ => (Err (ErrConst "ERR unknown command"), w)
  end%string.

#[export] Instance mem_pool : RedisPool := {|
  rp_world := mem_redis;
  rp_conn := unit;
  rp_Get w := (Ok tt, mem_open w 1);
  rp_Do := mem_Do;
  rp_Close w _ := (None, mem_open w (-1));
  redis_Bytes r :=
    match r with
    | Err err => Err err
    | Ok (RBulk b) | Ok (RStatus b) => Ok b
    | Ok RNil => Err (ErrConst redis_ErrNil)
    | Ok (RInt _) => Err (ErrConst "unexpected type")
    end;
|}.

Lemma mem_ms_itoa ms n bound : mem_ms (itoa ms) bound = Some n -> 1 <= ms /\ n = ms.
Proof.
  unfold mem_ms. intros Hf. destruct (find _ _) as [k|] eqn:E; [|done]. injection Hf as <-.
  apply find_some in E as [Hk%in_seq Hb%bool_decide_eq_true]. unfold itoa in Hb; apply (inj pretty) in Hb. lia.
Qed.

#[export, refine] Instance mem_spec : RedisSpec := {|
  rs_value (w : @rp_world mem_pool) k := mr_values w !! k;
  rs_open (w : @rp_world mem_pool) := mr_open w;
|}.
Proof.
  - done.
  - done.
  - done.
  - intros w r w' E. by injection E as <- <-.
  - intros w c e w' E. by injection E as <- <-.
  - intros w c cmd r w' E. simpl in E. unfold mem_Do in E. repeat case_match; by simplify_eq.
  - intros w c key r w' E. simpl in E. unfold mem_Do in E. destruct (mr_up w); simpl in E; injection E as <- <-; done.
  - intros w c key val ms r w' E. cbn [rp_Do mem_pool] in E. unfold mem_Do in E. destruct (mr_up w); cbn [negb] in E;
      [|by injection E as <- <-].
    destruct (mem_ms (itoa ms) 100) as [n|] eqn:En; [|by injection E as <- <-].
    apply mem_ms_itoa in En as [? ->]. injection E as <- <-. split; [done|]. split; [by apply lookup_insert_eq|].
    intros k Hk. by apply lookup_insert_ne.
Defined.

Definition empty_redis : mem_redis := {| mr_values := ∅; mr_open := 0; mr_up := true |}.

(** A value is set for five milliseconds and read back, and no connection is left. *)
Lemma redis_roundtrip_witness :
  exists w1 w2, kv_Set (RedisKV 5000000) empty_redis "abc" "v" = (None, w1) /\
    kv_Get (RedisKV 5000000) w1 "abc" = (Ok (Some "v"%string), w2) /\ mr_open w2 = 0.
Proof.
  pose (w1 := snd (kv_Set (RedisKV 5000000) empty_redis "abc" "v")).
  pose (g := kv_Get (RedisKV 5000000) w1 "abc").
  assert (kv_Set (RedisKV 5000000) empty_redis "abc" "v" = (None, w1)) as Hs by (vm_compute; reflexivity).
  assert (kv_Get (RedisKV 5000000) w1 "abc" = (Ok (Some "v"%string), snd g)) as Hg by (vm_compute; reflexivity).
  pose proof (redis_roundtrip 5000000 empty_redis "abc" "v" w1 "abc" _ (snd g) Hs Hg) as _.
  exists w1, (snd g). split; [exact Hs|]. split; [exact Hg|]. vm_compute. reflexivity.
Defined.

(** A lifetime below a millisecond is refused by the server. *)
Example short_ttl_refused : is_Some (fst (redis_Set 999999 empty_redis "abc" "v")).
Proof. vm_compute. eauto. Qed.
